(* ===== verification/_CoqProject ===== *)
-Q . S2P
Prelude.v
Codes.v
Wire.v
Base64.v
CString.v
KexMethods.v
Session.v
ChannelWindow.v
Packet.v
PacketAdd.v
Conn.v
Comp.v
PacketSafety.v
PacketSpec.v
PacketWait.v
ChannelIO.v
ChannelStream.v
ChannelSpec.v
ChannelCtl.v
ChannelLife.v
Transport.v
TransportSpec.v
TransportReceive.v
TransportSafety.v
TransportTrip.v
Kex.v
KexSpec.v
KexAgree.v
KexInit.v
KexPref.v
KexCases.v
DhGroups.v
KexDh.v
KexDhSpec.v
KexSigned.v
Numerals.v
ShellQuote.v
Ext.v
Blocking.v
SftpCodec.v
Sftp.v
SftpSpec.v
SftpFrames.v
SftpWait.v
SftpOps.v
SftpFile.v
SftpSession.v
SftpWrite.v
SftpDir.v
OwnBlock.v
Scp.v
ScpSpec.v
Knownhost.v
KnownhostSpec.v
KnownhostRead.v
KnownhostTrip.v
Userauth.v
UserauthKbd.v
UserauthPk.v
Yields.v
TransportWait.v
UserauthAuth.v
UserauthAlg.v
UserauthKbdSpec.v
UserauthTrip.v
ChannelReq.v
ChannelReqSpec.v
ChannelApi.v
ChannelFwd.v
SessionStart.v
SessionSpec.v
SessionApi.v
SessionFree.v
Publickey.v
PublickeySpec.v
PublickeyList.v
Agent.v
AgentSpec.v
AgentList.v
