(* ===== verification/Prelude.v ===== *)
(** * A verification development for the libssh2 sources of ssh2-python3

    ssh2-python3 wraps libssh2, an SSH client in C; the logic is in
    src/libssh2/src. The library models the connection from the bytes on the
    socket to the files of an SFTP session, and how a client proves who it is:

    - transport.c: the binary packet protocol. [_libssh2_transport_send] pads,
      compresses, authenticates, enciphers and sends a packet and keeps what the
      socket did not take; [_libssh2_transport_read] collects packets from the
      stream and hands them to
    - packet.c: [_libssh2_packet_add] acts on every message type and queues the
      rest; the queue is searched ([_ask], [_askv]) and waited for ([_require],
      [_requirev], [_burn]) by
    - channel.c: opening, reading, writing, flushing, window accounting, end of
      file, closing and freeing of channels, channel requests and port forwarding, which
      carries
    - sftp.c: the SFTP client. [sftp_packet_read] cuts the channel's stream into
      packets; the operations send requests, several at a time for reading and
      writing, and wait for the answers by request number;
    - kex.c: key exchange, which transport.c and packet.c call: negotiation of the
      methods, the Diffie-Hellman and elliptic-curve exchanges, the derivation of
      keys; with the method tables of kex.c, hostkey.c, crypt.c, mac.c and comp.c;
    - userauth.c, userauth_kbd_packet.c: the methods of user authentication, each a
      state machine that sends requests and waits for the server's answers;
    - scp.c: file transfer over a channel with the remote scp command, whose lines it
      parses; knownhost.c: the collection of known host keys and its file format;
    - session.h, session.c, keepalive.c: the start of a session (identification lines,
      key exchange, service), its end, polling, the macros that make a call block, the
      wait for the socket and the keepalive messages;
    - publickey.c: the subsystem that manages the keys an account accepts; agent.c: the
      client of the key agent, which lists keys and signs;
    - misc.c: the encoding all of them use (integers, strings, mpints, bounded
      readers), base64, and the error record; comp.c: compression.

    Every function that can return [LIBSSH2_ERROR_EAGAIN] keeps its progress in
    the session or channel and is called again; the models keep these state
    structs and re-entry points, so that interrupted and resumed calls are part
    of what the theorems speak of.

    ** Files

    - Prelude: machine integers with explicit wrap-around ([u8], [u32], [s32]),
      byte lists with bounds-checked access, the outcome monad ([Ret], [Fault],
      [OutOfFuel]) with its weakest precondition [wp] (total correctness: a fault
      or exhausted fuel satisfies nothing), record update, tactics.
    - Codes: the constants of libssh2.h and libssh2_priv.h.
    - Wire: misc.c's store and get functions ([_libssh2_store_u32],
      [_libssh2_get_string], ...), [_libssh2_store_bignum2_bytes], the AES-CTR
      counter. Base64: [libssh2_base64_decode], [_libssh2_base64_encode].
    - Session: the session, channel, listener and packet structs as records;
      channels and payloads live in explicit stores and are referred to by
      pointers, so aliasing and life times are modelled and a use or release of
      memory that is not live is a [Fault]. Allocator, clock and socket are
      oracles of the state.
    - ChannelWindow, Packet, PacketAdd, PacketWait: the rest of packet.c and the
      part of channel.c it calls. ChannelIO, ChannelCtl, ChannelReq (pty, agent and X11
      requests), ChannelFwd (forwarding), ChannelApi (public functions): channel.c.
      Comp: comp.c. Transport: transport.c.
    - CString: the C string functions over byte lists. KexMethods: the method
      tables. Kex: [kexinit], [kex_agree_methods], [_libssh2_kex_exchange] and the
      preferences. DhGroups: the fixed primes. KexDh: the exchange methods
      ([diffie_hellman_sha_algo], [ecdh_sha2_nistp], [curve25519_sha256], the group
      exchanges).
    - Blocking: [BLOCK_ADJUST], [_libssh2_wait_socket], keepalive.c.
      SessionStart: [banner_send], [banner_receive], [session_startup] and the
      disconnect. SessionApi: [libssh2_poll] and the accessors. SessionFree:
      [session_free] and what it leaves.
    - Ext: the session together with the fields that only one client of it uses
      ([XM]), which scp.c, knownhost.c and userauth.c run on. OwnBlock: the memory of
      such a client. Yields: rules for what a call returns. Numerals: [strtol], [snprintf] and decimal numbers.
    - ShellQuote: [shell_quotearg]. Scp: [scp_recv], [scp_send] and the public
      functions. Knownhost: knownhost.c. Userauth: [userauth_list] and
      [userauth_password]. UserauthKbd: [userauth_keyboard_interactive] and the parser
      of its questions. UserauthPk: key files, [_libssh2_key_sign_algorithm],
      [_libssh2_userauth_publickey], host based authentication and security keys.
      Publickey: publickey.c. Agent: agent.c with the backend for Unix sockets.
    - SftpCodec: the attribute codec and the protocol's numbers. Sftp: the SFTP
      object, packets and waiting, over a state [world] that extends the session.
      SftpOps: the operations with one answer, by the three shapes the code has, and
      directories. SftpFile: [sftp_open], [sftp_read], [sftp_write]. SftpSession:
      closing, seeking, [sftp_init], [sftp_shutdown] and the public functions.
    - Conn: the invariant [conn_ok] of channels, heap and queue, and the class
      [Transport], what the connection layer relies on when it sends.
      PacketWait's class [TransportRead] is what its waiting loops rely on when they read.
      TransportSpec proves that [_libssh2_transport_send] is a [Transport], and TransportWait
      that [_libssh2_transport_read] is a [TransportRead] while the first keys are exchanged.
      SftpSpec's class [ChannelInput] and SftpWrite's [ChannelOutput] are what SFTP
      relies on of the channel; SftpFrames and SftpWrite prove that channel.c keeps
      them.
    - PacketSafety, PacketSpec, ChannelStream, ChannelSpec, ChannelLife, ChannelReqSpec,
      TransportSpec, TransportReceive, TransportSafety, TransportTrip, TransportWait, KexSpec, KexAgree,
      KexInit, KexPref, KexCases, KexDhSpec, KexSigned, SessionSpec, SftpSpec, SftpFrames,
      SftpWait, SftpWrite, SftpDir, ScpSpec, KnownhostSpec, KnownhostRead, KnownhostTrip,
      UserauthAuth, UserauthAlg, UserauthKbdSpec, UserauthTrip, PublickeySpec,
      PublickeyList, AgentSpec, AgentList: theorems. ScpSpec's class [ByteChannel],
      UserauthAuth's [NoSuccess], UserauthTrip's [Server], ChannelReqSpec's [NoAnswer],
      Blocking's [SendReturns], SessionFree's [SendEnds] and PublickeyList's [AnswerChannel]
      say what these clients rely on of the layers below; [send_at_returns] and
      [send_at_ends] show the middle two for the modelled transport layer.

    ** What is shown

    - Safety and ownership: [packet_add_disposes] (no message of a peer makes
      [_libssh2_packet_add] leave its buffers or use dead memory; the payload is
      freed or queued, once), [collect_any_bytes_safe] (nor, before keys are in
      use, the collecting loop of [_libssh2_transport_read]), [getters_memory_safe], [base64_decode_in_bounds],
      [zlib_decomp_bounded], [channel_free_releases].
    - Streams: [transport_send_whole_packet] (a packet goes out whole, once and
      well-formed, however the socket takes it), [transport_roundtrip] (a peer
      collects it again, however the stream is cut, and both ends stay in step),
      [channel_data_end_to_end] and [channel_read_stream] (channel data arrives
      in the reader's stream, and reading returns its front and removes exactly
      that), [channel_write_window], [channel_data_window],
      [window_adjust_balances] (flow control).
    - Sessions: [startup_identifies] (with the default line: the lines are exchanged, however
      the socket cuts them, and nothing behind the server's line is lost),
      [poll_channel_read_finds], [session_free_releases] (when the connection is gone and no
      key exchange is under way, nothing stays behind and nothing is freed twice).
    - Requests: [request_needs_success] (no channel request succeeds without the
      server's acceptance).
    - Queue and waiting: [packet_ask_first_match], [packet_require_hands_over] (during the
      first key exchange, over the transport layer and whatever the peer sends, waiting ends,
      and with the packet asked for if that arrives); [block_adjust_completes] (a blocking call
      is its operation repeated until it is done, and does not end with
      [LIBSSH2_ERROR_EAGAIN]).
    - Key exchange: [exchange_keys_signed] (no keys are used without a verified
      signature of the server over the exchange hash), [kex_agree_methods_rfc4253]
      (the methods are those of RFC 4253, 7.1), [kex_agree_methods_safe],
      [kex_agree_instr_membership], [kexinit_roundtrip], [value_hash_rfc4253] (the
      keys are those of RFC 4253, 7.2), [method_pref_filters],
      [kex_exchange_flags].
    - SFTP: [sftp_packet_read_frames] (the stream is cut into its packets and no
      byte is lost), [sftp_packet_ask_first], [sftp_packet_require_answer] (unless the stream
      ends inside a packet, waiting ends, with the answer asked for or an error),
      [sftp_write_file] (the outstanding requests are the application's data at
      their offsets, and the position moves by what is returned),
      [readdir_pop_safe], [readdir_roundtrip].
    - User authentication: [userauth_needs_success] (no call succeeds and the session
      is not authenticated until the server says so), [publickey_signs_request] (what
      is sent, and that the signature covers the session and the request),
      [key_sign_algorithm_best], [decode_info_request_safe],
      [info_request_roundtrip].
    - Public-key subsystem: [fetch_key_in] (keys are read inside their packet),
      [list_fetch_complete] (once all answers have arrived, the list has exactly the server's
      keys).
    - Agent: [agent_lists_keys], [agent_signs], [agent_uses_safe] (memory under any
      answer and any failure of an agent that does not close the connection).
    - Known hosts: [knownhost_check_lookup], [knownhost_readfile_safe],
      [knownhost_file_roundtrip] (for entries that are [printed]),
      [knownhost_calls_invariant] (adding, looking up, removing, traversing and reading, in any
      order).
    - SCP: [shell_quotearg_word] (the remote shell reads the quoted path as the path),
      [scp_answers_safe], [scp_lines_roundtrip].
    - Channel state: [channel_eof_masks], [channel_close_final],
      [channel_nextid_fresh].
    - Encodings: [fields_roundtrip], [store_bignum2_canonical],
      [base64_roundtrip], [aes_ctr_increment_spec].
    - Defects: runs on concrete sessions where the code does not do what it means
      to ([ignored_extended_data_resume], [forwarded_open_resume],
      [x11_open_resume], [exit_signal_uninitialised], [window_adjust_resume],
      [flush_refund_underflow], [extended_data_not_flushed],
      [channel_close_returns_early], [channel_nextid_duplicate],
      [base64_decode_size_overflow], [zlib_decomp_exceeds_limit],
      [decrypt_failure_frees_queued_payload], [unaligned_length_asserts],
      [rekey_in_send_misaligns], [ext_info_null_call],
      [first_kex_packet_follows_unread], [kexinit_random_leak],
      [dh_key_pair_failure_is_success], [dh_reply_dangling_hostkey],
      [keepalive_aborts_suspended_send], [sftp_packet_read_eof_hangs],
      [symlink_reply_overread], [open_status_double_free],
      [mkdir_failure_double_free], [fsync_resends_part], [scp_send_overread],
      [newline_inside_faults], [short_name_ignored], [prefix_is_key_type],
      [length_without_newline], [empty_salt_faults], [repeated_algorithm_overflows],
      [declined_password_faults], [expired_without_callback],
      [malformed_question_dropped], [short_failure_not_asked_again],
      [short_method_lengthened], [own_line_mixed], [own_line_overread],
      [service_accept_overread], [short_accept_leaks], [disconnect_language_misplaced],
      [disconnect_overread], [handshake_without_keys], [poll_short_packet_readable],
      [poll_unlimited_misses_data], [agent_request_not_resent], [pty_lengths_wrap],
      [window_adjust2_stores_old_size], [free_listeners_spins],
      [unfinished_exchange_leaks], [status_overread], [version_overread],
      [shutdown_frees_twice], [first_key_malformed], [blocked_list_loses_keys],
      [split_answer_fails], [add_short_write_faults], [version_message_restarts],
      [failed_connect_closes_twice], [identity_path_unchecked], [closed_agent_spins],
      [closed_agent_hangs], [blocked_sign_resends]).

    ** Fuel and bounds

    Loops over finite data are structural. Loops the outside world bounds take
    fuel, and theorems about them give an amount that is enough: one round more
    than bytes are on the way for the waiting loops ([to_come]), twice the bytes of the
    incoming stream for the collecting loop ([rx_measure]), 12 doublings for
    decompression ([decomp_rounds]), one round per queued packet for freeing a
    channel, 258 rounds for a line of SCP. For the SFTP loops the bytes of the stream, the chunks of the handle and
    the bytes presented together are enough, for a blocking call the measure of its
    operation; for the lines of a start the outcomes of the socket ([recv_rounds]), for
    freeing a session its channels and listeners, for a list of keys one round more than
    there are keys. The agent's loops take as many rounds as its socket has outcomes, or
    the answer has bytes, and need no fuel of the caller; when the agent has closed the
    connection no number of rounds is enough ([closed_agent_spins]). Sizes are those of the code: 35,000 bytes of output buffer, 40,000 of
    payload, 16 KB of input buffer, 30,000 bytes per SFTP request, 256 KB per SFTP
    packet.

    ** Outside the models

    Ciphers, MACs, zlib, the random generator, digests, big numbers, curves and host
    key methods are arguments of the definitions; what is relied on is stated as
    classes ([SendSuite], [CipherPair], [Inflate], [Digest], [Random]) with concrete
    instances. The transport layer takes the key exchange, and the key exchange the
    transport layer, as arguments. Debug output is left out. Assertions are enabled.
    Threads are not modelled: libssh2 forbids concurrent use of a session. [size_t]
    and [long] have 64 bits. There is one SFTP object per session. The functions of a
    backend that read keys and sign, and HMAC-SHA1 for hashed host names, are arguments.

    Not modelled: the reader of private key files (pem.c, with bcrypt_pbkdf.c and
    blowfish.c), which only the backends call, and the bodies of the host key, cipher and
    MAC methods (hostkey.c, crypt.c, mac.c), which call the backends; the crypto backends,
    bindings of libraries that are not part of the repository; the agent's backends for
    Windows; [libssh2_session_callback_set] and [libssh2_session_abstract]; libssh2's
    global initialisation. That [_libssh2_transport_read] is a [TransportRead] is shown from
    states of the first key exchange in which no earlier call is suspended
    ([first_exchange]); the resumption defects above are states where it is not. *)

From stdpp Require Import base numbers list list_numbers gmap strings.

#[global] Open Scope Z_scope.

(** ** Machine integers

    A C integer of width [w] is a [Z]; every place where the C code wraps is
    an explicit application of one of the following functions. *)

Definition u8 (z : Z) : Z := z mod 2 ^ 8.
Definition u32 (z : Z) : Z := z mod 2 ^ 32.
Definition u64 (z : Z) : Z := z mod 2 ^ 64.

(** Conversion of an unsigned 32-bit value to [int] (two's complement). *)
Definition s32 (z : Z) : Z :=
  let v := u32 z in if 2 ^ 31 <=? v then v - 2 ^ 32 else v.

Definition UINT_MAX : Z := 2 ^ 32 - 1.

Lemma u8_range z : 0 <= u8 z < 2 ^ 8.
Proof. apply Z.mod_pos_bound; lia. Qed.

Lemma u32_range z : 0 <= u32 z < 2 ^ 32.
Proof. apply Z.mod_pos_bound; lia. Qed.

Lemma u64_range z : 0 <= u64 z < 2 ^ 64.
Proof. apply Z.mod_pos_bound; lia. Qed.

Lemma u8_small z : 0 <= z < 2 ^ 8 -> u8 z = z.
Proof. intros; by apply Z.mod_small. Qed.

Lemma u32_small z : 0 <= z < 2 ^ 32 -> u32 z = z.
Proof. intros; by apply Z.mod_small. Qed.

Lemma u64_small z : 0 <= z < 2 ^ 64 -> u64 z = z.
Proof. intros; by apply Z.mod_small. Qed.

Lemma u32_u32 z : u32 (u32 z) = u32 z.
Proof. apply u32_small, u32_range. Qed.

Lemma s32_nonneg z : 0 <= z < 2 ^ 31 -> s32 z = z.
Proof.
  intros H. unfold s32. rewrite u32_small by lia.
  destruct (Z.leb_spec (2 ^ 31) z); lia.
Qed.

Lemma s32_inj a b : 0 <= a < 2 ^ 32 -> 0 <= b < 2 ^ 32 -> s32 a = s32 b -> a = b.
Proof.
  intros Ha Hb. unfold s32. rewrite !u32_small by done.
  destruct (Z.leb_spec (2 ^ 31) a), (Z.leb_spec (2 ^ 31) b); lia.
Qed.

Lemma testbit_high lo n k : 0 <= n <= k -> 0 <= lo < 2 ^ n -> Z.testbit lo k = false.
Proof.
  intros Hk Hlo. rewrite <- (Z.mod_small lo (2 ^ n)) by done.
  by apply Z.mod_pow2_bits_high.
Qed.

(** Disjoint [|] is addition: the shape of every multi-byte assembly in the
    sources ([hi << n | lo] with [lo < 2^n]). *)
Lemma lor_shiftl_add hi lo n :
  0 <= n -> 0 <= lo < 2 ^ n -> Z.lor (Z.shiftl hi n) lo = hi * 2 ^ n + lo.
Proof.
  intros Hn Hlo. rewrite <- Z.shiftl_mul_pow2 by lia.
  symmetry. rewrite Z.add_nocarry_lxor.
  - apply Z.bits_inj'. intros k Hk. rewrite Z.lxor_spec, Z.lor_spec.
    destruct (Z.ltb_spec k n).
    + rewrite Z.shiftl_spec_low by lia. by destruct (Z.testbit lo k).
    + rewrite (testbit_high lo n k) by lia. by destruct (Z.testbit (hi ≪ n) k).
  - apply Z.bits_inj'. intros k Hk. rewrite Z.land_spec, Z.bits_0.
    destruct (Z.ltb_spec k n).
    + by rewrite Z.shiftl_spec_low by lia.
    + rewrite (testbit_high lo n k) by lia. by rewrite andb_false_r.
Qed.

Lemma land_255 z : Z.land z 255 = z mod 2 ^ 8.
Proof. change 255 with (Z.ones 8). apply Z.land_ones; lia. Qed.

(** ** Bytes *)

Definition is_byte (b : Z) : Prop := 0 <= b < 2 ^ 8.
Definition bytes_ok (l : list Z) : Prop := Forall is_byte l.

#[global] Instance is_byte_dec b : Decision (is_byte b).
Proof. unfold is_byte. apply _. Defined.
#[global] Instance bytes_ok_dec l : Decision (bytes_ok l).
Proof. unfold bytes_ok. apply _. Defined.

Definition lenZ {A} (l : list A) : Z := Z.of_nat (length l).

Lemma lenZ_nonneg {A} (l : list A) : 0 <= lenZ l.
Proof. unfold lenZ; lia. Qed.

Lemma lenZ_app {A} (l k : list A) : lenZ (l ++ k) = lenZ l + lenZ k.
Proof. unfold lenZ. rewrite length_app. lia. Qed.

Lemma lenZ_cons {A} (x : A) l : lenZ (x :: l) = 1 + lenZ l.
Proof. unfold lenZ. simpl. lia. Qed.

(** The bytes [l[off .. off+len)]; callers guard the range as the C code
    does, and the [option]-valued readers below make an unguarded access
    visible. *)
Definition slice (off len : Z) (l : list Z) : list Z :=
  take (Z.to_nat len) (drop (Z.to_nat off) l).

(** [l[i]]: [None] is an access outside the object. *)
Definition byte_at (l : list Z) (i : Z) : option Z :=
  if decide (0 <= i) then l !! Z.to_nat i else None.

(** [memcpy]/[memcmp] source of [len] bytes at [off]: [None] when any of the
    bytes is outside the object. *)
Definition bytes_at (l : list Z) (off len : Z) : option (list Z) :=
  if decide (0 <= off /\ 0 <= len /\ off + len <= lenZ l)
  then Some (slice off len l) else None.

(** An array [old] whose front is written over with [msg]: [None] when it is too short. *)
Definition overwrite (msg old : list Z) : option (list Z) :=
  if decide (length msg <= length old)%nat then Some (msg ++ drop (length msg) old) else None.

Lemma byte_at_in l i : 0 <= i < lenZ l -> is_Some (byte_at l i).
Proof.
  intros H. unfold byte_at, lenZ in *. rewrite decide_True by lia.
  apply lookup_lt_is_Some_2. lia.
Qed.

Lemma byte_at_app_l l k i : i < lenZ l -> byte_at (l ++ k) i = byte_at l i.
Proof.
  intros H. unfold byte_at, lenZ in *. case_decide; [|done].
  rewrite lookup_app_l by lia. done.
Qed.

Lemma byte_at_byte l i b : bytes_ok l -> byte_at l i = Some b -> is_byte b.
Proof.
  unfold byte_at. intros Hl. case_decide; [|done]. intros Hi.
  eapply Forall_lookup_1; eauto.
Qed.

Lemma bytes_at_in l off len :
  0 <= off -> 0 <= len -> off + len <= lenZ l ->
  bytes_at l off len = Some (slice off len l).
Proof. intros. unfold bytes_at. by rewrite decide_True. Qed.

Lemma lenZ_insert {A} (l : list A) i (x : A) : lenZ (<[i := x]> l) = lenZ l.
Proof. unfold lenZ. by rewrite length_insert. Qed.

Lemma bytes_at_all d n : n = lenZ d -> bytes_at d 0 n = Some d.
Proof.
  intros ->. pose proof (lenZ_nonneg d). rewrite bytes_at_in by lia. f_equal. unfold slice, lenZ.
  rewrite Nat2Z.id. apply firstn_all.
Qed.

Lemma lenZ_slice l off len :
  0 <= off -> 0 <= len -> off + len <= lenZ l -> lenZ (slice off len l) = len.
Proof.
  unfold lenZ, slice. intros. rewrite length_take, length_drop. lia.
Qed.

Lemma slice_app_mid (a b c : list Z) :
  slice (lenZ a) (lenZ b) (a ++ b ++ c) = b.
Proof.
  unfold slice, lenZ. rewrite !Nat2Z.id, drop_app_length, take_app_length. done.
Qed.

Lemma slice_at (a b c : list Z) off n : off = lenZ a -> n = lenZ b -> slice off n (a ++ b ++ c) = b.
Proof. intros -> ->. apply slice_app_mid. Qed.

Lemma slice_bytes_ok off len l : bytes_ok l -> bytes_ok (slice off len l).
Proof. intros H. unfold slice. apply Forall_take, Forall_drop, H. Qed.

Lemma bytes_ok_app l k : bytes_ok (l ++ k) <-> bytes_ok l /\ bytes_ok k.
Proof. apply Forall_app. Qed.

(** A boolean property of a byte, or of a small range, by evaluation. *)
Lemma range_all (P : Z -> bool) n :
  forallb P (seqZ 0 n) = true -> forall z, 0 <= z < n -> P z = true.
Proof.
  intros H z Hz. rewrite forallb_forall in H. apply H.
  apply list_elem_of_In, elem_of_seqZ. lia.
Qed.

(** C string literals: their bytes, without the terminator. *)
Fixpoint str (s : string) : list Z :=
  match s with
  | EmptyString => []
  | String c s' => Z.of_N (Ascii.N_of_ascii c) :: str s'
  end.

#[global] Arguments str s%_string_scope.

(** [strlen] of an object that holds a terminated string: the bytes before
    the first 0, [None] when there is none. *)
Fixpoint c_string (l : list Z) : option (list Z) :=
  match l with
  | [] => None
  | b :: l' => if b =? 0 then Some [] else cons b <$> c_string l'
  end.

Lemma str_bytes_ok s : bytes_ok (str s).
Proof.
  induction s as [|c s IH]; simpl; constructor; [|done].
  unfold is_byte. pose proof (Ascii.N_ascii_bounded c). lia.
Qed.

Lemma c_string_app l k : Forall (fun b => b <> 0) l -> c_string (l ++ 0 :: k) = Some l.
Proof.
  induction 1 as [|b l Hb _ IH]; simpl; [done|].
  destruct (Z.eqb_spec b 0); [lia|]. by rewrite IH.
Qed.

(** ** Lists *)

Lemma filter_ext_elem {A} (P Q : A -> Prop) `{forall x, Decision (P x), forall x, Decision (Q x)}
    (l : list A) :
  (forall x, x ∈ l -> P x <-> Q x) -> filter P l = filter Q l.
Proof.
  induction l as [|x l IH]; intros HPQ; [done|]. rewrite !filter_cons, IH.
  - specialize (HPQ x (list_elem_of_here _ _)). do 2 case_decide; tauto.
  - intros y Hy. apply HPQ. by right.
Qed.

Lemma filter_all {A} (P : A -> Prop) `{forall x, Decision (P x)} (l : list A) :
  (forall x, x ∈ l -> P x) -> filter P l = l.
Proof.
  induction l as [|x l IH]; intros HP; [done|]. rewrite filter_cons, decide_True by (apply HP; left).
  rewrite IH; [done|]. intros y Hy. apply HP. by right.
Qed.

(** Removing the [i]-th element. *)
Lemma delete_split {A} (l : list A) i x :
  l !! i = Some x -> exists a b, l = a ++ x :: b /\ delete i l = a ++ b.
Proof.
  intros H. exists (take i l), (drop (S i) l). split; [by rewrite take_drop_middle|].
  apply delete_take_drop.
Qed.

(** ** Outcomes

    A stateful C function returns normally with a value and a state, does
    something undefined (reads or writes outside an object, uses or frees
    memory that is not live), or, for the loops that only the outside world
    bounds, exhausts the fuel the model runs them with. *)

Inductive outcome (S A : Type) : Type :=
| Ret (a : A) (s : S)
| Fault
| OutOfFuel.
Arguments Ret {S A} a s.
Arguments Fault {S A}.
Arguments OutOfFuel {S A}.

Definition M (S A : Type) : Type := S -> outcome S A.

Definition ret {S A} (a : A) : M S A := fun s => Ret a s.
Definition bind {S A B} (m : M S A) (k : A -> M S B) : M S B :=
  fun s => match m s with
           | Ret a s' => k a s'
           | Fault => Fault
           | OutOfFuel => OutOfFuel
           end.
Definition fault {S A} : M S A := fun _ => Fault.
Definition gets {S A} (f : S -> A) : M S A := fun s => Ret (f s) s.
Definition modify {S} (f : S -> S) : M S unit := fun s => Ret tt (f s).

(** A memory access: [None] faults. *)
Definition access {S A} (o : option A) : M S A :=
  match o with Some a => ret a | None => fault end.

Declare Scope cmonad_scope.
Delimit Scope cmonad_scope with cm.
Notation "'let!' x ':=' m 'in' k" := (bind m (fun x => k))
  (at level 10, x name, m at level 100, k at level 200) : cmonad_scope.
Notation "m ;; k" := (bind m (fun _ => k))
  (at level 100, k at level 200, right associativity) : cmonad_scope.
#[global] Open Scope cmonad_scope.

Lemma bind_ret {S A B} (a : A) (k : A -> M S B) s : bind (ret a) k s = k a s.
Proof. done. Qed.

Lemma bind_Ret {S A B} (m : M S A) (k : A -> M S B) s a s' :
  m s = Ret a s' -> bind m k s = k a s'.
Proof. unfold bind. by intros ->. Qed.

Lemma bind_Ret_inv {S A B} (m : M S A) (k : A -> M S B) s b s'' :
  bind m k s = Ret b s'' ->
  exists a s', m s = Ret a s' /\ k a s' = Ret b s''.
Proof. unfold bind. destruct (m s) as [a s'| |] eqn:E; [|done..]. eauto. Qed.

Lemma bind_assoc {S A B C} (m : M S A) (k : A -> M S B) (h : B -> M S C) s :
  bind (bind m k) h s = bind m (fun a => bind (k a) h) s.
Proof. unfold bind. by destruct (m s). Qed.

(** Weakest precondition, for total correctness, used to chain the component
    lemmas: [wp m Q s] says that [m] returns from [s], without a fault and
    within its fuel, and that what it returns satisfies [Q]. *)
Definition wp {S A} (m : M S A) (Q : A -> S -> Prop) (s : S) : Prop :=
  match m s with
  | Ret a s' => Q a s'
  | Fault | OutOfFuel => False
  end.

Lemma wp_Ret {S A} (m : M S A) (Q : A -> S -> Prop) s :
  wp m Q s -> exists a s', m s = Ret a s' /\ Q a s'.
Proof. unfold wp. destruct (m s); naive_solver. Qed.

Lemma wp_run {S A} (m : M S A) (Q : A -> S -> Prop) s a s' : m s = Ret a s' -> Q a s' -> wp m Q s.
Proof. unfold wp. by intros ->. Qed.

Lemma wp_ret {S A} (a : A) (Q : A -> S -> Prop) s : Q a s -> wp (ret a) Q s.
Proof. done. Qed.

Lemma wp_bind {S A B} (m : M S A) (k : A -> M S B) Q s :
  wp m (fun a s' => wp (k a) Q s') s -> wp (bind m k) Q s.
Proof. unfold wp, bind. by destruct (m s). Qed.

Lemma wp_mono {S A} (m : M S A) (Q R : A -> S -> Prop) s :
  wp m Q s -> (forall a s', Q a s' -> R a s') -> wp m R s.
Proof. unfold wp. destruct (m s); naive_solver. Qed.

Lemma wp_gets {S A} (f : S -> A) (Q : A -> S -> Prop) s : Q (f s) s -> wp (gets f) Q s.
Proof. done. Qed.

Lemma wp_modify {S} (f : S -> S) (Q : unit -> S -> Prop) s :
  Q tt (f s) -> wp (modify f) Q s.
Proof. done. Qed.

Lemma wp_access {S A} (o : option A) (Q : A -> S -> Prop) s a :
  o = Some a -> Q a s -> wp (access o) Q s.
Proof. by intros ->. Qed.

Lemma wp_if {S A} (b : bool) (m1 m2 : M S A) Q s :
  (b = true -> wp m1 Q s) -> (b = false -> wp m2 Q s) ->
  wp (if b then m1 else m2) Q s.
Proof. destruct b; auto. Qed.

(** ** Record update

    [r <| p := v |>] is [r] with the field [p] set to [v], for every record
    with an [Eta] instance (the record rebuilt from its projections). *)

Class Eta (R : Type) := eta : R -> R.
Class Setter {R T : Type} (proj : R -> T) := upd : (T -> T) -> R -> R.
#[global] Arguments upd {R T} proj {_} _ _ /.

Ltac derive_setter :=
  match goal with
  | |- @Setter ?R ?T ?p =>
      let e := eval hnf in (@eta R _) in
      match eval pattern p in e with
      | ?f _ =>
          let g := eval cbv beta in (fun h : T -> T => f (fun r => h (p r))) in
          exact g
      end
  end.
#[global] Hint Extern 1 (Setter _) => derive_setter : typeclass_instances.

Notation "r <| p := v |>" := (upd p (fun _ => v) r) (at level 1, left associativity).
Notation "r <| p ::= f |>" := (upd p f r) (at level 1, left associativity).

(** ** Tactics *)

(** Linear arithmetic with division and remainder by constants. *)
Ltac dlia := Z.to_euclidean_division_equations; lia.

(** Turns boolean tests of the code into propositions. *)
Ltac breflect :=
  repeat match goal with
  | H : (_ && _)%bool = true |- _ => apply andb_true_iff in H as [? ?]
  | H : (_ && _)%bool = false |- _ => apply andb_false_iff in H
  | H : (_ || _)%bool = true |- _ => apply orb_true_iff in H
  | H : (_ || _)%bool = false |- _ => apply orb_false_iff in H as [? ?]
  | H : negb _ = true |- _ => apply negb_true_iff in H
  | H : negb _ = false |- _ => apply negb_false_iff in H
  | H : (_ =? _) = true |- _ => apply Z.eqb_eq in H
  | H : (_ =? _) = false |- _ => apply Z.eqb_neq in H
  | H : (_ <? _) = true |- _ => apply Z.ltb_lt in H
  | H : (_ <? _) = false |- _ => apply Z.ltb_ge in H
  | H : (_ <=? _) = true |- _ => apply Z.leb_le in H
  | H : (_ <=? _) = false |- _ => apply Z.leb_gt in H
  | H : bool_decide _ = true |- _ => apply bool_decide_eq_true in H
  | H : bool_decide _ = false |- _ => apply bool_decide_eq_false in H
  end.

(** Splits the innermost [if]/[match] of the goal. *)
Ltac split_if :=
  match goal with
  | |- context [if ?b then _ else _] =>
      lazymatch b with
      | context [if _ then _ else _] => fail
      | context [match _ with _ => _ end] => fail
      | _ => let E := fresh "E" in destruct b eqn:E
      end
  end.

(** One step of a weakest precondition through the monad's operations. *)
Ltac wp_pure :=
  cbn beta iota;
  lazymatch goal with
  | |- wp (bind _ _) _ _ => apply wp_bind
  | |- wp (ret _) _ _ => apply wp_ret
  | |- wp (gets _) _ _ => apply wp_gets
  | |- wp (modify _) _ _ => apply wp_modify
  | |- wp (if ?b then _ else _) _ _ => let E := fresh "E" in destruct b eqn:E
  end.

Create HintDb bytes discriminated.
#[export] Hint Resolve slice_bytes_ok str_bytes_ok u8_range u32_range lenZ_nonneg : bytes.

(** ** What an operation leaves alone *)

(** [m] keeps what [pr] shows of the state. *)
Definition keeps {S A B} (pr : S -> B) (m : M S A) : Prop :=
  forall s a s', m s = Ret a s' -> pr s' = pr s.

Section Keeps.
Context {S B : Type} (pr : S -> B).

Lemma keeps_bind {A C} (m : M S A) (k : A -> M S C) :
  keeps pr m -> (forall a, keeps pr (k a)) -> keeps pr (bind m k).
Proof. intros Hm Hk s b s' (a & s1 & E1 & E2)%bind_Ret_inv. rewrite (Hk _ _ _ _ E2). by eapply Hm. Qed.
Lemma keeps_ret {A} (a : A) : keeps pr (ret a).
Proof. by intros s b s' [= <- <-]. Qed.
Lemma keeps_gets {A} (f : S -> A) : keeps pr (gets f).
Proof. by intros s b s' [= <- <-]. Qed.
Lemma keeps_access {A} (o : option A) : keeps pr (access o).
Proof. destruct o; [apply keeps_ret|done]. Qed.
Lemma keeps_modify f : (forall s, pr (f s) = pr s) -> keeps pr (modify f).
Proof. intros H s a s' [= <- <-]. apply H. Qed.
Lemma keeps_fault {A} : keeps pr (@fault S A).
Proof. done. Qed.
Lemma keeps_out_of_fuel {A} : keeps pr (fun _ => @OutOfFuel S A).
Proof. done. Qed.
End Keeps.

Create HintDb keeps.
#[export] Hint Resolve keeps_ret keeps_gets keeps_access keeps_fault keeps_out_of_fuel : keeps.

(** Goes through the structure of an operation. *)
Ltac keeps_step :=
  cbn beta iota;
  match goal with
  | |- keeps _ (bind _ _) => apply keeps_bind; [|intros ?]
  | |- keeps _ (modify _) => apply keeps_modify; intros ?; reflexivity
  | |- keeps _ (if ?b then _ else _) => destruct b
  | |- keeps _ (match ?x with _ => _ end) => destruct x
  | |- _ => solve [eauto 3 with keeps nocore]
  end.
Ltac keeps_all := repeat keeps_step.
