(* ===== verification/Codes.v ===== *)
(** * Constants

    The numeric codes of [include/libssh2.h] and [src/libssh2_priv.h] the
    modelled code uses, under their C names. *)

From stdpp Require Import base numbers.
From S2P Require Import Prelude.


(** ** Error codes *)

Definition LIBSSH2_ERROR_NONE : Z := 0.
Definition LIBSSH2_ERROR_SOCKET_NONE : Z := -1.
Definition LIBSSH2_ERROR_BANNER_RECV : Z := -2.
Definition LIBSSH2_ERROR_BANNER_SEND : Z := -3.
Definition LIBSSH2_ERROR_INVALID_MAC : Z := -4.
Definition LIBSSH2_ERROR_KEX_FAILURE : Z := -5.
Definition LIBSSH2_ERROR_ALLOC : Z := -6.
Definition LIBSSH2_ERROR_SOCKET_SEND : Z := -7.
Definition LIBSSH2_ERROR_KEY_EXCHANGE_FAILURE : Z := -8.
Definition LIBSSH2_ERROR_TIMEOUT : Z := -9.
Definition LIBSSH2_ERROR_HOSTKEY_INIT : Z := -10.
Definition LIBSSH2_ERROR_HOSTKEY_SIGN : Z := -11.
Definition LIBSSH2_ERROR_DECRYPT : Z := -12.
Definition LIBSSH2_ERROR_SOCKET_DISCONNECT : Z := -13.
Definition LIBSSH2_ERROR_PROTO : Z := -14.
Definition LIBSSH2_ERROR_PASSWORD_EXPIRED : Z := -15.
Definition LIBSSH2_ERROR_FILE : Z := -16.
Definition LIBSSH2_ERROR_METHOD_NONE : Z := -17.
Definition LIBSSH2_ERROR_AUTHENTICATION_FAILED : Z := -18.
Definition LIBSSH2_ERROR_PUBLICKEY_UNVERIFIED : Z := -19.
Definition LIBSSH2_ERROR_CHANNEL_OUTOFORDER : Z := -20.
Definition LIBSSH2_ERROR_CHANNEL_FAILURE : Z := -21.
Definition LIBSSH2_ERROR_CHANNEL_REQUEST_DENIED : Z := -22.
Definition LIBSSH2_ERROR_CHANNEL_UNKNOWN : Z := -23.
Definition LIBSSH2_ERROR_CHANNEL_WINDOW_EXCEEDED : Z := -24.
Definition LIBSSH2_ERROR_CHANNEL_PACKET_EXCEEDED : Z := -25.
Definition LIBSSH2_ERROR_CHANNEL_CLOSED : Z := -26.
Definition LIBSSH2_ERROR_CHANNEL_EOF_SENT : Z := -27.
Definition LIBSSH2_ERROR_SCP_PROTOCOL : Z := -28.
Definition LIBSSH2_ERROR_ZLIB : Z := -29.
Definition LIBSSH2_ERROR_SOCKET_TIMEOUT : Z := -30.
Definition LIBSSH2_ERROR_SFTP_PROTOCOL : Z := -31.
Definition LIBSSH2_ERROR_REQUEST_DENIED : Z := -32.
Definition LIBSSH2_ERROR_METHOD_NOT_SUPPORTED : Z := -33.
Definition LIBSSH2_ERROR_INVAL : Z := -34.
Definition LIBSSH2_ERROR_INVALID_POLL_TYPE : Z := -35.
Definition LIBSSH2_ERROR_PUBLICKEY_PROTOCOL : Z := -36.
Definition LIBSSH2_ERROR_EAGAIN : Z := -37.
Definition LIBSSH2_ERROR_BUFFER_TOO_SMALL : Z := -38.
Definition LIBSSH2_ERROR_BAD_USE : Z := -39.
Definition LIBSSH2_ERROR_COMPRESS : Z := -40.
Definition LIBSSH2_ERROR_OUT_OF_BOUNDARY : Z := -41.
Definition LIBSSH2_ERROR_AGENT_PROTOCOL : Z := -42.
Definition LIBSSH2_ERROR_SOCKET_RECV : Z := -43.
Definition LIBSSH2_ERROR_ENCRYPT : Z := -44.
Definition LIBSSH2_ERROR_BAD_SOCKET : Z := -45.
Definition LIBSSH2_ERROR_KNOWN_HOSTS : Z := -46.
Definition LIBSSH2_ERROR_CHANNEL_WINDOW_FULL : Z := -47.
Definition LIBSSH2_ERROR_KEYFILE_AUTH_FAILED : Z := -48.
Definition LIBSSH2_ERROR_RANDGEN : Z := -49.
Definition LIBSSH2_ERROR_MISSING_USERAUTH_BANNER : Z := -50.
Definition LIBSSH2_ERROR_ALGO_UNSUPPORTED : Z := -51.

(** ** Channels *)

Definition LIBSSH2_CHANNEL_WINDOW_DEFAULT : Z := 2 * 1024 * 1024.
Definition LIBSSH2_CHANNEL_PACKET_DEFAULT : Z := 32768.
Definition LIBSSH2_CHANNEL_MINADJUST : Z := 1024.
Definition LIBSSH2_CHANNEL_EXTENDED_DATA_NORMAL : Z := 0.
Definition LIBSSH2_CHANNEL_EXTENDED_DATA_IGNORE : Z := 1.
Definition LIBSSH2_CHANNEL_EXTENDED_DATA_MERGE : Z := 2.
Definition LIBSSH2_CHANNEL_FLUSH_EXTENDED_DATA : Z := -1.
Definition LIBSSH2_CHANNEL_FLUSH_ALL : Z := -2.

(** ** Blocking directions *)

Definition LIBSSH2_SESSION_BLOCK_INBOUND : Z := 1.
Definition LIBSSH2_SESSION_BLOCK_OUTBOUND : Z := 2.

(** ** Session state bits *)

Definition LIBSSH2_STATE_EXCHANGING_KEYS : Z := 1.
Definition LIBSSH2_STATE_NEWKEYS : Z := 2.
Definition LIBSSH2_STATE_AUTHENTICATED : Z := 4.
Definition LIBSSH2_STATE_KEX_ACTIVE : Z := 8.

(** ** Socket states *)

Definition LIBSSH2_SOCKET_UNKNOWN : Z := 1.
Definition LIBSSH2_SOCKET_CONNECTED : Z := 0.
Definition LIBSSH2_SOCKET_DISCONNECTED : Z := -1.

(** ** MAC states, timeouts and flags *)

Definition LIBSSH2_MAC_UNCONFIRMED : Z := 1.
Definition LIBSSH2_MAC_CONFIRMED : Z := 0.
Definition LIBSSH2_MAC_INVALID : Z := -1.
Definition LIBSSH2_ERR_FLAG_DUP : Z := 1.
Definition LIBSSH2_READ_TIMEOUT : Z := 60.

(** ** Message numbers *)

Definition SSH_MSG_DISCONNECT : Z := 1.
Definition SSH_MSG_IGNORE : Z := 2.
Definition SSH_MSG_UNIMPLEMENTED : Z := 3.
Definition SSH_MSG_DEBUG : Z := 4.
Definition SSH_MSG_SERVICE_REQUEST : Z := 5.
Definition SSH_MSG_SERVICE_ACCEPT : Z := 6.
Definition SSH_MSG_EXT_INFO : Z := 7.
Definition SSH_MSG_KEXINIT : Z := 20.
Definition SSH_MSG_NEWKEYS : Z := 21.
Definition SSH_MSG_KEXDH_INIT : Z := 30.
Definition SSH_MSG_KEXDH_REPLY : Z := 31.
Definition SSH_MSG_KEX_DH_GEX_REQUEST_OLD : Z := 30.
Definition SSH_MSG_KEX_DH_GEX_REQUEST : Z := 34.
Definition SSH_MSG_KEX_DH_GEX_GROUP : Z := 31.
Definition SSH_MSG_KEX_DH_GEX_INIT : Z := 32.
Definition SSH_MSG_KEX_DH_GEX_REPLY : Z := 33.
Definition SSH_MSG_USERAUTH_REQUEST : Z := 50.
Definition SSH_MSG_USERAUTH_FAILURE : Z := 51.
Definition SSH_MSG_USERAUTH_SUCCESS : Z := 52.
Definition SSH_MSG_USERAUTH_BANNER : Z := 53.
Definition SSH_MSG_USERAUTH_PK_OK : Z := 60.
Definition SSH_MSG_USERAUTH_PASSWD_CHANGEREQ : Z := 60.
Definition SSH_MSG_USERAUTH_INFO_REQUEST : Z := 60.
Definition SSH_MSG_USERAUTH_INFO_RESPONSE : Z := 61.
Definition SSH_MSG_GLOBAL_REQUEST : Z := 80.
Definition SSH_MSG_REQUEST_SUCCESS : Z := 81.
Definition SSH_MSG_REQUEST_FAILURE : Z := 82.
Definition SSH_MSG_CHANNEL_OPEN : Z := 90.
Definition SSH_MSG_CHANNEL_OPEN_CONFIRMATION : Z := 91.
Definition SSH_MSG_CHANNEL_OPEN_FAILURE : Z := 92.
Definition SSH_MSG_CHANNEL_WINDOW_ADJUST : Z := 93.
Definition SSH_MSG_CHANNEL_DATA : Z := 94.
Definition SSH_MSG_CHANNEL_EXTENDED_DATA : Z := 95.
Definition SSH_MSG_CHANNEL_EOF : Z := 96.
Definition SSH_MSG_CHANNEL_CLOSE : Z := 97.
Definition SSH_MSG_CHANNEL_REQUEST : Z := 98.
Definition SSH_MSG_CHANNEL_SUCCESS : Z := 99.
Definition SSH_MSG_CHANNEL_FAILURE : Z := 100.

(** ** Reasons of a refused channel *)

Definition SSH_OPEN_ADMINISTRATIVELY_PROHIBITED : Z := 1.
Definition SSH_OPEN_CONNECT_FAILED : Z := 2.
Definition SSH_OPEN_UNKNOWN_CHANNELTYPE : Z := 3.
Definition SSH_OPEN_RESOURCE_SHORTAGE : Z := 4.

(** ** Sizes of the transport layer *)

Definition MAX_SSH_PACKET_LEN : Z := 35000.
Definition LIBSSH2_PACKET_MAXPAYLOAD : Z := 40000.
Definition LIBSSH2_PACKET_MAXDECOMP : Z := 40000.
Definition PACKETBUFSIZE : Z := 1024 * 16.
Definition MAX_BLOCKSIZE : Z := 32.
Definition MAX_MACSIZE : Z := 64.
