(* ===== verification/Wire.v ===== *)
(** * Wire encoding (misc.c)

    The big-endian integer and string encoders of [misc.c], the bounds-checked
    reader [struct string_buf], and their round trips. *)

From stdpp Require Import base numbers list strings.
From S2P Require Import Prelude.

(** ** Integers *)

(** [_libssh2_ntohu32] on the four bytes at [off]: [None] when one of them is
    outside the object. *)
Definition ntohu32 (data : list Z) (off : Z) : option Z :=
  b0 ← byte_at data off;
  b1 ← byte_at data (off + 1);
  b2 ← byte_at data (off + 2);
  b3 ← byte_at data (off + 3);
  Some (Z.lor (Z.lor (Z.lor (Z.shiftl b0 24) (Z.shiftl b1 16)) (Z.shiftl b2 8)) b3).

(** [_libssh2_ntohu64]; [unsigned long] is 64 bits wide. *)
Definition ntohu64 (data : list Z) (off : Z) : option Z :=
  msl ← ntohu32 data off;
  lsl ← ntohu32 data (off + 4);
  Some (Z.lor (u64 (Z.shiftl msl 32)) lsl).

Definition htonu32 (value : Z) : list Z :=
  [ Z.land (Z.shiftr value 24) 255;
    Z.land (Z.shiftr value 16) 255;
    Z.land (Z.shiftr value 8) 255;
    Z.land value 255 ].

(** The writers take what has been written so far and append to it, which is
    what advancing [*buf] does; the argument is converted to [uint32_t]. *)
Definition store_u32 (out : list Z) (value : Z) : list Z :=
  out ++ htonu32 (u32 value).

Definition store_str (out : list Z) (s : list Z) : list Z :=
  store_u32 out (lenZ s) ++ s.

(** The loop [for(p = bytes; len > 0 && *p == 0; --len, ++p)]. *)
Fixpoint skip_zeros (bytes : list Z) : list Z :=
  match bytes with
  | b :: rest => if b =? 0 then skip_zeros rest else bytes
  | [] => []
  end.

Definition store_bignum2_bytes (out : list Z) (bytes : list Z) : list Z :=
  let p := skip_zeros bytes in
  let extraByte :=
    match p with b :: _ => negb (Z.land b 128 =? 0) | [] => false end in
  let out := store_u32 out (lenZ p + (if extraByte then 1 else 0)) in
  let out := if extraByte then out ++ [0] else out in
  out ++ p.

(** ** The reader *)

(** [struct string_buf]: [sb_data] is the object [buf->data] points to,
    [sb_ptr] is [buf->dataptr - buf->data]. *)
Record string_buf := mk_string_buf {
  sb_data : list Z;
  sb_ptr : Z;
  sb_len : Z
}.
#[global] Instance eta_string_buf : Eta string_buf :=
  fun b => mk_string_buf (sb_data b) (sb_ptr b) (sb_len b).

Definition check_length (buf : string_buf) (len : Z) : bool :=
  let left := u64 (sb_len buf - sb_ptr buf) in
  (len <=? left) && (left <=? sb_len buf).

Definition eob (buf : string_buf) : bool := sb_len buf <=? sb_ptr buf.

Definition advance (buf : string_buf) (n : Z) : string_buf :=
  buf <| sb_ptr ::= Z.add n |>.

(** The getters return [(rc, out, buf)]; on failure [out] keeps the value the
    caller passed, as the C code leaves the output untouched. *)
Definition get_byte (buf : string_buf) (out : Z) : option (Z * Z * string_buf) :=
  if negb (check_length buf 1) then Some (-1, out, buf)
  else b ← byte_at (sb_data buf) (sb_ptr buf); Some (0, b, advance buf 1).

Definition get_boolean (buf : string_buf) (out : Z) : option (Z * Z * string_buf) :=
  if negb (check_length buf 1) then Some (-1, out, buf)
  else b ← byte_at (sb_data buf) (sb_ptr buf);
       Some (0, if b =? 0 then 0 else 1, advance buf 1).

Definition get_u32 (buf : string_buf) (out : Z) : option (Z * Z * string_buf) :=
  if negb (check_length buf 4) then Some (-1, out, buf)
  else v ← ntohu32 (sb_data buf) (sb_ptr buf); Some (0, v, advance buf 4).

Definition get_u64 (buf : string_buf) (out : Z) : option (Z * Z * string_buf) :=
  if negb (check_length buf 8) then Some (-1, out, buf)
  else v ← ntohu64 (sb_data buf) (sb_ptr buf); Some (0, v, advance buf 8).

(** An output pair [(char **outbuf, size_t *outlen)]: [None] is a null
    pointer with length 0, [Some bs] points to the [outlen] bytes [bs]. *)
Definition cbuf : Type := option (list Z).

Definition get_string (buf : string_buf) (out : cbuf) : option (Z * cbuf * string_buf) :=
  '(rc, data_len, buf) ← get_u32 buf 0;
  if negb (rc =? 0) then Some (-1, out, buf)
  else if negb (check_length buf data_len) then Some (-1, out, buf)
  else s ← bytes_at (sb_data buf) (sb_ptr buf) data_len;
       Some (0, Some s, advance buf data_len).

(** [match] is a C string: [strlen(match)] bytes. *)
Definition match_string (buf : string_buf) (m : list Z) : option (Z * string_buf) :=
  '(rc, out, buf) ← get_string buf None;
  match out with
  | Some s => if (rc =? 0) && (lenZ s =? lenZ m) && bool_decide (s = m)
              then Some (0, buf) else Some (-1, buf)
  | None => Some (-1, buf)
  end.

(** [alloc_ok] is the outcome of the [LIBSSH2_ALLOC] call, made only for a
    non-empty string; the copy of an empty one is a null pointer. *)
Definition copy_string (alloc_ok : bool) (buf : string_buf) (out : cbuf) :
    option (Z * cbuf * string_buf) :=
  '(rc, s, buf) ← get_string buf None;
  if negb (rc =? 0) then Some (-1, out, buf)
  else match s with
       | Some (b :: s') =>
           if alloc_ok then Some (0, Some (b :: s'), buf) else Some (-1, None, buf)
       | _ => Some (0, None, buf)
       end.

Definition get_bignum_bytes (buf : string_buf) (out : cbuf) :
    option (Z * cbuf * string_buf) :=
  '(rc, data_len, buf) ← get_u32 buf 0;
  if negb (rc =? 0) then Some (-1, out, buf)
  else if negb (check_length buf data_len) then Some (-1, out, buf)
  else s ← bytes_at (sb_data buf) (sb_ptr buf) data_len;
       Some (0, Some (skip_zeros s), advance buf data_len).

(** ** Buffers *)

(** [_libssh2_xor_data] with [length] bytes of both inputs. *)
Fixpoint xor_data (input1 input2 : list Z) : list Z :=
  match input1, input2 with
  | a :: r1, b :: r2 => Z.lxor a b :: xor_data r1 r2
  | _, _ => []
  end.

(** The loop of [_libssh2_aes_ctr_increment] on the bytes from the last to the
    first; the result is the buffer in the same (reversed) order. *)
Fixpoint ctr_loop (rev_ctr : list Z) (carry : Z) : list Z :=
  match rev_ctr with
  | [] => []
  | b :: rest =>
      let val := u32 (b + carry) in
      Z.land val 255 :: ctr_loop rest (Z.shiftr val 8)
  end.

Definition aes_ctr_increment (ctr : list Z) : list Z := rev (ctr_loop (rev ctr) 1).

#[global] Arguments htonu32 : simpl never.

(** ** Integers: lemmas *)

Lemma land_255_byte z : is_byte (Z.land z 255).
Proof. rewrite land_255. apply u8_range. Qed.

Lemma htonu32_bytes_ok v : bytes_ok (htonu32 v).
Proof. repeat constructor; apply land_255_byte. Qed.

Lemma lenZ_htonu32 v : lenZ (htonu32 v) = 4.
Proof. done. Qed.

#[export] Hint Resolve land_255_byte htonu32_bytes_ok : bytes.

(** Four bytes assemble to their big-endian value, below [2^32]. *)
Lemma be32_value b0 b1 b2 b3 :
  is_byte b0 -> is_byte b1 -> is_byte b2 -> is_byte b3 ->
  Z.lor (Z.lor (Z.lor (Z.shiftl b0 24) (Z.shiftl b1 16)) (Z.shiftl b2 8)) b3
  = b0 * 2 ^ 24 + b1 * 2 ^ 16 + b2 * 2 ^ 8 + b3.
Proof.
  unfold is_byte. intros.
  assert (E1 : Z.lor (b0 ≪ 24) (b1 ≪ 16) = (b0 * 2 ^ 8 + b1) ≪ 16).
  { replace 24 with (8 + 16) by lia. rewrite <- Z.shiftl_shiftl, <- Z.shiftl_lor by lia.
    by rewrite lor_shiftl_add by lia. }
  assert (E2 : Z.lor ((b0 * 2 ^ 8 + b1) ≪ 16) (b2 ≪ 8)
               = ((b0 * 2 ^ 8 + b1) * 2 ^ 8 + b2) ≪ 8).
  { replace 16 with (8 + 8) by lia. rewrite <- Z.shiftl_shiftl, <- Z.shiftl_lor by lia.
    by rewrite lor_shiftl_add by lia. }
  rewrite E1, E2, lor_shiftl_add by lia. lia.
Qed.

Lemma ntohu32_range data off v :
  bytes_ok data -> ntohu32 data off = Some v -> 0 <= v < 2 ^ 32.
Proof.
  unfold ntohu32. intros Hd H.
  apply bind_Some in H as (b0 & H0 & H). apply bind_Some in H as (b1 & H1 & H).
  apply bind_Some in H as (b2 & H2 & H). apply bind_Some in H as (b3 & H3 & H).
  simplify_eq. apply byte_at_byte in H0, H1, H2, H3; try done.
  rewrite be32_value by done. unfold is_byte in *. lia.
Qed.

Lemma ntohu32_in data off :
  0 <= off -> off + 4 <= lenZ data -> is_Some (ntohu32 data off).
Proof.
  intros. unfold ntohu32.
  destruct (byte_at_in data off) as [? ->]; [lia|].
  destruct (byte_at_in data (off + 1)) as [? ->]; [lia|].
  destruct (byte_at_in data (off + 2)) as [? ->]; [lia|].
  destruct (byte_at_in data (off + 3)) as [? ->]; [lia|]. simpl; eauto.
Qed.

Lemma ntohu64_in data off :
  0 <= off -> off + 8 <= lenZ data -> is_Some (ntohu64 data off).
Proof.
  intros. unfold ntohu64.
  destruct (ntohu32_in data off) as [? ->]; [lia..|].
  destruct (ntohu32_in data (off + 4)) as [? ->]; [lia..|]. simpl; eauto.
Qed.

Lemma byte_at_mid a l c i :
  0 <= i < lenZ l -> byte_at (a ++ l ++ c) (lenZ a + i) = byte_at l i.
Proof.
  unfold byte_at, lenZ. intros. rewrite !decide_True by lia.
  rewrite lookup_app_r by lia.
  replace (Z.to_nat (Z.of_nat (length a) + i) - length a)%nat with (Z.to_nat i) by lia.
  by rewrite lookup_app_l by lia.
Qed.

Lemma be32_split v :
  0 <= v < 2 ^ 32 ->
  Z.lor (Z.lor (Z.lor (Z.shiftl (Z.land (Z.shiftr v 24) 255) 24)
                      (Z.shiftl (Z.land (Z.shiftr v 16) 255) 16))
               (Z.shiftl (Z.land (Z.shiftr v 8) 255) 8))
        (Z.land v 255) = v.
Proof.
  intros H. rewrite be32_value by eauto with bytes.
  rewrite !land_255, !Z.shiftr_div_pow2 by lia.
  rewrite (Z.mod_small (v / 2 ^ 24)) by (split; [apply Z.div_pos|apply Z.div_lt_upper_bound]; lia).
  pose proof (Z.div_mod v (2 ^ 8)). pose proof (Z.div_mod (v / 2 ^ 8) (2 ^ 8)).
  pose proof (Z.div_mod (v / 2 ^ 16) (2 ^ 8)).
  rewrite (Z.div_div v (2 ^ 8) (2 ^ 8)) in * by lia.
  rewrite (Z.div_div v (2 ^ 16) (2 ^ 8)) in * by lia.
  change (2 ^ 8 * 2 ^ 8) with (2 ^ 16) in *. change (2 ^ 16 * 2 ^ 8) with (2 ^ 24) in *.
  lia.
Qed.

(** Reading back what [_libssh2_htonu32] wrote. *)
Lemma ntohu32_htonu32 a v c :
  0 <= v < 2 ^ 32 -> ntohu32 (a ++ htonu32 v ++ c) (lenZ a) = Some v.
Proof.
  intros H. unfold ntohu32.
  replace (lenZ a) with (lenZ a + 0) at 1 by lia.
  rewrite !byte_at_mid by (rewrite lenZ_htonu32; lia). simpl.
  f_equal. by apply be32_split.
Qed.

Lemma ntohu32_at a v c off : 0 <= v < 2 ^ 32 -> off = lenZ a -> ntohu32 (a ++ htonu32 v ++ c) off = Some v.
Proof. intros H ->. by apply ntohu32_htonu32. Qed.

(** ** The reader: invariant and safety *)

(** The buffer's length is that of a real object, and the cursor is inside
    it. *)
Record sb_ok (buf : string_buf) : Prop := {
  sb_ok_ptr : 0 <= sb_ptr buf <= sb_len buf;
  sb_ok_len : sb_len buf <= lenZ (sb_data buf);
  sb_ok_size : sb_len buf < 2 ^ 64
}.

Lemma check_length_spec buf len :
  sb_ok buf -> check_length buf len = true <-> len <= sb_len buf - sb_ptr buf.
Proof.
  intros [? ? ?]. unfold check_length.
  rewrite u64_small by lia. rewrite andb_true_iff, !Z.leb_le. lia.
Qed.

Lemma check_length_false buf len :
  sb_ok buf -> check_length buf len = false <-> sb_len buf - sb_ptr buf < len.
Proof.
  intros H. pose proof (check_length_spec buf len H) as E.
  destruct (check_length buf len); split; intros; try done; [|lia].
  destruct E as [E _]. specialize (E eq_refl). lia.
Qed.

Lemma advance_ok buf n :
  sb_ok buf -> 0 <= n <= sb_len buf - sb_ptr buf -> sb_ok (advance buf n).
Proof. intros [] ?. split; unfold advance; simpl; lia. Qed.

(** A result of a getter under the invariant: it is defined, keeps the data and
    the invariant, never moves backwards, and fails only with [-1]. *)
Definition getter_ok {A} (buf : string_buf) (r : option (Z * A * string_buf)) : Prop :=
  exists rc out buf', r = Some (rc, out, buf') /\ (rc = 0 \/ rc = -1) /\ sb_ok buf' /\
    sb_data buf' = sb_data buf /\ sb_len buf' = sb_len buf /\ sb_ptr buf <= sb_ptr buf'.

Lemma getter_done {A} buf (out : A) n :
  sb_ok buf -> 0 <= n <= sb_len buf - sb_ptr buf ->
  getter_ok buf (Some (0, out, advance buf n)).
Proof.
  intros Hok Hn. exists 0, out, (advance buf n).
  split_and!; try done; [by left|by apply advance_ok|simpl; lia].
Qed.

Lemma getter_fail {A} buf (out : A) : sb_ok buf -> getter_ok buf (Some (-1, out, buf)).
Proof. intros Hok. exists (-1), out, buf. split_and!; (done || lia || by right). Qed.

(** A getter that continues after another one. *)
Lemma getter_bind {A B} buf (m : option (Z * A * string_buf))
    (k : Z * A * string_buf -> option (Z * B * string_buf)) :
  getter_ok buf m ->
  (forall rc a buf', m = Some (rc, a, buf') -> sb_ok buf' -> getter_ok buf' (k (rc, a, buf'))) ->
  getter_ok buf (m ≫= k).
Proof.
  intros (rc & a & buf' & -> & Hrc & Hok & Hd & Hl & Hp) Hk. simpl.
  destruct (Hk rc a buf' eq_refl Hok) as (rc' & b & buf'' & -> & ? & ? & Hd' & Hl' & ?).
  exists rc', b, buf''. split_and!; try done; [congruence|congruence|lia].
Qed.

Ltac getter_step buf n :=
  let H := fresh "Hlen" in
  destruct (check_length buf n) eqn:H; simpl;
  [apply check_length_spec in H; [|done]|by apply getter_fail].

Lemma get_byte_ok buf out : sb_ok buf -> getter_ok buf (get_byte buf out).
Proof.
  intros Hok. unfold get_byte. getter_step buf 1. pose proof Hok as [? ? ?].
  destruct (byte_at_in (sb_data buf) (sb_ptr buf)) as [v ->]; [lia|]. simpl.
  apply getter_done; [done|lia].
Qed.

Lemma get_boolean_ok buf out : sb_ok buf -> getter_ok buf (get_boolean buf out).
Proof.
  intros Hok. unfold get_boolean. getter_step buf 1. pose proof Hok as [? ? ?].
  destruct (byte_at_in (sb_data buf) (sb_ptr buf)) as [v ->]; [lia|]. simpl.
  apply getter_done; [done|lia].
Qed.

Lemma get_u32_ok buf out : sb_ok buf -> getter_ok buf (get_u32 buf out).
Proof.
  intros Hok. unfold get_u32. getter_step buf 4. pose proof Hok as [? ? ?].
  destruct (ntohu32_in (sb_data buf) (sb_ptr buf)) as [v ->]; [lia..|]. simpl.
  apply getter_done; [done|lia].
Qed.

Lemma get_u64_ok buf out : sb_ok buf -> getter_ok buf (get_u64 buf out).
Proof.
  intros Hok. unfold get_u64. getter_step buf 8. pose proof Hok as [? ? ?].
  destruct (ntohu64_in (sb_data buf) (sb_ptr buf)) as [v ->]; [lia..|]. simpl.
  apply getter_done; [done|lia].
Qed.

(** The value read by [_libssh2_get_u32] is a [uint32_t]. *)
Lemma get_u32_value buf out v buf' :
  bytes_ok (sb_data buf) -> get_u32 buf out = Some (0, v, buf') -> 0 <= v < 2 ^ 32.
Proof.
  intros Hd. unfold get_u32. destruct (check_length buf 4); simpl; [|done].
  intros H. apply bind_Some in H as (w & Hw & ?). simplify_eq.
  by eapply ntohu32_range.
Qed.

Lemma get_string_ok buf out :
  sb_ok buf -> bytes_ok (sb_data buf) -> getter_ok buf (get_string buf out).
Proof.
  intros Hok Hb. unfold get_string. apply getter_bind; [by apply get_u32_ok|].
  intros rc len buf' Hu Hok'. destruct (Z.eqb_spec rc 0) as [->|]; simpl; [|by apply getter_fail].
  apply get_u32_value in Hu; [|done].
  getter_step buf' len. pose proof Hok' as [? ? ?].
  rewrite bytes_at_in by lia. simpl. apply getter_done; [done|lia].
Qed.

Lemma get_bignum_bytes_ok buf out :
  sb_ok buf -> bytes_ok (sb_data buf) -> getter_ok buf (get_bignum_bytes buf out).
Proof.
  intros Hok Hb. unfold get_bignum_bytes. apply getter_bind; [by apply get_u32_ok|].
  intros rc len buf' Hu Hok'. destruct (Z.eqb_spec rc 0) as [->|]; simpl; [|by apply getter_fail].
  apply get_u32_value in Hu; [|done].
  getter_step buf' len. pose proof Hok' as [? ? ?].
  rewrite bytes_at_in by lia. simpl. apply getter_done; [done|lia].
Qed.

Lemma copy_string_ok alloc_ok buf out :
  sb_ok buf -> bytes_ok (sb_data buf) -> getter_ok buf (copy_string alloc_ok buf out).
Proof.
  intros Hok Hb. unfold copy_string. apply getter_bind; [by apply get_string_ok|].
  intros rc s buf' _ Hok'. destruct (Z.eqb_spec rc 0) as [->|]; simpl; [|by apply getter_fail].
  assert (Hadv : advance buf' 0 = buf') by (by destruct buf').
  assert (Hdone : forall o : cbuf, getter_ok buf' (Some (0, o, buf'))).
  { intros o. rewrite <- Hadv at 2. apply getter_done; [done|].
    pose proof Hok' as [? ? ?]. lia. }
  destruct s as [[|b s]|]; [done| |done]. destruct alloc_ok; [done|].
  by apply getter_fail.
Qed.

(** ** Sequences of reads *)

Inductive getter := GByte | GBoolean | GU32 | GU64 | GString | GBignum | GCopy (alloc_ok : bool).

Definition run_getter (g : getter) (buf : string_buf) : option string_buf :=
  match g with
  | GByte => '(_, _, buf) ← get_byte buf 0; Some buf
  | GBoolean => '(_, _, buf) ← get_boolean buf 0; Some buf
  | GU32 => '(_, _, buf) ← get_u32 buf 0; Some buf
  | GU64 => '(_, _, buf) ← get_u64 buf 0; Some buf
  | GString => '(_, _, buf) ← get_string buf None; Some buf
  | GBignum => '(_, _, buf) ← get_bignum_bytes buf None; Some buf
  | GCopy b => '(_, _, buf) ← copy_string b buf None; Some buf
  end.

Fixpoint run_getters (gs : list getter) (buf : string_buf) : option string_buf :=
  match gs with
  | [] => Some buf
  | g :: gs => buf ← run_getter g buf; run_getters gs buf
  end.

Lemma run_getter_ok g buf :
  sb_ok buf -> bytes_ok (sb_data buf) ->
  exists buf', run_getter g buf = Some buf' /\ sb_ok buf' /\
    sb_data buf' = sb_data buf /\ sb_ptr buf <= sb_ptr buf'.
Proof.
  intros Hok Hb.
  assert (Hgo : forall A (m : option (Z * A * string_buf)), getter_ok buf m ->
    exists buf', (m ≫= fun '(_, _, b) => Some b) = Some buf' /\ sb_ok buf' /\
      sb_data buf' = sb_data buf /\ sb_ptr buf <= sb_ptr buf').
  { intros A m (rc & out & buf' & -> & ? & ? & ? & ? & ?). exists buf'. eauto. }
  destruct g; simpl; apply Hgo;
    auto using get_byte_ok, get_boolean_ok, get_u32_ok, get_u64_ok, get_string_ok,
      get_bignum_bytes_ok, copy_string_ok.
Qed.

(** No sequence of [_libssh2_get_*]/[_libssh2_copy_string] calls on a
    buffer whose declared length is that of its object reads outside the
    object, whatever the bytes are and whatever the allocator does: every call
    is defined, the cursor stays between its old position and [buf->len], and
    the data are untouched. *)
Theorem getters_memory_safe gs buf
    (Hok : sb_ok buf) (Hb : bytes_ok (sb_data buf)) :
  exists buf', run_getters gs buf = Some buf' /\ sb_ok buf' /\
    sb_data buf' = sb_data buf /\ sb_ptr buf <= sb_ptr buf'.
Proof.
  revert buf Hok Hb. induction gs as [|g gs IH]; intros buf Hok Hb; simpl.
  - exists buf. by split_and!.
  - destruct (run_getter_ok g buf Hok Hb) as (buf1 & -> & Hok1 & Hd1 & Hp1). simpl.
    destruct (IH buf1 Hok1) as (buf2 & -> & ? & ? & ?); [by rewrite Hd1|].
    exists buf2. split_and!; try done; [congruence|lia].
Qed.

Lemma getters_memory_safe_witness :
  exists buf', run_getters [GU32; GString; GBoolean; GBignum; GByte]
      (mk_string_buf [0; 0; 0; 3; 0; 0; 0; 1; 65; 255; 255; 255; 255] 0 13) = Some buf' /\
    sb_ok buf' /\ sb_data buf' = [0; 0; 0; 3; 0; 0; 0; 1; 65; 255; 255; 255; 255] /\
    0 <= sb_ptr buf'.
Proof.
  apply (getters_memory_safe [GU32; GString; GBoolean; GBignum; GByte]
           (mk_string_buf [0; 0; 0; 3; 0; 0; 0; 1; 65; 255; 255; 255; 255] 0 13)).
  - by split.
  - apply (bool_decide_unpack _). by vm_compute.
Defined.

(** ** Round trips *)

Lemma check_length_at a l c n :
  n <= lenZ l + lenZ c -> lenZ (a ++ l ++ c) < 2 ^ 64 ->
  check_length (mk_string_buf (a ++ l ++ c) (lenZ a) (lenZ (a ++ l ++ c))) n = true.
Proof.
  intros Hn Hsz. pose proof (lenZ_nonneg l). pose proof (lenZ_nonneg c).
  pose proof (lenZ_nonneg a).
  apply check_length_spec; rewrite !lenZ_app in *; simpl; [split; simpl; rewrite ?lenZ_app; lia|lia].
Qed.

(** The reader positioned after [a] in the object [a ++ l ++ c]. *)
Definition reader_at (a l c : list Z) : string_buf :=
  mk_string_buf (a ++ l ++ c) (lenZ a) (lenZ (a ++ l ++ c)).

Lemma reader_at_app a l l' c :
  reader_at (a ++ l) l' c = mk_string_buf (a ++ (l ++ l') ++ c) (lenZ a + lenZ l) (lenZ (a ++ (l ++ l') ++ c)).
Proof. unfold reader_at. by rewrite lenZ_app, <- !app_assoc. Qed.

Lemma get_u32_at a v c out :
  0 <= v < 2 ^ 32 -> lenZ (a ++ htonu32 v ++ c) < 2 ^ 64 ->
  get_u32 (reader_at a (htonu32 v) c) out = Some (0, v, reader_at (a ++ htonu32 v) [] c).
Proof.
  intros Hv Hsz. unfold get_u32, reader_at.
  pose proof (lenZ_nonneg c).
  rewrite check_length_at by (rewrite ?lenZ_htonu32; lia). cbn [negb sb_data sb_ptr].
  rewrite ntohu32_htonu32 by done. simpl. do 2 f_equal. unfold advance; simpl.
  rewrite <- app_assoc, (lenZ_app a (htonu32 v)), lenZ_htonu32. simpl. f_equal. lia.
Qed.

Lemma get_string_at a s c out :
  lenZ s < 2 ^ 32 -> lenZ (a ++ (htonu32 (lenZ s) ++ s) ++ c) < 2 ^ 64 ->
  get_string (reader_at a (htonu32 (lenZ s) ++ s) c) out
  = Some (0, Some s, reader_at (a ++ htonu32 (lenZ s) ++ s) [] c).
Proof.
  intros Hs Hsz. pose proof (lenZ_nonneg s). unfold get_string.
  replace (reader_at a (htonu32 (lenZ s) ++ s) c)
    with (reader_at a (htonu32 (lenZ s)) (s ++ c))
    by (unfold reader_at; by rewrite <- !app_assoc).
  rewrite get_u32_at; [|lia|by rewrite <- app_assoc in Hsz]. simpl.
  replace (reader_at (a ++ htonu32 (lenZ s)) [] (s ++ c))
    with (reader_at (a ++ htonu32 (lenZ s)) s c) by done.
  unfold reader_at at 1. rewrite check_length_at; simpl.
  - rewrite bytes_at_in, slice_app_mid; simpl.
    + do 2 f_equal. unfold advance, reader_at; simpl. rewrite <- !app_assoc. simpl.
      rewrite !lenZ_app, !lenZ_cons, lenZ_htonu32. f_equal. lia.
    + apply lenZ_nonneg.
    + apply lenZ_nonneg.
    + rewrite !lenZ_app. pose proof (lenZ_nonneg c). lia.
  - pose proof (lenZ_nonneg c). lia.
  - by rewrite <- !app_assoc in *.
Qed.

(** *** Multi-precision integers *)

(** The number a big-endian byte string denotes. *)
Definition be_value (l : list Z) : Z := fold_left (fun acc b => acc * 2 ^ 8 + b) l 0.

Lemma fold_be l acc :
  fold_left (fun acc b => acc * 2 ^ 8 + b) l acc = acc * 2 ^ (8 * lenZ l) + be_value l.
Proof.
  unfold be_value. revert acc. induction l as [|b l IH]; intros acc; cbn [fold_left].
  - unfold lenZ; simpl. lia.
  - rewrite IH, (IH (0 * 2 ^ 8 + b)), lenZ_cons.
    replace (8 * (1 + lenZ l)) with (8 + 8 * lenZ l) by lia.
    rewrite Z.pow_add_r by (pose proof (lenZ_nonneg l); lia). lia.
Qed.

Lemma be_value_cons b l : be_value (b :: l) = b * 2 ^ (8 * lenZ l) + be_value l.
Proof. unfold be_value at 1. cbn [fold_left]. by rewrite fold_be. Qed.

Lemma be_value_app l k : be_value (l ++ k) = be_value l * 2 ^ (8 * lenZ k) + be_value k.
Proof. unfold be_value at 1. rewrite fold_left_app. apply fold_be. Qed.

Lemma be_value_range l : bytes_ok l -> 0 <= be_value l < 2 ^ (8 * lenZ l).
Proof.
  induction 1 as [|b l Hb _ IH]; [done|]. rewrite be_value_cons, lenZ_cons.
  replace (8 * (1 + lenZ l)) with (8 + 8 * lenZ l) by lia.
  rewrite Z.pow_add_r by (pose proof (lenZ_nonneg l); lia).
  unfold is_byte in Hb. nia.
Qed.

Lemma skip_zeros_value l : be_value (skip_zeros l) = be_value l.
Proof.
  induction l as [|b l IH]; [done|]. simpl.
  destruct (Z.eqb_spec b 0) as [->|]; [|done]. rewrite IH, be_value_cons. lia.
Qed.

Lemma skip_zeros_head l : match skip_zeros l with b :: _ => b <> 0 | [] => True end.
Proof.
  induction l as [|b l IH]; [done|]. simpl.
  destruct (Z.eqb_spec b 0) as [->|]; done.
Qed.

Lemma skip_zeros_idem l : skip_zeros (skip_zeros l) = skip_zeros l.
Proof.
  pose proof (skip_zeros_head l) as H. destruct (skip_zeros l) as [|b k]; [done|].
  simpl. by destruct (Z.eqb_spec b 0).
Qed.

Lemma skip_zeros_len l : lenZ (skip_zeros l) <= lenZ l.
Proof.
  induction l as [|b l IH]; simpl; [done|]. rewrite lenZ_cons.
  destruct (b =? 0); [lia|]. rewrite lenZ_cons. lia.
Qed.

Lemma skip_zeros_bytes_ok l : bytes_ok l -> bytes_ok (skip_zeros l).
Proof.
  induction 1 as [|b l Hb Hl IH]; simpl; [constructor|].
  destruct (b =? 0); [done|by constructor].
Qed.

(** The bytes [_libssh2_store_bignum2_bytes] puts after the length. *)
Definition mpint_body (bytes : list Z) : list Z :=
  let p := skip_zeros bytes in
  (if match p with b :: _ => negb (Z.land b 128 =? 0) | [] => false end then [0] else []) ++ p.

Lemma store_bignum2_body out bytes :
  store_bignum2_bytes out bytes = store_str out (mpint_body bytes).
Proof.
  unfold store_bignum2_bytes, store_str, mpint_body, store_u32.
  destruct (match skip_zeros bytes with b :: _ => _ | [] => false end).
  - rewrite lenZ_app, <- !app_assoc. cbn [app]. unfold lenZ at 3; simpl.
    by rewrite Z.add_comm.
  - by rewrite Z.add_0_r.
Qed.

Lemma mpint_body_skip bytes : skip_zeros (mpint_body bytes) = skip_zeros bytes.
Proof.
  unfold mpint_body. pose proof (skip_zeros_idem bytes).
  by destruct (match skip_zeros bytes with b :: _ => _ | [] => false end).
Qed.

Lemma land_128_byte b : is_byte b -> (Z.land b 128 =? 0) = (b <? 128).
Proof.
  intros Hb. apply Bool.eqb_prop.
  apply (range_all (fun b => Bool.eqb (Z.land b 128 =? 0) (b <? 128)) 256); [by vm_compute|].
  apply Hb.
Qed.

(** A canonical non-negative [mpint] (RFC 4251, section 5): the sign bit is
    clear, and a leading zero byte is there only to clear it. *)
Definition mpint_canonical (body : list Z) : Prop :=
  match body with
  | [] => True
  | 0 :: [] => False
  | 0 :: b :: _ => 128 <= b
  | b :: _ => 0 < b < 128
  end.

(** [_libssh2_store_bignum2_bytes] writes the canonical [mpint] of the
    number its argument denotes: the same value, the sign bit clear and no
    superfluous leading zero, whatever leading zeros the input has. *)
Theorem store_bignum2_canonical out bytes (Hb : bytes_ok bytes) :
  exists body, store_bignum2_bytes out bytes = store_str out body /\
    be_value body = be_value bytes /\ mpint_canonical body /\ lenZ body <= lenZ bytes + 1.
Proof.
  exists (mpint_body bytes). split; [apply store_bignum2_body|].
  pose proof (skip_zeros_len bytes) as Hlen. pose proof (skip_zeros_value bytes) as Hv.
  pose proof (skip_zeros_head bytes) as Hh. apply skip_zeros_bytes_ok in Hb.
  unfold mpint_body. destruct (skip_zeros bytes) as [|b k]; simpl in *.
  - split_and!; [done|done|]. unfold lenZ in *; simpl; lia.
  - inversion Hb as [|? ? Hb0 Hk]; subst. rewrite land_128_byte by done.
    unfold is_byte in Hb0. destruct (Z.ltb_spec b 128); simpl.
    + split_and!; [done| |lia]. destruct b; lia.
    + split_and!; [by rewrite be_value_cons| done |]. rewrite !lenZ_cons in *. lia.
Qed.

Lemma store_bignum2_canonical_witness :
  exists body, store_bignum2_bytes [] [0; 0; 200; 1] = store_str [] body /\
    be_value body = be_value [0; 0; 200; 1] /\ mpint_canonical body /\
    lenZ body <= lenZ [0; 0; 200; 1] + 1.
Proof.
  apply (store_bignum2_canonical [] [0; 0; 200; 1]).
  apply (bool_decide_unpack _). by vm_compute.
Defined.

(** *** Messages *)

(** A message body as the sources build it, one [store] call per field, and
    read it, one [get] call per field. *)
Inductive field := FByte (b : Z) | FU32 (v : Z) | FStr (s : list Z) | FMpint (bytes : list Z).

Definition store_field (out : list Z) (f : field) : list Z :=
  match f with
  | FByte b => out ++ [b]
  | FU32 v => store_u32 out v
  | FStr s => store_str out s
  | FMpint bytes => store_bignum2_bytes out bytes
  end.

Definition store_fields (fs : list field) : list Z := fold_left store_field fs [].

(** Reads a field of the same kind as [f]; [None] is a fault or an error. *)
Definition get_field (f : field) (buf : string_buf) : option (field * string_buf) :=
  match f with
  | FByte _ => '(rc, b, buf) ← get_byte buf 0;
               if rc =? 0 then Some (FByte b, buf) else None
  | FU32 _ => '(rc, v, buf) ← get_u32 buf 0;
              if rc =? 0 then Some (FU32 v, buf) else None
  | FStr _ => '(rc, s, buf) ← get_string buf None;
              if rc =? 0 then s ← s; Some (FStr s, buf) else None
  | FMpint _ => '(rc, s, buf) ← get_bignum_bytes buf None;
                if rc =? 0 then s ← s; Some (FMpint s, buf) else None
  end.

Fixpoint get_fields (fs : list field) (buf : string_buf) : option (list field * string_buf) :=
  match fs with
  | [] => Some ([], buf)
  | f :: fs => '(f', buf) ← get_field f buf;
               '(fs', buf) ← get_fields fs buf; Some (f' :: fs', buf)
  end.

(** What fits on the wire, and what a reader sees of it (leading zeros of a
    number are dropped). *)
Definition field_ok (f : field) : Prop :=
  match f with
  | FByte b => is_byte b
  | FU32 v => 0 <= v < 2 ^ 32
  | FStr s => lenZ s < 2 ^ 32
  | FMpint bytes => lenZ bytes + 1 < 2 ^ 32
  end.

Definition field_norm (f : field) : field :=
  match f with FMpint bytes => FMpint (skip_zeros bytes) | _ => f end.

(** The bytes of one field. *)
Definition field_bytes (f : field) : list Z := store_field [] f.

Lemma store_field_app out f : store_field out f = out ++ field_bytes f.
Proof.
  unfold field_bytes. destruct f; simpl; rewrite ?store_bignum2_body;
    unfold store_str, store_u32; by rewrite <- ?app_assoc.
Qed.

Lemma store_fields_app fs out :
  fold_left store_field fs out = out ++ concat (map field_bytes fs).
Proof.
  revert out. induction fs as [|f fs IH]; intros out; simpl; [by rewrite app_nil_r|].
  by rewrite IH, store_field_app, <- app_assoc.
Qed.

Lemma mpint_body_len bytes : lenZ (mpint_body bytes) <= lenZ bytes + 1.
Proof.
  unfold mpint_body. pose proof (skip_zeros_len bytes).
  destruct (match skip_zeros bytes with b :: _ => _ | [] => false end);
    rewrite lenZ_app; unfold lenZ at 1; simpl; lia.
Qed.

Lemma get_bignum_at a s c out :
  lenZ s < 2 ^ 32 -> lenZ (a ++ (htonu32 (lenZ s) ++ s) ++ c) < 2 ^ 64 ->
  get_bignum_bytes (reader_at a (htonu32 (lenZ s) ++ s) c) out
  = Some (0, Some (skip_zeros s), reader_at (a ++ htonu32 (lenZ s) ++ s) [] c).
Proof.
  intros Hs Hsz. pose proof (get_string_at a s c out Hs Hsz) as H.
  unfold get_string, get_bignum_bytes in *.
  destruct (get_u32 _ 0) as [[[rc len] buf]|]; simpl in *; [|done].
  destruct (negb (rc =? 0)); [done|]. destruct (negb (check_length buf len)); [done|].
  destruct (bytes_at (sb_data buf) (sb_ptr buf) len); [|done].
  cbn in H |- *. congruence.
Qed.

Lemma get_byte_at a b c out :
  lenZ (a ++ [b] ++ c) < 2 ^ 64 ->
  get_byte (reader_at a [b] c) out = Some (0, b, reader_at (a ++ [b]) [] c).
Proof.
  intros Hsz. unfold get_byte, reader_at. pose proof (lenZ_nonneg c).
  rewrite check_length_at by (unfold lenZ in *; simpl in *; lia). cbn [negb sb_data sb_ptr].
  replace (lenZ a) with (lenZ a + 0) at 1 by lia.
  rewrite byte_at_mid by (unfold lenZ; simpl; lia). simpl. do 2 f_equal.
  unfold advance; simpl. rewrite <- app_assoc, (lenZ_app a [b]). simpl. f_equal.
  unfold lenZ; simpl; lia.
Qed.

Lemma get_field_at a f c :
  field_ok f -> lenZ (a ++ field_bytes f ++ c) < 2 ^ 64 ->
  get_field f (reader_at a (field_bytes f) c)
  = Some (field_norm f, reader_at (a ++ field_bytes f) [] c).
Proof.
  intros Hf Hsz. destruct f as [b|v|s|bytes]; unfold field_bytes in *; cbn in *.
  - by rewrite get_byte_at.
  - unfold store_u32 in *; cbn in *. rewrite (u32_small v) in * by done.
    by rewrite get_u32_at.
  - unfold store_str, store_u32 in *; cbn in *.
    rewrite (u32_small (lenZ s)) in * by (pose proof (lenZ_nonneg s); lia).
    by rewrite get_string_at.
  - rewrite store_bignum2_body in *. unfold store_str, store_u32 in *; cbn in *.
    pose proof (mpint_body_len bytes). pose proof (lenZ_nonneg (mpint_body bytes)).
    rewrite (u32_small (lenZ (mpint_body bytes))) in * by lia.
    rewrite get_bignum_at by (done || lia). simpl. by rewrite mpint_body_skip.
Qed.

Lemma get_fields_at fs a :
  Forall field_ok fs -> lenZ (a ++ concat (map field_bytes fs)) < 2 ^ 64 ->
  get_fields fs (reader_at a (concat (map field_bytes fs)) [])
  = Some (map field_norm fs, reader_at (a ++ concat (map field_bytes fs)) [] []).
Proof.
  intros Hfs. revert a. induction Hfs as [|f fs Hf _ IH]; intros a Hsz; simpl in *.
  - by rewrite app_nil_r.
  - replace (reader_at a (field_bytes f ++ concat (map field_bytes fs)) [])
      with (reader_at a (field_bytes f) (concat (map field_bytes fs)))
      by (unfold reader_at; by rewrite app_nil_r).
    rewrite get_field_at by done. simpl.
    replace (reader_at (a ++ field_bytes f) [] (concat (map field_bytes fs)))
      with (reader_at (a ++ field_bytes f) (concat (map field_bytes fs)) [])
      by (unfold reader_at; by rewrite app_nil_r).
    rewrite IH by by rewrite <- app_assoc. simpl. by rewrite <- app_assoc.
Qed.

(** Encoding and decoding agree: a message built with any sequence of
    [_libssh2_store_u32], [_libssh2_store_str], [_libssh2_store_bignum2_bytes]
    calls is read back field by field by the matching [_libssh2_get_*] calls,
    which consume it exactly. *)
Theorem fields_roundtrip fs
    (Hfs : Forall field_ok fs) (Hsz : lenZ (store_fields fs) < 2 ^ 64) :
  exists buf',
    get_fields fs (mk_string_buf (store_fields fs) 0 (lenZ (store_fields fs)))
    = Some (map field_norm fs, buf') /\ eob buf' = true.
Proof.
  unfold store_fields in *. rewrite store_fields_app in *. cbn [app] in *.
  pose proof (get_fields_at fs [] Hfs Hsz) as H. unfold reader_at in H at 1.
  rewrite app_nil_r in H. eexists. split; [apply H|].
  unfold eob, reader_at; simpl. rewrite app_nil_r. by apply Z.leb_refl.
Qed.

Lemma fields_roundtrip_witness :
  exists buf',
    get_fields [FU32 7; FStr (str "x11"); FMpint [0; 129; 4]]
      (mk_string_buf (store_fields [FU32 7; FStr (str "x11"); FMpint [0; 129; 4]]) 0
         (lenZ (store_fields [FU32 7; FStr (str "x11"); FMpint [0; 129; 4]])))
    = Some ([FU32 7; FStr (str "x11"); FMpint [129; 4]], buf') /\ eob buf' = true.
Proof.
  apply (fields_roundtrip [FU32 7; FStr (str "x11"); FMpint [0; 129; 4]]).
  - repeat apply Forall_cons_2; [by vm_compute..|constructor].
  - by vm_compute.
Defined.

(** *** The AES counter *)

Lemma carry_step x y N :
  0 < N -> (x + y / 2 ^ 8) mod N * 2 ^ 8 + y mod 2 ^ 8 = (x * 2 ^ 8 + y) mod (2 ^ 8 * N).
Proof.
  intros HN. rewrite Z.rem_mul_r by lia.
  rewrite Z.div_add_l, (Z.add_comm (x * 2 ^ 8) y), Z.mod_add by lia. lia.
Qed.

Lemma ctr_loop_value l carry :
  bytes_ok l -> 0 <= carry <= 1 ->
  bytes_ok (ctr_loop l carry) /\ length (ctr_loop l carry) = length l /\
  be_value (rev (ctr_loop l carry)) = (be_value (rev l) + carry) mod 2 ^ (8 * lenZ l).
Proof.
  intros Hl. revert carry. induction Hl as [|b l Hb Hl IH]; intros carry Hc; simpl.
  - split_and!; [constructor|done|]. by rewrite Z.mod_1_r.
  - unfold is_byte in Hb. rewrite u32_small by lia.
    assert (0 <= Z.shiftr (b + carry) 8 <= 1) as Hs.
    { rewrite Z.shiftr_div_pow2 by lia. split; [apply Z.div_pos; lia|].
      apply Z.div_le_upper_bound; lia. }
    destruct (IH _ Hs) as (Hok & Hlen & Hv).
    split_and!; [by constructor; eauto with bytes|by rewrite Hlen|].
    pose proof (lenZ_nonneg l).
    rewrite !be_value_app, Hv, (lenZ_cons b l), land_255, Z.shiftr_div_pow2 by lia.
    replace (8 * (1 + lenZ l)) with (8 + 8 * lenZ l) by lia.
    rewrite Z.pow_add_r, <- Z.add_assoc by lia. unfold be_value at 2 4. cbn [fold_left].
    change (8 * lenZ [b]) with 8. change (8 * lenZ [(b + carry) mod 2 ^ 8]) with 8.
    rewrite !Z.add_0_l. apply carry_step. apply Z.pow_pos_nonneg; lia.
Qed.

(** [_libssh2_aes_ctr_increment] adds one to the counter block, read as a
    big-endian number, modulo the block's size; the length is kept. *)
Theorem aes_ctr_increment_spec ctr (Hb : bytes_ok ctr) :
  be_value (aes_ctr_increment ctr) = (be_value ctr + 1) mod 2 ^ (8 * lenZ ctr) /\
  length (aes_ctr_increment ctr) = length ctr /\ bytes_ok (aes_ctr_increment ctr).
Proof.
  unfold aes_ctr_increment.
  destruct (ctr_loop_value (rev ctr) 1) as (Hok & Hlen & Hv);
    [by apply Forall_rev|lia|].
  unfold lenZ in Hv. rewrite Hv, length_rev, rev_involutive in *.
  split_and!; [done|by rewrite length_rev|by apply Forall_rev].
Qed.

Lemma aes_ctr_increment_spec_witness :
  be_value (aes_ctr_increment [7; 255; 255]) = (be_value [7; 255; 255] + 1) mod 2 ^ (8 * lenZ [7; 255; 255]) /\
  length (aes_ctr_increment [7; 255; 255]) = length [7; 255; 255] /\
  bytes_ok (aes_ctr_increment [7; 255; 255]).
Proof.
  apply (aes_ctr_increment_spec [7; 255; 255]). apply (bool_decide_unpack _). by vm_compute.
Defined.

(** XORing twice with the same stream restores the data. *)
Lemma xor_data_involutive a b :
  (length a <= length b)%nat -> xor_data (xor_data a b) b = a.
Proof.
  revert b. induction a as [|x a IH]; intros [|y b] Hlen; simpl in *; try done; [lia|].
  rewrite Z.lxor_assoc, Z.lxor_nilpotent, Z.lxor_0_r, IH by lia. done.
Qed.
