(* ===== verification/Base64.v ===== *)
(** * Base64 (misc.c)

    [libssh2_base64_decode] and [_libssh2_base64_encode], with the heap block
    they write to: a write outside the block the code allocated is a fault
    ([None]). The allocator is a parameter: [alloc n] is the result of
    [LIBSSH2_ALLOC(session, n)], null or a block with arbitrary contents. *)

From stdpp Require Import base numbers list strings.
From S2P Require Import Prelude Codes Wire.

(** A write of one byte at index [i] of a block. *)
Definition put (d : list Z) (i : Z) (b : Z) : option (list Z) :=
  if decide (0 <= i < lenZ d) then Some (<[Z.to_nat i := b]> d) else None.

Fixpoint put_bytes (d : list Z) (i : Z) (bs : list Z) : option (list Z) :=
  match bs with
  | [] => Some d
  | b :: bs => d ← put d i b; put_bytes d (i + 1) bs
  end.

Definition base64_reverse_table : list Z :=
  [-1; -1; -1; -1; -1; -1; -1; -1; -1; -1; -1; -1; -1; -1; -1; -1;
   -1; -1; -1; -1; -1; -1; -1; -1; -1; -1; -1; -1; -1; -1; -1; -1;
   -1; -1; -1; -1; -1; -1; -1; -1; -1; -1; -1; 62; -1; -1; -1; 63;
   52; 53; 54; 55; 56; 57; 58; 59; 60; 61; -1; -1; -1; -1; -1; -1;
   -1; 0; 1; 2; 3; 4; 5; 6; 7; 8; 9; 10; 11; 12; 13; 14;
   15; 16; 17; 18; 19; 20; 21; 22; 23; 24; 25; -1; -1; -1; -1; -1;
   -1; 26; 27; 28; 29; 30; 31; 32; 33; 34; 35; 36; 37; 38; 39; 40;
   41; 42; 43; 44; 45; 46; 47; 48; 49; 50; 51; -1; -1; -1; -1; -1;
   -1; -1; -1; -1; -1; -1; -1; -1; -1; -1; -1; -1; -1; -1; -1; -1;
   -1; -1; -1; -1; -1; -1; -1; -1; -1; -1; -1; -1; -1; -1; -1; -1;
   -1; -1; -1; -1; -1; -1; -1; -1; -1; -1; -1; -1; -1; -1; -1; -1;
   -1; -1; -1; -1; -1; -1; -1; -1; -1; -1; -1; -1; -1; -1; -1; -1;
   -1; -1; -1; -1; -1; -1; -1; -1; -1; -1; -1; -1; -1; -1; -1; -1;
   -1; -1; -1; -1; -1; -1; -1; -1; -1; -1; -1; -1; -1; -1; -1; -1;
   -1; -1; -1; -1; -1; -1; -1; -1; -1; -1; -1; -1; -1; -1; -1; -1;
   -1; -1; -1; -1; -1; -1; -1; -1; -1; -1; -1; -1; -1; -1; -1; -1].

(** The loop state: the counters [i] and [len] and the output block. *)
Record decoder := mk_decoder { dec_i : Z; dec_len : Z; dec_d : list Z }.

(** The body of the [switch(i % 4)] for a table value [v >= 0]. *)
Definition decode_value (v : Z) (st : decoder) : option decoder :=
  let i := dec_i st in
  let len := dec_len st in
  let d := dec_d st in
  match i mod 4 with
  | 0 => d ← put d len (u8 (Z.shiftl v 2)); Some (mk_decoder (i + 1) len d)
  | 1 => o ← byte_at d len;
         d ← put d len (Z.lor o (Z.shiftr v 4));
         d ← put d (len + 1) (u8 (Z.shiftl v 4)); Some (mk_decoder (i + 1) (len + 1) d)
  | 2 => o ← byte_at d len;
         d ← put d len (Z.lor o (Z.shiftr v 2));
         d ← put d (len + 1) (u8 (Z.shiftl v 6)); Some (mk_decoder (i + 1) (len + 1) d)
  | _ => o ← byte_at d len;
         d ← put d len (Z.lor o v); Some (mk_decoder (i + 1) (len + 1) d)
  end.

(** One iteration of the [for] loop. *)
Definition decode_char (c : Z) (st : decoder) : option decoder :=
  v ← byte_at base64_reverse_table c;
  if v <? 0 then Some st else decode_value v st.

Fixpoint decode_loop (src : list Z) (st : decoder) : option decoder :=
  match src with
  | [] => Some st
  | c :: src => st ← decode_char c st; decode_loop src st
  end.

(** The size argument of [LIBSSH2_ALLOC]: [unsigned int] arithmetic. *)
Definition decode_size (src_len : Z) : Z := u32 (u32 (3 * src_len) / 4 + 1).

(** Returns the return code and [*data] with [*datalen]. *)
Definition base64_decode (alloc : Z -> option (list Z)) (src : list Z) :
    option (Z * cbuf) :=
  match alloc (decode_size (lenZ src)) with
  | None => Some (LIBSSH2_ERROR_ALLOC, None)
  | Some d =>
      st ← decode_loop src (mk_decoder 0 0 d);
      if dec_i st mod 4 =? 1 then Some (LIBSSH2_ERROR_INVAL, None)
      else Some (0, Some (slice 0 (dec_len st) (dec_d st)))
  end.

Definition table64 : list Z :=
  str "ABCDEFGHIJKLMNOPQRSTUVWXYZabcdefghijklmnopqrstuvwxyz0123456789+/".

(** One turn of the [while] loop: the four bytes of [obuf] for up to three
    input bytes, printed over [output[0..4]] with the terminator [snprintf]
    adds. *)
Definition encode_group (ibuf0 ibuf1 ibuf2 : Z) (inputparts : Z) : option (list Z) :=
  let obuf0 := u8 (Z.shiftr (Z.land ibuf0 252) 2) in
  let obuf1 := u8 (Z.lor (Z.shiftl (Z.land ibuf0 3) 4) (Z.shiftr (Z.land ibuf1 240) 4)) in
  let obuf2 := u8 (Z.lor (Z.shiftl (Z.land ibuf1 15) 2) (Z.shiftr (Z.land ibuf2 192) 6)) in
  let obuf3 := u8 (Z.land ibuf2 63) in
  c0 ← byte_at table64 obuf0;
  c1 ← byte_at table64 obuf1;
  match inputparts with
  | 1 => Some [c0; c1; 61; 61; 0]
  | 2 => c2 ← byte_at table64 obuf2; Some [c0; c1; c2; 61; 0]
  | _ => c2 ← byte_at table64 obuf2;
         c3 ← byte_at table64 obuf3; Some [c0; c1; c2; c3; 0]
  end.

Fixpoint encode_loop (indata : list Z) (d : list Z) (output : Z) : option (list Z) :=
  match indata with
  | [] => put d output 0
  | [b0] => g ← encode_group b0 0 0 1;
            d ← put_bytes d output g; put d (output + 4) 0
  | [b0; b1] => g ← encode_group b0 b1 0 2;
                d ← put_bytes d output g; put d (output + 4) 0
  | b0 :: b1 :: b2 :: indata =>
      g ← encode_group b0 b1 b2 3;
      d ← put_bytes d output g; encode_loop indata d (output + 4)
  end.

(** [insize] bytes of the object [inp]; [insize = 0] means a C string. Returns
    the length and the block ([*outptr]). *)
Definition base64_encode (alloc : Z -> option (list Z)) (inp : list Z) (insize : Z) :
    option (Z * cbuf) :=
  indata ← (if insize =? 0 then c_string inp else bytes_at inp 0 insize);
  match alloc (u64 (u64 (lenZ indata * 4) / 3 + 4)) with
  | None => Some (0, None)
  | Some d =>
      d ← encode_loop indata d 0;
      s ← c_string d;
      Some (lenZ s, Some s)
  end.

(** What [LIBSSH2_ALLOC] promises: a block of the requested size. *)
Class AllocOk (alloc : Z -> option (list Z)) : Prop :=
  alloc_len : forall n d, 0 <= n -> alloc n = Some d -> lenZ d = n.

(** ** Blocks *)

Lemma put_in d i b : 0 <= i < lenZ d -> put d i b = Some (<[Z.to_nat i := b]> d).
Proof. intros. unfold put. by rewrite decide_True. Qed.

Lemma put_out d i b : ~ 0 <= i < lenZ d -> put d i b = None.
Proof. intros. unfold put. by rewrite decide_False. Qed.

(** ** Decoding: bounds *)

Lemma table_lookup c : is_byte c -> exists v, byte_at base64_reverse_table c = Some v.
Proof.
  intros Hc. apply byte_at_in. change (lenZ base64_reverse_table) with 256.
  unfold is_byte in Hc. lia.
Qed.

Lemma mod4_cases i : 0 <= i ->
  i mod 4 = 0 \/ i mod 4 = 1 \/ i mod 4 = 2 \/ i mod 4 = 3.
Proof. intros. pose proof (Z.mod_pos_bound i 4). lia. Qed.

(** A digit is stored inside any block that has room for the bytes complete
    after it and the one being assembled. *)
Lemma decode_value_in v st n :
  0 <= dec_i st < n -> dec_len st = 3 * dec_i st / 4 -> 3 * n / 4 < lenZ (dec_d st) ->
  exists st', decode_value v st = Some st' /\ dec_i st' = dec_i st + 1 /\
    dec_len st' = 3 * dec_i st' / 4 /\ lenZ (dec_d st') = lenZ (dec_d st).
Proof.
  intros Hi Hlen Hcap. destruct st as [i len d]; simpl in *. unfold decode_value; simpl.
  assert (0 <= len) by (subst; apply Z.div_pos; lia).
  assert (len < lenZ d) by dlia.
  assert (i mod 4 = 1 \/ i mod 4 = 2 -> len + 1 < lenZ d) by dlia.
  destruct (mod4_cases i) as [E|[E|[E|E]]]; [lia|..]; rewrite E; simpl;
    try (destruct (byte_at_in d len) as [o ->]; [lia|]; simpl);
    repeat (rewrite put_in by (rewrite ?lenZ_insert; lia); simpl);
    eexists; (split; [done|]); simpl; rewrite ?lenZ_insert; split_and!; (done || dlia).
Qed.

Lemma decode_loop_in src st n :
  bytes_ok src -> 0 <= dec_i st -> dec_i st + lenZ src <= n ->
  dec_len st = 3 * dec_i st / 4 -> 3 * n / 4 < lenZ (dec_d st) ->
  exists st', decode_loop src st = Some st' /\ dec_i st <= dec_i st' <= n /\
    dec_len st' = 3 * dec_i st' / 4 /\ lenZ (dec_d st') = lenZ (dec_d st).
Proof.
  intros Hsrc. revert st. induction Hsrc as [|c src Hc _ IH]; intros st Hi Hn Hlen Hcap;
    cbn [decode_loop].
  - exists st. split_and!; try done. unfold lenZ in *; simpl in *; lia.
  - rewrite lenZ_cons in Hn. unfold decode_char.
    destruct (table_lookup c Hc) as [v ->]. cbn [mbind option_bind].
    pose proof (lenZ_nonneg src).
    destruct (v <? 0); cbn [mbind option_bind].
    + apply IH; lia.
    + destruct (decode_value_in v st n) as (st1 & -> & Hi1 & Hlen1 & Hd1); [lia..|].
      cbn [mbind option_bind].
      destruct (IH st1) as (st2 & -> & ? & ? & ?); [lia..|].
      exists st2. split_and!; (done || lia).
Qed.

Lemma decode_size_small n : 0 <= n -> 3 * n < 2 ^ 32 -> decode_size n = 3 * n / 4 + 1.
Proof. intros. unfold decode_size. rewrite (u32_small (3 * n)), u32_small; dlia. Qed.

Lemma base64_decode_total alloc src :
  AllocOk alloc -> bytes_ok src -> 3 * lenZ src < 2 ^ 32 ->
  exists rc out, base64_decode alloc src = Some (rc, out) /\
    match out with
    | Some bs => rc = 0 /\ lenZ bs <= 3 * lenZ src / 4
    | None => rc = LIBSSH2_ERROR_ALLOC \/ rc = LIBSSH2_ERROR_INVAL
    end.
Proof.
  intros Halloc Hb Hsz.  pose proof (lenZ_nonneg src). unfold base64_decode.
  rewrite decode_size_small by done.
  destruct (alloc _) as [d|] eqn:Ha; [|by eexists _, None; eauto].
  apply Halloc in Ha; [|dlia].
  destruct (decode_loop_in src (mk_decoder 0 0 d) (lenZ src)) as (st & -> & Hi & Hlen & Hd);
    simpl in *; [done|lia|lia|done|lia|].
  destruct (dec_i st mod 4 =? 1); [by eexists _, None; eauto|].
  eexists _, (Some _). split; [done|]. split; [done|].
  rewrite lenZ_slice; dlia.
Qed.

(** For inputs of fewer than [2^32 / 3] characters,
    [libssh2_base64_decode] never reads or writes outside the block it
    allocated: it returns success with at most [3 n / 4] bytes, or one of its
    two documented errors with a null result. *)
Theorem base64_decode_in_bounds alloc src
    (Halloc : AllocOk alloc) (Hb : bytes_ok src) (Hsz : 3 * lenZ src < 2 ^ 32) :
  exists rc out, base64_decode alloc src = Some (rc, out) /\
    match out with
    | Some bs => rc = 0 /\ lenZ bs <= 3 * lenZ src / 4
    | None => rc = LIBSSH2_ERROR_ALLOC \/ rc = LIBSSH2_ERROR_INVAL
    end.
Proof. by apply base64_decode_total. Qed.

Lemma base64_decode_in_bounds_witness :
  exists rc out,
    base64_decode (fun n => Some (replicate (Z.to_nat n) 0)) (str "TWFu") = Some (rc, out) /\
    match out with
    | Some bs => rc = 0 /\ lenZ bs <= 3 * lenZ (str "TWFu") / 4
    | None => rc = LIBSSH2_ERROR_ALLOC \/ rc = LIBSSH2_ERROR_INVAL
    end.
Proof.
  apply (base64_decode_in_bounds (fun n => Some (replicate (Z.to_nat n) 0)) (str "TWFu")).
  - intros n d Hn Hd. simplify_eq. unfold lenZ. rewrite length_replicate. lia.
  - apply str_bytes_ok.
  - by vm_compute.
Defined.

(** ** Decoding: the size computation overflows *)

Definition base64_digit (c : Z) : Prop :=
  exists v, byte_at base64_reverse_table c = Some v /\ 0 <= v.

(** On digits only, the loop never skips: it either faults or has consumed one
    digit per character. *)
Lemma decode_value_i v st st' :
  0 <= dec_i st -> dec_len st = 3 * dec_i st / 4 -> decode_value v st = Some st' ->
  dec_i st' = dec_i st + 1 /\ dec_len st' = 3 * dec_i st' / 4 /\
  lenZ (dec_d st') = lenZ (dec_d st) /\ dec_len st < lenZ (dec_d st).
Proof.
  intros Hi Hlen. destruct st as [i len d]; simpl in *. unfold decode_value; simpl.
  assert (Hput : forall d d' j b, put d j b = Some d' -> lenZ d' = lenZ d /\ 0 <= j < lenZ d).
  { intros d0 d' j b. unfold put. case_decide; [|done]. intros [= <-].
    split; [apply lenZ_insert|done]. }
  destruct (mod4_cases i) as [E|[E|[E|E]]]; [lia|..]; rewrite E; simpl;
    try (destruct (byte_at d len) as [o|]; [|done]; simpl);
    repeat match goal with
    | |- context [put ?d ?j ?b] =>
        let Hp := fresh "Hp" in
        destruct (put d j b) as [?d|] eqn:Hp; [|done]; apply Hput in Hp as [? ?]; simpl
    end;
    intros [= <-]; simpl; split_and!; (lia || dlia).
Qed.

Lemma decode_loop_digits src st st' :
  Forall base64_digit src -> 0 <= dec_i st -> dec_len st = 3 * dec_i st / 4 ->
  decode_loop src st = Some st' ->
  dec_i st' = dec_i st + lenZ src /\ lenZ (dec_d st') = lenZ (dec_d st) /\
  (src = [] \/ 3 * (dec_i st + lenZ src - 1) / 4 < lenZ (dec_d st)).
Proof.
  intros Hsrc. revert st. induction Hsrc as [|c src (v & Hv & Hv0) Hf IH];
    intros st Hi Hlen Hloop; cbn [decode_loop] in Hloop.
  - injection Hloop as <-. unfold lenZ; simpl. split_and!; [lia|done|by left].
  - unfold decode_char in Hloop. rewrite Hv in Hloop. cbn [mbind option_bind] in Hloop.
    destruct (Z.ltb_spec v 0); [lia|]. cbn [mbind option_bind] in Hloop.
    destruct (decode_value v st) as [st1|] eqn:E1; [|done]. cbn [mbind option_bind] in Hloop.
    apply decode_value_i in E1 as (Hi1 & Hlen1 & Hd1 & Hcap); [|lia|done].
    destruct (IH st1) as (H1 & H2 & H3); [lia|done|done|].
    rewrite lenZ_cons. split_and!; [lia|lia|]. right.
    destruct H3 as [->|H3].
    + change (lenZ []) with 0. replace (dec_i st + (1 + 0) - 1) with (dec_i st) by lia. lia.
    + rewrite Hi1, Hd1 in H3. by replace (dec_i st + (1 + lenZ src) - 1) with (dec_i st + 1 + lenZ src - 1) by lia.
Qed.

(** The allocation size [3 * src_len / 4 + 1] is computed in
    [unsigned int]: from [2^32 / 3] characters on it wraps, and decoding any
    such string of base64 digits writes past the end of the block. *)
Theorem base64_decode_size_overflow alloc src
    (Halloc : AllocOk alloc) (Hsome : forall n, is_Some (alloc n))
    (Hd : Forall base64_digit src) (Hlo : 2 ^ 32 <= 3 * lenZ src) (Hhi : lenZ src < 2 ^ 32) :
  base64_decode alloc src = None.
Proof.
  unfold base64_decode. destruct (Hsome (decode_size (lenZ src))) as [d Ha]. rewrite Ha.
  apply Halloc in Ha; [|apply u32_range].
  destruct (decode_loop src _) as [st|] eqn:E; [|done]. exfalso.
  apply decode_loop_digits in E as (_ & _ & [->|H]); simpl in *; try done.
  rewrite Ha in H. unfold decode_size, u32 in H.
  assert (3 * lenZ src / 2 ^ 32 = 1 \/ 3 * lenZ src / 2 ^ 32 = 2) by dlia.
  dlia.
Qed.

Lemma base64_decode_size_overflow_witness :
  base64_decode (fun n => Some (replicate (Z.to_nat n) 0))
    (replicate (Z.to_nat 1431655766) 65) = None.
Proof.
  pose proof (Z2Nat.id 1431655766 ltac:(lia)) as Hk.
  generalize dependent (Z.to_nat 1431655766). intros k Hk.
  assert (Hl : lenZ (replicate k 65) = 1431655766).
  { unfold lenZ. by rewrite length_replicate. }
  apply (base64_decode_size_overflow (fun n => Some (replicate (Z.to_nat n) 0)) (replicate k 65)).
  - intros n d Hn Hd. simplify_eq. unfold lenZ. rewrite length_replicate. by apply Z2Nat.id.
  - eauto.
  - apply Forall_replicate. by exists 0.
  - rewrite Hl. lia.
  - rewrite Hl. lia.
Defined.

(** ** Round trip *)

(** The six-bit digits of a group of three bytes. *)
Definition digit0 (b0 : Z) : Z := u8 (Z.shiftr (Z.land b0 252) 2).
Definition digit1 (b0 b1 : Z) : Z :=
  u8 (Z.lor (Z.shiftl (Z.land b0 3) 4) (Z.shiftr (Z.land b1 240) 4)).
Definition digit2 (b1 b2 : Z) : Z :=
  u8 (Z.lor (Z.shiftl (Z.land b1 15) 2) (Z.shiftr (Z.land b2 192) 6)).
Definition digit3 (b2 : Z) : Z := u8 (Z.land b2 63).

(** The bits of one byte a neighbour's digit holds. *)
Lemma byte_parts b : is_byte b ->
  0 <= Z.land b 3 < 4 /\ 0 <= Z.shiftr (Z.land b 240) 4 < 16 /\
  0 <= Z.land b 15 < 16 /\ 0 <= Z.shiftr (Z.land b 192) 6 < 4.
Proof.
  intros Hb.
  assert (H : ((Z.land b 3 <? 4) && (0 <=? Z.land b 3) && (Z.shiftr (Z.land b 240) 4 <? 16)
    && (0 <=? Z.shiftr (Z.land b 240) 4) && (Z.land b 15 <? 16) && (0 <=? Z.land b 15)
    && (Z.shiftr (Z.land b 192) 6 <? 4) && (0 <=? Z.shiftr (Z.land b 192) 6)) = true).
  { apply (range_all (fun b => (Z.land b 3 <? 4) && (0 <=? Z.land b 3) &&
      (Z.shiftr (Z.land b 240) 4 <? 16) && (0 <=? Z.shiftr (Z.land b 240) 4) &&
      (Z.land b 15 <? 16) && (0 <=? Z.land b 15) &&
      (Z.shiftr (Z.land b 192) 6 <? 4) && (0 <=? Z.shiftr (Z.land b 192) 6)) 256);
      [by vm_compute|apply Hb]. }
  breflect. lia.
Qed.

Lemma digit0_spec b0 y : is_byte b0 -> 0 <= y < 16 ->
  (0 <= digit0 b0 < 64) /\
  (0 <= u8 (Z.lor (Z.shiftl (Z.land b0 3) 4) y) < 64) /\
  Z.lor (u8 (Z.shiftl (digit0 b0) 2)) (Z.shiftr (u8 (Z.lor (Z.shiftl (Z.land b0 3) 4) y)) 4) = b0.
Proof.
  intros Hb Hy. unfold digit0.
  pose proof (range_all (fun b => forallb (fun y =>
    (0 <=? u8 (Z.shiftr (Z.land b 252) 2)) && (u8 (Z.shiftr (Z.land b 252) 2) <? 64) &&
    (0 <=? u8 (Z.lor (Z.shiftl (Z.land b 3) 4) y)) &&
    (u8 (Z.lor (Z.shiftl (Z.land b 3) 4) y) <? 64) &&
    (Z.lor (u8 (Z.shiftl (u8 (Z.shiftr (Z.land b 252) 2)) 2))
       (Z.shiftr (u8 (Z.lor (Z.shiftl (Z.land b 3) 4) y)) 4) =? b)) (seqZ 0 16)) 256) as H.
  specialize (H ltac:(by vm_compute) b0 Hb). apply range_all with (z := y) in H; [|done].
  breflect. lia.
Qed.

Lemma digit1_spec x b1 y : 0 <= x < 4 -> is_byte b1 -> 0 <= y < 4 ->
  (0 <= u8 (Z.lor (Z.shiftl (Z.land b1 15) 2) y) < 64) /\
  Z.lor (u8 (Z.shiftl (u8 (Z.lor (Z.shiftl x 4) (Z.shiftr (Z.land b1 240) 4))) 4))
        (Z.shiftr (u8 (Z.lor (Z.shiftl (Z.land b1 15) 2) y)) 2) = b1.
Proof.
  intros Hx Hb Hy.
  pose proof (range_all (fun x => forallb (fun b => forallb (fun y =>
    (0 <=? u8 (Z.lor (Z.shiftl (Z.land b 15) 2) y)) &&
    (u8 (Z.lor (Z.shiftl (Z.land b 15) 2) y) <? 64) &&
    (Z.lor (u8 (Z.shiftl (u8 (Z.lor (Z.shiftl x 4) (Z.shiftr (Z.land b 240) 4))) 4))
       (Z.shiftr (u8 (Z.lor (Z.shiftl (Z.land b 15) 2) y)) 2) =? b))
    (seqZ 0 4)) (seqZ 0 256)) 4) as H.
  specialize (H ltac:(by vm_compute) x Hx). apply range_all with (z := b1) in H; [|done].
  apply range_all with (z := y) in H; [|done]. breflect. lia.
Qed.

Lemma digit2_spec x b2 : 0 <= x < 16 -> is_byte b2 ->
  (0 <= digit3 b2 < 64) /\
  Z.lor (u8 (Z.shiftl (u8 (Z.lor (Z.shiftl x 2) (Z.shiftr (Z.land b2 192) 6))) 6)) (digit3 b2) = b2.
Proof.
  intros Hx Hb. unfold digit3.
  pose proof (range_all (fun x => forallb (fun b =>
    (0 <=? u8 (Z.land b 63)) && (u8 (Z.land b 63) <? 64) &&
    (Z.lor (u8 (Z.shiftl (u8 (Z.lor (Z.shiftl x 2) (Z.shiftr (Z.land b 192) 6))) 6))
       (u8 (Z.land b 63)) =? b)) (seqZ 0 256)) 16) as H.
  specialize (H ltac:(by vm_compute) x Hx). apply range_all with (z := b2) in H; [|done].
  breflect. lia.
Qed.

(** What a group of bytes gives: digits in range that assemble back. *)
Lemma group_digits b0 b1 b2 : is_byte b0 -> is_byte b1 -> is_byte b2 ->
  (0 <= digit0 b0 < 64) /\ (0 <= digit1 b0 b1 < 64) /\ (0 <= digit2 b1 b2 < 64) /\
  (0 <= digit3 b2 < 64) /\
  Z.lor (u8 (Z.shiftl (digit0 b0) 2)) (Z.shiftr (digit1 b0 b1) 4) = b0 /\
  Z.lor (u8 (Z.shiftl (digit1 b0 b1) 4)) (Z.shiftr (digit2 b1 b2) 2) = b1 /\
  Z.lor (u8 (Z.shiftl (digit2 b1 b2) 6)) (digit3 b2) = b2.
Proof.
  intros H0 H1 H2.
  destruct (byte_parts b0 H0) as (P0 & _ & _ & _).
  destruct (byte_parts b1 H1) as (_ & P1 & P1' & _).
  destruct (byte_parts b2 H2) as (_ & _ & _ & P2).
  destruct (digit0_spec b0 _ H0 P1) as (? & ? & ?).
  destruct (digit1_spec _ b1 _ P0 H1 P2) as (? & ?).
  destruct (digit2_spec _ b2 P1' H2) as (? & ?). unfold digit1, digit2. lia.
Qed.

(** The printed digit of a value, and its reading back. *)
Definition char64 (v : Z) : Z := default 0 (byte_at table64 v).

Lemma char64_ok v : 0 <= v < 64 ->
  byte_at table64 v = Some (char64 v) /\ char64 v <> 0 /\ is_byte (char64 v) /\
  byte_at base64_reverse_table (char64 v) = Some v.
Proof.
  intros Hv.
  pose proof (range_all (fun v => bool_decide (byte_at table64 v = Some (char64 v)) &&
    negb (char64 v =? 0) && bool_decide (is_byte (char64 v)) &&
    bool_decide (byte_at base64_reverse_table (char64 v) = Some v)) 64) as H.
  specialize (H ltac:(by vm_compute) v Hv). cbv beta in H. breflect. auto.
Qed.

(** The digits of a byte string, as [_libssh2_base64_encode] prints them. *)
Fixpoint enc (l : list Z) : list Z :=
  match l with
  | [] => []
  | [b0] => [char64 (digit0 b0); char64 (digit1 b0 0); 61; 61]
  | [b0; b1] => [char64 (digit0 b0); char64 (digit1 b0 b1); char64 (digit2 b1 0); 61]
  | b0 :: b1 :: b2 :: l =>
      char64 (digit0 b0) :: char64 (digit1 b0 b1) :: char64 (digit2 b1 b2)
        :: char64 (digit3 b2) :: enc l
  end.

(** Induction over groups of three. *)
Lemma group_ind (P : list Z -> Prop) :
  P [] -> (forall a, P [a]) -> (forall a b, P [a; b]) ->
  (forall a b c l, P l -> P (a :: b :: c :: l)) -> forall l, P l.
Proof.
  intros H0 H1 H2 H3. fix go 1. intros [|a [|b [|c l]]]; [done..|]. apply H3, go.
Qed.

Lemma is_byte_0 : is_byte 0.
Proof. done. Qed.

(** The text consists of the digits and the padding. *)
Lemma enc_all (P : Z -> Prop) l : (forall v, 0 <= v < 64 -> P (char64 v)) -> P 61 -> bytes_ok l -> Forall P (enc l).
Proof.
  intros Hc Hpad. induction l as [|a|a b|a b c l IH] using group_ind; intros Hl; cbn [enc].
  - constructor.
  - inversion_clear Hl. destruct (group_digits a 0 0) as (? & ? & ? & ? & _); [auto using is_byte_0..|].
    repeat apply Forall_cons_2; (by apply Hc) || done.
  - inversion_clear Hl as [|? ? ? Hl']. inversion_clear Hl'.
    destruct (group_digits a b 0) as (? & ? & ? & ? & _); [auto using is_byte_0..|].
    repeat apply Forall_cons_2; (by apply Hc) || done.
  - inversion_clear Hl as [|? ? ? Hl']. inversion_clear Hl' as [|? ? ? Hl''].
    inversion_clear Hl''. destruct (group_digits a b c) as (? & ? & ? & ? & _); [auto..|].
    repeat apply Forall_cons_2; (by apply Hc) || auto.
Qed.

Lemma enc_chars l : bytes_ok l -> Forall (fun c => c <> 0 /\ is_byte c) (enc l).
Proof.
  apply enc_all; [|done]. intros v Hv. destruct (char64_ok v Hv) as (_ & ? & ? & _). done.
Qed.

(** Four characters per started group. *)
Lemma lenZ_enc l : lenZ (enc l) = 4 * ((lenZ l + 2) / 3).
Proof.
  induction l as [|a|a b|a b c l IH] using group_ind; [done..|].
  cbn [enc]. rewrite !lenZ_cons, IH. dlia.
Qed.

Lemma put_bytes_spec bs d i :
  0 <= i -> i + lenZ bs <= lenZ d ->
  put_bytes d i bs = Some (take (Z.to_nat i) d ++ bs ++ drop (Z.to_nat (i + lenZ bs)) d).
Proof.
  revert d i. induction bs as [|b bs IH]; intros d i Hi Hn; cbn [put_bytes].
  - unfold lenZ; simpl. by rewrite Z.add_0_r, take_drop.
  - rewrite lenZ_cons in *. pose proof (lenZ_nonneg bs).
    rewrite put_in by lia. cbn [mbind option_bind].
    rewrite IH by (rewrite ?lenZ_insert; lia). f_equal.
    replace (Z.to_nat (i + 1)) with (S (Z.to_nat i)) by lia.
    rewrite drop_insert_lt by lia.
    replace (i + 1 + lenZ bs) with (i + (1 + lenZ bs)) by lia.
    unfold lenZ in *.
    erewrite take_S_r by (apply list_lookup_insert_eq; lia).
    rewrite take_insert_ge by lia. by rewrite <- app_assoc.
Qed.

(** [encode_group] prints the digits of its group. *)
Lemma encode_group_enc b0 b1 b2 :
  is_byte b0 -> is_byte b1 -> is_byte b2 ->
  encode_group b0 0 0 1 = Some (enc [b0] ++ [0]) /\
  encode_group b0 b1 0 2 = Some (enc [b0; b1] ++ [0]) /\
  encode_group b0 b1 b2 3 = Some (enc [b0; b1; b2] ++ [0]).
Proof.
  intros H0 H1 H2. unfold encode_group.
  fold (digit0 b0) (digit1 b0 0) (digit1 b0 b1) (digit2 b1 0) (digit2 b1 b2) (digit3 b2).
  destruct (group_digits b0 0 0) as (? & A1 & _); auto using is_byte_0.
  destruct (group_digits b0 b1 0) as (_ & B1 & B2 & _); auto using is_byte_0.
  destruct (group_digits b0 b1 b2) as (C0 & C1 & C2 & C3 & _); auto.
  apply char64_ok in A1 as (A1 & _), B1 as (B1 & _), B2 as (B2 & _), C0 as (C0 & _),
    C2 as (C2 & _), C3 as (C3 & _).
  by rewrite C0, A1, B1, B2, C2, C3.
Qed.

Lemma put_mid x y z b i : i = lenZ x -> put (x ++ y :: z) i b = Some (x ++ b :: z).
Proof.
  intros ->. rewrite put_in by (rewrite lenZ_app, lenZ_cons; pose proof (lenZ_nonneg x);
    pose proof (lenZ_nonneg z); lia).
  unfold lenZ. rewrite Nat2Z.id. f_equal.
  replace (length x) with (length x + 0)%nat by lia. by rewrite insert_app_r.
Qed.

Lemma lenZ_take (d : list Z) i : 0 <= i <= lenZ d -> lenZ (take (Z.to_nat i) d) = i.
Proof. intros. unfold lenZ in *. rewrite length_take. lia. Qed.

(** A group printed at [output]: its characters, then the terminator. *)
Lemma put_group d output g :
  0 <= output -> output + lenZ g < lenZ d ->
  put_bytes d output (g ++ [0]) =
    Some ((take (Z.to_nat output) d ++ g) ++ 0 :: drop (Z.to_nat (output + lenZ g + 1)) d).
Proof.
  intros. assert (lenZ (g ++ [0]) = lenZ g + 1) by (rewrite lenZ_app; done).
  rewrite put_bytes_spec by lia. by rewrite H1, <- !app_assoc, Z.add_assoc.
Qed.

(** The loop replaces the block's bytes from [output] on by the digits and a
    terminator, provided they fit. *)
Lemma encode_loop_spec l d output :
  bytes_ok l -> 0 <= output -> output + lenZ (enc l) < lenZ d ->
  encode_loop l d output =
    Some ((take (Z.to_nat output) d ++ enc l) ++ 0 :: drop (Z.to_nat (output + lenZ (enc l) + 1)) d).
Proof.
  revert d output. induction l as [|a|a b|a b c l IH] using group_ind;
    intros d output Hl Ho Hn; cbn [encode_loop].
  - change (lenZ (enc [])) with 0 in *. pose proof (put_group d output [] Ho Hn) as H.
    cbn in H. by destruct (put d output 0).
  - inversion_clear Hl. destruct (encode_group_enc a 0 0) as (-> & _); auto using is_byte_0.
    cbn [mbind option_bind]. rewrite put_group by done. cbn [mbind option_bind].
    apply put_mid. rewrite lenZ_app, lenZ_take by (pose proof (lenZ_nonneg (enc [a])); lia). done.
  - inversion_clear Hl as [|? ? ? Hl']. inversion_clear Hl'.
    destruct (encode_group_enc a b 0) as (_ & -> & _); auto using is_byte_0.
    cbn [mbind option_bind]. rewrite put_group by done. cbn [mbind option_bind].
    apply put_mid. rewrite lenZ_app, lenZ_take by (pose proof (lenZ_nonneg (enc [a; b])); lia). done.
  - inversion_clear Hl as [|? ? ? Hl']. inversion_clear Hl' as [|? ? ? Hl''].
    inversion_clear Hl''. destruct (encode_group_enc a b c) as (_ & _ & ->); auto.
    pose proof (lenZ_nonneg (enc l)).
    assert (Henc : enc (a :: b :: c :: l) = enc [a; b; c] ++ enc l) by done.
    assert (H4 : lenZ (enc [a; b; c]) = 4) by done.
    rewrite Henc, lenZ_app, H4 in *. cbn [mbind option_bind].
    rewrite put_group by lia. cbn [mbind option_bind].
    set (x := take (Z.to_nat output) d ++ enc [a; b; c]).
    assert (Hx : lenZ x = output + 4)
      by (unfold x; rewrite lenZ_app, lenZ_take by lia; lia).
    rewrite IH; [|done|lia|].
    + f_equal. rewrite H4. unfold lenZ in Hx.
      rewrite take_app_length', app_assoc by lia. f_equal. f_equal.
      rewrite drop_app_ge by lia.
      replace (Z.to_nat (output + 4 + lenZ (enc l) + 1) - length x)%nat
        with (S (Z.to_nat (lenZ (enc l)))) by lia.
      cbn [drop]. rewrite drop_drop. f_equal. lia.
    + rewrite lenZ_app, lenZ_cons, Hx, H4. unfold lenZ. rewrite length_drop. unfold lenZ in *. lia.
Qed.

(** Decoding the digits of [l] from a group boundary appends [l] to the bytes
    decoded so far. *)
Lemma decode_digit v : 0 <= v < 64 -> forall st,
  decode_char (char64 v) st = decode_value v st.
Proof.
  intros Hv st. unfold decode_char. destruct (char64_ok v Hv) as (_ & _ & _ & ->).
  cbn [mbind option_bind]. destruct (Z.ltb_spec v 0); [lia|done].
Qed.

Lemma decode_pad st : decode_char 61 st = Some st.
Proof. done. Qed.

Lemma byte_at_mid_cons x y z : byte_at (x ++ y :: z) (lenZ x) = Some y.
Proof.
  unfold byte_at, lenZ. rewrite decide_True by lia. rewrite Nat2Z.id.
  rewrite lookup_app_r, Nat.sub_diag by lia. done.
Qed.

(** The four cases of the [switch], on a block split at [d[len]]. *)
Lemma decode_value_case0 v i x y z :
  i mod 4 = 0 ->
  decode_value v (mk_decoder i (lenZ x) (x ++ y :: z)) =
    Some (mk_decoder (i + 1) (lenZ x) (x ++ u8 (Z.shiftl v 2) :: z)).
Proof. intros E. unfold decode_value; simpl. rewrite E, put_mid by done. done. Qed.

Lemma put_next x y y' z b :
  put (x ++ y :: y' :: z) (lenZ x + 1) b = Some (x ++ y :: b :: z).
Proof.
  replace (x ++ y :: y' :: z) with ((x ++ [y]) ++ y' :: z) by by rewrite <- app_assoc.
  rewrite put_mid by (rewrite lenZ_app; done). by rewrite <- app_assoc.
Qed.

Lemma decode_value_case1 v i x y y' z :
  i mod 4 = 1 ->
  decode_value v (mk_decoder i (lenZ x) (x ++ y :: y' :: z)) =
    Some (mk_decoder (i + 1) (lenZ x + 1)
      (x ++ Z.lor y (Z.shiftr v 4) :: u8 (Z.shiftl v 4) :: z)).
Proof.
  intros E. unfold decode_value; simpl.
  rewrite E, byte_at_mid_cons; simpl. rewrite put_mid by done; simpl.
  rewrite put_next; done.
Qed.

Lemma decode_value_case2 v i x y y' z :
  i mod 4 = 2 ->
  decode_value v (mk_decoder i (lenZ x) (x ++ y :: y' :: z)) =
    Some (mk_decoder (i + 1) (lenZ x + 1)
      (x ++ Z.lor y (Z.shiftr v 2) :: u8 (Z.shiftl v 6) :: z)).
Proof.
  intros E. unfold decode_value; simpl.
  rewrite E, byte_at_mid_cons; simpl. rewrite put_mid by done; simpl.
  rewrite put_next; done.
Qed.

Lemma decode_value_case3 v i x y z :
  i mod 4 = 3 ->
  decode_value v (mk_decoder i (lenZ x) (x ++ y :: z)) =
    Some (mk_decoder (i + 1) (lenZ x + 1) (x ++ Z.lor y v :: z)).
Proof.
  intros E. unfold decode_value; simpl.
  rewrite E, byte_at_mid_cons; simpl. rewrite put_mid by done; done.
Qed.

Lemma app_snoc (x : list Z) y z : x ++ y :: z = (x ++ [y]) ++ z.
Proof. by rewrite <- app_assoc. Qed.

Lemma lenZ_snoc (x : list Z) y : lenZ x + 1 = lenZ (x ++ [y]).
Proof. by rewrite lenZ_app. Qed.

(** Two, three or four digits of a group, from a group boundary. *)
Lemma decode_two b0 b1 i x y0 y1 z rest :
  is_byte b0 -> is_byte b1 -> i mod 4 = 0 -> 0 <= i ->
  decode_loop (char64 (digit0 b0) :: char64 (digit1 b0 b1) :: rest)
    (mk_decoder i (lenZ x) (x ++ y0 :: y1 :: z)) =
  decode_loop rest (mk_decoder (i + 2) (lenZ (x ++ [b0]))
    ((x ++ [b0]) ++ u8 (Z.shiftl (digit1 b0 b1) 4) :: z)).
Proof.
  intros H0 H1 Hi Hpos. cbn [decode_loop].
  destruct (group_digits b0 b1 0) as (D0 & D1 & _ & _ & E0 & _); auto using is_byte_0.
  rewrite !decode_digit by done. rewrite decode_value_case0 by done. cbn [mbind option_bind].
  rewrite decode_digit, decode_value_case1 by (done || dlia). cbn [mbind option_bind].
  rewrite E0, (app_snoc x), (lenZ_snoc x b0). do 2 f_equal. lia.
Qed.

Lemma decode_three b0 b1 b2 i x y0 y1 y2 z rest :
  is_byte b0 -> is_byte b1 -> is_byte b2 -> i mod 4 = 0 -> 0 <= i ->
  decode_loop (char64 (digit0 b0) :: char64 (digit1 b0 b1) :: char64 (digit2 b1 b2) :: rest)
    (mk_decoder i (lenZ x) (x ++ y0 :: y1 :: y2 :: z)) =
  decode_loop rest (mk_decoder (i + 3) (lenZ (x ++ [b0; b1]))
    ((x ++ [b0; b1]) ++ u8 (Z.shiftl (digit2 b1 b2) 6) :: z)).
Proof.
  intros H0 H1 H2 Hi Hpos. rewrite decode_two by done. cbn [decode_loop].
  destruct (group_digits b0 b1 b2) as (_ & _ & D2 & _ & _ & E1 & _); auto.
  rewrite decode_digit, decode_value_case2 by (done || dlia). cbn [mbind option_bind].
  rewrite E1, (app_snoc (x ++ [b0])), (lenZ_snoc (x ++ [b0]) b1), <- (app_assoc x). do 2 f_equal. lia.
Qed.

Lemma decode_four b0 b1 b2 i x y0 y1 y2 z rest :
  is_byte b0 -> is_byte b1 -> is_byte b2 -> i mod 4 = 0 -> 0 <= i ->
  decode_loop (char64 (digit0 b0) :: char64 (digit1 b0 b1) :: char64 (digit2 b1 b2)
      :: char64 (digit3 b2) :: rest)
    (mk_decoder i (lenZ x) (x ++ y0 :: y1 :: y2 :: z)) =
  decode_loop rest (mk_decoder (i + 4) (lenZ (x ++ [b0; b1; b2])) ((x ++ [b0; b1; b2]) ++ z)).
Proof.
  intros H0 H1 H2 Hi Hpos. rewrite decode_three by done. cbn [decode_loop].
  destruct (group_digits b0 b1 b2) as (_ & _ & _ & D3 & _ & _ & E2); auto.
  rewrite decode_digit, decode_value_case3 by (done || dlia). cbn [mbind option_bind].
  rewrite E2, (app_snoc (x ++ [b0; b1])), (lenZ_snoc (x ++ [b0; b1]) b2), <- (app_assoc x). do 2 f_equal. lia.
Qed.

(** Decoding the digits of [l] from a group boundary appends [l] to the bytes
    decoded so far. *)
Lemma decode_enc l : bytes_ok l -> forall i x z,
  i mod 4 = 0 -> 0 <= i -> lenZ l < lenZ z ->
  exists i' z', decode_loop (enc l) (mk_decoder i (lenZ x) (x ++ z)) =
    Some (mk_decoder i' (lenZ (x ++ l)) ((x ++ l) ++ z')) /\ i' mod 4 <> 1.
Proof.
  induction l as [|a|a b|a b c l IH] using group_ind; intros Hl i x z Hi Hpos Hz; cbn [enc].
  - rewrite app_nil_r. exists i, z. split; [done|lia].
  - inversion_clear Hl. destruct z as [|y0 [|y1 z]]; [done..|].
    rewrite decode_two by auto using is_byte_0. cbn [decode_loop].
    eexists (i + 2), _. split; [done|dlia].
  - inversion_clear Hl as [|? ? ? Hl']. inversion_clear Hl'.
    destruct z as [|y0 [|y1 [|y2 z]]]; [done..|].
    rewrite decode_three by auto using is_byte_0. cbn [decode_loop].
    eexists (i + 3), _. split; [done|dlia].
  - inversion_clear Hl as [|? ? ? Hl']. inversion_clear Hl' as [|? ? ? Hl''].
    inversion_clear Hl''. rewrite !lenZ_cons in Hz. pose proof (lenZ_nonneg l).
    destruct z as [|y0 [|y1 [|y2 z]]]; rewrite ?lenZ_cons in Hz;
      try (change (lenZ (@nil Z)) with 0 in Hz; lia).
    rewrite decode_four by auto.
    destruct (IH ltac:(done) (i + 4) (x ++ [a; b; c]) z) as (i' & z' & -> & Hi'); [dlia|lia|lia|].
    exists i', z'. split; [by rewrite <- (app_assoc x)|done].
Qed.

(** The digits that the encoder prints, and what the decoder makes of them. *)
Lemma base64_encode_enc alloc inp :
  AllocOk alloc -> (forall n, is_Some (alloc n)) -> bytes_ok inp -> 0 < lenZ inp -> lenZ inp < 2 ^ 30 ->
  base64_encode alloc inp (lenZ inp) = Some (lenZ (enc inp), Some (enc inp)).
Proof.
  intros Halloc Hsome Hb Hne Hsz. pose proof (lenZ_enc inp) as Hlen.
  unfold base64_encode. destruct (Z.eqb_spec (lenZ inp) 0); [lia|].
  rewrite bytes_at_in by lia. cbn [mbind option_bind].
  assert (Hs : slice 0 (lenZ inp) inp = inp)
    by (unfold slice, lenZ; rewrite Nat2Z.id; apply firstn_all).
  rewrite Hs, (u64_small (lenZ inp * 4)), u64_small by dlia.
  destruct (Hsome (lenZ inp * 4 / 3 + 4)) as [d Hd]. rewrite Hd.
  apply Halloc in Hd; [|dlia].
  rewrite encode_loop_spec; [|done|lia|rewrite Hlen, Hd; dlia]. cbn [mbind option_bind].
  change (take (Z.to_nat 0) d) with (@nil Z). cbn [app]. rewrite c_string_app.
  - cbn [mbind option_bind]. done.
  - eapply Forall_impl; [by apply enc_chars|]. by intros c [? _].
Qed.

Lemma base64_decode_enc alloc inp :
  AllocOk alloc -> (forall n, is_Some (alloc n)) -> bytes_ok inp -> lenZ inp < 2 ^ 30 ->
  base64_decode alloc (enc inp) = Some (0, Some inp).
Proof.
  intros Halloc Hsome Hb Hsz. pose proof (lenZ_enc inp) as Hlen. pose proof (lenZ_nonneg inp).
  unfold base64_decode. rewrite decode_size_small by dlia.
  destruct (Hsome (3 * lenZ (enc inp) / 4 + 1)) as [d Hd]. rewrite Hd.
  apply Halloc in Hd; [|dlia].
  destruct (decode_enc inp Hb 0 [] d) as (i' & z' & E & Hi'); [done|done|dlia|].
  cbn [app lenZ length Z.of_nat] in E. change (lenZ (@nil Z)) with 0 in E.
  rewrite E. cbn [mbind option_bind dec_i dec_len dec_d].
  destruct (Z.eqb_spec (i' mod 4) 1); [done|].
  do 3 f_equal. change 0 with (lenZ (@nil Z)) at 1.
  apply (slice_app_mid [] inp z').
Qed.

(** Decoding an encoded byte string gives it back: for every non-empty
    [inp] of fewer than [2^30] bytes, [_libssh2_base64_encode] succeeds with
    [4 * ceil(n / 3)] characters, stays inside its block, and
    [libssh2_base64_decode] of the result returns [inp]. *)
Theorem base64_roundtrip alloc inp
    (Halloc : AllocOk alloc) (Hsome : forall n, is_Some (alloc n))
    (Hb : bytes_ok inp) (Hne : 0 < lenZ inp) (Hsz : lenZ inp < 2 ^ 30) :
  exists out, base64_encode alloc inp (lenZ inp) = Some (4 * ((lenZ inp + 2) / 3), Some out) /\
    base64_decode alloc out = Some (0, Some inp).
Proof.
  exists (enc inp). rewrite <- lenZ_enc. split; [by apply base64_encode_enc|by apply base64_decode_enc].
Qed.

Lemma base64_roundtrip_witness :
  exists out,
    base64_encode (fun n => Some (replicate (Z.to_nat n) 7)) [77; 97; 110; 0; 255] 5
      = Some (8, Some out) /\
    base64_decode (fun n => Some (replicate (Z.to_nat n) 7)) out
      = Some (0, Some [77; 97; 110; 0; 255]).
Proof.
  apply (base64_roundtrip (fun n => Some (replicate (Z.to_nat n) 7)) [77; 97; 110; 0; 255]).
  - intros n d Hn Hd. simplify_eq. unfold lenZ. rewrite length_replicate. lia.
  - eauto.
  - apply (bool_decide_unpack _). by vm_compute.
  - done.
  - done.
Defined.
