(* ===== verification/CString.v ===== *)
(** * Terminated strings and name lists

    The C library functions on strings that kex.c, knownhost.c and others use,
    on an object's bytes and an offset into it: a read outside the object is
    [None]. Then comma-separated lists: [split_comma] is what such a list
    denotes, [token_pos] where a name is found in it. *)

From stdpp Require Import base numbers list.
From S2P Require Import Prelude.

(** ** The functions of string.h *)

(** [strncmp(a + i, b + j, n) == 0]. *)
Fixpoint strncmp_eq (n : nat) (a : list Z) (i : Z) (b : list Z) (j : Z) : option bool :=
  match n with
  | O => Some true
  | S n =>
      x ← byte_at a i;
      y ← byte_at b j;
      if negb (x =? y) then Some false
      else if x =? 0 then Some true
      else strncmp_eq n a (i + 1) b (j + 1)
  end.

(** [memchr(l + i, c, n)]: reads up to the first [c]. *)
Fixpoint memchr (n : nat) (l : list Z) (i c : Z) : option (option Z) :=
  match n with
  | O => Some None
  | S n => b ← byte_at l i; if b =? c then Some (Some i) else memchr n l (i + 1) c
  end.

Fixpoint strchr_from (l : list Z) (i c : Z) : option (option Z) :=
  match l with
  | [] => None
  | b :: l => if b =? c then Some (Some i) else if b =? 0 then Some None
              else strchr_from l (i + 1) c
  end.

(** [strchr(l + i, c)] for [c] other than 0. *)
Definition strchr (l : list Z) (i c : Z) : option (option Z) :=
  if decide (0 <= i) then strchr_from (drop (Z.to_nat i) l) i c else None.

(** [strlen(l + i)]. *)
Definition strlen (l : list Z) (i : Z) : option Z :=
  if decide (0 <= i) then lenZ <$> c_string (drop (Z.to_nat i) l) else None.

(** ** Name lists *)

Definition comma : Z := 44.

(** The names of a comma-separated list; an empty list has one, empty, name. *)
Fixpoint split_comma (l : list Z) : list (list Z) :=
  match l with
  | [] => [[]]
  | b :: l =>
      if b =? comma then [] :: split_comma l
      else match split_comma l with
           | t :: ts => (b :: t) :: ts
           | [] => [[b]]
           end
  end.

Fixpoint join_comma (ts : list (list Z)) : list Z :=
  match ts with
  | [] => []
  | [t] => t
  | t :: ts => t ++ comma :: join_comma ts
  end.

(** Where the first of the names [ts], laid out from offset [base], is [w]. *)
Fixpoint token_pos (ts : list (list Z)) (base : Z) (w : list Z) : option Z :=
  match ts with
  | [] => None
  | t :: ts => if decide (t = w) then Some base else token_pos ts (base + lenZ t + 1) w
  end.

Definition no_comma (l : list Z) : Prop := Forall (fun b => b <> comma) l.
Definition no_nul (l : list Z) : Prop := Forall (fun b => b <> 0) l.

Lemma token_pos_elem ts base w : is_Some (token_pos ts base w) <-> w ∈ ts.
Proof.
  revert base. induction ts as [|t ts IH]; intros base; simpl.
  - split; [intros []; done|intros []%not_elem_of_nil].
  - rewrite elem_of_cons. case_decide as Ht; [subst; split; [by left|eauto]|]. rewrite IH.
    split; [by right|by intros [->|]].
Qed.

Lemma token_pos_ge ts base w q : token_pos ts base w = Some q -> base <= q.
Proof.
  revert base. induction ts as [|t ts IH]; intros base; simpl; [done|].
  case_decide; [intros [= ->]; lia|]. intros Hq%IH. pose proof (lenZ_nonneg t). lia.
Qed.

(** The name at the front is the preferred one. *)
Lemma token_pos_head ts base w :
  token_pos ts base w = Some base <-> head ts = Some w.
Proof.
  destruct ts as [|t ts]; simpl; [done|]. case_decide as Ht; [naive_solver|].
  split; [|by intros [=]]. intros Hq%token_pos_ge. pose proof (lenZ_nonneg t). lia.
Qed.

Lemma split_comma_nonempty l : split_comma l <> [].
Proof. destruct l as [|b l]; simpl; [done|]. destruct (b =? comma); [done|]. by destruct (split_comma l). Qed.

Lemma split_comma_last t : no_comma t -> split_comma t = [t].
Proof.
  induction 1 as [|b t Hb _ IH]; simpl; [done|].
  destruct (Z.eqb_spec b comma); [done|]. by rewrite IH.
Qed.

Lemma split_comma_app t l : no_comma t -> split_comma (t ++ comma :: l) = t :: split_comma l.
Proof.
  induction 1 as [|b t Hb _ IH]; simpl; [done|].
  destruct (Z.eqb_spec b comma); [done|]. by rewrite IH.
Qed.

(** A list is its first name, or its first name, a comma and the rest. *)
Lemma split_comma_cases l :
  (no_comma l) \/ (exists t r, l = t ++ comma :: r /\ no_comma t).
Proof.
  induction l as [|b l IH]; [left; constructor|].
  destruct (decide (b = comma)) as [->|Hb]; [right; exists [], l; split; [done|constructor]|].
  destruct IH as [IH|(t & r & -> & IH)]; [left; by constructor|].
  right. exists (b :: t), r. split; [done|]. by constructor.
Qed.

Lemma split_join ts : ts <> [] -> Forall no_comma ts -> split_comma (join_comma ts) = ts.
Proof.
  induction ts as [|t ts IH]; intros Hne Hts; [done|]. inversion Hts; subst.
  destruct ts as [|t' ts]; simpl join_comma; [by apply split_comma_last|].
  rewrite split_comma_app by done. f_equal. by apply IH.
Qed.

(** ** What the functions do inside an object *)


Lemma byte_at_head a b l i : i = lenZ a -> byte_at (a ++ b :: l) i = Some b.
Proof.
  intros ->. unfold byte_at, lenZ. rewrite decide_True by lia. rewrite Nat2Z.id.
  by rewrite list_lookup_middle.
Qed.

Lemma memchr_app n a t l c r i :
  Forall (fun b => b <> c) t -> i = lenZ a -> (length t < n)%nat ->
  l = a ++ t ++ c :: r -> memchr n l i c = Some (Some (i + lenZ t)).
Proof.
  revert n a i. induction t as [|b t IH]; intros n a i Ht -> Hn ->; (destruct n as [|n]; [simpl in Hn; lia|]); simpl.
  - rewrite byte_at_head by done. simpl. rewrite Z.eqb_refl. do 2 f_equal. unfold lenZ; simpl; lia.
  - inversion Ht; subst. rewrite byte_at_head by done. simpl. destruct (Z.eqb_spec b c); [done|].
    rewrite (IH n (a ++ [b])); [|done|rewrite lenZ_app; done|simpl in Hn; lia|by rewrite <- app_assoc].
    rewrite lenZ_cons. do 2 f_equal. lia.
Qed.

Lemma memchr_none n a t l c r i :
  Forall (fun b => b <> c) t -> i = lenZ a -> length t = n ->
  l = a ++ t ++ r -> memchr n l i c = Some None.
Proof.
  revert n a i. induction t as [|b t IH]; intros n a i Ht -> <- ->; simpl; [done|].
  inversion Ht; subst. rewrite byte_at_head by done. simpl. destruct (Z.eqb_spec b c); [done|].
  apply (IH _ (a ++ [b])); [done|rewrite lenZ_app; done|done|by rewrite <- app_assoc].
Qed.

(** [strncmp] against a name without 0 compares the bytes. *)
Lemma strncmp_eq_spec w : forall a x l b y m i j,
  no_nul w -> l = a ++ x -> (length w <= length x)%nat -> i = lenZ a ->
  m = b ++ w ++ y -> j = lenZ b ->
  strncmp_eq (length w) l i m j = Some (bool_decide (take (length w) x = w)).
Proof.
  induction w as [|c w IH]; intros a x l b y m i j Hw -> Hx -> -> ->; simpl.
  - done.
  - destruct x as [|d x]; [simpl in Hx; lia|]. inversion Hw; subst.
    rewrite !byte_at_head by done. simpl. destruct (Z.eqb_spec d c) as [->|Hd]; simpl.
    + destruct (Z.eqb_spec c 0); [done|].
      rewrite (IH (a ++ [c]) x _ (b ++ [c]) y); try done.
      * f_equal. apply bool_decide_ext. split; [by intros ->|congruence].
      * by rewrite <- app_assoc.
      * simpl in Hx; lia.
      * by rewrite lenZ_app.
      * by rewrite <- app_assoc.
      * by rewrite lenZ_app.
    + f_equal. symmetry. apply bool_decide_eq_false_2. congruence.
Qed.

Lemma strchr_from_app t c r i :
  Forall (fun b => b <> c) t -> no_nul t -> strchr_from (t ++ c :: r) i c = Some (Some (i + lenZ t)).
Proof.
  revert i. induction t as [|b t IH]; intros i Ht Hn; simpl.
  - rewrite Z.eqb_refl. do 2 f_equal. unfold lenZ; simpl; lia.
  - inversion Ht; inversion Hn; subst. destruct (Z.eqb_spec b c), (Z.eqb_spec b 0); try done.
    rewrite IH by done. rewrite lenZ_cons. do 2 f_equal. lia.
Qed.

Lemma strchr_from_none t c r i :
  Forall (fun b => b <> c) t -> no_nul t -> c <> 0 -> strchr_from (t ++ 0 :: r) i c = Some None.
Proof.
  intros Ht Hn Hc. revert i. induction t as [|b t IH]; intros i; simpl.
  - destruct c; [done|done|done].
  - inversion Ht; inversion Hn; subst. destruct (Z.eqb_spec b c), (Z.eqb_spec b 0); try done. by apply IH.
Qed.

Lemma drop_lenZ {A} (a l : list A) i : i = lenZ a -> drop (Z.to_nat i) (a ++ l) = l.
Proof. intros ->. unfold lenZ. rewrite Nat2Z.id. apply drop_app_length. Qed.

Lemma take_lenZ {A} (a l : list A) i : i = lenZ a -> take (Z.to_nat i) (a ++ l) = a.
Proof. intros ->. unfold lenZ. rewrite Nat2Z.id. apply take_app_length. Qed.

Lemma strchr_app a t c r i :
  Forall (fun b => b <> c) t -> no_nul t -> i = lenZ a ->
  strchr (a ++ t ++ c :: r) i c = Some (Some (i + lenZ t)).
Proof.
  intros Ht Hn Hi. unfold strchr. rewrite decide_True by (subst; apply lenZ_nonneg).
  rewrite drop_lenZ by done. by apply strchr_from_app.
Qed.

Lemma strchr_none a t c r i :
  Forall (fun b => b <> c) t -> no_nul t -> c <> 0 -> i = lenZ a ->
  strchr (a ++ t ++ 0 :: r) i c = Some None.
Proof.
  intros Ht Hn Hc Hi. unfold strchr. rewrite decide_True by (subst; apply lenZ_nonneg).
  rewrite drop_lenZ by done. by apply strchr_from_none.
Qed.

Lemma strlen_app a t r i : no_nul t -> i = lenZ a -> strlen (a ++ t ++ 0 :: r) i = Some (lenZ t).
Proof.
  intros Hn Hi. unfold strlen. rewrite decide_True by (subst; apply lenZ_nonneg).
  rewrite drop_lenZ by done. rewrite c_string_app by done. done.
Qed.
