(* ===== verification/KexMethods.v ===== *)
(** * The tables of negotiable methods

    The method descriptors and the tables [libssh2_kex_methods] (kex.c),
    [hostkey_methods] (hostkey.c), [_libssh2_crypt_methods] (crypt.c),
    [mac_methods] (mac.c) and [comp_methods] (comp.c). What the preprocessor
    decides is a record [build] of the macros the tables depend on. A function
    pointer of a descriptor is the name of the function it points to, or, where
    the negotiation only asks whether it is null, a boolean. *)

From stdpp Require Import base numbers list strings.
From S2P Require Import Prelude Codes.

Record build := mk_build {
  LIBSSH2_ED25519 : bool;
  LIBSSH2_ECDSA : bool;
  LIBSSH2_RSA : bool;
  LIBSSH2_RSA_SHA2 : bool;
  LIBSSH2_DSA : bool;
  LIBSSH2_AES_CTR : bool;
  LIBSSH2_AES : bool;
  LIBSSH2_BLOWFISH : bool;
  LIBSSH2_RC4 : bool;
  LIBSSH2_CAST : bool;
  LIBSSH2_3DES : bool;
  LIBSSH2_CRYPT_NONE : bool;
  LIBSSH2_HMAC_SHA256 : bool;
  LIBSSH2_HMAC_SHA512 : bool;
  LIBSSH2_MD5 : bool;
  LIBSSH2_HMAC_RIPEMD : bool;
  LIBSSH2_MAC_NONE : bool;
  LIBSSH2_HAVE_ZLIB : bool;
  LIBSSH2_DH_GEX_NEW : bool
}.

(** [#if b ... #endif] inside an initialiser. *)
Definition when {A} (b : bool) (l : list A) : list A := if b then l else [].

(** The kinds of methods, as the application names them (libssh2.h). *)
Definition LIBSSH2_METHOD_KEX : Z := 0.
Definition LIBSSH2_METHOD_HOSTKEY : Z := 1.
Definition LIBSSH2_METHOD_CRYPT_CS : Z := 2.
Definition LIBSSH2_METHOD_CRYPT_SC : Z := 3.
Definition LIBSSH2_METHOD_MAC_CS : Z := 4.
Definition LIBSSH2_METHOD_MAC_SC : Z := 5.
Definition LIBSSH2_METHOD_COMP_CS : Z := 6.
Definition LIBSSH2_METHOD_COMP_SC : Z := 7.
Definition LIBSSH2_METHOD_LANG_CS : Z := 8.
Definition LIBSSH2_METHOD_LANG_SC : Z := 9.
Definition LIBSSH2_METHOD_SIGN_ALGO : Z := 10.

(** ** Descriptors *)

(** The functions the [exchange_keys] pointers refer to. *)
Inductive kex_function :=
| kex_method_diffie_hellman_group1_sha1_key_exchange
| kex_method_diffie_hellman_group14_sha1_key_exchange
| kex_method_diffie_hellman_group14_sha256_key_exchange
| kex_method_diffie_hellman_group16_sha512_key_exchange
| kex_method_diffie_hellman_group18_sha512_key_exchange
| kex_method_diffie_hellman_group_exchange_sha1_key_exchange
| kex_method_diffie_hellman_group_exchange_sha256_key_exchange
| kex_method_ecdh_key_exchange
| kex_method_curve25519_key_exchange.

Record LIBSSH2_KEX_METHOD := mk_kex_method {
  kexm_name : list Z;
  kexm_exchange_keys : option kex_function;
  kexm_flags : Z
}.

(** [hkm_init], [hkm_sig_verify], [hkm_encrypt], [crm_init], [macm_init]: whether the
    pointer is set (a cipher or MAC has both of [init] and [dtor] or neither; a
    compression method has them when it compresses). *)
Record LIBSSH2_HOSTKEY_METHOD := mk_hostkey_method {
  hkm_name : list Z;
  hkm_hash_len : Z;
  hkm_init : bool;
  hkm_sig_verify : bool;
  hkm_encrypt : bool
}.

Record LIBSSH2_CRYPT_METHOD := mk_crypt_method {
  crm_name : list Z;
  crm_blocksize : Z;
  crm_iv_len : Z;
  crm_secret_len : Z;
  crm_init : bool
}.

Record LIBSSH2_MAC_METHOD := mk_mac_method {
  macm_name : list Z;
  macm_mac_len : Z;
  macm_key_len : Z;
  macm_init : bool
}.

Record LIBSSH2_COMP_METHOD := mk_comp_method {
  com_name : list Z;
  com_compress : bool;
  com_use_in_auth : bool
}.

(** Every descriptor starts with its name ([LIBSSH2_COMMON_METHOD]). *)
Class CommonMethod (A : Type) := method_name : A -> list Z.
#[global] Instance kex_common : CommonMethod LIBSSH2_KEX_METHOD := kexm_name.
#[global] Instance hostkey_common : CommonMethod LIBSSH2_HOSTKEY_METHOD := hkm_name.
#[global] Instance crypt_common : CommonMethod LIBSSH2_CRYPT_METHOD := crm_name.
#[global] Instance mac_common : CommonMethod LIBSSH2_MAC_METHOD := macm_name.
#[global] Instance comp_common : CommonMethod LIBSSH2_COMP_METHOD := com_name.

(** ** Key exchange (kex.c) *)

Definition LIBSSH2_KEX_METHOD_FLAG_REQ_ENC_HOSTKEY : Z := 1.
Definition LIBSSH2_KEX_METHOD_FLAG_REQ_SIGN_HOSTKEY : Z := 2.

Definition kex_signing (name : string) (f : kex_function) : LIBSSH2_KEX_METHOD :=
  mk_kex_method (str name) (Some f) LIBSSH2_KEX_METHOD_FLAG_REQ_SIGN_HOSTKEY.
#[global] Arguments kex_signing name%_string_scope f.

Definition kex_method_diffie_helman_group1_sha1 : LIBSSH2_KEX_METHOD :=
  kex_signing "diffie-hellman-group1-sha1" kex_method_diffie_hellman_group1_sha1_key_exchange.
Definition kex_method_diffie_helman_group14_sha1 : LIBSSH2_KEX_METHOD :=
  kex_signing "diffie-hellman-group14-sha1" kex_method_diffie_hellman_group14_sha1_key_exchange.
Definition kex_method_diffie_helman_group14_sha256 : LIBSSH2_KEX_METHOD :=
  kex_signing "diffie-hellman-group14-sha256" kex_method_diffie_hellman_group14_sha256_key_exchange.
Definition kex_method_diffie_helman_group16_sha512 : LIBSSH2_KEX_METHOD :=
  kex_signing "diffie-hellman-group16-sha512" kex_method_diffie_hellman_group16_sha512_key_exchange.
Definition kex_method_diffie_helman_group18_sha512 : LIBSSH2_KEX_METHOD :=
  kex_signing "diffie-hellman-group18-sha512" kex_method_diffie_hellman_group18_sha512_key_exchange.
Definition kex_method_diffie_helman_group_exchange_sha1 : LIBSSH2_KEX_METHOD :=
  kex_signing "diffie-hellman-group-exchange-sha1"
    kex_method_diffie_hellman_group_exchange_sha1_key_exchange.
Definition kex_method_diffie_helman_group_exchange_sha256 : LIBSSH2_KEX_METHOD :=
  kex_signing "diffie-hellman-group-exchange-sha256"
    kex_method_diffie_hellman_group_exchange_sha256_key_exchange.
Definition kex_method_ecdh_sha2_nistp256 : LIBSSH2_KEX_METHOD :=
  kex_signing "ecdh-sha2-nistp256" kex_method_ecdh_key_exchange.
Definition kex_method_ecdh_sha2_nistp384 : LIBSSH2_KEX_METHOD :=
  kex_signing "ecdh-sha2-nistp384" kex_method_ecdh_key_exchange.
Definition kex_method_ecdh_sha2_nistp521 : LIBSSH2_KEX_METHOD :=
  kex_signing "ecdh-sha2-nistp521" kex_method_ecdh_key_exchange.
Definition kex_method_ssh_curve25519_sha256_libssh : LIBSSH2_KEX_METHOD :=
  kex_signing "curve25519-sha256@libssh.org" kex_method_curve25519_key_exchange.
Definition kex_method_ssh_curve25519_sha256 : LIBSSH2_KEX_METHOD :=
  kex_signing "curve25519-sha256" kex_method_curve25519_key_exchange.

(** The pseudo-method that announces RFC 8308 extensions. *)
Definition kex_method_extension_negotiation : LIBSSH2_KEX_METHOD :=
  mk_kex_method (str "ext-info-c") None 0.

Definition libssh2_kex_methods (cfg : build) : list LIBSSH2_KEX_METHOD :=
  when (LIBSSH2_ED25519 cfg)
    [kex_method_ssh_curve25519_sha256; kex_method_ssh_curve25519_sha256_libssh] ++
  when (LIBSSH2_ECDSA cfg)
    [kex_method_ecdh_sha2_nistp256; kex_method_ecdh_sha2_nistp384;
     kex_method_ecdh_sha2_nistp521] ++
  [kex_method_diffie_helman_group_exchange_sha256;
   kex_method_diffie_helman_group16_sha512;
   kex_method_diffie_helman_group18_sha512;
   kex_method_diffie_helman_group14_sha256;
   kex_method_diffie_helman_group14_sha1;
   kex_method_diffie_helman_group1_sha1;
   kex_method_diffie_helman_group_exchange_sha1;
   kex_method_extension_negotiation].

(** ** Host keys (hostkey.c) *)

Definition MD5_DIGEST_LENGTH : Z := 16.
Definition SHA_DIGEST_LENGTH : Z := 20.
Definition SHA256_DIGEST_LENGTH : Z := 32.
Definition SHA384_DIGEST_LENGTH : Z := 48.
Definition SHA512_DIGEST_LENGTH : Z := 64.

(** A method that reads and verifies, and one for certificates, which does
    neither. *)
Definition hostkey_verifying (name : string) (hash_len : Z) : LIBSSH2_HOSTKEY_METHOD :=
  mk_hostkey_method (str name) hash_len true true false.
Definition hostkey_cert (name : string) (hash_len : Z) : LIBSSH2_HOSTKEY_METHOD :=
  mk_hostkey_method (str name) hash_len false false false.
#[global] Arguments hostkey_verifying name%_string_scope hash_len.
#[global] Arguments hostkey_cert name%_string_scope hash_len.

Definition hostkey_method_ssh_rsa := hostkey_verifying "ssh-rsa" MD5_DIGEST_LENGTH.
Definition hostkey_method_ssh_rsa_sha2_256 := hostkey_verifying "rsa-sha2-256" SHA256_DIGEST_LENGTH.
Definition hostkey_method_ssh_rsa_sha2_512 := hostkey_verifying "rsa-sha2-512" SHA512_DIGEST_LENGTH.
Definition hostkey_method_ssh_rsa_cert :=
  hostkey_cert "ssh-rsa-cert-v01@openssh.com" MD5_DIGEST_LENGTH.
Definition hostkey_method_ssh_dss := hostkey_verifying "ssh-dss" MD5_DIGEST_LENGTH.
Definition hostkey_method_ecdsa_ssh_nistp256 :=
  hostkey_verifying "ecdsa-sha2-nistp256" SHA256_DIGEST_LENGTH.
Definition hostkey_method_ecdsa_ssh_nistp384 :=
  hostkey_verifying "ecdsa-sha2-nistp384" SHA384_DIGEST_LENGTH.
Definition hostkey_method_ecdsa_ssh_nistp521 :=
  hostkey_verifying "ecdsa-sha2-nistp521" SHA512_DIGEST_LENGTH.
Definition hostkey_method_ecdsa_ssh_nistp256_cert :=
  hostkey_cert "ecdsa-sha2-nistp256-cert-v01@openssh.com" SHA256_DIGEST_LENGTH.
Definition hostkey_method_ecdsa_ssh_nistp384_cert :=
  hostkey_cert "ecdsa-sha2-nistp384-cert-v01@openssh.com" SHA384_DIGEST_LENGTH.
Definition hostkey_method_ecdsa_ssh_nistp521_cert :=
  hostkey_cert "ecdsa-sha2-nistp521-cert-v01@openssh.com" SHA512_DIGEST_LENGTH.
Definition hostkey_method_ssh_ed25519 := hostkey_verifying "ssh-ed25519" SHA256_DIGEST_LENGTH.

Definition libssh2_hostkey_methods (cfg : build) : list LIBSSH2_HOSTKEY_METHOD :=
  when (LIBSSH2_ECDSA cfg)
    [hostkey_method_ecdsa_ssh_nistp256; hostkey_method_ecdsa_ssh_nistp384;
     hostkey_method_ecdsa_ssh_nistp521; hostkey_method_ecdsa_ssh_nistp256_cert;
     hostkey_method_ecdsa_ssh_nistp384_cert; hostkey_method_ecdsa_ssh_nistp521_cert] ++
  when (LIBSSH2_ED25519 cfg) [hostkey_method_ssh_ed25519] ++
  when (LIBSSH2_RSA cfg)
    (when (LIBSSH2_RSA_SHA2 cfg)
       [hostkey_method_ssh_rsa_sha2_512; hostkey_method_ssh_rsa_sha2_256] ++
     [hostkey_method_ssh_rsa; hostkey_method_ssh_rsa_cert]) ++
  when (LIBSSH2_DSA cfg) [hostkey_method_ssh_dss].

(** ** Ciphers (crypt.c) *)

Definition crypt_method (name : string) (blocksize iv_len secret_len : Z) : LIBSSH2_CRYPT_METHOD :=
  mk_crypt_method (str name) blocksize iv_len secret_len true.
#[global] Arguments crypt_method name%_string_scope blocksize iv_len secret_len.

Definition libssh2_crypt_method_none := mk_crypt_method (str "none") 8 0 0 false.
Definition libssh2_crypt_method_aes128_ctr := crypt_method "aes128-ctr" 16 16 16.
Definition libssh2_crypt_method_aes192_ctr := crypt_method "aes192-ctr" 16 16 24.
Definition libssh2_crypt_method_aes256_ctr := crypt_method "aes256-ctr" 16 16 32.
Definition libssh2_crypt_method_aes128_cbc := crypt_method "aes128-cbc" 16 16 16.
Definition libssh2_crypt_method_aes192_cbc := crypt_method "aes192-cbc" 16 16 24.
Definition libssh2_crypt_method_aes256_cbc := crypt_method "aes256-cbc" 16 16 32.
Definition libssh2_crypt_method_rijndael_cbc_lysator_liu_se :=
  crypt_method "rijndael-cbc@lysator.liu.se" 16 16 32.
Definition libssh2_crypt_method_blowfish_cbc := crypt_method "blowfish-cbc" 8 8 16.
Definition libssh2_crypt_method_arcfour := crypt_method "arcfour" 8 8 16.
Definition libssh2_crypt_method_arcfour128 := crypt_method "arcfour128" 8 8 16.
Definition libssh2_crypt_method_cast128_cbc := crypt_method "cast128-cbc" 8 8 16.
Definition libssh2_crypt_method_3des_cbc := crypt_method "3des-cbc" 8 8 24.

Definition libssh2_crypt_methods (cfg : build) : list LIBSSH2_CRYPT_METHOD :=
  when (LIBSSH2_AES_CTR cfg)
    [libssh2_crypt_method_aes256_ctr; libssh2_crypt_method_aes192_ctr;
     libssh2_crypt_method_aes128_ctr] ++
  when (LIBSSH2_AES cfg)
    [libssh2_crypt_method_aes256_cbc; libssh2_crypt_method_rijndael_cbc_lysator_liu_se;
     libssh2_crypt_method_aes192_cbc; libssh2_crypt_method_aes128_cbc] ++
  when (LIBSSH2_BLOWFISH cfg) [libssh2_crypt_method_blowfish_cbc] ++
  when (LIBSSH2_RC4 cfg) [libssh2_crypt_method_arcfour128; libssh2_crypt_method_arcfour] ++
  when (LIBSSH2_CAST cfg) [libssh2_crypt_method_cast128_cbc] ++
  when (LIBSSH2_3DES cfg) [libssh2_crypt_method_3des_cbc] ++
  when (LIBSSH2_CRYPT_NONE cfg) [libssh2_crypt_method_none].

(** ** MACs (mac.c) *)

Definition mac_method (name : string) (mac_len key_len : Z) : LIBSSH2_MAC_METHOD :=
  mk_mac_method (str name) mac_len key_len true.
#[global] Arguments mac_method name%_string_scope mac_len key_len.

Definition mac_method_none := mk_mac_method (str "none") 0 0 false.
Definition mac_method_hmac_sha2_512 := mac_method "hmac-sha2-512" 64 64.
Definition mac_method_hmac_sha2_256 := mac_method "hmac-sha2-256" 32 32.
Definition mac_method_hmac_sha1 := mac_method "hmac-sha1" 20 20.
Definition mac_method_hmac_sha1_96 := mac_method "hmac-sha1-96" 12 20.
Definition mac_method_hmac_md5 := mac_method "hmac-md5" 16 16.
Definition mac_method_hmac_md5_96 := mac_method "hmac-md5-96" 12 16.
Definition mac_method_hmac_ripemd160 := mac_method "hmac-ripemd160" 20 20.
Definition mac_method_hmac_ripemd160_openssh_com := mac_method "hmac-ripemd160@openssh.com" 20 20.

Definition mac_methods (cfg : build) : list LIBSSH2_MAC_METHOD :=
  when (LIBSSH2_HMAC_SHA256 cfg) [mac_method_hmac_sha2_256] ++
  when (LIBSSH2_HMAC_SHA512 cfg) [mac_method_hmac_sha2_512] ++
  [mac_method_hmac_sha1; mac_method_hmac_sha1_96] ++
  when (LIBSSH2_MD5 cfg) [mac_method_hmac_md5; mac_method_hmac_md5_96] ++
  when (LIBSSH2_HMAC_RIPEMD cfg)
    [mac_method_hmac_ripemd160; mac_method_hmac_ripemd160_openssh_com] ++
  when (LIBSSH2_MAC_NONE cfg) [mac_method_none].

(** ** Compression (comp.c) *)

Definition comp_method_none := mk_comp_method (str "none") false false.
Definition comp_method_zlib := mk_comp_method (str "zlib") true true.
Definition comp_method_zlib_openssh := mk_comp_method (str "zlib@openssh.com") true false.

Definition comp_methods (cfg : build) : list LIBSSH2_COMP_METHOD :=
  when (LIBSSH2_HAVE_ZLIB cfg) [comp_method_zlib; comp_method_zlib_openssh] ++
  [comp_method_none].

Definition no_comp_methods : list LIBSSH2_COMP_METHOD := [comp_method_none].

(** [_libssh2_comp_methods]; [compress] is [session->flag.compress]. *)
Definition libssh2_comp_methods (cfg : build) (compress : bool) : list LIBSSH2_COMP_METHOD :=
  if compress then comp_methods cfg else no_comp_methods.

(** ** Method names are usable in name lists: not empty, no comma and no 0. *)

Definition name_char (b : Z) : Prop := b <> 44 /\ b <> 0.
Definition name_ok (n : list Z) : Prop := n <> [] /\ Forall name_char n.

#[global] Instance name_char_dec b : Decision (name_char b).
Proof. unfold name_char. apply _. Defined.
#[global] Instance name_ok_dec n : Decision (name_ok n).
Proof. unfold name_ok. apply _. Defined.

Definition table_ok {A} `{CommonMethod A} (tbl : list A) : Prop :=
  Forall (fun m => name_ok (method_name m)) tbl.

Lemma Forall_when {A} (P : A -> Prop) b l : Forall P l -> Forall P (when b l).
Proof. destruct b; simpl; auto. Qed.

#[global] Instance table_ok_dec {A} `{CommonMethod A} (tbl : list A) : Decision (table_ok tbl).
Proof. unfold table_ok. apply _. Defined.

(** Splits a table at its [#if]s and evaluates each part. *)
Ltac table_ok_tac :=
  unfold table_ok;
  repeat first [apply Forall_app; split | apply Forall_when];
  apply (bool_decide_unpack _); vm_compute; exact I.

Lemma kex_table_ok cfg : table_ok (libssh2_kex_methods cfg).
Proof. unfold libssh2_kex_methods. table_ok_tac. Qed.
Lemma hostkey_table_ok cfg : table_ok (libssh2_hostkey_methods cfg).
Proof. unfold libssh2_hostkey_methods. table_ok_tac. Qed.
Lemma crypt_table_ok cfg : table_ok (libssh2_crypt_methods cfg).
Proof. unfold libssh2_crypt_methods. table_ok_tac. Qed.
Lemma mac_table_ok cfg : table_ok (mac_methods cfg).
Proof. unfold mac_methods. table_ok_tac. Qed.
Lemma comp_table_ok cfg compress : table_ok (libssh2_comp_methods cfg compress).
Proof.
  unfold libssh2_comp_methods. destruct compress; unfold comp_methods, no_comp_methods; table_ok_tac.
Qed.
