(* ===== verification/Session.v ===== *)
(** * The session object (libssh2_priv.h) and its primitive operations

    The state the packet, channel and transport layers share: the session, the
    channels and listeners it owns, the queue of received packets and the heap
    blocks their payloads live in. Channels and payloads are referred to by
    pointers into explicit stores, so that the aliasing of the C code (a
    channel is reachable from the session's list, from a listener's queue and
    from the state structs of suspended calls) and the life time of every
    payload are part of the model: a use or a release of memory that is not
    live is a [Fault].

    What the code does not control is an oracle of the state: [s_alloc] holds
    the outcomes of the allocator's next calls (an exhausted list means
    success from then on), [s_clock] the values [time(NULL)] will return (0 when
    the list is exhausted; every finite run is one of a long enough list),
    [s_recv] what the socket will deliver and [s_send] how many bytes it will
    accept; [s_wire] records the bytes it did accept. The
    application's callbacks are present or not, and their calls are recorded
    in [s_trace]; [macerror] is the one whose result the code uses. *)

From stdpp Require Import base numbers list gmap strings.
From S2P Require Import Prelude Codes Wire KexMethods.

(** ** States of the suspended operations *)

Inductive libssh2_nonblocking_states :=
| libssh2_NB_state_idle
| libssh2_NB_state_allocated
| libssh2_NB_state_created
| libssh2_NB_state_sent
| libssh2_NB_state_sent1
| libssh2_NB_state_sent2
| libssh2_NB_state_sent3
| libssh2_NB_state_sent4
| libssh2_NB_state_sent5
| libssh2_NB_state_sent6
| libssh2_NB_state_sent7
| libssh2_NB_state_jump1
| libssh2_NB_state_jump2
| libssh2_NB_state_jump3
| libssh2_NB_state_jump4
| libssh2_NB_state_jump5
| libssh2_NB_state_end.

#[global] Instance nb_state_eq_dec : EqDecision libssh2_nonblocking_states.
Proof. solve_decision. Defined.

Definition nb_is (a b : libssh2_nonblocking_states) : bool := bool_decide (a = b).

(** ** Channels *)

Abbreviation ptr := positive.

Record libssh2_channel_data := mk_channel_data {
  cd_id : Z;
  cd_window_size_initial : Z;
  cd_window_size : Z;
  cd_packet_size : Z;
  cd_close : bool;
  cd_eof : bool;
  cd_extended_data_ignore_mode : Z
}.
#[global] Instance eta_channel_data : Eta libssh2_channel_data := fun d =>
  mk_channel_data (cd_id d) (cd_window_size_initial d) (cd_window_size d)
    (cd_packet_size d) (cd_close d) (cd_eof d) (cd_extended_data_ignore_mode d).

Definition channel_data_0 : libssh2_channel_data := mk_channel_data 0 0 0 0 false false 0.

(** A heap block that holds a name: filled by the code, or still with the
    indeterminate contents the allocator returned. *)
Inductive name_block :=
| NameSet (name : list Z)
| NameUninit (size : Z).

(** The state of a channel's terminal, X11 and agent requests. *)
Record channel_requests := mk_channel_requests {
  reqPTY_state : libssh2_nonblocking_states;
  reqPTY_packet : list Z;
  reqPTY_packet_len : Z;
  reqPTY_local_channel : list Z;
  reqPTY_start : Z;
  reqX11_state : libssh2_nonblocking_states;
  reqX11_packet : option (list Z);
  reqX11_local_channel : list Z;
  reqX11_start : Z;
  req_auth_agent_try_state : libssh2_nonblocking_states;
  req_auth_agent_state : libssh2_nonblocking_states;
  req_auth_agent_packet : list Z;
  req_auth_agent_packet_len : Z;
  req_auth_agent_local_channel : list Z;
  req_auth_agent_start : Z
}.
#[global] Instance eta_channel_requests : Eta channel_requests := fun r =>
  mk_channel_requests (reqPTY_state r) (reqPTY_packet r) (reqPTY_packet_len r) (reqPTY_local_channel r)
    (reqPTY_start r) (reqX11_state r) (reqX11_packet r) (reqX11_local_channel r) (reqX11_start r)
    (req_auth_agent_try_state r) (req_auth_agent_state r) (req_auth_agent_packet r)
    (req_auth_agent_packet_len r) (req_auth_agent_local_channel r) (req_auth_agent_start r).

Definition channel_requests_0 : channel_requests :=
  mk_channel_requests libssh2_NB_state_idle (replicate 297 0) 0 [] 0 libssh2_NB_state_idle None [] 0
    libssh2_NB_state_idle libssh2_NB_state_idle (replicate 36 0) 0 [] 0.

Record channel := mk_channel {
  channel_type : list Z;
  exit_status : Z;
  exit_signal : option name_block;
  local : libssh2_channel_data;
  remote : libssh2_channel_data;
  adjust_queue : Z;
  read_avail : Z;
  close_cb : bool;
  flush_state : libssh2_nonblocking_states;
  flush_refund_bytes : Z;
  flush_flush_bytes : Z;
  adjust_state : libssh2_nonblocking_states;
  adjust_adjust : list Z;
  read_state : libssh2_nonblocking_states;
  read_local_id : Z;
  write_state : libssh2_nonblocking_states;
  write_packet : list Z;
  write_bufwrite : Z;
  close_state : libssh2_nonblocking_states;
  close_packet : list Z;
  wait_eof_state : libssh2_nonblocking_states;
  wait_closed_state : libssh2_nonblocking_states;
  free_state : libssh2_nonblocking_states;
  extData2_state : libssh2_nonblocking_states;
  sendsignal_state : libssh2_nonblocking_states;
  sendsignal_packet : option (list Z);
  process_state : libssh2_nonblocking_states;
  process_packet : option (list Z);
  process_local_channel : list Z;
  process_start : Z;
  setenv_state : libssh2_nonblocking_states;
  setenv_packet : option (list Z);
  setenv_local_channel : list Z;
  setenv_start : Z;
  c_requests : channel_requests
}.
#[global] Instance eta_channel : Eta channel := fun c =>
  mk_channel (channel_type c) (exit_status c) (exit_signal c) (local c) (remote c)
    (adjust_queue c) (read_avail c) (close_cb c) (flush_state c) (flush_refund_bytes c)
    (flush_flush_bytes c) (adjust_state c) (adjust_adjust c) (read_state c)
    (read_local_id c) (write_state c) (write_packet c) (write_bufwrite c) (close_state c)
    (close_packet c) (wait_eof_state c) (wait_closed_state c) (free_state c)
    (extData2_state c) (sendsignal_state c) (sendsignal_packet c) (process_state c)
    (process_packet c) (process_local_channel c) (process_start c) (setenv_state c)
    (setenv_packet c) (setenv_local_channel c) (setenv_start c) (c_requests c).

(** The all-zero channel [LIBSSH2_CALLOC] returns. *)
Definition channel_0 : channel :=
  mk_channel [] 0 None channel_data_0 channel_data_0 0 0 false
    libssh2_NB_state_idle 0 0 libssh2_NB_state_idle [] libssh2_NB_state_idle 0
    libssh2_NB_state_idle [] 0 libssh2_NB_state_idle [] libssh2_NB_state_idle
    libssh2_NB_state_idle libssh2_NB_state_idle libssh2_NB_state_idle
    libssh2_NB_state_idle None libssh2_NB_state_idle None [] 0
    libssh2_NB_state_idle None [] 0 channel_requests_0.

(** [struct _LIBSSH2_LISTENER]; [host] is the C string's bytes. *)
Record listener := mk_listener {
  host : list Z;
  port : Z;
  queue : list ptr;
  queue_size : Z;
  queue_maxsize : Z;
  chanFwdCncl_state : libssh2_nonblocking_states;
  chanFwdCncl_data : option (list Z)
}.
#[global] Instance eta_listener : Eta listener := fun l =>
  mk_listener (host l) (port l) (queue l) (queue_size l) (queue_maxsize l) (chanFwdCncl_state l) (chanFwdCncl_data l).

(** ** Received packets *)

(** [struct _LIBSSH2_PACKET]; [pk_data] points to a heap block of bytes. *)
Record packet := mk_packet {
  pk_data : ptr;
  pk_data_len : Z;
  pk_data_head : Z
}.
#[global] Instance eta_packet : Eta packet := fun p =>
  mk_packet (pk_data p) (pk_data_len p) (pk_data_head p).

(** The state structs of the calls [_libssh2_packet_add] suspends in. The
    pointers [host] and [shost] into the payload are the bytes they denote. *)
Record packet_queue_listener_state := mk_queue_listener_state {
  ql_state : libssh2_nonblocking_states;
  ql_packet : list Z;
  ql_host : list Z;
  ql_shost : list Z;
  ql_sender_channel : Z;
  ql_initial_window_size : Z;
  ql_packet_size : Z;
  ql_port : Z;
  ql_sport : Z;
  ql_channel : option ptr
}.
#[global] Instance eta_queue_listener_state : Eta packet_queue_listener_state := fun q =>
  mk_queue_listener_state (ql_state q) (ql_packet q) (ql_host q) (ql_shost q)
    (ql_sender_channel q) (ql_initial_window_size q) (ql_packet_size q) (ql_port q)
    (ql_sport q) (ql_channel q).

Definition queue_listener_state_0 : packet_queue_listener_state :=
  mk_queue_listener_state libssh2_NB_state_idle [] [] [] 0 0 0 0 0 None.

Record packet_x11_open_state := mk_x11_open_state {
  x11_state : libssh2_nonblocking_states;
  x11_packet : list Z;
  x11_shost : list Z;
  x11_sender_channel : Z;
  x11_initial_window_size : Z;
  x11_packet_size : Z;
  x11_sport : Z;
  x11_channel : option ptr
}.
#[global] Instance eta_x11_open_state : Eta packet_x11_open_state := fun x =>
  mk_x11_open_state (x11_state x) (x11_packet x) (x11_shost x) (x11_sender_channel x)
    (x11_initial_window_size x) (x11_packet_size x) (x11_sport x) (x11_channel x).

Definition x11_open_state_0 : packet_x11_open_state :=
  mk_x11_open_state libssh2_NB_state_idle [] [] 0 0 0 0 None.

(** ** The transport layer's state *)

(** What the next [LIBSSH2_RECV] finds: bytes, or a return value of at most 0. *)
Inductive recv_outcome :=
| RecvBytes (bytes : list Z)
| RecvFail (rc : Z).

(** One direction of the connection: the cipher's block size and its running
    state, the length of the MAC, the sequence number, and the compression
    method ([compress] and [use_in_auth], [None] for a null method) with its
    running state. *)
Record libssh2_endpoint_data := mk_endpoint {
  ep_blocksize : Z;
  ep_crypt_abstract : list Z;
  ep_mac_len : Z;
  ep_seqno : Z;
  ep_comp : option (bool * bool);
  ep_comp_abstract : option (list Z)
}.
#[global] Instance eta_endpoint : Eta libssh2_endpoint_data := fun e =>
  mk_endpoint (ep_blocksize e) (ep_crypt_abstract e) (ep_mac_len e) (ep_seqno e) (ep_comp e)
    (ep_comp_abstract e).

Definition endpoint_0 : libssh2_endpoint_data := mk_endpoint 0 [] 0 0 None None.

(** [struct transportpacket]. [tp_buf] is the part [buf[readidx .. writeidx)]
    still to be read; the write pointer is [payload + data_num]. [tp_odata] is
    the address of the data of an unfinished send. *)
Record transportpacket := mk_transportpacket {
  tp_buf : list Z;
  tp_init : list Z;
  tp_packet_length : Z;
  tp_padding_length : Z;
  tp_data_num : Z;
  tp_total_num : Z;
  tp_payload : option ptr;
  tp_outbuf : list Z;
  tp_ototal_num : Z;
  tp_odata : option Z;
  tp_olen : Z;
  tp_osent : Z
}.
#[global] Instance eta_transportpacket : Eta transportpacket := fun p =>
  mk_transportpacket (tp_buf p) (tp_init p) (tp_packet_length p) (tp_padding_length p)
    (tp_data_num p) (tp_total_num p) (tp_payload p) (tp_outbuf p) (tp_ototal_num p)
    (tp_odata p) (tp_olen p) (tp_osent p).

Definition transportpacket_0 : transportpacket :=
  mk_transportpacket [] [] 0 0 0 0 None [] 0 None 0 0.

(** ** Method negotiation *)

(** The part of [libssh2_endpoint_data] that key exchange sets: the agreed
    methods, the preferences of the application (heap blocks that hold
    terminated strings), the last [SSH_MSG_KEXINIT] and the banner of this
    direction and the key of its MAC. What
    transport.c reads through the method pointers is in [libssh2_endpoint_data]
    above. *)
Record kex_endpoint := mk_kex_endpoint {
  ke_crypt : option LIBSSH2_CRYPT_METHOD;
  ke_mac : option LIBSSH2_MAC_METHOD;
  ke_comp : option LIBSSH2_COMP_METHOD;
  crypt_prefs : option ptr;
  mac_prefs : option ptr;
  comp_prefs : option ptr;
  lang_prefs : option ptr;
  ke_kexinit : option ptr;
  ke_kexinit_len : Z;
  ke_banner : option ptr;
  ke_mac_abstract : option ptr
}.
#[global] Instance eta_kex_endpoint : Eta kex_endpoint := fun e =>
  mk_kex_endpoint (ke_crypt e) (ke_mac e) (ke_comp e) (crypt_prefs e) (mac_prefs e)
    (comp_prefs e) (lang_prefs e) (ke_kexinit e) (ke_kexinit_len e) (ke_banner e)
    (ke_mac_abstract e).

Definition kex_endpoint_0 : kex_endpoint :=
  mk_kex_endpoint None None None None None None None None 0 None None.

(** [kmdhgGPshakex_state_t]: the progress of one exchange. A big number, key or
    context of the crypto backend is a list of bytes. [f_value] and [h_sig], which
    point into [s_packet], are used in the stage that sets them only. *)
Record kex_state := mk_kex_state {
  xs_state : libssh2_nonblocking_states;
  xs_e_packet : option ptr;
  xs_e_packet_len : Z;
  xs_s_packet : option ptr;
  xs_s_packet_len : Z;
  xs_h_sig_comp : list Z;
  xs_c : Z;
  xs_x : list Z;
  xs_e : list Z;
  xs_f : list Z;
  xs_k : list Z;
  xs_k_value : option ptr;
  xs_k_value_len : Z;
  xs_req_start : Z;
  xs_burn_state : libssh2_nonblocking_states
}.
#[global] Instance eta_kex_state : Eta kex_state := fun x =>
  mk_kex_state (xs_state x) (xs_e_packet x) (xs_e_packet_len x) (xs_s_packet x)
    (xs_s_packet_len x) (xs_h_sig_comp x) (xs_c x) (xs_x x) (xs_e x) (xs_f x) (xs_k x)
    (xs_k_value x) (xs_k_value_len x) (xs_req_start x) (xs_burn_state x).

Definition kex_state_0 : kex_state :=
  mk_kex_state libssh2_NB_state_idle None 0 None 0 (replicate 64 0) 0 [] [] [] [] None 0 0
    libssh2_NB_state_idle.

(** [key_exchange_state_low_t]. *)
Record kex_low := mk_kex_low {
  kl_state : libssh2_nonblocking_states;
  kl_req_start : Z;
  kl_exchange : kex_state;
  kl_p : list Z;
  kl_g : list Z;
  kl_request : list Z;
  kl_data : option ptr;
  kl_data_len : Z;
  kl_private_key : option (list Z);
  kl_public_key_oct : option ptr;
  kl_public_key_oct_len : Z;
  kl_curve25519_public_key : option ptr;
  kl_curve25519_private_key : option ptr
}.
#[global] Instance eta_kex_low : Eta kex_low := fun l =>
  mk_kex_low (kl_state l) (kl_req_start l) (kl_exchange l) (kl_p l) (kl_g l) (kl_request l)
    (kl_data l) (kl_data_len l) (kl_private_key l) (kl_public_key_oct l)
    (kl_public_key_oct_len l) (kl_curve25519_public_key l) (kl_curve25519_private_key l).

Definition kex_low_0 : kex_low :=
  mk_kex_low libssh2_NB_state_idle 0 kex_state_0 [] [] [] None 0 None None 0 None None.

(** The host key of the server with its fingerprints ([None] while not valid),
    and the session identifier. *)
Record server_identity := mk_server_identity {
  server_hostkey : option ptr;
  server_hostkey_len : Z;
  server_hostkey_md5 : option (list Z);
  server_hostkey_sha1 : option (list Z);
  server_hostkey_sha256 : option (list Z);
  server_hostkey_abstract : option (list Z);
  session_id : option ptr;
  session_id_len : Z
}.
#[global] Instance eta_server_identity : Eta server_identity := fun i =>
  mk_server_identity (server_hostkey i) (server_hostkey_len i) (server_hostkey_md5 i)
    (server_hostkey_sha1 i) (server_hostkey_sha256 i) (server_hostkey_abstract i)
    (session_id i) (session_id_len i).

Definition server_identity_0 : server_identity := mk_server_identity None 0 None None None None None 0.

(** The fields of the session that kex.c owns, with [startup_key_state] (the
    [ks_] fields), the only [key_exchange_state_t] that is used. *)
Record kex_data := mk_kex_data {
  kex_prefs : option ptr;
  hostkey_prefs : option ptr;
  sign_algo_prefs : option ptr;
  kx_kex : option LIBSSH2_KEX_METHOD;
  kx_hostkey : option LIBSSH2_HOSTKEY_METHOD;
  burn_optimistic_kexinit : Z;
  flag_compress : bool;
  kexinit_state : libssh2_nonblocking_states;
  kexinit_data : option ptr;
  kexinit_data_len : Z;
  kx_local : kex_endpoint;
  kx_remote : kex_endpoint;
  ks_state : libssh2_nonblocking_states;
  ks_req_start : Z;
  ks_data : option ptr;
  ks_data_len : Z;
  ks_oldlocal : option ptr;
  ks_oldlocal_len : Z;
  kx_low : kex_low;
  kx_server : server_identity
}.
#[global] Instance eta_kex_data : Eta kex_data := fun k =>
  mk_kex_data (kex_prefs k) (hostkey_prefs k) (sign_algo_prefs k) (kx_kex k) (kx_hostkey k)
    (burn_optimistic_kexinit k) (flag_compress k) (kexinit_state k) (kexinit_data k)
    (kexinit_data_len k) (kx_local k) (kx_remote k) (ks_state k) (ks_req_start k) (ks_data k)
    (ks_data_len k) (ks_oldlocal k) (ks_oldlocal_len k) (kx_low k) (kx_server k).

Definition kex_data_0 : kex_data :=
  mk_kex_data None None None None None 0 false libssh2_NB_state_idle None 0 kex_endpoint_0
    kex_endpoint_0 libssh2_NB_state_idle 0 None 0 None 0 kex_low_0 server_identity_0.

(** Waiting for the socket: the limit of the blocking calls, the keepalive
    messages, and the results [poll] will return (1 when there are no more). *)
Record wait_data := mk_wait_data {
  api_timeout : Z;
  keepalive_interval : Z;
  keepalive_want_reply : Z;
  keepalive_last_sent : Z;
  wd_poll : list Z
}.
#[global] Instance eta_wait_data : Eta wait_data := fun w =>
  mk_wait_data (api_timeout w) (keepalive_interval w) (keepalive_want_reply w)
    (keepalive_last_sent w) (wd_poll w).

Definition wait_data_0 : wait_data := mk_wait_data 0 0 0 0 [].

(** ** Agents (agent.h) *)

Inductive agent_nonblocking_states :=
| agent_NB_state_init
| agent_NB_state_request_created
| agent_NB_state_request_length_sent
| agent_NB_state_request_sent
| agent_NB_state_response_length_received
| agent_NB_state_response_received.
#[global] Instance agent_nonblocking_states_eq : EqDecision agent_nonblocking_states.
Proof. solve_decision. Defined.

(** What [transctx->request] points to: a block, or the local variable of
    [agent_list_identities], which ends with its call. *)
Inductive agent_request := RequestBlock (p : ptr) | RequestLocal.

(** [struct agent_transaction_ctx]; [send_recv_total] is never read. *)
Record agent_transaction_ctx := mk_transctx {
  tx_request : option agent_request;
  tx_request_len : Z;
  tx_response : option ptr;
  tx_response_len : Z;
  tx_state : agent_nonblocking_states
}.
#[global] Instance eta_transctx : Eta agent_transaction_ctx := fun t =>
  mk_transctx (tx_request t) (tx_request_len t) (tx_response t) (tx_response_len t) (tx_state t).
Definition transctx_0 : agent_transaction_ctx := mk_transctx None 0 None 0 agent_NB_state_init.

(** [struct agent_publickey] with the part the application sees. *)
Record agent_publickey := mk_agent_publickey {
  ap_magic : Z;
  ap_node : option ptr;
  ap_blob : ptr;
  ap_blob_len : Z;
  ap_comment : ptr
}.
#[global] Instance eta_agent_publickey : Eta agent_publickey := fun k =>
  mk_agent_publickey (ap_magic k) (ap_node k) (ap_blob k) (ap_blob_len k) (ap_comment k).

(** [LIBSSH2_AGENT], with the store of its list nodes and its end of the connection:
    what the agent takes and sends, whether it closes the connection behind that, and what
    has been sent to it. *)
Record agent := mk_agent {
  ag_fd : Z;
  ag_ops : bool;
  ag_transctx : agent_transaction_ctx;
  ag_identity : option ptr;
  ag_head : list ptr;
  ag_identity_path : option ptr;
  ag_nodes : gmap ptr agent_publickey;
  ag_send : list Z;
  ag_recv : list recv_outcome;
  ag_closed : bool;
  ag_wire : list Z
}.
#[global] Instance eta_agent : Eta agent := fun a =>
  mk_agent (ag_fd a) (ag_ops a) (ag_transctx a) (ag_identity a) (ag_head a) (ag_identity_path a) (ag_nodes a)
    (ag_send a) (ag_recv a) (ag_closed a) (ag_wire a).

(** The agents of the application, what the system answers to [getenv("SSH_AUTH_SOCK")],
    [socket], [connect] and [close] (0 when there are no more answers), and the last two
    calls as they were made. *)
Inductive agent_call := AgentConnect (fd : Z) (sun_path : list Z) | AgentClose (fd : Z).

Record agent_system := mk_agent_system {
  agents : gmap ptr agent;
  env_auth_sock : option (list Z);
  sys_socket : list Z;
  sys_connect : list Z;
  sys_close : list Z;
  sys_calls : list agent_call
}.
#[global] Instance eta_agent_system : Eta agent_system := fun y =>
  mk_agent_system (agents y) (env_auth_sock y) (sys_socket y) (sys_connect y) (sys_close y) (sys_calls y).
Definition agent_system_0 : agent_system := mk_agent_system ∅ None [] [] [] [].

(** ** The session *)

(** Calls of the application's callbacks, in order. *)
Inductive event :=
| EvDisconnect (reason : Z) (message language : cbuf)
| EvIgnore (message : list Z)
| EvDebug (always_display : Z) (message language : cbuf)
| EvMacError (data : list Z)
| EvX11Open (chan : ptr) (shost : list Z) (sport : Z)
| EvChannelClose (chan : ptr).

Record session := mk_session {
  s_alloc : list bool;
  s_clock : list Z;
  s_trace : list event;
  s_heap : gmap ptr (list Z);
  s_chans : gmap ptr channel;
  s_next_ptr : ptr;
  cb_ignore : bool;
  cb_debug : bool;
  cb_disconnect : bool;
  cb_macerror : option (list Z -> Z);
  cb_x11 : bool;
  s_state : Z;
  api_block_mode : bool;
  server_sign_algorithms : option (list Z);
  packets : list packet;
  channels : list ptr;
  next_channel : Z;
  listeners : list listener;
  socket_state : Z;
  socket_block_directions : Z;
  err_msg : string;
  err_code : Z;
  err_flags : Z;
  packAdd_state : libssh2_nonblocking_states;
  packAdd_channelp : option ptr;
  packAdd_Qlstn_state : packet_queue_listener_state;
  packAdd_x11open_state : packet_x11_open_state;
  readPack_state : libssh2_nonblocking_states;
  fullpacket_state : libssh2_nonblocking_states;
  fullpacket_macstate : Z;
  fullpacket_payload_len : Z;
  fullpacket_packet_type : Z;
  readPack_encrypted : bool;
  s_packet : transportpacket;
  s_local : libssh2_endpoint_data;
  s_remote : libssh2_endpoint_data;
  s_recv : list recv_outcome;
  s_send : list Z;
  s_wire : list Z;
  open_state : libssh2_nonblocking_states;
  open_start : Z;
  open_channel : option ptr;
  open_packet : option (list Z);
  open_data : option ptr;
  open_data_len : Z;
  open_local_channel : Z;
  s_kex : kex_data;
  s_waiting : wait_data;
  s_agents : agent_system
}.
#[global] Instance eta_session : Eta session := fun s =>
  mk_session (s_alloc s) (s_clock s) (s_trace s) (s_heap s) (s_chans s) (s_next_ptr s)
    (cb_ignore s) (cb_debug s) (cb_disconnect s) (cb_macerror s) (cb_x11 s) (s_state s)
    (api_block_mode s) (server_sign_algorithms s) (packets s) (channels s) (next_channel s)
    (listeners s) (socket_state s) (socket_block_directions s) (err_msg s) (err_code s)
    (err_flags s) (packAdd_state s) (packAdd_channelp s) (packAdd_Qlstn_state s)
    (packAdd_x11open_state s) (readPack_state s) (fullpacket_state s)
    (fullpacket_macstate s) (fullpacket_payload_len s) (fullpacket_packet_type s)
    (readPack_encrypted s) (s_packet s) (s_local s) (s_remote s) (s_recv s) (s_send s) (s_wire s)
    (open_state s) (open_start s) (open_channel s) (open_packet s) (open_data s)
    (open_data_len s) (open_local_channel s) (s_kex s) (s_waiting s) (s_agents s).

(** A session with an empty heap and no oracle outcomes. *)
Definition session_0 : session :=
  mk_session [] [] [] ∅ ∅ 1%positive false false false None false 0 false None [] [] 0 []
    LIBSSH2_SOCKET_CONNECTED 0 EmptyString 0 0 libssh2_NB_state_idle None
    queue_listener_state_0 x11_open_state_0 libssh2_NB_state_idle libssh2_NB_state_idle 0 0 0
    false transportpacket_0 endpoint_0 endpoint_0 [] [] []
    libssh2_NB_state_idle 0 None None None 0 0 kex_data_0 wait_data_0 agent_system_0.

Abbreviation CM := (M session).

(** ** Errors *)

(** The outcome of the next allocation. *)
Definition alloc_outcome : CM bool := fun s =>
  match s_alloc s with
  | [] => Ret true s
  | b :: rest => Ret b (s <| s_alloc := rest |>)
  end.

(** [_libssh2_error_flags]: with [LIBSSH2_ERR_FLAG_DUP] the message is copied
    to the heap. *)
Definition error_flags (errcode : Z) (errmsg : string) (errflags : Z) : CM Z :=
  modify (fun s => s <| err_code := errcode |> <| err_flags := 0 |>) ;;
  if negb (Z.land errflags LIBSSH2_ERR_FLAG_DUP =? 0) then
    let! ok := alloc_outcome in
    modify (fun s => if (ok : bool)
                     then s <| err_flags := LIBSSH2_ERR_FLAG_DUP |> <| err_msg := errmsg |>
                     else s <| err_msg := "former error forgotten (OOM)" |>) ;;
    ret errcode
  else
    modify (fun s => s <| err_msg := errmsg |>) ;;
    ret errcode.

Definition error (errcode : Z) (errmsg : string) : CM Z := error_flags errcode errmsg 0.
#[global] Arguments error errcode errmsg%_string_scope.

(** ** Memory *)

(** [LIBSSH2_ALLOC] of a block whose contents the caller sets at once. *)
Definition alloc_block (contents : list Z) : CM (option ptr) :=
  let! ok := alloc_outcome in
  if (ok : bool) then
    let! p := gets s_next_ptr in
    modify (fun s => s <| s_heap ::= <[p := contents]> |>
                       <| s_next_ptr := Pos.succ p |>) ;;
    ret (Some p)
  else ret None.

(** [LIBSSH2_FREE] of a payload: freeing what is not live is a fault. *)
Definition free_block (p : ptr) : CM unit :=
  let! h := gets s_heap in
  match h !! p with
  | Some _ => modify (fun s => s <| s_heap ::= delete p |>)
  | None => fault
  end.

(** The live block [p] points to. *)
Definition block (p : ptr) : CM (list Z) :=
  let! h := gets s_heap in access (h !! p).

(** [LIBSSH2_CALLOC(session, sizeof(LIBSSH2_CHANNEL))]. *)
Definition alloc_channel : CM (option ptr) :=
  let! ok := alloc_outcome in
  if (ok : bool) then
    let! p := gets s_next_ptr in
    modify (fun s => s <| s_chans ::= <[p := channel_0]> |>
                       <| s_next_ptr := Pos.succ p |>) ;;
    ret (Some p)
  else ret None.

Definition free_channel (p : ptr) : CM unit :=
  let! cs := gets s_chans in
  match cs !! p with
  | Some _ => modify (fun s => s <| s_chans ::= delete p |>)
  | None => fault
  end.

(** Reading and writing the fields of a channel. *)
Definition chan (p : ptr) : CM channel :=
  let! cs := gets s_chans in access (cs !! p).

Definition set_chan (p : ptr) (f : channel -> channel) : CM unit :=
  let! c := chan p in modify (fun s => s <| s_chans ::= <[p := f c]> |>).

(** [time(NULL)]. *)
Definition time : CM Z := fun s =>
  match s_clock s with
  | t :: rest => Ret t (s <| s_clock := rest |>)
  | [] => Ret 0 s
  end.

Definition event_log (e : event) : CM unit :=
  modify (fun s => s <| s_trace ::= fun tr => tr ++ [e] |>).
