(* ===== verification/ChannelWindow.v ===== *)
(** * Channel identities and the receive window (channel.c)

    The channel operations the packet layer calls: choosing and looking up
    channel numbers, and announcing a larger receive window to the peer. *)

From stdpp Require Import base numbers list gmap strings.
From S2P Require Import Prelude Codes Wire Session.

(** ** Channel numbers *)

Fixpoint max_local_id (cs : list ptr) (id : Z) : CM Z :=
  match cs with
  | [] => ret id
  | p :: cs =>
      let! c := chan p in
      max_local_id cs (if id <? cd_id (local c) then cd_id (local c) else id)
  end.

(** [_libssh2_channel_nextid]. *)
Definition channel_nextid : CM Z :=
  let! id0 := gets next_channel in
  let! cs := gets channels in
  let! id := max_local_id cs id0 in
  modify (fun s => s <| next_channel := u32 (id + 1) |>) ;;
  ret id.

(** The first channel of a list with the given local number. *)
Fixpoint find_channel (cs : list ptr) (channel_id : Z) : CM (option ptr) :=
  match cs with
  | [] => ret None
  | p :: cs =>
      let! c := chan p in
      if cd_id (local c) =? channel_id then ret (Some p) else find_channel cs channel_id
  end.

Fixpoint find_pending (ls : list listener) (channel_id : Z) : CM (option ptr) :=
  match ls with
  | [] => ret None
  | l :: ls =>
      let! r := find_channel (queue l) channel_id in
      match r with
      | Some p => ret (Some p)
      | None => find_pending ls channel_id
      end
  end.

(** [_libssh2_channel_locate]: the session's channels first, then the channels
    pending in the listeners' queues. *)
Definition channel_locate (channel_id : Z) : CM (option ptr) :=
  let! cs := gets channels in
  let! r := find_channel cs channel_id in
  match r with
  | Some p => ret (Some p)
  | None => let! ls := gets listeners in find_pending ls channel_id
  end.

(** ** The receive window *)

Section Window.
(** [_libssh2_transport_send(session, data, data_len, data2, data2_len)]. *)
Context (transport_send : list Z -> list Z -> CM Z).

(** The second half of [_libssh2_channel_receive_window_adjust]: sending the
    message prepared in [adjust_adjust]. *)
Definition window_adjust_send (p : ptr) (adjustment : Z) : CM Z :=
  let! c := chan p in
  let! rc := transport_send (adjust_adjust c) [] in
  if rc =? LIBSSH2_ERROR_EAGAIN then
    error rc "Would block sending window adjust" ;;
    ret rc
  else if negb (rc =? 0) then
    set_chan p (fun c => c <| adjust_queue := adjustment |>) ;;
    error LIBSSH2_ERROR_SOCKET_SEND
      "Unable to send transfer-window adjustment packet, deferring"
  else
    set_chan p (fun c =>
      c <| remote ::= fun r => r <| cd_window_size := u32 (cd_window_size r + adjustment) |> |>) ;;
    set_chan p (fun c => c <| adjust_state := libssh2_NB_state_idle |>) ;;
    ret 0.

(** [_libssh2_channel_receive_window_adjust] with a null [store]; the argument
    is converted to [uint32_t]. *)
Definition channel_receive_window_adjust (p : ptr) (adjustment0 : Z) (force : bool) : CM Z :=
  let adjustment := u32 adjustment0 in
  let! c := chan p in
  if nb_is (adjust_state c) libssh2_NB_state_idle then
    if negb force && (u32 (adjustment + adjust_queue c) <? LIBSSH2_CHANNEL_MINADJUST) then
      set_chan p (fun c => c <| adjust_queue := u32 (adjust_queue c + adjustment) |>) ;;
      ret 0
    else if (adjustment =? 0) && (adjust_queue c =? 0) then ret 0
    else
      let adjustment := u32 (adjustment + adjust_queue c) in
      set_chan p (fun c =>
        c <| adjust_queue := 0 |>
          <| adjust_adjust := SSH_MSG_CHANNEL_WINDOW_ADJUST ::
               htonu32 (cd_id (remote c)) ++ htonu32 adjustment |>
          <| adjust_state := libssh2_NB_state_created |>) ;;
      window_adjust_send p adjustment
  else window_adjust_send p adjustment.
End Window.
