(* ===== verification/Packet.v ===== *)
(** * The packet layer (packet.c)

    [_libssh2_packet_add] with its suspension points, the handling of incoming
    channel-open requests, and the queries of the packet queue. The transport
    layer and the key exchange, which call back into this one, are arguments. *)

From stdpp Require Import base numbers list gmap strings.
From S2P Require Import Prelude Codes Wire Session ChannelWindow.

Definition FwdNotReq : list Z := str "Forward not requested".
Definition X11FwdUnAvil : list Z := str "X11 Forward Unavailable".

(** ** State structs *)

Definition set_ql (f : packet_queue_listener_state -> packet_queue_listener_state) : CM unit :=
  modify (fun s => s <| packAdd_Qlstn_state ::= f |>).
Definition set_x11 (f : packet_x11_open_state -> packet_x11_open_state) : CM unit :=
  modify (fun s => s <| packAdd_x11open_state ::= f |>).
Definition set_packAdd (st : libssh2_nonblocking_states) : CM unit :=
  modify (fun s => s <| packAdd_state := st |>).

(** ** Looking into the packet queue *)

(** Whether [packet] is of the requested type and carries [match_buf] at
    [match_ofs]; the tests are in the order of the code. *)
Definition packet_matches (p : packet) (packet_type match_ofs : Z) (match_buf : option (list Z)) :
    CM bool :=
  let! d := block (pk_data p) in
  let! b := access (byte_at d 0) in
  let match_len := match match_buf with Some m => lenZ m | None => 0 end in
  if (b =? packet_type) && (match_ofs + match_len <=? pk_data_len p) then
    match match_buf with
    | None => ret true
    | Some m => let! s := access (bytes_at d match_ofs match_len) in ret (bool_decide (s = m))
    end
  else ret false.

(** The loop of [_libssh2_packet_ask]: [seen] are the packets passed over. *)
Fixpoint packet_ask_loop (seen rest : list packet) (packet_type match_ofs : Z)
    (match_buf : option (list Z)) : CM (option (ptr * Z)) :=
  match rest with
  | [] => ret None
  | p :: rest =>
      let! m := packet_matches p packet_type match_ofs match_buf in
      if (m : bool) then
        modify (fun s => s <| packets := seen ++ rest |>) ;;
        ret (Some (pk_data p, pk_data_len p))
      else packet_ask_loop (seen ++ [p]) rest packet_type match_ofs match_buf
  end.

(** [_libssh2_packet_ask]: [Some (data, data_len)] is the return value 0 with
    its outputs, [None] is -1. *)
Definition packet_ask (packet_type match_ofs : Z) (match_buf : option (list Z)) :
    CM (option (ptr * Z)) :=
  let! ps := gets packets in packet_ask_loop [] ps packet_type match_ofs match_buf.

(** [_libssh2_packet_askv]; [packet_types] is the zero-terminated array without
    its terminator. *)
Fixpoint packet_askv (packet_types : list Z) (match_ofs : Z) (match_buf : option (list Z)) :
    CM (option (ptr * Z)) :=
  match packet_types with
  | [] => ret None
  | t :: ts =>
      let! r := packet_ask t match_ofs match_buf in
      match r with
      | Some x => ret (Some x)
      | None => packet_askv ts match_ofs match_buf
      end
  end.

Section Packet.
Context (transport_send : list Z -> list Z -> CM Z).
(** [_libssh2_kex_exchange(session, 1, &session->startup_key_state)], called
    with the key state zeroed. *)
Context (kex_exchange : CM Z).

(** ** Incoming channel-open requests *)

(** One extraction of [packet_queue_listener]. *)
Definition ql_u32 (buf : string_buf) (msg : string)
    (store : Z -> packet_queue_listener_state -> packet_queue_listener_state)
    (k : string_buf -> CM Z) : CM Z :=
  let! r := access (get_u32 buf 0) in
  let '(rc, v, buf) := r in
  if negb (rc =? 0) then error LIBSSH2_ERROR_BUFFER_TOO_SMALL msg
  else set_ql (store v) ;; k buf.
#[global] Arguments ql_u32 buf msg%_string_scope store k.

Definition ql_string (buf : string_buf) (msg : string)
    (store : list Z -> packet_queue_listener_state -> packet_queue_listener_state)
    (k : string_buf -> CM Z) : CM Z :=
  let! r := access (get_string buf None) in
  let '(rc, v, buf) := r in
  if negb (rc =? 0) then error LIBSSH2_ERROR_BUFFER_TOO_SMALL msg
  else set_ql (store (default [] v)) ;; k buf.
#[global] Arguments ql_string buf msg%_string_scope store k.

(** The parsing phase; [k] is the rest of the function. *)
Definition queue_listener_parse (d : list Z) (datalen : Z) (k : CM Z) : CM Z :=
  let offset := lenZ (str "forwarded-tcpip") + 5 in
  if datalen <? offset then
    error LIBSSH2_ERROR_OUT_OF_BOUNDARY "Unexpected packet size"
  else
    ql_u32 (mk_string_buf d offset datalen) "Data too short extracting channel"
      (fun v q => q <| ql_sender_channel := v |>) (fun buf =>
    ql_u32 buf "Data too short extracting window size"
      (fun v q => q <| ql_initial_window_size := v |>) (fun buf =>
    ql_u32 buf "Data too short extracting packet"
      (fun v q => q <| ql_packet_size := v |>) (fun buf =>
    ql_string buf "Data too short extracting host"
      (fun v q => q <| ql_host := v |>) (fun buf =>
    ql_u32 buf "Data too short extracting port"
      (fun v q => q <| ql_port := v |>) (fun buf =>
    ql_string buf "Data too short extracting shost"
      (fun v q => q <| ql_shost := v |>) (fun buf =>
    ql_u32 buf "Data too short extracting sport"
      (fun v q => q <| ql_sport := v |>) (fun buf =>
    set_ql (fun q => q <| ql_state := libssh2_NB_state_allocated |>) ;; k))))))).

(** The channel of an accepted connection: its fields as [packet_queue_listener]
    and [packet_x11_open] set them. *)
Definition accepted_channel (ctype : list Z) (sender_channel initial_window_size packet_size id : Z)
    (c : channel) : channel :=
  c <| channel_type := ctype |>
    <| remote ::= fun r =>
         r <| cd_id := sender_channel |>
           <| cd_window_size_initial := LIBSSH2_CHANNEL_WINDOW_DEFAULT |>
           <| cd_window_size := LIBSSH2_CHANNEL_WINDOW_DEFAULT |>
           <| cd_packet_size := LIBSSH2_CHANNEL_PACKET_DEFAULT |> |>
    <| local ::= fun l =>
         l <| cd_id := id |>
           <| cd_window_size_initial := initial_window_size |>
           <| cd_window_size := initial_window_size |>
           <| cd_packet_size := packet_size |> |>.

Definition open_confirmation (c : channel) : list Z :=
  store_u32 (store_u32 (store_u32 (store_u32 [SSH_MSG_CHANNEL_OPEN_CONFIRMATION]
    (cd_id (remote c))) (cd_id (local c))) (cd_window_size_initial (remote c)))
    (cd_packet_size (remote c)).

Definition open_failure (sender_channel failure_code : Z) (description : list Z) : list Z :=
  store_str (store_u32 (store_u32 [SSH_MSG_CHANNEL_OPEN_FAILURE] sender_channel) failure_code)
    description ++ htonu32 0.

(** How the loop over the listeners ends: with a return, or with the
    connection refused for a reason. *)
Inductive listen_result :=
| LReturn (rc : Z)
| LRefused (failure_code : Z).

Definition listener_matches (l : listener) (q : packet_queue_listener_state) : bool :=
  (port l =? s32 (ql_port q)) && bool_decide (host l = ql_host q).

(** The [libssh2_NB_state_created] part: confirm and queue the channel on the
    [n]-th listener. *)
Definition queue_listener_confirm (n : nat) : CM listen_result :=
  let! q := gets packAdd_Qlstn_state in
  let! rc := transport_send (ql_packet q) [] in
  if rc =? LIBSSH2_ERROR_EAGAIN then ret (LReturn rc)
  else if negb (rc =? 0) then
    set_ql (fun q => q <| ql_state := libssh2_NB_state_idle |>) ;;
    let! rc := error rc "Unable to send channel open confirmation" in
    ret (LReturn rc)
  else
    let! q := gets packAdd_Qlstn_state in
    match ql_channel q with
    | Some p =>
        modify (fun s => s <| listeners ::= alter (fun l =>
          l <| queue ::= fun qs => qs ++ [p] |> <| queue_size ::= Z.add 1 |>) n |>)
    | None => ret tt
    end ;;
    set_ql (fun q => q <| ql_state := libssh2_NB_state_idle |>) ;;
    ret (LReturn 0).

(** The [libssh2_NB_state_allocated] part: [None] when the channel was set up
    and the confirmation prepared. *)
Definition queue_listener_accept (l : listener) : CM (option Z) :=
  let refuse := set_ql (fun q => q <| ql_state := libssh2_NB_state_sent |>) ;;
                ret (Some SSH_OPEN_RESOURCE_SHORTAGE) in
  if negb (queue_maxsize l =? 0) && (queue_maxsize l <=? queue_size l) then refuse
  else
    let! r := alloc_channel in
    match r with
    | None =>
        error LIBSSH2_ERROR_ALLOC "Unable to allocate a channel for new connection" ;;
        refuse
    | Some p =>
        set_ql (fun q => q <| ql_channel := Some p |>) ;;
        let! ok := alloc_outcome in
        if negb ok then
          error LIBSSH2_ERROR_ALLOC "Unable to allocate a channel for new connection" ;;
          free_channel p ;;
          refuse
        else
          let! id := channel_nextid in
          let! q := gets packAdd_Qlstn_state in
          set_chan p (accepted_channel (str "forwarded-tcpip") (ql_sender_channel q)
            (ql_initial_window_size q) (ql_packet_size q) id) ;;
          let! c := chan p in
          set_ql (fun q => q <| ql_packet := open_confirmation c |>
                             <| ql_state := libssh2_NB_state_created |>) ;;
          ret None
    end.

(** The [while(listn)] loop from the [n]-th listener on. *)
Fixpoint queue_listener_loop (ls : list listener) (n : nat) : CM listen_result :=
  match ls with
  | [] =>
      set_ql (fun q => q <| ql_state := libssh2_NB_state_sent |>) ;;
      ret (LRefused SSH_OPEN_ADMINISTRATIVELY_PROHIBITED)
  | l :: ls =>
      let! q := gets packAdd_Qlstn_state in
      if listener_matches l q then
        set_ql (fun q => q <| ql_channel := None |>) ;;
        let! refused :=
          (if nb_is (ql_state q) libssh2_NB_state_allocated
           then queue_listener_accept l else ret None) in
        match refused with
        | Some code => ret (LRefused code)
        | None =>
            let! q := gets packAdd_Qlstn_state in
            if nb_is (ql_state q) libssh2_NB_state_created then queue_listener_confirm n
            else queue_listener_loop ls (S n)
        end
      else queue_listener_loop ls (S n)
  end.

(** Refusing the connection. *)
Definition queue_listener_refuse (failure_code : Z) : CM Z :=
  set_ql (fun q => q <| ql_packet := open_failure (ql_sender_channel q) failure_code FwdNotReq |>) ;;
  let! q := gets packAdd_Qlstn_state in
  let! rc := transport_send (ql_packet q) [] in
  if rc =? LIBSSH2_ERROR_EAGAIN then ret rc
  else if negb (rc =? 0) then
    set_ql (fun q => q <| ql_state := libssh2_NB_state_idle |>) ;;
    error rc "Unable to send open failure"
  else
    set_ql (fun q => q <| ql_state := libssh2_NB_state_idle |>) ;;
    ret 0.

(** [packet_queue_listener]. *)
Definition packet_queue_listener (d : list Z) (datalen : Z) : CM Z :=
  let after_parse :=
    let! q := gets packAdd_Qlstn_state in
    if negb (nb_is (ql_state q) libssh2_NB_state_sent) then
      let! ls := gets listeners in
      let! r := queue_listener_loop ls 0 in
      match r with
      | LReturn rc => ret rc
      | LRefused code => queue_listener_refuse code
      end
    else queue_listener_refuse SSH_OPEN_ADMINISTRATIVELY_PROHIBITED in
  let! q := gets packAdd_Qlstn_state in
  if nb_is (ql_state q) libssh2_NB_state_idle then queue_listener_parse d datalen after_parse
  else after_parse.

(** *** X11 *)

(** The code at [x11_exit]. *)
Definition x11_exit (failure_code : Z) : CM Z :=
  set_x11 (fun x => x <| x11_packet := open_failure (x11_sender_channel x) failure_code X11FwdUnAvil |>) ;;
  let! x := gets packAdd_x11open_state in
  let! rc := transport_send (x11_packet x) [] in
  if rc =? LIBSSH2_ERROR_EAGAIN then ret rc
  else if negb (rc =? 0) then
    set_x11 (fun x => x <| x11_state := libssh2_NB_state_idle |>) ;;
    error rc "Unable to send open failure"
  else
    set_x11 (fun x => x <| x11_state := libssh2_NB_state_idle |>) ;;
    ret 0.

Definition x11_u32 (buf : string_buf) (msg : string)
    (store : Z -> packet_x11_open_state -> packet_x11_open_state)
    (k : string_buf -> CM Z) : CM Z :=
  let! r := access (get_u32 buf 0) in
  let '(rc, v, buf) := r in
  if negb (rc =? 0) then
    error LIBSSH2_ERROR_INVAL msg ;;
    x11_exit SSH_OPEN_CONNECT_FAILED
  else set_x11 (store v) ;; k buf.
#[global] Arguments x11_u32 buf msg%_string_scope store k.

Definition x11_string (buf : string_buf) (msg : string)
    (store : list Z -> packet_x11_open_state -> packet_x11_open_state)
    (k : string_buf -> CM Z) : CM Z :=
  let! r := access (get_string buf None) in
  let '(rc, v, buf) := r in
  if negb (rc =? 0) then
    error LIBSSH2_ERROR_INVAL msg ;;
    x11_exit SSH_OPEN_CONNECT_FAILED
  else set_x11 (store (default [] v)) ;; k buf.
#[global] Arguments x11_string buf msg%_string_scope store k.

Definition x11_parse (d : list Z) (datalen : Z) (k : CM Z) : CM Z :=
  let offset := lenZ (str "x11") + 5 in
  if datalen <? offset then
    error LIBSSH2_ERROR_INVAL "unexpected data length" ;;
    x11_exit SSH_OPEN_CONNECT_FAILED
  else
    x11_u32 (mk_string_buf d offset datalen) "unexpected sender channel size"
      (fun v x => x <| x11_sender_channel := v |>) (fun buf =>
    x11_u32 buf "unexpected window size"
      (fun v x => x <| x11_initial_window_size := v |>) (fun buf =>
    x11_u32 buf "unexpected window size"
      (fun v x => x <| x11_packet_size := v |>) (fun buf =>
    x11_string buf "unexpected host size"
      (fun v x => x <| x11_shost := v |>) (fun buf =>
    x11_u32 buf "unexpected port size"
      (fun v x => x <| x11_sport := v |>) (fun buf =>
    set_x11 (fun x => x <| x11_state := libssh2_NB_state_allocated |>) ;; k))))).

(** The [libssh2_NB_state_created] part; [channel] is the function's local
    variable. *)
Definition x11_confirm (channel : option ptr) : CM Z :=
  let! x := gets packAdd_x11open_state in
  let! rc := transport_send (x11_packet x) [] in
  if rc =? LIBSSH2_ERROR_EAGAIN then ret rc
  else if negb (rc =? 0) then
    set_x11 (fun x => x <| x11_state := libssh2_NB_state_idle |>) ;;
    error LIBSSH2_ERROR_SOCKET_SEND "Unable to send channel open confirmation"
  else
    let! p := access channel in
    modify (fun s => s <| channels ::= fun cs => cs ++ [p] |>) ;;
    let! x := gets packAdd_x11open_state in
    event_log (EvX11Open p (x11_shost x) (x11_sport x)) ;;
    set_x11 (fun x => x <| x11_state := libssh2_NB_state_idle |>) ;;
    ret 0.

(** The part of [packet_x11_open] after the parsing, with the local variable
    [channel]. *)
Definition x11_after_parse (channel : option ptr) : CM Z :=
  let! has_cb := gets cb_x11 in
  if (has_cb : bool) then
    let! x := gets packAdd_x11open_state in
    if nb_is (x11_state x) libssh2_NB_state_allocated then
      let! r := alloc_channel in
      match r with
      | None =>
          error LIBSSH2_ERROR_ALLOC "allocate a channel for new connection" ;;
          x11_exit SSH_OPEN_RESOURCE_SHORTAGE
      | Some p =>
          let! ok := alloc_outcome in
          if negb ok then
            error LIBSSH2_ERROR_ALLOC "allocate a channel for new connection" ;;
            free_channel p ;;
            x11_exit SSH_OPEN_RESOURCE_SHORTAGE
          else
            let! id := channel_nextid in
            set_chan p (accepted_channel (str "x11") (x11_sender_channel x)
              (x11_initial_window_size x) (x11_packet_size x) id) ;;
            let! c := chan p in
            set_x11 (fun x => x <| x11_packet := open_confirmation c |>
                                <| x11_state := libssh2_NB_state_created |>) ;;
            x11_confirm (Some p)
      end
    else if nb_is (x11_state x) libssh2_NB_state_created then x11_confirm channel
    else x11_exit SSH_OPEN_CONNECT_FAILED
  else x11_exit SSH_OPEN_RESOURCE_SHORTAGE.

(** [packet_x11_open]. *)
Definition packet_x11_open (d : list Z) (datalen : Z) : CM Z :=
  let! x := gets packAdd_x11open_state in
  let after_parse := x11_after_parse (x11_channel x) in
  if nb_is (x11_state x) libssh2_NB_state_idle then x11_parse d datalen after_parse
  else after_parse.
End Packet.
