(* ===== verification/PacketAdd.v ===== *)
(** * Receiving a packet: [_libssh2_packet_add] (packet.c)

    One definition per case of the message switch; [packet_add] is the whole
    function with its re-entry points. The payload [data] is a heap block, and
    every read of it goes through the heap. *)

From stdpp Require Import base numbers list gmap strings.
From S2P Require Import Prelude Codes Wire Session ChannelWindow Packet.

(** What a case of the switch does with the packet: the function returns, or
    the packet (with these values of [datalen] and [data_head]) is queued. *)
Inductive switch_result :=
| SReturn (rc : Z)
| SQueue (datalen data_head : Z).

Section PacketAdd.
Context (transport_send : list Z -> list Z -> CM Z) (kex_exchange : CM Z).

(** [LIBSSH2_FREE(session, data); packAdd_state = idle; return rc;] *)
Definition drop_packet (data : ptr) (rc : Z) : CM switch_result :=
  free_block data ;;
  set_packAdd libssh2_NB_state_idle ;;
  ret (SReturn rc).

(** A [_libssh2_get_string] whose return code is ignored. *)
Definition get_string_ignore (buf : string_buf) : CM (cbuf * string_buf) :=
  let! r := access (get_string buf None) in
  let '(_, s, buf) := r in ret (s, buf).

Definition add_disconnect (data : ptr) (datalen : Z) : CM switch_result :=
  let! d := block data in
  (if 5 <=? datalen then
     let! r := access (get_u32 (mk_string_buf d 1 datalen) 0) in
     let '(_, reason, buf) := r in
     let! m := get_string_ignore buf in
     let! l := get_string_ignore (snd m) in
     let! cb := gets cb_disconnect in
     if (cb : bool) then event_log (EvDisconnect reason (fst m) (fst l)) else ret tt
   else ret tt) ;;
  free_block data ;;
  modify (fun s => s <| socket_state := LIBSSH2_SOCKET_DISCONNECTED |>) ;;
  set_packAdd libssh2_NB_state_idle ;;
  let! rc := error LIBSSH2_ERROR_SOCKET_DISCONNECT "socket disconnect" in
  ret (SReturn rc).

Definition add_ignore (data : ptr) (datalen : Z) : CM switch_result :=
  let! d := block data in
  let! cb := gets cb_ignore in
  (if 2 <=? datalen then
     if (cb : bool) then
       let! m := access (bytes_at d 1 (datalen - 1)) in event_log (EvIgnore m)
     else ret tt
   else if (cb : bool) then event_log (EvIgnore []) else ret tt) ;;
  drop_packet data 0.

Definition add_debug (data : ptr) (datalen : Z) : CM switch_result :=
  let! d := block data in
  (if 2 <=? datalen then
     let! always_display := access (byte_at d 1) in
     let! ml :=
       (if 6 <=? datalen then
          let! m := get_string_ignore (mk_string_buf d 2 datalen) in
          let! l := get_string_ignore (snd m) in
          ret (fst m, fst l)
        else ret (None, None)) in
     let! cb := gets cb_debug in
     if (cb : bool) then event_log (EvDebug always_display (fst ml) (snd ml)) else ret tt
   else ret tt) ;;
  drop_packet data 0.

(** The [while(rc == 0 && nr_extensions > 0)] loop; [n] is [nr_extensions]. *)
Fixpoint ext_info_loop (n : nat) (buf : string_buf) : CM Z :=
  match n with
  | O => ret 0
  | S n =>
      let! name := get_string_ignore buf in
      let! value := get_string_ignore (snd name) in
      if bool_decide (default [] (fst name) = str "server-sig-algs") then
        let! ok := alloc_outcome in
        if (ok : bool) then
          modify (fun s => s <| server_sign_algorithms := Some (default [] (fst value)) |>) ;;
          ext_info_loop n (snd value)
        else
          modify (fun s => s <| server_sign_algorithms := None |>) ;;
          error LIBSSH2_ERROR_ALLOC "memory for server sign algo"
      else ext_info_loop n (snd value)
  end.

Definition add_ext_info (data : ptr) (datalen : Z) : CM switch_result :=
  let! d := block data in
  let! rc :=
    (if 5 <=? datalen then
       let! r := access (get_u32 (mk_string_buf d 1 datalen) 0) in
       let '(rc, nr_extensions, buf) := r in
       if negb (rc =? 0) then error LIBSSH2_ERROR_PROTO "Invalid extension info received"
       else ext_info_loop (Z.to_nat nr_extensions) buf
     else ret 0) in
  drop_packet data rc.

(** [libssh2_packet_add_jump_point5] and what follows it. *)
Definition jump_point5 (data : ptr) : CM switch_result :=
  set_packAdd libssh2_NB_state_jump5 ;;
  let! rc := transport_send [SSH_MSG_REQUEST_FAILURE] [] in
  if rc =? LIBSSH2_ERROR_EAGAIN then ret (SReturn rc) else drop_packet data 0.

Definition add_global_request (data : ptr) (datalen : Z) : CM switch_result :=
  if 5 <=? datalen then
    let! d := block data in
    let! len := access (ntohu32 d 1) in
    let! want_reply :=
      (if (len <=? UINT_MAX - 6) && (6 + len <=? datalen)
       then access (byte_at d (5 + len)) else ret 0) in
    if negb (want_reply =? 0) then jump_point5 data else drop_packet data 0
  else drop_packet data 0.

(** [libssh2_packet_add_jump_point1] and what follows it. *)
Definition jump_point1 (datalen : Z) : CM switch_result :=
  set_packAdd libssh2_NB_state_jump1 ;;
  let! channelp := gets packAdd_channelp in
  let! p := access channelp in
  let! rc := channel_receive_window_adjust transport_send p (u64 (datalen - 13)) true in
  if rc =? LIBSSH2_ERROR_EAGAIN then ret (SReturn rc)
  else
    set_packAdd libssh2_NB_state_idle ;;
    ret (SReturn 0).

(** Extended data on a channel that ignores it; [data_head] is 13. *)
Definition ignore_extended_data (data p : ptr) (c : channel) (datalen data_head : Z) :
    CM switch_result :=
  free_block data ;;
  let datalen :=
    if cd_window_size (remote c) <=? u64 (read_avail c + datalen - data_head)
    then u64 (u32 (cd_window_size (remote c) - read_avail c) + data_head)
    else datalen in
  set_chan p (fun c => c <| remote ::= fun r =>
    r <| cd_window_size := u32 (cd_window_size r - (datalen - data_head)) |> |>) ;;
  modify (fun s => s <| packAdd_channelp := Some p |>) ;;
  jump_point1 datalen.

(** [SSH_MSG_CHANNEL_DATA] and [SSH_MSG_CHANNEL_EXTENDED_DATA]. *)
Definition add_channel_data (data : ptr) (msg datalen : Z) : CM switch_result :=
  let data_head := if msg =? SSH_MSG_CHANNEL_EXTENDED_DATA then 4 + 9 else 9 in
  let! channelp :=
    (if data_head <=? datalen then
       let! d := block data in
       let! id := access (ntohu32 d 1) in
       channel_locate id
     else ret None) in
  match channelp with
  | None =>
      error LIBSSH2_ERROR_CHANNEL_UNKNOWN "Packet received for unknown channel" ;;
      drop_packet data 0
  | Some p =>
      let! c := chan p in
      if (cd_extended_data_ignore_mode (remote c) =? LIBSSH2_CHANNEL_EXTENDED_DATA_IGNORE)
         && (msg =? SSH_MSG_CHANNEL_EXTENDED_DATA)
      then ignore_extended_data data p c datalen data_head
      else
        let! datalen :=
          (if cd_packet_size (remote c) <? datalen - data_head then
             error LIBSSH2_ERROR_CHANNEL_PACKET_EXCEEDED
               "Packet contains more data than we offered to receive, truncating" ;;
             ret (cd_packet_size (remote c) + data_head)
           else ret datalen) in
        if cd_window_size (remote c) <=? read_avail c then
          error LIBSSH2_ERROR_CHANNEL_WINDOW_EXCEEDED
            "The current receive window is full, data ignored" ;;
          drop_packet data 0
        else
          set_chan p (fun c => c <| remote ::= fun r => r <| cd_eof := false |> |>) ;;
          let! datalen :=
            (if cd_window_size (remote c) <? u64 (read_avail c + datalen - data_head) then
               error LIBSSH2_ERROR_CHANNEL_WINDOW_EXCEEDED
                 "Remote sent more data than current window allows, truncating" ;;
               ret (u64 (u32 (cd_window_size (remote c) - read_avail c) + data_head))
             else ret datalen) in
          set_chan p (fun c => c <| read_avail := u32 (read_avail c + (datalen - data_head)) |>) ;;
          ret (SQueue datalen data_head)
  end.

(** The channel a five-byte header names, for the messages that may concern a
    channel already freed. *)
Definition locate_header (data : ptr) (datalen min : Z) : CM (option ptr) :=
  if min <=? datalen then
    let! d := block data in
    let! id := access (ntohu32 d 1) in
    channel_locate id
  else ret None.

Definition add_channel_eof (data : ptr) (datalen : Z) : CM switch_result :=
  let! channelp := locate_header data datalen 5 in
  match channelp with
  | None => ret tt
  | Some p => set_chan p (fun c => c <| remote ::= fun r => r <| cd_eof := true |> |>)
  end ;;
  drop_packet data 0.

Definition add_channel_close (data : ptr) (datalen : Z) : CM switch_result :=
  let! channelp := locate_header data datalen 5 in
  match channelp with
  | None => drop_packet data 0
  | Some p =>
      set_chan p (fun c => c <| remote ::= fun r => r <| cd_close := true |> <| cd_eof := true |> |>) ;;
      drop_packet data 0
  end.

Definition add_window_adjust (data : ptr) (datalen : Z) : CM switch_result :=
  (if datalen <? 9 then ret tt
   else
     let! d := block data in
     let! bytestoadd := access (ntohu32 d 5) in
     let! id := access (ntohu32 d 1) in
     let! channelp := channel_locate id in
     match channelp with
     | None => ret tt
     | Some p => set_chan p (fun c => c <| local ::= fun l =>
         l <| cd_window_size := u32 (cd_window_size l + bytestoadd) |> |>)
     end) ;;
  drop_packet data 0.

(** [libssh2_packet_add_jump_point4] and what follows it. *)
Definition jump_point4 (data : ptr) : CM switch_result :=
  set_packAdd libssh2_NB_state_jump4 ;;
  let! d := block data in
  let! id := access (bytes_at d 1 4) in
  let! rc := transport_send (SSH_MSG_CHANNEL_FAILURE :: id) [] in
  if rc =? LIBSSH2_ERROR_EAGAIN then ret (SReturn rc) else drop_packet data rc.

(** Whether the request name at offset 9 is [name] (of [len] bytes). *)
Definition request_is (d : list Z) (datalen len : Z) (name : list Z) : CM bool :=
  if (len =? lenZ name) && (lenZ name + 9 <=? datalen) then
    let! s := access (bytes_at d 9 (lenZ name)) in ret (bool_decide (s = name))
  else ret false.

Definition request_exit_status (d : list Z) (datalen channel_id : Z) : CM Z :=
  let! channelp := (if 20 <=? datalen then channel_locate channel_id else ret None) in
  match channelp with
  | Some p =>
      if lenZ (str "exit-status") + 1 + 13 <=? datalen then
        let! st := access (ntohu32 d (9 + (lenZ (str "exit-status") + 1))) in
        set_chan p (fun c => c <| exit_status := s32 st |>) ;; ret 0
      else ret 0
  | None => ret 0
  end.

Definition request_exit_signal (d : list Z) (datalen channel_id : Z) : CM Z :=
  let size := lenZ (str "exit-signal") + 1 in
  let! channelp := (if 20 <=? datalen then channel_locate channel_id else ret None) in
  match channelp with
  | Some p =>
      if size + 13 <=? datalen then
        let! namelen := access (ntohu32 d (9 + size)) in
        let! ok := (if namelen <=? UINT_MAX - 1 then alloc_outcome else ret false) in
        if (ok : bool) then
          set_chan p (fun c => c <| exit_signal := Some (NameUninit (namelen + 1)) |>) ;;
          if size + 13 + namelen <=? datalen then
            let! name := access (bytes_at d (13 + size) namelen) in
            set_chan p (fun c => c <| exit_signal := Some (NameSet name) |>) ;; ret 0
          else ret 0
        else
          set_chan p (fun c => c <| exit_signal := None |>) ;;
          error LIBSSH2_ERROR_ALLOC "memory for signal name"
      else ret 0
  | None => ret 0
  end.

Definition add_channel_request (data : ptr) (datalen : Z) : CM switch_result :=
  if 9 <=? datalen then
    let! d := block data in
    let! channel_id := access (ntohu32 d 1) in
    let! len := access (ntohu32 d 5) in
    let! want_reply :=
      (if u32 (len + 9) <? datalen then access (byte_at d (u32 (len + 9))) else ret 1) in
    let! is_status := request_is d datalen len (str "exit-status") in
    let! rc :=
      (if (is_status : bool) then request_exit_status d datalen channel_id
       else
         let! is_signal := request_is d datalen len (str "exit-signal") in
         if (is_signal : bool) then request_exit_signal d datalen channel_id else ret 0) in
    if negb (want_reply =? 0) then jump_point4 data else drop_packet data rc
  else drop_packet data 0.

(** The end of the [SSH_MSG_CHANNEL_OPEN] case. *)
Definition open_done (data : ptr) (rc : Z) : CM switch_result :=
  if rc =? LIBSSH2_ERROR_EAGAIN then ret (SReturn rc) else drop_packet data rc.

Definition jump_point2 (data : ptr) (datalen : Z) : CM switch_result :=
  set_packAdd libssh2_NB_state_jump2 ;;
  let! d := block data in
  let! rc := packet_queue_listener transport_send d datalen in
  open_done data rc.

Definition jump_point3 (data : ptr) (datalen : Z) : CM switch_result :=
  set_packAdd libssh2_NB_state_jump3 ;;
  let! d := block data in
  let! rc := packet_x11_open transport_send d datalen in
  open_done data rc.

(** Whether a channel-open message is for the channel type [name]. *)
Definition open_is (d : list Z) (datalen : Z) (name : list Z) : CM bool :=
  if lenZ name + 1 + 4 <=? datalen then
    let! len := access (ntohu32 d 1) in
    if lenZ name =? len then
      let! s := access (bytes_at d 5 (lenZ name)) in ret (bool_decide (s = name))
    else ret false
  else ret false.

Definition add_channel_open (data : ptr) (datalen : Z) : CM switch_result :=
  if datalen <? 17 then open_done data 0
  else
    let! d := block data in
    let! is_fwd := open_is d datalen (str "forwarded-tcpip") in
    if (is_fwd : bool) then
      set_ql (fun _ => queue_listener_state_0) ;;
      jump_point2 data datalen
    else
      let! is_x11 := open_is d datalen (str "x11") in
      if (is_x11 : bool) then
        set_x11 (fun _ => x11_open_state_0) ;;
        jump_point3 data datalen
      else open_done data 0.

(** The switch on the message number. *)
Definition packet_switch (data : ptr) (msg datalen : Z) : CM switch_result :=
  if msg =? SSH_MSG_DISCONNECT then add_disconnect data datalen
  else if msg =? SSH_MSG_IGNORE then add_ignore data datalen
  else if msg =? SSH_MSG_DEBUG then add_debug data datalen
  else if msg =? SSH_MSG_EXT_INFO then add_ext_info data datalen
  else if msg =? SSH_MSG_GLOBAL_REQUEST then add_global_request data datalen
  else if (msg =? SSH_MSG_CHANNEL_EXTENDED_DATA) || (msg =? SSH_MSG_CHANNEL_DATA)
  then add_channel_data data msg datalen
  else if msg =? SSH_MSG_CHANNEL_EOF then add_channel_eof data datalen
  else if msg =? SSH_MSG_CHANNEL_REQUEST then add_channel_request data datalen
  else if msg =? SSH_MSG_CHANNEL_CLOSE then add_channel_close data datalen
  else if msg =? SSH_MSG_CHANNEL_OPEN then add_channel_open data datalen
  else if msg =? SSH_MSG_CHANNEL_WINDOW_ADJUST then add_window_adjust data datalen
  else ret (SQueue datalen 0).

(** Queuing the packet ([libssh2_NB_state_sent]); the result is the early
    return, if any. *)
Definition packet_enqueue (data : ptr) (datalen data_head : Z) : CM (option Z) :=
  let! ok := alloc_outcome in
  if (ok : bool) then
    modify (fun s => s <| packets ::= fun ps => ps ++ [mk_packet data datalen data_head] |>) ;;
    set_packAdd libssh2_NB_state_sent1 ;;
    ret None
  else
    free_block data ;;
    set_packAdd libssh2_NB_state_idle ;;
    ret (Some LIBSSH2_ERROR_ALLOC).

(** The key re-exchange part and the end of the function. *)
Definition packet_rekey (msg : Z) : CM Z :=
  let! st := gets s_state in
  let! pst := gets packAdd_state in
  let finish := set_packAdd libssh2_NB_state_idle ;; ret 0 in
  if ((msg =? SSH_MSG_KEXINIT) && (Z.land st LIBSSH2_STATE_EXCHANGING_KEYS =? 0))
     || nb_is pst libssh2_NB_state_sent2
  then
    modify (fun s => s <| readPack_state := libssh2_NB_state_idle |>
                       <| s_packet ::= fun p => p <| tp_total_num := 0 |> |>
                       <| packAdd_state := libssh2_NB_state_idle |>
                       <| fullpacket_state := libssh2_NB_state_idle |>) ;;
    let! rc := kex_exchange in
    if rc =? LIBSSH2_ERROR_EAGAIN then ret rc else finish
  else finish.

(** What follows a switch case, or a re-entry. *)
Definition packet_add_end (data : ptr) (msg : Z) (r : switch_result) : CM Z :=
  match r with
  | SReturn rc => ret rc
  | SQueue datalen data_head =>
      set_packAdd libssh2_NB_state_sent ;;
      let! early := packet_enqueue data datalen data_head in
      match early with
      | Some rc => ret rc
      | None => packet_rekey msg
      end
  end.

(** [_libssh2_packet_add]. *)
Definition packet_add (data : ptr) (datalen macstate : Z) : CM Z :=
  let! d := block data in
  let! msg := access (byte_at d 0) in
  let! st := gets packAdd_state in
  match st with
  | libssh2_NB_state_idle =>
      let! cb := gets cb_macerror in
      let! bad :=
        (if macstate =? LIBSSH2_MAC_INVALID then
           match cb with
           | None => ret true
           | Some f =>
               let! m := access (bytes_at d 0 datalen) in
               event_log (EvMacError m) ;;
               ret (negb (f m =? 0))
           end
         else ret false) in
      if (bad : bool) then
        free_block data ;;
        error LIBSSH2_ERROR_INVALID_MAC "Invalid MAC received"
      else
        set_packAdd libssh2_NB_state_allocated ;;
        let! r := packet_switch data msg datalen in packet_add_end data msg r
  | libssh2_NB_state_allocated =>
      let! r := packet_switch data msg datalen in packet_add_end data msg r
  | libssh2_NB_state_jump1 => let! r := jump_point1 datalen in packet_add_end data msg r
  | libssh2_NB_state_jump2 => let! r := jump_point2 data datalen in packet_add_end data msg r
  | libssh2_NB_state_jump3 => let! r := jump_point3 data datalen in packet_add_end data msg r
  | libssh2_NB_state_jump4 => let! r := jump_point4 data in packet_add_end data msg r
  | libssh2_NB_state_jump5 => let! r := jump_point5 data in packet_add_end data msg r
  | libssh2_NB_state_sent =>
      let! early := packet_enqueue data datalen 0 in
      match early with
      | Some rc => ret rc
      | None => packet_rekey msg
      end
  | _ => packet_rekey msg
  end.
End PacketAdd.
