(* ===== verification/Conn.v ===== *)
(** * The connection layer's invariant and its transport interface

    [conn_ok] is the well-formedness invariant of the state the packet and
    channel code share; [quiet] is the effect of the operations that neither
    release nor queue a payload; [Transport] states what that code relies on
    when it hands a message to the transport layer. *)

From stdpp Require Import base numbers list gmap strings.
From S2P Require Import Prelude Codes Wire Session ChannelWindow.

(** ** Invariant *)

Definition is_u32 (z : Z) : Prop := 0 <= z < 2 ^ 32.

Record channel_data_ok (d : libssh2_channel_data) : Prop := {
  cd_ok_id : is_u32 (cd_id d);
  cd_ok_initial : is_u32 (cd_window_size_initial d);
  cd_ok_window : is_u32 (cd_window_size d);
  cd_ok_packet : is_u32 (cd_packet_size d)
}.

Record chan_ok (c : channel) : Prop := {
  chan_ok_local : channel_data_ok (local c);
  chan_ok_remote : channel_data_ok (remote c);
  chan_ok_avail : is_u32 (read_avail c);
  chan_ok_queue : is_u32 (adjust_queue c)
}.

(** A queued packet: a live payload, and its counters inside it. *)
Definition packet_ok (h : gmap ptr (list Z)) (p : packet) : Prop :=
  exists d, h !! pk_data p = Some d /\ 1 <= lenZ d < 2 ^ 32 /\
    0 <= pk_data_head p <= pk_data_len p /\ pk_data_len p <= lenZ d.

Record conn_ok (s : session) : Prop := {
  ok_channels : Forall (fun p => is_Some (s_chans s !! p)) (channels s);
  ok_pending : Forall (fun l => Forall (fun p => is_Some (s_chans s !! p)) (queue l)) (listeners s);
  ok_chans : map_Forall (fun _ c => chan_ok c) (s_chans s);
  ok_heap : map_Forall (fun _ d => bytes_ok d) (s_heap s);
  ok_packets : Forall (packet_ok (s_heap s)) (packets s);
  ok_nodup : NoDup (pk_data <$> packets s);
  ok_fresh : forall p, (s_next_ptr s <= p)%positive -> s_chans s !! p = None;
  ok_next : is_u32 (next_channel s);
  ok_heap_fresh : forall p, (s_next_ptr s <= p)%positive -> s_heap s !! p = None
}.

(** An unfinished send keeps its bytes in [outbuf]. *)
Definition out_ok (p : transportpacket) : Prop :=
  lenZ (tp_outbuf p) <= MAX_SSH_PACKET_LEN /\
  (tp_olen p <> 0 -> 0 <= tp_osent p <= tp_ototal_num p /\ tp_ototal_num p <= lenZ (tp_outbuf p)).

(** The sizes of the negotiated methods are those the code has room for. *)
Definition endpoint_ok (st : Z) (e : libssh2_endpoint_data) : Prop :=
  0 <= ep_mac_len e <= MAX_MACSIZE /\
  (Z.land st LIBSSH2_STATE_NEWKEYS <> 0 -> 8 <= ep_blocksize e <= MAX_BLOCKSIZE).

(** No key exchange is pending, or it is the one that runs, so that the
    transport layer does not redirect a send into it. *)
Definition no_redirect (st : Z) : Prop :=
  Z.land st LIBSSH2_STATE_EXCHANGING_KEYS = 0 \/ Z.land st LIBSSH2_STATE_KEX_ACTIVE <> 0.

(** Sends go to the socket, and the transport layer's own state is consistent. *)
Definition can_send (s : session) : Prop :=
  no_redirect (s_state s) /\ out_ok (s_packet s) /\
  endpoint_ok (s_state s) (s_local s).

(** The part of the state [conn_ok] speaks of, and whether sending is possible. *)
Record same_conn (s s' : session) : Prop := {
  same_chans : s_chans s' = s_chans s;
  same_heap : s_heap s' = s_heap s;
  same_packets : packets s' = packets s;
  same_channels : channels s' = channels s;
  same_listeners : listeners s' = listeners s;
  same_next_ptr : s_next_ptr s' = s_next_ptr s;
  same_next_channel : next_channel s' = next_channel s;
  same_kex : s_kex s' = s_kex s;
  same_state : s_state s' = s_state s;
  same_send : can_send s -> can_send s'
}.

#[global] Instance same_conn_refl : Reflexive same_conn.
Proof. by intros s. Qed.
#[global] Instance same_conn_trans : Transitive same_conn.
Proof. intros s1 s2 s3 [] []. split; [congruence..|auto]. Qed.

Lemma same_conn_ok s s' : same_conn s s' -> conn_ok s -> conn_ok s'.
Proof. intros [E1 E2 E3 E4 E5 E6 E7 _ _ _] []. split; rewrite ?E1, ?E2, ?E3, ?E4, ?E5, ?E6, ?E7; done. Qed.

(** ** Quiet operations *)

(** The heap and the packet queue are kept, and the invariant with them. *)
Record quiet (s s' : session) : Prop := {
  quiet_ok : conn_ok s -> conn_ok s';
  quiet_heap : s_heap s' = s_heap s;
  quiet_packets : packets s' = packets s;
  quiet_can_send : can_send s -> can_send s'
}.

#[global] Instance quiet_refl : Reflexive quiet.
Proof. by intros s. Qed.
#[global] Instance quiet_trans : Transitive quiet.
Proof. intros s1 s2 s3 [] []. split; [auto|congruence..|auto]. Qed.

Lemma same_conn_quiet s s' : same_conn s s' -> quiet s s'.
Proof. intros H. split; [by apply same_conn_ok|apply H..]. Qed.

(** ** The transport interface *)

(** The progress of a suspended [_libssh2_packet_add]. *)
Record same_suspended (s s' : session) : Prop := {
  same_packAdd : packAdd_state s' = packAdd_state s;
  same_channelp : packAdd_channelp s' = packAdd_channelp s;
  same_ql : packAdd_Qlstn_state s' = packAdd_Qlstn_state s;
  same_x11 : packAdd_x11open_state s' = packAdd_x11open_state s
}.

#[global] Instance same_suspended_refl : Reflexive same_suspended.
Proof. by intros s. Qed.
#[global] Instance same_suspended_trans : Transitive same_suspended.
Proof. intros s1 s2 s3 [] []. split; congruence. Qed.

(** What the connection layer relies on: outside a key exchange, sending a
    message changes only the transport's own state, whatever it returns. *)
Class Transport (transport_send : list Z -> list Z -> CM Z) : Prop :=
  transport_send_frame : forall data data2 s,
    can_send s ->
    wp (transport_send data data2) (fun _ s' => same_conn s s' /\ same_suspended s s') s.

(** ** Rules for the primitives *)

Lemma wp_block p (Q : list Z -> session -> Prop) s d :
  s_heap s !! p = Some d -> Q d s -> wp (block p) Q s.
Proof. intros H HQ. unfold wp, block, bind, gets. by rewrite H. Qed.

Lemma wp_free_block p (Q : unit -> session -> Prop) s d :
  s_heap s !! p = Some d -> Q tt (s <| s_heap ::= delete p |>) -> wp (free_block p) Q s.
Proof. intros H HQ. unfold wp, free_block, bind, gets. by rewrite H. Qed.

Lemma wp_chan p (Q : channel -> session -> Prop) s c :
  s_chans s !! p = Some c -> Q c s -> wp (chan p) Q s.
Proof. intros H HQ. unfold wp, chan, bind, gets. by rewrite H. Qed.

Lemma wp_set_chan p f (Q : unit -> session -> Prop) s c :
  s_chans s !! p = Some c -> Q tt (s <| s_chans ::= <[p := f c]> |>) -> wp (set_chan p f) Q s.
Proof. intros H HQ. unfold wp, set_chan, chan, bind, gets. by rewrite H. Qed.

Lemma wp_free_channel p (Q : unit -> session -> Prop) s c :
  s_chans s !! p = Some c -> Q tt (s <| s_chans ::= delete p |>) -> wp (free_channel p) Q s.
Proof. intros H HQ. unfold wp, free_channel, bind, gets. by rewrite H. Qed.

Lemma set_alloc_id s : s <| s_alloc := s_alloc s |> = s.
Proof. by destruct s. Qed.

Lemma wp_alloc_outcome (Q : bool -> session -> Prop) s :
  (forall b al, Q b (s <| s_alloc := al |>)) -> wp alloc_outcome Q s.
Proof.
  intros H. unfold wp, alloc_outcome. destruct (s_alloc s) as [|b rest] eqn:E; [|apply H].
  specialize (H true (s_alloc s)). by rewrite set_alloc_id in H.
Qed.

(** [_libssh2_error] returns its code and touches only the error fields. *)
Lemma wp_error code msg (Q : Z -> session -> Prop) s :
  (forall s', same_conn s s' -> same_suspended s s' -> Q code s') -> wp (error code msg) Q s.
Proof. intros H. unfold wp, error, error_flags. simpl. by apply H. Qed.

(** ** Channel stores *)

Lemma chan_lookup_ok s p c : conn_ok s -> s_chans s !! p = Some c -> chan_ok c.
Proof. intros H Hp. by apply (ok_chans s H p). Qed.

(** Updating a channel keeps the invariant when the new one is well-formed. *)
Lemma quiet_set_chan s p c c' :
  s_chans s !! p = Some c -> (chan_ok c -> chan_ok c') ->
  quiet s (s <| s_chans ::= <[p := c']> |>).
Proof.
  intros Hp Hc. split; simpl; try done. intros Hok.
  assert (Hlive : forall q, is_Some (s_chans s !! q) -> is_Some (<[p := c']> (s_chans s) !! q)).
  { intros q Hq. rewrite lookup_insert. case_decide; [eauto|done]. }
  destruct Hok as [H1 H2 H3 H4 H5 H6 H7 H8 H9]. split; simpl; try done.
  - eapply Forall_impl; eauto.
  - eapply Forall_impl; [done|]. intros l Hl. simpl in *. eapply Forall_impl; eauto.
  - apply map_Forall_insert_2; [|done]. apply Hc. by apply (H3 p).
  - intros q Hq. rewrite lookup_insert. case_decide as E; [|by apply H7].
    subst q. by rewrite H7 in Hp.
Qed.

Lemma wp_find_channel cs id (Q : option ptr -> session -> Prop) s :
  Forall (fun p => is_Some (s_chans s !! p)) cs ->
  (forall p c, p ∈ cs -> s_chans s !! p = Some c -> cd_id (local c) = id -> Q (Some p) s) ->
  Q None s -> wp (find_channel cs id) Q s.
Proof.
  induction 1 as [|p cs [c Hc] _ IH]; intros Hs Hn; simpl; [by apply wp_ret|].
  apply wp_bind. eapply wp_chan; [done|]. destruct (Z.eqb_spec (cd_id (local c)) id).
  - apply wp_ret. eapply Hs; [left|done|done].
  - apply IH; [|done]. intros p' c' Hin. apply Hs. by right.
Qed.

(** [_libssh2_channel_locate] finds a live channel with the number asked for,
    and changes nothing. *)
Lemma wp_channel_locate id (Q : option ptr -> session -> Prop) s :
  conn_ok s ->
  (forall p c, s_chans s !! p = Some c -> cd_id (local c) = id -> Q (Some p) s) ->
  Q None s -> wp (channel_locate id) Q s.
Proof.
  intros Hok Hs Hn. unfold channel_locate. apply wp_bind, wp_gets, wp_bind, wp_find_channel;
    [apply Hok|intros p c _ ? ?; by eapply Hs|].
  apply wp_bind, wp_gets. pose proof (ok_pending s Hok) as Hp.
  induction Hp as [|l ls Hl _ IH]; simpl; [by apply wp_ret|].
  apply wp_bind, wp_find_channel; [done|intros p c _ ? ?; by eapply Hs|done].
Qed.

Lemma wp_max_local_id cs id (Q : Z -> session -> Prop) s :
  conn_ok s -> Forall (fun p => is_Some (s_chans s !! p)) cs -> is_u32 id ->
  (forall m, is_u32 m -> Q m s) -> wp (max_local_id cs id) Q s.
Proof.
  intros Hok Hcs. revert id. induction Hcs as [|p cs [c Hc] _ IH]; intros id Hid HQ; simpl.
  - by apply wp_ret, HQ.
  - apply wp_bind. eapply wp_chan; [done|]. apply IH; [|done].
    destruct (id <? _); [|done]. apply chan_lookup_ok in Hc; [|done]. apply Hc.
Qed.

(** [_libssh2_channel_nextid] only moves the counter. *)
Lemma wp_channel_nextid (Q : Z -> session -> Prop) s :
  conn_ok s ->
  (forall id v, is_u32 id -> is_u32 v -> Q id (s <| next_channel := v |>)) -> wp channel_nextid Q s.
Proof.
  intros Hok HQ. unfold channel_nextid. do 2 (apply wp_bind, wp_gets).
  apply wp_bind, wp_max_local_id; [done|apply Hok|apply Hok|].
  intros m Hm. apply wp_bind, wp_modify, wp_ret, HQ; [done|apply u32_range].
Qed.

Lemma quiet_next_channel s v : is_u32 v -> quiet s (s <| next_channel := v |>).
Proof. intros Hv. split; simpl; try done. intros []. by split. Qed.

(** ** New channels *)

(** A channel just allocated is live and nothing refers to it yet. *)
Lemma wp_alloc_channel (Q : option ptr -> session -> Prop) s :
  (forall al, Q None (s <| s_alloc := al |>)) ->
  (forall al, Q (Some (s_next_ptr s))
     (s <| s_alloc := al |> <| s_chans ::= <[s_next_ptr s := channel_0]> |>
        <| s_next_ptr := Pos.succ (s_next_ptr s) |>)) ->
  wp alloc_channel Q s.
Proof.
  intros Hn Hs. unfold alloc_channel. apply wp_bind, wp_alloc_outcome. intros [] al.
  - apply wp_bind, wp_gets, wp_bind, wp_modify, wp_ret. apply Hs.
  - apply wp_ret, Hn.
Qed.

Lemma chan_ok_0 : chan_ok channel_0.
Proof. by repeat split. Qed.

Lemma quiet_alloc_channel s al c :
  chan_ok c ->
  quiet s (s <| s_alloc := al |> <| s_chans ::= <[s_next_ptr s := c]> |>
             <| s_next_ptr := Pos.succ (s_next_ptr s) |>).
Proof.
  intros Hc. split; simpl; try done. intros [H1 H2 H3 H4 H5 H6 H7 H8 H9].
  assert (Hlive : forall q, is_Some (s_chans s !! q) ->
    is_Some (<[s_next_ptr s := c]> (s_chans s) !! q)).
  { intros q Hq. rewrite lookup_insert. case_decide; [eauto|done]. }
  split; simpl; try done.
  - eapply Forall_impl; eauto.
  - eapply Forall_impl; [done|]. intros l Hl. simpl in *. eapply Forall_impl; eauto.
  - by apply map_Forall_insert_2.
  - intros q Hq. rewrite lookup_insert_ne by (intros <-; lia). apply H7. lia.
  - intros q Hq. apply H9. lia.
Qed.

(** Allocating a channel and giving it back. *)
Lemma quiet_alloc_free s s1 s' :
  conn_ok s -> same_conn (s <| s_chans ::= <[s_next_ptr s := channel_0]> |>
                            <| s_next_ptr := Pos.succ (s_next_ptr s) |>) s1 ->
  same_conn (s1 <| s_chans ::= delete (s_next_ptr s) |>) s' -> quiet s s'.
Proof.
  intros Hok [E1 E2 E3 E4 E5 E6 E7 _ _ E8] [F1 F2 F3 F4 F5 F6 F7 _ _ F8]. simpl in *.
  assert (Hc : s_chans s' = s_chans s).
  { rewrite F1, E1. apply delete_insert_id, (ok_fresh s Hok). lia. }
  split; [|congruence|congruence|intros Hs; by apply F8, E8]. intros _. destruct Hok as [H1 H2 H3 H4 H5 H6 H7 H8 H9].
  split; rewrite ?F4, ?F5, ?F2, ?F3, ?F7, ?E2, ?E3, ?E4, ?E5, ?E7, ?Hc; try done.
  - intros q Hq. apply H7. rewrite F6, E6 in Hq. lia.
  - intros q Hq. apply H9. rewrite F6, E6 in Hq. lia.
Qed.

(** A channel queued on a listener. *)
Lemma quiet_listener_push s n p :
  is_Some (s_chans s !! p) ->
  quiet s (s <| listeners ::= alter (fun l =>
    l <| queue ::= fun qs => qs ++ [p] |> <| queue_size ::= Z.add 1 |>) n |>).
Proof.
  intros Hp. split; simpl; try done. intros [H1 H2 H3 H4 H5 H6 H7 H8 H9]. split; simpl; try done.
  apply Forall_alter; [done|]. intros l _ Hl. simpl. apply Forall_app. split; [done|by constructor].
Qed.

(** A channel entered in the session's list. *)
Lemma quiet_channel_push s p :
  is_Some (s_chans s !! p) -> quiet s (s <| channels ::= fun cs => cs ++ [p] |>).
Proof.
  intros Hp. split; simpl; try done. intros [H1 H2 H3 H4 H5 H6 H7 H8 H9]. split; simpl; try done.
  apply Forall_app. split; [done|by constructor].
Qed.
