(* ===== verification/Comp.v ===== *)
(** * Compression of packets (comp.c)

    [comp_method_zlib_comp] and [comp_method_zlib_decomp] around zlib's
    [deflate] and [inflate], which are arguments. A [z_stream]'s running state
    is a list of bytes. *)

From stdpp Require Import base numbers list gmap strings.
From S2P Require Import Prelude Codes Wire Session Conn.

(** zlib's return values the code tests. *)
Definition Z_OK : Z := 0.
Definition Z_BUF_ERROR : Z := -5.

Definition SIZE_MAX : Z := 2 ^ 64 - 1.

(** [memcpy] into a live block; outside of it is a fault. *)
Definition write_block (p : ptr) (off : Z) (bytes : list Z) : CM unit :=
  let! d := block p in
  if decide (0 <= off /\ off + lenZ bytes <= lenZ d) then
    modify (fun s => s <| s_heap ::=
      <[p := take (Z.to_nat off) d ++ bytes ++ drop (Z.to_nat (off + lenZ bytes)) d]> |>)
  else fault.

(** [LIBSSH2_REALLOC]: a new block with the old contents, or nothing. *)
Definition realloc_block (p : ptr) (size : Z) : CM (option ptr) :=
  let! d := block p in
  let! r := alloc_block (resize (Z.to_nat size) 0 d) in
  match r with
  | Some q => free_block p ;; ret (Some q)
  | None => ret None
  end.

(** The outcome of a call of [inflate]: its return value, the bytes it put
    out, the input it left, and the stream. *)
Record inflated := mk_inflated {
  in_status : Z;
  in_out : list Z;
  in_rest : list Z;
  in_strm : list Z
}.

Section Comp.
(** From the stream, the input and the room for output. *)
Context (deflate : list Z -> list Z -> Z -> Z * list Z * list Z).
Context (inflate : list Z -> list Z -> Z -> inflated).

(** [comp_method_zlib_comp]: the compressed data or an error, and the stream. *)
Definition comp_method_zlib_comp (strm src : list Z) (dest_len : Z) : CM ((Z + list Z) * list Z) :=
  let '(status, out, strm) := deflate strm src dest_len in
  if (status =? Z_OK) && (0 <? dest_len - lenZ out) then ret (inr out, strm)
  else
    let! rc := error LIBSSH2_ERROR_ZLIB "compression failure" in
    ret (inl rc, strm).

(** The loop of [comp_method_zlib_decomp]: [used] bytes of the block [out] of
    [out_maxlen] bytes are filled. *)
Fixpoint inflate_loop (fuel : nat) (payload_limit : Z) (out : ptr) (out_maxlen used : Z)
    (strm next_in : list Z) : CM ((Z + (ptr * Z)) * list Z) :=
  match fuel with
  | O => fun _ => OutOfFuel
  | S fuel =>
      let r := inflate strm next_in (out_maxlen - used) in
      write_block out used (in_out r) ;;
      let used := used + lenZ (in_out r) in
      let finish := ret (inr (out, used), in_strm r) in
      let fail_with code msg :=
        free_block out ;; let! rc := error code msg in ret (inl rc, in_strm r) in
      let grow :=
        if (payload_limit <? out_maxlen) || (SIZE_MAX / 2 <? out_maxlen) then
          fail_with LIBSSH2_ERROR_ZLIB "Excessive growth in decompression phase"%string
        else
          let! newout := realloc_block out (out_maxlen * 2) in
          match newout with
          | None => fail_with LIBSSH2_ERROR_ALLOC "Unable to expand decompression buffer"%string
          | Some newout =>
              inflate_loop fuel payload_limit newout (out_maxlen * 2) used (in_strm r) (in_rest r)
          end in
      if in_status r =? Z_OK then
        if 0 <? out_maxlen - used then finish else grow
      else if in_status r =? Z_BUF_ERROR then finish
      else fail_with LIBSSH2_ERROR_ZLIB "decompression failure"%string
  end.

(** The size of the first output buffer. *)
Definition decomp_size (payload_limit src_len : Z) : Z :=
  let out_maxlen := if src_len <=? SIZE_MAX / 4 then src_len * 4 else payload_limit in
  let out_maxlen := if out_maxlen <? 25 then 25 else out_maxlen in
  if payload_limit <? out_maxlen then payload_limit else out_maxlen.

(** [comp_method_zlib_decomp]: the block with the data and the data's length,
    or an error, and the stream. *)
Definition comp_method_zlib_decomp (fuel : nat) (payload_limit : Z) (strm src : list Z) :
    CM ((Z + (ptr * Z)) * list Z) :=
  let out_maxlen := decomp_size payload_limit (lenZ src) in
  let! out := alloc_block (replicate (Z.to_nat out_maxlen) 0) in
  match out with
  | None =>
      let! rc := error LIBSSH2_ERROR_ALLOC "Unable to allocate decompression buffer" in
      ret (inl rc, strm)
  | Some out => inflate_loop fuel payload_limit out out_maxlen 0 strm src
  end.
End Comp.

(** The buffer starts with at least 25 bytes and doubles until it exceeds the
    payload limit, so 12 rounds are enough for [LIBSSH2_PACKET_MAXDECOMP]. *)
Definition decomp_rounds : nat := 12.

(** ** What decompression promises *)

(** zlib writes at most the room it is given. *)
Class Inflate (inflate : list Z -> list Z -> Z -> inflated) : Prop :=
  inflate_fits : forall strm next_in avail_out, 0 <= avail_out ->
    lenZ (in_out (inflate strm next_in avail_out)) <= avail_out /\
    bytes_ok (in_out (inflate strm next_in avail_out)).

(** Only the heap, the allocator and the error fields moved. *)
Definition mem_only (s s' : session) : Prop :=
  s' = s <| s_heap := s_heap s' |> <| s_next_ptr := s_next_ptr s' |> <| s_alloc := s_alloc s' |>
         <| err_msg := err_msg s' |> <| err_code := err_code s' |> <| err_flags := err_flags s' |>.

#[global] Instance mem_only_refl : Reflexive mem_only.
Proof. intros s. by destruct s. Qed.
#[global] Instance mem_only_trans : Transitive mem_only.
Proof.
  intros s1 s2 s3 H12 H23. unfold mem_only in *.
  transitivity (s2 <| s_heap := s_heap s3 |> <| s_next_ptr := s_next_ptr s3 |>
    <| s_alloc := s_alloc s3 |> <| err_msg := err_msg s3 |> <| err_code := err_code s3 |>
    <| err_flags := err_flags s3 |>); [done|].
  by rewrite H12.
Qed.

(** The heap holds bytes, and nothing beyond the allocation pointer. *)
Record heap_ok (s : session) : Prop := {
  heap_ok_bytes : map_Forall (fun _ d => bytes_ok d) (s_heap s);
  heap_ok_fresh : forall p, (s_next_ptr s <= p)%positive -> s_heap s !! p = None
}.

Lemma conn_heap_ok s : conn_ok s -> heap_ok s.
Proof. intros []. by split. Qed.

(** Putting a result at [s_heap s] in place of the block it came from. *)
Definition decomp_post (limit : Z) (h : gmap ptr (list Z)) (s : session)
    (r : (Z + (ptr * Z)) * list Z) (s' : session) : Prop :=
  mem_only s s' /\ heap_ok s' /\
  match r.1 with
  | inl rc => s_heap s' = h /\ (rc = LIBSSH2_ERROR_ZLIB \/ rc = LIBSSH2_ERROR_ALLOC)
  | inr (q, n) => exists d, s_heap s' = <[q := d]> h /\ h !! q = None /\
      0 <= n <= lenZ d /\ lenZ d <= 2 * limit
  end.

Lemma wp_error_mem code msg (Q : Z -> session -> Prop) s :
  (forall s', mem_only s s' -> s_heap s' = s_heap s -> s_next_ptr s' = s_next_ptr s -> Q code s') ->
  wp (error code msg) Q s.
Proof. intros H. unfold wp, error, error_flags. simpl. apply H; by destruct s. Qed.

Lemma wp_write_block p off bytes (Q : unit -> session -> Prop) s d :
  s_heap s !! p = Some d -> 0 <= off -> off + lenZ bytes <= lenZ d ->
  Q tt (s <| s_heap ::= <[p := take (Z.to_nat off) d ++ bytes ++ drop (Z.to_nat (off + lenZ bytes)) d]> |>) ->
  wp (write_block p off bytes) Q s.
Proof.
  intros Hp H0 Hl HQ. unfold write_block. wp_pure. eapply wp_block; [done|].
  rewrite decide_True by done. by apply wp_modify.
Qed.

Lemma wp_alloc_block contents (Q : option ptr -> session -> Prop) s :
  (forall al, Q None (s <| s_alloc := al |>)) ->
  (forall al, Q (Some (s_next_ptr s)) (s <| s_alloc := al |> <| s_heap ::= <[s_next_ptr s := contents]> |>
     <| s_next_ptr := Pos.succ (s_next_ptr s) |>)) ->
  wp (alloc_block contents) Q s.
Proof.
  intros Hn Hs. unfold alloc_block. wp_pure. apply wp_alloc_outcome. intros [] al.
  - repeat wp_pure. apply Hs.
  - wp_pure. apply Hn.
Qed.

Lemma lenZ_write off (bytes d : list Z) :
  0 <= off -> off + lenZ bytes <= lenZ d ->
  lenZ (take (Z.to_nat off) d ++ bytes ++ drop (Z.to_nat (off + lenZ bytes)) d) = lenZ d.
Proof. intros. unfold lenZ in *. rewrite !length_app, length_take, length_drop. lia. Qed.

Lemma heap_ok_insert s p d :
  heap_ok s -> bytes_ok d -> (p < s_next_ptr s)%positive -> heap_ok (s <| s_heap ::= <[p := d]> |>).
Proof.
  intros [Hb Hf] Hd Hp. split; simpl; [by apply map_Forall_insert_2|].
  intros q Hq. rewrite lookup_insert_ne; [by apply Hf|lia].
Qed.

Lemma heap_live_lt s p d : heap_ok s -> s_heap s !! p = Some d -> (p < s_next_ptr s)%positive.
Proof. intros [_ Hf] Hp. destruct (decide (p < s_next_ptr s)%positive); [done|]. rewrite Hf in Hp; [done|lia]. Qed.

(** The states of the loop: [out] holds a block of [out_maxlen] bytes, the rest
    of the heap is [h]. *)
Record growing (limit : Z) (h : gmap ptr (list Z)) (out : ptr) (out_maxlen used : Z) (s : session) : Prop := {
  gr_heap : heap_ok s;
  gr_block : exists d, s_heap s = <[out := d]> h /\ lenZ d = out_maxlen;
  gr_fresh : h !! out = None;
  gr_used : 0 <= used <= out_maxlen;
  gr_max : 0 < out_maxlen <= 2 * limit
}.

Lemma growing_write limit h out m used bytes (Q : unit -> session -> Prop) s :
  growing limit h out m used s -> lenZ bytes <= m - used -> bytes_ok bytes ->
  (forall s', mem_only s s' -> growing limit h out m (used + lenZ bytes) s' -> Q tt s') ->
  wp (write_block out used bytes) Q s.
Proof.
  intros [Hh (d & Hd & Hl) Hf Hu Hm] Hb Hok HQ. pose proof (lenZ_nonneg bytes).
  assert (Hlook : s_heap s !! out = Some d) by (rewrite Hd; apply lookup_insert_eq).
  eapply wp_write_block; [done|lia|lia|]. apply HQ; [by destruct s|].
  assert (Hbd : bytes_ok d) by (by apply (heap_ok_bytes s Hh out)).
  split; simpl; try done; [|eexists; split; [by rewrite Hd, insert_insert_eq|rewrite lenZ_write; lia]|lia].
  apply heap_ok_insert; [done| |by eapply heap_live_lt].
  apply bytes_ok_app; split; [by apply Forall_take|].
  apply bytes_ok_app; split; [done|by apply Forall_drop].
Qed.

Lemma growing_free limit h out m used (Q : unit -> session -> Prop) s :
  growing limit h out m used s ->
  (forall s', mem_only s s' -> heap_ok s' -> s_heap s' = h -> Q tt s') -> wp (free_block out) Q s.
Proof.
  intros [Hh (d & Hd & Hl) Hf Hu Hm] HQ.
  eapply wp_free_block; [rewrite Hd; apply lookup_insert_eq|]. apply HQ; [by destruct s|..].
  - destruct Hh as [Hb Hfr]. split; simpl; [by apply map_Forall_delete|].
    intros q Hq. rewrite lookup_delete. case_decide; [done|by apply Hfr].
  - simpl. by rewrite Hd, delete_insert_id.
Qed.

Lemma growing_fail limit h out m used code msg strm s :
  growing limit h out m used s -> code = LIBSSH2_ERROR_ZLIB \/ code = LIBSSH2_ERROR_ALLOC ->
  wp (free_block out ;; let! rc := error code msg in ret (inl rc, strm)) (decomp_post limit h s) s.
Proof.
  intros Hg Hc. wp_pure. eapply growing_free; [done|]. intros s1 H1 Hok1 Hh1.
  wp_pure. apply wp_error_mem. intros s2 H2 Hh2 Hn2. wp_pure.
  split; [by etrans|]. split; [|simpl; by rewrite Hh2].
  destruct Hok1 as [Hb Hf]. split; [by rewrite Hh2|]. intros q. rewrite Hh2, Hn2. apply Hf.
Qed.

Lemma growing_realloc limit h out m used (Q : option ptr -> session -> Prop) s :
  growing limit h out m used s -> m <= limit ->
  (forall s', mem_only s s' -> growing limit h out m used s' -> Q None s') ->
  (forall q s', mem_only s s' -> growing limit h q (m * 2) used s' -> Q (Some q) s') ->
  wp (realloc_block out (m * 2)) Q s.
Proof.
  intros Hg Hm HN HS. destruct Hg as [[Hb Hfr] (d & Hd & Hl) Hf Hu Hmx].
  assert (Hlook : s_heap s !! out = Some d) by (rewrite Hd; apply lookup_insert_eq).
  assert (Hlt : (out < s_next_ptr s)%positive) by (by eapply heap_live_lt).
  unfold realloc_block. wp_pure. eapply wp_block; [done|]. wp_pure. apply wp_alloc_block; intros al.
  - wp_pure. apply HN; [by destruct s|]. split; simpl; try done. by exists d.
  - wp_pure. eapply wp_free_block; [simpl; rewrite lookup_insert_ne by lia; done|]. wp_pure.
    apply HS; [by destruct s|]. split; simpl; [| | |lia|lia].
    + split; simpl.
      * apply map_Forall_delete, map_Forall_insert_2; [|done].
        apply Forall_resize; [done|by apply (Hb out)].
      * intros q Hq. rewrite lookup_delete_ne, lookup_insert_ne by lia. apply Hfr. lia.
    + exists (resize (Z.to_nat (m * 2)) 0 d). split.
      * rewrite Hd, delete_insert_ne by lia. by rewrite delete_insert_id.
      * unfold lenZ. rewrite length_resize. lia.
    + specialize (Hfr (s_next_ptr s) ltac:(lia)). rewrite Hd in Hfr.
      by rewrite lookup_insert_ne in Hfr by lia.
Qed.

Section Decomp.
Context (inflate : list Z -> list Z -> Z -> inflated) `{!Inflate inflate}.

Lemma decomp_post_mem limit h s s1 r s2 :
  mem_only s s1 -> decomp_post limit h s1 r s2 -> decomp_post limit h s r s2.
Proof. intros H1 (H2 & ?). split; [by etrans|done]. Qed.

(** One round: the loop ends, or goes on with a buffer twice as large. *)
Lemma inflate_round limit h fuel out m used strm next_in s :
  growing limit h out m used s -> limit <= SIZE_MAX / 2 ->
  (m <= limit -> forall q used strm next_in s1, growing limit h q (m * 2) used s1 ->
    wp (inflate_loop inflate fuel limit q (m * 2) used strm next_in) (decomp_post limit h s1) s1) ->
  wp (inflate_loop inflate (S fuel) limit out m used strm next_in) (decomp_post limit h s) s.
Proof.
  intros Hg Hlim Hnext. cbn [inflate_loop]. set (r := inflate strm next_in (m - used)).
  destruct (inflate_fits strm next_in (m - used)) as [Hn Hb]; [apply gr_used in Hg; lia|].
  fold r in Hn, Hb. wp_pure. eapply growing_write; [done..|]. intros s1 Hs1 Hg1.
  eapply wp_mono; [|intros ? ?; by apply decomp_post_mem].
  assert (Hfin : wp (ret (inr (out, used + lenZ (in_out r)), in_strm r)) (decomp_post limit h s1) s1).
  { wp_pure. destruct Hg1 as [? (d & ? & <-) ? ? ?]. split; [done|split; [done|]]. exists d. repeat split; done || lia. }
  wp_pure.
  - wp_pure; [exact Hfin|]. wp_pure; [apply growing_fail with m (used + lenZ (in_out r)); auto|].
    breflect. wp_pure. eapply growing_realloc; [done|lia|..].
    + intros s2 Hs2 Hg2. eapply wp_mono; [eapply growing_fail; eauto|].
      intros ? ?. by apply decomp_post_mem.
    + intros q s2 Hs2 Hg2. eapply wp_mono; [apply Hnext; [lia|done]|].
      intros ? ?. by apply decomp_post_mem.
  - wp_pure; [exact Hfin|]. eapply growing_fail; eauto.
Qed.

Lemma inflate_loop_ok limit h fuel : forall out m used strm next_in s,
  growing limit h out m used s -> limit < m * 2 ^ Z.of_nat fuel -> limit <= SIZE_MAX / 2 ->
  wp (inflate_loop inflate (S fuel) limit out m used strm next_in) (decomp_post limit h s) s.
Proof.
  induction fuel as [|fuel IH]; intros out m used strm next_in s Hg Hfuel Hlim;
    apply inflate_round; try done; [simpl in Hfuel; lia|].
  intros Hm q used' strm' nin' s1 Hg1. apply IH; [done| |done].
  rewrite Nat2Z.inj_succ, Z.pow_succ_r in Hfuel by lia. lia.
Qed.

Lemma decomp_size_range limit n :
  25 <= limit -> 0 <= n -> 25 <= decomp_size limit n <= limit.
Proof. intros. unfold decomp_size. cbv zeta. repeat split_if; breflect; lia. Qed.

(** [decomp] returns within its rounds, with one new block or with none. *)
Lemma zlib_decomp_ok fuel limit strm src s :
  heap_ok s -> 25 <= limit <= SIZE_MAX / 2 -> limit < 25 * 2 ^ Z.of_nat fuel ->
  wp (comp_method_zlib_decomp inflate (S fuel) limit strm src) (decomp_post limit (s_heap s) s) s.
Proof.
  intros [Hb Hf] Hl Hfuel. unfold comp_method_zlib_decomp.
  pose proof (decomp_size_range limit (lenZ src) ltac:(lia) (lenZ_nonneg _)) as Hsz.
  wp_pure. apply wp_alloc_block; intros al.
  - wp_pure. apply wp_error_mem. intros s1 H1 Hh Hn. simpl in Hh, Hn. wp_pure.
    split; [etrans; [|done]; by destruct s|]. split; [|simpl; auto].
    split; [by rewrite Hh|]. intros q. rewrite Hh, Hn. apply Hf.
  - eapply wp_mono; [apply (inflate_loop_ok limit (s_heap s))|intros ? ?; apply decomp_post_mem; by destruct s];
      [|assert (0 < 2 ^ Z.of_nat fuel) by (apply Z.pow_pos_nonneg; lia); nia|lia].
    split; simpl; [| |by apply Hf|lia|lia].
    + split; simpl.
      * apply map_Forall_insert_2; [by apply Forall_replicate|done].
      * intros q Hq. rewrite lookup_insert_ne by lia. apply Hf. lia.
    + eexists; split; [done|]. unfold lenZ at 1. rewrite length_replicate. lia.
Qed.
End Decomp.

(** An [inflate] that puts out the number of zero bytes its stream says. *)
Definition zeros_inflate (strm next_in : list Z) (avail_out : Z) : inflated :=
  let left := default 0 (head strm) in
  let n := Z.min (Z.max 0 left) (Z.max 0 avail_out) in
  mk_inflated Z_OK (replicate (Z.to_nat n) 0) [] [left - n].

#[export] Instance zeros_inflate_ok : Inflate zeros_inflate.
Proof.
  intros strm next_in n Hn. unfold zeros_inflate. simpl. split; [|by apply Forall_replicate].
  unfold lenZ. rewrite length_replicate. lia.
Qed.

(** Decompressing a packet always ends: after at most 12 rounds
    [comp_method_zlib_decomp] returns, whatever zlib produces. On an error the
    heap is as before and the code is one of two; on success there is exactly one
    new block, which the reported length does not exceed and which has at most
    twice [LIBSSH2_PACKET_MAXDECOMP] bytes. Nothing else of the session moves
    but the allocator and the error fields. *)
Theorem zlib_decomp_bounded inflate `{!Inflate inflate} strm src s :
  heap_ok s ->
  exists r strm' s',
    comp_method_zlib_decomp inflate decomp_rounds LIBSSH2_PACKET_MAXDECOMP strm src s = Ret (r, strm') s' /\
    mem_only s s' /\
    match r with
    | inl rc => s_heap s' = s_heap s /\ (rc = LIBSSH2_ERROR_ZLIB \/ rc = LIBSSH2_ERROR_ALLOC)
    | inr (q, n) => exists d, s_heap s' = <[q := d]> (s_heap s) /\ s_heap s !! q = None /\
        0 <= n <= lenZ d /\ lenZ d <= 2 * LIBSSH2_PACKET_MAXDECOMP
    end.
Proof.
  intros Hok. destruct (wp_Ret _ _ _ (zlib_decomp_ok inflate 11 LIBSSH2_PACKET_MAXDECOMP strm src s Hok
    ltac:(done) ltac:(done))) as ([r strm'] & s' & Hr & Hm & _ & Hpost).
  exists r, strm', s'. split; [exact Hr|]. split; [exact Hm|exact Hpost].
Qed.

Lemma zlib_decomp_bounded_witness :
  exists r strm' s',
    comp_method_zlib_decomp zeros_inflate decomp_rounds LIBSSH2_PACKET_MAXDECOMP [60] [1; 2] session_0
      = Ret (r, strm') s' /\ mem_only session_0 s'.
Proof.
  destruct (zlib_decomp_bounded zeros_inflate [60] [1; 2] session_0) as (r & strm' & s' & H & Hm & _).
  - split; [done|]. intros p _. by apply lookup_empty.
  - exists r, strm', s'. split; [exact H|exact Hm].
Defined.

(** The payload limit is not a limit: a packet that inflates to 51,000 bytes
    is accepted by a call with the limit [LIBSSH2_PACKET_MAXDECOMP] of 40,000,
    since the check looks at the buffer before it is doubled. *)
Theorem zlib_decomp_exceeds_limit :
  LIBSSH2_PACKET_MAXDECOMP < 51000 /\
  exists q strm s', comp_method_zlib_decomp zeros_inflate decomp_rounds LIBSSH2_PACKET_MAXDECOMP
    [51000] [1; 2] session_0 = Ret (inr (q, 51000), strm) s'.
Proof.
  split; [done|].
  assert (H : match comp_method_zlib_decomp zeros_inflate decomp_rounds LIBSSH2_PACKET_MAXDECOMP
      [51000] [1; 2] session_0 with
    | Ret (inr (_, n), _) _ => n =? 51000
    | _ => false
    end = true) by (vm_compute; reflexivity).
  destruct (comp_method_zlib_decomp _ _ _ _ _ _) as [[[|[q n]] strm] s'| |]; try discriminate H.
  apply Z.eqb_eq in H as ->. eauto.
Qed.
