(* ===== verification/PacketSafety.v ===== *)
(** * Memory safety and ownership of [_libssh2_packet_add]

    On its first call for a packet, [_libssh2_packet_add] stays inside the
    payload, touches only live channels, and disposes of the payload exactly
    once, as its comment promises. *)

From stdpp Require Import base numbers list gmap strings.
From S2P Require Import Prelude Codes Wire Session ChannelWindow Packet PacketAdd Conn.

(** ** Stepping *)

Ltac wp_step :=
  cbn beta iota;
  lazymatch goal with
  | |- wp (set_packAdd _) _ _ => unfold set_packAdd
  | |- wp (set_ql _) _ _ => unfold set_ql
  | |- wp (set_x11 _) _ _ => unfold set_x11
  | |- wp (event_log _) _ _ => unfold event_log
  | |- _ => wp_pure
  end.
Ltac wps := repeat wp_step.
(** Steps up to a continuation with a known rule. *)
Ltac wps_to H := repeat (cbn beta iota; first [apply H | wp_step]).

(** Quiet changes of single fields. *)
Ltac quiet_fields := apply same_conn_quiet; split; done.

(** A channel update keeps [chan_ok]: the fields are kept or wrapped. *)
Ltac solve_chan_ok :=
  intros [[? ? ? ?] [? ? ? ?] ? ?]; split; simpl; [split|split|..]; simpl;
  solve [done | apply u32_range].

(** ** Preconditions and postconditions *)

(** [data] is a live, unqueued payload with at least [datalen] bytes. *)
Record add_pre (data : ptr) (d : list Z) (datalen : Z) (s : session) : Prop := {
  pre_ok : conn_ok s;
  pre_send : can_send s;
  pre_live : s_heap s !! data = Some d;
  pre_len : 0 <= datalen <= lenZ d;
  pre_size : 1 <= lenZ d < 2 ^ 32;
  pre_own : data ∉ pk_data <$> packets s
}.

Lemma add_pre_quiet data d datalen s s' :
  add_pre data d datalen s -> quiet s s' -> add_pre data d datalen s'.
Proof.
  intros [? ? ? ? ? ?] Hq. split; try done; [by apply Hq|by eapply quiet_can_send|..].
  - by rewrite (quiet_heap _ _ Hq).
  - by rewrite (quiet_packets _ _ Hq).
Qed.

Lemma add_pre_bytes data d datalen s : add_pre data d datalen s -> bytes_ok d.
Proof. intros [Hok _ Hl _ _ _]. by apply (ok_heap s Hok data). Qed.

(** The payload was freed, and nothing else of the heap or the queue. *)
Record released (data : ptr) (s s' : session) : Prop := {
  released_ok : conn_ok s';
  released_heap : s_heap s' = delete data (s_heap s);
  released_packets : packets s' = packets s
}.

(** What a case of the switch may do. [EAGAIN] keeps the payload, except at the
    first jump point, where it has been freed. *)
Definition switch_post (data : ptr) (datalen : Z) (s : session) (r : switch_result)
    (s' : session) : Prop :=
  match r with
  | SReturn rc =>
      if rc =? LIBSSH2_ERROR_EAGAIN
      then quiet s s' \/ (packAdd_state s' = libssh2_NB_state_jump1 /\ released data s s')
      else released data s s'
  | SQueue n h => quiet s s' /\ 0 <= h <= n /\ n <= datalen
  end.

Lemma released_quiet_l data s s1 s2 : quiet s s1 -> released data s1 s2 -> released data s s2.
Proof.
  intros Hq [? Hh Hp]. split; [done|..].
  - by rewrite Hh, (quiet_heap _ _ Hq).
  - by rewrite Hp, (quiet_packets _ _ Hq).
Qed.

Lemma released_quiet_r data s s1 s2 : released data s s1 -> quiet s1 s2 -> released data s s2.
Proof.
  intros [? ? ?] Hq. split; [by apply Hq|..].
  - by rewrite (quiet_heap _ _ Hq).
  - by rewrite (quiet_packets _ _ Hq).
Qed.

Lemma switch_post_quiet data datalen s s1 r s2 :
  quiet s s1 -> switch_post data datalen s1 r s2 -> switch_post data datalen s r s2.
Proof.
  intros Hq. unfold switch_post. destruct r as [rc|n h].
  - destruct (rc =? _).
    + intros [H|[? H]]; [left; by etrans|right; eauto using released_quiet_l].
    + eauto using released_quiet_l.
  - intros [? ?]. split; [by etrans|done].
Qed.

(** Starting a case from a state reached quietly. *)
Lemma wp_switch_quiet data datalen s s1 m :
  quiet s s1 -> wp m (switch_post data datalen s1) s1 -> wp m (switch_post data datalen s) s1.
Proof. intros Hq H. eapply wp_mono; [done|]. intros r s2. by apply switch_post_quiet. Qed.

(** Freeing the payload. *)
Lemma free_conn_ok data s :
  conn_ok s -> data ∉ pk_data <$> packets s -> conn_ok (s <| s_heap ::= delete data |>).
Proof.
  intros [H1 H2 H3 H4 H5 H6 H7 H8 H9] Hown. split; simpl; try done.
  - by apply map_Forall_delete.
  - rewrite Forall_forall in *. intros p Hp.
    destruct (H5 p Hp) as (d & Hd & ?). exists d. split; [|done].
    rewrite lookup_delete_ne; [done|]. intros ->. apply Hown.
    apply list_elem_of_fmap. eauto.
  - intros q Hq. rewrite lookup_delete. case_decide; [done|by apply H9].
Qed.

Lemma wp_drop_packet data d datalen rc s :
  add_pre data d datalen s -> rc <> LIBSSH2_ERROR_EAGAIN ->
  wp (drop_packet data rc) (switch_post data datalen s) s.
Proof.
  intros Hpre Hrc. unfold drop_packet. wp_step. eapply wp_free_block; [apply Hpre|]. wps.
  simpl. destruct (Z.eqb_spec rc LIBSSH2_ERROR_EAGAIN); [done|].
  split; simpl; try done.
  eapply same_conn_ok; [|apply free_conn_ok; apply Hpre]. by split.
Qed.

(** ** Reading strings *)

Lemma wp_get_string_ignore buf (Q : cbuf * string_buf -> session -> Prop) s :
  sb_ok buf -> bytes_ok (sb_data buf) ->
  (forall v buf', sb_ok buf' -> bytes_ok (sb_data buf') -> Q (v, buf') s) ->
  wp (get_string_ignore buf) Q s.
Proof.
  intros Hok Hb HQ. unfold get_string_ignore. wp_step.
  destruct (get_string_ok buf None Hok Hb) as (rc & v & buf' & -> & _ & Hok' & Hd & _).
  apply wp_ret. apply HQ; [done|by rewrite Hd].
Qed.

Lemma wp_get_u32 buf out (Q : Z * Z * string_buf -> session -> Prop) s :
  sb_ok buf -> bytes_ok (sb_data buf) ->
  (forall rc v buf', sb_ok buf' -> bytes_ok (sb_data buf') ->
     (rc = 0 -> is_u32 v) -> Q (rc, v, buf') s) ->
  wp (access (get_u32 buf out)) Q s.
Proof.
  intros Hok Hb HQ.
  destruct (get_u32_ok buf out Hok) as (rc & v & buf' & E & _ & Hok' & Hd & _).
  rewrite E. apply wp_ret. apply HQ; [done|by rewrite Hd|].
  intros ->. by eapply get_u32_value.
Qed.

Lemma payload_buf_ok data d datalen s off :
  add_pre data d datalen s -> 0 <= off <= datalen -> sb_ok (mk_string_buf d off datalen).
Proof. intros [_ _ _ ? ? _] ?. split; simpl; lia. Qed.

Lemma wp_ntohu32 d off (Q : Z -> session -> Prop) s :
  bytes_ok d -> 0 <= off -> off + 4 <= lenZ d -> (forall v, is_u32 v -> Q v s) ->
  wp (access (ntohu32 d off)) Q s.
Proof.
  intros Hb ? ? HQ. destruct (ntohu32_in d off) as [v Hv]; [lia..|].
  rewrite Hv. apply wp_ret, HQ. by eapply ntohu32_range.
Qed.

Lemma wp_byte_at d off (Q : Z -> session -> Prop) s :
  0 <= off < lenZ d -> (forall b, Q b s) -> wp (access (byte_at d off)) Q s.
Proof. intros H HQ. destruct (byte_at_in d off H) as [b ->]. apply wp_ret, HQ. Qed.

Lemma wp_bytes_at d off len (Q : list Z -> session -> Prop) s :
  0 <= off -> 0 <= len -> off + len <= lenZ d -> Q (slice off len d) s ->
  wp (access (bytes_at d off len)) Q s.
Proof. intros ? ? ? HQ. rewrite bytes_at_in by done. by apply wp_ret. Qed.

(** ** The simple cases *)

Section Cases.
Context (data : ptr) (d : list Z) (datalen : Z).
Implicit Types s : session.

Lemma add_disconnect_ok s :
  add_pre data d datalen s -> wp (add_disconnect data datalen) (switch_post data datalen s) s.
Proof.
  intros Hpre. pose proof (add_pre_bytes _ _ _ _ Hpre) as Hb. pose proof Hpre as [_ _ Hl ? ? _].
  unfold add_disconnect. wp_step. eapply wp_block; [done|].
  assert (Hend : forall s1, quiet s s1 ->
    wp (free_block data ;;
        modify (fun s => s <| socket_state := LIBSSH2_SOCKET_DISCONNECTED |>) ;;
        set_packAdd libssh2_NB_state_idle ;;
        let! rc := error LIBSSH2_ERROR_SOCKET_DISCONNECT "socket disconnect" in
        ret (SReturn rc)) (switch_post data datalen s) s1).
  { intros s1 Hq. apply (wp_switch_quiet _ _ _ _ _ Hq).
    eapply add_pre_quiet in Hq; [|exact Hpre]. wp_step. eapply wp_free_block; [apply Hq|]. wps.
    apply wp_error. intros s' Hs' _. wps. simpl.
    eapply released_quiet_r with (s1 <| s_heap ::= delete data |>).
    - split; [by apply free_conn_ok; apply Hq|done..].
    - etrans; [|by apply same_conn_quiet]. quiet_fields. }
  wp_step. wp_step; [|wps_to Hend; done].
  breflect. wp_step. apply wp_get_u32; [eapply payload_buf_ok; [done|lia]|done|].
  intros rc v buf Hbuf Hbb _. wp_step. apply wp_get_string_ignore; [done..|].
  intros m buf1 Hbuf1 Hbb1. simpl. wp_step. apply wp_get_string_ignore; [done..|].
  intros l buf2 _ _. wps_to Hend; [quiet_fields|reflexivity].
Qed.

(** The way most cases end. *)
Lemma drop_ok s s1 rc :
  add_pre data d datalen s -> quiet s s1 -> rc <> LIBSSH2_ERROR_EAGAIN ->
  wp (drop_packet data rc) (switch_post data datalen s) s1.
Proof.
  intros Hpre Hq Hrc. apply (wp_switch_quiet _ _ _ _ _ Hq).
  eapply wp_drop_packet; [by eapply add_pre_quiet|done].
Qed.

Lemma add_ignore_ok s :
  add_pre data d datalen s -> wp (add_ignore data datalen) (switch_post data datalen s) s.
Proof.
  intros Hpre. pose proof Hpre as [_ _ Hl ? ? _].
  unfold add_ignore. wp_step. eapply wp_block; [done|]. wps_to drop_ok; breflect; try done.
  - apply wp_bytes_at; [lia..|]. wps_to drop_ok; [done|quiet_fields|done].
  - quiet_fields.
Qed.

Lemma add_debug_ok s :
  add_pre data d datalen s -> wp (add_debug data datalen) (switch_post data datalen s) s.
Proof.
  intros Hpre. pose proof (add_pre_bytes _ _ _ _ Hpre) as Hb. pose proof Hpre as [_ _ Hl ? ? _].
  unfold add_debug. wp_step. eapply wp_block; [done|]. wps_to drop_ok; breflect; try done.
  apply wp_byte_at; [lia|]. intros b. wps_to drop_ok; breflect; try done; [|quiet_fields].
  apply wp_get_string_ignore; [eapply payload_buf_ok; [done|lia]|done|].
  intros m buf Hbuf Hbb. wp_step. apply wp_get_string_ignore; [done..|].
  intros l buf2 _ _. wps_to drop_ok; done || quiet_fields.
Qed.

Lemma ext_info_loop_ok n buf s :
  sb_ok buf -> bytes_ok (sb_data buf) ->
  wp (ext_info_loop n buf) (fun rc s' => rc <> LIBSSH2_ERROR_EAGAIN /\ quiet s s') s.
Proof.
  revert buf s. induction n as [|n IH]; intros buf s Hok Hb; simpl; [by apply wp_ret|].
  wp_step. apply wp_get_string_ignore; [done..|]. intros name buf1 Hok1 Hb1.
  wp_step. apply wp_get_string_ignore; [done..|]. intros v buf2 Hok2 Hb2.
  wp_step; [|by apply IH]. wp_step. apply wp_alloc_outcome. intros ok al.
  wps.
  - eapply wp_mono; [by apply IH|]. intros rc s' [? Hq]. split; [done|].
    etrans; [|exact Hq]. quiet_fields.
  - apply wp_error. intros s' Hs' _. split; [done|].
    etrans; [|by apply same_conn_quiet]. quiet_fields.
Qed.

Lemma add_ext_info_ok s :
  add_pre data d datalen s -> wp (add_ext_info data datalen) (switch_post data datalen s) s.
Proof.
  intros Hpre. pose proof (add_pre_bytes _ _ _ _ Hpre) as Hb. pose proof Hpre as [_ _ Hl ? ? _].
  unfold add_ext_info. wp_step. eapply wp_block; [done|]. wps_to drop_ok; breflect; try done.
  apply wp_get_u32; [eapply payload_buf_ok; [done|lia]|done|]. intros rc v buf Hok' Hb' _.
  wp_step.
  - apply wp_error. intros s' Hs' _. apply drop_ok; [done|by apply same_conn_quiet|done].
  - eapply wp_mono; [by apply ext_info_loop_ok|]. intros rc' s' [? ?]. by apply drop_ok.
Qed.

(** *** Channel bookkeeping *)

Lemma locate_header_ok s min (Q : option ptr -> session -> Prop) :
  add_pre data d datalen s -> 5 <= min ->
  (forall p c, s_chans s !! p = Some c -> Q (Some p) s) -> Q None s ->
  wp (locate_header data datalen min) Q s.
Proof.
  intros Hpre Hm Hs Hn. pose proof (add_pre_bytes _ _ _ _ Hpre) as Hb.
  pose proof Hpre as [Hok _ Hl ? ? _]. unfold locate_header. wps; [|done]. breflect.
  eapply wp_block; [done|]. wps. apply wp_ntohu32; [done|lia..|]. intros id _.
  apply wp_channel_locate; [done| |done]. intros p c ? _. by eapply Hs.
Qed.

Lemma add_channel_eof_ok s :
  add_pre data d datalen s -> wp (add_channel_eof data datalen) (switch_post data datalen s) s.
Proof.
  intros Hpre. unfold add_channel_eof. wp_step. apply locate_header_ok; [done|lia|..].
  - intros p c Hp. wp_step. eapply wp_set_chan; [done|]. apply drop_ok; [done| |done].
    eapply quiet_set_chan; [done|]. solve_chan_ok.
  - wps_to drop_ok; done.
Qed.

Lemma add_channel_close_ok s :
  add_pre data d datalen s -> wp (add_channel_close data datalen) (switch_post data datalen s) s.
Proof.
  intros Hpre. unfold add_channel_close. wp_step. apply locate_header_ok; [done|lia|..].
  - intros p c Hp. wp_step. eapply wp_set_chan; [done|]. apply drop_ok; [done| |done].
    eapply quiet_set_chan; [done|]. solve_chan_ok.
  - wps_to drop_ok; done.
Qed.

Lemma add_window_adjust_ok s :
  add_pre data d datalen s -> wp (add_window_adjust data datalen) (switch_post data datalen s) s.
Proof.
  intros Hpre. pose proof (add_pre_bytes _ _ _ _ Hpre) as Hb. pose proof Hpre as [Hok _ Hl ? ? _].
  unfold add_window_adjust. wps_to drop_ok; try done. breflect.
  eapply wp_block; [done|]. wps. apply wp_ntohu32; [done|lia..|]. intros n _. wps.
  apply wp_ntohu32; [done|lia..|]. intros id _. wps. apply wp_channel_locate; [done|..].
  - intros p c Hp _. eapply wp_set_chan; [done|]. apply drop_ok; [done| |done].
    eapply quiet_set_chan; [done|]. solve_chan_ok.
  - wps_to drop_ok; done.
Qed.

(** *** Cases that send *)

Context (transport_send : list Z -> list Z -> CM Z) `{!Transport transport_send}.

(** A send in the middle of a case. *)
Lemma wp_send a b (Q : Z -> session -> Prop) s :
  can_send s -> (forall rc s', same_conn s s' -> same_suspended s s' -> Q rc s') ->
  wp (transport_send a b) Q s.
Proof.
  intros Hs HQ. eapply wp_mono; [by apply transport_send_frame|]. intros rc s' [? ?]. by apply HQ.
Qed.

Lemma jump_point5_ok s s1 :
  add_pre data d datalen s -> quiet s s1 ->
  wp (jump_point5 transport_send data) (switch_post data datalen s) s1.
Proof.
  intros Hpre Hq. unfold jump_point5. wps. apply wp_send; [exact (quiet_can_send _ _ Hq (pre_send _ _ _ _ Hpre))|].
  intros rc s2 Hs2 _.
  assert (quiet s s2). { etrans; [exact Hq|]. etrans; [|by apply same_conn_quiet]. quiet_fields. }
  wps_to drop_ok; try done. simpl. rewrite E. by left.
Qed.

Lemma add_global_request_ok s :
  add_pre data d datalen s ->
  wp (add_global_request transport_send data datalen) (switch_post data datalen s) s.
Proof.
  intros Hpre. pose proof (add_pre_bytes _ _ _ _ Hpre) as Hb. pose proof Hpre as [Hok _ Hl ? ? _].
  unfold add_global_request. wps_to drop_ok; try done. breflect.
  eapply wp_block; [done|]. wps. apply wp_ntohu32; [done|lia..|]. intros len Hlen.
  unfold is_u32 in *. wps_to drop_ok; breflect; try done.
  apply wp_byte_at; [lia|]. intros b. wps_to drop_ok; try done. by apply jump_point5_ok.
Qed.

Lemma jump_point4_ok s s1 :
  add_pre data d datalen s -> quiet s s1 -> 5 <= datalen ->
  wp (jump_point4 transport_send data) (switch_post data datalen s) s1.
Proof.
  intros Hpre Hq H5. unfold jump_point4. pose proof Hpre as [_ _ Hl ? ? _].
  wps. eapply wp_block; [by rewrite <- Hl, <- (quiet_heap _ _ Hq)|].
  wps. apply wp_bytes_at; [lia..|]. wps. apply wp_send; [exact (quiet_can_send _ _ Hq (pre_send _ _ _ _ Hpre))|].
  intros rc s2 Hs2 _.
  assert (quiet s s2). { etrans; [exact Hq|]. etrans; [|by apply same_conn_quiet]. quiet_fields. }
  wps_to drop_ok; breflect; try done. simpl. subst. by left.
Qed.

Lemma request_is_ok len name s (Q : bool -> session -> Prop) :
  datalen <= lenZ d -> (forall b, Q b s) -> wp (request_is d datalen len name) Q s.
Proof.
  intros Hd HQ. unfold request_is. wps; [|by apply HQ]. breflect.
  pose proof (lenZ_nonneg name). apply wp_bytes_at; [lia..|]. wps. apply HQ.
Qed.

Lemma request_exit_status_ok s id :
  add_pre data d datalen s ->
  wp (request_exit_status d datalen id) (fun rc s' => rc <> LIBSSH2_ERROR_EAGAIN /\ quiet s s') s.
Proof.
  intros Hpre. pose proof (add_pre_bytes _ _ _ _ Hpre) as Hb. pose proof Hpre as [Hok _ Hl ? ? _].
  unfold request_exit_status. change (lenZ (str "exit-status")) with 11. wps; [|done]. breflect.
  apply wp_channel_locate; [done| |by wps]. intros p c Hp _. wps; [|done]. breflect.
  apply wp_ntohu32; [done|lia..|]. intros st Hst. wps.
  eapply wp_set_chan; [done|]. wps. split; [done|].
  eapply quiet_set_chan; [done|]. solve_chan_ok.
Qed.

Lemma request_exit_signal_ok s id :
  add_pre data d datalen s ->
  wp (request_exit_signal d datalen id) (fun rc s' => rc <> LIBSSH2_ERROR_EAGAIN /\ quiet s s') s.
Proof.
  intros Hpre. pose proof (add_pre_bytes _ _ _ _ Hpre) as Hb. pose proof Hpre as [Hok _ Hl ? ? _].
  unfold request_exit_signal. change (lenZ (str "exit-signal")) with 11. wps; [|done]. breflect.
  apply wp_channel_locate; [done| |by wps]. intros p c Hp _. wps; [|done]. breflect.
  apply wp_ntohu32; [done|lia..|]. intros n Hn. unfold is_u32 in Hn. wp_step.
  assert (Hfail : forall s1, quiet s s1 -> s_chans s1 !! p = Some c ->
    wp (set_chan p (fun c => c <| exit_signal := None |>) ;;
        error LIBSSH2_ERROR_ALLOC "memory for signal name")
      (fun rc s' => rc <> LIBSSH2_ERROR_EAGAIN /\ quiet s s') s1).
  { intros s1 Hq Hp1. wp_step. eapply wp_set_chan; [done|]. apply wp_error. intros s' Hs' _.
    split; [done|]. etrans; [exact Hq|]. etrans; [|by apply same_conn_quiet].
    eapply quiet_set_chan; [done|]. solve_chan_ok. }
  wp_step; [|by wp_step; apply Hfail]. apply wp_alloc_outcome. intros ok al.
  destruct ok; [|apply Hfail; [quiet_fields|done]]. wp_step.
  eapply wp_set_chan; [done|]. wps; breflect.
  - apply wp_bytes_at; [lia..|]. wps. eapply wp_set_chan; [apply lookup_insert_eq|]. wps.
    split; [done|]. etrans; [|eapply quiet_set_chan; [apply lookup_insert_eq|solve_chan_ok]].
    etrans; [|eapply quiet_set_chan; [exact Hp|solve_chan_ok]]. quiet_fields.
  - split; [done|]. etrans; [|eapply quiet_set_chan; [exact Hp|solve_chan_ok]]. quiet_fields.
Qed.

Lemma add_channel_request_ok s :
  add_pre data d datalen s ->
  wp (add_channel_request transport_send data datalen) (switch_post data datalen s) s.
Proof.
  intros Hpre. pose proof (add_pre_bytes _ _ _ _ Hpre) as Hb. pose proof Hpre as [Hok _ Hl ? ? _].
  unfold add_channel_request. wps_to drop_ok; try done. breflect.
  eapply wp_block; [done|]. wps. apply wp_ntohu32; [done|lia..|]. intros id _.
  wps. apply wp_ntohu32; [done|lia..|]. intros len _.
  assert (Hrest : forall want, wp
    (let! is_status := request_is d datalen len (str "exit-status") in
     let! rc :=
       (if (is_status : bool) then request_exit_status d datalen id
        else
          let! is_signal := request_is d datalen len (str "exit-signal") in
          if (is_signal : bool) then request_exit_signal d datalen id else ret 0) in
     if negb (want =? 0) then jump_point4 transport_send data else drop_packet data rc)
    (switch_post data datalen s) s).
  { intros want.
    assert (Hend : forall rc s', rc <> LIBSSH2_ERROR_EAGAIN /\ quiet s s' ->
      wp (if negb (want =? 0) then jump_point4 transport_send data else drop_packet data rc)
        (switch_post data datalen s) s').
    { intros rc s' [? ?]. wps_to drop_ok; try done. apply jump_point4_ok; [done..|lia]. }
    wps. apply request_is_ok; [lia|]. intros [].
    - wps. eapply wp_mono; [by apply request_exit_status_ok|]. apply Hend.
    - wps. apply request_is_ok; [lia|]. intros []; [|by apply Hend].
      eapply wp_mono; [by apply request_exit_signal_ok|]. apply Hend. }
  pose proof (u32_range (len + 9)).
  wp_step. wp_step; [|wp_step; apply Hrest]. breflect.
  apply wp_byte_at; [lia|]. intros b. apply Hrest.
Qed.

(** *** The receive window *)

Definition quiet_kept s s' : Prop :=
  quiet s s' /\ same_suspended s s' /\ channels s' = channels s /\ listeners s' = listeners s /\
  (forall q, is_Some (s_chans s !! q) -> is_Some (s_chans s' !! q)).

Lemma quiet_kept_conn s s' : same_conn s s' -> same_suspended s s' -> quiet_kept s s'.
Proof. intros H ?. split_and!; [by apply same_conn_quiet|done|apply H|apply H|]. intros q. by rewrite (same_chans _ _ H). Qed.

#[local] Instance quiet_kept_trans : Transitive quiet_kept.
Proof. intros s1 s2 s3 (?&?&?&?&?) (?&?&?&?&?). split_and!; [by etrans|by etrans|congruence..|auto]. Qed.

Lemma quiet_kept_chan s p c c' :
  s_chans s !! p = Some c -> (chan_ok c -> chan_ok c') ->
  quiet_kept s (s <| s_chans ::= <[p := c']> |>).
Proof.
  intros Hp Hc. split_and!; [by eapply quiet_set_chan|by split|done..|].
  intros q Hq. simpl. rewrite lookup_insert. by case_decide.
Qed.

Lemma window_adjust_send_ok p adj s :
  can_send s -> is_u32 adj -> is_Some (s_chans s !! p) ->
  wp (window_adjust_send transport_send p adj) (fun _ s' => quiet_kept s s') s.
Proof.
  intros Hk Ha [c Hp]. unfold window_adjust_send. wp_step. eapply wp_chan; [done|]. wp_step.
  apply wp_send; [done|]. intros rc s1 H1 H1'. pose proof (quiet_kept_conn _ _ H1 H1') as Hq.
  rewrite <- (same_chans _ _ H1) in Hp. wps.
  - apply wp_error. intros s2 ? ?. wps. etrans; [exact Hq|by apply quiet_kept_conn].
  - eapply wp_set_chan; [done|]. apply wp_error. intros s2 ? ?. wps. etrans; [exact Hq|].
    etrans; [|by apply quiet_kept_conn]. eapply quiet_kept_chan; [done|]. solve_chan_ok.
  - eapply wp_set_chan; [done|]. wps. eapply wp_set_chan; [apply lookup_insert_eq|]. wps.
    etrans; [|eapply quiet_kept_chan; [apply lookup_insert_eq|solve_chan_ok]].
    etrans; [exact Hq|]. eapply quiet_kept_chan; [done|]. solve_chan_ok.
Qed.

Lemma channel_receive_window_adjust_ok p adj force s :
  can_send s -> is_Some (s_chans s !! p) ->
  wp (channel_receive_window_adjust transport_send p adj force) (fun _ s' => quiet_kept s s') s.
Proof.
  intros Hk [c Hp]. unfold channel_receive_window_adjust. wp_step. eapply wp_chan; [done|].
  assert (quiet_kept s s) by by apply quiet_kept_conn.
  wps; try done.
  - eapply wp_set_chan; [done|]. wps. eapply quiet_kept_chan; [done|]. solve_chan_ok.
  - eapply wp_set_chan; [done|]. eapply wp_mono.
    + apply window_adjust_send_ok; [done|apply u32_range|]. simpl. rewrite lookup_insert_eq. eauto.
    + intros rc s' Hs'. etrans; [|exact Hs']. eapply quiet_kept_chan; [done|]. solve_chan_ok.
  - apply window_adjust_send_ok; [done|apply u32_range|eauto].
Qed.

(** *** Data *)

Lemma ignore_extended_data_ok s p c head :
  add_pre data d datalen s -> s_chans s !! p = Some c ->
  wp (ignore_extended_data transport_send data p c datalen head) (switch_post data datalen s) s.
Proof.
  intros Hpre Hp. pose proof Hpre as [Hok Hk Hl _ _ Hown]. unfold ignore_extended_data. wp_step.
  eapply wp_free_block; [done|]. wp_step. eapply wp_set_chan; [done|].
  match goal with |- wp _ _ ?s1 => assert (Hr : released data s s1) end.
  { eapply released_quiet_r with (s <| s_heap ::= delete data |>).
    - split; simpl; [by apply free_conn_ok|done..].
    - eapply quiet_set_chan; [exact Hp|solve_chan_ok]. }
  wps. unfold jump_point1. wps. eapply wp_access; [done|]. wp_step.
  match goal with |- wp _ _ ?s1 => assert (Hr' : released data s s1) end.
  { eapply released_quiet_r; [exact Hr|quiet_fields]. }
  clear Hr. rename Hr' into Hr. eapply wp_mono.
  { apply channel_receive_window_adjust_ok; [done|]. simpl. rewrite lookup_insert_eq. eauto. }
  intros rc s' (Hq & Hsus & _). eapply released_quiet_r in Hr; [|exact Hq]. wps; simpl.
  - rewrite E. right. split; [|done]. by rewrite (same_packAdd _ _ Hsus).
  - eapply released_quiet_r; [exact Hr|quiet_fields].
Qed.

Lemma truncated_len w a dl h :
  is_u32 w -> is_u32 a -> a < w -> 0 <= h <= 13 -> h <= dl < 2 ^ 33 -> w < u64 (a + dl - h) ->
  h <= u64 (u32 (w - a) + h) <= dl.
Proof.
  unfold is_u32. intros Hw Ha Hlt Hh Hdl Ht. rewrite u64_small in Ht by lia.
  rewrite u32_small, u64_small by lia. lia.
Qed.

(** The window part of the data case. *)
Lemma queue_data_ok s s1 p c dl head :
  add_pre data d datalen s -> quiet s s1 -> s_chans s1 !! p = Some c ->
  0 <= head <= 13 -> head <= dl <= datalen ->
  wp (if cd_window_size (remote c) <=? read_avail c then
        error LIBSSH2_ERROR_CHANNEL_WINDOW_EXCEEDED
          "The current receive window is full, data ignored" ;;
        drop_packet data 0
      else
        set_chan p (fun c => c <| remote ::= fun r => r <| cd_eof := false |> |>) ;;
        let! dl :=
          (if cd_window_size (remote c) <? u64 (read_avail c + dl - head) then
             error LIBSSH2_ERROR_CHANNEL_WINDOW_EXCEEDED
               "Remote sent more data than current window allows, truncating" ;;
             ret (u64 (u32 (cd_window_size (remote c) - read_avail c) + head))
           else ret dl) in
        set_chan p (fun c => c <| read_avail := u32 (read_avail c + (dl - head)) |>) ;;
        ret (SQueue dl head)) (switch_post data datalen s) s1.
Proof.
  intros Hpre Hq Hp Hh Hdl. pose proof Hpre as [Hok _ _ ? ? _].
  destruct (chan_lookup_ok s1 p c (quiet_ok _ _ Hq Hok) Hp) as [_ [_ _ Hw _] Ha _].
  wp_step; breflect.
  - wp_step. apply wp_error. intros s2 Hs2 _. apply drop_ok; [done| |done].
    etrans; [exact Hq|by apply same_conn_quiet].
  - wp_step. eapply wp_set_chan; [done|].
    match goal with |- wp _ _ ?s2 => assert (Hq2 : quiet s s2) end.
    { etrans; [exact Hq|]. eapply quiet_set_chan; [done|solve_chan_ok]. }
    wps; breflect.
    + apply wp_error. intros s3 Hs3 _. wps.
      eapply wp_set_chan; [rewrite (same_chans _ _ Hs3); apply lookup_insert_eq|]. wps. split.
      * etrans; [exact Hq2|]. etrans; [by apply same_conn_quiet|].
        eapply quiet_set_chan; [rewrite (same_chans _ _ Hs3); apply lookup_insert_eq|solve_chan_ok].
      * pose proof (truncated_len _ _ dl head Hw Ha). lia.
    + eapply wp_set_chan; [apply lookup_insert_eq|]. wps. split; [|lia].
      etrans; [exact Hq2|]. eapply quiet_set_chan; [apply lookup_insert_eq|solve_chan_ok].
Qed.

Lemma add_channel_data_ok s msg :
  add_pre data d datalen s ->
  wp (add_channel_data transport_send data msg datalen) (switch_post data datalen s) s.
Proof.
  intros Hpre. pose proof (add_pre_bytes _ _ _ _ Hpre) as Hb. pose proof Hpre as [Hok _ Hl ? ? _].
  unfold add_channel_data. set (head := if msg =? _ then _ else _).
  assert (Hh : 9 <= head <= 13) by (subst head; destruct (msg =? _); lia).
  assert (Hnone : wp (error LIBSSH2_ERROR_CHANNEL_UNKNOWN "Packet received for unknown channel" ;;
      drop_packet data 0) (switch_post data datalen s) s).
  { wp_step. apply wp_error. intros s2 ? _. apply drop_ok; [done|by apply same_conn_quiet|done]. }
  wp_step. wp_step; [|by wp_step]. breflect. wp_step.
  eapply wp_block; [done|]. wps. apply wp_ntohu32; [done|lia..|]. intros id _.
  apply wp_channel_locate; [done| |done]. intros p c Hp _. wp_step. eapply wp_chan; [done|].
  destruct (chan_lookup_ok s p c Hok Hp) as [_ [_ _ _ Hps] _ _]. unfold is_u32 in Hps.
  wp_step; [by apply ignore_extended_data_ok|]. wp_step. wp_step; breflect.
  - wp_step. apply wp_error. intros s2 Hs2 _. wp_step.
    apply queue_data_ok; [done|by apply same_conn_quiet|by rewrite (same_chans _ _ Hs2)|lia..].
  - wp_step. apply queue_data_ok; [done..|lia|lia].
Qed.

(** *** Incoming channels: forwarded connections *)

Definition ql_ok (q : packet_queue_listener_state) : Prop :=
  is_u32 (ql_sender_channel q) /\ is_u32 (ql_initial_window_size q) /\ is_u32 (ql_packet_size q).

(** The state with the listener's progress set to [q]. *)
Definition with_ql (s : session) (q : packet_queue_listener_state) : session :=
  s <| packAdd_Qlstn_state := q |>.

Lemma with_ql_id s : with_ql s (packAdd_Qlstn_state s) = s.
Proof. by destruct s. Qed.

Lemma wp_set_ql f (Q : unit -> session -> Prop) s q :
  Q tt (with_ql s (f q)) -> wp (set_ql f) Q (with_ql s q).
Proof. done. Qed.

Lemma ql_u32_ok buf msg store k (Q : Z -> session -> Prop) s q :
  sb_ok buf -> bytes_ok (sb_data buf) -> (forall rc s', same_conn s s' -> Q rc s') ->
  (forall v buf', is_u32 v -> sb_ok buf' -> bytes_ok (sb_data buf') ->
     wp (k buf') Q (with_ql s (store v q))) ->
  wp (ql_u32 buf msg store k) Q (with_ql s q).
Proof.
  intros Hok Hb Hf Hk. unfold ql_u32. wp_step. apply wp_get_u32; [done..|].
  intros rc v buf' Hok' Hb' Hv. wp_step; breflect.
  - apply wp_error. intros s' H _. apply Hf. etrans; [|exact H]. done.
  - apply wp_bind, wp_set_ql, Hk; auto.
Qed.

Lemma ql_string_ok buf msg store k (Q : Z -> session -> Prop) s q :
  sb_ok buf -> bytes_ok (sb_data buf) -> (forall rc s', same_conn s s' -> Q rc s') ->
  (forall v buf', sb_ok buf' -> bytes_ok (sb_data buf') ->
     wp (k buf') Q (with_ql s (store v q))) ->
  wp (ql_string buf msg store k) Q (with_ql s q).
Proof.
  intros Hok Hb Hf Hk. unfold ql_string. wp_step.
  destruct (get_string_ok buf None Hok Hb) as (rc & v & buf' & -> & _ & Hok' & Hd & _).
  apply wp_ret. wp_step; breflect.
  - apply wp_error. intros s' H _. apply Hf. etrans; [|exact H]. done.
  - apply wp_bind, wp_set_ql, Hk; [done|by rewrite Hd].
Qed.

Lemma queue_listener_parse_ok k (Q : Z -> session -> Prop) s :
  datalen <= lenZ d < 2 ^ 32 -> bytes_ok d -> (forall rc s', same_conn s s' -> Q rc s') ->
  (forall q, ql_ok q -> ql_state q = libssh2_NB_state_allocated -> wp k Q (with_ql s q)) ->
  wp (queue_listener_parse d datalen k) Q s.
Proof.
  intros Hd Hb Hf Hk. unfold queue_listener_parse. change (lenZ _ + 5) with 20. wp_step; breflect.
  - apply wp_error. intros s' ? _. by apply Hf.
  - rewrite <- (with_ql_id s).
    apply ql_u32_ok; [split; simpl; lia|done..|]. intros v1 b1 Hv1 ? ?.
    do 2 (apply ql_u32_ok; [done..|]; intros ? ? ? ? ?).
    apply ql_string_ok; [done..|]. intros h b4 ? ?.
    apply ql_u32_ok; [done..|]. intros v5 b5 _ ? ?.
    apply ql_string_ok; [done..|]. intros h2 b6 ? ?.
    apply ql_u32_ok; [done..|]. intros v7 b7 _ ? ?.
    apply wp_bind, wp_set_ql, Hk; done.
Qed.

Lemma queue_listener_refuse_ok code s :
  can_send s -> wp (queue_listener_refuse transport_send code) (fun _ s' => same_conn s s') s.
Proof.
  intros Hk. unfold queue_listener_refuse. wps. apply wp_send; [done|]. intros rc s1 H1 _.
  assert (Hs : same_conn s s1) by (etrans; [|exact H1]; done).
  wps; [done| |etrans; [exact Hs|done]].
  apply wp_error. intros s2 ? _. etrans; [exact Hs|]. etrans; [|done]. done.
Qed.

(** What [queue_listener_accept] promises: the channel prepared for an accepted
    connection is live. *)
Definition accept_post s (r : option Z) (s' : session) : Prop :=
  quiet s s' /\
  match r with
  | Some _ => True
  | None => ql_state (packAdd_Qlstn_state s') = libssh2_NB_state_created /\
      exists p, ql_channel (packAdd_Qlstn_state s') = Some p /\ is_Some (s_chans s' !! p)
  end.

Lemma accepted_chan_ok ctype sender win ps id c :
  is_u32 sender -> is_u32 win -> is_u32 ps -> is_u32 id ->
  chan_ok c -> chan_ok (accepted_channel ctype sender win ps id c).
Proof.
  intros ? ? ? ? [_ _ ? ?]. split; simpl; [split|split|..]; simpl; done.
Qed.

Lemma accept_channel_ok s p c :
  conn_ok s -> s_chans s !! p = Some c -> ql_ok (packAdd_Qlstn_state s) ->
  ql_channel (packAdd_Qlstn_state s) = Some p ->
  wp (let! id := channel_nextid in
      let! q := gets packAdd_Qlstn_state in
      set_chan p (accepted_channel (str "forwarded-tcpip") (ql_sender_channel q)
        (ql_initial_window_size q) (ql_packet_size q) id) ;;
      let! c := chan p in
      set_ql (fun q => q <| ql_packet := open_confirmation c |>
                         <| ql_state := libssh2_NB_state_created |>) ;;
      ret None) (accept_post s) s.
Proof.
  intros Hok Hp (? & ? & ?) Hc. wp_step. apply wp_channel_nextid; [done|]. intros id v Hid Hv.
  do 3 wp_step. eapply wp_set_chan; [exact Hp|]. wp_step.
  match goal with |- wp _ _ ?s1 => assert (Hq : quiet s s1) end.
  { etrans; [apply (quiet_next_channel _ v Hv)|].
    eapply quiet_set_chan; [exact Hp|]. by apply accepted_chan_ok. }
  eapply wp_chan; [apply lookup_insert_eq|]. wps. split.
  - etrans; [exact Hq|quiet_fields].
  - split; [done|]. exists p. split; [exact Hc|]. simpl. rewrite lookup_insert_eq. eauto.
Qed.

Lemma queue_listener_accept_ok l s :
  conn_ok s -> ql_ok (packAdd_Qlstn_state s) ->
  wp (queue_listener_accept l) (accept_post s) s.
Proof.
  intros Hok Hq. unfold queue_listener_accept.
  wp_step; [wps; split; [quiet_fields|done]|]. wp_step. apply wp_alloc_channel.
  - intros al. wp_step. apply wp_error. intros s1 H1 _. wps. split; [|done].
    etrans; [|etrans; [apply (same_conn_quiet _ _ H1)|quiet_fields]]. quiet_fields.
  - intros al. wps. apply wp_alloc_outcome. intros ok al'. wp_step.
    + wp_step. apply wp_error. intros s1 H1 _. wp_step.
      eapply wp_free_channel; [rewrite (same_chans _ _ H1); apply lookup_insert_eq|].
      wps. split; [|done]. eapply quiet_alloc_free; [done| |done]. etrans; [|exact H1]. done.
    + eapply wp_mono.
      * apply (accept_channel_ok _ (s_next_ptr s) channel_0); try done.
        -- apply (quiet_ok s); [|done].
           etrans; [apply (quiet_alloc_channel s al channel_0 chan_ok_0)|quiet_fields].
        -- apply lookup_insert_eq.
      * intros r s' [Hq' ?]. split; [|done]. etrans; [|exact Hq'].
        etrans; [apply (quiet_alloc_channel s al channel_0 chan_ok_0)|quiet_fields].
Qed.

Lemma queue_listener_confirm_ok n s p :
  can_send s -> ql_channel (packAdd_Qlstn_state s) = Some p -> is_Some (s_chans s !! p) ->
  wp (queue_listener_confirm transport_send n) (fun _ s' => quiet s s') s.
Proof.
  intros Hk Hc Hp. unfold queue_listener_confirm. wps. apply wp_send; [done|].
  intros rc s1 H1 H1'. pose proof (same_conn_quiet _ _ H1) as Hq. wps; [done|..].
  - apply wp_error. intros s2 H2 _. wps. etrans; [exact Hq|].
    etrans; [|apply (same_conn_quiet _ _ H2)]. quiet_fields.
  - rewrite (same_ql _ _ H1'), Hc. wps. etrans; [exact Hq|].
    etrans; [apply (quiet_listener_push s1 n p); by rewrite (same_chans _ _ H1)|quiet_fields].
Qed.

Lemma queue_listener_loop_ok ls n s :
  conn_ok s -> can_send s -> ql_ok (packAdd_Qlstn_state s) ->
  ql_state (packAdd_Qlstn_state s) = libssh2_NB_state_allocated ->
  wp (queue_listener_loop transport_send ls n) (fun _ s' => quiet s s') s.
Proof.
  revert n s. induction ls as [|l ls IH]; intros n s Hok Hk Hql Hst;
    cbn [queue_listener_loop].
  { wps. quiet_fields. }
  do 2 wp_step. wp_step; [|by apply IH]. rewrite Hst. do 3 wp_step.
  change (nb_is libssh2_NB_state_allocated libssh2_NB_state_allocated) with true. cbn iota.
  assert (Hq0 : quiet s (s <| packAdd_Qlstn_state ::= fun q => q <| ql_channel := None |> |>))
    by quiet_fields.
  wp_step. eapply wp_mono; [apply queue_listener_accept_ok; [by apply Hq0|done]|].
  intros [code|] s1 [Hq1 Hr]; [wps; by etrans|]. destruct Hr as (Hst1 & p & Hc & Hp).
  do 2 wp_step. rewrite Hst1.
  change (nb_is libssh2_NB_state_created libssh2_NB_state_created) with true. cbn iota.
  eapply wp_mono; [eapply queue_listener_confirm_ok; [|done..]|].
  - eapply quiet_can_send; [exact Hq1|done].
  - intros r s2 Hq2. by etrans; [|etrans].
Qed.

Lemma packet_queue_listener_ok s :
  conn_ok s -> can_send s -> datalen <= lenZ d < 2 ^ 32 -> bytes_ok d ->
  packAdd_Qlstn_state s = queue_listener_state_0 ->
  wp (packet_queue_listener transport_send d datalen) (fun _ s' => quiet s s') s.
Proof.
  intros Hok Hk Hd Hb Hq0. unfold packet_queue_listener. do 2 wp_step. rewrite Hq0.
  change (nb_is (ql_state queue_listener_state_0) libssh2_NB_state_idle) with true. cbn iota.
  apply queue_listener_parse_ok; [done..| |].
  { intros rc s' ?. by apply same_conn_quiet. }
  intros q Hq Hst. do 2 wp_step.
  change (packAdd_Qlstn_state (with_ql s q)) with q. rewrite Hst.
  change (negb (nb_is libssh2_NB_state_allocated libssh2_NB_state_sent)) with true. cbn iota.
  assert (Hqs : quiet s (with_ql s q)) by quiet_fields.
  do 2 wp_step. wp_step. eapply wp_mono; [apply queue_listener_loop_ok; try done; by apply Hqs|].
  intros [rc|code] s1 Hq1; cbn iota; [wps; by etrans|].
  assert (quiet s s1) as Hq2 by by etrans.
  eapply wp_mono; [apply queue_listener_refuse_ok; by eapply quiet_can_send|].
  intros rc s2 H2. etrans; [exact Hq2|by apply same_conn_quiet].
Qed.

(** *** Incoming channels: X11 *)

Definition x11_ok (x : packet_x11_open_state) : Prop :=
  is_u32 (x11_sender_channel x) /\ is_u32 (x11_initial_window_size x) /\ is_u32 (x11_packet_size x).

Definition with_x11 (s : session) (x : packet_x11_open_state) : session :=
  s <| packAdd_x11open_state := x |>.

Lemma with_x11_id s : with_x11 s (packAdd_x11open_state s) = s.
Proof. by destruct s. Qed.

Lemma wp_set_x11 f (Q : unit -> session -> Prop) s x :
  Q tt (with_x11 s (f x)) -> wp (set_x11 f) Q (with_x11 s x).
Proof. done. Qed.

Lemma x11_exit_ok code s :
  can_send s -> wp (x11_exit transport_send code) (fun _ s' => same_conn s s') s.
Proof.
  intros Hk. unfold x11_exit. wps. apply wp_send; [done|]. intros rc s1 H1 _.
  assert (Hs : same_conn s s1) by (etrans; [|exact H1]; done).
  wps; [done| |etrans; [exact Hs|done]].
  apply wp_error. intros s2 ? _. etrans; [exact Hs|]. etrans; [|done]. done.
Qed.

(** Every error of the parsing ends at [x11_exit]. *)
Lemma x11_fail_ok code msg code' s s1 :
  can_send s -> quiet s s1 ->
  wp (error code msg ;; x11_exit transport_send code') (fun _ s' => quiet s s') s1.
Proof.
  intros Hk Hq. wp_step. apply wp_error. intros s2 H2 _.
  assert (Hq2 : quiet s s2) by (etrans; [exact Hq|by apply same_conn_quiet]).
  eapply wp_mono; [apply x11_exit_ok; exact (quiet_can_send _ _ Hq2 Hk)|].
  intros rc s3 H3. etrans; [exact Hq2|by apply same_conn_quiet].
Qed.

Lemma x11_u32_ok buf msg store k s x :
  can_send s -> sb_ok buf -> bytes_ok (sb_data buf) ->
  (forall v buf', is_u32 v -> sb_ok buf' -> bytes_ok (sb_data buf') ->
     wp (k buf') (fun _ s' => quiet s s') (with_x11 s (store v x))) ->
  wp (x11_u32 transport_send buf msg store k) (fun _ s' => quiet s s') (with_x11 s x).
Proof.
  intros Hs Hok Hb Hk. unfold x11_u32. wp_step. apply wp_get_u32; [done..|].
  intros rc v buf' Hok' Hb' Hv. wp_step; breflect.
  - apply x11_fail_ok; [done|quiet_fields].
  - apply wp_bind, wp_set_x11, Hk; auto.
Qed.

Lemma x11_string_ok buf msg store k s x :
  can_send s -> sb_ok buf -> bytes_ok (sb_data buf) ->
  (forall v buf', sb_ok buf' -> bytes_ok (sb_data buf') ->
     wp (k buf') (fun _ s' => quiet s s') (with_x11 s (store v x))) ->
  wp (x11_string transport_send buf msg store k) (fun _ s' => quiet s s') (with_x11 s x).
Proof.
  intros Hs Hok Hb Hk. unfold x11_string. wp_step.
  destruct (get_string_ok buf None Hok Hb) as (rc & v & buf' & -> & _ & Hok' & Hd & _).
  apply wp_ret. wp_step; breflect.
  - apply x11_fail_ok; [done|quiet_fields].
  - apply wp_bind, wp_set_x11, Hk; [done|by rewrite Hd].
Qed.

Lemma x11_parse_ok k s :
  can_send s -> datalen <= lenZ d < 2 ^ 32 -> bytes_ok d ->
  (forall x, x11_ok x -> x11_state x = libssh2_NB_state_allocated ->
     wp k (fun _ s' => quiet s s') (with_x11 s x)) ->
  wp (x11_parse transport_send d datalen k) (fun _ s' => quiet s s') s.
Proof.
  intros Hs Hd Hb Hk. unfold x11_parse. change (lenZ _ + 5) with 8. wp_step; breflect.
  - by apply x11_fail_ok.
  - match goal with |- wp ?m ?Q _ =>
      enough (H : wp m Q (with_x11 s (packAdd_x11open_state s))) by by rewrite with_x11_id in H
    end.
    apply x11_u32_ok; [done|split; simpl; lia|done..|]. intros v1 b1 Hv1 ? ?.
    do 2 (apply x11_u32_ok; [done..|]; intros ? ? ? ? ?).
    apply x11_string_ok; [done..|]. intros h b4 ? ?.
    apply x11_u32_ok; [done..|]. intros v5 b5 _ ? ?.
    apply wp_bind, wp_set_x11, Hk; done.
Qed.

Lemma x11_confirm_ok s p :
  can_send s -> is_Some (s_chans s !! p) ->
  wp (x11_confirm transport_send (Some p)) (fun _ s' => quiet s s') s.
Proof.
  intros Hk Hp. unfold x11_confirm. wps. apply wp_send; [done|].
  intros rc s1 H1 H1'. pose proof (same_conn_quiet _ _ H1) as Hq. wps; [done|..].
  - apply wp_error. intros s2 H2 _. etrans; [exact Hq|].
    etrans; [|apply (same_conn_quiet _ _ H2)]. quiet_fields.
  - eapply wp_access; [done|]. wps. etrans; [exact Hq|].
    etrans; [apply (quiet_channel_push s1 p); by rewrite (same_chans _ _ H1)|quiet_fields].
Qed.

Lemma x11_accept_ok s p c x :
  conn_ok s -> can_send s -> s_chans s !! p = Some c -> x11_ok x ->
  wp (let! id := channel_nextid in
      set_chan p (accepted_channel (str "x11") (x11_sender_channel x)
        (x11_initial_window_size x) (x11_packet_size x) id) ;;
      let! c := chan p in
      set_x11 (fun x => x <| x11_packet := open_confirmation c |>
                          <| x11_state := libssh2_NB_state_created |>) ;;
      x11_confirm transport_send (Some p)) (fun _ s' => quiet s s') s.
Proof.
  intros Hok Hk Hp (? & ? & ?). wp_step. apply wp_channel_nextid; [done|]. intros id v Hid Hv.
  wp_step. eapply wp_set_chan; [exact Hp|]. wp_step.
  match goal with |- wp _ _ ?s1 => assert (Hq : quiet s s1) end.
  { etrans; [apply (quiet_next_channel _ v Hv)|].
    eapply quiet_set_chan; [exact Hp|]. by apply accepted_chan_ok. }
  eapply wp_chan; [apply lookup_insert_eq|]. wps. eapply wp_mono.
  - apply x11_confirm_ok; [done|]. simpl. rewrite lookup_insert_eq. eauto.
  - intros rc s' Hq'. etrans; [exact Hq|]. etrans; [|exact Hq']. quiet_fields.
Qed.

Lemma x11_after_parse_ok ch s :
  conn_ok s -> can_send s -> x11_ok (packAdd_x11open_state s) ->
  x11_state (packAdd_x11open_state s) = libssh2_NB_state_allocated ->
  wp (x11_after_parse transport_send ch) (fun _ s' => quiet s s') s.
Proof.
  intros Hok Hk Hx Hst. unfold x11_after_parse. do 2 wp_step. wp_step.
  - do 2 wp_step. rewrite Hst.
    change (nb_is libssh2_NB_state_allocated libssh2_NB_state_allocated) with true. cbn iota.
    wp_step. apply wp_alloc_channel; intros al; cbn iota.
    { apply x11_fail_ok; [done|quiet_fields]. }
    wp_step. apply wp_alloc_outcome. intros ok al'. destruct ok; cbn [negb].
    + match goal with |- wp _ _ ?s1 => assert (Hq : quiet s s1) end.
      { etrans; [apply (quiet_alloc_channel s al channel_0 chan_ok_0)|quiet_fields]. }
      eapply wp_mono; [eapply x11_accept_ok; [by apply Hq|done|apply lookup_insert_eq|done]|].
      intros rc s' Hq'. by etrans.
    + wp_step. apply wp_error. intros s1 H1 _. wp_step.
      eapply wp_free_channel; [rewrite (same_chans _ _ H1); apply lookup_insert_eq|].
      match goal with |- wp _ _ ?s2 => assert (Hq : quiet s s2) end.
      { eapply quiet_alloc_free; [done| |done]. etrans; [|exact H1]. done. }
      eapply wp_mono; [apply x11_exit_ok; exact (quiet_can_send _ _ Hq Hk)|].
      intros rc s3 H3. etrans; [exact Hq|by apply same_conn_quiet].
  - eapply wp_mono; [by apply x11_exit_ok|]. intros rc s1 H1. by apply same_conn_quiet.
Qed.

Lemma packet_x11_open_ok s :
  conn_ok s -> can_send s -> datalen <= lenZ d < 2 ^ 32 -> bytes_ok d ->
  packAdd_x11open_state s = x11_open_state_0 ->
  wp (packet_x11_open transport_send d datalen) (fun _ s' => quiet s s') s.
Proof.
  intros Hok Hk Hd Hb Hx. unfold packet_x11_open. do 2 wp_step. rewrite Hx.
  change (nb_is (x11_state x11_open_state_0) libssh2_NB_state_idle) with true. cbn iota.
  apply x11_parse_ok; [done..|]. intros x Hxok Hst.
  assert (Hq : quiet s (with_x11 s x)) by quiet_fields.
  eapply wp_mono; [apply x11_after_parse_ok; try done; by apply Hq|].
  intros rc s' Hq'. by etrans.
Qed.

(** *** The whole switch *)

Lemma open_done_ok s s1 rc :
  add_pre data d datalen s -> quiet s s1 ->
  wp (open_done data rc) (switch_post data datalen s) s1.
Proof.
  intros Hpre Hq. unfold open_done. wps_to drop_ok; breflect; try done. simpl. subst. by left.
Qed.

Lemma open_is_ok name s (Q : bool -> session -> Prop) :
  bytes_ok d -> datalen <= lenZ d -> (forall b, Q b s) -> wp (open_is d datalen name) Q s.
Proof.
  intros Hb Hd HQ. pose proof (lenZ_nonneg name). unfold open_is. wps; [|by apply HQ]. breflect.
  apply wp_ntohu32; [done|lia..|]. intros len _. wps; [|by apply HQ]. breflect.
  apply wp_bytes_at; [lia..|]. wps. apply HQ.
Qed.

Lemma add_channel_open_ok s :
  add_pre data d datalen s ->
  wp (add_channel_open transport_send data datalen) (switch_post data datalen s) s.
Proof.
  intros Hpre. pose proof (add_pre_bytes _ _ _ _ Hpre) as Hb. pose proof Hpre as [Hok Hk Hl ? ? _].
  unfold add_channel_open. wps; [by apply open_done_ok|].
  eapply wp_block; [done|]. wps. apply open_is_ok; [done|lia|]. intros []; wps.
  - unfold jump_point2. wps. eapply wp_block; [done|]. wps.
    match goal with |- wp _ _ ?s1 => assert (Hq : quiet s s1) by quiet_fields end.
    eapply wp_mono; [apply packet_queue_listener_ok; [by apply Hq|done|lia|done|done]|].
    intros rc s' Hq'. apply open_done_ok; [done|by etrans].
  - apply open_is_ok; [done|lia|]. intros []; wps; [|by apply open_done_ok].
    unfold jump_point3. wps. eapply wp_block; [done|]. wps.
    match goal with |- wp _ _ ?s1 => assert (Hq : quiet s s1) by quiet_fields end.
    eapply wp_mono; [apply packet_x11_open_ok; [by apply Hq|done|lia|done|done]|].
    intros rc s' Hq'. apply open_done_ok; [done|by etrans].
Qed.

Lemma packet_switch_ok s msg :
  add_pre data d datalen s ->
  wp (packet_switch transport_send data msg datalen) (switch_post data datalen s) s.
Proof.
  intros Hpre. unfold packet_switch.
  repeat lazymatch goal with |- wp (if _ then _ else _) _ _ => apply wp_if; intros _ end;
    eauto using add_disconnect_ok, add_ignore_ok, add_debug_ok, add_ext_info_ok,
      add_global_request_ok, add_channel_data_ok, add_channel_eof_ok, add_channel_request_ok,
      add_channel_close_ok, add_channel_open_ok, add_window_adjust_ok.
  apply wp_ret. destruct Hpre as [_ _ _ ? _ _]. split; [done|lia].
Qed.
End Cases.

(** ** The whole function *)

(** How [_libssh2_packet_add] leaves the payload when it is done with it. *)
Definition queued (data : ptr) (n h : Z) (s s' : session) : Prop :=
  conn_ok s' /\ s_heap s' = s_heap s /\ packets s' = packets s ++ [mk_packet data n h].

Section Add.
Context (transport_send : list Z -> list Z -> CM Z) `{!Transport transport_send}.
Context (kex_exchange : CM Z).
Implicit Types s : session.

Lemma enqueue_conn_ok data d datalen s n h :
  add_pre data d datalen s -> 0 <= h <= n -> n <= datalen ->
  conn_ok (s <| packets ::= fun ps => ps ++ [mk_packet data n h] |>).
Proof.
  intros [Hok _ Hl ? ? Hown] Hh Hn. destruct Hok as [H1 H2 H3 H4 H5 H6 H7 H8 H9].
  split; simpl; try done.
  - apply Forall_app. split; [done|]. constructor; [|done]. exists d. simpl. split_and!; try done; lia.
  - rewrite fmap_app. apply NoDup_app. split_and!; [done| |apply NoDup_singleton].
    intros q Hq Hq'. apply list_elem_of_singleton in Hq'. simpl in Hq'. by subst.
Qed.

(** The outcome of [_libssh2_packet_add] on its first call for a payload. *)
Definition add_post (data : ptr) (datalen : Z) (s : session) (rc : Z) (s' : session) : Prop :=
  if rc =? LIBSSH2_ERROR_EAGAIN
  then quiet s s' \/ (packAdd_state s' = libssh2_NB_state_jump1 /\ released data s s')
  else released data s s' \/
       (rc = 0 /\ exists n h, 0 <= h <= n /\ n <= datalen /\ queued data n h s s').

Lemma packet_add_end_ok data d datalen msg s s1 r :
  add_pre data d datalen s -> msg <> SSH_MSG_KEXINIT -> switch_post data datalen s r s1 ->
  wp (packet_add_end kex_exchange data msg r) (add_post data datalen s) s1.
Proof.
  intros Hpre Hmsg Hr. destruct r as [rc|n h]; cbn [packet_add_end].
  { apply wp_ret. unfold switch_post, add_post in *. destruct (rc =? _); [done|by left]. }
  destruct Hr as (Hq & Hh & Hn). eapply add_pre_quiet in Hpre as Hpre1; [|exact Hq].
  wps. unfold packet_enqueue. wps. apply wp_alloc_outcome. intros [] al; wps.
  - unfold packet_rekey. wps; simpl in *.
    { apply orb_true_iff in E as [E|E]; breflect; done. }
    right. split; [done|]. exists n, h. split_and!; [lia..|]. split_and!; simpl.
    + eapply same_conn_ok; [|apply (enqueue_conn_ok _ _ _ _ n h Hpre1); lia]. done.
    + apply Hq.
    + by rewrite (quiet_packets _ _ Hq).
  - eapply wp_free_block; [apply Hpre1|]. wps. left.
    eapply released_quiet_l; [exact Hq|]. split; simpl; [|done..].
    eapply same_conn_ok; [|apply free_conn_ok; apply Hpre1]. done.
Qed.

Lemma packet_add_ok data d datalen macstate s :
  add_pre data d datalen s -> packAdd_state s = libssh2_NB_state_idle ->
  byte_at d 0 <> Some SSH_MSG_KEXINIT ->
  wp (packet_add transport_send kex_exchange data datalen macstate) (add_post data datalen s) s.
Proof.
  intros Hpre Hst Hmsg. pose proof Hpre as [_ _ Hl ? ? _]. unfold packet_add. wp_step.
  eapply wp_block; [exact Hl|]. wp_step. destruct (byte_at_in d 0) as [msg Em]; [lia|].
  eapply wp_access; [exact Em|]. do 2 wp_step. rewrite Hst. cbn iota.
  assert (Hgo : forall s1, quiet s s1 ->
    wp (set_packAdd libssh2_NB_state_allocated ;;
        let! r := packet_switch transport_send data msg datalen in
        packet_add_end kex_exchange data msg r) (add_post data datalen s) s1).
  { intros s1 Hq. do 3 wp_step. wp_step.
    match goal with |- wp _ _ ?s2 => assert (Hq2 : quiet s s2) end.
    { etrans; [exact Hq|quiet_fields]. }
    eapply wp_mono; [apply (packet_switch_ok data d); [done|exact (add_pre_quiet _ _ _ _ _ Hpre Hq2)]|].
    intros r s3 Hr. eapply packet_add_end_ok; [done|congruence|].
    by eapply switch_post_quiet. }
  assert (Hbad : forall s1, quiet s s1 ->
    wp (free_block data ;; error LIBSSH2_ERROR_INVALID_MAC "Invalid MAC received")
      (add_post data datalen s) s1).
  { intros s1 Hq. eapply add_pre_quiet in Hpre as Hpre1; [|exact Hq].
    wp_step. eapply wp_free_block; [apply Hpre1|]. apply wp_error. intros s2 H2 _. left.
    eapply released_quiet_l; [exact Hq|]. eapply released_quiet_r; [|by apply same_conn_quiet].
    split; simpl; [apply free_conn_ok; apply Hpre1|done..]. }
  do 2 wp_step. wp_step. wp_step; [|wp_step; by apply Hgo].
  destruct (cb_macerror s) as [f|]; [|wp_step; by apply Hbad].
  wp_step. apply wp_bytes_at; [lia..|]. wp_step. unfold event_log. wp_step.
  match goal with |- wp _ _ ?s2 => assert (Hq2 : quiet s s2) by quiet_fields end.
  wp_step. destruct (negb _); [by apply Hbad|by apply Hgo].
Qed.
End Add.
