(* ===== verification/PacketSpec.v ===== *)
(** * What the packet layer guarantees

    The contract of [_libssh2_packet_add] on a fresh payload, the receive
    window, the queries of the packet queue, and the executions in which a
    suspended [_libssh2_packet_add] misbehaves when it is resumed. *)

From stdpp Require Import base numbers list gmap strings.
From S2P Require Import Prelude Codes Wire Session ChannelWindow Packet PacketAdd Conn PacketSafety.

(** ** Sample states *)

(** A transport that accepts every message, and one whose socket is full. *)
Definition send_ok (_ _ : list Z) : CM Z := ret 0.
Definition send_eagain (_ _ : list Z) : CM Z := ret LIBSSH2_ERROR_EAGAIN.

#[global] Instance send_ok_transport : Transport send_ok.
Proof. intros ? ? s _. by apply wp_ret. Qed.
#[global] Instance send_eagain_transport : Transport send_eagain.
Proof. intros ? ? s _. by apply wp_ret. Qed.

(** A session with one channel (number 0) and the payload [d] in block 2. *)
Definition sample_channel : channel :=
  channel_0 <| local := mk_channel_data 0 1000 1000 1000 false false 0 |>
            <| remote := mk_channel_data 7 100 100 50 false false 0 |>.

Definition sample_session (c : channel) (d : list Z) : session :=
  session_0 <| s_heap := {[ 2%positive := d ]} |> <| s_chans := {[ 1%positive := c ]} |>
            <| channels := [1%positive] |> <| s_next_ptr := 3%positive |>.

Lemma sample_conn_ok c d : chan_ok c -> bytes_ok d -> conn_ok (sample_session c d).
Proof.
  intros Hc Hd. split; simpl; try done.
  - constructor; [|done]. rewrite lookup_singleton_eq. eauto.
  - by apply map_Forall_singleton.
  - by apply map_Forall_singleton.
  - constructor.
  - intros p Hp. apply lookup_singleton_ne. lia.
  - intros p Hp. apply lookup_singleton_ne. lia.
Qed.

Lemma sample_can_send c d : can_send (sample_session c d).
Proof. split; [by left|done]. Qed.

Lemma sample_channel_ok : chan_ok sample_channel.
Proof. by repeat split. Qed.

(** A session with a packet in its queue. *)
Definition waiting_session : session :=
  (sample_session sample_channel [SSH_MSG_CHANNEL_SUCCESS; 0; 0; 0; 0])
    <| packets := [mk_packet 2%positive 5 0] |>.

Lemma waiting_conn_ok : conn_ok waiting_session.
Proof.
  split; simpl; try done.
  - constructor; [|done]. rewrite lookup_singleton_eq. eauto.
  - apply map_Forall_singleton, sample_channel_ok.
  - apply map_Forall_singleton. by apply (bool_decide_unpack _).
  - constructor; [|done]. exists [SSH_MSG_CHANNEL_SUCCESS; 0; 0; 0; 0].
    rewrite lookup_singleton_eq. unfold lenZ; simpl. split_and!; done.
  - apply NoDup_singleton.
  - intros p Hp. apply lookup_singleton_ne. lia.
  - intros p Hp. apply lookup_singleton_ne. lia.
Qed.

(** ** [_libssh2_packet_add] disposes of the payload *)

(** C1: memory safety and ownership of [_libssh2_packet_add]. On its first call
    for a payload (any message but [SSH_MSG_KEXINIT], no key exchange pending),
    whatever the bytes of the payload, the outcomes of the allocator and the
    verdict of the MAC check, it returns without touching memory outside the
    payload or memory that is not live, keeps the invariant of the connection
    layer, and disposes of the payload exactly once: unless it asks to be called
    again, the payload was freed, or (with return value 0) it is the new last
    packet of the queue with [0 <= data_head <= data_len <= datalen]; nothing
    else of the heap or of the queue has changed. *)
Theorem packet_add_disposes transport_send `{!Transport transport_send} kex_exchange
    data d datalen macstate s :
  conn_ok s -> can_send s -> packAdd_state s = libssh2_NB_state_idle ->
  s_heap s !! data = Some d -> 0 <= datalen <= lenZ d -> 1 <= lenZ d < 2 ^ 32 ->
  data ∉ pk_data <$> packets s -> byte_at d 0 <> Some SSH_MSG_KEXINIT ->
  exists rc s', packet_add transport_send kex_exchange data datalen macstate s = Ret rc s' /\
    conn_ok s' /\
    ((s_heap s' = delete data (s_heap s) /\ packets s' = packets s) \/
     (rc = 0 /\ s_heap s' = s_heap s /\ exists n h,
        0 <= h <= n /\ n <= datalen /\ packets s' = packets s ++ [mk_packet data n h]) \/
     (rc = LIBSSH2_ERROR_EAGAIN /\ s_heap s' = s_heap s /\ packets s' = packets s)).
Proof.
  intros Hok Hk Hst Hl Hlen Hsize Hown Hmsg.
  destruct (wp_Ret _ _ _ (packet_add_ok transport_send kex_exchange data d datalen macstate s
    (Build_add_pre _ _ _ _ Hok Hk Hl Hlen Hsize Hown) Hst Hmsg)) as (rc & s' & E & Hpost).
  exists rc, s'. split; [done|]. unfold add_post in Hpost. destruct (Z.eqb_spec rc LIBSSH2_ERROR_EAGAIN) as [Erc|Erc].
  - destruct Hpost as [Hq|[_ Hr]]; (split; [by apply Hq || apply Hr|]).
    + right; right. split; [done|]. split; apply Hq.
    + left. split; apply Hr.
  - destruct Hpost as [Hr|(? & n & h & ? & ? & Hok' & ? & ?)]; (split; [done || apply Hr|]).
    + left. split; apply Hr.
    + right; left. eauto 10.
Qed.

Lemma packet_add_disposes_witness :
  exists rc s', packet_add send_ok (ret 0) 2%positive 6 LIBSSH2_MAC_CONFIRMED
      (sample_session sample_channel [SSH_MSG_CHANNEL_EOF; 0; 0; 0; 0; 9]) = Ret rc s' /\
    conn_ok s' /\
    ((s_heap s' = delete 2%positive {[ 2%positive := [SSH_MSG_CHANNEL_EOF; 0; 0; 0; 0; 9] ]} /\
      packets s' = []) \/
     (rc = 0 /\ s_heap s' = {[ 2%positive := [SSH_MSG_CHANNEL_EOF; 0; 0; 0; 0; 9] ]} /\
      exists n h, 0 <= h <= n /\ n <= 6 /\ packets s' = [] ++ [mk_packet 2%positive n h]) \/
     (rc = LIBSSH2_ERROR_EAGAIN /\ s_heap s' = {[ 2%positive := [SSH_MSG_CHANNEL_EOF; 0; 0; 0; 0; 9] ]} /\
      packets s' = [])).
Proof.
  apply (packet_add_disposes send_ok (ret 0) 2%positive [SSH_MSG_CHANNEL_EOF; 0; 0; 0; 0; 9] 6
    LIBSSH2_MAC_CONFIRMED (sample_session sample_channel [SSH_MSG_CHANNEL_EOF; 0; 0; 0; 0; 9])).
  - apply sample_conn_ok; [apply sample_channel_ok|by apply (bool_decide_unpack _)].
  - apply sample_can_send.
  - reflexivity.
  - apply lookup_singleton_eq.
  - unfold lenZ; simpl; lia.
  - unfold lenZ; simpl; lia.
  - apply not_elem_of_nil.
  - discriminate.
Defined.

(** ** The queries of the packet queue *)

(** Whether a packet is one that was asked for. *)
Definition asked (h : gmap ptr (list Z)) (packet_type match_ofs : Z) (match_buf : option (list Z))
    (p : packet) : bool :=
  match h !! pk_data p with
  | None => false
  | Some d =>
      bool_decide (byte_at d 0 = Some packet_type) &&
      match match_buf with
      | None => match_ofs <=? pk_data_len p
      | Some m => (match_ofs + lenZ m <=? pk_data_len p)
                  && bool_decide (slice match_ofs (lenZ m) d = m)
      end
  end.

Lemma Z_eqb_bool_decide a b : (a =? b) = bool_decide (a = b).
Proof. destruct (Z.eqb_spec a b); symmetry; [by apply bool_decide_eq_true|by apply bool_decide_eq_false]. Qed.

Lemma packet_matches_asked s p ty ofs buf :
  packet_ok (s_heap s) p -> 0 <= ofs ->
  packet_matches p ty ofs buf s = Ret (asked (s_heap s) ty ofs buf p) s.
Proof.
  intros (d & Hd & H1 & Hrange & Hn) Hofs. unfold packet_matches, asked, block.
  unfold bind, gets, access, ret. rewrite Hd. destruct (byte_at_in d 0) as [b Hb]; [lia|].
  rewrite Hb. rewrite (bool_decide_ext (Some b = Some ty) (b = ty)) by (split; congruence).
  rewrite <- Z_eqb_bool_decide. destruct (b =? ty); simpl; [|done]. destruct buf as [m|].
  - destruct (Z.leb_spec (ofs + lenZ m) (pk_data_len p)); [|done].
    rewrite bytes_at_in; [done|lia|apply lenZ_nonneg|lia].
  - by rewrite Z.add_0_r; destruct (ofs <=? _).
Qed.

Lemma packet_ask_loop_spec s ty ofs buf seen rest :
  Forall (packet_ok (s_heap s)) rest -> 0 <= ofs ->
  packet_ask_loop seen rest ty ofs buf s =
  match list_find (fun p => asked (s_heap s) ty ofs buf p = true) rest with
  | Some (i, p) => Ret (Some (pk_data p, pk_data_len p))
                       (s <| packets := seen ++ delete i rest |>)
  | None => Ret None s
  end.
Proof.
  intros Hok Hofs. revert seen. induction Hok as [|p rest Hp _ IH]; intros seen; simpl; [done|].
  unfold bind. rewrite packet_matches_asked by done.
  destruct (asked (s_heap s) ty ofs buf p) eqn:E; simpl; [done|].
  rewrite IH. destruct (list_find _ rest) as [[i q]|] eqn:F; simpl; [|done].
  by rewrite <- app_assoc.
Qed.

(** [_libssh2_packet_ask] is a faithful query of the packet queue: it never
    reads outside a payload, and hands over the first packet, in the order of
    arrival, that has the type asked for and carries the given bytes at the
    given offset within its valid length, unlinking this packet and keeping
    every other in its order; it fails, and changes nothing, exactly when no
    queued packet matches. *)
Theorem packet_ask_first_match s ty ofs buf :
  conn_ok s -> 0 <= ofs ->
  match list_find (fun p => asked (s_heap s) ty ofs buf p = true) (packets s) with
  | Some (i, p) =>
      packet_ask ty ofs buf s =
        Ret (Some (pk_data p, pk_data_len p)) (s <| packets := delete i (packets s) |>) /\
      packets s !! i = Some p /\ asked (s_heap s) ty ofs buf p = true /\
      (forall j q, packets s !! j = Some q -> (j < i)%nat -> asked (s_heap s) ty ofs buf q = false)
  | None =>
      packet_ask ty ofs buf s = Ret None s /\
      forall p, p ∈ packets s -> asked (s_heap s) ty ofs buf p = false
  end.
Proof.
  intros Hok Hofs. assert (E : packet_ask ty ofs buf s = packet_ask_loop [] (packets s) ty ofs buf s) by done.
  rewrite E, packet_ask_loop_spec by (done || apply Hok).
  destruct (list_find _ (packets s)) as [[i p]|] eqn:F.
  - apply list_find_Some in F as (? & ? & Hmin). split_and!; try done.
    intros j q Hj Hlt. apply not_true_is_false, (Hmin j q Hj Hlt).
  - apply list_find_None in F. rewrite Forall_forall in F. split; [done|].
    intros p Hp. by apply not_true_is_false, F.
Qed.

Lemma packet_ask_first_match_witness :
  packet_ask SSH_MSG_CHANNEL_SUCCESS 1 (Some [0; 0; 0; 0]) waiting_session =
    Ret (Some (2%positive, 5)) (waiting_session <| packets := [] |>).
Proof.
  refine (proj1 (packet_ask_first_match waiting_session SSH_MSG_CHANNEL_SUCCESS 1
    (Some [0; 0; 0; 0]) waiting_conn_ok _)). lia.
Defined.

(** ** Channel data and the receive window *)

(** A number that one channel of the session carries. *)
Definition sole_channel (s : session) (p : ptr) (c : channel) : Prop :=
  p ∈ channels s /\ s_chans s !! p = Some c /\
  forall q c', q ∈ channels s -> s_chans s !! q = Some c' ->
    cd_id (local c') = cd_id (local c) -> q = p.

Lemma wp_find_channel_hit s cs p c (Q : option ptr -> session -> Prop) :
  Forall (fun p => is_Some (s_chans s !! p)) cs -> p ∈ cs -> s_chans s !! p = Some c ->
  (forall q c', q ∈ cs -> s_chans s !! q = Some c' -> cd_id (local c') = cd_id (local c) -> q = p) ->
  Q (Some p) s -> wp (find_channel cs (cd_id (local c))) Q s.
Proof.
  intros Hcs Hin Hp Huniq HQ. revert Hin Huniq.
  induction Hcs as [|q cs [c' Hq] _ IH]; intros Hin Huniq; [by apply not_elem_of_nil in Hin|].
  cbn [find_channel]. wp_step. eapply wp_chan; [exact Hq|].
  destruct (Z.eqb_spec (cd_id (local c')) (cd_id (local c))) as [E|E].
  - wp_step. by rewrite (Huniq q c' (list_elem_of_here _ _) Hq E).
  - apply IH.
    + apply elem_of_cons in Hin as [->|]; [|done]. rewrite Hp in Hq. by simplify_eq.
    + intros q' c'' Hq'. apply Huniq. by right.
Qed.

Lemma wp_locate_sole s p c (Q : option ptr -> session -> Prop) :
  conn_ok s -> sole_channel s p c -> Q (Some p) s -> wp (channel_locate (cd_id (local c))) Q s.
Proof.
  intros Hok (Hin & Hp & Huniq) HQ. unfold channel_locate. do 3 wp_step.
  apply (wp_find_channel_hit s _ p c); try done. apply Hok.
Qed.

(** A data message for the channel [c]: type, number, length fields, bytes. *)
Definition data_message (c : channel) (d : list Z) (datalen head : Z) : Prop :=
  ntohu32 d 1 = Some (cd_id (local c)) /\ head <= datalen <= lenZ d /\ datalen < 2 ^ 32.

(** What is kept of a data message: the packet size and the window limit it. *)
Definition accepted_len (c : channel) (n : Z) : Z :=
  Z.min (Z.min n (cd_packet_size (remote c))) (cd_window_size (remote c) - read_avail c).

(** The window part of the data case, with its exact effect. *)
Definition data_post (data p : ptr) (c : channel) (datalen : Z) (s : session) (r : switch_result)
    (s' : session) : Prop :=
  if decide (read_avail c < cd_window_size (remote c)) then
    let n := accepted_len c (datalen - 9) in
    r = SQueue (n + 9) 9 /\
    s_chans s' = <[p := c <| remote ::= fun r => r <| cd_eof := false |> |>
                          <| read_avail := read_avail c + n |>]> (s_chans s) /\
    s_heap s' = s_heap s /\ packets s' = packets s
  else r = SReturn 0 /\ s_chans s' = s_chans s /\ s_heap s' = delete data (s_heap s).

Lemma accepted_len_cases c n dl :
  0 <= n -> 0 <= read_avail c < cd_window_size (remote c) -> cd_window_size (remote c) < 2 ^ 32 ->
  0 <= dl - 9 < 2 ^ 32 -> dl - 9 = Z.min n (cd_packet_size (remote c)) ->
  (if cd_window_size (remote c) <? u64 (read_avail c + dl - 9)
   then u64 (u32 (cd_window_size (remote c) - read_avail c) + 9) else dl) = accepted_len c n + 9.
Proof.
  intros Hn Ha Hw Hdl E. unfold accepted_len. rewrite <- E, (u64_small (_ + _ - _)) by lia.
  rewrite u32_small, u64_small by lia. destruct (Z.ltb_spec (cd_window_size (remote c)) (read_avail c + dl - 9)); lia.
Qed.

(** The last steps: the window is checked and the bytes counted. *)
Lemma wp_data_window data s s1 p c dl datalen :
  same_conn s s1 -> conn_ok s -> s_chans s !! p = Some c -> s_heap s !! data <> None ->
  dl - 9 = Z.min (datalen - 9) (cd_packet_size (remote c)) -> 9 <= datalen < 2 ^ 32 ->
  wp (if cd_window_size (remote c) <=? read_avail c then
        error LIBSSH2_ERROR_CHANNEL_WINDOW_EXCEEDED
          "The current receive window is full, data ignored" ;;
        drop_packet data 0
      else
        set_chan p (fun c => c <| remote ::= fun r => r <| cd_eof := false |> |>) ;;
        let! dl :=
          (if cd_window_size (remote c) <? u64 (read_avail c + dl - 9) then
             error LIBSSH2_ERROR_CHANNEL_WINDOW_EXCEEDED
               "Remote sent more data than current window allows, truncating" ;;
             ret (u64 (u32 (cd_window_size (remote c) - read_avail c) + 9))
           else ret dl) in
        set_chan p (fun c => c <| read_avail := u32 (read_avail c + (dl - 9)) |>) ;;
        ret (SQueue dl 9)) (data_post data p c datalen s) s1.
Proof.
  intros H1 Hok Hp Hl Hdl Hlen. rewrite <- (same_chans _ _ H1) in Hp.
  destruct (chan_lookup_ok s1 p c (same_conn_ok _ _ H1 Hok) Hp) as [_ [_ _ Hw Hps] Ha _].
  unfold is_u32 in *. destruct (s_heap s !! data) as [d|] eqn:Hd; [|done]. unfold data_post.
  destruct (decide (read_avail c < cd_window_size (remote c))); destruct (Z.leb_spec (cd_window_size (remote c)) (read_avail c)); try lia; cycle 1.
  - wp_step. apply wp_error. intros s2 H2 _. unfold drop_packet.
    wp_step. eapply wp_free_block; [by rewrite (same_heap _ _ H2), (same_heap _ _ H1)|]. wps. simpl.
    by rewrite (same_heap _ _ H2), (same_heap _ _ H1), (same_chans _ _ H2), (same_chans _ _ H1).
  - wp_step. eapply wp_set_chan; [exact Hp|].
    pose proof (accepted_len_cases c (datalen - 9) dl ltac:(lia) ltac:(lia) ltac:(lia) ltac:(lia) Hdl) as E.
    assert (0 <= accepted_len c (datalen - 9) <= cd_window_size (remote c) - read_avail c)
      by (unfold accepted_len; lia).
    set (n := accepted_len c (datalen - 9)) in *.
    assert (Hfin : forall s2,
      s_chans s2 = <[p:=c <| remote ::= fun r => r <| cd_eof := false |> |>]> (s_chans s) ->
      s_heap s2 = s_heap s -> packets s2 = packets s ->
      wp (set_chan p (fun c => c <| read_avail := u32 (read_avail c + (n + 9 - 9)) |>) ;;
          ret (SQueue (n + 9) 9))
        (fun r s' => r = SQueue (n + 9) 9 /\
           s_chans s' = <[p := c <| remote ::= fun r => r <| cd_eof := false |> |>
                                 <| read_avail := read_avail c + n |>]> (s_chans s) /\
           s_heap s' = s_heap s /\ packets s' = packets s) s2).
    { intros s2 Hc2 Hh2 Hp2. wp_step. eapply wp_set_chan; [rewrite Hc2; apply lookup_insert_eq|]. wp_step.
      split_and!; [done| |done|done]. simpl. rewrite Hc2, insert_insert_eq, u32_small by (simpl; lia).
      by replace (read_avail c + (n + 9 - 9)) with (read_avail c + n) by lia. }
    wp_step. destruct (_ <? _) in E |- *.
    + wp_step. apply wp_error. intros s2 H2 _. wp_step. rewrite E. apply Hfin.
      * rewrite (same_chans _ _ H2). simpl. by rewrite (same_chans _ _ H1).
      * by rewrite (same_heap _ _ H2), <- (same_heap _ _ H1).
      * by rewrite (same_packets _ _ H2), <- (same_packets _ _ H1).
    + wp_step. rewrite E. apply Hfin; simpl; [by rewrite (same_chans _ _ H1)|apply H1..].
Qed.

Lemma wp_channel_data transport_send data d s p c datalen :
  conn_ok s -> s_heap s !! data = Some d -> sole_channel s p c -> data_message c d datalen 9 ->
  wp (add_channel_data transport_send data SSH_MSG_CHANNEL_DATA datalen)
    (data_post data p c datalen s) s.
Proof.
  intros Hok Hl Hsole (Hid & Hlen & Hsz). pose proof Hsole as (_ & Hp & _).
  destruct (chan_lookup_ok s p c Hok Hp) as [_ [_ _ Hw Hps] Ha _]. unfold is_u32 in *.
  unfold add_channel_data. change (if _ =? _ then 4 + 9 else 9) with 9. cbv zeta.
  destruct (Z.leb_spec 9 datalen); [|lia].
  do 2 wp_step. eapply wp_block; [done|]. wp_step. eapply wp_access; [exact Hid|].
  apply (wp_locate_sole s p c); [done..|]. wp_step. eapply wp_chan; [done|].
  rewrite andb_false_r. wp_step. wp_step; breflect; wp_step.
  - apply wp_error. intros s2 H2 _. wp_step. apply wp_data_window; try done; [by rewrite Hl|lia..].
  - apply wp_data_window; try done; [by rewrite Hl|lia..].
Qed.

(** C36: flow control on receipt. For a data message on a channel of the session,
    when the window still has room, [_libssh2_packet_add] queues exactly
    [min(bytes received, packet size offered, window left)] bytes of it and adds
    that number to [read_avail], which therefore never exceeds the window, and
    the far side's EOF mark is withdrawn; when the window is full the message is
    dropped and its payload freed. *)
Theorem channel_data_window transport_send data d s p c datalen :
  conn_ok s -> s_heap s !! data = Some d -> sole_channel s p c -> data_message c d datalen 9 ->
  exists r s', add_channel_data transport_send data SSH_MSG_CHANNEL_DATA datalen s = Ret r s' /\
    if decide (read_avail c < cd_window_size (remote c)) then
      let n := accepted_len c (datalen - 9) in
      r = SQueue (n + 9) 9 /\ 0 <= n <= datalen - 9 /\
      read_avail c + n <= cd_window_size (remote c) /\
      s_chans s' = <[p := c <| remote ::= fun r => r <| cd_eof := false |> |>
                            <| read_avail := read_avail c + n |>]> (s_chans s) /\
      s_heap s' = s_heap s
    else r = SReturn 0 /\ s_chans s' = s_chans s /\ s_heap s' = delete data (s_heap s).
Proof.
  intros Hok Hl Hsole Hmsg. pose proof Hsole as (_ & Hp & _).
  destruct (chan_lookup_ok s p c Hok Hp) as [_ [_ _ Hw Hps] Ha _]. unfold is_u32 in *.
  destruct (wp_Ret _ _ _ (wp_channel_data transport_send data d s p c datalen Hok Hl Hsole Hmsg))
    as (r & s' & E & Hpost).
  destruct Hmsg as (_ & Hlen & _).
  exists r, s'. split; [done|]. unfold data_post in Hpost. case_decide; [|done].
  destruct Hpost as (? & ? & ? & ?). split_and!; try done; unfold accepted_len; lia.
Qed.

Lemma channel_data_window_witness :
  exists r s', add_channel_data send_ok 2%positive SSH_MSG_CHANNEL_DATA 12
      (sample_session sample_channel [SSH_MSG_CHANNEL_DATA; 0; 0; 0; 0; 0; 0; 0; 3; 65; 66; 67])
    = Ret r s' /\ r = SQueue 12 9 /\ read_avail <$> s_chans s' !! 1%positive = Some 3.
Proof.
  destruct (channel_data_window send_ok 2%positive
    [SSH_MSG_CHANNEL_DATA; 0; 0; 0; 0; 0; 0; 0; 3; 65; 66; 67]
    (sample_session sample_channel [SSH_MSG_CHANNEL_DATA; 0; 0; 0; 0; 0; 0; 0; 3; 65; 66; 67])
    1%positive sample_channel 12) as (r & s' & E & Hr).
  - apply sample_conn_ok; [apply sample_channel_ok|by apply (bool_decide_unpack _)].
  - apply lookup_singleton_eq.
  - split_and!; [by left|apply lookup_singleton_eq|].
    intros q c' Hq _ _. by apply list_elem_of_singleton in Hq.
  - split_and!; [reflexivity|..]; unfold lenZ; simpl; lia.
  - exists r, s'. split; [exact E|]. destruct Hr as (-> & _ & _ & -> & _). split; [reflexivity|].
    rewrite lookup_insert_eq. reflexivity.
Defined.

(** ** Resuming a suspended [_libssh2_packet_add] *)

(** A session whose channel ignores extended data, and such a message. *)
Definition ignoring_channel : channel :=
  sample_channel <| remote ::= fun r =>
    r <| cd_extended_data_ignore_mode := LIBSSH2_CHANNEL_EXTENDED_DATA_IGNORE |> |>.

Definition extended_data_message : list Z :=
  [SSH_MSG_CHANNEL_EXTENDED_DATA; 0; 0; 0; 0; 0; 0; 0; 1; 0; 0; 0; 3; 65; 66; 67].

(** a suspended packet whose payload is gone. When extended data arrives on a
    channel that ignores it and the window adjustment cannot be sent at once,
    [_libssh2_packet_add] has already freed the payload when it returns
    [LIBSSH2_ERROR_EAGAIN]; the call that resumes it begins by reading the
    message number from that payload, whatever the transport does then. *)
Theorem ignored_extended_data_resume :
  exists s1,
    packet_add send_eagain (ret 0) 2%positive 16 LIBSSH2_MAC_CONFIRMED
      (sample_session ignoring_channel extended_data_message) = Ret LIBSSH2_ERROR_EAGAIN s1 /\
    packAdd_state s1 = libssh2_NB_state_jump1 /\ s_heap s1 = ∅ /\
    forall transport_send kex_exchange datalen macstate,
      packet_add transport_send kex_exchange 2%positive datalen macstate s1 = Fault.
Proof. eexists. split_and!; [vm_compute; reflexivity|reflexivity|reflexivity|]. intros. reflexivity. Qed.

(** A session that listens on port 22 of host "h", and a connection to it. *)
Definition forwarded_open : list Z :=
  SSH_MSG_CHANNEL_OPEN :: htonu32 15 ++ str "forwarded-tcpip" ++ htonu32 9 ++ htonu32 100 ++
  htonu32 50 ++ htonu32 1 ++ str "h" ++ htonu32 22 ++ htonu32 1 ++ str "k" ++ htonu32 80.

Definition listening_session : session :=
  (sample_session sample_channel forwarded_open) <| listeners := [mk_listener (str "h") 22 [] 0 5 libssh2_NB_state_idle None] |>.

(** a forwarded connection that is confirmed and lost. When the confirmation
    of a forwarded connection cannot be sent at once, the call that resumes
    [packet_queue_listener] first clears [listen_state->channel]; it then sends
    the confirmation and returns 0, but the channel it confirmed to the peer is
    neither in the listener's queue nor among the session's channels. Without
    the suspension the channel is queued. *)
Theorem forwarded_open_resume :
  (exists s', packet_add send_ok (ret 0) 2%positive (lenZ forwarded_open) LIBSSH2_MAC_CONFIRMED
       listening_session = Ret 0 s' /\ queue <$> listeners s' = [[3%positive]]) /\
  exists s1 s2,
    packet_add send_eagain (ret 0) 2%positive (lenZ forwarded_open) LIBSSH2_MAC_CONFIRMED
      listening_session = Ret LIBSSH2_ERROR_EAGAIN s1 /\
    packet_add send_ok (ret 0) 2%positive (lenZ forwarded_open) LIBSSH2_MAC_CONFIRMED s1 = Ret 0 s2 /\
    is_Some (s_chans s2 !! 3%positive) /\
    queue <$> listeners s2 = [[]] /\ channels s2 = [1%positive].
Proof.
  split.
  - eexists. split; [vm_compute; reflexivity|reflexivity].
  - do 2 eexists. split_and!; [vm_compute; reflexivity|vm_compute; reflexivity|eexists; reflexivity|reflexivity..].
Qed.

Definition x11_open : list Z :=
  SSH_MSG_CHANNEL_OPEN :: htonu32 3 ++ str "x11" ++ htonu32 9 ++ htonu32 100 ++
  htonu32 50 ++ htonu32 1 ++ str "h" ++ htonu32 22.

(** an X11 connection that ends in a null dereference. When the confirmation
    of an X11 channel cannot be sent at once, the channel is not recorded in
    [x11open_state], and the call that sends the confirmation after all links a
    null channel into the session's list. *)
Theorem x11_open_resume :
  exists s1,
    packet_add send_eagain (ret 0) 2%positive (lenZ x11_open) LIBSSH2_MAC_CONFIRMED
      ((sample_session sample_channel x11_open) <| cb_x11 := true |>) = Ret LIBSSH2_ERROR_EAGAIN s1 /\
    packAdd_x11open_state s1 = (packAdd_x11open_state s1) <| x11_channel := None |> /\
    packet_add send_ok (ret 0) 2%positive (lenZ x11_open) LIBSSH2_MAC_CONFIRMED s1 = Fault.
Proof. eexists. split_and!; [vm_compute; reflexivity|reflexivity|vm_compute; reflexivity]. Qed.

(** An exit-signal request whose name is said to have 200 bytes and has none. *)
Definition exit_signal_message : list Z :=
  SSH_MSG_CHANNEL_REQUEST :: htonu32 0 ++ htonu32 11 ++ str "exit-signal" ++ [0] ++ htonu32 200.

(** the name of an exit signal that was never filled in. When the length the
    peer gives for the signal name exceeds the message, the message is still
    accepted, and [exit_signal] is an allocated block whose contents were never
    written. *)
Theorem exit_signal_uninitialised :
  exists s1,
    packet_add send_ok (ret 0) 2%positive (lenZ exit_signal_message) LIBSSH2_MAC_CONFIRMED
      (sample_session sample_channel exit_signal_message) = Ret 0 s1 /\
    exit_signal <$> s_chans s1 !! 1%positive = Some (Some (NameUninit 201)).
Proof. eexists. split; [vm_compute; reflexivity|reflexivity]. Qed.
