(* ===== verification/PacketWait.v ===== *)
(** * Waiting for packets (packet.c)

    [_libssh2_packet_require], [_libssh2_packet_requirev] and
    [_libssh2_packet_burn]: they read from the transport until a packet they
    look for is in the queue. How many packets of other types arrive first is
    up to the peer, so the loops run on fuel; the theorems give a sufficient
    amount in terms of what the peer has sent. *)

From stdpp Require Import base numbers list gmap strings.
From S2P Require Import Prelude Codes Wire Session ChannelWindow Packet Conn PacketSafety PacketSpec.

(** A return code with the packet handed over, if any, and the state's
    [start] field. *)
Definition require_result : Type := Z * option (ptr * Z) * Z.

Section Wait.
(** [_libssh2_transport_read(session)]. *)
Context (transport_read : CM Z).

(** The return value of [_libssh2_packet_ask]. *)
Definition ask_rc (r : option (ptr * Z)) : Z := match r with Some _ => 0 | None => -1 end.

(** The [while] loop of [_libssh2_packet_require]. *)
Fixpoint packet_require_loop (fuel : nat) (packet_type match_ofs : Z) (match_buf : option (list Z))
    (start : Z) : CM require_result :=
  match fuel with
  | O => fun _ => OutOfFuel
  | S fuel =>
      let! st := gets socket_state in
      if st =? LIBSSH2_SOCKET_CONNECTED then
        let! rc := transport_read in
        if rc =? LIBSSH2_ERROR_EAGAIN then ret (rc, None, start)
        else if rc <? 0 then ret (rc, None, 0)
        else if rc =? packet_type then
          let! r := packet_ask packet_type match_ofs match_buf in ret (ask_rc r, r, 0)
        else if rc =? 0 then
          let! now := time in
          if LIBSSH2_READ_TIMEOUT - (now - start) <=? 0
          then ret (LIBSSH2_ERROR_TIMEOUT, None, 0)
          else ret (-1, None, start)
        else packet_require_loop fuel packet_type match_ofs match_buf start
      else ret (LIBSSH2_ERROR_SOCKET_DISCONNECT, None, start)
  end.

(** [_libssh2_packet_require]. *)
Definition packet_require (fuel : nat) (packet_type match_ofs : Z) (match_buf : option (list Z))
    (start : Z) : CM require_result :=
  if start =? 0 then
    let! r := packet_ask packet_type match_ofs match_buf in
    match r with
    | Some x => ret (0, Some x, start)
    | None =>
        let! now := time in packet_require_loop fuel packet_type match_ofs match_buf now
    end
  else packet_require_loop fuel packet_type match_ofs match_buf start.

(** [strchr(packet_types, ret)] on the zero-terminated array: the terminator
    counts, and [ret] is converted to [char]. *)
Definition types_mem (packet_types : list Z) (rc : Z) : bool :=
  bool_decide (u8 rc ∈ packet_types ++ [0]).

Fixpoint packet_requirev_loop (fuel : nat) (packet_types : list Z) (match_ofs : Z)
    (match_buf : option (list Z)) (start : Z) : CM require_result :=
  match fuel with
  | O => fun _ => OutOfFuel
  | S fuel =>
      let! st := gets socket_state in
      if negb (st =? LIBSSH2_SOCKET_DISCONNECTED) then
        let! rc := transport_read in
        if (rc <? 0) && negb (rc =? LIBSSH2_ERROR_EAGAIN) then ret (rc, None, 0)
        else
          let! early :=
            (if rc <=? 0 then
               let! now := time in
               if LIBSSH2_READ_TIMEOUT - (now - start) <=? 0
               then ret (Some (LIBSSH2_ERROR_TIMEOUT, 0))
               else if rc =? LIBSSH2_ERROR_EAGAIN then ret (Some (rc, start)) else ret None
             else ret None) in
          match early with
          | Some (code, start) => ret (code, None, start)
          | None =>
              if types_mem packet_types rc then
                let! r := packet_askv packet_types match_ofs match_buf in ret (ask_rc r, r, 0)
              else packet_requirev_loop fuel packet_types match_ofs match_buf start
          end
      else ret (LIBSSH2_ERROR_SOCKET_DISCONNECT, None, 0)
  end.

(** [_libssh2_packet_requirev]. *)
Definition packet_requirev (fuel : nat) (packet_types : list Z) (match_ofs : Z)
    (match_buf : option (list Z)) (start : Z) : CM require_result :=
  let! r := packet_askv packet_types match_ofs match_buf in
  match r with
  | Some x => ret (0, Some x, 0)
  | None =>
      let! start := (if start =? 0 then time else ret start) in
      packet_requirev_loop fuel packet_types match_ofs match_buf start
  end.

(** The [while] loop of [_libssh2_packet_burn]; the result is the return code
    and the new [*state]. *)
Fixpoint packet_burn_loop (fuel : nat) (state : libssh2_nonblocking_states) :
    CM (Z * libssh2_nonblocking_states) :=
  match fuel with
  | O => fun _ => OutOfFuel
  | S fuel =>
      let! st := gets socket_state in
      if st =? LIBSSH2_SOCKET_CONNECTED then
        let! rc := transport_read in
        if rc =? LIBSSH2_ERROR_EAGAIN then ret (rc, state)
        else if rc <? 0 then ret (rc, libssh2_NB_state_idle)
        else if rc =? 0 then packet_burn_loop fuel state
        else
          let! r := packet_ask (u8 rc) 0 None in
          match r with
          | Some (data, _) => free_block data ;; ret (rc, libssh2_NB_state_idle)
          | None => packet_burn_loop fuel state
          end
      else ret (LIBSSH2_ERROR_SOCKET_DISCONNECT, state)
  end.

(** [_libssh2_packet_burn]; [all_packets] is 1, 2, ..., 254. *)
Definition packet_burn (fuel : nat) (state : libssh2_nonblocking_states) :
    CM (Z * libssh2_nonblocking_states) :=
  if nb_is state libssh2_NB_state_idle then
    let! r := packet_askv (seqZ 1 254) 0 None in
    match r with
    | Some (data, _) =>
        let! d := block data in
        let! i := access (byte_at d 0) in
        free_block data ;;
        ret (i, state)
    | None => packet_burn_loop fuel libssh2_NB_state_created
    end
  else packet_burn_loop fuel state.
End Wait.

(** ** What is handed over *)

(** A packet taken from the queue: a live payload that the queue no longer
    refers to, of the type and with the bytes asked for. *)
Definition handed (ty ofs : Z) (buf : option (list Z)) (x : ptr * Z) (s : session) : Prop :=
  exists d, s_heap s !! fst x = Some d /\ byte_at d 0 = Some ty /\ snd x <= lenZ d /\
    (forall m, buf = Some m -> ofs + lenZ m <= snd x /\ slice ofs (lenZ m) d = m) /\
    fst x ∉ pk_data <$> packets s.

(** Dropping a packet from the queue keeps the invariant. *)
Lemma conn_ok_unlink s i :
  conn_ok s -> conn_ok (s <| packets := delete i (packets s) |>).
Proof.
  intros [H1 H2 H3 H4 H5 H6 H7 H8 H9]. split; simpl; try done.
  - by apply Forall_delete.
  - rewrite list_fmap_delete. eapply sublist_NoDup; [exact H6|]. apply sublist_delete.
Qed.

Lemma asked_handed s ty ofs buf i p :
  conn_ok s -> packets s !! i = Some p -> asked (s_heap s) ty ofs buf p = true ->
  handed ty ofs buf (pk_data p, pk_data_len p) (s <| packets := delete i (packets s) |>).
Proof.
  intros Hok Hi Ha. destruct (Forall_lookup_1 _ _ _ _ (ok_packets s Hok) Hi) as (d & Hd & _ & _ & Hn).
  unfold asked in Ha. rewrite Hd in Ha. breflect. exists d. simpl. split_and!; try done.
  - intros m ->. breflect. done.
  - pose proof (ok_nodup s Hok) as Hnd. rewrite (delete_Permutation _ _ _ Hi), fmap_cons in Hnd.
    by apply NoDup_cons in Hnd as [? _].
Qed.

Lemma wp_packet_ask s ty ofs buf (Q : option (ptr * Z) -> session -> Prop) :
  conn_ok s -> 0 <= ofs -> Q None s ->
  (forall x s', conn_ok s' -> handed ty ofs buf x s' -> Q (Some x) s') ->
  wp (packet_ask ty ofs buf) Q s.
Proof.
  intros Hok Hofs Hn Hs. unfold packet_ask. do 2 wp_step. unfold wp.
  rewrite packet_ask_loop_spec by (done || apply Hok).
  destruct (list_find _ (packets s)) as [[i p]|] eqn:F; [|done].
  apply list_find_Some in F as (? & ? & _). apply Hs; [by apply conn_ok_unlink|by apply asked_handed].
Qed.

(** One of several types. *)
Lemma wp_packet_askv s tys ofs buf (Q : option (ptr * Z) -> session -> Prop) :
  conn_ok s -> 0 <= ofs -> Q None s ->
  (forall ty x s', ty ∈ tys -> conn_ok s' -> handed ty ofs buf x s' -> Q (Some x) s') ->
  wp (packet_askv tys ofs buf) Q s.
Proof.
  intros Hok Hofs Hn. induction tys as [|ty tys IH]; intros Hs; cbn [packet_askv]; [by wp_step|].
  wp_step. apply wp_packet_ask; [done..| |].
  - apply IH. intros ty' x s' ?. apply (Hs ty'). by right.
  - intros x s' ? ?. wp_step. apply (Hs ty); [left|done..].
Qed.

(** ** The transport's side *)

(** What the waiting loops rely on, from states that are [ready]: reading keeps the
    connection layer's invariant, and after a positive return value (the type of a packet
    that was received) the state is ready again and something of what the peer has sent,
    counted by [pending], is used up. TransportWait proves it of
    [_libssh2_transport_read]. *)
Class TransportRead (transport_read : CM Z) (ready : session -> Prop) (pending : session -> nat) : Prop := {
  ready_conn : forall s, ready s -> conn_ok s;
  ready_clock : forall s c, ready s -> ready (s <| s_clock := c |>) /\ pending (s <| s_clock := c |>) = pending s;
  transport_read_spec : forall s, ready s ->
    wp transport_read (fun rc s' => conn_ok s' /\ (0 < rc -> ready s' /\ (pending s' < pending s)%nat)) s
}.

(** The outcome of a wait for one of [tys]: a packet exactly when the return
    value is 0, and a negative code otherwise. *)
Definition waited (tys : list Z) (ofs : Z) (buf : option (list Z)) (r : require_result)
    (s : session) : Prop :=
  conn_ok s /\
  match r with
  | (rc, Some x, _) => rc = 0 /\ exists ty, ty ∈ tys /\ handed ty ofs buf x s
  | (rc, None, _) => rc < 0
  end.

Lemma wp_time (Q : Z -> session -> Prop) s :
  (forall t c, Q t (s <| s_clock := c |>)) -> wp time Q s.
Proof.
  intros H. unfold wp, time. destruct (s_clock s) as [|t rest] eqn:E; [|apply H].
  specialize (H 0 (s_clock s)). by destruct s.
Qed.

Lemma conn_ok_clock s c : conn_ok s -> conn_ok (s <| s_clock := c |>).
Proof. apply same_conn_ok. by split. Qed.

Section WaitOk.
Context (transport_read : CM Z) (ready : session -> Prop) (pending : session -> nat).
Context `{!TransportRead transport_read ready pending}.
Implicit Types s : session.

Lemma packet_require_loop_ok fuel ty ofs buf start s :
  ready s -> 0 <= ofs -> (pending s < fuel)%nat ->
  wp (packet_require_loop transport_read fuel ty ofs buf start) (waited [ty] ofs buf) s.
Proof.
  intros Hok Hofs. revert s Hok. induction fuel as [|fuel IH]; intros s Hok Hf; [lia|].
  pose proof (ready_conn s Hok). cbn [packet_require_loop]. do 2 wp_step. wp_step; [|wp_step; done]. wp_step.
  eapply wp_mono; [by apply transport_read_spec|]. intros rc s1 (Hok1 & Hp).
  wp_step; [wp_step; breflect; by subst|]. wp_step; [wp_step; breflect; by split|].
  breflect. wp_step; breflect.
  - wp_step. apply wp_packet_ask; [done..|by wp_step|]. intros x s2 ? ?. wp_step.
    split_and!; [done|done|]. exists ty. split; [by left|done].
  - wp_step; breflect; [|destruct Hp; [lia|]; apply IH; [done|lia]]. wp_step. apply wp_time. intros now c.
    pose proof (conn_ok_clock _ c Hok1) as Hc. wps; by split.
Qed.

Lemma packet_requirev_loop_ok fuel tys ofs buf start s :
  ready s -> 0 <= ofs -> (pending s < fuel)%nat ->
  wp (packet_requirev_loop transport_read fuel tys ofs buf start) (waited tys ofs buf) s.
Proof.
  intros Hok Hofs. revert s Hok. induction fuel as [|fuel IH]; intros s Hok Hf; [lia|].
  pose proof (ready_conn s Hok). cbn [packet_requirev_loop]. do 2 wp_step. wp_step; [|wp_step; done]. wp_step.
  eapply wp_mono; [by apply transport_read_spec|]. intros rc s1 (Hok1 & Hp).
  wp_step; [wp_step; breflect; by split|].
  assert (Hask : forall s2, conn_ok s2 ->
    wp (let! r := packet_askv tys ofs buf in ret (ask_rc r, r, 0)) (waited tys ofs buf) s2).
  { intros s2 Hok2. wp_step. apply wp_packet_askv; [done..|by wp_step|].
    intros ty x s3 ? ? ?. wp_step. split_and!; [done|done|]. by exists ty. }
  wp_step. wp_step; breflect.
  - wp_step. apply wp_time. intros now c. pose proof (conn_ok_clock _ c Hok1) as Hc.
    wp_step; [wps; by split|]. wp_step; breflect; [wps; subst; by split|].
    wp_step. replace rc with 0 by (destruct E0; breflect; [lia|done]).
    assert (Hm : types_mem tys 0 = true).
    { apply bool_decide_eq_true. apply elem_of_app. right. by apply list_elem_of_singleton. }
    cbn iota. rewrite Hm. by apply Hask.
  - wps_to Hask; [done|]. destruct Hp; [lia|]. apply IH; [done|lia].
Qed.

Lemma packet_require_ok fuel ty ofs buf start s :
  ready s -> 0 <= ofs -> (pending s < fuel)%nat ->
  wp (packet_require transport_read fuel ty ofs buf start) (waited [ty] ofs buf) s.
Proof.
  intros Hok Hofs Hf. pose proof (ready_conn s Hok). unfold packet_require. wp_step; [|by apply packet_require_loop_ok].
  wp_step. apply wp_packet_ask; [done..| |].
  - wp_step. apply wp_time. intros now c. destruct (ready_clock s c Hok) as [? Hp].
    apply packet_require_loop_ok; [done|done|by rewrite Hp].
  - intros x s1 ? ?. wp_step. split_and!; [done|done|]. exists ty. split; [by left|done].
Qed.

Lemma packet_requirev_ok fuel tys ofs buf start s :
  ready s -> 0 <= ofs -> (pending s < fuel)%nat ->
  wp (packet_requirev transport_read fuel tys ofs buf start) (waited tys ofs buf) s.
Proof.
  intros Hok Hofs Hf. pose proof (ready_conn s Hok). unfold packet_requirev. wp_step. apply wp_packet_askv; [done..| |].
  - do 2 wp_step.
    + apply wp_time. intros now c. destruct (ready_clock s c Hok) as [? Hp].
      apply packet_requirev_loop_ok; [done|done|by rewrite Hp].
    + wp_step. by apply packet_requirev_loop_ok.
  - intros ty x s1 ? ? ?. wp_step. split_and!; [done|done|]. by exists ty.
Qed.

(** *** What arrives is handed over *)

(** A packet that is asked for is in the queue. *)
Definition found (tys : list Z) (ofs : Z) (buf : option (list Z)) (s : session) : Prop :=
  exists ty p, ty ∈ tys /\ p ∈ packets s /\ asked (s_heap s) ty ofs buf p = true.

(** The reads from [s] on deliver packets, of other types first, and then one of a type that
    is waited for, by which a packet that is asked for is in the queue. *)
Inductive arrives (wanted : Z -> bool) (tys : list Z) (ofs : Z) (buf : option (list Z)) : session -> Prop :=
| Arrives_now s rc s1 : socket_state s = LIBSSH2_SOCKET_CONNECTED -> transport_read s = Ret rc s1 -> 0 < rc ->
    wanted rc = true -> found tys ofs buf s1 -> arrives wanted tys ofs buf s
| Arrives_later s rc s1 : socket_state s = LIBSSH2_SOCKET_CONNECTED -> transport_read s = Ret rc s1 -> 0 < rc ->
    wanted rc = false -> arrives wanted tys ofs buf s1 -> arrives wanted tys ofs buf s.

Lemma ask_found ty ofs buf s r s' : conn_ok s -> 0 <= ofs -> found [ty] ofs buf s ->
  packet_ask ty ofs buf s = Ret r s' -> is_Some r.
Proof.
  intros Hok Hofs (t & p & ->%list_elem_of_singleton & Hp & Ha). pose proof (packet_ask_first_match s ty ofs buf Hok Hofs) as H.
  destruct (list_find _ _) as [[i q]|]; [destruct H as [-> _]; by intros [= <- <-]|].
  destruct H as [_ H]. by rewrite H in Ha.
Qed.

Lemma askv_found tys ofs buf s r s' : conn_ok s -> 0 <= ofs -> found tys ofs buf s ->
  packet_askv tys ofs buf s = Ret r s' -> is_Some r.
Proof.
  intros Hok Hofs. induction tys as [|ty tys IH]; [by intros (? & ? & ?%elem_of_nil & _)|].
  intros (t & p & Ht & Hp & Ha). cbn [packet_askv]. unfold bind. pose proof (packet_ask_first_match s ty ofs buf Hok Hofs) as H.
  destruct (list_find _ _) as [[i q]|]; [destruct H as [-> _]; by intros [= <- <-]|]. destruct H as [-> H].
  apply IH. exists t, p. split_and!; [|done|done]. apply elem_of_cons in Ht as [->|?]; [|done]. by rewrite H in Ha.
Qed.

Lemma ready_read s rc s1 : ready s -> transport_read s = Ret rc s1 -> 0 < rc -> ready s1.
Proof. intros Hs E H0. pose proof (transport_read_spec s Hs) as H. unfold wp in H. rewrite E in H. by apply H. Qed.

Lemma require_loop_arrives ty ofs buf s : 0 <= ofs -> arrives (Z.eqb ty) [ty] ofs buf s -> ready s ->
  forall fuel start r s', packet_require_loop transport_read fuel ty ofs buf start s = Ret r s' -> r.1.1 = 0.
Proof.
  intros Hofs Ha. induction Ha as [s rc s1 Hst E H0 Hw Hf|s rc s1 Hst E H0 Hw _ IH]; intros Hs [|fuel] start r s'; try done;
    cbn [packet_require_loop]; unfold bind, gets; rewrite Hst, Z.eqb_refl, E;
    pose proof (ready_read _ _ _ Hs E H0) as Hs1;
    (destruct (Z.eqb_spec rc LIBSSH2_ERROR_EAGAIN) as [->|_]; [done|]); (destruct (Z.ltb_spec rc 0); [lia|]); rewrite Z.eqb_sym, Hw.
  - destruct (packet_ask ty ofs buf s1) as [x s2| |] eqn:Ex; [|done..]. intros [= <- <-]. simpl.
    eapply ask_found in Ex as [y ->]; try done. by apply ready_conn.
  - destruct (Z.eqb_spec rc 0); [lia|]. by apply IH.
Qed.

Lemma requirev_loop_arrives tys ofs buf s : 0 <= ofs -> arrives (types_mem tys) tys ofs buf s -> ready s ->
  forall fuel start r s', packet_requirev_loop transport_read fuel tys ofs buf start s = Ret r s' -> r.1.1 = 0.
Proof.
  intros Hofs Ha. induction Ha as [s rc s1 Hst E H0 Hw Hf|s rc s1 Hst E H0 Hw _ IH]; intros Hs [|fuel] start r s'; try done;
    cbn [packet_requirev_loop]; unfold bind, gets; rewrite Hst; change (negb (LIBSSH2_SOCKET_CONNECTED =? LIBSSH2_SOCKET_DISCONNECTED)) with true; cbn iota beta; rewrite E;
    pose proof (ready_read _ _ _ Hs E H0) as Hs1; (destruct (Z.ltb_spec rc 0); [lia|]); (destruct (Z.leb_spec rc 0); [lia|]);
    cbn [andb]; cbn iota; unfold ret at 1; rewrite Hw.
  - destruct (packet_askv tys ofs buf s1) as [x s2| |] eqn:Ex; [|done..]. intros [= <- <-]. simpl.
    eapply askv_found in Ex as [y ->]; try done. by apply ready_conn.
  - by apply IH.
Qed.

(** The state in which the waiting begins: the clock has been read on a first call. *)
Definition waiting_from (start : Z) (s : session) : session :=
  if start =? 0 then match time s with Ret _ s' => s' | _ => s end else s.

Lemma ready_time s t s' : ready s -> time s = Ret t s' -> ready s'.
Proof. unfold time. destruct (s_clock s) as [|c l]; intros H [= <- <-]; [done|exact (proj1 (ready_clock s l H))]. Qed.

Lemma require_arrives ty ofs buf start s fuel r s' : 0 <= ofs -> ready s ->
  start = 0 /\ found [ty] ofs buf s \/ arrives (Z.eqb ty) [ty] ofs buf (waiting_from start s) ->
  packet_require transport_read fuel ty ofs buf start s = Ret r s' -> r.1.1 = 0.
Proof.
  intros Hofs Hs Ha. unfold packet_require, waiting_from in *. destruct (Z.eqb_spec start 0) as [->|Hne].
  2: { destruct Ha as [[? _]|Ha]; [done|]. by apply require_loop_arrives. }
  intros (x & s1 & E1 & E)%bind_Ret_inv. pose proof (ready_conn s Hs) as Hok.
  destruct x as [x|]; [by injection E as <- <-|]. destruct Ha as [[_ Ha]|Ha]; [by eapply ask_found in E1 as [? ?]|].
  assert (s1 = s) as ->.
  { pose proof (packet_ask_first_match s ty ofs buf Hok Hofs) as H. destruct (list_find _ _) as [[i q]|]; destruct H as [H _]; congruence. }
  apply bind_Ret_inv in E as (now & s2 & E2 & E). rewrite E2 in Ha. eapply require_loop_arrives; [done|exact Ha|by eapply ready_time|exact E].
Qed.

Lemma askv_none tys ofs buf s s' : conn_ok s -> 0 <= ofs -> packet_askv tys ofs buf s = Ret None s' -> s' = s.
Proof.
  intros Hok Hofs. induction tys as [|ty tys IH]; cbn [packet_askv]; [by intros [= <-]|]. unfold bind.
  pose proof (packet_ask_first_match s ty ofs buf Hok Hofs) as H.
  destruct (list_find _ _) as [[i q]|]; destruct H as [-> _]; [by intros|done].
Qed.

Lemma requirev_arrives tys ofs buf start s fuel r s' : 0 <= ofs -> ready s ->
  found tys ofs buf s \/ arrives (types_mem tys) tys ofs buf (waiting_from start s) ->
  packet_requirev transport_read fuel tys ofs buf start s = Ret r s' -> r.1.1 = 0.
Proof.
  intros Hofs Hs Ha. unfold packet_requirev. intros (x & s1 & E1 & E)%bind_Ret_inv. pose proof (ready_conn s Hs) as Hok.
  destruct x as [x|]; [by injection E as <- <-|]. destruct Ha as [Ha|Ha]; [by eapply askv_found in E1 as [? ?]|].
  apply askv_none in E1 as ->; [|done..]. apply bind_Ret_inv in E as (now & s2 & E2 & E). unfold waiting_from in Ha. destruct (start =? 0).
  - rewrite E2 in Ha. eapply requirev_loop_arrives; [done|exact Ha|by eapply ready_time|exact E].
  - injection E2 as <- <-. eapply requirev_loop_arrives; [done|exact Ha|done|exact E].
Qed.
End WaitOk.
