(* ===== verification/ChannelIO.v ===== *)
(** * Channel input and output (channel.c)

    Reading, writing, flushing and the end-of-file state of a channel. The
    functions take the channel by pointer; [buf] arguments are the caller's
    bytes, and what a function stores into the caller's buffer is part of its
    result. *)

From stdpp Require Import base numbers list gmap strings.
From S2P Require Import Prelude Codes Wire Session ChannelWindow Packet.

Section ChannelIO.
Context (transport_send : list Z -> list Z -> CM Z) (transport_read : CM Z).

(** [do { rc = _libssh2_transport_read(session); } while(rc > 0);] *)
Fixpoint transport_drain (fuel : nat) : CM Z :=
  match fuel with
  | O => fun _ => OutOfFuel
  | S fuel =>
      let! rc := transport_read in
      if 0 <? rc then transport_drain fuel else ret rc
  end.

(** ** Reading *)

(** Whether the packet with the payload [d] and the length [len], sent to the
    channel number [id], carries data of the stream [stream_id] of channel [c]. *)
Definition stream_packet (c : channel) (d : list Z) (len id stream_id : Z) : CM bool :=
  let! b := access (byte_at d 0) in
  if negb (stream_id =? 0) && (b =? SSH_MSG_CHANNEL_EXTENDED_DATA)
     && (cd_id (local c) =? id) && (9 <=? len)
  then let! sid := access (ntohu32 d 5) in ret (stream_id =? s32 sid)
  else ret (((stream_id =? 0) && (b =? SSH_MSG_CHANNEL_DATA) && (cd_id (local c) =? id))
            || ((stream_id =? 0) && (b =? SSH_MSG_CHANNEL_EXTENDED_DATA) && (cd_id (local c) =? id)
                && (cd_extended_data_ignore_mode (remote c) =? LIBSSH2_CHANNEL_EXTENDED_DATA_MERGE))).

(** The copying loop of [_libssh2_channel_read]: [seen] and [rest] are the
    packets before and after the cursor, [acc] the bytes copied so far. *)
Fixpoint read_loop (p : ptr) (stream_id buflen : Z) (seen rest : list packet) (acc : list Z) :
    CM (list Z) :=
  match rest with
  | [] => ret acc
  | k :: rest =>
      if lenZ acc <? buflen then
        if pk_data_len k <? 5 then
          (if pk_data_len k =? 1 then let! d := block (pk_data k) in access (byte_at d 0) else ret 0) ;;
          read_loop p stream_id buflen (seen ++ [k]) rest acc
        else
          let! d := block (pk_data k) in
          let! id := access (ntohu32 d 1) in
          set_chan p (fun c => c <| read_local_id := id |>) ;;
          let! c := chan p in
          let! m := stream_packet c d (pk_data_len k) id stream_id in
          if (m : bool) then
            let left := u64 (pk_data_len k - pk_data_head k) in
            let want := buflen - lenZ acc in
            let unlink := left <=? want in
            let bytes_want := if unlink then left else want in
            let! bytes := access (bytes_at d (pk_data_head k) bytes_want) in
            if unlink then
              modify (fun s => s <| packets := seen ++ rest |>) ;;
              free_block (pk_data k) ;;
              read_loop p stream_id buflen seen rest (acc ++ bytes)
            else
              let k' := k <| pk_data_head ::= Z.add bytes_want |> in
              modify (fun s => s <| packets := seen ++ k' :: rest |>) ;;
              read_loop p stream_id buflen (seen ++ [k']) rest (acc ++ bytes)
          else read_loop p stream_id buflen (seen ++ [k]) rest acc
      else ret acc
  end.

(** Widening the receive window at the start of [_libssh2_channel_read]; a
    non-zero result is returned to the caller. *)
Definition read_widen (p : ptr) (buflen : Z) : CM Z :=
  let! c := chan p in
  let r := remote c in
  if nb_is (read_state c) libssh2_NB_state_jump1
     || (cd_window_size r <? u64 (cd_window_size_initial r / 4 * 3 + buflen))
  then
    let adjustment := u32 (cd_window_size_initial r + buflen - cd_window_size r) in
    let adjustment := if adjustment <? LIBSSH2_CHANNEL_MINADJUST
                      then LIBSSH2_CHANNEL_MINADJUST else adjustment in
    set_chan p (fun c => c <| read_state := libssh2_NB_state_jump1 |>) ;;
    let! rc := channel_receive_window_adjust transport_send p adjustment false in
    if negb (rc =? 0) then ret rc
    else set_chan p (fun c => c <| read_state := libssh2_NB_state_idle |>) ;; ret 0
  else ret 0.

(** The part of [_libssh2_channel_read] after the transport has been drained
    with the result [rc]. *)
Definition read_collect (p : ptr) (stream_id buflen rc : Z) : CM (Z * list Z) :=
  let! ps := gets packets in
  let! bytes := read_loop p stream_id buflen [] ps [] in
  if lenZ bytes =? 0 then
    let! c := chan p in
    if cd_eof (remote c) || cd_close (remote c) then ret (0, [])
    else if negb (rc =? LIBSSH2_ERROR_EAGAIN) then ret (0, [])
    else let! e := error rc "would block" in ret (e, [])
  else
    set_chan p (fun c =>
      c <| read_avail := u32 (read_avail c - lenZ bytes) |>
        <| remote ::= fun r => r <| cd_window_size := u32 (cd_window_size r - lenZ bytes) |> |>) ;;
    ret (lenZ bytes, bytes).

(** [_libssh2_channel_read]: the return value and the bytes stored in [buf]. *)
Definition channel_read (fuel : nat) (p : ptr) (stream_id buflen : Z) : CM (Z * list Z) :=
  let! w := read_widen p buflen in
  if negb (w =? 0) then ret (w, [])
  else
    let! rc := transport_drain fuel in
    if (rc <? 0) && negb (rc =? LIBSSH2_ERROR_EAGAIN) then
      let! e := error rc "transport read" in ret (e, [])
    else read_collect p stream_id buflen rc.

(** [_libssh2_channel_packet_data_len]. *)
Fixpoint packet_data_len_loop (c : channel) (stream_id : Z) (rest : list packet) : CM Z :=
  match rest with
  | [] => ret 0
  | k :: rest =>
      if pk_data_len k <? 5 then packet_data_len_loop c stream_id rest
      else
        let! d := block (pk_data k) in
        let! id := access (ntohu32 d 1) in
        let! m := stream_packet c d (pk_data_len k) id stream_id in
        if (m : bool) then ret (u64 (pk_data_len k - pk_data_head k))
        else packet_data_len_loop c stream_id rest
  end.

Definition channel_packet_data_len (p : ptr) (stream_id : Z) : CM Z :=
  let! c := chan p in
  let! ps := gets packets in packet_data_len_loop c stream_id ps.

(** ** Writing *)

(** The message header [_libssh2_channel_write] prepares, and the number of
    bytes that go with it: at most what the peer's window and packet size
    allow. *)
Definition write_size (c : channel) (buflen : Z) : Z :=
  let n := buflen in
  let n := if cd_window_size (local c) <? n then cd_window_size (local c) else n in
  if cd_packet_size (local c) <? n then cd_packet_size (local c) else n.

Definition write_header (c : channel) (stream_id n : Z) : list Z :=
  let h := store_u32 [if stream_id =? 0 then SSH_MSG_CHANNEL_DATA else SSH_MSG_CHANNEL_EXTENDED_DATA]
             (cd_id (remote c)) in
  let h := if stream_id =? 0 then h else store_u32 h (u32 stream_id) in
  store_u32 h n.

(** The [libssh2_NB_state_created] part. *)
Definition write_send (p : ptr) (buf : list Z) : CM Z :=
  let! c := chan p in
  let! bytes := access (bytes_at buf 0 (write_bufwrite c)) in
  let! rc := transport_send (write_packet c) bytes in
  if rc =? LIBSSH2_ERROR_EAGAIN then error rc "Unable to send channel data"
  else if negb (rc =? 0) then
    set_chan p (fun c => c <| write_state := libssh2_NB_state_idle |>) ;;
    error rc "Unable to send channel data"
  else
    set_chan p (fun c =>
      c <| local ::= fun l => l <| cd_window_size := u32 (cd_window_size l - write_bufwrite c) |> |>
        <| write_state := libssh2_NB_state_idle |>) ;;
    ret (write_bufwrite c).

(** [_libssh2_channel_write]. *)
Definition channel_write (fuel : nat) (p : ptr) (stream_id : Z) (buf : list Z) : CM Z :=
  let buflen := if 32700 <? lenZ buf then 32700 else lenZ buf in
  let! c := chan p in
  if nb_is (write_state c) libssh2_NB_state_idle then
    if cd_close (local c) then error LIBSSH2_ERROR_CHANNEL_CLOSED "We've already closed this channel"
    else if cd_eof (local c) then
      error LIBSSH2_ERROR_CHANNEL_EOF_SENT "EOF has already been received, data might be ignored"
    else
      let! rc := transport_drain fuel in
      if (rc <? 0) && negb (rc =? LIBSSH2_ERROR_EAGAIN) then
        error rc "Failure while draining incoming flow"
      else
        let! c := chan p in
        if cd_window_size (local c) <=? 0 then
          modify (fun s => s <| socket_block_directions := LIBSSH2_SESSION_BLOCK_INBOUND |>) ;;
          ret (if rc =? LIBSSH2_ERROR_EAGAIN then rc else 0)
        else
          let n := write_size c buflen in
          set_chan p (fun c => c <| write_bufwrite := n |>
                                 <| write_packet := write_header c stream_id n |>
                                 <| write_state := libssh2_NB_state_created |>) ;;
          write_send p buf
  else if nb_is (write_state c) libssh2_NB_state_created then write_send p buf
  else ret LIBSSH2_ERROR_INVAL.

(** ** Flushing *)

(** The loop of [_libssh2_channel_flush]; [None] is the error return. *)
Fixpoint flush_loop (p : ptr) (streamid : Z) (seen rest : list packet) (refund flushed : Z) :
    CM (option (Z * Z)) :=
  match rest with
  | [] => ret (Some (refund, flushed))
  | k :: rest =>
      if pk_data_len k <? 1 then flush_loop p streamid (seen ++ [k]) rest refund flushed
      else
        let! d := block (pk_data k) in
        let! ty := access (byte_at d 0) in
        let! c := chan p in
        let! ours :=
          (if ((ty =? SSH_MSG_CHANNEL_DATA) || (ty =? SSH_MSG_CHANNEL_EXTENDED_DATA))
              && (5 <=? pk_data_len k)
           then let! id := access (ntohu32 d 1) in ret (id =? cd_id (local c))
           else ret false) in
        if (ours : bool) then
          let! sid :=
            (if ty =? SSH_MSG_CHANNEL_DATA then ret (Some 0)
             else if 9 <=? pk_data_len k then let! v := access (ntohu32 d 5) in ret (Some (s32 v))
             else ret None) in
          match sid with
          | None => ret None
          | Some packet_stream_id =>
              if (streamid =? LIBSSH2_CHANNEL_FLUSH_ALL)
                 || ((ty =? SSH_MSG_CHANNEL_EXTENDED_DATA)
                     && ((streamid =? LIBSSH2_CHANNEL_FLUSH_EXTENDED_DATA)
                         || (streamid =? packet_stream_id)))
                 || ((ty =? SSH_MSG_CHANNEL_DATA) && (streamid =? 0))
              then
                let bytes_to_flush := u64 (pk_data_len k - pk_data_head k) in
                free_block (pk_data k) ;;
                modify (fun s => s <| packets := seen ++ rest |>) ;;
                flush_loop p streamid seen rest (u64 (refund + (pk_data_len k - 13)))
                  (u64 (flushed + bytes_to_flush))
              else flush_loop p streamid (seen ++ [k]) rest refund flushed
          end
        else flush_loop p streamid (seen ++ [k]) rest refund flushed
  end.

(** The part of [_libssh2_channel_flush] after the loop. The return value is an
    [int]. *)
Definition flush_refund (p : ptr) : CM Z :=
  set_chan p (fun c =>
    c <| read_avail := u32 (read_avail c - flush_flush_bytes c) |>
      <| remote ::= fun r => r <| cd_window_size := u32 (cd_window_size r - flush_flush_bytes c) |> |>) ;;
  let! c := chan p in
  let! rc :=
    (if negb (flush_refund_bytes c =? 0)
     then channel_receive_window_adjust transport_send p (flush_refund_bytes c) true else ret 0) in
  if rc =? LIBSSH2_ERROR_EAGAIN then ret rc
  else
    set_chan p (fun c => c <| flush_state := libssh2_NB_state_idle |>) ;;
    let! c := chan p in ret (s32 (flush_flush_bytes c)).

(** [_libssh2_channel_flush]. While the loop runs, the running sums are in
    [flush_refund_bytes] and [flush_flush_bytes]; an error leaves them at an
    intermediate value nobody reads again (the idle state resets them). *)
Definition channel_flush (p : ptr) (streamid : Z) : CM Z :=
  let! c := chan p in
  if nb_is (flush_state c) libssh2_NB_state_idle then
    let! ps := gets packets in
    let! r := flush_loop p streamid [] ps 0 0 in
    match r with
    | None =>
        set_chan p (fun c => c <| flush_state := libssh2_NB_state_idle |>) ;;
        error LIBSSH2_ERROR_PROTO "Unexpected packet length"
    | Some (refund, flushed) =>
        set_chan p (fun c => c <| flush_refund_bytes := refund |> <| flush_flush_bytes := flushed |>
                               <| flush_state := libssh2_NB_state_created |>) ;;
        flush_refund p
    end
  else flush_refund p.

(** [_libssh2_channel_extended_data]; [(char)ignore_mode] is kept as it is for
    the three modes of the interface. The second test of the state repeats the
    first, after the first branch has changed it. *)
Definition channel_extended_data (p : ptr) (ignore_mode : Z) : CM Z :=
  let! c := chan p in
  (if nb_is (extData2_state c) libssh2_NB_state_idle then
     set_chan p (fun c =>
       c <| remote ::= fun r => r <| cd_extended_data_ignore_mode := ignore_mode |> |>
         <| extData2_state := libssh2_NB_state_created |>)
   else ret tt) ;;
  let! c := chan p in
  let! rc :=
    (if nb_is (extData2_state c) libssh2_NB_state_idle then
       if ignore_mode =? LIBSSH2_CHANNEL_EXTENDED_DATA_IGNORE
       then channel_flush p LIBSSH2_CHANNEL_FLUSH_EXTENDED_DATA else ret 0
     else ret 0) in
  if rc =? LIBSSH2_ERROR_EAGAIN then ret rc
  else set_chan p (fun c => c <| extData2_state := libssh2_NB_state_idle |>) ;; ret 0.

(** ** End of file *)

Fixpoint data_waiting (c : channel) (rest : list packet) : CM bool :=
  match rest with
  | [] => ret false
  | k :: rest =>
      if pk_data_len k <? 1 then data_waiting c rest
      else
        let! d := block (pk_data k) in
        let! ty := access (byte_at d 0) in
        let! ours :=
          (if ((ty =? SSH_MSG_CHANNEL_DATA) || (ty =? SSH_MSG_CHANNEL_EXTENDED_DATA))
              && (5 <=? pk_data_len k)
           then let! id := access (ntohu32 d 1) in ret (cd_id (local c) =? id)
           else ret false) in
        if (ours : bool) then ret true else data_waiting c rest
  end.

(** [libssh2_channel_eof]. *)
Definition channel_eof (p : ptr) : CM Z :=
  let! c := chan p in
  let! ps := gets packets in
  let! w := data_waiting c ps in
  ret (if (w : bool) then 0 else if cd_eof (remote c) then 1 else 0).

(** [channel_send_eof]. *)
Definition channel_send_eof (p : ptr) : CM Z :=
  let! c := chan p in
  let! rc := transport_send (SSH_MSG_CHANNEL_EOF :: htonu32 (cd_id (remote c))) [] in
  if rc =? LIBSSH2_ERROR_EAGAIN then error rc "Would block sending EOF" ;; ret rc
  else if negb (rc =? 0) then error LIBSSH2_ERROR_SOCKET_SEND "Unable to send EOF on channel"
  else set_chan p (fun c => c <| local ::= fun l => l <| cd_eof := true |> |>) ;; ret 0.

Fixpoint wait_eof_loop (fuel : nat) (p : ptr) : CM Z :=
  match fuel with
  | O => fun _ => OutOfFuel
  | S fuel =>
      let! c := chan p in
      let! block_mode := gets api_block_mode in
      if cd_eof (remote c) then
        set_chan p (fun c => c <| wait_eof_state := libssh2_NB_state_idle |>) ;; ret 0
      else if (cd_window_size (remote c) =? read_avail c) && block_mode then
        error LIBSSH2_ERROR_CHANNEL_WINDOW_FULL "Receiving channel window has been exhausted"
      else
        let! rc := transport_read in
        if rc =? LIBSSH2_ERROR_EAGAIN then ret rc
        else if rc <? 0 then
          set_chan p (fun c => c <| wait_eof_state := libssh2_NB_state_idle |>) ;;
          error rc "_libssh2_transport_read() bailed out!"
        else wait_eof_loop fuel p
  end.

(** [channel_wait_eof]. *)
Definition channel_wait_eof (fuel : nat) (p : ptr) : CM Z :=
  set_chan p (fun c => if nb_is (wait_eof_state c) libssh2_NB_state_idle
                       then c <| wait_eof_state := libssh2_NB_state_created |> else c) ;;
  wait_eof_loop fuel p.

(** [libssh2_channel_window_read_ex] with all outputs: the window, the bytes
    queued and the initial size. *)
Fixpoint bytes_queued (c : channel) (rest : list packet) : CM Z :=
  match rest with
  | [] => ret 0
  | k :: rest =>
      if pk_data_len k <? 1 then bytes_queued c rest
      else
        let! d := block (pk_data k) in
        let! ty := access (byte_at d 0) in
        let! ours :=
          (if ((ty =? SSH_MSG_CHANNEL_DATA) || (ty =? SSH_MSG_CHANNEL_EXTENDED_DATA))
              && (5 <=? pk_data_len k)
           then let! id := access (ntohu32 d 1) in ret (id =? cd_id (local c))
           else ret false) in
        let! n := bytes_queued c rest in
        ret (if (ours : bool) then u64 (pk_data_len k - pk_data_head k + n) else n)
  end.

Definition channel_window_read_ex (p : ptr) : CM (Z * Z * Z) :=
  let! c := chan p in
  let! ps := gets packets in
  let! n := bytes_queued c ps in
  ret (cd_window_size (remote c), n, cd_window_size_initial (remote c)).

(** [libssh2_channel_window_write_ex]: the window and its initial size. *)
Definition channel_window_write_ex (p : ptr) : CM (Z * Z) :=
  let! c := chan p in
  ret (cd_window_size (local c), cd_window_size_initial (local c)).
End ChannelIO.
