(* ===== verification/ChannelStream.v ===== *)
(** * Channels as byte streams

    The received packets of a channel, seen as the byte stream the application
    reads: [_libssh2_channel_read] takes bytes from its front, in order,
    without losing or repeating any, and keeps the window's bookkeeping. *)

From stdpp Require Import base numbers list gmap strings.
From S2P Require Import Prelude Codes Wire Session ChannelWindow Packet Conn PacketSafety PacketSpec ChannelIO.

(** ** The stream of a channel *)

Section Stream.
(** The channel's number, its mode for extended data, and the stream. *)
Context (id mode stream_id : Z).

(** Whether a queued packet carries data of the stream. *)
Definition in_stream (h : gmap ptr (list Z)) (k : packet) : bool :=
  match h !! pk_data k with
  | None => false
  | Some d =>
      (5 <=? pk_data_len k) && bool_decide (ntohu32 d 1 = Some id) &&
      (if stream_id =? 0 then
         bool_decide (byte_at d 0 = Some SSH_MSG_CHANNEL_DATA) ||
         (bool_decide (byte_at d 0 = Some SSH_MSG_CHANNEL_EXTENDED_DATA)
          && (mode =? LIBSSH2_CHANNEL_EXTENDED_DATA_MERGE))
       else
         bool_decide (byte_at d 0 = Some SSH_MSG_CHANNEL_EXTENDED_DATA) && (9 <=? pk_data_len k)
         && bool_decide (s32 <$> ntohu32 d 5 = Some stream_id))
  end.

(** The unread bytes of a packet. *)
Definition unread (h : gmap ptr (list Z)) (k : packet) : list Z :=
  match h !! pk_data k with
  | None => []
  | Some d => slice (pk_data_head k) (pk_data_len k - pk_data_head k) d
  end.

Definition stream_bytes (h : gmap ptr (list Z)) (ks : list packet) : list Z :=
  concat ((fun k => if in_stream h k then unread h k else []) <$> ks).

(** The packets that belong to somebody else. *)
Definition others (h : gmap ptr (list Z)) (ks : list packet) : list packet :=
  filter (fun k => in_stream h k = false) ks.

Lemma in_stream_heap h h' k : h' !! pk_data k = h !! pk_data k -> in_stream h' k = in_stream h k.
Proof. unfold in_stream. by intros ->. Qed.

Lemma unread_heap h h' k : h' !! pk_data k = h !! pk_data k -> unread h' k = unread h k.
Proof. unfold unread. by intros ->. Qed.

Lemma stream_bytes_heap h h' ks :
  (forall k, k ∈ ks -> h' !! pk_data k = h !! pk_data k) -> stream_bytes h' ks = stream_bytes h ks.
Proof.
  intros H. unfold stream_bytes. f_equal. apply list_fmap_ext. intros i k Hk.
  apply list_elem_of_lookup_2, H in Hk. by rewrite (in_stream_heap h h'), (unread_heap h h').
Qed.

Lemma others_heap h h' ks :
  (forall k, k ∈ ks -> h' !! pk_data k = h !! pk_data k) -> others h' ks = others h ks.
Proof.
  intros H. apply filter_ext_elem. intros k Hk. by rewrite (in_stream_heap h h') by by apply H.
Qed.

Lemma lenZ_unread h k : packet_ok h k -> lenZ (unread h k) = pk_data_len k - pk_data_head k.
Proof.
  intros (d & Hd & _ & Hh & Hn). unfold unread. rewrite Hd. apply lenZ_slice; lia.
Qed.
End Stream.

(** ** The loop of [_libssh2_channel_read] *)

(** The channel with only its scratch field [read_local_id] changed. *)
Definition same_chan (c c' : channel) : Prop := c' = c <| read_local_id := read_local_id c' |>.

Lemma same_chan_refl c : same_chan c c.
Proof. by destruct c. Qed.

Lemma same_chan_trans c1 c2 c3 : same_chan c1 c2 -> same_chan c2 c3 -> same_chan c1 c3.
Proof. unfold same_chan. intros H1 H2. rewrite H2 at 1. by rewrite H1. Qed.

Lemma same_chan_set c v : same_chan c (c <| read_local_id := v |>).
Proof. done. Qed.

(** Dropping the head packet's payload does not concern the others. *)
Lemma nodup_head_ne (seen rest : list packet) k k' :
  NoDup (pk_data <$> seen ++ k :: rest) -> k' ∈ seen ++ rest -> pk_data k' <> pk_data k.
Proof.
  intros Hnd Hin Heq. rewrite <- Permutation_middle, fmap_cons in Hnd.
  apply NoDup_cons in Hnd as [Hn _]. apply Hn. rewrite <- Heq. apply list_elem_of_fmap. eauto.
Qed.

(** The part of the state the loop leaves alone. *)
Record read_frame (p : ptr) (s s' : session) : Prop := {
  rf_ok : conn_ok s';
  rf_heap : s_heap s' ⊆ s_heap s;
  rf_chan : forall c, s_chans s !! p = Some c ->
    exists c', s_chans s' !! p = Some c' /\ same_chan c c';
  rf_others : forall q, q <> p -> s_chans s' !! q = s_chans s !! q;
  rf_channels : channels s' = channels s;
  rf_listeners : listeners s' = listeners s
}.

Lemma read_frame_refl p s : conn_ok s -> read_frame p s s.
Proof. intros H. split; try done. intros c Hc. exists c. split; [done|apply same_chan_refl]. Qed.

Lemma read_frame_trans p s1 s2 s3 : read_frame p s1 s2 -> read_frame p s2 s3 -> read_frame p s1 s3.
Proof.
  intros [A1 A2 A3 A4 A5 A6] [B1 B2 B3 B4 B5 B6]. split; [done|by etrans| | |congruence..].
  - intros c Hc. destruct (A3 c Hc) as (c' & Hc' & ?). destruct (B3 c' Hc') as (c'' & ? & ?).
    exists c''. split; [done|by eapply same_chan_trans].
  - intros q Hq. by rewrite B4, A4.
Qed.

(** What the loop yields from [rest] when [want] more bytes are wanted. *)
Definition read_post (p : ptr) (c : channel) (stream_id buflen : Z) (seen rest : list packet)
    (acc : list Z) (s : session) (bytes : list Z) (s' : session) : Prop :=
  let id := cd_id (local c) in
  let mode := cd_extended_data_ignore_mode (remote c) in
  let want := Z.to_nat (buflen - lenZ acc) in
  read_frame p s s' /\
  bytes = acc ++ take want (stream_bytes id mode stream_id (s_heap s) rest) /\
  exists rest', packets s' = seen ++ rest' /\
    stream_bytes id mode stream_id (s_heap s') rest' =
      drop want (stream_bytes id mode stream_id (s_heap s) rest) /\
    others id mode stream_id (s_heap s') rest' = others id mode stream_id (s_heap s) rest.

Lemma some_eqb a b : bool_decide (Some a = Some b) = (a =? b).
Proof. rewrite Z_eqb_bool_decide. apply bool_decide_ext. split; congruence. Qed.

Lemma stream_packet_spec s c d k stream_id id :
  s_heap s !! pk_data k = Some d -> 5 <= pk_data_len k -> pk_data_len k <= lenZ d ->
  ntohu32 d 1 = Some id ->
  stream_packet c d (pk_data_len k) id stream_id s =
    Ret (in_stream (cd_id (local c)) (cd_extended_data_ignore_mode (remote c)) stream_id (s_heap s) k) s.
Proof.
  intros Hd H5 Hlen Hid. unfold stream_packet, in_stream. rewrite Hd, Hid.
  destruct (byte_at_in d 0) as [b Hb]; [lia|]. rewrite Hb. simpl.
  destruct (Z.leb_spec 5 (pk_data_len k)); [|lia]. simpl.
  rewrite !some_eqb, (Z.eqb_sym id). unfold bind, ret, access.
  destruct (stream_id =? 0) eqn:E0; simpl.
  - destruct (b =? SSH_MSG_CHANNEL_DATA), (cd_id (local c) =? id), (b =? SSH_MSG_CHANNEL_EXTENDED_DATA); done.
  - destruct (b =? SSH_MSG_CHANNEL_EXTENDED_DATA); simpl; [|by rewrite andb_false_r].
    destruct (cd_id (local c) =? id); simpl; [|done].
    destruct (Z.leb_spec 9 (pk_data_len k)); simpl; [|done].
    destruct (ntohu32_in d 5) as [v Hv]; [lia..|]. rewrite Hv. simpl. do 2 f_equal.
    by rewrite some_eqb, Z.eqb_sym.
Qed.

(** *** Updates of the queue *)

Lemma conn_ok_drop s seen k rest :
  conn_ok s -> packets s = seen ++ k :: rest -> conn_ok (s <| packets := seen ++ rest |>).
Proof.
  intros [H1 H2 H3 H4 H5 H6 H7 H8 H9] E. rewrite E in H5, H6. split; simpl; try done.
  - apply Forall_app in H5 as [? H5]. apply Forall_cons in H5 as [? ?]. by apply Forall_app.
  - rewrite <- Permutation_middle, fmap_cons in H6. by apply NoDup_cons in H6 as [_ ?].
Qed.

(** The packet is unlinked and its payload freed. *)
Lemma read_frame_unlink p s seen k rest :
  conn_ok s -> packets s = seen ++ k :: rest ->
  read_frame p s (s <| packets := seen ++ rest |> <| s_heap ::= delete (pk_data k) |>).
Proof.
  intros Hok E. split; [| | |done..].
  - apply free_conn_ok; [by eapply conn_ok_drop|]. simpl.
    intros Hin. apply list_elem_of_fmap in Hin as (k' & Heq & Hin).
    pose proof (ok_nodup s Hok) as Hnd. rewrite E in Hnd.
    by apply (nodup_head_ne _ _ _ _ Hnd Hin).
  - apply delete_subseteq.
  - intros c Hc. exists c. split; [done|apply same_chan_refl].
Qed.

(** The packet's read position moves. *)
Lemma read_frame_advance p s seen k rest n :
  conn_ok s -> packets s = seen ++ k :: rest -> 0 <= n <= pk_data_len k - pk_data_head k ->
  read_frame p s (s <| packets := seen ++ k <| pk_data_head ::= Z.add n |> :: rest |>).
Proof.
  intros Hok E Hn. split; simpl; try done.
  - destruct Hok as [H1 H2 H3 H4 H5 H6 H7 H8 H9]. rewrite E in H5, H6. split; simpl; try done.
    + apply Forall_app in H5 as [? H5]. apply Forall_cons in H5 as [(d & ? & ? & ? & ?) ?].
      apply Forall_app. split; [done|]. constructor; [|done]. exists d. simpl. split_and!; done || lia.
    + rewrite fmap_app, fmap_cons in *. done.
  - intros c Hc. exists c. split; [done|apply same_chan_refl].
Qed.

(** The scratch field is set. *)
Lemma read_frame_scratch p s c v :
  conn_ok s -> s_chans s !! p = Some c ->
  read_frame p s (s <| s_chans ::= <[p := c <| read_local_id := v |>]> |>).
Proof.
  intros Hok Hc. split; [|done| | |done..].
  - eapply quiet_ok; [|exact Hok]. eapply quiet_set_chan; [exact Hc|]. solve_chan_ok.
  - intros c' Hc'. rewrite Hc in Hc'. simplify_eq.
    eexists. split; [apply lookup_insert_eq|apply same_chan_set].
  - intros q Hq. simpl. by rewrite lookup_insert_ne.
Qed.

(** Packets that are still queued keep their payload. *)
Lemma frame_lookup p s s' k :
  read_frame p s s' -> k ∈ packets s' -> s_heap s' !! pk_data k = s_heap s !! pk_data k.
Proof.
  intros Hf Hk. pose proof (ok_packets s' (rf_ok _ _ _ Hf)) as Hp. rewrite Forall_forall in Hp.
  destruct (Hp k Hk) as (d & Hd & _). rewrite Hd. symmetry. by eapply lookup_weaken, Hf.
Qed.

(** *** The steps of the loop *)

Section Loop.
Context (p : ptr) (stream_id buflen : Z).
Implicit Types s : session.

(** A packet that is passed over. *)
Lemma read_post_skip c seen k rest acc s s1 bytes s' :
  s_heap s1 = s_heap s -> read_frame p s s1 ->
  in_stream (cd_id (local c)) (cd_extended_data_ignore_mode (remote c)) stream_id (s_heap s) k = false ->
  read_post p c stream_id buflen (seen ++ [k]) rest acc s1 bytes s' ->
  read_post p c stream_id buflen seen (k :: rest) acc s bytes s'.
Proof.
  intros Hh Hf Hk (Hf' & Hb & rest' & Hp & Hd & Ho). rewrite Hh in *.
  assert (Hf2 : read_frame p s s') by (by eapply read_frame_trans).
  unfold read_post. cbv zeta.
  assert (Hk' : in_stream (cd_id (local c)) (cd_extended_data_ignore_mode (remote c)) stream_id
    (s_heap s') k = false).
  { rewrite (in_stream_heap _ _ _ (s_heap s)); [done|]. eapply frame_lookup; [exact Hf2|].
    rewrite Hp, <- app_assoc. apply elem_of_app. right. by left. }
  unfold stream_bytes, others in *. rewrite !fmap_cons, !concat_cons, !filter_cons, Hk. simpl.
  split_and!; [done|done|]. exists (k :: rest').
  rewrite Hp, <- app_assoc, fmap_cons, concat_cons, !filter_cons, Hk'. simpl.
  rewrite Ho. done.
Qed.

(** A packet that is drained. *)
Lemma read_post_drain c seen k rest acc s s1 bytes s' :
  packet_ok (s_heap s) k -> read_frame p s s1 ->
  (forall k', k' ∈ rest -> s_heap s1 !! pk_data k' = s_heap s !! pk_data k') ->
  in_stream (cd_id (local c)) (cd_extended_data_ignore_mode (remote c)) stream_id (s_heap s) k = true ->
  lenZ acc <= buflen -> pk_data_len k - pk_data_head k <= buflen - lenZ acc ->
  read_post p c stream_id buflen seen rest (acc ++ unread (s_heap s) k) s1 bytes s' ->
  read_post p c stream_id buflen seen (k :: rest) acc s bytes s'.
Proof.
  intros Hok Hf Hrest Hk Hacc Hlen (Hf' & Hb & rest' & Hp & Hd & Ho).
  pose proof (lenZ_unread _ _ Hok) as Hu. unfold read_post. cbv zeta.
  rewrite (stream_bytes_heap _ _ _ _ _ _ Hrest) in Hb, Hd. rewrite (others_heap _ _ _ _ _ _ Hrest) in Ho.
  replace (Z.to_nat (buflen - lenZ (acc ++ unread (s_heap s) k)))
    with (Z.to_nat (buflen - lenZ acc) - length (unread (s_heap s) k))%nat in Hb, Hd
    by (rewrite lenZ_app; unfold lenZ in *; lia).
  assert (length (unread (s_heap s) k) <= Z.to_nat (buflen - lenZ acc))%nat by (unfold lenZ in *; lia).
  unfold stream_bytes at 1 3, others at 2. rewrite !fmap_cons, !concat_cons, filter_cons, Hk. simpl.
  split; [by eapply read_frame_trans|]. rewrite take_app_ge, drop_app_ge by done.
  split; [by rewrite Hb, app_assoc|]. exists rest'. done.
Qed.

(** A packet of which only a part is wanted. *)
Lemma read_post_part c seen k rest acc s s1 bytes s' :
  packet_ok (s_heap s) k -> read_frame p s s1 -> s_heap s1 = s_heap s ->
  in_stream (cd_id (local c)) (cd_extended_data_ignore_mode (remote c)) stream_id (s_heap s) k = true ->
  let want := buflen - lenZ acc in
  0 <= want < pk_data_len k - pk_data_head k ->
  let k' := k <| pk_data_head ::= Z.add want |> in
  read_post p c stream_id buflen (seen ++ [k']) rest
    (acc ++ take (Z.to_nat want) (unread (s_heap s) k)) s1 bytes s' ->
  read_post p c stream_id buflen seen (k :: rest) acc s bytes s'.
Proof.
  intros Hok Hf Hh Hk want Hw k' (Hf' & Hb & rest' & Hp & Hd & Ho).
  pose proof (lenZ_unread _ _ Hok) as Hu. unfold read_post. cbv zeta. fold want.
  rewrite Hh in Hb, Hd, Ho.
  assert (Hz : Z.to_nat (buflen - lenZ (acc ++ take (Z.to_nat want) (unread (s_heap s) k))) = 0%nat).
  { rewrite lenZ_app. unfold lenZ in *. rewrite length_take. lia. }
  rewrite Hz in Hb, Hd. rewrite take_0, app_nil_r in Hb. rewrite drop_0 in Hd.
  assert (Hlk : s_heap s' !! pk_data k = s_heap s !! pk_data k).
  { rewrite <- Hh. change (pk_data k) with (pk_data k'). eapply frame_lookup; [exact Hf'|].
    rewrite Hp, <- app_assoc. apply elem_of_app. right. by left. }
  assert (Hk' : in_stream (cd_id (local c)) (cd_extended_data_ignore_mode (remote c)) stream_id
    (s_heap s') k' = true) by (rewrite (in_stream_heap _ _ _ (s_heap s) _ k') by done; exact Hk).
  assert (Hu' : unread (s_heap s') k' = drop (Z.to_nat want) (unread (s_heap s) k)).
  { destruct Hok as (d & Hd' & _ & Hr1 & Hr2). unfold unread.
    change (pk_data k') with (pk_data k). rewrite Hlk, Hd'.
    unfold slice. simpl. rewrite skipn_firstn_comm, drop_drop. f_equal; [lia|]. f_equal. lia. }
  unfold stream_bytes, others in *. rewrite !fmap_cons, !concat_cons, !filter_cons, Hk. simpl.
  split; [by eapply read_frame_trans|].
  rewrite take_app_le, drop_app_le by (unfold lenZ in *; lia). split; [done|].
  exists (k' :: rest'). rewrite Hp, <- app_assoc, fmap_cons, concat_cons, filter_cons, Hk', Hu'. simpl.
  by rewrite Hd.
Qed.

Lemma read_loop_ok seen rest acc s c :
  conn_ok s -> packets s = seen ++ rest -> s_chans s !! p = Some c -> lenZ acc <= buflen ->
  wp (read_loop p stream_id buflen seen rest acc) (read_post p c stream_id buflen seen rest acc s) s.
Proof.
  revert seen acc s c. induction rest as [|k rest IH]; intros seen acc s c Hok Hp Hc Hacc;
    cbn [read_loop].
  { wp_step. split; [by apply read_frame_refl|]. unfold stream_bytes. simpl.
    split; [by rewrite take_nil, app_nil_r|]. exists []. by rewrite drop_nil. }
  wp_step; breflect; cycle 1.
  { wp_step. split; [by apply read_frame_refl|]. replace (Z.to_nat (buflen - lenZ acc)) with 0%nat by lia.
    split; [by rewrite take_0, app_nil_r|]. exists (k :: rest). by rewrite drop_0. }
  pose proof (ok_packets s Hok) as Hall. rewrite Hp in Hall. apply Forall_app in Hall as [_ Hall].
  apply Forall_cons in Hall as [Hk _]. pose proof Hk as (d & Hd & Hdl & Hr & Hn).
  assert (Hskip : in_stream (cd_id (local c)) (cd_extended_data_ignore_mode (remote c)) stream_id
      (s_heap s) k = false -> forall s1, read_frame p s s1 -> s_heap s1 = s_heap s ->
    packets s1 = packets s -> forall c1, s_chans s1 !! p = Some c1 -> same_chan c c1 ->
    wp (read_loop p stream_id buflen (seen ++ [k]) rest acc)
      (read_post p c stream_id buflen seen (k :: rest) acc s) s1).
  { intros Hni s1 Hf Hh Hps c1 Hc1 Hsame. eapply wp_mono.
    - apply (IH (seen ++ [k]) acc s1 c1); [apply Hf|by rewrite Hps, Hp, <- app_assoc|done|done].
    - intros bytes s' Hpost. eapply read_post_skip; [exact Hh|exact Hf|exact Hni|].
      rewrite Hsame in Hpost. exact Hpost. }
  wp_step; breflect.
  { assert (Hni : in_stream (cd_id (local c)) (cd_extended_data_ignore_mode (remote c)) stream_id
      (s_heap s) k = false).
    { unfold in_stream. rewrite Hd. destruct (Z.leb_spec 5 (pk_data_len k)); [lia|done]. }
    specialize (Hskip Hni s (read_frame_refl p s Hok) eq_refl eq_refl c Hc (same_chan_refl c)).
    do 2 wp_step; [|wp_step; exact Hskip]. wp_step. eapply wp_block; [exact Hd|].
    apply wp_byte_at; [lia|]. intros _. exact Hskip. }
  wp_step. eapply wp_block; [exact Hd|]. wp_step.
  destruct (ntohu32_in d 1) as [id Hid]; [lia..|]. eapply wp_access; [exact Hid|]. wp_step.
  eapply wp_set_chan; [exact Hc|]. wp_step.
  set (c1 := c <| read_local_id := id |>). set (s1 := s <| s_chans ::= <[p := c1]> |>).
  assert (Hf1 : read_frame p s s1) by by apply read_frame_scratch.
  assert (Hc1 : s_chans s1 !! p = Some c1) by apply lookup_insert_eq.
  eapply wp_chan; [exact Hc1|]. wp_step. unfold wp at 1.
  rewrite (stream_packet_spec s1 c1 d k) by done.
  destruct (in_stream _ _ _ _ k) eqn:Hin; [|by apply (Hskip eq_refl s1 Hf1 eq_refl eq_refl c1)].
  rewrite u64_small by lia. clear Hskip. wp_step. destruct (Z.leb_spec (pk_data_len k - pk_data_head k) (buflen - lenZ acc)).
  - apply wp_bytes_at; [lia..|]. do 2 wp_step. wp_step. eapply wp_free_block; [exact Hd|].
    match goal with |- wp _ _ ?s2 => set (s2' := s2) end.
    assert (Hf2 : read_frame p s s2').
    { eapply read_frame_trans; [exact Hf1|]. apply read_frame_unlink; [apply Hf1|exact Hp]. }
    eapply wp_mono; [apply (IH seen _ s2' c1); [apply Hf2|done|exact Hc1|]|].
    + rewrite lenZ_app, lenZ_slice by lia. lia.
    + intros bytes s' Hpost. apply (read_post_drain c seen k rest acc s s2' bytes s' Hk Hf2); [|exact Hin|exact Hacc|lia|].
      * intros k' Hk'. apply lookup_delete_ne. intros Heq.
        pose proof (ok_nodup s Hok) as Hnd. rewrite Hp in Hnd.
        apply (nodup_head_ne _ _ _ k' Hnd); [apply elem_of_app; by right|done].
      * unfold unread. by rewrite Hd.
  - apply wp_bytes_at; [lia..|]. do 2 wp_step.
    match goal with |- wp _ _ ?s2 => set (s2' := s2) end.
    assert (Hf2 : read_frame p s s2').
    { eapply read_frame_trans; [exact Hf1|]. apply read_frame_advance; [apply Hf1|exact Hp|lia]. }
    eapply wp_mono; [apply (IH _ _ s2' c1); [apply Hf2|by rewrite <- app_assoc|exact Hc1|]|].
    + rewrite lenZ_app, lenZ_slice by lia. lia.
    + intros bytes s' Hpost. eapply (read_post_part c seen k rest acc s s2'); try done; [lia|].
      unfold unread, slice in *. rewrite Hd, firstn_firstn, Nat.min_l by lia. exact Hpost.
Qed.
End Loop.

(** ** [_libssh2_channel_read] *)

(** What a read yields: the front of the stream, and the channel's counters
    moved by the same amount. *)
Definition read_result (p : ptr) (c : channel) (stream_id buflen rc : Z) (s : session)
    (r : Z * list Z) (s' : session) : Prop :=
  let stream := stream_bytes (cd_id (local c)) (cd_extended_data_ignore_mode (remote c)) stream_id in
  let rest := others (cd_id (local c)) (cd_extended_data_ignore_mode (remote c)) stream_id in
  conn_ok s' /\
  snd r = take (Z.to_nat buflen) (stream (s_heap s) (packets s)) /\
  stream (s_heap s') (packets s') = drop (Z.to_nat buflen) (stream (s_heap s) (packets s)) /\
  rest (s_heap s') (packets s') = rest (s_heap s) (packets s) /\
  if decide (snd r = []) then
    fst r = if cd_eof (remote c) || cd_close (remote c) || negb (rc =? LIBSSH2_ERROR_EAGAIN)
            then 0 else LIBSSH2_ERROR_EAGAIN
  else
    fst r = lenZ (snd r) /\
    exists c', s_chans s' !! p = Some c' /\
      read_avail c' = u32 (read_avail c - lenZ (snd r)) /\
      cd_window_size (remote c') = u32 (cd_window_size (remote c) - lenZ (snd r)).

Lemma read_collect_ok p stream_id buflen rc s c :
  conn_ok s -> s_chans s !! p = Some c -> 0 <= buflen ->
  wp (read_collect p stream_id buflen rc) (read_result p c stream_id buflen rc s) s.
Proof.
  intros Hok Hc Hb. unfold read_collect. do 3 wp_step.
  eapply wp_mono; [apply (read_loop_ok p stream_id buflen [] (packets s) [] s c); done|].
  intros bytes s1 (Hf & Hbytes & rest' & Hp & Hd & Ho). simpl in *.
  replace (buflen - lenZ []) with buflen in * by (unfold lenZ; simpl; lia).
  destruct (rf_chan _ _ _ Hf c Hc) as (c1 & Hc1 & Hsame). rewrite <- Hp in Hd, Ho.
  wp_step; breflect.
  - assert (bytes = []) as -> by (destruct bytes; [done|unfold lenZ in *; simpl in *; lia]).
    assert (Hr : forall v s2, same_conn s1 s2 ->
      v = (if cd_eof (remote c) || cd_close (remote c) || negb (rc =? LIBSSH2_ERROR_EAGAIN)
           then 0 else LIBSSH2_ERROR_EAGAIN) -> read_result p c stream_id buflen rc s (v, []) s2).
    { intros v s2 H2 Hv. unfold read_result. simpl. rewrite (same_heap _ _ H2), (same_packets _ _ H2).
      split_and!; try done. eapply same_conn_ok; [exact H2|apply Hf]. }
    wp_step. eapply wp_chan; [exact Hc1|].
    replace (remote c1) with (remote c) by (by rewrite Hsame).
    destruct (cd_eof (remote c) || cd_close (remote c)) eqn:Ee; [wp_step; by apply Hr|].
    wp_step; [wp_step; by apply Hr|]. breflect. subst rc. wp_step.
    apply wp_error. intros s2 H2 _. wp_step. by apply Hr.
  - wp_step. eapply wp_set_chan; [exact Hc1|]. wp_step. unfold read_result. simpl.
    split_and!; try done.
    + eapply quiet_ok; [|apply (rf_ok _ _ _ Hf)]. eapply quiet_set_chan; [exact Hc1|]. solve_chan_ok.
    + rewrite decide_False by (intros ->; done). split; [done|]. eexists.
      split; [apply lookup_insert_eq|]. rewrite Hsame. done.
Qed.

(** C9: reading a channel is reading a byte stream. Once the window needs no
    widening and the transport has delivered what it has, [_libssh2_channel_read]
    returns the first [buflen] bytes (or all, if fewer) of the unread data of the
    stream asked for, in the order of arrival; exactly these bytes are gone from
    the queue afterwards, the packets of other channels and streams are
    untouched, and [read_avail] and the window shrink by the number returned.
    Without data it returns 0 at the end of the stream, and otherwise reports
    that it would block exactly when the transport did. *)
Theorem channel_read_stream transport_send transport_read fuel p stream_id buflen rc s s1 s2 c :
  read_widen transport_send p buflen s = Ret 0 s1 ->
  transport_drain transport_read fuel s1 = Ret rc s2 ->
  rc = 0 \/ rc = LIBSSH2_ERROR_EAGAIN ->
  conn_ok s2 -> s_chans s2 !! p = Some c -> 0 <= buflen ->
  exists r s', channel_read transport_send transport_read fuel p stream_id buflen s = Ret r s' /\
    read_result p c stream_id buflen rc s2 r s'.
Proof.
  intros Hw Hd Hrc Hok Hc Hb. unfold channel_read.
  rewrite (bind_Ret _ _ _ _ _ Hw). simpl. rewrite (bind_Ret _ _ _ _ _ Hd).
  replace ((rc <? 0) && negb (rc =? LIBSSH2_ERROR_EAGAIN)) with false by (by destruct Hrc; subst).
  apply wp_Ret. by apply read_collect_ok.
Qed.

(** Two data packets, "AB" and "C", with a packet of another channel between. *)
Definition reading_session : session :=
  session_0 <| s_heap := {[ 2%positive := [SSH_MSG_CHANNEL_DATA; 0; 0; 0; 0; 0; 0; 0; 2; 65; 66];
                            3%positive := [SSH_MSG_CHANNEL_DATA; 0; 0; 0; 5; 0; 0; 0; 1; 90];
                            4%positive := [SSH_MSG_CHANNEL_DATA; 0; 0; 0; 0; 0; 0; 0; 1; 67] ]} |>
            <| s_chans := {[ 1%positive := sample_channel <| read_avail := 3 |> ]} |>
            <| channels := [1%positive] |> <| s_next_ptr := 5%positive |>
            <| packets := [mk_packet 2%positive 11 9; mk_packet 3%positive 10 9;
                           mk_packet 4%positive 10 9] |>.

Lemma reading_conn_ok : conn_ok reading_session.
Proof.
  split; simpl; try done.
  - constructor; [|done]. rewrite lookup_singleton_eq. eauto.
  - apply map_Forall_singleton. by repeat split.
  - repeat apply map_Forall_insert_2; try apply map_Forall_singleton; by apply (bool_decide_unpack _).
  - repeat constructor; eexists; (split; [reflexivity|]); unfold lenZ; simpl; lia.
  - by apply (bool_decide_unpack _).
  - intros p Hp. apply lookup_singleton_ne. lia.
  - intros p Hp. rewrite !lookup_insert_ne by lia. apply lookup_singleton_ne. lia.
Qed.

Lemma channel_read_stream_witness :
  exists r s', channel_read send_ok (ret 0) 1 1%positive 0 20 reading_session = Ret r s' /\
    read_result 1%positive (sample_channel <| read_avail := 3 |>) 0 20 0 reading_session r s'.
Proof.
  apply (channel_read_stream send_ok (ret 0) 1 1%positive 0 20 0 reading_session reading_session
    reading_session); [reflexivity|reflexivity|by left|apply reading_conn_ok|reflexivity|lia].
Defined.

Example read_three_bytes :
  match channel_read send_ok (ret 0) 1 1%positive 0 20 reading_session with
  | Ret (n, bytes) s' => n = 3 /\ bytes = [65; 66; 67] /\ packets s' = [mk_packet 3%positive 10 9]
  | _ => False
  end.
Proof. vm_compute. done. Qed.
