(* ===== verification/ChannelSpec.v ===== *)
(** * Writing and flushing channels

    The flow control of [_libssh2_channel_write], the message it builds, the
    end-of-file test, and what [_libssh2_channel_flush] and the window
    adjustment tell the peer. *)

From stdpp Require Import base numbers list gmap strings.
From S2P Require Import Prelude Codes Wire Session ChannelWindow Packet PacketAdd Conn PacketSafety PacketSpec ChannelIO ChannelStream.

(** ** The messages written *)

Lemma store_u32_eq out v : store_u32 out v = out ++ htonu32 (u32 v).
Proof. done. Qed.

Lemma lenZ_write_header c stream_id n :
  lenZ (write_header c stream_id n) = if stream_id =? 0 then 9 else 13.
Proof.
  unfold write_header. destruct (stream_id =? 0); rewrite !store_u32_eq, !lenZ_app, !lenZ_htonu32; done.
Qed.

(** The bytes of a data message: type, channel, stream, length, data. *)
Definition data_bytes (c : channel) (stream_id : Z) (bytes : list Z) : list Z :=
  write_header c stream_id (lenZ bytes) ++ bytes.

Lemma data_bytes_fields c stream_id bytes :
  is_u32 (cd_id (remote c)) -> lenZ bytes < 2 ^ 32 ->
  let d := data_bytes c stream_id bytes in
  let head := if stream_id =? 0 then 9 else 13 in
  byte_at d 0 = Some (if stream_id =? 0 then SSH_MSG_CHANNEL_DATA else SSH_MSG_CHANNEL_EXTENDED_DATA) /\
  ntohu32 d 1 = Some (cd_id (remote c)) /\
  (stream_id <> 0 -> ntohu32 d 5 = Some (u32 stream_id)) /\
  ntohu32 d (head - 4) = Some (lenZ bytes) /\
  lenZ d = head + lenZ bytes /\ slice head (lenZ bytes) d = bytes.
Proof.
  intros Hid Hlen d head. pose proof (lenZ_nonneg bytes).
  assert (Hd : lenZ d = head + lenZ bytes)
    by (unfold d, data_bytes; by rewrite lenZ_app, lenZ_write_header).
  assert (Hs : slice head (lenZ bytes) d = bytes).
  { pose proof (slice_app_mid (write_header c stream_id (lenZ bytes)) bytes []) as E.
    by rewrite app_nil_r, lenZ_write_header in E. }
  assert (Hat : forall a v z, 0 <= v < 2 ^ 32 -> ntohu32 (a ++ htonu32 (u32 v) ++ z) (lenZ a) = Some v).
  { intros a v z Hv. rewrite u32_small by done. by apply ntohu32_htonu32. }
  pose proof (u32_range stream_id). unfold d, data_bytes, write_header, head in *.
  set (id := cd_id (remote c)) in *.
  set (ty := if stream_id =? 0 then SSH_MSG_CHANNEL_DATA else SSH_MSG_CHANNEL_EXTENDED_DATA) in *.
  clearbody ty.
  destruct (Z.eqb_spec stream_id 0); rewrite !store_u32_eq, <- ?app_assoc in *.
  - split_and!; try done; [by apply (Hat [ty])|]. apply (Hat (ty :: htonu32 (u32 id))). lia.
  - split_and!; try done; [by apply (Hat [ty])|..].
    + intros _. apply (Hat (ty :: htonu32 (u32 id))). lia.
    + apply (Hat (ty :: htonu32 (u32 id) ++ htonu32 (u32 (u32 stream_id)))). lia.
Qed.

(** ** [_libssh2_channel_write] *)

(** The channel with a message of [n] bytes prepared. *)
Definition write_prepared (c : channel) (stream_id n : Z) : channel :=
  c <| write_bufwrite := n |> <| write_packet := write_header c stream_id n |>
    <| write_state := libssh2_NB_state_created |>.

Lemma write_size_min c n :
  0 <= n -> 0 <= cd_window_size (local c) -> 0 <= cd_packet_size (local c) ->
  write_size c n = Z.min (Z.min n (cd_window_size (local c))) (cd_packet_size (local c)).
Proof.
  intros ? ? ?. unfold write_size.
  destruct (Z.ltb_spec (cd_window_size (local c)) n);
    match goal with |- context [?a <? ?b] => destruct (Z.ltb_spec a b) end; lia.
Qed.

(** The outcome of sending a prepared message, for each answer of the
    transport. *)
Definition sent_post (p : ptr) (c : channel) (n rc r : Z) (s' : session) : Prop :=
  exists c', s_chans s' !! p = Some c' /\
  if rc =? 0 then r = n /\ write_state c' = libssh2_NB_state_idle /\
    cd_window_size (local c') = cd_window_size (local c) - n
  else r = rc /\ cd_window_size (local c') = cd_window_size (local c) /\
    if rc =? LIBSSH2_ERROR_EAGAIN then c' = c else write_state c' = libssh2_NB_state_idle.

Lemma write_send_ok transport_send `{!Transport transport_send} p stream_id n buf s c :
  can_send s -> s_chans s !! p = Some (write_prepared c stream_id n) ->
  0 <= n <= lenZ buf -> n <= cd_window_size (local c) < 2 ^ 32 ->
  exists rc s1 r s', transport_send (write_header c stream_id n) (take (Z.to_nat n) buf) s = Ret rc s1 /\
    write_send transport_send p buf s = Ret r s' /\
    sent_post p (write_prepared c stream_id n) n rc r s'.
Proof.
  intros Hk Hc Hn Hw. set (c1 := write_prepared c stream_id n) in *.
  destruct (wp_Ret _ _ _ (transport_send_frame (write_header c stream_id n) (take (Z.to_nat n) buf) s Hk))
    as (rc & s1 & Hsend & H1 & _). exists rc, s1.
  enough (Hwp : wp (write_send transport_send p buf) (sent_post p c1 n rc) s).
  { destruct (wp_Ret _ _ _ Hwp) as (r & s' & ? & ?). eauto. }
  unfold write_send. wp_step. eapply wp_chan; [exact Hc|]. wp_step.
  apply wp_bytes_at; [lia|simpl; lia|simpl; lia|]. wp_step.
  change (write_packet c1) with (write_header c stream_id n).
  change (slice 0 (write_bufwrite c1) buf) with (take (Z.to_nat n) buf).
  unfold wp at 1. rewrite Hsend. pose proof (same_chans _ _ H1) as Hs. rewrite <- Hs in Hc.
  unfold sent_post. wp_step; breflect.
  - subst rc. simpl. apply wp_error. intros s2 H2 _. exists c1.
    by rewrite (same_chans _ _ H2).
  - wp_step; breflect; wp_step; (eapply wp_set_chan; [exact Hc|]).
    + apply wp_error. intros s2 H2 _. eexists. rewrite (same_chans _ _ H2).
      split; [apply lookup_insert_eq|]. destruct (Z.eqb_spec rc 0); [done|].
      destruct (Z.eqb_spec rc LIBSSH2_ERROR_EAGAIN); done.
    + subst rc. wp_step. eexists. split; [apply lookup_insert_eq|]. simpl.
      rewrite u32_small by lia. done.
Qed.

(** C22: flow control on sending. On an open, idle channel whose peer still has
    window, [_libssh2_channel_write] hands the transport one message that
    carries the first [min(length, 32700, window, packet size)] bytes of the
    buffer and whose header says so; when the transport accepts it, that number
    is returned and taken off the window, which never becomes negative; when the
    transport would block, the channel keeps exactly this message, with the
    window untouched, and a later call sends the same one; on an error nothing
    is taken off the window and the channel is idle again. *)
Theorem channel_write_window transport_send `{!Transport transport_send} transport_read fuel p stream_id
    buf s s1 rc0 c0 c :
  s_chans s !! p = Some c0 -> write_state c0 = libssh2_NB_state_idle ->
  cd_close (local c0) = false -> cd_eof (local c0) = false ->
  transport_drain transport_read fuel s = Ret rc0 s1 -> rc0 = 0 \/ rc0 = LIBSSH2_ERROR_EAGAIN ->
  conn_ok s1 -> can_send s1 -> s_chans s1 !! p = Some c -> 0 < cd_window_size (local c) ->
  let n := Z.min (Z.min (Z.min (lenZ buf) 32700) (cd_window_size (local c))) (cd_packet_size (local c)) in
  let s2 := s1 <| s_chans ::= <[p := write_prepared c stream_id n]> |> in
  exists rc s3 r s',
    transport_send (write_header c stream_id n) (take (Z.to_nat n) buf) s2 = Ret rc s3 /\
    channel_write transport_send transport_read fuel p stream_id buf s = Ret r s' /\
    sent_post p (write_prepared c stream_id n) n rc r s' /\
    0 <= n <= cd_window_size (local c) /\
    (forall s4, s_chans s4 !! p = Some (write_prepared c stream_id n) ->
       channel_write transport_send transport_read fuel p stream_id buf s4 = write_send transport_send p buf s4).
Proof.
  intros Hc0 Hst Hcl Heof Hd Hrc Hok Hk Hc Hw n s2. pose proof (lenZ_nonneg buf).
  destruct (chan_lookup_ok _ _ _ Hok Hc) as [[_ _ Hwin Hps] _ _ _]. unfold is_u32 in *.
  destruct (write_send_ok transport_send p stream_id n buf s2 c) as (rc & s3 & r & s' & H1 & H2 & H3);
    [done|apply lookup_insert_eq|lia|lia|].
  exists rc, s3, r, s'. split_and!; [done| |done|lia|lia|].
  - unfold channel_write, bind at 1, chan, bind at 1, gets, access. rewrite Hc0. unfold ret at 1.
    rewrite Hst. simpl. rewrite Hcl, Heof. rewrite (bind_Ret _ _ _ _ _ Hd).
    replace ((rc0 <? 0) && negb (rc0 =? LIBSSH2_ERROR_EAGAIN)) with false by (by destruct Hrc; subst).
    unfold bind at 1, chan, bind at 1, gets, access. rewrite Hc. unfold ret at 1.
    destruct (Z.leb_spec (cd_window_size (local c)) 0); [lia|].
    replace (write_size c _) with n.
    + unfold bind at 1, set_chan, bind at 1, chan, bind at 1, gets, access. rewrite Hc. unfold ret at 1, modify.
      exact H2.
    + rewrite write_size_min by (destruct (Z.ltb_spec 32700 (lenZ buf)); lia).
      destruct (Z.ltb_spec 32700 (lenZ buf)); lia.
  - intros s4 H4. unfold channel_write, bind at 1, chan, bind at 1, gets, access. rewrite H4. done.
Qed.

Lemma channel_write_window_witness :
  exists rc s3 r s',
    send_ok (write_header sample_channel 0 3) [65; 66; 67]
      ((sample_session sample_channel []) <| s_chans ::= <[1%positive := write_prepared sample_channel 0 3]> |>)
      = Ret rc s3 /\
    channel_write send_ok (ret 0) 1 1%positive 0 [65; 66; 67] (sample_session sample_channel []) = Ret r s' /\
    sent_post 1%positive (write_prepared sample_channel 0 3) 3 rc r s'.
Proof.
  destruct (channel_write_window send_ok (ret 0) 1 1%positive 0 [65; 66; 67]
    (sample_session sample_channel []) (sample_session sample_channel []) 0 sample_channel sample_channel)
    as (rc & s3 & r & s' & H1 & H2 & H3 & _); try reflexivity.
  - by left.
  - apply sample_conn_ok; [apply sample_channel_ok|by apply (bool_decide_unpack _)].
  - apply sample_can_send.
  - exists rc, s3, r, s'. split; [exact H1|]. split; [exact H2|exact H3].
Defined.

(** ** From one channel to the other *)

(** Queuing a packet of the stream appends its bytes. *)
Lemma stream_bytes_snoc id mode sid h ks k :
  in_stream id mode sid h k = true ->
  stream_bytes id mode sid h (ks ++ [k]) = stream_bytes id mode sid h ks ++ unread h k.
Proof.
  intros Hk. unfold stream_bytes. rewrite fmap_app, concat_app. simpl. by rewrite Hk, app_nil_r.
Qed.

(** C23: channel data arrives as it was sent. When the message that
    [_libssh2_channel_write] builds for [bytes] (on the channel [from]) reaches
    the session at the other end and the channel it names has room for it,
    [_libssh2_packet_add] appends exactly [bytes] to the data this channel's
    reader will see; otherwise it reports that memory is exhausted, with the
    payload freed and the stream as it was. *)
Theorem channel_data_end_to_end transport_send kex_exchange from bytes data s p c :
  conn_ok s -> packAdd_state s = libssh2_NB_state_idle ->
  s_heap s !! data = Some (data_bytes from 0 bytes) -> sole_channel s p c ->
  cd_id (remote from) = cd_id (local c) ->
  lenZ bytes < 2 ^ 32 - 9 -> read_avail c < cd_window_size (remote c) ->
  lenZ bytes <= cd_window_size (remote c) - read_avail c -> lenZ bytes <= cd_packet_size (remote c) ->
  let stream s := stream_bytes (cd_id (local c)) (cd_extended_data_ignore_mode (remote c)) 0
                    (s_heap s) (packets s) in
  exists rc s',
    packet_add transport_send kex_exchange data (9 + lenZ bytes) LIBSSH2_MAC_CONFIRMED s = Ret rc s' /\
    ((rc = 0 /\ stream s' = stream s ++ bytes) \/
     (rc = LIBSSH2_ERROR_ALLOC /\ s_heap s' = delete data (s_heap s) /\ packets s' = packets s)).
Proof.
  intros Hok Hst Hd Hsole Hid Hlen Hroom Hwin Hps stream. apply wp_Ret.
  pose proof (lenZ_nonneg bytes). pose proof Hsole as (_ & Hp & _).
  destruct (chan_lookup_ok _ _ _ Hok Hp) as [[Hlid _ _ _] _ _ _].
  destruct (data_bytes_fields from 0 bytes) as (Hty & Hto & _ & _ & Hl & Hsl); [by rewrite Hid|lia|].
  simpl in Hl, Hsl. unfold packet_add. wp_step. eapply wp_block; [exact Hd|]. wp_step.
  eapply wp_access; [exact Hty|]. do 2 wp_step. rewrite Hst. cbn iota. do 2 wp_step.
  change (LIBSSH2_MAC_CONFIRMED =? LIBSSH2_MAC_INVALID) with false. cbn iota. do 6 wp_step.
  set (s1 := s <| packAdd_state := _ |>).
  change (packet_switch transport_send data _ _)
    with (add_channel_data transport_send data SSH_MSG_CHANNEL_DATA (9 + lenZ bytes)).
  assert (Hok1 : conn_ok s1) by (eapply same_conn_ok; [|exact Hok]; done).
  eapply wp_mono.
  { apply (wp_channel_data transport_send data (data_bytes from 0 bytes) s1 p c); try done.
    split_and!; [by rewrite Hto, Hid|lia..]. }
  intros r s2. unfold data_post. rewrite decide_True by done.
  replace (accepted_len c (9 + lenZ bytes - 9)) with (lenZ bytes) by (unfold accepted_len; lia).
  intros (-> & _ & Hh & Hpk). cbn [packet_add_end]. wps. unfold packet_enqueue. wps.
  apply wp_alloc_outcome. intros [] al; wps.
  - unfold packet_rekey. wps; [simpl in E; done|]. left. split; [done|]. unfold stream. simpl.
    rewrite Hh, Hpk. simpl. rewrite stream_bytes_snoc; [f_equal|].
    + unfold unread. simpl. rewrite Hd. by replace (lenZ bytes + 9 - 9) with (lenZ bytes) by lia.
    + unfold in_stream. simpl. rewrite Hd, Hto, Hid, bool_decide_eq_true_2, Hty by done.
      destruct (Z.leb_spec 5 (lenZ bytes + 9)); [done|lia].
  - eapply wp_free_block; [simpl; rewrite Hh; exact Hd|]. wps. right. simpl. by rewrite Hh, Hpk.
Qed.

Lemma channel_data_end_to_end_witness :
  exists rc s',
    packet_add send_ok (ret 0) 2%positive 12 LIBSSH2_MAC_CONFIRMED
      (sample_session sample_channel (data_bytes channel_0 0 [65; 66; 67])) = Ret rc s' /\
    ((rc = 0 /\ stream_bytes 0 0 0 (s_heap s') (packets s') = [65; 66; 67]) \/
     (rc = LIBSSH2_ERROR_ALLOC /\ s_heap s' = delete 2%positive {[2%positive := data_bytes channel_0 0 [65; 66; 67]]}
      /\ packets s' = [])).
Proof.
  apply (channel_data_end_to_end send_ok (ret 0) channel_0 [65; 66; 67] 2%positive
    (sample_session sample_channel (data_bytes channel_0 0 [65; 66; 67])) 1%positive sample_channel);
    try done.
  - apply sample_conn_ok; [apply sample_channel_ok|by apply (bool_decide_unpack _)].
  - split_and!; [by left|apply lookup_singleton_eq|].
    intros q c' Hq _ _. by apply list_elem_of_singleton in Hq.
Defined.

(** ** End of file *)

(** Whether a queued packet carries data of channel [id], on any stream. *)
Definition data_for (id : Z) (h : gmap ptr (list Z)) (k : packet) : bool :=
  match h !! pk_data k with
  | None => false
  | Some d => (5 <=? pk_data_len k) && bool_decide (ntohu32 d 1 = Some id) &&
      (bool_decide (byte_at d 0 = Some SSH_MSG_CHANNEL_DATA)
       || bool_decide (byte_at d 0 = Some SSH_MSG_CHANNEL_EXTENDED_DATA))
  end.

Lemma data_waiting_spec c s ks :
  Forall (packet_ok (s_heap s)) ks ->
  data_waiting c ks s = Ret (existsb (data_for (cd_id (local c)) (s_heap s)) ks) s.
Proof.
  induction 1 as [|k ks (d & Hd & Hdl & Hr & Hn) _ IH]; cbn [data_waiting existsb]; [done|].
  unfold data_for at 1. rewrite Hd. destruct (Z.ltb_spec (pk_data_len k) 1).
  { destruct (Z.leb_spec 5 (pk_data_len k)); [lia|]. exact IH. }
  unfold bind, block, bind, gets, access, ret. rewrite Hd.
  destruct (byte_at_in d 0) as [b Hb]; [lia|]. rewrite Hb, !some_eqb.
  destruct (b =? SSH_MSG_CHANNEL_DATA), (b =? SSH_MSG_CHANNEL_EXTENDED_DATA),
    (Z.leb_spec 5 (pk_data_len k)); simpl; rewrite ?andb_false_r, ?andb_true_r; try exact IH;
    (destruct (ntohu32_in d 1) as [id Hid]; [lia..|]; rewrite Hid, some_eqb, Z.eqb_sym;
     by destruct (id =? cd_id (local c))).
Qed.

(** [libssh2_channel_eof] masks the end of file while there is data: it
    returns 1 exactly when the peer has sent EOF and no packet with data of this
    channel, on any stream, is left in the queue; it returns 0 otherwise, and
    changes nothing. *)
Theorem channel_eof_masks s p c :
  conn_ok s -> s_chans s !! p = Some c ->
  exists r, channel_eof p s = Ret r s /\ (r = 0 \/ r = 1) /\
    (r = 1 <-> cd_eof (remote c) = true /\
               forall k, k ∈ packets s -> data_for (cd_id (local c)) (s_heap s) k = false).
Proof.
  intros Hok Hc. unfold channel_eof, bind at 1, chan, bind at 1, gets at 1, access. rewrite Hc.
  unfold ret at 1, bind at 1, gets. rewrite (bind_Ret _ _ _ _ _ (data_waiting_spec c s _ (ok_packets s Hok))).
  unfold ret. eexists. split; [done|].
  destruct (existsb _ _) eqn:E.
  - split; [by left|]. split; [done|]. intros [_ Hn]. apply existsb_exists in E as (k & Hk & Ht).
    rewrite Hn in Ht; [done|]. by apply list_elem_of_In.
  - assert (Hn : forall k, k ∈ packets s -> data_for (cd_id (local c)) (s_heap s) k = false).
    { intros k Hk. destruct (data_for _ _ k) eqn:Ek; [|done]. rewrite <- E. symmetry.
      apply existsb_exists. exists k. split; [by apply list_elem_of_In|done]. }
    destruct (cd_eof (remote c)); split; [by right|tauto|by left|]. split; [done|]. by intros [? _].
Qed.

Lemma channel_eof_masks_witness :
  exists r, channel_eof 1%positive reading_session = Ret r reading_session /\ (r = 0 \/ r = 1) /\
    (r = 1 <-> false = true /\
       forall k, k ∈ packets reading_session -> data_for 0 (s_heap reading_session) k = false).
Proof.
  exact (channel_eof_masks reading_session 1%positive (sample_channel <| read_avail := 3 |>)
    reading_conn_ok eq_refl).
Defined.

(** ** The receive window *)

(** What the peer may still send, as far as the channel accounts for it: the
    window and the adjustments not yet announced. *)
Definition window_total (c : channel) : Z := u32 (cd_window_size (remote c) + adjust_queue c).

(** The adjustment an idle channel announces, if it announces one. *)
Definition adjust_message (c : channel) (n : Z) : list Z :=
  SSH_MSG_CHANNEL_WINDOW_ADJUST :: htonu32 (cd_id (remote c)) ++ htonu32 n.

(** the receive window's books balance. An adjustment of an idle channel
    that succeeds either is put on the channel's queue without a message (not
    forced, and less than [LIBSSH2_CHANNEL_MINADJUST] in total), or does nothing
    because there is nothing to announce, or announces the adjustment together
    with everything queued and adds exactly what it announced to the window; in
    each case window and queue together grow by the adjustment. *)
Theorem window_adjust_balances transport_send `{!Transport transport_send} p adj force s c :
  conn_ok s -> can_send s -> s_chans s !! p = Some c -> adjust_state c = libssh2_NB_state_idle ->
  0 <= adj < 2 ^ 32 ->
  exists rc s', channel_receive_window_adjust transport_send p adj force s = Ret rc s' /\
    (rc = 0 -> exists c', s_chans s' !! p = Some c' /\ adjust_state c' = libssh2_NB_state_idle /\
       window_total c' = u32 (window_total c + adj) /\
       ((adjust_adjust c' = adjust_adjust c /\ cd_window_size (remote c') = cd_window_size (remote c)) \/
        (adjust_adjust c' = adjust_message c (u32 (adj + adjust_queue c)) /\ adjust_queue c' = 0 /\
         cd_window_size (remote c') = u32 (cd_window_size (remote c) + u32 (adj + adjust_queue c))))).
Proof.
  intros Hok Hk Hc Hst Hadj. apply wp_Ret. unfold channel_receive_window_adjust. cbv zeta.
  rewrite (u32_small adj) by done. wp_step. eapply wp_chan; [exact Hc|]. rewrite Hst. simpl.
  destruct (chan_lookup_ok _ _ _ Hok Hc) as [_ [_ _ Hw _] _ Hq]. unfold is_u32 in *.
  wp_step; [|wp_step]; breflect.
  - wp_step. eapply wp_set_chan; [exact Hc|]. wp_step. intros _. eexists.
    split; [apply lookup_insert_eq|]. simpl. split_and!; [done| |by left].
    unfold window_total, u32. simpl. dlia.
  - wp_step. intros _. exists c. split_and!; [done..| |by left]. unfold window_total, u32. dlia.
  - wp_step. eapply wp_set_chan; [exact Hc|]. unfold window_adjust_send. wp_step.
    eapply wp_chan; [apply lookup_insert_eq|]. wp_step. apply wp_send; [done|done|].
    intros rc s1 H1 _. wp_step; breflect.
    { wp_step. apply wp_error. intros s2 _ _. wp_step. by intros ->. }
    pose proof (same_chans _ _ H1) as Hs. simpl in Hs. wp_step; breflect; wp_step.
    + eapply wp_set_chan; [rewrite Hs; apply lookup_insert_eq|]. by apply wp_error.
    + eapply wp_set_chan; [rewrite Hs; apply lookup_insert_eq|]. wp_step.
      eapply wp_set_chan; [apply lookup_insert_eq|]. wp_step. intros _. eexists.
      split; [apply lookup_insert_eq|]. simpl. split_and!; [done| |by right].
      unfold window_total, u32. simpl. dlia.
Qed.

Lemma window_adjust_balances_witness :
  exists rc s', channel_receive_window_adjust send_ok 1%positive 5000 false
      (sample_session sample_channel []) = Ret rc s' /\
    (rc = 0 -> exists c', s_chans s' !! 1%positive = Some c' /\ adjust_state c' = libssh2_NB_state_idle /\
       window_total c' = u32 (window_total sample_channel + 5000) /\
       ((adjust_adjust c' = adjust_adjust sample_channel /\
         cd_window_size (remote c') = cd_window_size (remote sample_channel)) \/
        (adjust_adjust c' = adjust_message sample_channel (u32 (5000 + adjust_queue sample_channel)) /\
         adjust_queue c' = 0 /\
         cd_window_size (remote c') =
           u32 (cd_window_size (remote sample_channel) + u32 (5000 + adjust_queue sample_channel))))).
Proof.
  apply (window_adjust_balances send_ok 1%positive 5000 false (sample_session sample_channel []));
    [|apply sample_can_send|done..|lia].
  apply sample_conn_ok; [apply sample_channel_ok|by apply (bool_decide_unpack _)].
Defined.

(** a resumed window adjustment books the wrong amount. An adjustment of
    2000 bytes with 100 bytes queued announces 2100 bytes; when the first attempt
    to send it would block, the call that sends it adds only 2000 to the window,
    so the channel's window and the peer's differ from then on. *)
Theorem window_adjust_resume :
  let c := sample_channel <| adjust_queue := 100 |> in
  exists s1 s2,
    channel_receive_window_adjust send_eagain 1%positive 2000 false (sample_session c [])
      = Ret LIBSSH2_ERROR_EAGAIN s1 /\
    channel_receive_window_adjust send_ok 1%positive 2000 false s1 = Ret 0 s2 /\
    adjust_adjust <$> s_chans s2 !! 1%positive = Some (adjust_message c 2100) /\
    (fun c' => cd_window_size (remote c')) <$> s_chans s2 !! 1%positive = Some 2100 /\
    cd_window_size (remote c) = 100.
Proof. do 2 eexists. split_and!; [vm_compute; reflexivity|vm_compute; reflexivity|reflexivity..]. Qed.

(** ** Flushing *)

(** A channel with a window of 2 MB and one data packet of one byte. *)
Definition flushing_session : session :=
  (sample_session (sample_channel <| read_avail := 1 |>
     <| remote ::= fun r => r <| cd_window_size := 2097152 |> |>)
     [SSH_MSG_CHANNEL_DATA; 0; 0; 0; 0; 0; 0; 0; 1; 65]) <| packets := [mk_packet 2%positive 10 9] |>.

(** flushing refunds the wrong amount. Flushing a data packet of one byte
    takes one byte off [read_avail] and off the window, but refunds
    [data_len - 13] bytes, the header size of extended data: minus three, which
    the peer is told as a window adjustment of 4294967293 bytes. *)
Theorem flush_refund_underflow :
  exists s',
    channel_flush send_ok 1%positive 0 flushing_session = Ret 1 s' /\ packets s' = [] /\ s_heap s' = ∅ /\
    exists c', s_chans s' !! 1%positive = Some c' /\ read_avail c' = 0 /\
      adjust_adjust c' = adjust_message c' (2 ^ 32 - 3) /\ cd_window_size (remote c') = 2097152 - 4.
Proof. eexists. split_and!; [vm_compute; reflexivity|reflexivity..|]. eexists. split_and!; reflexivity. Qed.

(** switching a channel to ignore extended data leaves queued extended data
    in place: the flush that [_libssh2_channel_extended_data] contains is never
    reached, since the state that guards it has just been left. *)
Theorem extended_data_not_flushed transport_send p s c mode :
  s_chans s !! p = Some c -> extData2_state c = libssh2_NB_state_idle ->
  exists s', channel_extended_data transport_send p mode s = Ret 0 s' /\
    packets s' = packets s /\ s_heap s' = s_heap s /\
    (fun c' => cd_extended_data_ignore_mode (remote c')) <$> s_chans s' !! p = Some mode.
Proof.
  intros Hc Hst.
  destruct (wp_Ret (channel_extended_data transport_send p mode) (fun rc s' => rc = 0 /\
    packets s' = packets s /\ s_heap s' = s_heap s /\
    (fun c' => cd_extended_data_ignore_mode (remote c')) <$> s_chans s' !! p = Some mode) s)
    as (rc & s' & E & -> & H); [|by exists s'].
  unfold channel_extended_data. wp_step. eapply wp_chan; [exact Hc|]. rewrite Hst. cbn iota.
  wp_step. eapply wp_set_chan; [exact Hc|]. wp_step. eapply wp_chan; [apply lookup_insert_eq|].
  wp_step. simpl. wp_step. simpl. wp_step. eapply wp_set_chan; [apply lookup_insert_eq|]. wp_step.
  split_and!; [done..|]. simpl. by rewrite lookup_insert_eq.
Qed.

Lemma extended_data_not_flushed_witness :
  exists s', channel_extended_data send_ok 1%positive LIBSSH2_CHANNEL_EXTENDED_DATA_IGNORE reading_session
      = Ret 0 s' /\
    packets s' = packets reading_session /\ s_heap s' = s_heap reading_session /\
    (fun c' => cd_extended_data_ignore_mode (remote c')) <$> s_chans s' !! 1%positive
      = Some LIBSSH2_CHANNEL_EXTENDED_DATA_IGNORE.
Proof.
  apply (extended_data_not_flushed send_ok 1%positive reading_session
    (sample_channel <| read_avail := 3 |>)); reflexivity.
Defined.

(** ** Channel numbers *)

Lemma max_local_id_below s cs id :
  Forall (fun p => exists c, s_chans s !! p = Some c /\ cd_id (local c) < id) cs ->
  max_local_id cs id s = Ret id s.
Proof.
  induction 1 as [|p cs (c & Hc & Hlt) _ IH]; cbn [max_local_id]; [done|].
  unfold bind, chan, bind, gets, access, ret. rewrite Hc.
  destruct (Z.ltb_spec id (cd_id (local c))); [lia|]. exact IH.
Qed.

(** Every channel number handed out so far is below the counter. *)
Definition ids_below (s : session) : Prop :=
  Forall (fun p => exists c, s_chans s !! p = Some c /\ cd_id (local c) < next_channel s) (channels s).

(** [_libssh2_channel_nextid] hands out fresh numbers. While the counter is
    above the number of every channel of the session and has not reached its
    last value, the number returned differs from that of every channel, and the
    counter is above it as well. *)
Theorem channel_nextid_fresh s :
  ids_below s -> 0 <= next_channel s < 2 ^ 32 - 1 ->
  exists id s', channel_nextid s = Ret id s' /\ id < next_channel s' /\ ids_below s' /\
    channels s' = channels s /\
    forall p c, p ∈ channels s' -> s_chans s' !! p = Some c -> cd_id (local c) <> id.
Proof.
  intros Hb Hn. exists (next_channel s), (s <| next_channel := next_channel s + 1 |>).
  assert (Hlt : forall p c, p ∈ channels s -> s_chans s !! p = Some c -> cd_id (local c) < next_channel s).
  { intros p c Hp Hc. unfold ids_below in Hb. rewrite Forall_forall in Hb.
    destruct (Hb p Hp) as (c' & Hc' & Hlt). rewrite Hc in Hc'. by simplify_eq. }
  split_and!; simpl; [|lia| |done|].
  - unfold channel_nextid, bind at 1, gets at 1, bind at 1, gets at 1.
    rewrite (bind_Ret _ _ _ _ _ (max_local_id_below s _ _ Hb)).
    unfold bind, modify, ret. rewrite u32_small by lia. done.
  - eapply Forall_impl; [exact Hb|]. intros p (c & Hc & ?). exists c. simpl. split; [done|lia].
  - intros p c Hp Hc Heq. specialize (Hlt p c Hp Hc). lia.
Qed.

Lemma channel_nextid_fresh_witness :
  exists id s', channel_nextid ((sample_session sample_channel []) <| next_channel := 1 |>) = Ret id s' /\
    id < next_channel s' /\ ids_below s' /\
    channels s' = channels ((sample_session sample_channel []) <| next_channel := 1 |>) /\
    forall p c, p ∈ channels s' -> s_chans s' !! p = Some c -> cd_id (local c) <> id.
Proof.
  apply (channel_nextid_fresh ((sample_session sample_channel []) <| next_channel := 1 |>)); [|simpl; lia].
  constructor; [|constructor]. exists sample_channel. split; [apply lookup_singleton_eq|reflexivity].
Defined.

(** a channel number that is not fresh. When a channel of the session has a
    number above the counter, as after the counter wraps around,
    [_libssh2_channel_nextid] returns exactly this channel's number. *)
Theorem channel_nextid_duplicate :
  let c := sample_channel <| local ::= fun l => l <| cd_id := 2 ^ 32 - 1 |> |> in
  exists s', channel_nextid ((sample_session c []) <| next_channel := 0 |>) = Ret (cd_id (local c)) s' /\
    next_channel s' = 0.
Proof. eexists. split; vm_compute; reflexivity. Qed.
