(* ===== verification/ChannelCtl.v ===== *)
(** * Opening, closing and freeing channels, and channel requests (channel.c)

    The session's [open_*] fields hold the progress of [_libssh2_channel_open];
    each channel's own [*_state] fields hold that of its requests. *)

From stdpp Require Import base numbers list gmap strings.
From S2P Require Import Prelude Codes Wire Session ChannelWindow Packet PacketWait ChannelIO.

Section ChannelCtl.
Context (transport_send : list Z -> list Z -> CM Z) (transport_read : CM Z).

(** ** Taking a channel apart *)

(** [_libssh2_list_remove(&channel->node)]: the node is in the session's list or
    in a listener's queue. *)
Definition list_remove_channel (p : ptr) : CM unit :=
  modify (fun s => s <| channels ::= filter (fun q => q <> p) |>
                     <| listeners ::= fmap (fun l => l <| queue ::= filter (fun q => q <> p) |>) |>).

(** "Clear out packets meant for this channel". *)
Fixpoint clear_packets (fuel : nat) (channel_id : list Z) : CM unit :=
  match fuel with
  | O => fun _ => OutOfFuel
  | S fuel =>
      let! r := packet_ask SSH_MSG_CHANNEL_DATA 1 (Some channel_id) in
      let! r := match r with
                | Some x => ret (Some x)
                | None => packet_ask SSH_MSG_CHANNEL_EXTENDED_DATA 1 (Some channel_id)
                end in
      match r with
      | Some (data, _) => free_block data ;; clear_packets fuel channel_id
      | None => ret tt
      end
  end.

(** The loop ends when no packet is left to take: one round per queued packet,
    and one to find none, are enough. *)
Definition clear_channel_packets (id : Z) : CM unit :=
  let! ps := gets packets in clear_packets (S (length ps)) (htonu32 id).

(** ** [_libssh2_channel_open] *)

(** The code at [channel_error]. *)
Definition open_error : CM (option ptr) :=
  let! od := gets open_data in
  match od with
  | Some data => free_block data ;; modify (fun s => s <| open_data := None |>)
  | None => ret tt
  end ;;
  modify (fun s => s <| open_packet := None |>) ;;
  let! oc := gets open_channel in
  match oc with
  | Some p =>
      list_remove_channel p ;;
      let! c := chan p in
      clear_channel_packets (cd_id (local c)) ;;
      modify (fun s => s <| open_data := None |>) ;;
      free_channel p ;;
      modify (fun s => s <| open_channel := None |>)
  | None => ret tt
  end ;;
  modify (fun s => s <| open_state := libssh2_NB_state_idle |>) ;;
  ret None.

(** The [libssh2_NB_state_sent] part: waiting for the peer's answer. *)
Definition open_reply (fuel : nat) (ctype : list Z) : CM (option ptr) :=
  let! pkt := gets open_packet in
  let! packet := access pkt in
  let! start := gets open_start in
  let! id := access (bytes_at packet (5 + lenZ ctype) 4) in
  let! r := packet_requirev transport_read fuel
              [SSH_MSG_CHANNEL_OPEN_CONFIRMATION; SSH_MSG_CHANNEL_OPEN_FAILURE] 1 (Some id) start in
  let '(rc, out, start) := r in
  modify (fun s => s <| open_start := start |>) ;;
  match out with
  | Some (data, len) => modify (fun s => s <| open_data := Some data |> <| open_data_len := len |>)
  | None => ret tt
  end ;;
  if rc =? LIBSSH2_ERROR_EAGAIN then error LIBSSH2_ERROR_EAGAIN "Would block" ;; ret None
  else if negb (rc =? 0) then error rc "Unexpected error" ;; open_error
  else
    let! len := gets open_data_len in
    if len <? 1 then error LIBSSH2_ERROR_PROTO "Unexpected packet size" ;; open_error
    else
      let! od := gets open_data in
      let! data := access od in
      let! d := block data in
      let! ty := access (byte_at d 0) in
      if ty =? SSH_MSG_CHANNEL_OPEN_CONFIRMATION then
        if len <? 17 then error LIBSSH2_ERROR_PROTO "Unexpected packet size" ;; open_error
        else
          let! oc := gets open_channel in
          let! p := access oc in
          let! rid := access (ntohu32 d 5) in
          let! win := access (ntohu32 d 9) in
          let! psize := access (ntohu32 d 13) in
          set_chan p (fun c =>
            c <| remote ::= fun r => r <| cd_id := rid |> |>
              <| local ::= fun l => l <| cd_window_size := win |> <| cd_window_size_initial := win |>
                                      <| cd_packet_size := psize |> |>) ;;
          modify (fun s => s <| open_packet := None |>) ;;
          free_block data ;;
          modify (fun s => s <| open_data := None |> <| open_state := libssh2_NB_state_idle |>) ;;
          ret (Some p)
      else
        (if ty =? SSH_MSG_CHANNEL_OPEN_FAILURE then
           let! reason := access (ntohu32 d 5) in
           error LIBSSH2_ERROR_CHANNEL_FAILURE
             (if reason =? SSH_OPEN_ADMINISTRATIVELY_PROHIBITED
              then "Channel open failure (administratively prohibited)"
              else if reason =? SSH_OPEN_CONNECT_FAILED
              then "Channel open failure (connect failed)"
              else if reason =? SSH_OPEN_UNKNOWN_CHANNELTYPE
              then "Channel open failure (unknown channel type)"
              else if reason =? SSH_OPEN_RESOURCE_SHORTAGE
              then "Channel open failure (resource shortage)"
              else "Channel open failure")
         else ret 0) ;;
        open_error.

(** The [libssh2_NB_state_created] part. *)
Definition open_send (fuel : nat) (ctype message : list Z) : CM (option ptr) :=
  let! pkt := gets open_packet in
  let! packet := access pkt in
  let! rc := transport_send packet message in
  if rc =? LIBSSH2_ERROR_EAGAIN then error rc "Would block sending channel-open request" ;; ret None
  else if negb (rc =? 0) then error rc "Unable to send channel-open request" ;; open_error
  else
    modify (fun s => s <| open_state := libssh2_NB_state_sent |>) ;;
    open_reply fuel ctype.

Definition open_message (ctype : list Z) (local_channel window_size packet_size : Z) : list Z :=
  store_u32 (store_u32 (store_u32 (store_str [SSH_MSG_CHANNEL_OPEN] ctype)
    local_channel) window_size) packet_size.

(** The idle part: the channel is allocated and entered in the session's list. *)
Definition open_start_new (fuel : nat) (ctype : list Z) (window_size packet_size : Z)
    (message : list Z) : CM (option ptr) :=
  modify (fun s => s <| open_channel := None |> <| open_packet := None |> <| open_data := None |>) ;;
  let! id := channel_nextid in
  modify (fun s => s <| open_local_channel := id |> <| open_start := 0 |>) ;;
  let! r := alloc_channel in
  modify (fun s => s <| open_channel := r |>) ;;
  match r with
  | None => error LIBSSH2_ERROR_ALLOC "Unable to allocate space for channel data" ;; ret None
  | Some p =>
      let! ok := alloc_outcome in
      if negb ok then
        error LIBSSH2_ERROR_ALLOC "Failed allocating memory for channel type name" ;;
        free_channel p ;;
        modify (fun s => s <| open_channel := None |>) ;;
        ret None
      else
        set_chan p (fun c =>
          c <| channel_type := ctype |>
            <| local ::= fun l => l <| cd_id := id |> |>
            <| remote ::= fun r => r <| cd_window_size := window_size |>
                                     <| cd_window_size_initial := window_size |>
                                     <| cd_packet_size := packet_size |> |>) ;;
        modify (fun s => s <| channels ::= fun cs => cs ++ [p] |>) ;;
        let! ok := alloc_outcome in
        if negb ok then
          error LIBSSH2_ERROR_ALLOC "Unable to allocate temporary space for packet" ;; open_error
        else
          modify (fun s => s <| open_packet := Some (open_message ctype id window_size packet_size) |>
                             <| open_state := libssh2_NB_state_created |>) ;;
          open_send fuel ctype message
  end.

(** [_libssh2_channel_open]: the new channel, or [None] for [NULL]. *)
Definition channel_open (fuel : nat) (ctype : list Z) (window_size packet_size : Z)
    (message : list Z) : CM (option ptr) :=
  let! st := gets open_state in
  match st with
  | libssh2_NB_state_idle => open_start_new fuel ctype window_size packet_size message
  | libssh2_NB_state_created => open_send fuel ctype message
  | libssh2_NB_state_sent => open_reply fuel ctype
  | _ => open_error
  end.

(** ** Closing *)

(** [while(!channel->remote.close && !rc && socket_state != DISCONNECTED)]. *)
Fixpoint close_wait (fuel : nat) (p : ptr) (rc : Z) : CM Z :=
  match fuel with
  | O => fun _ => OutOfFuel
  | S fuel =>
      let! c := chan p in
      let! st := gets socket_state in
      if negb (cd_close (remote c)) && (rc =? 0) && negb (st =? LIBSSH2_SOCKET_DISCONNECTED) then
        let! rc := transport_read in close_wait fuel p rc
      else ret rc
  end.

(** The part after the close message was dealt with. *)
Definition close_finish (fuel : nat) (p : ptr) (rc : Z) : CM Z :=
  let! c := chan p in
  let! rc := (if nb_is (close_state c) libssh2_NB_state_sent then close_wait fuel p rc else ret rc) in
  (if negb (rc =? LIBSSH2_ERROR_EAGAIN) then
     set_chan p (fun c => c <| local ::= fun l => l <| cd_close := true |> |>) ;;
     let! c := chan p in
     (if close_cb c then event_log (EvChannelClose p) else ret tt) ;;
     set_chan p (fun c => c <| close_state := libssh2_NB_state_idle |>)
   else ret tt) ;;
  ret (if 0 <=? rc then 0 else rc).

(** Sending the close message. *)
Definition close_send (fuel : nat) (p : ptr) (rc : Z) : CM Z :=
  let! c := chan p in
  (if nb_is (close_state c) libssh2_NB_state_idle then
     set_chan p (fun c => c <| close_packet := SSH_MSG_CHANNEL_CLOSE :: htonu32 (cd_id (remote c)) |>
                            <| close_state := libssh2_NB_state_created |>)
   else ret tt) ;;
  let! c := chan p in
  if nb_is (close_state c) libssh2_NB_state_created then
    let! rc := transport_send (close_packet c) [] in
    if rc =? LIBSSH2_ERROR_EAGAIN then error rc "Would block sending close-channel" ;; ret rc
    else if negb (rc =? 0) then
      error rc "Unable to send close-channel request, but closing anyway" ;;
      close_finish fuel p rc
    else
      set_chan p (fun c => c <| close_state := libssh2_NB_state_sent |>) ;;
      close_finish fuel p rc
  else close_finish fuel p rc.

(** [_libssh2_channel_close]. *)
Definition channel_close (fuel : nat) (p : ptr) : CM Z :=
  let! c := chan p in
  if cd_close (local c) then
    set_chan p (fun c => c <| close_state := libssh2_NB_state_idle |>) ;; ret 0
  else if negb (cd_eof (local c)) then
    let! rc := channel_send_eof transport_send p in
    if rc =? LIBSSH2_ERROR_EAGAIN then ret rc
    else
      (if negb (rc =? 0) then error rc "Unable to send EOF, but closing channel anyway" else ret 0) ;;
      close_send fuel p rc
  else close_send fuel p 0.

(** [channel_wait_closed]; the loop is [do { ... } while(rc > 0)]. *)
Fixpoint wait_closed_loop (fuel : nat) (p : ptr) : CM Z :=
  match fuel with
  | O => fun _ => OutOfFuel
  | S fuel =>
      let! rc := transport_read in
      let! c := chan p in
      if cd_close (remote c) then ret rc
      else if 0 <? rc then wait_closed_loop fuel p
      else ret rc
  end.

Definition channel_wait_closed (fuel : nat) (p : ptr) : CM Z :=
  let! c := chan p in
  if negb (cd_eof (remote c)) then
    error LIBSSH2_ERROR_INVAL "libssh2_channel_wait_closed() invoked when channel is not in EOF state"
  else
    set_chan p (fun c => if nb_is (wait_closed_state c) libssh2_NB_state_idle
                         then c <| wait_closed_state := libssh2_NB_state_created |> else c) ;;
    let! rc := (if negb (cd_close (remote c)) then wait_closed_loop fuel p else ret 0) in
    if rc <? 0 then ret rc
    else set_chan p (fun c => c <| wait_closed_state := libssh2_NB_state_idle |>) ;; ret 0.

(** ** Freeing *)

(** The part of [_libssh2_channel_free] after the close; the buffers the
    channel owns are fields of it and go with it. *)
Definition channel_release (p : ptr) : CM Z :=
  set_chan p (fun c => c <| free_state := libssh2_NB_state_idle |>) ;;
  let! c := chan p in
  clear_channel_packets (cd_id (local c)) ;;
  list_remove_channel p ;;
  free_channel p ;;
  ret 0.

(** [_libssh2_channel_free]. *)
Definition channel_free (fuel : nat) (p : ptr) : CM Z :=
  set_chan p (fun c => if nb_is (free_state c) libssh2_NB_state_idle
                       then c <| free_state := libssh2_NB_state_created |> else c) ;;
  let! c := chan p in
  let! st := gets socket_state in
  let! rc :=
    (if negb (cd_close (local c)) && (st =? LIBSSH2_SOCKET_CONNECTED)
     then channel_close fuel p else ret 0) in
  if rc =? LIBSSH2_ERROR_EAGAIN then ret rc else channel_release p.

(** ** Requests *)

Definition reply_codes : list Z := [SSH_MSG_CHANNEL_SUCCESS; SSH_MSG_CHANNEL_FAILURE].

Definition request_message (c : channel) (request : list Z) (want_reply : Z) : list Z :=
  store_str (store_u32 [SSH_MSG_CHANNEL_REQUEST] (cd_id (remote c))) request ++ [want_reply].

(** The [libssh2_NB_state_sent] part of [channel_setenv]. *)
Definition setenv_reply (fuel : nat) (p : ptr) : CM Z :=
  let! c := chan p in
  let! r := packet_requirev transport_read fuel reply_codes 1 (Some (setenv_local_channel c)) (setenv_start c) in
  let '(rc, out, start) := r in
  set_chan p (fun c => c <| setenv_start := start |>) ;;
  let idle := set_chan p (fun c => c <| setenv_state := libssh2_NB_state_idle |>) in
  if rc =? LIBSSH2_ERROR_EAGAIN then ret rc
  else if negb (rc =? 0) then idle ;; error rc "Failed getting response for channel-setenv"
  else
    let! x := access out in
    let '(data, data_len) := x in
    if data_len <? 1 then idle ;; error LIBSSH2_ERROR_PROTO "Unexpected packet size"
    else
      let! d := block data in
      let! ty := access (byte_at d 0) in
      free_block data ;;
      idle ;;
      if ty =? SSH_MSG_CHANNEL_SUCCESS then ret 0
      else error LIBSSH2_ERROR_CHANNEL_REQUEST_DENIED "Unable to complete request for channel-setenv".

Definition setenv_send (fuel : nat) (p : ptr) : CM Z :=
  let! c := chan p in
  let! packet := access (setenv_packet c) in
  let! rc := transport_send packet [] in
  if rc =? LIBSSH2_ERROR_EAGAIN then error rc "Would block sending setenv request" ;; ret rc
  else if negb (rc =? 0) then
    set_chan p (fun c => c <| setenv_packet := None |> <| setenv_state := libssh2_NB_state_idle |>) ;;
    error LIBSSH2_ERROR_SOCKET_SEND "Unable to send channel-request packet for setenv request"
  else
    set_chan p (fun c => c <| setenv_packet := None |>
                           <| setenv_local_channel := htonu32 (cd_id (local c)) |>
                           <| setenv_state := libssh2_NB_state_sent |>) ;;
    setenv_reply fuel p.

(** [channel_setenv]. *)
Definition channel_setenv (fuel : nat) (p : ptr) (varname value : list Z) : CM Z :=
  let! c := chan p in
  match setenv_state c with
  | libssh2_NB_state_idle =>
      let! ok := alloc_outcome in
      if negb ok then
        set_chan p (fun c => c <| setenv_start := 0 |> <| setenv_packet := None |>) ;;
        error LIBSSH2_ERROR_ALLOC "Unable to allocate memory for setenv packet"
      else
        set_chan p (fun c =>
          c <| setenv_start := 0 |>
            <| setenv_packet := Some (store_str (store_str (request_message c (str "env") 1) varname) value) |>
            <| setenv_state := libssh2_NB_state_created |>) ;;
        setenv_send fuel p
  | libssh2_NB_state_created => setenv_send fuel p
  | libssh2_NB_state_sent => setenv_reply fuel p
  | _ =>
      set_chan p (fun c => c <| setenv_state := libssh2_NB_state_idle |>) ;;
      error LIBSSH2_ERROR_CHANNEL_REQUEST_DENIED "Unable to complete request for channel-setenv"
  end.

(** The [libssh2_NB_state_sent] part of [_libssh2_channel_process_startup]. *)
Definition process_reply (fuel : nat) (p : ptr) : CM Z :=
  let! c := chan p in
  let! r := packet_requirev transport_read fuel reply_codes 1 (Some (process_local_channel c)) (process_start c) in
  let '(rc, out, start) := r in
  set_chan p (fun c => c <| process_start := start |>) ;;
  let finish := set_chan p (fun c => c <| process_state := libssh2_NB_state_end |>) in
  if rc =? LIBSSH2_ERROR_EAGAIN then ret rc
  else if negb (rc =? 0) then finish ;; error rc "Failed waiting for channel success"
  else
    let! x := access out in
    let '(data, data_len) := x in
    if data_len <? 1 then finish ;; error rc "Failed waiting for channel success"
    else
      let! d := block data in
      let! code := access (byte_at d 0) in
      free_block data ;;
      finish ;;
      if code =? SSH_MSG_CHANNEL_SUCCESS then ret 0
      else error LIBSSH2_ERROR_CHANNEL_REQUEST_DENIED
             "Unable to complete request for channel-process-startup".

Definition process_send (fuel : nat) (p : ptr) (message : option (list Z)) : CM Z :=
  let! c := chan p in
  let! packet := access (process_packet c) in
  let! rc := transport_send packet (default [] message) in
  if rc =? LIBSSH2_ERROR_EAGAIN then error rc "Would block sending channel request" ;; ret rc
  else if negb (rc =? 0) then
    set_chan p (fun c => c <| process_packet := None |> <| process_state := libssh2_NB_state_end |>) ;;
    error rc "Unable to send channel request"
  else
    set_chan p (fun c => c <| process_packet := None |>
                           <| process_local_channel := htonu32 (cd_id (local c)) |>
                           <| process_state := libssh2_NB_state_sent |>) ;;
    process_reply fuel p.

(** [_libssh2_channel_process_startup]. *)
Definition channel_process_startup (fuel : nat) (p : ptr) (request : list Z)
    (message : option (list Z)) : CM Z :=
  let! c := chan p in
  match process_state c with
  | libssh2_NB_state_end => error LIBSSH2_ERROR_BAD_USE "Channel can not be reused"
  | libssh2_NB_state_idle =>
      let! ok := alloc_outcome in
      if negb ok then
        set_chan p (fun c => c <| process_start := 0 |> <| process_packet := None |>) ;;
        error LIBSSH2_ERROR_ALLOC "Unable to allocate memory for channel-process request"
      else
        set_chan p (fun c =>
          c <| process_start := 0 |>
            <| process_packet := Some (match message with
                 | Some m => store_u32 (request_message c request 1) (lenZ m)
                 | None => request_message c request 1
                 end) |>
            <| process_state := libssh2_NB_state_created |>) ;;
        process_send fuel p message
  | libssh2_NB_state_created => process_send fuel p message
  | libssh2_NB_state_sent => process_reply fuel p
  | _ => error LIBSSH2_ERROR_CHANNEL_REQUEST_DENIED
           "Unable to complete request for channel-process-startup"
  end.

(** The created part of [channel_signal]. *)
Definition signal_send (p : ptr) : CM Z :=
  let! c := chan p in
  let! packet := access (sendsignal_packet c) in
  let! rc := transport_send packet [] in
  if rc =? LIBSSH2_ERROR_EAGAIN then error rc "Would block sending signal request" ;; ret rc
  else
    set_chan p (fun c => c <| sendsignal_packet := None |> <| sendsignal_state := libssh2_NB_state_idle |>) ;;
    if negb (rc =? 0) then error rc "Unable to send signal packet" else ret 0.

(** [channel_signal]. *)
Definition channel_signal (p : ptr) (signame : list Z) : CM Z :=
  let! c := chan p in
  match sendsignal_state c with
  | libssh2_NB_state_idle =>
      let! ok := alloc_outcome in
      if negb ok then
        set_chan p (fun c => c <| sendsignal_packet := None |>) ;;
        error LIBSSH2_ERROR_ALLOC "Unable to allocate memory for signal request"
      else
        set_chan p (fun c =>
          c <| sendsignal_packet := Some (store_str (request_message c (str "signal") 0) signame) |>
            <| sendsignal_state := libssh2_NB_state_created |>) ;;
        signal_send p
  | libssh2_NB_state_created => signal_send p
  | _ => set_chan p (fun c => c <| sendsignal_state := libssh2_NB_state_idle |>) ;; ret LIBSSH2_ERROR_PROTO
  end.
End ChannelCtl.
