(* ===== verification/ChannelLife.v ===== *)
(** * The life of a channel

    Opening, closing and freeing: what [_libssh2_channel_free] leaves behind,
    the records of [_libssh2_channel_open] for each answer of the peer, and the
    close handshake. *)

From stdpp Require Import base numbers list gmap strings.
From S2P Require Import Prelude Codes Wire Session ChannelWindow Packet Conn PacketSafety PacketSpec PacketWait ChannelIO ChannelStream ChannelCtl.

(** ** Clearing the queue *)

(** The packets [_libssh2_channel_free] looks for. *)
Definition chan_packet (id : Z) (h : gmap ptr (list Z)) (k : packet) : bool :=
  asked h SSH_MSG_CHANNEL_DATA 1 (Some (htonu32 id)) k
  || asked h SSH_MSG_CHANNEL_EXTENDED_DATA 1 (Some (htonu32 id)) k.

Lemma asked_heap h h' ty ofs buf k :
  h' !! pk_data k = h !! pk_data k -> asked h' ty ofs buf k = asked h ty ofs buf k.
Proof. unfold asked. by intros ->. Qed.

Lemma chan_packet_heap id h h' k :
  h' !! pk_data k = h !! pk_data k -> chan_packet id h' k = chan_packet id h k.
Proof. intros H. unfold chan_packet. by rewrite !(asked_heap h h'). Qed.

(** The state with a queued packet taken out and its payload freed. *)
Definition taken (i : nat) (k : packet) (s : session) : session :=
  s <| packets := delete i (packets s) |> <| s_heap ::= delete (pk_data k) |>.

Lemma taken_ok s i k : conn_ok s -> packets s !! i = Some k -> conn_ok (taken i k s).
Proof.
  intros Hok Hi. destruct (delete_split _ _ _ Hi) as (a & b & E & Ed). unfold taken. rewrite Ed.
  apply (rf_ok 1%positive s). by apply read_frame_unlink.
Qed.

(** The other packets are as before. *)
Lemma taken_filter id s i k :
  conn_ok s -> packets s !! i = Some k -> chan_packet id (s_heap s) k = true ->
  filter (fun k' => chan_packet id (s_heap (taken i k s)) k' = false) (packets (taken i k s)) =
  filter (fun k' => chan_packet id (s_heap s) k' = false) (packets s).
Proof.
  intros Hok Hi Hk. destruct (delete_split _ _ _ Hi) as (a & b & E & Ed).
  pose proof (ok_nodup s Hok) as Hnd. rewrite E in Hnd. unfold taken; simpl. rewrite Ed, E.
  assert (Hsame : forall k', k' ∈ a ++ b ->
    chan_packet id (delete (pk_data k) (s_heap s)) k' = chan_packet id (s_heap s) k').
  { intros k' Hk'. apply chan_packet_heap, lookup_delete_ne.
    intros Heq. by apply (nodup_head_ne _ _ _ k' Hnd Hk'). }
  rewrite !filter_app, filter_cons, decide_False by (by rewrite Hk). f_equal; apply filter_ext_elem;
    intros k' Hk'; rewrite Hsame; done || (apply elem_of_app; auto).
Qed.

Lemma wp_packet_ask_find s ty ofs buf (Q : option (ptr * Z) -> session -> Prop) :
  conn_ok s -> 0 <= ofs ->
  ((forall k, k ∈ packets s -> asked (s_heap s) ty ofs buf k = false) -> Q None s) ->
  (forall i k, packets s !! i = Some k -> asked (s_heap s) ty ofs buf k = true ->
     Q (Some (pk_data k, pk_data_len k)) (s <| packets := delete i (packets s) |>)) ->
  wp (packet_ask ty ofs buf) Q s.
Proof.
  intros Hok Hofs Hn Hs. unfold packet_ask. do 2 wp_step. unfold wp.
  rewrite packet_ask_loop_spec by (done || apply Hok).
  destruct (list_find _ (packets s)) as [[i k]|] eqn:F.
  - apply list_find_Some in F as (? & ? & _). by apply Hs.
  - apply list_find_None in F. rewrite Forall_forall in F. apply Hn.
    intros k Hk. by apply not_true_is_false, F.
Qed.

(** The live blocks are those of [F] and the payloads in the queue, each once. *)
Definition live_exactly (F : list ptr) (s : session) : Prop :=
  dom (s_heap s) = list_to_set (F ++ (pk_data <$> packets s)) /\ NoDup (F ++ (pk_data <$> packets s)).

Lemma taken_live F s i k : packets s !! i = Some k -> live_exactly F s -> live_exactly F (taken i k s).
Proof.
  intros Hi [Hd Hn]. destruct (delete_split _ _ _ Hi) as (a & b & E & Ed). unfold live_exactly, taken; simpl.
  rewrite Ed. rewrite E, fmap_app, fmap_cons in Hd, Hn.
  rewrite app_assoc in Hn. rewrite fmap_app, app_assoc. split.
  - rewrite dom_delete_L, Hd, app_assoc. apply NoDup_app in Hn as (_ & Ha & Hb). apply NoDup_cons in Hb as [Hb _].
    assert (H : pk_data k ∉ (F ++ (pk_data <$> a))) by (intros H; by apply (Ha _ H); left).
    rewrite !list_to_set_app_L, list_to_set_cons. clear -H Hb. set_solver.
  - apply NoDup_app in Hn as (Hl & Ha & [_ Hb]%NoDup_cons). apply NoDup_app. split_and!; [done| |done].
    intros x Hx Hxb. apply (Ha x Hx). by right.
Qed.

(** What other parts of the session own, the side that sends, and whether allocations
    succeed. *)
Definition roots (s : session) :=
  (s_kex s, s_state s, open_data s, s_packet s, s_local s, s_send s, socket_state s, forallb id (s_alloc s)).

(** What clearing leaves: the packets of others, in order. *)
Record cleared (id : Z) (s s' : session) : Prop := {
  cl_ok : conn_ok s';
  cl_packets : packets s' = filter (fun k => chan_packet id (s_heap s) k = false) (packets s);
  cl_heap : s_heap s' ⊆ s_heap s;
  cl_chans : s_chans s' = s_chans s;
  cl_channels : channels s' = channels s;
  cl_listeners : listeners s' = listeners s;
  cl_live : forall F, live_exactly F s -> live_exactly F s';
  cl_roots : roots s' = roots s
}.

Lemma clear_packets_ok fuel id s :
  conn_ok s -> (length (packets s) < fuel)%nat ->
  wp (clear_packets fuel (htonu32 id)) (fun _ s' => cleared id s s') s.
Proof.
  revert s. induction fuel as [|fuel IH]; intros s Hok Hf; [lia|]. cbn [clear_packets].
  assert (Hrec : forall i k, packets s !! i = Some k -> chan_packet id (s_heap s) k = true ->
    wp (free_block (pk_data k) ;; clear_packets fuel (htonu32 id)) (fun _ s' => cleared id s s')
      (s <| packets := delete i (packets s) |>)).
  { intros i k Hi Hk. destruct (Forall_lookup_1 _ _ _ _ (ok_packets s Hok) Hi) as (d & Hd & _).
    wp_step. eapply wp_free_block; [exact Hd|].
    eapply wp_mono; [apply (IH (taken i k s)); [by apply taken_ok|]|].
    - simpl. rewrite length_delete by eauto. pose proof (lookup_lt_Some _ _ _ Hi). lia.
    - intros [] s' [C1 C2 C3 C4 C5 C6 C7 C8]. split; try done.
      + rewrite C2. by apply taken_filter.
      + etrans; [exact C3|]. apply delete_subseteq.
      + intros F HF. by apply C7, taken_live. }
  wp_step. apply wp_packet_ask_find; [done|lia| |].
  - intros Hn1. wp_step. apply wp_packet_ask_find; [done|lia| |].
    + intros Hn2. wp_step. split; try done. symmetry. apply filter_all.
      intros k Hk. unfold chan_packet. by rewrite Hn1, Hn2.
    + intros i k Hi Hk. apply Hrec; [done|]. unfold chan_packet. by rewrite Hk, orb_true_r.
  - intros i k Hi Hk. wp_step. apply Hrec; [done|]. unfold chan_packet. by rewrite Hk.
Qed.

Lemma clear_channel_packets_ok id s :
  conn_ok s -> wp (clear_channel_packets id) (fun _ s' => cleared id s s') s.
Proof. intros Hok. unfold clear_channel_packets. do 2 wp_step. apply clear_packets_ok; [done|lia]. Qed.

(** ** Freeing *)

(** Unlinking a channel and freeing it. *)
Lemma unlinked_ok s p :
  conn_ok s ->
  conn_ok (s <| channels ::= filter (fun q => q <> p) |>
             <| listeners ::= fmap (fun l => l <| queue ::= filter (fun q => q <> p) |>) |>
             <| s_chans ::= delete p |>).
Proof.
  intros [H1 H2 H3 H4 H5 H6 H7 H8 H9].
  assert (Hlive : forall qs, Forall (fun q => is_Some (s_chans s !! q)) qs ->
    Forall (fun q => is_Some (delete p (s_chans s) !! q)) (filter (fun q => q <> p) qs)).
  { intros qs Hqs. rewrite Forall_forall in *. intros q Hq.
    apply list_elem_of_filter in Hq as [Hne Hq]. rewrite lookup_delete_ne by done. by apply Hqs. }
  split; simpl; try done.
  - by apply Hlive.
  - apply Forall_fmap. eapply Forall_impl; [exact H2|]. intros l Hl. simpl. by apply Hlive.
  - by apply map_Forall_delete.
  - intros q Hq. rewrite lookup_delete. case_decide; [done|by apply H7].
Qed.

(** What freeing a channel leaves. *)
Definition released_channel (p : ptr) (c : channel) (s s' : session) : Prop :=
  conn_ok s' /\ s_chans s' = delete p (s_chans s) /\
  channels s' = filter (fun q => q <> p) (channels s) /\
  packets s' = filter (fun k => chan_packet (cd_id (local c)) (s_heap s) k = false) (packets s) /\
  listeners s' = (fun l => l <| queue ::= filter (fun q => q <> p) |>) <$> listeners s /\
  (forall F, live_exactly F s -> live_exactly F s') /\ roots s' = roots s.

Lemma channel_release_ok p c s :
  conn_ok s -> s_chans s !! p = Some c ->
  wp (channel_release p) (fun rc s' => rc = 0 /\ released_channel p c s s') s.
Proof.
  intros Hok Hc. unfold channel_release. wp_step. eapply wp_set_chan; [exact Hc|]. wp_step.
  eapply wp_chan; [apply lookup_insert_eq|]. wp_step.
  match goal with |- wp _ _ ?s1 => assert (Hok1 : conn_ok s1) end.
  { eapply quiet_ok; [|exact Hok]. eapply quiet_set_chan; [exact Hc|]. solve_chan_ok. }
  eapply wp_mono; [by apply clear_channel_packets_ok|]. intros [] s1 [C1 C2 C3 C4 C5 C6 C7 C8].
  unfold list_remove_channel. do 3 wp_step.
  eapply wp_free_channel; [simpl; rewrite C4; apply lookup_insert_eq|]. wp_step.
  split; [done|]. split_and!; simpl.
  - by apply (unlinked_ok s1 p).
  - rewrite C4. simpl. apply delete_insert_eq.
  - by rewrite C5.
  - by rewrite C2.
  - by rewrite C6.
  - intros F HF. by apply C7.
  - done.
Qed.

Section Free.
Context (transport_send : list Z -> list Z -> CM Z) (transport_read : CM Z) (fuel : nat).

Lemma channel_free_ok p c s :
  conn_ok s -> s_chans s !! p = Some c ->
  cd_close (local c) = true \/ socket_state s <> LIBSSH2_SOCKET_CONNECTED ->
  wp (channel_free transport_send transport_read fuel p) (fun rc s' => rc = 0 /\ released_channel p c s s') s.
Proof.
  intros Hok Hc Hcl. unfold channel_free. wp_step. eapply wp_set_chan; [exact Hc|].
  match goal with |- context [<[p := ?c']>] => set (c1 := c') end.
  assert (Hl : local c1 = local c) by (unfold c1; by destruct (nb_is _ _)).
  wp_step. eapply wp_chan; [apply lookup_insert_eq|]. do 3 wp_step. rewrite Hl. simpl.
  replace (negb (cd_close (local c)) && (socket_state s =? LIBSSH2_SOCKET_CONNECTED)) with false
    by (destruct Hcl as [->|Hne]; [done|]; by rewrite (proj2 (Z.eqb_neq _ _) Hne), andb_false_r).
  wp_step. simpl. eapply wp_mono; [apply (channel_release_ok p c1)|].
  - eapply quiet_ok; [|exact Hok]. eapply quiet_set_chan; [exact Hc|]. unfold c1.
    destruct (nb_is _ _); solve_chan_ok.
  - apply lookup_insert_eq.
  - intros rc s' [-> (? & Hch & ? & Hp & ? & ? & ?)]. split; [done|]. simpl in Hch.
    split_and!; try done; [|by rewrite <- Hl]. rewrite Hch. apply delete_insert_eq.
Qed.
End Free.

(** [_libssh2_channel_free] on a channel that is closed, or whose connection
    is gone, frees the channel and nothing else: it returns 0, the channel is no
    longer in the session's store, list or any listener's queue (the invariant
    holds), and the queue has lost exactly the packets addressed to the channel,
    whose payloads are freed, with the others in their order. *)
Theorem channel_free_releases transport_send transport_read fuel p c s :
  conn_ok s -> s_chans s !! p = Some c ->
  cd_close (local c) = true \/ socket_state s <> LIBSSH2_SOCKET_CONNECTED ->
  exists s', channel_free transport_send transport_read fuel p s = Ret 0 s' /\
    conn_ok s' /\ s_chans s' = delete p (s_chans s) /\
    channels s' = filter (fun q => q <> p) (channels s) /\
    packets s' = filter (fun k => chan_packet (cd_id (local c)) (s_heap s) k = false) (packets s).
Proof.
  intros Hok Hc Hcl.
  destruct (wp_Ret _ _ _ (channel_free_ok transport_send transport_read fuel p c s Hok Hc Hcl))
    as (rc & s' & E & -> & ? & ? & ? & ? & _). by exists s'.
Qed.

(** A session whose connection is gone. *)
Definition lost_session : session :=
  reading_session <| socket_state := LIBSSH2_SOCKET_DISCONNECTED |>.

Lemma channel_free_releases_witness :
  exists s', channel_free send_ok (ret 0) 1 1%positive lost_session = Ret 0 s' /\
    channels s' = [] /\ packets s' = [mk_packet 3%positive 10 9].
Proof.
  destruct (channel_free_releases send_ok (ret 0) 1 1%positive (sample_channel <| read_avail := 3 |>)
    lost_session) as (s' & E & _ & _ & Hc & Hp).
  - eapply same_conn_ok; [|apply reading_conn_ok]. by split.
  - reflexivity.
  - right. discriminate.
  - exists s'. split; [exact E|]. rewrite Hc, Hp. split; reflexivity.
Defined.

(** ** Closing *)

Section Close.
Context (transport_send : list Z -> list Z -> CM Z) (transport_read : CM Z).

Lemma set_chan_inv p f s a s' :
  set_chan p f s = Ret a s' -> exists c, s_chans s !! p = Some c /\ s_chans s' !! p = Some (f c).
Proof.
  unfold set_chan, chan, bind, gets, access, ret, modify, fault.
  destruct (s_chans s !! p) as [c|]; [|done]. intros [= _ <-]. exists c. split; [done|].
  apply lookup_insert_eq.
Qed.

(** The end of a close: the channel is marked, unless the call is suspended. *)
Lemma close_finish_marks fuel p rc s r s' :
  close_finish transport_read fuel p rc s = Ret r s' -> r <> LIBSSH2_ERROR_EAGAIN ->
  exists c', s_chans s' !! p = Some c' /\ cd_close (local c') = true /\
    close_state c' = libssh2_NB_state_idle.
Proof.
  unfold close_finish. intros H Hr. apply bind_Ret_inv in H as (c & s1 & _ & H).
  apply bind_Ret_inv in H as (rc1 & s2 & _ & H). apply bind_Ret_inv in H as (u & s3 & H3 & H).
  injection H as <- <-. destruct (Z.eqb_spec rc1 LIBSSH2_ERROR_EAGAIN) as [->|Hne]; [done|].
  cbn [negb] in H3. apply bind_Ret_inv in H3 as (u1 & s4 & H4 & H3).
  apply set_chan_inv in H4 as (c4 & _ & H4).
  apply bind_Ret_inv in H3 as (c5 & s5 & H5 & H3).
  unfold chan, bind, gets, access, ret in H5. rewrite H4 in H5. injection H5 as <- <-.
  apply bind_Ret_inv in H3 as (u2 & s6 & H6 & H3).
  assert (E6 : s_chans s6 = s_chans s4) by (by destruct (close_cb _); injection H6 as _ <-).
  apply set_chan_inv in H3 as (c6 & Hc6 & Hc'). rewrite E6, H4 in Hc6. injection Hc6 as <-.
  eexists. split; [exact Hc'|]. done.
Qed.

Lemma close_send_marks fuel p rc s r s' :
  close_send transport_send transport_read fuel p rc s = Ret r s' -> r <> LIBSSH2_ERROR_EAGAIN ->
  exists c', s_chans s' !! p = Some c' /\ cd_close (local c') = true /\
    close_state c' = libssh2_NB_state_idle.
Proof.
  unfold close_send. intros H Hr. apply bind_Ret_inv in H as (c & s1 & _ & H).
  apply bind_Ret_inv in H as (u & s2 & _ & H). apply bind_Ret_inv in H as (c2 & s3 & _ & H).
  destruct (nb_is (close_state c2) libssh2_NB_state_created); [|by eapply close_finish_marks].
  apply bind_Ret_inv in H as (rc1 & s4 & _ & H).
  destruct (Z.eqb_spec rc1 LIBSSH2_ERROR_EAGAIN) as [->|Hne].
  - apply bind_Ret_inv in H as (e & s5 & _ & H). injection H as <- _. done.
  - destruct (negb (rc1 =? 0)); apply bind_Ret_inv in H as (e & s5 & _ & H);
      by eapply close_finish_marks.
Qed.
End Close.

(** a close is final. Whatever the transport answers and the peer sends,
    [_libssh2_channel_close], unless it asks to be called again, leaves the
    channel marked as closed and its close state idle, and every later call on a
    closed channel returns 0 without handing the transport anything. *)
Theorem channel_close_final transport_send transport_read fuel p s r s' :
  channel_close transport_send transport_read fuel p s = Ret r s' -> r <> LIBSSH2_ERROR_EAGAIN ->
  exists c', s_chans s' !! p = Some c' /\ cd_close (local c') = true /\
    close_state c' = libssh2_NB_state_idle /\
    forall send' read' fuel',
      channel_close send' read' fuel' p s' = Ret 0 (s' <| s_chans ::= <[p := c']> |>).
Proof.
  intros H Hr.
  assert (Hm : exists c', s_chans s' !! p = Some c' /\ cd_close (local c') = true /\
    close_state c' = libssh2_NB_state_idle).
  { unfold channel_close in H. apply bind_Ret_inv in H as (c & s1 & Hc & H).
    unfold chan, bind, gets, access, ret, fault in Hc.
    destruct (s_chans s !! p) as [c0|] eqn:E; [|done]. injection Hc as <- <-.
    destruct (cd_close (local c0)) eqn:Ecl.
    - apply bind_Ret_inv in H as (u & s2 & H2 & H). injection H as _ <-.
      apply set_chan_inv in H2 as (c2 & Hc2 & H2). rewrite E in Hc2. injection Hc2 as <-.
      eexists. split; [exact H2|]. done.
    - destruct (negb (cd_eof (local c0))); [|by eapply close_send_marks].
      apply bind_Ret_inv in H as (rc & s2 & _ & H).
      destruct (Z.eqb_spec rc LIBSSH2_ERROR_EAGAIN) as [->|]; [by injection H as <- _|].
      apply bind_Ret_inv in H as (e & s3 & _ & H). by eapply close_send_marks. }
  destruct Hm as (c' & Hc' & Hcl & Hst). exists c'. split_and!; try done. intros send' read' fuel'.
  unfold channel_close, bind, chan, bind, gets, access, ret. rewrite Hc', Hcl.
  unfold set_chan, bind, chan, bind, gets, access, ret, modify. rewrite Hc'.
  replace (c' <| close_state := libssh2_NB_state_idle |>) with c' by (rewrite <- Hst; by destruct c').
  done.
Qed.

(** The peer answers the close with some other packet (a request's reply). *)
Definition read_success : CM Z := ret SSH_MSG_CHANNEL_SUCCESS.

Lemma channel_close_final_witness :
  exists c', s_chans (sample_session (sample_channel <| local ::= fun l => l <| cd_eof := true |>
                                                                           <| cd_close := true |> |>
       <| close_packet := SSH_MSG_CHANNEL_CLOSE :: htonu32 7 |>) []) !! 1%positive = Some c' /\
    cd_close (local c') = true.
Proof.
  destruct (channel_close_final send_ok read_success 2 1%positive (sample_session sample_channel []) 0
    (sample_session (sample_channel <| local ::= fun l => l <| cd_eof := true |> <| cd_close := true |> |>
       <| close_packet := SSH_MSG_CHANNEL_CLOSE :: htonu32 7 |>) [])) as (c' & H1 & H2 & _).
  - vm_compute. reflexivity.
  - discriminate.
  - exists c'. split; [exact H1|exact H2].
Defined.

(** a close does not wait for the peer's close. The loop that waits for the
    remote [SSH_MSG_CHANNEL_CLOSE] ends with the first packet of any type: here
    the peer's only packet is the reply to a request, and the close is complete
    with the remote side still open. *)
Theorem channel_close_returns_early :
  exists s', channel_close send_ok read_success 2 1%positive (sample_session sample_channel []) = Ret 0 s' /\
    (fun c => (cd_close (local c), cd_close (remote c))) <$> s_chans s' !! 1%positive = Some (true, false).
Proof. eexists. split; [vm_compute; reflexivity|reflexivity]. Qed.
