(* ===== verification/Transport.v ===== *)
(** * The binary packet protocol (transport.c)

    Framing, encryption and authentication of packets, in both directions. The
    ciphers, MACs and the random generator are the crypto backend's, the
    compression is zlib's, and these are arguments here; so is the key exchange.
    The socket is the oracle [s_recv]/[s_send] of the session. Assertions are
    enabled: a failing [assert] is a fault. *)

From stdpp Require Import base numbers list gmap strings.
From S2P Require Import Prelude Codes Wire Session ChannelWindow Packet PacketAdd Comp.

(** The platform's [EAGAIN]. *)
Definition EAGAIN : Z := 11.

Definition set_packet (f : transportpacket -> transportpacket) : CM unit :=
  modify (fun s => s <| s_packet ::= f |>).

Definition block_inbound : CM unit :=
  modify (fun s => s <| socket_block_directions ::= fun d => Z.lor d LIBSSH2_SESSION_BLOCK_INBOUND |>).
Definition block_outbound : CM unit :=
  modify (fun s => s <| socket_block_directions ::= fun d => Z.lor d LIBSSH2_SESSION_BLOCK_OUTBOUND |>).

Definition state_has (s : session) (bit : Z) : bool := negb (Z.land (s_state s) bit =? 0).

(** ** The socket *)

(** [LIBSSH2_RECV] into a buffer of [n] bytes. *)
Definition socket_recv (n : Z) : CM (Z + list Z) := fun s =>
  match s_recv s with
  | [] => Ret (inl (- EAGAIN)) s
  | RecvFail rc :: rest => Ret (inl rc) (s <| s_recv := rest |>)
  | RecvBytes bs :: rest =>
      if lenZ bs <=? n then Ret (inr bs) (s <| s_recv := rest |>)
      else Ret (inr (take (Z.to_nat n) bs))
               (s <| s_recv := RecvBytes (drop (Z.to_nat n) bs) :: rest |>)
  end.

(** [LIBSSH2_SEND]: a negative value, or the number of bytes accepted. *)
Definition socket_send (bytes : list Z) : CM Z := fun s =>
  match s_send s with
  | [] => Ret (lenZ bytes) (s <| s_wire ::= fun w => w ++ bytes |>)
  | r :: rest =>
      if r <? 0 then Ret r (s <| s_send := rest |>)
      else Ret (Z.min r (lenZ bytes))
               (s <| s_send := rest |> <| s_wire ::= fun w => w ++ take (Z.to_nat r) bytes |>)
  end.

Section Transport.
(** The ciphers: from the running state and one block to the new block and
    state, or failure. The MACs: from the sequence number and the packet. *)
Context (remote_crypt local_crypt : list Z -> list Z -> option (list Z * list Z)).
Context (remote_mac local_mac : Z -> list Z -> list Z).
(** zlib. *)
Context (deflate : list Z -> list Z -> Z -> Z * list Z * list Z).
Context (inflate : list Z -> list Z -> Z -> inflated).
(** [_libssh2_random]: any bytes, or failure. *)
Context (random : session -> Z -> option (list Z)).
Context (kex_exchange : CM Z).

(** [_libssh2_kex_exchange] when a key exchange is pending and not running. *)
Definition redirect_kex : CM Z :=
  let! ex := gets (fun s => state_has s LIBSSH2_STATE_EXCHANGING_KEYS
                            && negb (state_has s LIBSSH2_STATE_KEX_ACTIVE)) in
  if (ex : bool) then kex_exchange else ret 0.

Definition compressing (s : session) : bool :=
  match ep_comp (s_local s) with
  | None => false
  | Some (compress, use_in_auth) =>
      compress && (state_has s LIBSSH2_STATE_AUTHENTICATED || use_in_auth)
  end.

(** ** Receiving *)

(** The blocks of [decrypt], up to a failing one: the blocks deciphered, and
    whether these are all. *)
Fixpoint decrypt_loop (n : nat) (blocksize : Z) (source : list Z) : CM (list Z * bool) :=
  match n with
  | O => ret ([], true)
  | S n =>
      let! st := gets (fun s => ep_crypt_abstract (s_remote s)) in
      match remote_crypt st (take (Z.to_nat blocksize) source) with
      | None => ret ([], false)
      | Some (b, st') =>
          modify (fun s => s <| s_remote ::= fun e => e <| ep_crypt_abstract := st' |> |>) ;;
          let! r := decrypt_loop n blocksize (drop (Z.to_nat blocksize) source) in
          ret (b ++ r.1, r.2)
      end
  end.

(** [decrypt] of the first [len] bytes [source] of the buffer; the length is
    asserted to be whole blocks. The blocks are deciphered in place, which shows
    when the call fails and the bytes stay in the buffer. *)
Definition decrypt (source : list Z) (len : Z) : CM (option (list Z)) :=
  let! blocksize := gets (fun s => ep_blocksize (s_remote s)) in
  if negb (len mod blocksize =? 0) then fault
  else
    let! r := decrypt_loop (Z.to_nat (len / blocksize)) blocksize source in
    if (r.2 : bool) then ret (Some r.1)
    else
      set_packet (fun p => p <| tp_buf ::= fun buf => r.1 ++ drop (length r.1) buf |>) ;;
      let! p := gets s_packet in
      match tp_payload p with Some b => free_block b | None => ret tt end ;;
      ret None.

(** Refilling the buffer; [Some rc] is an early return. *)
Definition read_fill (blocksize : Z) : CM (option Z) :=
  let! p := gets s_packet in
  if lenZ (tp_buf p) <? blocksize then
    let! r := socket_recv (PACKETBUFSIZE - lenZ (tp_buf p)) in
    match r with
    | inr bytes =>
        if 0 <? lenZ bytes then
          set_packet (fun p => p <| tp_buf ::= fun b => b ++ bytes |>) ;; ret None
        else ret (Some LIBSSH2_ERROR_SOCKET_RECV)
    | inl rc =>
        if rc =? - EAGAIN then block_inbound ;; ret (Some LIBSSH2_ERROR_EAGAIN)
        else ret (Some LIBSSH2_ERROR_SOCKET_RECV)
    end
  else ret None.

(** Allocating the payload for a packet whose first block is [b]. *)
Definition read_alloc (encrypted : bool) (blocksize : Z) (b : list Z) : CM (option Z) :=
  let! p := gets s_packet in
  let! e := gets s_remote in
  let total_num := tp_packet_length p - 1 + (if encrypted then ep_mac_len e else 0) in
  if (LIBSSH2_PACKET_MAXPAYLOAD <? total_num) || (total_num =? 0) then
    ret (Some LIBSSH2_ERROR_OUT_OF_BOUNDARY)
  else
    let! r := alloc_block (replicate (Z.to_nat total_num) 0) in
    match r with
    | None => set_packet (fun p => p <| tp_payload := None |>) ;; ret (Some LIBSSH2_ERROR_ALLOC)
    | Some payload =>
        set_packet (fun p => p <| tp_payload := Some payload |> <| tp_total_num := total_num |>) ;;
        if 5 <? blocksize then
          if blocksize - 5 <=? total_num then
            write_block payload 0 (drop 5 b) ;;
            set_packet (fun p => p <| tp_data_num := blocksize - 5 |>) ;;
            ret None
          else free_block payload ;; ret (Some LIBSSH2_ERROR_OUT_OF_BOUNDARY)
        else set_packet (fun p => p <| tp_data_num := 0 |>) ;; ret None
    end.

(** The length fields of a decrypted first block [b]. *)
Definition read_lengths (encrypted : bool) (blocksize : Z) (b : list Z) : CM (option Z) :=
  set_packet (fun p => p <| tp_buf ::= drop (Z.to_nat blocksize) |>) ;;
  let! len := access (ntohu32 b 0) in
  set_packet (fun p => p <| tp_packet_length := len |>) ;;
  if len <? 1 then ret (Some LIBSSH2_ERROR_DECRYPT)
  else if LIBSSH2_PACKET_MAXPAYLOAD <? len then ret (Some LIBSSH2_ERROR_OUT_OF_BOUNDARY)
  else
    let! pad := access (byte_at b 4) in
    set_packet (fun p => p <| tp_padding_length := pad |>) ;;
    if len - 1 <? pad then ret (Some LIBSSH2_ERROR_DECRYPT)
    else read_alloc encrypted blocksize b.

(** The start of a packet: its first block. *)
Definition read_start (encrypted : bool) (blocksize : Z) : CM (option Z) :=
  let! p := gets s_packet in
  if lenZ (tp_buf p) <? blocksize then block_inbound ;; ret (Some LIBSSH2_ERROR_EAGAIN)
  else
    let! source := access (bytes_at (tp_buf p) 0 blocksize) in
    if encrypted then
      let! r := decrypt source blocksize in
      match r with
      | None => ret (Some LIBSSH2_ERROR_DECRYPT)
      | Some b =>
          set_packet (fun p => p <| tp_init := take 5 b |>) ;;
          read_lengths encrypted blocksize b
      end
    else read_lengths encrypted blocksize source.

(** How much of [numbytes] to decrypt, and how much to take in this round. *)
Definition read_split (encrypted : bool) (blocksize mac_len : Z) (p : transportpacket) (numbytes : Z) :
    Z * Z :=
  if encrypted then
    if tp_total_num p - mac_len <? tp_data_num p + numbytes
    then (tp_total_num p - mac_len - tp_data_num p, numbytes)
    else
      let frac := numbytes mod blocksize in
      if negb (frac =? 0) then (numbytes - frac, 0) else (numbytes, numbytes)
  else (0, numbytes).

(** Moving [n] bytes from the buffer, as [bytes], to the payload. *)
Definition read_append (n : Z) (bytes : list Z) : CM unit :=
  let! p := gets s_packet in
  let! payload := access (tp_payload p) in
  write_block payload (tp_data_num p) bytes ;;
  set_packet (fun p => p <| tp_buf ::= drop (Z.to_nat n) |> <| tp_data_num ::= Z.add n |>).

(** Decrypting [numdecrypt] bytes of the buffer to the payload. *)
Definition read_decrypt (numdecrypt : Z) : CM (option Z) :=
  let! p := gets s_packet in
  let! source := access (bytes_at (tp_buf p) 0 numdecrypt) in
  let! r := decrypt source numdecrypt in
  match r with
  | None => set_packet (fun p => p <| tp_total_num := 0 |>) ;; ret (Some LIBSSH2_ERROR_DECRYPT)
  | Some bytes => read_append numdecrypt bytes ;; ret None
  end.

(** Copying [numbytes] bytes that are not encrypted. *)
Definition read_copy (numbytes : Z) : CM (option Z) :=
  let! p := gets s_packet in
  if numbytes <=? tp_total_num p - tp_data_num p then
    let! bytes := access (bytes_at (tp_buf p) 0 numbytes) in
    read_append numbytes bytes ;; ret None
  else
    match tp_payload p with Some b => free_block b | None => ret tt end ;;
    ret (Some LIBSSH2_ERROR_OUT_OF_BOUNDARY).

(** One round for the body of a packet. *)
Definition read_body (encrypted : bool) (blocksize : Z) : CM (option Z) :=
  let! p := gets s_packet in
  let! e := gets s_remote in
  let numbytes := Z.min (lenZ (tp_buf p)) (tp_total_num p - tp_data_num p) in
  let '(numdecrypt, numbytes) := read_split encrypted blocksize (ep_mac_len e) p numbytes in
  let! early := (if 0 <? numdecrypt then read_decrypt numdecrypt else ret None) in
  match early with
  | Some rc => ret (Some rc)
  | None =>
      let numbytes := if 0 <? numdecrypt then numbytes - numdecrypt else numbytes in
      if 0 <? numbytes then read_copy numbytes else ret None
  end.

(** How the collecting loop ends: with a return value, or with a full packet. *)
Inductive assembled :=
| AReturn (rc : Z)
| AFull (encrypted : bool).

(** The [do { ... } while(1)] loop up to [libssh2_transport_read_point1]. *)
Fixpoint assemble (fuel : nat) : CM assembled :=
  match fuel with
  | O => fun _ => OutOfFuel
  | S fuel =>
      let! st := gets socket_state in
      if st =? LIBSSH2_SOCKET_DISCONNECTED then ret (AReturn LIBSSH2_ERROR_SOCKET_DISCONNECT)
      else
        let! encrypted := gets (fun s => state_has s LIBSSH2_STATE_NEWKEYS) in
        let! e := gets s_remote in
        let blocksize := if (encrypted : bool) then ep_blocksize e else 5 in
        let! early := read_fill blocksize in
        match early with
        | Some rc => ret (AReturn rc)
        | None =>
            let! p := gets s_packet in
            let! early := (if tp_total_num p =? 0 then read_start encrypted blocksize else ret None) in
            match early with
            | Some rc => ret (AReturn rc)
            | None =>
                let! early := read_body encrypted blocksize in
                match early with
                | Some rc => ret (AReturn rc)
                | None =>
                    let! p := gets s_packet in
                    if tp_total_num p - tp_data_num p =? 0 then ret (AFull encrypted)
                    else assemble fuel
                end
            end
        end
  end.

(** The MAC of the packet whose payload block is [d]. *)
Definition check_mac (encrypted : bool) (d : list Z) (payload_len : Z) : CM Z :=
  if encrypted then
    let! p := gets s_packet in
    let! e := gets s_remote in
    let! body := access (bytes_at d 0 payload_len) in
    let! mac := access (bytes_at d payload_len (ep_mac_len e)) in
    ret (if bool_decide (take (Z.to_nat (ep_mac_len e)) (remote_mac (ep_seqno e) (tp_init p ++ body)) = mac)
         then LIBSSH2_MAC_CONFIRMED else LIBSSH2_MAC_INVALID)
  else ret LIBSSH2_MAC_CONFIRMED.

(** The idle part of [fullpacket]; [Some rc] is an early return. *)
Definition fullpacket_start (encrypted : bool) : CM (option Z) :=
  let! p := gets s_packet in
  let! e := gets s_remote in
  let! payload := access (tp_payload p) in
  let! d := block payload in
  let payload_len := tp_packet_length p - 1 in
  let! macstate := check_mac encrypted d payload_len in
  modify (fun s => s <| fullpacket_macstate := macstate |>
                     <| s_remote ::= fun e => e <| ep_seqno := u32 (ep_seqno e + 1) |> |>
                     <| fullpacket_payload_len := payload_len - tp_padding_length p |>) ;;
  let! compressed := gets compressing in
  let! early :=
    (match (compressed : bool), ep_comp_abstract e with
     | true, Some st =>
         let! n := gets fullpacket_payload_len in
         let! data := access (bytes_at d 0 n) in
         let! r := comp_method_zlib_decomp inflate decomp_rounds LIBSSH2_PACKET_MAXDECOMP st data in
         let '(r, st) := r in
         modify (fun s => s <| s_remote ::= fun e => e <| ep_comp_abstract := Some st |> |>) ;;
         free_block payload ;;
         match r with
         | inl rc => ret (Some rc)
         | inr (data, data_len) =>
             set_packet (fun p => p <| tp_payload := Some data |>) ;;
             modify (fun s => s <| fullpacket_payload_len := data_len |>) ;;
             ret None
         end
     | _, _ => ret None
     end) in
  match early with
  | Some rc => ret (Some rc)
  | None =>
      let! p := gets s_packet in
      let! payload := access (tp_payload p) in
      let! d := block payload in
      let! ty := access (byte_at d 0) in
      modify (fun s => s <| fullpacket_packet_type := ty |>
                         <| fullpacket_state := libssh2_NB_state_created |>) ;;
      ret None
  end.

(** ** Sending *)

(** [send_existing]: the return value and [*ret]. [addr] is the address of the
    data. *)
Definition send_existing (addr data_len : Z) : CM (Z * bool) :=
  let! p := gets s_packet in
  if tp_olen p =? 0 then ret (0, false)
  else if negb (bool_decide (tp_odata p = Some addr)) || negb (data_len =? tp_olen p)
  then ret (LIBSSH2_ERROR_BAD_USE, false)
  else
    let length := tp_ototal_num p - tp_osent p in
    let! bytes := access (bytes_at (tp_outbuf p) (tp_osent p) length) in
    let! rc := socket_send bytes in
    if rc =? length then
      set_packet (fun p => p <| tp_ototal_num := 0 |> <| tp_olen := 0 |>) ;; ret (0, true)
    else if rc <? 0 then
      if negb (rc =? - EAGAIN) then ret (LIBSSH2_ERROR_SOCKET_SEND, true)
      else block_outbound ;; ret (LIBSSH2_ERROR_EAGAIN, true)
    else
      set_packet (fun p => p <| tp_osent ::= Z.add rc |>) ;;
      ret (if rc <? length then LIBSSH2_ERROR_EAGAIN else 0, true).

(** [session->local.comp->comp], which moves the stream. *)
Definition compress_part (st data : list Z) (dest_len : Z) : CM ((Z + list Z) * list Z) :=
  let! r := comp_method_zlib_comp deflate st data dest_len in
  modify (fun s => s <| s_local ::= fun e => e <| ep_comp_abstract := Some r.2 |> |>) ;;
  ret r.

(** The payload, compressed when compression is on; [inl] is an error. *)
Definition send_payload (encrypted : bool) (data data2 : list Z) : CM (Z + list Z) :=
  let! compressed := gets compressing in
  let! e := gets s_local in
  match encrypted && compressed, ep_comp_abstract e with
  | true, Some st =>
      let dest_len := MAX_SSH_PACKET_LEN - 5 - 256 in
      let! r := compress_part st data dest_len in
      match r with
      | (inl rc, _) => ret (inl rc)
      | (inr c1, st) =>
          if 0 <? lenZ data2 then
            let! r := compress_part st data2 (dest_len - lenZ c1) in
            match r with
            | (inl rc, _) => ret (inl rc)
            | (inr c2, _) => ret (inr (c1 ++ c2))
            end
          else ret (inr c1)
      end
  | _, _ =>
      if MAX_SSH_PACKET_LEN - 256 <=? lenZ data + lenZ data2 then ret (inl LIBSSH2_ERROR_INVAL)
      else ret (inr (data ++ data2))
  end.

(** The padding that follows [data_len] bytes of payload. *)
Definition padding_for (blocksize data_len : Z) : Z :=
  let packet_length := data_len + 1 + 4 in
  let padding_length := blocksize - packet_length mod blocksize in
  if padding_length <? 4 then padding_length + blocksize else padding_length.

(** Encrypting [n] blocks of the packet. *)
Fixpoint encrypt_loop (n : nat) (blocksize : Z) (source : list Z) : CM (option (list Z)) :=
  match n with
  | O => ret (Some [])
  | S n =>
      let! st := gets (fun s => ep_crypt_abstract (s_local s)) in
      match local_crypt st (take (Z.to_nat blocksize) source) with
      | None => ret None
      | Some (b, st') =>
          modify (fun s => s <| s_local ::= fun e => e <| ep_crypt_abstract := st' |> |>) ;;
          let! r := encrypt_loop n blocksize (drop (Z.to_nat blocksize) source) in
          ret (app b <$> r)
      end
  end.

(** The length, padding length, payload and padding of a packet. *)
Definition plain_packet (payload padding : list Z) : list Z :=
  htonu32 (lenZ payload + 1 + 4 + lenZ padding - 4) ++ [u8 (lenZ padding)] ++ payload ++ padding.

(** [outbuf] once the packet is built, and [total_length]. The bytes behind the
    packet are those of earlier packets, and 0 in a fresh session. The blocks
    are encrypted in place, so the last one may reach behind the plain packet;
    the padding was computed for [blocksize], and the encryption takes the
    block size of the cipher in use now. *)
Definition build_packet (encrypted : bool) (payload padding : list Z) : CM (option (list Z * Z)) :=
  let plain := plain_packet payload padding in
  let! old := gets (fun s => tp_outbuf (s_packet s)) in
  if encrypted then
    let! e := gets s_local in
    let blocksize := ep_blocksize e in
    let packet := plain ++ take (Z.to_nat (ep_mac_len e)) (local_mac (ep_seqno e) plain) in
    let outbuf := packet ++ drop (length packet) old in
    let n := Z.to_nat ((lenZ plain + blocksize - 1) / blocksize) in
    let size := (n * Z.to_nat blocksize)%nat in
    let! r := encrypt_loop n blocksize (resize size 0 outbuf) in
    ret ((fun c => (c ++ drop size outbuf, lenZ packet)) <$> r)
  else ret (Some (plain ++ drop (length plain) old, lenZ plain)).

(** Handing the finished packet, which is in [outbuf], to the socket. A packet
    larger than [outbuf] would have been written past its end. *)
Definition send_packet (addr data_len : Z) (outbuf : list Z) (total_length : Z) : CM Z :=
  (if MAX_SSH_PACKET_LEN <? lenZ outbuf then fault else ret tt) ;;
  set_packet (fun p => p <| tp_outbuf := outbuf |>) ;;
  modify (fun s => s <| s_local ::= fun e => e <| ep_seqno := u32 (ep_seqno e + 1) |> |>) ;;
  let! bytes := access (bytes_at outbuf 0 total_length) in
  let! rc := socket_send bytes in
  if negb (rc =? total_length) then
    if (0 <=? rc) || (rc =? - EAGAIN) then
      block_outbound ;;
      set_packet (fun p => p <| tp_odata := Some addr |> <| tp_olen := data_len |>
                             <| tp_osent := if rc <=? 0 then 0 else rc |>
                             <| tp_ototal_num := total_length |>) ;;
      ret LIBSSH2_ERROR_EAGAIN
    else ret LIBSSH2_ERROR_SOCKET_SEND
  else
    set_packet (fun p => p <| tp_odata := None |> <| tp_olen := 0 |>) ;;
    ret 0.

(** [_libssh2_transport_send] from the point where no earlier packet is left,
    with the block size determined at its start. *)
Definition send_new (blocksize addr : Z) (data data2 : list Z) : CM Z :=
  let! encrypted := gets (fun s => state_has s LIBSSH2_STATE_NEWKEYS) in
  let! pl := send_payload encrypted data data2 in
  match pl with
  | inl rc => ret rc
  | inr payload =>
      let! pad := gets (fun s => random s (padding_for blocksize (lenZ payload))) in
      match pad with
      | None => error LIBSSH2_ERROR_RANDGEN "Unable to get random bytes for packet padding"
      | Some padding =>
          let! r := build_packet encrypted payload padding in
          match r with
          | None => ret LIBSSH2_ERROR_ENCRYPT
          | Some (outbuf, total_length) => send_packet addr (lenZ data) outbuf total_length
          end
      end
  end.

(** [_libssh2_transport_send] of the data at address [addr]. *)
Definition transport_send (addr : Z) (data data2 : list Z) : CM Z :=
  let! blocksize := gets (fun s => if state_has s LIBSSH2_STATE_NEWKEYS
                                   then ep_blocksize (s_local s) else 8) in
  let! rc := redirect_kex in
  if negb (rc =? 0) then ret rc
  else
    let! r := send_existing addr (lenZ data) in
    let '(rc, sent) := r in
    if negb (rc =? 0) then ret rc
    else
      modify (fun s => s <| socket_block_directions ::= fun d =>
        Z.land d (Z.lnot LIBSSH2_SESSION_BLOCK_OUTBOUND) |>) ;;
      if (sent : bool) then ret rc
      else send_new blocksize addr data data2.

(** ** Delivering a packet *)

(** The address of the data a caller hands to [_libssh2_transport_send]. *)
Context (addr_of : list Z -> list Z -> Z).

Definition send_at (data data2 : list Z) : CM Z := transport_send (addr_of data data2) data data2.

(** [fullpacket]. *)
Definition fullpacket (encrypted : bool) : CM Z :=
  let! st := gets fullpacket_state in
  let! early := (if nb_is st libssh2_NB_state_idle then fullpacket_start encrypted else ret None) in
  match early with
  | Some rc => ret rc
  | None =>
      let finish := modify (fun s => s <| fullpacket_state := libssh2_NB_state_idle |>) ;;
                    gets fullpacket_packet_type in
      let! st := gets fullpacket_state in
      if nb_is st libssh2_NB_state_created then
        let! p := gets s_packet in
        let! payload := access (tp_payload p) in
        let! n := gets fullpacket_payload_len in
        let! macstate := gets fullpacket_macstate in
        let! rc := packet_add send_at kex_exchange payload n macstate in
        if rc =? LIBSSH2_ERROR_EAGAIN then ret rc
        else if negb (rc =? 0) then
          modify (fun s => s <| fullpacket_state := libssh2_NB_state_idle |>) ;; ret rc
        else finish
      else finish
  end.

(** The code at [libssh2_transport_read_point1]. *)
Definition read_point1 (encrypted : bool) : CM Z :=
  let! rc := fullpacket encrypted in
  if rc =? LIBSSH2_ERROR_EAGAIN then
    let! st := gets packAdd_state in
    (if negb (nb_is st libssh2_NB_state_idle) then
       modify (fun s => s <| readPack_encrypted := encrypted |> <| readPack_state := libssh2_NB_state_jump1 |>)
     else ret tt) ;;
    ret rc
  else set_packet (fun p => p <| tp_total_num := 0 |>) ;; ret rc.

(** [_libssh2_transport_read]. *)
Definition transport_read (fuel : nat) : CM Z :=
  modify (fun s => s <| socket_block_directions ::= fun d =>
    Z.land d (Z.lnot LIBSSH2_SESSION_BLOCK_INBOUND) |>) ;;
  let! rc := redirect_kex in
  if negb (rc =? 0) then ret rc
  else
    let! st := gets readPack_state in
    if nb_is st libssh2_NB_state_jump1 then
      modify (fun s => s <| readPack_state := libssh2_NB_state_idle |>) ;;
      let! encrypted := gets readPack_encrypted in
      read_point1 encrypted
    else
      let! r := assemble fuel in
      match r with
      | AReturn rc => ret rc
      | AFull encrypted => read_point1 encrypted
      end.
End Transport.
