(* ===== verification/TransportSpec.v ===== *)
(** * What the transport layer sends

    [_libssh2_transport_send] discharges the interface the connection layer
    relies on; the packets it builds have the shape RFC 4253 asks for and fit
    the output buffer; a packet the socket takes in pieces is sent once, whole
    and in order. *)

From stdpp Require Import base numbers list gmap strings.
From S2P Require Import Prelude Codes Wire Session ChannelWindow Packet PacketAdd Conn Comp PacketSafety PacketSpec Transport.

(** ** What the crypto backend promises *)

Class SendSuite (local_crypt : list Z -> list Z -> option (list Z * list Z))
    (random : session -> Z -> option (list Z)) : Prop := {
  local_crypt_len : forall st b b' st', local_crypt st b = Some (b', st') -> length b' = length b;
  random_len : forall s n bs, 0 <= n -> random s n = Some bs -> lenZ bs = n
}.

(** A cipher run over [n] blocks. *)
Fixpoint run_crypt (crypt : list Z -> list Z -> option (list Z * list Z)) (n : nat) (bs : Z)
    (st source : list Z) : option (list Z * list Z) :=
  match n with
  | O => Some ([], st)
  | S n =>
      '(b, st1) ← crypt st (take (Z.to_nat bs) source);
      '(c, st2) ← run_crypt crypt n bs st1 (drop (Z.to_nat bs) source);
      Some (b ++ c, st2)
  end.

Lemma run_crypt_len crypt n bs : forall st source c st',
  (forall st b b' st', crypt st b = Some (b', st') -> length b' = length b) ->
  0 <= bs -> lenZ source = Z.of_nat n * bs ->
  run_crypt crypt n bs st source = Some (c, st') -> lenZ c = lenZ source.
Proof.
  induction n as [|n IH]; intros st source c st' Hcl Hbs Hlen H; simpl in H.
  { injection H as <- <-. by rewrite Hlen. }
  destruct (crypt _ _) as [[b st1]|] eqn:E; [|done]. simpl in H.
  destruct (run_crypt _ _ _ _ _) as [[c' st2]|] eqn:E2; [|done]. simpl in H. injection H as <- <-.
  apply Hcl in E. apply IH in E2; [|done|done|unfold lenZ in *; rewrite length_drop; lia].
  rewrite lenZ_app, E2. unfold lenZ in *. rewrite E, length_take, length_drop. lia.
Qed.

(** Running over a prefix first. *)
Lemma run_crypt_split crypt bs b y : forall a st x c st2,
  0 <= bs -> lenZ x = Z.of_nat a * bs ->
  run_crypt crypt (a + b) bs st (x ++ y) = Some (c, st2) ->
  exists c1 c2 st1, run_crypt crypt a bs st x = Some (c1, st1) /\
    run_crypt crypt b bs st1 y = Some (c2, st2) /\ c = c1 ++ c2.
Proof.
  induction a as [|a IH]; intros st x c st2 Hbs Hx H.
  { destruct x; [|unfold lenZ in Hx; simpl in Hx; lia]. by exists [], c, st. }
  simpl in H |- *. rewrite take_app_le, drop_app_le in H by (unfold lenZ in Hx; lia).
  destruct (crypt _ _) as [[b1 st1]|] eqn:E; [|done]. simpl in H |- *.
  destruct (run_crypt _ (a + b) _ _ _) as [[c' st2']|] eqn:E2; [|done]. simpl in H. injection H as <- <-.
  apply IH in E2 as (c1 & c2 & st' & Hr1 & Hr2 & ->); [|done|unfold lenZ in *; rewrite length_drop; lia].
  exists (b1 ++ c1), c2, st'. by rewrite Hr1, <- app_assoc.
Qed.

(** Only the transport's own bookkeeping moved. *)
Record tr_kept (s s' : session) : Prop := {
  kept_conn : same_conn s s';
  kept_suspended : same_suspended s s';
  kept_state : s_state s' = s_state s;
  kept_blocksize : ep_blocksize (s_local s') = ep_blocksize (s_local s);
  kept_mac_len : ep_mac_len (s_local s') = ep_mac_len (s_local s);
  kept_comp : ep_comp (s_local s') = ep_comp (s_local s)
}.

#[global] Instance tr_kept_refl : Reflexive tr_kept.
Proof. intros s. by split. Qed.
#[global] Instance tr_kept_trans : Transitive tr_kept.
Proof. intros s1 s2 s3 [] []. split; [by etrans|by etrans|congruence..]. Qed.

(** ... and neither the packet being sent nor the socket. *)
Record tr_built (s s' : session) : Prop := {
  built_kept : tr_kept s s';
  built_packet : s_packet s' = s_packet s;
  built_seqno : ep_seqno (s_local s') = ep_seqno (s_local s);
  built_wire : s_wire s' = s_wire s
}.

#[global] Instance tr_built_refl : Reflexive tr_built.
Proof. intros s. by split. Qed.
#[global] Instance tr_built_trans : Transitive tr_built.
Proof. intros s1 s2 s3 [] []. split; [by etrans|congruence..]. Qed.

(** ... nor the cipher. *)
Record tr_loaded (s s' : session) : Prop := {
  loaded_built : tr_built s s';
  loaded_crypt : ep_crypt_abstract (s_local s') = ep_crypt_abstract (s_local s)
}.

#[global] Instance tr_loaded_refl : Reflexive tr_loaded.
Proof. intros s. by split. Qed.
#[global] Instance tr_loaded_trans : Transitive tr_loaded.
Proof. intros s1 s2 s3 [] []. split; [by etrans|congruence]. Qed.

Lemma mem_only_loaded s s' :
  mem_only s s' -> s_heap s' = s_heap s -> s_next_ptr s' = s_next_ptr s -> tr_loaded s s'.
Proof. intros H Hh Hn. rewrite H, Hh, Hn. by split. Qed.

Lemma lenZ_nonzero {A} (l : list A) : l <> [] -> lenZ l <> 0.
Proof. unfold lenZ. destruct l; simpl; [done|lia]. Qed.

(** ** Padding *)

(** The padding makes whole blocks, is at least 4 bytes, and fits its field. *)
Lemma padding_for_spec blocksize n :
  8 <= blocksize -> 0 <= n ->
  4 <= padding_for blocksize n < blocksize + 4 /\
  (n + 5 + padding_for blocksize n) mod blocksize = 0.
Proof.
  intros Hb Hn. unfold padding_for. replace (n + 1 + 4) with (n + 5) by lia. set (x := n + 5).
  pose proof (Z.mod_pos_bound x blocksize ltac:(lia)) as Hr.
  assert (Hm : (x + (blocksize - x mod blocksize)) mod blocksize = 0).
  { pose proof (Z.div_mod x blocksize ltac:(lia)) as Hd.
    replace (x + (blocksize - x mod blocksize)) with ((x / blocksize + 1) * blocksize) by lia.
    apply Z.mod_mul. lia. }
  destruct (Z.ltb_spec (blocksize - x mod blocksize) 4); (split; [lia|]); [|done].
  replace (x + (blocksize - x mod blocksize + blocksize))
    with (x + (blocksize - x mod blocksize) + 1 * blocksize) by lia.
  by rewrite Z.mod_add by lia.
Qed.

Lemma lenZ_plain payload padding : lenZ (plain_packet payload padding) = lenZ payload + 5 + lenZ padding.
Proof. unfold plain_packet. rewrite !lenZ_app, lenZ_htonu32. unfold lenZ at 1. simpl. lia. Qed.

Section Send.
Context (local_crypt : list Z -> list Z -> option (list Z * list Z)).
Context (local_mac : Z -> list Z -> list Z).
Context (deflate : list Z -> list Z -> Z -> Z * list Z * list Z).
Context (random : session -> Z -> option (list Z)) (kex_exchange : CM Z).
Context `{!SendSuite local_crypt random}.
Implicit Types s : session.

Lemma encrypt_loop_ok n bs : forall source s,
  wp (encrypt_loop local_crypt n bs source) (fun r s' => tr_built s s' /\
    forall c, r = Some c -> run_crypt local_crypt n bs (ep_crypt_abstract (s_local s)) source
      = Some (c, ep_crypt_abstract (s_local s'))) s.
Proof.
  induction n as [|n IH]; intros source s; cbn [encrypt_loop run_crypt].
  { wp_step. split; [done|]. by intros c [= <-]. }
  do 2 wp_step. destruct (local_crypt _ _) as [[b st']|] eqn:E; [|wp_step; by split].
  do 3 wp_step. eapply wp_mono; [apply IH|]. intros r s' [Hk Hr]. wp_step.
  split; [etrans; [|exact Hk]; by split|]. intros c Hc. destruct r as [c'|]; [|done].
  injection Hc as <-. specialize (Hr c' eq_refl). simpl in *. by rewrite Hr.
Qed.

(** The bytes of a packet on the wire, and the cipher's state behind them. *)
Definition framed (encrypted : bool) (e : libssh2_endpoint_data) (payload padding frame st' : list Z) : Prop :=
  let plain := plain_packet payload padding in
  if encrypted then exists c,
    run_crypt local_crypt (Z.to_nat (lenZ plain / ep_blocksize e)) (ep_blocksize e)
      (ep_crypt_abstract e) plain = Some (c, st') /\
    frame = c ++ take (Z.to_nat (ep_mac_len e)) (local_mac (ep_seqno e) plain)
  else frame = plain /\ st' = ep_crypt_abstract e.

(** What [build_packet] leaves in [outbuf]: [frame], within the buffer. *)
Definition built (s s' : session) (encrypted : bool) (payload padding : list Z) (r : option (list Z * Z)) : Prop :=
  forall outbuf total, r = Some (outbuf, total) ->
    lenZ outbuf <= MAX_SSH_PACKET_LEN /\ 0 <= total <= lenZ outbuf /\
    framed encrypted (s_local s) payload padding (slice 0 total outbuf)
      (ep_crypt_abstract (s_local s')).

Lemma slice_prefix (a b : list Z) : slice 0 (lenZ a) (a ++ b) = a.
Proof. unfold slice, lenZ. simpl. rewrite drop_0, Nat2Z.id. apply take_app_length. Qed.

Lemma build_packet_ok (encrypted : bool) payload padding s :
  let bs := if encrypted then ep_blocksize (s_local s) else 8 in
  8 <= bs <= MAX_BLOCKSIZE -> 0 <= ep_mac_len (s_local s) <= MAX_MACSIZE -> out_ok (s_packet s) ->
  lenZ payload <= MAX_SSH_PACKET_LEN - 256 -> lenZ padding = padding_for bs (lenZ payload) ->
  wp (build_packet local_crypt local_mac encrypted payload padding) (fun r s' => tr_built s s' /\
    built s s' encrypted payload padding r) s.
Proof.
  intros bs Hbs Hmac [Hold _] Hpl Hpad. pose proof (lenZ_nonneg payload) as Hp0.
  destruct (padding_for_spec bs (lenZ payload)) as [Hr Hm]; [lia..|]. rewrite <- Hpad in *.
  unfold MAX_SSH_PACKET_LEN, MAX_BLOCKSIZE, MAX_MACSIZE, built, framed in *.
  unfold build_packet. set (plain := plain_packet payload padding).
  assert (Hl : lenZ plain = lenZ payload + 5 + lenZ padding) by apply lenZ_plain. clearbody plain.
  do 2 wp_step. destruct encrypted; cbv iota in *.
  2: { wp_step. split; [done|]. intros ob total [= <- <-]. rewrite slice_prefix.
       unfold MAX_SSH_PACKET_LEN, lenZ in *. rewrite length_app, length_drop. repeat split; lia || done. }
  do 3 wp_step. fold bs. apply Z.mod_divide in Hm as [k Hk]; [|lia].
  assert (Hn : (lenZ plain + bs - 1) / bs = k).
  { rewrite Hl, Hk. replace (k * bs + bs - 1) with (k * bs + (bs - 1)) by lia.
    rewrite Z.div_add_l, Z.div_small by lia. lia. }
  assert (Hk0 : 0 <= k) by nia.
  set (mac := take (Z.to_nat _) (local_mac _ _)).
  assert (Hmacl : lenZ mac <= 64) by (unfold mac, lenZ; rewrite length_take; lia).
  rewrite Hn. replace (Z.to_nat k * Z.to_nat bs)%nat with (length plain) by (unfold lenZ in *; nia).
  rewrite <- app_assoc, resize_app_le, resize_all, drop_app_length by lia.
  eapply wp_mono; [apply encrypt_loop_ok|]. intros r s' [Hkept Hc]. wp_step. split; [done|].
  intros ob total. destruct r as [c|]; [|done]. intros [= <- <-]. specialize (Hc c eq_refl).
  assert (Hcl : lenZ c = lenZ plain) by (eapply run_crypt_len; [exact local_crypt_len| | |done]; lia).
  rewrite app_assoc. replace (lenZ (plain ++ mac)) with (lenZ (c ++ mac)) by (rewrite !lenZ_app; lia).
  rewrite slice_prefix. repeat split.
  - unfold MAX_SSH_PACKET_LEN, lenZ in *. rewrite !length_app, length_drop. lia.
  - apply lenZ_nonneg.
  - rewrite (lenZ_app (c ++ mac)). pose proof (lenZ_nonneg (drop (length (plain ++ mac)) (tp_outbuf (s_packet s)))). lia.
  - exists c. split; [|done]. by rewrite Hl, Hk, Z.div_mul by lia.
Qed.

(** The payload of a message: as it is, unless compression is on. *)
Definition payload_of (encrypted : bool) (s : session) (data data2 payload : list Z) : Prop :=
  (encrypted && compressing s && bool_decide (is_Some (ep_comp_abstract (s_local s)))) = false ->
  payload = data ++ data2.

Lemma compress_part_ok st data n s :
  wp (compress_part deflate st data n) (fun r s' => tr_loaded s s' /\
    match r.1 with
    | inl rc => rc = LIBSSH2_ERROR_ZLIB
    | inr c => lenZ c < n
    end) s.
Proof.
  unfold compress_part, comp_method_zlib_comp. wp_step.
  destruct (deflate st data n) as [[status out] st'] eqn:E. wp_step.
  - wps. simpl. breflect. split; [by split|lia].
  - wp_step. apply wp_error_mem. intros s1 H1 Hh Hn. wps. simpl. split; [|done].
    etrans; [by apply mem_only_loaded|by split].
Qed.

Lemma send_payload_ok encrypted data data2 s :
  wp (send_payload deflate encrypted data data2) (fun r s' => tr_loaded s s' /\
    match r with
    | inl rc => rc = LIBSSH2_ERROR_ZLIB \/ rc = LIBSSH2_ERROR_INVAL
    | inr pl => lenZ pl <= MAX_SSH_PACKET_LEN - 256 /\ payload_of encrypted s data data2 pl
    end) s.
Proof.
  unfold send_payload, payload_of, MAX_SSH_PACKET_LEN. do 4 wp_step.
  assert (Hplain : forall P : Prop, wp (if 35000 - 256 <=? lenZ data + lenZ data2 then ret (inl LIBSSH2_ERROR_INVAL)
    else ret (inr (data ++ data2))) (fun r s' => tr_loaded s s' /\
    match r with
    | inl rc => rc = LIBSSH2_ERROR_ZLIB \/ rc = LIBSSH2_ERROR_INVAL
    | inr pl => lenZ pl <= 35000 - 256 /\ (P -> pl = data ++ data2)
    end) s).
  { intros P. wps; (split; [done|]); [by right|]. breflect. rewrite lenZ_app. split; [lia|done]. }
  destruct (encrypted && compressing s); [|apply Hplain].
  destruct (ep_comp_abstract (s_local s)) as [st|]; [|apply Hplain].
  wp_step. eapply wp_mono; [apply compress_part_ok|]. intros [[rc|c1] st1] s1 [H1 Hc1]; simpl in Hc1.
  { wp_step. auto. }
  wp_step; [|wp_step; split; [done|]; split; [lia|done]].
  wp_step. eapply wp_mono; [apply compress_part_ok|]. intros [[rc|c2] st2] s2 [H2 Hc2]; simpl in Hc2;
    wp_step; (split; [by etrans|]); [by left|]. rewrite lenZ_app. split; [lia|done].
Qed.

(** The bytes of an unfinished send. *)
Definition unsent (p : transportpacket) : list Z :=
  if tp_olen p =? 0 then [] else slice (tp_osent p) (tp_ototal_num p - tp_osent p) (tp_outbuf p).

(** [socket_send] accepts a prefix, and all of it if nothing limits it. *)
Lemma wp_socket_send bytes (Q : Z -> session -> Prop) s :
  (forall r l, r < 0 -> Q r (s <| s_send := l |>)) ->
  (forall n l, 0 <= n <= lenZ bytes ->
    Q n (s <| s_send := l |> <| s_wire ::= fun w => w ++ take (Z.to_nat n) bytes |>)) ->
  wp (socket_send bytes) Q s.
Proof.
  intros Hneg Hpos. unfold wp, socket_send. pose proof (lenZ_nonneg bytes) as H0.
  destruct (s_send s) as [|r rest] eqn:E.
  - specialize (Hpos (lenZ bytes) [] ltac:(lia)). unfold lenZ in Hpos.
    rewrite Nat2Z.id, take_ge in Hpos by lia.
    replace (s <| s_send := [] |>) with s in Hpos by (destruct s; simpl in E; by subst). done.
  - destruct (Z.ltb_spec r 0); [by apply Hneg|].
    specialize (Hpos (Z.min r (lenZ bytes)) rest ltac:(lia)).
    assert (Ht : take (Z.to_nat (Z.min r (lenZ bytes))) bytes = take (Z.to_nat r) bytes); [|by rewrite Ht in Hpos].
    unfold lenZ. destruct (Z.min_spec r (Z.of_nat (length bytes))) as [[? ->]|[? ->]]; [done|].
    rewrite Nat2Z.id, !take_ge by lia. done.
Qed.

(** How a send can end, for a packet [frame] of which [before] is on the wire. *)
Definition send_post (addr data_len : Z) (target : list Z) (rc : Z) (s' : session) : Prop :=
  rc = 0 /\ s_wire s' = target /\ tp_olen (s_packet s') = 0 \/
  rc = LIBSSH2_ERROR_EAGAIN /\ s_wire s' ++ unsent (s_packet s') = target /\
    tp_olen (s_packet s') = data_len /\ tp_odata (s_packet s') = Some addr \/
  rc = LIBSSH2_ERROR_SOCKET_SEND.

(** The parts of [outbuf] that are on the wire and that are not. *)
Lemma slice_more off n k (l : list Z) :
  0 <= off -> 0 <= k <= n ->
  take (Z.to_nat k) (slice off n l) ++ slice (off + k) (n - k) l = slice off n l.
Proof.
  intros H0 Hk. unfold slice. rewrite take_take, Nat.min_l by lia.
  replace (Z.to_nat (off + k)) with (Z.to_nat off + Z.to_nat k)%nat by lia.
  rewrite <- drop_drop, take_take_drop. f_equal. lia.
Qed.

Lemma take_slice_all off n (l : list Z) : take (Z.to_nat n) (slice off n l) = slice off n l.
Proof. unfold slice. by rewrite take_take, Nat.min_id. Qed.

(** A change of the packet being sent that keeps it consistent. *)
Ltac kept_packet :=
  split; [split; try done; intros (? & ? & ?); split; [done|]; split; [|done]|done..].

Lemma send_existing_ok addr n s :
  out_ok (s_packet s) ->
  wp (send_existing addr n) (fun r s' => tr_kept s s' /\
    (tp_olen (s_packet s) = 0 /\ r = (0, false) /\ s' = s \/
     (tp_odata (s_packet s) <> Some addr \/ n <> tp_olen (s_packet s)) /\
       tp_olen (s_packet s) <> 0 /\ r = (LIBSSH2_ERROR_BAD_USE, false) /\ s' = s \/
     tp_olen (s_packet s) <> 0 /\ r.2 = true /\ s_local s' = s_local s /\
       send_post addr n (s_wire s ++ unsent (s_packet s)) r.1 s')) s.
Proof.
  intros [Hmax Hout]. unfold send_existing. do 2 wp_step. wp_step; [wp_step; breflect; split; [done|by left]|].
  breflect. destruct (Hout E) as [Ho Ht]. wp_step; [wp_step; breflect; split; [done|right; left];
    split; [destruct E0; breflect; auto|done]|]. breflect.
  set (len := tp_ototal_num (s_packet s) - tp_osent (s_packet s)). wp_step.
  eapply wp_access; [apply bytes_at_in; unfold len; lia|]. wp_step.
  assert (Hu : unsent (s_packet s) = slice (tp_osent (s_packet s)) len (tp_outbuf (s_packet s))).
  { unfold unsent. by rewrite (proj2 (Z.eqb_neq _ _) E). }
  rewrite Hu. apply wp_socket_send.
  - intros r l Hr. destruct (Z.eqb_spec r len); [unfold len in *; lia|].
    rewrite (proj2 (Z.ltb_lt _ _) Hr). wp_step.
    + wp_step. split; [by split|]. right; right. split; [done|]. split; [done|]. split; [done|]. by right; right.
    + unfold block_outbound. do 3 wp_step. split; [by split|]. right; right. split; [done|].
      split; [done|]. split; [done|]. right; left. simpl. by rewrite Hu.
  - intros k l Hk. rewrite lenZ_slice in Hk by (unfold len; lia). wp_step; breflect.
    + subst k. rewrite take_slice_all. unfold set_packet. do 3 wp_step.
      split; [kept_packet; by split|]. right; right. split; [done|]. split; [done|]. split; [done|]. by left.
    + destruct (Z.ltb_spec k 0); [lia|]. unfold set_packet. do 2 wp_step.
      destruct (Z.ltb_spec k len); [|lia]. wp_step.
      split; [kept_packet; split; simpl; unfold len in *; lia|].
      right; right. split; [done|]. split; [done|]. split; [done|]. right; left. split; [done|]. simpl.
      split; [|done]. unfold unsent. simpl. rewrite (proj2 (Z.eqb_neq _ _) E), <- app_assoc. f_equal.
      rewrite (Z.add_comm k). etrans; [|apply slice_more; [|exact Hk]; lia]. f_equal. f_equal. unfold len. lia.
Qed.

Lemma send_packet_ok addr n outbuf total s :
  tp_olen (s_packet s) = 0 -> lenZ outbuf <= MAX_SSH_PACKET_LEN -> 0 <= total <= lenZ outbuf ->
  wp (send_packet addr n outbuf total) (fun rc s' => tr_kept s s' /\
    s_local s' = (s_local s) <| ep_seqno := u32 (ep_seqno (s_local s) + 1) |> /\
    (n <> 0 -> send_post addr n (s_wire s ++ slice 0 total outbuf) rc s')) s.
Proof.
  intros Holen Hmax Ht. unfold send_packet. wp_step.
  destruct (Z.ltb_spec MAX_SSH_PACKET_LEN (lenZ outbuf)); [lia|].
  unfold set_packet, block_outbound. wps. eapply wp_access; [apply bytes_at_in; lia|].
  wp_step. apply wp_socket_send.
  - intros r l Hr. rewrite (proj2 (Z.eqb_neq r total)) by lia. cbn [negb].
    rewrite (proj2 (Z.leb_gt 0 r)) by lia. cbn [orb]. wp_step; breflect.
    + do 5 wp_step. rewrite (proj2 (Z.leb_le r 0)) by lia.
      split; [kept_packet; split; simpl; lia|]. split; [done|]. intros Hn. right; left. split; [done|]. simpl.
      split; [|done]. unfold unsent. simpl. rewrite (proj2 (Z.eqb_neq _ _) Hn), Z.sub_0_r. done.
    + wp_step. split; [kept_packet; split; simpl; lia|]. split; [done|]. intros _. by right; right.
  - intros k l Hk. rewrite lenZ_slice in Hk by lia. wp_step; breflect.
    + rewrite (proj2 (Z.leb_le 0 k)) by lia. cbn [orb]. do 5 wp_step.
      split; [kept_packet; split; simpl; [lia|]; intros _; destruct (k <=? 0) eqn:?; breflect; lia|].
      split; [done|]. intros Hn. right; left. split; [done|]. simpl. split; [|done].
      unfold unsent. simpl. rewrite (proj2 (Z.eqb_neq _ _) Hn), <- app_assoc. f_equal.
      replace (if k <=? 0 then 0 else k) with (0 + k) by (destruct (Z.leb_spec k 0); lia).
      rewrite Z.add_0_l at 2. apply slice_more; lia.
    + subst k. rewrite take_slice_all. do 3 wp_step. split; [kept_packet; by split|]. split; [done|]. intros _. by left.
Qed.

Lemma framed_loaded s s' encrypted payload padding frame st' :
  tr_loaded s s' -> framed encrypted (s_local s') payload padding frame st' ->
  framed encrypted (s_local s) payload padding frame st'.
Proof.
  intros [[[_ _ _ Hb Hm _] _ Hs _] Hc]. unfold framed. by rewrite Hb, Hm, Hs, Hc.
Qed.

(** A new packet: [frame] goes to the socket. *)
Definition new_post (addr : Z) (data data2 : list Z) (s : session) (rc : Z) (s' : session) : Prop :=
  exists payload padding frame st',
    let encrypted := state_has s LIBSSH2_STATE_NEWKEYS in
    let blocksize := if encrypted then ep_blocksize (s_local s) else 8 in
    payload_of encrypted s data data2 payload /\ lenZ payload <= MAX_SSH_PACKET_LEN /\
    lenZ padding = padding_for blocksize (lenZ payload) /\
    framed encrypted (s_local s) payload padding frame st' /\
    ep_crypt_abstract (s_local s') = st' /\ ep_seqno (s_local s') = u32 (ep_seqno (s_local s) + 1) /\
    send_post addr (lenZ data) (s_wire s ++ frame) rc s'.

Abbreviation send := (transport_send local_crypt local_mac deflate random kex_exchange).

(** The errors of a send that never reached the socket. *)
Definition not_sent (rc : Z) : Prop :=
  rc ∈ [LIBSSH2_ERROR_ZLIB; LIBSSH2_ERROR_INVAL; LIBSSH2_ERROR_RANDGEN; LIBSSH2_ERROR_ENCRYPT;
        LIBSSH2_ERROR_BAD_USE].

Lemma not_sent_error rc : not_sent rc -> rc <> 0 /\ rc <> LIBSSH2_ERROR_EAGAIN.
Proof. unfold not_sent. rewrite list_elem_of_In. simpl. intros H. destruct_or! H; subst; done. Qed.

Lemma wp_redirect_kex (Q : Z -> session -> Prop) s :
  no_redirect (s_state s) -> Q 0 s -> wp (redirect_kex kex_exchange) Q s.
Proof.
  intros H HQ. unfold redirect_kex. do 2 wp_step. unfold state_has.
  destruct H as [-> |H%Z.eqb_neq]; [done|]. rewrite H. by rewrite andb_false_r.
Qed.

Lemma send_new_ok addr data data2 s :
  can_send s -> tp_olen (s_packet s) = 0 ->
  wp (send_new local_crypt local_mac deflate random
        (if state_has s LIBSSH2_STATE_NEWKEYS then ep_blocksize (s_local s) else 8) addr data data2)
    (fun rc s' => tr_kept s s' /\ (data <> [] -> not_sent rc \/ new_post addr data data2 s rc s')) s.
Proof.
  intros (Hex & Hout & Hmac & Hbs) Ho. unfold send_new. do 2 wp_step.
  set (encrypted := state_has s LIBSSH2_STATE_NEWKEYS) in *.
  assert (Hb : 8 <= (if encrypted then ep_blocksize (s_local s) else 8) <= MAX_BLOCKSIZE).
  { unfold encrypted, state_has in *. destruct (Z.eqb_spec (Z.land (s_state s) LIBSSH2_STATE_NEWKEYS) 0).
    - done.
    - by apply Hbs. }
  wp_step. eapply wp_mono; [apply send_payload_ok|].
  intros [rc|payload] s1 [H1 Hpl]; [wp_step; split; [apply H1|];
    intros _; left; destruct Hpl as [-> | ->]; unfold not_sent; by repeat constructor|].
  destruct Hpl as [Hmax Hpl]. pose proof H1 as [[[Hc _ _ Hbk Hmk _] Hpk _ Hw] _]. do 2 wp_step.
  destruct (random s1 _) as [padding|] eqn:Er.
  2: { apply wp_error_mem. intros s2 H2 Hh Hn. split; [|intros _; left; unfold not_sent; by repeat constructor].
       etrans; [apply H1|]. by eapply built_kept, loaded_built, mem_only_loaded. }
  apply random_len in Er; [|destruct (padding_for_spec _ (lenZ payload) (proj1 Hb) (lenZ_nonneg _)); lia]. wp_step.
  eapply wp_mono; [apply build_packet_ok; rewrite ?Hbk, ?Hmk, ?Hpk; done|].
  intros r s2 [H2 Hr]. destruct r as [[outbuf total]|].
  2: { wp_step. split; [etrans; [apply H1|apply H2]|]. intros _; left; unfold not_sent; by repeat constructor. }
  destruct (Hr outbuf total eq_refl) as (Hm2 & Ht & Hf). pose proof H2 as [Hk2 Hp2 _ Hw2].
  eapply wp_mono; [apply send_packet_ok; [congruence|done..]|]. intros rc s3 (Hk3 & Hloc & Hpost).
  split; [etrans; [apply H1|]; by etrans|]. intros Hd. right.
  exists payload, padding, (slice 0 total outbuf), (ep_crypt_abstract (s_local s2)).
  split; [done|]. split; [unfold MAX_SSH_PACKET_LEN in *; lia|]. split; [done|]. split; [by eapply framed_loaded|].
  rewrite Hloc. split; [done|]. simpl. split; [by rewrite (built_seqno _ _ H2), (built_seqno _ _ (loaded_built _ _ H1))|].
  rewrite <- Hw, <- Hw2.
  by apply Hpost, lenZ_nonzero.
Qed.

Lemma transport_send_ok addr data data2 s :
  can_send s ->
  wp (send addr data data2) (fun rc s' => tr_kept s s' /\
    (data <> [] -> tp_olen (s_packet s) = 0 -> not_sent rc \/ new_post addr data data2 s rc s') /\
    (tp_olen (s_packet s) <> 0 -> tp_odata (s_packet s) = Some addr -> tp_olen (s_packet s) = lenZ data ->
      s_local s' = s_local s /\ send_post addr (lenZ data) (s_wire s ++ unsent (s_packet s)) rc s')) s.
Proof.
  intros Hcan. pose proof Hcan as (Hex & Hout & _). unfold transport_send. do 3 wp_step.
  apply wp_redirect_kex; [done|]. cbn [Z.eqb negb]. wp_step.
  eapply wp_mono; [by apply send_existing_ok|].
  intros [rc sent] s1 [Hk [(Ho & [= -> ->] & ->)|[(Hne & Ho & [= -> ->] & ->)|(Ho & Hs & Hloc & Hp)]]].
  - cbn [Z.eqb negb]. do 2 wp_step.
    set (s1 := upd _ _ s). assert (Hk1 : tr_kept s s1) by (by split).
    eapply wp_mono; [apply (send_new_ok addr data data2 s1); [by apply Hk1|done]|].
    intros rc s2 [Hk2 Hpost]. split; [by etrans|]. split; [|done]. intros Hd _. exact (Hpost Hd).
  - cbn [Z.eqb negb LIBSSH2_ERROR_BAD_USE]. wp_step. split; [done|]. split; [done|].
    intros _ Ha Hl. destruct Hne; congruence.
  - simpl in Hs, Hp. subst sent. wp_step; [wp_step; by split; [|split]|]. breflect. subst rc. do 3 wp_step.
    split; [etrans; [done|by split]|]. done.
Qed.

(** The transport layer is what the connection layer relies on. *)
#[global] Instance send_at_transport (addr_of : list Z -> list Z -> Z) :
  Transport (send_at local_crypt local_mac deflate random kex_exchange addr_of).
Proof.
  intros data data2 s Hs. eapply wp_mono; [by apply transport_send_ok|]. intros rc s' [[Hc Hsu _ _ _ _] _].
  by split.
Qed.

(** The documented use of [_libssh2_transport_send]: as long as it returns
    [LIBSSH2_ERROR_EAGAIN], it is called again with the same arguments. *)
Fixpoint send_again (n : nat) (addr : Z) (data data2 : list Z) : CM Z :=
  let! rc := send addr data data2 in
  match n with
  | O => ret rc
  | S n => if rc =? LIBSSH2_ERROR_EAGAIN then send_again n addr data data2 else ret rc
  end.

(** Calls for a packet that is partly sent. *)
Lemma send_again_rest n addr data data2 : forall s,
  can_send s -> data <> [] -> tp_olen (s_packet s) = lenZ data -> tp_odata (s_packet s) = Some addr ->
  wp (send_again n addr data data2) (fun rc s' => tr_kept s s' /\ s_local s' = s_local s /\
    send_post addr (lenZ data) (s_wire s ++ unsent (s_packet s)) rc s') s.
Proof.
  induction n as [|n IH]; intros s Hcan Hd Hl Ha; cbn [send_again];
    (assert (Hne : tp_olen (s_packet s) <> 0) by (rewrite Hl; by apply lenZ_nonzero)); wp_step;
    (eapply wp_mono; [by apply transport_send_ok|]); intros rc s1 (Hk & _ & Hp);
    destruct (Hp Hne Ha Hl) as [Hloc Hp']; clear Hp; rename Hp' into Hp.
  { wp_step. by split. }
  wp_step; [|wp_step; by split]. breflect.
  destruct Hp as [(? & ?)|[(_ & Hw & Hl1 & Ha1)|?]]; [by subst| |by subst].
  eapply wp_mono; [apply IH; [by apply Hk|done..]|]. intros rc2 s2 (Hk2 & Hloc2 & Hp2).
  split; [by etrans|]. split; [congruence|]. by rewrite <- Hw.
Qed.

Lemma send_again_ok n addr data data2 s :
  can_send s -> data <> [] -> tp_olen (s_packet s) = 0 ->
  wp (send_again n addr data data2) (fun rc s' => tr_kept s s' /\
    (not_sent rc \/ new_post addr data data2 s rc s')) s.
Proof.
  intros Hcan Hd Ho. destruct n as [|n]; cbn [send_again]; wp_step;
    (eapply wp_mono; [by apply transport_send_ok|]); intros rc s1 (Hk & Hp & _);
    specialize (Hp Hd Ho); [wp_step; by split|].
  wp_step; [|wp_step; by split]. breflect. subst rc.
  destruct Hp as [Hp|(payload & padding & frame & st' & Hpl & Hmx & Hpad & Hf & Hst & Hsq & Hp)];
    [by destruct (not_sent_error _ Hp)|].
  destruct Hp as [(? & ?)|[(_ & Hw & Hl1 & Ha1)|?]]; [done| |done].
  eapply wp_mono; [apply send_again_rest; [by apply Hk|done..]|]. intros rc2 s2 (Hk2 & Hloc2 & Hp2).
  split; [by etrans|]. right. exists payload, padding, frame, st'. by rewrite <- Hw, Hloc2.
Qed.
End Send.

(** ** What a send leaves alone, and its use of the socket *)

(** The side that receives, what the session owns, and the memory's outcomes. *)
Definition receiver (s : session) :=
  (s_recv s, s_remote s, readPack_state s, fullpacket_state s, s_kex s, s_state s, open_data s, socket_state s, s_alloc s,
   (tp_buf (s_packet s), tp_total_num (s_packet s), tp_payload (s_packet s))).

Lemma keeps_error_receiver code msg : keeps receiver (error code msg).
Proof. by intros s a s' [= <- <-]. Qed.
Lemma keeps_socket_send_receiver bytes : keeps receiver (socket_send bytes).
Proof. intros s a s'. unfold socket_send. destruct (s_send s) as [|r l]; [|destruct (r <? 0)]; by intros [= <- <-]. Qed.
Lemma keeps_error_socket code msg : keeps s_send (error code msg).
Proof. by intros s a s' [= <- <-]. Qed.
#[local] Hint Resolve keeps_error_receiver keeps_socket_send_receiver keeps_error_socket : keeps.

(** At most one outcome of the socket is used up, and the call would block only when the
    socket would, or took a part. *)
Definition one_outcome (s s' : session) (rc : Z) : Prop :=
  s_send s' = s_send s /\ rc <> LIBSSH2_ERROR_EAGAIN \/
  exists r, s_send s = r :: s_send s' /\ (rc = LIBSSH2_ERROR_EAGAIN -> r = - EAGAIN \/ 0 <= r).

Lemma socket_send_outcome bytes s r s' : socket_send bytes s = Ret r s' ->
  r = lenZ bytes /\ s_send s' = s_send s \/
  exists o, s_send s = o :: s_send s' /\ (r < 0 /\ o = r \/ 0 <= o).
Proof.
  unfold socket_send. destruct (s_send s) as [|o l] eqn:E; [intros [= <- <-]; left; by rewrite <- E|].
  destruct (Z.ltb_spec o 0); intros [= <- <-]; right; exists o; auto.
Qed.

Lemma bytes_at_len l off n b : bytes_at l off n = Some b -> lenZ b = n.
Proof. unfold bytes_at. case_decide; [|done]. intros [= <-]. apply lenZ_slice; lia. Qed.

Section Outcomes.
Context (local_crypt : list Z -> list Z -> option (list Z * list Z)).
Context (local_mac : Z -> list Z -> list Z).
Context (deflate : list Z -> list Z -> Z -> Z * list Z * list Z).
Context (random : session -> Z -> option (list Z)) (kex_exchange : CM Z).
Abbreviation send := (transport_send local_crypt local_mac deflate random kex_exchange).

Lemma keeps_encrypt {B} (pr : session -> B) n bs :
  (forall f s, pr (s <| s_local ::= f |>) = pr s) -> forall source, keeps pr (encrypt_loop local_crypt n bs source).
Proof.
  intros H. induction n as [|n IH]; intros source; cbn [encrypt_loop]; [apply keeps_ret|].
  apply keeps_bind; [apply keeps_gets|]. intros st. destruct (local_crypt _ _) as [[b st']|]; [|apply keeps_ret].
  apply keeps_bind; [by apply keeps_modify|]. intros _. apply keeps_bind; [apply IH|]. intros r. apply keeps_ret.
Qed.

Lemma keeps_encrypt_receiver n bs source : keeps receiver (encrypt_loop local_crypt n bs source).
Proof. by apply keeps_encrypt. Qed.
Lemma keeps_encrypt_socket n bs source : keeps s_send (encrypt_loop local_crypt n bs source).
Proof. by apply keeps_encrypt. Qed.
#[local] Hint Resolve keeps_encrypt_receiver keeps_encrypt_socket : keeps.

Lemma redirect_none s : no_redirect (s_state s) -> redirect_kex kex_exchange s = Ret 0 s.
Proof.
  intros H. unfold redirect_kex, bind, gets, state_has.
  destruct H as [-> |H%Z.eqb_neq]; [done|]. rewrite H. by rewrite andb_false_r.
Qed.

(** Without a redirection a send does not touch the receiver. *)
Lemma send_keeps_receiver addr data data2 s rc s' :
  no_redirect (s_state s) -> send addr data data2 s = Ret rc s' -> receiver s' = receiver s.
Proof.
  intros Hn. unfold transport_send. intros (bs & s1 & [= <- <-] & E)%bind_Ret_inv.
  apply bind_Ret_inv in E as (r & s1 & E1 & E2). rewrite redirect_none in E1 by done. injection E1 as <- <-.
  change (negb (0 =? 0)) with false in E2. cbn iota in E2. revert E2.
  match goal with |- ?m s = _ -> _ => enough (H : keeps receiver m) by apply H end.
  unfold send_existing, send_new, send_payload, compress_part, comp_method_zlib_comp, build_packet, send_packet, set_packet, block_outbound.
  keeps_all.
Qed.

Lemma send_packet_outcome addr n outbuf total s rc s' :
  send_packet addr n outbuf total s = Ret rc s' -> one_outcome s s' rc.
Proof.
  unfold send_packet. intros (u & s1 & E1 & E)%bind_Ret_inv. destruct (MAX_SSH_PACKET_LEN <? _); [done|]. injection E1 as <- <-.
  apply bind_Ret_inv in E as (? & s1 & [= <- <-] & E). apply bind_Ret_inv in E as (? & s1 & [= <- <-] & E).
  apply bind_Ret_inv in E as (b & s1 & E1 & E). destruct (bytes_at outbuf 0 total) as [b'|] eqn:Eb; [|done]. injection E1 as <- <-.
  apply bytes_at_len in Eb. apply bind_Ret_inv in E as (r & s2 & E1 & E). apply socket_send_outcome in E1.
  cbn [s_send upd] in E1.
  destruct (Z.eqb_spec r total) as [->|Hr]; cbn [negb] in E.
  - apply bind_Ret_inv in E as (? & s3 & [= <- <-] & E). injection E as <- <-.
    destruct E1 as [[_ E1]|(o & E1 & _)]; [by left|right]. by exists o.
  - destruct E1 as [[? _]|(o & E1 & Ho)]; [congruence|]. right. exists o.
    destruct ((0 <=? r) || (r =? - EAGAIN)) eqn:Eg.
    + apply bind_Ret_inv in E as (? & s3 & [= <- <-] & E). apply bind_Ret_inv in E as (? & s3 & [= <- <-] & E).
      injection E as <- <-. split; [done|]. intros _. destruct Ho as [[? ->]|?]; [|by right].
      apply orb_true_iff in Eg as [?|?]; breflect; [lia|by left].
    + by injection E as <- <-.
Qed.

(** One call of [_libssh2_transport_send]. *)
Lemma send_outcome addr data data2 s rc s' :
  no_redirect (s_state s) -> send addr data data2 s = Ret rc s' -> one_outcome s s' rc.
Proof.
  intros Hn. unfold transport_send. intros (bs & s1 & [= <- <-] & E)%bind_Ret_inv.
  apply bind_Ret_inv in E as (r & s1 & E1 & E). rewrite redirect_none in E1 by done. injection E1 as <- <-.
  change (negb (0 =? 0)) with false in E. cbn iota in E. apply bind_Ret_inv in E as ([r sent] & s1 & E1 & E).
  assert (H1 : one_outcome s s1 r /\ (sent = false -> s_send s1 = s_send s /\ r <> LIBSSH2_ERROR_EAGAIN)).
  { clear E. unfold send_existing in E1. apply bind_Ret_inv in E1 as (p & s2 & [= <- <-] & E).
    destruct (_ =? 0); [injection E as <- <- <-; by split; [left|]|].
    destruct (_ || _); [injection E as <- <- <-; by split; [left|]|].
    apply bind_Ret_inv in E as (b & s2 & E1 & E). destruct (bytes_at _ _ _) as [b'|] eqn:Eb; [|done]. injection E1 as <- <-.
    apply bytes_at_len in Eb. apply bind_Ret_inv in E as (k & s2 & E1 & E). apply socket_send_outcome in E1. rewrite Eb in E1.
    set (len := _ - _) in *. destruct (Z.eqb_spec k len) as [->|Hk].
    { apply bind_Ret_inv in E as (? & s3 & [= <- <-] & E). injection E as <- <- <-. split; [|done].
      destruct E1 as [[_ E1]|(o & E1 & _)]; [by left|right]. by exists o. }
    destruct E1 as [[? _]|(o & E1 & Ho)]; [congruence|].
    assert (Hone : forall s3 rc, s_send s3 = s_send s2 -> (rc = LIBSSH2_ERROR_EAGAIN -> o = - EAGAIN \/ 0 <= o) -> one_outcome s s3 rc).
    { intros s3 rc' E3 Hrc. right. exists o. by rewrite E3. }
    destruct (Z.ltb_spec k 0).
    - destruct (Z.eqb_spec k (- EAGAIN)); cbn [negb] in E.
      + apply bind_Ret_inv in E as (? & s3 & [= <- <-] & E). injection E as <- <- <-. split; [|done]. apply Hone; [done|].
        intros _. destruct Ho as [[_ ->]|]; auto.
      + injection E as <- <- <-. split; [|done]. by apply Hone.
    - apply bind_Ret_inv in E as (? & s3 & [= <- <-] & E). injection E as <- <- <-. split; [|done]. apply Hone; [done|].
      intros _. right. by destruct Ho as [[? _]|?]; [lia|]. }
  destruct H1 as [H1 Hsent]. destruct (Z.eqb_spec r 0) as [->|Hr]; cbn [negb] in E; [|by injection E as <- <-].
  apply bind_Ret_inv in E as (? & s2 & [= <- <-] & E). destruct sent; [by injection E as <- <-|].
  destruct (Hsent eq_refl) as [Hs1 _]. clear H1 Hsent E1. unfold send_new in E.
  apply bind_Ret_inv in E as (? & s2 & [= <- <-] & E). set (enc := state_has _ _) in E.
  apply bind_Ret_inv in E as (pl & s2 & E1 & E).
  match type of E1 with send_payload _ _ _ _ ?s0 = _ => pose proof (send_payload_ok deflate enc data data2 s0) as Hpl end.
  unfold wp in Hpl. rewrite E1 in Hpl. destruct Hpl as [_ Hpl].
  assert (Hk : keeps s_send (send_payload deflate enc data data2)).
  { unfold send_payload, compress_part, comp_method_zlib_comp. keeps_all. }
  apply Hk in E1. cbn [s_send upd] in E1. rewrite Hs1 in E1. clear Hk.
  destruct pl as [code|payload]; [injection E as <- <-; left; split; [done|by destruct Hpl as [-> | ->]]|].
  apply bind_Ret_inv in E as (pad & s3 & [= <- <-] & E). destruct (random s2 _) as [padding|].
  2: { left. by injection E as <- <-. }
  apply bind_Ret_inv in E as (b & s3 & E2 & E).
  assert (Hk : keeps s_send (build_packet local_crypt local_mac enc payload padding)) by (unfold build_packet; keeps_all).
  apply Hk in E2. destruct b as [[outbuf total]|]; [|left; injection E as <- <-; by rewrite E2].
  apply send_packet_outcome in E. unfold one_outcome in *. by rewrite E2, E1 in E.
Qed.

(** The number of outcomes that are left does not grow, and shrinks when the call would
    block. *)
Lemma send_outcomes_left addr data data2 s rc s' :
  no_redirect (s_state s) -> send addr data data2 s = Ret rc s' ->
  (length (s_send s') <= length (s_send s))%nat /\ (rc = LIBSSH2_ERROR_EAGAIN -> (length (s_send s') < length (s_send s))%nat).
Proof.
  intros Hn E. destruct (send_outcome _ _ _ _ _ _ Hn E) as [[-> ?]|(r & -> & _)]; simpl; [split; [lia|by intros]|split; [lia|lia]].
Qed.
End Outcomes.

(** ** A sample suite: a running exclusive-or, a checksum, zero padding *)

Definition xor_crypt (st b : list Z) : option (list Z * list Z) :=
  let k := default 0 (head st) in Some (Z.lxor k <$> b, [u8 (k + 1)]).
Definition sum_mac (seqno : Z) (d : list Z) : list Z := [u8 seqno; u8 (foldr Z.add 0 d)].
Definition zero_random (s : session) (n : Z) : option (list Z) := Some (replicate (Z.to_nat n) 0).
Definition no_deflate (strm src : list Z) (n : Z) : Z * list Z * list Z := (Z_OK, src, strm).

#[export] Instance sample_suite : SendSuite xor_crypt zero_random.
Proof.
  split.
  - intros st b b' st' [= <- <-]. by rewrite length_fmap.
  - intros s n bs Hn [= <-]. unfold lenZ. rewrite length_replicate. lia.
Qed.

(** A session that has keys; its socket takes a packet in four pieces. *)
Definition keyed_session : session :=
  session_0 <| s_state := LIBSSH2_STATE_NEWKEYS |> <| s_local := mk_endpoint 8 [7] 2 0 None None |>
    <| s_send := [5; - EAGAIN; 0; 3] |>.

Lemma keyed_can_send : can_send keyed_session.
Proof. split; [by left|by repeat split]. Qed.


