(* ===== verification/TransportReceive.v ===== *)
(** * What the transport layer receives

    However the socket cuts the stream into pieces, and wherever it would
    block in between, the collecting loop of [_libssh2_transport_read]
    reassembles exactly the packets that were sent. *)

From stdpp Require Import base numbers list gmap strings.
From S2P Require Import Prelude Codes Wire Session ChannelWindow Packet PacketAdd Conn Comp PacketSafety PacketSpec Transport TransportSpec.

(** ** The incoming stream *)

Definition recv_bytes (l : list recv_outcome) : list Z :=
  concat ((fun r => match r with RecvBytes bs => bs | RecvFail _ => [] end) <$> l).

(** A socket that delivers pieces of the stream, or would block. *)
Definition recv_ok (r : recv_outcome) : Prop :=
  match r with RecvBytes bs => bs <> [] | RecvFail rc => rc = - EAGAIN end.

(** The bytes that are buffered or will arrive. *)
Definition incoming (s : session) : list Z := tp_buf (s_packet s) ++ recv_bytes (s_recv s).

(** What is left to do before the packet is complete: reading from the socket
    counts twice, moving from the buffer once. *)
Definition rx_measure (s : session) : nat :=
  (2 * length (recv_bytes (s_recv s)) + length (tp_buf (s_packet s)))%nat.

(** What collecting a packet does not move. *)
Record rx_fixed (s s' : session) : Prop := {
  fixed_chans : s_chans s' = s_chans s;
  fixed_packets : packets s' = packets s;
  fixed_channels : channels s' = channels s;
  fixed_listeners : listeners s' = listeners s;
  fixed_next_channel : next_channel s' = next_channel s;
  fixed_state : s_state s' = s_state s;
  fixed_local : s_local s' = s_local s;
  fixed_seqno : ep_seqno (s_remote s') = ep_seqno (s_remote s);
  fixed_blocksize : ep_blocksize (s_remote s') = ep_blocksize (s_remote s);
  fixed_mac_len : ep_mac_len (s_remote s') = ep_mac_len (s_remote s);
  fixed_comp : ep_comp_abstract (s_remote s') = ep_comp_abstract (s_remote s);
  fixed_out : (tp_outbuf (s_packet s'), tp_ototal_num (s_packet s'), tp_odata (s_packet s'),
      tp_olen (s_packet s'), tp_osent (s_packet s'))
    = (tp_outbuf (s_packet s), tp_ototal_num (s_packet s), tp_odata (s_packet s), tp_olen (s_packet s),
       tp_osent (s_packet s));
  fixed_suspended : same_suspended s s';
  fixed_states : (fullpacket_state s', readPack_state s') = (fullpacket_state s, readPack_state s)
}.

#[global] Instance rx_fixed_refl : Reflexive rx_fixed.
Proof. intros s. by split. Qed.
#[global] Instance rx_fixed_trans : Transitive rx_fixed.
Proof. intros s1 s2 s3 [] []. split; [congruence..|by etrans|congruence]. Qed.

(** ** A frame in transit *)

(** A packet [plain] with the MAC [mac], sent as [cipher] when [rx_enc]. *)
Record rx_frame := mk_rx_frame {
  rx_enc : bool;
  rx_bs : Z;
  rx_plain : list Z;
  rx_cipher : list Z;
  rx_mac : list Z;
  rx_len : Z;
  rx_pad : Z
}.

Definition rx_wire (f : rx_frame) : list Z :=
  (if rx_enc f then rx_cipher f else rx_plain f) ++ rx_mac f.

(** The first block, and the number of bytes behind the length fields. *)
Definition rx_block (f : rx_frame) : Z := if rx_enc f then rx_bs f else 5.
Definition rx_total (f : rx_frame) : Z := lenZ (rx_plain f) - 5 + lenZ (rx_mac f).

Section Receive.
Context (remote_crypt : list Z -> list Z -> option (list Z * list Z)).
Context (remote_crypt_len : forall st b b' st', remote_crypt st b = Some (b', st') -> length b' = length b).

(** The frame is one the code accepts: its length fields are those of [plain],
    and the ciphertext is whole blocks that decrypt to [plain]. *)
Record rx_frame_ok (f : rx_frame) (st0 st1 : list Z) : Prop := {
  rx_ok_len : lenZ (rx_plain f) = rx_len f + 4;
  rx_ok_len_field : ntohu32 (rx_plain f) 0 = Some (rx_len f);
  rx_ok_pad_field : byte_at (rx_plain f) 4 = Some (rx_pad f);
  rx_ok_pad : 0 <= rx_pad f <= rx_len f - 1;
  rx_ok_total : 1 <= rx_total f <= LIBSSH2_PACKET_MAXPAYLOAD;
  rx_ok_max : 1 <= rx_len f <= LIBSSH2_PACKET_MAXPAYLOAD;
  rx_ok_bs : 8 <= rx_bs f;
  rx_ok_crypt : rx_enc f = true -> exists k, lenZ (rx_plain f) = Z.of_nat (S k) * rx_bs f /\
    lenZ (rx_cipher f) = lenZ (rx_plain f) /\
    run_crypt remote_crypt (S k) (rx_bs f) st0 (rx_cipher f) = Some (rx_plain f, st1);
  rx_ok_plain : rx_enc f = false -> rx_mac f = [] /\ st1 = st0
}.

Context (f : rx_frame) (st0 st1 : list Z) (Hf : rx_frame_ok f st0 st1).
Context (h : gmap ptr (list Z)) (rest : list Z) (start : session).

(** The surroundings of the collecting loop. *)
Record rx_env (s : session) : Prop := {
  env_socket : socket_state s <> LIBSSH2_SOCKET_DISCONNECTED;
  env_enc : state_has s LIBSSH2_STATE_NEWKEYS = rx_enc f;
  env_bs : rx_enc f = true -> ep_blocksize (s_remote s) = rx_bs f;
  env_mac : rx_enc f = true -> ep_mac_len (s_remote s) = lenZ (rx_mac f);
  env_alloc : s_alloc s = [];
  env_recv : Forall recv_ok (s_recv s);
  env_fixed : rx_fixed start s
}.

(** Nothing of the frame has been taken yet. *)
Record rx_start (s : session) : Prop := {
  start_env : rx_env s;
  start_total : tp_total_num (s_packet s) = 0;
  start_incoming : incoming s = rx_wire f ++ rest;
  start_crypt : ep_crypt_abstract (s_remote s) = st0;
  start_heap : s_heap s = h;
  start_fresh : h !! s_next_ptr s = None
}.

(** [got] is in the payload block; [cw], which decrypts to [dw], and [raw] are
    still to come. *)
Record rx_body (got cw dw raw : list Z) (s : session) : Prop := {
  body_env : rx_env s;
  body_total : tp_total_num (s_packet s) = rx_total f;
  body_len : tp_packet_length (s_packet s) = rx_len f;
  body_pad : tp_padding_length (s_packet s) = rx_pad f;
  body_init : rx_enc f = true -> tp_init (s_packet s) = take 5 (rx_plain f);
  body_heap : exists q d, tp_payload (s_packet s) = Some q /\ s_heap s = <[q := d]> h /\ h !! q = None /\
    lenZ d = rx_total f /\ tp_data_num (s_packet s) = lenZ got /\ take (length got) d = got;
  body_parts : got ++ dw ++ raw = drop 5 (rx_plain f) ++ rx_mac f;
  body_incoming : incoming s = cw ++ raw ++ rest;
  body_crypt : exists k, lenZ cw = Z.of_nat k * rx_bs f /\
    run_crypt remote_crypt k (rx_bs f) (ep_crypt_abstract (s_remote s)) cw = Some (dw, st1);
  body_raw : rx_enc f = true -> lenZ raw <= lenZ (rx_mac f) /\ (cw <> [] -> raw = rx_mac f);
  body_plain : rx_enc f = false -> cw = [] /\ dw = []
}.

(** ** Reading from the socket *)

Lemma wp_socket_recv n (Q : Z + list Z -> session -> Prop) s :
  Forall recv_ok (s_recv s) -> 0 < n ->
  (forall l, Forall recv_ok l -> recv_bytes l = recv_bytes (s_recv s) ->
    (l = s_recv s /\ l = [] \/ (length l < length (s_recv s))%nat) ->
    Q (inl (- EAGAIN)) (s <| s_recv := l |>)) ->
  (forall bs l, bs <> [] -> lenZ bs <= n -> Forall recv_ok l -> bs ++ recv_bytes l = recv_bytes (s_recv s) ->
    (length l <= length (s_recv s))%nat -> (lenZ bs = n \/ (length l < length (s_recv s))%nat) -> Q (inr bs) (s <| s_recv := l |>)) ->
  wp (socket_recv n) Q s.
Proof.
  intros Hok Hn Hfail Hget. unfold wp, socket_recv. destruct (s_recv s) as [|[bs|rc] l] eqn:E.
  - specialize (Hfail [] ltac:(done) ltac:(done) ltac:(auto)).
    replace (s <| s_recv := [] |>) with s in Hfail by (destruct s; simpl in E; by subst). done.
  - apply Forall_cons in Hok as [Hb Hok]. simpl in Hb. destruct (Z.leb_spec (lenZ bs) n).
    + apply Hget; [done..|simpl; lia|]. right. simpl. lia.
    + assert (Hl : lenZ (take (Z.to_nat n) bs) = n) by (unfold lenZ in *; rewrite length_take; lia).
      apply Hget.
      * intros Ht. rewrite Ht in Hl. unfold lenZ in Hl. simpl in Hl. lia.
      * lia.
      * constructor; [|done]. simpl. intros Hd. apply (f_equal length) in Hd.
        rewrite length_drop in Hd. unfold lenZ in *. simpl in Hd. lia.
      * unfold recv_bytes. simpl. by rewrite app_assoc, take_drop.
      * done.
      * by left.
  - apply Forall_cons in Hok as [Hb Hok]. simpl in Hb. subst rc. apply Hfail; [done..|].
    right. simpl. lia.
Qed.

(** The stream moved on into the buffer, and nothing else happened. *)
Definition refilled (s s' : session) : Prop :=
  incoming s' = incoming s /\ Forall recv_ok (s_recv s') /\
  exists buf l d, s' = s <| s_packet ::= fun p => p <| tp_buf := buf |> |> <| s_recv := l |>
    <| socket_block_directions := d |>.

Lemma rx_env_keep s s' :
  rx_env s -> socket_state s' = socket_state s -> ep_blocksize (s_remote s') = ep_blocksize (s_remote s) ->
  ep_mac_len (s_remote s') = ep_mac_len (s_remote s) -> s_alloc s' = s_alloc s ->
  Forall recv_ok (s_recv s') -> rx_fixed s s' -> rx_env s'.
Proof.
  intros [] E1 E2 E3 E4 Hr Hf'. split; rewrite ?E1, ?E2, ?E3, ?E4; try done; [|by etrans].
  unfold state_has in *. by rewrite (fixed_state _ _ Hf').
Qed.

(** The surroundings after a change of the packet being read or of the heap. *)
Ltac keep_env He := eapply (rx_env_keep _ _ He); [done..|by apply He|by split].

Lemma refilled_env s s' : rx_env s -> refilled s s' -> rx_env s'.
Proof. intros He (_ & Hr & buf & l & d & ->). by eapply (rx_env_keep _ _ He); [..|split]. Qed.

Lemma refilled_start s s' : rx_start s -> refilled s s' -> rx_start s'.
Proof.
  intros [He ? ? ? ? ?] H. pose proof (refilled_env _ _ He H). destruct H as (Hi & _ & buf & l & d & ->).
  split; try done. by rewrite Hi.
Qed.

Lemma refilled_body got cw dw raw s s' : rx_body got cw dw raw s -> refilled s s' -> rx_body got cw dw raw s'.
Proof.
  intros [He ? ? ? ? ? ? ? ? ? ?] H. pose proof (refilled_env _ _ He H).
  destruct H as (Hi & _ & buf & l & d & ->). split; try done. by rewrite Hi.
Qed.

Definition buffered (s : session) : list Z := tp_buf (s_packet s).

Lemma read_fill_ok bs s :
  0 < bs <= PACKETBUFSIZE -> Forall recv_ok (s_recv s) ->
  wp (read_fill bs) (fun r s' => refilled s s' /\
    match r with
    | None => (length (s_recv s') <= length (s_recv s))%nat /\
        (s' = s /\ bs <= lenZ (buffered s) \/
         (rx_measure s' < rx_measure s)%nat /\
         (bs <= lenZ (buffered s') \/ (length (s_recv s') < length (s_recv s))%nat))
    | Some rc => rc = LIBSSH2_ERROR_EAGAIN /\ lenZ (buffered s) < bs /\ buffered s' = buffered s /\
        (s_recv s = [] \/ (length (s_recv s') < length (s_recv s))%nat)
    end) s.
Proof.
  intros Hbs Hok. assert (Hid : refilled s s).
  { split; [done|]. split; [done|]. exists (tp_buf (s_packet s)), (s_recv s), (socket_block_directions s).
    destruct s as [? ? ? ? ? ? ? ? ? ? ? ? ? ? ? ? ? ? ? ? ? ? ? ? ? ? ? ? ? ? ? ? ? []]; done. }
  unfold read_fill, buffered. do 2 wp_step. wp_step; breflect.
  2: { wp_step. split; [done|]. split; [done|]. by left. }
  wp_step. apply wp_socket_recv; [done|lia|..].
  - intros l Hl Hb Hlen. cbn beta iota. rewrite Z.eqb_refl. unfold block_inbound. wps. split.
    + split; [unfold incoming; simpl; by rewrite Hb|]. split; [done|].
      exists (tp_buf (s_packet s)), l, (Z.lor (socket_block_directions s) LIBSSH2_SESSION_BLOCK_INBOUND).
      destruct s as [? ? ? ? ? ? ? ? ? ? ? ? ? ? ? ? ? ? ? ? ? ? ? ? ? ? ? ? ? ? ? ? ? []]; done.
    + split; [done|]. split; [done|]. split; [done|]. simpl. destruct Hlen as [[-> ?]|?]; auto.
  - intros bytes l Hne Hn Hl Hb Hle Hlen.
    assert (0 < lenZ bytes) by (pose proof (lenZ_nonzero _ Hne); pose proof (lenZ_nonneg bytes); lia).
    destruct (Z.ltb_spec 0 (lenZ bytes)); [|lia]. unfold set_packet. wps. split.
    + split; [unfold incoming; simpl; by rewrite <- app_assoc, Hb|]. split; [done|].
      exists (tp_buf (s_packet s) ++ bytes), l, (socket_block_directions s). by destruct s.
    + simpl. pose proof (f_equal length Hb) as Hbl. rewrite length_app in Hbl.
      split; [done|]. right. split; [unfold rx_measure; simpl; rewrite length_app; unfold lenZ in *; lia|].
      destruct Hlen as [Hlen|?]; [left|by right]. rewrite lenZ_app. lia.
Qed.

(** ** Decrypting and moving bytes to the payload *)

Definition set_remote_crypt (st : list Z) (s : session) : session :=
  s <| s_remote ::= fun e => e <| ep_crypt_abstract := st |> |>.

Lemma decrypt_loop_run n bs : forall source out st' s,
  run_crypt remote_crypt n bs (ep_crypt_abstract (s_remote s)) source = Some (out, st') ->
  decrypt_loop remote_crypt n bs source s = Ret (out, true) (set_remote_crypt st' s).
Proof.
  induction n as [|n IH]; intros source out st' s H; simpl in H.
  { injection H as <- <-. unfold decrypt_loop, ret, set_remote_crypt. f_equal.
    destruct s as [? ? ? ? ? ? ? ? ? ? ? ? ? ? ? ? ? ? ? ? ? ? ? ? ? ? ? ? ? ? ? ? ? ? ? []]; done. }
  destruct (remote_crypt _ _) as [[b st2]|] eqn:E; [|done]. simpl in H.
  destruct (run_crypt _ _ _ _ _) as [[c st3]|] eqn:E2; [|done]. simpl in H. injection H as <- <-.
  cbn [decrypt_loop]. erewrite bind_Ret by done. cbv beta. rewrite E. erewrite bind_Ret by done.
  erewrite bind_Ret by (apply IH; exact E2). done.
Qed.

Lemma wp_decrypt n bs source out st' (Q : option (list Z) -> session -> Prop) s :
  0 < bs -> ep_blocksize (s_remote s) = bs ->
  run_crypt remote_crypt n bs (ep_crypt_abstract (s_remote s)) source = Some (out, st') ->
  Q (Some out) (set_remote_crypt st' s) ->
  wp (decrypt remote_crypt source (Z.of_nat n * bs)) Q s.
Proof.
  intros Hbs Hb Hrun HQ. unfold decrypt. do 2 wp_step. rewrite Hb, Z.mod_mul by lia. cbn [Z.eqb negb].
  rewrite Z.div_mul, Nat2Z.id by lia. wp_step. unfold wp at 1. by rewrite (decrypt_loop_run _ _ _ _ _ _ Hrun).
Qed.

(** The payload block after a piece was added. *)
Lemma wp_read_append q d got x y b (Q : unit -> session -> Prop) s :
  tp_payload (s_packet s) = Some q -> s_heap s = <[q := d]> h ->
  tp_data_num (s_packet s) = lenZ got -> take (length got) d = got ->
  buffered s = x ++ b -> lenZ y = lenZ x -> lenZ got + lenZ y <= lenZ d ->
  (forall d', lenZ d' = lenZ d -> take (length (got ++ y)) d' = got ++ y ->
    Q tt (s <| s_heap := <[q := d']> h |>
      <| s_packet ::= fun p => p <| tp_buf := b |> <| tp_data_num := lenZ (got ++ y) |> |>)) ->
  wp (read_append (lenZ x) y) Q s.
Proof.
  intros Hp Hh Hn Hg Hb Hxy Hmax HQ. unfold read_append. do 2 wp_step. wp_step. eapply wp_access; [done|].
  wp_step. pose proof (lenZ_nonneg got) as H0. rewrite Hn.
  eapply wp_write_block; [rewrite Hh; apply lookup_insert_eq|done|lia|].
  unfold set_packet. wps. simpl. rewrite Hh, insert_insert_eq, Hn. set (d' := _ ++ y ++ _).
  assert (Hd' : lenZ d' = lenZ d) by (by apply lenZ_write).
  assert (Hg' : take (length (got ++ y)) d' = got ++ y).
  { unfold d', lenZ. rewrite Nat2Z.id, Hg, app_assoc. apply take_app_length. }
  specialize (HQ d' Hd' Hg'). revert HQ. rewrite lenZ_app. simpl. rewrite Hxy, (Z.add_comm (lenZ got)).
  unfold buffered in Hb. rewrite Hb. unfold lenZ at 3. by rewrite Nat2Z.id, drop_app_length.
Qed.

(** ** One round for the body *)

(** The first bytes of the stream are in the buffer. *)
Lemma buffer_prefix (buf r x y : list Z) :
  buf ++ r = x ++ y -> lenZ x <= lenZ buf -> exists b, buf = x ++ b /\ b ++ r = y.
Proof.
  intros H Hl. exists (drop (length x) buf). unfold lenZ in Hl. split.
  - rewrite <- (take_drop (length x) buf) at 1. f_equal.
    apply (f_equal (take (length x))) in H. rewrite take_app_le, take_app_length in H by lia. done.
  - apply (f_equal (drop (length x))) in H. rewrite drop_app_le, drop_app_length in H by lia. done.
Qed.

Lemma body_lengths got cw dw raw s :
  rx_body got cw dw raw s -> lenZ dw = lenZ cw /\ lenZ got + lenZ cw + lenZ raw = rx_total f.
Proof.
  intros [_ _ _ _ _ _ Hparts _ (k & Hk & Hrun) _ Hpl].
  assert (Hdw : lenZ dw = lenZ cw).
  { destruct (rx_enc f) eqn:E.
    - pose proof (rx_ok_bs _ _ _ Hf). eapply run_crypt_len; [exact remote_crypt_len| |exact Hk|exact Hrun]. lia.
    - by destruct (Hpl eq_refl) as [-> ->]. }
  split; [done|]. apply (f_equal lenZ) in Hparts. rewrite !lenZ_app in Hparts.
  assert (Hl : lenZ (drop 5 (rx_plain f)) = lenZ (rx_plain f) - 5).
  { pose proof (rx_ok_len _ _ _ Hf). pose proof (rx_ok_max _ _ _ Hf).
    unfold lenZ in *. rewrite length_drop. lia. }
  unfold rx_total. lia.
Qed.

Lemma body_remaining got cw dw raw s :
  rx_body got cw dw raw s ->
  tp_total_num (s_packet s) - tp_data_num (s_packet s) = lenZ cw + lenZ raw.
Proof.
  intros Hb. destruct (body_lengths _ _ _ _ _ Hb) as [_ H].
  destruct Hb as [_ -> _ _ _ (q & d & _ & _ & _ & _ & -> & _) _ _ _ _ _]. lia.
Qed.

(** A run of blocks is decrypted into the payload. *)
Lemma body_decrypt j xc got cw dw raw (Q : option Z -> session -> Prop) s :
  rx_body got (xc ++ cw) dw raw s -> rx_enc f = true ->
  lenZ xc = Z.of_nat j * rx_bs f -> lenZ xc <= lenZ (buffered s) -> xc <> [] ->
  (forall d1 d2 s', rx_body (got ++ d1) cw d2 raw s' -> buffered s = xc ++ buffered s' ->
    s_recv s' = s_recv s -> Q None s') ->
  wp (read_decrypt remote_crypt (lenZ xc)) Q s.
Proof.
  intros Hbody Henc Hj Hbuf Hne HQ. pose proof (body_lengths _ _ _ _ _ Hbody) as [Hdl Htot].
  destruct Hbody as [He Ht Hl Hp Hi (q & d & Hq & Hh & Hfr & Hd & Hdn & Hg) Hparts Hinc (k & Hk & Hrun) Hraw Hpl].
  pose proof (rx_ok_bs _ _ _ Hf) as Hbs.
  unfold incoming in Hinc. rewrite <- app_assoc in Hinc.
  destruct (buffer_prefix _ _ _ _ Hinc Hbuf) as (b & Hb & Hinc').
  unfold read_decrypt. do 2 wp_step. fold (buffered s). wp_step.
  eapply wp_access; [apply bytes_at_in; pose proof (lenZ_nonneg xc); lia|].
  unfold buffered in *. rewrite Hb, slice_prefix. wp_step.
  assert (Hkj : (k = j + (k - j))%nat) by (rewrite lenZ_app in Hk; pose proof (lenZ_nonneg cw); nia).
  rewrite Hkj in Hrun. apply run_crypt_split in Hrun as (d1 & d2 & st' & Hr1 & Hr2 & ->); [|lia|done].
  assert (Hd1 : lenZ d1 = lenZ xc) by (eapply run_crypt_len; [exact remote_crypt_len| |exact Hj|exact Hr1]; lia).
  rewrite Hj. eapply wp_decrypt; [lia|by apply He|done|]. rewrite <- Hj. wp_step.
  eapply (wp_read_append q d got xc d1 b); simpl; try done.
  { rewrite !lenZ_app in *. pose proof (lenZ_nonneg d2). pose proof (lenZ_nonneg raw). lia. }
  intros d' Hd' Hg'. wp_step. apply (HQ d1 d2); [|done|done].
  split; simpl; try done.
  - keep_env He.
  - exists q, d'. split; [done|]. split; [done|]. split; [done|]. split; [lia|]. split; [done|done].
  - by rewrite <- Hparts, <- !app_assoc.
  - exists (k - j)%nat. split; [|done]. rewrite lenZ_app in Hk. lia.
  - intros _. destruct (Hraw Henc) as [Hr1' Hr2']. split; [done|]. intros Hcw. apply Hr2'.
    intros [-> _]%app_nil. done.
  - congruence.
Qed.

(** Bytes behind the ciphertext are copied as they are. *)
Lemma body_copy x got raw (Q : option Z -> session -> Prop) s :
  rx_body got [] [] (x ++ raw) s -> lenZ x <= lenZ (buffered s) ->
  (forall s', rx_body (got ++ x) [] [] raw s' -> buffered s = x ++ buffered s' ->
    s_recv s' = s_recv s -> Q None s') ->
  wp (read_copy (lenZ x)) Q s.
Proof.
  intros Hbody Hbuf HQ. pose proof (body_remaining _ _ _ _ _ Hbody) as Hrem.
  pose proof (body_lengths _ _ _ _ _ Hbody) as [Hdl Htot].
  destruct Hbody as [He Ht Hl Hp Hi (q & d & Hq & Hh & Hfr & Hd & Hdn & Hg) Hparts Hinc (k & Hk & Hrun) Hraw Hpl].
  unfold incoming in Hinc. simpl in Hinc. rewrite <- app_assoc in Hinc.
  destruct (buffer_prefix _ _ _ _ Hinc Hbuf) as (b & Hb & Hinc').
  unfold read_copy. do 2 wp_step. rewrite Hrem, lenZ_app. fold (buffered s).
  pose proof (lenZ_nonneg raw). pose proof (lenZ_nonneg (@nil Z)).
  destruct (Z.leb_spec (lenZ x) (lenZ (@nil Z) + (lenZ x + lenZ raw))); [|lia]. wp_step.
  eapply wp_access; [apply bytes_at_in; pose proof (lenZ_nonneg x); lia|].
  unfold buffered in *. rewrite Hb, slice_prefix. wp_step.
  eapply (wp_read_append q d got x x b); simpl; try done.
  { rewrite !lenZ_app in *. pose proof (lenZ_nonneg raw). unfold lenZ in Htot at 2. simpl in Htot. lia. }
  intros d' Hd' Hg'. wp_step. apply HQ; [|done|done].
  split; simpl; try done.
  - keep_env He.
  - exists q, d'. split; [done|]. split; [done|]. split; [done|]. split; [lia|]. split; [done|done].
  - by rewrite <- Hparts, <- !app_assoc.
  - by exists k.
  - intros Henc. destruct (Hraw Henc) as [Hr _]. split; [|done]. rewrite lenZ_app in Hr.
    pose proof (lenZ_nonneg x). lia.
Qed.

(** How much a round decrypts ([j] of the [k] blocks left) and copies ([n] of
    the [R] bytes behind them) when [B] bytes are buffered. *)
Lemma read_split_spec enc bs M p g k R B :
  0 < bs -> tp_data_num p = g -> tp_total_num p = g + k * bs + R -> 0 <= R -> 0 <= k -> 0 <= B ->
  (enc = true -> R <= M /\ (0 < k -> R = M)) -> (enc = false -> k = 0) ->
  exists j n, 0 <= j <= k /\ 0 <= n <= R /\ (0 < n -> j = k) /\ j * bs + n <= B /\
    (bs <= B -> 0 < k * bs + R -> 0 < j * bs + n) /\ (k * bs + R <= B -> j = k /\ n = R) /\
    let '(nd, nb) := read_split enc bs M p (Z.min B (k * bs + R)) in
    (j = 0 /\ nd <= 0 /\ Z.max 0 nb = n) \/ (0 < j /\ nd = j * bs /\ Z.max 0 (nb - nd) = n).
Proof.
  intros Hbs Hg Ht HR Hk HB Henc Hpl. unfold read_split. rewrite Hg, Ht.
  set (m := Z.min B (k * bs + R)). destruct enc.
  2: { rewrite (Hpl eq_refl) in *. exists 0, m. repeat split; lia. }
  destruct (Henc eq_refl) as [HM HkM]. destruct (decide (k = 0)) as [->|Hk0].
  - destruct (Z.ltb_spec (g + 0 * bs + R - M) (g + m)).
    + exists 0, m. repeat split; lia.
    + replace m with 0 by lia. rewrite Z.mod_0_l by lia. simpl. exists 0, 0. repeat split; lia.
  - rewrite HkM in * by lia. destruct (Z.ltb_spec (g + k * bs + M - M) (g + m)).
    + exists k, (m - k * bs). repeat split; nia.
    + pose proof (Z.div_mod m bs ltac:(lia)) as Hdm. pose proof (Z.mod_pos_bound m bs ltac:(lia)) as Hmb.
      assert (0 <= m / bs <= k) by (split; [apply Z.div_pos; nia|nia]).
      exists (m / bs), 0. destruct (Z.eqb_spec (m mod bs) 0) as [E|E]; cbn [negb].
      * repeat split; nia.
      * repeat split; nia.
Qed.

Lemma lenZ_take_drop n (l : list Z) :
  0 <= n <= lenZ l -> lenZ (take (Z.to_nat n) l) = n /\ lenZ (drop (Z.to_nat n) l) = lenZ l - n.
Proof. unfold lenZ. rewrite length_take, length_drop. lia. Qed.

Lemma rx_block_pos : 0 < rx_block f.
Proof. unfold rx_block. destruct (rx_enc f) eqn:E; [pose proof (rx_ok_bs _ _ _ Hf)|]; lia. Qed.

Lemma lenZ_nil_inv (l : list Z) : lenZ l = 0 -> l = [].
Proof. unfold lenZ. destruct l; simpl; [done|lia]. Qed.

(** What a round leaves: the packet complete, or less in the buffer than is
    missing. *)
Definition rx_progress (s : session) (r : option Z) (s' : session) : Prop :=
  r = None /\ s_recv s' = s_recv s /\ lenZ (buffered s') <= lenZ (buffered s) /\
  (rx_block f <= lenZ (buffered s) -> 0 < tp_total_num (s_packet s) - tp_data_num (s_packet s) ->
    lenZ (buffered s') < lenZ (buffered s)) /\
  exists got cw dw raw, rx_body got cw dw raw s' /\
    (cw = [] /\ raw = [] \/ lenZ (buffered s') < lenZ cw + lenZ raw).

(** The copying half of a round. *)
Lemma body_tail nb n got cw dw raw (Q : option Z -> session -> Prop) s :
  rx_body got cw dw raw s -> Z.max 0 nb = n -> n <= lenZ raw -> (0 < n -> cw = []) ->
  n <= lenZ (buffered s) ->
  (forall s', rx_body (got ++ take (Z.to_nat n) raw) cw dw (drop (Z.to_nat n) raw) s' ->
    lenZ (buffered s') = lenZ (buffered s) - n -> s_recv s' = s_recv s -> Q None s') ->
  wp (if 0 <? nb then read_copy nb else ret None) Q s.
Proof.
  intros Hb Hn Hr Hcw Hbuf HQ. pose proof (lenZ_nonneg cw). destruct (Z.ltb_spec 0 nb).
  - assert (n = nb) as -> by lia. rewrite Hcw in * by lia.
    destruct (lenZ_take_drop nb raw ltac:(lia)) as [Hx Hy].
    assert (dw = []) as -> by (apply lenZ_nil_inv; by destruct (body_lengths _ _ _ _ _ Hb) as [-> _]).
    rewrite <- (take_drop (Z.to_nat nb) raw) in Hb. set (x := take (Z.to_nat nb) raw) in *. rewrite <- Hx.
    eapply body_copy; [done|lia|]. intros s' Hb' Heq Hrecv. apply HQ; [done| |done].
    rewrite Heq, lenZ_app. lia.
  - assert (n = 0) as -> by lia. wp_step. apply HQ; [|lia|done]. by rewrite take_0, drop_0, app_nil_r.
Qed.

Lemma read_body_ok got cw dw raw s :
  rx_body got cw dw raw s -> wp (read_body remote_crypt (rx_enc f) (rx_block f)) (rx_progress s) s.
Proof.
  intros Hb. pose proof Hb as [He _ _ _ _ _ _ _ (k0 & Hk0 & _) Hraw Hpl].
  assert (exists k, 0 <= k /\ lenZ cw = k * rx_block f /\ (rx_enc f = false -> k = 0)) as (k & Hk & Hcw & Hkp).
  { unfold rx_block. destruct (rx_enc f); [exists (Z.of_nat k0); repeat split; [lia|done..]|].
    exists 0. by destruct (Hpl eq_refl) as [-> _]. }
  pose proof (body_remaining _ _ _ _ _ Hb) as Hrem. pose proof rx_block_pos as Hbs.
  pose proof (lenZ_nonneg raw) as HR. pose proof (lenZ_nonneg (buffered s)) as HB.
  unfold read_body. do 4 wp_step. rewrite Hrem, Hcw. fold (buffered s).
  destruct (read_split_spec (rx_enc f) (rx_block f) (ep_mac_len (s_remote s)) (s_packet s)
    (tp_data_num (s_packet s)) k (lenZ raw) (lenZ (buffered s)))
    as (j & n & Hj & Hn & Hnj & HjB & Hprog & Hall & Hsplit); try done; [lia|..].
  { intros E. rewrite (env_mac _ He E). destruct (Hraw E) as [? Hr]. split; [done|]. intros Hk1.
    rewrite Hr; [done|]. intros ->. unfold lenZ in Hcw at 1. simpl in Hcw. nia. }
  destruct (read_split _ _ _ _ _) as [nd nb].
  assert (Hfin : forall got cw dw s1, rx_body got cw dw raw s1 ->
    lenZ (buffered s1) = lenZ (buffered s) - j * rx_block f -> s_recv s1 = s_recv s ->
    lenZ cw = (k - j) * rx_block f -> forall nb', Z.max 0 nb' = n ->
    wp (if 0 <? nb' then read_copy nb' else ret None) (rx_progress s) s1).
  { intros got1 cw1 dw1 s1 Hb1 Hbuf1 Hrecv1 Hcw1 nb' Hnb'.
    eapply (body_tail nb' n); [done|done|lia| |lia|].
    - intros Hn0. rewrite (Hnj Hn0), Z.sub_diag in Hcw1. by apply lenZ_nil_inv.
    - intros s2 Hb2 Hbuf2 Hrecv2. split; [done|]. split; [congruence|]. split; [nia|].
      split; [rewrite Hrem, Hcw; intros HBb Hpos; specialize (Hprog HBb Hpos); lia|].
      do 4 eexists; split; [exact Hb2|].
      destruct (lenZ_take_drop n raw ltac:(lia)) as [_ Hdl]. rewrite Hdl, Hcw1, Hbuf2, Hbuf1.
      destruct (Z_le_gt_dec (k * rx_block f + lenZ raw) (lenZ (buffered s))) as [Hle|Hgt]; [left|right; nia].
      destruct (Hall Hle) as [-> ->]. rewrite Z.sub_diag in Hcw1.
      split; apply lenZ_nil_inv; [done|]. lia. }
  wp_step. destruct Hsplit as [(-> & Hnd & Hnb)|(Hj0 & -> & Hnb)].
  - destruct (Z.ltb_spec 0 nd); [lia|]. wp_step. apply (Hfin got cw dw); try done; lia.
  - assert (E : rx_enc f = true) by (destruct (rx_enc f); [done|specialize (Hkp eq_refl); lia]).
    destruct (Z.ltb_spec 0 (j * rx_block f)); [|nia].
    destruct (lenZ_take_drop (j * rx_block f) cw ltac:(nia)) as [Hx Hy].
    rewrite <- (take_drop (Z.to_nat (j * rx_block f)) cw) in Hb.
    set (xc := take _ cw) in *. rewrite <- Hx.
    eapply (body_decrypt (Z.to_nat j)); [done|done| |lia| |].
    + rewrite Z2Nat.id by lia. rewrite Hx. unfold rx_block. by rewrite E.
    + intros H0. rewrite H0 in Hx. unfold lenZ in Hx at 1. simpl in Hx. lia.
    + intros d1 d2 s1 Hb1 Heq Hrecv1. apply (Hfin _ _ _ _ Hb1); [|done|rewrite Hy, Hcw; lia|by rewrite Hx].
      rewrite Heq, lenZ_app. lia.
Qed.

(** ** The start of a packet *)

Lemma wp_alloc_block_success contents (Q : option ptr -> session -> Prop) s :
  s_alloc s = [] ->
  Q (Some (s_next_ptr s)) (s <| s_heap ::= <[s_next_ptr s := contents]> |>
     <| s_next_ptr := Pos.succ (s_next_ptr s) |>) ->
  wp (alloc_block contents) Q s.
Proof. intros Ha HQ. unfold wp, alloc_block, alloc_outcome, bind, gets, modify, ret. by rewrite Ha. Qed.

(** The first block is decrypted to [p0]; it is [w0] in the buffer. *)
Record rx_head (w0 p0 cw dw raw : list Z) (s : session) : Prop := {
  head_env : rx_env s;
  head_init : rx_enc f = true -> tp_init (s_packet s) = take 5 (rx_plain f);
  head_heap : s_heap s = h;
  head_fresh : h !! s_next_ptr s = None;
  head_len : lenZ w0 = rx_block f /\ lenZ p0 = rx_block f;
  head_plain : exists y, rx_plain f = p0 ++ y;
  head_parts : drop 5 p0 ++ dw ++ raw = drop 5 (rx_plain f) ++ rx_mac f;
  head_incoming : exists b, buffered s = w0 ++ b /\ b ++ recv_bytes (s_recv s) = cw ++ raw ++ rest;
  head_crypt : exists k, lenZ cw = Z.of_nat k * rx_bs f /\
    run_crypt remote_crypt k (rx_bs f) (ep_crypt_abstract (s_remote s)) cw = Some (dw, st1);
  head_raw : rx_enc f = true -> lenZ raw <= lenZ (rx_mac f) /\ (cw <> [] -> raw = rx_mac f);
  head_nocrypt : rx_enc f = false -> cw = [] /\ dw = []
}.

(** The effect of the fields of the first block. *)
Definition head_done (p0 cw dw raw b : list Z) (s : session) (r : option Z) (s' : session) : Prop :=
  r = None /\ rx_body (drop 5 p0) cw dw raw s' /\ s_recv s' = s_recv s /\ buffered s' = b.

Lemma read_alloc_ok w0 p0 cw dw raw b s :
  rx_head w0 p0 cw dw raw s -> buffered s = w0 ++ b ->
  wp (read_alloc (rx_enc f) (rx_block f) p0) (head_done p0 cw dw raw b s)
    (s <| s_packet ::= fun p => p <| tp_buf := b |> <| tp_packet_length := rx_len f |>
       <| tp_padding_length := rx_pad f |> |>).
Proof.
  intros [He Hi Hh Hfr [Hw0 Hp0] [y Hy] Hparts (b' & Hb' & Hinc) Hcr Hraw Hnc] Hb.
  assert (b' = b) as -> by (rewrite Hb' in Hb; by apply app_inv_head in Hb).
  pose proof (rx_ok_total _ _ _ Hf) as Htot. pose proof (rx_ok_len _ _ _ Hf) as Hlen.
  assert (Ht : rx_len f - 1 + (if rx_enc f then ep_mac_len (s_remote s) else 0) = rx_total f).
  { unfold rx_total. destruct (rx_enc f) eqn:E; [rewrite (env_mac _ He E); lia|].
    destruct (rx_ok_plain _ _ _ Hf E) as [-> _]. unfold lenZ at 2. simpl. lia. }
  assert (Hd5 : lenZ (drop 5 p0) = rx_block f - 5).
  { unfold lenZ in *. rewrite length_drop. unfold rx_block in *. destruct (rx_enc f) eqn:E; [|lia].
    pose proof (rx_ok_bs _ _ _ Hf). lia. }
  assert (Hfit : rx_block f - 5 <= rx_total f).
  { unfold rx_total. rewrite Hy, lenZ_app. pose proof (lenZ_nonneg y). pose proof (lenZ_nonneg (rx_mac f)). lia. }
  unfold read_alloc. do 4 wp_step. simpl. rewrite Ht.
  destruct (Z.ltb_spec LIBSSH2_PACKET_MAXPAYLOAD (rx_total f)); [lia|].
  destruct (Z.eqb_spec (rx_total f) 0); [lia|]. cbn [orb].
  wp_step. apply wp_alloc_block_success; [by apply He|]. simpl. rewrite Hh.
  set (q := s_next_ptr s). set (z := replicate _ 0).
  assert (Hz : lenZ z = rx_total f) by (unfold z, lenZ; rewrite length_replicate; lia).
  unfold set_packet. do 2 wp_step. wp_step.
  - destruct (Z.leb_spec (rx_block f - 5) (rx_total f)); [|lia]. wp_step.
    eapply wp_write_block; simpl; [apply lookup_insert_eq|done|lia|]. wps.
    split; [done|]. split; [|done]. split; simpl; try done; [keep_env He|].
    exists q. eexists. split; [done|]. split; [by rewrite insert_insert_eq|]. split; [done|].
    split; [etrans; [apply (lenZ_write 0 (drop 5 p0) z); lia|done]|]. split; [done|]. apply take_app_length.
  - breflect. assert (Hn : drop 5 p0 = []) by (apply lenZ_nil_inv; pose proof (lenZ_nonneg (drop 5 p0)); lia).
    rewrite Hn in *. wps. split; [done|]. rewrite Hn. split; [|done]. split; simpl; try done; [keep_env He|].
    by exists q, z.
Qed.

Lemma read_lengths_ok w0 p0 cw dw raw b s :
  rx_head w0 p0 cw dw raw s -> buffered s = w0 ++ b ->
  wp (read_lengths (rx_enc f) (rx_block f) p0) (head_done p0 cw dw raw b s) s.
Proof.
  intros Hh Hb. pose proof Hh as [_ _ _ _ [Hw0 Hp0] [y Hy] _ _ _ _ _].
  assert (H5 : 5 <= rx_block f).
  { unfold rx_block. destruct (rx_enc f) eqn:E; [pose proof (rx_ok_bs _ _ _ Hf)|]; lia. }
  pose proof (rx_ok_max _ _ _ Hf). pose proof (rx_ok_pad _ _ _ Hf).
  unfold read_lengths, set_packet. do 3 wp_step.
  assert (Hl : ntohu32 p0 0 = Some (rx_len f)).
  { rewrite <- (rx_ok_len_field _ _ _ Hf), Hy. unfold ntohu32. rewrite !byte_at_app_l by lia. done. }
  assert (Hp : byte_at p0 4 = Some (rx_pad f)).
  { by rewrite <- (rx_ok_pad_field _ _ _ Hf), Hy, byte_at_app_l by lia. }
  eapply wp_access; [done|]. do 2 wp_step.
  destruct (Z.ltb_spec (rx_len f) 1); [lia|].
  destruct (Z.ltb_spec LIBSSH2_PACKET_MAXPAYLOAD (rx_len f)); [lia|]. wp_step.
  eapply wp_access; [done|]. do 2 wp_step. destruct (Z.ltb_spec (rx_len f - 1) (rx_pad f)); [lia|].
  assert (Hd : drop (Z.to_nat (rx_block f)) (buffered s) = b).
  { rewrite Hb, <- Hw0. unfold lenZ. by rewrite Nat2Z.id, drop_app_length. }
  simpl. fold (buffered s). rewrite Hd. by eapply read_alloc_ok.
Qed.

(** The first [n] bytes of a list that is long enough. *)
Lemma split_at n (l : list Z) : 0 <= n <= lenZ l -> exists x y, l = x ++ y /\ lenZ x = n.
Proof.
  intros H. exists (take (Z.to_nat n) l), (drop (Z.to_nat n) l). split; [by rewrite take_drop|].
  by apply lenZ_take_drop.
Qed.

Lemma read_start_plain b0 b s :
  rx_start s -> rx_enc f = false -> buffered s = b0 ++ b -> lenZ b0 = 5 ->
  exists raw, rx_head b0 b0 [] [] raw s.
Proof.
  intros [He Ht Hinc Hc Hh Hfr] E Hb H5. destruct (rx_ok_plain _ _ _ Hf E) as [Hm Hst].
  assert (Hbl : rx_block f = 5) by (unfold rx_block; by rewrite E).
  assert (Hpl : exists y, rx_plain f = b0 ++ y /\ b ++ recv_bytes (s_recv s) = y ++ rest).
  { unfold incoming, rx_wire in Hinc. fold (buffered s) in Hinc.
    rewrite E, Hm, app_nil_r, Hb, <- app_assoc in Hinc. symmetry in Hinc.
    destruct (buffer_prefix _ _ _ _ Hinc) as (y & Hy & Hr); [|by exists y].
    rewrite H5, (rx_ok_len _ _ _ Hf). pose proof (rx_ok_max _ _ _ Hf). lia. }
  destruct Hpl as (y & Hy & Hr). exists y.
  assert (Hd : drop 5 b0 = []) by (apply lenZ_nil_inv; unfold lenZ in *; rewrite length_drop; lia).
  split; try done; try (by rewrite E).
  - by rewrite Hbl.
  - by exists y.
  - rewrite Hd, Hy, Hm, app_nil_r. simpl. rewrite drop_app_le, Hd by (unfold lenZ in H5; lia). done.
  - by exists b.
  - exists 0%nat. simpl. by rewrite Hc, Hst.
Qed.

Lemma read_start_crypt b0 b s :
  rx_start s -> rx_enc f = true -> buffered s = b0 ++ b -> lenZ b0 = rx_bs f ->
  exists p0 cw dw st', run_crypt remote_crypt 1 (rx_bs f) st0 b0 = Some (p0, st') /\
    rx_head b0 p0 cw dw (rx_mac f)
      (set_remote_crypt st' s <| s_packet ::= fun p => p <| tp_init := take 5 p0 |> |>).
Proof.
  intros [He Ht Hinc Hc Hh Hfr] E Hb H0. destruct (rx_ok_crypt _ _ _ Hf E) as (k & Hpk & Hcl & Hrun).
  pose proof (rx_ok_bs _ _ _ Hf) as Hbs.
  assert (Hbl : rx_block f = rx_bs f) by (unfold rx_block; by rewrite E).
  assert (Hcw : exists cw, rx_cipher f = b0 ++ cw /\ b ++ recv_bytes (s_recv s) = cw ++ rx_mac f ++ rest).
  { unfold incoming, rx_wire in Hinc. fold (buffered s) in Hinc.
    rewrite E, Hb, <- !app_assoc in Hinc. symmetry in Hinc.
    destruct (buffer_prefix _ _ _ _ Hinc) as (y & Hy & Hr); [nia|]. by exists y. }
  destruct Hcw as (cw & Hcw & Hr). rewrite Hcw in Hrun. change (S k) with (1 + k)%nat in Hrun.
  apply run_crypt_split in Hrun as (p0 & dw & st' & Hr1 & Hr2 & Hpd); [|lia..].
  assert (Hp0 : lenZ p0 = lenZ b0) by (eapply run_crypt_len; [exact remote_crypt_len| | |exact Hr1]; lia).
  exists p0, cw, dw, st'. split; [done|]. split; simpl; try done.
  - keep_env He.
  - intros _. rewrite Hpd. rewrite take_app_le; [done|]. unfold lenZ in *. lia.
  - by rewrite Hbl, Hp0.
  - by exists dw.
  - rewrite Hpd, drop_app_le by (unfold lenZ in *; lia). by rewrite <- app_assoc.
  - by exists b.
  - exists k. split; [|done]. rewrite Hcw, lenZ_app in Hcl. lia.
  - by rewrite E.
Qed.

(** Too little is buffered for the first block, or the body begins. *)
Definition rx_started (s : session) (r : option Z) (s' : session) : Prop :=
  s_recv s' = s_recv s /\
  (r = Some LIBSSH2_ERROR_EAGAIN /\ lenZ (buffered s) < rx_block f /\ rx_start s' \/
   r = None /\ lenZ (buffered s') < lenZ (buffered s) /\ exists got cw dw raw, rx_body got cw dw raw s').

Lemma read_start_ok s :
  rx_start s ->
  wp (read_start remote_crypt (rx_enc f) (rx_block f)) (rx_started s) s.
Proof.
  intros Hs. pose proof rx_block_pos as Hpos. unfold read_start. do 2 wp_step. fold (buffered s).
  destruct (Z.ltb_spec (lenZ (buffered s)) (rx_block f)).
  { unfold block_inbound. wps. split; [done|]. left. split; [done|]. split; [done|].
    destruct Hs as [He ? ? ? ? ?]. split; try done. keep_env He. }
  wp_step. eapply wp_access; [apply bytes_at_in; lia|].
  destruct (split_at (rx_block f) (buffered s)) as (b0 & b & Hb & Hb0); [lia|].
  assert (Hsl : slice 0 (rx_block f) (buffered s) = b0) by (rewrite Hb, <- Hb0; apply slice_prefix).
  rewrite Hsl.
  assert (Hend : forall p0 cw dw raw s1, rx_head b0 p0 cw dw raw s1 -> buffered s1 = b0 ++ b ->
    s_recv s1 = s_recv s -> wp (read_lengths (rx_enc f) (rx_block f) p0) (rx_started s) s1).
  { intros p0 cw dw raw s1 Hh Hb1 Hr1. eapply wp_mono; [by eapply read_lengths_ok|].
    intros r s' (-> & Hbody & Hr & Hbs). split; [congruence|]. right. split; [done|].
    split; [rewrite Hbs, Hb, lenZ_app; lia|]. eauto 10. }
  destruct (rx_enc f) eqn:E; rewrite <- E in *.
  - destruct (read_start_crypt b0 b s Hs E Hb) as (p0 & cw & dw & st' & Hrun & Hh);
      [rewrite Hb0; unfold rx_block; by rewrite E|].
    wp_step. replace (rx_block f) with (Z.of_nat 1 * rx_bs f) by (unfold rx_block; rewrite E; lia).
    eapply wp_decrypt; [|by apply Hs| |].
    + pose proof (rx_ok_bs _ _ _ Hf). lia.
    + by rewrite (start_crypt _ Hs).
    + unfold set_packet. do 2 wp_step. replace (Z.of_nat 1 * rx_bs f) with (rx_block f) by (unfold rx_block; rewrite E; lia).
      by apply (Hend p0 cw dw (rx_mac f)).
  - destruct (read_start_plain b0 b s Hs E Hb) as (raw & Hh); [rewrite Hb0; unfold rx_block; by rewrite E|].
    by apply (Hend b0 [] [] raw).
Qed.

(** ** The collecting loop *)

(** Between two rounds: before the packet, or inside it with less in the buffer
    than is missing. *)
Definition rx_state (s : session) : Prop :=
  rx_start s \/
  exists got cw dw raw, rx_body got cw dw raw s /\ lenZ (buffered s) < lenZ cw + lenZ raw.

(** The whole packet is in its payload block. *)
Definition rx_done (s : session) : Prop := exists got, rx_body got [] [] [] s.

Lemma rx_state_env s : rx_state s -> rx_env s.
Proof. intros [[]|(? & ? & ? & ? & [] & _)]; done. Qed.

Lemma rx_state_refilled s s' : rx_state s -> refilled s s' -> rx_start s' \/ exists got cw dw raw, rx_body got cw dw raw s'.
Proof.
  intros [Hs|(got & cw & dw & raw & Hb & _)] Hr; [left; by eapply refilled_start|].
  right. exists got, cw, dw, raw. by eapply refilled_body.
Qed.

Lemma wire_block : rx_block f <= lenZ (rx_wire f).
Proof.
  unfold rx_block, rx_wire. rewrite lenZ_app. pose proof (lenZ_nonneg (rx_mac f)).
  destruct (rx_enc f) eqn:E.
  - destruct (rx_ok_crypt _ _ _ Hf E) as (k & ? & ? & _). pose proof (rx_ok_bs _ _ _ Hf). nia.
  - rewrite (rx_ok_len _ _ _ Hf). pose proof (rx_ok_max _ _ _ Hf). lia.
Qed.

(** With nothing more to come, what is buffered is enough. *)
Lemma rx_state_drained s : rx_state s -> s_recv s = [] -> rx_block f <= lenZ (buffered s).
Proof.
  intros Hs Hr. assert (Hi : incoming s = buffered s) by (unfold incoming; by rewrite Hr, app_nil_r).
  destruct Hs as [[_ _ Hinc _ _ _]|(got & cw & dw & raw & [_ _ _ _ _ _ _ Hinc _ _ _] & Hlt)].
  - rewrite <- Hi, Hinc, lenZ_app. pose proof wire_block. pose proof (lenZ_nonneg rest). lia.
  - rewrite <- Hi, Hinc, !lenZ_app in Hlt. pose proof (lenZ_nonneg rest). lia.
Qed.

(** The loop ends with the packet, or blocks with the stream moved on. *)
Definition rx_result (s : session) (r : assembled) (s' : session) : Prop :=
  r = AFull (rx_enc f) /\ rx_done s' \/
  r = AReturn LIBSSH2_ERROR_EAGAIN /\ rx_state s' /\ (length (s_recv s') < length (s_recv s))%nat.

(** The end of a round. *)
Lemma round_end fuel s s1 :
  (exists got cw dw raw, rx_body got cw dw raw s1) ->
  (length (s_recv s1) <= length (s_recv s))%nat ->
  ((rx_measure s1 < rx_measure s)%nat \/
   rx_measure s1 = rx_measure s /\ rx_block f <= lenZ (buffered s1) /\
     0 < tp_total_num (s_packet s1) - tp_data_num (s_packet s1)) ->
  (forall s2, rx_state s2 -> (rx_measure s2 < rx_measure s)%nat ->
    wp (assemble remote_crypt fuel) (rx_result s2) s2) ->
  wp (let! early := read_body remote_crypt (rx_enc f) (rx_block f) in
      match early with
      | Some rc => ret (AReturn rc)
      | None =>
          let! p := gets s_packet in
          if tp_total_num p - tp_data_num p =? 0 then ret (AFull (rx_enc f))
          else assemble remote_crypt fuel
      end) (rx_result s) s1.
Proof.
  intros (got & cw & dw & raw & Hb) Hr Hm IH. wp_step. eapply wp_mono; [by eapply read_body_ok|].
  intros r s2 (-> & Hr2 & Hle & Hlt & got2 & cw2 & dw2 & raw2 & Hb2 & Hend). do 2 wp_step.
  rewrite (body_remaining _ _ _ _ _ Hb2).
  pose proof (lenZ_nonneg cw2) as H1. pose proof (lenZ_nonneg raw2) as H2.
  wp_step; breflect.
  - wp_step. left. split; [done|]. assert (Hc : cw2 = []) by (apply lenZ_nil_inv; lia).
    assert (Hw : raw2 = []) by (apply lenZ_nil_inv; lia). subst. exists got2.
    assert (dw2 = []) as -> by (apply lenZ_nil_inv; by destruct (body_lengths _ _ _ _ _ Hb2) as [-> _]). done.
  - assert (Hs2 : rx_state s2).
    { right. exists got2, cw2, dw2, raw2. split; [done|]. destruct Hend as [[-> ->]|?]; [done|done]. }
    assert (Hm2 : (rx_measure s2 < rx_measure s)%nat).
    { unfold rx_measure in *. rewrite Hr2. fold (buffered s1) (buffered s2) in *. unfold lenZ in Hlt, Hle.
      destruct Hm as [?|(? & Hblk & Hpos)]; [lia|]. specialize (Hlt Hblk Hpos). lia. }
    eapply wp_mono; [by apply IH|]. intros r s3 [?|(? & ? & ?)]; [by left|]. right. repeat split; try done. rewrite Hr2 in *. lia.
Qed.

Lemma assemble_ok fuel : forall s,
  rx_block f <= PACKETBUFSIZE -> rx_state s -> (rx_measure s < fuel)%nat ->
  wp (assemble remote_crypt fuel) (rx_result s) s.
Proof.
  induction fuel as [|fuel IH]; intros s Hblk Hs Hfuel; [lia|]. cbn [assemble]. pose proof rx_block_pos as Hpos.
  pose proof (rx_state_env _ Hs) as He. do 2 wp_step.
  rewrite (proj2 (Z.eqb_neq _ _) (env_socket _ He)). do 4 wp_step. rewrite (env_enc _ He).
  assert (Hblock : (if rx_enc f then ep_blocksize (s_remote s) else 5) = rx_block f).
  { unfold rx_block. destruct (rx_enc f) eqn:E; [by apply He|done]. }
  rewrite Hblock. wp_step. eapply wp_mono; [apply read_fill_ok; [lia|by apply He]|].
  intros [rc|] s1 [Href Hfill].
  { destruct Hfill as (-> & Hlt & Hbuf & Hrecv). wp_step. right. split; [done|]. split.
    - destruct (Hs) as [Hst|(got & cw & dw & raw & Hb & Hst)]; [left; by eapply refilled_start|].
      right. exists got, cw, dw, raw. split; [by eapply refilled_body|]. by rewrite Hbuf.
    - destruct Hrecv as [Hnil|?]; [|done]. pose proof (rx_state_drained s Hs Hnil). lia. }
  destruct Hfill as [Hlen Hfill]. do 3 wp_step.
  assert (Hle : (rx_measure s1 <= rx_measure s)%nat) by (destruct Hfill as [[-> _]|[? _]]; lia).
  assert (Hnext : forall s2, rx_state s2 -> (rx_measure s2 < rx_measure s)%nat ->
    wp (assemble remote_crypt fuel) (rx_result s2) s2) by (intros; apply IH; [done..|lia]).
  destruct Hs as [Hst|(got & cw & dw & raw & Hb & Hst)].
  - pose proof (refilled_start _ _ Hst Href) as Hst1. rewrite (start_total _ Hst1). cbn [Z.eqb].
    eapply wp_mono; [by apply read_start_ok|]. intros r s2 [Hr [(-> & Hlt & Hst2)|(-> & Hlt & Hb2)]].
    + wp_step. right. split; [done|]. split; [by left|]. rewrite Hr.
      destruct Hfill as [[-> ?]|[_ [?|?]]]; [lia|lia|done].
    + apply round_end; [done|by rewrite Hr| |done]. left.
      unfold rx_measure in *. rewrite Hr. fold (buffered s2) (buffered s1) in *. unfold lenZ in Hlt. lia.
  - pose proof (refilled_body _ _ _ _ _ _ Hb Href) as Hb1. pose proof (rx_ok_total _ _ _ Hf).
    rewrite (body_total _ _ _ _ _ Hb1). destruct (Z.eqb_spec (rx_total f) 0); [lia|]. wp_step.
    apply round_end; [by exists got, cw, dw, raw|done| |done].
    destruct Hfill as [[-> ?]|[? _]]; [right|by left]. split; [done|]. split; [done|].
    rewrite (body_remaining _ _ _ _ _ Hb). lia.
Qed.

(** The documented use of [_libssh2_transport_read]: it is called again as long
    as it would block. *)
Fixpoint collect (n fuel : nat) : CM assembled :=
  let! r := assemble remote_crypt fuel in
  match n, r with
  | S n, AReturn rc => if rc =? LIBSSH2_ERROR_EAGAIN then collect n fuel else ret r
  | _, _ => ret r
  end.

Lemma rx_state_measure s : rx_state s -> (rx_measure s <= 2 * length (rx_wire f ++ rest))%nat.
Proof.
  intros Hs. assert (Hi : (length (incoming s) <= length (rx_wire f ++ rest))%nat).
  { destruct Hs as [[_ _ -> _ _ _]|(got & cw & dw & raw & Hb & _)]; [done|].
    destruct (body_lengths _ _ _ _ _ Hb) as [_ Hl]. destruct Hb as [_ _ _ _ _ _ _ -> _ _ _].
    unfold rx_total, rx_wire, lenZ in *. rewrite !length_app. destruct (rx_enc f) eqn:E; [|lia].
    destruct (rx_ok_crypt _ _ _ Hf E) as (k & _ & Hc & _). unfold lenZ in Hc. lia. }
  unfold rx_measure, incoming in *. rewrite length_app in Hi. lia.
Qed.

Lemma collect_ok n fuel : forall s,
  rx_block f <= PACKETBUFSIZE -> rx_state s -> (length (s_recv s) <= n)%nat ->
  (2 * length (rx_wire f ++ rest) < fuel)%nat ->
  wp (collect n fuel) (fun r s' => r = AFull (rx_enc f) /\ rx_done s') s.
Proof.
  induction n as [|n IH]; intros s Hblk Hs Hn Hfuel; cbn [collect]; wp_step;
    pose proof (rx_state_measure s Hs);
    (eapply wp_mono; [apply assemble_ok; [done|done|lia]|]);
    intros r s' [(-> & Hd)|(-> & Hs' & Hlt)]; try (wp_step; by split); [lia|].
  rewrite Z.eqb_refl. apply IH; [done..|lia|done].
Qed.

(** What [rx_done] says of the state [fullpacket] finds. *)
Lemma rx_done_spec s :
  rx_done s -> exists q, tp_payload (s_packet s) = Some q /\
    s_heap s = <[q := drop 5 (rx_plain f) ++ rx_mac f]> h /\ h !! q = None /\
    tp_packet_length (s_packet s) = rx_len f /\ tp_padding_length (s_packet s) = rx_pad f /\
    (rx_enc f = true -> tp_init (s_packet s) = take 5 (rx_plain f)) /\
    incoming s = rest /\ ep_crypt_abstract (s_remote s) = st1 /\ rx_env s.
Proof.
  intros (got & Hb). destruct (body_lengths _ _ _ _ _ Hb) as [_ Hl].
  destruct Hb as [He Ht Hlen Hp Hi (q & d & Hq & Hh & Hfr & Hd & Hdn & Hg) Hparts Hinc (k & Hk & Hrun) Hraw Hpl].
  rewrite !app_nil_r in Hparts. unfold lenZ in Hl at 2 3. simpl in Hl.
  assert (d = got) as -> by (rewrite <- Hg at 1; rewrite take_ge; [done|unfold lenZ in *; lia]).
  exists q. rewrite <- Hparts. repeat split; try done; [|by apply He..].
  destruct k; [by injection Hrun|]. unfold lenZ in Hk. simpl in Hk.
  pose proof (rx_ok_bs _ _ _ Hf). lia.
Qed.
End Receive.
