(* ===== verification/TransportSafety.v ===== *)
(** * Collecting packets from an arbitrary peer

    Before keys are in use nothing the peer sends is authenticated. Whatever
    bytes arrive, in whatever pieces, and whatever the socket and the allocator
    return, the collecting loop of [_libssh2_transport_read] stays inside its
    buffers and keeps the connection layer's invariant. *)

From stdpp Require Import base numbers list gmap strings.
From S2P Require Import Prelude Codes Wire Session ChannelWindow Packet PacketAdd Conn Comp PacketSafety PacketSpec Transport TransportSpec TransportReceive.

(** ** Blocks outside the queue *)

Lemma conn_ok_alloc s al d :
  conn_ok s -> bytes_ok d ->
  conn_ok (s <| s_alloc := al |> <| s_heap ::= <[s_next_ptr s := d]> |>
             <| s_next_ptr := Pos.succ (s_next_ptr s) |>).
Proof.
  intros [H1 H2 H3 H4 H5 H6 H7 H8 H9] Hd. split; simpl; try done.
  - by apply map_Forall_insert_2.
  - eapply Forall_impl; [done|]. intros p (d' & Hp & ?). exists d'. split; [|done].
    rewrite lookup_insert_ne; [done|]. intros E. rewrite <- E, H9 in Hp; [done|lia].
  - intros p Hp. apply H7. lia.
  - intros p Hp. rewrite lookup_insert_ne by lia. apply H9. lia.
Qed.

Lemma conn_ok_write s q d d' :
  conn_ok s -> s_heap s !! q = Some d -> q ∉ pk_data <$> packets s -> bytes_ok d' ->
  conn_ok (s <| s_heap ::= <[q := d']> |>).
Proof.
  intros [H1 H2 H3 H4 H5 H6 H7 H8 H9] Hq Hown Hd. split; simpl; try done.
  - by apply map_Forall_insert_2.
  - rewrite Forall_forall in *. intros p Hp. destruct (H5 p Hp) as (x & Hx & ?). exists x. split; [|done].
    rewrite lookup_insert_ne; [done|]. intros ->. apply Hown, list_elem_of_fmap. eauto.
  - intros p Hp. rewrite lookup_insert. case_decide as E; [|by apply H9]. subst q. by rewrite H9 in Hq.
Qed.

(** ** The reading state *)

(** A packet being read: its payload block is live, as large as announced, and
    not in the queue. *)
Record partial (s : session) : Prop := {
  part_block : exists q d, tp_payload (s_packet s) = Some q /\ s_heap s !! q = Some d /\
    lenZ d = tp_total_num (s_packet s) /\ q ∉ pk_data <$> packets s;
  part_total : 1 <= tp_total_num (s_packet s) <= LIBSSH2_PACKET_MAXPAYLOAD;
  part_length : tp_packet_length (s_packet s) = tp_total_num (s_packet s) + 1;
  part_padding : 0 <= tp_padding_length (s_packet s) <= tp_packet_length (s_packet s) - 1;
  part_data : 0 <= tp_data_num (s_packet s) <= tp_total_num (s_packet s)
}.

Record reading (s : session) : Prop := {
  rd_conn : conn_ok s;
  rd_plain : state_has s LIBSSH2_STATE_NEWKEYS = false;
  rd_bytes : bytes_ok (incoming s);
  rd_packet : tp_total_num (s_packet s) = 0 \/ partial s
}.

(** The rest of the state of an unfinished read is as it was. *)
Lemma reading_keep s s' :
  reading s -> same_conn s s' -> s_state s' = s_state s -> bytes_ok (incoming s') ->
  tp_payload (s_packet s') = tp_payload (s_packet s) ->
  tp_total_num (s_packet s') = tp_total_num (s_packet s) ->
  tp_packet_length (s_packet s') = tp_packet_length (s_packet s) ->
  tp_padding_length (s_packet s') = tp_padding_length (s_packet s) ->
  tp_data_num (s_packet s') = tp_data_num (s_packet s) -> reading s'.
Proof.
  intros [Hc Hp _ Hpk] Hs Hst Hb E1 E2 E3 E4 E5. split; [by eapply same_conn_ok| |done|].
  - unfold state_has in *. by rewrite Hst.
  - rewrite E2. destruct Hpk as [?|[(q & d & Hq) Ht Hl Hpd Hd]]; [by left|right].
    destruct Hs as [_ Hh Hpks _ _ _ _ _]. split; rewrite ?E2, ?E3, ?E4, ?E5; try done.
    exists q, d. by rewrite E1, Hh, Hpks.
Qed.

(** [socket_recv], whatever the socket does: bytes come from the stream. *)
Lemma wp_socket_recv_any n (Q : Z + list Z -> session -> Prop) s :
  0 <= n ->
  (forall rc l, recv_bytes l = recv_bytes (s_recv s) -> Q (inl rc) (s <| s_recv := l |>)) ->
  (forall bs l, bs ++ recv_bytes l = recv_bytes (s_recv s) -> Q (inr bs) (s <| s_recv := l |>)) ->
  wp (socket_recv n) Q s.
Proof.
  intros Hn Hfail Hget. unfold wp, socket_recv. destruct (s_recv s) as [|[bs|rc] l] eqn:E.
  - specialize (Hfail (- EAGAIN) [] eq_refl).
    replace (s <| s_recv := [] |>) with s in Hfail by (destruct s; simpl in E; by subst). done.
  - destruct (lenZ bs <=? n); [by apply Hget|]. apply Hget. unfold recv_bytes. simpl.
    by rewrite app_assoc, take_drop.
  - by apply Hfail.
Qed.

Lemma read_fill_any s :
  reading s ->
  wp (read_fill 5) (fun r s' => reading s' /\
    match r with
    | None => (s' = s /\ 5 <= lenZ (buffered s)) \/
        (rx_measure s' < rx_measure s)%nat /\ tp_total_num (s_packet s') = tp_total_num (s_packet s)
    | Some rc => rc < 0
    end) s.
Proof.
  intros Hr. pose proof (rd_bytes _ Hr) as Hb. unfold read_fill. do 2 wp_step. fold (buffered s). wp_step; breflect.
  2: { wp_step. split; [done|]. by left. }
  wp_step. apply wp_socket_recv_any; [unfold PACKETBUFSIZE; lia|..].
  - intros rc l Hl. assert (Hk : forall d, reading (s <| s_recv := l |> <| socket_block_directions := d |>)).
    { intros d. eapply (reading_keep s); try done. unfold incoming in *. simpl. by rewrite Hl. }
    wp_step; [unfold block_inbound; do 3 wp_step; split; [apply Hk|done]|].
    wp_step. split; [|done]. specialize (Hk (socket_block_directions s)).
    by replace (s <| s_recv := l |> <| socket_block_directions := socket_block_directions s |>)
      with (s <| s_recv := l |>) in Hk by by destruct s.
  - intros bs l Hl.
    assert (Hk : forall b, b ++ bs ++ recv_bytes l = incoming s ->
      reading (s <| s_recv := l |> <| s_packet ::= fun p => p <| tp_buf := b ++ bs |> |>)).
    { intros b Eb. eapply (reading_keep s); try done. unfold incoming in *. simpl.
      by rewrite <- app_assoc, Eb. }
    wp_step; breflect.
    + unfold set_packet. do 3 wp_step. split; [apply Hk; unfold incoming; by rewrite Hl|]. right.
      split; [|done]. unfold rx_measure. simpl. rewrite length_app. apply (f_equal length) in Hl. rewrite length_app in Hl.
      unfold lenZ in *. lia.
    + wp_step. split; [|done]. assert (bs = []) as -> by (apply lenZ_nil_inv; pose proof (lenZ_nonneg bs); lia).
      eapply (reading_keep s); try done. unfold incoming in *. simpl in *. by rewrite Hl.
Qed.

(** ** The start of a packet *)

(** Between packets the fields of the packet do not matter. *)
Lemma reading_between s s' :
  reading s -> same_conn s s' -> s_state s' = s_state s -> bytes_ok (incoming s') ->
  tp_total_num (s_packet s') = 0 -> reading s'.
Proof.
  intros [Hc Hp _ _] Hs Hst Hb Ht. split; [by eapply same_conn_ok| |done|by left].
  unfold state_has in *. by rewrite Hst.
Qed.

Lemma incoming_drop s n : bytes_ok (incoming s) -> bytes_ok (drop n (buffered s) ++ recv_bytes (s_recv s)).
Proof. unfold incoming, buffered. intros [Hb Hr]%Forall_app. apply Forall_app. split; [by apply Forall_drop|done]. Qed.

Lemma read_alloc_any b s :
  reading s -> tp_total_num (s_packet s) = 0 -> 1 <= tp_packet_length (s_packet s) ->
  0 <= tp_padding_length (s_packet s) <= tp_packet_length (s_packet s) - 1 ->
  wp (read_alloc false 5 b) (fun r s' => reading s' /\ rx_measure s' = rx_measure s /\
    match r with None => partial s' | Some rc => rc < 0 end) s.
Proof.
  intros Hr Ht Hl Hp. pose proof Hr as [Hc Hk Hb _]. unfold read_alloc. do 4 wp_step. rewrite Z.add_0_r.
  wp_step; [wp_step; by split|]. breflect. wp_step. apply wp_alloc_block; intros al.
  - unfold set_packet. do 3 wp_step. split; [|done]. by eapply (reading_between s).
  - unfold set_packet. do 2 wp_step. cbn [Z.ltb Z.compare Pos.compare Pos.compare_cont]. do 3 wp_step.
    set (z := replicate _ 0). assert (Hz : bytes_ok z) by (by apply Forall_replicate).
    pose proof (conn_ok_alloc s al z Hc Hz) as Hc'.
    assert (Hown : s_next_ptr s ∉ pk_data <$> packets s).
    { intros (p & E & Hin)%list_elem_of_fmap. pose proof (ok_packets s Hc) as Hps. rewrite Forall_forall in Hps.
      destruct (Hps p Hin) as (d & Hd & _). rewrite <- E, (ok_heap_fresh s Hc) in Hd; [done|lia]. }
    match goal with |- reading ?x /\ _ => assert (Hpart : partial x) end.
    { split; simpl; try done; try lia. exists (s_next_ptr s), z. split; [done|].
      split; [apply lookup_insert_eq|]. split; [|done]. unfold z, lenZ. rewrite length_replicate. lia. }
    split; [|done]. split; [|done|done|by right]. eapply same_conn_ok; [|exact Hc']. by split.
Qed.

Lemma read_lengths_any b s :
  reading s -> tp_total_num (s_packet s) = 0 -> bytes_ok b -> lenZ b = 5 -> 5 <= lenZ (buffered s) ->
  wp (read_lengths false 5 b) (fun r s' => reading s' /\ (rx_measure s' < rx_measure s)%nat /\
    match r with None => partial s' | Some rc => rc < 0 end) s.
Proof.
  intros Hr Ht Hbb Hb5 Hbuf. pose proof (rd_bytes _ Hr) as Hin. unfold read_lengths, set_packet.
  do 3 wp_step. destruct (ntohu32_in b 0) as [len Hlen]; [lia..|]. pose proof (ntohu32_range _ _ _ Hbb Hlen) as Hlr.
  eapply wp_access; [done|]. do 2 wp_step. set (buf := drop (Z.to_nat 5) (buffered s)).
  assert (Hk : forall pad, reading (s <| s_packet ::= fun p => p <| tp_buf := buf |>
      <| tp_packet_length := len |> <| tp_padding_length := pad |> |>)).
  { intros pad. eapply (reading_between s); try done. exact (incoming_drop s (Z.to_nat 5) Hin). }
  assert (Hm : (2 * length (recv_bytes (s_recv s)) + length buf < rx_measure s)%nat).
  { unfold rx_measure, buf. fold (buffered s). rewrite length_drop. unfold lenZ in Hbuf. lia. }
  wp_step; [wp_step; split; [exact (Hk (tp_padding_length (s_packet s)))|by split]|].
  wp_step; [wp_step; split; [exact (Hk (tp_padding_length (s_packet s)))|by split]|].
  breflect. wp_step. destruct (byte_at_in b 4) as [pad Hpad]; [lia|]. pose proof (byte_at_byte _ _ _ Hbb Hpad) as Hpr.
  eapply wp_access; [done|]. do 2 wp_step. wp_step; [wp_step; split; [exact (Hk pad)|by split]|]. breflect.
  unfold is_byte in Hpr. eapply wp_mono; [apply read_alloc_any; [exact (Hk pad)|done|simpl; lia|simpl; lia]|].
  intros r s' (Hrd & Hms & Hres). split; [done|]. split; [|done]. rewrite Hms. exact Hm.
Qed.

Section Plain.
Context (remote_crypt : list Z -> list Z -> option (list Z * list Z)).

Lemma read_start_any s :
  reading s -> tp_total_num (s_packet s) = 0 ->
  wp (read_start remote_crypt false 5) (fun r s' => reading s' /\
    match r with
    | None => partial s' /\ (rx_measure s' < rx_measure s)%nat
    | Some rc => rc < 0
    end) s.
Proof.
  intros Hr Ht. unfold read_start. do 2 wp_step. fold (buffered s). wp_step; breflect.
  { unfold block_inbound. do 3 wp_step. split; [|done]. eapply (reading_between s); try done. apply Hr. }
  wp_step. eapply wp_access; [apply bytes_at_in; lia|].
  assert (Hb : bytes_ok (slice 0 5 (buffered s))).
  { apply slice_bytes_ok. pose proof (rd_bytes _ Hr) as Hin. by apply Forall_app in Hin as [? _]. }
  eapply wp_mono; [apply read_lengths_any; [done|done|done|apply lenZ_slice; lia|lia]|].
  intros [rc|] s' (Hrd & Hm & Hres); by split.
Qed.

(** ** One round for the body *)

Lemma read_append_any n bytes s :
  reading s -> partial s -> lenZ bytes = n -> 0 < n <= tp_total_num (s_packet s) - tp_data_num (s_packet s) ->
  n <= lenZ (buffered s) -> bytes_ok bytes ->
  wp (read_append n bytes) (fun _ s' => reading s' /\ partial s' /\ (rx_measure s' < rx_measure s)%nat) s.
Proof.
  intros Hr Hp Hn Hrem Hbuf Hb. pose proof Hr as [Hc Hk Hin _].
  pose proof Hp as [(q & d & Hq & Hd & Hl & Hown) Ht Hpl Hpd Hdn].
  unfold read_append. do 2 wp_step. wp_step. eapply wp_access; [done|]. wp_step.
  eapply wp_write_block; [done|lia|lia|]. unfold set_packet. wp_step. set (d' := _ ++ bytes ++ _).
  assert (Hd' : lenZ d' = lenZ d) by (apply lenZ_write; lia).
  assert (Hbd : bytes_ok d') .
  { pose proof (ok_heap s Hc q d Hd) as Hbd. apply Forall_app. split; [by apply Forall_take|].
    apply Forall_app. split; [done|by apply Forall_drop]. }
  pose proof (conn_ok_write s q d d' Hc Hd Hown Hbd) as Hc'.
  match goal with |- reading ?x /\ _ => assert (Hpart : partial x) end.
  { split; simpl; try done; [|lia]. exists q, d'. split; [done|]. split; [apply lookup_insert_eq|].
    split; [lia|done]. }
  split; [|split; [done|]].
  - split; [eapply same_conn_ok; [|exact Hc']; by split|done|exact (incoming_drop s _ Hin)|by right].
  - unfold rx_measure. simpl. fold (buffered s). rewrite length_drop. unfold lenZ in Hbuf. lia.
Qed.

Lemma read_body_any s :
  reading s -> partial s ->
  wp (read_body remote_crypt false 5) (fun r s' => r = None /\ reading s' /\ partial s' /\
    (s' = s /\ (tp_total_num (s_packet s) = tp_data_num (s_packet s) \/ buffered s = []) \/
     (rx_measure s' < rx_measure s)%nat)) s.
Proof.
  intros Hr Hp. unfold read_body. do 4 wp_step. fold (buffered s). unfold read_split. cbn beta iota zeta.
  wp_step. change (0 <? 0) with false. wp_step. cbn beta iota. pose proof (part_data _ Hp) as Hd. pose proof (lenZ_nonneg (buffered s)) as H0.
  set (n := Z.min _ _). destruct (Z.ltb_spec 0 n).
  - unfold read_copy. do 2 wp_step.
    destruct (Z.leb_spec n (tp_total_num (s_packet s) - tp_data_num (s_packet s))); [|lia].
    fold (buffered s). wp_step. eapply wp_access; [apply bytes_at_in; lia|]. wp_step.
    eapply wp_mono; [apply read_append_any; [done|done|apply lenZ_slice; lia|lia|lia|]|].
    + apply slice_bytes_ok. pose proof (rd_bytes _ Hr) as Hin. by apply Forall_app in Hin as [? _].
    + intros _ s' (? & ? & ?). wp_step. split; [done|]. split; [done|]. split; [done|]. by right.
  - wp_step. split; [done|]. split; [done|]. split; [done|]. left. split; [done|].
    destruct (decide (tp_total_num (s_packet s) = tp_data_num (s_packet s))); [by left|right].
    apply lenZ_nil_inv. lia.
Qed.

(** ** The collecting loop *)

(** How the loop ends: with a code, or with a full packet, for which a part of what has
    arrived is used up unless it was begun before. *)
Definition collected (s : session) (r : assembled) (s' : session) : Prop :=
  reading s' /\
  match r with
  | AReturn rc => rc < 0
  | AFull encrypted => encrypted = false /\ partial s' /\ tp_data_num (s_packet s') = tp_total_num (s_packet s') /\
      (rx_measure s' <= rx_measure s)%nat /\ (tp_total_num (s_packet s) = 0 -> (rx_measure s' < rx_measure s)%nat)
  end.

Lemma assemble_any fuel : forall s,
  reading s -> (rx_measure s < fuel)%nat -> wp (assemble remote_crypt fuel) (collected s) s.
Proof.
  induction fuel as [|fuel IH]; intros s Hr Hfuel; [lia|]. cbn [assemble]. do 2 wp_step. wp_step; [wp_step; by split|].
  do 4 wp_step. rewrite (rd_plain _ Hr). wp_step. eapply wp_mono; [by apply read_fill_any|].
  intros [rc|] s1 [Hr1 Hfill]; [wp_step; by split|]. do 3 wp_step.
  assert (Hm1 : (rx_measure s1 <= rx_measure s)%nat) by (destruct Hfill as [[-> _]|[? _]]; lia).
  assert (Ht1 : tp_total_num (s_packet s1) = tp_total_num (s_packet s)) by (destruct Hfill as [[-> _]|[_ ?]]; done).
  assert (Hround : forall s2, reading s2 -> partial s2 -> (tp_total_num (s_packet s) = 0 -> (rx_measure s2 < rx_measure s)%nat) ->
    ((rx_measure s2 < rx_measure s)%nat \/ s2 = s /\ buffered s <> []) ->
    wp (let! early := read_body remote_crypt false 5 in
        match early with
        | Some rc => ret (AReturn rc)
        | None =>
            let! p := gets s_packet in
            if tp_total_num p - tp_data_num p =? 0 then ret (AFull false) else assemble remote_crypt fuel
        end) (collected s) s2).
  { intros s2 Hr2 Hp2 Ht2 Hm2. wp_step. eapply wp_mono; [by apply read_body_any|].
    intros r s3 (-> & Hr3 & Hp3 & Hm3). do 2 wp_step.
    assert (Hm : (rx_measure s2 <= rx_measure s)%nat) by (destruct Hm2 as [?|[-> _]]; lia).
    assert (Hm' : (rx_measure s3 <= rx_measure s2)%nat) by (destruct Hm3 as [[-> _]|?]; lia). wp_step; breflect.
    - wp_step. split; [done|]. split_and!; [done|done|lia|lia|intros Hz; specialize (Ht2 Hz); lia].
    - eapply wp_mono; [apply IH; [done|]|].
      + destruct Hm3 as [[-> [?|Hnil]]|?]; [lia| |].
        * destruct Hm2 as [?|[-> ?]]; [lia|done].
        * destruct Hm2 as [?|[-> ?]]; lia.
      + intros [rc|e] s4 [H4 Hr4]; [by split|]. destruct Hr4 as (? & ? & ? & ? & _).
        split; [done|]. split_and!; [done|done|done|lia|intros Hz; specialize (Ht2 Hz); lia]. }
  wp_step; breflect.
  - eapply wp_mono; [by apply read_start_any|]. intros [rc|] s2 [Hr2 Hres]; [wp_step; by split|].
    apply Hround; [done|apply Hres|intros _; lia|left; lia].
  - wp_step. apply Hround; [done|destruct (rd_packet _ Hr1); done|congruence|].
    destruct Hfill as [[-> H5]|[? _]]; [right|by left]. split; [done|]. intros Hn. rewrite Hn in H5. unfold lenZ in H5. simpl in H5. lia.
Qed.
End Plain.

(** C16: No peer can make the client leave its buffers while nothing is
    authenticated yet. Before keys are in use, whatever bytes arrive, cut in
    whatever pieces, with whatever errors of the socket or the allocator in
    between, the collecting loop of [_libssh2_transport_read] returns without
    touching memory outside its buffers and keeps the connection layer's
    invariant. It returns an error code and can be continued, or with a packet
    whose payload block is live, not in the queue, of 1 to 40,000 bytes, and
    holds the payload and padding its length fields announce. *)
Theorem collect_any_bytes_safe remote_crypt fuel s :
  conn_ok s -> state_has s LIBSSH2_STATE_NEWKEYS = false -> bytes_ok (incoming s) ->
  (tp_total_num (s_packet s) = 0 \/ partial s) -> (rx_measure s < fuel)%nat ->
  exists r s', assemble remote_crypt fuel s = Ret r s' /\ conn_ok s' /\
    match r with
    | AReturn rc => rc < 0 /\ reading s'
    | AFull encrypted => encrypted = false /\ exists q d,
        tp_payload (s_packet s') = Some q /\ s_heap s' !! q = Some d /\ (q ∉ pk_data <$> packets s') /\
        1 <= lenZ d <= LIBSSH2_PACKET_MAXPAYLOAD /\
        tp_packet_length (s_packet s') - 1 = lenZ d /\
        0 <= tp_packet_length (s_packet s') - 1 - tp_padding_length (s_packet s') <= lenZ d
    end.
Proof.
  intros Hc Hk Hb Hp Hfuel.
  destruct (wp_Ret _ _ _ (assemble_any remote_crypt fuel s (Build_reading s Hc Hk Hb Hp) Hfuel))
    as (r & s' & Hr & Hrd & Hres).
  exists r, s'. split; [done|]. split; [apply Hrd|]. destruct r as [rc|encrypted]; [by split|].
  destruct Hres as (-> & [(q & d & Hq & Hd & Hl & Hown) Ht Hpl Hpad _] & _ & _). split; [done|].
  exists q, d. repeat (split; [done || lia|]). lia.
Qed.

(** A packet of five bytes, the length field in two pieces. *)
Definition plain_session : session :=
  session_0 <| s_recv := [RecvBytes [0; 0; 0]; RecvBytes [12; 6; 20; 1; 2; 3; 4; 0; 0; 0; 0; 0; 0; 9]] |>.

Lemma plain_session_ok : conn_ok plain_session.
Proof. split; try done; try (by constructor); intros p _; apply lookup_empty. Qed.

Lemma collect_any_bytes_safe_witness :
  exists r s', assemble xor_crypt 40 plain_session = Ret r s' /\ conn_ok s'.
Proof.
  destruct (collect_any_bytes_safe xor_crypt 40 plain_session) as (r & s' & H & Hc & _).
  - exact plain_session_ok.
  - reflexivity.
  - apply (bool_decide_unpack _). vm_compute. exact I.
  - by left.
  - vm_compute. lia.
  - exists r, s'. split; [exact H|exact Hc].
Defined.
