(* ===== verification/TransportTrip.v ===== *)
(** * From one end of the connection to the other

    What [_libssh2_transport_send] puts on the wire at one end,
    [_libssh2_transport_read] delivers at the other: the same payload, with its
    MAC confirmed, whatever pieces the sockets took and delivered; and both
    ends are then ready for the next packet. *)

From stdpp Require Import base numbers list gmap strings.
From S2P Require Import Prelude Codes Wire Session ChannelWindow Packet PacketAdd Conn Comp PacketSafety PacketSpec Transport TransportSpec TransportReceive.

(** Both directions of a cipher, from the same state. *)
Class CipherPair (local_crypt remote_crypt : list Z -> list Z -> option (list Z * list Z)) : Prop := {
  pair_inverse : forall st b b' st', local_crypt st b = Some (b', st') -> remote_crypt st b' = Some (b, st');
  pair_len : forall st b b' st', remote_crypt st b = Some (b', st') -> length b' = length b
}.

(** [r] receives what [s] sends: the same keys, at the same point of the stream. *)
Record peers (mac : Z -> list Z -> list Z) (s r : session) : Prop := {
  peer_newkeys : state_has r LIBSSH2_STATE_NEWKEYS = state_has s LIBSSH2_STATE_NEWKEYS;
  peer_blocksize : ep_blocksize (s_remote r) = ep_blocksize (s_local s);
  peer_crypt : ep_crypt_abstract (s_remote r) = ep_crypt_abstract (s_local s);
  peer_mac_len : ep_mac_len (s_remote r) = ep_mac_len (s_local s);
  peer_mac : forall q d, lenZ (mac q d) = ep_mac_len (s_local s);
  peer_seqno : ep_seqno (s_remote r) = ep_seqno (s_local s);
  peer_plain : compressing s = false /\ compressing r = false
}.

(** A session between packets, on a connected socket. *)
Record rx_idle (r : session) : Prop := {
  idle_socket : socket_state r <> LIBSSH2_SOCKET_DISCONNECTED;
  idle_total : tp_total_num (s_packet r) = 0;
  idle_alloc : s_alloc r = [];
  idle_recv : Forall recv_ok (s_recv r);
  idle_fresh : s_heap r !! s_next_ptr r = None
}.

Section Trip.
Context (local_crypt remote_crypt : list Z -> list Z -> option (list Z * list Z)).
Context (mac : Z -> list Z -> list Z).
Context (deflate : list Z -> list Z -> Z -> Z * list Z * list Z).
Context (inflate : list Z -> list Z -> Z -> inflated).
Context (random : session -> Z -> option (list Z)) (kex_exchange : CM Z).
Context `{!SendSuite local_crypt random, !CipherPair local_crypt remote_crypt}.

Lemma run_crypt_inverse n bs : forall st plain c st',
  0 <= bs -> lenZ plain = Z.of_nat n * bs ->
  run_crypt local_crypt n bs st plain = Some (c, st') ->
  run_crypt remote_crypt n bs st c = Some (plain, st').
Proof.
  induction n as [|n IH]; intros st plain c st' Hbs Hl H; simpl in H |- *.
  { injection H as <- <-. destruct plain; [done|]. unfold lenZ in Hl. simpl in Hl. lia. }
  destruct (local_crypt _ _) as [[b st1]|] eqn:E; [|done]. simpl in H.
  destruct (run_crypt local_crypt _ _ _ _) as [[c' st2]|] eqn:E2; [|done]. simpl in H. injection H as <- <-.
  assert (Hb : length b = Z.to_nat bs).
  { rewrite (local_crypt_len _ _ _ _ E), length_take. unfold lenZ in Hl. lia. }
  rewrite <- Hb, take_app_length, drop_app_length, (pair_inverse _ _ _ _ E). simpl.
  apply IH in E2; [|done|unfold lenZ in *; rewrite length_drop; lia]. rewrite E2. simpl. by rewrite take_drop.
Qed.

(** The sender's packet, as the receiver describes it. *)
Definition frame_of (s : session) (payload padding c m : list Z) : rx_frame :=
  mk_rx_frame (state_has s LIBSSH2_STATE_NEWKEYS)
    (if state_has s LIBSSH2_STATE_NEWKEYS then ep_blocksize (s_local s) else 8)
    (plain_packet payload padding) c m (lenZ payload + 1 + lenZ padding) (lenZ padding).

Lemma framed_rx s payload padding frame st' :
  let encrypted := state_has s LIBSSH2_STATE_NEWKEYS in
  let bs := if encrypted then ep_blocksize (s_local s) else 8 in
  8 <= bs <= MAX_BLOCKSIZE -> 0 <= ep_mac_len (s_local s) <= MAX_MACSIZE ->
  (forall q d, lenZ (mac q d) = ep_mac_len (s_local s)) ->
  lenZ payload <= MAX_SSH_PACKET_LEN -> lenZ padding = padding_for bs (lenZ payload) ->
  framed local_crypt mac encrypted (s_local s) payload padding frame st' ->
  exists c m, frame = rx_wire (frame_of s payload padding c m) /\
    (encrypted = true -> m = mac (ep_seqno (s_local s)) (plain_packet payload padding)) /\
    rx_frame_ok remote_crypt (frame_of s payload padding c m) (ep_crypt_abstract (s_local s)) st'.
Proof.
  intros encrypted bs Hbs Hmac Hml Hmax Hpad Hfr. pose proof (lenZ_nonneg payload) as Hp0.
  destruct (padding_for_spec bs (lenZ payload)) as [H4 Hm]; [lia..|]. rewrite <- Hpad in *.
  unfold MAX_BLOCKSIZE, MAX_MACSIZE, MAX_SSH_PACKET_LEN in *. unfold framed in Hfr. cbv zeta in Hfr.
  assert (Hlen : ntohu32 (plain_packet payload padding) 0 = Some (lenZ payload + 1 + lenZ padding)).
  { unfold plain_packet. replace (lenZ payload + 1 + 4 + lenZ padding - 4) with (lenZ payload + 1 + lenZ padding) by lia.
    apply (ntohu32_htonu32 []). lia. }
  assert (Hpf : byte_at (plain_packet payload padding) 4 = Some (lenZ padding)).
  { unfold plain_packet, byte_at. rewrite decide_True by lia. simpl. by rewrite u8_small by lia. }
  pose proof (lenZ_plain payload padding) as Hpl.
  set (plain := plain_packet payload padding) in *.
  destruct encrypted eqn:E; unfold encrypted in E.
  - destruct Hfr as (c & Hrun & ->). exists c, (mac (ep_seqno (s_local s)) plain).
    assert (Htake : take (Z.to_nat (ep_mac_len (s_local s))) (mac (ep_seqno (s_local s)) plain)
      = mac (ep_seqno (s_local s)) plain).
    { apply take_ge. rewrite <- (Hml (ep_seqno (s_local s)) plain). unfold lenZ. lia. }
    unfold frame_of, rx_wire. rewrite E in *. simpl. split; [by rewrite Htake|]. split; [done|].
    fold bs in Hrun. apply Z.mod_divide in Hm as [k Hk]; [|lia]. assert (0 < k) by nia.
    replace (lenZ plain / bs) with k in Hrun by (rewrite Hpl, Hk, Z.div_mul; lia).
    assert (Hcl : lenZ c = lenZ plain) by (eapply run_crypt_len; [exact local_crypt_len| | |exact Hrun]; lia).
    split; simpl; try done; unfold rx_total; simpl; fold plain; rewrite ?Hml;
      unfold LIBSSH2_PACKET_MAXPAYLOAD; try lia.
    intros _. exists (Z.to_nat k - 1)%nat. change (lenZ plain = Z.of_nat (S (Z.to_nat k - 1)) * bs /\
      lenZ c = lenZ plain /\ run_crypt remote_crypt (S (Z.to_nat k - 1)) bs (ep_crypt_abstract (s_local s)) c
        = Some (plain, st')).
    replace (S (Z.to_nat k - 1)) with (Z.to_nat k) by lia.
    split; [lia|]. split; [done|]. apply run_crypt_inverse; [lia..|done].
  - destruct Hfr as [-> ->]. exists [], []. unfold frame_of, rx_wire. rewrite E in *. simpl.
    split; [by rewrite app_nil_r|]. split; [done|].
    split; simpl; try done; unfold rx_total; simpl; fold plain; unfold LIBSSH2_PACKET_MAXPAYLOAD; try lia.
    unfold lenZ at 2 4. simpl. lia.
Qed.

(** The state [fullpacket] hands to [_libssh2_packet_add]. *)
Record delivered (payload : list Z) (r1 r2 : session) : Prop := {
  del_mac : fullpacket_macstate r2 = LIBSSH2_MAC_CONFIRMED;
  del_len : fullpacket_payload_len r2 = lenZ payload;
  del_type : head payload = Some (fullpacket_packet_type r2);
  del_state : fullpacket_state r2 = libssh2_NB_state_created;
  del_heap : s_heap r2 = s_heap r1;
  del_packet : s_packet r2 = s_packet r1;
  del_remote : s_remote r2 = (s_remote r1) <| ep_seqno := u32 (ep_seqno (s_remote r1) + 1) |>;
  del_recv : s_recv r2 = s_recv r1;
  del_keys : s_state r2 = s_state r1;
  del_local : s_local r2 = s_local r1
}.

Lemma check_mac_frame encrypted plain m (Q : Z -> session -> Prop) r :
  (encrypted = true -> tp_init (s_packet r) = take 5 plain /\ m = mac (ep_seqno (s_remote r)) plain /\
     lenZ m = ep_mac_len (s_remote r)) ->
  Q LIBSSH2_MAC_CONFIRMED r ->
  wp (check_mac mac encrypted (drop 5 plain ++ m) (lenZ (drop 5 plain))) Q r.
Proof.
  intros Henc HQ. unfold check_mac. destruct encrypted; [|by wp_step].
  destruct (Henc eq_refl) as (Hi & Hm & Hml). do 4 wp_step. set (b := drop 5 plain) in *.
  pose proof (lenZ_nonneg m). pose proof (lenZ_nonneg b). rewrite <- Hml.
  wp_step. eapply wp_access; [apply bytes_at_in; rewrite ?lenZ_app; lia|].
  wp_step. eapply wp_access; [apply bytes_at_in; rewrite ?lenZ_app; lia|]. wp_step.
  assert (Hs : slice (lenZ b) (lenZ m) (b ++ m) = m) by (rewrite <- (app_nil_r m) at 2; apply slice_app_mid).
  rewrite slice_prefix, Hs, Hi. unfold b. rewrite take_drop, <- Hm. unfold lenZ. rewrite Nat2Z.id, firstn_all.
  by rewrite bool_decide_eq_true_2 by done.
Qed.

Lemma fullpacket_start_frame payload padding m q h r :
  let encrypted := state_has r LIBSSH2_STATE_NEWKEYS in
  let plain := plain_packet payload padding in
  tp_payload (s_packet r) = Some q -> s_heap r = <[q := drop 5 plain ++ m]> h ->
  tp_packet_length (s_packet r) = lenZ payload + 1 + lenZ padding ->
  tp_padding_length (s_packet r) = lenZ padding ->
  (encrypted = true -> tp_init (s_packet r) = take 5 plain /\ m = mac (ep_seqno (s_remote r)) plain /\
     lenZ m = ep_mac_len (s_remote r)) ->
  compressing r = false -> payload <> [] ->
  wp (fullpacket_start mac inflate encrypted) (fun x r2 => x = None /\ delivered payload r r2) r.
Proof.
  intros encrypted plain Hq Hh Hl Hp Henc Hcomp Hne. unfold fullpacket_start. do 4 wp_step. wp_step.
  eapply wp_access; [done|]. wp_step. eapply wp_block; [rewrite Hh; apply lookup_insert_eq|].
  rewrite Hl, Hp. assert (Hd5 : drop 5 plain = payload ++ padding) by done.
  replace (lenZ payload + 1 + lenZ padding - 1) with (lenZ (drop 5 plain)) by (rewrite Hd5, lenZ_app; lia).
  wp_step. apply check_mac_frame; [done|]. do 4 wp_step.
  replace (compressing _) with false by (rewrite <- Hcomp; done). do 4 wp_step.
  wp_step. eapply wp_access; [done|]. wp_step. eapply wp_block; [simpl; rewrite Hh; apply lookup_insert_eq|].
  wp_step. destruct payload as [|ty payload]; [done|]. eapply wp_access; [done|]. wps. split; [done|].
  split; simpl; try done. unfold lenZ. simpl. rewrite length_app. lia.
Qed.

(** Keys in use, or none: the block size is one the code has room for. *)
Lemma can_send_blocksize s :
  can_send s -> 8 <= (if state_has s LIBSSH2_STATE_NEWKEYS then ep_blocksize (s_local s) else 8) <= MAX_BLOCKSIZE.
Proof.
  intros (_ & _ & _ & Hbs). unfold state_has.
  destruct (Z.eqb_spec (Z.land (s_state s) LIBSSH2_STATE_NEWKEYS) 0); [done|by apply Hbs].
Qed.

(** The receiver collects a frame of its peer. *)
Lemma collect_frame s r payload padding frame st' rest :
  can_send s -> peers mac s r -> rx_idle r -> payload <> [] -> lenZ payload <= MAX_SSH_PACKET_LEN ->
  lenZ padding = padding_for (if state_has s LIBSSH2_STATE_NEWKEYS then ep_blocksize (s_local s) else 8)
    (lenZ payload) ->
  framed local_crypt mac (state_has s LIBSSH2_STATE_NEWKEYS) (s_local s) payload padding frame st' ->
  incoming r = frame ++ rest ->
  exists r1 r2 q m,
    collect remote_crypt (length (s_recv r)) (S (2 * length (incoming r))) r
      = Ret (AFull (state_has s LIBSSH2_STATE_NEWKEYS)) r1 /\
    fullpacket_start mac inflate (state_has s LIBSSH2_STATE_NEWKEYS) r1 = Ret None r2 /\
    delivered payload r1 r2 /\ rx_fixed r r1 /\ incoming r1 = rest /\
    ep_crypt_abstract (s_remote r1) = st' /\ tp_payload (s_packet r1) = Some q /\
    s_heap r !! q = None /\ s_heap r1 = <[q := payload ++ padding ++ m]> (s_heap r).
Proof.
  intros Hcan [Pn Pb Pc Pml Pm Pq [_ Pz]] [Is It Ia Ir If] Hne Hmax Hpad Hfr Hinc.
  pose proof (can_send_blocksize s Hcan) as Hb. pose proof Hcan as (_ & _ & Hmac & _).
  destruct (framed_rx s payload padding frame st' Hb Hmac Pm Hmax Hpad Hfr) as (c & m & Hw & Hm & Hok).
  set (f := frame_of s payload padding c m) in *.
  assert (Hst : rx_start f (ep_crypt_abstract (s_local s)) (s_heap r) rest r r).
  { split; try done; [|by rewrite <- Hw]. split; try done; simpl; intros E; [by rewrite Pb, E|].
    by rewrite Pml, (Hm E), Pm. }
  assert (Hbl : rx_block f <= PACKETBUFSIZE).
  { unfold rx_block, f, PACKETBUFSIZE, MAX_BLOCKSIZE in *. simpl. destruct (state_has s _); lia. }
  destruct (wp_Ret _ _ _ (collect_ok remote_crypt pair_len f _ st' Hok (s_heap r) rest r
    (length (s_recv r)) (S (2 * length (incoming r))) r Hbl (or_introl Hst) ltac:(done)
    ltac:(rewrite Hinc, Hw; lia))) as (a & r1 & Hrun & -> & Hdone).
  destruct (rx_done_spec remote_crypt pair_len f _ st' Hok (s_heap r) rest r r1 Hdone)
    as (q & Hq & Hh & Hfresh & Hlen & Hpd & Hinit & Hrest & Hcr & He). simpl in Hh, Hlen, Hpd, Hinit.
  pose proof (env_fixed _ _ _ He) as Hfix. pose proof (env_enc _ _ _ He) as Hkeys. simpl in Hkeys.
  assert (Hcomp : compressing r1 = false).
  { unfold compressing, state_has in *. by rewrite (fixed_local _ _ Hfix), (fixed_state _ _ Hfix). }
  assert (Hwp : wp (fullpacket_start mac inflate (state_has r1 LIBSSH2_STATE_NEWKEYS))
    (fun x r2 => x = None /\ delivered payload r1 r2) r1).
  { apply (fullpacket_start_frame payload padding m q (s_heap r)); try done.
    rewrite Hkeys. intros E. split; [by apply Hinit|]. rewrite (fixed_seqno _ _ Hfix), Pq. split; [by apply Hm|].
    rewrite (env_mac _ _ _ He) by done. done. }
  rewrite Hkeys in Hwp. destruct (wp_Ret _ _ _ Hwp) as (x & r2 & Hr2 & -> & Hdel).
  exists r1, r2, q, m. repeat (split; [done|]). rewrite Hh. by rewrite (app_assoc payload).
Qed.
End Trip.

(** Both ends are ready for the next packet. *)
Lemma peers_next mac s s' r r1 r2 payload :
  peers mac s r -> tr_kept s s' -> ep_seqno (s_local s') = u32 (ep_seqno (s_local s) + 1) ->
  rx_fixed r r1 -> delivered payload r1 r2 ->
  ep_crypt_abstract (s_remote r1) = ep_crypt_abstract (s_local s') -> peers mac s' r2.
Proof.
  intros [Pn Pb Pc Pml Pm Pq [Pz1 Pz2]] [_ _ Ks Kb Km Kc] Hsq Hfix [_ _ _ _ _ _ Dr _ Dk Dl] Hcr.
  unfold compressing, state_has in *. split; unfold compressing, state_has; rewrite ?Dr, ?Dk, ?Dl, ?Ks, ?Kb, ?Km, ?Kc, ?Hsq; simpl.
  - by rewrite (fixed_state _ _ Hfix).
  - by rewrite (fixed_blocksize _ _ Hfix).
  - done.
  - by rewrite (fixed_mac_len _ _ Hfix).
  - done.
  - by rewrite (fixed_seqno _ _ Hfix), Pq.
  - by rewrite (fixed_state _ _ Hfix), (fixed_local _ _ Hfix).
Qed.


(** A receiver for the sample session's keys. *)
Definition keyed_receiver (chunks : list recv_outcome) : session :=
  session_0 <| s_state := LIBSSH2_STATE_NEWKEYS |> <| s_remote := mk_endpoint 8 [7] 2 0 None None |>
    <| s_recv := chunks |>.

#[export] Instance sample_pair : CipherPair xor_crypt xor_crypt.
Proof.
  split; intros st b b' st' [= <- <-]; [|by rewrite length_fmap].
  unfold xor_crypt. f_equal. f_equal. rewrite <- list_fmap_compose.
  etrans; [|apply list_fmap_id]. apply list_fmap_ext. intros i x _. simpl.
  by rewrite <- Z.lxor_assoc, Z.lxor_nilpotent, Z.lxor_0_l.
Qed.

(** The sample message's packet in three pieces, with a pause and a byte of the
    next packet. *)
Definition sample_chunks : list recv_outcome :=
  [RecvBytes [7; 7; 7]; RecvFail (- EAGAIN); RecvBytes [11; 0; 89; 6; 5; 11; 8; 8; 8];
   RecvBytes [8; 8; 8; 8; 0; 119; 42]].


(** ** Corner cases: runs that do not do what the code means to *)

(** The sample cipher, failing on a block that begins with 255. *)
Definition failing_crypt (st b : list Z) : option (list Z * list Z) :=
  if default 0 (head b) =? 255 then None else xor_crypt st b.

Definition read_sample : CM Z :=
  transport_read failing_crypt xor_crypt sum_mac sum_mac no_deflate zeros_inflate zero_random (ret 0)
    (fun _ _ => 1) 100.

(** The state after a call, or the initial one. *)
Definition state_after {A} (m : CM A) (s : session) : session :=
  match m s with Ret _ s' => s' | _ => s end.

(** A peer that sends a packet which is queued, and then a block the cipher
    rejects. *)
Definition stale_payload_session : session :=
  keyed_receiver [RecvBytes [7; 7; 7; 11; 0; 1; 6; 5; 11; 8; 8; 8; 8; 8; 8; 8; 0; 31];
                  RecvBytes [255; 0; 0; 0; 0; 0; 0; 0]].

(** A block the cipher rejects at the start of a packet releases the payload
    of the packet before it, which is in the queue by then: [decrypt] frees
    [p->payload] on failure, and nothing clears that pointer when
    [_libssh2_packet_add] takes the payload over. The first call queues the
    packet, the second returns [LIBSSH2_ERROR_DECRYPT] and leaves the queue
    pointing to released memory. *)
Theorem decrypt_failure_frees_queued_payload :
  exists s1 s2 p, read_sample stale_payload_session = Ret 6 s1 /\ packets s1 = [p] /\
    is_Some (s_heap s1 !! pk_data p) /\
    read_sample s1 = Ret LIBSSH2_ERROR_DECRYPT s2 /\ packets s2 = [p] /\ s_heap s2 !! pk_data p = None.
Proof.
  exists (state_after read_sample stale_payload_session),
    (state_after (read_sample ;; read_sample) stale_payload_session), (mk_packet 1 4 0).
  split; [vm_compute; reflexivity|]. split; [vm_compute; reflexivity|].
  split; [vm_compute; by eexists|]. split; [vm_compute; reflexivity|]. split; vm_compute; reflexivity.
Qed.

(** A peer whose packet length is not a whole number of blocks. *)
Definition unaligned_session : session :=
  keyed_receiver [RecvBytes ([7; 7; 7; 12; 0; 1; 6; 5] ++ replicate 20 0)].

(** A peer can end the process: the length field of a packet is not checked
    to make whole cipher blocks, and [decrypt] asserts that it does, before any
    MAC has been looked at. *)
Theorem unaligned_length_asserts : read_sample unaligned_session = Fault.
Proof. vm_compute. reflexivity. Qed.

(** A key exchange that ends with a cipher of 16-byte blocks. *)
Definition kex_16 : CM Z :=
  modify (fun s => s <| s_state := LIBSSH2_STATE_NEWKEYS |> <| s_local ::= fun e => e <| ep_blocksize := 16 |> |>) ;;
  ret 0.

Definition rekeying_session : session :=
  session_0 <| s_state := LIBSSH2_STATE_NEWKEYS + LIBSSH2_STATE_EXCHANGING_KEYS |>
    <| s_local := mk_endpoint 8 [7] 2 0 None None |>.

(** A send that first completes a key exchange pads for the old cipher:
    [blocksize] is read before the exchange. When the new cipher has larger
    blocks, the packet that goes out is not whole blocks of it, and its MAC has
    been run through the cipher with the last of them. *)
Theorem rekey_in_send_misaligns :
  exists s', transport_send xor_crypt sum_mac no_deflate zero_random kex_16 1 (replicate 10 94) []
      rekeying_session = Ret 0 s' /\
    (lenZ (s_wire s') - ep_mac_len (s_local s')) mod ep_blocksize (s_local s') = 8 /\
    drop 24 (s_wire s') <> sum_mac 0 (plain_packet (replicate 10 94) (replicate 9 0)).
Proof.
  eexists. split; [vm_compute; reflexivity|]. split; [reflexivity|]. vm_compute. discriminate.
Qed.
