(* ===== verification/Kex.v ===== *)
(** * Method negotiation and the key exchange driver (kex.c)

    [kexinit] builds and sends the list of methods the client offers,
    [kex_agree_methods] reads the server's and chooses, [_libssh2_kex_exchange]
    runs the whole exchange and [libssh2_session_method_pref] sets what the
    client prefers. The exchange itself ([kex->exchange_keys]), the random
    generator and the transport are arguments. *)

From stdpp Require Import base numbers list gmap strings.
From S2P Require Import Prelude Codes CString KexMethods Wire Session ChannelWindow Packet Conn Comp PacketWait.

(** A table of names only. *)
#[global] Instance name_common : CommonMethod (list Z) := fun n => n.

(** ** Looking for a name in a list *)

(** The test of [kex_agree_instr] at [s]: the needle is there, followed by a
    comma or by the end of the haystack. *)
Definition instr_at (data : list Z) (haystack haystack_len s : Z) (ndl : list Z)
    (needle needle_len : Z) : option bool :=
  eq ← strncmp_eq (Z.to_nat needle_len) data s ndl needle;
  if (eq : bool) then
    if (s - haystack) + needle_len =? haystack_len then Some true
    else c ← byte_at data (s + needle_len); Some (c =? comma)
  else Some false.

(** Its loop. [left] still counts the comma [s] has moved past, so [memchr] may
    look at one byte more than the haystack has. Running out of fuel is [None]. *)
Fixpoint instr_loop (fuel : nat) (data : list Z) (haystack haystack_len s left : Z) (ndl : list Z)
    (needle needle_len : Z) : option (option Z) :=
  match fuel with
  | O => None
  | S fuel =>
      r ← memchr (Z.to_nat left) data s comma;
      match r with
      | None => Some None
      | Some s =>
          let left := u64 (haystack + haystack_len - s) in
          if (1 <=? left) && (left <=? haystack_len) && (needle_len <? left) then
            let s := s + 1 in
            m ← instr_at data haystack haystack_len s ndl needle needle_len;
            if (m : bool) then Some (Some s)
            else instr_loop fuel data haystack haystack_len s left ndl needle needle_len
          else Some None
      end
  end.

(** [kex_agree_instr]: the haystack is [haystack_len] bytes of the object
    [data] at offset [haystack], the needle [needle_len] bytes of [ndl] at
    [needle]; the result is an offset into [data]. *)
Definition kex_agree_instr (data : list Z) (haystack haystack_len : Z) (ndl : list Z)
    (needle needle_len : Z) : option (option Z) :=
  if (haystack_len <? needle_len) || (needle_len =? 0) then Some None
  else
    m ← instr_at data haystack haystack_len haystack ndl needle needle_len;
    if (m : bool) then Some (Some haystack)
    else instr_loop (S (Z.to_nat haystack_len)) data haystack haystack_len haystack haystack_len
           ndl needle needle_len.

(** [kex_get_method_by_name]; the name is in the object [obj] at [name]. *)
Fixpoint kex_get_method_by_name {A} `{CommonMethod A} (obj : list Z) (name name_len : Z)
    (methodlist : list A) : option (option A) :=
  match methodlist with
  | [] => Some None
  | m :: rest =>
      if lenZ (method_name m) =? name_len then
        eq ← strncmp_eq (Z.to_nat name_len) (method_name m ++ [0]) 0 obj name;
        if (eq : bool) then Some (Some m) else kex_get_method_by_name obj name name_len rest
      else kex_get_method_by_name obj name name_len rest
  end.

(** ** Choosing a method *)

Inductive endpoint := Local | Remote.

Definition kex_ep (e : endpoint) (k : kex_data) : kex_endpoint :=
  match e with Local => kx_local k | Remote => kx_remote k end.

Definition set_kex (f : kex_data -> kex_data) : CM unit := modify (fun s => s <| s_kex ::= f |>).

Definition set_kex_ep (e : endpoint) (f : kex_endpoint -> kex_endpoint) : CM unit :=
  set_kex (fun k => match e with
                    | Local => k <| kx_local ::= f |>
                    | Remote => k <| kx_remote ::= f |>
                    end).

(** The endpoint as transport.c reads it through the method pointers. *)
Definition set_endpoint (e : endpoint) (f : libssh2_endpoint_data -> libssh2_endpoint_data) :
    CM unit :=
  modify (fun s => match e with
                   | Local => s <| s_local ::= f |>
                   | Remote => s <| s_remote ::= f |>
                   end).

(** The length of the next name of a preference string: up to [p], the comma,
    or up to the end. *)
Definition pref_len (prefs : list Z) (s : Z) (p : option Z) : option Z :=
  match p with Some p => Some (p - s) | None => strlen prefs s end.

Section Agree.
Context {A : Type} `{CommonMethod A} (tbl : list A).
(** The server's list. *)
Context (data : list Z) (lst lst_len : Z).
(** What is done with a method both sides know, found at the given place of
    the server's list: [true] if it is taken. *)
Context (accept : A -> Z -> CM bool).

(** A name of the preferences at [s], up to the comma [p] if there is one;
    [next] is what follows when it is not taken. *)
Definition agree_name (prefs : list Z) (s : Z) (p : option Z) (next : CM Z) : CM Z :=
  let! method_len := access (pref_len prefs s p) in
  let! q := access (kex_agree_instr data lst lst_len prefs s method_len) in
  match q with
  | None => next
  | Some q =>
      let! m := access (kex_get_method_by_name prefs s method_len tbl) in
      match m with
      | None => ret (-1)
      | Some m =>
          let! ok := accept m q in
          if (ok : bool) then ret 0 else next
      end
  end.

(** The loop over the application's preferences. *)
Fixpoint agree_prefs (fuel : nat) (prefs : list Z) (s : Z) : CM Z :=
  match fuel with
  | O => fun _ => OutOfFuel
  | S fuel =>
      let! c := access (byte_at prefs s) in
      if c =? 0 then ret (-1)
      else
        let! p := access (strchr prefs s comma) in
        agree_name prefs s p
          match p with Some p => agree_prefs fuel prefs (p + 1) | None => ret (-1) end
  end.

(** The loop over the methods in load order. *)
Fixpoint agree_table (ms : list A) : CM Z :=
  match ms with
  | [] => ret (-1)
  | m :: ms =>
      let name := method_name m in
      let! q := access (kex_agree_instr data lst lst_len (name ++ [0]) 0 (lenZ name)) in
      match q with
      | None => agree_table ms
      | Some q =>
          let! ok := accept m q in
          if (ok : bool) then ret 0 else agree_table ms
      end
  end.

Definition agree_method (prefs : option ptr) : CM Z :=
  match prefs with
  | Some p => let! d := block p in agree_prefs (S (length d)) d 0
  | None => agree_table tbl
  end.
End Agree.

Section Kex.
Context (cfg : build).
(** [_libssh2_random]. *)
Context (random : session -> Z -> option (list Z)).
(** [_libssh2_transport_send] and [_libssh2_transport_read]. *)
Context (transport_send : list Z -> list Z -> CM Z) (transport_read : CM Z).
(** The functions behind [kex->exchange_keys]. *)
Context (exchange_keys : kex_function -> CM Z).

(** Can the host key method do what the key exchange method needs? *)
Definition hostkey_suits (kex_flags : Z) (m : LIBSSH2_HOSTKEY_METHOD) : bool :=
  ((Z.land kex_flags LIBSSH2_KEX_METHOD_FLAG_REQ_ENC_HOSTKEY =? 0) || hkm_encrypt m) &&
  ((Z.land kex_flags LIBSSH2_KEX_METHOD_FLAG_REQ_SIGN_HOSTKEY =? 0) || hkm_sig_verify m).

Definition kex_agree_hostkey (kex_flags : Z) (data : list Z) (hostkey hostkey_len : Z) : CM Z :=
  let! prefs := gets (fun s => hostkey_prefs (s_kex s)) in
  agree_method (libssh2_hostkey_methods cfg) data hostkey hostkey_len
    (fun m _ => if hostkey_suits kex_flags m
                then set_kex (fun k => k <| kx_hostkey := Some m |>) ;; ret true
                else ret false) prefs.

(** [kex_agree_kex_hostkey]; a server's guess that was right is not burnt. *)
Definition kex_agree_kex_hostkey (data : list Z) (kex kex_len hostkey hostkey_len : Z) : CM Z :=
  let! prefs := gets (fun s => kex_prefs (s_kex s)) in
  agree_method (libssh2_kex_methods cfg) data kex kex_len
    (fun m q =>
      let! rc := kex_agree_hostkey (kexm_flags m) data hostkey hostkey_len in
      if rc =? 0 then
        set_kex (fun k =>
          let k := k <| kx_kex := Some m |> in
          if negb (burn_optimistic_kexinit k =? 0) && (kex =? q)
          then k <| burn_optimistic_kexinit := 0 |> else k) ;;
        ret true
      else ret false) prefs.

Definition kex_agree_crypt (e : endpoint) (data : list Z) (crypt crypt_len : Z) : CM Z :=
  let! prefs := gets (fun s => crypt_prefs (kex_ep e (s_kex s))) in
  agree_method (libssh2_crypt_methods cfg) data crypt crypt_len
    (fun m _ =>
      set_kex_ep e (fun k => k <| ke_crypt := Some m |>) ;;
      set_endpoint e (fun x => x <| ep_blocksize := crm_blocksize m |>) ;;
      ret true) prefs.

Definition kex_agree_mac (e : endpoint) (data : list Z) (mac mac_len : Z) : CM Z :=
  let! prefs := gets (fun s => mac_prefs (kex_ep e (s_kex s))) in
  agree_method (mac_methods cfg) data mac mac_len
    (fun m _ =>
      set_kex_ep e (fun k => k <| ke_mac := Some m |>) ;;
      set_endpoint e (fun x => x <| ep_mac_len := macm_mac_len m |>) ;;
      ret true) prefs.

Definition kex_agree_comp (e : endpoint) (data : list Z) (comp comp_len : Z) : CM Z :=
  let! prefs := gets (fun s => comp_prefs (kex_ep e (s_kex s))) in
  let! compress := gets (fun s => flag_compress (s_kex s)) in
  agree_method (libssh2_comp_methods cfg compress) data comp comp_len
    (fun m _ =>
      set_kex_ep e (fun k => k <| ke_comp := Some m |>) ;;
      set_endpoint e (fun x => x <| ep_comp := Some (com_compress m, com_use_in_auth m) |>) ;;
      ret true) prefs.

(** The strings of the server's message: offset and length of each. *)
Fixpoint locate_strings (n : nat) (buf : string_buf) : option (option (list (Z * Z)) * string_buf) :=
  match n with
  | O => Some (Some [], buf)
  | S n =>
      '(rc, out, buf) ← get_string buf None;
      match out with
      | Some s =>
          '(rest, buf') ← locate_strings n buf;
          Some (option_map (cons (sb_ptr buf - lenZ s, lenZ s)) rest, buf')
      | None => Some (None, buf)
      end
  end.

(** The choices, in the order of the code; the first that fails ends it. *)
Definition first_failure (calls : list (CM Z)) : CM Z :=
  fold_right (fun (m k : CM Z) => let! rc := m in if rc =? 0 then k else ret (-1)) (ret 0) calls.

Definition kex_agree_methods (data : list Z) (data_len : Z) : CM Z :=
  if data_len <? 17 then ret (-1)
  else
    let! strings := access (locate_strings 8 (mk_string_buf data 17 data_len)) in
    match strings with
    | (Some [(kex, kex_len); (hostkey, hostkey_len); (crypt_cs, crypt_cs_len);
             (crypt_sc, crypt_sc_len); (mac_cs, mac_cs_len); (mac_sc, mac_sc_len);
             (comp_cs, comp_cs_len); (comp_sc, comp_sc_len)], buf) =>
        if check_length buf 1 then
          let! b := access (byte_at (sb_data buf) (sb_ptr buf)) in
          (* a bit field of one bit *)
          set_kex (fun k => k <| burn_optimistic_kexinit := Z.land b 1 |>) ;;
          first_failure
            [kex_agree_kex_hostkey data kex kex_len hostkey hostkey_len;
             kex_agree_crypt Local data crypt_cs crypt_cs_len;
             kex_agree_crypt Remote data crypt_sc crypt_sc_len;
             kex_agree_mac Local data mac_cs mac_cs_len;
             kex_agree_mac Remote data mac_sc mac_sc_len;
             kex_agree_comp Local data comp_cs comp_cs_len;
             kex_agree_comp Remote data comp_sc comp_sc_len]
        else ret (-1)
    | _ => ret (-1)
    end.

(** ** The client's offer *)

Definition kex_method_strlen {A} `{CommonMethod A} (method : list A) : Z :=
  match method with
  | [] => 0
  | _ => fold_left (fun len m => len + (lenZ (method_name m) + 1)) method 0 - 1
  end.

Fixpoint method_list_loop {A} `{CommonMethod A} (data : ptr) (buf : Z) (method : list A) : CM unit :=
  match method with
  | [] => ret tt
  | m :: method =>
      let mlen := lenZ (method_name m) in
      write_block data buf (method_name m) ;;
      write_block data (buf + mlen) [comma] ;;
      method_list_loop data (buf + mlen + 1) method
  end.

(** [kex_method_list]: every name is followed by a comma; the last one is
    outside the list and overwritten by what comes next. *)
Definition kex_method_list {A} `{CommonMethod A} (data : ptr) (buf list_strlen : Z)
    (method : list A) : CM Z :=
  write_block data buf (htonu32 list_strlen) ;;
  match method with
  | [] => ret 4
  | _ => method_list_loop data (buf + 4) method ;; ret (list_strlen + 4)
  end.

(** [LIBSSH2_METHOD_PREFS_LEN] and [LIBSSH2_METHOD_PREFS_STR]. *)
Definition method_prefs_len {A} `{CommonMethod A} (prefvar : option ptr) (defaultvar : list A) : CM Z :=
  match prefvar with
  | Some p => let! d := block p in access (strlen d 0)
  | None => ret (kex_method_strlen defaultvar)
  end.

Definition method_prefs_str {A} `{CommonMethod A} (data : ptr) (buf prefvarlen : Z)
    (prefvar : option ptr) (defaultvar : list A) : CM Z :=
  match prefvar with
  | Some p =>
      write_block data buf (htonu32 prefvarlen) ;;
      let! d := block p in
      let! bytes := access (bytes_at d 0 prefvarlen) in
      write_block data (buf + 4) bytes ;;
      ret (buf + 4 + prefvarlen)
  | None => let! n := kex_method_list data buf prefvarlen defaultvar in ret (buf + n)
  end.

Definition names {A} `{CommonMethod A} (l : list A) : list (list Z) := map method_name l.

(** The ten lists of the message: the preference and the names it defaults to. *)
Definition kexinit_lists (k : kex_data) : list (option ptr * list (list Z)) :=
  let comps := names (libssh2_comp_methods cfg (flag_compress k)) in
  [(kex_prefs k, names (libssh2_kex_methods cfg));
   (hostkey_prefs k, names (libssh2_hostkey_methods cfg));
   (crypt_prefs (kx_local k), names (libssh2_crypt_methods cfg));
   (crypt_prefs (kx_remote k), names (libssh2_crypt_methods cfg));
   (mac_prefs (kx_local k), names (mac_methods cfg));
   (mac_prefs (kx_remote k), names (mac_methods cfg));
   (comp_prefs (kx_local k), comps);
   (comp_prefs (kx_remote k), comps);
   (lang_prefs (kx_local k), []);
   (lang_prefs (kx_remote k), [])].

Fixpoint lists_len (ls : list (option ptr * list (list Z))) : CM (list Z) :=
  match ls with
  | [] => ret []
  | (pref, def) :: ls =>
      let! n := method_prefs_len pref def in
      let! ns := lists_len ls in
      ret (n :: ns)
  end.

Fixpoint lists_str (data : ptr) (s : Z) (ls : list (option ptr * list (list Z))) (ns : list Z) : CM Z :=
  match ls, ns with
  | (pref, def) :: ls, n :: ns =>
      let! s := method_prefs_str data s n pref def in lists_str data s ls ns
  | _, _ => ret s
  end.

(** The part of [kexinit] that builds the message: an error, or the block and
    its length. *)
Definition kexinit_build : CM (Z + (ptr * Z)) :=
  let! ls := gets (fun s => kexinit_lists (s_kex s)) in
  let! ns := lists_len ls in
  let data_len := u64 (62 + fold_right Z.add 0 ns) in
  let! data := alloc_block (replicate (Z.to_nat data_len) 0) in
  match data with
  | None => let! rc := error LIBSSH2_ERROR_ALLOC "Unable to allocate memory" in ret (inl rc)
  | Some data =>
      write_block data 0 [SSH_MSG_KEXINIT] ;;
      let! cookie := gets (fun s => random s 16) in
      match cookie with
      | None =>
          let! rc := error LIBSSH2_ERROR_RANDGEN "Unable to get random bytes for KEXINIT cookie" in
          ret (inl rc)
      | Some cookie =>
          write_block data 1 cookie ;;
          let! s := lists_str data 17 ls ns in
          write_block data s [0] ;;
          write_block data (s + 1) (htonu32 0) ;;
          set_kex (fun k => k <| kexinit_state := libssh2_NB_state_created |>) ;;
          ret (inr (data, data_len))
      end
  end.

(** The part of [kexinit] that sends it. *)
Definition kexinit_send (data : ptr) (data_len : Z) : CM Z :=
  let! d := block data in
  let! bytes := access (bytes_at d 0 data_len) in
  let! rc := transport_send bytes [] in
  if rc =? LIBSSH2_ERROR_EAGAIN then
    set_kex (fun k => k <| kexinit_data := Some data |> <| kexinit_data_len := data_len |>) ;;
    ret rc
  else if negb (rc =? 0) then
    free_block data ;;
    set_kex (fun k => k <| kexinit_state := libssh2_NB_state_idle |>) ;;
    error rc "Unable to send KEXINIT packet to remote host"
  else
    let! old := gets (fun s => ke_kexinit (kx_local (s_kex s))) in
    match old with Some p => free_block p | None => ret tt end ;;
    set_kex_ep Local (fun e => e <| ke_kexinit := Some data |> <| ke_kexinit_len := data_len |>) ;;
    set_kex (fun k => k <| kexinit_state := libssh2_NB_state_idle |>) ;;
    ret 0.

Definition kexinit : CM Z :=
  let! k := gets s_kex in
  if nb_is (kexinit_state k) libssh2_NB_state_idle then
    let! r := kexinit_build in
    match r with
    | inl rc => ret rc
    | inr (data, data_len) => kexinit_send data data_len
    end
  else
    set_kex (fun k => k <| kexinit_data := None |> <| kexinit_data_len := 0 |>) ;;
    let! data := access (kexinit_data k) in
    kexinit_send data (kexinit_data_len k).

(** ** The driver *)

Definition state_set (flag : Z) : CM unit := modify (fun s => s <| s_state ::= fun st => Z.lor st flag |>).
Definition state_clear (flag : Z) : CM unit := modify (fun s => s <| s_state ::= fun st => Z.ldiff st flag |>).

Definition set_ks (st : libssh2_nonblocking_states) : CM unit :=
  set_kex (fun k => k <| ks_state := st |>).

Definition free_opt (p : option ptr) : CM unit :=
  match p with Some p => free_block p | None => ret tt end.

(** A failed step gives the kexinit buffer of before back to the session. *)
Definition kex_restore : CM Z :=
  set_kex (fun k => k <| kx_local ::= fun e => e <| ke_kexinit := ks_oldlocal k |>
                                                <| ke_kexinit_len := ks_oldlocal_len k |> |>) ;;
  set_ks libssh2_NB_state_idle ;;
  state_clear LIBSSH2_STATE_KEX_ACTIVE ;;
  state_clear LIBSSH2_STATE_EXCHANGING_KEYS ;;
  ret (-1).

(** Waiting for the server's [SSH_MSG_KEXINIT] and choosing the methods:
    [inl] is a return from [_libssh2_kex_exchange], [inr] the value of [rc]. *)
Definition kex_receive (fuel : nat) : CM (Z + Z) :=
  let! start := gets (fun s => ks_req_start (s_kex s)) in
  let! r := packet_require transport_read fuel SSH_MSG_KEXINIT 0 None start in
  let '(retcode, pkt, start) := r in
  set_kex (fun k => k <| ks_req_start := start |>) ;;
  if retcode =? LIBSSH2_ERROR_EAGAIN then
    state_clear LIBSSH2_STATE_KEX_ACTIVE ;; ret (inl retcode)
  else if negb (retcode =? 0) then
    let! p := gets (fun s => ke_kexinit (kx_local (s_kex s))) in
    free_opt p ;;
    let! rc := kex_restore in ret (inl rc)
  else match pkt with
  | None => fault
  | Some (data, data_len) =>
      set_kex (fun k => k <| ks_data := Some data |> <| ks_data_len := data_len |>) ;;
      let! p := gets (fun s => ke_kexinit (kx_remote (s_kex s))) in
      free_opt p ;;
      set_kex_ep Remote (fun e => e <| ke_kexinit := Some data |> <| ke_kexinit_len := data_len |>) ;;
      let! d := block data in
      let! rc := kex_agree_methods d data_len in
      set_ks libssh2_NB_state_sent2 ;;
      ret (inr (if rc =? 0 then 0 else LIBSSH2_ERROR_KEX_FAILURE))
  end.

(** Sending the offer, then waiting. *)
Definition kex_negotiate (fuel : nat) : CM (Z + Z) :=
  let! k := gets s_kex in
  (if nb_is (ks_state k) libssh2_NB_state_created then
     set_kex (fun k => k <| ks_oldlocal := ke_kexinit (kx_local k) |>
                         <| ks_oldlocal_len := ke_kexinit_len (kx_local k) |>
                         <| kx_local ::= fun e => e <| ke_kexinit := None |> |>) ;;
     set_ks libssh2_NB_state_sent
   else ret tt) ;;
  let! st := gets (fun s => ks_state (s_kex s)) in
  let! early :=
    (if nb_is st libssh2_NB_state_sent then
       let! retcode := kexinit in
       if retcode =? LIBSSH2_ERROR_EAGAIN then
         state_clear LIBSSH2_STATE_KEX_ACTIVE ;; ret (Some retcode)
       else if negb (retcode =? 0) then
         let! rc := kex_restore in ret (Some rc)
       else set_ks libssh2_NB_state_sent1 ;; ret None
     else ret None) in
  match early with
  | Some rc => ret (inl rc)
  | None =>
      let! st := gets (fun s => ks_state (s_kex s)) in
      if nb_is st libssh2_NB_state_sent1 then kex_receive fuel else ret (inr 0)
  end.

(** The end: the agreed method runs, then the buffers of both offers go. A call
    through a null [exchange_keys] is a fault. *)
Definition kex_finish (rc : Z) : CM Z :=
  let! k := gets s_kex in
  let done (rc : Z) : CM Z :=
    let! k := gets s_kex in
    free_opt (ke_kexinit (kx_local k)) ;;
    set_kex_ep Local (fun e => e <| ke_kexinit := None |>) ;;
    free_opt (ke_kexinit (kx_remote k)) ;;
    set_kex_ep Remote (fun e => e <| ke_kexinit := None |>) ;;
    state_clear LIBSSH2_STATE_KEX_ACTIVE ;;
    state_clear LIBSSH2_STATE_EXCHANGING_KEYS ;;
    set_ks libssh2_NB_state_idle ;;
    ret rc in
  match kx_kex k with
  | Some m =>
      if (rc =? 0) && nb_is (ks_state k) libssh2_NB_state_sent2 then
        let! f := access (kexm_exchange_keys m) in
        let! retcode := exchange_keys f in
        if retcode =? LIBSSH2_ERROR_EAGAIN then
          state_clear LIBSSH2_STATE_KEX_ACTIVE ;; ret retcode
        else if negb (retcode =? 0) then
          let! rc := error LIBSSH2_ERROR_KEY_EXCHANGE_FAILURE "Unrecoverable error exchanging keys" in
          done rc
        else done 0
      else done rc
  | None => done rc
  end.

(** [_libssh2_kex_exchange(session, reexchange, &session->startup_key_state)].
    The destructor of the old host key releases memory of the crypto backend. *)
Definition kex_exchange (fuel : nat) (reexchange : bool) : CM Z :=
  state_set LIBSSH2_STATE_KEX_ACTIVE ;;
  let! k := gets s_kex in
  (if nb_is (ks_state k) libssh2_NB_state_idle then
     state_set LIBSSH2_STATE_EXCHANGING_KEYS ;;
     (if reexchange then
        set_kex (fun k =>
          k <| kx_kex := None |>
            <| kx_server ::= fun i => match kx_hostkey k with
                                      | Some _ => i <| server_hostkey_abstract := None |>
                                      | None => i
                                      end |>
            <| kx_hostkey := None |>)
      else ret tt) ;;
     set_ks libssh2_NB_state_created
   else ret tt) ;;
  let! k := gets s_kex in
  match kx_kex k, kx_hostkey k with
  | Some _, Some _ => set_ks libssh2_NB_state_sent2 ;; kex_finish 0
  | _, _ =>
      let! r := kex_negotiate fuel in
      match r with inl rc => ret rc | inr rc => kex_finish rc end
  end.

(** ** Preferences *)

(** The variables [prefvar] can point to. *)
Inductive pref_variable :=
| PrefKex | PrefHostkey | PrefCrypt (e : endpoint) | PrefMac (e : endpoint)
| PrefComp (e : endpoint) | PrefLang (e : endpoint) | PrefSignAlgo.

Definition get_pref (v : pref_variable) (k : kex_data) : option ptr :=
  match v with
  | PrefKex => kex_prefs k
  | PrefHostkey => hostkey_prefs k
  | PrefCrypt e => crypt_prefs (kex_ep e k)
  | PrefMac e => mac_prefs (kex_ep e k)
  | PrefComp e => comp_prefs (kex_ep e k)
  | PrefLang e => lang_prefs (kex_ep e k)
  | PrefSignAlgo => sign_algo_prefs k
  end.

Definition set_pref (v : pref_variable) (p : option ptr) : CM unit :=
  match v with
  | PrefKex => set_kex (fun k => k <| kex_prefs := p |>)
  | PrefHostkey => set_kex (fun k => k <| hostkey_prefs := p |>)
  | PrefCrypt e => set_kex_ep e (fun x => x <| crypt_prefs := p |>)
  | PrefMac e => set_kex_ep e (fun x => x <| mac_prefs := p |>)
  | PrefComp e => set_kex_ep e (fun x => x <| comp_prefs := p |>)
  | PrefLang e => set_kex_ep e (fun x => x <| lang_prefs := p |>)
  | PrefSignAlgo => set_kex (fun k => k <| sign_algo_prefs := p |>)
  end.

(** The [switch] of [libssh2_session_method_pref]: the variable and the list of
    methods, [None] for a null list. *)
Definition pref_target (compress : bool) (method_type : Z) :
    option (pref_variable * option (list (list Z))) :=
  let crypts := names (libssh2_crypt_methods cfg) in
  let macs := names (mac_methods cfg) in
  let comps := names (libssh2_comp_methods cfg compress) in
  if method_type =? LIBSSH2_METHOD_KEX then Some (PrefKex, Some (names (libssh2_kex_methods cfg)))
  else if method_type =? LIBSSH2_METHOD_HOSTKEY then
    Some (PrefHostkey, Some (names (libssh2_hostkey_methods cfg)))
  else if method_type =? LIBSSH2_METHOD_CRYPT_CS then Some (PrefCrypt Local, Some crypts)
  else if method_type =? LIBSSH2_METHOD_CRYPT_SC then Some (PrefCrypt Remote, Some crypts)
  else if method_type =? LIBSSH2_METHOD_MAC_CS then Some (PrefMac Local, Some macs)
  else if method_type =? LIBSSH2_METHOD_MAC_SC then Some (PrefMac Remote, Some macs)
  else if method_type =? LIBSSH2_METHOD_COMP_CS then Some (PrefComp Local, Some comps)
  else if method_type =? LIBSSH2_METHOD_COMP_SC then Some (PrefComp Remote, Some comps)
  else if method_type =? LIBSSH2_METHOD_LANG_CS then Some (PrefLang Local, None)
  else if method_type =? LIBSSH2_METHOD_LANG_SC then Some (PrefLang Remote, None)
  else if method_type =? LIBSSH2_METHOD_SIGN_ALGO then Some (PrefSignAlgo, None)
  else None.

(** [memcpy(p + dst, p + src, n)] within a block, [dst] below [src], as copied
    from the lowest byte up; the C standard leaves overlapping regions
    undefined. *)
Definition copy_down (p : ptr) (dst src n : Z) : CM unit :=
  let! d := block p in
  let! bytes := access (bytes_at d src n) in
  write_block p dst bytes.

(** The loop that strips the methods that are not supported. *)
Fixpoint strip_loop (fuel : nat) (newprefs : ptr) (s : Z) (mlist : list (list Z)) : CM unit :=
  match fuel with
  | O => fun _ => OutOfFuel
  | S fuel =>
      let! d := block newprefs in
      let! c := access (byte_at d s) in
      if c =? 0 then ret tt
      else
        let! p := access (strchr d s comma) in
        let! method_len := access (pref_len d s p) in
        let! m := access (kex_get_method_by_name d s method_len mlist) in
        match m, p with
        | None, Some p =>
            let! n := access (strlen d s) in
            copy_down newprefs s (p + 1) (n - method_len) ;;
            strip_loop fuel newprefs s mlist
        | None, None =>
            if 0 <? s then
              write_block newprefs (s - 1) [0] ;; strip_loop fuel newprefs (s - 1) mlist
            else write_block newprefs s [0] ;; strip_loop fuel newprefs s mlist
        | Some _, Some p => strip_loop fuel newprefs (p + 1) mlist
        | Some _, None => ret tt
        end
  end.

(** [libssh2_session_method_pref]; [prefs] is the string, without terminator. *)
Definition session_method_pref (method_type : Z) (prefs : list Z) : CM Z :=
  let prefs_len := s32 (lenZ prefs) in
  let! compress := gets (fun s => flag_compress (s_kex s)) in
  match pref_target compress method_type with
  | None => error LIBSSH2_ERROR_INVAL "Invalid parameter specified for method_type"
  | Some (prefvar, mlist) =>
      let! newprefs := alloc_block (replicate (Z.to_nat (prefs_len + 1)) 0) in
      match newprefs with
      | None => error LIBSSH2_ERROR_ALLOC "Error allocated space for method preferences"
      | Some newprefs =>
          let! src := access (bytes_at (prefs ++ [0]) 0 (prefs_len + 1)) in
          write_block newprefs 0 src ;;
          match mlist with
          | Some mlist => strip_loop (2 * S (length prefs)) newprefs 0 mlist
          | None => ret tt
          end ;;
          let! d := block newprefs in
          let! c := access (byte_at d 0) in
          if c =? 0 then
            free_block newprefs ;;
            error LIBSSH2_ERROR_METHOD_NOT_SUPPORTED
              "The requested method(s) are not currently supported"
          else
            let! old := gets (fun s => get_pref prefvar (s_kex s)) in
            free_opt old ;;
            set_pref prefvar (Some newprefs) ;;
            ret 0
      end
  end.

(** [libssh2_session_supported_algs]: the return value and the array, whose
    entries are the names; [algs] is whether the caller passed a place for it. *)
Definition session_supported_algs (method_type : Z) (algs : bool) : CM (Z * option (list (list Z))) :=
  let fail_with code msg := let! rc := error code msg in ret (rc, None) in
  let! compress := gets (fun s => flag_compress (s_kex s)) in
  if negb algs then fail_with LIBSSH2_ERROR_BAD_USE "algs must not be NULL"%string
  else
    let known := [LIBSSH2_METHOD_KEX; LIBSSH2_METHOD_HOSTKEY; LIBSSH2_METHOD_CRYPT_CS;
                  LIBSSH2_METHOD_CRYPT_SC; LIBSSH2_METHOD_MAC_CS; LIBSSH2_METHOD_MAC_SC;
                  LIBSSH2_METHOD_COMP_CS; LIBSSH2_METHOD_COMP_SC; LIBSSH2_METHOD_SIGN_ALGO] in
    if negb (bool_decide (method_type ∈ known)) then
      fail_with LIBSSH2_ERROR_METHOD_NOT_SUPPORTED "Unknown method type"%string
    else match pref_target compress method_type with
    | Some (_, Some ((_ :: _) as mlist)) =>
        let! ok := alloc_outcome in
        if (ok : bool) then ret (lenZ mlist, Some mlist)
        else fail_with LIBSSH2_ERROR_ALLOC "Memory allocation failed"%string
    | _ => fail_with LIBSSH2_ERROR_INVAL "No algorithm found"%string
    end.
End Kex.
