(* ===== verification/KexSpec.v ===== *)
(** * Theorems about method negotiation

    The search for a name in a list against membership in the list of names;
    the choice of every method against the rule of RFC 4253, section 7.1; the
    client's message, its construction within its buffer and its reading by
    the other side; preferences. *)

From stdpp Require Import base numbers list gmap strings.
From S2P Require Import Prelude Codes CString KexMethods Wire Session ChannelWindow Packet Conn Comp PacketSafety PacketWait Kex.

(** ** Names in lists *)

Lemma split_comma_len l t : t ∈ split_comma l -> (length t <= length l)%nat.
Proof.
  revert t. induction l as [|b l IH]; intros t; simpl.
  - by intros ->%list_elem_of_singleton.
  - destruct (b =? comma).
    + intros [->|Ht%IH]%elem_of_cons; simpl; lia.
    + pose proof (split_comma_nonempty l). destruct (split_comma l) as [|u us]; [done|].
      intros [->|Ht]%elem_of_cons; simpl.
      * specialize (IH u (list_elem_of_here _ _)). lia.
      * specialize (IH t (list_elem_of_further _ _ _ Ht)). lia.
Qed.

(** A list whose first name is [w] is [w] alone or [w] and a comma. *)
Lemma split_comma_head_app w v :
  no_comma w ->
  head (split_comma (w ++ v)) = Some w <-> match v with [] => True | c :: _ => c = comma end.
Proof.
  intros Hw. destruct v as [|c v].
  - rewrite app_nil_r, split_comma_last by done. done.
  - split.
    + destruct (decide (c = comma)) as [|Hc]; [done|]. intros H. exfalso.
      replace (w ++ c :: v) with ((w ++ [c]) ++ v) in H by (by rewrite <- app_assoc).
      assert (Hw' : no_comma (w ++ [c])) by (apply Forall_app; split; [done|by constructor]).
      destruct (split_comma_cases v) as [Hv|(t & r & -> & Ht)].
      * rewrite split_comma_last in H by (by apply Forall_app). simpl in H.
        assert (E : (w ++ [c]) ++ v = w) by congruence. apply (f_equal length) in E.
        rewrite !length_app in E. simpl in E. lia.
      * rewrite app_assoc, split_comma_app in H by (by apply Forall_app). simpl in H.
        assert (E : (w ++ [c]) ++ t = w) by congruence. apply (f_equal length) in E.
        rewrite !length_app in E. simpl in E. lia.
    + intros ->. rewrite split_comma_app by done. done.
Qed.

Lemma split_comma_head_prefix w l :
  head (split_comma l) = Some w -> exists v, l = w ++ v.
Proof.
  destruct (split_comma_cases l) as [Hl|(t & r & -> & Ht)].
  - rewrite split_comma_last by done. intros [= ->]. exists []. by rewrite app_nil_r.
  - rewrite split_comma_app by done. intros [= ->]. eauto.
Qed.

Section Instr.
(** The haystack [hay] is followed by at least one byte of its object; the
    needle [w] can be a method's name. *)
Context (a hay : list Z) (x : Z) (z b w y : list Z).
Context (Hw : Forall name_char w) (Hlen : lenZ hay < 2 ^ 64 - 1).
Let data := a ++ hay ++ x :: z.
Let ndl := b ++ w ++ y.

Lemma w_no_comma : no_comma w.
Proof. eapply Forall_impl; [apply Hw|]. by intros c []. Qed.

Lemma w_no_nul : no_nul w.
Proof. eapply Forall_impl; [apply Hw|]. by intros c []. Qed.

Lemma instr_at_spec u v :
  hay = u ++ v -> (length w <= length v)%nat ->
  instr_at data (lenZ a) (lenZ hay) (lenZ a + lenZ u) ndl (lenZ b) (lenZ w)
    = Some (bool_decide (head (split_comma v) = Some w)).
Proof.
  intros Hh Hv. unfold instr_at. replace (Z.to_nat (lenZ w)) with (length w) by (unfold lenZ; lia).
  rewrite (strncmp_eq_spec w (a ++ u) (v ++ x :: z) _ b y);
    [|apply w_no_nul|unfold data; rewrite Hh, <- !app_assoc; done|rewrite length_app; lia
     |by rewrite lenZ_app|done|done]. simpl.
  rewrite take_app_le by done. case_bool_decide as E.
  - assert (Ev : v = w ++ drop (length w) v) by (rewrite <- E at 1; by rewrite take_drop).
    revert Ev. generalize (drop (length w) v) as v'. intros v' Ev. clear E.
    rewrite Hh, Ev, !lenZ_app. destruct v' as [|c v'].
    + rewrite (proj2 (Z.eqb_eq _ _)) by (unfold lenZ; simpl; lia).
      rewrite bool_decide_true; [done|]. apply split_comma_head_app; [apply w_no_comma|done].
    + rewrite (proj2 (Z.eqb_neq _ _)) by (rewrite lenZ_cons; pose proof (lenZ_nonneg v'); lia).
      replace data with ((a ++ u ++ w) ++ c :: v' ++ x :: z)
        by (unfold data; rewrite Hh, Ev, <- !app_assoc; done).
      rewrite byte_at_head by (rewrite !lenZ_app; lia). simpl. f_equal.
      pose proof (split_comma_head_app w (c :: v') w_no_comma) as Hs. simpl in Hs.
      destruct (Z.eqb_spec c comma).
      * by rewrite bool_decide_true by tauto.
      * by rewrite bool_decide_false by tauto.
  - rewrite bool_decide_false; [done|]. intros (v' & ->)%split_comma_head_prefix.
    by rewrite take_app_length in E.
Qed.

Lemma instr_loop_spec fuel : forall u v left,
  hay = u ++ v -> (length v < fuel)%nat -> left = lenZ v \/ left = lenZ v + 1 ->
  instr_loop fuel data (lenZ a) (lenZ hay) (lenZ a + lenZ u) left ndl (lenZ b) (lenZ w)
    = Some (token_pos (tail (split_comma v))
              (lenZ a + lenZ u + lenZ (default [] (head (split_comma v))) + 1) w).
Proof.
  induction fuel as [|fuel IH]; intros u v left Hh Hf Hl; [lia|]. cbn [instr_loop].
  assert (Hd : data = (a ++ u) ++ v ++ x :: z) by (unfold data; rewrite Hh, <- !app_assoc; done).
  destruct (split_comma_cases v) as [Hv|(t & r & -> & Ht)].
  - rewrite split_comma_last by done. simpl.
    destruct (decide (left = lenZ v)) as [Hlv|Hlv].
    { rewrite (memchr_none _ (a ++ u) v _ _ (x :: z)); [done|done|by rewrite lenZ_app|unfold lenZ in *; lia|done]. }
    destruct (decide (x = comma)) as [->|Hx].
    + rewrite (memchr_app _ (a ++ u) v _ _ z); [|done|by rewrite lenZ_app|unfold lenZ in *; lia|done].
      simpl. replace (u64 _) with 0; [done|]. rewrite Hh, lenZ_app.
      by replace (_ - _) with 0 by lia.
    + rewrite (memchr_none _ (a ++ u) (v ++ [x]) _ _ z); [done| |by rewrite lenZ_app| |].
      * apply Forall_app; split; [done|by constructor].
      * rewrite length_app. unfold lenZ in *. simpl. lia.
      * rewrite Hd, <- !app_assoc. done.
  - rewrite split_comma_app by done. simpl.
    rewrite (memchr_app _ (a ++ u) t _ _ (r ++ x :: z));
      [|done|by rewrite lenZ_app|rewrite lenZ_app, lenZ_cons in Hl; unfold lenZ in *; lia
       |rewrite Hd, <- !app_assoc; done].
    simpl. set (left' := u64 _).
    assert (Hl' : left' = lenZ r + 1).
    { unfold left'. rewrite Hh, !lenZ_app, lenZ_cons. rewrite u64_small; [lia|].
      rewrite Hh, !lenZ_app, lenZ_cons in Hlen. pose proof (lenZ_nonneg u). pose proof (lenZ_nonneg t).
      pose proof (lenZ_nonneg r). lia. }
    rewrite Hl'. pose proof (lenZ_nonneg r).
    destruct (Z.ltb_spec (lenZ w) (lenZ r + 1)) as [Hwr|Hwr].
    + rewrite (proj2 (Z.leb_le 1 _)) by lia. rewrite (proj2 (Z.leb_le _ (lenZ hay))).
      2: { rewrite Hh, !lenZ_app, lenZ_cons. pose proof (lenZ_nonneg u). pose proof (lenZ_nonneg t). lia. }
      simpl.
      assert (Hh2 : hay = (u ++ t ++ [comma]) ++ r) by (rewrite Hh, <- !app_assoc; done).
      assert (Hs : lenZ a + lenZ u + lenZ t + 1 = lenZ a + lenZ (u ++ t ++ [comma]))
        by (rewrite !lenZ_app; unfold lenZ; simpl; lia).
      rewrite Hs. rewrite (instr_at_spec _ r Hh2) by (unfold lenZ in *; lia). simpl.
      pose proof (split_comma_nonempty r). destruct (split_comma r) as [|t' ts] eqn:Er; [done|]. simpl.
      case_bool_decide as E1; case_decide as E2; try congruence.
      specialize (IH _ r (lenZ r + 1) Hh2). rewrite Er in IH. simpl in IH. rewrite IH.
      * done.
      * rewrite length_app in Hf. simpl in Hf. lia.
      * by right.
    + rewrite andb_false_r. symmetry. f_equal. apply eq_None_not_Some.
      rewrite token_pos_elem. intros Hin%split_comma_len. unfold lenZ in *. lia.
Qed.

Lemma kex_agree_instr_spec :
  kex_agree_instr data (lenZ a) (lenZ hay) ndl (lenZ b) (lenZ w)
    = Some (if decide (w = []) then None else token_pos (split_comma hay) (lenZ a) w).
Proof.
  unfold kex_agree_instr. destruct (Z.eqb_spec (lenZ w) 0) as [H0|H0].
  { rewrite orb_true_r, decide_True; [done|]. destruct w; [done|unfold lenZ in H0; simpl in H0; lia]. }
  rewrite decide_False by (intros ->; done). rewrite orb_false_r.
  destruct (Z.ltb_spec (lenZ hay) (lenZ w)) as [Hs|Hs].
  - symmetry. f_equal. apply eq_None_not_Some. rewrite token_pos_elem.
    intros Hin%split_comma_len. unfold lenZ in *. lia.
  - pose proof (instr_at_spec [] hay eq_refl) as Ha. rewrite Z.add_0_r in Ha.
    rewrite Ha by (unfold lenZ in *; lia). cbn [mbind option_bind].
    pose proof (split_comma_nonempty hay). 
    pose proof (instr_loop_spec (S (Z.to_nat (lenZ hay))) [] hay (lenZ hay) eq_refl) as Hlp.
    rewrite Z.add_0_r in Hlp. rewrite Hlp by (first [by left|unfold lenZ; lia]).
    clear Ha Hlp. destruct (split_comma hay) as [|t ts]; [done|]. simpl.
    case_bool_decide as E1; case_decide as E2; congruence.
Qed.
End Instr.

(** [kex_agree_instr] decides membership in a name list. For a haystack
    inside a message and a needle without comma and 0, it returns without reading
    outside the message; it finds something exactly when the needle, not empty, is
    one of the names of the list, and what it finds is the start of the list
    exactly when that name is the first. *)
Theorem kex_agree_instr_membership a hay x z b w y
    (Hw : Forall name_char w) (Hlen : lenZ hay < 2 ^ 64 - 1) :
  exists r, kex_agree_instr (a ++ hay ++ x :: z) (lenZ a) (lenZ hay) (b ++ w ++ y) (lenZ b) (lenZ w) = Some r /\
    (is_Some r <-> w <> [] /\ w ∈ split_comma hay) /\
    (r = Some (lenZ a) <-> w <> [] /\ head (split_comma hay) = Some w).
Proof.
  eexists. split; [by apply kex_agree_instr_spec|]. case_decide as Hne.
  - split; (split; [|by intros []]); [by intros []|done].
  - rewrite token_pos_elem, token_pos_head. tauto.
Qed.

Lemma kex_agree_instr_membership_witness :
  exists r, kex_agree_instr ([20; 0] ++ str "aes128-ctr,aes128" ++ 44 :: [0]) 2 17 ([65] ++ str "aes128" ++ [44]) 1 6 = Some r /\
    (is_Some r <-> str "aes128" <> [] /\ str "aes128" ∈ split_comma (str "aes128-ctr,aes128")) /\
    (r = Some 2 <-> str "aes128" <> [] /\ head (split_comma (str "aes128-ctr,aes128")) = Some (str "aes128")).
Proof.
  apply (kex_agree_instr_membership [20; 0] (str "aes128-ctr,aes128") 44 [0] [65] (str "aes128") [44]);
    [apply (bool_decide_unpack _); by vm_compute|by vm_compute].
Defined.

(** ** The choice of a method *)

Section ByName.
Context {A : Type} `{CommonMethod A}.

Definition by_name (tbl : list A) (w : list Z) : option A :=
  List.find (fun m => bool_decide (method_name m = w)) tbl.

Lemma by_name_name tbl w m : by_name tbl w = Some m -> m ∈ tbl /\ method_name m = w.
Proof.
  intros [Hin Hb]%List.find_some. split; [by apply list_elem_of_In|]. by apply bool_decide_eq_true in Hb.
Qed.

Lemma by_name_nil tbl : table_ok tbl -> by_name tbl [] = None.
Proof.
  intros Ht. destruct (by_name tbl []) as [m|] eqn:E; [|done]. apply by_name_name in E as [Hin Hn].
  pose proof (proj1 (Forall_forall _ _) Ht m Hin) as [Hne _]. done.
Qed.

Lemma kex_get_method_by_name_spec tbl b w y :
  no_nul w ->
  kex_get_method_by_name (b ++ w ++ y) (lenZ b) (lenZ w) tbl = Some (by_name tbl w).
Proof.
  intros Hw. induction tbl as [|m tbl IH]; [done|]. cbn [kex_get_method_by_name by_name List.find].
  destruct (Z.eqb_spec (lenZ (method_name m)) (lenZ w)) as [Hl|Hl].
  - replace (Z.to_nat (lenZ w)) with (length w) by (unfold lenZ; lia).
    rewrite (strncmp_eq_spec w [] (method_name m ++ [0]) _ b y);
      [|done|done|rewrite length_app; unfold lenZ in Hl; lia|done|done|done].
    cbn [mbind option_bind]. rewrite take_app_le by (unfold lenZ in Hl; lia).
    rewrite take_ge by (unfold lenZ in Hl; lia).
    case_bool_decide; [done|]. apply IH.
  - rewrite bool_decide_false by congruence. apply IH.
Qed.

(** The server's list, laid out at [base], against the candidates in the
    client's order: the first that the server knows and that suits. *)
Fixpoint choose (server : list (list Z)) (base : Z) (ok : A -> bool) (cands : list A) :
    option (A * Z) :=
  match cands with
  | [] => None
  | m :: cands =>
      match token_pos server base (method_name m) with
      | Some q => if ok m then Some (m, q) else choose server base ok cands
      | None => choose server base ok cands
      end
  end.

(** RFC 4253, section 7.1: the first method on the client's list that is also
    on the server's. *)
Lemma choose_first server base ok cands :
  fst <$> choose server base ok cands
    = List.find (fun m => bool_decide (method_name m ∈ server) && ok m) cands.
Proof.
  induction cands as [|m cands IH]; [done|]. simpl.
  destruct (token_pos server base (method_name m)) as [q|] eqn:E.
  - rewrite bool_decide_true by (apply (token_pos_elem _ base); eauto). simpl. by destruct (ok m).
  - rewrite bool_decide_false; [done|]. rewrite <- (token_pos_elem _ base), E. by intros [].
Qed.

Lemma choose_pos server base ok cands m q :
  choose server base ok cands = Some (m, q) -> token_pos server base (method_name m) = Some q.
Proof.
  induction cands as [|m' cands IH]; simpl; [done|].
  destruct (token_pos server base (method_name m')) eqn:E; [|done]. destruct (ok m'); [|done].
  by intros [= -> ->].
Qed.

Lemma choose_ok server base ok cands m q : choose server base ok cands = Some (m, q) -> ok m = true.
Proof.
  induction cands as [|m' cands IH]; simpl; [done|].
  destruct (token_pos server base (method_name m')); [|done]. destruct (ok m') eqn:E; [|done].
  by intros [= -> ->].
Qed.

(** What the client offers: its preferences, if it has stated any. *)
Definition candidates (tbl : list A) (pref : option (list Z)) : list A :=
  match pref with Some l => omap (by_name tbl) (split_comma l) | None => tbl end.
End ByName.

(** A preference string that [libssh2_session_method_pref] may have stored. *)
Definition pref_ok (tbl : list (list Z)) (l : list Z) : Prop :=
  no_nul l /\ Forall (fun w => w = [] \/ w ∈ tbl) (split_comma l).

(** The preference behind a pointer. *)
Definition pref_at (h : gmap ptr (list Z)) (p : option ptr) (l : option (list Z)) : Prop :=
  match p, l with
  | Some p, Some l => exists junk, h !! p = Some (l ++ 0 :: junk)
  | None, None => True
  | _, _ => False
  end.

Section AgreeSpec.
Context {A : Type} `{CommonMethod A} (tbl : list A) (Htbl : table_ok tbl).
Context (a hay : list Z) (x : Z) (z : list Z) (Hlen : lenZ hay < 2 ^ 64 - 1).
Let data := a ++ hay ++ x :: z.
Let server := split_comma hay.
(** Accepting, in the state [s0]. *)
Context (accept : A -> Z -> CM bool) (ok : A -> bool) (s0 : session) (f : A -> Z -> session).
Context (Hacc : forall m q, m ∈ tbl -> accept m q s0 = if ok m then Ret true (f m q) else Ret false s0).

Definition chosen (c : option (A * Z)) : outcome session Z :=
  match c with Some (m, q) => Ret 0 (f m q) | None => Ret (-1) s0 end.

Lemma name_ok_char n : name_ok n -> Forall name_char n.
Proof. by intros []. Qed.

Lemma agree_table_spec ms :
  ms ⊆ tbl ->
  agree_table data (lenZ a) (lenZ hay) accept ms s0 = chosen (choose server (lenZ a) ok ms).
Proof.
  induction ms as [|m ms IH]; intros Hms; [done|].
  assert (Hm : m ∈ tbl) by (apply Hms; left). assert (Hn := proj1 (Forall_forall _ _) Htbl m Hm).
  specialize (IH ltac:(intros m' Hm'; apply Hms; by right)).
  cbn [agree_table choose]. unfold bind at 1.
  pose proof (kex_agree_instr_spec a hay x z [] (method_name m) [0] (name_ok_char _ Hn) Hlen) as Hi.
  simpl in Hi. change (lenZ []) with 0 in Hi. fold data in Hi. rewrite Hi.
  rewrite decide_False by apply Hn. cbn [access ret].
  fold server. destruct (token_pos server (lenZ a) (method_name m)) as [q|]; [|done].
  unfold bind. rewrite Hacc by done. by destruct (ok m).
Qed.

Lemma agree_name_spec u w v y p rest next :
  no_comma w -> no_nul w -> v = u ++ w ++ y -> (w = [] \/ w ∈ names tbl) ->
  pref_len v (lenZ u) p = Some (lenZ w) ->
  next s0 = chosen (choose server (lenZ a) ok (omap (by_name tbl) rest)) ->
  agree_name tbl data (lenZ a) (lenZ hay) accept v (lenZ u) p next s0
    = chosen (choose server (lenZ a) ok (omap (by_name tbl) (w :: rest))).
Proof.
  intros Hc Hn -> Hw Hp Hnext. unfold agree_name, bind at 1. rewrite Hp. cbn [access ret].
  unfold bind at 1, data. rewrite kex_agree_instr_spec; [|by apply Forall_and|done].
  cbn [access ret omap list_omap]. destruct (decide (w = [])) as [->|Hne]; [by rewrite by_name_nil|].
  destruct Hw as [|Hin]; [done|]. fold server. destruct (by_name tbl w) as [m|] eqn:Em.
  - destruct (by_name_name _ _ _ Em) as [Hm <-]. cbn [choose].
    destruct (token_pos server (lenZ a) (method_name m)) as [q|]; [|done].
    unfold bind at 1. rewrite kex_get_method_by_name_spec by done. rewrite Em. cbn [access ret].
    unfold bind. rewrite Hacc by done. by destruct (ok m).
  - exfalso. apply list_elem_of_In, in_map_iff in Hin as (m & Hmw & Hm).
    apply (List.find_none _ _ Em) in Hm. by apply bool_decide_eq_false in Hm.
Qed.

Lemma agree_prefs_spec fuel : forall u v junk,
  no_nul v -> Forall (fun w => w = [] \/ w ∈ names tbl) (split_comma v) -> (length v < fuel)%nat ->
  agree_prefs tbl data (lenZ a) (lenZ hay) accept fuel (u ++ v ++ 0 :: junk) (lenZ u) s0
    = chosen (choose server (lenZ a) ok (omap (by_name tbl) (split_comma v))).
Proof.
  induction fuel as [|fuel IH]; intros u v junk Hv Hsup Hf; [lia|]. cbn [agree_prefs].
  unfold bind at 1. destruct v as [|c v'].
  { rewrite (byte_at_head u 0 junk) by done. simpl. rewrite by_name_nil by done. done. }
  cbn [app]. rewrite (byte_at_head u c (v' ++ 0 :: junk)) by done.
  change (c :: v' ++ 0 :: junk) with ((c :: v') ++ 0 :: junk). cbn [access ret].
  rewrite (proj2 (Z.eqb_neq c 0)) by (by inversion Hv). revert Hv Hsup Hf. generalize (c :: v') as v.
  intros v Hv Hsup Hf. unfold bind at 1.
  destruct (split_comma_cases v) as [Hc|(t & r & -> & Hc)].
  - rewrite strchr_none by done. cbn [access ret]. rewrite split_comma_last in * by done.
    inversion Hsup. eapply agree_name_spec; [done|done|done|done| |done]. by apply strlen_app.
  - apply Forall_app in Hv as [Hnt Hr]. inversion Hr as [|? ? _ Hnr]; subst.
    rewrite split_comma_app in * by done. inversion Hsup. rewrite <- app_assoc, <- app_comm_cons.
    rewrite strchr_app by done. cbn [access ret].
    eapply agree_name_spec; [done|done|done|done|simpl; f_equal; lia|].
    specialize (IH (u ++ t ++ [comma]) r junk Hnr). rewrite <- !app_assoc in IH.
    replace (lenZ u + lenZ t + 1) with (lenZ (u ++ t ++ [comma]))
      by (rewrite !lenZ_app; unfold lenZ; simpl; lia).
    apply IH; [done|]. rewrite length_app in Hf. simpl in Hf. lia.
Qed.

Lemma agree_method_spec prefs pref :
  pref_at (s_heap s0) prefs pref -> (forall l, pref = Some l -> pref_ok (names tbl) l) ->
  agree_method tbl data (lenZ a) (lenZ hay) accept prefs s0
    = chosen (choose server (lenZ a) ok (candidates tbl pref)).
Proof.
  intros Hp Hok. destruct prefs as [p|], pref as [l|]; simpl in Hp; try done.
  - destruct Hp as [junk Hp]. destruct (Hok l eq_refl) as [Hn Hs].
    unfold agree_method, bind, block, bind, gets. rewrite Hp. cbn [access ret].
    apply (agree_prefs_spec _ []); [done|done|]. rewrite length_app. simpl. lia.
  - by apply agree_table_spec.
Qed.
End AgreeSpec.
