(* ===== verification/KexAgree.v ===== *)
(** * Theorems about the choice of methods

    [kex_agree_methods] against the rule of RFC 4253, section 7.1, for every
    message that has the format of [SSH_MSG_KEXINIT], and its safety for every
    message at all. *)

From stdpp Require Import base numbers list gmap strings.
From S2P Require Import Prelude Codes CString KexMethods Wire Session ChannelWindow Packet Conn Comp PacketSafety PacketWait Kex KexSpec.

(** ** What the client offers *)

(** The string behind a preference pointer. *)
Definition pref_string (h : gmap ptr (list Z)) (p : option ptr) : option (list Z) :=
  p ← p; d ← h !! p; c_string d.

(** The pointer is null, or it points to a string [libssh2_session_method_pref]
    may have stored. *)
Definition pref_ready (tbl : list (list Z)) (h : gmap ptr (list Z)) (p : option ptr) : Prop :=
  match p with
  | None => True
  | Some p => exists l junk, h !! p = Some (l ++ 0 :: junk) /\ pref_ok tbl l
  end.

Lemma pref_ready_at tbl h p :
  pref_ready tbl h p ->
  pref_at h p (pref_string h p) /\ (forall l, pref_string h p = Some l -> pref_ok tbl l).
Proof.
  destruct p as [p|]; simpl; [|by split]. intros (l & junk & Hp & Hn & Hs). unfold pref_string. simpl.
  rewrite Hp. simpl. rewrite c_string_app by done. split; [eauto|]. by intros ? [= <-].
Qed.

Section Offer.
Context (cfg : build).

(** Every preference that takes part in the choice can be used. *)
Definition prefs_ready (h : gmap ptr (list Z)) (k : kex_data) : Prop :=
  pref_ready (names (libssh2_kex_methods cfg)) h (kex_prefs k) /\
  pref_ready (names (libssh2_hostkey_methods cfg)) h (hostkey_prefs k) /\
  forall e,
    pref_ready (names (libssh2_crypt_methods cfg)) h (crypt_prefs (kex_ep e k)) /\
    pref_ready (names (mac_methods cfg)) h (mac_prefs (kex_ep e k)) /\
    pref_ready (names (libssh2_comp_methods cfg (flag_compress k))) h (comp_prefs (kex_ep e k)).

(** The client's methods of each kind, in its order. *)
Definition offer_kex (s : session) : list LIBSSH2_KEX_METHOD :=
  candidates (libssh2_kex_methods cfg) (pref_string (s_heap s) (kex_prefs (s_kex s))).
Definition offer_hostkey (s : session) : list LIBSSH2_HOSTKEY_METHOD :=
  candidates (libssh2_hostkey_methods cfg) (pref_string (s_heap s) (hostkey_prefs (s_kex s))).
Definition offer_crypt (s : session) (e : endpoint) : list LIBSSH2_CRYPT_METHOD :=
  candidates (libssh2_crypt_methods cfg) (pref_string (s_heap s) (crypt_prefs (kex_ep e (s_kex s)))).
Definition offer_mac (s : session) (e : endpoint) : list LIBSSH2_MAC_METHOD :=
  candidates (mac_methods cfg) (pref_string (s_heap s) (mac_prefs (kex_ep e (s_kex s)))).
Definition offer_comp (s : session) (e : endpoint) : list LIBSSH2_COMP_METHOD :=
  candidates (libssh2_comp_methods cfg (flag_compress (s_kex s)))
    (pref_string (s_heap s) (comp_prefs (kex_ep e (s_kex s)))).

(** ** One choice *)

(** A string of a message: [n] bytes at [o], with at least one more after them. *)
Definition located (data : list Z) (hay : list Z) (o n : Z) : Prop :=
  exists a x z, data = a ++ hay ++ x :: z /\ o = lenZ a /\ n = lenZ hay /\ lenZ hay < 2 ^ 64 - 1.

(** The states after a choice. *)
Definition took_hostkey (m : LIBSSH2_HOSTKEY_METHOD) (s : session) : session :=
  s <| s_kex ::= fun k => k <| kx_hostkey := Some m |> |>.
Definition took_kex (m : LIBSSH2_KEX_METHOD) (first : bool) (s : session) : session :=
  s <| s_kex ::= fun k =>
    let k := k <| kx_kex := Some m |> in
    if negb (burn_optimistic_kexinit k =? 0) && first then k <| burn_optimistic_kexinit := 0 |> else k |>.
Definition on_ep (e : endpoint) (f : kex_endpoint -> kex_endpoint)
    (g : libssh2_endpoint_data -> libssh2_endpoint_data) (s : session) : session :=
  match e with
  | Local => s <| s_kex ::= fun k => k <| kx_local ::= f |> |> <| s_local ::= g |>
  | Remote => s <| s_kex ::= fun k => k <| kx_remote ::= f |> |> <| s_remote ::= g |>
  end.
Definition took_crypt (e : endpoint) (m : LIBSSH2_CRYPT_METHOD) : session -> session :=
  on_ep e (fun k => k <| ke_crypt := Some m |>) (fun x => x <| ep_blocksize := crm_blocksize m |>).
Definition took_mac (e : endpoint) (m : LIBSSH2_MAC_METHOD) : session -> session :=
  on_ep e (fun k => k <| ke_mac := Some m |>) (fun x => x <| ep_mac_len := macm_mac_len m |>).
Definition took_comp (e : endpoint) (m : LIBSSH2_COMP_METHOD) : session -> session :=
  on_ep e (fun k => k <| ke_comp := Some m |>)
    (fun x => x <| ep_comp := Some (com_compress m, com_use_in_auth m) |>).

(** The rule: the first of the client's methods the server lists too. *)
Definition first_common {A} `{CommonMethod A} (offer : list A) (hay : list Z) : option A :=
  List.find (fun m => bool_decide (method_name m ∈ split_comma hay)) offer.

Lemma choose_first_common {A} `{CommonMethod A} (hay : list Z) base (offer : list A) :
  fst <$> choose (split_comma hay) base (fun _ => true) offer = first_common offer hay.
Proof.
  rewrite choose_first. unfold first_common. induction offer as [|m offer IH]; [done|]. simpl.
  rewrite andb_true_r. by destruct (bool_decide _).
Qed.

(** The outcome of a choice. *)
Definition took {A} (c : option A) (f : A -> session) (s : session) : outcome session Z :=
  match c with Some m => Ret 0 (f m) | None => Ret (-1) s end.

Lemma chosen_took {A} `{CommonMethod A} s (f : A -> session) hay base ok offer :
  chosen s (fun m _ => f m) (choose (split_comma hay) base ok offer)
    = took (fst <$> choose (split_comma hay) base ok offer) f s.
Proof. by destruct (choose _ _ _ _) as [[]|]. Qed.

Lemma kex_agree_crypt_spec e data hay o n s :
  prefs_ready (s_heap s) (s_kex s) -> located data hay o n ->
  kex_agree_crypt cfg e data o n s = took (first_common (offer_crypt s e) hay) (fun m => took_crypt e m s) s.
Proof.
  intros (_ & _ & Hp) (a & x & z & -> & -> & -> & Hl). destruct (Hp e) as (Hc & _ & _).
  apply pref_ready_at in Hc as [Hc Hok]. unfold kex_agree_crypt, bind at 1, gets.
  rewrite (agree_method_spec _ (crypt_table_ok cfg) a hay x z Hl _ (fun _ => true) s
             (fun m _ => took_crypt e m s)) with (pref := pref_string _ _) by (done || by intros; destruct e).
  by rewrite chosen_took, choose_first_common.
Qed.

Lemma kex_agree_mac_spec e data hay o n s :
  prefs_ready (s_heap s) (s_kex s) -> located data hay o n ->
  kex_agree_mac cfg e data o n s = took (first_common (offer_mac s e) hay) (fun m => took_mac e m s) s.
Proof.
  intros (_ & _ & Hp) (a & x & z & -> & -> & -> & Hl). destruct (Hp e) as (_ & Hc & _).
  apply pref_ready_at in Hc as [Hc Hok]. unfold kex_agree_mac, bind at 1, gets.
  rewrite (agree_method_spec _ (mac_table_ok cfg) a hay x z Hl _ (fun _ => true) s
             (fun m _ => took_mac e m s)) with (pref := pref_string _ _) by (done || by intros; destruct e).
  by rewrite chosen_took, choose_first_common.
Qed.

Lemma kex_agree_comp_spec e data hay o n s :
  prefs_ready (s_heap s) (s_kex s) -> located data hay o n ->
  kex_agree_comp cfg e data o n s = took (first_common (offer_comp s e) hay) (fun m => took_comp e m s) s.
Proof.
  intros (_ & _ & Hp) (a & x & z & -> & -> & -> & Hl). destruct (Hp e) as (_ & _ & Hc).
  apply pref_ready_at in Hc as [Hc Hok]. unfold kex_agree_comp, bind at 1, gets, bind at 1.
  rewrite (agree_method_spec _ (comp_table_ok cfg _) a hay x z Hl _ (fun _ => true) s
             (fun m _ => took_comp e m s)) with (pref := pref_string _ _) by (done || by intros; destruct e).
  by rewrite chosen_took, choose_first_common.
Qed.

(** The host key for a key exchange method: one that can do what it needs. *)
Definition first_hostkey (offer : list LIBSSH2_HOSTKEY_METHOD) (hay : list Z) (flags : Z) :
    option LIBSSH2_HOSTKEY_METHOD :=
  List.find (fun m => bool_decide (method_name m ∈ split_comma hay) && hostkey_suits flags m) offer.

Lemma kex_agree_hostkey_spec flags data hay o n s :
  prefs_ready (s_heap s) (s_kex s) -> located data hay o n ->
  kex_agree_hostkey cfg flags data o n s
    = took (first_hostkey (offer_hostkey s) hay flags) (fun m => took_hostkey m s) s.
Proof.
  intros (_ & Hh & _) (a & x & z & -> & -> & -> & Hl).
  apply pref_ready_at in Hh as [Hc Hok]. unfold kex_agree_hostkey, bind at 1, gets.
  rewrite (agree_method_spec _ (hostkey_table_ok cfg) a hay x z Hl _ (hostkey_suits flags) s
             (fun m _ => took_hostkey m s)) with (pref := pref_string _ _)
    by (done || by intros m q _; destruct (hostkey_suits flags m)).
  by rewrite chosen_took, choose_first.
Qed.

(** The key exchange method: the first for which there is a host key too. *)
Definition first_kex (offer : list LIBSSH2_KEX_METHOD) (hostkeys : list LIBSSH2_HOSTKEY_METHOD)
    (kex hostkey : list Z) : option LIBSSH2_KEX_METHOD :=
  List.find (fun m => bool_decide (method_name m ∈ split_comma kex) &&
                      bool_decide (is_Some (first_hostkey hostkeys hostkey (kexm_flags m)))) offer.

Lemma kex_agree_kex_hostkey_spec data kex hostkey o n ho hn s :
  prefs_ready (s_heap s) (s_kex s) -> located data kex o n -> located data hostkey ho hn ->
  kex_agree_kex_hostkey cfg data o n ho hn s
    = match first_kex (offer_kex s) (offer_hostkey s) kex hostkey with
      | Some m =>
          match first_hostkey (offer_hostkey s) hostkey (kexm_flags m) with
          | Some h => Ret 0 (took_kex m (bool_decide (head (split_comma kex) = Some (method_name m)))
                               (took_hostkey h s))
          | None => Ret (-1) s
          end
      | None => Ret (-1) s
      end.
Proof.
  intros Hp (a & x & z & -> & -> & -> & Hl) Hh. pose proof Hp as (Hk & _ & _).
  apply pref_ready_at in Hk as [Hc Hok]. unfold kex_agree_kex_hostkey, bind at 1, gets.
  set (hk m := first_hostkey (offer_hostkey s) hostkey (kexm_flags m)).
  set (f := fun m q => match hk m with
    | Some h => took_kex m (bool_decide (lenZ a = q)) (took_hostkey h s)
    | None => s end).
  rewrite (agree_method_spec _ (kex_table_ok cfg) a kex x z Hl _ (fun m => bool_decide (is_Some (hk m))) s f)
    with (pref := pref_string (s_heap s) (kex_prefs (s_kex s))); [|clear Hc Hok|done|done].
  2: { intros m q _. unfold bind at 1. rewrite (kex_agree_hostkey_spec _ _ _ _ _ _ Hp Hh).
       unfold f. fold (hk m). destruct (hk m) as [h|]; [|done].
       rewrite bool_decide_true by eauto. cbn [took]. unfold bind, ret, set_kex, modify, took_kex.
       simpl (0 =? 0). cbn [negb]. repeat f_equal.
       destruct (Z.eqb_spec (lenZ a) q); [by rewrite bool_decide_true|by rewrite bool_decide_false]. }
  unfold first_kex. fold (offer_kex s).
  change (fun m => bool_decide (method_name m ∈ split_comma kex) && bool_decide (is_Some (hk m)))
    with (fun m => bool_decide (method_name m ∈ split_comma kex) && (fun m => bool_decide (is_Some (hk m))) m).
  rewrite <- (choose_first (split_comma kex) (lenZ a)).
  destruct (choose _ _ _ _) as [[m q]|] eqn:E; [|done]. simpl. unfold f. fold (hk m).
  destruct (hk m) as [h|] eqn:Eh.
  - replace (bool_decide (lenZ a = q)) with (bool_decide (head (split_comma kex) = Some (method_name m))); [done|].
    apply bool_decide_ext. rewrite <- (token_pos_head _ (lenZ a)).
    rewrite (choose_pos _ _ _ _ _ _ E). split; [by intros [=]|by intros ->].
  - apply choose_ok in E. by rewrite Eh in E.
Qed.

(** ** All choices *)

(** What the offers depend on. *)
Definition same_offer (s s' : session) : Prop :=
  s_heap s' = s_heap s /\ flag_compress (s_kex s') = flag_compress (s_kex s) /\
  kex_prefs (s_kex s') = kex_prefs (s_kex s) /\ hostkey_prefs (s_kex s') = hostkey_prefs (s_kex s) /\
  forall e,
    crypt_prefs (kex_ep e (s_kex s')) = crypt_prefs (kex_ep e (s_kex s)) /\
    mac_prefs (kex_ep e (s_kex s')) = mac_prefs (kex_ep e (s_kex s)) /\
    comp_prefs (kex_ep e (s_kex s')) = comp_prefs (kex_ep e (s_kex s)).

#[local] Instance same_offer_trans : Transitive same_offer.
Proof.
  intros s1 s2 s3 (A1 & A2 & A3 & A4 & A5) (B1 & B2 & B3 & B4 & B5). unfold same_offer.
  rewrite B1, B2, B3, B4. split_and!; [done..|]. intros e.
  destruct (A5 e) as (C1 & C2 & C3), (B5 e) as (D1 & D2 & D3). by rewrite D1, D2, D3.
Qed.

Lemma same_offer_ready s s' :
  same_offer s s' -> prefs_ready (s_heap s) (s_kex s) -> prefs_ready (s_heap s') (s_kex s').
Proof.
  intros (A1 & A2 & A3 & A4 & A5) (Hk & Hh & Hp). unfold prefs_ready. rewrite A1, A2, A3, A4.
  split_and!; [done..|]. intros e. destruct (A5 e) as (-> & -> & ->). apply Hp.
Qed.

Lemma same_offer_offers s s' :
  same_offer s s' -> forall e,
  offer_crypt s' e = offer_crypt s e /\ offer_mac s' e = offer_mac s e /\ offer_comp s' e = offer_comp s e.
Proof.
  intros (A1 & A2 & A3 & A4 & A5) e. destruct (A5 e) as (B1 & B2 & B3).
  unfold offer_crypt, offer_mac, offer_comp. by rewrite A1, A2, B1, B2, B3.
Qed.

Lemma same_offer_on_ep e f g s :
  (forall k, crypt_prefs (f k) = crypt_prefs k /\ mac_prefs (f k) = mac_prefs k /\
             comp_prefs (f k) = comp_prefs k) ->
  same_offer s (on_ep e f g s).
Proof.
  intros Hf. unfold same_offer. destruct e; (split_and!; [done..|]); intros []; simpl;
    first [by split_and!|apply Hf].
Qed.

Lemma same_offer_took_kex m b h s : same_offer s (took_kex m b (took_hostkey h s)).
Proof.
  unfold same_offer, took_kex. simpl. destruct (_ && b); (split_and!; [done..|]); by intros [].
Qed.

(** The lists of a server's message. *)
Record server_lists := mk_server_lists {
  sl_kex : list Z; sl_hostkey : list Z;
  sl_crypt : endpoint -> list Z;
  sl_mac : endpoint -> list Z;
  sl_comp : endpoint -> list Z
}.

Record agreement := mk_agreement {
  ag_kex : LIBSSH2_KEX_METHOD;
  ag_hostkey : LIBSSH2_HOSTKEY_METHOD;
  ag_crypt : endpoint -> LIBSSH2_CRYPT_METHOD;
  ag_mac : endpoint -> LIBSSH2_MAC_METHOD;
  ag_comp : endpoint -> LIBSSH2_COMP_METHOD
}.

Definition per_endpoint {A} (local remote : A) (e : endpoint) : A :=
  match e with Local => local | Remote => remote end.

(** RFC 4253, section 7.1. *)
Definition rfc4253_agreement (s : session) (srv : server_lists) : option agreement :=
  kex ← first_kex (offer_kex s) (offer_hostkey s) (sl_kex srv) (sl_hostkey srv);
  hostkey ← first_hostkey (offer_hostkey s) (sl_hostkey srv) (kexm_flags kex);
  crypt_cs ← first_common (offer_crypt s Local) (sl_crypt srv Local);
  crypt_sc ← first_common (offer_crypt s Remote) (sl_crypt srv Remote);
  mac_cs ← first_common (offer_mac s Local) (sl_mac srv Local);
  mac_sc ← first_common (offer_mac s Remote) (sl_mac srv Remote);
  comp_cs ← first_common (offer_comp s Local) (sl_comp srv Local);
  comp_sc ← first_common (offer_comp s Remote) (sl_comp srv Remote);
  Some (mk_agreement kex hostkey (per_endpoint crypt_cs crypt_sc) (per_endpoint mac_cs mac_sc)
          (per_endpoint comp_cs comp_sc)).

(** The session uses the agreed methods. *)
Definition uses (s : session) (ag : agreement) : Prop :=
  kx_kex (s_kex s) = Some (ag_kex ag) /\ kx_hostkey (s_kex s) = Some (ag_hostkey ag) /\
  forall e,
    ke_crypt (kex_ep e (s_kex s)) = Some (ag_crypt ag e) /\
    ke_mac (kex_ep e (s_kex s)) = Some (ag_mac ag e) /\
    ke_comp (kex_ep e (s_kex s)) = Some (ag_comp ag e) /\
    let x := match e with Local => s_local s | Remote => s_remote s end in
    ep_blocksize x = crm_blocksize (ag_crypt ag e) /\ ep_mac_len x = macm_mac_len (ag_mac ag e) /\
    ep_comp x = Some (com_compress (ag_comp ag e), com_use_in_auth (ag_comp ag e)).

Lemma first_failure_step {A} (m : CM Z) calls s (c : option A) f :
  m s = took c f s ->
  first_failure (m :: calls) s
    = match c with Some x => first_failure calls (f x) | None => Ret (-1) s end.
Proof. intros H. cbn [first_failure fold_right]. unfold bind. rewrite H. by destruct c. Qed.

(** The calls of [kex_agree_methods], from a state with the offers of [s]. *)
Section Calls.
Context (s s1 : session) (data : list Z) (srv : server_lists).
Context (Hready : prefs_ready (s_heap s) (s_kex s)) (Hoff : same_offer s s1).

Lemma crypt_call e o n calls :
  located data (sl_crypt srv e) o n ->
  first_failure (kex_agree_crypt cfg e data o n :: calls) s1
    = match first_common (offer_crypt s e) (sl_crypt srv e) with
      | Some m => first_failure calls (took_crypt e m s1)
      | None => Ret (-1) s1
      end.
Proof.
  intros Hl. apply first_failure_step. rewrite <- (proj1 (same_offer_offers _ _ Hoff e)).
  apply kex_agree_crypt_spec; [by eapply same_offer_ready|done].
Qed.

Lemma mac_call e o n calls :
  located data (sl_mac srv e) o n ->
  first_failure (kex_agree_mac cfg e data o n :: calls) s1
    = match first_common (offer_mac s e) (sl_mac srv e) with
      | Some m => first_failure calls (took_mac e m s1)
      | None => Ret (-1) s1
      end.
Proof.
  intros Hl. apply first_failure_step. destruct (same_offer_offers _ _ Hoff e) as (_ & <- & _).
  apply kex_agree_mac_spec; [by eapply same_offer_ready|done].
Qed.

Lemma comp_call e o n calls :
  located data (sl_comp srv e) o n ->
  first_failure (kex_agree_comp cfg e data o n :: calls) s1
    = match first_common (offer_comp s e) (sl_comp srv e) with
      | Some m => first_failure calls (took_comp e m s1)
      | None => Ret (-1) s1
      end.
Proof.
  intros Hl. apply first_failure_step. destruct (same_offer_offers _ _ Hoff e) as (_ & _ & <-).
  apply kex_agree_comp_spec; [by eapply same_offer_ready|done].
Qed.
End Calls.

Lemma same_offer_kex_hostkey s s' :
  same_offer s s' -> offer_kex s' = offer_kex s /\ offer_hostkey s' = offer_hostkey s.
Proof.
  intros (A1 & A2 & A3 & A4 & A5). unfold offer_kex, offer_hostkey. by rewrite A1, A3, A4.
Qed.

Lemma kex_call s s1 data srv o n ho hn calls :
  prefs_ready (s_heap s) (s_kex s) -> same_offer s s1 ->
  located data (sl_kex srv) o n -> located data (sl_hostkey srv) ho hn ->
  first_failure (kex_agree_kex_hostkey cfg data o n ho hn :: calls) s1
    = match first_kex (offer_kex s) (offer_hostkey s) (sl_kex srv) (sl_hostkey srv) with
      | Some m =>
          match first_hostkey (offer_hostkey s) (sl_hostkey srv) (kexm_flags m) with
          | Some h => first_failure calls
              (took_kex m (bool_decide (head (split_comma (sl_kex srv)) = Some (method_name m)))
                 (took_hostkey h s1))
          | None => Ret (-1) s1
          end
      | None => Ret (-1) s1
      end.
Proof.
  intros Hr Hoff Hk Hh. cbn [first_failure fold_right]. unfold bind.
  rewrite (kex_agree_kex_hostkey_spec _ _ _ _ _ _ _ _ (same_offer_ready _ _ Hoff Hr) Hk Hh).
  destruct (same_offer_kex_hostkey _ _ Hoff) as [-> ->].
  destruct (first_kex _ _ _ _) as [m|]; [|done]. by destruct (first_hostkey _ _ _).
Qed.

Lemma uses_took s k first h c m p :
  uses (took_comp Remote (p Remote) (took_comp Local (p Local)
         (took_mac Remote (m Remote) (took_mac Local (m Local)
           (took_crypt Remote (c Remote) (took_crypt Local (c Local)
             (took_kex k first (took_hostkey h s))))))))
    (mk_agreement k h c m p).
Proof.
  unfold uses, took_comp, took_mac, took_crypt, on_ep, took_kex, took_hostkey. simpl.
  destruct (_ && first); (split_and!; [done..|]); by intros [].
Qed.

Create HintDb offer.
Lemma same_offer_crypt s s1 e m : same_offer s s1 -> same_offer s (took_crypt e m s1).
Proof. intros H. etrans; [done|]. by apply same_offer_on_ep. Qed.
Lemma same_offer_mac s s1 e m : same_offer s s1 -> same_offer s (took_mac e m s1).
Proof. intros H. etrans; [done|]. by apply same_offer_on_ep. Qed.
Lemma same_offer_comp s s1 e m : same_offer s s1 -> same_offer s (took_comp e m s1).
Proof. intros H. etrans; [done|]. by apply same_offer_on_ep. Qed.
Lemma same_offer_kex s s1 k b h : same_offer s s1 -> same_offer s (took_kex k b (took_hostkey h s1)).
Proof. intros H. etrans; [done|]. apply same_offer_took_kex. Qed.
#[local] Hint Resolve same_offer_crypt same_offer_mac same_offer_comp same_offer_kex : offer.

(** One more call: it chooses, or everything ends. *)
Ltac next_call lem :=
  erewrite lem by eauto 12 with offer;
  destruct (first_common _ _); [|by eexists]; cbn [mbind option_bind].

(** All calls of [kex_agree_methods]. *)
Lemma agree_calls s s1 data srv o n ho hn co cn co' cn' mo mn mo' mn' po pn po' pn' :
  prefs_ready (s_heap s) (s_kex s) -> same_offer s s1 ->
  located data (sl_kex srv) o n -> located data (sl_hostkey srv) ho hn ->
  located data (sl_crypt srv Local) co cn -> located data (sl_crypt srv Remote) co' cn' ->
  located data (sl_mac srv Local) mo mn -> located data (sl_mac srv Remote) mo' mn' ->
  located data (sl_comp srv Local) po pn -> located data (sl_comp srv Remote) po' pn' ->
  exists s', first_failure
      [kex_agree_kex_hostkey cfg data o n ho hn;
       kex_agree_crypt cfg Local data co cn; kex_agree_crypt cfg Remote data co' cn';
       kex_agree_mac cfg Local data mo mn; kex_agree_mac cfg Remote data mo' mn';
       kex_agree_comp cfg Local data po pn; kex_agree_comp cfg Remote data po' pn'] s1
    = Ret (match rfc4253_agreement s srv with Some _ => 0 | None => -1 end) s' /\
    match rfc4253_agreement s srv with Some ag => uses s' ag | None => True end.
Proof.
  intros Hr Hoff Hk Hh Hc Hc' Hm Hm' Hp Hp'. unfold rfc4253_agreement.
  rewrite (kex_call s s1 data srv) by done.
  destruct (first_kex _ _ _ _) as [k|]; [|by eexists]. cbn [mbind option_bind].
  destruct (first_hostkey _ _ _) as [h|]; [|by eexists]. cbn [mbind option_bind].
  next_call (crypt_call s). next_call (crypt_call s).
  next_call (mac_call s). next_call (mac_call s).
  next_call (comp_call s). next_call (comp_call s).
  eexists. split; [done|]. apply (uses_took _ _ _ _ (per_endpoint _ _) (per_endpoint _ _) (per_endpoint _ _)).
Qed.
End Offer.

(** ** The strings of a message *)

Lemma get_string_span buf rc str buf' :
  sb_ok buf -> get_string buf None = Some (rc, Some str, buf') ->
  sb_ptr buf <= sb_ptr buf' - lenZ str.
Proof.
  intros Hok. unfold get_string. destruct (get_u32 buf 0) as [[[rc1 n] b1]|] eqn:E1; [|done]. simpl.
  destruct (get_u32_ok buf 0 Hok) as (? & ? & ? & E & _ & _ & _ & _ & Hp). simplify_eq.
  destruct (rc1 =? 0); [|done]. simpl. destruct (check_length b1 n); [|done]. simpl.
  unfold bytes_at. case_decide as Hb; [|done]. simpl. intros [= <- <- <-]. simpl.
  rewrite lenZ_slice by lia. lia.
Qed.

(** Whatever the message, the located strings are inside it. *)
Lemma locate_strings_safe n buf :
  sb_ok buf -> bytes_ok (sb_data buf) ->
  exists r buf', locate_strings n buf = Some (r, buf') /\ sb_ok buf' /\
    sb_data buf' = sb_data buf /\ sb_len buf' = sb_len buf /\ sb_ptr buf <= sb_ptr buf' /\
    (forall ps, r = Some ps -> length ps = n /\
       Forall (fun p => 0 <= p.1 /\ 0 <= p.2 /\ p.1 + p.2 <= sb_ptr buf') ps).
Proof.
  revert buf. induction n as [|n IH]; intros buf Hok Hb.
  { exists (Some []), buf. split_and!; try done. by intros ? [= <-]. }
  cbn [locate_strings]. destruct (get_string_ok buf None Hok Hb) as (rc & out & b1 & E & _ & Hok1 & Hd & Hl & Hp).
  rewrite E. cbn [mbind option_bind]. destruct out as [str|].
  - pose proof (get_string_span _ _ _ _ Hok E) as Hs0. pose proof (sb_ok_ptr _ Hok).
    rewrite <- Hd in Hb. destruct (IH b1 Hok1 Hb) as (r & b2 & E2 & Hok2 & Hd2 & Hl2 & Hp2 & Hr).
    rewrite E2. cbn [mbind option_bind]. eexists _, b2. split; [done|].
    split_and!; [done|congruence|congruence|lia|]. intros ps Hps.
    destruct r as [ps'|]; [|done]. injection Hps as <-. destruct (Hr ps' eq_refl) as [Hn Hf].
    split; [simpl; lia|]. constructor; [|done]. simpl. pose proof (lenZ_nonneg str). lia.
  - exists None, b1. split_and!; done.
Qed.

(** A string of a message that has another byte after it. *)
Lemma located_slice data o n m :
  0 <= o -> 0 <= n -> o + n <= m -> m < lenZ data -> lenZ data < 2 ^ 64 -> located data (slice o n data) o n.
Proof.
  intros Ho Hn Hm Hd Hsz. assert (Hl : lenZ (slice o n data) = n) by (apply lenZ_slice; lia).
  destruct (drop (Z.to_nat (o + n)) data) as [|x z] eqn:E.
  { apply (f_equal length) in E. rewrite length_drop in E. simpl in E. unfold lenZ in *. lia. }
  exists (take (Z.to_nat o) data), x, z. split_and!.
  - rewrite <- E. unfold slice. replace (Z.to_nat (o + n)) with (Z.to_nat o + Z.to_nat n)%nat by lia.
    rewrite <- drop_drop, take_drop, take_drop. done.
  - unfold lenZ in *. rewrite length_take. lia.
  - done.
  - lia.
Qed.

(** What a server's message means: its lists, where [kex_agree_methods] finds
    them; [None] when it does not find all. *)
Definition message_lists (data : list Z) (data_len : Z) : option server_lists :=
  if data_len <? 17 then None
  else match locate_strings 8 (mk_string_buf data 17 data_len) with
  | Some (Some [k; h; c; c'; m; m'; p; p'], buf) =>
      let at_ (x : Z * Z) := slice x.1 x.2 data in
      if check_length buf 1 then
        Some (mk_server_lists (at_ k) (at_ h) (per_endpoint (at_ c) (at_ c'))
                (per_endpoint (at_ m) (at_ m')) (per_endpoint (at_ p) (at_ p')))
      else None
  | _ => None
  end.

Lemma same_offer_burn s b : same_offer s (s <| s_kex ::= fun k => k <| burn_optimistic_kexinit := b |> |>).
Proof. unfold same_offer. simpl. split_and!; [done..|]. by intros []. Qed.

Lemma kex_agree_methods_core cfg data data_len s :
  bytes_ok data -> 0 <= data_len <= lenZ data -> lenZ data < 2 ^ 32 ->
  prefs_ready cfg (s_heap s) (s_kex s) ->
  let ag := srv ← message_lists data data_len; rfc4253_agreement cfg s srv in
  exists s', kex_agree_methods cfg data data_len s = Ret (match ag with Some _ => 0 | None => -1 end) s' /\
    match ag with Some ag => uses s' ag | None => True end.
Proof.
  intros Hb Hl Hsz Hr. unfold message_lists, kex_agree_methods. destruct (Z.ltb_spec data_len 17); [by eexists|].
  assert (Hok : sb_ok (mk_string_buf data 17 data_len)) by (split; simpl; lia).
  destruct (locate_strings_safe 8 _ Hok Hb) as (r & buf & E & Hok' & Hd & Hle & Hp & Hps). simpl in Hd, Hle.
  unfold bind at 1. rewrite E. cbn [access ret].
  destruct r as [ps|]; [|by eexists]. destruct (Hps ps eq_refl) as [Hn Hf]. clear Hps.
  do 8 (destruct ps as [|[? ?] ps]; [done|]). destruct ps; [|done].
  destruct (check_length buf 1) eqn:Ec; [|by eexists]. apply check_length_spec in Ec; [|done].
  unfold bind at 1. destruct (byte_at_in (sb_data buf) (sb_ptr buf)) as [b Eb];
    [rewrite Hd; pose proof (sb_ok_ptr _ Hok'); lia|]. rewrite Eb. cbn [access ret mbind option_bind].
  unfold bind at 1, set_kex at 1, modify. repeat (apply Forall_cons in Hf as [? Hf]). simpl in *.
  eapply agree_calls; [done|apply same_offer_burn|..]; simpl; apply (located_slice _ _ _ (sb_ptr buf)); lia.
Qed.

(** A build with everything but the null methods, and a session whose client
    prefers AES in counter mode with 128 bits for what it sends. *)
Definition full_build : build :=
  mk_build true true true true true true true true true true true false true true true true false true true.

Definition prefs_session : session :=
  session_0 <| s_heap := {[ 1%positive := str "aes128-ctr,aes256-ctr" ++ [0; 99] ]} |>
            <| s_next_ptr := 2%positive |>
            <| s_kex ::= fun k => k <| kx_local ::= fun e => e <| crypt_prefs := Some 1%positive |> |> |>.

Lemma prefs_session_ready : prefs_ready full_build (s_heap prefs_session) (s_kex prefs_session).
Proof.
  split_and!; [done..|]. intros []; (split_and!; [|done..]); [|done].
  exists (str "aes128-ctr,aes256-ctr"), [99]. split; [done|].
  split; apply (bool_decide_unpack _); by vm_compute.
Qed.

(** C24: no message of a server makes [kex_agree_methods] read outside it, use
    memory that is not live or loop: it returns 0 or -1 for every message, also
    a truncated one, and whatever follows the haystack [memchr] may run past. *)
Theorem kex_agree_methods_safe cfg data data_len s
    (Hb : bytes_ok data) (Hl : 0 <= data_len <= lenZ data) (Hsz : lenZ data < 2 ^ 32)
    (Hr : prefs_ready cfg (s_heap s) (s_kex s)) :
  exists rc s', kex_agree_methods cfg data data_len s = Ret rc s' /\ (rc = 0 \/ rc = -1).
Proof.
  destruct (kex_agree_methods_core cfg data data_len s Hb Hl Hsz Hr) as (s' & E & _).
  eexists _, s'. split; [apply E|]. destruct (message_lists _ _ ≫= _); auto.
Qed.

Lemma kex_agree_methods_safe_witness :
  exists rc s', kex_agree_methods full_build (SSH_MSG_KEXINIT :: replicate 16 0 ++ [0; 0; 0; 200; 97; 44]) 23
      prefs_session = Ret rc s' /\ (rc = 0 \/ rc = -1).
Proof.
  apply (kex_agree_methods_safe full_build); [|by vm_compute|by vm_compute|apply prefs_session_ready].
  apply (bool_decide_unpack _). by vm_compute.
Defined.

(** ** A message in the format of RFC 4253 *)

Definition namelist (l : list Z) : list Z := htonu32 (lenZ l) ++ l.

(** [SSH_MSG_KEXINIT]: the cookie, the lists and the rest. *)
Definition kexinit_message (cookie : list Z) (lists : list (list Z)) (rest : list Z) : list Z :=
  SSH_MSG_KEXINIT :: cookie ++ concat (map namelist lists) ++ rest.

Lemma locate_strings_at ls a c :
  Forall (fun l => lenZ l < 2 ^ 32) ls -> lenZ (a ++ concat (map namelist ls) ++ c) < 2 ^ 64 ->
  exists ps, locate_strings (length ls) (reader_at a (concat (map namelist ls)) c)
      = Some (Some ps, reader_at (a ++ concat (map namelist ls)) [] c) /\
    Forall2 (fun l p => slice p.1 p.2 (a ++ concat (map namelist ls) ++ c) = l) ls ps.
Proof.
  revert a. induction ls as [|l ls IH]; intros a Hls Hsz.
  { exists []. simpl. rewrite app_nil_r. by split. }
  inversion Hls as [|? ? Hl Hls']; subst. cbn [length locate_strings map concat] in *.
  replace (reader_at a (namelist l ++ concat (map namelist ls)) c)
    with (reader_at a (htonu32 (lenZ l) ++ l) (concat (map namelist ls) ++ c))
    by (unfold reader_at, namelist; by rewrite <- !app_assoc).
  rewrite get_string_at; [|done|unfold namelist in Hsz; by rewrite <- !app_assoc in Hsz |- *].
  cbn [mbind option_bind]. fold (namelist l).
  change (reader_at (a ++ namelist l) [] (concat (map namelist ls) ++ c))
    with (reader_at (a ++ namelist l) (concat (map namelist ls)) c).
  destruct (IH (a ++ namelist l) Hls') as (ps & E & HF); [by rewrite <- !app_assoc in Hsz |- *|].
  rewrite E. cbn [mbind option_bind option_map]. eexists. split.
  { do 3 f_equal. by rewrite <- app_assoc. }
  rewrite <- !app_assoc in HF |- *. constructor; [|done]. cbn [fst snd reader_at sb_ptr].
  unfold namelist at 1 2. rewrite !lenZ_app, <- !app_assoc.
  replace (lenZ a + (lenZ (htonu32 (lenZ l)) + lenZ l) - lenZ l) with (lenZ (a ++ htonu32 (lenZ l)))
    by (rewrite lenZ_app; lia).
  rewrite (app_assoc a (htonu32 (lenZ l))). apply slice_app_mid.
Qed.

Lemma message_lists_at cookie k h c c' m m' p p' rest :
  length cookie = 16%nat -> rest <> [] ->
  let msg := kexinit_message cookie [k; h; c; c'; m; m'; p; p'] rest in
  lenZ msg < 2 ^ 32 ->
  message_lists msg (lenZ msg)
    = Some (mk_server_lists k h (per_endpoint c c') (per_endpoint m m') (per_endpoint p p')).
Proof.
  intros Hc Hrest msg Hsz. set (ls := [k; h; c; c'; m; m'; p; p']) in *.
  assert (Hls : Forall (fun l => lenZ l < 2 ^ 32) ls /\ 17 <= lenZ msg).
  { unfold msg, kexinit_message in *. rewrite lenZ_cons, !lenZ_app in *.
    assert (H16 : lenZ cookie = 16) by (unfold lenZ; lia). pose proof (lenZ_nonneg rest).
    split; [|pose proof (lenZ_nonneg (concat (map namelist ls))); lia].
    apply Forall_forall. intros l Hl. apply list_elem_of_split in Hl as (l1 & l2 & Hl). rewrite Hl in Hsz.
    rewrite map_app, concat_app in Hsz. cbn [map concat] in Hsz. unfold namelist in Hsz at 2.
    rewrite !lenZ_app in Hsz. pose proof (lenZ_nonneg (concat (map namelist l1))).
    pose proof (lenZ_nonneg (concat (map namelist l2))). pose proof (lenZ_nonneg (htonu32 (lenZ l))). lia. }
  destruct Hls as [Hls H17]. unfold message_lists. destruct (Z.ltb_spec (lenZ msg) 17); [lia|].
  assert (Em : mk_string_buf msg 17 (lenZ msg)
               = reader_at (SSH_MSG_KEXINIT :: cookie) (concat (map namelist ls)) rest).
  { unfold reader_at, msg, kexinit_message. rewrite <- !app_comm_cons. f_equal. unfold lenZ. simpl. lia. }
  destruct (locate_strings_at ls (SSH_MSG_KEXINIT :: cookie) rest Hls) as (ps & E & HF).
  { change (lenZ msg < 2 ^ 64). lia. }
  rewrite Em. change 8%nat with (length ls). rewrite E.
  change ((SSH_MSG_KEXINIT :: cookie) ++ concat (map namelist ls) ++ rest) with msg in HF.
  pose proof (Forall2_length _ _ _ HF) as Hn. do 8 (destruct ps as [|[? ?] ps]; [done|]).
  destruct ps; [clear Hn|done]. unfold ls in HF. rewrite !Forall2_cons in HF. cbn [fst snd] in HF.
  destruct HF as (H1 & H2 & H3 & H4 & H5 & H6 & H7 & H8 & _).
  unfold reader_at. rewrite check_length_at; [cbn [fst snd]; congruence| |].
  - destruct rest; [done|]. rewrite lenZ_cons. change (lenZ []) with 0. pose proof (lenZ_nonneg rest). lia.
  - rewrite <- app_assoc. change (lenZ msg < 2 ^ 64). lia.
Qed.

(** C7: for a message in the format of RFC 4253, with any eight lists,
    [kex_agree_methods] chooses as section 7.1 says: of each kind the first
    method of the client that the server lists, for the key exchange one with a
    host key method that can do what it needs; it returns 0 exactly when there is
    one of every kind, and the session and the transport's view of both
    directions then use these. *)
Theorem kex_agree_methods_rfc4253 cfg cookie k h c c' m m' p p' rest s
    (Hc : length cookie = 16%nat) (Hrest : rest <> [])
    (msg := kexinit_message cookie [k; h; c; c'; m; m'; p; p'] rest)
    (Hb : bytes_ok msg) (Hsz : lenZ msg < 2 ^ 32) (Hr : prefs_ready cfg (s_heap s) (s_kex s)) :
  let ag := rfc4253_agreement cfg s
    (mk_server_lists k h (per_endpoint c c') (per_endpoint m m') (per_endpoint p p')) in
  exists s', kex_agree_methods cfg msg (lenZ msg) s = Ret (match ag with Some _ => 0 | None => -1 end) s' /\
    match ag with Some ag => uses s' ag | None => True end.
Proof.
  pose proof (message_lists_at cookie k h c c' m m' p p' rest Hc Hrest Hsz) as E.
  pose proof (kex_agree_methods_core cfg msg (lenZ msg) s Hb) as H. fold msg in E. rewrite E in H.
  apply H; [pose proof (lenZ_nonneg msg); lia|done|done].
Qed.

(** The lists of a server, joined. *)
Definition sample_lists : list (list Z) :=
  [str "foo,ecdh-sha2-nistp256,diffie-hellman-group14-sha1"; str "ssh-dss,ssh-ed25519";
   str "aes256-ctr,aes128-ctr"; str "aes256-cbc"; str "hmac-sha1,hmac-sha2-256"; str "hmac-md5";
   str "none"; str "zlib,none"].

Lemma kex_agree_methods_rfc4253_witness :
  exists s', kex_agree_methods full_build
      (kexinit_message (replicate 16 7) sample_lists [0; 0; 0; 0; 0; 0; 0; 0; 0; 0; 0; 0; 0])
      290 prefs_session = Ret 0 s' /\
    kx_kex (s_kex s') = Some kex_method_ecdh_sha2_nistp256 /\
    kx_hostkey (s_kex s') = Some hostkey_method_ssh_ed25519 /\
    ke_crypt (kx_local (s_kex s')) = Some libssh2_crypt_method_aes128_ctr /\
    ep_mac_len (s_local s') = 32.
Proof.
  destruct (kex_agree_methods_rfc4253 full_build (replicate 16 7)
    (str "foo,ecdh-sha2-nistp256,diffie-hellman-group14-sha1") (str "ssh-dss,ssh-ed25519")
    (str "aes256-ctr,aes128-ctr") (str "aes256-cbc") (str "hmac-sha1,hmac-sha2-256") (str "hmac-md5")
    (str "none") (str "zlib,none") [0; 0; 0; 0; 0; 0; 0; 0; 0; 0; 0; 0; 0] prefs_session)
    as (s' & E & Hu).
  - done.
  - done.
  - apply (bool_decide_unpack _). by vm_compute.
  - by vm_compute.
  - apply prefs_session_ready.
  - revert E Hu. destruct (rfc4253_agreement _ _ _) as [ag|] eqn:Ea; [|by vm_compute in Ea].
    vm_compute in Ea. injection Ea as <-. intros E (H1 & H2 & H3). exists s'. split; [exact E|].
    destruct (H3 Local) as (H4 & _ & _ & _ & H5 & _). split_and!; assumption.
Defined.
