(* ===== verification/KexInit.v ===== *)
(** * Theorems about the client's offer

    [kexinit] measures ten lists, allocates their total and fills the block in
    a second pass; [kex_method_list] writes one comma more than it measured. The
    theorems show that the passes agree, that every write is inside the block,
    that the message has the format of RFC 4253 and that a peer which reads it
    as [kex_agree_methods] does finds the client's lists. *)

From stdpp Require Import base numbers list gmap strings.
From S2P Require Import Prelude Codes CString KexMethods Wire Session ChannelWindow Packet Conn Comp PacketSafety PacketWait Kex KexSpec KexAgree.

(** ** Filling a block from the front *)

(** Apart from the block [p] of [N] bytes, which starts with [pre], the state
    is [s0]. *)
Definition filled (s0 : session) (p : ptr) (N : Z) (pre : list Z) (s : session) : Prop :=
  exists d, s = s0 <| s_heap ::= <[p := d]> |> /\ lenZ d = N /\ take (length pre) d = pre.

Lemma filled_le s0 p N pre s : filled s0 p N pre s -> lenZ pre <= N.
Proof. intros (d & _ & <- & Hd). apply (f_equal length) in Hd. rewrite length_take in Hd. unfold lenZ. lia. Qed.

Lemma filled_prefix s0 p N pre x s : filled s0 p N (pre ++ x) s -> filled s0 p N pre s.
Proof.
  intros (d & -> & Hn & Hd). exists d. split_and!; [done..|].
  apply (f_equal (take (length pre))) in Hd. rewrite take_app_length, take_take in Hd.
  rewrite length_app in Hd. by replace (length pre `min` (length pre + length x))%nat with (length pre) in Hd by lia.
Qed.

Lemma filled_whole s0 p N pre s :
  filled s0 p N pre s -> lenZ pre = N -> s = s0 <| s_heap ::= <[p := pre]> |>.
Proof.
  intros (d & -> & Hn & Hd) HN. rewrite take_ge in Hd; [by rewrite Hd|]. unfold lenZ in *. lia.
Qed.

Lemma wp_fill s0 p N pre off bytes (Q : unit -> session -> Prop) s :
  filled s0 p N pre s -> off = lenZ pre -> lenZ pre + lenZ bytes <= N ->
  (forall s', filled s0 p N (pre ++ bytes) s' -> Q tt s') -> wp (write_block p off bytes) Q s.
Proof.
  intros (d & -> & Hn & Hd) -> Hle HQ.
  eapply wp_write_block; [apply lookup_insert_eq|apply lenZ_nonneg|lia|]. apply HQ.
  exists (pre ++ bytes ++ drop (Z.to_nat (lenZ pre + lenZ bytes)) d). split_and!.
  - simpl. rewrite insert_insert_eq. replace (Z.to_nat (lenZ pre)) with (length pre) by (unfold lenZ; lia).
    by rewrite Hd.
  - unfold lenZ in *. rewrite !length_app, length_drop. lia.
  - rewrite app_assoc. apply take_app_length.
Qed.

(** ** One list *)

(** What [kex_method_list] writes for names. *)
Definition name_commas (ms : list (list Z)) : list Z := concat (map (fun n => n ++ [comma]) ms).

Lemma name_commas_join m ms : name_commas (m :: ms) = join_comma (m :: ms) ++ [comma].
Proof.
  revert m. induction ms as [|m' ms IH]; intros m; unfold name_commas in *; simpl in *.
  - by rewrite app_nil_r.
  - rewrite IH. rewrite <- !app_assoc. done.
Qed.

Lemma kex_method_strlen_join (ms : list (list Z)) : kex_method_strlen ms = lenZ (join_comma ms).
Proof.
  destruct ms as [|m ms]; [done|]. unfold kex_method_strlen.
  assert (H : forall l acc, fold_left (fun len n => len + (lenZ (method_name n) + 1)) l acc = acc + lenZ (name_commas l)).
  { induction l as [|n l IH]; intros acc; simpl; [change (lenZ (name_commas [])) with 0; lia|].
    rewrite IH. unfold name_commas. simpl. rewrite !lenZ_app. change (lenZ [comma]) with 1.
    unfold method_name, name_common. lia. }
  rewrite H, name_commas_join, lenZ_app. change (lenZ [comma]) with 1. lia.
Qed.

Section Fill.
Context (s0 : session) (p : ptr) (N : Z).

Lemma wp_method_list_loop ms pre off (Q : unit -> session -> Prop) s :
  filled s0 p N pre s -> off = lenZ pre -> lenZ pre + lenZ (name_commas ms) <= N ->
  (forall s', filled s0 p N (pre ++ name_commas ms) s' -> Q tt s') ->
  wp (method_list_loop p off ms) Q s.
Proof.
  revert pre off s. induction ms as [|m ms IH]; intros pre off s Hf -> Hle HQ.
  { apply wp_ret, HQ. by rewrite app_nil_r. }
  cbn [method_list_loop]. unfold method_name, name_common. unfold name_commas in Hle. simpl in Hle.
  rewrite !lenZ_app in Hle. change (lenZ [comma]) with 1 in Hle. fold (name_commas ms) in Hle.
  pose proof (lenZ_nonneg (name_commas ms)). apply wp_bind. eapply wp_fill; [done|done|lia|]. intros s1 H1.
  apply wp_bind. eapply wp_fill; [done|by rewrite lenZ_app|rewrite lenZ_app; change (lenZ [comma]) with 1; lia|].
  intros s2 H2. rewrite <- app_assoc in H2. eapply IH; [done| | |].
  - rewrite !lenZ_app. change (lenZ [comma]) with 1. lia.
  - rewrite !lenZ_app. change (lenZ [comma]) with 1. lia.
  - intros s3 H3. apply HQ. unfold name_commas. simpl. by rewrite <- app_assoc in H3.
Qed.

(** The string of a list: the preference, or the names it defaults to. *)
Definition offer_string (h : gmap ptr (list Z)) (pd : option ptr * list (list Z)) : list Z :=
  match pd.1 with
  | Some _ => default [] (pref_string h pd.1)
  | None => join_comma pd.2
  end.

(** A preference pointer that can be read. *)
Definition pref_readable (h : gmap ptr (list Z)) (q : option ptr) : Prop :=
  match q with Some q => exists l junk, h !! q = Some (l ++ 0 :: junk) /\ no_nul l | None => True end.

Lemma pref_readable_at h q :
  pref_readable h (Some q) -> exists l junk, h !! q = Some (l ++ 0 :: junk) /\ no_nul l /\
    pref_string h (Some q) = Some l.
Proof.
  intros (l & junk & Hq & Hn). exists l, junk. split_and!; [done..|]. unfold pref_string. simpl.
  rewrite Hq. simpl. by apply c_string_app.
Qed.

Lemma wp_method_prefs_len pd (Q : Z -> session -> Prop) s :
  pref_readable (s_heap s) pd.1 -> Q (lenZ (offer_string (s_heap s) pd)) s ->
  wp (method_prefs_len pd.1 pd.2) Q s.
Proof.
  destruct pd as [[q|] def]; cbn [fst snd]; intros Hr HQ.
  - apply pref_readable_at in Hr as (l & junk & Hq & Hn & Hs). unfold method_prefs_len.
    apply wp_bind. eapply wp_block; [done|]. eapply wp_access; [by apply (strlen_app [])|].
    unfold offer_string in HQ. cbn [fst] in HQ. by rewrite Hs in HQ.
  - unfold method_prefs_len. apply wp_ret. by rewrite kex_method_strlen_join.
Qed.

Lemma wp_method_prefs_str pd pre off (Q : Z -> session -> Prop) s :
  filled s0 p N pre s -> pref_readable (s_heap s0) pd.1 -> pd.1 <> Some p -> off = lenZ pre ->
  lenZ pre + lenZ (namelist (offer_string (s_heap s0) pd)) + 1 <= N ->
  (forall s', filled s0 p N (pre ++ namelist (offer_string (s_heap s0) pd)) s' ->
     Q (lenZ (pre ++ namelist (offer_string (s_heap s0) pd))) s') ->
  wp (method_prefs_str p off (lenZ (offer_string (s_heap s0) pd)) pd.1 pd.2) Q s.
Proof.
  intros Hf Hr Hne -> Hle HQ. unfold namelist in *. rewrite lenZ_app, lenZ_htonu32 in Hle.
  rewrite !lenZ_app, lenZ_htonu32 in HQ. pose proof (lenZ_nonneg (offer_string (s_heap s0) pd)).
  assert (H4 : forall n, lenZ (pre ++ htonu32 n) = lenZ pre + 4) by (intros; by rewrite lenZ_app, lenZ_htonu32).
  destruct pd as [[q|] def]; cbn [fst snd] in *.
  - apply pref_readable_at in Hr as (l & junk & Hq & Hn & Hs). unfold offer_string in *. cbn [fst] in *.
    rewrite Hs in *. change (default [] (Some l)) with l in *. unfold method_prefs_str.
    apply wp_bind. eapply wp_fill; [done|done|rewrite lenZ_htonu32; lia|]. intros s1 H1.
    apply wp_bind. eapply wp_block.
    { destruct H1 as (d & -> & _). simpl. rewrite lookup_insert_ne by congruence. done. }
    apply wp_bind. eapply wp_access; [apply bytes_at_in; rewrite ?lenZ_app; pose proof (lenZ_nonneg l); pose proof (lenZ_nonneg (0 :: junk)); lia|].
    assert (Hsl : slice 0 (lenZ l) (l ++ 0 :: junk) = l).
    { unfold slice. rewrite drop_0. by apply take_lenZ. }
    rewrite Hsl. apply wp_bind. eapply wp_fill; [done|by rewrite H4|rewrite H4; lia|]. intros s2 H2.
    apply wp_ret. rewrite <- app_assoc in H2. rewrite <- Z.add_assoc. by apply HQ.
  - unfold method_prefs_str, kex_method_list. apply wp_bind. apply wp_bind.
    eapply wp_fill; [done|done|rewrite lenZ_htonu32; lia|]. intros s1 H1.
    unfold offer_string in *. cbn [fst snd] in *. destruct def as [|m ms].
    { apply wp_ret, wp_ret. apply HQ. by rewrite app_nil_r. }
    apply wp_bind. eapply wp_method_list_loop; [done|by rewrite H4| |].
    { rewrite H4, name_commas_join, lenZ_app. change (lenZ [comma]) with 1. lia. }
    intros s2 H2. apply wp_ret, wp_ret. rewrite name_commas_join, app_assoc in H2.
    apply filled_prefix in H2. rewrite <- app_assoc in H2.
    replace (lenZ pre + (lenZ (join_comma (m :: ms)) + 4)) with (lenZ pre + (4 + lenZ (join_comma (m :: ms)))) by lia.
    by apply HQ.
Qed.
End Fill.

(** ** The message *)

Lemma wp_lists_len ls (Q : list Z -> session -> Prop) s :
  Forall (fun pd => pref_readable (s_heap s) pd.1) ls ->
  Q (map (fun pd => lenZ (offer_string (s_heap s) pd)) ls) s -> wp (lists_len ls) Q s.
Proof.
  revert Q. induction ls as [|pd ls IH]; intros Q Hls HQ; [done|]. inversion Hls; subst.
  destruct pd as [pref def]. cbn [lists_len]. apply wp_bind.
  eapply (wp_method_prefs_len (pref, def)); [done|]. apply wp_bind. apply IH; [done|]. by apply wp_ret.
Qed.

Lemma wp_lists_str s0 p N ls pre off (Q : Z -> session -> Prop) s :
  filled s0 p N pre s ->
  Forall (fun pd => pref_readable (s_heap s0) pd.1 /\ pd.1 <> Some p) ls -> off = lenZ pre ->
  lenZ pre + lenZ (concat (map namelist (map (offer_string (s_heap s0)) ls))) + 1 <= N ->
  (forall s', filled s0 p N (pre ++ concat (map namelist (map (offer_string (s_heap s0)) ls))) s' ->
     Q (lenZ (pre ++ concat (map namelist (map (offer_string (s_heap s0)) ls)))) s') ->
  wp (lists_str p off ls (map (fun pd => lenZ (offer_string (s_heap s0) pd)) ls)) Q s.
Proof.
  revert pre off s. induction ls as [|pd ls IH]; intros pre off s Hf Hls -> Hle HQ; cbn [map concat] in *.
  { apply wp_ret. rewrite app_nil_r in HQ. by apply HQ. }
  inversion Hls as [|? ? [Hr Hne] Hls']; subst. destruct pd as [pref def]. cbn [lists_str].
  rewrite lenZ_app in Hle. set (rest := concat (map namelist _)) in *. pose proof (lenZ_nonneg rest).
  apply wp_bind. eapply (wp_method_prefs_str s0 p N (pref, def)); [done..|lia|]. intros s1 H1.
  apply IH with (pre := pre ++ namelist (offer_string (s_heap s0) (pref, def))); [done..| |].
  - rewrite lenZ_app. fold rest. lia.
  - intros s2 H2. fold rest in H2 |- *. rewrite <- app_assoc in H2 |- *. by apply HQ.
Qed.

(** [_libssh2_random] fills what it is asked to fill. *)
Class Random (random : session -> Z -> option (list Z)) : Prop :=
  random_len : forall s n bytes, random s n = Some bytes -> lenZ bytes = n.

Section Build.
Context (cfg : build) (random : session -> Z -> option (list Z)) `{!Random random}.

(** The ten lists of the client. *)
Definition client_lists (s : session) : list (list Z) :=
  map (offer_string (s_heap s)) (kexinit_lists cfg (s_kex s)).

Definition client_message (s : session) (cookie : list Z) : list Z :=
  kexinit_message cookie (client_lists s) [0; 0; 0; 0; 0].

Lemma sum_namelists (ls : list (list Z)) :
  lenZ (concat (map namelist ls)) = 4 * lenZ ls + fold_right Z.add 0 (map lenZ ls).
Proof.
  induction ls as [|l ls IH]; [done|]. cbn [map concat fold_right]. unfold namelist at 1.
  rewrite !lenZ_app, IH, lenZ_htonu32, lenZ_cons. lia.
Qed.

Definition build_post (s : session) (r : Z + (ptr * Z)) (s' : session) : Prop :=
  match r with
  | inr (p, n) => exists cookie, length cookie = 16%nat /\ s_heap s !! p = None /\
      s_heap s' = <[p := client_message s cookie]> (s_heap s) /\ n = lenZ (client_message s cookie) /\
      kexinit_state (s_kex s') = libssh2_NB_state_created
  | inl rc => rc = LIBSSH2_ERROR_ALLOC \/ rc = LIBSSH2_ERROR_RANDGEN
  end.

(** Filling the allocated block [p]. *)
Lemma kexinit_fill s0 p N cookie ls s (Q : Z + (ptr * Z) -> session -> Prop) :
  filled s0 p N [SSH_MSG_KEXINIT] s -> lenZ cookie = 16 ->
  Forall (fun pd => pref_readable (s_heap s0) pd.1 /\ pd.1 <> Some p) ls ->
  N = 22 + lenZ (concat (map namelist (map (offer_string (s_heap s0)) ls))) ->
  Q (inr (p, N)) (s0 <| s_heap ::= <[p := kexinit_message cookie (map (offer_string (s_heap s0)) ls) [0; 0; 0; 0; 0]]> |>
    <| s_kex ::= fun k => k <| kexinit_state := libssh2_NB_state_created |> |>) ->
  wp (write_block p 1 cookie ;;
      let! o := lists_str p 17 ls (map (fun pd => lenZ (offer_string (s_heap s0) pd)) ls) in
      write_block p o [0] ;;
      write_block p (o + 1) (htonu32 0) ;;
      set_kex (fun k => k <| kexinit_state := libssh2_NB_state_created |>) ;;
      ret (inr (p, N))) Q s.
Proof.
  intros Hf Hc Hls HN HQ. set (body := concat _) in *. pose proof (lenZ_nonneg body).
  apply wp_bind. eapply wp_fill; [done|done|rewrite Hc; change (lenZ [SSH_MSG_KEXINIT]) with 1; lia|]. intros s1 H1.
  assert (H17 : lenZ ([SSH_MSG_KEXINIT] ++ cookie) = 17) by (rewrite lenZ_app, Hc; done).
  apply wp_bind. eapply wp_lists_str; [done|done|done|fold body; lia|]. fold body. intros s2 H2.
  apply wp_bind. eapply wp_fill; [done|done|rewrite lenZ_app, H17; change (lenZ [0]) with 1; lia|]. intros s3 H3.
  apply wp_bind. eapply wp_fill; [done|by rewrite (lenZ_app _ [0])| |]. 
  { rewrite !lenZ_app, lenZ_htonu32, <- lenZ_app, H17. change (lenZ [0]) with 1. lia. }
  intros s4 H4. rewrite <- !app_assoc in H4. apply filled_whole in H4.
  2: { rewrite app_assoc, !lenZ_app, lenZ_htonu32, <- lenZ_app, H17. change (lenZ [0]) with 1. lia. }
  subst s4. unfold set_kex. wps. exact HQ.
Qed.

Lemma kexinit_build_ok s :
  heap_ok s -> Forall (fun pd => pref_readable (s_heap s) pd.1) (kexinit_lists cfg (s_kex s)) ->
  62 + fold_right Z.add 0 (map lenZ (client_lists s)) < 2 ^ 32 ->
  wp (kexinit_build cfg random) (build_post s) s.
Proof.
  intros Hh Hr Hsz. unfold kexinit_build. apply wp_bind, wp_gets, wp_bind.
  eapply wp_lists_len; [done|]. set (ls := kexinit_lists cfg (s_kex s)) in *.
  replace (map (fun pd => lenZ (offer_string (s_heap s) pd)) ls) with (map lenZ (client_lists s))
    by (unfold client_lists; by rewrite map_map).
  assert (Hs0 : 0 <= fold_right Z.add 0 (map lenZ (client_lists s))).
  { generalize (client_lists s). intros l. induction l as [|x l IH]; simpl; [lia|]. pose proof (lenZ_nonneg x). lia. }
  rewrite u64_small by lia. set (N := 62 + _) in *. apply wp_bind, wp_alloc_block; intros al.
  { apply wp_bind, wp_error_mem. intros s1 _ _ _. apply wp_ret. by left. }
  set (p := s_next_ptr s). set (s1 := s <| s_alloc := al |> <| s_next_ptr := Pos.succ p |>).
  assert (Hp : s_heap s !! p = None) by (apply (heap_ok_fresh s Hh); lia).
  apply wp_bind. eapply (wp_fill s1 p N []);
    [exists (replicate (Z.to_nat N) 0); split_and!; [done|unfold lenZ; rewrite length_replicate; lia|done]
    |done|change (lenZ []) with 0; change (lenZ [SSH_MSG_KEXINIT]) with 1; lia|].
  intros s2 H2. apply wp_bind, wp_gets. destruct (random s2 16) as [cookie|] eqn:Ec.
  2: { apply wp_bind, wp_error_mem. intros s3 _ _ _. apply wp_ret. by right. }
  pose proof (random_len _ _ _ Ec) as H16. unfold client_lists. rewrite map_map.
  eapply (kexinit_fill s1 p N cookie ls); [done|done| | |].
  - eapply Forall_impl; [done|]. intros pd Hpd. split; [done|]. intros E. cbn beta in Hpd; rewrite E in Hpd.
    destruct Hpd as (l & junk & Hl & _). simpl in *. congruence.
  - unfold N. rewrite sum_namelists. unfold client_lists, ls. change (s_heap s1) with (s_heap s).
    unfold lenZ at 2. rewrite length_map. unfold kexinit_lists. simpl length. lia.
  - exists cookie. split_and!; [unfold lenZ in H16; lia|done|done| |done].
    unfold N, client_message, kexinit_message. rewrite lenZ_cons, !lenZ_app, sum_namelists, H16.
    unfold client_lists at 2. unfold lenZ at 2. rewrite length_map. unfold kexinit_lists at 1. simpl length.
    change (lenZ [0; 0; 0; 0; 0]) with 5. lia.
Qed.
End Build.

(** The client's lists of the eight kinds that are negotiated. *)
Definition client_offer (cfg : build) (s : session) : server_lists :=
  let h := s_heap s in
  let k := s_kex s in
  mk_server_lists
    (offer_string h (kex_prefs k, names (libssh2_kex_methods cfg)))
    (offer_string h (hostkey_prefs k, names (libssh2_hostkey_methods cfg)))
    (per_endpoint (offer_string h (crypt_prefs (kx_local k), names (libssh2_crypt_methods cfg)))
       (offer_string h (crypt_prefs (kx_remote k), names (libssh2_crypt_methods cfg))))
    (per_endpoint (offer_string h (mac_prefs (kx_local k), names (mac_methods cfg)))
       (offer_string h (mac_prefs (kx_remote k), names (mac_methods cfg))))
    (per_endpoint (offer_string h (comp_prefs (kx_local k), names (libssh2_comp_methods cfg (flag_compress k))))
       (offer_string h (comp_prefs (kx_remote k), names (libssh2_comp_methods cfg (flag_compress k))))).

Lemma client_message_lists cfg s cookie :
  length cookie = 16%nat -> lenZ (client_message cfg s cookie) < 2 ^ 32 ->
  message_lists (client_message cfg s cookie) (lenZ (client_message cfg s cookie))
    = Some (client_offer cfg s).
Proof.
  intros Hc. unfold client_message, client_lists, kexinit_lists. cbn [map].
  set (l9 := offer_string _ (lang_prefs (kx_local (s_kex s)), [])).
  set (l10 := offer_string _ (lang_prefs (kx_remote (s_kex s)), [])).
  assert (E : forall a b c d e f g h, kexinit_message cookie [a; b; c; d; e; f; g; h; l9; l10] [0; 0; 0; 0; 0]
    = kexinit_message cookie [a; b; c; d; e; f; g; h] (namelist l9 ++ namelist l10 ++ [0; 0; 0; 0; 0])).
  { intros. unfold kexinit_message. cbn [map concat]. by rewrite <- !app_assoc. }
  rewrite E. intros Hsz. by apply message_lists_at.
Qed.

(** C21: the message of [kexinit]. For every set of preferences, the block it
    allocates is exactly as long as what it writes, all writes are inside, also
    the comma after each list; the message is an [SSH_MSG_KEXINIT] with a cookie
    of 16 bytes and the client's lists, and whoever reads it as
    [kex_agree_methods] does gets the client's offer back. *)
Theorem kexinit_roundtrip cfg random `{!Random random} s
    (Hh : heap_ok s)
    (Hr : Forall (fun pd => pref_readable (s_heap s) pd.1) (kexinit_lists cfg (s_kex s)))
    (Hsz : 62 + fold_right Z.add 0 (map lenZ (client_lists cfg s)) < 2 ^ 32) :
  exists r s', kexinit_build cfg random s = Ret r s' /\
    match r with
    | inl rc => rc = LIBSSH2_ERROR_ALLOC \/ rc = LIBSSH2_ERROR_RANDGEN
    | inr (p, n) => exists cookie msg, length cookie = 16%nat /\ s_heap s !! p = None /\
        s_heap s' = <[p := msg]> (s_heap s) /\ n = lenZ msg /\
        msg = kexinit_message cookie (client_lists cfg s) [0; 0; 0; 0; 0] /\
        message_lists msg n = Some (client_offer cfg s)
    end.
Proof.
  destruct (wp_Ret _ _ _ (kexinit_build_ok cfg random s Hh Hr Hsz)) as (r & s' & E & Hp).
  exists r, s'. split; [done|]. destruct r as [rc|[p n]]; [done|].
  destruct Hp as (cookie & Hc & Hf & Hs & -> & _). exists cookie, (client_message cfg s cookie).
  split_and!; try done. apply client_message_lists; [done|].
  unfold client_message, kexinit_message. rewrite lenZ_cons, !lenZ_app, sum_namelists.
  unfold client_lists at 1. unfold lenZ at 2. rewrite length_map. unfold kexinit_lists at 1. simpl length.
  change (lenZ [0; 0; 0; 0; 0]) with 5. unfold lenZ at 1. lia.
Qed.

Definition random_sevens (_ : session) (n : Z) : option (list Z) :=
  if decide (0 <= n) then Some (replicate (Z.to_nat n) 7) else None.

#[global] Instance random_sevens_ok : Random random_sevens.
Proof.
  intros s n bytes. unfold random_sevens. case_decide; [|done]. intros [= <-].
  unfold lenZ. rewrite length_replicate. lia.
Qed.

Lemma kexinit_roundtrip_witness :
  exists r s', kexinit_build full_build random_sevens prefs_session = Ret r s' /\
    match r with
    | inl rc => rc = LIBSSH2_ERROR_ALLOC \/ rc = LIBSSH2_ERROR_RANDGEN
    | inr (p, n) => exists cookie msg, length cookie = 16%nat /\ s_heap prefs_session !! p = None /\
        s_heap s' = <[p := msg]> (s_heap prefs_session) /\ n = lenZ msg /\
        msg = kexinit_message cookie (client_lists full_build prefs_session) [0; 0; 0; 0; 0] /\
        message_lists msg n = Some (client_offer full_build prefs_session)
    end.
Proof.
  apply (kexinit_roundtrip full_build random_sevens prefs_session).
  - split; simpl; [apply map_Forall_singleton; apply (bool_decide_unpack _); by vm_compute|].
    intros p Hp. apply lookup_singleton_ne. lia.
  - repeat (apply Forall_cons; split; [first [exact I|idtac]|]); [|exact (Forall_nil_2 _)].
    exists (str "aes128-ctr,aes256-ctr"), [99]. split; [done|apply (bool_decide_unpack _); by vm_compute].
  - by vm_compute.
Defined.
