(* ===== verification/KexPref.v ===== *)
(** * Theorems about preferences

    [libssh2_session_method_pref] strips the names that are not supported from
    the string in place. The theorem gives what is stored, in terms of the names
    the application listed. *)

From stdpp Require Import base numbers list gmap strings.
From S2P Require Import Prelude Codes CString KexMethods Wire Session ChannelWindow Packet Conn Comp PacketSafety PacketWait Kex KexSpec KexAgree KexInit.

(** ** What stripping computes *)

(** The string left when the names [ts] are still to be looked at and [u] is
    what has been kept, with a comma after each name. *)
Fixpoint strip (tbl : list (list Z)) (u : list Z) (ts : list (list Z)) : list Z :=
  match ts with
  | [] => u
  | [t] => if decide (t = []) then u else if decide (t ∈ tbl) then u ++ t else removelast u
  | t :: ts => if decide (t ∈ tbl) then strip tbl (u ++ t ++ [comma]) ts else strip tbl u ts
  end.

Lemma strip_cons tbl u t ts :
  ts <> [] ->
  strip tbl u (t :: ts) = if decide (t ∈ tbl) then strip tbl (u ++ t ++ [comma]) ts else strip tbl u ts.
Proof. by destruct ts. Qed.

Definition not_empty (w : list Z) : Prop := w <> [].
#[global] Instance not_empty_dec w : Decision (not_empty w).
Proof. unfold not_empty. apply _. Defined.

Lemma split_name_commas ks t :
  Forall no_comma ks -> no_comma t -> split_comma (name_commas ks ++ t) = ks ++ [t].
Proof.
  induction 1 as [|k ks Hk _ IH]; intros Ht; [by apply split_comma_last|].
  unfold name_commas in *. cbn [map concat]. rewrite <- !app_assoc. simpl.
  rewrite split_comma_app by done. by rewrite IH.
Qed.

Lemma removelast_name_commas k ks : removelast (name_commas (k :: ks)) = join_comma (k :: ks).
Proof. rewrite name_commas_join. apply removelast_last. Qed.

Section Strip.
Context (tbl : list (list Z)) (Htbl : Forall name_ok tbl).

Lemma tbl_name w : w ∈ tbl -> w <> [] /\ no_comma w /\ no_nul w.
Proof.
  intros Hw. destruct (proj1 (Forall_forall _ _) Htbl w Hw) as [Hne Hc].
  split_and!; [done|eapply Forall_impl; [done|by intros ? []]..].
Qed.

(** What the result must be: the kept names in order, and nothing else. *)
Definition strips (R : list Z) (ks : list (list Z)) : Prop :=
  filter not_empty (split_comma R) = ks /\ pref_ok tbl R /\ (R = [] <-> ks = []).

Lemma filter_supported ks : Forall (fun w => w ∈ tbl) ks -> filter not_empty ks = ks.
Proof.
  intros Hk. apply filter_all. intros w Hw. apply tbl_name. by apply (proj1 (Forall_forall _ _) Hk).
Qed.

Lemma supported_no_comma ks : Forall (fun w => w ∈ tbl) ks -> Forall no_comma ks.
Proof. intros Hk. eapply Forall_impl; [done|]. by intros w (_ & ? & _)%tbl_name. Qed.

Lemma name_commas_nul ks : Forall (fun w => w ∈ tbl) ks -> no_nul (name_commas ks).
Proof.
  intros Hk. unfold name_commas. apply Forall_concat, Forall_fmap. eapply Forall_impl; [done|].
  intros w (_ & _ & ?)%tbl_name. simpl. apply Forall_app. split; [done|]. by repeat constructor.
Qed.

Lemma strips_tail ks t :
  Forall (fun w => w ∈ tbl) ks -> t = [] \/ t ∈ tbl ->
  strips (name_commas ks ++ t) (ks ++ filter not_empty [t]).
Proof.
  intros Hk Ht. assert (Hc : no_comma t /\ no_nul t).
  { destruct Ht as [->|(_ & ? & ?)%tbl_name]; [by split; constructor|done]. }
  unfold strips, pref_ok. rewrite (split_name_commas _ _ (supported_no_comma _ Hk) (proj1 Hc)).
  rewrite filter_app, (filter_supported _ Hk). split_and!; [done| | |].
  - apply Forall_app. split; [by apply name_commas_nul|apply Hc].
  - apply Forall_app. split; [eapply Forall_impl; [done|]; by right|by constructor].
  - destruct ks as [|k ks].
    + unfold name_commas. simpl. rewrite filter_cons. destruct t; case_decide as Hd; try done.
      by destruct Hd.
    + rewrite name_commas_join, <- app_assoc. split; intros E; [|done].
      exfalso. by apply (f_equal length) in E; rewrite !length_app in E; simpl in E; lia.
Qed.

Lemma strips_join ks :
  Forall (fun w => w ∈ tbl) ks -> strips (removelast (name_commas ks)) ks.
Proof.
  intros Hk. destruct ks as [|k ks].
  { pose proof (strips_tail [] [] Hk (or_introl eq_refl)) as H. done. }
  rewrite removelast_name_commas. unfold strips, pref_ok.
  rewrite split_join by (done || by apply supported_no_comma). split_and!.
  - by apply filter_supported.
  - pose proof (name_commas_nul _ Hk) as Hn. rewrite name_commas_join in Hn. by apply Forall_app in Hn as [].
  - eapply Forall_impl; [done|]. by right.
  - split; [|done]. inversion Hk as [|? ? (Hne & _)%tbl_name]; subst. destruct k; [done|]. by destruct ks.
Qed.

Lemma strip_spec ts ks :
  ts <> [] -> Forall (fun w => w ∈ tbl) ks ->
  strips (strip tbl (name_commas ks) ts) (ks ++ filter (fun w => w ∈ tbl) ts).
Proof.
  revert ks. induction ts as [|t ts IH]; intros ks Hne Hk; [done|]. rewrite filter_cons.
  destruct ts as [|t' ts].
  - simpl. case_decide as E; [subst t; rewrite decide_False by (by intros (? & _)%tbl_name)|case_decide as Ht].
    + pose proof (strips_tail ks [] Hk (or_introl eq_refl)) as H. rewrite app_nil_r in H. exact H.
    + pose proof (strips_tail ks t Hk (or_intror Ht)) as H. rewrite filter_cons in H.
      rewrite decide_True in H by done. exact H.
    + rewrite app_nil_r. by apply strips_join.
  - rewrite strip_cons by done. case_decide as Ht; [|by apply IH].
    specialize (IH (ks ++ [t]) ltac:(done)). rewrite <- app_assoc in IH.
    replace (name_commas ks ++ t ++ [comma]) with (name_commas (ks ++ [t])).
    + apply IH. apply Forall_app. split; [done|by constructor].
    + unfold name_commas. rewrite map_app, concat_app. simpl. by rewrite app_nil_r.
Qed.
End Strip.

(** ** The loop *)

Lemma by_name_none (tbl : list (list Z)) w : by_name tbl w = None <-> w ∉ tbl.
Proof.
  unfold by_name. split.
  - intros E Hw. apply list_elem_of_In, (List.find_none _ _ E) in Hw. by apply bool_decide_eq_false in Hw.
  - intros Hw. destruct (List.find _ tbl) as [m|] eqn:E; [|done]. exfalso.
    apply (by_name_name (A := list Z)) in E as [Hm <-]. done.
Qed.

Section StripLoop.
Context (tbl : list (list Z)) (s0 : session) (p : ptr).

Definition holds (l : list Z) (s : session) : Prop :=
  exists junk, s = s0 <| s_heap ::= <[p := l ++ 0 :: junk]> |>.

Lemma wp_write_at l d (Q : unit -> session -> Prop) s a b off bytes :
  s = s0 <| s_heap ::= <[p := d]> |> -> d = a ++ l ++ b -> off = lenZ a -> length bytes = length l ->
  Q tt (s0 <| s_heap ::= <[p := a ++ bytes ++ b]> |>) -> wp (write_block p off bytes) Q s.
Proof.
  intros -> -> -> Hl HQ. eapply wp_write_block; [apply lookup_insert_eq|apply lenZ_nonneg| |].
  { rewrite !lenZ_app. unfold lenZ. lia. }
  simpl. rewrite insert_insert_eq, take_lenZ by done.
  rewrite (app_assoc a l b), drop_lenZ by (rewrite lenZ_app; unfold lenZ; lia). done.
Qed.

(** A name that is not supported goes, with the comma after it. *)
Lemma copy_down_ok u t r junk (Q : unit -> session -> Prop) s :
  s = s0 <| s_heap ::= <[p := u ++ t ++ comma :: r ++ 0 :: junk]> |> ->
  (forall s', holds (u ++ r) s' -> Q tt s') ->
  wp (copy_down p (lenZ u) (lenZ u + lenZ t + 1) (lenZ (t ++ comma :: r) - lenZ t)) Q s.
Proof.
  intros Hs HQ. unfold copy_down. apply wp_bind. eapply wp_block; [rewrite Hs; apply lookup_insert_eq|].
  set (tail := t ++ comma :: r ++ 0 :: junk) in *.
  assert (Hl : length tail = (length t + 1 + length r + 1 + length junk)%nat).
  { unfold tail. rewrite length_app. simpl. rewrite length_app. simpl. lia. }
  assert (Ht : u ++ tail = (u ++ t ++ [comma]) ++ (r ++ [0]) ++ junk)
    by (unfold tail; rewrite <- !app_assoc; done).
  apply wp_bind. eapply wp_access.
  { rewrite Ht. replace (lenZ u + lenZ t + 1) with (lenZ (u ++ t ++ [comma]))
      by (rewrite !lenZ_app; change (lenZ [comma]) with 1; lia).
    replace (lenZ (t ++ comma :: r) - lenZ t) with (lenZ (r ++ [0]))
      by (unfold lenZ; rewrite !length_app; simpl; lia).
    rewrite bytes_at_in by (rewrite ?lenZ_app; pose proof (lenZ_nonneg u); pose proof (lenZ_nonneg t);
      pose proof (lenZ_nonneg r); pose proof (lenZ_nonneg junk); unfold lenZ in *; simpl; lia).
    by rewrite slice_app_mid. }
  eapply (wp_write_at (take (S (length r)) tail) (u ++ tail) _ _ u (drop (S (length r)) tail)); [done| |done| |].
  - by rewrite take_drop.
  - rewrite length_app, length_take. change (length [0]) with 1%nat. lia.
  - apply HQ. exists (drop (S (length r)) tail). by rewrite <- !app_assoc.
Qed.

(** The last name, not supported: it goes with the comma before it. *)
Lemma strip_end_ok fuel u v junk (Q : unit -> session -> Prop) s :
  v <> [] -> (u = [] \/ exists u', u = u' ++ [comma]) ->
  s = s0 <| s_heap ::= <[p := u ++ v ++ 0 :: junk]> |> ->
  (forall s', holds (removelast u) s' -> Q tt s') ->
  wp (if 0 <? lenZ u
      then write_block p (lenZ u - 1) [0] ;; strip_loop (S fuel) p (lenZ u - 1) tbl
      else write_block p (lenZ u) [0] ;; strip_loop (S fuel) p (lenZ u) tbl) Q s.
Proof.
  intros Hv Hu Hs HQ.
  assert (Hend : forall a b, holds a (s0 <| s_heap ::= <[p := a ++ 0 :: b]> |>) -> removelast u = a ->
    wp (strip_loop (S fuel) p (lenZ a) tbl) Q (s0 <| s_heap ::= <[p := a ++ 0 :: b]> |>)).
  { intros a b Ha <-. cbn [strip_loop]. apply wp_bind. eapply wp_block; [apply lookup_insert_eq|].
    apply wp_bind. eapply wp_access; [by apply byte_at_head|]. by apply wp_ret, HQ. }
  destruct Hu as [->|(u' & ->)].
  - simpl. destruct v as [|c v]; [done|]. apply wp_bind.
    eapply (wp_write_at [c] _ _ _ []); [done|done|done|done|]. apply (Hend []); [by eexists|done].
  - rewrite lenZ_app. change (lenZ [comma]) with 1.
    rewrite (proj2 (Z.ltb_lt 0 _)) by (pose proof (lenZ_nonneg u'); lia). apply wp_bind.
    replace (lenZ u' + 1 - 1) with (lenZ u') by lia.
    eapply (wp_write_at [comma] _ _ _ u'); [done|by rewrite <- !app_assoc|done|done|].
    apply Hend; [by eexists|apply removelast_last].
Qed.

Lemma strip_loop_ok fuel : forall u v s (Q : unit -> session -> Prop),
  no_nul v -> (u = [] \/ exists u', u = u' ++ [comma]) -> (length v + 1 < fuel)%nat ->
  holds (u ++ v) s ->
  (forall s', holds (strip tbl u (split_comma v)) s' -> Q tt s') ->
  wp (strip_loop fuel p (lenZ u) tbl) Q s.
Proof.
  induction fuel as [|fuel IH]; intros u v s Q Hv Hu Hf [junk Hs] HQ; [lia|]. cbn [strip_loop].
  rewrite <- app_assoc in Hs.
  apply wp_bind. eapply wp_block; [rewrite Hs; apply lookup_insert_eq|]. apply wp_bind.
  destruct v as [|c v'].
  { eapply wp_access; [by apply byte_at_head|]. apply wp_ret, HQ. simpl. by exists junk. }
  eapply wp_access; [by apply byte_at_head|]. rewrite (proj2 (Z.eqb_neq c 0)) by (by inversion Hv).
  change (c :: v' ++ 0 :: junk) with ((c :: v') ++ 0 :: junk).
  assert (Hne : c :: v' <> []) by done. revert Hv Hf Hs HQ Hne. generalize (c :: v') as v. clear c v'.
  intros v Hv Hf Hs HQ Hne. apply wp_bind.
  destruct (split_comma_cases v) as [Hc|(t & r & -> & Hc)].
  - eapply wp_access; [by apply strchr_none|]. apply wp_bind.
    eapply wp_access; [by apply strlen_app|]. apply wp_bind.
    eapply wp_access; [by apply kex_get_method_by_name_spec|]. rewrite split_comma_last in HQ by done.
    simpl in HQ. rewrite decide_False in HQ by done. destruct (by_name tbl v) as [m|] eqn:Em.
    + apply (by_name_name (A := list Z)) in Em as [Hm <-]. rewrite decide_True in HQ by done.
      apply wp_ret, HQ. exists junk. by rewrite <- app_assoc.
    + apply by_name_none in Em. rewrite decide_False in HQ by done.
      destruct fuel as [|fuel]; [lia|]. by eapply strip_end_ok.
  - rewrite split_comma_app, strip_cons in HQ by (done || apply split_comma_nonempty).
    apply Forall_app in Hv as [Hnt Hr]. inversion Hr as [|? ? _ Hnr]; subst.
    rewrite <- app_assoc, <- app_comm_cons. rewrite length_app in Hf. simpl in Hf.
    eapply wp_access; [by apply strchr_app|]. apply wp_bind.
    eapply (wp_access _ _ _ (lenZ t)); [simpl; f_equal; lia|]. apply wp_bind.
    eapply wp_access; [by apply kex_get_method_by_name_spec|].
    destruct (by_name tbl t) as [m|] eqn:Em.
    + apply (by_name_name (A := list Z)) in Em as [Hm <-]. rewrite decide_True in HQ by done.
      change (method_name m) with m in *.
      replace (lenZ u + lenZ m + 1) with (lenZ (u ++ m ++ [comma]))
        by (rewrite !lenZ_app; change (lenZ [comma]) with 1; lia).
      eapply IH; [done|right; exists (u ++ m); by rewrite <- app_assoc|lia| |done].
      exists junk. by rewrite <- !app_assoc.
    + apply by_name_none in Em. rewrite decide_False in HQ by done. apply wp_bind.
      eapply wp_access.
      { rewrite (app_comm_cons r), (app_assoc t). apply strlen_app; [|done]. apply Forall_app. by split. }
      apply wp_bind. eapply copy_down_ok; [done|]. intros s' Hs'.
      eapply IH; [done|done|lia|done|done].
Qed.
End StripLoop.

(** ** Setting a preference *)

Lemma names_ok {A} `{CommonMethod A} (tbl : list A) : table_ok tbl -> Forall name_ok (names tbl).
Proof. intros Ht. apply Forall_fmap. exact Ht. Qed.

Lemma pref_target_ok cfg compress ty v tbl :
  pref_target cfg compress ty = Some (v, Some tbl) -> Forall name_ok tbl.
Proof.
  unfold pref_target. intros H.
  repeat match type of H with context [if ?b then _ else _] => destruct b end; simplify_eq;
    apply names_ok; auto using kex_table_ok, hostkey_table_ok, crypt_table_ok, mac_table_ok, comp_table_ok.
Qed.

Lemma wp_set_pref v p (Q : unit -> session -> Prop) s :
  (forall s', s_heap s' = s_heap s -> get_pref v (s_kex s') = p -> Q tt s') -> wp (set_pref v p) Q s.
Proof. intros HQ. destruct v as [| |[]|[]|[]|[]|]; apply wp_modify, HQ; done. Qed.

Lemma wp_free_opt p (Q : unit -> session -> Prop) s :
  match p with Some q => is_Some (s_heap s !! q) | None => True end ->
  Q tt (match p with Some q => s <| s_heap ::= delete q |> | None => s end) -> wp (free_opt p) Q s.
Proof.
  destruct p as [q|]; [|by intros _]. intros [d Hd] HQ. by eapply wp_free_block.
Qed.

Definition live (h : gmap ptr (list Z)) (p : option ptr) : Prop :=
  match p with Some q => is_Some (h !! q) | None => True end.

Definition without (h : gmap ptr (list Z)) (p : option ptr) : gmap ptr (list Z) :=
  match p with Some q => delete q h | None => h end.

Definition pref_post (v : pref_variable) (tbl keep : list (list Z)) (s : session) (rc : Z) (s' : session) : Prop :=
  (rc = LIBSSH2_ERROR_ALLOC /\ s_heap s' = s_heap s /\ s_kex s' = s_kex s) \/
  (rc = LIBSSH2_ERROR_METHOD_NOT_SUPPORTED /\ keep = [] /\ s_heap s' = s_heap s /\ s_kex s' = s_kex s) \/
  (rc = 0 /\ keep <> [] /\ exists p r junk,
     get_pref v (s_kex s') = Some p /\ s_heap s !! p = None /\
     s_heap s' = <[p := r ++ 0 :: junk]> (without (s_heap s) (get_pref v (s_kex s))) /\
     filter not_empty (split_comma r) = keep /\ pref_ready tbl (s_heap s') (Some p)).

(** The end of [libssh2_session_method_pref], with the stripped string. *)
Lemma method_pref_end v tbl keep s s1 p r s2 :
  strips tbl r keep -> s_heap s1 = s_heap s -> s_kex s1 = s_kex s -> s_heap s !! p = None ->
  live (s_heap s) (get_pref v (s_kex s)) -> holds s1 p r s2 ->
  wp (let! d := block p in
      let! c := access (byte_at d 0) in
      if c =? 0 then
        free_block p ;;
        error LIBSSH2_ERROR_METHOD_NOT_SUPPORTED "The requested method(s) are not currently supported"
      else
        let! old := gets (fun s => get_pref v (s_kex s)) in
        free_opt old ;; set_pref v (Some p) ;; ret 0) (pref_post v tbl keep s) s2.
Proof.
  intros (Hk & Hok & He) Hh Hx Hp Hlive [junk ->].
  apply wp_bind. eapply wp_block; [apply lookup_insert_eq|]. apply wp_bind. destruct r as [|c r].
  - eapply wp_access; [done|]. simpl. apply wp_bind. eapply wp_free_block; [apply lookup_insert_eq|].
    apply wp_error_mem. intros s3 H3 Hh3 _. right. left. split_and!; [done|by apply He| |].
    + rewrite Hh3. simpl. rewrite delete_insert_id; [done|congruence].
    + rewrite H3. simpl. done.
  - eapply wp_access; [done|]. destruct Hok as [Hn Hs].
    rewrite (proj2 (Z.eqb_neq c 0)) by (by inversion Hn). apply wp_bind, wp_gets, wp_bind. simpl.
    rewrite Hx. eapply wp_free_opt.
    { destruct (get_pref v (s_kex s)) as [q|]; [|done]. destruct Hlive as [d Hd]. simpl.
      rewrite lookup_insert_ne by congruence. rewrite Hh. eauto. }
    apply wp_bind, wp_set_pref. intros s' Hh' Hg. apply wp_ret. right. right.
    assert (Hfin : s_heap s' = <[p := (c :: r) ++ 0 :: junk]> (without (s_heap s) (get_pref v (s_kex s)))).
    { rewrite Hh'. destruct (get_pref v (s_kex s)) as [q|]; simpl; [|by rewrite Hh].
      destruct Hlive as [d Hd]. rewrite delete_insert_ne by congruence. by rewrite Hh. }
    split_and!; [done|intros Hnil; by apply He in Hnil|]. exists p, (c :: r), junk. split_and!; try done.
    exists (c :: r), junk. rewrite Hfin. split; [apply lookup_insert_eq|done].
Qed.

(** setting a preference keeps exactly the supported names of the
    application's list, in its order. It fails, and stores nothing, when there is
    none; otherwise the variable points to a fresh, terminated string of these
    names, which negotiation can use ([pref_ready]), and the old preference is
    released. *)
Theorem method_pref_filters cfg method_type prefs s v tbl
    (Ht : pref_target cfg (flag_compress (s_kex s)) method_type = Some (v, Some tbl))
    (Hn : no_nul prefs) (Hsz : lenZ prefs < 2 ^ 31 - 1) (Hh : heap_ok s)
    (Hlive : live (s_heap s) (get_pref v (s_kex s))) :
  exists rc s', session_method_pref cfg method_type prefs s = Ret rc s' /\
    pref_post v tbl (filter (fun w => w ∈ tbl) (split_comma prefs)) s rc s'.
Proof.
  apply wp_Ret. unfold session_method_pref. apply wp_bind, wp_gets. rewrite Ht.
  pose proof (lenZ_nonneg prefs). rewrite s32_nonneg by lia. apply wp_bind, wp_alloc_block; intros al.
  { apply wp_error_mem. intros s1 H1 Hh1 _. left. split_and!; [done|by rewrite Hh1|by rewrite H1]. }
  set (p := s_next_ptr s). assert (Hp : s_heap s !! p = None) by (apply (heap_ok_fresh s Hh); lia).
  set (s1 := s <| s_alloc := al |> <| s_next_ptr := Pos.succ p |>).
  apply wp_bind. eapply (wp_access _ _ _ (prefs ++ [0])).
  { rewrite bytes_at_in by (rewrite ?lenZ_app; change (lenZ [0]) with 1; lia).
    f_equal. unfold slice. rewrite drop_0, take_ge; [done|]. rewrite length_app. unfold lenZ. simpl. lia. }
  apply wp_bind. eapply (wp_write_at s1 p (replicate (Z.to_nat (lenZ prefs + 1)) 0) _ _ _ [] []);
    [done|by rewrite app_nil_r|done|rewrite length_replicate, length_app; unfold lenZ; simpl; lia|].
  apply wp_bind. eapply (strip_loop_ok tbl s1 p _ [] prefs); [done|by left|lia| |].
  { exists []. simpl. by rewrite app_nil_r. }
  intros s2 H2. eapply (method_pref_end v tbl _ s s1 p); [|done|done|done|done|exact H2].
  apply (strip_spec tbl (pref_target_ok _ _ _ _ _ Ht) (split_comma prefs) []);
    [apply split_comma_nonempty|constructor].
Qed.

(** On [prefs_session], an AES key of 512 bits is not to be had. *)
Lemma method_pref_filters_witness :
  exists rc s', session_method_pref full_build LIBSSH2_METHOD_CRYPT_CS (str "aes512-ctr,aes192-cbc,x,aes128-ctr,y")
      prefs_session = Ret rc s' /\
    pref_post (PrefCrypt Local) (names (libssh2_crypt_methods full_build))
      [str "aes192-cbc"; str "aes128-ctr"] prefs_session rc s'.
Proof.
  replace [str "aes192-cbc"; str "aes128-ctr"] with
    (filter (fun w => w ∈ names (libssh2_crypt_methods full_build))
       (split_comma (str "aes512-ctr,aes192-cbc,x,aes128-ctr,y"))) by (by vm_compute).
  apply (method_pref_filters full_build LIBSSH2_METHOD_CRYPT_CS (str "aes512-ctr,aes192-cbc,x,aes128-ctr,y")
           prefs_session (PrefCrypt Local) (names (libssh2_crypt_methods full_build))).
  - done.
  - apply (bool_decide_unpack _). by vm_compute.
  - by vm_compute.
  - split; simpl; [apply map_Forall_singleton; apply (bool_decide_unpack _); by vm_compute|].
    intros p Hp. apply lookup_singleton_ne. lia.
  - simpl. rewrite lookup_singleton_eq. eauto.
Defined.
