(* ===== verification/KexCases.v ===== *)
(** * Theorems about the key exchange driver

    What [_libssh2_kex_exchange] leaves behind, and runs on concrete messages
    where negotiation does not do what it means to. *)

From stdpp Require Import base numbers list gmap strings.
From S2P Require Import Prelude Codes CString KexMethods Wire Session ChannelWindow Packet Conn Comp PacketSafety PacketWait Kex KexSpec KexAgree KexInit.

(** ** The state flags *)

(** Whenever [m] returns, its result satisfies [Q]. *)
Definition after {A} (m : CM A) (Q : A -> session -> Prop) : Prop :=
  forall s a s', m s = Ret a s' -> Q a s'.

Lemma after_bind {A B} (m : CM A) (k : A -> CM B) Q : (forall a, after (k a) Q) -> after (bind m k) Q.
Proof. intros H s b s' (a & s1 & _ & E)%bind_Ret_inv. by eapply H. Qed.

Lemma after_bind_post {A B} (m : CM A) (k : A -> CM B) P Q :
  after m P -> (forall a s b s', P a s -> k a s = Ret b s' -> Q b s') -> after (bind m k) Q.
Proof. intros Hm Hk s b s' (a & s1 & E1 & E)%bind_Ret_inv. eapply Hk; [by eapply Hm|done]. Qed.

(** The flags and the driver's state after a return. *)
Definition exchange_left (rc : Z) (s : session) : Prop :=
  Z.land (s_state s) LIBSSH2_STATE_KEX_ACTIVE = 0 /\
  (rc <> LIBSSH2_ERROR_EAGAIN ->
   Z.land (s_state s) LIBSSH2_STATE_EXCHANGING_KEYS = 0 /\ ks_state (s_kex s) = libssh2_NB_state_idle).

Lemma ldiff_land_0 a b : Z.land (Z.ldiff a b) b = 0.
Proof.
  apply Z.bits_inj'. intros n Hn. rewrite Z.land_spec, Z.ldiff_spec, Z.bits_0.
  by destruct (Z.testbit a n), (Z.testbit b n).
Qed.

Lemma ldiff_land_keep a b c : Z.land a c = 0 -> Z.land (Z.ldiff a b) c = 0.
Proof.
  intros H. apply Z.bits_inj'. intros n Hn. apply (f_equal (fun z => Z.testbit z n)) in H.
  rewrite Z.land_spec, Z.bits_0 in H. rewrite Z.land_spec, Z.ldiff_spec, Z.bits_0.
  destruct (Z.testbit a n), (Z.testbit b n), (Z.testbit c n); done.
Qed.

Section Flags.
Context (cfg : build) (random : session -> Z -> option (list Z)).
Context (transport_send : list Z -> list Z -> CM Z) (transport_read : CM Z).
Context (exchange_keys : kex_function -> CM Z).

Lemma after_eagain {A} (inj : Z -> A) rc (Q : A -> session -> Prop) :
  rc = LIBSSH2_ERROR_EAGAIN -> (forall s, exchange_left rc s -> Q (inj rc) s) ->
  after (state_clear LIBSSH2_STATE_KEX_ACTIVE ;; ret (inj rc)) Q.
Proof.
  intros -> H s a s' [= <- <-]. apply H. split; [apply ldiff_land_0|done].
Qed.

Lemma after_kex_restore : after kex_restore exchange_left.
Proof.
  apply after_bind. intros _. intros s a s' [= <- <-]. split; simpl.
  - apply ldiff_land_keep, ldiff_land_0.
  - intros _. split; [apply ldiff_land_0|done].
Qed.

(** The part before the exchange proper: a return of the driver, or on with it. *)
Definition negotiated (r : Z + Z) (s : session) : Prop :=
  match r with inl rc => exchange_left rc s | inr _ => True end.

Lemma after_restored {A} (m : CM A) :
  after (m ;; let! rc := kex_restore in ret (inl rc)) negotiated.
Proof.
  apply after_bind. intros _. eapply after_bind_post; [apply after_kex_restore|].
  by intros rc s r s' H [= <- <-].
Qed.

Lemma after_kex_receive fuel : after (kex_receive cfg transport_read fuel) negotiated.
Proof.
  unfold kex_receive. apply after_bind. intros start. apply after_bind. intros [[rc pkt] st].
  apply after_bind. intros _. destruct (Z.eqb_spec rc LIBSSH2_ERROR_EAGAIN) as [->|].
  { by apply (after_eagain inl). }
  destruct (negb (rc =? 0)).
  { apply after_bind. intros p. apply after_restored. }
  destruct pkt as [[data len]|]; [|done].
  do 6 (apply after_bind; intros ?). apply after_bind; intros ?. by intros s1 r1 s2 [= <- <-].
Qed.

Lemma after_kex_negotiate fuel :
  after (kex_negotiate cfg random transport_send transport_read fuel) negotiated.
Proof.
  unfold kex_negotiate. apply after_bind. intros k. apply after_bind. intros _. apply after_bind. intros st.
  eapply (after_bind_post _ _ (fun early s => match early with Some rc => exchange_left rc s | None => True end)).
  - destruct (nb_is st libssh2_NB_state_sent); [|by intros s a s' [= <- <-]].
    apply after_bind. intros rc. destruct (Z.eqb_spec rc LIBSSH2_ERROR_EAGAIN) as [->|].
    { by apply (after_eagain Some). }
    destruct (negb (rc =? 0)).
    + eapply after_bind_post; [apply after_kex_restore|]. by intros r s a s' H [= <- <-].
    + apply after_bind. intros _. by intros s a s' [= <- <-].
  - intros [rc|] s b s' H E; [by injection E as <- <-|].
    eapply (after_bind _ _ negotiated); [|exact E]. intros st'. cbn beta.
    destruct (nb_is st' libssh2_NB_state_sent1); [apply after_kex_receive|].
    by intros s1 a s1' [= <- <-].
Qed.

Lemma after_kex_finish rc : after (kex_finish exchange_keys rc) exchange_left.
Proof.
  unfold kex_finish. apply after_bind. intros k.
  set (done_ := fun rc : Z => bind _ _).
  assert (Hd : forall rc, after (done_ rc) exchange_left).
  { intros rc'. unfold done_. apply after_bind. intros k'. do 4 (apply after_bind; intros _).
    intros s a s' [= <- <-]. split; simpl.
    - apply ldiff_land_keep, ldiff_land_0.
    - intros _. split; [apply ldiff_land_0|done]. }
  destruct (kx_kex k) as [m|]; [|apply Hd]. destruct ((rc =? 0) && _); [|apply Hd].
  apply after_bind. intros f. apply after_bind. intros ec.
  destruct (Z.eqb_spec ec LIBSSH2_ERROR_EAGAIN) as [->|]; [by apply (after_eagain (fun x => x))|].
  destruct (negb (ec =? 0)); [|apply Hd]. apply after_bind. intros rc'. apply Hd.
Qed.

(** C39: the flags of the key exchange. Whatever transport and key exchange
    method do, a return of [_libssh2_kex_exchange] leaves
    [LIBSSH2_STATE_KEX_ACTIVE] cleared, so that the transport layer resumes a
    suspended exchange, and a return other than [LIBSSH2_ERROR_EAGAIN] also
    leaves [LIBSSH2_STATE_EXCHANGING_KEYS] cleared and the driver's state idle,
    so that the next exchange starts anew. *)
Theorem kex_exchange_flags fuel reexchange s rc s'
    (E : kex_exchange cfg random transport_send transport_read exchange_keys fuel reexchange s = Ret rc s') :
  Z.land (s_state s') LIBSSH2_STATE_KEX_ACTIVE = 0 /\
  (rc <> LIBSSH2_ERROR_EAGAIN ->
   Z.land (s_state s') LIBSSH2_STATE_EXCHANGING_KEYS = 0 /\ ks_state (s_kex s') = libssh2_NB_state_idle).
Proof.
  revert s rc s' E. change (after (kex_exchange cfg random transport_send transport_read exchange_keys fuel
                                    reexchange) exchange_left).
  unfold kex_exchange. apply after_bind. intros _. apply after_bind. intros k. apply after_bind. intros _.
  apply after_bind. intros k'.
  assert (Hn : after (let! r := kex_negotiate cfg random transport_send transport_read fuel in
      match r with inl rc => ret rc | inr rc => kex_finish exchange_keys rc end) exchange_left).
  { eapply after_bind_post; [apply after_kex_negotiate|]. intros [rc|rc] s b s' H Er.
    - by injection Er as <- <-.
    - by eapply after_kex_finish. }
  destruct (kx_kex k'); [destruct (kx_hostkey k')|]; [|exact Hn..].
  apply after_bind. intros _. apply after_kex_finish.
Qed.
End Flags.

(** ** Defects *)

(** A session to which a server has sent a message with the given list of key
    exchange methods and [first_kex_packet_follows]. *)
Definition offered_message (kex : list Z) (follows : Z) : list Z :=
  kexinit_message (replicate 16 7)
    [kex; str "ssh-ed25519"; str "aes128-ctr"; str "aes128-ctr"; str "hmac-sha1"; str "hmac-sha1";
     str "none"; str "none"; []; []] [follows; 0; 0; 0; 0].

Definition offered_session (msg : list Z) : session :=
  session_0 <| s_heap := {[ 1%positive := msg ]} |> <| s_next_ptr := 2%positive |>
            <| packets := [mk_packet 1%positive (lenZ msg) 0] |>.

Definition send_all (_ _ : list Z) : CM Z := ret 0.
Definition read_nothing : CM Z := ret 0.

Lemma kex_exchange_flags_witness :
  exists rc s', kex_exchange full_build random_sevens send_all read_nothing (fun _ => ret 0) 5 false
      (offered_session (offered_message (str "curve25519-sha256") 0)) = Ret rc s' /\
    Z.land (s_state s') LIBSSH2_STATE_KEX_ACTIVE = 0 /\
    (rc <> LIBSSH2_ERROR_EAGAIN ->
     Z.land (s_state s') LIBSSH2_STATE_EXCHANGING_KEYS = 0 /\ ks_state (s_kex s') = libssh2_NB_state_idle).
Proof.
  destruct (kex_exchange full_build random_sevens send_all read_nothing (fun _ => ret 0) 5 false
    (offered_session (offered_message (str "curve25519-sha256") 0))) as [rc s'| |] eqn:E;
    [|vm_compute in E; discriminate E..].
  exists rc, s'. split; [reflexivity|].
  exact (kex_exchange_flags full_build random_sevens send_all read_nothing (fun _ => ret 0) 5 false _ rc s' E).
Defined.

(** the client lists the pseudo-method [ext-info-c] with its key exchange
    methods and also accepts it as one: a server that offers it as its only method
    is agreed with, and the exchange then calls a null pointer. *)
Theorem ext_info_null_call exchange_keys fuel :
  kex_exchange full_build random_sevens send_all read_nothing exchange_keys fuel false
    (offered_session (offered_message (str "ext-info-c") 0)) = Fault.
Proof. vm_compute. reflexivity. Qed.

(** the server's [first_kex_packet_follows] is not read. The two lists of
    languages stand between the lists [kex_agree_methods] reads and that flag, and
    it takes the first byte of their length for the flag: with the flag set and
    a wrong guess, no packet will be ignored. *)
Theorem first_kex_packet_follows_unread :
  let msg := offered_message (str "foo,curve25519-sha256") 1 in
  exists s', kex_agree_methods full_build msg (lenZ msg) session_0 = Ret 0 s' /\
    kx_kex (s_kex s') = Some kex_method_ssh_curve25519_sha256 /\
    burn_optimistic_kexinit (s_kex s') = 0.
Proof. eexists. split; [vm_compute; reflexivity|]. split; vm_compute; reflexivity. Qed.

(** Without random bytes [kexinit] gives up and leaves the allocated message. *)
Lemma kexinit_random_leak :
  exists s', kexinit full_build (fun _ _ => None) send_all session_0 = Ret LIBSSH2_ERROR_RANDGEN s' /\
    is_Some (s_heap s' !! 1%positive) /\ kexinit_data (s_kex s') = None /\
    ke_kexinit (kx_local (s_kex s')) = None.
Proof.
  eexists. split; [vm_compute; reflexivity|]. split; [vm_compute; eauto|]. split; vm_compute; reflexivity.
Qed.
