(* ===== verification/DhGroups.v ===== *)
(** * The fixed Diffie-Hellman groups (kex.c)

    The moduli of RFC 2409 (group 1, "Oakley group 2") and RFC 3526 as the
    methods of kex.c hold them, most significant byte first. *)

From stdpp Require Import base numbers list.
From S2P Require Import Prelude.

Definition p_value_group1 : list Z :=
  [255; 255; 255; 255; 255; 255; 255; 255; 201; 15; 218; 162; 33; 104; 194; 52; 196; 198; 98;
   139; 128; 220; 28; 209; 41; 2; 78; 8; 138; 103; 204; 116; 2; 11; 190; 166; 59; 19; 155; 34;
   81; 74; 8; 121; 142; 52; 4; 221; 239; 149; 25; 179; 205; 58; 67; 27; 48; 43; 10; 109; 242; 95;
   20; 55; 79; 225; 53; 109; 109; 81; 194; 69; 228; 133; 181; 118; 98; 94; 126; 198; 244; 76; 66;
   233; 166; 55; 237; 107; 11; 255; 92; 182; 244; 6; 183; 237; 238; 56; 107; 251; 90; 137; 159;
   165; 174; 159; 36; 17; 124; 75; 31; 230; 73; 40; 102; 81; 236; 230; 83; 129; 255; 255; 255;
   255; 255; 255; 255; 255].

Definition p_value_group14 : list Z :=
  [255; 255; 255; 255; 255; 255; 255; 255; 201; 15; 218; 162; 33; 104; 194; 52; 196; 198; 98;
   139; 128; 220; 28; 209; 41; 2; 78; 8; 138; 103; 204; 116; 2; 11; 190; 166; 59; 19; 155; 34;
   81; 74; 8; 121; 142; 52; 4; 221; 239; 149; 25; 179; 205; 58; 67; 27; 48; 43; 10; 109; 242; 95;
   20; 55; 79; 225; 53; 109; 109; 81; 194; 69; 228; 133; 181; 118; 98; 94; 126; 198; 244; 76; 66;
   233; 166; 55; 237; 107; 11; 255; 92; 182; 244; 6; 183; 237; 238; 56; 107; 251; 90; 137; 159;
   165; 174; 159; 36; 17; 124; 75; 31; 230; 73; 40; 102; 81; 236; 228; 91; 61; 194; 0; 124; 184;
   161; 99; 191; 5; 152; 218; 72; 54; 28; 85; 211; 154; 105; 22; 63; 168; 253; 36; 207; 95; 131;
   101; 93; 35; 220; 163; 173; 150; 28; 98; 243; 86; 32; 133; 82; 187; 158; 213; 41; 7; 112; 150;
   150; 109; 103; 12; 53; 78; 74; 188; 152; 4; 241; 116; 108; 8; 202; 24; 33; 124; 50; 144; 94;
   70; 46; 54; 206; 59; 227; 158; 119; 44; 24; 14; 134; 3; 155; 39; 131; 162; 236; 7; 162; 143;
   181; 197; 93; 240; 111; 76; 82; 201; 222; 43; 203; 246; 149; 88; 23; 24; 57; 149; 73; 124;
   234; 149; 106; 229; 21; 210; 38; 24; 152; 250; 5; 16; 21; 114; 142; 90; 138; 172; 170; 104;
   255; 255; 255; 255; 255; 255; 255; 255].

Definition p_value_group16 : list Z :=
  [255; 255; 255; 255; 255; 255; 255; 255; 201; 15; 218; 162; 33; 104; 194; 52; 196; 198; 98;
   139; 128; 220; 28; 209; 41; 2; 78; 8; 138; 103; 204; 116; 2; 11; 190; 166; 59; 19; 155; 34;
   81; 74; 8; 121; 142; 52; 4; 221; 239; 149; 25; 179; 205; 58; 67; 27; 48; 43; 10; 109; 242; 95;
   20; 55; 79; 225; 53; 109; 109; 81; 194; 69; 228; 133; 181; 118; 98; 94; 126; 198; 244; 76; 66;
   233; 166; 55; 237; 107; 11; 255; 92; 182; 244; 6; 183; 237; 238; 56; 107; 251; 90; 137; 159;
   165; 174; 159; 36; 17; 124; 75; 31; 230; 73; 40; 102; 81; 236; 228; 91; 61; 194; 0; 124; 184;
   161; 99; 191; 5; 152; 218; 72; 54; 28; 85; 211; 154; 105; 22; 63; 168; 253; 36; 207; 95; 131;
   101; 93; 35; 220; 163; 173; 150; 28; 98; 243; 86; 32; 133; 82; 187; 158; 213; 41; 7; 112; 150;
   150; 109; 103; 12; 53; 78; 74; 188; 152; 4; 241; 116; 108; 8; 202; 24; 33; 124; 50; 144; 94;
   70; 46; 54; 206; 59; 227; 158; 119; 44; 24; 14; 134; 3; 155; 39; 131; 162; 236; 7; 162; 143;
   181; 197; 93; 240; 111; 76; 82; 201; 222; 43; 203; 246; 149; 88; 23; 24; 57; 149; 73; 124;
   234; 149; 106; 229; 21; 210; 38; 24; 152; 250; 5; 16; 21; 114; 142; 90; 138; 170; 196; 45;
   173; 51; 23; 13; 4; 80; 122; 51; 168; 85; 33; 171; 223; 28; 186; 100; 236; 251; 133; 4; 88;
   219; 239; 10; 138; 234; 113; 87; 93; 6; 12; 125; 179; 151; 15; 133; 166; 225; 228; 199; 171;
   245; 174; 140; 219; 9; 51; 215; 30; 140; 148; 224; 74; 37; 97; 157; 206; 227; 210; 38; 26;
   210; 238; 107; 241; 47; 250; 6; 217; 138; 8; 100; 216; 118; 2; 115; 62; 200; 106; 100; 82; 31;
   43; 24; 23; 123; 32; 12; 187; 225; 23; 87; 122; 97; 93; 108; 119; 9; 136; 192; 186; 217; 70;
   226; 8; 226; 79; 160; 116; 229; 171; 49; 67; 219; 91; 252; 224; 253; 16; 142; 75; 130; 209;
   32; 169; 33; 8; 1; 26; 114; 60; 18; 167; 135; 230; 215; 136; 113; 154; 16; 189; 186; 91; 38;
   153; 195; 39; 24; 106; 244; 226; 60; 26; 148; 104; 52; 182; 21; 11; 218; 37; 131; 233; 202;
   42; 212; 76; 232; 219; 187; 194; 219; 4; 222; 142; 249; 46; 142; 252; 20; 31; 190; 202; 166;
   40; 124; 89; 71; 78; 107; 192; 93; 153; 178; 150; 79; 160; 144; 195; 162; 35; 59; 161; 134;
   81; 91; 231; 237; 31; 97; 41; 112; 206; 226; 215; 175; 184; 27; 221; 118; 33; 112; 72; 28;
   208; 6; 145; 39; 213; 176; 90; 169; 147; 180; 234; 152; 141; 143; 221; 193; 134; 255; 183;
   220; 144; 166; 192; 143; 77; 244; 53; 201; 52; 6; 49; 153; 255; 255; 255; 255; 255; 255; 255;
   255].

Definition p_value_group18 : list Z :=
  [255; 255; 255; 255; 255; 255; 255; 255; 201; 15; 218; 162; 33; 104; 194; 52; 196; 198; 98;
   139; 128; 220; 28; 209; 41; 2; 78; 8; 138; 103; 204; 116; 2; 11; 190; 166; 59; 19; 155; 34;
   81; 74; 8; 121; 142; 52; 4; 221; 239; 149; 25; 179; 205; 58; 67; 27; 48; 43; 10; 109; 242; 95;
   20; 55; 79; 225; 53; 109; 109; 81; 194; 69; 228; 133; 181; 118; 98; 94; 126; 198; 244; 76; 66;
   233; 166; 55; 237; 107; 11; 255; 92; 182; 244; 6; 183; 237; 238; 56; 107; 251; 90; 137; 159;
   165; 174; 159; 36; 17; 124; 75; 31; 230; 73; 40; 102; 81; 236; 228; 91; 61; 194; 0; 124; 184;
   161; 99; 191; 5; 152; 218; 72; 54; 28; 85; 211; 154; 105; 22; 63; 168; 253; 36; 207; 95; 131;
   101; 93; 35; 220; 163; 173; 150; 28; 98; 243; 86; 32; 133; 82; 187; 158; 213; 41; 7; 112; 150;
   150; 109; 103; 12; 53; 78; 74; 188; 152; 4; 241; 116; 108; 8; 202; 24; 33; 124; 50; 144; 94;
   70; 46; 54; 206; 59; 227; 158; 119; 44; 24; 14; 134; 3; 155; 39; 131; 162; 236; 7; 162; 143;
   181; 197; 93; 240; 111; 76; 82; 201; 222; 43; 203; 246; 149; 88; 23; 24; 57; 149; 73; 124;
   234; 149; 106; 229; 21; 210; 38; 24; 152; 250; 5; 16; 21; 114; 142; 90; 138; 170; 196; 45;
   173; 51; 23; 13; 4; 80; 122; 51; 168; 85; 33; 171; 223; 28; 186; 100; 236; 251; 133; 4; 88;
   219; 239; 10; 138; 234; 113; 87; 93; 6; 12; 125; 179; 151; 15; 133; 166; 225; 228; 199; 171;
   245; 174; 140; 219; 9; 51; 215; 30; 140; 148; 224; 74; 37; 97; 157; 206; 227; 210; 38; 26;
   210; 238; 107; 241; 47; 250; 6; 217; 138; 8; 100; 216; 118; 2; 115; 62; 200; 106; 100; 82; 31;
   43; 24; 23; 123; 32; 12; 187; 225; 23; 87; 122; 97; 93; 108; 119; 9; 136; 192; 186; 217; 70;
   226; 8; 226; 79; 160; 116; 229; 171; 49; 67; 219; 91; 252; 224; 253; 16; 142; 75; 130; 209;
   32; 169; 33; 8; 1; 26; 114; 60; 18; 167; 135; 230; 215; 136; 113; 154; 16; 189; 186; 91; 38;
   153; 195; 39; 24; 106; 244; 226; 60; 26; 148; 104; 52; 182; 21; 11; 218; 37; 131; 233; 202;
   42; 212; 76; 232; 219; 187; 194; 219; 4; 222; 142; 249; 46; 142; 252; 20; 31; 190; 202; 166;
   40; 124; 89; 71; 78; 107; 192; 93; 153; 178; 150; 79; 160; 144; 195; 162; 35; 59; 161; 134;
   81; 91; 231; 237; 31; 97; 41; 112; 206; 226; 215; 175; 184; 27; 221; 118; 33; 112; 72; 28;
   208; 6; 145; 39; 213; 176; 90; 169; 147; 180; 234; 152; 141; 143; 221; 193; 134; 255; 183;
   220; 144; 166; 192; 143; 77; 244; 53; 201; 52; 2; 132; 146; 54; 195; 250; 180; 210; 124; 112;
   38; 193; 212; 220; 178; 96; 38; 70; 222; 201; 117; 30; 118; 61; 186; 55; 189; 248; 255; 148;
   6; 173; 158; 83; 14; 229; 219; 56; 47; 65; 48; 1; 174; 176; 106; 83; 237; 144; 39; 216; 49;
   23; 151; 39; 176; 134; 90; 137; 24; 218; 62; 219; 235; 207; 155; 20; 237; 68; 206; 108; 186;
   206; 212; 187; 27; 219; 127; 20; 71; 230; 204; 37; 75; 51; 32; 81; 81; 43; 215; 175; 66; 111;
   184; 244; 1; 55; 140; 210; 191; 89; 131; 202; 1; 198; 75; 146; 236; 240; 50; 234; 21; 209;
   114; 29; 3; 244; 130; 215; 206; 110; 116; 254; 246; 213; 94; 112; 47; 70; 152; 12; 130; 181;
   168; 64; 49; 144; 11; 28; 158; 89; 231; 201; 127; 190; 199; 232; 243; 35; 169; 122; 126; 54;
   204; 136; 190; 15; 29; 69; 183; 255; 88; 90; 197; 75; 212; 7; 178; 43; 65; 84; 170; 204; 143;
   109; 126; 191; 72; 225; 216; 20; 204; 94; 210; 15; 128; 55; 224; 167; 151; 21; 238; 242; 155;
   227; 40; 6; 161; 213; 139; 183; 197; 218; 118; 245; 80; 170; 61; 138; 31; 191; 240; 235; 25;
   204; 177; 163; 19; 213; 92; 218; 86; 201; 236; 46; 242; 150; 50; 56; 127; 232; 215; 110; 60;
   4; 104; 4; 62; 143; 102; 63; 72; 96; 238; 18; 191; 45; 91; 11; 116; 116; 214; 230; 148; 249;
   30; 109; 190; 17; 89; 116; 163; 146; 111; 18; 254; 229; 228; 56; 119; 124; 182; 169; 50; 223;
   140; 216; 190; 196; 208; 115; 185; 49; 186; 59; 200; 50; 182; 141; 157; 211; 0; 116; 31; 167;
   191; 138; 252; 71; 237; 37; 118; 246; 147; 107; 164; 36; 102; 58; 171; 99; 156; 90; 228; 245;
   104; 52; 35; 180; 116; 43; 241; 201; 120; 35; 143; 22; 203; 227; 157; 101; 45; 227; 253; 184;
   190; 252; 132; 138; 217; 34; 34; 46; 4; 164; 3; 124; 7; 19; 235; 87; 168; 26; 35; 240; 199;
   52; 115; 252; 100; 108; 234; 48; 107; 75; 203; 200; 134; 47; 131; 133; 221; 250; 157; 75; 127;
   162; 192; 135; 232; 121; 104; 51; 3; 237; 91; 221; 58; 6; 43; 60; 245; 179; 162; 120; 166;
   109; 42; 19; 248; 63; 68; 248; 45; 223; 49; 14; 224; 116; 171; 106; 54; 69; 151; 232; 153;
   160; 37; 93; 193; 100; 243; 28; 197; 8; 70; 133; 29; 249; 171; 72; 25; 93; 237; 126; 161; 177;
   213; 16; 189; 126; 231; 77; 115; 250; 243; 107; 195; 30; 207; 162; 104; 53; 144; 70; 244; 235;
   135; 159; 146; 64; 9; 67; 139; 72; 28; 108; 215; 136; 154; 0; 46; 213; 238; 56; 43; 201; 25;
   13; 166; 252; 2; 110; 71; 149; 88; 228; 71; 86; 119; 233; 170; 158; 48; 80; 226; 118; 86; 148;
   223; 200; 31; 86; 232; 128; 185; 110; 113; 96; 201; 128; 221; 152; 237; 211; 223; 255; 255;
   255; 255; 255; 255; 255; 255].

(** Each modulus is 2^n - 2^(n-64) - 1 + 2^64 (c + floor(2^(n-130) pi)) for a
    small c: it starts and ends with 64 ones, and up to the last 130 bits and the
    carry of c, the bytes in between are the leading bytes of pi, so that a
    smaller group's are a prefix of a larger one's. *)
Definition ones8 : list Z := replicate 8 255.

Definition group_frame (p : list Z) : Prop :=
  bytes_ok p /\ take 8 p = ones8 /\ drop (length p - 8) p = ones8.

#[global] Instance group_frame_dec p : Decision (group_frame p).
Proof. unfold group_frame. apply _. Defined.

(** The bytes of pi that a modulus of [length p] bytes must share. *)
Definition pi_bytes (p : list Z) : nat := (length p - 24)%nat.

Lemma groups_framed :
  Forall group_frame [p_value_group1; p_value_group14; p_value_group16; p_value_group18].
Proof. apply (bool_decide_unpack _). vm_compute. exact I. Qed.

Lemma groups_share_pi :
  Forall (fun p => take (pi_bytes p) p = take (pi_bytes p) p_value_group18)
    [p_value_group1; p_value_group14; p_value_group16].
Proof. apply (bool_decide_unpack _). vm_compute. exact I. Qed.
