(* ===== verification/KexDh.v ===== *)
(** * The key exchange methods (kex.c)

    [diffie_hellman_sha_algo] with the methods built on it,
    [ecdh_sha2_nistp] and [curve25519_sha256]. They send the client's public
    value, wait for the server's reply, compute the exchange hash, verify the
    server's signature of it, exchange [SSH_MSG_NEWKEYS] and derive the keys.
    Digests, big numbers, key agreement, signatures and ciphers are the crypto
    backend's and arguments of the model. *)

From stdpp Require Import base numbers list gmap strings.
From S2P Require Import Prelude Codes CString KexMethods Wire Session ChannelWindow Packet Conn Comp PacketWait Kex DhGroups.

Definition LIBSSH2_DH_GEX_MINGROUP : Z := 2048.
Definition LIBSSH2_DH_GEX_OPTGROUP : Z := 4096.
Definition LIBSSH2_DH_GEX_MAXGROUP : Z := 8192.
Definition LIBSSH2_DH_MAX_MODULUS_BITS : Z := 16384.
Definition SSH2_MSG_KEX_ECDH_INIT : Z := 30.
Definition SSH2_MSG_KEX_ECDH_REPLY : Z := 31.
Definition LIBSSH2_ED25519_KEY_LEN : Z := 32.
Definition LIBSSH2_SSH_DEFAULT_BANNER : list Z := str "SSH-2.0-libssh2_1.10.1_DEV".

(** How a stage of an exchange ends: the function returns (to be called again),
    it goes to its clean-up with a return value, or the next stage follows. *)
Inductive flow := Return (rc : Z) | Exit (ret : Z) | Next.

(** The digest of an algorithm number. *)
Definition digest_len (sha_algo : Z) : option Z :=
  if sha_algo =? 512 then Some SHA512_DIGEST_LENGTH
  else if sha_algo =? 384 then Some SHA384_DIGEST_LENGTH
  else if sha_algo =? 256 then Some SHA256_DIGEST_LENGTH
  else if sha_algo =? 1 then Some SHA_DIGEST_LENGTH
  else None.

Definition get_xs (s : session) : kex_state := kl_exchange (kx_low (s_kex s)).
Definition set_low (f : kex_low -> kex_low) : CM unit := set_kex (fun k => k <| kx_low ::= f |>).
Definition set_xs (f : kex_state -> kex_state) : CM unit := set_low (fun l => l <| kl_exchange ::= f |>).
Definition set_server (f : server_identity -> server_identity) : CM unit :=
  set_kex (fun k => k <| kx_server ::= f |>).

(** A failure: the error is recorded, then the clean-up. *)
Definition fail (code : Z) (msg : string) : CM flow := let! rc := error code msg in ret (Exit rc).
#[global] Arguments fail code msg%_string_scope.

(** A stage: the body runs in the state [st] of the exchange. *)
Definition stage (st : libssh2_nonblocking_states) (body : CM flow) : CM flow :=
  let! x := gets get_xs in if nb_is (xs_state x) st then body else ret Next.

Fixpoint stages (l : list (CM flow)) : CM flow :=
  match l with
  | [] => ret Next
  | m :: l => let! f := m in match f with Next => stages l | _ => ret f end
  end.

Section Exchange.
Context (cfg : build).
Context (transport_send : list Z -> list Z -> CM Z) (transport_read : CM Z).
(** Digest of a message by algorithm number; digests for the fingerprints of the
    host key (1: MD5, 2: SHA-1, 3: SHA-256), which may be unavailable. *)
Context (digest : Z -> list Z -> list Z) (fingerprint : Z -> list Z -> option (list Z)).
(** Big numbers. *)
Context (bn_bits : list Z -> Z) (bn_to_bin bn_from_bin : list Z -> list Z).
(** Key agreement: the secret and the public value, or failure; the shared secret. *)
Context (dh_key_pair : session -> list Z -> list Z -> Z -> option (list Z * list Z)).
Context (dh_secret : list Z -> list Z -> list Z -> list Z).
Context (ecdsa_create_key : session -> Z -> option (list Z * list Z)).
Context (ecdh_gen_k : list Z -> list Z -> option (list Z)).
Context (curve25519_new : session -> option (list Z * list Z)).
Context (curve25519_gen_k : list Z -> list Z -> option (list Z)).
(** [hostkey->init], [hostkey->sig_verify], [crypt->init], [comp->init]. *)
Context (hostkey_init : LIBSSH2_HOSTKEY_METHOD -> list Z -> option (list Z)).
Context (sig_verify : LIBSSH2_HOSTKEY_METHOD -> list Z -> list Z -> list Z -> bool).
Context (crypt_init : LIBSSH2_CRYPT_METHOD -> list Z -> list Z -> Z -> option (list Z)).
Context (comp_init : LIBSSH2_COMP_METHOD -> Z -> option (list Z)).

(** ** Key derivation *)

Definition opt_bytes (p : option ptr) (len : Z) : CM (list Z) :=
  match p with
  | Some p => let! d := block p in access (bytes_at d 0 len)
  | None => if len =? 0 then ret [] else fault
  end.

(** The loop of [LIBSSH2_KEX_METHOD_SHA_VALUE_HASH]. *)
Fixpoint value_hash_loop (fuel : nat) (sha_algo dlen : Z) (value : ptr) (reqlen len : Z)
    (version : list Z) : CM unit :=
  match fuel with
  | O => fun _ => OutOfFuel
  | S fuel =>
      if len <? reqlen then
        let! x := gets get_xs in
        let! k_value := opt_bytes (xs_k_value x) (xs_k_value_len x) in
        let! h := access (bytes_at (xs_h_sig_comp x) 0 dlen) in
        let! last :=
          (if 0 <? len then let! d := block value in access (bytes_at d 0 len)
           else
             let! i := gets (fun s => kx_server (s_kex s)) in
             let! id := opt_bytes (session_id i) (session_id_len i) in
             ret (version ++ id)) in
        write_block value len (digest sha_algo (k_value ++ h ++ last)) ;;
        value_hash_loop fuel sha_algo dlen value reqlen (len + dlen) version
      else ret tt
  end.

(** [_libssh2_sha_algo_value_hash] with a null [*data]. *)
Definition sha_algo_value_hash (sha_algo dlen reqlen : Z) (version : list Z) : CM (option ptr) :=
  let! value := alloc_block (replicate (Z.to_nat (reqlen + dlen)) 0) in
  match value with
  | Some value =>
      value_hash_loop (S (Z.to_nat reqlen)) sha_algo dlen value reqlen 0 version ;; ret (Some value)
  | None => ret None
  end.

Definition crypt_direction (e : endpoint) : Z := match e with Local => 1 | Remote => 0 end.

(** Keys of one direction's cipher. *)
Definition install_crypt (sha_algo dlen : Z) (e : endpoint) (iv_version secret_version : list Z)
    (no_iv : Z) : CM flow :=
  let! m := gets (fun s => ke_crypt (kex_ep e (s_kex s))) in
  let! m := access m in
  if crm_init m then
    set_endpoint e (fun x => x <| ep_crypt_abstract := [] |>) ;;
    let! iv := sha_algo_value_hash sha_algo dlen (crm_iv_len m) iv_version in
    match iv with
    | None => ret (Exit no_iv)
    | Some iv =>
        let! secret := sha_algo_value_hash sha_algo dlen (crm_secret_len m) secret_version in
        match secret with
        | None => free_block iv ;; ret (Exit LIBSSH2_ERROR_KEX_FAILURE)
        | Some secret =>
            let! ivb := opt_bytes (Some iv) (crm_iv_len m) in
            let! secretb := opt_bytes (Some secret) (crm_secret_len m) in
            let r := crypt_init m ivb secretb (crypt_direction e) in
            free_block iv ;;
            free_block secret ;;
            match r with
            | None => ret (Exit LIBSSH2_ERROR_KEX_FAILURE)
            | Some a => set_endpoint e (fun x => x <| ep_crypt_abstract := a |>) ;; ret Next
            end
        end
    end
  else ret Next.

(** The MAC's key; [mac_method_common_init] keeps the block. *)
Definition install_mac (sha_algo dlen : Z) (e : endpoint) (version : list Z) : CM flow :=
  let! k := gets (fun s => kex_ep e (s_kex s)) in
  let! m := access (ke_mac k) in
  if macm_init m then
    free_opt (ke_mac_abstract k) ;;
    set_kex_ep e (fun k => k <| ke_mac_abstract := None |>) ;;
    let! key := sha_algo_value_hash sha_algo dlen (macm_key_len m) version in
    match key with
    | None => ret (Exit LIBSSH2_ERROR_KEX_FAILURE)
    | Some key => set_kex_ep e (fun k => k <| ke_mac_abstract := Some key |>) ;; ret Next
    end
  else ret Next.

Definition install_comp (e : endpoint) : CM flow :=
  let! m := gets (fun s => ke_comp (kex_ep e (s_kex s))) in
  match m with
  | Some m =>
      if com_compress m then
        set_endpoint e (fun x => x <| ep_comp_abstract := None |>) ;;
        match comp_init m (crypt_direction e) with
        | None => ret (Exit LIBSSH2_ERROR_KEX_FAILURE)
        | Some a => set_endpoint e (fun x => x <| ep_comp_abstract := Some a |>) ;; ret Next
        end
      else ret Next
  | None => ret Next
  end.

(** Keys and compression of both directions, in the order of the code. *)
Definition install_keys (sha_algo dlen : Z) : CM flow :=
  stages
    [install_crypt sha_algo dlen Local (str "A") (str "C") (-1);
     install_crypt sha_algo dlen Remote (str "B") (str "D") LIBSSH2_ERROR_KEX_FAILURE;
     install_mac sha_algo dlen Local (str "E");
     install_mac sha_algo dlen Remote (str "F");
     install_comp Local;
     install_comp Remote].

(** ** The stages the methods share *)

(** The hash of the first exchange is the session's identifier. *)
Definition set_session_id (dlen : Z) : CM flow :=
  let! i := gets (fun s => kx_server (s_kex s)) in
  match session_id i with
  | Some _ => ret Next
  | None =>
      let! x := gets get_xs in
      let! h := access (bytes_at (xs_h_sig_comp x) 0 dlen) in
      let! id := alloc_block h in
      match id with
      | None => fail LIBSSH2_ERROR_ALLOC "Unable to allocate buffer for SHA digest"
      | Some id =>
          set_server (fun i => i <| session_id := Some id |> <| session_id_len := dlen |>) ;; ret Next
      end
  end.

Definition send_newkeys (next : libssh2_nonblocking_states) : CM flow :=
  let! x := gets get_xs in
  let! rc := transport_send [xs_c x] [] in
  if rc =? LIBSSH2_ERROR_EAGAIN then ret (Return rc)
  else if negb (rc =? 0) then fail rc "Unable to send NEWKEYS message"
  else set_xs (fun x => x <| xs_state := next |>) ;; ret Next.

Definition receive_newkeys (fuel : nat) (sha_algo dlen : Z) : CM flow :=
  let! x := gets get_xs in
  let! r := packet_require transport_read fuel SSH_MSG_NEWKEYS 0 None (xs_req_start x) in
  let '(rc, pkt, start) := r in
  set_xs (fun x => x <| xs_req_start := start |>) ;;
  if rc =? LIBSSH2_ERROR_EAGAIN then ret (Return rc)
  else if negb (rc =? 0) then fail rc "Timed out waiting for NEWKEYS"
  else
    let! tmp := access pkt in
    state_set LIBSSH2_STATE_NEWKEYS ;;
    free_block tmp.1 ;;
    stages [set_session_id dlen; install_keys sha_algo dlen].

(** Fingerprints and import of the host key. *)
Definition import_hostkey : CM flow :=
  let! i := gets (fun s => kx_server (s_kex s)) in
  let! hostkey := opt_bytes (server_hostkey i) (server_hostkey_len i) in
  (if LIBSSH2_MD5 cfg then set_server (fun i => i <| server_hostkey_md5 := fingerprint 1 hostkey |>)
   else ret tt) ;;
  set_server (fun i => i <| server_hostkey_sha1 := fingerprint 2 hostkey |>
                         <| server_hostkey_sha256 := fingerprint 3 hostkey |>) ;;
  let! m := gets (fun s => kx_hostkey (s_kex s)) in
  let! m := access m in
  if hkm_init m then
    match hostkey_init m hostkey with
    | None => fail LIBSSH2_ERROR_HOSTKEY_INIT "Unable to initialize hostkey importer"
    | Some a => set_server (fun i => i <| server_hostkey_abstract := Some a |>) ;; ret Next
    end
  else fault.

(** A number in the format of an mpint: 0 goes before a first byte with its
    highest bit set. *)
Definition bn_bytes (b : list Z) : Z := (bn_bits b + 7) / 8.

Definition bn_mpint_len (b : list Z) : Z :=
  if bn_bits b mod 8 =? 0 then bn_bytes b + 1 else bn_bytes b.

Definition write_bn (p : ptr) (off : Z) (b : list Z) : CM unit :=
  write_block p off (htonu32 (bn_mpint_len b)) ;;
  if bn_bits b mod 8 =? 0 then
    write_block p (off + 4) [0] ;; write_block p (off + 5) (bn_to_bin b)
  else write_block p (off + 4) (bn_to_bin b).

(** The shared secret [k] in [k_value]. *)
Definition store_k (k : list Z) : CM flow :=
  let k_value_len := 4 + bn_mpint_len k in
  set_xs (fun x => x <| xs_k := k |> <| xs_k_value_len := k_value_len |>) ;;
  let! p := alloc_block (replicate (Z.to_nat k_value_len) 0) in
  set_xs (fun x => x <| xs_k_value := p |>) ;;
  match p with
  | None => fail LIBSSH2_ERROR_ALLOC "Unable to allocate buffer for K"
  | Some p => write_bn p 0 k ;; ret Next
  end.

(** A string of the exchange hash. *)
Definition hash_string (bytes : list Z) : list Z := htonu32 (lenZ bytes) ++ bytes.

(** V_C, V_S, I_C, I_S and K_S. *)
Definition hash_prefix : CM (list Z) :=
  let! k := gets s_kex in
  let! v_c :=
    match ke_banner (kx_local k) with
    | Some p =>
        let! d := block p in
        let! n := access (strlen d 0) in
        access (bytes_at d 0 (u64 (n - 2)))
    | None => ret LIBSSH2_SSH_DEFAULT_BANNER
    end in
  let! v_s :=
    (let! p := access (ke_banner (kx_remote k)) in
     let! d := block p in
     let! n := access (strlen d 0) in
     access (bytes_at d 0 n)) in
  let! i_c := opt_bytes (ke_kexinit (kx_local k)) (ke_kexinit_len (kx_local k)) in
  let! i_s := opt_bytes (ke_kexinit (kx_remote k)) (ke_kexinit_len (kx_remote k)) in
  let! k_s := opt_bytes (server_hostkey (kx_server k)) (server_hostkey_len (kx_server k)) in
  ret (hash_string v_c ++ hash_string v_s ++ hash_string i_c ++ hash_string i_s ++ hash_string k_s).

(** The hash is computed and the server's signature of it verified. *)
Definition verify_hash (sha_algo : Z) (input sig : list Z) (next : libssh2_nonblocking_states) : CM flow :=
  set_xs (fun x => x <| xs_h_sig_comp := digest sha_algo input |>) ;;
  let! m := gets (fun s => kx_hostkey (s_kex s)) in
  let! m := access m in
  let! a := gets (fun s => server_hostkey_abstract (kx_server (s_kex s))) in
  let! a := access a in
  if hkm_sig_verify m then
    if sig_verify m a sig (digest sha_algo input) then
      set_xs (fun x => x <| xs_c := SSH_MSG_NEWKEYS |> <| xs_state := next |>) ;; ret Next
    else fail LIBSSH2_ERROR_HOSTKEY_SIGN "Unable to verify hostkey signature"
  else fault.

(** ** Diffie-Hellman *)

(** The first stage: the key pair and the message. A failure of
    [libssh2_dh_key_pair] goes to the clean-up with [ret] still 0. *)
Definition dh_setup (g p : list Z) (group_order packet_type_init : Z) : CM flow :=
  set_xs (fun x => x <| xs_e_packet := None |> <| xs_s_packet := None |> <| xs_k_value := None |>
                     <| xs_x := [] |> <| xs_e := [] |> <| xs_f := [] |> <| xs_k := [] |>
                     <| xs_req_start := 0 |>) ;;
  if LIBSSH2_DH_MAX_MODULUS_BITS <? bn_bits p then
    fail LIBSSH2_ERROR_INVAL "dh modulus value is too large"
  else
    let! pair := gets (fun s => dh_key_pair s g p group_order) in
    match pair with
    | None => ret (Exit 0)
    | Some (sec, e) =>
        let e_packet_len := 5 + bn_mpint_len e in
        let! ep := alloc_block (replicate (Z.to_nat e_packet_len) 0) in
        set_xs (fun x => x <| xs_x := sec |> <| xs_e := e |> <| xs_e_packet_len := e_packet_len |>
                           <| xs_e_packet := ep |>) ;;
        match ep with
        | None => fail LIBSSH2_ERROR_ALLOC "Out of memory error"
        | Some ep =>
            write_block ep 0 [packet_type_init] ;;
            write_bn ep 1 e ;;
            set_xs (fun x => x <| xs_state := libssh2_NB_state_created |>) ;;
            ret Next
        end
    end.

Definition dh_send : CM flow :=
  let! x := gets get_xs in
  let! bytes := opt_bytes (xs_e_packet x) (xs_e_packet_len x) in
  let! rc := transport_send bytes [] in
  if rc =? LIBSSH2_ERROR_EAGAIN then ret (Return rc)
  else if negb (rc =? 0) then fail rc "Unable to send KEX init message"
  else set_xs (fun x => x <| xs_state := libssh2_NB_state_sent |>) ;; ret Next.

(** A wrong guess of the server is ignored. *)
Definition dh_burn (fuel : nat) : CM flow :=
  let! k := gets s_kex in
  let finish := set_xs (fun x => x <| xs_state := libssh2_NB_state_sent1 |>) ;; ret Next in
  if negb (burn_optimistic_kexinit k =? 0) then
    let! r := packet_burn transport_read fuel (xs_burn_state (kl_exchange (kx_low k))) in
    set_xs (fun x => x <| xs_burn_state := r.2 |>) ;;
    let burn_type := r.1 in
    if burn_type =? LIBSSH2_ERROR_EAGAIN then ret (Return burn_type)
    else if burn_type <=? 0 then ret (Exit burn_type)
    else set_kex (fun k => k <| burn_optimistic_kexinit := 0 |>) ;; finish
  else finish.

(** [_libssh2_copy_string] into [session->server_hostkey]; 0 or -1. When there
    is no string the pointer stays as it is. *)
Definition copy_hostkey (buf : string_buf) : CM (Z * string_buf) :=
  let! r := access (get_string buf None) in
  let '(rc, out, buf) := r in
  match out with
  | Some ((_ :: _) as bytes) =>
      let! p := alloc_block bytes in
      set_server (fun i => i <| server_hostkey := p |>) ;;
      match p with
      | Some _ => set_server (fun i => i <| server_hostkey_len := lenZ bytes |>) ;; ret (0, buf)
      | None => ret (-1, buf)
      end
  | Some [] =>
      set_server (fun i => i <| server_hostkey := None |> <| server_hostkey_len := 0 |>) ;; ret (0, buf)
  | None => ret (-1, buf)
  end.

(** What diffie-hellman-group-exchange hashes in addition. *)
Definition gex_fields (packet_type_init : Z) : list Z :=
  if packet_type_init =? SSH_MSG_KEX_DH_GEX_INIT then
    if LIBSSH2_DH_GEX_NEW cfg
    then htonu32 LIBSSH2_DH_GEX_MINGROUP ++ htonu32 LIBSSH2_DH_GEX_OPTGROUP ++
         htonu32 LIBSSH2_DH_GEX_MAXGROUP
    else htonu32 LIBSSH2_DH_GEX_OPTGROUP
  else [].

(** The reply from its [f] on, with the host key read. *)
Definition dh_verify (sha_algo packet_type_init : Z) (p midhash : list Z) (buf : string_buf) : CM flow :=
  let! r := access (get_string buf None) in
  let '(_, f_value, buf) := r in
  match f_value with
  | None => fail LIBSSH2_ERROR_HOSTKEY_INIT "Unable to get f value"
  | Some f_value =>
      set_xs (fun x => x <| xs_f := bn_from_bin f_value |>) ;;
      let! r := access (get_string buf None) in
      match r.1.2 with
      | None => fail LIBSSH2_ERROR_HOSTKEY_INIT "Unable to get h sig"
      | Some h_sig =>
          let! x := gets get_xs in
          stages
            [store_k (dh_secret (xs_x x) (bn_from_bin f_value) p);
             (let! prefix := hash_prefix in
              let! x := gets get_xs in
              let! e := opt_bytes (xs_e_packet x) (xs_e_packet_len x) in
              let! k := opt_bytes (xs_k_value x) (xs_k_value_len x) in
              verify_hash sha_algo
                (prefix ++ gex_fields packet_type_init ++ midhash ++ drop 1 e ++
                 hash_string f_value ++ k) h_sig libssh2_NB_state_sent2)]
      end
  end.

Definition dh_reply (fuel : nat) (sha_algo packet_type_init packet_type_reply : Z)
    (p midhash : list Z) : CM flow :=
  let! x := gets get_xs in
  let! r := packet_require transport_read fuel packet_type_reply 0 None (xs_req_start x) in
  let '(rc, pkt, start) := r in
  set_xs (fun x => x <| xs_req_start := start |>) ;;
  if rc =? LIBSSH2_ERROR_EAGAIN then ret (Return rc)
  else if negb (rc =? 0) then fail LIBSSH2_ERROR_TIMEOUT "Timed out waiting for KEX reply"
  else
    let! pk := access pkt in
    set_xs (fun x => x <| xs_s_packet := Some pk.1 |> <| xs_s_packet_len := pk.2 |>) ;;
    if pk.2 <? 5 then fail LIBSSH2_ERROR_PROTO "Unexpected packet length"
    else
      let! d := block pk.1 in
      let! i := gets (fun s => kx_server (s_kex s)) in
      free_opt (server_hostkey i) ;;
      let! c := copy_hostkey (mk_string_buf d 1 pk.2) in
      if negb (c.1 =? 0) then fail LIBSSH2_ERROR_ALLOC "Could not copy host key"
      else stages [import_hostkey; dh_verify sha_algo packet_type_init p midhash c.2].

Definition dh_clean (r : Z) : CM Z :=
  let! x := gets get_xs in
  free_opt (xs_e_packet x) ;;
  free_opt (xs_s_packet x) ;;
  free_opt (xs_k_value x) ;;
  set_xs (fun x => x <| xs_x := [] |> <| xs_e := [] |> <| xs_f := [] |> <| xs_k := [] |>
                     <| xs_e_packet := None |> <| xs_s_packet := None |> <| xs_k_value := None |>
                     <| xs_state := libssh2_NB_state_idle |>) ;;
  ret r.

Definition diffie_hellman_sha_algo (fuel : nat) (g p : list Z)
    (group_order sha_algo packet_type_init packet_type_reply : Z) (midhash : list Z) : CM Z :=
  match digest_len sha_algo with
  | None =>
      let! rc := error LIBSSH2_ERROR_PROTO "sha algo value is unimplemented" in dh_clean rc
  | Some dlen =>
      let! f := stages
        [stage libssh2_NB_state_idle (dh_setup g p group_order packet_type_init);
         stage libssh2_NB_state_created dh_send;
         stage libssh2_NB_state_sent (dh_burn fuel);
         stage libssh2_NB_state_sent1 (dh_reply fuel sha_algo packet_type_init packet_type_reply p midhash);
         stage libssh2_NB_state_sent2 (send_newkeys libssh2_NB_state_sent3);
         stage libssh2_NB_state_sent3 (receive_newkeys fuel sha_algo dlen)] in
      match f with Return rc => ret rc | Exit r => dh_clean r | Next => dh_clean 0 end
  end.

(** A method with a fixed group: [diffie_hellman_sha_algo] for the group, and its
    numbers kept in the state until it is done. *)
Definition fixed_group_exchange (fuel : nat) (p_value : list Z) (sha_algo : Z) : CM Z :=
  let! l := gets (fun s => kx_low (s_kex s)) in
  (if nb_is (kl_state l) libssh2_NB_state_idle then
     set_low (fun l => l <| kl_p := bn_from_bin p_value |> <| kl_g := bn_from_bin [2] |>
                         <| kl_state := libssh2_NB_state_created |>)
   else ret tt) ;;
  let! l := gets (fun s => kx_low (s_kex s)) in
  let! r := diffie_hellman_sha_algo fuel (kl_g l) (kl_p l) (lenZ p_value) sha_algo
              SSH_MSG_KEXDH_INIT SSH_MSG_KEXDH_REPLY [] in
  if r =? LIBSSH2_ERROR_EAGAIN then ret r
  else
    set_low (fun l => l <| kl_p := [] |> <| kl_g := [] |> <| kl_state := libssh2_NB_state_idle |>) ;;
    ret r.

Definition group1_sha1_key_exchange (fuel : nat) : CM Z := fixed_group_exchange fuel p_value_group1 1.
Definition group14_sha1_key_exchange (fuel : nat) : CM Z := fixed_group_exchange fuel p_value_group14 1.
Definition group14_sha256_key_exchange (fuel : nat) : CM Z := fixed_group_exchange fuel p_value_group14 256.
Definition group16_sha512_key_exchange (fuel : nat) : CM Z := fixed_group_exchange fuel p_value_group16 512.
Definition group18_sha512_key_exchange (fuel : nat) : CM Z := fixed_group_exchange fuel p_value_group18 512.

(** A stage of a method: the body runs in the state [st] of the method. *)
Definition low_stage (st : libssh2_nonblocking_states) (body : CM flow) : CM flow :=
  let! l := gets (fun s => kx_low (s_kex s)) in if nb_is (kl_state l) st then body else ret Next.

Definition low_state (st : libssh2_nonblocking_states) : CM unit := set_low (fun l => l <| kl_state := st |>).

(** The stages that send the method's request and wait for the reply. *)
Definition low_send (error_text : string) (next : libssh2_nonblocking_states) : CM flow :=
  let! l := gets (fun s => kx_low (s_kex s)) in
  let! rc := transport_send (kl_request l) [] in
  if rc =? LIBSSH2_ERROR_EAGAIN then ret (Return rc)
  else if negb (rc =? 0) then fail rc error_text
  else low_state next ;; ret Next.

Definition low_require (fuel : nat) (packet_type : Z) (error_text : string)
    (next : libssh2_nonblocking_states) : CM flow :=
  let! l := gets (fun s => kx_low (s_kex s)) in
  let! r := packet_require transport_read fuel packet_type 0 None (kl_req_start l) in
  let '(rc, pkt, start) := r in
  set_low (fun l => l <| kl_req_start := start |>) ;;
  if rc =? LIBSSH2_ERROR_EAGAIN then ret (Return rc)
  else if negb (rc =? 0) then fail rc error_text
  else
    let! pk := access pkt in
    set_low (fun l => l <| kl_data := Some pk.1 |> <| kl_data_len := pk.2 |>) ;;
    low_state next ;; ret Next.

(** The request of diffie-hellman-group-exchange. *)
Definition gex_request : list Z :=
  if LIBSSH2_DH_GEX_NEW cfg then
    SSH_MSG_KEX_DH_GEX_REQUEST :: htonu32 LIBSSH2_DH_GEX_MINGROUP ++
      htonu32 LIBSSH2_DH_GEX_OPTGROUP ++ htonu32 LIBSSH2_DH_GEX_MAXGROUP
  else SSH_MSG_KEX_DH_GEX_REQUEST_OLD :: htonu32 LIBSSH2_DH_GEX_OPTGROUP.

(** The group the server has sent, and the exchange with it. *)
Definition gex_exchange (fuel : nat) (sha_algo : Z) : CM flow :=
  let! l := gets (fun s => kx_low (s_kex s)) in
  if kl_data_len l <? 9 then fail LIBSSH2_ERROR_PROTO "Unexpected key length"
  else
    let! p := access (kl_data l) in
    let! d := block p in
    let! r := access (get_bignum_bytes (mk_string_buf d 1 (kl_data_len l)) None) in
    let '(_, pb, buf) := r in
    match pb with
    | None => fail LIBSSH2_ERROR_PROTO "Unexpected value"
    | Some pb =>
        let! r := access (get_bignum_bytes buf None) in
        match r.1.2 with
        | None => fail LIBSSH2_ERROR_PROTO "Unexpected value"
        | Some gb =>
            set_low (fun l => l <| kl_p := bn_from_bin pb |> <| kl_g := bn_from_bin gb |>) ;;
            let! midhash := access (bytes_at d 1 (kl_data_len l - 1)) in
            let! rc := diffie_hellman_sha_algo fuel (bn_from_bin gb) (bn_from_bin pb) (lenZ pb) sha_algo
                         SSH_MSG_KEX_DH_GEX_INIT SSH_MSG_KEX_DH_GEX_REPLY midhash in
            if rc =? LIBSSH2_ERROR_EAGAIN then ret (Return rc)
            else free_block p ;; ret (Exit rc)
        end
    end.

Definition gex_text (sha_algo : Z) (text : string) : string :=
  if sha_algo =? 256 then String.append text " SHA256" else text.

(** The methods group-exchange-sha1 and group-exchange-sha256. *)
Definition group_exchange (fuel : nat) (sha_algo : Z) : CM Z :=
  let! f := stages
    [low_stage libssh2_NB_state_idle
       (set_low (fun l => l <| kl_p := [] |> <| kl_g := [] |> <| kl_request := gex_request |>
                            <| kl_state := libssh2_NB_state_created |>) ;; ret Next);
     low_stage libssh2_NB_state_created
       (low_send (gex_text sha_algo "Unable to send Group Exchange Request") libssh2_NB_state_sent);
     low_stage libssh2_NB_state_sent
       (low_require fuel SSH_MSG_KEX_DH_GEX_GROUP
          (gex_text sha_algo "Timeout waiting for GEX_GROUP reply") libssh2_NB_state_sent1);
     low_stage libssh2_NB_state_sent1 (gex_exchange fuel sha_algo)] in
  let clean r := set_low (fun l => l <| kl_state := libssh2_NB_state_idle |> <| kl_g := [] |>
                                     <| kl_p := [] |>) ;; ret r in
  match f with Return rc => ret rc | Exit r => clean r | Next => clean 0 end.

(** ** Elliptic curves *)

(** The exchange hash input of [LIBSSH2_KEX_METHOD_EC_SHA_HASH_CREATE_VERIFY] and
    its verification. *)
Definition ec_verify (sha_algo : Z) (public_key server_public_key sig : list Z) : CM flow :=
  let! prefix := hash_prefix in
  let! x := gets get_xs in
  let! k := opt_bytes (xs_k_value x) (xs_k_value_len x) in
  verify_hash sha_algo
    (prefix ++ hash_string public_key ++ hash_string server_public_key ++ k) sig
    libssh2_NB_state_sent.

Definition ec_clean (r : Z) : CM Z :=
  let! x := gets get_xs in
  free_opt (xs_k_value x) ;;
  set_xs (fun x => x <| xs_k := [] |> <| xs_k_value := None |> <| xs_state := libssh2_NB_state_idle |>) ;;
  ret r.

(** The stages of both curve exchanges, after the reply has arrived. *)
Definition ec_stages (fuel : nat) (sha_algo dlen : Z) (reply : CM flow) : CM Z :=
  let! f := stages
    [stage libssh2_NB_state_idle
       (set_xs (fun x => x <| xs_k := [] |> <| xs_state := libssh2_NB_state_created |>) ;; ret Next);
     stage libssh2_NB_state_created reply;
     stage libssh2_NB_state_sent (send_newkeys libssh2_NB_state_sent2);
     stage libssh2_NB_state_sent2 (receive_newkeys fuel sha_algo dlen)] in
  match f with Return rc => ret rc | Exit r => ec_clean r | Next => ec_clean 0 end.

(** The server's public key, its signature and the shared secret. *)
Definition ec_reply (sha_algo : Z) (public_key : list Z) (gen_k : list Z -> option (list Z))
    (check_key : list Z -> CM flow) (sig_text : string) (buf : string_buf) : CM flow :=
  let! r := access (get_string buf None) in
  let '(_, server_public_key, buf) := r in
  match server_public_key with
  | None => fail LIBSSH2_ERROR_PROTO "Unexpected key length"
  | Some server_public_key =>
      stages
        [check_key server_public_key;
         (let! r := access (get_string buf None) in
          match r.1.2 with
          | None => fail LIBSSH2_ERROR_HOSTKEY_INIT sig_text
          | Some h_sig =>
              match gen_k server_public_key with
              | None => fail LIBSSH2_ERROR_KEX_FAILURE "Unable to create ECDH shared secret"
              | Some k => stages [store_k k; ec_verify sha_algo public_key server_public_key h_sig]
              end
          end)]
  end.

(** [ecdh_sha2_nistp]; the old host key is not released. *)
Definition ecdh_sha2_nistp (fuel : nat) (sha_algo dlen : Z) (data : ptr) (data_len : Z)
    (public_key private_key : list Z) : CM Z :=
  if data_len <? 5 then error LIBSSH2_ERROR_HOSTKEY_INIT "Host key data is too short"
  else
    let! d := block data in
    ec_stages fuel sha_algo dlen
      (let! c := copy_hostkey (mk_string_buf d 1 data_len) in
       if negb (c.1 =? 0) then
         fail LIBSSH2_ERROR_ALLOC "Unable to allocate memory for a copy of the host key"
       else
         stages [import_hostkey;
                 ec_reply sha_algo public_key (ecdh_gen_k private_key) (fun _ => ret Next)
                   "Unexpected ecdh server sig length" c.2]).

(** [curve25519_sha256]; the host key is copied by hand. *)
Definition curve25519_sha256 (fuel : nat) (data : ptr) (data_len : Z)
    (public_key private_key : list Z) : CM Z :=
  if data_len <? 5 then error LIBSSH2_ERROR_HOSTKEY_INIT "Data is too short"
  else
    let! d := block data in
    ec_stages fuel 256 SHA256_DIGEST_LENGTH
      (let! r := access (get_string (mk_string_buf d 1 data_len) None) in
       let '(_, hostkey, buf) := r in
       match hostkey with
       | None => fail LIBSSH2_ERROR_PROTO "Unexpected key length"
       | Some hostkey =>
           set_server (fun i => i <| server_hostkey_len := lenZ hostkey |>) ;;
           let! p := alloc_block hostkey in
           set_server (fun i => i <| server_hostkey := p |>) ;;
           match p with
           | None => fail LIBSSH2_ERROR_ALLOC "Unable to allocate memory for a copy of the host key"
           | Some _ =>
               stages [import_hostkey;
                       ec_reply 256 public_key (curve25519_gen_k private_key)
                         (fun q => if lenZ q =? LIBSSH2_ED25519_KEY_LEN then ret Next
                                   else fail LIBSSH2_ERROR_HOSTKEY_INIT
                                          "Unexpected curve25519 server public key length")
                         "Unexpected curve25519 server sig length" buf]
           end
       end).

(** [kex_session_ecdh_curve_type]: the digest that goes with the curve. *)
Definition kex_session_ecdh_curve_type (name : list Z) : option Z :=
  if bool_decide (name = str "ecdh-sha2-nistp256") then Some 256
  else if bool_decide (name = str "ecdh-sha2-nistp384") then Some 384
  else if bool_decide (name = str "ecdh-sha2-nistp521") then Some 512
  else None.

Definition ecdh_setup : CM flow :=
  let! m := gets (fun s => kx_kex (s_kex s)) in
  let! m := access m in
  match kex_session_ecdh_curve_type (kexm_name m) with
  | None => fail (-1) "Unknown KEX nistp curve type"
  | Some type =>
      let! pair := gets (fun s => ecdsa_create_key s type) in
      match pair with
      | None => fail (-1) "Unable to create private key"
      | Some (private_key, public_key) =>
          let! oct := alloc_block public_key in
          match oct with
          | None => fail (-1) "Unable to create private key"
          | Some oct =>
              set_low (fun l => l <| kl_private_key := Some private_key |>
                <| kl_public_key_oct := Some oct |> <| kl_public_key_oct_len := lenZ public_key |>
                <| kl_request := store_str [SSH2_MSG_KEX_ECDH_INIT] public_key |>
                <| kl_state := libssh2_NB_state_sent |>) ;;
              ret Next
          end
      end
  end.

Definition ecdh_key_exchange (fuel : nat) : CM Z :=
  let! f := stages
    [low_stage libssh2_NB_state_idle
       (set_low (fun l => l <| kl_public_key_oct := None |> <| kl_state := libssh2_NB_state_created |>) ;;
        ret Next);
     low_stage libssh2_NB_state_created ecdh_setup;
     low_stage libssh2_NB_state_sent (low_send "Unable to send ECDH_INIT" libssh2_NB_state_sent1);
     low_stage libssh2_NB_state_sent1
       (low_require fuel SSH2_MSG_KEX_ECDH_REPLY "Timeout waiting for ECDH_REPLY reply"
          libssh2_NB_state_sent2);
     low_stage libssh2_NB_state_sent2
       (let! m := gets (fun s => kx_kex (s_kex s)) in
        let! m := access m in
        let! sha_algo := access (kex_session_ecdh_curve_type (kexm_name m)) in
        let! dlen := access (digest_len sha_algo) in
        let! l := gets (fun s => kx_low (s_kex s)) in
        let! data := access (kl_data l) in
        let! public_key := opt_bytes (kl_public_key_oct l) (kl_public_key_oct_len l) in
        let! private_key := access (kl_private_key l) in
        let! rc := ecdh_sha2_nistp fuel sha_algo dlen data (kl_data_len l) public_key private_key in
        if rc =? LIBSSH2_ERROR_EAGAIN then ret (Return rc)
        else free_block data ;; ret (Exit rc))] in
  let clean r :=
    (let! l := gets (fun s => kx_low (s_kex s)) in
     free_opt (kl_public_key_oct l) ;;
     set_low (fun l => l <| kl_public_key_oct := None |> <| kl_private_key := None |>
                         <| kl_state := libssh2_NB_state_idle |>) ;;
     ret r) in
  match f with Return rc => ret rc | Exit r => clean r | Next => clean 0 end.

Definition curve25519_setup : CM flow :=
  let! m := gets (fun s => kx_kex (s_kex s)) in
  let! m := access m in
  if bool_decide (kexm_name m ∈ [str "curve25519-sha256@libssh.org"; str "curve25519-sha256"]) then
    let! pair := gets curve25519_new in
    match pair with
    | None => fail (-1) "Unable to create private key"
    | Some (public_key, private_key) =>
        let! pub := alloc_block public_key in
        let! priv := alloc_block private_key in
        match pub, priv with
        | Some pub, Some priv =>
            let! bytes := access (bytes_at public_key 0 LIBSSH2_ED25519_KEY_LEN) in
            set_low (fun l => l <| kl_curve25519_public_key := Some pub |>
              <| kl_curve25519_private_key := Some priv |>
              <| kl_request := store_str [SSH2_MSG_KEX_ECDH_INIT] bytes |>
              <| kl_state := libssh2_NB_state_sent |>) ;;
            ret Next
        | _, _ => free_opt pub ;; free_opt priv ;; fail (-1) "Unable to create private key"
        end
    end
  else fail (-1) "Unknown KEX curve25519 curve type".

Definition curve25519_key_exchange (fuel : nat) : CM Z :=
  let! f := stages
    [low_stage libssh2_NB_state_idle
       (set_low (fun l => l <| kl_public_key_oct := None |> <| kl_state := libssh2_NB_state_created |>) ;;
        ret Next);
     low_stage libssh2_NB_state_created curve25519_setup;
     low_stage libssh2_NB_state_sent (low_send "Unable to send ECDH_INIT" libssh2_NB_state_sent1);
     low_stage libssh2_NB_state_sent1
       (low_require fuel SSH2_MSG_KEX_ECDH_REPLY "Timeout waiting for ECDH_REPLY reply"
          libssh2_NB_state_sent2);
     low_stage libssh2_NB_state_sent2
       (let! l := gets (fun s => kx_low (s_kex s)) in
        let! data := access (kl_data l) in
        let! public_key := opt_bytes (kl_curve25519_public_key l) LIBSSH2_ED25519_KEY_LEN in
        let! private_key := opt_bytes (kl_curve25519_private_key l) LIBSSH2_ED25519_KEY_LEN in
        let! rc := curve25519_sha256 fuel data (kl_data_len l) public_key private_key in
        if rc =? LIBSSH2_ERROR_EAGAIN then ret (Return rc)
        else free_block data ;; ret (Exit rc))] in
  let clean r :=
    (let! l := gets (fun s => kx_low (s_kex s)) in
     free_opt (kl_curve25519_public_key l) ;;
     free_opt (kl_curve25519_private_key l) ;;
     set_low (fun l => l <| kl_curve25519_public_key := None |> <| kl_curve25519_private_key := None |>
                         <| kl_state := libssh2_NB_state_idle |>) ;;
     ret r) in
  match f with Return rc => ret rc | Exit r => clean r | Next => clean 0 end.

(** What [kex->exchange_keys] points to. *)
Definition exchange_keys (fuel : nat) (f : kex_function) : CM Z :=
  match f with
  | kex_method_diffie_hellman_group1_sha1_key_exchange => group1_sha1_key_exchange fuel
  | kex_method_diffie_hellman_group14_sha1_key_exchange => group14_sha1_key_exchange fuel
  | kex_method_diffie_hellman_group14_sha256_key_exchange => group14_sha256_key_exchange fuel
  | kex_method_diffie_hellman_group16_sha512_key_exchange => group16_sha512_key_exchange fuel
  | kex_method_diffie_hellman_group18_sha512_key_exchange => group18_sha512_key_exchange fuel
  | kex_method_diffie_hellman_group_exchange_sha1_key_exchange => group_exchange fuel 1
  | kex_method_diffie_hellman_group_exchange_sha256_key_exchange => group_exchange fuel 256
  | kex_method_ecdh_key_exchange => ecdh_key_exchange fuel
  | kex_method_curve25519_key_exchange => curve25519_key_exchange fuel
  end.
End Exchange.
