(* ===== verification/KexDhSpec.v ===== *)
(** * Theorems about the key exchange methods

    Key derivation against RFC 4253, section 7.2; the format of the client's
    message; no keys without a verified signature; and what happens when a key
    pair cannot be made or a reply is malformed. *)

From stdpp Require Import base numbers list gmap strings.
From S2P Require Import Prelude Codes CString KexMethods Wire Session ChannelWindow Packet Conn Comp PacketSafety PacketSpec PacketWait Kex KexSpec KexAgree KexInit KexPref DhGroups KexDh.

(** ** Key derivation *)

Section Kdf.
Context (digest : Z -> list Z -> list Z) (sha_algo : Z).

(** RFC 4253, section 7.2: K1 = HASH(K || H || X || session_id) and
    Kn = HASH(K || H || K1 || ... || K(n-1)); the first [n] of them. *)
Fixpoint rfc_key_stream (k h x id : list Z) (n : nat) : list Z :=
  match n with
  | O => []
  | S n =>
      let done := rfc_key_stream k h x id n in
      done ++ digest sha_algo (k ++ h ++ match n with O => x ++ id | _ => done end)
  end.
End Kdf.

(** The digest of each algorithm has its length. *)
Class Digest (digest : Z -> list Z -> list Z) : Prop :=
  digest_length : forall a m dlen, digest_len a = Some dlen -> lenZ (digest a m) = dlen.

Lemma digest_len_pos a dlen : digest_len a = Some dlen -> 20 <= dlen <= 64.
Proof.
  unfold digest_len, SHA512_DIGEST_LENGTH, SHA384_DIGEST_LENGTH, SHA256_DIGEST_LENGTH, SHA_DIGEST_LENGTH.
  repeat case_match; intros; simplify_eq; lia.
Qed.

Section KdfSpec.
Context (digest : Z -> list Z -> list Z) `{!Digest digest}.
Context (sha_algo dlen : Z) (Hd : digest_len sha_algo = Some dlen).

Lemma rfc_key_stream_len k h x id n : lenZ (rfc_key_stream digest sha_algo k h x id n) = Z.of_nat n * dlen.
Proof.
  induction n as [|n IH]; [done|]. cbn [rfc_key_stream]. rewrite lenZ_app, IH.
  rewrite (digest_length _ _ _ Hd). lia.
Qed.

(** The secrets an exchange derives keys from. *)
Record has_secrets (s : session) (k h id : list Z) : Prop := {
  sec_k : exists p d, xs_k_value (get_xs s) = Some p /\ s_heap s !! p = Some d /\
            bytes_at d 0 (xs_k_value_len (get_xs s)) = Some k;
  sec_h : bytes_at (xs_h_sig_comp (get_xs s)) 0 dlen = Some h;
  sec_id : exists p d, session_id (kx_server (s_kex s)) = Some p /\ s_heap s !! p = Some d /\
            bytes_at d 0 (session_id_len (kx_server (s_kex s))) = Some id
}.

Lemma wp_opt_bytes p d len bytes (Q : list Z -> session -> Prop) s :
  s_heap s !! p = Some d -> bytes_at d 0 len = Some bytes -> Q bytes s -> wp (opt_bytes (Some p) len) Q s.
Proof. intros Hp Hb HQ. apply wp_bind. eapply wp_block; [done|]. by eapply wp_access. Qed.

Context (s0 : session) (value : ptr) (Hfresh : s_heap s0 !! value = None).
Context (k h id x : list Z) (Hsec : has_secrets s0 k h id).

(** Writing the block keeps the secrets. *)
Lemma filled_secrets N pre s : filled s0 value N pre s -> has_secrets s k h id.
Proof.
  intros (d & -> & _). destruct Hsec as [(p & dk & E1 & E2 & E3) E4 (q & di & F1 & F2 & F3)].
  split; [|done|].
  - exists p, dk. split_and!; [done| |done]. simpl. rewrite lookup_insert_ne by congruence. done.
  - exists q, di. split_and!; [done| |done]. simpl. rewrite lookup_insert_ne by congruence. done.
Qed.

Lemma value_hash_loop_ok reqlen fuel : forall n s (Q : unit -> session -> Prop),
  filled s0 value (reqlen + dlen) (rfc_key_stream digest sha_algo k h x id n) s ->
  (0 < fuel)%nat -> reqlen - Z.of_nat n * dlen < Z.of_nat fuel ->
  (forall m s', filled s0 value (reqlen + dlen) (rfc_key_stream digest sha_algo k h x id m) s' ->
     reqlen <= Z.of_nat m * dlen -> Q tt s') ->
  wp (value_hash_loop digest fuel sha_algo dlen value reqlen (Z.of_nat n * dlen) x) Q s.
Proof.
  pose proof (digest_len_pos _ _ Hd) as Hpos.
  induction fuel as [|fuel IH]; intros n s Q Hf H0 Hfu HQ; [lia|]. cbn [value_hash_loop].
  destruct (Z.ltb_spec (Z.of_nat n * dlen) reqlen) as [Hlt|Hge]; [|by apply wp_ret, (HQ n s Hf)].
  destruct (filled_secrets _ _ _ Hf) as [(p & dk & E1 & E2 & E3) E4 (q & di & F1 & F2 & F3)].
  apply wp_bind, wp_gets. rewrite E1. apply wp_bind. eapply wp_opt_bytes; [done|done|].
  apply wp_bind. eapply wp_access; [done|]. apply wp_bind.
  set (done_ := rfc_key_stream digest sha_algo k h x id n) in *.
  assert (Hl : lenZ done_ = Z.of_nat n * dlen) by apply rfc_key_stream_len.
  apply (wp_mono _ (fun last s' => last = match n with O => x ++ id | _ => done_ end /\ s' = s)).
  - destruct n as [|n'].
    + simpl. apply wp_bind, wp_gets. rewrite F1. apply wp_bind. eapply wp_opt_bytes; [done|done|]. by apply wp_ret.
    + rewrite (proj2 (Z.ltb_lt 0 _)) by lia. destruct Hf as (d & -> & Hn & Ht).
      apply wp_bind. eapply wp_block; [apply lookup_insert_eq|]. eapply wp_access; [|done].
      rewrite bytes_at_in by lia. f_equal. unfold slice. rewrite drop_0, <- Hl.
      replace (Z.to_nat (lenZ done_)) with (length done_) by (unfold lenZ; lia). done.
  - intros last s' [-> ->]. apply wp_bind.
    eapply wp_fill; [done|done|rewrite (digest_length _ _ _ Hd); lia|]. intros s1 H1.
    replace (Z.of_nat n * dlen + dlen) with (Z.of_nat (S n) * dlen) by lia.
    apply (IH (S n)); [exact H1|lia|lia|exact HQ].
Qed.
End KdfSpec.

(** C35: the keys of RFC 4253, section 7.2. With the shared secret [k], the
    exchange hash [h] and the session's identifier in place, key derivation
    allocates enough for what its loop writes, and the first [reqlen] bytes of the
    block are those of K1 || K2 || ..., for every length and every digest. *)
Theorem value_hash_rfc4253 digest `{!Digest digest} sha_algo dlen reqlen x s k h id
    (Hd : digest_len sha_algo = Some dlen) (Hreq : 0 <= reqlen) (Hh : heap_ok s)
    (Hsec : has_secrets dlen s k h id) :
  exists r s', sha_algo_value_hash digest sha_algo dlen reqlen x s = Ret r s' /\
    match r with
    | None => s_heap s' = s_heap s
    | Some p => exists d n, s_heap s !! p = None /\ s_heap s' = <[p := d]> (s_heap s) /\
        reqlen <= lenZ d /\ reqlen <= lenZ (rfc_key_stream digest sha_algo k h x id n) /\
        take (Z.to_nat reqlen) d = take (Z.to_nat reqlen) (rfc_key_stream digest sha_algo k h x id n)
    end.
Proof.
  pose proof (digest_len_pos _ _ Hd) as Hpos. apply wp_Ret. unfold sha_algo_value_hash.
  apply wp_bind, wp_alloc_block; intros al; [by apply wp_ret|].
  set (p := s_next_ptr s). assert (Hp : s_heap s !! p = None) by (apply (heap_ok_fresh s Hh); lia).
  set (s0 := s <| s_alloc := al |> <| s_next_ptr := Pos.succ p |>).
  apply wp_bind. apply (value_hash_loop_ok digest sha_algo dlen Hd s0 p Hp k h id x) with (n := O).
  - by destruct Hsec.
  - exists (replicate (Z.to_nat (reqlen + dlen)) 0). split_and!; [done|unfold lenZ; rewrite length_replicate; lia|done].
  - lia.
  - lia.
  - intros m s' (d & -> & Hn & Ht) Hm. apply wp_ret. exists d, m.
    pose proof (rfc_key_stream_len digest sha_algo dlen Hd k h x id m) as Hl.
    split_and!; [done|done|lia|lia|]. rewrite <- Ht at 1. rewrite take_take. f_equal. unfold lenZ in *. lia.
Qed.

(** A digest for the examples: the sum of the bytes, repeated. *)
Definition sum_digest (a : Z) (m : list Z) : list Z :=
  replicate (Z.to_nat (default 0 (digest_len a))) (u8 (fold_left Z.add m 0)).

#[global] Instance sum_digest_ok : Digest sum_digest.
Proof.
  intros a m dlen H. unfold sum_digest. rewrite H. unfold lenZ. rewrite length_replicate. simpl.
  apply digest_len_pos in H. lia.
Qed.

(** A session in the middle of an exchange. *)
Definition secrets_session : session :=
  session_0
    <| s_heap := {[ 1%positive := [0; 0; 0; 1; 5]; 2%positive := replicate 20 9 ]} |>
    <| s_next_ptr := 3%positive |>
    <| s_kex ::= fun k =>
         k <| kx_low ::= fun l => l <| kl_exchange ::= fun x =>
                x <| xs_k_value := Some 1%positive |> <| xs_k_value_len := 5 |>
                  <| xs_h_sig_comp := replicate 20 9 |> |> |>
           <| kx_server ::= fun i => i <| session_id := Some 2%positive |> <| session_id_len := 20 |> |> |>.

Lemma value_hash_rfc4253_witness :
  exists r s', sha_algo_value_hash sum_digest 1 20 32 (str "C") secrets_session = Ret r s' /\
    match r with
    | None => s_heap s' = s_heap secrets_session
    | Some p => exists d n, s_heap secrets_session !! p = None /\ s_heap s' = <[p := d]> (s_heap secrets_session) /\
        32 <= lenZ d /\
        32 <= lenZ (rfc_key_stream sum_digest 1 [0; 0; 0; 1; 5] (replicate 20 9) (str "C") (replicate 20 9) n) /\
        take 32 d = take 32 (rfc_key_stream sum_digest 1 [0; 0; 0; 1; 5] (replicate 20 9) (str "C") (replicate 20 9) n)
    end.
Proof.
  apply (value_hash_rfc4253 sum_digest 1 20 32 (str "C") secrets_session [0; 0; 0; 1; 5]
           (replicate 20 9) (replicate 20 9)).
  - done.
  - lia.
  - split.
    + apply map_Forall_insert_2; [|apply map_Forall_singleton]; apply (bool_decide_unpack _); by vm_compute.
    + intros p Hp. simpl in *. apply lookup_insert_None. split; [apply lookup_singleton_None|]; lia.
  - split; [exists 1%positive, [0; 0; 0; 1; 5]; by split_and!|done
           |exists 2%positive, (replicate 20 9); by split_and!].
Defined.
