(* ===== verification/KexSigned.v ===== *)
(** * No keys without a signature

    The invariant of the key exchange methods of kex.c: from the negotiation on,
    and over every return with [LIBSSH2_ERROR_EAGAIN], new keys come into use only
    when the server's signature of the exchange hash has been verified. *)

From stdpp Require Import base numbers list gmap strings.
From S2P Require Import Prelude Codes CString KexMethods Wire Session ChannelWindow Packet Conn Comp PacketWait Kex KexSpec KexAgree KexCases DhGroups KexDh KexDhSpec.

(** The part of the state the argument is about. *)
Definition core (s : session) :=
  (s_state s, xs_state (get_xs s), xs_h_sig_comp (get_xs s), kx_hostkey (s_kex s),
   server_hostkey_abstract (kx_server (s_kex s))).

Definition core2 (s : session) := (s_state s, xs_state (get_xs s)).

Lemma keeps_core2 {A} (m : CM A) : keeps core m -> keeps core2 m.
Proof. intros H s a s' E. specialize (H s a s' E). unfold core, core2 in *. congruence. Qed.

Definition core3 (s : session) :=
  (xs_h_sig_comp (get_xs s), kx_hostkey (s_kex s), server_hostkey_abstract (kx_server (s_kex s))).

Lemma keeps_core3 {A} (m : CM A) : keeps core m -> keeps core3 m.
Proof. intros H s a s' E. specialize (H s a s' E). unfold core, core3 in *. congruence. Qed.

Definition core4 (s : session) := (s_state s, core3 s).

Lemma keeps_core4 {A} (m : CM A) : keeps core m -> keeps core4 m.
Proof. intros H s a s' E. specialize (H s a s' E). unfold core, core4, core3 in *. congruence. Qed.

Lemma keeps_set_endpoint e f : keeps core (set_endpoint e f).
Proof. apply keeps_modify. by destruct e. Qed.
Lemma keeps_set_kex_ep e f : keeps core (set_kex_ep e f).
Proof. apply keeps_modify. by destruct e. Qed.
Lemma keeps_error code msg : keeps core (error code msg).
Proof. by intros s a s' [= <- <-]. Qed.
Lemma keeps_alloc_outcome : keeps core alloc_outcome.
Proof. intros s a s'. unfold alloc_outcome. destruct (s_alloc s); by intros [= <- <-]. Qed.
Lemma keeps_time : keeps core time.
Proof. intros s a s'. unfold time. destruct (s_clock s); by intros [= <- <-]. Qed.

#[local] Hint Resolve keeps_set_endpoint keeps_set_kex_ep keeps_error keeps_alloc_outcome keeps_time : keeps.
#[local] Hint Extern 1 (keeps core2 _) => apply keeps_core2 : keeps.
#[local] Hint Extern 1 (keeps core3 _) => apply keeps_core3 : keeps.
#[local] Hint Extern 1 (keeps core4 _) => apply keeps_core4 : keeps.

Lemma keeps_block p : keeps core (block p).
Proof. unfold block. keeps_all. Qed.
Lemma keeps_free_block p : keeps core (free_block p).
Proof.
  unfold free_block. apply keeps_bind; [apply keeps_gets|]. intros h.
  destruct (h !! p); [|done]. by apply keeps_modify.
Qed.
#[local] Hint Resolve keeps_block keeps_free_block : keeps.
Lemma keeps_write_block p off b : keeps core (write_block p off b).
Proof. unfold write_block. keeps_all. Qed.
Lemma keeps_alloc_block d : keeps core (alloc_block d).
Proof. unfold alloc_block. keeps_all. Qed.
Lemma keeps_free_opt p : keeps core (free_opt p).
Proof. unfold free_opt. keeps_all. Qed.
Lemma keeps_opt_bytes p n : keeps core (opt_bytes p n).
Proof. unfold opt_bytes. keeps_all. Qed.
Lemma keeps_fail code msg : keeps core (fail code msg).
Proof. unfold fail. keeps_all. Qed.
#[local] Hint Resolve keeps_write_block keeps_alloc_block keeps_free_opt keeps_opt_bytes keeps_fail : keeps.

Lemma keeps_packet_ask ty ofs buf : keeps core (packet_ask ty ofs buf).
Proof.
  unfold packet_ask. apply keeps_bind; [apply keeps_gets|]. intros ps.
  generalize (@nil packet) as seen. induction ps as [|p ps IH]; intros seen; cbn [packet_ask_loop]; keeps_all.
  all: try (unfold packet_matches; keeps_all). all: apply IH.
Qed.
#[local] Hint Resolve keeps_packet_ask : keeps.

Lemma keeps_packet_askv tys ofs buf : keeps core (packet_askv tys ofs buf).
Proof. induction tys; cbn [packet_askv]; keeps_all; done. Qed.
#[local] Hint Resolve keeps_packet_askv : keeps.

(** What the exchange relies on: sending and receiving leave the fields of the
    exchange and the session's state flags alone. *)
Class ExchangeTransport (transport_send : list Z -> list Z -> CM Z) (transport_read : CM Z) : Prop := {
  send_keeps : forall d d2, keeps core (transport_send d d2);
  read_keeps : keeps core transport_read
}.

Section Signed.
Context (cfg : build).
Context (transport_send : list Z -> list Z -> CM Z) (transport_read : CM Z).
Context `{!ExchangeTransport transport_send transport_read}.
Context (digest : Z -> list Z -> list Z) (fingerprint : Z -> list Z -> option (list Z)).
Context (bn_bits : list Z -> Z) (bn_to_bin bn_from_bin : list Z -> list Z).
Context (dh_key_pair : session -> list Z -> list Z -> Z -> option (list Z * list Z)).
Context (dh_secret : list Z -> list Z -> list Z -> list Z).
Context (hostkey_init : LIBSSH2_HOSTKEY_METHOD -> list Z -> option (list Z)).
Context (sig_verify : LIBSSH2_HOSTKEY_METHOD -> list Z -> list Z -> list Z -> bool).
Context (crypt_init : LIBSSH2_CRYPT_METHOD -> list Z -> list Z -> Z -> option (list Z)).
Context (comp_init : LIBSSH2_COMP_METHOD -> Z -> option (list Z)).
Context (ecdsa_create_key : session -> Z -> option (list Z * list Z)).
Context (ecdh_gen_k : list Z -> list Z -> option (list Z)).
Context (curve25519_new : session -> option (list Z * list Z)).
Context (curve25519_gen_k : list Z -> list Z -> option (list Z)).

#[local] Hint Resolve send_keeps read_keeps : keeps.

Lemma keeps_packet_require fuel ty ofs buf start : keeps core (packet_require transport_read fuel ty ofs buf start).
Proof.
  assert (Hl : forall start, keeps core (packet_require_loop transport_read fuel ty ofs buf start)).
  { induction fuel as [|fuel IH]; intros st; cbn [packet_require_loop]; keeps_all; apply IH. }
  unfold packet_require. keeps_all; apply Hl.
Qed.
Lemma keeps_packet_burn fuel st : keeps core (packet_burn transport_read fuel st).
Proof.
  assert (Hl : forall st, keeps core (packet_burn_loop transport_read fuel st)).
  { induction fuel as [|fuel IH]; intros st'; cbn [packet_burn_loop]; keeps_all; apply IH. }
  unfold packet_burn. keeps_all; apply Hl.
Qed.
#[local] Hint Resolve keeps_packet_require keeps_packet_burn : keeps.

Lemma keeps_stages {B} (pr : session -> B) l : Forall (keeps pr) l -> keeps pr (stages l).
Proof.
  induction 1 as [|m l Hm _ IH]; cbn [stages]; [apply keeps_ret|]. apply keeps_bind; [done|].
  intros []; [apply keeps_ret..|done].
Qed.

Lemma keeps_value_hash a dlen reqlen x : keeps core (sha_algo_value_hash digest a dlen reqlen x).
Proof.
  assert (Hl : forall fuel v len, keeps core (value_hash_loop digest fuel a dlen v reqlen len x)).
  { induction fuel as [|fuel IH]; intros v len; cbn [value_hash_loop]; keeps_all; apply IH. }
  unfold sha_algo_value_hash. keeps_all; apply Hl.
Qed.
#[local] Hint Resolve keeps_value_hash : keeps.

Lemma keeps_install_keys a dlen : keeps core (install_keys digest crypt_init comp_init a dlen).
Proof.
  unfold install_keys. apply keeps_stages. repeat constructor;
    unfold install_crypt, install_mac, install_comp; keeps_all.
Qed.

Lemma keeps_set_session_id dlen : keeps core (set_session_id dlen).
Proof. unfold set_session_id, set_server, set_kex. keeps_all. Qed.
#[local] Hint Resolve keeps_install_keys keeps_set_session_id : keeps.

Definition unkeyed (s : session) : Prop := Z.land (s_state s) LIBSSH2_STATE_NEWKEYS = 0.

(** The exchange hash carries a signature of the server's host key. *)
Definition signed (s : session) : Prop :=
  exists m a sig, kx_hostkey (s_kex s) = Some m /\
    server_hostkey_abstract (kx_server (s_kex s)) = Some a /\
    sig_verify m a sig (xs_h_sig_comp (get_xs s)) = true.

Lemma core_signed s s' : core s' = core s -> signed s -> signed s'.
Proof. unfold core, signed. intros E. by simplify_eq/=; repeat match goal with H : _ = _ |- _ => rewrite <- H; clear H end. Qed.

Section Late.
(** The states of an exchange after the verification. *)
Context (late : list libssh2_nonblocking_states).

Definition early (s : session) : Prop := unkeyed s /\ xs_state (get_xs s) ∉ late.
Definition waiting (s : session) : Prop := unkeyed s /\ (xs_state (get_xs s) ∈ late -> signed s).

Definition triple {A} (P : session -> Prop) (m : CM A) (Q : session -> Prop) : Prop :=
  forall s a s', P s -> m s = Ret a s' -> Q s'.

Lemma early_waiting s : early s -> waiting s.
Proof. by intros []. Qed.

Lemma triple_early {A} (m : CM A) : keeps core2 m -> triple early m early.
Proof. intros H s a s' [Hu Hx] E. specialize (H s a s' E). unfold early, unkeyed. injection H as -> ->. done. Qed.

Lemma triple_waiting {A} (m : CM A) : keeps core m -> triple waiting m waiting.
Proof.
  intros H s a s' [Hu Hx] E. pose proof (H s a s' E) as Hc. pose proof (keeps_core2 _ H s a s' E) as Hc2.
  unfold waiting, unkeyed. injection Hc2 as -> ->. split; [done|]. intros Hl. by eapply core_signed, Hx.
Qed.

Lemma triple_bind {A C} (m : CM A) (k : A -> CM C) P R Q :
  triple P m R -> (forall a, triple R (k a) Q) -> triple P (bind m k) Q.
Proof. intros Hm Hk s b s' HP (a & s1 & E1 & E2)%bind_Ret_inv. eapply Hk; [by eapply Hm|done]. Qed.

Lemma triple_weaken {A} (m : CM A) P P' Q Q' :
  triple P m Q -> (forall s, P' s -> P s) -> (forall s, Q s -> Q' s) -> triple P' m Q'.
Proof. intros H HP HQ s a s' Hs E. eapply HQ, H; eauto. Qed.

Lemma triple_stages P Q (l : list (CM flow)) :
  (forall s, P s -> Q s) -> Forall (fun m => triple P m P) l -> triple P (stages l) Q.
Proof.
  intros HPQ. induction 1 as [|m l Hm _ IH]; cbn [stages]; [intros s a s' H [= <- <-]; auto|].
  eapply triple_bind; [done|]. intros []; [intros s a s' H [= <- <-]; auto..|done].
Qed.

Lemma triple_stages_last P Q (l : list (CM flow)) m :
  (forall s, P s -> Q s) -> Forall (fun m => triple P m P) l -> triple P m Q -> triple P (stages (l ++ [m])) Q.
Proof.
  intros HPQ Hl Hm. induction Hl as [|m' l Hm' _ IH]; cbn [stages app].
  - eapply triple_bind; [done|]. intros []; by intros s a s' H [= <- <-].
  - eapply triple_bind; [done|]. intros []; [intros s a s' H [= <- <-]; auto..|done].
Qed.

(** Verification is what makes a state late. *)
Lemma verify_hash_signs a input sig next :
  triple early (verify_hash digest sig_verify a input sig next) waiting.
Proof.
  intros s f s' [Hu Hx]. unfold verify_hash, set_xs, set_low, set_kex, bind, modify, gets. simpl.
  destruct (kx_hostkey (s_kex s)) as [m|] eqn:Em; [|done]. simpl.
  destruct (server_hostkey_abstract (kx_server (s_kex s))) as [ab|] eqn:Ea; [|done]. simpl.
  destruct (hkm_sig_verify m); [|done]. destruct (sig_verify m ab sig (digest a input)) eqn:Ev.
  - intros [= <- <-]. split; [done|]. intros _. by exists m, ab, sig.
  - intros E. apply early_waiting.
    refine (triple_early _ (keeps_core2 _ (keeps_fail _ _)) _ _ _ _ E). by split.
Qed.

Lemma triple_set_xs f :
  (forall x, xs_state x ∉ late -> xs_state (f x) ∉ late) -> triple early (set_xs f) early.
Proof. intros Hf s a s' [Hu Hx] [= <- <-]. split; [done|]. by apply Hf. Qed.

Lemma core3_signed s s' : core3 s' = core3 s -> signed s -> signed s'.
Proof. unfold core3, signed. intros E. by injection E as -> -> ->. Qed.

Lemma triple_signed {A} (m : CM A) : keeps core3 m -> triple signed m signed.
Proof. intros H s a s' Hs E. by eapply core3_signed, Hs; eapply H. Qed.

(** A stage before the verification. *)
Lemma early_stage st body :
  st ∉ late -> triple early body waiting -> triple waiting (stage st body) waiting.
Proof.
  intros Hst Hb s f s' [Hu Hx]. unfold stage, bind, gets. unfold nb_is. case_bool_decide as E.
  - apply Hb. split; [done|]. by rewrite E.
  - by intros [= <- <-].
Qed.

(** The stages after it. *)
Definition settled (s : session) : Prop := waiting s \/ signed s.

Lemma late_stage st body Q :
  st ∈ late -> (forall s, waiting s -> Q s) ->
  triple (fun s => unkeyed s /\ signed s) body Q -> triple waiting (stage st body) Q.
Proof.
  intros Hst HQ Hb s f s' [Hu Hx]. unfold stage, bind, gets. unfold nb_is. case_bool_decide as E.
  - apply Hb. split; [done|]. apply Hx. by rewrite E.
  - intros [= <- <-]. by apply HQ.
Qed.

Lemma keeps2_waiting {A} (m : CM A) : keeps core2 m -> triple early m waiting.
Proof. intros H. eapply triple_weaken; [by apply triple_early|done|apply early_waiting]. Qed.

(** Before the verification: every operation keeps [early] or is a change of state. *)
Ltac early_step :=
  cbn beta iota;
  match goal with
  | |- triple early (bind _ _) ?Q => apply (triple_bind _ _ early early Q); [|intros ?]
  | |- triple early (set_xs _) early => apply triple_set_xs; intros ? ?; simpl; first [done|assumption]
  | |- triple early (if ?b then _ else _) _ => destruct b
  | |- triple early (match ?x with _ => _ end) _ => destruct x
  | |- triple early _ early => apply triple_early; solve [keeps_all]
  | |- triple early _ waiting => apply keeps2_waiting; solve [keeps_all]
  end.

Context (Hcreated : libssh2_NB_state_created ∉ late).

Lemma keeps_write_bn p off b : keeps core (write_bn bn_bits bn_to_bin p off b).
Proof. unfold write_bn. keeps_all. Qed.
Lemma keeps2_set_server f : keeps core2 (set_server f).
Proof. unfold set_server, set_kex. keeps_all. Qed.
#[local] Hint Resolve keeps_write_bn keeps2_set_server : keeps.

Lemma keeps2_import_hostkey : keeps core2 (import_hostkey cfg fingerprint hostkey_init).
Proof. unfold import_hostkey. keeps_all. Qed.

Lemma keeps2_copy_hostkey buf : keeps core2 (copy_hostkey buf).
Proof. unfold copy_hostkey. keeps_all. Qed.

Lemma keeps2_store_k k : keeps core2 (store_k bn_bits bn_to_bin k).
Proof. unfold store_k, set_xs, set_low, set_kex. keeps_all. Qed.

Lemma keeps_hash_prefix : keeps core hash_prefix.
Proof. unfold hash_prefix. keeps_all. Qed.
#[local] Hint Resolve keeps2_import_hostkey keeps2_copy_hostkey keeps2_store_k keeps_hash_prefix : keeps.

Lemma dh_setup_early g p order ty : triple early (dh_setup bn_bits bn_to_bin dh_key_pair g p order ty) waiting.
Proof. unfold dh_setup. repeat early_step. Qed.

Lemma two_stages_verify m1 m2 :
  keeps core2 m1 -> triple early m2 waiting -> triple early (stages [m1; m2]) waiting.
Proof.
  intros H1 H2. apply (triple_stages_last early waiting [m1] m2); [apply early_waiting| |done].
  constructor; [by apply triple_early|constructor].
Qed.

Lemma send_newkeys_waits next :
  triple (fun s => unkeyed s /\ signed s) (send_newkeys transport_send next) waiting.
Proof.
  intros s f s' [Hu Hs] E.
  assert (Hk : keeps core4 (send_newkeys transport_send next)).
  { unfold send_newkeys, set_xs, set_low, set_kex. keeps_all. }
  pose proof (f_equal fst (Hk _ _ _ E)) as Hst. pose proof (f_equal snd (Hk _ _ _ E)) as Hc. simpl in Hst, Hc.
  split; [by unfold unkeyed; rewrite Hst|]. intros _. by eapply core3_signed, Hs.
Qed.

Lemma receive_newkeys_settles fuel a dlen :
  triple (fun s => unkeyed s /\ signed s)
    (receive_newkeys transport_read digest crypt_init comp_init fuel a dlen) settled.
Proof.
  intros s f s' [Hu Hs] E. right. revert Hs E.
  apply (triple_signed (receive_newkeys transport_read digest crypt_init comp_init fuel a dlen)).
  unfold receive_newkeys, state_set, set_xs, set_low, set_kex. keeps_all.
  apply keeps_stages. repeat constructor; apply keeps_core3; eauto with keeps nocore.
Qed.

(** The clean-up of either exchange. *)
Lemma clean_settles (m : Z -> CM Z) r :
  keeps core4 (m r) -> (forall s a s', m r s = Ret a s' -> xs_state (get_xs s') ∉ late) ->
  triple settled (m r) settled.
Proof.
  intros Hk Hidle s a s' Hs E. pose proof (f_equal fst (Hk _ _ _ E)) as Hst. pose proof (f_equal snd (Hk _ _ _ E)) as Hc. simpl in Hst, Hc.
  destruct Hs as [[Hu _]|Hs]; [left; split|right].
  - by unfold unkeyed; rewrite Hst.
  - intros Hl. by destruct (Hidle _ _ _ E).
  - by eapply core3_signed, Hs.
Qed.

Lemma triple_settled {A} (m : CM A) : keeps core m -> triple settled m settled.
Proof.
  intros H s a s' [Hs|Hs] E; [left|right]; [by eapply triple_waiting|]. by eapply core_signed, Hs; eapply H.
Qed.

Lemma waiting_settled s : waiting s -> settled s.
Proof. by left. Qed.

Lemma exchange_settles (l : list (CM flow)) last (clean : Z -> CM Z) :
  Forall (fun m => triple waiting m waiting) l -> triple waiting last settled ->
  (forall r, keeps core4 (clean r)) ->
  (forall r s a s', clean r s = Ret a s' -> xs_state (get_xs s') ∉ late) ->
  triple waiting
    (let! f := stages (l ++ [last]) in
     match f with Return rc => ret rc | Exit r => clean r | Next => clean 0 end) settled.
Proof.
  intros Hl Hlast Hk Hidle. eapply triple_bind.
  - apply (triple_stages_last waiting settled l last); [by left|done|done].
  - intros []; [by intros s a s' Hs [= <- <-]|apply clean_settles; eauto..].
Qed.
Lemma dh_verify_waits a ty p midhash buf :
  triple early
    (dh_verify cfg digest bn_bits bn_to_bin bn_from_bin dh_secret sig_verify a ty p midhash buf)
    waiting.
Proof.
  unfold dh_verify. repeat early_step.
  apply two_stages_verify; [apply keeps2_store_k|]. repeat early_step. apply verify_hash_signs.
Qed.

Lemma dh_reply_waits fuel a ty reply p midhash :
  triple early
    (dh_reply cfg transport_read digest fingerprint bn_bits bn_to_bin bn_from_bin dh_secret hostkey_init
       sig_verify fuel a ty reply p midhash)
    waiting.
Proof.
  unfold dh_reply. repeat early_step.
  apply two_stages_verify; [apply keeps2_import_hostkey|apply dh_verify_waits].
Qed.

Lemma dh_send_waits : libssh2_NB_state_sent ∉ late -> triple early (dh_send transport_send) waiting.
Proof. intros H. unfold dh_send. repeat early_step. Qed.

Lemma dh_burn_waits fuel : libssh2_NB_state_sent1 ∉ late -> triple early (dh_burn transport_read fuel) waiting.
Proof.
  intros H. unfold dh_burn, set_kex. cbn zeta. repeat early_step.
Qed.

Lemma ec_reply_waits a pk gen_k check_key text buf :
  (forall q, keeps core (check_key q)) ->
  triple early (ec_reply digest bn_bits bn_to_bin sig_verify a pk gen_k check_key text buf) waiting.
Proof.
  intros Hc. unfold ec_reply. repeat early_step.
  apply two_stages_verify; [by apply keeps_core2|]. repeat early_step.
  apply two_stages_verify; [apply keeps2_store_k|]. unfold ec_verify. repeat early_step. apply verify_hash_signs.
Qed.

Lemma set_xs_idle {A} (m : CM unit) f (r : A) s a s' :
  (forall x, xs_state (f x) = libssh2_NB_state_idle) -> libssh2_NB_state_idle ∉ late ->
  (m ;; set_xs f ;; ret r) s = Ret a s' -> xs_state (get_xs s') ∉ late.
Proof.
  intros Hf Hi (? & s1 & _ & E)%bind_Ret_inv. unfold bind, set_xs, set_low, set_kex, modify, ret in E.
  injection E as <- <-. unfold get_xs. simpl. by rewrite Hf.
Qed.

Lemma dh_clean_idle r s a s' :
  libssh2_NB_state_idle ∉ late -> dh_clean r s = Ret a s' -> xs_state (get_xs s') ∉ late.
Proof.
  intros Hi. unfold dh_clean. intros (x & s1 & _ & E)%bind_Ret_inv.
  apply bind_Ret_inv in E as (? & s2 & _ & E). apply bind_Ret_inv in E as (? & s3 & _ & E).
  by eapply set_xs_idle in E.
Qed.

Lemma ec_clean_idle r s a s' :
  libssh2_NB_state_idle ∉ late -> ec_clean r s = Ret a s' -> xs_state (get_xs s') ∉ late.
Proof.
  intros Hi. unfold ec_clean. intros (x & s1 & _ & E)%bind_Ret_inv. by eapply set_xs_idle in E.
Qed.

Lemma keeps4_dh_clean r : keeps core4 (dh_clean r).
Proof. unfold dh_clean, set_xs, set_low, set_kex. keeps_all. Qed.
Lemma keeps4_ec_clean r : keeps core4 (ec_clean r).
Proof. unfold ec_clean, set_xs, set_low, set_kex. keeps_all. Qed.
End Late.

Abbreviation dh_late := [libssh2_NB_state_sent2; libssh2_NB_state_sent3].
Abbreviation ec_late := [libssh2_NB_state_sent; libssh2_NB_state_sent2].

Abbreviation dh_exchange := (diffie_hellman_sha_algo cfg transport_send transport_read digest fingerprint bn_bits
  bn_to_bin bn_from_bin dh_key_pair dh_secret hostkey_init sig_verify crypt_init comp_init).

Ltac decided := apply (bool_decide_unpack _); vm_compute; exact I.

Lemma dh_exchange_settles fuel g p order a ty reply midhash :
  triple (waiting dh_late) (dh_exchange fuel g p order a ty reply midhash) (settled dh_late).
Proof.
  unfold diffie_hellman_sha_algo. destruct (digest_len a) as [dlen|].
  - refine (exchange_settles dh_late [_; _; _; _; _] _ dh_clean _ _ _ _).
    + repeat apply Forall_cons_2; [apply early_stage; [decided|]..|apply late_stage; [decided|done|]|done].
      * apply dh_setup_early. decided.
      * apply dh_send_waits. decided.
      * apply dh_burn_waits. decided.
      * apply dh_reply_waits.
      * apply send_newkeys_waits.
    + apply late_stage; [decided|by left|apply receive_newkeys_settles].
    + apply keeps4_dh_clean.
    + intros r s b s'. apply dh_clean_idle. decided.
  - apply (triple_bind _ _ _ (waiting dh_late) _); [apply triple_waiting, keeps_error|].
    intros r. eapply triple_weaken; [apply clean_settles| |]; [apply keeps4_dh_clean| |by left|done].
    intros s b s'. apply dh_clean_idle. decided.
Qed.

Lemma ec_stages_settle fuel a dlen reply :
  triple (early ec_late) reply (waiting ec_late) ->
  triple (waiting ec_late)
    (ec_stages transport_send transport_read digest crypt_init comp_init fuel a dlen reply) (settled ec_late).
Proof.
  intros Hr. unfold ec_stages. refine (exchange_settles ec_late [_; _; _] _ ec_clean _ _ _ _).
  - repeat apply Forall_cons_2; [apply early_stage; [decided|]..|apply late_stage; [decided|done|]|done].
    + apply (triple_bind _ _ _ (early ec_late) _).
      * apply triple_set_xs. intros ? _. simpl. decided.
      * intros ?. apply keeps2_waiting, keeps_ret.
    + done.
    + apply send_newkeys_waits.
  - apply late_stage; [decided|by left|apply receive_newkeys_settles].
  - apply keeps4_ec_clean.
  - intros r s b s'. apply ec_clean_idle. decided.
Qed.

(** ** The methods *)

Abbreviation nistp_exchange := (ecdh_sha2_nistp cfg transport_send transport_read digest fingerprint bn_bits
  bn_to_bin ecdh_gen_k hostkey_init sig_verify crypt_init comp_init).
Abbreviation curve_exchange := (curve25519_sha256 cfg transport_send transport_read digest fingerprint bn_bits
  bn_to_bin curve25519_gen_k hostkey_init sig_verify crypt_init comp_init).

#[local] Hint Resolve keeps2_import_hostkey keeps2_copy_hostkey keeps2_set_server : keeps.

Lemma nistp_settles fuel a dlen data n pub priv :
  triple (waiting ec_late) (nistp_exchange fuel a dlen data n pub priv) (settled ec_late).
Proof.
  unfold ecdh_sha2_nistp. destruct (n <? 5).
  { eapply triple_weaken; [apply triple_waiting, keeps_error|done|by left]. }
  apply (triple_bind _ _ _ (waiting ec_late) _); [apply triple_waiting, keeps_block|]. intros d.
  apply ec_stages_settle. apply (triple_bind _ _ _ (early ec_late) _); [apply triple_early, keeps2_copy_hostkey|].
  intros c. destruct (negb _); [apply keeps2_waiting, keeps_core2, keeps_fail|].
  apply two_stages_verify; [apply keeps2_import_hostkey|apply ec_reply_waits]. intros q. apply keeps_ret.
Qed.

Lemma curve_settles fuel data n pub priv :
  triple (waiting ec_late) (curve_exchange fuel data n pub priv) (settled ec_late).
Proof.
  unfold curve25519_sha256. destruct (n <? 5).
  { eapply triple_weaken; [apply triple_waiting, keeps_error|done|by left]. }
  apply (triple_bind _ _ _ (waiting ec_late) _); [apply triple_waiting, keeps_block|]. intros d.
  apply ec_stages_settle. apply (triple_bind _ _ _ (early ec_late) _); [apply triple_early, keeps_access|].
  intros [[rc [hostkey|]] buf]; [|apply keeps2_waiting, keeps_core2, keeps_fail].
  do 3 (apply (triple_bind _ _ _ (early ec_late) _); [apply triple_early; keeps_all|intros ?]).
  destruct a0; [|apply keeps2_waiting, keeps_core2, keeps_fail].
  apply two_stages_verify; [apply keeps2_import_hostkey|apply ec_reply_waits]. intros q. keeps_all.
Qed.

Lemma keeps_low_send text next : keeps core (low_send transport_send text next).
Proof. unfold low_send, low_state, set_low, set_kex. keeps_all. Qed.

Lemma keeps_low_require fuel ty text next : keeps core (low_require transport_read fuel ty text next).
Proof. unfold low_require, low_state, set_low, set_kex. keeps_all. Qed.

Lemma keeps_low_stage st m : keeps core m -> keeps core (low_stage st m).
Proof. intros H. unfold low_stage. keeps_all; done. Qed.

Lemma method_settles L (l : list (CM flow)) st last (clean : Z -> CM Z) :
  Forall (keeps core) l -> triple (waiting L) last (settled L) -> (forall r, keeps core (clean r)) ->
  triple (waiting L)
    (let! f := stages (l ++ [low_stage st last]) in
     match f with Return rc => ret rc | Exit r => clean r | Next => clean 0 end) (settled L).
Proof.
  intros Hl Hlast Hc. apply (triple_bind _ _ _ (settled L) _).
  - apply triple_stages_last; [apply waiting_settled| |].
    + eapply Forall_impl; [exact Hl|]. intros m. apply triple_waiting.
    + apply (triple_bind _ _ _ (waiting L) _); [apply triple_waiting, keeps_gets|]. intros x.
      destruct (nb_is _ _); [done|]. eapply triple_weaken; [apply triple_waiting, keeps_ret|done|by left].
  - intros []; apply triple_settled; [apply keeps_ret|apply Hc..].
Qed.

(** The last stage of a method: the exchange, then the release of its packet. *)
Lemma exchange_then_release L (m : CM Z) p :
  triple (waiting L) m (settled L) ->
  triple (waiting L)
    (let! rc := m in if rc =? LIBSSH2_ERROR_EAGAIN then ret (Return rc) else free_block p ;; ret (Exit rc))
    (settled L).
Proof.
  intros Hm. apply (triple_bind _ _ _ (settled L) _); [done|]. intros rc. apply triple_settled. keeps_all.
Qed.

Lemma waiting_bind {A} L (m : CM A) (k : A -> CM flow) :
  keeps core m -> (forall a, triple (waiting L) (k a) (settled L)) -> triple (waiting L) (bind m k) (settled L).
Proof. intros Hm Hk. apply (triple_bind _ _ _ (waiting L) _); [by apply triple_waiting|done]. Qed.

Lemma waiting_leaf {A} L (m : CM A) : keeps core m -> triple (waiting L) m (settled L).
Proof. intros H. eapply triple_weaken; [by apply triple_waiting|done|by left]. Qed.

Lemma ecdh_settles fuel :
  triple (waiting ec_late)
    (ecdh_key_exchange cfg transport_send transport_read digest fingerprint bn_bits bn_to_bin ecdsa_create_key
       ecdh_gen_k hostkey_init sig_verify crypt_init comp_init fuel) (settled ec_late).
Proof.
  unfold ecdh_key_exchange. apply (method_settles _ [_; _; _; _]).
  - repeat apply Forall_cons_2; [apply keeps_low_stage..|done].
    + unfold set_low, set_kex. keeps_all.
    + unfold ecdh_setup, set_low, set_kex. keeps_all.
    + apply keeps_low_send.
    + apply keeps_low_require.
  - do 8 (apply waiting_bind; [keeps_all|intros ?]). apply exchange_then_release, nistp_settles.
  - intros r. unfold set_low, set_kex. keeps_all.
Qed.

Lemma curve25519_settles fuel :
  triple (waiting ec_late)
    (curve25519_key_exchange cfg transport_send transport_read digest fingerprint bn_bits bn_to_bin
       curve25519_new curve25519_gen_k hostkey_init sig_verify crypt_init comp_init fuel) (settled ec_late).
Proof.
  unfold curve25519_key_exchange. apply (method_settles _ [_; _; _; _]).
  - repeat apply Forall_cons_2; [apply keeps_low_stage..|done].
    + unfold set_low, set_kex. keeps_all.
    + unfold curve25519_setup, set_low, set_kex. keeps_all.
    + apply keeps_low_send.
    + apply keeps_low_require.
  - do 4 (apply waiting_bind; [keeps_all|intros ?]). apply exchange_then_release, curve_settles.
  - intros r. unfold set_low, set_kex. keeps_all.
Qed.

Lemma fixed_group_settles fuel p_value a :
  triple (waiting dh_late)
    (fixed_group_exchange cfg transport_send transport_read digest fingerprint bn_bits bn_to_bin bn_from_bin
       dh_key_pair dh_secret hostkey_init sig_verify crypt_init comp_init fuel p_value a) (settled dh_late).
Proof.
  unfold fixed_group_exchange, set_low, set_kex.
  do 3 (apply (triple_bind _ _ _ (waiting dh_late) _); [apply triple_waiting; keeps_all|intros ?]).
  apply (triple_bind _ _ _ (settled dh_late) _); [apply dh_exchange_settles|]. intros r.
  apply triple_settled. keeps_all.
Qed.

Lemma group_exchange_settles fuel a :
  triple (waiting dh_late)
    (group_exchange cfg transport_send transport_read digest fingerprint bn_bits bn_to_bin bn_from_bin
       dh_key_pair dh_secret hostkey_init sig_verify crypt_init comp_init fuel a) (settled dh_late).
Proof.
  unfold group_exchange. apply (method_settles _ [_; _; _]).
  - repeat apply Forall_cons_2; [apply keeps_low_stage..|done].
    + unfold set_low, set_kex. keeps_all.
    + apply keeps_low_send.
    + apply keeps_low_require.
  - unfold gex_exchange. apply waiting_bind; [keeps_all|]. intros l.
    destruct (kl_data_len l <? 9); [apply waiting_leaf, keeps_fail|].
    do 3 (apply waiting_bind; [keeps_all|intros ?]). destruct a2 as [[rc [pb|]] buf]; [|apply waiting_leaf, keeps_fail].
    apply waiting_bind; [keeps_all|]. intros r. destruct (r.1.2) as [gb|]; [|apply waiting_leaf, keeps_fail].
    apply waiting_bind; [unfold set_low, set_kex; keeps_all|]. intros _.
    apply waiting_bind; [keeps_all|]. intros midhash. apply exchange_then_release, dh_exchange_settles.
  - intros r. unfold set_low, set_kex. keeps_all.
Qed.

(** ** All methods *)

Abbreviation run_method := (exchange_keys cfg transport_send transport_read digest fingerprint bn_bits bn_to_bin
  bn_from_bin dh_key_pair dh_secret ecdsa_create_key ecdh_gen_k curve25519_new curve25519_gen_k hostkey_init
  sig_verify crypt_init comp_init).

Definition late_states (f : kex_function) : list libssh2_nonblocking_states :=
  match f with
  | kex_method_ecdh_key_exchange | kex_method_curve25519_key_exchange => ec_late
  | _ => dh_late
  end.

Lemma exchange_keys_settles fuel f :
  triple (waiting (late_states f)) (run_method fuel f) (settled (late_states f)).
Proof.
  destruct f; cbn [exchange_keys late_states];
    first [apply fixed_group_settles | apply group_exchange_settles | apply ecdh_settles | apply curve25519_settles].
Qed.

(** The calls of one exchange: as long as there are no new keys the session calls
    the method again. *)
Inductive called (fuel : nat) (f : kex_function) (s : session) : session -> Prop :=
  | called_none : called fuel f s s
  | called_again s1 rc s2 :
      called fuel f s s1 -> unkeyed s1 -> run_method fuel f s1 = Ret rc s2 -> called fuel f s s2.

Lemma called_settled fuel f s s' :
  waiting (late_states f) s -> called fuel f s s' -> settled (late_states f) s'.
Proof.
  intros Hs. induction 1 as [|s1 rc s2 _ IH Hu E]; [by left|].
  eapply exchange_keys_settles; [|exact E]. destruct IH as [?|Hsig]; [done|]. by split.
Qed.

(** C3: no keys without the server's signature. In whatever way the calls of a
    key exchange method go (any transport, any returns with
    [LIBSSH2_ERROR_EAGAIN], any reply of the server), once
    [LIBSSH2_STATE_NEWKEYS] is set the exchange hash from which the keys are
    derived carries a signature that the host key of the agreed method verified. *)
Theorem exchange_keys_signed fuel f s s'
    (Hun : Z.land (s_state s) LIBSSH2_STATE_NEWKEYS = 0)
    (Hidle : xs_state (get_xs s) = libssh2_NB_state_idle)
    (Hcalled : called fuel f s s')
    (Hkeyed : Z.land (s_state s') LIBSSH2_STATE_NEWKEYS <> 0) :
  exists m a sig, kx_hostkey (s_kex s') = Some m /\
    server_hostkey_abstract (kx_server (s_kex s')) = Some a /\
    sig_verify m a sig (xs_h_sig_comp (get_xs s')) = true.
Proof.
  destruct (called_settled fuel f s s') as [[Hu _]|?]; [|done|by destruct Hkeyed|done].
  split; [done|]. rewrite Hidle. by destruct f; intros ?%(bool_decide_eq_true_2 _).
Qed.
End Signed.

(** ** Runs *)

#[global] Instance exchange_transport_done : ExchangeTransport send_all read_nothing.
Proof. by split; intros; intros ? ? ? [= <- <-]. Qed.

(** A toy backend: numbers of whole bytes with the highest bit clear, constant key
    agreement, one signature. *)
Abbreviation toy_exchange pair :=
  (exchange_keys full_build send_all read_nothing sum_digest (fun _ _ => None) (fun b => 8 * lenZ b - 1)
    (fun b => b) (fun b => b) (fun _ _ _ _ => pair) (fun _ _ _ => [7]) (fun _ _ => None) (fun _ _ => None)
    (fun _ => None) (fun _ _ => None) (fun _ k => Some k) (fun _ _ sig _ => bool_decide (sig = [1; 2]))
    (fun _ _ _ _ => Some [1]) (fun _ _ => None)).

(** A session after the negotiation that has received the packets [a] and [b]. *)
Definition exchange_session (a b : list Z) (hostkey : option ptr) : session :=
  session_0
    <| s_heap := {[ 1%positive := a; 2%positive := b; 3%positive := str "SSH-2.0-x" ++ [0];
                    4%positive := [8] ]} |>
    <| s_next_ptr := 5%positive |>
    <| packets := [mk_packet 1%positive (lenZ a) 0; mk_packet 2%positive (lenZ b) 0] |>
    <| s_kex ::= fun k =>
         k <| kx_hostkey := Some hostkey_method_ssh_ed25519 |>
           <| kx_local ::= fun e => e <| ke_crypt := Some libssh2_crypt_method_aes128_ctr |>
                                      <| ke_mac := Some mac_method_hmac_sha1 |> |>
           <| kx_remote ::= fun e => e <| ke_crypt := Some libssh2_crypt_method_aes128_ctr |>
                                       <| ke_mac := Some mac_method_hmac_sha1 |>
                                       <| ke_banner := Some 3%positive |> |>
           <| kx_server ::= fun i => i <| server_hostkey := hostkey |> <| server_hostkey_len := 1 |> |> |>.

Definition reply_packet (sig : list Z) : list Z :=
  store_str (store_str (store_str [SSH_MSG_KEXDH_REPLY] [5; 6]) [9]) sig.

Abbreviation group14 := kex_method_diffie_hellman_group14_sha256_key_exchange.

Definition state_after {A} (o : outcome session A) : session :=
  match o with Ret _ s => s | _ => session_0 end.

Lemma exchange_keys_signed_witness :
  let s := exchange_session (reply_packet [1; 2]) [SSH_MSG_NEWKEYS] None in
  let s' := state_after (toy_exchange (Some ([3], [4])) 5 group14 s) in
  exists m a sig, kx_hostkey (s_kex s') = Some m /\
    server_hostkey_abstract (kx_server (s_kex s')) = Some a /\ bool_decide (sig = [1; 2]) = true.
Proof.
  intros s s'.
  assert (E : toy_exchange (Some ([3], [4])) 5 group14 s = Ret 0 s') by (vm_compute; reflexivity).
  apply (exchange_keys_signed full_build send_all read_nothing sum_digest (fun _ _ => None)
    (fun b => 8 * lenZ b - 1) (fun b => b) (fun b => b) (fun _ _ _ _ => Some ([3], [4])) (fun _ _ _ => [7])
    (fun _ k => Some k) (fun _ _ sig _ => bool_decide (sig = [1; 2])) (fun _ _ _ _ => Some [1]) (fun _ _ => None)
    (fun _ _ => None) (fun _ _ => None) (fun _ => None) (fun _ _ => None) 5 group14 s s').
  - reflexivity.
  - reflexivity.
  - apply called_again with (s1 := s) (rc := 0); [apply called_none|reflexivity|]. exact E.
  - vm_compute. discriminate.
Defined.

(** a failure of [libssh2_dh_key_pair] is reported as a success: the
    exchange ends with 0 and without keys. *)
Theorem dh_key_pair_failure_is_success fuel p1 p2 :
  exists s', toy_exchange None fuel group14 (exchange_session p1 p2 None) = Ret 0 s' /\
    Z.land (s_state s') LIBSSH2_STATE_NEWKEYS = 0.
Proof. eexists. split; vm_compute; reflexivity. Qed.

(** in a later exchange, a reply without a host key leaves
    [session->server_hostkey] pointing to the block the exchange has released. *)
Theorem dh_reply_dangling_hostkey :
  exists s', toy_exchange (Some ([3], [4])) 5 group14
      (exchange_session [SSH_MSG_KEXDH_REPLY; 0; 0; 0; 9] [SSH_MSG_NEWKEYS] (Some 4%positive)) =
    Ret LIBSSH2_ERROR_ALLOC s' /\
    server_hostkey (kx_server (s_kex s')) = Some 4%positive /\ s_heap s' !! 4%positive = None.
Proof. eexists. split; [vm_compute; reflexivity|]. split; vm_compute; reflexivity. Qed.
