(* ===== verification/Numerals.v ===== *)
(** * Numbers in C strings

    [strtol], [strtoll] and [snprintf] as the sources use them. [long] has 64 bits. *)

From stdpp Require Import base numbers list strings.
From S2P Require Import Prelude CString.

Definition LONG_MAX : Z := 2 ^ 63 - 1.
Definition LONG_MIN : Z := - 2 ^ 63.

(** The characters of [l] up to the first that [f] refuses; [None] reads past the
    memory. *)
Fixpoint span (f : Z -> bool) (l : list Z) : option (list Z) :=
  match l with
  | [] => None
  | c :: l => if f c then w ← span f l; Some (c :: w) else Some []
  end.

Definition is_space (c : Z) : bool := (c =? 32) || ((9 <=? c) && (c <=? 13)).
Definition is_digit (base c : Z) : bool := (48 <=? c) && (c <? 48 + base).
Definition number (base : Z) (ds : list Z) : Z := fold_left (fun v d => v * base + (d - 48)) ds 0.

(** [strtol(l + i, &end, base)] for bases up to ten: the value and [end]. *)
Definition strtol (l : list Z) (i base : Z) : option (Z * Z) :=
  sp ← span is_space (drop (Z.to_nat i) l);
  let j := i + lenZ sp in
  c ← byte_at l j;
  let neg := c =? 45 in
  let j := if neg || (c =? 43) then j + 1 else j in
  ds ← span (is_digit base) (drop (Z.to_nat j) l);
  Some (if lenZ ds =? 0 then (0, i)
        else let v := number base ds in
             (if neg then Z.max LONG_MIN (- v) else Z.min LONG_MAX v, j + lenZ ds)).

(** The digits of [n], for numbers of less than [fuel] digits. *)
Fixpoint digits (fuel : nat) (base n : Z) : list Z :=
  match fuel with
  | O => []
  | S fuel => (if n <? base then [] else digits fuel base (n / base)) ++ [48 + n mod base]
  end.

(** [%o] of an [unsigned int] and [%ld]. *)
Definition octal (n : Z) : list Z := digits 64 8 (u32 n).
Definition decimal (n : Z) : list Z := if n <? 0 then 45 :: digits 64 10 (- n) else digits 64 10 n.

(** [snprintf(buf, size, ...)] of the text [t]: the return value, and [buf]. *)
Definition snprintf (buf : list Z) (size : Z) (t : list Z) : option (Z * list Z) :=
  let shown := take (Z.to_nat (size - 1)) t ++ [0] in
  if (0 <? size) && (lenZ shown <=? lenZ buf) then Some (lenZ t, shown ++ drop (length shown) buf) else None.

(** ** Theorems *)

Lemma span_app f t c rest : Forall (fun b => f b = true) t -> f c = false -> span f (t ++ c :: rest) = Some t.
Proof.
  intros Ht Hc. induction Ht as [|b t Hb _ IH]; simpl; [by rewrite Hc|]. by rewrite Hb, IH.
Qed.

Lemma number_snoc base ds d : number base (ds ++ [d]) = number base ds * base + (d - 48).
Proof. unfold number. by rewrite fold_left_app. Qed.

Lemma digits_ok fuel base n :
  2 <= base -> 0 <= n < base ^ Z.of_nat fuel ->
  Forall (fun c => is_digit base c = true) (digits fuel base n) /\ number base (digits fuel base n) = n.
Proof.
  intros Hb. revert n. induction fuel as [|fuel IH]; intros n Hn; simpl.
  { change (Z.of_nat 0) with 0 in Hn. rewrite Z.pow_0_r in Hn. unfold number. simpl. split; [done|lia]. }
  pose proof (Z.mod_pos_bound n base ltac:(lia)) as Hm.
  assert (Hd : is_digit base (48 + n mod base) = true).
  { unfold is_digit. apply andb_true_iff. split; [apply Z.leb_le|apply Z.ltb_lt]; lia. }
  rewrite number_snoc, Forall_app.
  assert (Hq : n = n / base * base + n mod base) by (rewrite (Z.div_mod n base) at 1; lia).
  destruct (Z.ltb_spec n base).
  - split; [by repeat constructor|]. unfold number. simpl. rewrite Z.mod_small by lia. lia.
  - destruct (IH (n / base)) as [IH1 IH2].
    { rewrite Nat2Z.inj_succ, Z.pow_succ_r in Hn by lia. split; [apply Z.div_pos; lia|].
      apply Z.div_lt_upper_bound; lia. }
    rewrite IH2. split; [split; [done|by repeat constructor]|lia].
Qed.

Lemma digits_nonempty fuel base n : digits (S fuel) base n <> [].
Proof. simpl. intros H. by apply app_eq_nil in H as [_ H]. Qed.

Lemma is_digit_not_space base c : is_digit base c = true -> is_space c = false /\ (c =? 45) = false /\ (c =? 43) = false.
Proof.
  unfold is_digit, is_space. intros H. apply andb_true_iff in H as [H1 H2]. apply Z.leb_le in H1.
  rewrite !(proj2 (Z.eqb_neq _ _)), (proj2 (Z.leb_gt c 13)) by lia. by rewrite andb_false_r.
Qed.

(** [strtol] reads a numeral back, up to the character behind it. *)
Lemma strtol_digits pre ds c rest i base :
  i = lenZ pre -> ds <> [] -> Forall (fun b => is_digit base b = true) ds -> is_digit base c = false ->
  strtol (pre ++ ds ++ c :: rest) i base = Some (Z.min LONG_MAX (number base ds), i + lenZ ds).
Proof.
  intros Hi Hne Hds Hc. destruct ds as [|d ds]; [done|]. apply Forall_cons in Hds as [Hd Hds].
  destruct (is_digit_not_space _ _ Hd) as (Hs & Hm & Hp). unfold strtol.
  rewrite drop_lenZ by done. rewrite <- (app_comm_cons ds). simpl span. rewrite Hs. simpl.
  change (lenZ []) with 0. rewrite Z.add_0_r, byte_at_head by done. simpl. rewrite Hm, Hp. simpl.
  rewrite drop_lenZ by done. simpl. rewrite Hd.
  rewrite (span_app _ ds c rest) by done. simpl. rewrite lenZ_cons. pose proof (lenZ_nonneg ds).
  destruct (Z.eqb_spec (1 + lenZ ds) 0); [lia|done].
Qed.

Lemma strtol_decimal pre n c rest i :
  i = lenZ pre -> 0 <= n <= LONG_MAX -> is_digit 10 c = false ->
  strtol (pre ++ decimal n ++ c :: rest) i 10 = Some (n, i + lenZ (decimal n)).
Proof.
  intros Hi Hn Hc. unfold decimal. destruct (Z.ltb_spec n 0); [lia|].
  destruct (digits_ok 64 10 n) as [H1 H2]; [lia|unfold LONG_MAX in *; lia|].
  rewrite strtol_digits; [|done|apply digits_nonempty|done..]. rewrite H2. by rewrite Z.min_r by lia.
Qed.

Lemma strtol_octal pre n c rest i :
  i = lenZ pre -> 0 <= n < 2 ^ 32 -> is_digit 8 c = false ->
  strtol (pre ++ 48 :: octal n ++ c :: rest) i 8 = Some (n, i + 1 + lenZ (octal n)).
Proof.
  intros Hi Hn Hc. unfold octal. rewrite u32_small by lia.
  destruct (digits_ok 64 8 n) as [H1 H2]; [lia|lia|].
  change (48 :: digits 64 8 n ++ c :: rest) with ((48 :: digits 64 8 n) ++ c :: rest).
  rewrite strtol_digits; [|done|done|by constructor|done].
  assert (number 8 (48 :: digits 64 8 n) = number 8 (digits 64 8 n)) as -> by done.
  rewrite H2, lenZ_cons, Z.min_r by (unfold LONG_MAX; lia). by rewrite Z.add_assoc.
Qed.

(** Digits and the sign are not a space, a terminator or the end of a line. *)
Lemma decimal_chars n : 0 <= n -> n < 10 ^ 64 -> Forall (fun c => 48 <= c <= 57) (decimal n).
Proof.
  intros H0 H1. unfold decimal. destruct (Z.ltb_spec n 0); [lia|].
  destruct (digits_ok 64 10 n) as [Hd _]; [lia|lia|]. eapply Forall_impl; [done|]. simpl. unfold is_digit. lia.
Qed.

(** *** Terminated strings are read inside their memory *)

Lemma byte_at_drop l i k b :
  0 <= i <= k -> byte_at l k = Some b -> drop (Z.to_nat i) l !! Z.to_nat (k - i) = Some b.
Proof.
  intros Hi H. unfold byte_at in H. case_decide; [|done]. rewrite lookup_drop.
  replace (Z.to_nat i + Z.to_nat (k - i))%nat with (Z.to_nat k) by lia. done.
Qed.

Lemma byte_at_range l k b : byte_at l k = Some b -> 0 <= k < lenZ l.
Proof.
  unfold byte_at. case_decide; [|done]. intros H1%lookup_lt_Some. unfold lenZ. lia.
Qed.

Lemma strchr_from_safe l : forall k i c, c <> 0 -> l !! k = Some 0 ->
  exists r, strchr_from l i c = Some r /\ forall p, r = Some p -> i <= p < i + Z.of_nat k.
Proof.
  induction l as [|b l IH]; intros k i c Hc Hk; [done|]. simpl.
  destruct (Z.eqb_spec b c) as [->|]; [|destruct (Z.eqb_spec b 0)].
  - eexists; split; [done|]. intros p [= <-]. destruct k; simpl in *; [congruence|lia].
  - by eexists.
  - destruct k as [|k]; simpl in Hk; [congruence|]. destruct (IH k (i + 1) c Hc Hk) as (r & -> & Hr).
    eexists; split; [done|]. intros p Hp. specialize (Hr p Hp). lia.
Qed.

Lemma strchr_safe l i k c : c <> 0 -> 0 <= i <= k -> byte_at l k = Some 0 ->
  exists r, strchr l i c = Some r /\ forall p, r = Some p -> i <= p < k.
Proof.
  intros Hc Hi Hk. unfold strchr. rewrite decide_True by lia.
  destruct (strchr_from_safe _ _ i c Hc (byte_at_drop _ _ _ _ Hi Hk)) as (r & -> & Hr).
  eexists; split; [done|]. intros p Hp. specialize (Hr p Hp). lia.
Qed.

Lemma span_safe f l : forall k, f 0 = false -> l !! k = Some 0 ->
  exists w, span f l = Some w /\ (length w <= k)%nat.
Proof.
  induction l as [|b l IH]; intros k Hf Hk; [done|]. simpl. destruct (f b) eqn:E; [|exists []; split; [done|simpl; lia]].
  destruct k as [|k]; simpl in Hk; [congruence|]. destruct (IH k Hf Hk) as (w & -> & Hw).
  eexists; split; [done|]. simpl. lia.
Qed.

Lemma strtol_safe l i k base : 0 <= i <= k -> byte_at l k = Some 0 ->
  exists v e, strtol l i base = Some (v, e) /\ i <= e <= k.
Proof.
  intros Hi Hk. unfold strtol.
  destruct (span_safe is_space _ _ eq_refl (byte_at_drop _ _ _ _ Hi Hk)) as (sp & -> & Hsp). simpl.
  assert (Hj : i <= i + lenZ sp <= k) by (unfold lenZ; lia).
  destruct (byte_at_in l (i + lenZ sp)) as [c Hc]; [pose proof (byte_at_range _ _ _ Hk); lia|].
  rewrite Hc. simpl. set (j := if _ || _ then _ else _).
  assert (Hj' : i <= j <= k).
  { subst j. destruct ((c =? 45) || (c =? 43)) eqn:E; [|lia].
    destruct (decide (i + lenZ sp = k)) as [Heq|]; [|lia]. rewrite Heq, Hk in Hc. by injection Hc as <-. }
  destruct (span_safe (is_digit base) (drop (Z.to_nat j) l) (Z.to_nat (k - j))) as (ds & -> & Hds).
  { unfold is_digit. done. }
  { apply byte_at_drop; [lia|done]. }
  simpl. do 2 eexists. split; [apply f_equal, surjective_pairing|].
  destruct (lenZ ds =? 0); simpl; unfold lenZ in *; lia.
Qed.
