(* ===== verification/ShellQuote.v ===== *)
(** * Quoting for the remote shell (scp.c)

    [shell_quotearg] quotes a path for the command line that [scp_recv] and [scp_send]
    run on the server, for Bourne shells and C shells. *)

From stdpp Require Import base numbers list strings.
From S2P Require Import Prelude CString.

Definition apostrophe : Z := 39.
Definition quotation_mark : Z := 34.
Definition exclamation_mark : Z := 33.
Definition backslash : Z := 92.

(** [_libssh2_shell_quotedsize]. *)
Definition shell_quotedsize (path : list Z) : option Z := n ← strlen path 0; Some (3 * n + 2).

Inductive quote_state := UQSTRING | SQSTRING | QSTRING.

(** What the [switch] writes before a character, and the state behind it. *)
Definition quote_prefix (st : quote_state) (c : Z) : list Z * quote_state :=
  if c =? apostrophe then
    (match st with
     | UQSTRING => [quotation_mark]
     | QSTRING => []
     | SQSTRING => [apostrophe; quotation_mark]
     end, QSTRING)
  else if c =? exclamation_mark then
    (match st with
     | UQSTRING => [backslash]
     | QSTRING => [quotation_mark; backslash]
     | SQSTRING => [apostrophe; backslash]
     end, UQSTRING)
  else
    (match st with
     | UQSTRING => [apostrophe]
     | QSTRING => [quotation_mark; apostrophe]
     | SQSTRING => []
     end, SQSTRING).

Definition quote_close (st : quote_state) : list Z :=
  match st with UQSTRING => [] | QSTRING => [quotation_mark] | SQSTRING => [apostrophe] end.

(** [buf] has [bufsize] bytes, [dst] are the bytes written so far. [*dst++ = c] is
    only possible inside the buffer. *)
Fixpoint store (bufsize : Z) (dst cs : list Z) : option (list Z) :=
  match cs with
  | [] => Some dst
  | c :: cs => if lenZ dst <? bufsize then store bufsize (dst ++ [c]) cs else None
  end.

(** The bytes [cs] after the check [dst + n >= endp], which is made when there are
    any; [inr] goes on, [inl] returns 0. *)
Definition put_checked (bufsize : Z) (dst cs : list Z) : option (list Z + list Z) :=
  if negb (lenZ cs =? 0) && (bufsize <=? lenZ dst + lenZ cs) then Some (inl dst)
  else d ← store bufsize dst cs; Some (inr d).

(** The loop; [src] is the memory from the current character on. *)
Fixpoint quote_loop (bufsize : Z) (src dst : list Z) (st : quote_state) : option (list Z + list Z * quote_state) :=
  match src with
  | [] => None
  | c :: src =>
      if negb (c =? 0) && (lenZ dst <? bufsize - 1) then
        let '(pre, st) := quote_prefix st c in
        r ← put_checked bufsize dst pre;
        match r with
        | inl d => Some (inl d)
        | inr d =>
            r ← put_checked bufsize d [c];
            match r with
            | inl d => Some (inl d)
            | inr d => quote_loop bufsize src d st
            end
        end
      else Some (inr (dst, st))
  end.

(** The return value, and what was written to [buf]; [None] is an access outside the
    buffer or the memory of [path]. *)
Definition shell_quotearg (path : list Z) (bufsize : Z) : option (Z * list Z) :=
  r ← quote_loop bufsize path [] UQSTRING;
  match r with
  | inl d => Some (0, d)
  | inr (d, st) =>
      r ← put_checked bufsize d (quote_close st);
      match r with
      | inl d => Some (0, d)
      | inr d =>
          if bufsize <=? lenZ d + 1 then Some (0, d)
          else d' ← store bufsize d [0]; Some (lenZ d, d')
      end
  end.

(** ** Theorems *)

(** *** How shells read a word *)

(** Characters that mean something else outside quotes. *)
Definition shell_special (c : Z) : bool :=
  existsb (Z.eqb c) (str "|&;<>()$`*?[#~=% " ++ [9; 10; exclamation_mark]).

(** The word that [l] is, as sh and, with [csh], also as csh reads it: without
    expansions, without what ends the word, and without a history event of csh, which
    reads [!] in quotes as well, and needs a backslash before a newline in quotes. *)
Fixpoint shell_word (csh : bool) (st : quote_state) (l : list Z) : option (list Z) :=
  match l with
  | [] => match st with UQSTRING => Some [] | _ => None end
  | c :: l =>
      match st with
      | UQSTRING =>
          if c =? apostrophe then shell_word csh SQSTRING l
          else if c =? quotation_mark then shell_word csh QSTRING l
          else if c =? backslash then
            match l with
            | [] => None
            | 10 :: l => None
            | e :: l => w ← shell_word csh UQSTRING l; Some (e :: w)
            end
          else if shell_special c then None
          else w ← shell_word csh UQSTRING l; Some (c :: w)
      | SQSTRING =>
          if c =? apostrophe then shell_word csh UQSTRING l
          else if csh && ((c =? exclamation_mark) || (c =? 10)) then None
          else w ← shell_word csh SQSTRING l; Some (c :: w)
      | QSTRING =>
          if c =? quotation_mark then shell_word csh UQSTRING l
          else if (c =? backslash) || (c =? 36) || (c =? 96) then None
          else if csh && ((c =? exclamation_mark) || (c =? 10)) then None
          else w ← shell_word csh QSTRING l; Some (c :: w)
      end
  end.

(** *** The quoted text *)

Fixpoint quoted (st : quote_state) (path : list Z) : list Z :=
  match path with
  | [] => quote_close st
  | c :: path => let '(pre, st) := quote_prefix st c in pre ++ c :: quoted st path
  end.

Definition closed_len (st : quote_state) : Z := lenZ (quote_close st).

(** At most three bytes per character. *)
Lemma quoted_len path : forall st, lenZ (quoted st path) <= 3 * lenZ path + closed_len st.
Proof.
  induction path as [|c path IH]; intros st; [unfold closed_len, lenZ; simpl; lia|].
  simpl. destruct (quote_prefix st c) as [pre st'] eqn:E. specialize (IH st').
  rewrite lenZ_app, !lenZ_cons.
  assert (lenZ pre + closed_len st' <= 2 + closed_len st).
  { unfold quote_prefix in E. destruct st; repeat case_match; simplify_eq; unfold closed_len, lenZ; simpl; lia. }
  lia.
Qed.

Lemma quoted_len_start path : lenZ (quoted UQSTRING path) <= 3 * lenZ path.
Proof. pose proof (quoted_len path UQSTRING) as H. change (closed_len UQSTRING) with 0 in H. lia. Qed.

Lemma store_ok bufsize cs : forall dst, lenZ dst + lenZ cs <= bufsize -> store bufsize dst cs = Some (dst ++ cs).
Proof.
  induction cs as [|c cs IH]; intros dst H; simpl; [by rewrite app_nil_r|].
  rewrite lenZ_cons in H. pose proof (lenZ_nonneg cs).
  destruct (Z.ltb_spec (lenZ dst) bufsize); [|lia].
  rewrite IH, <- app_assoc; [done|]. rewrite lenZ_app. unfold lenZ at 2. simpl. lia.
Qed.

Lemma put_checked_ok bufsize dst cs :
  put_checked bufsize dst cs =
  Some (if negb (lenZ cs =? 0) && (bufsize <=? lenZ dst + lenZ cs) then inl dst else inr (dst ++ cs)).
Proof.
  unfold put_checked. destruct cs as [|c cs]; [simpl; by rewrite app_nil_r|].
  destruct (Z.leb_spec bufsize (lenZ dst + lenZ (c :: cs))).
  - rewrite lenZ_cons. pose proof (lenZ_nonneg cs). destruct (Z.eqb_spec (1 + lenZ cs) 0); [lia|done].
  - rewrite andb_false_r, store_ok by lia. done.
Qed.

(** The loop writes the quoted text as long as there is room for what follows, and
    else returns 0. *)
Lemma quote_loop_ok path : forall bufsize rest dst st,
  no_nul path ->
  (lenZ dst + lenZ (quoted st path) + 2 <= bufsize -> exists st' d,
     quote_loop bufsize (path ++ 0 :: rest) dst st = Some (inr (d, st')) /\ d ++ quote_close st' = dst ++ quoted st path) /\
  (bufsize < lenZ dst + lenZ (quoted st path) + 2 ->
     (exists d, quote_loop bufsize (path ++ 0 :: rest) dst st = Some (inl d)) \/
     (exists st' d, quote_loop bufsize (path ++ 0 :: rest) dst st = Some (inr (d, st')) /\
        bufsize < lenZ d + closed_len st' + 2)).
Proof.
  induction path as [|c path IH]; intros bufsize rest dst st Hn; simpl.
  - split; [by eauto|]. intros H. right. exists st, dst. unfold closed_len. split; [done|lia].
  - apply Forall_cons in Hn as [Hc Hn]. destruct (quote_prefix st c) as [pre st'].
    rewrite (proj2 (Z.eqb_neq c 0)) by done. simpl. rewrite lenZ_app, lenZ_cons.
    pose proof (lenZ_nonneg (quoted st' path)). pose proof (lenZ_nonneg pre).
    destruct (Z.ltb_spec (lenZ dst) (bufsize - 1)); cycle 1.
    + split; [lia|]. intros _. right. exists st, dst. split; [done|].
      pose proof (lenZ_nonneg (quote_close st)). unfold closed_len. lia.
    + rewrite put_checked_ok. simpl. destruct (negb _ && _) eqn:E1.
      { apply andb_true_iff in E1 as [_ E1]. apply Z.leb_le in E1. split; [lia|]. by eauto. }
      rewrite put_checked_ok. simpl. rewrite lenZ_app. change (lenZ [c]) with 1.
      destruct (Z.leb_spec bufsize (lenZ dst + lenZ pre + 1)); [split; [lia|by eauto]|].
      destruct (IH bufsize rest ((dst ++ pre) ++ [c]) st' Hn) as [IH1 IH2].
      rewrite !lenZ_app in IH1, IH2. change (lenZ [c]) with 1 in IH1, IH2.
      split; intros Hb; [destruct IH1 as (st1 & d & E & Hd); [lia|]|apply IH2; lia].
      exists st1, d. split; [done|]. rewrite Hd, <- !app_assoc. done.
Qed.

(** [shell_quotearg] on every buffer: the quoted text when it fits with its
    terminator and one byte, 0 when it does not, never a write outside. *)
Lemma shell_quotearg_ok path rest bufsize :
  no_nul path ->
  let q := quoted UQSTRING path in
  (lenZ q + 2 <= bufsize -> shell_quotearg (path ++ 0 :: rest) bufsize = Some (lenZ q, q ++ [0])) /\
  (bufsize < lenZ q + 2 -> exists d, shell_quotearg (path ++ 0 :: rest) bufsize = Some (0, d)).
Proof.
  intros Hn q. destruct (quote_loop_ok path bufsize rest [] UQSTRING Hn) as [H1 H2].
  fold q in H1, H2. change (lenZ []) with 0 in H1, H2. unfold shell_quotearg.
  split; intros Hb.
  - destruct H1 as (st & d & E & Hd); [lia|]. simpl in Hd. rewrite E. simpl. rewrite put_checked_ok. simpl.
    assert (Hl : lenZ d + lenZ (quote_close st) = lenZ q) by (rewrite <- lenZ_app; by rewrite Hd).
    destruct (negb _ && _) eqn:E1; [apply andb_true_iff in E1 as [_ E1]; apply Z.leb_le in E1; lia|].
    rewrite Hd. destruct (Z.leb_spec bufsize (lenZ q + 1)); [lia|].
    by destruct (Z.ltb_spec (lenZ q) bufsize); [|lia].
  - destruct H2 as [[d E]|(st & d & E & Hd)]; [lia|rewrite E; simpl; by eauto|].
    rewrite E. simpl. rewrite put_checked_ok. simpl. destruct (negb _ && _); [by eauto|].
    rewrite lenZ_app. destruct (Z.leb_spec bufsize (lenZ d + lenZ (quote_close st) + 1)); [by eauto|].
    unfold closed_len in Hd. lia.
Qed.

(** *** The shell reads the path back *)

Definition no_newline (l : list Z) : Prop := Forall (fun b => b <> 10) l.

(** Behind the prefix of a character, a shell reads that character as part of the
    word. *)
Lemma shell_word_char csh st c pre st' l :
  quote_prefix st c = (pre, st') -> (csh = true -> c <> 10) ->
  shell_word csh st (pre ++ c :: l) = w ← shell_word csh st' l; Some (c :: w).
Proof.
  intros E Hc. unfold quote_prefix in E.
  destruct (Z.eqb_spec c apostrophe) as [->|Ha]; [|destruct (Z.eqb_spec c exclamation_mark) as [->|He]];
    simplify_eq.
  - destruct st; simpl; rewrite ?andb_false_r; done.
  - destruct st; done.
  - assert (Hq : shell_word csh SQSTRING (c :: l) = w ← shell_word csh SQSTRING l; Some (c :: w)).
    { simpl. rewrite (proj2 (Z.eqb_neq c apostrophe)), (proj2 (Z.eqb_neq c exclamation_mark)) by done. simpl.
      destruct csh; simpl; [rewrite (proj2 (Z.eqb_neq c 10)) by auto|]; done. }
    destruct st; done.
Qed.

Lemma shell_word_quoted csh path : forall st,
  (csh = true -> no_newline path) ->
  shell_word csh st (quoted st path) = Some path.
Proof.
  induction path as [|c path IH]; intros st Hn; [by destruct st|].
  simpl. destruct (quote_prefix st c) as [pre st'] eqn:E.
  rewrite (shell_word_char _ _ _ _ _ _ E) by (intros Hc; apply Hn in Hc; by inv Hc).
  rewrite IH; [done|]. intros Hc. apply Hn in Hc. by inv Hc.
Qed.

(** C28: the quoted path is one word that a Bourne shell reads as exactly the path, and
    a C shell too unless the path has a newline. In a buffer of
    [_libssh2_shell_quotedsize] bytes [shell_quotearg] always succeeds, with its
    terminating zero inside; in a smaller buffer it either does or returns 0, and it
    never writes outside. *)
Theorem shell_quotearg_word path rest bufsize (Hn : no_nul path) (Hne : path <> []) :
  exists n out, shell_quotearg (path ++ 0 :: rest) bufsize = Some (n, out) /\
    (shell_quotedsize (path ++ 0 :: rest) = Some (3 * lenZ path + 2)) /\
    (3 * lenZ path + 2 <= bufsize -> n <> 0) /\
    (n <> 0 -> exists q, out = q ++ [0] /\ n = lenZ q /\ lenZ out < bufsize /\
       shell_word false UQSTRING q = Some path /\ (no_newline path -> shell_word true UQSTRING q = Some path)).
Proof.
  pose proof (quoted_len_start path) as Hlen. destruct (shell_quotearg_ok path rest bufsize Hn) as [H1 H2].
  set (q := quoted UQSTRING path) in *.
  assert (Hs : shell_quotedsize (path ++ 0 :: rest) = Some (3 * lenZ path + 2)).
  { unfold shell_quotedsize. change (path ++ 0 :: rest) with ([] ++ path ++ 0 :: rest).
    by rewrite strlen_app. }
  assert (Hq : lenZ q <> 0).
  { destruct path as [|c path]; [done|]. unfold q. simpl. destruct (quote_prefix UQSTRING c) as [pre st].
    rewrite lenZ_app, lenZ_cons. pose proof (lenZ_nonneg pre). pose proof (lenZ_nonneg (quoted st path)). lia. }
  destruct (decide (lenZ q + 2 <= bufsize)) as [Hb|Hb].
  - exists (lenZ q), (q ++ [0]). rewrite H1 by done. repeat split; [done..|]. intros _. exists q.
    rewrite lenZ_app. change (lenZ [0]) with 1.
    repeat split; [lia|by apply shell_word_quoted|intros ?; by apply shell_word_quoted].
  - destruct H2 as [d E]; [lia|]. exists 0, d. rewrite E. repeat split; [done|lia|done].
Qed.

Lemma shell_quotearg_word_witness :
  exists n out, shell_quotearg (str "it's" ++ [0]) 14 = Some (n, out) /\ n = 10.
Proof.
  destruct (shell_quotearg_word (str "it's") [] 14) as (n & out & E & Hs & Hn & Hq);
    [by repeat constructor|done|].
  exists n, out. split; [done|]. assert (n <> 0) by (apply Hn; vm_compute; congruence).
  vm_compute in E. by simplify_eq.
Defined.
