(* ===== verification/Ext.v ===== *)
(** * The session with the state of one of its clients

    The functions of scp.c, userauth.c, publickey.c and session.c keep their progress in
    fields of the session that no other function uses. Such a group of fields is a
    record [X] of its own, and the functions run on the session together with it. *)

From stdpp Require Import base numbers list strings.
From S2P Require Import Prelude Codes CString KexMethods Wire Session ChannelWindow Packet Conn Comp.

Record ext (X : Type) := mk_ext {
  x_session : session;
  x_data : X
}.
#[global] Arguments mk_ext {X} _ _.
#[global] Arguments x_session {X} _.
#[global] Arguments x_data {X} _.
#[global] Instance eta_ext X : Eta (ext X) := fun e => mk_ext (x_session e) (x_data e).

Abbreviation XM X := (M (ext X)).

(** Sessions that differ in their error fields. *)
Definition err_only (s s' : session) : Prop :=
  s' = s <| err_msg := err_msg s' |> <| err_code := err_code s' |> <| err_flags := err_flags s' |>.

#[global] Instance err_only_refl : Reflexive err_only.
Proof. by intros []. Qed.
#[global] Instance err_only_trans : Transitive err_only.
Proof. unfold err_only. intros s1 s2 s3 H12 H23. rewrite H23, H12. done. Qed.

Lemma err_only_conn s s' : err_only s s' -> same_conn s s' /\ same_suspended s s'.
Proof. intros ->. done. Qed.

Section Ext.
Context {X : Type}.

Definition xlift {A} (m : CM A) : XM X A := fun e =>
  match m (x_session e) with
  | Ret a s => Ret a (mk_ext s (x_data e))
  | Fault => Fault
  | OutOfFuel => OutOfFuel
  end.

Definition xget {A} (f : X -> A) : XM X A := gets (fun e => f (x_data e)).
Definition xset (f : X -> X) : XM X unit := modify (fun e => mk_ext (x_session e) (f (x_data e))).
Definition xerror (code : Z) (msg : string) : XM X Z := xlift (error code msg).

Lemma wp_xlift {A} (m : CM A) (Q : A -> ext X -> Prop) s x :
  wp m (fun a s' => Q a (mk_ext s' x)) s -> wp (xlift m) Q (mk_ext s x).
Proof. unfold wp, xlift. simpl. by destruct (m s). Qed.

Lemma wp_xget {A} (f : X -> A) (Q : A -> ext X -> Prop) s x : Q (f x) (mk_ext s x) -> wp (xget f) Q (mk_ext s x).
Proof. done. Qed.

Lemma wp_xset f (Q : unit -> ext X -> Prop) s x : Q tt (mk_ext s (f x)) -> wp (xset f) Q (mk_ext s x).
Proof. done. Qed.

(** [_libssh2_error] changes the error fields. *)
Lemma wp_xerror code msg (Q : Z -> ext X -> Prop) s x :
  (forall s', err_only s s' -> Q code (mk_ext s' x)) -> wp (xerror code msg) Q (mk_ext s x).
Proof. intros H. apply wp_xlift. unfold wp, error, error_flags. simpl. apply H. by destruct s. Qed.
End Ext.
#[global] Arguments xerror {X} code msg%_string_scope.

(** One step of a weakest precondition over the session with a client's state. *)
Ltac x_step :=
  cbn beta iota;
  lazymatch goal with
  | |- wp (xlift _) _ _ => apply wp_xlift
  | |- wp (xget _) _ _ => apply wp_xget
  | |- wp (xset _) _ _ => apply wp_xset
  | |- wp (xerror _ _) _ _ => let s := fresh "s" in let H := fresh "He" in apply wp_xerror; intros s H
  | |- _ => wp_pure
  end.
