(* ===== verification/Blocking.v ===== *)
(** * Blocking calls (session.h, session.c, keepalive.c)

    The public functions run the internal ones through [BLOCK_ADJUST]: in
    blocking mode a call that would block waits for the socket and is made again.
    [_libssh2_wait_socket] sends keepalive messages and limits the wait; [poll] is
    an oracle. *)

From stdpp Require Import base numbers list strings.
From S2P Require Import Prelude Codes CString KexMethods Wire Session ChannelWindow Packet Conn Comp PacketSafety Transport TransportSpec TransportTrip.

Definition POLLIN : Z := 1.
Definition POLLOUT : Z := 4.

Definition set_waiting (f : wait_data -> wait_data) : CM unit :=
  modify (fun s => s <| s_waiting ::= f |>).

(** [libssh2_keepalive_config]; [keepalive_interval] is an [int]. *)
Definition keepalive_config (want_reply interval : Z) : CM unit :=
  set_waiting (fun w =>
    w <| keepalive_interval := if interval =? 1 then 2 else s32 interval |>
      <| keepalive_want_reply := if negb (want_reply =? 0) then 1 else 0 |>).

Section Blocking.
Context (transport_send : list Z -> list Z -> CM Z).

Definition keepalive_data (want_reply : Z) : list Z :=
  store_str [SSH_MSG_GLOBAL_REQUEST] (str "keepalive@libssh2.org") ++ [u8 want_reply].

(** [libssh2_keepalive_send]: its return value and [*seconds_to_next], which is
    left alone on an error. *)
Definition keepalive_send : CM (Z * Z) :=
  let! w := gets s_waiting in
  if keepalive_interval w =? 0 then ret (0, 0)
  else
    let! now := time in
    if keepalive_last_sent w + keepalive_interval w <=? now then
      let! rc := transport_send (keepalive_data (keepalive_want_reply w)) [] in
      if negb (rc =? 0) && negb (rc =? LIBSSH2_ERROR_EAGAIN) then
        error LIBSSH2_ERROR_SOCKET_SEND "Unable to send keepalive message" ;; ret (rc, 0)
      else
        set_waiting (fun w => w <| keepalive_last_sent := now |>) ;;
        ret (0, keepalive_interval w)
    else ret (0, s32 (keepalive_last_sent w - now) + keepalive_interval w).

(** The events asked for. *)
Definition poll_events (dir : Z) : Z :=
  Z.lor (if Z.land dir LIBSSH2_SESSION_BLOCK_INBOUND =? 0 then 0 else POLLIN)
        (if Z.land dir LIBSSH2_SESSION_BLOCK_OUTBOUND =? 0 then 0 else POLLOUT).

(** [poll]: the next outcome. *)
Definition poll (events timeout : Z) : CM Z := fun s =>
  match wd_poll (s_waiting s) with
  | [] => Ret 1 s
  | r :: rest => Ret r (s <| s_waiting ::= fun w => w <| wd_poll := rest |> |>)
  end.

(** How long to wait: [inl] is the error, [inr None] no limit. *)
Definition wait_limit (start_time seconds_to_next dir : Z) : CM (Z + option Z) :=
  let! w := gets s_waiting in
  let ms_to_next := if dir =? 0 then 1000 else seconds_to_next * 1000 in
  if (0 <? api_timeout w) && ((seconds_to_next =? 0) || (api_timeout w <? ms_to_next)) then
    let! now := time in
    let elapsed_ms := 1000 * (now - start_time) in
    if api_timeout w <? elapsed_ms then
      let! rc := error LIBSSH2_ERROR_TIMEOUT "API timeout expired" in ret (inl rc)
    else ret (inr (Some (api_timeout w - elapsed_ms)))
  else ret (inr (if 0 <? ms_to_next then Some ms_to_next else None)).

(** [_libssh2_wait_socket]. *)
Definition wait_socket (start_time : Z) : CM Z :=
  modify (fun s => s <| err_code := LIBSSH2_ERROR_NONE |>) ;;
  let! k := keepalive_send in
  if negb (k.1 =? 0) then ret k.1
  else
    let! dir := gets socket_block_directions in
    let! limit := wait_limit start_time k.2 dir in
    match limit with
    | inl rc => ret rc
    | inr limit =>
        let! rc := poll (poll_events dir) (default (-1) limit) in
        if rc =? 0 then error LIBSSH2_ERROR_TIMEOUT "Timed out waiting on socket"
        else if rc <? 0 then error LIBSSH2_ERROR_TIMEOUT "Error waiting on socket"
        else ret 0
    end.
End Blocking.

(** [BLOCK_ADJUST]; [lift] embeds the session's operations where the call keeps
    more state than the session. *)
Section BlockAdjust.
Context {S : Type} (lift : forall A, CM A -> M S A).
Context (transport_send : list Z -> list Z -> CM Z) (x : M S Z).

Fixpoint block_loop (fuel : nat) (entry_time : Z) : M S Z :=
  match fuel with
  | O => fun _ => OutOfFuel
  | Datatypes.S fuel =>
      let! rc := x in
      let! blocking := lift _ (gets api_block_mode) in
      if negb (rc =? LIBSSH2_ERROR_EAGAIN) || negb blocking then ret rc
      else
        let! rc := lift _ (wait_socket transport_send entry_time) in
        if rc =? 0 then block_loop fuel entry_time else ret rc
  end.

Definition block_adjust (fuel : nat) : M S Z :=
  let! entry_time := lift _ time in block_loop fuel entry_time.
End BlockAdjust.

(** [BLOCK_ADJUST] for an operation with outputs, [none] where a failed wait ends the
    call, and [BLOCK_ADJUST_ERRNO], for functions that return a pointer. *)
Section BlockAdjustOut.
Context {S A : Type} (lift : forall A, CM A -> M S A).
Context (transport_send : list Z -> list Z -> CM Z).

Fixpoint block_out_loop (x : M S (Z * A)) (none : A) (fuel : nat) (entry_time : Z) : M S (Z * A) :=
  match fuel with
  | O => fun _ => OutOfFuel
  | Datatypes.S fuel =>
      let! r := x in
      let! b := lift _ (gets api_block_mode) in
      if negb (r.1 =? LIBSSH2_ERROR_EAGAIN) || negb b then ret r
      else
        let! rc := lift _ (wait_socket transport_send entry_time) in
        if rc =? 0 then block_out_loop x none fuel entry_time else ret (rc, none)
  end.

Definition block_adjust_out (x : M S (Z * A)) (none : A) (fuel : nat) : M S (Z * A) :=
  let! entry_time := lift _ time in block_out_loop x none fuel entry_time.

Fixpoint block_errno_loop (x : M S (option A)) (fuel : nat) (entry_time : Z) : M S (option A) :=
  match fuel with
  | O => fun _ => OutOfFuel
  | Datatypes.S fuel =>
      let! r := x in
      let! b := lift _ (gets api_block_mode) in
      let! e := lift _ (gets err_code) in
      if negb b || match r with Some _ => true | None => false end || negb (e =? LIBSSH2_ERROR_EAGAIN) then ret r
      else
        let! rc := lift _ (wait_socket transport_send entry_time) in
        if rc =? 0 then block_errno_loop x fuel entry_time else ret r
  end.

Definition block_adjust_errno (x : M S (option A)) (fuel : nat) : M S (option A) :=
  let! entry_time := lift _ time in block_errno_loop x fuel entry_time.
End BlockAdjustOut.

(** ** Theorems *)

Lemma error_Ret code msg s : exists s', error code msg s = Ret code s'.
Proof. by eexists. Qed.

Lemma wp_error_any code msg (Q : Z -> session -> Prop) s : (forall s', Q code s') -> wp (error code msg) Q s.
Proof. intros H. unfold wp. destruct (error_Ret code msg s) as [s' ->]. apply H. Qed.

(** The transport's part of the state that sends. *)
Definition sender (s : session) := (s_state s, s_packet s, s_local s, s_send s).

(** What waiting relies on: from the states of [I], which speaks of the sending side only,
    sending returns, and leaves one. *)
Class SendReturns (transport_send : list Z -> list Z -> CM Z) (I : session -> Prop) : Prop := {
  send_returns : forall d d2 s, I s -> wp (transport_send d d2) (fun _ s' => I s') s;
  send_stable : forall s s', sender s' = sender s -> I s -> I s'
}.

(** A call under [BLOCK_ADJUST] that was entered at [t]: the operation, and again after
    every wait that succeeds, until it is done, the mode is not blocking, or a wait fails.
    The result is that of the last run of the operation, or of the failed wait. *)
Inductive blocked_run (transport_send : list Z -> list Z -> CM Z) (x : CM Z) (t : Z) : session -> Z -> session -> Prop :=
| Run_done s rc s' :
    x s = Ret rc s' -> rc <> LIBSSH2_ERROR_EAGAIN \/ api_block_mode s' = false ->
    blocked_run transport_send x t s rc s'
| Run_failed s s1 rc s' :
    x s = Ret LIBSSH2_ERROR_EAGAIN s1 -> api_block_mode s1 = true ->
    wait_socket transport_send t s1 = Ret rc s' -> rc <> 0 ->
    blocked_run transport_send x t s rc s'
| Run_again s s1 s2 rc s' :
    x s = Ret LIBSSH2_ERROR_EAGAIN s1 -> api_block_mode s1 = true ->
    wait_socket transport_send t s1 = Ret 0 s2 -> blocked_run transport_send x t s2 rc s' ->
    blocked_run transport_send x t s rc s'.

Section Returns.
Context (transport_send : list Z -> list Z -> CM Z) (I : session -> Prop) `{!SendReturns transport_send I}.

Lemma wp_time_any (Q : Z -> session -> Prop) s : (forall t s', sender s' = sender s -> Q t s') -> wp time Q s.
Proof. intros H. unfold wp, time. destruct (s_clock s); by apply H. Qed.

Lemma wp_error_sender code msg (Q : Z -> session -> Prop) s :
  (forall s', sender s' = sender s -> Q code s') -> wp (error code msg) Q s.
Proof. intros H. unfold wp, error, error_flags. simpl. by apply H. Qed.

Lemma keepalive_send_returns s : I s ->
  wp (keepalive_send transport_send) (fun r s' => r.1 <> LIBSSH2_ERROR_EAGAIN /\ I s') s.
Proof.
  intros Hs. unfold keepalive_send. apply wp_bind, wp_gets, wp_if; intros _; [by apply wp_ret|].
  apply wp_bind, wp_time_any. intros now s1 E1. apply (send_stable _ _ E1) in Hs. apply wp_if; intros _; [|by apply wp_ret].
  apply wp_bind. eapply wp_mono; [by apply send_returns|]. intros rc s2 H2. apply wp_if; intros E.
  - apply wp_bind, wp_error_sender. intros s3 E3. apply wp_ret. simpl. breflect. split; [done|by eapply send_stable].
  - apply wp_bind, wp_modify, wp_ret. split; [done|]. by eapply send_stable; [|exact H2].
Qed.

Lemma wait_socket_returns t s : I s ->
  wp (wait_socket transport_send t) (fun rc s' => rc <> LIBSSH2_ERROR_EAGAIN /\ I s') s.
Proof.
  intros Hs. unfold wait_socket. apply wp_bind, wp_modify, wp_bind.
  eapply wp_mono; [apply keepalive_send_returns; by eapply send_stable; [|exact Hs]|].
  intros k s1 [Hk H1]. apply wp_if; intros E; [by apply wp_ret|].
  apply wp_bind, wp_gets, wp_bind.
  apply (wp_mono _ (fun l s' => match l with inl rc => rc <> LIBSSH2_ERROR_EAGAIN | inr _ => True end /\ I s')).
  - unfold wait_limit. apply wp_bind, wp_gets, wp_if; intros _; [|by apply wp_ret].
    apply wp_bind, wp_time_any. intros now s2 E2. apply (send_stable _ _ E2) in H1. apply wp_if; intros _; [|by apply wp_ret].
    apply wp_bind, wp_error_sender. intros s3 E3. apply wp_ret. split; [done|by eapply send_stable].
  - intros [rc|limit] s2 [Hl H2]; [by apply wp_ret|]. apply wp_bind.
    assert (Hp : wp (poll (poll_events (socket_block_directions s1)) (default (-1) limit)) (fun _ s' => I s') s2).
    { unfold poll, wp. destruct (wd_poll (s_waiting s2)); [done|]. by eapply send_stable; [|exact H2]. }
    eapply wp_mono; [exact Hp|]. intros rc s3 H3.
    repeat (apply wp_if; intros _); [..|by apply wp_ret];
      apply wp_error_sender; intros s4 E4; (split; [done|by eapply send_stable]).
Qed.

(** C40: blocking calls complete. Let an operation [x] return from every state of [I],
    and let [mu] fall whenever it would have blocked and the wait for the socket
    succeeded. Then a call under [BLOCK_ADJUST] returns within as many rounds as [mu] says,
    and it is a run of [x], repeated after each successful wait until [x] is done: the
    result is that of the last run of [x], or of the wait that failed, and in
    blocking mode it is never [LIBSSH2_ERROR_EAGAIN]. *)
Theorem block_adjust_completes (x : CM Z) (mu : session -> nat) fuel s
    (Hx : forall s, I s -> wp x (fun rc s' => rc = LIBSSH2_ERROR_EAGAIN -> I s') s)
    (Hmu : forall s s1 t s2, I s -> x s = Ret LIBSSH2_ERROR_EAGAIN s1 ->
       wait_socket transport_send t s1 = Ret 0 s2 -> (mu s2 < mu s)%nat)
    (Hstart : I s) (Hfuel : forall t s1, time s = Ret t s1 -> (mu s1 < fuel)%nat) :
  exists t s1 rc s', time s = Ret t s1 /\
    block_adjust (fun _ m => m) transport_send x fuel s = Ret rc s' /\
    blocked_run transport_send x t s1 rc s' /\
    (api_block_mode s' = true -> rc <> LIBSSH2_ERROR_EAGAIN).
Proof.
  destruct (wp_Ret time (fun t s1 => time s = Ret t s1 /\ I s1) s) as (t & s1 & Et & _ & Hs).
  { unfold wp. destruct (time s) as [t s1| |] eqn:E; unfold time in E; destruct (s_clock s); try done;
      injection E as <- <-; (split; [done|]); [done|by eapply send_stable; [|exact Hstart]]. }
  specialize (Hfuel _ _ Et). exists t, s1. unfold block_adjust. rewrite (bind_Ret _ _ _ _ _ Et).
  enough (H : wp (block_loop (fun _ m => m) transport_send x fuel t) (fun rc s' =>
    blocked_run transport_send x t s1 rc s' /\ (api_block_mode s' = true -> rc <> LIBSSH2_ERROR_EAGAIN)) s1).
  { apply wp_Ret in H as (rc & s' & E & H). by exists rc, s'. }
  clear s Hstart Et. revert s1 Hs Hfuel. induction fuel as [|fuel IH]; intros s Hs Hlt; [lia|]. cbn [block_loop]. apply wp_bind.
  destruct (wp_Ret _ _ _ (Hx s Hs)) as (rc & s1 & E & Hagain). apply (wp_run _ _ _ _ _ E). apply wp_bind, wp_gets. apply wp_if; intros Eb.
  - apply wp_ret. apply orb_true_iff in Eb as [Eb|Eb]; breflect.
    + split; [|done]. apply Run_done; [done|by left].
    + split; [|congruence]. apply Run_done; [done|by right].
  - apply orb_false_iff in Eb as [Erc Eb]. breflect. subst rc. apply wp_bind.
    destruct (wp_Ret _ _ _ (wait_socket_returns t s1 (Hagain eq_refl))) as (rc & s2 & Ew & Hrc & H2). apply (wp_run _ _ _ _ _ Ew).
    apply wp_if; intros E0; breflect.
    + subst rc. specialize (Hmu _ _ _ _ Hs E Ew). eapply wp_mono; [apply IH; [done|lia]|].
      intros rc s3 [Hrun Hb]. split; [|done]. by eapply Run_again.
    + apply wp_ret. split; [|done]. by eapply Run_failed.
Qed.
End Returns.

(** *** The transport layer *)

(** States in which a packet can be sent, and the socket has at most [n] outcomes left. *)
Definition can_send_within (n : nat) (s : session) : Prop := can_send s /\ (length (s_send s) <= n)%nat.

Section Real.
Context (local_crypt : list Z -> list Z -> option (list Z * list Z)) (local_mac : Z -> list Z -> list Z).
Context (deflate : list Z -> list Z -> Z -> Z * list Z * list Z).
Context (random : session -> Z -> option (list Z)) (kex_exchange : CM Z).
Context `{!SendSuite local_crypt random}.
Abbreviation send := (transport_send local_crypt local_mac deflate random kex_exchange).

Lemma send_within n addr data data2 s : can_send_within n s ->
  wp (send addr data data2) (fun rc s' => can_send_within n s' /\
    (rc = LIBSSH2_ERROR_EAGAIN -> (length (s_send s') < length (s_send s))%nat)) s.
Proof.
  intros [Hs Hn]. destruct (wp_Ret _ _ _ (transport_send_ok local_crypt local_mac deflate random kex_exchange addr data data2 s Hs))
    as (rc & s' & E & [[_ _ _ _ _ _ _ _ _ Hk] _ _ _ _ _] & _).
  eapply wp_run; [exact E|]. destruct (send_outcomes_left _ _ _ _ _ _ _ _ _ _ _ (proj1 Hs) E). split; [split; [auto|lia]|done].
Qed.

(** Waiting may send keepalive messages. *)
#[global] Instance send_at_returns addr_of n :
  SendReturns (send_at local_crypt local_mac deflate random kex_exchange addr_of) (can_send_within n).
Proof.
  split.
  - intros d d2 s Hs. eapply wp_mono; [by apply send_within|]. by intros rc s' [? _].
  - intros s s' [= E1 E2 E3 E4]. unfold can_send_within, can_send. by rewrite E1, E2, E3, E4.
Qed.

(** Every time a send would block, an outcome of the socket has been used up. *)
Lemma send_progress addr_of n addr data data2 s s1 t s2 : can_send_within n s ->
  send addr data data2 s = Ret LIBSSH2_ERROR_EAGAIN s1 ->
  wait_socket (send_at local_crypt local_mac deflate random kex_exchange addr_of) t s1 = Ret 0 s2 ->
  (length (s_send s2) < length (s_send s))%nat.
Proof.
  intros Hs E Ew. pose proof (send_within n addr data data2 s Hs) as H. unfold wp in H. rewrite E in H. destruct H as [[H1 _] Hlt].
  specialize (Hlt eq_refl). 
  pose proof (wait_socket_returns (send_at local_crypt local_mac deflate random kex_exchange addr_of)
    (can_send_within (length (s_send s1))) t s1 (conj H1 (le_n _))) as H.
  unfold wp in H. rewrite Ew in H. destruct H as (_ & _ & ?). lia.
Qed.
End Real.

(** A blocking send of a packet that the socket takes in four pieces. *)
Lemma block_adjust_completes_witness :
  let send := transport_send xor_crypt sum_mac no_deflate zero_random (ret 0) in
  let at_0 := send_at xor_crypt sum_mac no_deflate zero_random (ret 0) (fun _ _ => 0) in
  let s := keyed_session <| api_block_mode := true |> in
  exists t s1 rc s', time s = Ret t s1 /\ block_adjust (fun _ m => m) at_0 (send 1 [94; 1] [2; 3]) 5 s = Ret rc s' /\
    blocked_run at_0 (send 1 [94; 1] [2; 3]) t s1 rc s' /\
    (api_block_mode s' = true -> rc <> LIBSSH2_ERROR_EAGAIN).
Proof.
  intros send at_0 s.
  apply (block_adjust_completes at_0 (can_send_within 4) (send 1 [94; 1] [2; 3]) (fun s => length (s_send s)) 5).
  - intros s0 Hs. eapply wp_mono; [by apply send_within; [apply _|]|]. by intros rc s' [? _].
  - intros s0 s1 t s2. apply (send_progress xor_crypt sum_mac no_deflate zero_random (ret 0)).
  - split; [exact keyed_can_send|apply le_n].
  - intros t s1 [= <- <-]. apply le_n.
Defined.

(** ** A keepalive message in the middle of a send *)

(** a blocking call whose packet is partly sent fails when a keepalive
    message falls due: [_libssh2_wait_socket] tries to send it, the transport
    layer refuses other data while the packet is on its way, and the call that
    waited ends with [LIBSSH2_ERROR_BAD_USE]. *)
Theorem keepalive_aborts_suspended_send local_crypt local_mac deflate random kex_exchange addr_of t now clock s
    (Hredirect : no_redirect (s_state s))
    (Hpending : tp_olen (s_packet s) <> 0)
    (Hother : tp_olen (s_packet s) <> lenZ (keepalive_data (keepalive_want_reply (s_waiting s))))
    (Hclock : s_clock s = now :: clock)
    (Hdue : keepalive_interval (s_waiting s) <> 0 /\
            keepalive_last_sent (s_waiting s) + keepalive_interval (s_waiting s) <= now) :
  exists s', wait_socket (send_at local_crypt local_mac deflate random kex_exchange addr_of) t s =
    Ret LIBSSH2_ERROR_BAD_USE s'.
Proof.
  destruct Hdue as [Hi Hdue]. apply Z.eqb_neq in Hi, Hpending, Hother. apply Z.leb_le in Hdue.
  cut (wp (wait_socket (send_at local_crypt local_mac deflate random kex_exchange addr_of) t)
         (fun rc _ => rc = LIBSSH2_ERROR_BAD_USE) s).
  { intros H. apply wp_Ret in H as (? & s' & E & ->). by exists s'. }
  unfold wait_socket. apply wp_bind, wp_modify, wp_bind. unfold keepalive_send. apply wp_bind, wp_gets. cbn [s_waiting upd].
  rewrite Hi. apply wp_bind. unfold time, wp at 1. cbn [s_clock upd]. rewrite Hclock, Hdue.
  apply wp_bind. unfold send_at, transport_send. apply wp_bind, wp_gets, wp_bind, wp_redirect_kex; [done|].
  cbn [Z.eqb negb]. apply wp_bind. unfold send_existing. apply wp_bind, wp_gets. cbn [s_packet upd].
  rewrite Hpending, (Z.eqb_sym (lenZ _)), Hother, orb_true_r. apply wp_ret. cbn.
  by apply wp_ret.
Qed.

Lemma keepalive_aborts_suspended_send_witness :
  let s := session_0 <| s_packet := transportpacket_0 <| tp_olen := 10 |> |> <| s_clock := [100] |>
             <| s_waiting := wait_data_0 <| keepalive_interval := 30 |> |> in
  exists s', wait_socket (send_at xor_crypt sum_mac no_deflate zero_random (ret 0) (fun _ _ => 1)) 0 s =
    Ret LIBSSH2_ERROR_BAD_USE s'.
Proof.
  apply (keepalive_aborts_suspended_send xor_crypt sum_mac no_deflate zero_random (ret 0) (fun _ _ => 1) 0 100 []).
  - by left.
  - by vm_compute.
  - by vm_compute.
  - reflexivity.
  - by vm_compute.
Defined.
