(* ===== verification/SftpCodec.v ===== *)
(** * SFTP: message numbers and file attributes (sftp.c, libssh2_sftp.h)

    [sftp_attrsize], [sftp_attr2bin] and [sftp_bin2attr], with what they write and
    read: a block of attributes has the size the requests reserve for it, and is
    read back as it was written. *)

From stdpp Require Import base numbers list.
From S2P Require Import Prelude Codes Wire.

(** ** Constants *)

Definition SSH_FXP_INIT : Z := 1.
Definition SSH_FXP_VERSION : Z := 2.
Definition SSH_FXP_OPEN : Z := 3.
Definition SSH_FXP_CLOSE : Z := 4.
Definition SSH_FXP_READ : Z := 5.
Definition SSH_FXP_WRITE : Z := 6.
Definition SSH_FXP_LSTAT : Z := 7.
Definition SSH_FXP_FSTAT : Z := 8.
Definition SSH_FXP_SETSTAT : Z := 9.
Definition SSH_FXP_FSETSTAT : Z := 10.
Definition SSH_FXP_OPENDIR : Z := 11.
Definition SSH_FXP_READDIR : Z := 12.
Definition SSH_FXP_REMOVE : Z := 13.
Definition SSH_FXP_MKDIR : Z := 14.
Definition SSH_FXP_RMDIR : Z := 15.
Definition SSH_FXP_REALPATH : Z := 16.
Definition SSH_FXP_STAT : Z := 17.
Definition SSH_FXP_RENAME : Z := 18.
Definition SSH_FXP_READLINK : Z := 19.
Definition SSH_FXP_SYMLINK : Z := 20.
Definition SSH_FXP_STATUS : Z := 101.
Definition SSH_FXP_HANDLE : Z := 102.
Definition SSH_FXP_DATA : Z := 103.
Definition SSH_FXP_NAME : Z := 104.
Definition SSH_FXP_ATTRS : Z := 105.
Definition SSH_FXP_EXTENDED : Z := 200.
Definition SSH_FXP_EXTENDED_REPLY : Z := 201.

Definition LIBSSH2_SFTP_ATTR_PFILETYPE_FILE : Z := 32768.
Definition LIBSSH2_SFTP_ATTR_PFILETYPE_DIR : Z := 16384.
Definition SSH_FXE_STATVFS_ST_RDONLY : Z := 1.
Definition SSH_FXE_STATVFS_ST_NOSUID : Z := 2.
Definition LIBSSH2_SFTP_PACKET_MAXLEN : Z := 256 * 1024.

Definition LIBSSH2_SFTP_VERSION : Z := 3.
Definition LIBSSH2_SFTP_OPENFILE : Z := 0.
Definition LIBSSH2_SFTP_STAT : Z := 0.
Definition LIBSSH2_SFTP_LSTAT : Z := 1.
Definition LIBSSH2_SFTP_SETSTAT : Z := 2.
Definition LIBSSH2_SFTP_SYMLINK : Z := 0.
Definition LIBSSH2_SFTP_READLINK : Z := 1.
Definition LIBSSH2_SFTP_REALPATH : Z := 2.
Definition LIBSSH2_SFTP_DEFAULT_MODE : Z := -1.
Definition LIBSSH2_SFTP_ATTR_SIZE : Z := 1.
Definition LIBSSH2_SFTP_ATTR_UIDGID : Z := 2.
Definition LIBSSH2_SFTP_ATTR_PERMISSIONS : Z := 4.
Definition LIBSSH2_SFTP_ATTR_ACMODTIME : Z := 8.
Definition LIBSSH2_SFTP_ATTR_EXTENDED : Z := 2147483648.
Definition LIBSSH2_SFTP_ST_RDONLY : Z := 1.
Definition LIBSSH2_SFTP_ST_NOSUID : Z := 2.
Definition LIBSSH2_FX_OK : Z := 0.
Definition LIBSSH2_FX_EOF : Z := 1.
Definition LIBSSH2_FX_OP_UNSUPPORTED : Z := 8.
Definition LIBSSH2_FX_FILE_ALREADY_EXISTS : Z := 11.

Definition MAX_SFTP_OUTGOING_SIZE : Z := 30000.
Definition MAX_SFTP_READ_SIZE : Z := 30000.
Definition SFTP_HANDLE_MAXLEN : Z := 256.

(** ** Attributes *)

Record LIBSSH2_SFTP_ATTRIBUTES := mk_attributes {
  at_flags : Z;
  at_filesize : Z;
  at_uid : Z;
  at_gid : Z;
  at_permissions : Z;
  at_atime : Z;
  at_mtime : Z
}.
#[global] Instance eta_attributes : Eta LIBSSH2_SFTP_ATTRIBUTES := fun a =>
  mk_attributes (at_flags a) (at_filesize a) (at_uid a) (at_gid a) (at_permissions a)
    (at_atime a) (at_mtime a).

Definition attributes_0 : LIBSSH2_SFTP_ATTRIBUTES := mk_attributes 0 0 0 0 0 0 0.

Definition has (flags bit : Z) : bool := negb (Z.land flags bit =? 0).

Definition sftp_attrsize (flags : Z) : Z :=
  4 + (if has flags LIBSSH2_SFTP_ATTR_SIZE then 8 else 0) +
      (if has flags LIBSSH2_SFTP_ATTR_UIDGID then 8 else 0) +
      (if has flags LIBSSH2_SFTP_ATTR_PERMISSIONS then 4 else 0) +
      (if has flags LIBSSH2_SFTP_ATTR_ACMODTIME then 8 else 0).

Definition store_u64 (out : list Z) (value : Z) : list Z :=
  let msl := u32 (Z.shiftr value 32) in
  out ++ [Z.land (Z.shiftr msl 24) 255; Z.land (Z.shiftr msl 16) 255;
          Z.land (Z.shiftr msl 8) 255; Z.land msl 255;
          Z.land (Z.shiftr value 24) 255; Z.land (Z.shiftr value 16) 255;
          Z.land (Z.shiftr value 8) 255; Z.land value 255].

Definition attr_mask : Z :=
  Z.lor (Z.lor (Z.lor LIBSSH2_SFTP_ATTR_SIZE LIBSSH2_SFTP_ATTR_UIDGID)
               LIBSSH2_SFTP_ATTR_PERMISSIONS) LIBSSH2_SFTP_ATTR_ACMODTIME.

(** What [sftp_attr2bin] writes at [p]; the C function returns its length. *)
Definition sftp_attr2bin (attrs : option LIBSSH2_SFTP_ATTRIBUTES) : list Z :=
  match attrs with
  | None => htonu32 0
  | Some a =>
      let s := store_u32 [] (Z.land (at_flags a) attr_mask) in
      let s := if has (at_flags a) LIBSSH2_SFTP_ATTR_SIZE then store_u64 s (at_filesize a) else s in
      let s := if has (at_flags a) LIBSSH2_SFTP_ATTR_UIDGID
               then store_u32 (store_u32 s (at_uid a)) (at_gid a) else s in
      let s := if has (at_flags a) LIBSSH2_SFTP_ATTR_PERMISSIONS
               then store_u32 s (at_permissions a) else s in
      if has (at_flags a) LIBSSH2_SFTP_ATTR_ACMODTIME
      then store_u32 (store_u32 s (at_atime a)) (at_mtime a) else s
  end.

(** The optional parts of [sftp_bin2attr]: the return value of the getters that
    failed or 0, the attributes and the reader. *)
Definition attr_reader : Type :=
  LIBSSH2_SFTP_ATTRIBUTES -> string_buf -> option (Z * LIBSSH2_SFTP_ATTRIBUTES * string_buf).

Definition read_size : attr_reader := fun a buf =>
  '(rc, v, buf) ← get_u64 buf (at_filesize a); Some (rc, a <| at_filesize := v |>, buf).

(** Two numbers in a row; nothing is stored unless both are there. *)
Definition read_pair (store : Z -> Z -> LIBSSH2_SFTP_ATTRIBUTES -> LIBSSH2_SFTP_ATTRIBUTES) :
    attr_reader := fun a buf =>
  '(rc, x, buf) ← get_u32 buf 0;
  if negb (rc =? 0) then Some (rc, a, buf)
  else
    '(rc, y, buf) ← get_u32 buf 0;
    if negb (rc =? 0) then Some (rc, a, buf) else Some (0, store x y a, buf).

Definition read_uidgid : attr_reader :=
  read_pair (fun x y a => a <| at_uid := x |> <| at_gid := y |>).

Definition read_permissions : attr_reader := fun a buf =>
  '(rc, v, buf) ← get_u32 buf 0;
  if negb (rc =? 0) then Some (rc, a, buf) else Some (0, a <| at_permissions := v |>, buf).

Definition read_times : attr_reader :=
  read_pair (fun x y a => a <| at_atime := x |> <| at_mtime := y |>).

(** A part is read when its flag is set; the block ends where the reader stands. *)
Fixpoint read_parts (parts : list (Z * attr_reader)) (a : LIBSSH2_SFTP_ATTRIBUTES) (buf : string_buf) :
    option (Z * LIBSSH2_SFTP_ATTRIBUTES) :=
  match parts with
  | [] => Some (sb_ptr buf, a)
  | (bit, rd) :: parts =>
      if has (at_flags a) bit then
        '(rc, a, buf) ← rd a buf;
        if negb (rc =? 0) then Some (LIBSSH2_ERROR_BUFFER_TOO_SMALL, a) else read_parts parts a buf
      else read_parts parts a buf
  end.

Definition attr_parts : list (Z * attr_reader) :=
  [(LIBSSH2_SFTP_ATTR_SIZE, read_size); (LIBSSH2_SFTP_ATTR_UIDGID, read_uidgid);
   (LIBSSH2_SFTP_ATTR_PERMISSIONS, read_permissions); (LIBSSH2_SFTP_ATTR_ACMODTIME, read_times)].

(** [sftp_bin2attr]: the length of the block or an error, and the attributes.
    [p] is the memory from the pointer on. *)
Definition sftp_bin2attr (attrs : LIBSSH2_SFTP_ATTRIBUTES) (p : list Z) (data_len : Z) :
    option (Z * LIBSSH2_SFTP_ATTRIBUTES) :=
  '(rc, flags, buf) ← get_u32 (mk_string_buf p 0 data_len) 0;
  if negb (rc =? 0) then Some (LIBSSH2_ERROR_BUFFER_TOO_SMALL, attrs)
  else read_parts attr_parts (attrs <| at_flags := flags |>) buf.

(** ** Size *)

Lemma lenZ_store_u32 out v : lenZ (store_u32 out v) = lenZ out + 4.
Proof. unfold store_u32. by rewrite lenZ_app, lenZ_htonu32. Qed.

Lemma lenZ_store_u64 out v : lenZ (store_u64 out v) = lenZ out + 8.
Proof. unfold store_u64. rewrite lenZ_app. done. Qed.

Lemma attr2bin_size a : lenZ (sftp_attr2bin (Some a)) = sftp_attrsize (at_flags a).
Proof.
  unfold sftp_attr2bin, sftp_attrsize. cbn zeta.
  repeat match goal with |- context [has (at_flags a) ?b] => destruct (has (at_flags a) b) end;
    rewrite ?lenZ_store_u32, ?lenZ_store_u64, ?lenZ_store_u32; reflexivity.
Qed.

(** ** Safety *)

Definition room (buf : string_buf) : Z := sb_len buf - sb_ptr buf.

(** [buf'] is [buf] moved on by [n]. *)
Definition moved (buf : string_buf) (n : Z) (buf' : string_buf) : Prop :=
  sb_ok buf' /\ sb_len buf' = sb_len buf /\ sb_ptr buf' = sb_ptr buf + n.

Lemma get_u32_cases buf out :
  sb_ok buf ->
  (4 <= room buf /\ exists v, get_u32 buf out = Some (0, v, advance buf 4) /\ moved buf 4 (advance buf 4)) \/
  (room buf < 4 /\ get_u32 buf out = Some (-1, out, buf)).
Proof.
  intros Hok. pose proof Hok as [? ? ?]. unfold get_u32, room. destruct (check_length buf 4) eqn:E; simpl.
  - apply check_length_spec in E; [|done]. left. split; [done|].
    destruct (ntohu32_in (sb_data buf) (sb_ptr buf)) as [v ->]; [lia..|]. exists v. split; [done|].
    split_and!; [apply advance_ok; [done|lia]|done|simpl; lia].
  - apply check_length_false in E; [|done]. right. by split.
Qed.

Lemma get_u64_cases buf out :
  sb_ok buf ->
  (8 <= room buf /\ exists v, get_u64 buf out = Some (0, v, advance buf 8) /\ moved buf 8 (advance buf 8)) \/
  (room buf < 8 /\ get_u64 buf out = Some (-1, out, buf)).
Proof.
  intros Hok. pose proof Hok as [? ? ?]. unfold get_u64, room. destruct (check_length buf 8) eqn:E; simpl.
  - apply check_length_spec in E; [|done]. left. split; [done|].
    destruct (ntohu64_in (sb_data buf) (sb_ptr buf)) as [v ->]; [lia..|]. exists v. split; [done|].
    split_and!; [apply advance_ok; [done|lia]|done|simpl; lia].
  - apply check_length_false in E; [|done]. right. by split.
Qed.

(** A part of [n] bytes: it is read when it is there, and leaves the flags alone. *)
Definition part_ok (n : Z) (rd : attr_reader) : Prop := forall a buf, sb_ok buf ->
  exists rc a' buf', rd a buf = Some (rc, a', buf') /\ at_flags a' = at_flags a /\
    ((rc = 0 /\ n <= room buf /\ moved buf n buf') \/ (rc = -1 /\ room buf < n)).

Lemma read_size_ok : part_ok 8 read_size.
Proof.
  intros a buf Hok. unfold read_size.
  destruct (get_u64_cases buf (at_filesize a) Hok) as [(? & v & -> & ?)|(? & ->)]; simpl; do 3 eexists; eauto 10.
Qed.

Lemma read_permissions_ok : part_ok 4 read_permissions.
Proof.
  intros a buf Hok. unfold read_permissions.
  destruct (get_u32_cases buf 0 Hok) as [(? & v & -> & ?)|(? & ->)]; simpl; do 3 eexists; eauto 10.
Qed.

Lemma read_pair_ok store :
  (forall x y a, at_flags (store x y a) = at_flags a) -> part_ok 8 (read_pair store).
Proof.
  intros Hs a buf Hok. unfold read_pair.
  destruct (get_u32_cases buf 0 Hok) as [(? & x & -> & (? & Hl & Hp))|(? & ->)]; simpl.
  2: { do 3 eexists. split; [done|]. split; [done|]. right. split; [done|lia]. }
  destruct (get_u32_cases (advance buf 4) 0) as [(? & y & -> & (? & Hl2 & Hp2))|(? & ->)]; [done|..]; simpl;
    unfold room in *; do 3 eexists; (split; [done|]).
  - split; [done|]. left. split_and!; [done|lia|]. split_and!; [done|lia|lia].
  - split; [done|]. right. split; [done|lia].
Qed.

Definition parts_size (flags : Z) (sizes : list (Z * Z)) : Z :=
  fold_right (fun x n => (if has flags x.1 then x.2 else 0) + n) 0 sizes.

Lemma read_parts_ok parts sizes a buf :
  Forall2 (fun x y => x.1 = y.1 /\ 0 <= y.2 /\ part_ok y.2 x.2) parts sizes -> sb_ok buf ->
  exists rc a', read_parts parts a buf = Some (rc, a') /\ at_flags a' = at_flags a /\
    ((rc = sb_ptr buf + parts_size (at_flags a) sizes /\ rc <= sb_len buf) \/
     (rc = LIBSSH2_ERROR_BUFFER_TOO_SMALL /\ room buf < parts_size (at_flags a) sizes)).
Proof.
  intros H. revert a buf. induction H as [|[bit rd] [bit' n] parts sizes (Hb & Hn & Hrd) H IH]; intros a buf Hok; simpl.
  - pose proof Hok as [? ? ?]. do 2 eexists. split; [done|]. split; [done|]. left. lia.
  - simpl in Hb, Hn, Hrd. subst bit'. assert (Hnn : 0 <= parts_size (at_flags a) sizes).
    { clear -H. induction H as [|x y l k (? & ? & ?) H IH]; simpl; [lia|]. destruct (has _ _); lia. }
    destruct (has (at_flags a) bit); simpl; [|destruct (IH a buf Hok) as (rc & a' & -> & ? & ?); eauto].
    destruct (Hrd a buf Hok) as (rc & a' & buf' & -> & Hf & Hc). simpl.
    destruct Hc as [(-> & Hle & Hok' & Hl & Hp)|(-> & Hlt)]; simpl.
    + destruct (IH a' buf' Hok') as (rc' & a'' & -> & Hf' & Hc'). do 2 eexists. split; [done|].
      rewrite Hf in *. split; [congruence|]. unfold room in *. lia.
    + do 2 eexists. split; [done|]. split; [done|]. right. split; [done|lia].
Qed.

(** Reading a block of attributes is memory safe and exact. For every
    input [sftp_bin2attr] reads within the [data_len] bytes it is given, and
    either consumes exactly the size [sftp_attrsize] gives for the flags it found,
    or reports that the block is too small, exactly when it is. *)
Lemma bin2attr_exact attrs p data_len
    (Hlen : 0 <= data_len <= lenZ p) (Hsz : data_len < 2 ^ 64) :
  exists rc a, sftp_bin2attr attrs p data_len = Some (rc, a) /\
    ((rc = sftp_attrsize (at_flags a) /\ rc <= data_len) \/
     (rc = LIBSSH2_ERROR_BUFFER_TOO_SMALL /\ (data_len < 4 \/ data_len < sftp_attrsize (at_flags a)))).
Proof.
  unfold sftp_bin2attr. assert (Hok : sb_ok (mk_string_buf p 0 data_len)) by (split; simpl; lia).
  destruct (get_u32_cases _ 0 Hok) as [(? & v & -> & (Hok' & Hl & Hp))|(Hlt & ->)];
    cbn [mbind option_bind Z.eqb negb].
  2: { do 2 eexists. split; [done|]. right. split; [done|]. unfold room in Hlt. simpl in Hlt. lia. }
  destruct (read_parts_ok attr_parts
    [(LIBSSH2_SFTP_ATTR_SIZE, 8); (LIBSSH2_SFTP_ATTR_UIDGID, 8); (LIBSSH2_SFTP_ATTR_PERMISSIONS, 4);
     (LIBSSH2_SFTP_ATTR_ACMODTIME, 8)] (attrs <| at_flags := v |>) (advance (mk_string_buf p 0 data_len) 4))
    as (rc & a & -> & Hf & Hc); [|done|].
  - repeat constructor; simpl; try lia;
      [apply read_size_ok|apply read_pair_ok; done|apply read_permissions_ok|apply read_pair_ok; done].
  - do 2 eexists. split; [done|]. rewrite <- Hf in Hc. unfold parts_size in Hc. simpl in Hc.
    unfold sftp_attrsize, room in *. simpl in *. lia.
Qed.

(** ** Round trip *)

Lemma byte_u32 v k : 0 <= k <= 24 -> Z.land (Z.shiftr (u32 v) k) 255 = Z.land (Z.shiftr v k) 255.
Proof.
  intros Hk. apply Z.bits_inj'. intros n Hn. change 255 with (Z.ones 8).
  rewrite !Z.land_spec, !Z.shiftr_spec by lia. destruct (decide (n < 8)).
  - unfold u32. by rewrite Z.mod_pow2_bits_low by lia.
  - by rewrite !Z.ones_spec_high, !andb_false_r by lia.
Qed.

Lemma htonu32_u32 v : htonu32 (u32 v) = htonu32 v.
Proof.
  pose proof (byte_u32 v 0 ltac:(lia)) as H. rewrite !Z.shiftr_0_r in H.
  unfold htonu32. by rewrite H, !byte_u32 by lia.
Qed.

Lemma store_u64_words out v : store_u64 out v = out ++ htonu32 (u32 (Z.shiftr v 32)) ++ htonu32 (u32 v).
Proof. by rewrite (htonu32_u32 v). Qed.

Lemma u64_words v :
  0 <= v < 2 ^ 64 -> Z.lor (u64 (Z.shiftl (u32 (Z.shiftr v 32)) 32)) (u32 v) = v.
Proof.
  intros H. apply Z.bits_inj'. intros n Hn. unfold u64, u32. rewrite Z.lor_spec.
  destruct (decide (n < 32)).
  - rewrite (Z.mod_pow2_bits_low _ 64), Z.shiftl_spec_low, Z.mod_pow2_bits_low by lia. done.
  - rewrite (Z.mod_pow2_bits_high v 32), orb_false_r by lia. destruct (decide (n < 64)).
    + rewrite Z.mod_pow2_bits_low, Z.shiftl_spec, Z.mod_pow2_bits_low, Z.shiftr_spec by lia. f_equal. lia.
    + rewrite Z.mod_pow2_bits_high by lia. symmetry. rewrite <- (Z.mod_small v (2 ^ 64)) by lia.
      by rewrite Z.mod_pow2_bits_high by lia.
Qed.

Lemma ntohu64_store a v c : 0 <= v < 2 ^ 64 -> ntohu64 (a ++ store_u64 [] v ++ c) (lenZ a) = Some v.
Proof.
  intros H. rewrite store_u64_words, app_nil_l. unfold ntohu64.
  rewrite <- (app_assoc _ _ c). rewrite ntohu32_htonu32 by apply u32_range. cbn [mbind option_bind].
  replace (lenZ a + 4) with (lenZ (a ++ htonu32 (u32 (Z.shiftr v 32)))) by (by rewrite lenZ_app, lenZ_htonu32).
  rewrite (app_assoc a). rewrite ntohu32_htonu32 by apply u32_range. cbn [mbind option_bind]. by rewrite u64_words.
Qed.

Lemma reader_at_advance a l c n : n = lenZ l -> advance (reader_at a l c) n = reader_at (a ++ l) [] c.
Proof.
  intros ->. unfold advance, reader_at. rewrite <- app_assoc, (lenZ_app a l), Z.add_comm. done.
Qed.

Lemma get_u64_at a v c out :
  0 <= v < 2 ^ 64 -> lenZ (a ++ store_u64 [] v ++ c) < 2 ^ 64 ->
  get_u64 (reader_at a (store_u64 [] v) c) out = Some (0, v, reader_at (a ++ store_u64 [] v) [] c).
Proof.
  intros Hv Hsz. unfold get_u64. pose proof (lenZ_nonneg c). pose proof (lenZ_store_u64 [] v) as Hl.
  change (lenZ (@nil Z)) with 0 in Hl. unfold reader_at at 1. rewrite check_length_at by lia.
  cbn [negb]. pose proof (ntohu64_store a v c Hv) as Hn.
  change (ntohu64 (sb_data (reader_at a (store_u64 [] v) c)) (sb_ptr (reader_at a (store_u64 [] v) c)) = Some v) in Hn.
  rewrite Hn. cbn [mbind option_bind]. by rewrite reader_at_advance by done.
Qed.

(** What reading the block of [a] makes of [a0]. *)
Definition merged (a0 a : LIBSSH2_SFTP_ATTRIBUTES) : LIBSSH2_SFTP_ATTRIBUTES :=
  let h := has (at_flags a) in
  mk_attributes (Z.land (at_flags a) attr_mask)
    (if h LIBSSH2_SFTP_ATTR_SIZE then at_filesize a else at_filesize a0)
    (if h LIBSSH2_SFTP_ATTR_UIDGID then at_uid a else at_uid a0)
    (if h LIBSSH2_SFTP_ATTR_UIDGID then at_gid a else at_gid a0)
    (if h LIBSSH2_SFTP_ATTR_PERMISSIONS then at_permissions a else at_permissions a0)
    (if h LIBSSH2_SFTP_ATTR_ACMODTIME then at_atime a else at_atime a0)
    (if h LIBSSH2_SFTP_ATTR_ACMODTIME then at_mtime a else at_mtime a0).

(** The fields fit the wire format. *)
Record attr_ok (a : LIBSSH2_SFTP_ATTRIBUTES) : Prop := {
  ok_size : 0 <= at_filesize a < 2 ^ 64;
  ok_uid : 0 <= at_uid a < 2 ^ 32;
  ok_gid : 0 <= at_gid a < 2 ^ 32;
  ok_permissions : 0 <= at_permissions a < 2 ^ 32;
  ok_atime : 0 <= at_atime a < 2 ^ 32;
  ok_mtime : 0 <= at_mtime a < 2 ^ 32
}.

(** A part [b] of the block, read by [rd] when it is there. *)
Lemma read_part_at h bit rd parts a f pre b c :
  has (at_flags a) bit = h ->
  (h = true -> rd a (reader_at pre b c) = Some (0, f a, reader_at (pre ++ b) [] c)) ->
  read_parts ((bit, rd) :: parts) a (reader_at pre [] ((if h then b else []) ++ c)) =
  read_parts parts (if h then f a else a) (reader_at (pre ++ if h then b else []) [] c).
Proof.
  intros H Hrd. cbn [read_parts]. rewrite H. destruct h; [|by rewrite app_nil_r].
  change (reader_at pre [] (b ++ c)) with (reader_at pre b c). by rewrite Hrd.
Qed.

Lemma reader_at_nil a l c : reader_at a [] (l ++ c) = reader_at a l c.
Proof. done. Qed.

Lemma has_mask flags bit : Z.land attr_mask bit = bit -> has (Z.land flags attr_mask) bit = has flags bit.
Proof. intros H. unfold has. by rewrite <- Z.land_assoc, H. Qed.

(** The block as a concatenation. *)
Lemma attr2bin_parts a :
  sftp_attr2bin (Some a) =
  htonu32 (u32 (Z.land (at_flags a) attr_mask)) ++
  (if has (at_flags a) LIBSSH2_SFTP_ATTR_SIZE then store_u64 [] (at_filesize a) else []) ++
  (if has (at_flags a) LIBSSH2_SFTP_ATTR_UIDGID then htonu32 (u32 (at_uid a)) ++ htonu32 (u32 (at_gid a)) else []) ++
  (if has (at_flags a) LIBSSH2_SFTP_ATTR_PERMISSIONS then htonu32 (u32 (at_permissions a)) else []) ++
  (if has (at_flags a) LIBSSH2_SFTP_ATTR_ACMODTIME then htonu32 (u32 (at_atime a)) ++ htonu32 (u32 (at_mtime a)) else []).
Proof.
  unfold sftp_attr2bin. cbn zeta.
  repeat match goal with |- context [has (at_flags a) ?b] => destruct (has (at_flags a) b) end;
    rewrite ?store_u64_words; unfold store_u32; rewrite ?app_nil_l, ?app_nil_r, <- ?app_assoc; reflexivity.
Qed.

Lemma read_size_at a0 v pre c :
  0 <= v < 2 ^ 64 -> lenZ (pre ++ store_u64 [] v ++ c) < 2 ^ 64 ->
  read_size a0 (reader_at pre (store_u64 [] v) c) =
    Some (0, a0 <| at_filesize := v |>, reader_at (pre ++ store_u64 [] v) [] c).
Proof. intros. unfold read_size. by rewrite get_u64_at. Qed.

Lemma read_permissions_at a0 v pre c :
  0 <= v < 2 ^ 32 -> lenZ (pre ++ htonu32 v ++ c) < 2 ^ 64 ->
  read_permissions a0 (reader_at pre (htonu32 v) c) =
    Some (0, a0 <| at_permissions := v |>, reader_at (pre ++ htonu32 v) [] c).
Proof. intros. unfold read_permissions. by rewrite get_u32_at. Qed.

Lemma read_pair_at store a0 x y pre c :
  0 <= x < 2 ^ 32 -> 0 <= y < 2 ^ 32 -> lenZ (pre ++ (htonu32 x ++ htonu32 y) ++ c) < 2 ^ 64 ->
  read_pair store a0 (reader_at pre (htonu32 x ++ htonu32 y) c) =
    Some (0, store x y a0, reader_at (pre ++ htonu32 x ++ htonu32 y) [] c).
Proof.
  intros Hx Hy Hsz. unfold read_pair.
  replace (reader_at pre (htonu32 x ++ htonu32 y) c) with (reader_at pre (htonu32 x) (htonu32 y ++ c))
    by (unfold reader_at; by rewrite <- (app_assoc (htonu32 x))).
  rewrite <- app_assoc in Hsz. rewrite get_u32_at by done. cbn [mbind option_bind Z.eqb negb].
  rewrite reader_at_nil, get_u32_at by (by rewrite <- ?app_assoc). cbn [mbind option_bind Z.eqb negb].
  by rewrite <- app_assoc.
Qed.

(** Attributes are read back as they were written: what [sftp_attr2bin] writes
    for [a], followed by anything, is read by [sftp_bin2attr] as a block of
    [sftp_attrsize] bytes; the fields [a] has come from it, the others keep their
    value. *)
Lemma attr_roundtrip a0 a c (Ha : attr_ok a)
    (Hsz : lenZ (sftp_attr2bin (Some a) ++ c) < 2 ^ 64) :
  sftp_bin2attr a0 (sftp_attr2bin (Some a) ++ c) (lenZ (sftp_attr2bin (Some a) ++ c)) =
  Some (sftp_attrsize (at_flags a), merged a0 a).
Proof.
  assert (Hm : u32 (Z.land (at_flags a) attr_mask) = Z.land (at_flags a) attr_mask).
  { apply u32_small. change attr_mask with (Z.ones 4). rewrite Z.land_ones by lia.
    pose proof (Z.mod_pos_bound (at_flags a) (2 ^ 4)). lia. }
  pose proof Ha as [? ? ? ? ? ?]. rewrite <- (attr2bin_size a). revert Hsz.
  rewrite attr2bin_parts, Hm, !u32_small by lia. set (m := Z.land (at_flags a) attr_mask) in *.
  set (h1 := has (at_flags a) LIBSSH2_SFTP_ATTR_SIZE). set (h2 := has (at_flags a) LIBSSH2_SFTP_ATTR_UIDGID).
  set (h3 := has (at_flags a) LIBSSH2_SFTP_ATTR_PERMISSIONS).
  set (h4 := has (at_flags a) LIBSSH2_SFTP_ATTR_ACMODTIME).
  rewrite <- !app_assoc. intros Hsz. unfold sftp_bin2attr.
  match goal with |- context [mk_string_buf (_ ++ ?r) 0 _] =>
    change (mk_string_buf (htonu32 m ++ r) 0 (lenZ (htonu32 m ++ r))) with (reader_at [] (htonu32 m) r) end.
  rewrite get_u32_at by (first [by rewrite app_nil_l | rewrite <- Hm; apply u32_range]). cbn [mbind option_bind Z.eqb negb].
  unfold attr_parts. rewrite !lenZ_app in Hsz. rewrite (app_nil_l (htonu32 m)).
  assert (Hf : forall bit, Z.land attr_mask bit = bit -> has m bit = has (at_flags a) bit) by apply has_mask.
  rewrite (read_part_at h1 _ _ _ _ (fun a0 => a0 <| at_filesize := at_filesize a |>));
    [|by apply Hf|intros E; rewrite E in Hsz; apply read_size_at; [done|rewrite !lenZ_app; lia]].
  rewrite (read_part_at h2 _ _ _ _ (fun a0 => a0 <| at_uid := at_uid a |> <| at_gid := at_gid a |>));
    [|destruct h1; by apply Hf
     |intros E; rewrite E in Hsz; apply read_pair_at; [done|done|rewrite !lenZ_app in *; lia]].
  rewrite (read_part_at h3 _ _ _ _ (fun a0 => a0 <| at_permissions := at_permissions a |>));
    [|destruct h1, h2; by apply Hf
     |intros E; rewrite E in Hsz; apply read_permissions_at; [done|rewrite !lenZ_app in *; lia]].
  rewrite (read_part_at h4 _ _ _ _ (fun a0 => a0 <| at_atime := at_atime a |> <| at_mtime := at_mtime a |>));
    [|destruct h1, h2, h3; by apply Hf
     |intros E; rewrite E in Hsz; apply read_pair_at; [done|done|rewrite !lenZ_app in *; lia]].
  cbn [read_parts]. unfold merged. fold m h1 h2 h3 h4.
  f_equal. f_equal; [|by destruct h1, h2, h3, h4]. unfold reader_at. cbn [sb_ptr]. by rewrite <- !app_assoc.
Qed.
