(* ===== verification/Sftp.v ===== *)
(** * SFTP: the packet layer (sftp.c, sftp.h)

    An SFTP session runs over a channel. [sftp_packet_read] cuts the channel's
    byte stream into packets, [sftp_packet_add] queues them, [sftp_packet_ask],
    [_require] and [_requirev] hand over the answer to a request by its number;
    answers to requests that were given up ("zombies") are dropped.

    The state is the session's with the [LIBSSH2_SFTP] object and its handles. The
    nodes of the lists are part of the objects that own them; packets and messages
    are blocks of the session's heap. *)

From stdpp Require Import base numbers list gmap strings.
From S2P Require Import Prelude Codes CString KexMethods Wire Session ChannelWindow Packet Conn Comp ChannelIO Blocking SftpCodec.

(** [LIBSSH2_SFTP_PACKET]. *)
Record sftp_packet := mk_sftp_packet {
  sp_request_id : Z;
  sp_data : ptr;
  sp_data_len : Z
}.

(** [struct sftp_pipeline_chunk]. *)
Record sftp_pipeline_chunk := mk_chunk {
  ck_offset : Z;
  ck_len : Z;
  ck_sent : Z;
  ck_lefttosend : Z;
  ck_request_id : Z;
  ck_packet : list Z
}.
#[global] Instance eta_chunk : Eta sftp_pipeline_chunk := fun c =>
  mk_chunk (ck_offset c) (ck_len c) (ck_sent c) (ck_lefttosend c) (ck_request_id c) (ck_packet c).

Record file_data := mk_file_data {
  fd_offset : Z;
  fd_offset_sent : Z;
  fd_acked : Z;
  fd_data : option ptr;
  fd_data_len : Z;
  fd_data_left : Z;
  fd_eof : bool
}.
#[global] Instance eta_file_data : Eta file_data := fun f =>
  mk_file_data (fd_offset f) (fd_offset_sent f) (fd_acked f) (fd_data f) (fd_data_len f)
    (fd_data_left f) (fd_eof f).

(** [next_name] is its distance from the start of [names_packet]. *)
Record dir_data := mk_dir_data {
  dd_names_left : Z;
  dd_names_packet : option ptr;
  dd_next_name : Z;
  dd_names_packet_len : Z
}.
#[global] Instance eta_dir_data : Eta dir_data := fun d =>
  mk_dir_data (dd_names_left d) (dd_names_packet d) (dd_next_name d) (dd_names_packet_len d).

(** The union of [struct _LIBSSH2_SFTP_HANDLE], tagged by [handle_type]. *)
Inductive handle_data := HandleFile (f : file_data) | HandleDir (d : dir_data).

Record sftp_handle := mk_sftp_handle {
  h_handle : list Z;
  h_u : handle_data;
  h_close_state : libssh2_nonblocking_states;
  h_close_request_id : Z;
  h_close_packet : option ptr;
  h_packet_list : list sftp_pipeline_chunk
}.
#[global] Instance eta_sftp_handle : Eta sftp_handle := fun h =>
  mk_sftp_handle (h_handle h) (h_u h) (h_close_state h) (h_close_request_id h) (h_close_packet h)
    (h_packet_list h).

(** The requests that keep a state, a packet and a number in [LIBSSH2_SFTP]. *)
Inductive sftp_op_name :=
| op_fsync | op_readdir | op_fstat | op_unlink | op_rename | op_fstatvfs | op_statvfs | op_mkdir
| op_rmdir | op_stat | op_symlink.
#[global] Instance sftp_op_name_eq_dec : EqDecision sftp_op_name.
Proof. solve_decision. Defined.

Record sftp_op := mk_sftp_op {
  op_state : libssh2_nonblocking_states;
  op_packet : option ptr;
  op_request_id : Z
}.
#[global] Instance eta_sftp_op : Eta sftp_op := fun o =>
  mk_sftp_op (op_state o) (op_packet o) (op_request_id o).

(** [partial_size] holds [partial_size_len] bytes. *)
Record LIBSSH2_SFTP := mk_sftp {
  sf_channel : ptr;
  sf_request_id : Z;
  sf_version : Z;
  sf_packets : list sftp_packet;
  sf_zombie_requests : list Z;
  sf_handles : list ptr;
  sf_last_errno : Z;
  sf_partial_size : list Z;
  sf_partial_packet : option ptr;
  sf_partial_len : Z;
  sf_partial_received : Z;
  sf_requirev_start : Z;
  sf_open_state : libssh2_nonblocking_states;
  sf_open_packet : option ptr;
  sf_open_packet_len : Z;
  sf_open_packet_sent : Z;
  sf_open_request_id : Z;
  sf_read_state : libssh2_nonblocking_states;
  sf_packet_state : libssh2_nonblocking_states;
  sf_write_state : libssh2_nonblocking_states;
  sf_ops : sftp_op_name -> sftp_op
}.
#[global] Instance eta_sftp : Eta LIBSSH2_SFTP := fun f =>
  mk_sftp (sf_channel f) (sf_request_id f) (sf_version f) (sf_packets f) (sf_zombie_requests f)
    (sf_handles f) (sf_last_errno f) (sf_partial_size f) (sf_partial_packet f) (sf_partial_len f)
    (sf_partial_received f) (sf_requirev_start f) (sf_open_state f) (sf_open_packet f)
    (sf_open_packet_len f) (sf_open_packet_sent f) (sf_open_request_id f) (sf_read_state f)
    (sf_packet_state f) (sf_write_state f) (sf_ops f).

Definition sftp_op_0 : sftp_op := mk_sftp_op libssh2_NB_state_idle None 0.

Definition sftp_0 (channel : ptr) : LIBSSH2_SFTP :=
  mk_sftp channel 0 0 [] [] [] 0 [] None 0 0 0 libssh2_NB_state_idle None 0 0 0
    libssh2_NB_state_idle libssh2_NB_state_idle libssh2_NB_state_idle (fun _ => sftp_op_0).

(** The session, the SFTP object when there is one, its handles, and the fields
    [sftpInit_*] of the session. *)
Record world := mk_world {
  w_session : session;
  w_sftp : option LIBSSH2_SFTP;
  w_handles : gmap ptr sftp_handle;
  w_init_state : libssh2_nonblocking_states;
  w_init_channel : option ptr;
  w_init_sent : Z
}.
#[global] Instance eta_world : Eta world := fun w =>
  mk_world (w_session w) (w_sftp w) (w_handles w) (w_init_state w) (w_init_channel w) (w_init_sent w).

Abbreviation SM := (M world).

Definition lift {A} (m : CM A) : SM A := fun w =>
  match m (w_session w) with
  | Ret a s => Ret a (w <| w_session := s |>)
  | Fault => Fault
  | OutOfFuel => OutOfFuel
  end.

Definition sftp : SM LIBSSH2_SFTP := let! o := gets w_sftp in access o.
Definition set_sftp (f : LIBSSH2_SFTP -> LIBSSH2_SFTP) : SM unit :=
  let! x := sftp in modify (fun w => w <| w_sftp := Some (f x) |>).
Definition handle (p : ptr) : SM sftp_handle := let! hs := gets w_handles in access (hs !! p).
Definition set_handle (p : ptr) (f : sftp_handle -> sftp_handle) : SM unit :=
  let! h := handle p in modify (fun w => w <| w_handles ::= <[p := f h]> |>).
Definition serror (code : Z) (msg : string) : SM Z := lift (error code msg).
#[global] Arguments serror code msg%_string_scope.

(** ** Zombies *)

Definition find_zombie_request (f : LIBSSH2_SFTP) (request_id : Z) : bool :=
  existsb (Z.eqb request_id) (sf_zombie_requests f).

(** The first entry goes. *)
Fixpoint remove_first (x : Z) (l : list Z) : list Z :=
  match l with [] => [] | y :: l => if x =? y then l else y :: remove_first x l end.

Definition remove_zombie_request (request_id : Z) : SM unit :=
  set_sftp (fun f => f <| sf_zombie_requests ::= remove_first request_id |>).

Definition add_zombie_request (request_id : Z) : SM Z :=
  let! ok := lift alloc_outcome in
  if (ok : bool) then set_sftp (fun f => f <| sf_zombie_requests ::= fun l => l ++ [request_id] |>) ;;
                      ret LIBSSH2_ERROR_NONE
  else serror LIBSSH2_ERROR_ALLOC "malloc fail for zombie request  ID".

(** ** The queue *)

Definition known_type (t : Z) : bool :=
  existsb (Z.eqb t)
    [SSH_FXP_INIT; SSH_FXP_VERSION; SSH_FXP_OPEN; SSH_FXP_CLOSE; SSH_FXP_READ; SSH_FXP_WRITE;
     SSH_FXP_LSTAT; SSH_FXP_FSTAT; SSH_FXP_SETSTAT; SSH_FXP_FSETSTAT; SSH_FXP_OPENDIR;
     SSH_FXP_READDIR; SSH_FXP_REMOVE; SSH_FXP_MKDIR; SSH_FXP_RMDIR; SSH_FXP_REALPATH; SSH_FXP_STAT;
     SSH_FXP_RENAME; SSH_FXP_READLINK; SSH_FXP_SYMLINK; SSH_FXP_STATUS; SSH_FXP_HANDLE;
     SSH_FXP_DATA; SSH_FXP_NAME; SSH_FXP_ATTRS; SSH_FXP_EXTENDED; SSH_FXP_EXTENDED_REPLY].

Definition sftp_packet_add (data : ptr) (data_len : Z) : SM Z :=
  if data_len <? 5 then ret LIBSSH2_ERROR_OUT_OF_BOUNDARY
  else
    let! d := lift (block data) in
    let! t := access (byte_at d 0) in
    if negb (known_type t) then serror LIBSSH2_ERROR_SFTP_PROTOCOL "Out of sync with the world"
    else
      let! request_id := access (ntohu32 d 1) in
      let! f := sftp in
      if ((t =? SSH_FXP_STATUS) || (t =? SSH_FXP_DATA)) && find_zombie_request f request_id then
        lift (free_block data) ;; remove_zombie_request request_id ;; ret LIBSSH2_ERROR_NONE
      else
        let! ok := lift alloc_outcome in
        if (ok : bool) then
          set_sftp (fun f => f <| sf_packets ::= fun l => l ++ [mk_sftp_packet request_id data data_len] |>) ;;
          ret LIBSSH2_ERROR_NONE
        else serror LIBSSH2_ERROR_ALLOC "Unable to allocate datablock for SFTP packet".

(** The answer: the packet's block and length, unlinked. *)
Fixpoint sftp_ask_loop (packet_type request_id : Z) (seen rest : list sftp_packet) :
    SM (option (ptr * Z)) :=
  match rest with
  | [] => ret None
  | p :: rest =>
      let! d := lift (block (sp_data p)) in
      let! t := access (byte_at d 0) in
      if (t =? packet_type) && ((packet_type =? SSH_FXP_VERSION) || (sp_request_id p =? request_id)) then
        set_sftp (fun f => f <| sf_packets := rev_append seen rest |>) ;;
        ret (Some (sp_data p, sp_data_len p))
      else sftp_ask_loop packet_type request_id (p :: seen) rest
  end.

Definition sftp_packet_ask (packet_type request_id : Z) : SM (option (ptr * Z)) :=
  let! f := sftp in sftp_ask_loop packet_type request_id [] (sf_packets f).

(** ** Reading from the channel *)

Section Packets.
Context (transport_send : list Z -> list Z -> CM Z) (transport_read : CM Z).

(** The loop that collects a packet; [LIBSSH2_ERROR_EAGAIN] keeps the rest for the
    next call. A read that returns 0 is repeated. *)
Fixpoint receive_loop (fuel : nat) (packet : ptr) : SM Z :=
  match fuel with
  | O => fun _ => OutOfFuel
  | S fuel' =>
      let! f := sftp in
      if sf_partial_received f <? sf_partial_len f then
        let! r := lift (channel_read transport_send transport_read fuel (sf_channel f) 0
                          (sf_partial_len f - sf_partial_received f)) in
        let rc := r.1 in
        if rc =? LIBSSH2_ERROR_EAGAIN then
          set_sftp (fun f => f <| sf_packet_state := libssh2_NB_state_sent1 |>) ;; ret rc
        else if rc <? 0 then
          lift (free_block packet) ;;
          set_sftp (fun f => f <| sf_partial_packet := None |>) ;;
          serror rc "Error waiting for SFTP packet"
        else
          lift (write_block packet (sf_partial_received f) r.2) ;;
          set_sftp (fun f => f <| sf_partial_received ::= Z.add rc |>) ;;
          receive_loop fuel' packet
      else ret 0
  end.

(** From the complete packet on. *)
Definition packet_done (packet : ptr) : SM Z :=
  set_sftp (fun f => f <| sf_partial_packet := None |>) ;;
  let! d := lift (block packet) in
  let! packet_type := access (byte_at d 0) in
  let! f := sftp in
  let! rc := sftp_packet_add packet (sf_partial_len f) in
  if negb (rc =? 0) then lift (free_block packet) ;; ret rc else ret packet_type.

Definition packet_receive (fuel : nat) (packet : ptr) : SM Z :=
  let! rc := receive_loop fuel packet in
  if negb (rc =? 0) then ret rc else packet_done packet.

(** The label [window_adjust]: the window is widened for the packet. *)
Definition sftp_window_adjust (fuel : nat) (packet : ptr) : SM Z :=
  let! f := sftp in
  let! w := lift (channel_window_read_ex (sf_channel f)) in
  if w.1.1 <? sf_partial_len f then
    let! rc := lift (channel_receive_window_adjust transport_send (sf_channel f) (sf_partial_len f * 2) true) in
    set_sftp (fun f => f <| sf_packet_state := if rc =? LIBSSH2_ERROR_EAGAIN then libssh2_NB_state_sent
                                               else libssh2_NB_state_idle |>) ;;
    if rc =? LIBSSH2_ERROR_EAGAIN then ret rc else packet_receive fuel packet
  else packet_receive fuel packet.

(** The length of a new packet, and its block. *)
Definition packet_start (fuel : nat) : SM Z :=
  let! f := sftp in
  let! r := lift (channel_read transport_send transport_read fuel (sf_channel f) 0
                    (4 - lenZ (sf_partial_size f))) in
  let rc := r.1 in
  if rc =? LIBSSH2_ERROR_EAGAIN then ret rc
  else if rc <? 0 then serror rc "channel read"
  else
    set_sftp (fun f => f <| sf_partial_size ::= fun l => l ++ r.2 |>) ;;
    let! f := sftp in
    if negb (lenZ (sf_partial_size f) =? 4) then ret LIBSSH2_ERROR_EAGAIN
    else
      let! len := access (ntohu32 (sf_partial_size f) 0) in
      set_sftp (fun f => f <| sf_partial_len := len |>) ;;
      if LIBSSH2_SFTP_PACKET_MAXLEN <? len then
        lift (block_adjust (fun _ m => m) transport_send (channel_flush transport_send (sf_channel f) 0) fuel) ;;
        set_sftp (fun f => f <| sf_partial_size := [] |>) ;;
        serror LIBSSH2_ERROR_CHANNEL_PACKET_EXCEEDED "SFTP packet too large"
      else if len =? 0 then serror LIBSSH2_ERROR_ALLOC "Unable to allocate empty SFTP packet"
      else
        let! packet := lift (alloc_block (replicate (Z.to_nat len) 0)) in
        match packet with
        | None => serror LIBSSH2_ERROR_ALLOC "Unable to allocate SFTP packet"
        | Some packet =>
            set_sftp (fun f => f <| sf_partial_size := [] |> <| sf_partial_received := 0 |>
                                 <| sf_partial_packet := Some packet |>) ;;
            sftp_window_adjust fuel packet
        end.

Definition sftp_packet_read (fuel : nat) : SM Z :=
  let! f := sftp in
  if nb_is (sf_packet_state f) libssh2_NB_state_sent then
    set_sftp (fun f => f <| sf_packet_state := libssh2_NB_state_idle |>) ;;
    let! packet := access (sf_partial_packet f) in
    sftp_window_adjust fuel packet
  else if nb_is (sf_packet_state f) libssh2_NB_state_sent1 then
    set_sftp (fun f => f <| sf_packet_state := libssh2_NB_state_idle |>) ;;
    match sf_partial_packet f with
    | Some packet => packet_receive fuel packet
    | None => packet_start fuel
    end
  else packet_start fuel.

(** ** Waiting for an answer *)

(** A packet handed over, checked for its size. *)
Definition sftp_require_result (required_size : Z) (p : ptr * Z) : Z * option (ptr * Z) :=
  (if p.2 <? required_size then LIBSSH2_ERROR_BUFFER_TOO_SMALL else LIBSSH2_ERROR_NONE, Some p).

Fixpoint sftp_require_loop (fuel : nat) (packet_type request_id required_size : Z) :
    SM (Z * option (ptr * Z)) :=
  match fuel with
  | O => fun _ => OutOfFuel
  | S fuel' =>
      let! st := lift (gets socket_state) in
      if st =? LIBSSH2_SOCKET_CONNECTED then
        let! rc := sftp_packet_read fuel in
        if rc <? 0 then ret (rc, None)
        else
          let! r := sftp_packet_ask packet_type request_id in
          match r with
          | Some p => ret (sftp_require_result required_size p)
          | None => sftp_require_loop fuel' packet_type request_id required_size
          end
      else ret (LIBSSH2_ERROR_SOCKET_DISCONNECT, None)
  end.

(** The return value, and [data] with [data_len] when a packet was handed over. *)
Definition sftp_packet_require (fuel : nat) (packet_type request_id required_size : Z) :
    SM (Z * option (ptr * Z)) :=
  if required_size =? 0 then ret (LIBSSH2_ERROR_BAD_USE, None)
  else
    let! r := sftp_packet_ask packet_type request_id in
    match r with
    | Some p => ret (sftp_require_result required_size p)
    | None => sftp_require_loop fuel packet_type request_id required_size
    end.

Fixpoint sftp_packet_askv (types : list Z) (request_id : Z) : SM (option (ptr * Z)) :=
  match types with
  | [] => ret None
  | t :: types =>
      let! r := sftp_packet_ask t request_id in
      match r with Some p => ret (Some p) | None => sftp_packet_askv types request_id end
  end.

Definition set_requirev_start (t : Z) : SM unit := set_sftp (fun f => f <| sf_requirev_start := t |>).

Fixpoint sftp_requirev_loop (fuel : nat) (types : list Z) (request_id required_size : Z) :
    SM (Z * option (ptr * Z)) :=
  match fuel with
  | O => fun _ => OutOfFuel
  | S fuel' =>
      let! st := lift (gets socket_state) in
      if st =? LIBSSH2_SOCKET_CONNECTED then
        let! r := sftp_packet_askv types request_id in
        match r with
        | Some p => set_requirev_start 0 ;; ret (sftp_require_result required_size p)
        | None =>
            let! rc := sftp_packet_read fuel in
            if (rc <? 0) && negb (rc =? LIBSSH2_ERROR_EAGAIN) then
              set_requirev_start 0 ;; ret (rc, None)
            else if rc <=? 0 then
              let! now := lift time in
              let! f := sftp in
              if LIBSSH2_READ_TIMEOUT - (now - sf_requirev_start f) <=? 0 then
                set_requirev_start 0 ;; ret (LIBSSH2_ERROR_TIMEOUT, None)
              else if rc =? LIBSSH2_ERROR_EAGAIN then ret (rc, None)
              else sftp_requirev_loop fuel' types request_id required_size
            else sftp_requirev_loop fuel' types request_id required_size
        end
      else set_requirev_start 0 ;; ret (LIBSSH2_ERROR_SOCKET_DISCONNECT, None)
  end.

Definition sftp_packet_requirev (fuel : nat) (types : list Z) (request_id required_size : Z) :
    SM (Z * option (ptr * Z)) :=
  if required_size =? 0 then ret (LIBSSH2_ERROR_BAD_USE, None)
  else
    let! f := sftp in
    (if sf_requirev_start f =? 0 then let! now := lift time in set_requirev_start now else ret tt) ;;
    sftp_requirev_loop fuel types request_id required_size.
End Packets.

(** ** Giving up requests *)

(** [sftp_packetlist_flush]. *)
Fixpoint packetlist_flush_loop (chunks : list sftp_pipeline_chunk) : SM unit :=
  match chunks with
  | [] => ret tt
  | c :: chunks =>
      let! r := sftp_packet_askv [SSH_FXP_STATUS; SSH_FXP_DATA] (ck_request_id c) in
      match r with
      | Some p => lift (free_block p.1)
      | None => if negb (ck_sent c =? 0) then add_zombie_request (ck_request_id c) ;; ret tt else ret tt
      end ;;
      packetlist_flush_loop chunks
  end.

Definition sftp_packetlist_flush (h : ptr) : SM unit :=
  let! x := handle h in
  packetlist_flush_loop (h_packet_list x) ;;
  set_handle h (fun x => x <| h_packet_list := [] |>).

(** [sftp_packet_flush]: every packet and zombie goes. *)
Fixpoint packet_flush_loop (ps : list sftp_packet) : SM unit :=
  match ps with
  | [] => ret tt
  | p :: ps => lift (free_block (sp_data p)) ;; packet_flush_loop ps
  end.

Definition sftp_packet_flush : SM unit :=
  let! f := sftp in
  packet_flush_loop (sf_packets f) ;;
  set_sftp (fun f => f <| sf_packets := [] |> <| sf_zombie_requests := [] |>).
