(* ===== verification/SftpSpec.v ===== *)
(** * Theorems about the SFTP packet layer

    [sftp_packet_read] against the byte stream of the channel: however the stream
    is cut into pieces, what comes out are the packets of the stream, whole, once
    and in order. The channel is an interface here, [ChannelInput]. *)

From stdpp Require Import base numbers list gmap strings.
From S2P Require Import Prelude Codes CString KexMethods Wire Session ChannelWindow Packet Conn Comp ChannelIO Blocking SftpCodec Sftp.

(** ** The channel as the SFTP layer sees it *)

(** The block belongs to somebody other than the session's packet queue. *)
Definition not_queued (s : session) (q : ptr) : Prop := q ∉ pk_data <$> packets s.

(** A step of the SFTP layer itself: memory, clock and error fields, and no block of
    the packet queue. *)
Definition own_only (s s' : session) : Prop :=
  s' = s <| s_heap := s_heap s' |> <| s_next_ptr := s_next_ptr s' |> <| s_alloc := s_alloc s' |>
         <| s_clock := s_clock s' |>
         <| err_msg := err_msg s' |> <| err_code := err_code s' |> <| err_flags := err_flags s' |>.

Record own_step (s s' : session) : Prop := {
  own_fields : own_only s s';
  own_heap : heap_ok s';
  own_next : (s_next_ptr s <= s_next_ptr s')%positive;
  own_queue : forall q, q ∈ pk_data <$> packets s -> s_heap s' !! q = s_heap s !! q
}.

(** A step of the channel: blocks of others stay. *)
Definition others_kept (s s' : session) : Prop :=
  forall q d, s_heap s !! q = Some d -> not_queued s q -> s_heap s' !! q = Some d /\ not_queued s' q.

(** What the SFTP layer relies on of the channel [ch]: as long as it stays open,
    reading yields the next bytes of a stream ([unread]), as many as there are at
    least one and at most as many as asked for, or an error and no bytes. [fuel]
    bounds the packets of one read. *)
Class ChannelInput (transport_send : list Z -> list Z -> CM Z) (transport_read : CM Z) (ch : ptr)
    (rounds : nat) (ok : session -> Prop) (unread : session -> list Z) : Prop := {
  in_own : forall s s', ok s -> own_step s s' -> ok s' /\ unread s' = unread s;
  in_heap : forall s, ok s -> heap_ok s;
  in_live : forall s q, ok s -> ¬ not_queued s q -> is_Some (s_heap s !! q);
  in_read : forall fuel n s, ok s -> (rounds <= fuel)%nat -> 0 <= n ->
    wp (channel_read transport_send transport_read fuel ch 0 n)
      (fun r s' => ok s' /\ others_kept s s' /\
         ((r.1 < 0 /\ unread s' = unread s) \/
          (0 <= r.1 <= n /\ (0 < n -> 0 < r.1) /\ r.1 = lenZ r.2 /\ bytes_ok r.2 /\
           unread s = r.2 ++ unread s'))) s;
  in_window : forall s, ok s -> wp (channel_window_read_ex ch) (fun _ s' => s' = s) s;
  in_adjust : forall n s, ok s ->
    wp (channel_receive_window_adjust transport_send ch n true)
      (fun _ s' => ok s' /\ others_kept s s' /\ unread s' = unread s) s
}.

(** ** The state of the SFTP layer *)

(** The world with the session [s] and the SFTP object [f]. *)
Definition put (w : world) (s : session) (f : LIBSSH2_SFTP) : world :=
  w <| w_session := s |> <| w_sftp := Some f |>.

Lemma wp_lift {A} (m : CM A) Q w s f :
  wp m (fun a s' => Q a (put w s' f)) s -> wp (lift m) Q (put w s f).
Proof. unfold wp, lift. simpl. by destruct (m s). Qed.

Lemma wp_sftp (Q : LIBSSH2_SFTP -> world -> Prop) w s f : Q f (put w s f) -> wp sftp Q (put w s f).
Proof. done. Qed.

Lemma wp_set_sftp g (Q : unit -> world -> Prop) w s f :
  Q tt (put w s (g f)) -> wp (set_sftp g) Q (put w s f).
Proof. done. Qed.

Lemma put_self w s f : w_session w = s -> w_sftp w = Some f -> put w s f = w.
Proof. intros <- H. destruct w. simpl in *. by subst. Qed.

Lemma own_only_refl s : own_only s s.
Proof. by destruct s. Qed.

Lemma own_only_trans s1 s2 s3 : own_only s1 s2 -> own_only s2 s3 -> own_only s1 s3.
Proof.
  unfold own_only. intros H12 H23.
  transitivity (s2 <| s_heap := s_heap s3 |> <| s_next_ptr := s_next_ptr s3 |>
    <| s_alloc := s_alloc s3 |> <| s_clock := s_clock s3 |>
    <| err_msg := err_msg s3 |> <| err_code := err_code s3 |> <| err_flags := err_flags s3 |>); [done|].
  by rewrite H12.
Qed.

Lemma own_packets s s' : own_only s s' -> packets s' = packets s.
Proof. by intros ->. Qed.

Lemma own_step_trans s1 s2 s3 : own_step s1 s2 -> own_step s2 s3 -> own_step s1 s3.
Proof.
  intros [A1 A2 A4 A3] [B1 B2 B4 B3]. split; [by eapply own_only_trans|done|lia|].
  intros q Hq. rewrite B3, A3; [done..|]. by rewrite (own_packets _ _ A1).
Qed.

Lemma wp_error_own code msg (Q : Z -> session -> Prop) s :
  (forall s', own_only s s' /\ s_heap s' = s_heap s /\ s_next_ptr s' = s_next_ptr s -> Q code s') ->
  wp (error code msg) Q s.
Proof. intros H. unfold wp, error, error_flags. simpl. apply H. by destruct s. Qed.

(** One step of a weakest precondition. *)
Ltac sp_step :=
  cbn beta iota;
  lazymatch goal with
  | |- wp (serror _ _) _ _ => unfold serror; apply wp_lift
  | |- wp (lift _) _ _ => apply wp_lift
  | |- wp sftp _ _ => apply wp_sftp
  | |- wp (set_sftp _) _ _ => apply wp_set_sftp
  | |- wp (error _ _) _ _ => let s := fresh "s" in let H := fresh "Hs" in apply wp_error_own; intros s H
  | |- _ => wp_pure
  end.

Lemma own_step_same s s' :
  heap_ok s -> own_only s s' /\ s_heap s' = s_heap s /\ s_next_ptr s' = s_next_ptr s -> own_step s s'.
Proof.
  intros [Hb Hf] (Ho & Hh & Hn). split; [done| |by rewrite Hn|by rewrite Hh].
  split; rewrite Hh; [done|]. intros q Hq. rewrite Hn in Hq. by apply Hf.
Qed.

Lemma own_step_alloc s al : heap_ok s -> own_step s (s <| s_alloc := al |>).
Proof. intros H. apply own_step_same; [done|]. by destruct s. Qed.

Lemma own_step_clock s t : heap_ok s -> own_step s (s <| s_clock := t |>).
Proof. intros H. apply own_step_same; [done|]. by destruct s. Qed.

Lemma own_step_insert s p d :
  heap_ok s -> bytes_ok d -> (p < s_next_ptr s)%positive -> not_queued s p ->
  own_step s (s <| s_heap ::= <[p := d]> |>).
Proof.
  intros Hh Hd Hp Hq. split; [by destruct s|by apply heap_ok_insert|done|].
  intros q Hin. simpl. rewrite lookup_insert_ne; [done|]. intros ->. by apply Hq.
Qed.

Lemma own_step_free s p : heap_ok s -> not_queued s p -> own_step s (s <| s_heap ::= delete p |>).
Proof.
  intros [Hb Hf] Hq. split; [by destruct s| |done|].
  - split; simpl; [by apply map_Forall_delete|]. intros q Hle. rewrite lookup_delete. case_decide; [done|by apply Hf].
  - intros q Hin. simpl. rewrite lookup_delete_ne; [done|]. intros ->. by apply Hq.
Qed.

Lemma own_step_fresh s d :
  heap_ok s -> bytes_ok d -> not_queued s (s_next_ptr s) ->
  own_step s (s <| s_heap ::= <[s_next_ptr s := d]> |> <| s_next_ptr := Pos.succ (s_next_ptr s) |>).
Proof.
  intros [Hb Hf] Hd Hq. split; [by destruct s| |simpl; lia|].
  - split; simpl; [by apply map_Forall_insert_2|]. intros q Hle. rewrite lookup_insert_ne by lia. apply Hf. lia.
  - intros q Hin. simpl. rewrite lookup_insert_ne; [done|]. intros E. apply Hq. by rewrite E.
Qed.

Lemma own_not_queued s s' q : own_only s s' -> not_queued s q -> not_queued s' q.
Proof. unfold not_queued. by intros ->%own_packets. Qed.

(** ** The invariant *)

Definition blocks (f : LIBSSH2_SFTP) : list ptr :=
  option_list (sf_partial_packet f) ++ (sp_data <$> sf_packets f).

(** A queued packet. *)
Definition queued_ok (s : session) (p : sftp_packet) : Prop :=
  exists d, s_heap s !! sp_data p = Some d /\ lenZ d = sp_data_len p /\ 5 <= lenZ d /\
    ntohu32 d 1 = Some (sp_request_id p).

(** The packet that is being collected. *)
Definition partial_ok (s : session) (f : LIBSSH2_SFTP) : Prop :=
  match sf_partial_packet f with
  | Some p => sf_partial_size f = [] /\ 0 < sf_partial_len f <= LIBSSH2_SFTP_PACKET_MAXLEN /\
      0 <= sf_partial_received f <= sf_partial_len f /\
      exists d, s_heap s !! p = Some d /\ lenZ d = sf_partial_len f
  | None => lenZ (sf_partial_size f) <= 4 /\ bytes_ok (sf_partial_size f)
  end.

(** Between calls the state tells whether a packet is being collected. *)
Definition at_rest (f : LIBSSH2_SFTP) : Prop :=
  match sf_partial_packet f with
  | Some _ => sf_packet_state f = libssh2_NB_state_sent \/ sf_packet_state f = libssh2_NB_state_sent1
  | None => sf_packet_state f = libssh2_NB_state_idle
  end.

Record sftp_ok (s : session) (f : LIBSSH2_SFTP) : Prop := {
  so_nodup : NoDup (blocks f);
  so_own : Forall (not_queued s) (blocks f);
  so_packets : Forall (queued_ok s) (sf_packets f);
  so_partial : partial_ok s f
}.

(** The bytes of the stream that were taken and not yet delivered. *)
Definition pending (s : session) (f : LIBSSH2_SFTP) : list Z :=
  match sf_partial_packet f with
  | Some p => htonu32 (sf_partial_len f) ++
      take (Z.to_nat (sf_partial_received f)) (default [] (s_heap s !! p))
  | None => sf_partial_size f
  end.

(** The blocks of the SFTP layer stay as they are. *)
Definition blocks_kept (f : LIBSSH2_SFTP) (s s' : session) : Prop :=
  forall q, q ∈ blocks f -> s_heap s' !! q = s_heap s !! q /\ not_queued s' q.

Lemma queued_live s p : queued_ok s p -> is_Some (s_heap s !! sp_data p).
Proof. intros (d & -> & _). eauto. Qed.

Lemma blocks_live s f q : sftp_ok s f -> q ∈ blocks f -> is_Some (s_heap s !! q).
Proof.
  intros [_ _ Hp Hpart] Hq. unfold blocks in Hq. apply elem_of_app in Hq as [Hq|Hq].
  - unfold partial_ok in Hpart. destruct (sf_partial_packet f) as [p|]; simpl in Hq; [|by apply not_elem_of_nil in Hq].
    apply list_elem_of_singleton in Hq as ->. destruct Hpart as (_ & _ & _ & d & -> & _). eauto.
  - apply list_elem_of_fmap in Hq as (p & -> & Hin). rewrite Forall_forall in Hp. by apply queued_live, Hp.
Qed.

Lemma others_kept_blocks s s' f : sftp_ok s f -> others_kept s s' -> blocks_kept f s s'.
Proof.
  intros Hok Ho q Hq. destruct (blocks_live _ _ _ Hok Hq) as [d Hd].
  pose proof (so_own _ _ Hok) as Hown. rewrite Forall_forall in Hown.
  destruct (Ho q d Hd (Hown q Hq)) as [-> ?]. by rewrite Hd.
Qed.

Lemma sftp_ok_kept s s' f : sftp_ok s f -> blocks_kept f s s' -> sftp_ok s' f /\ pending s' f = pending s f.
Proof.
  intros [Hn Ho Hp Hpart] Hk.
  assert (Hpend : forall p, sf_partial_packet f = Some p -> s_heap s' !! p = s_heap s !! p).
  { intros p Hpp. apply Hk. unfold blocks. rewrite Hpp. simpl. left. }
  split; [split|].
  - done.
  - rewrite Forall_forall in Ho |- *. intros q Hq. by apply Hk.
  - rewrite Forall_forall in Hp |- *. intros p Hin. destruct (Hp p Hin) as (d & Hd & ?).
    exists d. split; [|done]. rewrite <- Hd. apply Hk. unfold blocks. apply elem_of_app. right.
    apply list_elem_of_fmap. eauto.
  - unfold partial_ok in *. destruct (sf_partial_packet f) as [p|]; [|done]. by rewrite (Hpend p).
  - unfold pending. destruct (sf_partial_packet f) as [p|]; [|done]. by rewrite (Hpend p).
Qed.

(** Changes of fields the invariant does not speak of. *)
Lemma sftp_ok_fields s f f' :
  sf_packets f' = sf_packets f -> sf_partial_packet f' = sf_partial_packet f ->
  sf_partial_size f' = sf_partial_size f -> sf_partial_len f' = sf_partial_len f ->
  sf_partial_received f' = sf_partial_received f ->
  sftp_ok s f -> sftp_ok s f' /\ pending s f' = pending s f.
Proof.
  intros E1 E2 E3 E4 E5 [Hn Ho Hp Hpart]. unfold pending, partial_ok, blocks in *.
  split; [split; unfold partial_ok, blocks|]; by rewrite ?E1, ?E2, ?E3, ?E4, ?E5.
Qed.

(** ** Queueing a packet *)

Record same_partial (f f' : LIBSSH2_SFTP) : Prop := {
  sa_packet : sf_partial_packet f' = sf_partial_packet f;
  sa_size : sf_partial_size f' = sf_partial_size f;
  sa_len : sf_partial_len f' = sf_partial_len f;
  sa_received : sf_partial_received f' = sf_partial_received f;
  sa_state : sf_packet_state f' = sf_packet_state f;
  sa_channel : sf_channel f' = sf_channel f
}.

Lemma same_partial_refl f : same_partial f f.
Proof. by split. Qed.

Definition queue_kept (f f' : LIBSSH2_SFTP) : Prop :=
  sf_packets f' = sf_packets f /\ sf_zombie_requests f' = sf_zombie_requests f.

(** The packet [d] is the last of the queue, or it answers a request that was given
    up and is gone with the note of it. *)
Definition delivered (d : list Z) (s' : session) (f f' : LIBSSH2_SFTP) : Prop :=
  exists id, ntohu32 d 1 = Some id /\
  ((exists q, sf_packets f' = sf_packets f ++ [mk_sftp_packet id q (lenZ d)] /\
      s_heap s' !! q = Some d /\ sf_zombie_requests f' = sf_zombie_requests f) \/
   (byte_at d 0 = Some SSH_FXP_STATUS \/ byte_at d 0 = Some SSH_FXP_DATA) /\
   id ∈ sf_zombie_requests f /\ sf_packets f' = sf_packets f /\
   sf_zombie_requests f' = remove_first id (sf_zombie_requests f)).

Lemma find_zombie_spec f id : find_zombie_request f id = true <-> id ∈ sf_zombie_requests f.
Proof.
  unfold find_zombie_request. rewrite existsb_exists. split.
  - intros (x & Hx & ->%Z.eqb_eq). by apply list_elem_of_In.
  - intros H. exists id. rewrite Z.eqb_refl. split; [by apply list_elem_of_In|done].
Qed.

Lemma byte_at_bytes d i : 0 <= i < lenZ d -> exists b, byte_at d i = Some b.
Proof. intros H. by apply byte_at_in. Qed.

Lemma htonu32_ntohu32 l v :
  length l = 4%nat -> bytes_ok l -> ntohu32 l 0 = Some v -> htonu32 v = l.
Proof.
  intros Hl Hb. destruct l as [|b0 [|b1 [|b2 [|b3 []]]]]; try done. clear Hl.
  apply Forall_cons in Hb as [B0 Hb]. apply Forall_cons in Hb as [B1 Hb].
  apply Forall_cons in Hb as [B2 Hb]. apply Forall_cons in Hb as [B3 _].
  unfold ntohu32, byte_at. simpl. intros [= <-]. rewrite be32_value by done. unfold htonu32, is_byte in *.
  rewrite !land_255, !Z.shiftr_div_pow2 by lia. repeat f_equal; Z.to_euclidean_division_equations; lia.
Qed.

Section Input.
Context (transport_send : list Z -> list Z -> CM Z) (transport_read : CM Z).
Context (ch : ptr) (rounds : nat) (ok : session -> Prop) (unread : session -> list Z).
Context `{!ChannelInput transport_send transport_read ch rounds ok unread}.

Record good (s : session) (f : LIBSSH2_SFTP) : Prop := {
  gd_ok : ok s;
  gd_sftp : sftp_ok s f;
  gd_channel : sf_channel f = ch
}.

(** A block that is not in use by either layer. *)
Record spare (s : session) (f : LIBSSH2_SFTP) (q : ptr) (d : list Z) : Prop := {
  sp_block : s_heap s !! q = Some d;
  sp_queue : not_queued s q;
  sp_fresh : q ∉ blocks f
}.

Lemma good_own s s' f :
  good s f -> own_step s s' -> (forall q, q ∈ blocks f -> s_heap s' !! q = s_heap s !! q) ->
  good s' f /\ unread s' = unread s /\ pending s' f = pending s f.
Proof.
  intros [Hok Hs Hc] Hst Hb. destruct (in_own s s' Hok Hst) as [Hok' Hu].
  destruct (sftp_ok_kept s s' f Hs) as [Hs' Hp]; [|done].
  intros q Hq. split; [by apply Hb|]. eapply own_not_queued; [by apply own_fields|].
  pose proof (so_own _ _ Hs) as Ho. rewrite Forall_forall in Ho. by apply Ho.
Qed.

Lemma good_fields s f f' :
  sf_packets f' = sf_packets f -> same_partial f f' -> good s f -> good s f' /\ pending s f' = pending s f.
Proof.
  intros E [] [? Hs ?]. destruct (sftp_ok_fields s f f') as [? ?]; try done. split; [split; congruence|done].
Qed.

Lemma good_heap s f : good s f -> heap_ok s.
Proof. intros [Hok _ _]. by apply in_heap. Qed.

(** Releasing a spare block. *)
Lemma good_free s f q d :
  good s f -> spare s f q d ->
  good (s <| s_heap ::= delete q |>) f /\ unread (s <| s_heap ::= delete q |>) = unread s /\
  pending (s <| s_heap ::= delete q |>) f = pending s f.
Proof.
  intros Hg [Hd Hq Hf]. apply good_own; [done|apply own_step_free; [by eapply good_heap|done]|].
  intros q' Hq'. simpl. rewrite lookup_delete_ne; [done|]. by intros ->.
Qed.

Lemma good_same s s' f :
  good s f -> own_only s s' /\ s_heap s' = s_heap s /\ s_next_ptr s' = s_next_ptr s ->
  good s' f /\ unread s' = unread s /\ pending s' f = pending s f.
Proof.
  intros Hg Hs. apply good_own; [done|apply own_step_same; [by eapply good_heap|done]|].
  intros q _. by destruct Hs as (_ & -> & _).
Qed.

(** What [sftp_packet_add] does with a spare packet. *)
Definition add_post (w : world) (s : session) (f : LIBSSH2_SFTP) (q : ptr) (d : list Z) (rc : Z) (w' : world) : Prop :=
  exists s' f', w' = put w s' f' /\ good s' f' /\ unread s' = unread s /\ same_partial f f' /\
    pending s' f' = pending s f /\
    ((rc = 0 /\ delivered d s' f f') \/
     (rc < 0 /\ rc <> LIBSSH2_ERROR_EAGAIN /\ queue_kept f f' /\ spare s' f' q d)).

Lemma add_fail w s s' f q d rc :
  good s f -> spare s f q d -> rc < 0 -> rc <> LIBSSH2_ERROR_EAGAIN ->
  own_only s s' /\ s_heap s' = s_heap s /\ s_next_ptr s' = s_next_ptr s ->
  add_post w s f q d rc (put w s' f).
Proof.
  intros Hg [Hd Hq Hf] Hrc Hne Hs. destruct (good_same _ _ _ Hg Hs) as (Hg' & Hu & Hp).
  exists s', f. split_and!; [done..|apply same_partial_refl|done|]. right. split_and!; try done.
  destruct Hs as (Ho & Hh & _). split; [by rewrite Hh|by eapply own_not_queued|done].
Qed.

Lemma sftp_packet_add_ok w s f q d n :
  good s f -> spare s f q d -> lenZ d = n ->
  wp (sftp_packet_add q n) (add_post w s f q d) (put w s f).
Proof.
  intros Hg Hsp Hn. pose proof Hsp as [Hd Hq Hf]. pose proof (good_heap _ _ Hg) as Hh.
  unfold sftp_packet_add. sp_step; breflect.
  { sp_step. apply (add_fail w s s); [done..|split; [apply own_only_refl|done]]. }
  do 2 sp_step. eapply wp_block; [done|]. sp_step.
  destruct (byte_at_bytes d 0) as [t Ht]; [lia|]. eapply wp_access; [done|].
  sp_step; breflect. { do 2 sp_step. apply add_fail; done. }
  sp_step. destruct (ntohu32_in d 1) as [id Hid]; [lia..|]. eapply wp_access; [done|].
  do 2 sp_step. sp_step.
  - (* a zombie's answer *)
    apply andb_true_iff in E1 as [Et Ez]. apply find_zombie_spec in Ez.
    do 2 sp_step. eapply wp_free_block; [done|]. cbn beta. unfold remove_zombie_request. do 3 sp_step.
    set (s1 := s <| s_heap ::= delete q |>). set (f1 := f <| sf_zombie_requests ::= _ |>).
    destruct (good_free s f q d Hg Hsp) as (Hg1 & Hu1 & Hp1).
    destruct (good_fields s1 f f1) as [Hg2 Hp2]; [done|by split|done|].
    exists s1, f1. split_and!; [done..|by split|by rewrite Hp2|]. left. split; [done|].
    exists id. split; [done|]. right. split_and!; try done. apply orb_true_iff in Et as [Et|Et]; breflect; subst; auto.
  - clear E1. do 2 sp_step. apply wp_alloc_outcome. intros b al. set (s1 := s <| s_alloc := al |>).
    assert (Hs1 : own_only s s1 /\ s_heap s1 = s_heap s /\ s_next_ptr s1 = s_next_ptr s) by (by destruct s).
    destruct (good_same _ _ _ Hg Hs1) as (Hg1 & Hu1 & Hp1). destruct b.
    + do 3 sp_step. set (f1 := f <| sf_packets ::= _ |>).
      exists s1, f1. split_and!; [done| |done|by split|by rewrite <- Hp1|].
      * destruct Hg1 as [H1 [Hn1 Ho1 Hk1 Hpt1] H3]. split; [done| |done].
        assert (Hb : blocks f1 = blocks f ++ [q]) by (unfold blocks, f1; simpl; by rewrite fmap_app, app_assoc).
        split; [|rewrite Hb; apply Forall_app; split; [done|by constructor]| |done].
        -- rewrite Hb. apply NoDup_app. split_and!; [done| |apply NoDup_singleton].
           intros x Hx ->%list_elem_of_singleton. done.
        -- simpl. apply Forall_app. split; [done|]. constructor; [|done]. exists d. simpl. split_and!; try done. lia.
      * left. split; [done|]. exists id. split; [done|]. left. exists q. simpl. rewrite Hn. done.
    + do 2 sp_step. apply (add_fail w s); [done..|]. destruct Hs as (? & ? & ?), Hs1 as (? & ? & ?).
      split_and!; [by eapply own_only_trans|congruence..].
Qed.

(** *** Collecting a packet *)

(** The bytes still to be delivered. *)
Definition rest (s : session) (f : LIBSSH2_SFTP) : list Z := pending s f ++ unread s.

Definition frame (d : list Z) : list Z := htonu32 (lenZ d) ++ d.

(** The packet being collected leaves the SFTP object. *)
Lemma good_detach s f p :
  good s f -> sf_partial_packet f = Some p ->
  let f' := f <| sf_partial_packet := None |> in
  exists d, good s f' /\ spare s f' p d /\ lenZ d = sf_partial_len f /\ sf_partial_size f = [] /\
    0 < lenZ d <= LIBSSH2_SFTP_PACKET_MAXLEN.
Proof.
  intros [Hok [Hn Ho Hk Hp] Hc] Ep f'. unfold partial_ok in Hp. rewrite Ep in Hp.
  destruct Hp as (Hs & Hl & Hr & d & Hd & Hlen). exists d.
  assert (Hb : blocks f = p :: blocks f') by (unfold blocks, f'; by rewrite Ep).
  rewrite Hb in Hn, Ho. apply NoDup_cons in Hn as [Hn1 Hn2]. apply Forall_cons in Ho as [Ho1 Ho2].
  split_and!; try done; [|lia..]. split; [done| |done]. split; try done. unfold partial_ok, f'. simpl.
  rewrite Hs. split; [done|constructor].
Qed.

(** Bytes are stored behind those the packet has. *)
Lemma good_store s f p d bytes :
  good s f -> sf_partial_packet f = Some p -> s_heap s !! p = Some d -> bytes_ok bytes ->
  sf_partial_received f + lenZ bytes <= sf_partial_len f ->
  let off := sf_partial_received f in
  let s' := s <| s_heap ::= <[p := take (Z.to_nat off) d ++ bytes ++ drop (Z.to_nat (off + lenZ bytes)) d]> |> in
  let f' := f <| sf_partial_received ::= Z.add (lenZ bytes) |> in
  good s' f' /\ unread s' = unread s /\ pending s' f' = pending s f ++ bytes.
Proof.
  intros Hg Ep Hd Hb Hle off s' f'. pose proof Hg as [Hok [Hn Ho Hk Hp] Hc]. pose proof (good_heap _ _ Hg) as Hh.
  pose proof (lenZ_nonneg bytes) as Hnn.
  unfold partial_ok in Hp. rewrite Ep in Hp. destruct Hp as (Hs & Hl & Hr & d' & Hd' & Hlen). simplify_eq.
  assert (Hq : not_queued s p).
  { rewrite Forall_forall in Ho. apply Ho. unfold blocks. rewrite Ep. left. }
  assert (Hlt : (p < s_next_ptr s)%positive).
  { destruct Hh as [_ Hf]. destruct (decide (s_next_ptr s <= p)%positive); [by rewrite Hf in Hd|lia]. }
  assert (Hdb : bytes_ok d) by (destruct Hh as [Hf _]; by apply (Hf p)).
  assert (Hst : own_step s s').
  { apply own_step_insert; try done. apply Forall_app. split; [by apply Forall_take|].
    apply Forall_app. split; [done|by apply Forall_drop]. }
  destruct (in_own s s' Hok Hst) as [Hok' Hu]. fold off in Hr, Hle.
  set (d' := take (Z.to_nat off) d ++ bytes ++ drop (Z.to_nat (off + lenZ bytes)) d) in *.
  assert (Hl' : lenZ d' = sf_partial_len f).
  { unfold d'. unfold lenZ in *. rewrite !length_app, length_take, length_drop. lia. }
  split_and!; [split; [done| |done]|done|].
  - split; [done|done| |].
    + rewrite Forall_forall in Hk |- *. intros k Hin. destruct (Hk k Hin) as (dk & Hdk & ?).
      exists dk. split; [|done]. unfold s'. simpl. rewrite lookup_insert_ne; [done|]. intros E.
      unfold blocks in Hn. rewrite Ep in Hn. simpl in Hn. apply NoDup_cons in Hn as [Hn _]. apply Hn.
      apply list_elem_of_fmap. exists k. split; [done|exact Hin].
    + unfold partial_ok, f'. simpl. rewrite Ep. split_and!; try done; try lia. exists d'.
      split; [apply lookup_insert_eq|done].
  - unfold pending, f', s'. simpl. rewrite Ep, lookup_insert_eq, Hd. simpl. do 4 f_equal.
    fold off. unfold d'. rewrite app_assoc, take_app_le.
    + rewrite take_ge; [done|]. unfold lenZ in *. rewrite length_app, length_take. lia.
    + unfold lenZ in *. rewrite length_app, length_take. lia.
Qed.

(** A step of the channel. *)
Lemma good_channel s s' f :
  good s f -> ok s' -> others_kept s s' -> good s' f /\ pending s' f = pending s f.
Proof.
  intros [Hok Hs Hc] Hok' Ho. destruct (sftp_ok_kept s s' f Hs) as [? ?]; [by apply others_kept_blocks|].
  by split.
Qed.

Definition receive_post (w : world) (s : session) (f : LIBSSH2_SFTP) (p : ptr) (rc : Z) (w' : world) : Prop :=
  exists s' f', w' = put w s' f' /\ good s' f' /\ queue_kept f f' /\
    ((rc = LIBSSH2_ERROR_EAGAIN /\ rest s' f' = rest s f /\ at_rest f') \/
     (rc = 0 /\ rest s' f' = rest s f /\ sf_partial_packet f' = Some p /\
      sf_partial_received f' = sf_partial_len f' /\ sf_packet_state f' = libssh2_NB_state_idle) \/
     (rc < 0 /\ rc <> LIBSSH2_ERROR_EAGAIN /\ at_rest f')).

Lemma receive_loop_ok w fuel p : forall s f,
  good s f -> sf_partial_packet f = Some p -> sf_packet_state f = libssh2_NB_state_idle ->
  (rounds + length (unread s) < fuel)%nat ->
  wp (receive_loop transport_send transport_read fuel p) (receive_post w s f p) (put w s f).
Proof.
  induction fuel as [|fuel IH]; intros s f Hg Ep Est Hf; [lia|]. cbn [receive_loop].
  pose proof Hg as [Hok [Hn Ho Hk Hp] Hc]. unfold partial_ok in Hp. rewrite Ep in Hp.
  destruct Hp as (Hs & Hl & Hr & d & Hd & Hlen).
  do 2 sp_step. sp_step; breflect; cycle 1.
  { sp_step. exists s, f. split_and!; try done. right. left. split_and!; try done. lia. }
  do 2 sp_step. rewrite Hc. eapply wp_mono; [apply in_read; [done|lia|lia]|]. intros r s1 (Hok1 & Hoth & Hcase).
  destruct (good_channel s s1 f Hg Hok1 Hoth) as [Hg1 Hp1]. cbn beta zeta. sp_step; breflect.
  { destruct Hcase as [(_ & Hu)|(? & _)]; [|unfold LIBSSH2_ERROR_EAGAIN in *; lia]. do 3 sp_step. set (f1 := f <| sf_packet_state := _ |>).
    destruct (sftp_ok_fields s1 f f1) as [Hok2 Hp2]; [done..|apply Hg1|].
    exists s1, f1. split_and!; [done|by split|done|]. left. split_and!; [done| |].
    - unfold rest. congruence.
    - unfold at_rest, f1. simpl. rewrite Ep. by right. }
  sp_step; breflect.
  { destruct (good_detach s1 f p Hg1 Ep) as (d1 & Hg2 & Hsp & _).
    do 2 sp_step. eapply wp_free_block; [apply Hsp|]. cbn beta. do 3 sp_step. sp_step.
    destruct (good_free _ _ _ _ Hg2 Hsp) as (Hg3 & _). destruct (good_same _ _ _ Hg3 Hs0) as (Hg4 & _).
    eexists _, _. split; [done|]. split; [done|]. split; [done|]. right. right. split_and!; done. }
  destruct Hcase as [(? & _)|(Hr1 & Hpos & Hlr & Hb & Hu)]; [lia|]. do 2 sp_step.
  destruct (others_kept_blocks s s1 f (gd_sftp _ _ Hg) Hoth p) as [Hd1 _].
  { unfold blocks. rewrite Ep. left. }
  rewrite Hd in Hd1. eapply wp_write_block; [done|lia|lia|]. cbn beta. do 2 sp_step.
  destruct (good_store s1 f p d r.2 Hg1 Ep Hd1 Hb) as (Hg2 & Hu2 & Hp2); [lia|]. rewrite Hlr.
  eapply wp_mono; [apply IH; [done..|]|].
  - rewrite Hu2. rewrite Hu, length_app in Hf. unfold lenZ in *. lia.
  - intros rc w' (s' & f' & -> & Hg' & Hq & Hcases). exists s', f'. split_and!; [done..|].
    assert (Hrest : rest (s1 <| s_heap ::= <[p := take (Z.to_nat (sf_partial_received f)) d ++ r.2 ++
        drop (Z.to_nat (sf_partial_received f + lenZ r.2)) d]> |>)
        (f <| sf_partial_received ::= Z.add (lenZ r.2) |>) = rest s f).
    { unfold rest. rewrite Hp2, Hu2, Hp1, Hu, <- app_assoc. done. }
    rewrite Hrest in Hcases. done.
Qed.

(** *** [sftp_packet_read] *)

(** It would block and no byte is lost; or the next packet was delivered and its
    type is the answer; or it failed and the queue is as before. *)
Definition outcome (w : world) (s : session) (f : LIBSSH2_SFTP) (rc : Z) (w' : world) : Prop :=
  exists s' f', w' = put w s' f' /\ good s' f' /\ at_rest f' /\
    ((rc = LIBSSH2_ERROR_EAGAIN /\ rest s' f' = rest s f /\ queue_kept f f') \/
     (exists d, byte_at d 0 = Some rc /\ lenZ d <= LIBSSH2_SFTP_PACKET_MAXLEN /\
        rest s f = frame d ++ rest s' f' /\ delivered d s' f f') \/
     (rc < 0 /\ rc <> LIBSSH2_ERROR_EAGAIN /\ queue_kept f f')).

Lemma outcome_from w s s1 f f1 rc w' :
  rest s1 f1 = rest s f -> queue_kept f f1 -> outcome w s1 f1 rc w' -> outcome w s f rc w'.
Proof.
  intros Hr [Hq Hz] (s' & f' & -> & Hg & Ha & H). exists s', f'. split_and!; [done..|].
  unfold queue_kept, delivered in *. rewrite Hr, Hq, Hz in H. done.
Qed.

Lemma outcome_eagain w s f s' f' :
  good s' f' -> at_rest f' -> rest s' f' = rest s f -> queue_kept f f' ->
  outcome w s f LIBSSH2_ERROR_EAGAIN (put w s' f').
Proof. intros. exists s', f'. split_and!; try done. by left. Qed.

Lemma outcome_error w s f s' f' rc :
  good s' f' -> at_rest f' -> queue_kept f f' -> rc < 0 -> rc <> LIBSSH2_ERROR_EAGAIN ->
  outcome w s f rc (put w s' f').
Proof. intros. exists s', f'. split_and!; try done. right. by right. Qed.

Lemma packet_done_ok w s f p :
  good s f -> sf_partial_packet f = Some p -> sf_partial_received f = sf_partial_len f ->
  sf_packet_state f = libssh2_NB_state_idle ->
  wp (packet_done p) (outcome w s f) (put w s f).
Proof.
  intros Hg Ep Hr Est. destruct (good_detach s f p Hg Ep) as (d & Hg1 & Hsp & Hl & Hz & Hd).
  unfold packet_done. do 4 sp_step. eapply wp_block; [apply Hsp|]. sp_step.
  destruct (byte_at_bytes d 0) as [t Ht]; [lia|]. eapply wp_access; [done|]. do 2 sp_step. sp_step.
  eapply wp_mono; [apply (sftp_packet_add_ok w s _ p d); [done..|by rewrite Hl]|].
  intros rc w' (s' & f' & -> & Hg' & Hu & [Hs1 Hs2 Hs3 Hs4 Hs5 Hs6] & Hp' & Hcase).
  assert (Har : at_rest f') by (unfold at_rest; by rewrite Hs1, Hs5). cbn beta.
  destruct Hcase as [(-> & Hdel)|(Hneg & Hne & Hq & Hsp')]; sp_step; breflect; try lia.
  - sp_step. exists s', f'. split_and!; try done. right. left. exists d. split_and!; [done|lia| |done].
    unfold rest. rewrite Hp', Hu. unfold pending at 2. simpl. rewrite Hz. simpl. unfold pending, frame.
    rewrite Ep, (sp_block _ _ _ _ Hsp), Hr, Hl. cbn [default id]. rewrite take_ge; [done|]. unfold lenZ in *. lia.
  - do 2 sp_step. eapply wp_free_block; [apply Hsp'|]. cbn beta. sp_step.
    destruct (good_free _ _ _ _ Hg' Hsp') as (Hg2 & _). by apply outcome_error.
Qed.

Lemma packet_receive_ok w fuel s f p :
  good s f -> sf_partial_packet f = Some p -> sf_packet_state f = libssh2_NB_state_idle ->
  (rounds + length (unread s) < fuel)%nat ->
  wp (packet_receive transport_send transport_read fuel p) (outcome w s f) (put w s f).
Proof.
  intros Hg Ep Est Hf. unfold packet_receive. sp_step.
  eapply wp_mono; [by apply (receive_loop_ok w)|].
  intros rc w' (s' & f' & -> & Hg' & Hq & [(-> & Hr & Ha)|[(-> & Hr & Ep' & Hc & Est')|(Hneg & Hne & Ha)]]).
  - change (negb (LIBSSH2_ERROR_EAGAIN =? 0)) with true. cbn iota. sp_step. by apply outcome_eagain.
  - cbn [Z.eqb negb]. eapply wp_mono; [by apply packet_done_ok|]. intros rc w'. by apply outcome_from.
  - sp_step; breflect; [|lia]. sp_step. by apply outcome_error.
Qed.

Lemma window_adjust_ok w fuel s f p :
  good s f -> sf_partial_packet f = Some p -> sf_packet_state f = libssh2_NB_state_idle ->
  (rounds + length (unread s) < fuel)%nat ->
  wp (sftp_window_adjust transport_send transport_read fuel p) (outcome w s f) (put w s f).
Proof.
  intros Hg Ep Est Hf. pose proof Hg as [Hok Hs Hc]. unfold sftp_window_adjust. do 4 sp_step. rewrite Hc.
  eapply wp_mono; [by apply in_window|]. intros v s0 ->. cbn beta. sp_step; [|by apply packet_receive_ok].
  do 2 sp_step. eapply wp_mono; [by apply in_adjust|]. intros rc s1 (Hok1 & Hoth & Hu). cbn beta.
  destruct (good_channel _ _ _ Hg Hok1 Hoth) as [Hg1 Hp1]. do 2 sp_step.
  set (f1 := f <| sf_packet_state := _ |>).
  destruct (sftp_ok_fields s1 f f1) as [Hok2 Hp2]; [done..|apply Hg1|].
  assert (Hg2 : good s1 f1) by (by split).
  assert (Hr : rest s1 f1 = rest s f) by (unfold rest; congruence).
  destruct (Z.eqb_spec rc LIBSSH2_ERROR_EAGAIN) as [->|Hne]; subst f1.
  - sp_step. apply outcome_eagain; try done. unfold at_rest. simpl. rewrite Ep. by left.
  - eapply wp_mono; [apply packet_receive_ok; [done..|by rewrite Hu]|]. intros rc' w'. by apply outcome_from.
Qed.

(** The packet that is next is not longer than the limit. *)
Definition within (s : session) (f : LIBSSH2_SFTP) : Prop :=
  forall len, ntohu32 (take 4 (rest s f)) 0 = Some len -> len <= LIBSSH2_SFTP_PACKET_MAXLEN.

(** The length's bytes as they are. *)
Lemma good_size s f l :
  good s f -> sf_partial_packet f = None -> lenZ l <= 4 -> bytes_ok l ->
  forall f', sf_partial_packet f' = None -> sf_partial_size f' = l -> sf_packets f' = sf_packets f ->
    sf_channel f' = sf_channel f -> good s f' /\ pending s f' = l.
Proof.
  intros [Hok [Hn Ho Hk Hp] Hc] Ep Hl Hb f' Ep' Es Eq Ec. unfold blocks in *. rewrite Ep in Hn, Ho.
  split; [split; [done| |by rewrite Ec]|unfold pending; by rewrite Ep'].
  split; unfold blocks; rewrite ?Ep', ?Eq; try done. unfold partial_ok. by rewrite Ep', Es.
Qed.

(** A new block for a packet of [len] bytes. *)
Lemma good_new s f len al :
  good s f -> sf_partial_packet f = None -> 0 < len <= LIBSSH2_SFTP_PACKET_MAXLEN ->
  sf_partial_len f = len ->
  let p := s_next_ptr s in
  let s' := s <| s_alloc := al |> <| s_heap ::= <[p := replicate (Z.to_nat len) 0]> |> <| s_next_ptr := Pos.succ p |> in
  let f' := f <| sf_partial_size := [] |> <| sf_partial_received := 0 |> <| sf_partial_packet := Some p |> in
  good s' f' /\ unread s' = unread s /\ pending s' f' = htonu32 len.
Proof.
  intros Hg Ep Hl El p s' f'. pose proof Hg as [Hok Hs Hc]. pose proof (good_heap _ _ Hg) as Hh.
  assert (Hfresh : s_heap s !! p = None) by (apply Hh; lia).
  assert (Hq : not_queued s p).
  { intros Hin. destruct (in_live s p Hok) as [? E]; [intros H; by apply H|]. by rewrite E in Hfresh. }
  assert (Hb : p ∉ blocks f).
  { intros Hin. destruct (blocks_live _ _ _ Hs Hin) as [? E]. by rewrite E in Hfresh. }
  assert (Hst : own_step s s').
  { eapply own_step_trans; [by apply (own_step_alloc s al)|].
    apply own_step_fresh; [|apply Forall_replicate; by split|done]. by apply (own_step_alloc s al). }
  destruct (good_own s s' f Hg Hst) as (Hg' & Hu & _).
  { intros q Hin. unfold s'. simpl. rewrite lookup_insert_ne; [done|]. by intros <-. }
  split_and!; [|done|unfold pending, f', s'; simpl; by rewrite El].
  destruct Hg' as [Hok' [Hn Ho Hk Hp] _]. split; [done| |done].
  assert (Hbs : blocks f' = p :: blocks f) by (unfold blocks, f'; simpl; by rewrite Ep).
  split; rewrite ?Hbs; [by apply NoDup_cons|by apply Forall_cons|done|].
  unfold partial_ok, f'. simpl. rewrite El. split_and!; try done; try lia. eexists.
  split; [apply lookup_insert_eq|]. unfold lenZ. rewrite length_replicate. lia.
Qed.

Lemma packet_start_ok w fuel s f :
  good s f -> sf_partial_packet f = None -> sf_packet_state f = libssh2_NB_state_idle ->
  within s f -> (rounds + length (unread s) < fuel)%nat ->
  wp (packet_start transport_send transport_read fuel) (outcome w s f) (put w s f).
Proof.
  intros Hg Ep Est Hw Hf. pose proof Hg as [Hok [_ _ _ Hp] Hc]. unfold partial_ok in Hp. rewrite Ep in Hp.
  destruct Hp as [H4 Hb]. unfold packet_start. do 4 sp_step. rewrite Hc.
  eapply wp_mono; [apply in_read; [done|lia|lia]|]. intros r s1 (Hok1 & Hoth & Hcase). cbn beta zeta.
  destruct (good_channel s s1 f Hg Hok1 Hoth) as [Hg1 Hp1].
  assert (Hrest0 : at_rest f) by (unfold at_rest; by rewrite Ep). sp_step; breflect.
  { destruct Hcase as [(_ & Hu)|(? & _)]; [|unfold LIBSSH2_ERROR_EAGAIN in *; lia]. sp_step. rewrite E.
    apply outcome_eagain; [done..|unfold rest; congruence|done]. }
  sp_step; breflect.
  { do 2 sp_step. destruct (good_same _ _ _ Hg1 Hs) as (Hg2 & _). by apply outcome_error. }
  destruct Hcase as [(? & _)|(Hr1 & _ & Hlr & Hbr & Hu)]; [lia|].
  do 2 sp_step. set (f1 := f <| sf_partial_size ::= _ |>). set (l := sf_partial_size f ++ r.2). do 2 sp_step.
  change (sf_partial_size f1) with l.
  assert (Hl : lenZ l <= 4) by (unfold l; rewrite lenZ_app; lia).
  assert (Hbl : bytes_ok l) by (by apply Forall_app).
  pose proof (good_size s1 f l Hg1 Ep Hl Hbl) as Hgs.
  assert (Hstr : rest s f = l ++ unread s1) by (unfold rest, pending, l; by rewrite Ep, Hu, app_assoc).
  sp_step; breflect.
  { sp_step. destruct (Hgs f1) as [Hg2 Hp2]; [done..|].
    apply outcome_eagain; try done. rewrite Hstr. unfold rest. by rewrite Hp2. }
  sp_step. destruct (ntohu32_in l 0) as [len Hlen]; [lia..|]. eapply wp_access; [done|]. do 2 sp_step.
  set (f2 := _ <| sf_partial_len := len |>).
  destruct (Hgs f2) as [Hg2 Hp2]; [done..|]. pose proof (ntohu32_range l 0 len Hbl Hlen) as Hrg.
  assert (Hmax : len <= LIBSSH2_SFTP_PACKET_MAXLEN).
  { apply Hw. rewrite Hstr, take_app_length'; [done|]. unfold lenZ in *. lia. }
  sp_step; breflect; [lia|]. sp_step; breflect.
  { do 2 sp_step. destruct (good_same _ _ _ Hg2 Hs) as (Hg3 & _). by apply outcome_error. }
  do 2 sp_step. apply wp_alloc_block.
  { intros al. do 2 sp_step.
    assert (Hs' : own_only s1 s0 /\ s_heap s0 = s_heap s1 /\ s_next_ptr s0 = s_next_ptr s1).
    { destruct Hs as (? & ? & ?). split_and!; [|done..]. eapply own_only_trans; [|done]. by destruct s1. }
    destruct (good_same _ _ _ Hg2 Hs') as (Hg3 & _). by apply outcome_error. }
  intros al. do 2 sp_step. destruct (good_new s1 f2 len al Hg2) as (Hg3 & Hu3 & Hp3); [done|lia|done|].
  eapply wp_mono; [apply window_adjust_ok; [done..|]|].
  - rewrite Hu3. rewrite Hu, length_app in Hf. lia.
  - intros rc w'. apply outcome_from; [|done]. rewrite Hstr. unfold rest. rewrite Hp3, Hu3. f_equal.
    apply htonu32_ntohu32; [unfold lenZ in *; lia|done|done].
Qed.

(** One call. *)
Lemma packet_read_ok w fuel s f :
  good s f -> at_rest f -> within s f -> (rounds + length (unread s) < fuel)%nat ->
  wp (sftp_packet_read transport_send transport_read fuel) (outcome w s f) (put w s f).
Proof.
  intros Hg Ha Hw Hf. unfold sftp_packet_read. do 2 sp_step. unfold at_rest in Ha.
  set (f1 := f <| sf_packet_state := libssh2_NB_state_idle |>).
  destruct (sftp_ok_fields s f f1) as [Hok1 Hp1]; [done..|apply Hg|].
  assert (Hg1 : good s f1) by (destruct Hg; by split).
  assert (Hr1 : rest s f1 = rest s f) by (unfold rest; congruence).
  destruct (sf_partial_packet f) as [p|] eqn:Ep.
  - destruct Ha as [-> | ->].
    + change (nb_is libssh2_NB_state_sent libssh2_NB_state_sent) with true. do 3 sp_step.
      eapply wp_access; [done|]. eapply wp_mono; [by apply window_adjust_ok|]. intros rc w'. by apply outcome_from.
    + change (nb_is libssh2_NB_state_sent1 libssh2_NB_state_sent) with false.
      change (nb_is libssh2_NB_state_sent1 libssh2_NB_state_sent1) with true. do 2 sp_step.
      eapply wp_mono; [by apply packet_receive_ok|]. intros rc w'. by apply outcome_from.
  - rewrite Ha. change (nb_is libssh2_NB_state_idle libssh2_NB_state_sent) with false.
    change (nb_is libssh2_NB_state_idle libssh2_NB_state_sent1) with false. cbn iota. by apply packet_start_ok.
Qed.
End Input.
