(* ===== verification/SftpFrames.v ===== *)
(** * SFTP packets as the frames of a channel's stream

    [sftp_packet_read] refines a queue of packets: a packet is a length and that many
    bytes, the stream is their concatenation, and each successful call moves the first
    packet of the stream to the end of the SFTP queue. The channel behind it is the
    one of [ChannelIO]: [channel_input] discharges the interface. *)

From stdpp Require Import base numbers list gmap strings.
From S2P Require Import Prelude Codes CString KexMethods Wire Session ChannelWindow Packet Conn PacketSafety Comp PacketSpec ChannelIO ChannelStream Blocking SftpCodec Sftp SftpSpec.

(** ** Frames *)

Definition legal (d : list Z) : Prop := lenZ d <= LIBSSH2_SFTP_PACKET_MAXLEN.

Lemma htonu32_inj a b : 0 <= a < 2 ^ 32 -> 0 <= b < 2 ^ 32 -> htonu32 a = htonu32 b -> a = b.
Proof.
  intros Ha Hb E. pose proof (ntohu32_htonu32 [] a [] Ha) as Ea. pose proof (ntohu32_htonu32 [] b [] Hb) as Eb.
  rewrite E in Ea. congruence.
Qed.

Lemma legal_u32 d : legal d -> 0 <= lenZ d < 2 ^ 32.
Proof. unfold legal, LIBSSH2_SFTP_PACKET_MAXLEN. pose proof (lenZ_nonneg d). lia. Qed.

Lemma frame_inj d d' x y : legal d -> legal d' -> frame d ++ x = frame d' ++ y -> d = d' /\ x = y.
Proof.
  intros Hd Hd' E. unfold frame in E. rewrite <- !app_assoc in E.
  apply app_inj_1 in E as [E1 E2]; [|done]. apply htonu32_inj in E1; [|by apply legal_u32..].
  apply app_inj_1 in E2; [done|]. unfold lenZ in E1. lia.
Qed.

Definition frames (ds : list (list Z)) : list Z := concat (frame <$> ds).

Lemma frames_cons d ds : frames (d :: ds) = frame d ++ frames ds.
Proof. done. Qed.

(** The first frame of a stream is determined. *)
Lemma frames_first d x ds :
  legal d -> Forall legal ds -> frame d ++ x = frames ds -> exists ds', ds = d :: ds' /\ x = frames ds'.
Proof.
  intros Hd Hds E. destruct ds as [|d' ds]; [done|]. rewrite frames_cons in E.
  apply Forall_cons in Hds as [Hd' _]. destruct (frame_inj _ _ _ _ Hd Hd' E) as [<- ->]. eauto.
Qed.

(** The length the stream begins with is that of its first packet. *)
Lemma frames_length l x ds len :
  Forall legal ds -> l ++ x = frames ds -> ntohu32 (take 4 l) 0 = Some len ->
  len <= LIBSSH2_SFTP_PACKET_MAXLEN.
Proof.
  intros Hds E Hn.
  assert (H4 : length (take 4 l) = 4%nat).
  { rewrite length_take. destruct (decide (4 <= length l)%nat); [lia|].
    unfold ntohu32 in Hn. apply bind_Some in Hn as (b0 & _ & Hn). apply bind_Some in Hn as (b1 & _ & Hn).
    apply bind_Some in Hn as (b2 & _ & Hn). apply bind_Some in Hn as (b3 & H3 & _).
    unfold byte_at in H3. simpl in H3. apply lookup_lt_Some in H3. rewrite length_take in H3. lia. }
  destruct ds as [|d ds]; [by destruct l|]. apply Forall_cons in Hds as [Hd _].
  rewrite frames_cons in E. unfold frame in E. rewrite <- (take_drop 4 l), <- !app_assoc in E.
  apply app_inj_1 in E as [E _]; [|done]. rewrite E in Hn.
  pose proof (ntohu32_htonu32 [] (lenZ d) [] (legal_u32 _ Hd)) as Hn'. rewrite app_nil_r in Hn'.
  change (ntohu32 (htonu32 (lenZ d)) 0 = Some (lenZ d)) in Hn'. rewrite Hn' in Hn. by simplify_eq.
Qed.

(** ** Refinement *)

(** C10: [sftp_packet_read] takes the packets of the channel's byte stream one by
    one. Let the bytes already taken (in [partial_size] and [partial_packet]), those
    still to be read from the channel and any [later] ones be the concatenation of
    the frames [ds]. A call returns, whatever sizes the reads of the channel have:
    it would block, and not a byte of the stream is lost; or the first packet of [ds],
    whole, is at the end of the queue (or was the answer to a request given up and is
    gone with the note of it), and the stream goes on with the next; or it fails with
    the queue as before. The layer's invariant holds again. *)
Theorem sftp_packet_read_frames transport_send transport_read ch rounds ok unread
    `{!ChannelInput transport_send transport_read ch rounds ok unread} fuel w s f later ds
    (Hgood : good ch ok s f) (Hrest : at_rest f) (Hds : Forall legal ds)
    (Hstream : rest unread s f ++ later = frames ds)
    (Hfuel : (rounds + length (unread s) < fuel)%nat) :
  exists rc s' f',
    sftp_packet_read transport_send transport_read fuel (put w s f) = Ret rc (put w s' f') /\
    good ch ok s' f' /\ at_rest f' /\
    ((rc = LIBSSH2_ERROR_EAGAIN /\ rest unread s' f' ++ later = frames ds /\ queue_kept f f') \/
     (exists d ds', ds = d :: ds' /\ byte_at d 0 = Some rc /\ rest unread s' f' ++ later = frames ds' /\
        delivered d s' f f') \/
     (rc < 0 /\ rc <> LIBSSH2_ERROR_EAGAIN /\ queue_kept f f')).
Proof.
  assert (Hw : within unread s f) by (intros len; by eapply frames_length).
  destruct (wp_Ret _ _ _ (packet_read_ok _ _ _ _ _ _ w fuel s f Hgood Hrest Hw Hfuel))
    as (rc & w' & E & s' & f' & -> & Hg & Ha & Hcase).
  exists rc, s', f'. split_and!; [done..|].
  destruct Hcase as [(-> & Hr & Hq)|[(d & Hb & Hl & Hr & Hd)|?]]; [left|right; left|by right; right].
  - by rewrite Hr.
  - rewrite Hr, <- app_assoc in Hstream. apply frames_first in Hstream as (ds' & -> & ?); [|done..].
    exists d, ds'. done.
Qed.

(** ** What an operation preserves *)

Definition stable {S A} (I : S -> Prop) (m : M S A) : Prop :=
  forall s a s', m s = Ret a s' -> I s -> I s'.

Section Stable.
Context {S : Type} (I : S -> Prop).

Lemma stable_bind {A C} (m : M S A) (k : A -> M S C) :
  stable I m -> (forall a, stable I (k a)) -> stable I (bind m k).
Proof. intros Hm Hk s b s' (a & s1 & E1 & E2)%bind_Ret_inv Hs. eapply Hk; [exact E2|]. by eapply Hm. Qed.
Lemma stable_ret {A} (a : A) : stable I (ret a).
Proof. by intros s b s' [= <- <-]. Qed.
Lemma stable_gets {A} (f : S -> A) : stable I (gets f).
Proof. by intros s b s' [= <- <-]. Qed.
Lemma stable_access {A} (o : option A) : stable I (access o).
Proof. destruct o; [apply stable_ret|done]. Qed.
Lemma stable_modify f : (forall s, I s -> I (f s)) -> stable I (modify f).
Proof. intros H s a s' [= <- <-]. apply H. Qed.
End Stable.

Ltac stable_step :=
  cbn beta iota zeta;
  match goal with
  | |- stable _ (bind _ _) => apply stable_bind; [|intros ?]
  | |- stable _ (modify _) => apply stable_modify
  | |- stable _ (if ?b then _ else _) => destruct b
  | |- stable _ (match ?x with _ => _ end) => destruct x
  | |- stable _ (ret _) => apply stable_ret
  | |- stable _ (gets _) => apply stable_gets
  | |- stable _ (access _) => apply stable_access
  | |- stable _ fault => done
  end.
Ltac stable_all := repeat stable_step.

Lemma stable_error (I : session -> Prop) code msg :
  (forall s s', own_only s s' -> s_heap s' = s_heap s -> I s -> I s') -> stable I (error code msg).
Proof.
  intros H s a s' E Hs.
  assert (Hw : wp (error code msg) (fun _ s' => I s') s) by (apply wp_error_own; intros s1 (? & ? & _); by eapply H).
  unfold wp in Hw. by rewrite E in Hw.
Qed.

(** ** The channel behind it *)

(** The fields of a channel that reading from it leaves alone. *)
Record chan_ident := mk_chan_ident {
  ci_id : Z;
  ci_mode : Z;
  ci_eof : bool;
  ci_close : bool;
  ci_write_state : libssh2_nonblocking_states;
  ci_write_bufwrite : Z
}.

Definition ident (c : channel) : chan_ident :=
  mk_chan_ident (cd_id (local c)) (cd_extended_data_ignore_mode (remote c)) (cd_eof (remote c))
    (cd_close (remote c)) (write_state c) (write_bufwrite c).

Definition open_ident (id mode : Z) (i : chan_ident) : Prop :=
  ci_id i = id /\ ci_mode i = mode /\ ci_eof i = false /\ ci_close i = false.

Section Channel.
Context (transport_send : list Z -> list Z -> CM Z) `{!Transport transport_send}.
(** The channel, its number and its mode for extended data. *)
Context (ch : ptr) (id mode : Z).
(** What is known of the fields that reading leaves alone. *)
Context (known : chan_ident -> Prop).
Context (known_open : forall i, known i -> open_ident id mode i).

(** Nothing more arrives. *)
Let quiet_transport : CM Z := ret LIBSSH2_ERROR_EAGAIN.

(** The channel is open. *)
Definition channel_open (s : session) : Prop :=
  conn_ok s /\ can_send s /\ exists c, s_chans s !! ch = Some c /\ known (ident c).

Definition channel_unread (s : session) : list Z :=
  stream_bytes id mode 0 (s_heap s) (packets s).

Lemma conn_ok_own s s' : conn_ok s -> own_step s s' -> conn_ok s'.
Proof.
  intros [H1 H2 H3 H4 H5 H6 H7 H8 H9] [Hf [Hb Hfr] Hn Hq]. rewrite Hf in *. split; simpl in *; try done.
  - rewrite Forall_forall in H5 |- *. intros k Hk. destruct (H5 k Hk) as (d & Hd & ?). exists d.
    split; [|done]. rewrite Hq; [done|]. apply list_elem_of_fmap. eauto.
  - intros p Hp. apply H7. lia.
Qed.

Lemma channel_unread_own s s' : own_step s s' -> channel_unread s' = channel_unread s.
Proof.
  intros Hst. unfold channel_unread. rewrite (own_packets _ _ (own_fields _ _ Hst)).
  apply stream_bytes_heap. intros k Hk. apply (own_queue _ _ Hst). apply list_elem_of_fmap. eauto.
Qed.

Lemma channel_open_own s s' : channel_open s -> own_step s s' -> channel_open s'.
Proof.
  intros (H1 & H2 & H3) Hst. split; [by eapply conn_ok_own|]. by rewrite (own_fields _ _ Hst).
Qed.

Lemma others_kept_heap s s' : s_heap s' = s_heap s -> packets s' = packets s -> others_kept s s'.
Proof. intros E1 E2 q d. unfold not_queued. by rewrite E1, E2. Qed.

Lemma others_kept_trans s1 s2 s3 : others_kept s1 s2 -> others_kept s2 s3 -> others_kept s1 s3.
Proof. intros H12 H23 q d Hd Hq. destruct (H12 q d Hd Hq). by apply H23. Qed.

(** *** The window *)

(** The connection is the same but for the counters of the channel. *)
Definition counters_only (s s' : session) : Prop :=
  quiet s s' /\ ident <$> s_chans s' !! ch = ident <$> s_chans s !! ch.

Lemma counters_refl s : counters_only s s.
Proof. done. Qed.

Lemma counters_trans s1 s2 s3 : counters_only s1 s2 -> counters_only s2 s3 -> counters_only s1 s3.
Proof. intros [? E1] [? E2]. split; [by etrans|by rewrite E2, E1]. Qed.

Lemma counters_conn s s' : same_conn s s' -> counters_only s s'.
Proof. intros H. split; [by apply same_conn_quiet|by rewrite (same_chans _ _ H)]. Qed.

Lemma counters_chan s c c' :
  s_chans s !! ch = Some c -> (chan_ok c -> chan_ok c') -> ident c' = ident c ->
  counters_only s (s <| s_chans ::= <[ch := c']> |>).
Proof.
  intros Hc Hok Hi. split; [by eapply quiet_set_chan|]. simpl. rewrite lookup_insert_eq, Hc. simpl. by rewrite Hi.
Qed.

Lemma counters_open s s' :
  channel_open s -> counters_only s s' ->
  channel_open s' /\ others_kept s s' /\ channel_unread s' = channel_unread s.
Proof.
  intros (H1 & H2 & c & Hc & Hkn) [[Hok Hh Hp Hcs] Hi]. unfold channel_open, channel_unread.
  rewrite Hh, Hp. split_and!; auto; [|by apply others_kept_heap].
  rewrite Hc in Hi. destruct (s_chans s' !! ch) as [c'|]; [|done]. exists c'. split; [done|].
  injection Hi. intros. destruct c, c'. unfold ident in *. simpl in *. congruence.
Qed.

Definition adjust_post (s : session) (rc : Z) (s' : session) : Prop := rc <= 0 /\ counters_only s s'.

Lemma window_adjust_send_kept adj s c :
  can_send s -> is_u32 adj -> s_chans s !! ch = Some c ->
  wp (window_adjust_send transport_send ch adj) (adjust_post s) s.
Proof.
  intros Hk Ha Hc. unfold window_adjust_send. wp_step. eapply wp_chan; [done|]. wp_step.
  apply wp_send; [done|done|]. intros rc s1 H1 _. pose proof (counters_conn _ _ H1) as Hq.
  rewrite <- (same_chans _ _ H1) in Hc. wp_step; breflect; [|wp_step; breflect].
  - wp_step. apply wp_error. intros s2 H2 _. wp_step. subst rc. split; [done|].
    eapply counters_trans; [exact Hq|by apply counters_conn].
  - wp_step. eapply wp_set_chan; [done|]. apply wp_error. intros s2 H2 _. split; [done|].
    eapply counters_trans; [exact Hq|]. eapply counters_trans; [|by apply counters_conn].
    eapply counters_chan; [done|solve_chan_ok|done].
  - wp_step. eapply wp_set_chan; [done|]. wp_step. eapply wp_set_chan; [apply lookup_insert_eq|]. wp_step.
    split; [done|]. eapply counters_trans; [exact Hq|].
    eapply counters_trans; [|eapply counters_chan; [apply lookup_insert_eq|solve_chan_ok|done]].
    eapply counters_chan; [done|solve_chan_ok|done].
Qed.

Lemma window_adjust_kept adj force s c :
  can_send s -> s_chans s !! ch = Some c ->
  wp (channel_receive_window_adjust transport_send ch adj force) (adjust_post s) s.
Proof.
  intros Hk Hc. unfold channel_receive_window_adjust. cbv zeta. wp_step. eapply wp_chan; [done|].
  wp_step; [|eapply window_adjust_send_kept; [done|apply u32_range|done]].
  wp_step; [|wp_step]; wp_step.
  - eapply wp_set_chan; [done|]. wp_step. split; [done|]. eapply counters_chan; [done|solve_chan_ok|done].
  - by split.
  - eapply wp_set_chan; [done|]. eapply wp_mono.
    + eapply window_adjust_send_kept; [done|apply u32_range|apply lookup_insert_eq].
    + intros rc s' [? Hs']. split; [done|]. eapply counters_trans; [|exact Hs'].
      eapply counters_chan; [done|solve_chan_ok|done].
Qed.

Lemma read_widen_kept n s c :
  can_send s -> s_chans s !! ch = Some c -> wp (read_widen transport_send ch n) (adjust_post s) s.
Proof.
  intros Hk Hc. unfold read_widen. wp_step. eapply wp_chan; [done|]. wp_step; [|wp_step; by split].
  wp_step. eapply wp_set_chan; [done|]. wp_step.
  set (s1 := s <| s_chans ::= _ |>).
  assert (Hs1 : counters_only s s1) by (eapply counters_chan; [done|solve_chan_ok|done]).
  eapply wp_mono; [eapply (window_adjust_kept _ _ s1); [done|apply lookup_insert_eq]|].
  intros rc s2 [Hrc Hs2]. pose proof (counters_trans _ _ _ Hs1 Hs2) as Hs. wp_step; [by wp_step|].
  destruct Hs as [Hq Hi]. rewrite Hc in Hi. destruct (s_chans s2 !! ch) as [c2|] eqn:Hc2; [|done].
  wp_step. eapply wp_set_chan; [done|]. wp_step. split; [done|].
  eapply counters_trans; [by split; [|rewrite Hc2, Hi, Hc]|]. eapply counters_chan; [done|solve_chan_ok|done].
Qed.

(** *** Reading *)

(** The block [q] of somebody else. *)
Definition kept_block (q : ptr) (d : list Z) (s : session) : Prop :=
  s_heap s !! q = Some d /\ not_queued s q.

Lemma read_loop_others q d n : forall rest seen acc,
  q ∉ pk_data <$> seen ++ rest -> stable (kept_block q d) (read_loop ch 0 n seen rest acc).
Proof.
  induction rest as [|k rest IH]; intros seen acc Hq; cbn [read_loop]; [apply stable_ret|].
  assert (Hk : q <> pk_data k /\ q ∉ pk_data <$> seen ++ rest).
  { rewrite fmap_app in *. simpl in Hq. rewrite elem_of_app, elem_of_cons in *. tauto. }
  destruct Hk as [Hk Hr].
  assert (Hs : forall k' acc, pk_data k' = pk_data k ->
    stable (kept_block q d) (read_loop ch 0 n (seen ++ [k']) rest acc)).
  { intros k' acc' E. apply IH. rewrite <- app_assoc, fmap_app. simpl. by rewrite E, <- fmap_cons, <- fmap_app. }
  unfold block, set_chan, chan, stream_packet, free_block. stable_all; try by apply Hs.
  - done.
  - intros s [Hd Hn]. split; [done|]. unfold not_queued. simpl. done.
  - intros s [Hd Hn]. split; [|done]. simpl. by rewrite lookup_delete_ne.
  - by apply IH.
  - intros s [Hd Hn]. split; [done|]. unfold not_queued. simpl. rewrite fmap_app in *. exact Hq.
Qed.

Lemma read_collect_others n rc s r s' : read_collect ch 0 n rc s = Ret r s' -> others_kept s s'.
Proof.
  intros (ps & s1 & [= <- <-] & E)%bind_Ret_inv q d Hd Hq. enough (kept_block q d s') as [] by done.
  assert (Hk : kept_block q d s) by done. revert E Hk. apply stable_bind; [by apply read_loop_others|].
  intros bytes. unfold set_chan, chan. stable_all; try done. apply stable_error. intros s1 s2 Ho Hh [? ?].
  split; [by rewrite Hh|by eapply own_not_queued].
Qed.

(** The channel stays open and sending possible. *)
Definition kept_open (s : session) : Prop :=
  can_send s /\ exists c, s_chans s !! ch = Some c /\ known (ident c).

Lemma stable_set_chan g : (forall c, ident (g c) = ident c) -> stable kept_open (set_chan ch g).
Proof.
  intros Hg s a s' (c & s1 & E1 & E2)%bind_Ret_inv [Hs (c' & Hc & Hk)].
  apply bind_Ret_inv in E1 as (cs & s2 & [= <- <-] & E1). rewrite Hc in E1.
  simplify_eq/=. injection E1 as -> ->. injection E2 as <- <-. split; [done|]. exists (g c). simpl.
  rewrite lookup_insert_eq. by rewrite Hg.
Qed.

Lemma read_loop_open n : forall rest seen acc, stable kept_open (read_loop ch 0 n seen rest acc).
Proof.
  induction rest as [|k rest IH]; intros seen acc; cbn [read_loop]; [apply stable_ret|].
  unfold block, stream_packet, free_block. stable_all; try apply IH; try done; [by apply stable_set_chan|unfold chan; by stable_all].
Qed.

Lemma read_collect_open n rc : stable kept_open (read_collect ch 0 n rc).
Proof.
  unfold read_collect. stable_all; [apply read_loop_open|unfold chan; by stable_all|..].
  - apply stable_error. intros s1 s2 Ho _ [? ?]. split; by rewrite Ho.
  - by apply stable_set_chan.
Qed.

Lemma stream_bytes_ok s : conn_ok s -> bytes_ok (channel_unread s).
Proof.
  intros Hok. apply Forall_concat, Forall_fmap, Forall_forall. intros k _. simpl.
  destruct (in_stream _ _ _ _ k); [|constructor]. unfold unread.
  destruct (s_heap s !! pk_data k) as [d|] eqn:Hd; [|constructor].
  apply slice_bytes_ok. by apply (ok_heap s Hok (pk_data k)).
Qed.

Lemma bytes_queued_ok s c (Q : Z -> session -> Prop) :
  conn_ok s -> (forall n, Q n s) -> wp (bytes_queued c (packets s)) Q s.
Proof.
  intros Hok. pose proof (ok_packets s Hok) as Hp. clear Hok. revert Q.
  induction Hp as [|k ks (d & Hd & Hl & Hr & Hn) _ IH]; intros Q HQ; cbn [bytes_queued]; [by wp_step|].
  wp_step; [by apply IH|]. breflect. wp_step. eapply wp_block; [done|]. wp_step.
  apply wp_byte_at; [lia|]. intros ty. wp_step.
  apply (wp_mono _ (fun _ s' => s' = s)).
  - wp_step; [|by wp_step]. breflect. wp_step. destruct (ntohu32_in d 1) as [v Hv]; [lia..|].
    eapply wp_access; [done|]. by wp_step.
  - intros ours s' ->. wp_step. apply IH. intros n. by wp_step.
Qed.

(** The channel is what the SFTP layer relies on. *)
Lemma channel_input :
  ChannelInput transport_send quiet_transport ch 1 channel_open channel_unread.
Proof.
  split.
  - intros s s' Ho Hst. split; [by eapply channel_open_own|by apply channel_unread_own].
  - intros s (H & _). by apply conn_heap_ok.
  - intros s q (H & _) Hq. unfold not_queued in Hq.
    destruct (decide (q ∈ pk_data <$> packets s)) as [Hin|]; [|done].
    apply list_elem_of_fmap in Hin as (k & -> & Hin). pose proof (ok_packets s H) as Hp.
    rewrite Forall_forall in Hp. destruct (Hp k Hin) as (d & -> & _). eauto.
  - intros fuel n s Ho Hf Hn. pose proof Ho as (Hok & Hcs & c & Hc & Hi). unfold channel_read. wp_step.
    eapply wp_mono; [by eapply read_widen_kept|]. intros rw s1 [Hrw Hk].
    destruct (counters_open s s1 Ho Hk) as (Ho1 & Hoth & Hu). wp_step; breflect.
    { wp_step. split_and!; [done..|]. left. simpl. split; [lia|done]. }
    destruct fuel as [|fuel]; [lia|]. cbn [transport_drain]. unfold quiet_transport. do 3 wp_step.
    change (0 <? LIBSSH2_ERROR_EAGAIN) with false. wp_step.
    change ((LIBSSH2_ERROR_EAGAIN <? 0) && negb (LIBSSH2_ERROR_EAGAIN =? LIBSSH2_ERROR_EAGAIN)) with false.
    cbn iota. pose proof Ho1 as (Hok1 & Hcs1 & c1 & Hc1 & Hi1).
    destruct (wp_Ret _ _ _ (read_collect_ok ch 0 n LIBSSH2_ERROR_EAGAIN s1 c1 Hok1 Hc1 Hn)) as (r & s' & Er & Hr).
    unfold wp. rewrite Er. destruct (known_open _ Hi1) as (Hid & Hmode & Heof & Hclose). simpl in *.
    destruct Hr as (Hok' & Hb & Hst & _ & Hrc). rewrite Hid, Hmode in Hb, Hst.
    destruct (read_collect_open n _ _ _ _ Er) as [Hcs' Hi'].
    { split; [done|]. by exists c1. }
    split_and!; [by split|eapply others_kept_trans; [exact Hoth|by eapply read_collect_others]|].
    fold (channel_unread s1) in Hb, Hst. fold (channel_unread s') in Hst. rewrite <- Hu.
    case_decide as Hnil.
    + left. rewrite Hrc, Heof, Hclose. change (negb (LIBSSH2_ERROR_EAGAIN =? LIBSSH2_ERROR_EAGAIN)) with false.
      split; [done|]. rewrite Hst. rewrite Hnil in Hb.
      rewrite <- (take_drop (Z.to_nat n) (channel_unread s1)) at 2. by rewrite <- Hb.
    + right. destruct Hrc as [Hrc _]. split_and!.
      * rewrite Hrc. apply lenZ_nonneg.
      * rewrite Hrc, Hb. unfold lenZ. rewrite length_take. lia.
      * intros _. rewrite Hrc. destruct r.2; [done|]. unfold lenZ. simpl. lia.
      * done.
      * rewrite Hb. apply Forall_take. by apply stream_bytes_ok.
      * rewrite Hb, Hst. by rewrite take_drop.
  - intros s (Hok & Hcs & c & Hc & Hi). unfold channel_window_read_ex. wp_step. eapply wp_chan; [done|]. do 2 wp_step. wp_step.
    apply bytes_queued_ok; [done|]. intros n. by wp_step.
  - intros n s Ho. pose proof Ho as (Hok & Hcs & c & Hc & Hi).
    eapply wp_mono; [by eapply window_adjust_kept|]. intros rc s1 [_ Hk]. by apply counters_open.
Qed.
End Channel.

(** The answer to the request 7, a status message, in two pieces of channel data. *)
Definition status_7 : list Z := [SSH_FXP_STATUS; 0; 0; 0; 7; 0; 0; 0; 0].

Definition framed_session : session :=
  session_0 <| s_heap := {[ 2%positive := [SSH_MSG_CHANNEL_DATA; 0; 0; 0; 0; 0; 0; 0; 6; 0; 0; 0; 9; 101; 0];
                            3%positive := [SSH_MSG_CHANNEL_DATA; 0; 0; 0; 0; 0; 0; 0; 7; 0; 0; 7; 0; 0; 0; 0] ]} |>
            <| s_chans := {[ 1%positive := sample_channel <| read_avail := 13 |> ]} |>
            <| channels := [1%positive] |> <| s_next_ptr := 4%positive |>
            <| packets := [mk_packet 2%positive 15 9; mk_packet 3%positive 16 9] |>.

Definition framed_world : world :=
  mk_world framed_session (Some (sftp_0 1%positive)) ∅ libssh2_NB_state_idle None 0.

Abbreviation framed_ident := (open_ident 0 LIBSSH2_CHANNEL_EXTENDED_DATA_NORMAL).

#[global] Instance framed_input :
  ChannelInput send_ok (ret LIBSSH2_ERROR_EAGAIN) 1%positive 1 (channel_open 1%positive framed_ident)
    (channel_unread 0 LIBSSH2_CHANNEL_EXTENDED_DATA_NORMAL).
Proof. by apply channel_input; [apply _|]. Qed.

Lemma framed_open : channel_open 1%positive framed_ident framed_session.
Proof.
  split_and!; [|split; [by left|done]|by eexists]. split; simpl; try done.
  - constructor; [|done]. rewrite lookup_singleton_eq. eauto.
  - apply map_Forall_singleton. by repeat split.
  - apply map_Forall_insert_2; [|apply map_Forall_singleton]; by apply (bool_decide_unpack _).
  - repeat constructor; eexists; (split; [reflexivity|]); unfold lenZ; simpl; lia.
  - by apply (bool_decide_unpack _).
  - intros p Hp. apply lookup_singleton_ne. lia.
  - intros p Hp. rewrite !lookup_insert_ne by lia. apply lookup_singleton_ne. lia.
Qed.

Lemma sftp_0_ok s : sftp_ok s (sftp_0 1%positive).
Proof. split; try constructor; simpl; try done. by vm_compute. Qed.

Lemma sftp_packet_read_frames_witness :
  let unread := channel_unread 0 LIBSSH2_CHANNEL_EXTENDED_DATA_NORMAL in
  let good := good 1%positive (channel_open 1%positive framed_ident) in
  let f := sftp_0 1%positive in
  exists rc s' f',
    sftp_packet_read send_ok (ret LIBSSH2_ERROR_EAGAIN) 15 framed_world = Ret rc (put framed_world s' f') /\
    good s' f' /\ at_rest f' /\
    ((rc = LIBSSH2_ERROR_EAGAIN /\ rest unread s' f' ++ [] = frames [status_7] /\ queue_kept f f') \/
     (exists d ds', [status_7] = d :: ds' /\ byte_at d 0 = Some rc /\ rest unread s' f' ++ [] = frames ds' /\
        delivered d s' f f') \/
     (rc < 0 /\ rc <> LIBSSH2_ERROR_EAGAIN /\ queue_kept f f')).
Proof.
  apply (sftp_packet_read_frames send_ok (ret LIBSSH2_ERROR_EAGAIN) 1%positive 1
    (channel_open 1%positive framed_ident)
    (channel_unread 0 LIBSSH2_CHANNEL_EXTENDED_DATA_NORMAL) 15 framed_world framed_session (sftp_0 1%positive)
    [] [status_7]).
  - split; [apply framed_open|apply sftp_0_ok|done].
  - done.
  - by constructor.
  - reflexivity.
  - vm_compute. lia.
Defined.

Example status_7_queued :
  match sftp_packet_read send_ok (ret LIBSSH2_ERROR_EAGAIN) 15 framed_world with
  | Ret rc w' => rc = SSH_FXP_STATUS /\
      (sf_packets <$> w_sftp w') = Some [mk_sftp_packet 7 4%positive 9] /\
      s_heap (w_session w') !! 4%positive = Some status_7
  | _ => False
  end.
Proof. vm_compute. done. Qed.
