(* ===== verification/SftpWait.v ===== *)
(** * Waiting for the answer to an SFTP request

    [sftp_packet_ask] finds the answer in the queue; [sftp_packet_require] reads
    packets until it is there. The caller becomes the owner of the packet. *)

From stdpp Require Import base numbers list gmap strings.
From S2P Require Import Prelude Codes CString KexMethods Wire Session ChannelWindow Packet Conn PacketSafety Comp PacketSpec ChannelIO ChannelStream Blocking SftpCodec Sftp SftpSpec SftpFrames.

(** The packet answers the request. *)
Definition answers (s : session) (packet_type request_id : Z) (p : sftp_packet) : Prop :=
  (exists d, s_heap s !! sp_data p = Some d /\ byte_at d 0 = Some packet_type) /\
  (packet_type = SSH_FXP_VERSION \/ sp_request_id p = request_id).

Definition ask_post (w : world) (s : session) (f : LIBSSH2_SFTP) (packet_type request_id : Z)
    (r : option (ptr * Z)) (w' : world) : Prop :=
  match r with
  | None => w' = put w s f /\ Forall (fun p => ~ answers s packet_type request_id p) (sf_packets f)
  | Some a => exists pre p post, sf_packets f = pre ++ p :: post /\ a = (sp_data p, sp_data_len p) /\
      Forall (fun p => ~ answers s packet_type request_id p) pre /\ answers s packet_type request_id p /\
      w' = put w s (f <| sf_packets := pre ++ post |>)
  end.

Lemma ask_loop_ok w s f packet_type request_id : forall rest seen,
  Forall (queued_ok s) rest -> sf_packets f = rev seen ++ rest ->
  Forall (fun p => ~ answers s packet_type request_id p) (rev seen) ->
  wp (sftp_ask_loop packet_type request_id seen rest) (ask_post w s f packet_type request_id) (put w s f).
Proof.
  induction rest as [|p rest IH]; intros seen Hq E Hno; cbn [sftp_ask_loop].
  { sp_step. split; [done|]. by rewrite E, app_nil_r. }
  apply Forall_cons in Hq as [(d & Hd & Hl & H5 & _) Hq].
  do 2 sp_step. eapply wp_block; [done|]. sp_step. destruct (byte_at_bytes d 0) as [t Ht]; [lia|].
  eapply wp_access; [done|]. sp_step.
  - apply andb_true_iff in E0 as [Et Ei]. breflect. subst t. do 3 sp_step. exists (rev seen), p, rest.
    split_and!; try done.
    + split; [by exists d|]. destruct Ei as [Ei|Ei]; breflect; auto.
    + by rewrite rev_append_rev.
  - apply IH; [done|simpl; by rewrite <- app_assoc|]. simpl. apply Forall_app. split; [done|].
    constructor; [|done]. intros [(d' & Hd' & Ht') Hid]. rewrite Hd in Hd'. simplify_eq.
    rewrite Z.eqb_refl in E0. simpl in E0. breflect. tauto.
Qed.

(** the answer is found. Asked for a type and a request number,
    [sftp_packet_ask] takes the first packet of the queue of that type that has that
    number (a version message has none) out of the queue, with the others in order,
    and hands its block and length over; without one it changes nothing. *)
Theorem sftp_packet_ask_first w s f packet_type request_id
    (Hq : Forall (queued_ok s) (sf_packets f)) :
  exists r w', sftp_packet_ask packet_type request_id (put w s f) = Ret r w' /\
    ask_post w s f packet_type request_id r w'.
Proof. apply wp_Ret. unfold sftp_packet_ask. do 2 sp_step. by apply ask_loop_ok. Qed.

Section Require.
Context (transport_send : list Z -> list Z -> CM Z) (transport_read : CM Z).
Context (ch : ptr) (rounds : nat) (ok : session -> Prop) (unread : session -> list Z).
Context `{!ChannelInput transport_send transport_read ch rounds ok unread}.

(** A packet leaves the queue and is the caller's. *)
Lemma good_unlink s f pre p post :
  good ch ok s f -> sf_packets f = pre ++ p :: post ->
  let f' := f <| sf_packets := pre ++ post |> in
  good ch ok s f' /\ exists d, spare s f' (sp_data p) d /\ lenZ d = sp_data_len p /\
    ntohu32 d 1 = Some (sp_request_id p).
Proof.
  intros [Hok [Hn Ho Hk Hp] Hc] E f'. unfold blocks in Hn, Ho. rewrite E in Hn, Ho, Hk.
  assert (Hperm : option_list (sf_partial_packet f) ++ (sp_data <$> pre ++ p :: post)
    ≡ₚ sp_data p :: blocks f').
  { unfold blocks, f'. simpl. rewrite !fmap_app, fmap_cons. by solve_Permutation. }
  rewrite Hperm in Hn, Ho. apply NoDup_cons in Hn as [Hn1 Hn2]. apply Forall_cons in Ho as [Ho1 Ho2].
  apply Forall_app in Hk as [Hk1 Hk]. apply Forall_cons in Hk as [(d & Hd & Hl & _ & Hid) Hk2].
  split; [split; [done| |done]; split; try done; by apply Forall_app|]. exists d. done.
Qed.

(** What [sftp_packet_require] promises: the packet is the caller's. *)
Definition require_post (w : world) (packet_type request_id required_size : Z)
    (r : Z * option (ptr * Z)) (w' : world) : Prop :=
  exists s' f', w' = put w s' f' /\ good ch ok s' f' /\ at_rest f' /\
    match r.2 with
    | Some p => r.1 = (if p.2 <? required_size then LIBSSH2_ERROR_BUFFER_TOO_SMALL else LIBSSH2_ERROR_NONE) /\
        exists d, spare s' f' p.1 d /\ lenZ d = p.2 /\ byte_at d 0 = Some packet_type /\
          (packet_type = SSH_FXP_VERSION \/ ntohu32 d 1 = Some request_id)
    | None => r.1 < 0
    end.

Lemma require_result_ok w s f packet_type request_id required_size a w' :
  good ch ok s f -> at_rest f -> ask_post w s f packet_type request_id (Some a) w' ->
  require_post w packet_type request_id required_size (sftp_require_result required_size a) w'.
Proof.
  intros Hg Ha (pre & p & post & E & -> & _ & [(d & Hd & Hb) Hid] & ->).
  destruct (good_unlink s f pre p post Hg E) as (Hg' & d' & Hsp & Hl & Hn).
  pose proof (sp_block _ _ _ _ Hsp) as Hd'. rewrite Hd in Hd'. simplify_eq.
  eexists s, _. split_and!; [done|done|done|]. simpl. split; [done|]. exists d'. split_and!; try done.
  destruct Hid as [->|<-]; auto.
Qed.

Lemma require_loop_ok w packet_type request_id required_size later fuel : forall s f ds,
  good ch ok s f -> at_rest f -> Forall legal ds -> rest unread s f ++ later = frames ds ->
  (rounds + length (rest unread s f) < fuel)%nat ->
  wp (sftp_require_loop transport_send transport_read fuel packet_type request_id required_size)
    (require_post w packet_type request_id required_size) (put w s f).
Proof.
  induction fuel as [|fuel IH]; intros s f ds Hg Ha Hds Hst Hf; [lia|]. cbn [sftp_require_loop].
  do 3 sp_step. sp_step; [|sp_step; by exists s, f]. sp_step.
  assert (Hfu : (rounds + length (unread s) < S fuel)%nat) by (unfold rest in Hf; rewrite length_app in Hf; lia).
  assert (Hw : within unread s f) by (intros len; by eapply frames_length).
  eapply wp_mono; [by eapply packet_read_ok|]. intros rc w' (s1 & f1 & -> & Hg1 & Ha1 & Hcase).
  sp_step; breflect; [sp_step; by exists s1, f1|].
  destruct Hcase as [(-> & _)|[(d & _ & Hl & Hr & _)|(? & _)]]; [by unfold LIBSSH2_ERROR_EAGAIN in *; lia| |lia].
  rewrite Hr, <- app_assoc in Hst. apply frames_first in Hst as (ds' & -> & Hst); [|done..].
  apply Forall_cons in Hds as [_ Hds]. sp_step. unfold sftp_packet_ask. do 2 sp_step.
  eapply wp_mono; [by apply ask_loop_ok; [apply Hg1|..]|]. intros [a|] w' Hask.
  - sp_step. by eapply require_result_ok.
  - destruct Hask as [-> _]. eapply IH; [done..|]. rewrite Hr, length_app in Hf. simpl in Hf. lia.
Qed.
Lemma sftp_packet_require_wp fuel w s f later ds packet_type request_id required_size :
  good ch ok s f -> at_rest f -> Forall legal ds -> rest unread s f ++ later = frames ds ->
  (rounds + length (rest unread s f) < fuel)%nat ->
  exists r w',
    sftp_packet_require transport_send transport_read fuel packet_type request_id required_size (put w s f) =
      Ret r w' /\
    require_post w packet_type request_id required_size r w'.
Proof.
  intros Hgood Hrest Hds Hstream Hfuel.
  apply wp_Ret. unfold sftp_packet_require. sp_step; [sp_step; by exists s, f|]. sp_step.
  unfold sftp_packet_ask. do 2 sp_step.
  eapply wp_mono; [by apply ask_loop_ok; [apply Hgood|..]|]. intros [a|] w' Hask.
  - sp_step. by eapply require_result_ok.
  - destruct Hask as [-> _]. by eapply require_loop_ok.
Qed.
End Require.

(** C38: waiting for an answer ends, and with the right packet. With a stream of
    frames ahead, whose reads yield bytes or an error but never 0 ([ChannelInput]; on the end
    of the stream inside a packet the code spins, [sftp_packet_read_eof_hangs]),
    [sftp_packet_require] returns; when it hands a packet over, the
    packet is of the type asked for and has the request's number, its length is
    given truly, it is compared with the size required, and the block is live and
    belongs to the caller alone: neither queue refers to it. Otherwise the result is
    an error, and the layer's invariant holds in every case. *)
Theorem sftp_packet_require_answer transport_send transport_read ch rounds ok unread
    `{!ChannelInput transport_send transport_read ch rounds ok unread}
    fuel w s f later ds packet_type request_id required_size
    (Hgood : good ch ok s f) (Hrest : at_rest f) (Hds : Forall legal ds)
    (Hstream : rest unread s f ++ later = frames ds)
    (Hfuel : (rounds + length (rest unread s f) < fuel)%nat) :
  exists r w',
    sftp_packet_require transport_send transport_read fuel packet_type request_id required_size (put w s f) =
      Ret r w' /\
    require_post ch ok w packet_type request_id required_size r w'.
Proof. by eapply sftp_packet_require_wp. Qed.

Lemma sftp_packet_require_answer_witness :
  exists r w',
    sftp_packet_require send_ok (ret LIBSSH2_ERROR_EAGAIN) 20 SSH_FXP_STATUS 7 9 framed_world = Ret r w' /\
    require_post 1%positive (channel_open 1%positive framed_ident) framed_world
      SSH_FXP_STATUS 7 9 r w'.
Proof.
  apply (sftp_packet_require_answer send_ok (ret LIBSSH2_ERROR_EAGAIN) 1%positive 1
    (channel_open 1%positive framed_ident)
    (channel_unread 0 LIBSSH2_CHANNEL_EXTENDED_DATA_NORMAL) 20 framed_world framed_session (sftp_0 1%positive)
    [] [status_7]).
  - split; [apply framed_open|apply sftp_0_ok|done].
  - done.
  - by constructor.
  - reflexivity.
  - vm_compute. lia.
Defined.

Example answer_7 :
  match sftp_packet_require send_ok (ret LIBSSH2_ERROR_EAGAIN) 20 SSH_FXP_STATUS 7 9 framed_world with
  | Ret r w' => r = (0, Some (4%positive, 9)) /\ (sf_packets <$> w_sftp w') = Some []
  | _ => False
  end.
Proof. vm_compute. done. Qed.

Definition two_answers : LIBSSH2_SFTP :=
  (sftp_0 1%positive) <| sf_packets := [mk_sftp_packet 6 3%positive 9; mk_sftp_packet 7 4%positive 9] |>.

Lemma sftp_packet_ask_first_witness :
  let s := session_0 <| s_heap := {[ 3%positive := [SSH_FXP_STATUS; 0; 0; 0; 6; 0; 0; 0; 0]; 4%positive := status_7 ]} |> in
  exists r w', sftp_packet_ask SSH_FXP_STATUS 7 (put framed_world s two_answers) = Ret r w' /\
    ask_post framed_world s two_answers SSH_FXP_STATUS 7 r w'.
Proof.
  apply sftp_packet_ask_first. repeat constructor; eexists; (split; [reflexivity|]); by vm_compute.
Defined.

(** ** The end of the channel in the middle of a packet *)

(** A packet of nine bytes of which two are there, and a channel at its end. *)
Definition eof_session : session :=
  session_0 <| s_heap := {[ 4%positive := [101; 0; 0; 0; 0; 0; 0; 0; 0] ]} |>
            <| s_chans := {[ 1%positive := sample_channel <| remote := mk_channel_data 7 100 10000 50 true true 0 |> ]} |>
            <| channels := [1%positive] |> <| s_next_ptr := 5%positive |>.

Definition eof_sftp (st : libssh2_nonblocking_states) : LIBSSH2_SFTP :=
  (sftp_0 1%positive) <| sf_partial_packet := Some 4%positive |> <| sf_partial_len := 9 |>
                      <| sf_partial_received := 2 |> <| sf_packet_state := st |>.

(** When the peer ends the channel in the middle of a packet, [sftp_packet_read]
    never returns: [_libssh2_channel_read] yields 0 for ever and the loop takes that
    for progress. *)
Theorem sftp_packet_read_eof_hangs : forall fuel,
  sftp_packet_read send_ok (ret LIBSSH2_ERROR_EAGAIN) fuel
    (put framed_world eof_session (eof_sftp libssh2_NB_state_sent1)) = OutOfFuel.
Proof.
  intros fuel. set (f := eof_sftp libssh2_NB_state_idle). set (w := put framed_world eof_session f).
  transitivity (packet_receive send_ok (ret LIBSSH2_ERROR_EAGAIN) fuel 4%positive w); [reflexivity|].
  unfold packet_receive, bind.
  enough (receive_loop send_ok (ret LIBSSH2_ERROR_EAGAIN) fuel 4%positive w = OutOfFuel) as -> by done.
  induction fuel as [|fuel IH]; [done|]. cbn [receive_loop].
  rewrite (bind_Ret sftp _ w f w) by reflexivity. cbn beta. change (sf_partial_received f <? sf_partial_len f) with true. cbn iota.
  rewrite (bind_Ret _ _ w (0, []) w) by reflexivity. cbn beta zeta iota. cbn [fst snd].
  change (0 =? LIBSSH2_ERROR_EAGAIN) with false. change (0 <? 0) with false. cbn iota.
  rewrite (bind_Ret _ _ w tt w) by (vm_compute; reflexivity). cbn beta.
  rewrite (bind_Ret _ _ w tt w) by reflexivity. exact IH.
Qed.
