(* ===== verification/SftpOps.v ===== *)
(** * SFTP: requests with one answer (sftp.c)

    Each of these operations is a state machine of three steps, kept in its
    [<op>_state], [<op>_packet] and [<op>_request_id]: build the message, send it,
    wait for the answer. They differ in the message, in what they do when only a part
    was sent, and in how they read the answer. *)

From stdpp Require Import base numbers list gmap strings.
From S2P Require Import Prelude Codes CString KexMethods Wire Session ChannelWindow Packet Conn Comp ChannelIO Blocking SftpCodec Sftp.

Definition set_op (n : sftp_op_name) (g : sftp_op -> sftp_op) : SM unit :=
  set_sftp (fun f => f <| sf_ops ::= fun o m => if decide (m = n) then g (o m) else o m |>).
Definition get_op (n : sftp_op_name) : SM sftp_op := let! f := sftp in ret (sf_ops f n).
Definition set_op_state (n : sftp_op_name) (st : libssh2_nonblocking_states) : SM unit :=
  set_op n (fun o => o <| op_state := st |>).

(** [sftp->request_id++]. *)
Definition next_request_id : SM Z :=
  let! f := sftp in
  set_sftp (fun f => f <| sf_request_id := u32 (sf_request_id f + 1) |>) ;; ret (sf_request_id f).

(** A message: its length field and what follows. *)
Definition sftp_message (packet_len type request_id : Z) (body : list Z) : list Z :=
  store_u32 [] (packet_len - 4) ++ type :: htonu32 request_id ++ body.

(** [LIBSSH2_ALLOC(session, packet_len)] and the stores into it: storing behind the
    end of the block is a fault. *)
Definition fill_packet (p : ptr) (packet_len type request_id : Z) (body : list Z) : SM unit :=
  lift (write_block p 0 (sftp_message packet_len type request_id body)).

(** [LIBSSH2_SFTP_STATVFS]. *)
Record LIBSSH2_SFTP_STATVFS := mk_statvfs {
  sv_bsize : Z;
  sv_frsize : Z;
  sv_blocks : Z;
  sv_bfree : Z;
  sv_bavail : Z;
  sv_files : Z;
  sv_ffree : Z;
  sv_favail : Z;
  sv_fsid : Z;
  sv_flag : Z;
  sv_namemax : Z
}.

Section Requests.
Context (transport_send : list Z -> list Z -> CM Z) (transport_read : CM Z) (fuel : nat).

(** [_libssh2_channel_write(channel, 0, packet + off, len)]. *)
Definition write_packet_bytes (p : ptr) (off len : Z) : SM Z :=
  let! f := sftp in
  let! d := lift (block p) in
  let! b := access (bytes_at d off len) in
  lift (channel_write transport_send transport_read fuel (sf_channel f) 0 b).

(** *** Building and sending, with the packet in [<op>_packet] from the start *)

Definition stored_start (n : sftp_op_name) (packet_len type : Z) (body : list Z) (msg : string) : SM (option Z) :=
  let! p := lift (alloc_block (replicate (Z.to_nat packet_len) 0)) in
  set_op n (fun o => o <| op_packet := p |>) ;;
  match p with
  | None => let! e := serror LIBSSH2_ERROR_ALLOC msg in ret (Some e)
  | Some p =>
      let! id := next_request_id in
      set_op n (fun o => o <| op_request_id := id |>) ;;
      fill_packet p packet_len type id body ;;
      set_op_state n libssh2_NB_state_created ;; ret None
  end.

(** The step in the state [created]; a result is returned to the caller. *)
Definition stored_send (n : sftp_op_name) (packet_len write_len : Z) (msg : string) : SM (option Z) :=
  let! o := get_op n in
  let! p := access (op_packet o) in
  let! rc := write_packet_bytes p 0 write_len in
  if rc =? LIBSSH2_ERROR_EAGAIN then ret (Some rc)
  else
    lift (free_block p) ;;
    set_op n (fun o => o <| op_packet := None |>) ;;
    if negb (packet_len =? rc) then
      set_op_state n libssh2_NB_state_idle ;;
      let! e := serror LIBSSH2_ERROR_SOCKET_SEND msg in ret (Some e)
    else set_op_state n libssh2_NB_state_sent ;; ret None.

(** What the operation's text says when it fails. *)
Record op_messages := mk_op_messages {
  msg_alloc : string;
  msg_send : string;
  msg_short : string;
  msg_wait : string
}.

Definition stored_request (n : sftp_op_name) (packet_len type : Z) (body : list Z) (m : op_messages) : SM (option Z) :=
  let! o := get_op n in
  let! r := (if nb_is (op_state o) libssh2_NB_state_idle
             then stored_start n packet_len type body (msg_alloc m) else ret None) in
  match r with
  | Some e => ret (Some e)
  | None =>
      let! o := get_op n in
      if nb_is (op_state o) libssh2_NB_state_created then stored_send n packet_len packet_len (msg_send m)
      else ret None
  end.

(** *** Building and sending, with the packet kept only when sending is suspended *)

(** The local variable [packet] after the first step, or a result. *)
Definition local_start (n : sftp_op_name) (packet_len type : Z) (body : list Z) (msg : string) :
    SM (Z + option ptr) :=
  let! o := get_op n in
  if nb_is (op_state o) libssh2_NB_state_idle then
    let! p := lift (alloc_block (replicate (Z.to_nat packet_len) 0)) in
    match p with
    | None => let! e := serror LIBSSH2_ERROR_ALLOC msg in ret (inl e)
    | Some p =>
        let! id := next_request_id in
        set_op n (fun o => o <| op_request_id := id |>) ;;
        fill_packet p packet_len type id body ;;
        set_op_state n libssh2_NB_state_created ;; ret (inr (Some p))
    end
  else ret (inr (op_packet o)).

(** [sftp_fsync], [sftp_fstatvfs] and [sftp_statvfs]: a part that was sent counts as
    nothing. *)
Definition resend_send (n : sftp_op_name) (packet : option ptr) (packet_len : Z) : SM (option Z) :=
  let! p := access packet in
  let! rc := write_packet_bytes p 0 packet_len in
  if (rc =? LIBSSH2_ERROR_EAGAIN) || ((0 <=? rc) && (rc <? packet_len)) then
    set_op n (fun o => o <| op_packet := Some p |>) ;; ret (Some LIBSSH2_ERROR_EAGAIN)
  else
    lift (free_block p) ;;
    set_op n (fun o => o <| op_packet := None |>) ;;
    if rc <? 0 then
      set_op_state n libssh2_NB_state_idle ;;
      let! e := serror LIBSSH2_ERROR_SOCKET_SEND "_libssh2_channel_write() failed" in ret (Some e)
    else set_op_state n libssh2_NB_state_sent ;; ret None.

Definition resend_request (n : sftp_op_name) (packet_len type : Z) (body : list Z) : SM (option Z) :=
  let! r := local_start n packet_len type body "Unable to allocate memory for FXP_EXTENDED packet" in
  match r with
  | inl e => ret (Some e)
  | inr packet =>
      let! o := get_op n in
      if nb_is (op_state o) libssh2_NB_state_created then resend_send n packet packet_len else ret None
  end.

(** [sftp_mkdir]: on a failure [mkdir_packet] stays as it is. *)
Definition mkdir_send (packet : option ptr) (packet_len : Z) : SM (option Z) :=
  let! p := access packet in
  let! rc := write_packet_bytes p 0 packet_len in
  if rc =? LIBSSH2_ERROR_EAGAIN then
    set_op op_mkdir (fun o => o <| op_packet := Some p |>) ;; ret (Some rc)
  else if negb (packet_len =? rc) then
    lift (free_block p) ;;
    set_op_state op_mkdir libssh2_NB_state_idle ;;
    let! e := serror LIBSSH2_ERROR_SOCKET_SEND "_libssh2_channel_write() failed" in ret (Some e)
  else
    lift (free_block p) ;;
    set_op op_mkdir (fun o => o <| op_state := libssh2_NB_state_sent |> <| op_packet := None |>) ;; ret None.

(** *** The answer *)

(** Waiting: the operation's result, or the packet and its length. *)
Definition op_answer (n : sftp_op_name) (wait : SM (Z * option (ptr * Z))) (m : op_messages) :
    SM (Z + ptr * Z) :=
  let! r := wait in
  if r.1 =? LIBSSH2_ERROR_EAGAIN then ret (inl r.1)
  else if r.1 =? LIBSSH2_ERROR_BUFFER_TOO_SMALL then
    (match r.2 with Some p => if 0 <? p.2 then lift (free_block p.1) else ret tt | None => ret tt end) ;;
    let! e := serror LIBSSH2_ERROR_SFTP_PROTOCOL (msg_short m) in ret (inl e)
  else if negb (r.1 =? 0) then
    set_op_state n libssh2_NB_state_idle ;;
    let! e := serror r.1 (msg_wait m) in ret (inl e)
  else let! p := access r.2 in ret (inr p).

Definition require_status (n : sftp_op_name) : SM (Z * option (ptr * Z)) :=
  let! o := get_op n in
  sftp_packet_require transport_send transport_read fuel SSH_FXP_STATUS (op_request_id o) 9.

Definition require_either (n : sftp_op_name) (type : Z) : SM (Z * option (ptr * Z)) :=
  let! o := get_op n in
  sftp_packet_requirev transport_send transport_read fuel [type; SSH_FXP_STATUS] (op_request_id o) 9.

(** The status code at [data + 5]; the packet is released. *)
Definition take_status (p : ptr) : SM Z :=
  let! d := lift (block p) in
  let! v := access (ntohu32 d 5) in
  lift (free_block p) ;; ret v.

Definition set_last_errno (v : Z) : SM unit := set_sftp (fun f => f <| sf_last_errno := v |>).

(** A status that means success when it is [LIBSSH2_FX_OK]. *)
Definition status_result (retcode : Z) (msg : string) : SM Z :=
  if retcode =? LIBSSH2_FX_OK then ret 0
  else set_last_errno retcode ;; serror LIBSSH2_ERROR_SFTP_PROTOCOL msg.

(** Operations answered by a status. *)
Definition status_answer (n : sftp_op_name) (m : op_messages) (failed : string) : SM Z :=
  let! r := op_answer n (require_status n) m in
  match r with
  | inl e => ret e
  | inr p =>
      set_op_state n libssh2_NB_state_idle ;;
      let! retcode := take_status p.1 in status_result retcode failed
  end.

(** [k] goes on when there is no result yet. *)
Definition unless_done {A} (r : option A) (k : SM A) : SM A :=
  match r with Some e => ret e | None => k end.

(** ** The operations *)

Definition fsync_messages : op_messages :=
  mk_op_messages "Unable to allocate memory for FXP_EXTENDED packet" "_libssh2_channel_write() failed"
    "SFTP fsync packet too short" "Error waiting for FXP EXTENDED REPLY".

Definition sftp_fsync (h : ptr) : SM Z :=
  let! x := handle h in
  let packet_len := u32 (lenZ (h_handle x) + 34) in
  let! r := resend_request op_fsync packet_len SSH_FXP_EXTENDED
              (store_str (store_str [] (str "fsync@openssh.com")) (h_handle x)) in
  unless_done r (status_answer op_fsync fsync_messages "fsync failed").

Definition unlink_messages : op_messages :=
  mk_op_messages "Unable to allocate memory for FXP_REMOVE packet" "Unable to send FXP_REMOVE command"
    "SFTP unlink packet too short" "Error waiting for FXP STATUS".

Definition sftp_unlink (filename : list Z) : SM Z :=
  let! r := stored_request op_unlink (u32 (lenZ filename + 13)) SSH_FXP_REMOVE (store_str [] filename) unlink_messages in
  unless_done r (status_answer op_unlink unlink_messages "SFTP Protocol Error").

Definition rmdir_messages : op_messages :=
  mk_op_messages "Unable to allocate memory for FXP_RMDIR packet" "Unable to send FXP_RMDIR command"
    "SFTP rmdir packet too short" "Error waiting for FXP STATUS".

Definition sftp_rmdir (path : list Z) : SM Z :=
  let! r := stored_request op_rmdir (u32 (lenZ path + 13)) SSH_FXP_RMDIR (store_str [] path) rmdir_messages in
  unless_done r (status_answer op_rmdir rmdir_messages "SFTP Protocol Error").

Definition mkdir_messages : op_messages :=
  mk_op_messages "Unable to allocate memory for FXP_MKDIR packet" "_libssh2_channel_write() failed"
    "SFTP mkdir packet too short" "Error waiting for FXP STATUS".

Definition sftp_mkdir (path : list Z) (mode : Z) : SM Z :=
  let attrs := if mode =? LIBSSH2_SFTP_DEFAULT_MODE then attributes_0
               else attributes_0 <| at_flags := LIBSSH2_SFTP_ATTR_PERMISSIONS |>
                                 <| at_permissions := Z.lor mode LIBSSH2_SFTP_ATTR_PFILETYPE_DIR |> in
  let packet_len := u32 (lenZ path + 13 + sftp_attrsize (at_flags attrs)) in
  let! r := local_start op_mkdir packet_len SSH_FXP_MKDIR (store_str [] path ++ sftp_attr2bin (Some attrs))
              (msg_alloc mkdir_messages) in
  match r with
  | inl e => ret e
  | inr packet =>
      let! o := get_op op_mkdir in
      let! r := (if nb_is (op_state o) libssh2_NB_state_created then mkdir_send packet packet_len else ret None) in
      unless_done r (status_answer op_mkdir mkdir_messages "SFTP Protocol Error")
  end.

Definition rename_messages : op_messages :=
  mk_op_messages "Unable to allocate memory for FXP_RENAME packet" "Unable to send FXP_RENAME command"
    "SFTP rename packet too short" "Error waiting for FXP STATUS".

(** The number of bytes sent is [rename_s - rename_packet], what was stored. *)
Definition rename_request (packet_len : Z) (body : list Z) : SM (option Z) :=
  let! o := get_op op_rename in
  let! r := (if nb_is (op_state o) libssh2_NB_state_idle
             then stored_start op_rename packet_len SSH_FXP_RENAME body (msg_alloc rename_messages) else ret None) in
  match r with
  | Some e => ret (Some e)
  | None =>
      let! o := get_op op_rename in
      if nb_is (op_state o) libssh2_NB_state_created then
        let! p := access (op_packet o) in
        let! d := lift (block p) in
        stored_send op_rename packet_len (lenZ d) (msg_send rename_messages)
      else ret None
  end.

Definition sftp_rename (source_filename dest_filename : list Z) (flags : Z) : SM Z :=
  let! f := sftp in
  let packet_len := u32 (lenZ source_filename + lenZ dest_filename + 17 + (if 5 <=? sf_version f then 4 else 0)) in
  if sf_version f <? 2 then serror LIBSSH2_ERROR_SFTP_PROTOCOL "Server does not support RENAME"
  else
    let! r := rename_request packet_len
                (store_str (store_str [] source_filename) dest_filename ++
                 (if 5 <=? sf_version f then htonu32 (u32 flags) else [])) in
    unless_done r
      (let! r := op_answer op_rename (require_status op_rename) rename_messages in
       match r with
       | inl e => ret e
       | inr p =>
           set_op_state op_rename libssh2_NB_state_idle ;;
           let! retcode := take_status p.1 in
           set_last_errno retcode ;;
           if retcode =? LIBSSH2_FX_OK then ret LIBSSH2_ERROR_NONE
           else if retcode =? LIBSSH2_FX_FILE_ALREADY_EXISTS then
             serror LIBSSH2_ERROR_SFTP_PROTOCOL "File already exists and SSH_FXP_RENAME_OVERWRITE not specified"
           else if retcode =? LIBSSH2_FX_OP_UNSUPPORTED then
             serror LIBSSH2_ERROR_SFTP_PROTOCOL "Operation Not Supported"
           else serror LIBSSH2_ERROR_SFTP_PROTOCOL "SFTP Protocol Error"
       end).

(** *** Attributes *)

(** The tail shared by [sftp_fstat] and [sftp_stat]; [on_ok] is what a successful
    status leaves in the attributes, [start] what the answer is read into. *)
Definition attrs_answer (p : ptr * Z) (attrs on_ok start : LIBSSH2_SFTP_ATTRIBUTES) :
    SM (Z * LIBSSH2_SFTP_ATTRIBUTES) :=
  let! d := lift (block p.1) in
  let! t := access (byte_at d 0) in
  if t =? SSH_FXP_STATUS then
    let! retcode := take_status p.1 in
    let! rc := status_result retcode "SFTP Protocol Error" in
    ret (rc, if retcode =? LIBSSH2_FX_OK then on_ok else attrs)
  else
    let! r := access (sftp_bin2attr start (drop 5 d) (p.2 - 5)) in
    lift (free_block p.1) ;;
    if r.1 <? 0 then
      let! e := serror LIBSSH2_ERROR_SFTP_PROTOCOL "Attributes too short in SFTP fstat" in ret (e, r.2)
    else ret (0, r.2).

Definition fstat_messages (setstat : bool) : op_messages :=
  mk_op_messages "Unable to allocate memory for FSTAT/FSETSTAT packet"
    (if setstat then "Unable to send FXP_FSETSTAT" else "Unable to send FXP_FSTAT command")
    "SFTP fstat packet too short" "Timeout waiting for status message".

(** The result and the attributes as the call leaves them. *)
Definition sftp_fstat (h : ptr) (attrs : LIBSSH2_SFTP_ATTRIBUTES) (setstat : bool) :
    SM (Z * LIBSSH2_SFTP_ATTRIBUTES) :=
  let! x := handle h in
  let packet_len := u32 (lenZ (h_handle x) + 13 + (if setstat then sftp_attrsize (at_flags attrs) else 0)) in
  let! r := stored_request op_fstat packet_len (if setstat then SSH_FXP_FSETSTAT else SSH_FXP_FSTAT)
              (store_str [] (h_handle x) ++ (if setstat then sftp_attr2bin (Some attrs) else []))
              (fstat_messages setstat) in
  match r with
  | Some e => ret (e, attrs)
  | None =>
      let! r := op_answer op_fstat (require_either op_fstat SSH_FXP_ATTRS) (fstat_messages setstat) in
      match r with
      | inl e => ret (e, attrs)
      | inr p => set_op_state op_fstat libssh2_NB_state_idle ;; attrs_answer p attrs attrs attrs
      end
  end.

Definition stat_messages : op_messages :=
  mk_op_messages "Unable to allocate memory for FXP_*STAT packet" "Unable to send STAT/LSTAT/SETSTAT command"
    "SFTP stat packet too short" "Timeout waiting for status message".

Definition sftp_stat (path : list Z) (stat_type : Z) (attrs : LIBSSH2_SFTP_ATTRIBUTES) :
    SM (Z * LIBSSH2_SFTP_ATTRIBUTES) :=
  let set := stat_type =? LIBSSH2_SFTP_SETSTAT in
  let packet_len := u32 (lenZ path + 13 + (if set then sftp_attrsize (at_flags attrs) else 0)) in
  let type := if set then SSH_FXP_SETSTAT
              else if stat_type =? LIBSSH2_SFTP_LSTAT then SSH_FXP_LSTAT else SSH_FXP_STAT in
  let! r := stored_request op_stat packet_len type
              (store_str [] path ++ (if set then sftp_attr2bin (Some attrs) else [])) stat_messages in
  match r with
  | Some e => ret (e, attrs)
  | None =>
      let! r := op_answer op_stat (require_either op_stat SSH_FXP_ATTRS) stat_messages in
      match r with
      | inl e => ret (e, attrs)
      | inr p => set_op_state op_stat libssh2_NB_state_idle ;; attrs_answer p attrs attributes_0 attributes_0
      end
  end.

(** *** File systems *)

(** The eleven numbers of the answer. *)
Definition read_statvfs (d : list Z) : option LIBSSH2_SFTP_STATVFS :=
  f_bsize ← ntohu64 d 5;
  f_frsize ← ntohu64 d 13;
  f_blocks ← ntohu64 d 21;
  f_bfree ← ntohu64 d 29;
  f_bavail ← ntohu64 d 37;
  f_files ← ntohu64 d 45;
  f_ffree ← ntohu64 d 53;
  f_favail ← ntohu64 d 61;
  f_fsid ← ntohu64 d 69;
  flag ← ntohu64 d 77;
  f_namemax ← ntohu64 d 85;
  let flag := u32 flag in
  let f_flag := Z.lor (if has flag SSH_FXE_STATVFS_ST_RDONLY then LIBSSH2_SFTP_ST_RDONLY else 0)
                      (if has flag SSH_FXE_STATVFS_ST_NOSUID then LIBSSH2_SFTP_ST_NOSUID else 0) in
  Some (mk_statvfs f_bsize f_frsize f_blocks f_bfree f_bavail f_files f_ffree f_favail f_fsid f_flag f_namemax).

(** The result, and [st] when it was filled. *)
Definition statvfs_answer (n : sftp_op_name) (short : string) : SM (Z * option LIBSSH2_SFTP_STATVFS) :=
  let! r := op_answer n (require_either n SSH_FXP_EXTENDED_REPLY)
              (mk_op_messages "" "" short "Error waiting for FXP EXTENDED REPLY") in
  match r with
  | inl e => ret (e, None)
  | inr p =>
      let! d := lift (block p.1) in
      let! t := access (byte_at d 0) in
      if t =? SSH_FXP_STATUS then
        let! retcode := take_status p.1 in
        set_op_state n libssh2_NB_state_idle ;;
        set_last_errno retcode ;;
        let! e := serror LIBSSH2_ERROR_SFTP_PROTOCOL "SFTP Protocol Error" in ret (e, None)
      else if p.2 <? 93 then
        lift (free_block p.1) ;;
        set_op_state n libssh2_NB_state_idle ;;
        let! e := serror LIBSSH2_ERROR_SFTP_PROTOCOL "SFTP Protocol Error: short response" in ret (e, None)
      else
        set_op_state n libssh2_NB_state_idle ;;
        let! st := access (read_statvfs d) in
        lift (free_block p.1) ;; ret (0, Some st)
  end.

Definition sftp_fstatvfs (h : ptr) : SM (Z * option LIBSSH2_SFTP_STATVFS) :=
  let! x := handle h in
  let! r := resend_request op_fstatvfs (u32 (lenZ (h_handle x) + 20 + 17)) SSH_FXP_EXTENDED
              (store_str (store_str [] (str "fstatvfs@openssh.com")) (h_handle x)) in
  match r with
  | Some e => ret (e, None)
  | None => statvfs_answer op_fstatvfs "SFTP rename packet too short"
  end.

Definition sftp_statvfs (path : list Z) : SM (Z * option LIBSSH2_SFTP_STATVFS) :=
  let! r := resend_request op_statvfs (u32 (lenZ path + 19 + 17)) SSH_FXP_EXTENDED
              (store_str (store_str [] (str "statvfs@openssh.com")) path) in
  match r with
  | Some e => ret (e, None)
  | None => statvfs_answer op_statvfs "SFTP fstat packet too short"
  end.

(** *** Links *)

Definition symlink_messages : op_messages :=
  mk_op_messages "Unable to allocate memory for SYMLINK/READLINK/REALPATH packet"
    "Unable to send SYMLINK/READLINK command" "SFTP symlink packet too short" "Error waiting for status message".

(** The name in the answer; the memory [target] gets [link_len] bytes and a zero. *)
Definition link_answer (p : ptr * Z) (target_len : Z) : SM (Z * list Z) :=
  let! d := lift (block p.1) in
  let! t := access (byte_at d 0) in
  if t =? SSH_FXP_STATUS then
    let! retcode := take_status p.1 in
    let! rc := status_result retcode "SFTP Protocol Error" in ret (rc, [])
  else
    let! names := access (ntohu32 d 5) in
    if names <? 1 then
      lift (free_block p.1) ;;
      let! e := serror LIBSSH2_ERROR_SFTP_PROTOCOL "Invalid READLINK/REALPATH response, no name entries" in
      ret (e, [])
    else if p.2 <? 13 then
      (if 0 <? p.2 then lift (free_block p.1) else ret tt) ;;
      let! e := serror LIBSSH2_ERROR_SFTP_PROTOCOL "SFTP stat packet too short" in ret (e, [])
    else
      let! link_len := access (ntohu32 d 9) in
      let! r := (if link_len <? target_len then
                   let! b := access (bytes_at d 13 link_len) in ret (s32 link_len, b ++ [0])
                 else ret (LIBSSH2_ERROR_BUFFER_TOO_SMALL, [])) in
      lift (free_block p.1) ;; ret r.

(** The result, and what was written to [target]. *)
Definition sftp_symlink (path target : list Z) (target_len link_type : Z) : SM (Z * list Z) :=
  let! f := sftp in
  let set := link_type =? LIBSSH2_SFTP_SYMLINK in
  let packet_len := u32 (lenZ path + 13 + (if set then 4 + target_len else 0)) in
  if (sf_version f <? 3) && negb (link_type =? LIBSSH2_SFTP_REALPATH) then
    let! e := serror LIBSSH2_ERROR_SFTP_PROTOCOL "Server does not support SYMLINK or READLINK" in ret (e, [])
  else
    let type := if link_type =? LIBSSH2_SFTP_REALPATH then SSH_FXP_REALPATH
                else if set then SSH_FXP_SYMLINK else SSH_FXP_READLINK in
    let! t := (if set then access (bytes_at target 0 target_len) else ret []) in
    let! r := stored_request op_symlink packet_len type
                (store_str [] path ++ (if set then store_str [] t else [])) symlink_messages in
    match r with
    | Some e => ret (e, [])
    | None =>
        let! r := op_answer op_symlink (require_either op_symlink SSH_FXP_NAME) symlink_messages in
        match r with
        | inl e => ret (e, [])
        | inr p => set_op_state op_symlink libssh2_NB_state_idle ;; link_answer p target_len
        end
    end.

(** *** Directories *)

(** What a call of [sftp_readdir] writes: the name with its zero, the long entry, and
    the attributes. *)
Record dir_entry := mk_dir_entry {
  de_name : list Z;
  de_longentry : list Z;
  de_attrs : option LIBSSH2_SFTP_ATTRIBUTES
}.

Definition dir_of (x : sftp_handle) : option dir_data :=
  match h_u x with HandleDir d => Some d | HandleFile _ => None end.

(** One name of the packet kept in the handle: the return value, what was written, and
    where the next name begins with the bytes left; [d] is the packet. *)
Definition pop_fields (d : list Z) (dd : dir_data) (buffer_maxlen longentry_maxlen : Z) (longentry : bool)
    (attrs : option LIBSSH2_SFTP_ATTRIBUTES) : option (Z * dir_entry * option (Z * Z)) :=
  let small := LIBSSH2_ERROR_BUFFER_TOO_SMALL in
  let s := dd_next_name dd in
  let left := dd_names_packet_len dd in
  if left <? 4 then Some (small, mk_dir_entry [] [] attrs, None)
  else
    filename_len ← ntohu32 d s;
    let s := s + 4 in let left := left - 4 in
    if buffer_maxlen <=? filename_len then Some (small, mk_dir_entry [] [] attrs, None)
    else if left <? filename_len then Some (small, mk_dir_entry [] [] attrs, None)
    else
      name ← bytes_at d s filename_len;
      let name := name ++ [0] in
      let s := s + filename_len in let left := left - filename_len in
      if left <? 4 then Some (small, mk_dir_entry name [] attrs, None)
      else
        longentry_len ← ntohu32 d s;
        let s := s + 4 in let left := left - 4 in
        let wanted := longentry && (1 <? longentry_maxlen) in
        if wanted && ((longentry_maxlen <=? longentry_len) || (left <? longentry_len)) then
          Some (small, mk_dir_entry name [] attrs, None)
        else
          long ← (if wanted then b ← bytes_at d s longentry_len; Some (b ++ [0]) else Some []);
          if left <? longentry_len then Some (small, mk_dir_entry name long attrs, None)
          else
            let s := s + longentry_len in let left := left - longentry_len in
            '(attr_len, a) ← sftp_bin2attr attributes_0 (drop (Z.to_nat s) d) left;
            let entry := mk_dir_entry name long (match attrs with Some _ => Some a | None => None end) in
            if attr_len <? 0 then Some (small, entry, None)
            else Some (filename_len, entry, Some (s + attr_len, left - attr_len)).

Definition pop_name (h : ptr) (buffer_maxlen longentry_maxlen : Z) (longentry : bool)
    (attrs : option LIBSSH2_SFTP_ATTRIBUTES) : SM (Z * dir_entry) :=
  let! x := handle h in
  let! dd := access (dir_of x) in
  let! p := access (dd_names_packet dd) in
  let! d := lift (block p) in
  let! r := access (pop_fields d dd buffer_maxlen longentry_maxlen longentry attrs) in
  match r.2 with
  | None => ret r.1
  | Some next =>
      let left := u32 (dd_names_left dd - 1) in
      set_handle h (fun x => x <| h_u := HandleDir (dd <| dd_next_name := next.1 |>
                                                       <| dd_names_packet_len := next.2 |>
                                                       <| dd_names_left := left |>) |>) ;;
      (if left =? 0 then lift (free_block p) else ret tt) ;;
      ret r.1
  end.

Definition readdir_messages : op_messages :=
  mk_op_messages "Unable to allocate memory for FXP_READDIR packet" "_libssh2_channel_write() failed"
    "Status message too short" "Timeout waiting for status message".

(** The names packet of the answer is kept in the handle. *)
Definition readdir_answer (h : ptr) (p : ptr * Z) (pop : SM (Z * dir_entry)) (none : dir_entry) :
    SM (Z * dir_entry) :=
  let! d := lift (block p.1) in
  let! t := access (byte_at d 0) in
  if t =? SSH_FXP_STATUS then
    let! retcode := take_status p.1 in
    if retcode =? LIBSSH2_FX_EOF then set_op_state op_readdir libssh2_NB_state_idle ;; ret (0, none)
    else
      set_last_errno retcode ;;
      set_op_state op_readdir libssh2_NB_state_idle ;;
      let! e := serror LIBSSH2_ERROR_SFTP_PROTOCOL "SFTP Protocol Error" in ret (e, none)
  else
    set_op_state op_readdir libssh2_NB_state_idle ;;
    let! num_names := access (ntohu32 d 5) in
    if num_names =? 0 then lift (free_block p.1) ;; ret (0, none)
    else
      set_handle h (fun x => x <| h_u := HandleDir (mk_dir_data num_names (Some p.1) 9 (p.2 - 9)) |>) ;; pop.

Definition sftp_readdir (h : ptr) (buffer_maxlen longentry_maxlen : Z) (longentry : bool)
    (attrs : option LIBSSH2_SFTP_ATTRIBUTES) : SM (Z * dir_entry) :=
  let none := mk_dir_entry [] [] attrs in
  let pop := pop_name h buffer_maxlen longentry_maxlen longentry attrs in
  let! x := handle h in
  let! dd := access (dir_of x) in
  let! o := get_op op_readdir in
  if nb_is (op_state o) libssh2_NB_state_idle && negb (dd_names_left dd =? 0) then pop
  else
    let! r := stored_request op_readdir (u32 (lenZ (h_handle x) + 13)) SSH_FXP_READDIR
                (store_str [] (h_handle x)) readdir_messages in
    match r with
    | Some e => ret (e, none)
    | None =>
        let! r := op_answer op_readdir (require_either op_readdir SSH_FXP_NAME) readdir_messages in
        match r with
        | inl e => ret (e, none)
        | inr p => readdir_answer h p pop none
        end
    end.
End Requests.
