(* ===== verification/SftpFile.v ===== *)
(** * SFTP: files, the session, and the public calls (sftp.c)

    Opening and closing handles, the pipelined [sftp_read] and [sftp_write], the
    position of a file, starting and ending the SFTP session, and the public functions
    that repeat an operation while it would block. A chunk of a handle's list is part
    of the handle. *)

From stdpp Require Import base numbers list gmap strings.
From S2P Require Import Prelude Codes CString KexMethods Wire Session ChannelWindow Packet Conn Comp ChannelIO ChannelCtl Blocking SftpCodec Sftp SftpOps.

Definition file_of (x : sftp_handle) : option file_data :=
  match h_u x with HandleFile f => Some f | HandleDir _ => None end.

Definition file (h : ptr) : SM file_data := let! x := handle h in access (file_of x).
Definition set_file (h : ptr) (g : file_data -> file_data) : SM unit :=
  let! f := file h in set_handle h (fun x => x <| h_u := HandleFile (g f) |>).
Definition set_chunks (h : ptr) (g : list sftp_pipeline_chunk -> list sftp_pipeline_chunk) : SM unit :=
  set_handle h (fun x => x <| h_packet_list ::= g |>).

Definition file_data_0 : file_data := mk_file_data 0 0 0 None 0 0 false.
Definition dir_data_0 : dir_data := mk_dir_data 0 None 0 0.

(** [LIBSSH2_CALLOC(session, sizeof(LIBSSH2_SFTP_HANDLE))]. *)
Definition alloc_handle (x : sftp_handle) : SM (option ptr) :=
  let! ok := lift alloc_outcome in
  if (ok : bool) then
    let! p := lift (gets s_next_ptr) in
    lift (modify (fun s => s <| s_next_ptr := Pos.succ p |>)) ;;
    modify (fun w => w <| w_handles ::= <[p := x]> |>) ;; ret (Some p)
  else ret None.

(** ** [sftp_open] *)

Section File.
Context (transport_send : list Z -> list Z -> CM Z) (transport_read : CM Z) (fuel : nat).

Definition set_open_state (st : libssh2_nonblocking_states) : SM unit :=
  set_sftp (fun f => f <| sf_open_state := st |>).

(** The message, up to the state [created]; [false] when there is no memory. *)
Definition open_build (filename : list Z) (flags mode : Z) (open_file : bool) : SM bool :=
  let packet_len := u32 (lenZ filename + 13 +
    (if open_file then 4 + sftp_attrsize LIBSSH2_SFTP_ATTR_PERMISSIONS else 0)) in
  set_sftp (fun f => f <| sf_open_packet_len := packet_len |> <| sf_open_packet_sent := 0 |>) ;;
  let! p := lift (alloc_block (replicate (Z.to_nat packet_len) 0)) in
  set_sftp (fun f => f <| sf_open_packet := p |>) ;;
  match p with
  | None =>
      serror LIBSSH2_ERROR_ALLOC "Unable to allocate memory for FXP_OPEN or FXP_OPENDIR packet" ;; ret false
  | Some p =>
      let permissions := Z.lor mode (if open_file then LIBSSH2_SFTP_ATTR_PFILETYPE_FILE
                                     else LIBSSH2_SFTP_ATTR_PFILETYPE_DIR) in
      let attrs := attributes_0 <| at_flags := LIBSSH2_SFTP_ATTR_PERMISSIONS |> <| at_permissions := permissions |> in
      let! id := next_request_id in
      set_sftp (fun f => f <| sf_open_request_id := id |>) ;;
      fill_packet p packet_len (if open_file then SSH_FXP_OPEN else SSH_FXP_OPENDIR) id
        (store_str [] filename ++ (if open_file then htonu32 flags ++ sftp_attr2bin (Some attrs) else [])) ;;
      set_open_state libssh2_NB_state_created ;; ret true
  end.

(** The step in the state [created]; [false] ends the call. *)
Definition open_write : SM bool :=
  let! f := sftp in
  let! p := access (sf_open_packet f) in
  let! rc := write_packet_bytes transport_send transport_read fuel p (sf_open_packet_sent f)
               (sf_open_packet_len f - sf_open_packet_sent f) in
  if rc =? LIBSSH2_ERROR_EAGAIN then
    serror LIBSSH2_ERROR_EAGAIN "Would block sending FXP_OPEN or FXP_OPENDIR command" ;; ret false
  else if rc <? 0 then
    serror rc "Unable to send FXP_OPEN*" ;;
    lift (free_block p) ;;
    set_sftp (fun f => f <| sf_open_packet := None |> <| sf_open_state := libssh2_NB_state_idle |>) ;; ret false
  else
    let sent := sf_open_packet_sent f + rc in
    set_sftp (fun f => f <| sf_open_packet_sent := sent |>) ;;
    if sf_open_packet_len f =? sent then
      lift (free_block p) ;;
      set_sftp (fun f => f <| sf_open_packet := None |> <| sf_open_state := libssh2_NB_state_sent |>) ;; ret true
    else ret true.

(** The handle of the answer [p]. *)
Definition open_handle (p : ptr * Z) (open_file : bool) : SM (option ptr) :=
  if p.2 <? 10 then
    serror LIBSSH2_ERROR_SFTP_PROTOCOL "Too small FXP_HANDLE" ;; lift (free_block p.1) ;; ret None
  else
    let! h := alloc_handle (mk_sftp_handle [] (if open_file then HandleFile file_data_0 else HandleDir dir_data_0)
                              libssh2_NB_state_idle 0 None []) in
    match h with
    | None =>
        serror LIBSSH2_ERROR_ALLOC "Unable to allocate new SFTP handle structure" ;;
        lift (free_block p.1) ;; ret None
    | Some h =>
        let! d := lift (block p.1) in
        let! len := access (ntohu32 d 5) in
        let len := if SFTP_HANDLE_MAXLEN <? len then SFTP_HANDLE_MAXLEN else len in
        let len := if p.2 - 9 <? len then p.2 - 9 else len in
        let! name := access (bytes_at d 9 len) in
        set_handle h (fun x => x <| h_handle := name |>) ;;
        lift (free_block p.1) ;;
        set_sftp (fun f => f <| sf_handles ::= fun l => l ++ [h] |>) ;; ret (Some h)
    end.

(** A status instead of a handle: after [LIBSSH2_FX_OK] the handle may follow. [data]
    points to the freed status when that fails. *)
Definition open_status (p : ptr * Z) (open_file : bool) : SM (option ptr) :=
  let refused (q : ptr) : SM (option ptr) :=
    serror LIBSSH2_ERROR_SFTP_PROTOCOL "Failed opening remote file" ;; lift (free_block q) ;; ret None in
  if p.2 <? 9 then
    serror LIBSSH2_ERROR_SFTP_PROTOCOL "Too small FXP_STATUS" ;; lift (free_block p.1) ;; ret None
  else
    let! d := lift (block p.1) in
    let! code := access (ntohu32 d 5) in
    set_last_errno code ;;
    if code =? LIBSSH2_FX_OK then
      lift (free_block p.1) ;;
      let! f := sftp in
      let! r := sftp_packet_require transport_send transport_read fuel SSH_FXP_HANDLE (sf_open_request_id f) 10 in
      if r.1 =? LIBSSH2_ERROR_EAGAIN then set_open_state libssh2_NB_state_sent ;; ret None
      else if r.1 =? LIBSSH2_ERROR_BUFFER_TOO_SMALL then
        let len := match r.2 with Some q => q.2 | None => p.2 end in
        let q := match r.2 with Some q => q.1 | None => p.1 end in
        (if 0 <? len then lift (free_block q) else ret tt) ;;
        serror LIBSSH2_ERROR_SFTP_PROTOCOL "Too small FXP_HANDLE" ;; ret None
      else if r.1 =? 0 then let! q := access r.2 in open_handle q open_file
      else refused p.1
    else refused p.1.

(** The step in the state [sent]. *)
Definition open_answer (open_file : bool) : SM (option ptr) :=
  let! f := sftp in
  let! r := sftp_packet_requirev transport_send transport_read fuel [SSH_FXP_HANDLE; SSH_FXP_STATUS]
              (sf_open_request_id f) 1 in
  if r.1 =? LIBSSH2_ERROR_EAGAIN then
    serror LIBSSH2_ERROR_EAGAIN "Would block waiting for status message" ;; ret None
  else if r.1 =? LIBSSH2_ERROR_BUFFER_TOO_SMALL then
    let! q := access r.2 in
    (if 0 <? q.2 then lift (free_block q.1) else ret tt) ;;
    serror LIBSSH2_ERROR_SFTP_PROTOCOL "Response too small" ;; ret None
  else
    set_open_state libssh2_NB_state_idle ;;
    if negb (r.1 =? 0) then serror r.1 "Timeout waiting for status message" ;; ret None
    else
      let! p := access r.2 in
      let! d := lift (block p.1) in
      let! t := access (byte_at d 0) in
      if t =? SSH_FXP_STATUS then open_status p open_file else open_handle p open_file.

Definition sftp_open (filename : list Z) (flags mode open_type : Z) : SM (option ptr) :=
  let open_file := open_type =? LIBSSH2_SFTP_OPENFILE in
  let! f := sftp in
  let! ok := (if nb_is (sf_open_state f) libssh2_NB_state_idle then open_build filename flags mode open_file
              else ret true) in
  if negb ok then ret None
  else
    let! f := sftp in
    let! ok := (if nb_is (sf_open_state f) libssh2_NB_state_created then open_write else ret true) in
    if negb ok then ret None
    else
      let! f := sftp in
      if nb_is (sf_open_state f) libssh2_NB_state_sent then open_answer open_file else ret None.

(** ** [sftp_read] *)

Definition set_read_state (st : libssh2_nonblocking_states) : SM unit :=
  set_sftp (fun f => f <| sf_read_state := st |>).

(** Data kept from the previous call. *)
Definition read_left (h : ptr) (fd : file_data) (buffer_size : Z) : SM (Z * list Z) :=
  let copy := Z.min buffer_size (fd_data_left fd) in
  let! p := access (fd_data fd) in
  let! d := lift (block p) in
  let! b := access (bytes_at d (fd_data_len fd - fd_data_left fd) copy) in
  let left := fd_data_left fd - copy in
  set_file h (fun f => f <| fd_data_left := left |> <| fd_offset := u64 (fd_offset f + copy) |>) ;;
  (if left =? 0 then lift (free_block p) ;; set_file h (fun f => f <| fd_data := None |>) else ret tt) ;;
  ret (copy, b).

(** How much to ask for; a result ends the call. *)
Definition read_ahead (fd : file_data) (buffer_size : Z) : SM (Z + Z) :=
  let already := u64 (fd_offset_sent fd - fd_offset fd) in
  let max := Z.min (u64 (buffer_size * 4)) (LIBSSH2_CHANNEL_WINDOW_DEFAULT * 4) in
  let count := if already <? max then max - already else 0 in
  let! f := sftp in
  let! w := lift (channel_window_read_ex (sf_channel f)) in
  if w.1.1 <? max then
    let! rc := lift (channel_receive_window_adjust transport_send (sf_channel f) (max * 8) true) in
    if negb (rc =? 0) then ret (inl rc) else ret (inr count)
  else ret (inr count).

(** The size of the next request. *)
Definition read_size_for (count buffer_size : Z) : Z :=
  let size := u32 count in
  let size := if size <? buffer_size then u32 buffer_size else size in
  if MAX_SFTP_READ_SIZE <? size then MAX_SFTP_READ_SIZE else size.

Definition read_message (handle : list Z) (request_id offset size : Z) : list Z :=
  sftp_message (u32 (lenZ handle + 25)) SSH_FXP_READ request_id (store_u64 (store_str [] handle) offset ++ htonu32 size).

(** The requests for [count] bytes. *)
Fixpoint read_requests (fuel : nat) (h : ptr) (count buffer_size : Z) : SM (option Z) :=
  match fuel with
  | O => fun _ => OutOfFuel
  | S fuel =>
      if 0 <? count then
        let! x := handle h in
        let size := read_size_for count buffer_size in
        let packet_len := u32 (lenZ (h_handle x) + 25) in
        let! ok := lift alloc_outcome in
        if (ok : bool) then
          let! fd := file h in
          let! id := next_request_id in
          let c := mk_chunk (fd_offset_sent fd) size 0 packet_len id
                     (read_message (h_handle x) id (fd_offset_sent fd) size) in
          set_file h (fun f => f <| fd_offset_sent := u64 (fd_offset_sent f + size) |>) ;;
          set_chunks h (fun l => l ++ [c]) ;;
          read_requests fuel h (count - Z.min size count) buffer_size
        else let! e := serror LIBSSH2_ERROR_ALLOC "malloc fail for FXP_WRITE" in ret (Some e)
      else ret None
  end.

(** [_libssh2_channel_write] of what is left of a chunk. *)
Definition chunk_write (c : sftp_pipeline_chunk) : SM Z :=
  let! f := sftp in
  let! b := access (bytes_at (ck_packet c) (ck_sent c) (ck_lefttosend c)) in
  lift (channel_write transport_send transport_read fuel (sf_channel f) 0 b).

Definition chunk_sent (rc : Z) (c : sftp_pipeline_chunk) : sftp_pipeline_chunk :=
  c <| ck_lefttosend := ck_lefttosend c - rc |> <| ck_sent := ck_sent c + rc |>.

(** Sending from the [i]-th chunk on; a result ends the call. *)
Fixpoint read_send (rounds : nat) (h : ptr) (i : nat) : SM (option Z) :=
  match rounds with
  | O => fun _ => OutOfFuel
  | S rounds =>
      let! x := handle h in
      match h_packet_list x !! i with
      | None => ret None
      | Some c =>
          if ck_lefttosend c =? 0 then read_send rounds h (S i)
          else
            let! rc := chunk_write c in
            if rc <? 0 then set_read_state libssh2_NB_state_sent ;; ret (Some rc)
            else
              set_chunks h (alter (chunk_sent rc) i) ;;
              if ck_lefttosend c - rc =? 0 then read_send rounds h (S i)
              else if (0 <? i)%nat then ret None else read_send rounds h i
      end
  end.

(** The answer of a chunk that carries data: the bytes copied. *)
Definition read_data (h : ptr) (c : sftp_pipeline_chunk) (p : ptr * Z) (buffer_size in_buffer : Z) :
    SM (Z + list Z) :=
  let bad msg := (let! e := serror LIBSSH2_ERROR_SFTP_PROTOCOL msg in ret (inl e)) in
  let! fd := file h in
  if negb (ck_offset c =? fd_offset fd) then bad "Read Packet At Unexpected Offset"
  else
    let! d := lift (block p.1) in
    let! rc32 := access (ntohu32 d 5) in
    if u64 (p.2 - 9) <? rc32 then bad "SFTP Protocol badness"
    else if ck_len c <? rc32 then bad "FXP_READ response too big"
    else
      (if negb (rc32 =? ck_len c) then
         set_file h (fun f => f <| fd_offset_sent := u64 (fd_offset_sent f - (ck_len c - rc32)) |>)
       else ret tt) ;;
      let over := buffer_size <? in_buffer + rc32 in
      let n := if over then u32 (u32 buffer_size - in_buffer) else rc32 in
      (if over then set_file h (fun f => f <| fd_data_left := in_buffer + rc32 - buffer_size |>
                                           <| fd_data := Some p.1 |> <| fd_data_len := p.2 |>)
       else set_file h (fun f => f <| fd_data_len := 0 |>)) ;;
      let! b := access (bytes_at d 9 n) in
      set_file h (fun f => f <| fd_offset := u64 (fd_offset f + n) |>) ;;
      let! fd := file h in
      (if fd_data_len fd =? 0 then lift (free_block p.1) else ret tt) ;;
      set_chunks h (drop 1) ;;
      ret (inr b).

(** Collecting the answers in order: the result and the bytes in the buffer. *)
Fixpoint read_collect (rounds : nat) (h : ptr) (buffer_size : Z) (acc : list Z) : SM (Z * list Z) :=
  match rounds with
  | O => fun _ => OutOfFuel
  | S rounds =>
      let internal := (let! e := serror LIBSSH2_ERROR_SFTP_PROTOCOL "sftp_read() internal error" in ret (e, acc)) in
      let! x := handle h in
      match h_packet_list x with
      | [] => if 0 <? lenZ acc then ret (lenZ acc, acc) else internal
      | c :: rest =>
          if negb (ck_lefttosend c =? 0) then (if 0 <? lenZ acc then ret (lenZ acc, acc) else internal)
          else
            let! r := sftp_packet_requirev transport_send transport_read fuel [SSH_FXP_DATA; SSH_FXP_STATUS]
                        (ck_request_id c) 9 in
            if (r.1 =? LIBSSH2_ERROR_EAGAIN) && (0 <? lenZ acc) then ret (lenZ acc, acc)
            else if r.1 =? LIBSSH2_ERROR_BUFFER_TOO_SMALL then
              (match r.2 with Some p => if 0 <? p.2 then lift (free_block p.1) else ret tt | None => ret tt end) ;;
              let! e := serror LIBSSH2_ERROR_SFTP_PROTOCOL "Response too small" in ret (e, acc)
            else if r.1 <? 0 then set_read_state libssh2_NB_state_sent2 ;; ret (r.1, acc)
            else
              let! p := access r.2 in
              let! d := lift (block p.1) in
              let! t := access (byte_at d 0) in
              if t =? SSH_FXP_STATUS then
                set_chunks h (drop 1) ;;
                sftp_packetlist_flush h ;;
                let! rc32 := take_status p.1 in
                if rc32 =? LIBSSH2_FX_EOF then
                  set_file h (fun f => f <| fd_eof := true |>) ;; ret (lenZ acc, acc)
                else
                  set_last_errno rc32 ;;
                  let! e := serror LIBSSH2_ERROR_SFTP_PROTOCOL "SFTP READ error" in ret (e, acc)
              else if t =? SSH_FXP_DATA then
                let! b := read_data h c p buffer_size (lenZ acc) in
                match b with
                | inl e => ret (e, acc)
                | inr b =>
                    let acc := acc ++ b in
                    if lenZ acc <? buffer_size then read_collect rounds h buffer_size acc
                    else if 0 <? lenZ acc then ret (lenZ acc, acc)
                    else let! e := serror LIBSSH2_ERROR_SFTP_PROTOCOL "sftp_read() internal error" in ret (e, acc)
                end
              else
                let! e := serror LIBSSH2_ERROR_SFTP_PROTOCOL
                            "SFTP Protocol badness: unrecognised read request response" in ret (e, acc)
      end
  end.

(** From the sending and from the collecting phase on. *)
Definition read_from_sent2 (h : ptr) (buffer_size : Z) : SM (Z * list Z) :=
  set_read_state libssh2_NB_state_idle ;; read_collect fuel h buffer_size [].

Definition read_from_sent (h : ptr) (buffer_size : Z) : SM (Z * list Z) :=
  set_read_state libssh2_NB_state_idle ;;
  let! r := read_send fuel h 0 in
  match r with Some rc => ret (rc, []) | None => read_from_sent2 h buffer_size end.

(** The result and the bytes stored in [buffer]. *)
Definition sftp_read (h : ptr) (buffer_size : Z) : SM (Z * list Z) :=
  let! f := sftp in
  match sf_read_state f with
  | libssh2_NB_state_idle =>
      let! fd := file h in
      if negb (fd_data_left fd =? 0) then read_left h fd buffer_size
      else if fd_eof fd then ret (0, [])
      else
        let! r := read_ahead fd buffer_size in
        match r with
        | inl rc => ret (rc, [])
        | inr count =>
            let! r := read_requests fuel h count buffer_size in
            match r with Some e => ret (e, []) | None => read_from_sent h buffer_size end
        end
  | libssh2_NB_state_sent => read_from_sent h buffer_size
  | libssh2_NB_state_sent2 => read_from_sent2 h buffer_size
  | _ => fault
  end.

(** ** [sftp_write] *)

Definition set_write_state (st : libssh2_nonblocking_states) : SM unit :=
  set_sftp (fun f => f <| sf_write_state := st |>).

Definition write_message (handle : list Z) (request_id offset : Z) (data : list Z) : list Z :=
  sftp_message (u32 (lenZ handle + lenZ data + 25)) SSH_FXP_WRITE request_id
    (store_str (store_u64 (store_str [] handle) offset) data).

(** The requests for the bytes of [buffer]. The field [offset] of the chunks is not
    used. *)
Fixpoint write_requests (fuel : nat) (h : ptr) (buffer : list Z) : SM (option Z) :=
  match fuel with
  | O => fun _ => OutOfFuel
  | S fuel =>
      if 0 <? lenZ buffer then
        let! x := handle h in
        let size := Z.min MAX_SFTP_OUTGOING_SIZE (lenZ buffer) in
        let packet_len := u32 (lenZ (h_handle x) + size + 25) in
        let! ok := lift alloc_outcome in
        if (ok : bool) then
          let! fd := file h in
          let! id := next_request_id in
          let data := take (Z.to_nat size) buffer in
          let c := mk_chunk 0 size 0 packet_len id (write_message (h_handle x) id (fd_offset_sent fd) data) in
          set_file h (fun f => f <| fd_offset_sent := u64 (fd_offset_sent f + size) |>) ;;
          set_chunks h (fun l => l ++ [c]) ;;
          write_requests fuel h (drop (Z.to_nat size) buffer)
        else let! e := serror LIBSSH2_ERROR_ALLOC "malloc fail for FXP_WRITE" in ret (Some e)
      else ret None
  end.

Fixpoint write_send (rounds : nat) (h : ptr) (i : nat) : SM (option Z) :=
  match rounds with
  | O => fun _ => OutOfFuel
  | S rounds =>
      let! x := handle h in
      match h_packet_list x !! i with
      | None => ret None
      | Some c =>
          if ck_lefttosend c =? 0 then write_send rounds h (S i)
          else
            let! rc := chunk_write c in
            if rc <? 0 then ret (Some rc)
            else
              set_chunks h (alter (chunk_sent rc) i) ;;
              if ck_lefttosend c - rc =? 0 then write_send rounds h (S i) else ret None
      end
  end.

(** The answer to the first chunk: the bytes acknowledged, or the call's result. *)
Definition write_ack (h : ptr) (c : sftp_pipeline_chunk) : SM (Z + Z) :=
  let! r := sftp_packet_require transport_send transport_read fuel SSH_FXP_STATUS (ck_request_id c) 9 in
  if r.1 =? LIBSSH2_ERROR_BUFFER_TOO_SMALL then
    (match r.2 with Some p => if 0 <? p.2 then lift (free_block p.1) else ret tt | None => ret tt end) ;;
    let! e := serror LIBSSH2_ERROR_SFTP_PROTOCOL "FXP write packet too short" in ret (inl e)
  else if r.1 <? 0 then
    (if r.1 =? LIBSSH2_ERROR_EAGAIN then set_write_state libssh2_NB_state_sent else ret tt) ;; ret (inl r.1)
  else
    let! p := access r.2 in
    let! retcode := take_status p.1 in
    set_last_errno retcode ;;
    if retcode =? LIBSSH2_FX_OK then
      set_file h (fun f => f <| fd_offset := u64 (fd_offset f + ck_len c) |>) ;;
      set_chunks h (drop 1) ;; ret (inr (ck_len c))
    else
      sftp_packetlist_flush h ;;
      set_file h (fun f => f <| fd_offset := u64 (fd_offset f - fd_acked f) |>) ;;
      set_file h (fun f => f <| fd_offset_sent := fd_offset f |> <| fd_acked := 0 |>) ;;
      let! e := serror LIBSSH2_ERROR_SFTP_PROTOCOL "FXP write failed" in ret (inl e).

(** The loop over the answers: at most one chunk is acknowledged by a call. *)
Definition write_acks (h : ptr) : SM (Z + Z) :=
  let! x := handle h in
  match h_packet_list x with
  | c :: _ => if negb (ck_lefttosend c =? 0) then ret (inr 0) else write_ack h c
  | [] => ret (inr 0)
  end.

(** The part behind the [switch]. *)
Definition write_return (h : ptr) (acked org_count : Z) : SM Z :=
  let! fd := file h in
  let acked := acked + fd_acked fd in
  if negb (acked =? 0) then
    let n := Z.min acked org_count in
    set_file h (fun f => f <| fd_acked := acked - n |>) ;; ret n
  else ret 0.

Definition write_from_sent (h : ptr) (org_count : Z) : SM Z :=
  set_write_state libssh2_NB_state_idle ;;
  let! r := write_acks h in
  match r with inl rc => ret rc | inr acked => write_return h acked org_count end.

Definition sftp_write (h : ptr) (buffer : list Z) : SM Z :=
  let! f := sftp in
  if nb_is (sf_write_state f) libssh2_NB_state_sent then write_from_sent h (lenZ buffer)
  else
    let! fd := file h in
    let already := u64 (u64 (fd_offset_sent fd - fd_offset fd) + fd_acked fd) in
    let fresh := if already <=? lenZ buffer then drop (Z.to_nat already) buffer else [] in
    set_write_state libssh2_NB_state_idle ;;
    let! r := write_requests fuel h fresh in
    match r with
    | Some e => ret e
    | None =>
        let! r := write_send fuel h 0 in
        match r with Some rc => ret rc | None => write_from_sent h (lenZ buffer) end
    end.
End File.
