(* ===== verification/SftpSession.v ===== *)
(** * SFTP: handles, sessions and the public calls (sftp.c)

    Closing a handle, moving in a file, starting and ending the SFTP session, and the
    functions of libssh2_sftp.h: each repeats its operation while it would block and
    the session blocks. *)

From stdpp Require Import base numbers list gmap strings.
From S2P Require Import Prelude Codes CString KexMethods Wire Session ChannelWindow Packet Conn Comp ChannelIO ChannelCtl Blocking SftpCodec Sftp SftpOps SftpFile.

Section Handles.
Context (transport_send : list Z -> list Z -> CM Z) (transport_read : CM Z) (fuel : nat).

(** ** [sftp_close_handle] *)

Definition set_close_state (h : ptr) (st : libssh2_nonblocking_states) : SM unit :=
  set_handle h (fun x => x <| h_close_state := st |>).

(** The step in the state [idle]: the value of [rc]. *)
Definition close_build (h : ptr) (packet_len : Z) : SM Z :=
  let! p := lift (alloc_block (replicate (Z.to_nat packet_len) 0)) in
  set_handle h (fun x => x <| h_close_packet := p |>) ;;
  match p with
  | None =>
      set_close_state h libssh2_NB_state_idle ;;
      serror LIBSSH2_ERROR_ALLOC "Unable to allocate memory for FXP_CLOSE packet"
  | Some p =>
      let! id := next_request_id in
      set_handle h (fun x => x <| h_close_request_id := id |>) ;;
      let! x := handle h in
      fill_packet p packet_len SSH_FXP_CLOSE id (store_str [] (h_handle x)) ;;
      set_close_state h libssh2_NB_state_created ;; ret 0
  end.

(** The step in the state [created]: a result, or the value of [rc]. *)
Definition close_send (h : ptr) (packet_len : Z) : SM (Z + Z) :=
  let! x := handle h in
  let! p := access (h_close_packet x) in
  let! rc := write_packet_bytes transport_send transport_read fuel p 0 packet_len in
  if rc =? LIBSSH2_ERROR_EAGAIN then ret (inl rc)
  else
    let! rc := (if negb (packet_len =? rc) then
                  set_close_state h libssh2_NB_state_idle ;;
                  serror LIBSSH2_ERROR_SOCKET_SEND "Unable to send FXP_CLOSE command"
                else set_close_state h libssh2_NB_state_sent ;; ret rc) in
    lift (free_block p) ;;
    set_handle h (fun x => x <| h_close_packet := None |>) ;; ret (inr rc).

(** The step in the state [sent]: a result, or [rc] and [data]. *)
Definition close_answer (h : ptr) : SM (Z + Z * option ptr) :=
  let! x := handle h in
  let! r := sftp_packet_require transport_send transport_read fuel SSH_FXP_STATUS (h_close_request_id x) 9 in
  if r.1 =? LIBSSH2_ERROR_EAGAIN then ret (inl r.1)
  else
    let! data :=
      (if r.1 =? LIBSSH2_ERROR_BUFFER_TOO_SMALL then
         (match r.2 with Some p => if 0 <? p.2 then lift (free_block p.1) else ret tt | None => ret tt end) ;;
         serror LIBSSH2_ERROR_SFTP_PROTOCOL "Packet too short in FXP_CLOSE command" ;; ret None
       else if negb (r.1 =? 0) then serror r.1 "Error waiting for status message" ;; ret (fst <$> r.2)
       else ret (fst <$> r.2)) in
    set_close_state h libssh2_NB_state_sent1 ;; ret (inr (r.1, data)).

(** The status; without one the assertion is that there was an error. *)
Definition close_status (h : ptr) (rc : Z) (data : option ptr) : SM Z :=
  match data with
  | None => if rc =? 0 then fault else ret rc
  | Some p =>
      let! retcode := take_status p in
      if negb (retcode =? LIBSSH2_FX_OK) then
        set_last_errno retcode ;;
        set_close_state h libssh2_NB_state_idle ;;
        serror LIBSSH2_ERROR_SFTP_PROTOCOL "SFTP Protocol Error"
      else ret rc
  end.

(** The handle and what it holds are released. *)
Definition close_release (h : ptr) : SM unit :=
  set_sftp (fun f => f <| sf_handles ::= filter (fun q => q <> h) |>) ;;
  let! x := handle h in
  (match h_u x with
   | HandleDir d => if negb (dd_names_left d =? 0) then let! p := access (dd_names_packet d) in lift (free_block p)
                    else ret tt
   | HandleFile f => match fd_data f with Some p => lift (free_block p) | None => ret tt end
   end) ;;
  sftp_packetlist_flush h ;;
  set_sftp (fun f => f <| sf_read_state := libssh2_NB_state_idle |>) ;;
  set_close_state h libssh2_NB_state_idle ;;
  modify (fun w => w <| w_handles ::= delete h |>).

Definition sftp_close_handle (h : ptr) : SM Z :=
  let! x := handle h in
  let packet_len := u32 (lenZ (h_handle x) + 13) in
  let! rc := (if nb_is (h_close_state x) libssh2_NB_state_idle then close_build h packet_len else ret 0) in
  let! x := handle h in
  let! r := (if nb_is (h_close_state x) libssh2_NB_state_created then close_send h packet_len else ret (inr rc)) in
  match r with
  | inl rc => ret rc
  | inr rc =>
      let! x := handle h in
      let! r := (if nb_is (h_close_state x) libssh2_NB_state_sent then close_answer h else ret (inr (rc, None))) in
      match r with
      | inl rc => ret rc
      | inr r =>
          let! rc := close_status h r.1 r.2 in
          close_release h ;; ret rc
      end
  end.

(** ** The position in a file *)

Definition sftp_seek64 (h : ptr) (offset : Z) : SM unit :=
  let! fd := file h in
  if (fd_offset fd =? offset) && (fd_offset_sent fd =? offset) then ret tt
  else
    set_file h (fun f => f <| fd_offset := offset |> <| fd_offset_sent := offset |>) ;;
    sftp_packetlist_flush h ;;
    (if negb (fd_data_left fd =? 0) then
       let! p := access (fd_data fd) in
       lift (free_block p) ;;
       set_file h (fun f => f <| fd_data_left := 0 |> <| fd_data_len := 0 |> <| fd_data := None |>)
     else ret tt) ;;
    set_file h (fun f => f <| fd_eof := false |>).

Definition libssh2_sftp_seek64 (hnd : option ptr) (offset : Z) : SM unit :=
  match hnd with None => ret tt | Some h => sftp_seek64 h offset end.

(** [size_t] has 64 bits here. *)
Definition libssh2_sftp_seek (hnd : option ptr) (offset : Z) : SM unit := libssh2_sftp_seek64 hnd (u64 offset).

Definition libssh2_sftp_tell64 (hnd : option ptr) : SM Z :=
  match hnd with None => ret 0 | Some h => let! fd := file h in ret (fd_offset fd) end.
Definition libssh2_sftp_tell (hnd : option ptr) : SM Z :=
  let! offset := libssh2_sftp_tell64 hnd in ret (u64 offset).

(** ** The session *)

(** [libssh2_sftp_dtor], the close callback of the channel. *)
Definition sftp_dtor : SM unit :=
  let! f := sftp in
  (match sf_partial_packet f with Some p => lift (free_block p) | None => ret tt end) ;;
  (match op_packet (sf_ops f op_readdir) with Some p => lift (free_block p) | None => ret tt end) ;;
  modify (fun w => w <| w_sftp := None |>).

(** [_libssh2_channel_free] of the SFTP channel; the callback runs when the channel is
    closed. *)
Definition free_sftp_channel (ch : ptr) : SM Z :=
  let! before := lift (gets s_trace) in
  let! rc := lift (channel_free transport_send transport_read fuel ch) in
  let! after := lift (gets s_trace) in
  (if existsb (fun e => match e with EvChannelClose q => bool_decide (q = ch) | _ => false end)
        (drop (length before) after)
   then sftp_dtor else ret tt) ;;
  ret rc.

(** The fields of the packets, in the order in which they are released. *)
Definition shutdown_ops : list sftp_op_name :=
  [op_readdir; op_fstat; op_unlink; op_rename; op_fstatvfs; op_statvfs; op_mkdir; op_rmdir; op_stat;
   op_symlink; op_fsync].

Fixpoint free_op_packets (ops : list sftp_op_name) : SM unit :=
  match ops with
  | [] => ret tt
  | n :: ops =>
      let! o := get_op n in
      (match op_packet o with
       | Some p => lift (free_block p) ;; set_op n (fun o => o <| op_packet := None |>)
       | None => ret tt
       end) ;;
      free_op_packets ops
  end.

Definition sftp_shutdown : SM Z :=
  let! f := sftp in
  (match sf_partial_packet f with
   | Some p => lift (free_block p) ;; set_sftp (fun f => f <| sf_partial_packet := None |>)
   | None => ret tt
   end) ;;
  (match sf_open_packet f with
   | Some p => lift (free_block p) ;; set_sftp (fun f => f <| sf_open_packet := None |>)
   | None => ret tt
   end) ;;
  free_op_packets shutdown_ops ;;
  sftp_packet_flush ;;
  free_sftp_channel (sf_channel f).

(** ** [sftp_init] *)

Definition set_init_state (st : libssh2_nonblocking_states) : SM unit :=
  modify (fun w => w <| w_init_state := st |>).

Definition init_buffer : list Z := htonu32 5 ++ [SSH_FXP_INIT] ++ htonu32 LIBSSH2_SFTP_VERSION.

(** [while(_libssh2_channel_free(...) == LIBSSH2_ERROR_EAGAIN);] *)
Fixpoint free_until_done (rounds : nat) (ch : ptr) : SM unit :=
  match rounds with
  | O => fun _ => OutOfFuel
  | S rounds =>
      let! rc := lift (channel_free transport_send transport_read fuel ch) in
      if rc =? LIBSSH2_ERROR_EAGAIN then free_until_done rounds ch else ret tt
  end.

(** The label [sftp_init_error]. *)
Definition init_error : SM bool :=
  let! ch := gets w_init_channel in
  let! ch := access ch in
  free_until_done fuel ch ;;
  modify (fun w => w <| w_init_channel := None |> <| w_sftp := None |> <| w_init_state := libssh2_NB_state_idle |>) ;;
  ret false.

(** The steps answer [true] to go on. *)
Definition init_open : SM bool :=
  let! ch := lift (channel_open transport_send transport_read fuel (str "session")
                     LIBSSH2_CHANNEL_WINDOW_DEFAULT LIBSSH2_CHANNEL_PACKET_DEFAULT []) in
  modify (fun w => w <| w_init_channel := ch |>) ;;
  match ch with
  | Some _ => set_init_state libssh2_NB_state_sent ;; ret true
  | None =>
      let! e := lift (gets err_code) in
      if e =? LIBSSH2_ERROR_EAGAIN then
        serror LIBSSH2_ERROR_EAGAIN "Would block starting up channel" ;; ret false
      else
        serror LIBSSH2_ERROR_CHANNEL_FAILURE "Unable to startup channel" ;;
        set_init_state libssh2_NB_state_idle ;; ret false
  end.

Definition init_channel : SM ptr := let! ch := gets w_init_channel in access ch.

Definition init_subsystem : SM bool :=
  let! ch := init_channel in
  let! rc := lift (channel_process_startup transport_send transport_read fuel ch (str "subsystem") (Some (str "sftp"))) in
  if rc =? LIBSSH2_ERROR_EAGAIN then
    serror LIBSSH2_ERROR_EAGAIN "Would block to request SFTP subsystem" ;; ret false
  else if negb (rc =? 0) then
    serror LIBSSH2_ERROR_CHANNEL_FAILURE "Unable to request SFTP subsystem" ;; init_error
  else set_init_state libssh2_NB_state_sent1 ;; ret true.

Definition init_object : SM bool :=
  let! ch := init_channel in
  let! rc := lift (channel_extended_data transport_send ch LIBSSH2_CHANNEL_EXTENDED_DATA_IGNORE) in
  if rc =? LIBSSH2_ERROR_EAGAIN then
    serror LIBSSH2_ERROR_EAGAIN "Would block requesting handle extended data" ;; ret false
  else
    let! ok := lift alloc_outcome in
    if (ok : bool) then
      modify (fun w => w <| w_sftp := Some (sftp_0 ch) |> <| w_init_sent := 0 |>
                         <| w_init_state := libssh2_NB_state_sent2 |>) ;; ret true
    else serror LIBSSH2_ERROR_ALLOC "Unable to allocate a new SFTP structure" ;; init_error.

Definition init_write : SM bool :=
  let! ch := init_channel in
  let! sent := gets w_init_sent in
  let! b := access (bytes_at init_buffer sent (9 - sent)) in
  let! rc := lift (channel_write transport_send transport_read fuel ch 0 b) in
  if rc =? LIBSSH2_ERROR_EAGAIN then
    serror LIBSSH2_ERROR_EAGAIN "Would block sending SSH_FXP_INIT" ;; ret false
  else if rc <? 0 then
    serror LIBSSH2_ERROR_SOCKET_SEND "Unable to send SSH_FXP_INIT" ;; init_error
  else
    modify (fun w => w <| w_init_sent := sent + rc |>) ;;
    (if sent + rc =? 9 then set_init_state libssh2_NB_state_sent3 else ret tt) ;; ret true.

(** The extensions of the version message; [false] when one is cut off. *)
Fixpoint init_extensions (rounds : nat) (buf : string_buf) : SM bool :=
  match rounds with
  | O => fun _ => OutOfFuel
  | S rounds =>
      if sb_ptr buf <? sb_len buf then
        let! name := access (get_string buf None) in
        let '(rc, _, buf) := name in
        if negb (rc =? 0) then
          serror LIBSSH2_ERROR_BUFFER_TOO_SMALL "Data too short when extracting extname" ;; ret false
        else
          let! data := access (get_string buf None) in
          let '(rc, _, buf) := data in
          if negb (rc =? 0) then
            serror LIBSSH2_ERROR_BUFFER_TOO_SMALL "Data too short when extracting extdata" ;; ret false
          else init_extensions rounds buf
      else ret true
  end.

Definition init_version (p : ptr * Z) : SM bool :=
  let! d := lift (block p.1) in
  let! r := access (get_u32 (mk_string_buf d 1 p.2) 0) in
  let '(rc, version, buf) := r in
  if negb (rc =? 0) then lift (free_block p.1) ;; init_error
  else
    set_sftp (fun f => f <| sf_version := if LIBSSH2_SFTP_VERSION <? version then LIBSSH2_SFTP_VERSION else version |>) ;;
    let! ok := init_extensions fuel buf in
    lift (free_block p.1) ;;
    if negb ok then init_error
    else
      let! f := sftp in
      lift (set_chan (sf_channel f) (fun c => c <| close_cb := true |>)) ;;
      modify (fun w => w <| w_init_state := libssh2_NB_state_idle |> <| w_init_channel := None |>) ;;
      ret true.

Definition init_receive : SM bool :=
  let! r := sftp_packet_require transport_send transport_read fuel SSH_FXP_VERSION 0 5 in
  if r.1 =? LIBSSH2_ERROR_EAGAIN then
    serror LIBSSH2_ERROR_EAGAIN "Would block receiving SSH_FXP_VERSION" ;; ret false
  else if r.1 =? LIBSSH2_ERROR_BUFFER_TOO_SMALL then
    (match r.2 with Some p => if 0 <? p.2 then lift (free_block p.1) else ret tt | None => ret tt end) ;;
    serror LIBSSH2_ERROR_SFTP_PROTOCOL "Invalid SSH_FXP_VERSION response" ;; init_error
  else if negb (r.1 =? 0) then
    serror r.1 "Timeout waiting for response from SFTP subsystem" ;; init_error
  else let! p := access r.2 in init_version p.

(** A step in its state; the others pass. *)
Definition init_step (st : libssh2_nonblocking_states) (m : SM bool) (k : SM bool) : SM bool :=
  let! now := gets w_init_state in
  let! go := (if nb_is now st then m else ret true) in
  if (go : bool) then k else ret false.

(** Whether there is an SFTP object now. *)
Definition sftp_init : SM bool :=
  init_step libssh2_NB_state_idle (set_init_state libssh2_NB_state_created ;; ret true)
    (init_step libssh2_NB_state_created init_open
      (init_step libssh2_NB_state_sent init_subsystem
        (init_step libssh2_NB_state_sent1 init_object
          (init_step libssh2_NB_state_sent2 init_write init_receive)))).

(** ** The public functions *)

(** [BLOCK_ADJUST] over the SFTP state. *)
Definition blocking (x : SM Z) : SM Z := block_adjust (@lift) transport_send x fuel.

(** [if(!sftp) return LIBSSH2_ERROR_BAD_USE;] *)
Definition with_sftp (x : SM Z) : SM Z :=
  let! o := gets w_sftp in
  match o with None => ret LIBSSH2_ERROR_BAD_USE | Some _ => blocking x end.

(** [if(!hnd) return LIBSSH2_ERROR_BAD_USE;] *)
Definition with_handle (hnd : option ptr) (x : ptr -> SM Z) : SM Z :=
  match hnd with None => ret LIBSSH2_ERROR_BAD_USE | Some h => blocking (x h) end.

Definition adjust_out {A} (x : SM (Z * A)) (none : A) : SM (Z * A) :=
  block_adjust_out (@lift) transport_send x none fuel.

Definition adjust_errno {A} (x : SM (option A)) : SM (option A) :=
  block_adjust_errno (@lift) transport_send x fuel.

Definition libssh2_sftp_init : SM bool :=
  let! st := lift (gets s_state) in
  if Z.land st LIBSSH2_STATE_AUTHENTICATED =? 0 then
    serror LIBSSH2_ERROR_INVAL "session not authenticated yet" ;; ret false
  else
    let! r := adjust_errno (let! ok := sftp_init in ret (if (ok : bool) then Some tt else None)) in
    ret (match r with Some _ => true | None => false end).

Definition libssh2_sftp_shutdown : SM Z := with_sftp sftp_shutdown.

Definition libssh2_sftp_open_ex (filename : list Z) (flags mode open_type : Z) : SM (option ptr) :=
  let! o := gets w_sftp in
  match o with
  | None => ret None
  | Some _ => adjust_errno (sftp_open transport_send transport_read fuel filename (u32 flags) mode open_type)
  end.

Definition libssh2_sftp_read (hnd : option ptr) (buffer_maxlen : Z) : SM (Z * list Z) :=
  match hnd with
  | None => ret (LIBSSH2_ERROR_BAD_USE, [])
  | Some h => adjust_out (sftp_read transport_send transport_read fuel h buffer_maxlen) []
  end.

Definition libssh2_sftp_readdir_ex (hnd : option ptr) (buffer_maxlen longentry_maxlen : Z) (longentry : bool)
    (attrs : option LIBSSH2_SFTP_ATTRIBUTES) : SM (Z * dir_entry) :=
  let none := mk_dir_entry [] [] attrs in
  match hnd with
  | None => ret (LIBSSH2_ERROR_BAD_USE, none)
  | Some h => adjust_out (sftp_readdir transport_send transport_read fuel h buffer_maxlen longentry_maxlen longentry attrs) none
  end.

Definition libssh2_sftp_write (hnd : option ptr) (buffer : list Z) : SM Z :=
  with_handle hnd (fun h => sftp_write transport_send transport_read fuel h buffer).

Definition libssh2_sftp_fsync (hnd : option ptr) : SM Z :=
  with_handle hnd (sftp_fsync transport_send transport_read fuel).

Definition libssh2_sftp_fstat_ex (hnd : option ptr) (attrs : LIBSSH2_SFTP_ATTRIBUTES) (setstat : bool) :
    SM (Z * LIBSSH2_SFTP_ATTRIBUTES) :=
  match hnd with
  | None => ret (LIBSSH2_ERROR_BAD_USE, attrs)
  | Some h => adjust_out (sftp_fstat transport_send transport_read fuel h attrs setstat) attrs
  end.

Definition libssh2_sftp_close_handle (hnd : option ptr) : SM Z := with_handle hnd sftp_close_handle.

Definition libssh2_sftp_unlink_ex (filename : list Z) : SM Z :=
  with_sftp (sftp_unlink transport_send transport_read fuel filename).

Definition libssh2_sftp_rename_ex (source_filename dest_filename : list Z) (flags : Z) : SM Z :=
  with_sftp (sftp_rename transport_send transport_read fuel source_filename dest_filename flags).

Definition libssh2_sftp_fstatvfs (hnd : option ptr) : SM (Z * option LIBSSH2_SFTP_STATVFS) :=
  match hnd with
  | None => ret (LIBSSH2_ERROR_BAD_USE, None)
  | Some h => adjust_out (sftp_fstatvfs transport_send transport_read fuel h) None
  end.

Definition libssh2_sftp_statvfs (path : list Z) : SM (Z * option LIBSSH2_SFTP_STATVFS) :=
  let! o := gets w_sftp in
  match o with
  | None => ret (LIBSSH2_ERROR_BAD_USE, None)
  | Some _ => adjust_out (sftp_statvfs transport_send transport_read fuel path) None
  end.

Definition libssh2_sftp_mkdir_ex (path : list Z) (mode : Z) : SM Z :=
  with_sftp (sftp_mkdir transport_send transport_read fuel path mode).

Definition libssh2_sftp_rmdir_ex (path : list Z) : SM Z :=
  with_sftp (sftp_rmdir transport_send transport_read fuel path).

Definition libssh2_sftp_stat_ex (path : list Z) (stat_type : Z) (attrs : LIBSSH2_SFTP_ATTRIBUTES) :
    SM (Z * LIBSSH2_SFTP_ATTRIBUTES) :=
  let! o := gets w_sftp in
  match o with
  | None => ret (LIBSSH2_ERROR_BAD_USE, attrs)
  | Some _ => adjust_out (sftp_stat transport_send transport_read fuel path stat_type attrs) attrs
  end.

Definition libssh2_sftp_symlink_ex (path target : list Z) (target_len link_type : Z) : SM (Z * list Z) :=
  let! o := gets w_sftp in
  match o with
  | None => ret (LIBSSH2_ERROR_BAD_USE, [])
  | Some _ => adjust_out (sftp_symlink transport_send transport_read fuel path target target_len link_type) []
  end.

Definition libssh2_sftp_get_channel : SM (option ptr) :=
  let! o := gets w_sftp in ret (match o with None => None | Some f => Some (sf_channel f) end).

Definition libssh2_sftp_last_error : SM Z :=
  let! o := gets w_sftp in ret (match o with None => 0 | Some f => sf_last_errno f end).
End Handles.
