(* ===== verification/SftpWrite.v ===== *)
(** * Theorems about [sftp_write]

    [sftp_write] sends data ahead and counts what the server acknowledged. The
    application presents a file's contents from the position it has reached; whatever
    the channel and the server do, every outstanding request writes the file's bytes at
    their place, and the position moves by what the call returns. *)

From stdpp Require Import base numbers list gmap strings.
From S2P Require Import Prelude Codes CString KexMethods Wire Session ChannelWindow Packet Conn PacketSafety Comp PacketSpec ChannelIO ChannelStream Blocking SftpCodec Sftp SftpSpec SftpFrames SftpWait SftpOps SftpFile.

(** ** The channel for output *)

(** The bytes the first chunk that is not all sent still has. *)
Fixpoint next_out (cs : list sftp_pipeline_chunk) : option (list Z) :=
  match cs with
  | [] => None
  | c :: cs => if ck_lefttosend c =? 0 then next_out cs
               else Some (slice (ck_sent c) (ck_lefttosend c) (ck_packet c))
  end.

(** What [sftp_write] relies on of the channel: [ok (Some b)] is the state in which only
    [b] may be written next, because a write of it may be suspended, [ok None] the one
    in which nothing is. *)
Class ChannelOutput (transport_send : list Z -> list Z -> CM Z) (transport_read : CM Z) (ch : ptr)
    (rounds : nat) (ok : option (list Z) -> session -> Prop) (unread : session -> list Z) : Prop := {
  out_input : forall o, ChannelInput transport_send transport_read ch rounds (ok o) unread;
  out_free : forall o s, ok None s -> ok o s;
  out_write : forall fuel b s, ok (Some b) s -> (rounds <= fuel)%nat ->
    wp (channel_write transport_send transport_read fuel ch 0 b)
      (fun rc s' => others_kept s s' /\ unread s' = unread s /\ rc <= lenZ b /\
         ok (if rc <? 0 then Some b else None) s') s
}.
#[global] Existing Instance out_input.

(** ** The state of a file that is written *)

Definition fd (x : sftp_handle) : file_data :=
  match h_u x with HandleFile f => f | HandleDir _ => file_data_0 end.

Definition outstanding (cs : list sftp_pipeline_chunk) : Z := foldr (fun c n => ck_len c + n) 0 cs.

(** The requests write [contents] from [off] on, without a gap. *)
Fixpoint chunks_ok (contents hdl : list Z) (off : Z) (cs : list sftp_pipeline_chunk) : Prop :=
  match cs with
  | [] => True
  | c :: cs =>
      0 < ck_len c <= MAX_SFTP_OUTGOING_SIZE /\ 0 <= ck_sent c /\ 0 <= ck_lefttosend c /\
      ck_sent c + ck_lefttosend c = lenZ (ck_packet c) /\
      ck_packet c = write_message hdl (ck_request_id c) off (slice off (ck_len c) contents) /\
      chunks_ok contents hdl (off + ck_len c) cs
  end.

Record write_inv (contents : list Z) (x : sftp_handle) : Prop := {
  wi_file : h_u x = HandleFile (fd x);
  wi_acked : 0 <= fd_acked (fd x) <= fd_offset (fd x);
  wi_sent : fd_offset_sent (fd x) = fd_offset (fd x) + outstanding (h_packet_list x);
  wi_end : fd_offset_sent (fd x) <= lenZ contents;
  wi_bound : lenZ contents < 2 ^ 63;
  wi_handle : lenZ (h_handle x) <= SFTP_HANDLE_MAXLEN;
  wi_chunks : chunks_ok contents (h_handle x) (fd_offset (fd x)) (h_packet_list x)
}.

(** How far the application knows its data to be written. *)
Definition position (x : sftp_handle) : Z := fd_offset (fd x) - fd_acked (fd x).

Lemma chunks_ok_app contents hdl off cs ds :
  chunks_ok contents hdl off (cs ++ ds) <->
  chunks_ok contents hdl off cs /\ chunks_ok contents hdl (off + outstanding cs) ds.
Proof.
  revert off. induction cs as [|c cs IH]; intros off; simpl.
  - rewrite Z.add_0_r. tauto.
  - rewrite IH, Z.add_assoc. tauto.
Qed.

Lemma outstanding_app cs ds : outstanding (cs ++ ds) = outstanding cs + outstanding ds.
Proof. induction cs as [|c cs IH]; simpl; [done|]. rewrite IH. lia. Qed.

Lemma chunks_ok_outstanding contents hdl off cs : chunks_ok contents hdl off cs -> 0 <= outstanding cs.
Proof. revert off. induction cs as [|c cs IH]; simpl; intros off; [done|]. intros (? & _ & _ & _ & _ & H%IH). lia. Qed.

Lemma next_out_app cs ds :
  next_out (cs ++ ds) = match next_out cs with Some b => Some b | None => next_out ds end.
Proof. induction cs as [|c cs IH]; simpl; [done|]. by destruct (ck_lefttosend c =? 0). Qed.

Lemma lenZ_write_message hdl id off data :
  lenZ hdl <= SFTP_HANDLE_MAXLEN -> lenZ data <= MAX_SFTP_OUTGOING_SIZE ->
  lenZ (write_message hdl id off data) = u32 (lenZ hdl + lenZ data + 25).
Proof.
  unfold SFTP_HANDLE_MAXLEN, MAX_SFTP_OUTGOING_SIZE. pose proof (lenZ_nonneg hdl). pose proof (lenZ_nonneg data). intros.
  rewrite u32_small by lia. assert (Hh : forall v, length (htonu32 v) = 4%nat) by done.
  unfold write_message, sftp_message, store_str, store_u64, store_u32, lenZ in *.
  rewrite ?length_app, ?length_cons, ?length_app, ?Hh, ?length_nil. simpl length. lia.
Qed.

(** ** Steps on handles *)

Definition hput (w : world) (h : ptr) (x : sftp_handle) : world := w <| w_handles ::= <[h := x]> |>.

Lemma hput_lookup w h x : w_handles (hput w h x) !! h = Some x.
Proof. apply lookup_insert_eq. Qed.

Lemma hput_hput w h x y : hput (hput w h x) h y = hput w h y.
Proof. unfold hput. destruct w. simpl. unfold upd. simpl. by rewrite insert_insert_eq. Qed.

Lemma hput_self w h x : w_handles w !! h = Some x -> hput w h x = w.
Proof. intros E. unfold hput. destruct w. simpl in *. unfold upd. simpl. by rewrite insert_id. Qed.

Section HandleSteps.
Context (w : world) (h : ptr) (x : sftp_handle) (s : session) (f : LIBSSH2_SFTP).

Lemma wp_handle (Q : sftp_handle -> world -> Prop) :
  Q x (put (hput w h x) s f) -> wp (handle h) Q (put (hput w h x) s f).
Proof.
  intros HQ. unfold handle. apply wp_bind, wp_gets. eapply wp_access; [|exact HQ]. apply hput_lookup.
Qed.

Lemma wp_set_handle g (Q : unit -> world -> Prop) :
  Q tt (put (hput w h (g x)) s f) -> wp (set_handle h g) Q (put (hput w h x) s f).
Proof.
  intros HQ. unfold set_handle. apply wp_bind, wp_handle, wp_modify.
  rewrite <- (hput_hput w h x) in HQ. exact HQ.
Qed.

Lemma wp_file (Q : file_data -> world -> Prop) :
  h_u x = HandleFile (fd x) -> Q (fd x) (put (hput w h x) s f) -> wp (file h) Q (put (hput w h x) s f).
Proof. intros E HQ. unfold file. apply wp_bind, wp_handle. eapply wp_access; [|exact HQ]. unfold file_of. by rewrite E. Qed.

Lemma wp_set_file g (Q : unit -> world -> Prop) :
  h_u x = HandleFile (fd x) ->
  Q tt (put (hput w h (x <| h_u := HandleFile (g (fd x)) |>)) s f) ->
  wp (set_file h g) Q (put (hput w h x) s f).
Proof. intros E HQ. unfold set_file. apply wp_bind, wp_file; [done|]. by apply wp_set_handle. Qed.

Lemma wp_next_request_id (Q : Z -> world -> Prop) :
  Q (sf_request_id f) (put w s (f <| sf_request_id := u32 (sf_request_id f + 1) |>)) ->
  wp next_request_id Q (put w s f).
Proof. intros HQ. exact HQ. Qed.
End HandleSteps.

Ltac hp_step :=
  cbn beta iota;
  lazymatch goal with
  | |- wp (handle _) _ _ => apply wp_handle
  | |- wp (set_chunks _ _) _ _ => unfold set_chunks; apply wp_set_handle
  | |- wp (set_handle _ _) _ _ => apply wp_set_handle
  | |- wp next_request_id _ _ => apply wp_next_request_id
  | |- _ => sp_step
  end.

Section Write.
Context (transport_send : list Z -> list Z -> CM Z) (transport_read : CM Z).
Context (ch : ptr) (rounds : nat) (ok : option (list Z) -> session -> Prop) (unread : session -> list Z).
Context `{!ChannelOutput transport_send transport_read ch rounds ok unread}.
Context (contents : list Z) (w : world) (h : ptr).
Implicit Types (s : session) (f : LIBSSH2_SFTP) (x : sftp_handle) (o : option (list Z)).

(** A step that leaves the stream of answers as it is. *)
Definition calm (o : option (list Z)) (s : session) (f : LIBSSH2_SFTP) (s' : session) (f' : LIBSSH2_SFTP) : Prop :=
  good ch (ok o) s' f' /\ rest unread s' f' = rest unread s f /\ sf_packet_state f' = sf_packet_state f /\
  sf_partial_packet f' = sf_partial_packet f.

Lemma calm_at_rest o s f s' f' : calm o s f s' f' -> at_rest f -> at_rest f'.
Proof. intros (_ & _ & E1 & E2). unfold at_rest. by rewrite E1, E2. Qed.

Lemma calm_refl o s f : good ch (ok o) s f -> calm o s f s f.
Proof. done. Qed.

Lemma calm_trans o o' s f s1 f1 s' f' : calm o s f s1 f1 -> calm o' s1 f1 s' f' -> calm o' s f s' f'.
Proof. intros (_ & E1 & E2 & E3) (? & E1' & E2' & E3'). split_and!; [done|congruence..]. Qed.

Lemma calm_own o s s' f :
  good ch (ok o) s f -> own_only s s' /\ s_heap s' = s_heap s /\ s_next_ptr s' = s_next_ptr s -> calm o s f s' f.
Proof.
  intros Hg Hs. destruct (good_same _ _ _ _ _ _ _ _ _ Hg Hs) as (? & Hu & Hp).
  split_and!; try done. unfold rest. congruence.
Qed.

Lemma calm_fields o s f f' :
  good ch (ok o) s f -> sf_packets f' = sf_packets f -> same_partial f f' -> calm o s f s f'.
Proof.
  intros Hg Hp Hsp. destruct (good_fields ch (ok o) s f f' Hp Hsp Hg) as (? & Hpd). destruct Hsp.
  split_and!; try done. unfold rest. congruence.
Qed.

(** *** Building requests *)

Definition start_of (x : sftp_handle) : Z := fd_offset_sent (fd x).

Definition requests_post (o : option (list Z)) (buffer : list Z) (x : sftp_handle) (s : session) (f : LIBSSH2_SFTP)
    (r : option Z) (w' : world) : Prop :=
  exists s' f' x' new, w' = put (hput w h x') s' f' /\ calm o s f s' f' /\ write_inv contents x' /\
    position x' = position x /\ h_packet_list x' = h_packet_list x ++ new /\ (length new <= length buffer)%nat /\
    sf_write_state f' = sf_write_state f /\
    match r with Some e => e < 0 | None => True end.

(** The chunk that is added. *)
Lemma write_inv_grow x n id :
  write_inv contents x -> 0 < n <= MAX_SFTP_OUTGOING_SIZE -> start_of x + n <= lenZ contents ->
  let c := mk_chunk 0 n 0 (u32 (lenZ (h_handle x) + n + 25)) id
             (write_message (h_handle x) id (start_of x) (slice (start_of x) n contents)) in
  let x' := x <| h_u := HandleFile ((fd x) <| fd_offset_sent := u64 (start_of x + n) |>) |>
              <| h_packet_list ::= fun l => l ++ [c] |> in
  write_inv contents x' /\ position x' = position x /\ start_of x' = start_of x + n.
Proof.
  intros [Hf Ha Hs He Hb Hh Hc] Hn Hle c x'.
  assert (Hx : fd x' = (fd x) <| fd_offset_sent := u64 (start_of x + n) |>) by done.
  unfold start_of in *. pose proof (chunks_ok_outstanding _ _ _ _ Hc) as Ho.
  assert (Hu : u64 (fd_offset_sent (fd x) + n) = fd_offset_sent (fd x) + n) by (apply u64_small; lia).
  assert (Hsl : lenZ (slice (fd_offset_sent (fd x)) n contents) = n) by (rewrite lenZ_slice; lia).
  split_and!; [|by unfold position; rewrite Hx|rewrite Hx; exact Hu].
  split; rewrite ?Hx; simpl; rewrite ?Hu; try done; try lia.
  - rewrite outstanding_app. simpl. lia.
  - apply chunks_ok_app. split; [done|]. rewrite <- Hs. simpl. split_and!; try lia.
    + rewrite u32_small; [|unfold SFTP_HANDLE_MAXLEN, MAX_SFTP_OUTGOING_SIZE in *; pose proof (lenZ_nonneg (h_handle x)); lia].
      pose proof (lenZ_nonneg (h_handle x)). lia.
    + rewrite lenZ_write_message, Hsl; [lia|done|lia].
    + done.
Qed.

Lemma slice_split off n k (l : list Z) :
  0 <= off -> 0 <= n <= k ->
  take (Z.to_nat n) (slice off k l) = slice off n l /\ drop (Z.to_nat n) (slice off k l) = slice (off + n) (k - n) l.
Proof.
  intros Ho Hn. unfold slice. split.
  - rewrite take_take. f_equal. lia.
  - rewrite skipn_firstn_comm, drop_drop. f_equal; [lia|]. f_equal. lia.
Qed.

Lemma write_requests_ok o : forall fuel buffer s f x,
  good ch (ok o) s f -> write_inv contents x ->
  buffer = slice (start_of x) (lenZ buffer) contents -> start_of x + lenZ buffer <= lenZ contents ->
  (length buffer < fuel)%nat ->
  wp (write_requests fuel h buffer) (requests_post o buffer x s f) (put (hput w h x) s f).
Proof.
  induction fuel as [|fuel IH]; intros buffer s f x Hg Hi Hb Hle Hf; [lia|]. cbn [write_requests].
  pose proof Hi as [Hfile Ha Hs He Hbd Hh Hc]. pose proof (chunks_ok_outstanding _ _ _ _ Hc) as Ho.
  hp_step; breflect; cycle 1.
  { hp_step. exists s, f, x, []. split_and!; try done; [by rewrite app_nil_r|simpl; lia]. }
  do 3 hp_step. hp_step. apply wp_alloc_outcome. intros b al. set (s1 := s <| s_alloc := al |>).
  assert (Hc1 : calm o s f s1 f) by (apply calm_own; [done|by destruct s]).
  pose proof Hc1 as (Hg1 & _). destruct b; cycle 1.
  { do 3 hp_step. hp_step. exists s0, f, x, []. split_and!; try done; [|by rewrite app_nil_r|simpl; lia].
    eapply calm_trans; [exact Hc1|by apply calm_own]. }
  hp_step. apply wp_file; [done|]. do 2 hp_step. set (id := sf_request_id f).
  set (f1 := f <| sf_request_id := _ |>).
  assert (Hc2 : calm o s f s1 f1) by (eapply calm_trans; [exact Hc1|by apply calm_fields]).
  pose proof Hc2 as (Hg2 & _).
  set (n := Z.min MAX_SFTP_OUTGOING_SIZE (lenZ buffer)).
  assert (Hn : 0 < n <= MAX_SFTP_OUTGOING_SIZE /\ n <= lenZ buffer) by (unfold n, MAX_SFTP_OUTGOING_SIZE; lia).
  destruct (slice_split (start_of x) n (lenZ buffer) contents) as [Ht Hd]; [unfold start_of; lia|lia|].
  rewrite <- Hb in Ht, Hd. hp_step. apply wp_set_file; [done|]. do 2 hp_step.
  rewrite Ht, Hd. fold (start_of x).
  destruct (write_inv_grow x n id Hi) as (Hi' & Hp' & Hst'); [lia|lia|].
  match goal with |- wp _ _ (put (hput w h ?y) _ _) => set (x' := y) in * end.
  assert (Hln : lenZ (slice (start_of x + n) (lenZ buffer - n) contents) = lenZ buffer - n).
  { rewrite <- Hd. unfold lenZ in *. rewrite length_drop. lia. }
  eapply wp_mono; [apply (IH _ s1 f1 x'); [done|exact Hi'|rewrite Hln, Hst'; done|lia|unfold lenZ in *; lia]|].
  intros r w' (s' & f' & x'' & new & -> & Hcalm & Hi'' & Hp'' & Hnew & Hlen & Hws & Hr).
  eexists s', f', x'', (_ :: new). split_and!; try done.
  - eapply calm_trans; [exact Hc2|exact Hcalm].
  - rewrite Hnew. unfold x'. simpl. by rewrite <- app_assoc.
  - simpl. unfold lenZ in *. lia.
Qed.

(** *** Sending *)

Lemma calm_channel o o' s f s' :
  good ch (ok o) s f -> ok o' s' -> others_kept s s' -> unread s' = unread s -> calm o' s f s' f.
Proof.
  intros [Hok Hs Hc] Hok' Hoth Hu. destruct (sftp_ok_kept s s' f Hs) as [? Hp]; [by apply others_kept_blocks|].
  split_and!; try done. unfold rest. congruence.
Qed.

Lemma calm_free o' s f s' f' : calm None s f s' f' -> calm o' s f s' f'.
Proof. intros ([Hok Hs Hc] & ?). split; [|done]. split; [by apply out_free|done|done]. Qed.

Lemma chunk_in off cs i c :
  chunks_ok contents off i cs -> forall k, cs !! k = Some c ->
  0 <= ck_sent c /\ 0 <= ck_lefttosend c /\ ck_sent c + ck_lefttosend c = lenZ (ck_packet c).
Proof.
  revert i. induction cs as [|c' cs IH]; intros i Hc k Hk; [done|]. simpl in Hc. destruct Hc as (_ & H1 & H2 & H3 & _ & Hc).
  destruct k as [|k]; simpl in Hk; [by simplify_eq|]. by eapply IH.
Qed.

Lemma chunks_ok_sent hdl off cs i c rc :
  chunks_ok contents hdl off cs -> cs !! i = Some c -> 0 <= rc <= ck_lefttosend c ->
  chunks_ok contents hdl off (alter (chunk_sent rc) i cs) /\ outstanding (alter (chunk_sent rc) i cs) = outstanding cs.
Proof.
  revert off i. induction cs as [|c' cs IH]; intros off i Hc Hi Hrc; [done|].
  simpl in Hc. destruct Hc as (H1 & H2 & H3 & H4 & H5 & Hc). destruct i as [|i]; simpl in Hi.
  - simplify_eq. split; [|done]. simpl. split_and!; try done; lia.
  - destruct (IH _ _ Hc Hi Hrc) as [? E].
    change (alter (chunk_sent rc) (S i) (c' :: cs)) with (c' :: alter (chunk_sent rc) i cs).
    unfold outstanding in *. cbn [chunks_ok foldr]. by rewrite E.
Qed.

Lemma write_inv_sent x i c rc :
  write_inv contents x -> h_packet_list x !! i = Some c -> 0 <= rc <= ck_lefttosend c ->
  write_inv contents (x <| h_packet_list ::= alter (chunk_sent rc) i |>).
Proof.
  intros [Hf Ha Hs He Hb Hh Hc] Hi Hrc. destruct (chunks_ok_sent _ _ _ _ _ _ Hc Hi Hrc) as [Hc' Ho].
  split; try done. simpl. rewrite Ho. exact Hs.
Qed.

Lemma next_out_at cs i c :
  next_out (take i cs) = None -> cs !! i = Some c -> ck_lefttosend c <> 0 ->
  next_out cs = Some (slice (ck_sent c) (ck_lefttosend c) (ck_packet c)).
Proof.
  intros Hn Hi Hl. rewrite <- (take_drop_middle cs i c Hi), next_out_app, Hn. simpl.
  by apply Z.eqb_neq in Hl as ->.
Qed.

Lemma next_out_next cs i c :
  next_out (take i cs) = None -> cs !! i = Some c -> ck_lefttosend c = 0 -> next_out (take (S i) cs) = None.
Proof.
  intros Hn Hi Hl. rewrite (take_S_r _ _ _ Hi), next_out_app, Hn. simpl. by rewrite Hl.
Qed.

Definition send_post (x : sftp_handle) (s : session) (f : LIBSSH2_SFTP) (r : option Z) (w' : world) : Prop :=
  exists s' f' x', w' = put (hput w h x') s' f' /\ calm (next_out (h_packet_list x')) s f s' f' /\
    write_inv contents x' /\ position x' = position x /\ sf_write_state f' = sf_write_state f /\
    match r with Some e => e < 0 | None => True end.

Lemma sftp_write_send_ok fuel : (rounds <= fuel)%nat -> forall n i s f x,
  good ch (ok (next_out (h_packet_list x))) s f -> write_inv contents x ->
  next_out (take i (h_packet_list x)) = None -> (length (h_packet_list x) - i < n)%nat ->
  wp (write_send transport_send transport_read fuel n h i) (send_post x s f) (put (hput w h x) s f).
Proof.
  intros Hfuel. induction n as [|n IH]; intros i s f x Hg Hi Hn Hlt; [lia|]. cbn [write_send].
  do 2 hp_step. destruct (h_packet_list x !! i) as [c|] eqn:Hc; cycle 1.
  { hp_step. exists s, f, x. done. }
  destruct (chunk_in _ _ _ _ (wi_chunks _ _ Hi) _ Hc) as (H0 & H1 & H2).
  assert (Hil : (i < length (h_packet_list x))%nat) by (by eapply lookup_lt_Some).
  hp_step; breflect. { apply IH; [done..|by eapply next_out_next|lia]. }
  pose proof (next_out_at _ _ _ Hn Hc E) as Hnext.
  set (b := slice (ck_sent c) (ck_lefttosend c) (ck_packet c)) in *.
  hp_step. unfold chunk_write. do 2 hp_step. hp_step.
  eapply wp_access; [unfold bytes_at; rewrite decide_True by lia; reflexivity|]. fold b.
  hp_step. rewrite (gd_channel _ _ _ _ Hg). rewrite Hnext in Hg.
  eapply wp_mono; [apply out_write; [apply Hg|done]|]. intros rc s1 (Hoth & Hu & Hle & Hok).
  hp_step; breflect.
  - hp_step. exists s1, f, x. split_and!; try done. rewrite Hnext. eapply calm_channel; [exact Hg|done..].
  - assert (Hlb : lenZ b = ck_lefttosend c) by (unfold b; rewrite lenZ_slice; lia).
    assert (Hcalm : forall o, calm o s f s1 f).
    { intros o. apply calm_free. eapply calm_channel; [exact Hg|done..]. }
    pose proof (write_inv_sent x i c rc Hi Hc) as Hi'. specialize (Hi' ltac:(lia)).
    do 2 hp_step. set (x' := x <| h_packet_list ::= _ |>) in *.
    assert (Hc' : h_packet_list x' !! i = Some (chunk_sent rc c)).
    { unfold x'. simpl. rewrite list_lookup_alter_eq, Hc. done. }
    hp_step; breflect.
    + eapply wp_mono; [apply (IH (S i) s1 f x'); [apply Hcalm|done| |]|].
      * eapply next_out_next; [|exact Hc'|simpl; lia]. unfold x'. simpl. by rewrite take_alter, decide_False by lia.
      * unfold x'. simpl. rewrite length_alter. lia.
      * intros r w' (s' & f' & x'' & -> & Hcm & Hi'' & Hp & Hws & Hr). exists s', f', x''. split_and!; try done.
        eapply calm_trans; [apply (Hcalm None)|exact Hcm].
    + hp_step. exists s1, f, x'. done.
Qed.

(** *** Giving up *)

(** The queue loses a packet or gets a note, and the stream is as before. *)
Lemma askv_ok o types id s f (Q : option (ptr * Z) -> world -> Prop) y :
  good ch (ok o) s f ->
  Q None (put y s f) ->
  (forall f' p d, calm o s f s f' -> spare s f' p.1 d -> sf_write_state f' = sf_write_state f -> Q (Some p) (put y s f')) ->
  wp (sftp_packet_askv types id) Q (put y s f).
Proof.
  intros Hg. induction types as [|t types IH]; intros Hn Hs; cbn [sftp_packet_askv]; [by sp_step|].
  sp_step. unfold sftp_packet_ask. do 2 sp_step.
  eapply wp_mono; [by apply ask_loop_ok; [apply Hg|..]|]. intros [a|] w' Hask.
  - sp_step. destruct Hask as (pre & p & post & E & -> & _ & _ & ->).
    destruct (good_unlink ch (ok o) s f pre p post Hg E) as (Hg' & d & Hsp & _).
    apply (Hs _ (sp_data p, sp_data_len p) d); [|done|done]. split_and!; done.
  - destruct Hask as [-> _]. by apply IH.
Qed.

Lemma flush_loop_ok o y : forall cs s f,
  good ch (ok o) s f ->
  wp (packetlist_flush_loop cs)
    (fun _ w' => exists s' f', w' = put y s' f' /\ calm o s f s' f' /\ sf_write_state f' = sf_write_state f) (put y s f).
Proof.
  induction cs as [|c cs IH]; intros s f Hg; cbn [packetlist_flush_loop]; [sp_step; by exists s, f|].
  assert (Hgo : forall s1 f1, calm o s f s1 f1 -> sf_write_state f1 = sf_write_state f ->
    wp (packetlist_flush_loop cs) (fun _ w' => exists s' f', w' = put y s' f' /\ calm o s f s' f' /\
      sf_write_state f' = sf_write_state f) (put y s1 f1)).
  { intros s1 f1 Hc Hws. eapply wp_mono; [apply IH, Hc|]. intros ? w' (s' & f' & -> & Hc' & Hws').
    exists s', f'. split_and!; [done|by eapply calm_trans|congruence]. }
  sp_step. eapply askv_ok; [done| |].
  - sp_step. sp_step; [|sp_step; by apply Hgo].
    sp_step. unfold add_zombie_request. do 2 sp_step. apply wp_alloc_outcome. intros b al.
    set (s1 := s <| s_alloc := al |>). assert (Hc1 : calm o s f s1 f) by (apply calm_own; [done|by destruct s]).
    pose proof Hc1 as (Hg1 & _). destruct b.
    + do 4 sp_step. apply Hgo; [|done]. eapply calm_trans; [exact Hc1|by apply calm_fields].
    + do 2 sp_step. sp_step. apply Hgo; [|done]. eapply calm_trans; [exact Hc1|by apply calm_own].
  - intros f' p d (Hg' & Hr & ?) Hsp Hws. sp_step. sp_step. eapply wp_free_block; [apply Hsp|].
    destruct (good_free _ _ _ _ _ _ _ _ _ _ Hg' Hsp) as (Hg2 & Hu & Hp). apply Hgo; [|done].
    split; [done|]. split; [|done]. rewrite <- Hr. unfold rest. congruence.
Qed.

(** *** Acknowledgements *)

Lemma good_imp (P Q : session -> Prop) s f : (forall s, P s -> Q s) -> good ch P s f -> good ch Q s f.
Proof. intros H [? ? ?]. split; auto. Qed.

Lemma write_inv_ack x c cs :
  write_inv contents x -> h_packet_list x = c :: cs ->
  let y := x <| h_u := HandleFile ((fd x) <| fd_offset := u64 (fd_offset (fd x) + ck_len c) |>) |> <| h_packet_list ::= drop 1 |> in
  write_inv contents y /\ position y = position x + ck_len c /\ 0 < ck_len c /\ fd_acked (fd y) = fd_acked (fd x).
Proof.
  intros [Hf Ha Hs He Hb Hh Hc] E y. rewrite E in Hc, Hs. simpl in Hc, Hs. destruct Hc as (H1 & _ & _ & _ & _ & Hc).
  pose proof (chunks_ok_outstanding _ _ _ _ Hc) as Ho.
  assert (Hy : fd y = (fd x) <| fd_offset := fd_offset (fd x) + ck_len c |>).
  { unfold y, fd. simpl. rewrite u64_small; [done|]. unfold fd in *. lia. }
  split_and!; [|unfold position; rewrite Hy; simpl; lia|lia|by rewrite Hy].
  split; rewrite ?Hy; simpl; rewrite ?E; simpl; rewrite ?drop_0; try done; try lia. unfold y, fd. simpl.
  rewrite u64_small; [done|]. unfold fd in *. lia.
Qed.

(** The books after a failed request. *)
Lemma write_inv_reset x :
  write_inv contents x ->
  let n := u64 (fd_offset (fd x) - fd_acked (fd x)) in
  let y := x <| h_packet_list := [] |> <| h_u := HandleFile ((fd x) <| fd_offset := n |>) |>
             <| h_u := HandleFile ((fd x) <| fd_offset := n |> <| fd_offset_sent := n |> <| fd_acked := 0 |>) |> in
  write_inv contents y /\ position y = position x.
Proof.
  intros [Hf Ha Hs He Hb Hh Hc] n y. pose proof (chunks_ok_outstanding _ _ _ _ Hc) as Ho.
  assert (Hn : n = position x) by (unfold n, position; rewrite u64_small; lia). unfold position in Hn.
  split; [|unfold position; simpl; lia]. split; simpl; try done; lia.
Qed.

Definition ack_post (x : sftp_handle) (r : Z + Z) (w' : world) : Prop :=
  exists s' f' x' o, w' = put (hput w h x') s' f' /\ good ch (ok o) s' f' /\ at_rest f' /\ write_inv contents x' /\
    match r with
    | inl e => e < 0 /\ position x' = position x /\ (e = LIBSSH2_ERROR_EAGAIN -> o = next_out (h_packet_list x'))
    | inr n => 0 <= n /\ position x' = position x + n /\ fd_acked (fd x') = fd_acked (fd x) /\
        o = next_out (h_packet_list x')
    end.

Lemma write_ack_ok fuel s f x c cs ds later :
  good ch (ok (next_out (h_packet_list x))) s f -> at_rest f -> write_inv contents x ->
  h_packet_list x = c :: cs -> ck_lefttosend c = 0 ->
  Forall legal ds -> rest unread s f ++ later = frames ds -> (rounds + length (rest unread s f) < fuel)%nat ->
  wp (write_ack transport_send transport_read fuel h c) (ack_post x) (put (hput w h x) s f).
Proof.
  intros Hg Ha Hi Ex Hl Hds Hst Hf. pose proof (wi_file _ _ Hi) as Hfile.
  set (o := next_out (h_packet_list x)) in *. unfold write_ack. sp_step.
  destruct (sftp_packet_require_wp _ _ ch rounds (ok o) unread fuel (hput w h x) s f later ds SSH_FXP_STATUS
    (ck_request_id c) 9 Hg Ha Hds Hst Hf) as (r & w' & E & s1 & f1 & -> & Hg1 & Ha1 & Hr).
  unfold wp at 1. rewrite E. clear E. destruct r as [rc [p|]]; simpl in Hr.
  - destruct Hr as (-> & d & Hsp & Hlen & Hb & _). destruct (Z.ltb_spec p.2 9).
    + cbn [fst snd]. change (LIBSSH2_ERROR_BUFFER_TOO_SMALL =? LIBSSH2_ERROR_BUFFER_TOO_SMALL) with true. cbn iota.
      destruct (good_free _ _ _ _ _ _ _ _ _ _ Hg1 Hsp) as (Hg2 & _). sp_step.
      apply (wp_mono _ (fun _ w' => w' = put (hput w h x) (s1 <| s_heap ::= delete p.1 |>) f1 \/ w' = put (hput w h x) s1 f1)).
      { sp_step; [|sp_step; by right]. sp_step. eapply wp_free_block; [apply Hsp|]. by left. }
      intros _ w' Hw'.
      assert (Hend : forall s3, good ch (ok o) s3 f1 -> wp (let! e := serror LIBSSH2_ERROR_SFTP_PROTOCOL
          "FXP write packet too short" in ret (inl e)) (ack_post x) (put (hput w h x) s3 f1)).
      { intros s3 Hg3. do 4 sp_step. destruct (good_same _ _ _ _ _ _ _ _ _ Hg3 Hs) as (Hg4 & _).
        exists s0, f1, x, o. split_and!; done. }
      destruct Hw' as [->| ->]; by apply Hend.
    + cbn [fst snd]. change (LIBSSH2_ERROR_NONE =? LIBSSH2_ERROR_BUFFER_TOO_SMALL) with false.
      change (LIBSSH2_ERROR_NONE <? 0) with false. cbn iota. sp_step. eapply wp_access; [done|].
      sp_step. unfold take_status. do 2 sp_step. eapply wp_block; [apply Hsp|]. sp_step.
      destruct (ntohu32_in d 5) as [code Hcode]; [lia..|]. eapply wp_access; [done|]. do 2 sp_step.
      eapply wp_free_block; [apply Hsp|]. destruct (good_free _ _ _ _ _ _ _ _ _ _ Hg1 Hsp) as (Hg2 & _).
      cbn beta. sp_step. unfold set_last_errno. do 2 sp_step.
      set (s2 := s1 <| s_heap ::= delete p.1 |>) in *. set (f2 := f1 <| sf_last_errno := code |>).
      destruct (good_fields ch (ok o) s2 f1 f2) as [Hg3 _]; [done|by split|done|].
      assert (Ha3 : at_rest f2) by exact Ha1. sp_step.
      * sp_step. apply wp_set_file; [done|]. do 3 hp_step. destruct (write_inv_ack x c cs Hi Ex) as (Hi' & Hp' & Hpos & _).
        eexists s2, f2, _, o. split; [done|]. split_and!; try done; [lia|].
        unfold o. simpl. rewrite Ex. simpl. by rewrite Hl.
      * sp_step. unfold sftp_packetlist_flush. do 3 hp_step.
        eapply wp_mono; [by apply flush_loop_ok|]. intros _ w' (s3 & f3 & -> & Hc3 & _).
        pose proof Hc3 as (Hg4 & _). do 2 hp_step. apply wp_set_file; [done|]. sp_step. apply wp_set_file; [done|].
        do 3 sp_step. destruct (write_inv_reset x Hi) as [Hi' Hp'].
        destruct (good_same _ _ _ _ _ _ _ _ _ Hg4 Hs) as (Hg5 & _).
        eexists s0, f3, _, o. split; [done|]. split_and!; try done. by eapply calm_at_rest.
  - destruct (Z.eqb_spec rc LIBSSH2_ERROR_BUFFER_TOO_SMALL) as [->|Hne].
    { cbn [fst snd]. change (LIBSSH2_ERROR_BUFFER_TOO_SMALL =? LIBSSH2_ERROR_BUFFER_TOO_SMALL) with true. cbn iota.
      do 5 sp_step. destruct (good_same _ _ _ _ _ _ _ _ _ Hg1 Hs) as (Hg3 & _). exists s0, f1, x, o. split_and!; done. }
    cbn [fst snd]. apply Z.eqb_neq in Hne as ->. apply Z.ltb_lt in Hr as Hr'. rewrite Hr'. cbn iota. sp_step.
    apply (wp_mono _ (fun _ w' => exists f2, w' = put (hput w h x) s1 f2 /\ good ch (ok o) s1 f2 /\ at_rest f2)).
    { sp_step; [|sp_step; by exists f1]. unfold set_write_state. sp_step. eexists. split; [done|]. split; [|exact Ha1].
      destruct (good_fields ch (ok o) s1 f1 (f1 <| sf_write_state := libssh2_NB_state_sent |>)) as [? _]; [done|by split|done..]. }
    intros _ w' (f2 & -> & Hg2 & Ha2). sp_step. exists s1, f2, x, o. split_and!; done.
Qed.

(** *** The whole call *)

Definition write_post (x : sftp_handle) (count : Z) (rc : Z) (w' : world) : Prop :=
  exists s' f' x' o, w' = put (hput w h x') s' f' /\ good ch (ok o) s' f' /\ at_rest f' /\ write_inv contents x' /\
    rc <= count /\ position x' = position x + Z.max 0 rc /\
    (0 <= rc \/ rc = LIBSSH2_ERROR_EAGAIN -> o = next_out (h_packet_list x')).

Lemma write_acks_ok fuel s f x ds later :
  good ch (ok (next_out (h_packet_list x))) s f -> at_rest f -> write_inv contents x ->
  Forall legal ds -> rest unread s f ++ later = frames ds -> (rounds + length (rest unread s f) < fuel)%nat ->
  wp (write_acks transport_send transport_read fuel h) (ack_post x) (put (hput w h x) s f).
Proof.
  intros Hg Ha Hi Hds Hst Hf. unfold write_acks. do 2 hp_step.
  assert (Hnone : ack_post x (inr 0) (put (hput w h x) s f)).
  { exists s, f, x, (next_out (h_packet_list x)). split_and!; try done. lia. }
  destruct (h_packet_list x) as [|c cs] eqn:Ex; [by sp_step|]. sp_step; breflect; [by sp_step|].
  eapply write_ack_ok; rewrite ?Ex; done.
Qed.

Lemma write_return_ok x x' o s f acked count :
  good ch (ok o) s f -> at_rest f -> write_inv contents x' -> write_inv contents x -> 0 <= count -> 0 <= acked ->
  position x' = position x + acked -> fd_acked (fd x') = fd_acked (fd x) -> o = next_out (h_packet_list x') ->
  wp (write_return h acked count) (write_post x count) (put (hput w h x') s f).
Proof.
  intros Hg Har Hi' Hi Hc Hack Hp Hacked Ho. pose proof Hi' as [Hf Ha Hs He Hb Hh Hch].
  pose proof (wi_acked _ _ Hi) as Ha0. unfold position in Hp.
  unfold write_return. sp_step. apply wp_file; [done|]. sp_step; breflect.
  - sp_step. apply wp_set_file; [done|]. sp_step. set (n := Z.min _ _).
    match goal with |- write_post _ _ _ (put (hput w h ?y) _ _) => set (y0 := y) end.
    assert (Hy : fd y0 = (fd x') <| fd_acked := acked + fd_acked (fd x') - n |>) by done.
    assert (Hn : 0 <= n <= count /\ n <= acked + fd_acked (fd x')) by (unfold n; lia).
    exists s, f, y0, o. split_and!; try done; [|lia|unfold position; rewrite Hy; simpl; lia].
    split; rewrite ?Hy; simpl; done || lia.
  - sp_step. exists s, f, x', o. split_and!; try done. unfold position. lia.
Qed.

Lemma from_sent_ok fuel s f x0 x ds later count :
  good ch (ok (next_out (h_packet_list x))) s f -> at_rest f -> write_inv contents x ->
  position x = position x0 -> 0 <= count ->
  Forall legal ds -> rest unread s f ++ later = frames ds -> (rounds + length (rest unread s f) < fuel)%nat ->
  wp (write_from_sent transport_send transport_read fuel h count) (write_post x0 count) (put (hput w h x) s f).
Proof.
  intros Hg Ha Hi Hp Hc Hds Hst Hf. unfold write_from_sent, set_write_state. do 2 sp_step.
  set (f1 := f <| sf_write_state := _ |>).
  assert (Hc1 : calm (next_out (h_packet_list x)) s f s f1) by (by apply calm_fields).
  pose proof Hc1 as (Hg1 & Hr1 & _). sp_step.
  eapply wp_mono; [eapply (write_acks_ok fuel s f1 x ds later); rewrite ?Hr1; done|].
  intros [e|n] w' (s' & f' & x' & o & -> & Hg' & Ha' & Hi' & Hr).
  - sp_step. destruct Hr as (He & Hp' & Ho). exists s', f', x', o. split_and!; try done; [lia..|].
    intros [?|?]; [lia|auto].
  - destruct Hr as (Hn & Hp' & Hack & Ho). eapply wp_mono; [by eapply (write_return_ok x)|].
    intros rc w' (s2 & f2 & x2 & o2 & ? & ? & ? & ? & ? & Hpos & ?). exists s2, f2, x2, o2. split_and!; try done. lia.
Qed.

Lemma sftp_write_wp fuel s f x buffer ds later :
  good ch (ok (next_out (h_packet_list x))) s f -> at_rest f -> write_inv contents x ->
  buffer = slice (position x) (lenZ buffer) contents -> position x + lenZ buffer <= lenZ contents ->
  Forall legal ds -> rest unread s f ++ later = frames ds ->
  (rounds + length (rest unread s f) + length (h_packet_list x) + length buffer < fuel)%nat ->
  wp (sftp_write transport_send transport_read fuel h buffer) (write_post x (lenZ buffer)) (put (hput w h x) s f).
Proof.
  intros Hg Ha Hi Hb Hle Hds Hst Hf. pose proof (lenZ_nonneg buffer) as Hnn. unfold sftp_write. do 2 sp_step.
  sp_step; [by eapply from_sent_ok; [..|lia]|]. clear E. pose proof Hi as [Hfile Hak Hs He Hbd Hh Hc].
  pose proof (chunks_ok_outstanding _ _ _ _ Hc) as Ho. sp_step. apply wp_file; [done|]. cbv zeta.
  assert (Hal : u64 (u64 (fd_offset_sent (fd x) - fd_offset (fd x)) + fd_acked (fd x)) = start_of x - position x).
  { unfold start_of, position in *. rewrite (u64_small (_ - _)) by lia. rewrite u64_small; lia. }
  rewrite Hal. set (fresh := if _ <=? _ then _ else _).
  assert (Hfresh : fresh = slice (start_of x) (lenZ fresh) contents /\ start_of x + lenZ fresh <= lenZ contents /\
    (length fresh <= length buffer)%nat).
  { unfold fresh. destruct (Z.leb_spec (start_of x - position x) (lenZ buffer)).
    - destruct (slice_split (position x) (start_of x - position x) (lenZ buffer) contents) as [_ Hd];
        [unfold position; lia|unfold position, start_of in *; lia|]. rewrite <- Hb in Hd.
      assert (Hl : lenZ (drop (Z.to_nat (start_of x - position x)) buffer) = lenZ buffer - (start_of x - position x)).
      { unfold lenZ, position, start_of in *. rewrite length_drop. lia. }
      rewrite Hl. split_and!; [|lia|rewrite length_drop; lia]. rewrite Hd. f_equal. lia.
    - unfold lenZ, start_of in *. simpl. split_and!; [done|lia|lia]. }
  destruct Hfresh as (Hf1 & Hf2 & Hf3). unfold set_write_state. do 2 sp_step. set (f1 := f <| sf_write_state := _ |>).
  assert (Hc1 : calm (next_out (h_packet_list x)) s f s f1) by (by apply calm_fields).
  pose proof Hc1 as (Hg1 & Hr1 & _). sp_step.
  eapply wp_mono; [apply (write_requests_ok (next_out (h_packet_list x)) fuel fresh s f1 x); try done; lia|].
  intros r w' (s2 & f2 & x2 & new & -> & Hcalm & Hi2 & Hp2 & Hnew & Hlen & _ & Hr).
  assert (Hc2 : calm (next_out (h_packet_list x2)) s f s2 f2).
  { rewrite Hnew, next_out_app. pose proof (calm_trans _ _ _ _ _ _ _ _ Hc1 Hcalm) as Hc2.
    destruct (next_out (h_packet_list x)); [done|by apply calm_free]. }
  pose proof (calm_at_rest _ _ _ _ _ Hc2 Ha) as Ha2. pose proof Hc2 as (Hg2 & Hr2 & _).
  destruct r as [e|]. { sp_step. eexists s2, f2, x2, _. split_and!; try done; lia. }
  sp_step. eapply wp_mono.
  { apply (sftp_write_send_ok fuel ltac:(lia) fuel 0 s2 f2 x2); [done..|]. rewrite Hnew, length_app. lia. }
  intros r w' (s3 & f3 & x3 & -> & Hc3 & Hi3 & Hp3 & _ & Hr3).
  pose proof (calm_at_rest _ _ _ _ _ Hc3 Ha2) as Ha3. pose proof Hc3 as (Hg3 & Hr3' & _).
  destruct r as [e|]. { sp_step. eexists s3, f3, x3, _. split_and!; try done; lia. }
  eapply from_sent_ok; rewrite ?Hr3', ?Hr2; try done; [congruence|lia].
Qed.
End Write.

(** C11: [sftp_write] writes the application's data where it belongs and counts it
    exactly. The application presents [contents] from the position it knows
    (acknowledged and reported) on. Whatever part of its messages the channel takes and
    whatever the server answers, the call returns; every request outstanding afterwards
    is a write message for the bytes of [contents] at its file offset, in order and
    without gaps; the position has moved by the number returned (not at all on an
    error), and that is at most what was presented. After an error the books are reset
    to that position, so that a retry starts there. *)
Theorem sftp_write_file transport_send transport_read ch rounds ok unread
    `{!ChannelOutput transport_send transport_read ch rounds ok unread}
    contents fuel w h s f x buffer ds later
    (Hgood : good ch (ok (next_out (h_packet_list x))) s f) (Hrest : at_rest f)
    (Hhandle : w_handles w !! h = Some x) (Hinv : write_inv contents x)
    (Hbuffer : buffer = slice (position x) (lenZ buffer) contents)
    (Hend : position x + lenZ buffer <= lenZ contents)
    (Hds : Forall legal ds) (Hstream : rest unread s f ++ later = frames ds)
    (Hfuel : (rounds + length (rest unread s f) + length (h_packet_list x) + length buffer < fuel)%nat) :
  exists rc w', sftp_write transport_send transport_read fuel h buffer (put w s f) = Ret rc w' /\
    write_post ch ok contents w h x (lenZ buffer) rc w'.
Proof.
  apply wp_Ret. replace (put w s f) with (put (hput w h x) s f) by (by rewrite hput_self).
  by eapply sftp_write_wp.
Qed.

(** ** The channel behind it *)

(** The transport answers with 0 or an error. *)
Class SendStatus (transport_send : list Z -> list Z -> CM Z) : Prop :=
  send_status : forall d d2 s, can_send s -> wp (transport_send d d2) (fun rc _ => rc <= 0) s.

#[global] Instance send_ok_status : SendStatus send_ok.
Proof. by intros d d2 s _. Qed.

Section Output.
Context (transport_send : list Z -> list Z -> CM Z) `{!Transport transport_send} `{!SendStatus transport_send}.
Context (ch : ptr) (id mode : Z).

(** No write is suspended, or one that [o] can go on with. *)
Definition out_ident (o : option (list Z)) (i : chan_ident) : Prop :=
  open_ident id mode i /\
  (ci_write_state i = libssh2_NB_state_idle \/
   exists b, o = Some b /\ ci_write_state i = libssh2_NB_state_created /\ 0 <= ci_write_bufwrite i <= lenZ b).

Lemma send_both d d2 s (Q : Z -> session -> Prop) :
  can_send s -> (forall rc s', rc <= 0 -> same_conn s s' -> Q rc s') -> wp (transport_send d d2) Q s.
Proof.
  intros Hs HQ. pose proof (transport_send_frame d d2 s Hs) as H1. pose proof (send_status d d2 s Hs) as H2.
  unfold wp in *. destruct (transport_send d d2 s); [|done..]. destruct H1. by apply HQ.
Qed.

Definition out_post (b : list Z) (s : session) (rc : Z) (s' : session) : Prop :=
  others_kept s s' /\ channel_unread id mode s' = channel_unread id mode s /\ rc <= lenZ b /\
  channel_open ch (out_ident (if rc <? 0 then Some b else None)) s'.

(** The channel with fields that concern only writing changed. *)
Lemma channel_open_write known known' s c c' :
  channel_open ch known s -> s_chans s !! ch = Some c -> (chan_ok c -> chan_ok c') -> known' (ident c') ->
  channel_open ch known' (s <| s_chans ::= <[ch := c']> |>).
Proof.
  intros (H1 & H2 & _) Hc Hok Hk. split; [|split; [done|exists c'; split; [apply lookup_insert_eq|done]]].
  eapply quiet_ok; [|exact H1]. by eapply quiet_set_chan.
Qed.

Lemma channel_open_conn known s s' : channel_open ch known s -> same_conn s s' -> channel_open ch known s'.
Proof.
  intros (H1 & H2 & H3) Hs. split_and!; [by eapply same_conn_ok|by apply (same_send _ _ Hs)|].
  by rewrite (same_chans _ _ Hs).
Qed.

Lemma unread_conn s s' : s_heap s' = s_heap s -> packets s' = packets s -> channel_unread id mode s' = channel_unread id mode s.
Proof. unfold channel_unread. by intros -> ->. Qed.

Lemma write_send_kept b s c :
  channel_open ch (out_ident (Some b)) s -> s_chans s !! ch = Some c -> 0 <= write_bufwrite c <= lenZ b ->
  write_state c = libssh2_NB_state_created ->
  wp (ChannelIO.write_send transport_send ch b) (out_post b s) s.
Proof.
  intros Ho Hc Hb Hst. pose proof (lenZ_nonneg b) as Hnn. pose proof Ho as (_ & Hcs & c' & Hc' & Hid). rewrite Hc in Hc'. injection Hc' as <-.
  unfold ChannelIO.write_send. wp_step. eapply wp_chan; [done|]. wp_step.
  eapply wp_access; [unfold bytes_at; rewrite decide_True by lia; reflexivity|]. wp_step.
  apply send_both; [done|]. intros rc s1 Hrc H1. pose proof (channel_open_conn _ _ _ Ho H1) as Ho1.
  assert (Hc1 : s_chans s1 !! ch = Some c) by (by rewrite (same_chans _ _ H1)).
  assert (Hout : forall s2 o rc, s_heap s2 = s_heap s1 -> packets s2 = packets s1 -> rc <= lenZ b ->
    channel_open ch (out_ident o) s2 -> o = (if rc <? 0 then Some b else None) -> out_post b s rc s2).
  { intros s2 o rc2 Eh Ep Hle Ho2 ->. pose proof (same_heap _ _ H1). pose proof (same_packets _ _ H1).
    split_and!; [apply others_kept_heap; congruence|apply unread_conn; congruence|done|done]. }
  wp_step; breflect; [|wp_step; breflect].
  - apply wp_error. intros s2 H2 _. subst rc. apply (Hout s2 (Some b)); [apply H2|apply H2|lia| |done]. by eapply channel_open_conn.
  - wp_step. eapply wp_set_chan; [done|]. apply wp_error. intros s2 H2 _.
    eapply (Hout s2 (Some b)); [by rewrite (same_heap _ _ H2)|by rewrite (same_packets _ _ H2)|lia| |].
    + eapply channel_open_conn; [|exact H2]. eapply channel_open_write; [exact Ho1|done|solve_chan_ok|].
      split; [apply Hid|by left].
    + destruct (Z.ltb_spec rc 0); [done|lia].
  - wp_step. eapply wp_set_chan; [done|]. wp_step. eapply (Hout _ None); [done|done|lia| |].
    + eapply channel_open_write; [exact Ho1|done|solve_chan_ok|]. split; [apply Hid|by left].
    + destruct (Z.ltb_spec (write_bufwrite c) 0); [lia|done].
Qed.

Lemma write_size_bound c (b : list Z) :
  chan_ok c -> 0 < cd_window_size (local c) ->
  0 <= write_size c (if 32700 <? lenZ b then 32700 else lenZ b) <= lenZ b.
Proof.
  intros [[? ? ? Hp] _ _ _] Hw. pose proof (lenZ_nonneg b). unfold write_size, is_u32 in *.
  cbv zeta. repeat split_if; breflect; lia.
Qed.

Lemma channel_write_kept fuel b s :
  channel_open ch (out_ident (Some b)) s -> (1 <= fuel)%nat ->
  wp (channel_write transport_send (ret LIBSSH2_ERROR_EAGAIN) fuel ch 0 b) (out_post b s) s.
Proof.
  intros Ho Hf. pose proof Ho as (Hok & Hcs & c & Hc & Hid). pose proof (lenZ_nonneg b) as Hnn.
  unfold channel_write. cbv zeta. wp_step. eapply wp_chan; [done|].
  assert (Herr : forall code msg, code < 0 -> wp (error code msg) (out_post b s) s).
  { intros code msg Hneg. apply wp_error. intros s1 H1 _.
    split_and!; [apply others_kept_heap; apply H1|apply unread_conn; apply H1|lia|].
    apply Z.ltb_lt in Hneg as ->. by eapply channel_open_conn. }
  wp_step.
  - wp_step; [by apply Herr|]. wp_step; [by apply Herr|]. destruct fuel as [|fuel]; [lia|].
    cbn [transport_drain]. do 3 wp_step. change (0 <? LIBSSH2_ERROR_EAGAIN) with false. wp_step.
    change ((LIBSSH2_ERROR_EAGAIN <? 0) && negb (LIBSSH2_ERROR_EAGAIN =? LIBSSH2_ERROR_EAGAIN)) with false.
    cbn iota. wp_step. eapply wp_chan; [done|]. wp_step; breflect.
    + do 2 wp_step. wp_step. change (if _ =? _ then LIBSSH2_ERROR_EAGAIN else 0) with LIBSSH2_ERROR_EAGAIN.
      split_and!; [by apply others_kept_heap|done|unfold LIBSSH2_ERROR_EAGAIN; lia|eapply channel_open_conn; [exact Ho|by split]].
    + wp_step. eapply wp_set_chan; [done|]. pose proof (chan_lookup_ok _ _ _ Hok Hc) as Hcok.
      pose proof (write_size_bound c b Hcok ltac:(lia)) as Hsz.
      match goal with |- wp _ _ ?s0 => set (s1 := s0) end.
      assert (Ho1 : channel_open ch (out_ident (Some b)) s1).
      { eapply channel_open_write; [exact Ho|done|solve_chan_ok|]. split; [apply Hid|]. right. exists b. done. }
      eapply wp_mono; [eapply write_send_kept; [exact Ho1|apply lookup_insert_eq|exact Hsz|done]|].
      intros rc s2 (H1 & H2 & H3 & H4). split_and!; done.
  - wp_step; [|wp_step; split_and!; [by apply others_kept_heap|done|unfold LIBSSH2_ERROR_INVAL; lia|done]].
    unfold nb_is in *. breflect. destruct Hid as [_ [?|(b' & [= <-] & _ & Hbw)]]; [done|].
    by eapply write_send_kept.
Qed.

Lemma channel_output :
  ChannelOutput transport_send (ret LIBSSH2_ERROR_EAGAIN) ch 1 (fun o => channel_open ch (out_ident o))
    (channel_unread id mode).
Proof.
  split.
  - intros o. apply channel_input; [done|]. by intros i [? _].
  - intros o s (H1 & H2 & c & Hc & Hi & Hw). split_and!; [done..|]. exists c. split; [done|]. split; [done|].
    destruct Hw as [?|(b & ? & _)]; [by left|done].
  - intros fuel b s. apply channel_write_kept.
Qed.
End Output.

(** ** An example *)

#[global] Instance written_output :
  ChannelOutput send_ok (ret LIBSSH2_ERROR_EAGAIN) 1%positive 1
    (fun o => channel_open 1%positive (out_ident 0 LIBSSH2_CHANNEL_EXTENDED_DATA_NORMAL o))
    (channel_unread 0 LIBSSH2_CHANNEL_EXTENDED_DATA_NORMAL).
Proof. apply channel_output; apply _. Qed.

(** The file "abcde"; the server's answer to the request 7 is on its way. *)
Definition written_file : list Z := [97; 98; 99; 100; 101].
Definition written_handle : sftp_handle :=
  mk_sftp_handle [9; 9] (HandleFile file_data_0) libssh2_NB_state_idle 0 None [].
Definition written_sftp : LIBSSH2_SFTP := (sftp_0 1%positive) <| sf_request_id := 7 |>.
Definition written_world : world :=
  put (hput framed_world 5%positive written_handle) framed_session written_sftp.

Lemma written_good :
  good 1%positive (channel_open 1%positive (out_ident 0 LIBSSH2_CHANNEL_EXTENDED_DATA_NORMAL None))
    framed_session written_sftp.
Proof.
  split; [|split; try constructor; simpl; try done; by vm_compute|done].
  destruct framed_open as (? & ? & c & Hc & Hid). split_and!; [done..|]. exists c. split; [done|]. split; [done|].
  left. vm_compute in Hc. by injection Hc as <-.
Qed.

Lemma sftp_write_file_witness :
  exists rc w', sftp_write send_ok (ret LIBSSH2_ERROR_EAGAIN) 40 5%positive written_file written_world = Ret rc w' /\
    write_post 1%positive
      (fun o => channel_open 1%positive (out_ident 0 LIBSSH2_CHANNEL_EXTENDED_DATA_NORMAL o)) written_file
      (hput framed_world 5%positive written_handle) 5%positive written_handle 5 rc w'.
Proof.
  apply (sftp_write_file send_ok (ret LIBSSH2_ERROR_EAGAIN) 1%positive 1
    (fun o => channel_open 1%positive (out_ident 0 LIBSSH2_CHANNEL_EXTENDED_DATA_NORMAL o))
    (channel_unread 0 LIBSSH2_CHANNEL_EXTENDED_DATA_NORMAL) written_file 40
    (hput framed_world 5%positive written_handle) 5%positive framed_session written_sftp written_handle
    written_file [status_7] []).
  - apply written_good.
  - done.
  - apply hput_lookup.
  - by split; vm_compute.
  - reflexivity.
  - by vm_compute.
  - by constructor.
  - reflexivity.
  - vm_compute. lia.
Defined.

Example five_bytes_written :
  match sftp_write send_ok (ret LIBSSH2_ERROR_EAGAIN) 40 5%positive written_file written_world with
  | Ret rc w' => rc = 5 /\ (fd <$> w_handles w' !! 5%positive) = Some (mk_file_data 5 5 0 None 0 0 false)
  | _ => False
  end.
Proof. vm_compute. done. Qed.
