(* ===== verification/SftpDir.v ===== *)
(** * Theorems about [sftp_readdir]

    The answer to a directory request is kept in the handle and taken apart name by
    name. *)

From stdpp Require Import base numbers list gmap strings.
From S2P Require Import Prelude Codes CString KexMethods Wire Session ChannelWindow Packet Conn Comp ChannelIO Blocking SftpCodec Sftp SftpOps PacketSpec ChannelCtl SftpFile SftpSession.

(** ** Safety *)

(** The cursor and the bytes left are inside the packet. *)
Definition dir_ok (d : list Z) (dd : dir_data) : Prop :=
  0 <= dd_next_name dd /\ 0 <= dd_names_packet_len dd < 2 ^ 63 /\
  dd_next_name dd + dd_names_packet_len dd <= lenZ d.

(** What a call wrote fits the caller's memory. *)
Definition entry_fits (e : dir_entry) (buffer_maxlen longentry_maxlen : Z) : Prop :=
  (de_name e = [] \/ lenZ (de_name e) <= buffer_maxlen) /\
  (de_longentry e = [] \/ lenZ (de_longentry e) <= longentry_maxlen).

(** The call fails and keeps the name, or takes one and stays inside the packet. *)
Definition pop_ok (d : list Z) (dd : dir_data) (buffer_maxlen longentry_maxlen : Z)
    (r : Z * dir_entry * option (Z * Z)) : Prop :=
  entry_fits r.1.2 buffer_maxlen longentry_maxlen /\
  match r.2 with
  | None => r.1.1 = LIBSSH2_ERROR_BUFFER_TOO_SMALL
  | Some (s, n) =>
      0 <= r.1.1 < buffer_maxlen /\ lenZ (de_name r.1.2) = r.1.1 + 1 /\
      dd_next_name dd < s /\ 0 <= n < dd_names_packet_len dd /\
      s + n = dd_next_name dd + dd_names_packet_len dd
  end.

Lemma attrsize_pos flags : 4 <= sftp_attrsize flags.
Proof. unfold sftp_attrsize. repeat (destruct (has _ _)); lia. Qed.

Lemma small_ok d dd bm lm name long attrs :
  (name = [] \/ lenZ name <= bm) -> (long = [] \/ lenZ long <= lm) ->
  exists r, Some (LIBSSH2_ERROR_BUFFER_TOO_SMALL, mk_dir_entry name long attrs, None) = Some r /\ pop_ok d dd bm lm r.
Proof. intros. eexists. split; [done|]. by split. Qed.

(** C30: taking the names of a directory answer apart is memory safe, whatever the
    server sent: from a cursor inside the packet every read of [sftp_readdir] stays in
    the packet; what it writes to the caller's buffers, with the terminating zeros,
    fits them; and it either reports a too small buffer and keeps its place, or moves the
    cursor forward inside the packet past the name it returned. *)
Theorem readdir_pop_safe d dd buffer_maxlen longentry_maxlen longentry attrs
    (Hbytes : bytes_ok d) (Hok : dir_ok d dd) :
  exists r, pop_fields d dd buffer_maxlen longentry_maxlen longentry attrs = Some r /\
    pop_ok d dd buffer_maxlen longentry_maxlen r.
Proof.
  destruct Hok as (H0 & H1 & H2). unfold pop_fields. cbv zeta. set (s := dd_next_name dd) in *.
  set (left := dd_names_packet_len dd) in *. destruct (Z.ltb_spec left 4); [apply small_ok; by left|].
  destruct (ntohu32_in d s) as [fl Hfl]; [lia..|]. rewrite Hfl. cbn [mbind option_bind].
  pose proof (ntohu32_range _ _ _ Hbytes Hfl) as Hr1.
  destruct (Z.leb_spec buffer_maxlen fl); [apply small_ok; by left|].
  destruct (Z.ltb_spec (left - 4) fl); [apply small_ok; by left|].
  rewrite bytes_at_in by lia. cbn [mbind option_bind]. set (name := slice (s + 4) fl d ++ [0]).
  assert (Hname : lenZ name = fl + 1) by (unfold name; rewrite lenZ_app, lenZ_slice by lia; done).
  assert (Hn : name = [] \/ lenZ name <= buffer_maxlen) by (right; lia).
  destruct (Z.ltb_spec (left - 4 - fl) 4); [apply small_ok; [done|by left]|].
  destruct (ntohu32_in d (s + 4 + fl)) as [ll Hll]; [lia..|]. rewrite Hll. cbn [mbind option_bind].
  pose proof (ntohu32_range _ _ _ Hbytes Hll) as Hr2.
  set (wanted := longentry && (1 <? longentry_maxlen)).
  destruct (wanted && ((longentry_maxlen <=? ll) || (left - 4 - fl - 4 <? ll))) eqn:Ew; [apply small_ok; [done|by left]|].
  assert (Hlong : exists long, (if wanted then b ← bytes_at d (s + 4 + fl + 4) ll; Some (b ++ [0]) else Some []) = Some long /\
    (long = [] \/ lenZ long <= longentry_maxlen)).
  { destruct wanted; [|eauto]. simpl in Ew. breflect. rewrite bytes_at_in by lia. eexists. split; [done|].
    right. rewrite lenZ_app, lenZ_slice by lia. unfold lenZ. simpl. lia. }
  destruct Hlong as (long & -> & Hlong). cbn [mbind option_bind].
  destruct (Z.ltb_spec (left - 4 - fl - 4) ll); [by apply small_ok|].
  destruct (bin2attr_exact attributes_0 (drop (Z.to_nat (s + 4 + fl + 4 + ll)) d) (left - 4 - fl - 4 - ll))
    as (rc & a & -> & Hrc); [unfold lenZ in *; rewrite length_drop; lia|lia|]. cbn [mbind option_bind].
  destruct (Z.ltb_spec rc 0); [by apply small_ok|].
  eexists. split; [done|]. split; [by split|]. cbn [fst snd de_name].
  destruct Hrc as [[-> Hle]|[-> _]]; [|done]. pose proof (attrsize_pos (at_flags a)).
  fold s left. split_and!; lia.
Qed.

Lemma readdir_pop_safe_witness :
  exists r, pop_fields [0; 0; 0; 1; 97; 0; 0; 0; 9; 98] (mk_dir_data 1 None 0 10) 5 0 false None = Some r /\
    pop_ok [0; 0; 0; 1; 97; 0; 0; 0; 9; 98] (mk_dir_data 1 None 0 10) 5 0 r.
Proof. apply (readdir_pop_safe _ (mk_dir_data 1 None 0 10)); [by apply (bool_decide_unpack _)|by vm_compute]. Defined.

(** ** Round trip *)

(** A directory entry as the server sends it. *)
Record server_entry := mk_server_entry {
  se_name : list Z;
  se_longname : list Z;
  se_attrs : LIBSSH2_SFTP_ATTRIBUTES
}.

Definition entry_bytes (e : server_entry) : list Z :=
  store_str (store_str [] (se_name e)) (se_longname e) ++ sftp_attr2bin (Some (se_attrs e)).

Record entry_ok (e : server_entry) (buffer_maxlen longentry_maxlen : Z) : Prop := {
  eo_name : lenZ (se_name e) < buffer_maxlen;
  eo_long : lenZ (se_longname e) < longentry_maxlen;
  eo_name32 : lenZ (se_name e) < 2 ^ 32;
  eo_long32 : lenZ (se_longname e) < 2 ^ 32;
  eo_attrs : attr_ok (se_attrs e)
}.

(** C29: a directory is read back as the server listed it. When the packet kept in the
    handle goes on with the bytes of an entry, whose attributes have no extended pairs, [sftp_readdir] returns the length of its
    name, stores the name, the long name and the attributes, and leaves the cursor
    exactly at the next entry. *)
Theorem readdir_roundtrip pre e post left buffer_maxlen longentry_maxlen packet
    (He : entry_ok e buffer_maxlen longentry_maxlen) (Hlm : 1 < longentry_maxlen)
    (Hsz : lenZ (pre ++ entry_bytes e ++ post) < 2 ^ 63) :
  pop_fields (pre ++ entry_bytes e ++ post)
    (mk_dir_data left packet (lenZ pre) (lenZ (entry_bytes e ++ post))) buffer_maxlen longentry_maxlen true
    (Some attributes_0) =
  Some (lenZ (se_name e),
        mk_dir_entry (se_name e ++ [0]) (se_longname e ++ [0]) (Some (merged attributes_0 (se_attrs e))),
        Some (lenZ (pre ++ entry_bytes e), lenZ post)).
Proof.
  destruct He as [H1 H2 H3 H4 Ha]. destruct e as [name long attrs]. unfold entry_bytes in *. cbn [se_name se_longname se_attrs] in *.
  set (ab := sftp_attr2bin (Some attrs)) in *. pose proof (attr2bin_size attrs) as Hab. fold ab in Hab.
  pose proof (attrsize_pos (at_flags attrs)). pose proof (lenZ_nonneg post). pose proof (lenZ_nonneg pre).
  pose proof (lenZ_nonneg name). pose proof (lenZ_nonneg long).
  assert (Eb : store_str (store_str [] name) long ++ ab = htonu32 (lenZ name) ++ name ++ htonu32 (lenZ long) ++ long ++ ab).
  { unfold store_str, store_u32. by rewrite app_nil_l, <- !app_assoc, !u32_small by lia. }
  rewrite Eb in *. clear Eb. rewrite !lenZ_app, !lenZ_htonu32 in Hsz. rewrite <- !app_assoc.
  set (d := pre ++ _). unfold pop_fields. cbn [dd_next_name dd_names_packet_len]. cbv zeta.
  rewrite !lenZ_app, !lenZ_htonu32.
  rewrite (proj2 (Z.ltb_ge _ _)) by lia.
  replace (ntohu32 d (lenZ pre)) with (Some (lenZ name)) by (symmetry; unfold d; apply ntohu32_at; [lia|done]).
  cbn [mbind option_bind]. rewrite (proj2 (Z.leb_gt _ _)), (proj2 (Z.ltb_ge _ _)) by lia.
  assert (Hd : lenZ d = lenZ pre + (4 + (lenZ name + (4 + (lenZ long + (lenZ ab + lenZ post)))))).
  { unfold d. by rewrite !lenZ_app, !lenZ_htonu32. }
  rewrite bytes_at_in by lia. cbn [mbind option_bind].
  replace (slice (lenZ pre + 4) (lenZ name) d) with name.
  2: { symmetry. unfold d. rewrite (app_assoc pre). apply slice_at; [|done]. by rewrite lenZ_app, lenZ_htonu32. }
  rewrite (proj2 (Z.ltb_ge _ _)) by lia.
  replace (ntohu32 d (lenZ pre + 4 + lenZ name)) with (Some (lenZ long)).
  2: { symmetry. unfold d. rewrite (app_assoc pre), (app_assoc (pre ++ _)). apply ntohu32_at; [lia|].
       by rewrite !lenZ_app, lenZ_htonu32. }
  cbn [mbind option_bind]. rewrite (proj2 (Z.ltb_lt 1 _)) by lia. cbn [andb].
  rewrite (proj2 (Z.leb_gt _ _)) by lia. cbn [orb]. rewrite !(proj2 (Z.ltb_ge _ _)) by lia.
  rewrite bytes_at_in by lia. cbn [mbind option_bind].
  replace (slice (lenZ pre + 4 + lenZ name + 4) (lenZ long) d) with long.
  2: { symmetry. unfold d. rewrite (app_assoc pre), (app_assoc (pre ++ _)), (app_assoc (_ ++ name)). apply slice_at; [|done].
       rewrite !lenZ_app, !lenZ_htonu32. lia. }
  replace (drop (Z.to_nat (lenZ pre + 4 + lenZ name + 4 + lenZ long)) d) with (ab ++ post).
  2: { unfold d. rewrite (app_assoc pre), (app_assoc (pre ++ _)), (app_assoc (_ ++ name)), (app_assoc (_ ++ htonu32 (lenZ long))).
       rewrite drop_app_length'; [done|]. rewrite !length_app. unfold lenZ. simpl length. lia. }
  replace (4 + (lenZ name + (4 + (lenZ long + (lenZ ab + lenZ post)))) - 4 - lenZ name - 4 - lenZ long)
    with (lenZ (ab ++ post)) by (rewrite lenZ_app; lia).
  unfold ab. rewrite attr_roundtrip; [|done|fold ab; rewrite lenZ_app; lia]. fold ab. cbn [mbind option_bind].
  rewrite (proj2 (Z.ltb_ge _ _)) by lia. rewrite lenZ_app, Hab. do 3 f_equal. f_equal; lia.
Qed.

Definition sample_entry : server_entry :=
  mk_server_entry [97; 98] [45; 32; 97; 98] (mk_attributes (LIBSSH2_SFTP_ATTR_SIZE + LIBSSH2_SFTP_ATTR_PERMISSIONS) 5000 0 0 420 0 0).

Lemma readdir_roundtrip_witness :
  pop_fields ([104; 0; 0; 0; 7; 0; 0; 0; 1] ++ entry_bytes sample_entry ++ [])
    (mk_dir_data 1 None 9 (lenZ (entry_bytes sample_entry ++ []))) 10 20 true (Some attributes_0) =
  Some (2, mk_dir_entry [97; 98; 0] [45; 32; 97; 98; 0] (Some (merged attributes_0 (se_attrs sample_entry))),
        Some (lenZ ([104; 0; 0; 0; 7; 0; 0; 0; 1] ++ entry_bytes sample_entry), 0)).
Proof.
  apply (readdir_roundtrip [104; 0; 0; 0; 7; 0; 0; 0; 1] sample_entry [] 1 10 20 None).
  - by split; [vm_compute..|split].
  - lia.
  - by vm_compute.
Defined.

(** ** Defects: runs that end in a memory fault or send a wrong message *)

(** A session with an open channel, the packet [d] in the queue of the SFTP object. *)
Definition case_session (d : list Z) (window : Z) : session :=
  session_0 <| s_heap := {[ 2%positive := d ]} |>
            <| s_chans := {[ 1%positive := sample_channel <| local := mk_channel_data 0 window window 32768 false false 0 |>
                                                           <| remote := mk_channel_data 7 100 2097152 32768 false false 0 |> ]} |>
            <| channels := [1%positive] |> <| s_next_ptr := 3%positive |>.

Definition case_world (d : list Z) (window : Z) (g : LIBSSH2_SFTP -> LIBSSH2_SFTP) : world :=
  mk_world (case_session d window)
    (Some (g ((sftp_0 1%positive) <| sf_version := 3 |> <| sf_packets := [mk_sftp_packet 7 2%positive (lenZ d)] |>)))
    ∅ libssh2_NB_state_idle None 0.

Definition with_op (n : sftp_op_name) (o : sftp_op) (f : LIBSSH2_SFTP) : LIBSSH2_SFTP :=
  f <| sf_ops ::= fun os m => if decide (m = n) then o else os m |>.

(** *** A link name longer than its packet *)

(** An answer with one name whose length field says 200, without the bytes. *)
Definition short_name : list Z := [SSH_FXP_NAME; 0; 0; 0; 7; 0; 0; 0; 1; 0; 0; 0; 200; 97; 98].

(** [sftp_symlink] trusts the length of the name in the server's answer: a length
    below the caller's buffer and beyond the packet makes it copy memory behind the
    packet. *)
Theorem symlink_reply_overread :
  sftp_symlink send_ok (ret LIBSSH2_ERROR_EAGAIN) 5 [47; 97] [] 256 LIBSSH2_SFTP_READLINK
    (case_world short_name 100 (with_op op_symlink (mk_sftp_op libssh2_NB_state_sent None 7))) = Fault.
Proof. vm_compute. done. Qed.

(** *** A status that is released twice *)

(** when the server answers an open request with the status OK and the handle that
    should follow cannot be read, [sftp_open] releases the status packet a second
    time. *)
Theorem open_status_double_free :
  sftp_open send_ok (ret LIBSSH2_ERROR_SOCKET_RECV) 5 [97] 1 0 LIBSSH2_SFTP_OPENFILE
    (case_world [SSH_FXP_STATUS; 0; 0; 0; 7; 0; 0; 0; 0] 100
       (fun f => f <| sf_open_state := libssh2_NB_state_sent |> <| sf_open_request_id := 7 |>)) = Fault.
Proof. vm_compute. done. Qed.

(** *** A directory request that fails after it was suspended *)

(** [sftp_mkdir] that was suspended and then fails to send releases its packet and
    keeps the pointer; shutting the SFTP session down releases it again. *)
Theorem mkdir_failure_double_free :
  (let! rc := sftp_mkdir (fun _ _ => ret LIBSSH2_ERROR_SOCKET_SEND) (ret LIBSSH2_ERROR_EAGAIN) 5 [97]
                LIBSSH2_SFTP_DEFAULT_MODE in
   sftp_shutdown send_ok (ret LIBSSH2_ERROR_EAGAIN) 5)
    (case_world [SSH_FXP_STATUS; 0; 0; 0; 9; 0; 0; 0; 0] 100
       (fun f => (with_op op_mkdir (mk_sftp_op libssh2_NB_state_created (Some 2%positive) 7) f) <| sf_packets := [] |>)) = Fault.
Proof. vm_compute. done. Qed.

(** *** A message that is sent twice *)

(** A transport that notes the data it is given. *)
Definition noting_send (_ data2 : list Z) : CM Z := event_log (EvIgnore data2) ;; ret 0.

(** More window from the peer. *)
Definition open_window : SM unit :=
  lift (set_chan 1%positive (fun c => c <| local ::= fun l => l <| cd_window_size := 1000 |> |>)).

Definition fsync_message : list Z :=
  sftp_message 36 SSH_FXP_EXTENDED 0 (store_str (store_str [] (str "fsync@openssh.com")) [9; 9]).

(** when the channel takes only a part of the message, [sftp_fsync] forgets how
    much, and the next call sends the message from its beginning: the server gets the
    first ten bytes, then the whole message. *)
Theorem fsync_resends_part :
  let w := (case_world [] 10 (fun f => f <| sf_packets := [] |>))
             <| w_handles := {[ 5%positive := mk_sftp_handle [9; 9] (HandleFile file_data_0) libssh2_NB_state_idle 0 None [] ]} |> in
  match (let! rc1 := sftp_fsync noting_send (ret LIBSSH2_ERROR_EAGAIN) 5 5%positive in
         open_window ;;
         let! rc2 := sftp_fsync noting_send (ret LIBSSH2_ERROR_EAGAIN) 5 5%positive in ret (rc1, rc2)) w with
  | Ret rcs w' => rcs = (LIBSSH2_ERROR_EAGAIN, LIBSSH2_ERROR_EAGAIN) /\
      s_trace (w_session w') = [EvIgnore (take 10 fsync_message); EvIgnore fsync_message]
  | _ => False
  end.
Proof. vm_compute. done. Qed.
