(* ===== verification/OwnBlock.v ===== *)
(** * Blocks of a client

    Rules for memory that a client of the session allocates, fills and releases itself,
    next to the session's packet queue. *)

From stdpp Require Import base numbers list gmap strings.
From S2P Require Import Prelude Codes Wire Session Packet Conn Comp Sftp SftpSpec Ext.

(** The block belongs to the client alone. *)
Definition owned (s : session) (p : ptr) (d : list Z) : Prop := s_heap s !! p = Some d /\ not_queued s p.

(** The blocks of the queue are live. *)
Definition queue_live (s : session) : Prop := forall q, ¬ not_queued s q -> is_Some (s_heap s !! q).

Lemma owned_lt s p d : heap_ok s -> owned s p d -> (p < s_next_ptr s)%positive.
Proof.
  intros [_ Hf] [Hp _]. destruct (decide (s_next_ptr s <= p)%positive) as [Hle|]; [|lia].
  by rewrite Hf in Hp.
Qed.

Lemma owned_others s s' p d : owned s p d -> others_kept s s' -> owned s' p d.
Proof. intros [H1 H2] Ho. by apply Ho. Qed.

Lemma err_only_own s s' : heap_ok s -> err_only s s' -> own_step s s'.
Proof. intros Hh He. apply own_step_same; [done|]. rewrite He. by destruct s. Qed.

Lemma owned_err s s' p d : err_only s s' -> owned s p d -> owned s' p d.
Proof. intros ->. done. Qed.

Lemma wp_alloc_owned contents (Q : option ptr -> session -> Prop) s :
  heap_ok s -> queue_live s -> bytes_ok contents ->
  (forall s', own_step s s' -> Q None s') ->
  (forall s' p, own_step s s' -> owned s' p contents -> Q (Some p) s') ->
  wp (alloc_block contents) Q s.
Proof.
  intros Hh Hl Hc Hn Hs. apply wp_alloc_block; intros al.
  - by apply Hn, own_step_alloc.
  - assert (Hq : not_queued s (s_next_ptr s)).
    { intros Hin. destruct (Hl (s_next_ptr s)) as [d Hd]; [by intros H; apply H|].
      by rewrite (heap_ok_fresh s Hh) in Hd by lia. }
    apply Hs; [|split; [apply lookup_insert_eq|done]].
    apply (own_step_trans _ (s <| s_alloc := al |>)); [by apply own_step_alloc|].
    pose proof (own_step_fresh (s <| s_alloc := al |>) contents) as H. simpl in H. by apply H; [destruct Hh|..].
Qed.

Lemma wp_write_owned p off bytes (Q : unit -> session -> Prop) s d :
  heap_ok s -> owned s p d -> bytes_ok bytes -> 0 <= off -> off + lenZ bytes <= lenZ d ->
  (forall s', own_step s s' ->
     owned s' p (take (Z.to_nat off) d ++ bytes ++ drop (Z.to_nat (off + lenZ bytes)) d) -> Q tt s') ->
  wp (write_block p off bytes) Q s.
Proof.
  intros Hh [Hp Hq] Hb H0 Hl HQ. eapply wp_write_block; [done..|]. apply HQ.
  - apply own_step_insert; [done| |by eapply owned_lt|done].
    assert (Hd : bytes_ok d) by (by apply (heap_ok_bytes s Hh p)).
    apply Forall_app. split; [by apply Forall_take|]. apply Forall_app. split; [done|by apply Forall_drop].
  - split; [apply lookup_insert_eq|done].
Qed.

Lemma wp_free_owned p (Q : unit -> session -> Prop) s d :
  heap_ok s -> owned s p d -> (forall s', own_step s s' -> Q tt s') -> wp (free_block p) Q s.
Proof. intros Hh [Hp Hq] HQ. eapply wp_free_block; [done|]. by apply HQ, own_step_free. Qed.
