(* ===== verification/Scp.v ===== *)
(** * SCP (scp.c)

    [scp_recv] and [scp_send] run scp on the server over a channel and exchange its
    header lines. Their progress is in the fields [scpRecv_*] and [scpSend_*] of the
    session. *)

From stdpp Require Import base numbers list gmap strings.
From S2P Require Import Prelude Codes CString KexMethods Wire Session ChannelWindow Packet Conn Comp ChannelIO ChannelCtl Numerals ShellQuote Ext Blocking.

Definition LIBSSH2_SCP_RESPONSE_BUFLEN : Z := 256.

Record scp_data := mk_scp_data {
  scpRecv_state : libssh2_nonblocking_states;
  scpRecv_command : option ptr;
  scpRecv_command_len : Z;
  scpRecv_response : list Z;
  scpRecv_response_len : Z;
  scpRecv_mode : Z;
  scpRecv_size : Z;
  scpRecv_mtime : Z;
  scpRecv_atime : Z;
  scpRecv_channel : option ptr;
  scpSend_state : libssh2_nonblocking_states;
  scpSend_command : option ptr;
  scpSend_command_len : Z;
  scpSend_response : list Z;
  scpSend_response_len : Z;
  scpSend_channel : option ptr
}.
#[global] Instance eta_scp_data : Eta scp_data := fun d =>
  mk_scp_data (scpRecv_state d) (scpRecv_command d) (scpRecv_command_len d) (scpRecv_response d)
    (scpRecv_response_len d) (scpRecv_mode d) (scpRecv_size d) (scpRecv_mtime d) (scpRecv_atime d)
    (scpRecv_channel d) (scpSend_state d) (scpSend_command d) (scpSend_command_len d) (scpSend_response d)
    (scpSend_response_len d) (scpSend_channel d).

Definition scp_data_0 : scp_data :=
  let buf := replicate (Z.to_nat LIBSSH2_SCP_RESPONSE_BUFLEN) 0 in
  mk_scp_data libssh2_NB_state_idle None 0 buf 0 0 0 0 0 None libssh2_NB_state_idle None 0 buf 0 None.

(** The times, size and mode of [libssh2_struct_stat]. *)
Record struct_stat := mk_stat {
  st_mtime : Z;
  st_atime : Z;
  st_size : Z;
  st_mode : Z
}.

(** How a step ends: the function goes on, returns, or jumps to one of its labels. *)
Inductive scp_next := Go | ReturnNull | EmptyChannel | ScpError.

Section Scp.
Context (transport_send : list Z -> list Z -> CM Z) (transport_read : CM Z) (fuel : nat).

Abbreviation SC := (XM scp_data).

Definition goto_error (code : Z) (msg : string) : SC scp_next := xerror code msg ;; ret ScpError.
Definition would_block (msg : string) : SC scp_next := xerror LIBSSH2_ERROR_EAGAIN msg ;; ret ReturnNull.

(** One step after the other. *)
Definition and_then (m k : SC scp_next) : SC scp_next :=
  let! n := m in match n with Go => k | _ => ret n end.

(** ** The command *)

(** The text ["scp -<opts>f "] in a block of the right size, and the quoted path: the
    block, its size, and the length of the command. *)
Definition build_command (path : list Z) (opt dir : list Z) : SC (option (ptr * Z)) :=
  let! quoted := access (shell_quotedsize path) in
  let len := quoted + 8 + lenZ opt in
  let! p := xlift (alloc_block (replicate (Z.to_nat len) 0)) in
  match p with
  | None =>
      xerror LIBSSH2_ERROR_ALLOC "Unable to allocate a command buffer for SCP session" ;; ret None
  | Some p =>
      let! d := xlift (block p) in
      let! r := access (snprintf d len (str "scp -" ++ opt ++ dir ++ str " ")) in
      let! cmd_len := access (strlen r.2 0) in
      let! q := access (shell_quotearg path (u32 (len - cmd_len))) in
      xlift (write_block p 0 (take (Z.to_nat cmd_len) r.2 ++ q.2)) ;;
      ret (Some (p, cmd_len + q.1))
  end.

Definition free_opt (o : option ptr) : SC unit :=
  match o with Some p => xlift (free_block p) | None => ret tt end.

(** [libssh2_channel_free], repeated while it would block. *)
Fixpoint scp_channel_free (rounds : nat) (ch : ptr) : SC unit :=
  match rounds with
  | O => fun _ => OutOfFuel
  | S rounds =>
      let! rc := xlift (block_adjust (fun _ m => m) transport_send
                          (channel_free transport_send transport_read fuel ch) fuel) in
      if rc =? LIBSSH2_ERROR_EAGAIN then scp_channel_free rounds ch else ret tt
  end.

(** ** [scp_recv] *)

Section Recv.
Context (path : list Z) (sb : bool).

Definition set_recv_state (st : libssh2_nonblocking_states) : SC unit :=
  xset (fun d => d <| scpRecv_state := st |>).
Definition recv_channel : SC ptr := let! c := xget scpRecv_channel in access c.

Definition recv_start : SC scp_next :=
  xset (fun d => d <| scpRecv_mode := 0 |> <| scpRecv_size := 0 |> <| scpRecv_mtime := 0 |> <| scpRecv_atime := 0 |>) ;;
  let! c := build_command path (if sb then str "p" else []) (str "f") in
  match c with
  | None => ret ReturnNull
  | Some (p, len) =>
      xset (fun d => d <| scpRecv_command := Some p |> <| scpRecv_command_len := len |>
                       <| scpRecv_state := libssh2_NB_state_created |>) ;; ret Go
  end.

Definition recv_open : SC scp_next :=
  let! ch := xlift (channel_open transport_send transport_read fuel (str "session")
                      LIBSSH2_CHANNEL_WINDOW_DEFAULT LIBSSH2_CHANNEL_PACKET_DEFAULT []) in
  xset (fun d => d <| scpRecv_channel := ch |>) ;;
  match ch with
  | Some _ => set_recv_state libssh2_NB_state_sent ;; ret Go
  | None =>
      let! e := xlift (gets err_code) in
      if negb (e =? LIBSSH2_ERROR_EAGAIN) then
        let! c := xget scpRecv_command in
        free_opt c ;;
        xset (fun d => d <| scpRecv_command := None |> <| scpRecv_state := libssh2_NB_state_idle |>) ;;
        ret ReturnNull
      else would_block "Would block starting up channel"
  end.

(** The bytes of the command, which is not terminated. *)
Definition command_bytes (p : ptr) (len : Z) : SC (list Z) :=
  let! d := xlift (block p) in access (bytes_at d 0 len).

(** [scpRecv_response\[i\]]. *)
Definition recv_at (i : Z) : SC Z := let! r := xget scpRecv_response in access (byte_at r i).
Definition recv_put (i b : Z) : SC unit :=
  let! _ := recv_at i in xset (fun d => d <| scpRecv_response ::= <[Z.to_nat i := b]> |>).

Definition recv_exec : SC scp_next :=
  let! ch := recv_channel in
  let! c := xget scpRecv_command in
  let! p := access c in
  let! len := xget scpRecv_command_len in
  let! cmd := command_bytes p len in
  let! rc := xlift (channel_process_startup transport_send transport_read fuel ch (str "exec") (Some cmd)) in
  if rc =? LIBSSH2_ERROR_EAGAIN then would_block "Would block requesting SCP startup"
  else
    xlift (free_block p) ;;
    xset (fun d => d <| scpRecv_command := None |>) ;;
    if negb (rc =? 0) then ret ScpError
    else recv_put 0 0 ;; set_recv_state libssh2_NB_state_sent1 ;; ret Go.

(** The byte [scpRecv_response\[0\]] is sent. *)
Definition recv_ack (msg : string) : SC scp_next :=
  let! ch := recv_channel in
  let! b := recv_at 0 in
  let! rc := xlift (channel_write transport_send transport_read fuel ch 0 [b]) in
  if rc =? LIBSSH2_ERROR_EAGAIN then would_block msg
  else if negb (rc =? 1) then ret ScpError
  else ret Go.

Definition recv_wakeup : SC scp_next :=
  and_then (recv_ack "Would block sending initial wakeup")
    (xset (fun d => d <| scpRecv_response_len := 0 |> <| scpRecv_state := libssh2_NB_state_sent2 |>) ;; ret Go).

(** The next byte of the answer, stored; the count includes it. *)
Definition recv_byte : SC scp_next :=
  let! ch := recv_channel in
  let! n := xget scpRecv_response_len in
  let! r := xlift (channel_read transport_send transport_read fuel ch 0 1) in
  if r.1 =? LIBSSH2_ERROR_EAGAIN then would_block "Would block waiting for SCP response"
  else if r.1 <? 0 then goto_error r.1 "Failed reading SCP response"
  else if r.1 =? 0 then ret EmptyChannel
  else
    let! b := access (byte_at r.2 0) in
    recv_put n b ;;
    xset (fun d => d <| scpRecv_response_len := n + 1 |>) ;; ret Go.

(** The message of the server is read and dropped. *)
Definition recv_refused : SC scp_next :=
  let! ch := recv_channel in
  let! err_len := xlift (channel_packet_data_len ch 0) in
  let! m := xlift (alloc_block (replicate (Z.to_nat (err_len + 1)) 0)) in
  match m with
  | None => goto_error LIBSSH2_ERROR_ALLOC "Failed to get memory "
  | Some m =>
      let! r := xlift (channel_read transport_send transport_read fuel ch 0 err_len) in
      (if 0 <? r.1 then xlift (write_block m 0 r.2) else ret tt) ;;
      xlift (write_block m err_len [0]) ;;
      xerror LIBSSH2_ERROR_SCP_PROTOCOL "Failed to recv file" ;;
      xlift (free_block m) ;; ret ScpError
  end.

(** The line ends at the last character that is not a line end. *)
Fixpoint trim_eol (resp : list Z) (n : nat) : option nat :=
  match n with
  | O => None
  | S m => c ← resp !! m; if (c =? 13) || (c =? 10) then trim_eol resp m else Some (S m)
  end.

Definition recv_trim : SC Z :=
  let! r := xget scpRecv_response in
  let! n := xget scpRecv_response_len in
  let! n := access (trim_eol r (Z.to_nat n)) in
  xset (fun d => d <| scpRecv_response_len := Z.of_nat n |>) ;;
  recv_put (Z.of_nat n) 0 ;; ret (Z.of_nat n).

Definition recv_chr (i : Z) : SC (option Z) := let! r := xget scpRecv_response in access (strchr r i 32).
Definition recv_tol (i base : Z) : SC (Z * Z) := let! r := xget scpRecv_response in access (strtol r i base).

(** A space behind [from]; [bad] when there is none or nothing before it. *)
Definition recv_field (from : Z) (bad : string) (k : Z -> SC scp_next) : SC scp_next :=
  let! p := recv_chr from in
  match p with
  | None => goto_error LIBSSH2_ERROR_SCP_PROTOCOL bad
  | Some p => if p - from <=? 0 then goto_error LIBSSH2_ERROR_SCP_PROTOCOL bad else k p
  end.

Definition parse_times : SC scp_next :=
  let! n := recv_trim in
  if n <? 8 then goto_error LIBSSH2_ERROR_SCP_PROTOCOL "Invalid response from SCP server, too short"
  else
    recv_field 1 "Invalid response from SCP server, malformed mtime" (fun p =>
      recv_put p 0 ;;
      let! t := recv_tol 1 10 in
      xset (fun d => d <| scpRecv_mtime := t.1 |>) ;;
      recv_field (p + 1) "Invalid response from SCP server, malformed mtime.usec" (fun s =>
        recv_field (s + 1) "Invalid response from SCP server, too short or malformed" (fun p =>
          recv_put p 0 ;;
          let! t := recv_tol (s + 1) 10 in
          xset (fun d => d <| scpRecv_atime := t.1 |>) ;;
          recv_put 0 0 ;;
          set_recv_state libssh2_NB_state_sent3 ;; ret Go))).

(** Whether the line is complete; the checks on the byte that was read last. *)
Definition line_done (min : Z) (bad : Z -> bool) : SC (scp_next + bool) :=
  let! n := xget scpRecv_response_len in
  let! c := recv_at (n - 1) in
  if (1 <? n) && bad c then
    let! e := goto_error LIBSSH2_ERROR_SCP_PROTOCOL "Invalid data in SCP response" in ret (inl e)
  else if (n <? min) || negb (c =? 10) then
    if n =? LIBSSH2_SCP_RESPONSE_BUFLEN then
      let! e := goto_error LIBSSH2_ERROR_SCP_PROTOCOL "Unterminated response from SCP server" in ret (inl e)
    else ret (inr false)
  else ret (inr true).

Definition bad_times (c : Z) : bool :=
  ((c <? 48) || (57 <? c)) && negb (c =? 32) && negb (c =? 13) && negb (c =? 10).
Definition bad_header (c : Z) : bool := negb (c =? 13) && negb (c =? 10) && (c <? 32).

(** A loop that reads a line byte by byte in the state [reading] and acknowledges it
    in the state [acking]; [parse] moves from one to the other. *)
Fixpoint line_loop (rounds : nat) (reading acking : libssh2_nonblocking_states) (first min : Z) (bad : Z -> bool)
    (refused parse : SC scp_next) (ack : string) : SC scp_next :=
  match rounds with
  | O => fun _ => OutOfFuel
  | S rounds =>
      let! n := xget scpRecv_response_len in
      if n <? LIBSSH2_SCP_RESPONSE_BUFLEN then
        let! st := xget scpRecv_state in
        let! r := (if nb_is st reading then
                     let! b := recv_byte in
                     match b with
                     | Go =>
                         let! c0 := recv_at 0 in
                         if negb (c0 =? first) then let! e := refused in ret (inl e)
                         else
                           let! done := line_done min bad in
                           match done with
                           | inl e => ret (inl e)
                           | inr false => ret (inr false)
                           | inr true =>
                               let! e := parse in
                               match e with Go => ret (inr true) | _ => ret (inl e) end
                           end
                     | e => ret (inl e)
                     end
                   else ret (inr true)) in
        match r with
        | inl e => ret e
        | inr false => line_loop rounds reading acking first min bad refused parse ack
        | inr true =>
            let! st := xget scpRecv_state in
            if nb_is st acking then recv_ack ack
            else line_loop rounds reading acking first min bad refused parse ack
        end
      else ret Go
  end.

Definition line_rounds : nat := S (S (Z.to_nat LIBSSH2_SCP_RESPONSE_BUFLEN)).

Definition recv_times : SC scp_next :=
  let loop := line_loop line_rounds libssh2_NB_state_sent2 libssh2_NB_state_sent3 84 9 bad_times
                recv_refused parse_times "Would block waiting to send SCP ACK" in
  and_then (if sb then loop else ret Go) (set_recv_state libssh2_NB_state_sent4 ;; ret Go).

Definition parse_header : SC scp_next :=
  let! n := recv_trim in
  if n <? 6 then goto_error LIBSSH2_ERROR_SCP_PROTOCOL "Invalid response from SCP server, too short"
  else
    recv_field 1 "Invalid response from SCP server, malformed mode" (fun p =>
      recv_put p 0 ;;
      let! m := recv_tol 1 8 in
      xset (fun d => d <| scpRecv_mode := m.1 |>) ;;
      let! e := recv_at m.2 in
      if negb (e =? 0) then goto_error LIBSSH2_ERROR_SCP_PROTOCOL "Invalid response from SCP server, invalid mode"
      else
        recv_field (p + 1) "Invalid response from SCP server, too short or malformed" (fun s =>
          recv_put s 0 ;;
          let! z := recv_tol (p + 1) 10 in
          xset (fun d => d <| scpRecv_size := z.1 |>) ;;
          let! e := recv_at z.2 in
          if negb (e =? 0) then goto_error LIBSSH2_ERROR_SCP_PROTOCOL "Invalid response from SCP server, invalid size"
          else recv_put 0 0 ;; set_recv_state libssh2_NB_state_sent6 ;; ret Go)).

Definition recv_header : SC scp_next :=
  and_then
    (line_loop line_rounds libssh2_NB_state_sent5 libssh2_NB_state_sent6 67 7 bad_header
       (goto_error LIBSSH2_ERROR_SCP_PROTOCOL "Invalid response from SCP server") parse_header
       "Would block sending SCP ACK")
    (set_recv_state libssh2_NB_state_sent7 ;; ret Go).

(** A step in its states; the others pass. *)
Definition recv_step (states : list libssh2_nonblocking_states) (m : SC scp_next) : SC scp_next :=
  let! st := xget scpRecv_state in
  if existsb (nb_is st) states then m else ret Go.

(** The label [scp_recv_error]; the error of the session is kept. *)
Definition recv_error : SC unit :=
  let! code := xlift (gets err_code) in
  let! msg := xlift (gets err_msg) in
  let! ch := recv_channel in
  scp_channel_free fuel ch ;;
  xlift (modify (fun s => s <| err_code := code |> <| err_msg := msg |>)) ;;
  xset (fun d => d <| scpRecv_channel := None |> <| scpRecv_state := libssh2_NB_state_idle |>).

Definition recv_steps : SC scp_next :=
  and_then (recv_step [libssh2_NB_state_idle] recv_start)
 (and_then (recv_step [libssh2_NB_state_created] recv_open)
 (and_then (recv_step [libssh2_NB_state_sent] recv_exec)
 (and_then (recv_step [libssh2_NB_state_sent1] recv_wakeup)
 (and_then (recv_step [libssh2_NB_state_sent2; libssh2_NB_state_sent3] recv_times)
 (and_then (recv_step [libssh2_NB_state_sent4]
              (xset (fun d => d <| scpRecv_response_len := 0 |> <| scpRecv_state := libssh2_NB_state_sent5 |>) ;; ret Go))
           (recv_step [libssh2_NB_state_sent5; libssh2_NB_state_sent6] recv_header)))))).

(** The channel, and [*sb] when it was filled. *)
Definition scp_recv : SC (option ptr * option struct_stat) :=
  let! n := recv_steps in
  match n with
  | Go =>
      let! d := xget (fun d => d) in
      set_recv_state libssh2_NB_state_idle ;;
      ret (scpRecv_channel d,
           if sb then Some (mk_stat (scpRecv_mtime d) (scpRecv_atime d) (scpRecv_size d) (scpRecv_mode d mod 2 ^ 16))
           else None)
  | ReturnNull => ret (None, None)
  | ScpError => recv_error ;; ret (None, None)
  | EmptyChannel =>
      let! ch := recv_channel in
      let! eof := xlift (channel_eof ch) in
      if negb (eof =? 0) then
        xerror LIBSSH2_ERROR_SCP_PROTOCOL "Unexpected channel close" ;; recv_error ;; ret (None, None)
      else ret (Some ch, None)
  end.
End Recv.

(** ** [scp_send] *)

(** What is behind the last slash. *)
Fixpoint basename (cur path : list Z) : list Z :=
  match path with
  | [] => cur
  | c :: path => basename (if c =? 47 then path else cur) path
  end.

Section Send.
Context (path : list Z) (mode size mtime atime : Z).

Definition with_times : bool := negb (mtime =? 0) || negb (atime =? 0).

Definition set_send_state (st : libssh2_nonblocking_states) : SC unit :=
  xset (fun d => d <| scpSend_state := st |>).
Definition send_channel : SC ptr := let! c := xget scpSend_channel in access c.

Definition send_start : SC scp_next :=
  let! c := build_command path (if with_times then str "p" else []) (str "t") in
  match c with
  | None => ret ReturnNull
  | Some (p, len) =>
      xset (fun d => d <| scpSend_command := Some p |> <| scpSend_command_len := len |>
                       <| scpSend_state := libssh2_NB_state_created |>) ;; ret Go
  end.

Definition send_open : SC scp_next :=
  let! ch := xlift (channel_open transport_send transport_read fuel (str "session")
                      LIBSSH2_CHANNEL_WINDOW_DEFAULT LIBSSH2_CHANNEL_PACKET_DEFAULT []) in
  xset (fun d => d <| scpSend_channel := ch |>) ;;
  match ch with
  | Some _ => set_send_state libssh2_NB_state_sent ;; ret Go
  | None =>
      let! e := xlift (gets err_code) in
      if negb (e =? LIBSSH2_ERROR_EAGAIN) then
        let! c := xget scpSend_command in
        free_opt c ;;
        xset (fun d => d <| scpSend_command := None |> <| scpSend_state := libssh2_NB_state_idle |>) ;;
        ret ReturnNull
      else would_block "Would block starting up channel"
  end.

Definition send_exec : SC scp_next :=
  let! ch := send_channel in
  let! c := xget scpSend_command in
  let! p := access c in
  let! len := xget scpSend_command_len in
  let! cmd := command_bytes p len in
  let! rc := xlift (channel_process_startup transport_send transport_read fuel ch (str "exec") (Some cmd)) in
  if rc =? LIBSSH2_ERROR_EAGAIN then would_block "Would block requesting SCP startup"
  else
    xlift (free_block p) ;;
    xset (fun d => d <| scpSend_command := None |>) ;;
    if negb (rc =? 0) then
      goto_error LIBSSH2_ERROR_SCP_PROTOCOL "Unknown error while getting error string"
    else set_send_state libssh2_NB_state_sent1 ;; ret Go.

Definition send_put (b : Z) : SC unit :=
  xset (fun d => d <| scpSend_response ::= <[0%nat := b]> |>).

(** An acknowledgement: [failed] when the channel fails, [refused] when the server
    answers with something else than 0. *)
Definition send_ack (block_msg : string) (failed : Z -> SC scp_next) (refused : SC scp_next) : SC scp_next :=
  let! ch := send_channel in
  let! r := xlift (channel_read transport_send transport_read fuel ch 0 1) in
  if r.1 =? LIBSSH2_ERROR_EAGAIN then would_block block_msg
  else if r.1 <? 0 then failed r.1
  else if r.1 =? 0 then ret EmptyChannel
  else
    let! b := access (byte_at r.2 0) in
    send_put b ;;
    if negb (b =? 0) then refused else ret Go.

(** [snprintf] of a line to [scpSend_response]. *)
Definition send_line (t : list Z) : SC unit :=
  let! resp := xget scpSend_response in
  let! r := access (snprintf resp LIBSSH2_SCP_RESPONSE_BUFLEN t) in
  xset (fun d => d <| scpSend_response := r.2 |> <| scpSend_response_len := r.1 |>).

(** The line is sent. *)
Definition send_response (block_msg msg : string) : SC scp_next :=
  let! ch := send_channel in
  let! resp := xget scpSend_response in
  let! len := xget scpSend_response_len in
  let! b := access (bytes_at resp 0 len) in
  let! rc := xlift (channel_write transport_send transport_read fuel ch 0 b) in
  if rc =? LIBSSH2_ERROR_EAGAIN then would_block block_msg
  else if negb (rc =? len) then goto_error LIBSSH2_ERROR_SOCKET_SEND msg
  else ret Go.

Definition times_line : list Z := str "T" ++ decimal mtime ++ str " 0 " ++ decimal atime ++ str " 0" ++ [10].
Definition header_line (base : list Z) : list Z :=
  str "C0" ++ octal mode ++ str " " ++ decimal size ++ str " " ++ base ++ [10].

Definition send_ready : SC scp_next :=
  and_then (send_ack "Would block waiting for response from remote" (fun rc => goto_error rc "SCP failure")
              (goto_error LIBSSH2_ERROR_SCP_PROTOCOL "Invalid ACK response from remote"))
    ((if with_times then send_line times_line else ret tt) ;; set_send_state libssh2_NB_state_sent2 ;; ret Go).

Definition send_times : SC scp_next :=
  and_then (send_response "Would block sending time data for SCP file" "Unable to send time data for SCP file")
    (set_send_state libssh2_NB_state_sent3 ;; ret Go).

Definition send_times_ack : SC scp_next :=
  and_then (send_ack "Would block waiting for response" (fun rc => goto_error rc "SCP failure")
              (goto_error LIBSSH2_ERROR_SCP_PROTOCOL "Invalid SCP ACK response"))
    (set_send_state libssh2_NB_state_sent4 ;; ret Go).

Definition send_header_line : SC scp_next :=
  let! p := access (c_string path) in
  send_line (header_line (basename p p)) ;;
  set_send_state libssh2_NB_state_sent5 ;; ret Go.

Definition send_header : SC scp_next :=
  and_then (send_response "Would block send core file data for SCP file" "Unable to send core file data for SCP file")
    (set_send_state libssh2_NB_state_sent6 ;; ret Go).

(** The message of the server is read and dropped. *)
Definition send_refused : SC scp_next :=
  let! ch := send_channel in
  let! err_len := xlift (channel_packet_data_len ch 0) in
  let! m := xlift (alloc_block (replicate (Z.to_nat (err_len + 1)) 0)) in
  match m with
  | None => goto_error LIBSSH2_ERROR_ALLOC "failed to get memory"
  | Some m =>
      let! r := xlift (channel_read transport_send transport_read fuel ch 0 err_len) in
      (if 0 <? r.1 then xlift (write_block m 0 r.2) ;; xlift (write_block m err_len [0]) else ret tt) ;;
      xlift (free_block m) ;;
      goto_error LIBSSH2_ERROR_SCP_PROTOCOL "failed to send file"
  end.

Definition send_final_ack : SC scp_next :=
  send_ack "Would block waiting for response"
    (fun _ => goto_error LIBSSH2_ERROR_SCP_PROTOCOL "Invalid ACK response from remote") send_refused.

Definition send_step (st : libssh2_nonblocking_states) (m : SC scp_next) : SC scp_next :=
  let! now := xget scpSend_state in if nb_is now st then m else ret Go.

(** The label [scp_send_error]. *)
Definition send_error : SC unit :=
  let! code := xlift (gets err_code) in
  let! msg := xlift (gets err_msg) in
  let! ch := send_channel in
  scp_channel_free fuel ch ;;
  xlift (modify (fun s => s <| err_code := code |> <| err_msg := msg |>)) ;;
  xset (fun d => d <| scpSend_channel := None |> <| scpSend_state := libssh2_NB_state_idle |>).

Definition send_steps : SC scp_next :=
  and_then (send_step libssh2_NB_state_idle send_start)
 (and_then (send_step libssh2_NB_state_created send_open)
 (and_then (send_step libssh2_NB_state_sent send_exec)
 (and_then (send_step libssh2_NB_state_sent1 send_ready)
 (and_then (if with_times then
              and_then (send_step libssh2_NB_state_sent2 send_times) (send_step libssh2_NB_state_sent3 send_times_ack)
            else send_step libssh2_NB_state_sent2 (set_send_state libssh2_NB_state_sent4 ;; ret Go))
 (and_then (send_step libssh2_NB_state_sent4 send_header_line)
 (and_then (send_step libssh2_NB_state_sent5 send_header)
           (send_step libssh2_NB_state_sent6 send_final_ack))))))).

Definition scp_send : SC (option ptr) :=
  let! n := send_steps in
  match n with
  | Go => set_send_state libssh2_NB_state_idle ;; xget scpSend_channel
  | ReturnNull => ret None
  | ScpError => send_error ;; ret None
  | EmptyChannel =>
      let! ch := send_channel in
      let! eof := xlift (channel_eof ch) in
      if negb (eof =? 0) then
        xerror LIBSSH2_ERROR_SCP_PROTOCOL "Unexpected channel close" ;; send_error ;; ret None
      else ret (Some ch)
  end.
End Send.

(** ** The public functions *)

(** [libssh2_scp_recv2], and [libssh2_scp_recv], whose [struct stat] has the same
    fields: the last call's [sb] is what the caller sees. *)
Definition libssh2_scp_recv2 (path : list Z) (sb : bool) : SC (option ptr * option struct_stat) :=
  let call := (let! r := scp_recv path sb in
               ret (match r.1 with Some ch => Some (ch, r.2) | None => None end)) in
  let! r := block_adjust_errno (@xlift _) transport_send call fuel in
  ret (match r with Some (ch, st) => (Some ch, st) | None => (None, None) end).

Definition libssh2_scp_recv (path : list Z) (sb : bool) : SC (option ptr * option struct_stat) :=
  let! r := libssh2_scp_recv2 path sb in
  ret (r.1, if sb then Some (default (mk_stat 0 0 0 0) r.2) else None).

Definition libssh2_scp_send64 (path : list Z) (mode size mtime atime : Z) : SC (option ptr) :=
  block_adjust_errno (@xlift _) transport_send (scp_send path mode size mtime atime) fuel.

(** [size] is a [size_t]. *)
Definition libssh2_scp_send_ex (path : list Z) (mode size mtime atime : Z) : SC (option ptr) :=
  libssh2_scp_send64 path mode (if size <? 2 ^ 63 then size else size - 2 ^ 64) mtime atime.
End Scp.
