(* ===== verification/ScpSpec.v ===== *)
(** * Theorems about SCP

    Whatever a server answers, [scp_recv] stays in its response buffer; the header lines
    of [scp_send] are read back by [scp_recv]; a long file name is sent from behind the
    buffer. *)

From stdpp Require Import base numbers list gmap strings.
From S2P Require Import Prelude Codes CString KexMethods Wire Session ChannelWindow Packet PacketAdd Conn Comp PacketSafety PacketSpec ChannelIO ChannelCtl Numerals ShellQuote Ext Blocking SftpCodec Sftp SftpSpec OwnBlock ChannelStream SftpFrames SftpOps SftpFile SftpWrite Scp.

(** ** The response buffer *)

Definition resp_ok (d : scp_data) : Prop := lenZ (scpRecv_response d) = LIBSSH2_SCP_RESPONSE_BUFLEN.

Lemma byte_at_insert l i k b :
  0 <= i < lenZ l -> byte_at (<[Z.to_nat i := b]> l) k = if decide (i = k) then Some b else byte_at l k.
Proof.
  intros Hi. unfold byte_at, lenZ in *. destruct (decide (i = k)) as [->|Hne]; case_decide; try lia; try done.
  - by apply list_lookup_insert_eq; lia.
  - apply list_lookup_insert_ne. lia.
Qed.

Definition put_resp (i b : Z) (d : scp_data) : scp_data := d <| scpRecv_response ::= <[Z.to_nat i := b]> |>.

Lemma put_resp_ok i b d : resp_ok d -> resp_ok (put_resp i b d).
Proof. unfold resp_ok. simpl. by rewrite lenZ_insert. Qed.

Lemma wp_recv_at i (Q : Z -> ext scp_data -> Prop) s d b :
  byte_at (scpRecv_response d) i = Some b -> Q b (mk_ext s d) -> wp (recv_at i) Q (mk_ext s d).
Proof. intros H HQ. unfold recv_at. x_step. x_step. by eapply wp_access. Qed.

Lemma wp_recv_put i b (Q : unit -> ext scp_data -> Prop) s d :
  resp_ok d -> 0 <= i < LIBSSH2_SCP_RESPONSE_BUFLEN -> Q tt (mk_ext s (put_resp i b d)) ->
  wp (recv_put i b) Q (mk_ext s d).
Proof.
  intros Hd Hi HQ. destruct (byte_at_in (scpRecv_response d) i) as [c Hc]; [by rewrite Hd|].
  unfold recv_put. x_step. eapply wp_recv_at; [done|]. x_step. done.
Qed.

(** *** Trimming *)

Definition is_eol (c : Z) : bool := (c =? 13) || (c =? 10).

Lemma trim_ok resp : forall n c0,
  resp !! 0%nat = Some c0 -> is_eol c0 = false -> (0 < n <= length resp)%nat ->
  exists m, trim_eol resp n = Some m /\ (1 <= m <= n)%nat /\
    (forall c, resp !! (n - 1)%nat = Some c -> is_eol c = true -> (m < n)%nat).
Proof.
  induction n as [|n IH]; intros c0 H0 He Hn; [lia|]. simpl.
  destruct (lookup_lt_is_Some_2 resp n) as [c Hc]; [lia|]. rewrite Hc. simpl. fold (is_eol c).
  replace (n - 0)%nat with n by lia. destruct (is_eol c) eqn:E.
  - destruct n as [|n]; [congruence|]. destruct (IH c0 H0 He) as (m & -> & Hm & _); [lia|].
    exists m. split; [done|]. split; [lia|]. intros; lia.
  - exists (S n). split; [done|]. split; [lia|]. intros c' Hc' He'. congruence.
Qed.

(** A line of [n] bytes in the buffer. *)
Record line_in (n : Z) (d : scp_data) : Prop := {
  li_resp : resp_ok d;
  li_len : scpRecv_response_len d = n;
  li_range : 1 < n <= LIBSSH2_SCP_RESPONSE_BUFLEN;
  li_first : exists c, byte_at (scpRecv_response d) 0 = Some c /\ is_eol c = false;
  li_last : byte_at (scpRecv_response d) (n - 1) = Some 10
}.

Lemma byte_at_lookup l i b : byte_at l i = Some b -> l !! Z.to_nat i = Some b.
Proof. unfold byte_at. by case_decide. Qed.

Lemma wp_recv_trim n (Q : Z -> ext scp_data -> Prop) s d :
  line_in n d ->
  (forall m d', 1 <= m < n -> resp_ok d' -> scpRecv_channel d' = scpRecv_channel d ->
     scpRecv_response_len d' = m -> byte_at (scpRecv_response d') m = Some 0 -> Q m (mk_ext s d')) ->
  wp recv_trim Q (mk_ext s d).
Proof.
  intros [Hr Hl Hn (c0 & H0 & He) Hlast] HQ. unfold recv_trim. do 4 x_step. rewrite Hl.
  unfold LIBSSH2_SCP_RESPONSE_BUFLEN in *.
  destruct (trim_ok (scpRecv_response d) (Z.to_nat n) c0) as (m & Ht & Hm & Hlt);
    [by apply byte_at_lookup in H0|done|unfold resp_ok, lenZ in Hr; unfold LIBSSH2_SCP_RESPONSE_BUFLEN in Hr; lia|].
  assert (m < Z.to_nat n)%nat.
  { apply (Hlt 10); [|done]. apply byte_at_lookup in Hlast. by replace (Z.to_nat n - 1)%nat with (Z.to_nat (n - 1)) by lia. }
  x_step. eapply wp_access; [done|]. do 3 x_step.
  apply wp_recv_put; [done|unfold LIBSSH2_SCP_RESPONSE_BUFLEN; lia|].
  x_step. apply HQ; [lia|by apply put_resp_ok|done|done|]. simpl. rewrite byte_at_insert.
  - by rewrite decide_True.
  - rewrite Hr. unfold LIBSSH2_SCP_RESPONSE_BUFLEN. lia.
Qed.

(** ** Parsing is safe *)

(** The state a step leaves: the buffer has its size and at most [max] bytes of the
    line, and the channel stays. *)
Definition kept (max : Z) (ch : ptr) (d : scp_data) : Prop :=
  resp_ok d /\ scpRecv_channel d = Some ch /\ 0 <= scpRecv_response_len d <= max.

(** What a parser does: it goes on in the state [st], or fails. *)
Definition parsed (st : libssh2_nonblocking_states) (ch : ptr) (s : session) (n : scp_next) (e : ext scp_data) : Prop :=
  exists s' d, e = mk_ext s' d /\ err_only s s' /\ kept 255 ch d /\
    ((n = Go /\ scpRecv_state d = st) \/ n = ScpError).

Lemma kept_le k k' ch d : k <= k' -> kept k ch d -> kept k' ch d.
Proof. intros Hk (H1 & H2 & H3). split; [done|]. split; [done|lia]. Qed.

Section Parse.
Context (ch : ptr).

Lemma wp_goto_error st code msg s s0 d :
  err_only s0 s -> kept 255 ch d -> wp (goto_error code msg) (parsed st ch s0) (mk_ext s d).
Proof.
  intros Hc Hk. unfold goto_error. x_step. x_step. x_step. eexists _, d.
  split; [done|]. split; [by etransitivity|]. split; [done|by right].
Qed.

(** A field up to a space, in a buffer terminated at [k]. *)
Lemma wp_recv_field st from k bad next s s0 d :
  err_only s0 s -> kept 255 ch d -> 0 <= from <= k ->
  byte_at (scpRecv_response d) k = Some 0 ->
  (forall p, from <= p < k -> wp (next p) (parsed st ch s0) (mk_ext s d)) ->
  wp (recv_field from bad next) (parsed st ch s0) (mk_ext s d).
Proof.
  intros Hc Hk Hf H0 Hn. unfold recv_field, recv_chr. do 3 x_step.
  destruct (strchr_safe (scpRecv_response d) from k 32 ltac:(done) Hf H0) as (r & Hr & Hp).
  eapply wp_access; [done|]. destruct r as [p|]; [|by apply wp_goto_error].
  x_step; [by apply wp_goto_error|]. apply Hn. by apply Hp.
Qed.

Lemma wp_recv_tol i k base (Q : Z * Z -> ext scp_data -> Prop) s d :
  0 <= i <= k -> byte_at (scpRecv_response d) k = Some 0 ->
  (forall v e, i <= e <= k -> Q (v, e) (mk_ext s d)) ->
  wp (recv_tol i base) Q (mk_ext s d).
Proof.
  intros Hi H0 HQ. unfold recv_tol. do 2 x_step.
  destruct (strtol_safe (scpRecv_response d) i k base Hi H0) as (v & e & Hr & He).
  eapply wp_access; [done|]. by apply HQ.
Qed.

Lemma put_byte i b k c d :
  resp_ok d -> 0 <= i < LIBSSH2_SCP_RESPONSE_BUFLEN -> i <> k ->
  byte_at (scpRecv_response d) k = Some c -> byte_at (scpRecv_response (put_resp i b d)) k = Some c.
Proof. intros Hd Hi Hne H. simpl. rewrite byte_at_insert by (by rewrite Hd). by rewrite decide_False. Qed.

Lemma put_byte_eq i b d :
  resp_ok d -> 0 <= i < LIBSSH2_SCP_RESPONSE_BUFLEN -> byte_at (scpRecv_response (put_resp i b d)) i = Some b.
Proof. intros Hd Hi. simpl. rewrite byte_at_insert by (by rewrite Hd). by rewrite decide_True. Qed.

Lemma kept_put i b d : kept 255 ch d -> kept 255 ch (put_resp i b d).
Proof. intros (H1 & H2 & H3). split; [by apply put_resp_ok|done]. Qed.

(** The end of a successful parse. *)
Lemma wp_parse_end st s s0 d :
  err_only s0 s -> kept 255 ch d ->
  wp (recv_put 0 0 ;; set_recv_state st ;; ret Go) (parsed st ch s0) (mk_ext s d).
Proof.
  intros Hc Hk. x_step. apply wp_recv_put; [by apply Hk|unfold LIBSSH2_SCP_RESPONSE_BUFLEN; lia|].
  x_step. unfold set_recv_state. x_step. x_step. eexists _, _. split; [done|]. split; [done|].
  split; [by apply (kept_put 0 0)|by left].
Qed.

Lemma parse_times_ok n s d :
  line_in n d -> scpRecv_channel d = Some ch ->
  wp parse_times (parsed libssh2_NB_state_sent3 ch s) (mk_ext s d).
Proof.
  intros Hl Hch. unfold parse_times. x_step. eapply wp_recv_trim; [done|]. intros k d1 Hk Hr1 Hch1 Hlen H0.
  pose proof (li_range n d Hl) as Hn. unfold LIBSSH2_SCP_RESPONSE_BUFLEN in Hn.
  assert (Hk1 : kept 255 ch d1) by (split; [done|]; split; [congruence|lia]).
  x_step; [by apply wp_goto_error|]. breflect.
  apply (wp_recv_field _ 1 k); [done..|lia|done|]. intros p Hp.
  x_step. apply wp_recv_put; [done|unfold LIBSSH2_SCP_RESPONSE_BUFLEN; lia|]. set (d2 := put_resp p 0 d1).
  assert (Hk2 : kept 255 ch d2) by (by apply kept_put).
  assert (H2 : byte_at (scpRecv_response d2) k = Some 0) by (apply put_byte; [done|unfold LIBSSH2_SCP_RESPONSE_BUFLEN; lia|lia|done]).
  x_step. apply (wp_recv_tol 1 k); [lia|done|]. intros v e He. do 2 x_step.
  apply (wp_recv_field _ (p + 1) k); [done..|lia|done|]. intros t Ht.
  apply (wp_recv_field _ (t + 1) k); [done..|lia|done|]. intros q Hq.
  x_step. apply wp_recv_put; [by destruct Hk2|unfold LIBSSH2_SCP_RESPONSE_BUFLEN; lia|]. x_step.
  apply (wp_recv_tol (t + 1) k); [lia|apply put_byte; [by destruct Hk2|unfold LIBSSH2_SCP_RESPONSE_BUFLEN; lia|lia|done]|]. intros v' e' He'.
  do 2 x_step. apply wp_parse_end; [done..|]. by apply (kept_put q 0).
Qed.

Lemma parse_header_ok n s d :
  line_in n d -> scpRecv_channel d = Some ch ->
  wp parse_header (parsed libssh2_NB_state_sent6 ch s) (mk_ext s d).
Proof.
  intros Hl Hch. unfold parse_header. x_step. eapply wp_recv_trim; [done|]. intros k d1 Hk Hr1 Hch1 Hlen H0.
  pose proof (li_range n d Hl) as Hn. unfold LIBSSH2_SCP_RESPONSE_BUFLEN in Hn.
  assert (Hk1 : kept 255 ch d1) by (split; [done|]; split; [congruence|lia]).
  x_step; [by apply wp_goto_error|]. breflect.
  apply (wp_recv_field _ 1 k); [done..|lia|done|]. intros p Hp.
  x_step. apply wp_recv_put; [done|unfold LIBSSH2_SCP_RESPONSE_BUFLEN; lia|]. set (d2 := put_resp p 0 d1).
  assert (Hk2 : kept 255 ch d2) by (by apply kept_put).
  assert (H2 : byte_at (scpRecv_response d2) k = Some 0) by (apply put_byte; [done|unfold LIBSSH2_SCP_RESPONSE_BUFLEN; lia|lia|done]).
  x_step. apply (wp_recv_tol 1 k); [lia|done|]. intros v e He. do 3 x_step. simpl.
  destruct (byte_at_in (scpRecv_response d2) e) as [b Hb]; [destruct Hk2 as (-> & _); unfold LIBSSH2_SCP_RESPONSE_BUFLEN; lia|].
  eapply wp_recv_at; [done|]. x_step; [by apply wp_goto_error|].
  apply (wp_recv_field _ (p + 1) k); [done..|lia|done|]. intros t Ht.
  x_step. apply wp_recv_put; [by destruct Hk2|unfold LIBSSH2_SCP_RESPONSE_BUFLEN; lia|]. x_step.
  set (d3 := put_resp t 0 _). assert (Hk3 : kept 255 ch d3) by (by apply (kept_put t 0)).
  apply (wp_recv_tol (p + 1) k); [lia|apply put_byte; [by destruct Hk2|unfold LIBSSH2_SCP_RESPONSE_BUFLEN; lia|lia|done]|]. intros v' e' He'.
  do 3 x_step. simpl.
  destruct (byte_at_in (scpRecv_response d3) e') as [b' Hb']; [destruct Hk3 as (-> & _); unfold LIBSSH2_SCP_RESPONSE_BUFLEN; lia|].
  eapply wp_recv_at; [done|]. x_step; [by apply wp_goto_error|]. by apply wp_parse_end.
Qed.
End Parse.

(** ** Reading lines from the channel *)

(** What SCP relies on of its channel; unlike [ChannelInput], a read may also end
    without a byte. *)
Class ByteChannel (transport_send : list Z -> list Z -> CM Z) (transport_read : CM Z) (ch : ptr)
    (rounds : nat) (ok : option (list Z) -> session -> Prop) : Prop := {
  bc_own : forall o s s', ok o s -> own_step s s' -> ok o s';
  bc_heap : forall o s, ok o s -> heap_ok s;
  bc_free : forall o s, ok None s -> ok o s;
  bc_live : forall o s q, ok o s -> ¬ not_queued s q -> is_Some (s_heap s !! q);
  bc_read : forall fuel n s, ok None s -> (rounds <= fuel)%nat -> 0 <= n ->
    wp (channel_read transport_send transport_read fuel ch 0 n)
      (fun r s' => ok None s' /\ others_kept s s' /\ (r.1 < 0 \/ (0 <= r.1 <= n /\ r.1 = lenZ r.2 /\ bytes_ok r.2))) s;
  bc_len : forall s, ok None s -> wp (channel_packet_data_len ch 0) (fun n s' => s' = s /\ 0 <= n) s;
  bc_write : forall fuel b s, ok (Some b) s -> (rounds <= fuel)%nat ->
    wp (channel_write transport_send transport_read fuel ch 0 b)
      (fun rc s' => ok (if rc <? 0 then Some b else None) s') s
}.

Section Lines.
Context transport_send transport_read ch rounds ok `{!ByteChannel transport_send transport_read ch rounds ok}.
Context (fuel : nat) (Hfuel : (rounds <= fuel)%nat).

(** Between two calls: a line is being read, or its acknowledgement is to be sent. *)
Definition line_state (reading acking : libssh2_nonblocking_states) (e : ext scp_data) : Prop :=
  exists s d, e = mk_ext s d /\ kept 255 ch d /\
    ((scpRecv_state d = reading /\ ok None s) \/
     (scpRecv_state d = acking /\ exists b, byte_at (scpRecv_response d) 0 = Some b /\ ok (Some [b]) s)).

Definition line_post (reading acking : libssh2_nonblocking_states) (n : scp_next) (e : ext scp_data) : Prop :=
  exists s d o, e = mk_ext s d /\ kept 256 ch d /\ ok o s /\
    match n with
    | Go => scpRecv_state d = acking /\ o = None
    | ReturnNull => line_state reading acking e
    | _ => True
    end.

Lemma ok_err o s s' : ok o s -> err_only s s' -> ok o s'.
Proof. intros H He. eapply bc_own; [done|]. apply err_only_own; [by eapply bc_heap|done]. Qed.

(** An acknowledgement that may be resumed. *)
Lemma recv_ack_ok reading acking msg s d b :
  kept 255 ch d -> scpRecv_state d = acking ->
  byte_at (scpRecv_response d) 0 = Some b -> ok (Some [b]) s ->
  wp (recv_ack transport_send transport_read fuel msg) (line_post reading acking) (mk_ext s d).
Proof.
  intros Hk Hst Hb Hok. assert (Hk' : kept 256 ch d) by (by apply (kept_le 255)). unfold recv_ack, recv_channel. do 3 x_step.
  eapply wp_access; [by apply Hk|]. x_step. eapply wp_recv_at; [done|]. do 2 x_step.
  eapply wp_mono; [by apply bc_write|]. intros rc s1 Hok1. cbn beta. x_step; breflect.
  - subst rc. unfold would_block. do 3 x_step. eapply (ok_err _ _ s0) in Hok1; [|done].
    exists s0, d, (Some [b]). split; [done|]. split; [done|]. split; [done|].
    exists s0, d. split; [done|]. split; [done|]. right. eauto.
  - x_step; x_step; breflect.
    + exists s1, d, (if rc <? 0 then Some [b] else None). done.
    + subst rc. exists s1, d, None. done.
Qed.

(** One byte of the answer. *)
Definition byte_post (reading acking : libssh2_nonblocking_states) (d : scp_data) (n : scp_next) (e : ext scp_data) : Prop :=
  match n with
  | Go => exists s' b, ok None s' /\
      e = mk_ext s' (put_resp (scpRecv_response_len d) b d <| scpRecv_response_len := scpRecv_response_len d + 1 |>)
  | _ => line_post reading acking n e
  end.

Lemma recv_byte_ok reading acking s d :
  kept 255 ch d -> scpRecv_state d = reading -> ok None s ->
  wp (recv_byte transport_send transport_read fuel) (byte_post reading acking d) (mk_ext s d).
Proof.
  intros Hk Hst Hok. assert (Hk' : kept 256 ch d) by (by apply (kept_le 255)). unfold recv_byte, recv_channel. do 3 x_step. eapply wp_access; [by apply Hk|].
  do 4 x_step. eapply wp_mono; [apply bc_read; [done..|lia]|]. intros r s1 (Hok1 & _ & Hr). cbn beta.
  assert (Hline : forall s2, ok None s2 -> line_state reading acking (mk_ext s2 d)).
  { intros s2 H2. exists s2, d. split; [done|]. split; [done|]. by left. }
  x_step; breflect; [|x_step; breflect; [|x_step; breflect]].
  - unfold would_block. do 3 x_step. eapply (ok_err _ _ s0) in Hok1; [|done].
    exists s0, d, None. split; [done|]. split; [done|]. split; [done|]. by apply Hline.
  - unfold goto_error. do 3 x_step. eapply (ok_err _ _ s0) in Hok1; [|done]. by exists s0, d, None.
  - x_step. by exists s1, d, None.
  - destruct Hr as [|(Hr & Hlen & _)]; [lia|].
    destruct (byte_at_in r.2 0) as [b Hb]; [lia|]. x_step. eapply wp_access; [done|].
    x_step. apply wp_recv_put; [by apply Hk|destruct Hk as (_ & _ & ?); unfold LIBSSH2_SCP_RESPONSE_BUFLEN; lia|]. do 3 x_step. by exists s1, b.
Qed.

(** A line that was refused: the message of the server is read and dropped. *)
Lemma recv_refused_ok reading acking s d :
  kept 256 ch d -> ok None s ->
  wp (recv_refused transport_send transport_read fuel) (line_post reading acking) (mk_ext s d).
Proof.
  intros Hk Hok. unfold recv_refused, recv_channel. do 3 x_step. eapply wp_access; [by apply Hk|].
  do 2 x_step. eapply wp_mono; [by apply bc_len|]. intros n s1 [-> Hn]. cbn beta. do 2 x_step.
  apply wp_alloc_owned; [by eapply bc_heap|intros q; by eapply bc_live|by apply Forall_replicate| |].
  { intros s1 Hs1. unfold goto_error. do 3 x_step. exists s0, d, None. split; [done|]. split; [done|].
    split; [|done]. eapply ok_err; [by eapply bc_own|done]. }
  intros s1 p Hs1 Hp. do 2 x_step. assert (Hok1 : ok None s1) by (by eapply bc_own).
  eapply wp_mono; [by apply bc_read|]. intros r s2 (Hok2 & Hoth & Hr). cbn beta.
  apply (owned_others _ s2) in Hp; [|done]. x_step.
  assert (Hwr : wp (if 0 <? r.1 then xlift (write_block p 0 r.2) else ret tt)
    (fun _ e => exists s3 m, e = mk_ext s3 d /\ ok None s3 /\ owned s3 p m /\ lenZ m = n + 1) (mk_ext s2 d)).
  { assert (Hlen : lenZ (replicate (Z.to_nat (n + 1)) 0) = n + 1) by (unfold lenZ; rewrite length_replicate; lia).
    x_step; breflect; [|x_step; by eauto 10]. destruct Hr as [|(Hr & Hrl & Hb)]; [lia|]. x_step.
    eapply wp_write_owned; [by eapply bc_heap|done|done|lia|lia|]. intros s3 Hs3 Hp3.
    do 2 eexists. split; [done|]. split; [by eapply bc_own|]. split; [done|]. rewrite lenZ_write; lia. }
  eapply wp_mono; [exact Hwr|]. clear Hwr Hp Hok2. intros _ e (s3 & m & -> & Hok3 & Hp & Hlm). cbn beta. do 2 x_step.
  eapply wp_write_owned; [by eapply bc_heap|done|by repeat constructor|done|change (lenZ [0]) with 1; lia|].
  intros s4 Hs4 Hp4. do 2 x_step. do 2 x_step.
  assert (Hok5 : ok None s0) by (eapply ok_err; [by eapply bc_own|done]).
  eapply wp_free_owned; [by eapply bc_heap|by eapply owned_err|]. intros s6 Hs6. x_step.
  exists s6, d, None. split; [done|]. split; [done|]. split; [by eapply bc_own|done].
Qed.

(** The loop of a line, for any parser of complete lines. *)
Section Loop.
Context (reading acking : libssh2_nonblocking_states) (first min : Z) (bad : Z -> bool) (refused parse : XM scp_data scp_next).
Context (Hdiff : reading <> acking) (Hfirst : is_eol first = false) (Hmin : 1 < min).
Context (Hrefused : forall s d, kept 256 ch d -> ok None s -> wp refused (line_post reading acking) (mk_ext s d)).
Context (Hparse : forall n s d, line_in n d -> scpRecv_channel d = Some ch -> wp parse (parsed acking ch s) (mk_ext s d)).

(** After a byte: an error, or the line goes on, or it is complete. *)
Lemma line_done_ok s d b :
  kept 256 ch d -> 0 < scpRecv_response_len d -> byte_at (scpRecv_response d) (scpRecv_response_len d - 1) = Some b ->
  ok None s ->
  wp (line_done min bad) (fun r e => match r with
    | inl n => line_post reading acking n e
    | inr false => e = mk_ext s d /\ kept 255 ch d
    | inr true => e = mk_ext s d /\ b = 10 /\ min <= scpRecv_response_len d
    end) (mk_ext s d).
Proof.
  intros Hk H0 Hb Hok. assert (Herr : forall msg,
    wp (let! e := goto_error LIBSSH2_ERROR_SCP_PROTOCOL msg in ret (inl e)) (fun r e => match r with
      | inl n => line_post reading acking n e
      | inr false => e = mk_ext s d /\ kept 255 ch d
      | inr true => e = mk_ext s d /\ b = 10 /\ min <= scpRecv_response_len d
      end) (mk_ext s d)).
  { intros msg. unfold goto_error. do 5 x_step. exists s0, d, None. split; [done|]. split; [done|].
    split; [by eapply ok_err|done]. }
  unfold line_done. do 3 x_step. eapply wp_recv_at; [done|]. x_step; [apply Herr|]. x_step; breflect.
  - x_step; [apply Herr|]. x_step. breflect. split; [done|]. destruct Hk as (H1 & H2 & H3).
    split; [done|]. split; [done|]. unfold LIBSSH2_SCP_RESPONSE_BUFLEN in *. lia.
  - x_step. split; [done|]. split; [done|lia].
Qed.

Lemma line_loop_ok ack : forall n s d,
  line_state reading acking (mk_ext s d) -> 256 - scpRecv_response_len d < Z.of_nat n ->
  wp (line_loop transport_send transport_read fuel n reading acking first min bad refused parse ack)
    (line_post reading acking) (mk_ext s d).
Proof.
  induction n as [|n IH]; intros s d (s1 & d1 & [= <- <-] & Hk & Hst) Hn; [destruct Hk as (_ & _ & ?); lia|].
  assert (Hrange : 0 <= scpRecv_response_len d <= 255) by (by destruct Hk as (_ & _ & ?)).
  simpl. do 2 x_step. unfold LIBSSH2_SCP_RESPONSE_BUFLEN at 1.
  destruct (Z.ltb_spec (scpRecv_response_len d) 256); [|lia]. do 3 x_step.
  destruct Hst as [[Hst Hok]|(Hst & b & Hb & Hok)]; rewrite Hst; unfold nb_is at 1; cycle 1.
  { rewrite bool_decide_eq_false_2 by done. do 3 x_step. rewrite Hst. unfold nb_is. rewrite bool_decide_eq_true_2 by done.
    by eapply recv_ack_ok. }
  rewrite bool_decide_eq_true_2 by done. x_step. eapply wp_mono; [by apply recv_byte_ok|].
  intros r e Hr. cbn beta. destruct r; [|x_step; by x_step..].
  destruct Hr as (s2 & c & Hok2 & ->). set (d2 := put_resp _ c d <| scpRecv_response_len := _ |>).
  assert (Hk2 : kept 256 ch d2).
  { destruct Hk as (H1 & H2 & H3). split; [by apply put_resp_ok|]. split; [done|simpl; lia]. }
  destruct (byte_at_in (scpRecv_response d2) 0) as [c0 Hc0].
  { destruct Hk2 as (-> & _). unfold LIBSSH2_SCP_RESPONSE_BUFLEN. lia. }
  x_step. eapply wp_recv_at; [done|]. x_step.
  { x_step. eapply wp_mono; [by apply Hrefused|]. intros e' x Hx. cbn beta. x_step. by x_step. }
  breflect. subst c0.
  assert (Hlast : byte_at (scpRecv_response d2) (scpRecv_response_len d2 - 1) = Some c).
  { simpl. rewrite Z.add_simpl_r. apply (put_byte_eq _ c d); [by apply Hk|unfold LIBSSH2_SCP_RESPONSE_BUFLEN; lia]. }
  x_step. eapply wp_mono; [apply line_done_ok; [done|simpl; lia|done..]|]. intros r e Hr. cbn beta.
  destruct r as [e'|[]].
  - x_step. by x_step.
  - destruct Hr as (-> & -> & Hlen). x_step.
    eapply wp_mono; [apply (Hparse (scpRecv_response_len d2))|].
    { destruct Hk2 as (H1 & H2 & H3). split; [done|done|unfold LIBSSH2_SCP_RESPONSE_BUFLEN; lia|by eauto|done]. }
    { by apply Hk2. }
    intros r e (s3 & d3 & -> & He & Hk3 & Hr). assert (Hok3 : ok None s3) by (by eapply ok_err).
    cbn beta. destruct Hr as [[-> Hst3] | -> ].
    + do 3 x_step. rewrite Hst3. unfold nb_is. rewrite bool_decide_eq_true_2 by done.
      destruct (byte_at_in (scpRecv_response d3) 0) as [b3 Hb3].
      { destruct Hk3 as (-> & _). unfold LIBSSH2_SCP_RESPONSE_BUFLEN. lia. }
      eapply recv_ack_ok; [done..|]. by apply bc_free.
    + x_step. x_step. exists s3, d3, None. split; [done|]. split; [by eapply kept_le; [|done]|done].
  - destruct Hr as [-> Hk255]. x_step. apply IH; [|simpl; lia].
    exists s2, d2. split; [done|]. split; [done|]. left. done.
Qed.
End Loop.
End Lines.

(** A loop and the state [next] behind it. *)
Definition step_post (ch : ptr) (ok : option (list Z) -> session -> Prop) (reading acking next : libssh2_nonblocking_states)
    (n : scp_next) (e : ext scp_data) : Prop :=
  match n with
  | Go => exists s d, e = mk_ext s d /\ kept 256 ch d /\ scpRecv_state d = next /\ ok None s
  | _ => line_post ch ok reading acking n e
  end.

Lemma wp_loop_then ch ok reading acking next m e :
  wp m (line_post ch ok reading acking) e ->
  wp (and_then m (set_recv_state next ;; ret Go)) (step_post ch ok reading acking next) e.
Proof.
  intros Hm. unfold and_then. apply wp_bind. eapply wp_mono; [exact Hm|]. intros n x Hx. cbn beta.
  destruct n; [|by apply wp_ret..]. destruct Hx as (s & d & o & -> & Hk & Hok & Hst & ->).
  unfold set_recv_state. do 3 x_step. by exists s, (d <| scpRecv_state := next |>).
Qed.

(** C26: no answer of a server makes [scp_recv] leave its response buffer or loop. While
    a line is read or its acknowledgement is sent, with any bytes from the channel in any
    pieces, and also when the channel ends, fails or would block, both loops of
    [scp_recv] return: with the line parsed, with an error, at the end of the channel,
    or suspended in a state from which the next call goes on. *)
Theorem scp_answers_safe transport_send transport_read ch rounds ok
    `{!ByteChannel transport_send transport_read ch rounds ok} fuel e (Hfuel : (rounds <= fuel)%nat) :
  (line_state ch ok libssh2_NB_state_sent2 libssh2_NB_state_sent3 e ->
   exists n e', recv_times transport_send transport_read fuel true e = Ret n e' /\
     step_post ch ok libssh2_NB_state_sent2 libssh2_NB_state_sent3 libssh2_NB_state_sent4 n e') /\
  (line_state ch ok libssh2_NB_state_sent5 libssh2_NB_state_sent6 e ->
   exists n e', recv_header transport_send transport_read fuel e = Ret n e' /\
     step_post ch ok libssh2_NB_state_sent5 libssh2_NB_state_sent6 libssh2_NB_state_sent7 n e').
Proof.
  split; intros (s & d & -> & Hl); apply wp_Ret; apply wp_loop_then.
  - eapply line_loop_ok; [done..| | |by exists s, d|].
    + intros. by eapply recv_refused_ok.
    + intros. by eapply parse_times_ok.
    + destruct Hl as ((_ & _ & ?) & _). change (Z.of_nat line_rounds) with 258. lia.
  - eapply line_loop_ok; [done..| | |by exists s, d|].
    + intros s0 d0 Hk Hok. unfold goto_error. do 3 x_step. exists s1, d0, None. split; [done|]. split; [done|].
      split; [by eapply ok_err|done].
    + intros. by eapply parse_header_ok.
    + destruct Hl as ((_ & _ & ?) & _). change (Z.of_nat line_rounds) with 258. lia.
Qed.

(** *** The channel of channel.c *)

Lemma packet_data_len_ok s c stream_id : forall ks,
  Forall (packet_ok (s_heap s)) ks ->
  wp (packet_data_len_loop c stream_id ks) (fun n s' => s' = s /\ 0 <= n) s.
Proof.
  induction ks as [|k ks IH]; intros Hks; simpl; [by apply wp_ret|].
  apply Forall_cons in Hks as [(d & Hd & Hlen & Hh & Hl) Hks]. wp_pure; [by apply IH|]. breflect.
  wp_pure. eapply wp_block; [done|]. wp_pure. destruct (ntohu32_in d 1) as [id Hid]; [lia|lia|].
  eapply wp_access; [done|]. wp_pure. unfold wp at 1. rewrite (stream_packet_spec s c d k) by done.
  wp_pure; [|by apply IH]. wp_pure. split; [done|]. apply u64_range.
Qed.

Lemma byte_channel_of transport_send transport_read ch rounds ok unread
    `{!ChannelOutput transport_send transport_read ch rounds ok unread} :
  (forall s, ok None s -> conn_ok s /\ is_Some (s_chans s !! ch)) ->
  ByteChannel transport_send transport_read ch rounds ok.
Proof.
  intros Hconn. split.
  - intros o s s' H1 H2. by destruct (in_own (ok := ok o) s s' H1 H2).
  - intros o s H. by eapply (in_heap (ok := ok o)).
  - intros o s H. by apply out_free.
  - intros o s q H. by apply (in_live (ok := ok o)).
  - intros fuel n s Hok Hf Hn. eapply wp_mono; [by apply (in_read (ok := ok None))|].
    intros r s' (H1 & H2 & H3). split; [done|]. split; [done|]. destruct H3 as [[H3 _]|(H3 & _ & H4 & H5 & _)]; by auto.
  - intros s Hok. destruct (Hconn s Hok) as [Hc [c Hch]]. unfold channel_packet_data_len.
    wp_pure. eapply wp_chan; [done|]. do 2 wp_pure. apply packet_data_len_ok. apply Hc.
  - intros fuel b s Hok Hf. eapply wp_mono; [by apply out_write|]. by intros rc s' (_ & _ & _ & H).
Qed.

#[global] Instance example_channel :
  ByteChannel send_ok (ret LIBSSH2_ERROR_EAGAIN) 1%positive 1
    (fun o => channel_open 1%positive (out_ident 0 LIBSSH2_CHANNEL_EXTENDED_DATA_NORMAL o)).
Proof.
  apply (byte_channel_of _ _ _ _ _ (channel_unread 0 LIBSSH2_CHANNEL_EXTENDED_DATA_NORMAL)).
  intros s (H1 & _ & c & H2 & _). by eauto.
Qed.

(** The bytes of [framed_session] are no header line. *)
Lemma scp_answers_safe_witness :
  exists n e', recv_header send_ok (ret LIBSSH2_ERROR_EAGAIN) 1
      (mk_ext framed_session (scp_data_0 <| scpRecv_state := libssh2_NB_state_sent5 |>
                                         <| scpRecv_channel := Some 1%positive |>)) = Ret n e' /\ n = ScpError.
Proof.
  destruct (scp_answers_safe send_ok (ret LIBSSH2_ERROR_EAGAIN) 1%positive 1
    (fun o => channel_open 1%positive (out_ident 0 LIBSSH2_CHANNEL_EXTENDED_DATA_NORMAL o)) 1
    (mk_ext framed_session (scp_data_0 <| scpRecv_state := libssh2_NB_state_sent5 |>
                                         <| scpRecv_channel := Some 1%positive |>)) ltac:(lia)) as [_ H].
  destruct H as (n & e' & E & _).
  - do 2 eexists. split; [done|]. split; [by vm_compute|]. left. split; [done|]. apply written_good.
  - exists n, e'. split; [done|]. vm_compute in E. by simplify_eq.
Defined.

(** ** The lines of [scp_send] are read by [scp_recv] *)

Section Trip.
Context (s : session).

Lemma wp_field_at a t r from bad next (Q : scp_next -> ext scp_data -> Prop) d :
  scpRecv_response d = a ++ t ++ 32 :: r -> from = lenZ a -> t <> [] -> Forall (fun b => b <> 32) t -> no_nul t ->
  wp (next (from + lenZ t)) Q (mk_ext s d) -> wp (recv_field from bad next) Q (mk_ext s d).
Proof.
  intros Hr Hf Ht H32 Hn HQ. unfold recv_field, recv_chr. do 3 x_step. eapply wp_access; [by rewrite Hr, strchr_app|]. cbn beta iota.
  destruct t as [|c t]; [done|]. rewrite lenZ_cons in *. pose proof (lenZ_nonneg t).
  rewrite (proj2 (Z.leb_gt (from + (1 + lenZ t) - from) 0)) by lia. done.
Qed.

Lemma wp_put_at a b r i c (Q : unit -> ext scp_data -> Prop) d :
  scpRecv_response d = a ++ b :: r -> i = lenZ a ->
  Q tt (mk_ext s (d <| scpRecv_response := a ++ c :: r |>)) -> wp (recv_put i c) Q (mk_ext s d).
Proof.
  intros Hr -> HQ. unfold recv_put. x_step. eapply wp_recv_at; [by rewrite Hr, byte_at_head|]. x_step.
  assert (E : d <| scpRecv_response ::= <[Z.to_nat (lenZ a) := c]> |> = d <| scpRecv_response := a ++ c :: r |>).
  { simpl. rewrite Hr. unfold lenZ. by rewrite Nat2Z.id, insert_app_r_alt, Nat.sub_diag. }
  by rewrite E.
Qed.

Lemma wp_tol_at i base v e (Q : Z * Z -> ext scp_data -> Prop) d :
  strtol (scpRecv_response d) i base = Some (v, e) -> Q (v, e) (mk_ext s d) -> wp (recv_tol i base) Q (mk_ext s d).
Proof. intros Hr HQ. unfold recv_tol. do 2 x_step. by eapply wp_access. Qed.

Lemma wp_tol_decimal pre n c rest i (Q : Z * Z -> ext scp_data -> Prop) d :
  scpRecv_response d = pre ++ decimal n ++ c :: rest -> i = lenZ pre -> 0 <= n <= LONG_MAX -> is_digit 10 c = false ->
  Q (n, i + lenZ (decimal n)) (mk_ext s d) -> wp (recv_tol i 10) Q (mk_ext s d).
Proof. intros Hr Hi Hn Hc. apply wp_tol_at. rewrite Hr. by apply strtol_decimal. Qed.

Lemma wp_tol_octal pre n c rest i (Q : Z * Z -> ext scp_data -> Prop) d :
  scpRecv_response d = pre ++ 48 :: octal n ++ c :: rest -> i = lenZ pre -> 0 <= n < 2 ^ 32 -> is_digit 8 c = false ->
  Q (n, i + 1 + lenZ (octal n)) (mk_ext s d) -> wp (recv_tol i 8) Q (mk_ext s d).
Proof. intros Hr Hi Hn Hc. apply wp_tol_at. rewrite Hr. by apply strtol_octal. Qed.

Lemma wp_trim_line p c r (Q : Z -> ext scp_data -> Prop) d :
  scpRecv_response d = p ++ c :: 10 :: r -> is_eol c = false -> scpRecv_response_len d = lenZ p + 2 ->
  Q (lenZ p + 1) (mk_ext s (d <| scpRecv_response_len := lenZ p + 1 |> <| scpRecv_response := p ++ c :: 0 :: r |>)) ->
  wp recv_trim Q (mk_ext s d).
Proof.
  intros Hr Hc Hl HQ. unfold recv_trim. do 4 x_step. rewrite Hl, Hr.
  assert (Htrim : trim_eol (p ++ c :: 10 :: r) (Z.to_nat (lenZ p + 2)) = Some (S (length p))).
  { replace (Z.to_nat (lenZ p + 2)) with (S (S (length p))) by (unfold lenZ; lia). simpl.
    assert ((p ++ c :: 10 :: r) !! S (length p) = Some 10) as ->.
    { replace (S (length p)) with (length p + 1)%nat by lia. by rewrite lookup_app_r, Nat.add_comm, Nat.add_sub by lia. }
    simpl. rewrite (list_lookup_middle p (10 :: r) c) by done. simpl. fold (is_eol c). by rewrite Hc. }
  x_step. eapply wp_access; [done|]. do 2 x_step. replace (Z.of_nat (S (length p))) with (lenZ p + 1) by (unfold lenZ; lia).
  x_step. eapply (wp_put_at (p ++ [c]) 10 r); [simpl; by rewrite Hr, <- app_assoc|by rewrite lenZ_app|].
  x_step. by rewrite <- app_assoc.
Qed.

Lemma digit_fields t : Forall (fun c => 48 <= c <= 57) t -> Forall (fun b => b <> 32) t /\ no_nul t.
Proof. intros H. split; (eapply Forall_impl; [exact H|]; simpl; lia). Qed.

Lemma decimal_nonempty n : decimal n <> [].
Proof. unfold decimal. destruct (n <? 0); [done|apply digits_nonempty]. Qed.

Ltac lens := cbn [fst snd]; repeat first [rewrite lenZ_app | rewrite lenZ_cons]; try change (@lenZ Z []) with 0; lia.

(** Equal lists in different bracketings. *)
Ltac list_shape := cbn; repeat (rewrite <- app_assoc; cbn); reflexivity.

Lemma parse_times_line mtime atime rest d :
  0 <= mtime <= LONG_MAX -> 0 <= atime <= LONG_MAX ->
  scpRecv_response d = times_line mtime atime ++ rest -> scpRecv_response_len d = lenZ (times_line mtime atime) ->
  wp parse_times (fun n e => n = Go /\ exists d', e = mk_ext s d' /\ scpRecv_mtime d' = mtime /\ scpRecv_atime d' = atime)
    (mk_ext s d).
Proof.
  intros Hm Ha Hr Hl. unfold LONG_MAX in *.
  destruct (digit_fields (decimal mtime)) as [Hm1 Hm2]; [apply decimal_chars; lia|].
  destruct (digit_fields (decimal atime)) as [Ha1 Ha2]; [apply decimal_chars; lia|].
  pose proof (decimal_nonempty mtime) as Hm3. pose proof (decimal_nonempty atime) as Ha3.
  set (p := [84] ++ decimal mtime ++ [32; 48; 32] ++ decimal atime ++ [32]).
  assert (Hp : times_line mtime atime = p ++ [48; 10]).
  { unfold times_line, p. list_shape. }
  rewrite Hp, lenZ_app in Hl. rewrite Hp, <- app_assoc in Hr. change ([48; 10] ++ rest) with (48 :: 10 :: rest) in Hr.
  unfold parse_times. x_step. eapply wp_trim_line; [exact Hr|done|exact Hl|].
  assert (Hlen : 8 <= lenZ p + 1).
  { unfold p. destruct (decimal mtime), (decimal atime); try done.
    pose proof (lenZ_nonneg l). pose proof (lenZ_nonneg l0). lens. }
  rewrite (proj2 (Z.ltb_ge (lenZ p + 1) 8)) by lia.
  set (tl := 48 :: 0 :: rest).
  eapply (wp_field_at [84] (decimal mtime) ([48; 32] ++ decimal atime ++ 32 :: tl)); [list_shape|done..|].
  x_step. eapply (wp_put_at ([84] ++ decimal mtime) 32 ([48; 32] ++ decimal atime ++ 32 :: tl));
    [list_shape|lens|].
  x_step. eapply (wp_tol_decimal [84]); [list_shape|done..|]. do 2 x_step.
  eapply (wp_field_at ([84] ++ decimal mtime ++ [0]) [48] (decimal atime ++ 32 :: tl));
    [list_shape|lens|done|by repeat constructor..|].
  eapply (wp_field_at ([84] ++ decimal mtime ++ [0; 48; 32]) (decimal atime) tl);
    [list_shape|lens|done..|].
  x_step. eapply (wp_put_at ([84] ++ decimal mtime ++ [0; 48; 32] ++ decimal atime) 32 tl);
    [list_shape|lens|].
  x_step. eapply (wp_tol_decimal ([84] ++ decimal mtime ++ [0; 48; 32]) atime 0 tl); [list_shape|lens|done..|].
  do 2 x_step. x_step. eapply (wp_put_at [] 84); [done|done|]. x_step. unfold set_recv_state. x_step. x_step.
  split; [done|]. eexists. split; [done|done].
Qed.

Lemma octal_ok n : 0 <= n < 2 ^ 32 -> Forall (fun c => 48 <= c <= 57) (octal n) /\ octal n <> [].
Proof.
  intros Hn. unfold octal. rewrite u32_small by lia. split; [|apply digits_nonempty].
  destruct (digits_ok 64 8 n) as [Hd _]; [lia|lia|]. eapply Forall_impl; [done|]. simpl. unfold is_digit. lia.
Qed.

Lemma parse_header_line mode size b c rest d :
  0 <= mode < 2 ^ 32 -> 0 <= size <= LONG_MAX -> is_eol c = false ->
  scpRecv_response d = header_line mode size (b ++ [c]) ++ rest ->
  scpRecv_response_len d = lenZ (header_line mode size (b ++ [c])) ->
  wp parse_header (fun n e => n = Go /\ exists d', e = mk_ext s d' /\ scpRecv_mode d' = mode /\ scpRecv_size d' = size)
    (mk_ext s d).
Proof.
  intros Hm Hz Hc Hr Hl. unfold LONG_MAX in *. destruct (octal_ok mode Hm) as [Hm0 Hm3].
  destruct (digit_fields (octal mode) Hm0) as [Hm1 Hm2].
  destruct (digit_fields (decimal size)) as [Hz1 Hz2]; [apply decimal_chars; lia|].
  pose proof (decimal_nonempty size) as Hz3.
  set (p := [67; 48] ++ octal mode ++ [32] ++ decimal size ++ [32] ++ b).
  assert (Hp : header_line mode size (b ++ [c]) = p ++ [c; 10]).
  { unfold header_line, p. list_shape. }
  rewrite Hp, lenZ_app in Hl. rewrite Hp, <- app_assoc in Hr. change ([c; 10] ++ rest) with (c :: 10 :: rest) in Hr.
  unfold parse_header. x_step. eapply wp_trim_line; [exact Hr|done|exact Hl|].
  assert (Hlen : 6 <= lenZ p + 1).
  { unfold p. destruct (octal mode), (decimal size); try done.
    pose proof (lenZ_nonneg l). pose proof (lenZ_nonneg l0). pose proof (lenZ_nonneg b). lens. }
  rewrite (proj2 (Z.ltb_ge (lenZ p + 1) 6)) by lia.
  set (tl := b ++ c :: 0 :: rest).
  eapply (wp_field_at [67] (48 :: octal mode) (decimal size ++ 32 :: tl)); [list_shape|done|done|by constructor..|].
  x_step. eapply (wp_put_at ([67; 48] ++ octal mode) 32 (decimal size ++ 32 :: tl)); [list_shape|lens|].
  x_step. eapply (wp_tol_octal [67] mode 0); [list_shape|done..|]. do 3 x_step.
  eapply wp_recv_at; [eapply (byte_at_head ([67; 48] ++ octal mode)); lens|]. change (negb (0 =? 0)) with false. cbn beta iota.
  eapply (wp_field_at ([67; 48] ++ octal mode ++ [0]) (decimal size) tl); [list_shape|lens|done..|].
  x_step. eapply (wp_put_at ([67; 48] ++ octal mode ++ [0] ++ decimal size) 32 tl); [list_shape|lens|].
  x_step. eapply (wp_tol_decimal ([67; 48] ++ octal mode ++ [0]) size 0 tl); [list_shape|lens|done..|]. do 3 x_step.
  eapply wp_recv_at; [eapply (byte_at_head ([67; 48] ++ octal mode ++ [0] ++ decimal size)); lens|]. change (negb (0 =? 0)) with false. cbn beta iota.
  x_step. eapply (wp_put_at [] 67); [done|done|]. x_step. unfold set_recv_state. x_step. x_step.
  split; [done|]. eexists. split; [done|done].
Qed.
End Trip.

(** C27: the header lines agree. When the response buffer of [scp_recv] holds a line as
    [scp_send] writes it, the times, or the mode and the size of a file, with any name
    that does not end like a line, come out as they were sent. *)
Theorem scp_lines_roundtrip s d mtime atime mode size b c rest
    (Ht : 0 <= mtime <= LONG_MAX /\ 0 <= atime <= LONG_MAX)
    (Hh : 0 <= mode < 2 ^ 32 /\ 0 <= size <= LONG_MAX /\ is_eol c = false) :
  (scpRecv_response d = times_line mtime atime ++ rest -> scpRecv_response_len d = lenZ (times_line mtime atime) ->
   exists d', parse_times (mk_ext s d) = Ret Go (mk_ext s d') /\ scpRecv_mtime d' = mtime /\ scpRecv_atime d' = atime) /\
  (scpRecv_response d = header_line mode size (b ++ [c]) ++ rest ->
   scpRecv_response_len d = lenZ (header_line mode size (b ++ [c])) ->
   exists d', parse_header (mk_ext s d) = Ret Go (mk_ext s d') /\ scpRecv_mode d' = mode /\ scpRecv_size d' = size).
Proof.
  destruct Ht as [Hm Ha], Hh as (Hmode & Hsize & Hc). split; intros Hr Hl.
  - pose proof (parse_times_line s _ _ _ _ Hm Ha Hr Hl) as H. apply wp_Ret in H as (n & e & E & -> & d' & -> & H). by exists d'.
  - pose proof (parse_header_line s _ _ _ _ _ _ Hmode Hsize Hc Hr Hl) as H.
    apply wp_Ret in H as (n & e & E & -> & d' & -> & H). by exists d'.
Qed.

Definition line_data (l : list Z) : scp_data :=
  scp_data_0 <| scpRecv_response := l ++ replicate (256 - length l) 0 |> <| scpRecv_response_len := lenZ l |>.

Lemma scp_lines_roundtrip_witness :
  exists d', parse_header (mk_ext session_0 (line_data (header_line 420 12345 (str "a.txt")))) =
    Ret Go (mk_ext session_0 d') /\ scpRecv_mode d' = 420 /\ scpRecv_size d' = 12345.
Proof.
  apply (scp_lines_roundtrip session_0 (line_data (header_line 420 12345 (str "a.txt"))) 0 0 420 12345 (str "a.tx") 116
    (replicate (256 - length (header_line 420 12345 (str "a.txt"))) 0));
    [by vm_compute|by vm_compute|by vm_compute|by vm_compute].
Defined.

(** A file name of 300 characters: [snprintf] stores 255 bytes of the header line and
    returns the full length, and [scp_send] sends that many bytes, from behind the end
    of its response buffer. *)
Theorem scp_send_overread :
  scp_send send_ok (ret LIBSSH2_ERROR_EAGAIN) 9 (replicate 300 97 ++ [0]) 420 5 0 0
    (mk_ext framed_session (scp_data_0 <| scpSend_state := libssh2_NB_state_sent4 |>
                                       <| scpSend_channel := Some 1%positive |>)) = Fault.
Proof. by vm_compute. Qed.

(** With a name that fits the line is sent. *)
Example scp_send_fits :
  match scp_send send_ok (ret LIBSSH2_ERROR_EAGAIN) 9 (replicate 200 97 ++ [0]) 420 5 0 0
    (mk_ext framed_session (scp_data_0 <| scpSend_state := libssh2_NB_state_sent4 |>
                                       <| scpSend_channel := Some 1%positive |>)) with
  | Ret r e => scpSend_response_len (x_data e) = 209
  | _ => False
  end.
Proof. by vm_compute. Qed.
