(* ===== verification/Knownhost.v ===== *)
(** * Known hosts (knownhost.c)

    A collection of host keys: entries are added, looked up, parsed from and printed as
    lines of an OpenSSH file. A node is a pointer into a store, since the application
    holds pointers to nodes ([struct libssh2_knownhost] is a field of the node); the
    strings of an entry are blocks that only the entry points to, given by their bytes.
    A [const char *] argument is the memory from the pointer on. *)

From stdpp Require Import base numbers list gmap strings.
From S2P Require Import Prelude Codes CString KexMethods Wire Base64 Session ChannelWindow Packet Conn Comp Numerals Ext.

Definition LIBSSH2_KNOWNHOST_TYPE_MASK : Z := 65535.
Definition LIBSSH2_KNOWNHOST_TYPE_PLAIN : Z := 1.
Definition LIBSSH2_KNOWNHOST_TYPE_SHA1 : Z := 2.
Definition LIBSSH2_KNOWNHOST_TYPE_CUSTOM : Z := 3.
Definition LIBSSH2_KNOWNHOST_KEYENC_BASE64 : Z := Z.shiftl 2 16.
Definition LIBSSH2_KNOWNHOST_KEY_MASK : Z := Z.shiftl 15 18.
Definition LIBSSH2_KNOWNHOST_KEY_RSA1 : Z := Z.shiftl 1 18.
Definition LIBSSH2_KNOWNHOST_KEY_SSHRSA : Z := Z.shiftl 2 18.
Definition LIBSSH2_KNOWNHOST_KEY_SSHDSS : Z := Z.shiftl 3 18.
Definition LIBSSH2_KNOWNHOST_KEY_ECDSA_256 : Z := Z.shiftl 4 18.
Definition LIBSSH2_KNOWNHOST_KEY_ECDSA_384 : Z := Z.shiftl 5 18.
Definition LIBSSH2_KNOWNHOST_KEY_ECDSA_521 : Z := Z.shiftl 6 18.
Definition LIBSSH2_KNOWNHOST_KEY_ED25519 : Z := Z.shiftl 7 18.
Definition LIBSSH2_KNOWNHOST_KEY_UNKNOWN : Z := Z.shiftl 15 18.
Definition LIBSSH2_KNOWNHOST_CHECK_MATCH : Z := 0.
Definition LIBSSH2_KNOWNHOST_CHECK_MISMATCH : Z := 1.
Definition LIBSSH2_KNOWNHOST_CHECK_NOTFOUND : Z := 2.
Definition LIBSSH2_KNOWNHOST_CHECK_FAILURE : Z := 3.
Definition LIBSSH2_KNOWNHOST_FILE_OPENSSH : Z := 1.
Definition KNOWNHOST_MAGIC : Z := 3735931646.

(** [struct libssh2_knownhost]. *)
Record libssh2_knownhost := mk_external {
  magic : Z;
  ext_node : option ptr;
  ext_name : option (list Z);
  ext_key : option (list Z);
  ext_typemask : Z
}.
Definition external_0 : libssh2_knownhost := mk_external 0 None None None 0.

Record known_host := mk_known_host {
  kh_name : option (list Z);
  kh_name_len : Z;
  kh_port : Z;
  kh_typemask : Z;
  kh_salt : option (list Z);
  kh_salt_len : Z;
  kh_key : option (list Z);
  kh_key_type_name : option (list Z);
  kh_key_type_len : Z;
  kh_comment : option (list Z);
  kh_comment_len : Z;
  kh_external : libssh2_knownhost
}.
#[global] Instance eta_known_host : Eta known_host := fun n =>
  mk_known_host (kh_name n) (kh_name_len n) (kh_port n) (kh_typemask n) (kh_salt n) (kh_salt_len n)
    (kh_key n) (kh_key_type_name n) (kh_key_type_len n) (kh_comment n) (kh_comment_len n) (kh_external n).
Definition known_host_0 : known_host := mk_known_host None 0 0 0 None 0 None None 0 None 0 external_0.

(** [struct _LIBSSH2_KNOWNHOSTS]: the list and the nodes. *)
Record knownhosts := mk_knownhosts {
  knh_head : list ptr;
  knh_nodes : gmap ptr known_host;
  knh_next : ptr
}.
#[global] Instance eta_knownhosts : Eta knownhosts := fun h =>
  mk_knownhosts (knh_head h) (knh_nodes h) (knh_next h).
Definition knownhosts_0 : knownhosts := mk_knownhosts [] ∅ 1%positive.

Definition has (mask flag : Z) : bool := negb (Z.land mask flag =? 0).
Definition host_type (mask : Z) : Z := Z.land mask LIBSSH2_KNOWNHOST_TYPE_MASK.
Definition key_type_of (mask : Z) : Z := Z.land mask LIBSSH2_KNOWNHOST_KEY_MASK.

(** [strcmp(a, b) == 0]. *)
Fixpoint strcmp_eq (a b : list Z) : option bool :=
  match a, b with
  | x :: a, y :: b => if negb (x =? y) then Some false else if x =? 0 then Some true else strcmp_eq a b
  | _, _ => None
  end.

Abbreviation KM := (XM knownhosts).

(** ** Memory *)

Definition kalloc : KM bool := xlift alloc_outcome.
Definition fresh_block (ok : bool) (n : Z) : option (list Z) :=
  if ok then Some (replicate (Z.to_nat n) 0) else None.

(** [libssh2_base64_decode] of a string. *)
Definition decode64 (src : list Z) : KM (Z + list Z) :=
  let! ok := kalloc in
  let! r := access (base64_decode (fresh_block ok) src) in
  match r.2 with
  | Some d => ret (inr d)
  | None =>
      let! rc := (if r.1 =? LIBSSH2_ERROR_ALLOC
                  then xerror LIBSSH2_ERROR_ALLOC "Unable to allocate memory for base64 decoding"
                  else xerror LIBSSH2_ERROR_INVAL "Invalid base64") in
      ret (inl rc)
  end.

(** [_libssh2_base64_encode]: the terminated text, or the return value 0. *)
Definition encode64 (inp : list Z) (insize : Z) : KM (option (list Z)) :=
  let! ok := kalloc in
  let! r := access (base64_encode (fresh_block ok) inp insize) in
  ret (if r.1 =? 0 then None else r.2).

Definition node (p : ptr) : KM known_host := let! h := xget knh_nodes in access (h !! p).

(** [free_host]. *)
Definition free_host (p : ptr) : KM unit :=
  let! _ := node p in xset (fun h => h <| knh_nodes ::= delete p |>).

Definition knownhost_to_external (p : ptr) : KM ptr :=
  let! n := node p in
  let e := mk_external KNOWNHOST_MAGIC (Some p)
             (if host_type (kh_typemask n) =? LIBSSH2_KNOWNHOST_TYPE_PLAIN then kh_name n else None)
             (kh_key n) (kh_typemask n) in
  xset (fun h => h <| knh_nodes ::= <[p := n <| kh_external := e |>]> |>) ;; ret p.

(** ** Adding *)

Section Add.
Context (host : list Z) (salt key_type_name : option (list Z)) (key_type_len : Z).
Context (key : list Z) (keylen : Z) (comment : option (list Z)) (commentlen typemask : Z).

(** Either part of the entry, or the value [knownhost_add] fails with. *)
Definition add_failed (code : Z) (msg : string) : KM (Z + known_host) :=
  let! rc := xerror code msg in ret (inl rc).

Definition add_name (hostlen : Z) (e : known_host) : KM (Z + known_host) :=
  let type := host_type (kh_typemask e) in
  if (type =? LIBSSH2_KNOWNHOST_TYPE_PLAIN) || (type =? LIBSSH2_KNOWNHOST_TYPE_CUSTOM) then
    let! ok := kalloc in
    if negb ok then add_failed LIBSSH2_ERROR_ALLOC "Unable to allocate memory for host name"
    else
      let! d := access (bytes_at host 0 (hostlen + 1)) in
      ret (inr (e <| kh_name := Some d |> <| kh_name_len := hostlen |>))
  else if type =? LIBSSH2_KNOWNHOST_TYPE_SHA1 then
    let! src := access (bytes_at host 0 hostlen) in
    let! r := decode64 src in
    match r with
    | inl rc => ret (inl rc)
    | inr d =>
        let e := e <| kh_name := Some d |> <| kh_name_len := lenZ d |> in
        let! s := access salt in
        let! src := access (c_string s) in
        let! r := decode64 src in
        match r with
        | inl rc => ret (inl rc)
        | inr d => ret (inr (e <| kh_salt := Some d |> <| kh_salt_len := lenZ d |>))
        end
    end
  else add_failed LIBSSH2_ERROR_METHOD_NOT_SUPPORTED "Unknown host name type".

Definition add_key (e : known_host) : KM (Z + known_host) :=
  if has typemask LIBSSH2_KNOWNHOST_KEYENC_BASE64 then
    let! len := (if keylen =? 0 then access (strlen key 0) else ret keylen) in
    let! ok := kalloc in
    if negb ok then add_failed LIBSSH2_ERROR_ALLOC "Unable to allocate memory for key"
    else
      let! d := access (bytes_at key 0 (len + 1)) in
      ret (inr (e <| kh_key := Some (take (Z.to_nat len) d ++ [0]) |>))
  else
    let! r := encode64 key keylen in
    match r with
    | None => add_failed LIBSSH2_ERROR_ALLOC "Unable to allocate memory for base64-encoded key"
    | Some t => ret (inr (e <| kh_key := Some (t ++ [0]) |>))
    end.

Definition add_key_type (e : known_host) : KM (Z + known_host) :=
  match key_type_name with
  | Some name =>
      if key_type_of typemask =? LIBSSH2_KNOWNHOST_KEY_UNKNOWN then
        let! ok := kalloc in
        if negb ok then add_failed LIBSSH2_ERROR_ALLOC "Unable to allocate memory for key type"
        else
          let! d := access (bytes_at name 0 key_type_len) in
          ret (inr (e <| kh_key_type_name := Some (d ++ [0]) |> <| kh_key_type_len := key_type_len |>))
      else ret (inr e)
  | None => ret (inr e)
  end.

Definition add_comment (e : known_host) : KM (Z + known_host) :=
  match comment with
  | Some c =>
      let! ok := kalloc in
      if negb ok then add_failed LIBSSH2_ERROR_ALLOC "Unable to allocate memory for comment"
      else
        let! d := access (bytes_at c 0 (commentlen + 1)) in
        ret (inr (e <| kh_comment := Some (take (Z.to_nat commentlen) d ++ [0]) |> <| kh_comment_len := commentlen |>))
  | None => ret (inr (e <| kh_comment := None |>))
  end.

Definition then_entry (m : KM (Z + known_host)) (k : known_host -> KM (Z + known_host)) : KM (Z + known_host) :=
  let! r := m in match r with inl rc => ret (inl rc) | inr e => k e end.

(** The return value and, with [store], the pointer to the new entry. *)
Definition knownhost_add (store : bool) : KM (Z * option ptr) :=
  let! hostlen := access (strlen host 0) in
  if key_type_of typemask =? 0 then
    let! rc := xerror LIBSSH2_ERROR_INVAL "No key type set" in ret (rc, None)
  else
    let! ok := kalloc in
    if negb ok then
      let! rc := xerror LIBSSH2_ERROR_ALLOC "Unable to allocate memory for known host entry" in ret (rc, None)
    else
      let! p := xget knh_next in
      let e := known_host_0 <| kh_typemask := typemask |> in
      xset (fun h => h <| knh_nodes ::= <[p := e]> |> <| knh_next := Pos.succ p |>) ;;
      let! r := then_entry (then_entry (then_entry (add_name hostlen e) add_key) add_key_type) add_comment in
      match r with
      | inl rc => free_host p ;; ret (rc, None)
      | inr e =>
          xset (fun h => h <| knh_nodes ::= <[p := e]> |> <| knh_head ::= fun l => l ++ [p] |>) ;;
          if store then let! x := knownhost_to_external p in ret (0, Some x) else ret (0, None)
      end.
End Add.

Definition libssh2_knownhost_add (host : list Z) (salt : option (list Z)) (key : list Z) (keylen typemask : Z) (store : bool) :=
  knownhost_add host salt None 0 key keylen None 0 typemask store.
Definition libssh2_knownhost_addc (host : list Z) (salt : option (list Z)) (key : list Z) (keylen : Z)
    (comment : option (list Z)) (commentlen typemask : Z) (store : bool) :=
  knownhost_add host salt None 0 key keylen comment commentlen typemask store.

(** [libssh2_knownhost_init]: the new collection; the session is changed. *)
Definition libssh2_knownhost_init : CM (option knownhosts) :=
  let! ok := alloc_outcome in
  if ok then ret (Some knownhosts_0)
  else error LIBSSH2_ERROR_ALLOC "Unable to allocate memory for known-hosts collection" ;; ret None.

(** ** Checking *)

Section Check.
Context (hmac_sha1 : list Z -> list Z -> list Z).

Section CheckNodes.
Context (type : Z) (key : list Z) (typemask : Z).

(** The [switch] over the type of the entry: the new value of [match]. *)
Definition host_match (host : list Z) (n : known_host) (m : bool) : option bool :=
  let t := host_type (kh_typemask n) in
  if (t =? LIBSSH2_KNOWNHOST_TYPE_PLAIN) || (t =? LIBSSH2_KNOWNHOST_TYPE_CUSTOM) then
    if type =? t then name ← kh_name n; strcmp_eq host name else Some m
  else if t =? LIBSSH2_KNOWNHOST_TYPE_SHA1 then
    if type =? LIBSSH2_KNOWNHOST_TYPE_PLAIN then
      if negb (SHA_DIGEST_LENGTH =? kh_name_len n) then Some m
      else
        s ← kh_salt n; salt ← bytes_at s 0 (kh_salt_len n);
        h ← c_string host;
        name ← kh_name n; stored ← bytes_at name 0 SHA_DIGEST_LENGTH;
        hash ← bytes_at (hmac_sha1 salt h) 0 SHA_DIGEST_LENGTH;
        Some (if bool_decide (hash = stored) then true else m)
    else Some m
  else Some m.

(** The types of the keys allow a match. *)
Definition key_type_match (n : known_host) : bool :=
  let host_key_type := key_type_of typemask in
  negb (host_key_type =? LIBSSH2_KNOWNHOST_KEY_UNKNOWN) &&
  ((host_key_type =? 0) || (host_key_type =? key_type_of (kh_typemask n))).

(** One pass over the list: [match], the first entry with another key, and the entry
    that matches. *)
Fixpoint check_nodes (host : list Z) (ps : list ptr) (m : bool) (badkey : option ptr) :
    KM (bool * option ptr * option ptr) :=
  match ps with
  | [] => ret (m, badkey, None)
  | p :: ps =>
      let! n := node p in
      let! m := access (host_match host n m) in
      if m then
        if key_type_match n then
          let! k := access (kh_key n) in
          let! eq := access (strcmp_eq key k) in
          if eq then ret (true, None, Some p)
          else check_nodes host ps false (match badkey with Some b => Some b | None => Some p end)
        else check_nodes host ps false badkey
      else check_nodes host ps m badkey
  end.

(** [do ... while(!match && --numcheck)]. *)
Fixpoint check_loop (numcheck : nat) (host hostp : list Z) (badkey : option ptr) : KM (option ptr * option ptr) :=
  match numcheck with
  | O => ret (badkey, None)
  | S n =>
      let! ps := xget knh_head in
      let! r := check_nodes host ps false badkey in
      let '(m, bad, found) := r in
      if m then ret (bad, found)
      else match n with O => ret (bad, found) | S _ => check_loop n hostp hostp bad end
  end.
End CheckNodes.

Definition failure (code : Z) (msg : string) : KM (Z * option ptr) :=
  xerror code msg ;; ret (LIBSSH2_KNOWNHOST_CHECK_FAILURE, None).

(** What [ext], when it is given, is set to. *)
Definition set_ext (want_ext : bool) (p : ptr) : KM (option ptr) :=
  if want_ext then let! x := knownhost_to_external p in ret (Some x) else ret None.

(** The code behind the loop: [badkey], and the entry that matched. *)
Definition check_result (want_ext : bool) (r : option ptr * option ptr) : KM (Z * option ptr) :=
  match r.1, r.2 with
  | Some p, _ => let! x := set_ext want_ext p in ret (LIBSSH2_KNOWNHOST_CHECK_MISMATCH, x)
  | None, Some p => let! x := set_ext want_ext p in ret (LIBSSH2_KNOWNHOST_CHECK_MATCH, x)
  | None, None => ret (LIBSSH2_KNOWNHOST_CHECK_NOTFOUND, None)
  end.

(** The key is converted when it is raw, then the loop runs. *)
Definition check_names (host : list Z) (numcheck : nat) (hostp key : list Z) (keylen typemask : Z) (want_ext : bool) :
    KM (Z * option ptr) :=
  let! k := (if has typemask LIBSSH2_KNOWNHOST_KEYENC_BASE64 then ret (Some key)
             else let! t := encode64 key keylen in ret (option_map (fun t => t ++ [0]) t)) in
  match k with
  | None => failure LIBSSH2_ERROR_ALLOC "Unable to allocate memory for base64-encoded key"
  | Some key =>
      let! r := check_loop (host_type typemask) key typemask numcheck host hostp None in
      check_result want_ext r
  end.

Definition knownhost_check (hostp : list Z) (port : Z) (key : list Z) (keylen typemask : Z) (want_ext : bool) :
    KM (Z * option ptr) :=
  if host_type typemask =? LIBSSH2_KNOWNHOST_TYPE_SHA1 then ret (LIBSSH2_KNOWNHOST_CHECK_MISMATCH, None)
  else if 0 <=? port then
    let! t := access (c_string hostp) in
    let! r := access (snprintf (replicate 270 0) 270 (str "[" ++ t ++ str "]:" ++ decimal port)) in
    if 270 <=? r.1 then failure LIBSSH2_ERROR_BUFFER_TOO_SMALL "Known-host write buffer too small"
    else check_names r.2 2 hostp key keylen typemask want_ext
  else check_names hostp 1 hostp key keylen typemask want_ext.

Definition libssh2_knownhost_check (hostp key : list Z) (keylen typemask : Z) (want_ext : bool) :=
  knownhost_check hostp (-1) key keylen typemask want_ext.
Definition libssh2_knownhost_checkp (hostp : list Z) (port : Z) (key : list Z) (keylen typemask : Z) (want_ext : bool) :=
  knownhost_check hostp port key keylen typemask want_ext.
End Check.

(** ** Removing and traversing *)

Definition libssh2_knownhost_del (entry : option ptr) : KM Z :=
  let invalid := xerror LIBSSH2_ERROR_INVAL "Invalid host information" in
  match entry with
  | None => invalid
  | Some e =>
      let! n := node e in
      if negb (magic (kh_external n) =? KNOWNHOST_MAGIC) then invalid
      else
        let! p := access (ext_node (kh_external n)) in
        xset (fun h => h <| knh_head ::= filter (fun q => q <> p) |>) ;;
        free_host p ;; ret 0
  end.

Fixpoint free_hosts (ps : list ptr) : KM unit :=
  match ps with [] => ret tt | p :: ps => free_host p ;; free_hosts ps end.

Definition libssh2_knownhost_free : KM unit :=
  let! ps := xget knh_head in free_hosts ps ;; xset (fun _ => knownhosts_0).

(** The node after [p]. *)
Fixpoint list_next (p : ptr) (ps : list ptr) : option (option ptr) :=
  match ps with
  | [] => None
  | q :: ps => if decide (p = q) then Some (head ps) else list_next p ps
  end.

Definition libssh2_knownhost_get (oprev : option ptr) : KM (Z * option ptr) :=
  let! ps := xget knh_head in
  let! next := (match oprev with
                | Some o =>
                    let! n := node o in
                    match ext_node (kh_external n) with
                    | Some prev => let! _ := node prev in access (list_next prev ps)
                    | None => ret (head ps)
                    end
                | None => ret (head ps)
                end) in
  match next with
  | None => ret (1, None)
  | Some p => let! x := knownhost_to_external p in ret (0, Some x)
  end.

(** ** Parsing a line *)

Definition is_blank (c : Z) : bool := (c =? 32) || (c =? 9).
Definition is_word (c : Z) : bool := negb (c =? 0) && negb (is_blank c).

(** [while(len && f( *cp )) { cp++; len--; }]. *)
Fixpoint scan (f : Z -> bool) (cp : list Z) (len : Z) : option (list Z * Z) :=
  if len =? 0 then Some (cp, len)
  else match cp with
       | [] => None
       | c :: cp' => if f c then scan f cp' (len - 1) else Some (cp, len)
       end.

(** [while(f( *cp )) { cp++; len--; }], where [len] may wrap around. *)
Fixpoint scan_unbounded (f : Z -> bool) (cp : list Z) (len : Z) : option (list Z * Z) :=
  match cp with
  | [] => None
  | c :: cp' => if f c then scan_unbounded f cp' (u64 (len - 1)) else Some (cp, len)
  end.

Definition parse_error (msg : string) : KM Z := xerror LIBSSH2_ERROR_METHOD_NOT_SUPPORTED msg.

Section HostLine.
Context (key_type_name : option (list Z)) (key_type_len : Z) (key : list Z) (keylen key_type : Z).
Context (comment : option (list Z)) (commentlen : Z).

(** [knownhost_add] of a name, with its key and comment. *)
Definition add_line (host : list Z) (salt : option (list Z)) (type : Z) : KM Z :=
  let! r := knownhost_add host salt key_type_name key_type_len key keylen comment commentlen
              (Z.lor (Z.lor key_type type) LIBSSH2_KNOWNHOST_KEYENC_BASE64) false in
  ret r.1.

(** The loop over the names, from the last to the first; [name] is an offset into
    [host]. *)
Fixpoint oldstyle_loop (host : list Z) (name : nat) (namelen : Z) : KM Z :=
  match name with
  | O => ret 0
  | S name' =>
      let namelen := namelen + 1 in
      let! first := (match name' with
                     | O => ret true
                     | S before => let! c := access (host !! before) in ret (c =? comma)
                     end) in
      if first then
        if 255 <=? namelen then parse_error "Failed to parse known_hosts line (unexpected length)"
        else
          let! d := access (bytes_at host (Z.of_nat name') namelen) in
          let! rc := add_line (d ++ [0]) None LIBSSH2_KNOWNHOST_TYPE_PLAIN in
          if negb (rc =? 0) then ret rc
          else match name' with
               | O => ret rc
               | S before => oldstyle_loop host before 0
               end
      else oldstyle_loop host name' namelen
  end.

Definition oldstyle_hostline (host : list Z) (hostlen : Z) : KM Z :=
  if hostlen <? 1 then parse_error "Failed to parse known_hosts line (no host names)"
  else oldstyle_loop host (Z.to_nat hostlen) 0.

Definition not_bar (c : Z) : bool := negb (c =? 0) && negb (c =? 124).

(** [saltbuf] has 32 bytes, [hostbuf] 256. *)
Definition hashed_hostline (host : list Z) (hostlen : Z) : KM Z :=
  let salt := drop 3 host in
  let hostlen := u64 (hostlen - 3) in
  let! s := access (span not_bar salt) in
  let p := drop (length s) salt in
  let! c := access (head p) in
  if c =? 124 then
    let saltlen := lenZ s in
    if 31 <=? saltlen then parse_error "Failed to parse known_hosts line (unexpectedly long salt)"
    else
      let hash := tail p in
      let hostlen := u64 (hostlen - (saltlen + 1)) in
      if 255 <=? hostlen then parse_error "Failed to parse known_hosts line (unexpected length)"
      else
        let! d := access (bytes_at hash 0 hostlen) in
        add_line (d ++ [0]) (Some (s ++ [0])) LIBSSH2_KNOWNHOST_TYPE_SHA1
  else ret 0.
End HostLine.

(** [!strncmp(name, kind, n)]. *)
Definition key_named (n : Z) (name : list Z) (kind : string) : option bool :=
  strncmp_eq (Z.to_nat n) name 0 (str kind ++ [0]) 0.

Definition key_kinds : list (string * Z) :=
  [("ssh-dss", LIBSSH2_KNOWNHOST_KEY_SSHDSS); ("ssh-rsa", LIBSSH2_KNOWNHOST_KEY_SSHRSA);
   ("ecdsa-sha2-nistp256", LIBSSH2_KNOWNHOST_KEY_ECDSA_256); ("ecdsa-sha2-nistp384", LIBSSH2_KNOWNHOST_KEY_ECDSA_384);
   ("ecdsa-sha2-nistp521", LIBSSH2_KNOWNHOST_KEY_ECDSA_521); ("ssh-ed25519", LIBSSH2_KNOWNHOST_KEY_ED25519)].

(** The chain of comparisons. *)
Fixpoint find_key_type (n : Z) (name : list Z) (kinds : list (string * Z)) : option Z :=
  match kinds with
  | [] => Some LIBSSH2_KNOWNHOST_KEY_UNKNOWN
  | (k, t) :: kinds =>
      b ← key_named n name k;
      if (b : bool) then Some t else find_key_type n name kinds
  end.

(** What follows the key type: the key, its length, and the comment with its. *)
Definition split_key (key : list Z) (keylen : Z) : option (list Z * Z * option (list Z) * Z) :=
  '(key, keylen) ← scan_unbounded is_blank key keylen;
  '(comment, commentlen) ← scan is_word key keylen;
  let keylen := u64 (keylen - commentlen) in
  if commentlen =? 0 then Some (key, keylen, None, commentlen)
  else '(comment, commentlen) ← scan is_blank comment commentlen;
       Some (key, keylen, Some comment, commentlen).

Definition is_plain_host (host : list Z) (hostlen : Z) : option bool :=
  if 2 <? hostlen then d ← bytes_at host 0 3; Some (negb (bool_decide (d = str "|1|"))) else Some false.

Definition hostline (host : list Z) (hostlen : Z) (key : list Z) (keylen : Z) : KM Z :=
  if keylen <? 20 then parse_error "Failed to parse known_hosts line (key too short)"
  else
    let! c := access (head key) in
    let! plain := access (is_plain_host host hostlen) in
    if is_digit 10 c then
      let type := LIBSSH2_KNOWNHOST_KEY_RSA1 in
      if plain then oldstyle_hostline None 0 key keylen type None 0 host hostlen
      else hashed_hostline None 0 key keylen type None 0 host hostlen
    else
      let! k := access (scan is_word key keylen) in
      let name_len := keylen - k.2 in
      let! type := access (find_key_type name_len key key_kinds) in
      let! r := access (split_key k.1 k.2) in
      let '(key', keylen', comment, commentlen) := r in
      if plain then oldstyle_hostline (Some key) name_len key' keylen' type comment commentlen host hostlen
      else hashed_hostline (Some key) name_len key' keylen' type comment commentlen host hostlen.

Definition libssh2_knownhost_readline (line : list Z) (len type : Z) : KM Z :=
  if negb (type =? LIBSSH2_KNOWNHOST_FILE_OPENSSH) then
    parse_error "Unsupported type of known-host information store"
  else
    let! r := access (scan is_blank line len) in
    let '(hostp, len) := r in
    if len =? 0 then ret 0
    else
      let! c := access (head hostp) in
      if (c =? 0) || (c =? 35) || (c =? 10) then ret 0
      else
        let! r := access (scan is_word hostp len) in
        let hostlen := len - r.2 in
        let! r := access (scan is_blank r.1 r.2) in
        let '(keyp, keylen) := r in
        let! c := access (head keyp) in
        if (c =? 0) || (keylen =? 0) then parse_error "Failed to parse known_hosts line"
        else
          let! r := access (scan (fun c => negb (c =? 0) && negb (c =? 10)) keyp keylen) in
          let! c := access (head r.1) in
          hostline hostp hostlen keyp (if c =? 10 then keylen - 1 else keylen).

(** ** Files *)

(** [fgets]: the bytes of the next line, at most [size - 1] of them, and the rest. *)
Fixpoint fgets (size : nat) (file : list Z) : list Z * list Z :=
  match size, file with
  | S (S size as size'), c :: file =>
      if c =? 10 then ([c], file) else let '(l, rest) := fgets size' file in (c :: l, rest)
  | _, _ => ([], file)
  end.

(** The loop over the lines of [file]; [buf] is the buffer. *)
Fixpoint readfile_loop (rounds : nat) (file buf : list Z) (type num : Z) : KM Z :=
  match rounds with
  | O => fun _ => OutOfFuel
  | S rounds =>
      match fgets 4092 file with
      | ([], _) => ret num
      | (l, rest) =>
          let buf := l ++ 0 :: drop (S (length l)) buf in
          let! len := access (strlen buf 0) in
          let! rc := libssh2_knownhost_readline buf len type in
          if negb (rc =? 0) then xerror LIBSSH2_ERROR_KNOWN_HOSTS "Failed to parse known hosts file"
          else readfile_loop rounds rest buf type (num + 1)
      end
  end.

(** [file] is [None] when the file cannot be opened. *)
Definition libssh2_knownhost_readfile (file : option (list Z)) (type : Z) : KM Z :=
  if negb (type =? LIBSSH2_KNOWNHOST_FILE_OPENSSH) then
    parse_error "Unsupported type of known-host information store"
  else
    match file with
    | Some f => readfile_loop (S (length f)) f (replicate 4092 0) type 0
    | None => xerror LIBSSH2_ERROR_FILE "Failed to open file"
    end.

(** ** Printing a line *)

(** The name printed for a type of key, with the length the code sets. *)
Definition key_type_text (n : known_host) : option (list Z * Z) :=
  let t := key_type_of (kh_typemask n) in
  if t =? LIBSSH2_KNOWNHOST_KEY_RSA1 then Some ([0], 0)
  else if t =? LIBSSH2_KNOWNHOST_KEY_SSHRSA then Some (str "ssh-rsa" ++ [0], 7)
  else if t =? LIBSSH2_KNOWNHOST_KEY_SSHDSS then Some (str "ssh-dss" ++ [0], 7)
  else if t =? LIBSSH2_KNOWNHOST_KEY_ECDSA_256 then Some (str "ecdsa-sha2-nistp256" ++ [0], 19)
  else if t =? LIBSSH2_KNOWNHOST_KEY_ECDSA_384 then Some (str "ecdsa-sha2-nistp384" ++ [0], 19)
  else if t =? LIBSSH2_KNOWNHOST_KEY_ECDSA_521 then Some (str "ecdsa-sha2-nistp521" ++ [0], 19)
  else if t =? LIBSSH2_KNOWNHOST_KEY_ED25519 then Some (str "ssh-ed25519" ++ [0], 11)
  else if t =? LIBSSH2_KNOWNHOST_KEY_UNKNOWN then
    match kh_key_type_name n with Some name => Some (name, kh_key_type_len n) | None => None end
  else None.

(** The text behind the host: [" <name> <key> <comment>\n"], without the name when its
    length is 0 and without the comment when there is none. *)
Definition line_end (n : known_host) (key_type_name : list Z) (key_type_len : Z) : option (list Z) :=
  k ← kh_key n; key ← c_string k;
  name ← (if key_type_len =? 0 then Some [] else t ← c_string key_type_name; Some (32 :: t));
  c ← (match kh_comment n with Some c => t ← c_string c; Some (32 :: t) | None => Some [] end);
  Some (name ++ 32 :: key ++ c ++ [10]).

(** [buf] with the line when it fits. *)
Definition print_line (buf : list Z) (buflen required_size : Z) (text : option (list Z)) : KM (list Z) :=
  if required_size <=? buflen then
    let! t := access text in
    let! r := access (snprintf buf buflen t) in ret r.2
  else ret buf.

(** The return value, [*outlen] when it is set, and the buffer. *)
Definition knownhost_writeline (n : known_host) (buf : list Z) (buflen type : Z) : KM (Z * option Z * list Z) :=
  let failed code msg := let! rc := xerror code msg in ret (rc, None, buf) in
  if negb (type =? LIBSSH2_KNOWNHOST_FILE_OPENSSH) then
    failed LIBSSH2_ERROR_METHOD_NOT_SUPPORTED "Unsupported type of known-host information store"%string
  else
    match key_type_text n with
    | None => failed LIBSSH2_ERROR_METHOD_NOT_SUPPORTED "Unsupported type of known-host entry"%string
    | Some (key_type_name, key_type_len) =>
        let! k := access (kh_key n) in
        let! keylen := access (strlen k 0) in
        let size := keylen + (if key_type_len =? 0 then 0 else key_type_len + 1) +
                    (match kh_comment n with Some _ => kh_comment_len n + 1 | None => 0 end) in
        let finish required_size buf :=
          if required_size <=? buflen then ret (0, Some (required_size - 1), buf)
          else let! rc := xerror LIBSSH2_ERROR_BUFFER_TOO_SMALL "Known-host write buffer too small" in
               ret (rc, Some (required_size - 1), buf) in
        let! name := access (kh_name n) in
        if host_type (kh_typemask n) =? LIBSSH2_KNOWNHOST_TYPE_SHA1 then
          let! t := encode64 name (kh_name_len n) in
          match t with
          | None => failed LIBSSH2_ERROR_ALLOC "Unable to allocate memory for base64-encoded host name"%string
          | Some namealloc =>
              let! salt := access (kh_salt n) in
              let! t := encode64 salt (kh_salt_len n) in
              match t with
              | None => failed LIBSSH2_ERROR_ALLOC "Unable to allocate memory for base64-encoded salt"%string
              | Some saltalloc =>
                  let required_size := size + lenZ saltalloc + lenZ namealloc + 7 in
                  let! buf := print_line buf buflen required_size
                                (e ← line_end n key_type_name key_type_len;
                                 Some (str "|1|" ++ saltalloc ++ str "|" ++ namealloc ++ e)) in
                  finish required_size buf
              end
          end
        else
          let required_size := size + kh_name_len n + 3 in
          let! buf := print_line buf buflen required_size
                        (e ← line_end n key_type_name key_type_len; h ← c_string name; Some (h ++ e)) in
          finish required_size buf
    end.

Definition libssh2_knownhost_writeline (known : ptr) (buf : list Z) (buflen type : Z) : KM (Z * option Z * list Z) :=
  let! k := node known in
  if negb (magic (kh_external k) =? KNOWNHOST_MAGIC) then
    let! rc := xerror LIBSSH2_ERROR_INVAL "Invalid host information" in ret (rc, None, buf)
  else
    let! p := access (ext_node (kh_external k)) in
    let! n := node p in knownhost_writeline n buf buflen type.

(** The lines of the nodes, written to a file that takes [room] more bytes; [out] is
    what it holds. *)
Fixpoint writefile_loop (ps : list ptr) (buf : list Z) (type : Z) (room : Z) (out : list Z) : KM (Z * list Z) :=
  match ps with
  | [] => ret (0, out)
  | p :: ps =>
      let! n := node p in
      let! w := knownhost_writeline n buf 4092 type in
      let '(rc, outlen, buf) := w in
      if negb (rc =? 0) then ret (rc, out)
      else
        let wrote := default 0 outlen in
        let! d := access (bytes_at buf 0 wrote) in
        let nwrote := Z.min wrote room in
        let out := out ++ take (Z.to_nat nwrote) d in
        if negb (nwrote =? wrote) then
          let! rc := xerror LIBSSH2_ERROR_FILE "Write failed" in ret (rc, out)
        else writefile_loop ps buf type (room - nwrote) out
  end.

(** [room] is [None] when the file cannot be opened; the return value and the file. *)
Definition libssh2_knownhost_writefile (room : option Z) (type : Z) : KM (Z * list Z) :=
  if negb (type =? LIBSSH2_KNOWNHOST_FILE_OPENSSH) then
    let! rc := parse_error "Unsupported type of known-host information store" in ret (rc, [])
  else
    match room with
    | None => let! rc := xerror LIBSSH2_ERROR_FILE "Failed to open file" in ret (rc, [])
    | Some room => let! ps := xget knh_head in writefile_loop ps (replicate 4092 0) type room []
    end.
