(* ===== verification/KnownhostSpec.v ===== *)
(** * Theorems about known hosts

    [knownhost_check] looks the host up the way an abstract search over the entries does;
    every operation keeps the collection well formed, whatever the file it reads holds;
    what is printed is read back. *)

From stdpp Require Import base numbers list gmap strings.
From S2P Require Import Prelude Codes CString KexMethods Wire Base64 Session ChannelWindow Packet Conn Comp Numerals Ext Knownhost.

(** ** Well-formed collections *)

(** A block with the string [t]. *)
Definition holds (o : option (list Z)) (t : list Z) : Prop := no_nul t /\ o = Some (t ++ [0]).

(** An entry as [knownhost_add] builds it. *)
Record node_ok (n : known_host) : Prop := {
  no_name : host_type (kh_typemask n) = LIBSSH2_KNOWNHOST_TYPE_PLAIN \/
            host_type (kh_typemask n) = LIBSSH2_KNOWNHOST_TYPE_CUSTOM ->
            exists t, holds (kh_name n) t /\ kh_name_len n = lenZ t;
  no_hash : host_type (kh_typemask n) = LIBSSH2_KNOWNHOST_TYPE_SHA1 ->
            exists d s, kh_name n = Some d /\ kh_name_len n = lenZ d /\ kh_salt n = Some s /\ kh_salt_len n = lenZ s;
  no_type : host_type (kh_typemask n) = LIBSSH2_KNOWNHOST_TYPE_PLAIN \/
            host_type (kh_typemask n) = LIBSSH2_KNOWNHOST_TYPE_CUSTOM \/
            host_type (kh_typemask n) = LIBSSH2_KNOWNHOST_TYPE_SHA1;
  no_key : exists k, kh_key n = Some k /\ is_Some (c_string k);
  no_key_type : key_type_of (kh_typemask n) <> 0
}.

(** Every listed node is live and well formed, no node is listed twice, the nodes are
    those of the list, and what the application is shown of a node points to it. *)
Record hosts_ok (h : knownhosts) : Prop := {
  ho_nodup : NoDup (knh_head h);
  ho_live : forall p, p ∈ knh_head h <-> is_Some (knh_nodes h !! p);
  ho_node : forall p n, knh_nodes h !! p = Some n -> node_ok n;
  ho_fresh : forall p, (knh_next h <= p)%positive -> knh_nodes h !! p = None;
  ho_ext : forall p n, knh_nodes h !! p = Some n ->
           kh_external n = external_0 \/ ext_node (kh_external n) = Some p
}.

Lemma hosts_ok_0 : hosts_ok knownhosts_0.
Proof.
  split; simpl.
  - constructor.
  - intros p. rewrite lookup_empty. split; [by intros ?%not_elem_of_nil|intros []; done].
  - intros p n. by rewrite lookup_empty.
  - intros p _. apply lookup_empty.
  - intros p n. by rewrite lookup_empty.
Qed.

(** ** What the session keeps *)

(** Only error fields change and allocations are used up. *)
Definition kh_session (s s' : session) : Prop :=
  err_only (s <| s_alloc := s_alloc s' |>) s' /\ (Forall (eq true) (s_alloc s) -> Forall (eq true) (s_alloc s')).

#[global] Instance kh_session_refl : Reflexive kh_session.
Proof. intros s. split; [by destruct s|done]. Qed.
#[global] Instance kh_session_trans : Transitive kh_session.
Proof.
  intros s1 s2 s3 [H1 F1] [H2 F2]. split; [|tauto]. unfold err_only in *. rewrite H2, H1. done.
Qed.

Lemma kh_session_err s s' : err_only s s' -> kh_session s s'.
Proof. intros He. split; unfold err_only in *; rewrite He; [by destruct s|done]. Qed.

Lemma wp_kalloc (Q : bool -> ext knownhosts -> Prop) s h :
  (forall s' b, kh_session s s' -> (Forall (eq true) (s_alloc s) -> b = true) -> Q b (mk_ext s' h)) ->
  wp kalloc Q (mk_ext s h).
Proof.
  intros HQ. apply wp_xlift. unfold wp, alloc_outcome. destruct (s_alloc s) as [|b al] eqn:E.
  - apply HQ; [done|done].
  - apply HQ.
    + split; simpl; [by destruct s|]. rewrite ?E. by intros [_ ?]%Forall_cons.
    + by intros [<- _]%Forall_cons.
Qed.

Lemma wp_kerror code msg (Q : Z -> ext knownhosts -> Prop) s h :
  (forall s', kh_session s s' -> Q code (mk_ext s' h)) -> wp (xerror code msg) Q (mk_ext s h).
Proof. intros HQ. apply wp_xerror. intros s' He. by apply HQ, kh_session_err. Qed.

#[global] Instance fresh_block_ok ok : AllocOk (fresh_block ok).
Proof. intros n d Hn. destruct ok; [|done]. intros [= <-]. unfold lenZ. rewrite length_replicate. lia. Qed.

Lemma fresh_block_some n : is_Some (fresh_block true n).
Proof. by eexists. Qed.

(** ** Strings *)

Lemma strcmp_eq_strings a b r r' : no_nul a -> no_nul b ->
  strcmp_eq (a ++ 0 :: r) (b ++ 0 :: r') = Some (bool_decide (a = b)).
Proof.
  intros Ha. revert b. induction Ha as [|x a Hx _ IH]; intros b Hb.
  - destruct Hb as [|y b Hy Hb]; simpl; [done|]. by destruct y.
  - destruct Hb as [|y b Hy Hb]; simpl.
    + by destruct x.
    + destruct (Z.eqb_spec x y) as [->|Hne]; simpl.
      * destruct (Z.eqb_spec y 0); [congruence|]. rewrite IH by done. f_equal. apply bool_decide_ext.
        split; [by intros ->|by intros [=]].
      * rewrite bool_decide_eq_false_2; [done|congruence].
Qed.

Lemma c_string_split l t : c_string l = Some t <-> no_nul t /\ exists r, l = t ++ 0 :: r.
Proof.
  split; [|intros [Ht [r ->]]; by apply c_string_app]. revert t. induction l as [|c l IH]; intros t; simpl; [done|].
  destruct (Z.eqb_spec c 0) as [->|Hc].
  - intros [= <-]. split; [constructor|by eexists].
  - destruct (c_string l) as [u|] eqn:E; simpl; [|done]. intros [= <-].
    destruct (IH u eq_refl) as [H1 [r ->]]. split; [by constructor|by eexists].
Qed.

(** ** Looking a host up *)

(** The entries of the list with their nodes. *)
Definition entries_of (h : knownhosts) (ps : list ptr) : list (ptr * known_host) :=
  omap (fun p => pair p <$> knh_nodes h !! p) ps.
Definition entries (h : knownhosts) : list (ptr * known_host) := entries_of h (knh_head h).

Lemma entries_of_cons h p ps :
  entries_of h (p :: ps) = match knh_nodes h !! p with Some n => (p, n) :: entries_of h ps | None => entries_of h ps end.
Proof. unfold entries_of. simpl. by destruct (knh_nodes h !! p). Qed.

Lemma bind_ret' {S A B} (f : S -> A) (k : A -> M S B) s : bind (fun s => Ret (f s) s) k s = k (f s) s.
Proof. done. Qed.

Lemma node_Ret p n s h : knh_nodes h !! p = Some n -> node p (mk_ext s h) = Ret n (mk_ext s h).
Proof. intros H. unfold node, bind, xget, gets. simpl. by rewrite H. Qed.

Section Lookup.
Context (hmac_sha1 : list Z -> list Z -> list Z).
Context (type typemask : Z).

(** The entry is for the host of this name: it has the name, or the salted hash of it. *)
Definition host_named (host : list Z) (n : known_host) : bool :=
  if host_type (kh_typemask n) =? LIBSSH2_KNOWNHOST_TYPE_SHA1 then
    (type =? LIBSSH2_KNOWNHOST_TYPE_PLAIN) && bool_decide (kh_name n = Some (hmac_sha1 (default [] (kh_salt n)) host))
  else (type =? host_type (kh_typemask n)) && bool_decide (kh_name n = Some (host ++ [0])).

(** A caller who gives no type accepts every key, one who gives the unknown type none. *)
Definition type_accepted (n : known_host) : bool :=
  let t := key_type_of typemask in
  if t =? 0 then true else if t =? LIBSSH2_KNOWNHOST_KEY_UNKNOWN then false else t =? key_type_of (kh_typemask n).

Lemma key_type_accepted n : key_type_match typemask n = type_accepted n.
Proof.
  unfold key_type_match, type_accepted. destruct (Z.eqb_spec (key_type_of typemask) 0) as [->|]; [done|].
  destruct (Z.eqb_spec (key_type_of typemask) LIBSSH2_KNOWNHOST_KEY_UNKNOWN); done.
Qed.

Definition candidate (host : list Z) (e : ptr * known_host) : bool := host_named host e.2 && type_accepted e.2.
Definition has_key (key : list Z) (e : ptr * known_host) : bool := bool_decide ((kh_key e.2 ≫= c_string) = Some key).

(** The entries for the first of the names, then those for the second, and so on. *)
Definition candidates (h : knownhosts) (names : list (list Z)) : list (ptr * known_host) :=
  flat_map (fun host => List.filter (candidate host) (entries h)) names.

(** The first candidate with the key matches; when there is none, the first candidate
    has another key. *)
Definition lookup_host (h : knownhosts) (names : list (list Z)) (key : list Z) : Z * option ptr :=
  let cs := candidates h names in
  match List.find (has_key key) cs, cs with
  | Some (p, _), _ => (LIBSSH2_KNOWNHOST_CHECK_MATCH, Some p)
  | None, (p, _) :: _ => (LIBSSH2_KNOWNHOST_CHECK_MISMATCH, Some p)
  | None, [] => (LIBSSH2_KNOWNHOST_CHECK_NOTFOUND, None)
  end.

Hypothesis hmac_len : forall s m, lenZ (hmac_sha1 s m) = SHA_DIGEST_LENGTH.

Lemma host_match_ok t r n : no_nul t -> node_ok n ->
  host_match hmac_sha1 type (t ++ 0 :: r) n false = Some (host_named t n).
Proof.
  intros Ht [Hn Hh Hty _ _]. unfold host_match, host_named.
  destruct (Z.eqb_spec (host_type (kh_typemask n)) LIBSSH2_KNOWNHOST_TYPE_SHA1) as [E|E].
  - rewrite E. change (LIBSSH2_KNOWNHOST_TYPE_SHA1 =? _) with false at 1 2. cbn [orb].
    change (LIBSSH2_KNOWNHOST_TYPE_SHA1 =? LIBSSH2_KNOWNHOST_TYPE_SHA1) with true. cbv iota.
    destruct (Hh E) as (d & sl & Hd & Hdl & Hs & Hsl).
    destruct (type =? LIBSSH2_KNOWNHOST_TYPE_PLAIN); [|done]. rewrite Hdl, Hs, Hd, Hsl.
    destruct (Z.eqb_spec SHA_DIGEST_LENGTH (lenZ d)) as [Hl|Hl]; cbn [negb].
    + cbn [mbind option_bind default]. rewrite bytes_at_all by done. cbn [mbind option_bind].
      rewrite c_string_app by done. cbn [mbind option_bind].
      rewrite ?bytes_at_all by (by rewrite ?hmac_len). cbn [mbind option_bind andb id].
      rewrite ?bytes_at_all by (by rewrite ?hmac_len). cbn [mbind option_bind].
      destruct (decide (hmac_sha1 sl t = d)) as [->|Hne].
      * by rewrite !bool_decide_eq_true_2.
      * rewrite !bool_decide_eq_false_2; [done|congruence|done].
    + f_equal. symmetry. apply bool_decide_eq_false. intros [= ->]. by rewrite hmac_len in Hl.
  - assert (Hpc : host_type (kh_typemask n) = LIBSSH2_KNOWNHOST_TYPE_PLAIN \/
                  host_type (kh_typemask n) = LIBSSH2_KNOWNHOST_TYPE_CUSTOM) by tauto.
    assert ((host_type (kh_typemask n) =? LIBSSH2_KNOWNHOST_TYPE_PLAIN) ||
            (host_type (kh_typemask n) =? LIBSSH2_KNOWNHOST_TYPE_CUSTOM) = true) as -> by (by destruct Hpc as [-> | ->]).
    destruct (type =? host_type (kh_typemask n)); [|done].
    destruct (Hn Hpc) as (u & [Hu ->] & _). simpl. rewrite strcmp_eq_strings by done. f_equal.
    apply bool_decide_ext. split; [by intros ->|]. intros [= Hx]. by apply app_inj_tail in Hx as [-> _].
Qed.

Lemma key_compare k r n p : no_nul k -> node_ok n ->
  exists km, kh_key n = Some km /\ strcmp_eq (k ++ 0 :: r) km = Some (has_key k (p, n)).
Proof.
  intros Hk [_ _ _ (km & Hkm & [u Hu]) _]. exists km. split; [done|]. unfold has_key. simpl. rewrite Hkm. simpl.
  rewrite Hu. apply c_string_split in Hu as [Hu [r' ->]]. rewrite strcmp_eq_strings by done. f_equal.
  apply bool_decide_ext. naive_solver.
Qed.

(** One pass over the list. *)
Lemma check_nodes_ok t r k rk s h ps bad : no_nul t -> no_nul k -> hosts_ok h -> ps ⊆ knh_head h ->
  check_nodes hmac_sha1 type (k ++ 0 :: rk) typemask (t ++ 0 :: r) ps false bad (mk_ext s h) =
  let cs := List.filter (candidate t) (entries_of h ps) in
  Ret (match List.find (has_key k) cs with
       | Some (p, _) => (true, None, Some p)
       | None => (false, match bad with Some b => Some b | None => fst <$> head cs end, None)
       end) (mk_ext s h).
Proof.
  intros Ht Hk Hh. revert bad. induction ps as [|p ps IH]; intros bad Hsub; [by destruct bad|].
  assert (Hp : p ∈ knh_head h) by (apply Hsub; by left).
  assert (Hps : ps ⊆ knh_head h) by (intros q Hq; apply Hsub; by right).
  apply (ho_live h Hh) in Hp as [n Hn]. pose proof (ho_node h Hh p n Hn) as Hnok.
  rewrite entries_of_cons, Hn.
  cbn [check_nodes]. rewrite (bind_Ret _ _ _ n (mk_ext s h)) by (by apply node_Ret).
  rewrite host_match_ok by done. cbn [access]. rewrite bind_ret.
  cbn [List.filter]. change (candidate t (p, n)) with (host_named t n && type_accepted n).
  rewrite key_type_accepted.
  destruct (host_named t n); simpl; [|by rewrite IH].
  destruct (type_accepted n); simpl; [|by rewrite IH].
  destruct (key_compare k rk n p Hk Hnok) as (km & -> & Hc). cbn [access]. rewrite bind_ret, Hc.
  cbn [access]. rewrite bind_ret.
  destruct (has_key k (p, n)); [done|]. rewrite IH by done. simpl. do 2 f_equal.
  destruct (List.find _ _) as [[]|]; [done|]. by destruct bad.
Qed.

(** The two results of the search: the first entry with another key, and the match. *)
Definition found (bad : option ptr) (cs : list (ptr * known_host)) (key : list Z) : option ptr * option ptr :=
  match List.find (has_key key) cs with
  | Some (p, _) => (None, Some p)
  | None => (match bad with Some b => Some b | None => fst <$> head cs end, None)
  end.

Lemma find_append {A} (f : A -> bool) (a b : list A) :
  List.find f (a ++ b) = match List.find f a with Some x => Some x | None => List.find f b end.
Proof. induction a as [|x a IH]; simpl; [done|]. by destruct (f x). Qed.

Lemma found_app bad a b key :
  found bad (a ++ b) key =
  match found bad a key with (_, Some p) => (None, Some p) | (bad, None) => found bad b key end.
Proof.
  unfold found. rewrite find_append. destruct (List.find _ a) as [[]|]; [done|].
  destruct (List.find _ b) as [[]|]; [done|]. destruct bad; [done|]. by destruct a.
Qed.

Lemma check_loop_one t r k rk s h bad : no_nul t -> no_nul k -> hosts_ok h ->
  check_loop hmac_sha1 type (k ++ 0 :: rk) typemask 1 (t ++ 0 :: r) (t ++ 0 :: r) bad (mk_ext s h) =
  Ret (found bad (candidates h [t]) k) (mk_ext s h).
Proof.
  intros Ht Hk Hh. cbn [check_loop]. unfold xget, gets. rewrite bind_ret'. cbn [x_data].
  rewrite (bind_Ret _ _ _ _ _ (check_nodes_ok t r k rk s h _ bad Ht Hk Hh (fun p H => H))).
  fold (entries h). unfold candidates, found. cbn [flat_map]. rewrite app_nil_r.
  by destruct (List.find _ _) as [[]|].
Qed.

Lemma check_loop_two t r t2 r2 k rk s h : no_nul t -> no_nul t2 -> no_nul k -> hosts_ok h ->
  check_loop hmac_sha1 type (k ++ 0 :: rk) typemask 2 (t ++ 0 :: r) (t2 ++ 0 :: r2) None (mk_ext s h) =
  Ret (found None (candidates h [t; t2]) k) (mk_ext s h).
Proof.
  intros Ht Ht2 Hk Hh. change [t; t2] with ([t] ++ [t2]). unfold candidates. rewrite flat_map_app.
  rewrite found_app. change (flat_map ?f [t]) with (f t ++ []). rewrite app_nil_r.
  remember 1%nat as one eqn:E1. cbn [check_loop]. unfold xget, gets. rewrite bind_ret'. cbn [x_data].
  rewrite (bind_Ret _ _ _ _ _ (check_nodes_ok t r k rk s h _ None Ht Hk Hh (fun p H => H))).
  fold (entries h). unfold found at 1. destruct (List.find _ _) as [[]|]; [done|]. subst one.
  by rewrite check_loop_one.
Qed.
End Lookup.

(** The forms of the host that are looked for. *)
Definition host_names (port : Z) (t : list Z) : list (list Z) :=
  (if 0 <=? port then [str "[" ++ t ++ str "]:" ++ decimal port] else []) ++ [t].

(** The base64 text of the key that is given. *)
Definition key_text (typemask : Z) (key : list Z) (keylen : Z) (k : list Z) : Prop :=
  if has typemask LIBSSH2_KNOWNHOST_KEYENC_BASE64 then no_nul k /\ exists r, key = k ++ 0 :: r
  else exists d r, key = d ++ r /\ bytes_ok d /\ lenZ d = keylen /\ 0 < keylen < 2 ^ 30 /\ k = enc d.

(** The entry at [p], of which the application may have been shown something. *)
Definition shown (p : ptr) (n n' : known_host) : Prop :=
  n' = n <| kh_external := kh_external n' |> /\ (kh_external n' = kh_external n \/ ext_node (kh_external n') = Some p).

(** Collections with the same entries. *)
Definition same_entries (h h' : knownhosts) : Prop :=
  knh_head h' = knh_head h /\ knh_next h' = knh_next h /\
  forall p, option_Forall2 (shown p) (knh_nodes h !! p) (knh_nodes h' !! p).

Lemma shown_refl p n : shown p n n.
Proof. split; [by destruct n|by left]. Qed.

#[global] Instance same_entries_refl : Reflexive same_entries.
Proof.
  intros h. split; [done|]. split; [done|]. intros p. destruct (knh_nodes h !! p); constructor. apply shown_refl.
Qed.
#[global] Instance same_entries_trans : Transitive same_entries.
Proof.
  intros a b c (H1 & H2 & H3) (K1 & K2 & K3). split; [congruence|]. split; [congruence|]. intros p.
  specialize (H3 p). specialize (K3 p). destruct H3 as [n n' [E1 E2]|]; [|inversion K3; constructor].
  inversion K3 as [? n'' [F1 F2]|]. constructor. split; [by rewrite F1, E1|].
  destruct F2 as [F2|F2]; [rewrite F2; done|by right].
Qed.

Lemma same_entries_ok h h' : hosts_ok h -> same_entries h h' -> hosts_ok h'.
Proof.
  intros [Hnd Hl Hn Hf He] (E1 & E2 & E3).
  assert (Hback : forall p n', knh_nodes h' !! p = Some n' -> exists n, knh_nodes h !! p = Some n /\ shown p n n').
  { intros p n' Hp. specialize (E3 p). rewrite Hp in E3. inversion E3 as [n x Hs Hx|]; subst. by exists n. }
  split; rewrite ?E1, ?E2; [done| | | |].
  - intros p. rewrite Hl. specialize (E3 p). destruct E3; [|done]. split; by eexists.
  - intros p n' Hp. destruct (Hback p n' Hp) as (n & Hpn & Hs & _). specialize (Hn p n Hpn). rewrite Hs.
    destruct Hn. by split.
  - intros p Hp. specialize (E3 p). rewrite Hf in E3 by done. by inversion E3.
  - intros p n' Hp. destruct (Hback p n' Hp) as (n & Hpn & _ & [Hs|Hs]); [|by right]. rewrite Hs. by apply He.
Qed.

Lemma wp_node p n (Q : known_host -> ext knownhosts -> Prop) s h :
  knh_nodes h !! p = Some n -> Q n (mk_ext s h) -> wp (node p) Q (mk_ext s h).
Proof. intros Hn HQ. unfold wp. by rewrite (node_Ret _ n). Qed.

Lemma wp_to_external p n (Q : ptr -> ext knownhosts -> Prop) s h :
  knh_nodes h !! p = Some n ->
  (forall h', same_entries h h' -> Q p (mk_ext s h')) -> wp (knownhost_to_external p) Q (mk_ext s h).
Proof.
  intros Hn HQ. unfold knownhost_to_external. x_step. eapply wp_node; [done|]. do 3 x_step. apply HQ.
  split; [done|]. split; [done|]. intros q. simpl. destruct (decide (p = q)) as [<-|Hne].
  - rewrite lookup_insert_eq, Hn. constructor. split; [done|by right].
  - rewrite lookup_insert_ne by done. destruct (knh_nodes h !! q); constructor. apply shown_refl.
Qed.

Lemma wp_set_ext want p n (Q : option ptr -> ext knownhosts -> Prop) s h :
  knh_nodes h !! p = Some n ->
  (forall x h', (want = true -> x = Some p) -> same_entries h h' -> Q x (mk_ext s h')) ->
  wp (set_ext want p) Q (mk_ext s h).
Proof.
  intros Hn HQ. unfold set_ext. x_step; [|x_step; by apply HQ].
  x_step. eapply wp_to_external; [done|]. intros h' Hs. x_step. by apply HQ.
Qed.

Lemma entries_of_in h ps p n : (p, n) ∈ entries_of h ps -> knh_nodes h !! p = Some n.
Proof.
  induction ps as [|q ps IH]; [by intros ?%not_elem_of_nil|]. rewrite entries_of_cons.
  destruct (knh_nodes h !! q) eqn:E; [|done]. intros [[= -> ->]|]%elem_of_cons; auto.
Qed.

Lemma candidates_in hmac_sha1 type typemask h names p n :
  (p, n) ∈ candidates hmac_sha1 type typemask h names -> knh_nodes h !! p = Some n.
Proof.
  intros H%list_elem_of_In%in_flat_map. destruct H as (t & _ & [H _]%filter_In).
  apply (entries_of_in h (knh_head h)). by apply list_elem_of_In.
Qed.

Lemma host_names_no_nul port t : no_nul t -> port < 2 ^ 31 -> Forall no_nul (host_names port t).
Proof.
  intros Ht Hp. unfold host_names. apply Forall_app. split; [|by repeat constructor].
  destruct (Z.leb_spec 0 port); [|constructor]. constructor; [|constructor]. unfold no_nul in *.
  apply Forall_app. split; [by repeat constructor|]. apply Forall_app. split; [done|].
  apply Forall_app. split; [by repeat constructor|].
  eapply Forall_impl; [apply decimal_chars; lia|]. simpl. lia.
Qed.

(** The buffer for the form with a port. *)
Lemma host_buffer t : lenZ t < 270 ->
  exists r, snprintf (replicate 270 0) 270 t = Some (lenZ t, t ++ 0 :: r).
Proof.
  intros Hl. unfold snprintf. change (Z.to_nat (270 - 1)) with 269%nat.
  rewrite take_ge by (unfold lenZ in Hl; lia). rewrite lenZ_app. change (lenZ [0]) with 1.
  change (lenZ (replicate 270 0)) with 270. destruct (Z.leb_spec (lenZ t + 1) 270); [|lia].
  eexists. cbn [andb Z.ltb Z.compare]. by rewrite <- app_assoc.
Qed.

Lemma snprintf_long t : exists b, snprintf (replicate 270 0) 270 t = Some (lenZ t, b).
Proof.
  unfold snprintf. change (Z.to_nat (270 - 1)) with 269%nat. rewrite lenZ_app. change (lenZ [0]) with 1.
  change (lenZ (replicate 270 0)) with 270. destruct (Z.leb_spec (lenZ (take 269 t) + 1) 270); [by eexists|].
  unfold lenZ in *. rewrite length_take in *. lia.
Qed.

(** *** [knownhost_check] *)

Section CheckSpec.
Context (hmac_sha1 : list Z -> list Z -> list Z).
Hypothesis hmac_len : forall s m, lenZ (hmac_sha1 s m) = SHA_DIGEST_LENGTH.

(** How the search ends. *)
Definition checked (typemask : Z) (want : bool) (h : knownhosts) (names : list (list Z)) (k : list Z)
    (res : Z * option ptr) (h' : knownhosts) : Prop :=
  let l := lookup_host hmac_sha1 (host_type typemask) typemask h names k in
  res.1 = l.1 /\ (want = true -> res.2 = l.2) /\ same_entries h h'.

Lemma wp_report typemask want h names k s :
  wp (check_result want (found None (candidates hmac_sha1 (host_type typemask) typemask h names) k))
     (fun res e => checked typemask want h names k res (x_data e)) (mk_ext s h).
Proof.
  unfold check_result, found, checked, lookup_host.
  pose proof (candidates_in hmac_sha1 (host_type typemask) typemask h names) as Hin.
  set (cs := candidates _ _ _ _ _) in *. destruct (List.find _ cs) as [[p n]|] eqn:E; cbn [fst snd].
  - apply find_some in E as [E _]. x_step. eapply wp_set_ext; [apply Hin; by apply list_elem_of_In|].
    intros x h' Hx Hs. by x_step.
  - destruct cs as [|[p n] cs]; cbn [head fmap option_fmap option_map fst]; [by x_step|]. x_step.
    eapply wp_set_ext; [apply Hin; by left|]. intros x h' Hx Hs. by x_step.
Qed.

Lemma wp_Ret_bind {A B} (m : KM A) (k : A -> KM B) Q e a e' : m e = Ret a e' -> wp (k a) Q e' -> wp (bind m k) Q e.
Proof. intros H. unfold wp, bind. by rewrite H. Qed.

Lemma enc_no_nul d : bytes_ok d -> no_nul (enc d).
Proof. intros H. eapply Forall_impl; [by apply enc_chars|]. by intros c [? _]. Qed.

(** The text of a raw key. *)
Lemma wp_encode64 d r n (Q : option (list Z) -> ext knownhosts -> Prop) s h :
  bytes_ok d -> lenZ d = n -> 0 < n < 2 ^ 30 ->
  (forall s' b, kh_session s s' -> (Forall (eq true) (s_alloc s) -> b = true) ->
     Q (if b then Some (enc d) else None) (mk_ext s' h)) ->
  wp (encode64 (d ++ r) n) Q (mk_ext s h).
Proof.
  intros Hd Hl Hn HQ. unfold encode64. x_step. apply wp_kalloc. intros s' b Hs Hb. specialize (HQ s' b Hs Hb). x_step.
  assert (He : base64_encode (fresh_block b) (d ++ r) n = base64_encode (fresh_block b) d (lenZ d)).
  { unfold base64_encode. rewrite Hl. destruct (Z.eqb_spec n 0); [lia|].
    assert (bytes_at (d ++ r) 0 n = bytes_at d 0 n) as ->; [|done].
    rewrite (bytes_at_all d) by done. rewrite bytes_at_in by (rewrite ?lenZ_app; pose proof (lenZ_nonneg r); lia).
    f_equal. rewrite <- Hl. apply (slice_app_mid [] d r). }
  destruct b.
  - eapply wp_access; [rewrite He; apply base64_encode_enc; [apply _|apply fresh_block_some|done|lia|lia]|]. x_step.
    cbn [fst snd]. destruct (Z.eqb_spec (lenZ (enc d)) 0) as [E|]; [|done]. rewrite lenZ_enc in E. dlia.
  - eapply wp_access.
    + unfold base64_encode. destruct (Z.eqb_spec n 0); [lia|].
      rewrite bytes_at_in by (rewrite ?lenZ_app; pose proof (lenZ_nonneg r); lia). done.
    + by x_step.
Qed.

Lemma wp_check_names s h t r host numcheck key keylen k typemask want names :
  key_text typemask key keylen k ->
  (forall s' rk, no_nul k -> check_loop hmac_sha1 (host_type typemask) (k ++ 0 :: rk) typemask numcheck host (t ++ 0 :: r) None (mk_ext s' h) =
     Ret (found None (candidates hmac_sha1 (host_type typemask) typemask h names) k) (mk_ext s' h)) ->
  wp (check_names hmac_sha1 host numcheck (t ++ 0 :: r) key keylen typemask want)
    (fun res e =>
       (res = (LIBSSH2_KNOWNHOST_CHECK_FAILURE, None) /\ x_data e = h /\
        has typemask LIBSSH2_KNOWNHOST_KEYENC_BASE64 = false /\ ~ Forall (eq true) (s_alloc s)) \/
       checked typemask want h names k res (x_data e))
    (mk_ext s h).
Proof.
  intros Hk Hl. unfold check_names, key_text in *.
  assert (Hfin : forall s' rk, no_nul k ->
    wp (let! r := check_loop hmac_sha1 (host_type typemask) (k ++ 0 :: rk) typemask numcheck host (t ++ 0 :: r) None in
        check_result want r) (fun res e => checked typemask want h names k res (x_data e)) (mk_ext s' h)).
  { intros s' rk Hkn. eapply wp_Ret_bind; [by apply Hl|]. apply wp_report. }
  destruct (has typemask LIBSSH2_KNOWNHOST_KEYENC_BASE64) eqn:E.
  - destruct Hk as (Hkn & rk & ->). x_step. x_step. eapply wp_mono; [by apply Hfin|]. eauto.
  - destruct Hk as (d & rr & -> & Hd & Hdl & Hlen & ->). x_step. x_step. eapply wp_encode64; [done..|].
    intros s' b Hs Hb. x_step. destruct b; cbn [option_map].
    + eapply wp_mono; [apply Hfin, enc_no_nul, Hd|]. eauto.
    + unfold failure. x_step. x_step. x_step. left. split; [done|]. split; [done|]. split; [done|].
      intros Hal. by specialize (Hb Hal).
Qed.

Lemma wp_knownhost_check s h t r port key keylen k typemask want :
  hosts_ok h -> no_nul t -> port < 2 ^ 31 ->
  host_type typemask <> LIBSSH2_KNOWNHOST_TYPE_SHA1 -> key_text typemask key keylen k ->
  wp (knownhost_check hmac_sha1 (t ++ 0 :: r) port key keylen typemask want)
    (fun res e =>
       (res = (LIBSSH2_KNOWNHOST_CHECK_FAILURE, None) /\ x_data e = h /\
        (Exists (fun n => 270 <= lenZ n) (host_names port t) \/
         has typemask LIBSSH2_KNOWNHOST_KEYENC_BASE64 = false /\ ~ Forall (eq true) (s_alloc s))) \/
       checked typemask want h (host_names port t) k res (x_data e))
    (mk_ext s h).
Proof.
  intros Hh Ht Hp Htype Hk. unfold knownhost_check. destruct (Z.eqb_spec (host_type typemask) LIBSSH2_KNOWNHOST_TYPE_SHA1); [done|].
  pose proof (host_names_no_nul port t Ht Hp) as Hnn. unfold host_names in *.
  destruct (0 <=? port); cbn [app] in *; [|eapply wp_mono; [by eapply wp_check_names;
    [|intros; apply check_loop_one]|]; tauto].
  set (text := str "[" ++ t ++ str "]:" ++ decimal port) in *. apply Forall_cons in Hnn as [Htext _].
  x_step. eapply wp_access; [by apply c_string_app|]. x_step.
  destruct (decide (270 <= lenZ text)) as [Hlong|Hshort].
  - destruct (snprintf_long text) as [b Hb]. eapply wp_access; [done|]. cbn [fst snd].
    destruct (Z.leb_spec 270 (lenZ text)); [|lia]. unfold failure. do 3 x_step. left.
    split; [done|]. split; [done|]. left. by left.
  - destruct (host_buffer text) as [b Hb]; [lia|]. eapply wp_access; [done|]. cbn [fst snd].
    destruct (Z.leb_spec 270 (lenZ text)); [lia|].
    eapply wp_mono; [by eapply wp_check_names; [|intros; apply check_loop_two]|]. tauto.
Qed.

(** C17: [knownhost_check] answers what a search over the entries answers: it looks for
    [\[host\]:port], when a port is given, and then for [host]; MATCH with the first entry
    for the host, by name or by salted hash, whose key has an acceptable type and is the
    key given; otherwise MISMATCH with the first entry for the host and an acceptable
    type; otherwise NOTFOUND. FAILURE is possible only when the host is too long for the
    buffer or memory runs out for the text of a raw key. The entries do not change. *)
Theorem knownhost_check_lookup s h t r port key keylen k typemask want
    (Hh : hosts_ok h) (Ht : no_nul t) (Hp : port < 2 ^ 31)
    (Htype : host_type typemask <> LIBSSH2_KNOWNHOST_TYPE_SHA1) (Hk : key_text typemask key keylen k) :
  wp (knownhost_check hmac_sha1 (t ++ 0 :: r) port key keylen typemask want)
    (fun res e =>
       (res = (LIBSSH2_KNOWNHOST_CHECK_FAILURE, None) /\ x_data e = h /\
        (Exists (fun n => 270 <= lenZ n) (host_names port t) \/
         has typemask LIBSSH2_KNOWNHOST_KEYENC_BASE64 = false /\ ~ Forall (eq true) (s_alloc s))) \/
       checked typemask want h (host_names port t) k res (x_data e))
    (mk_ext s h).
Proof. by apply wp_knownhost_check. Qed.
End CheckSpec.
