(* ===== verification/KnownhostRead.v ===== *)
(** * Adding, reading and printing known hosts

    What [knownhost_add] builds, that no file makes the parser leave its memory, and that
    a printed line is read back. *)

From stdpp Require Import base numbers list gmap strings.
From S2P Require Import Prelude Codes CString KexMethods Wire Base64 Session ChannelWindow Packet Conn Comp Numerals Ext Knownhost KnownhostSpec.

(** ** Adding *)

Definition alloc_fine (s : session) : Prop := Forall (eq true) (s_alloc s).
Definition decodes (t d : list Z) : Prop := base64_decode (fresh_block true) t = Some (0, Some d).

(** A string argument of a sensible length. *)
Definition c_arg (l t : list Z) : Prop := no_nul t /\ bytes_ok t /\ lenZ t < 2 ^ 30 /\ exists r, l = t ++ 0 :: r.

Lemma wp_decode64 t (Q : Z + list Z -> ext knownhosts -> Prop) s h :
  bytes_ok t -> lenZ t < 2 ^ 30 ->
  (forall s' d, kh_session s s' -> decodes t d -> Q (inr d) (mk_ext s' h)) ->
  (forall s' rc, kh_session s s' -> rc < 0 -> ~ (alloc_fine s /\ exists d, decodes t d) -> Q (inl rc) (mk_ext s' h)) ->
  wp (decode64 t) Q (mk_ext s h).
Proof.
  intros Ht Hl Hok Hbad. unfold decode64. x_step. apply wp_kalloc. intros s' b Hs Hb. x_step.
  destruct (base64_decode_total (fresh_block b) t) as (rc & out & E & Hout); [apply _|done|lia|].
  eapply wp_access; [done|]. cbn [fst snd]. destruct out as [d|].
  - destruct b; [|done]. x_step. apply Hok; [done|]. destruct Hout as [-> _]. done.
  - assert (Hno : ~ (alloc_fine s /\ exists d, decodes t d)).
    { intros [Hf [d Hd]]. rewrite (Hb Hf) in E. unfold decodes in Hd. congruence. }
    x_step. destruct (rc =? LIBSSH2_ERROR_ALLOC); apply wp_kerror; intros s2 Hs2; x_step;
      (apply Hbad; [by etransitivity|done|done]).
Qed.

Lemma strlen_arg l t : c_arg l t -> strlen l 0 = Some (lenZ t).
Proof. intros (Hn & _ & _ & r & ->). unfold strlen. rewrite decide_True by lia. change (Z.to_nat 0) with 0%nat. by rewrite drop_0, c_string_app. Qed.

Lemma bytes_at_prefix a b n : n = lenZ a -> bytes_at (a ++ b) 0 n = Some a.
Proof.
  intros ->. pose proof (lenZ_nonneg a). pose proof (lenZ_nonneg b).
  rewrite bytes_at_in by (rewrite ?lenZ_app; lia). f_equal. apply (slice_app_mid [] a b).
Qed.

Section AddSpec.
Context (host : list Z) (salt key_type_name : option (list Z)) (key_type_len : Z).
Context (key : list Z) (keylen : Z) (comment : option (list Z)) (commentlen typemask : Z).
Context (t st k : list Z).

(** What the arguments denote: the strings [t] and [st] of the host and the salt, and
    the text [k] of the key. *)
Record add_args : Prop := {
  aa_host : c_arg host t;
  aa_salt : host_type typemask = LIBSSH2_KNOWNHOST_TYPE_SHA1 -> exists l, salt = Some l /\ c_arg l st;
  aa_type_name : forall n, key_type_name = Some n -> 0 <= key_type_len <= lenZ n;
  aa_key : if has typemask LIBSSH2_KNOWNHOST_KEYENC_BASE64
           then exists c r, key = k ++ c :: r /\ (keylen = lenZ k /\ keylen <> 0 \/ keylen = 0 /\ c = 0 /\ no_nul k)
           else exists d r, key = d ++ r /\ bytes_ok d /\ lenZ d = keylen /\ 0 < keylen < 2 ^ 30 /\ k = enc d;
  aa_comment : forall c, comment = Some c -> 0 <= commentlen < lenZ c
}.

(** The name in the entry. *)
Definition named (e : known_host) : Prop :=
  if host_type typemask =? LIBSSH2_KNOWNHOST_TYPE_SHA1 then
    exists d sd, decodes t d /\ decodes st sd /\ kh_name e = Some d /\ kh_name_len e = lenZ d /\
      kh_salt e = Some sd /\ kh_salt_len e = lenZ sd
  else kh_name e = Some (t ++ [0]) /\ kh_name_len e = lenZ t /\ kh_salt e = None /\ kh_salt_len e = 0.

(** The entry that is added. *)
Record entry_for (e : known_host) : Prop := {
  ef_mask : kh_typemask e = typemask;
  ef_named : named e;
  ef_key : kh_key e = Some (k ++ [0]);
  ef_type_name : kh_key_type_name e =
    if key_type_of typemask =? LIBSSH2_KNOWNHOST_KEY_UNKNOWN
    then (fun n => slice 0 key_type_len n ++ [0]) <$> key_type_name else None;
  ef_type_len : kh_key_type_len e =
    if key_type_of typemask =? LIBSSH2_KNOWNHOST_KEY_UNKNOWN
    then match key_type_name with Some _ => key_type_len | None => 0 end else 0;
  ef_comment : kh_comment e = (fun c => slice 0 commentlen c ++ [0]) <$> comment;
  ef_comment_len : kh_comment_len e = match comment with Some _ => commentlen | None => 0 end;
  ef_port : kh_port e = 0;
  ef_ext : kh_external e = external_0
}.

Definition type_known : Prop :=
  host_type typemask = LIBSSH2_KNOWNHOST_TYPE_PLAIN \/ host_type typemask = LIBSSH2_KNOWNHOST_TYPE_CUSTOM \/
  host_type typemask = LIBSSH2_KNOWNHOST_TYPE_SHA1.

(** The host can be added when memory does not run out. *)
Definition addable : Prop :=
  type_known /\ key_type_of typemask <> 0 /\
  (host_type typemask = LIBSSH2_KNOWNHOST_TYPE_SHA1 -> (exists d, decodes t d) /\ exists d, decodes st d).

Hypothesis Hargs : add_args.

Abbreviation fails s Q h :=
  (forall s' rc, kh_session s s' -> rc < 0 -> ~ (alloc_fine s /\ addable) -> Q (inl rc) (mk_ext s' h)).

Lemma wp_add_failed code msg (Q : Z + known_host -> ext knownhosts -> Prop) s0 s h :
  kh_session s0 s -> code < 0 -> ~ (alloc_fine s0 /\ addable) -> fails s0 Q h ->
  wp (add_failed code msg) Q (mk_ext s h).
Proof.
  intros H0 Hc Hno HQ. unfold add_failed. x_step. apply wp_kerror. intros s' Hs. x_step.
  apply HQ; [by etransitivity|done|done].
Qed.

(** An allocation that leads to success or to a failure. *)
Lemma wp_kalloc_or code msg (k' : KM (Z + known_host)) (Q : Z + known_host -> ext knownhosts -> Prop) s h :
  code < 0 -> fails s Q h ->
  (forall s', kh_session s s' -> wp k' Q (mk_ext s' h)) ->
  wp (let! ok := kalloc in if negb ok then add_failed code msg else k') Q (mk_ext s h).
Proof.
  intros Hc Hbad Hk. x_step. apply wp_kalloc. intros s' b Hs Hb. destruct b; cbn [negb]; [by apply Hk|].
  eapply wp_add_failed; [done|done| |done]. intros [Hf _]. by specialize (Hb Hf).
Qed.

(** Failing later is failing. *)
Lemma fails_later s s' (Q : Z + known_host -> ext knownhosts -> Prop) h : kh_session s s' -> fails s Q h -> fails s' Q h.
Proof.
  intros Hs HQ s2 rc Hs2 Hrc Hno. apply HQ; [by etransitivity|done|]. intros [Hf Ha]. apply Hno. split; [|done]. by apply Hs.
Qed.

Lemma wp_add_name e (Q : Z + known_host -> ext knownhosts -> Prop) s h :
  kh_typemask e = typemask -> kh_salt e = None -> kh_salt_len e = 0 ->
  (forall s' n nl sa sl, kh_session s s' ->
     let e' := e <| kh_name := n |> <| kh_name_len := nl |> <| kh_salt := sa |> <| kh_salt_len := sl |> in
     type_known -> named e' -> Q (inr e') (mk_ext s' h)) ->
  fails s Q h ->
  wp (add_name host salt (lenZ t) e) Q (mk_ext s h).
Proof.
  intros He Hsa Hsl Hok Hbad. destruct Hargs as [Hh Hsalt _ _ _]. unfold add_name. rewrite He.
  pose proof Hh as (Hn & Hb & Hl & r & Hhost).
  destruct (_ || _) eqn:E.
  - apply wp_kalloc_or; [done|done|]. intros s' Hs. x_step. rewrite Hhost.
    rewrite (app_assoc t [0] r : t ++ 0 :: r = (t ++ [0]) ++ r).
    eapply wp_access; [apply bytes_at_prefix; by rewrite lenZ_app|]. x_step.
    specialize (Hok s' (Some (t ++ [0])) (lenZ t) None 0 Hs). simpl in Hok.
    replace (e <| kh_name := Some (t ++ [0]) |> <| kh_name_len := lenZ t |>)
      with (e <| kh_name := Some (t ++ [0]) |> <| kh_name_len := lenZ t |> <| kh_salt := None |> <| kh_salt_len := 0 |>)
      by (destruct e; simpl in *; congruence).
    apply Hok; [apply orb_true_iff in E as [E|E]; apply Z.eqb_eq in E; unfold type_known; tauto|].
    unfold named. apply orb_true_iff in E as [E|E]; apply Z.eqb_eq in E; by rewrite E.
  - apply orb_false_iff in E as [E1%Z.eqb_neq E2%Z.eqb_neq].
    destruct (Z.eqb_spec (host_type typemask) LIBSSH2_KNOWNHOST_TYPE_SHA1) as [E3|E3].
    + destruct (Hsalt E3) as (l & -> & Hsn & Hsb & Hsll & sr & ->).
      x_step. eapply wp_access; [rewrite Hhost; by apply bytes_at_prefix|]. x_step.
      apply wp_decode64; [done|done| |].
      * intros s1 d Hs1 Hd. x_step. eapply wp_access; [done|]. x_step. eapply wp_access; [by apply c_string_app|]. x_step.
        apply wp_decode64; [done|done| |].
        -- intros s2 sd Hs2 Hsd. x_step. apply Hok; [by etransitivity|unfold type_known; tauto|].
           unfold named. rewrite E3. simpl. eauto 10.
        -- intros s2 rc Hs2 Hrc Hno. x_step. apply Hbad; [by etransitivity|done|].
           intros [Hf (_ & _ & Ha)]. apply Hno. split; [by apply Hs1|]. by apply Ha.
      * intros s1 rc Hs1 Hrc Hno. x_step. apply Hbad; [done|done|].
        intros [Hf (_ & _ & Ha)]. apply Hno. split; [done|]. by apply Ha.
    + eapply wp_add_failed; [done|done| |done]. intros [_ [Hk _]]. unfold type_known in Hk. tauto.
Qed.

Lemma strlen_zero a r : no_nul a -> strlen (a ++ 0 :: r) 0 = Some (lenZ a).
Proof.
  intros Ha. unfold strlen. rewrite decide_True by lia. change (Z.to_nat 0) with 0%nat.
  by rewrite drop_0, c_string_app.
Qed.

Lemma wp_add_key e (Q : Z + known_host -> ext knownhosts -> Prop) s h :
  (forall s', kh_session s s' -> Q (inr (e <| kh_key := Some (k ++ [0]) |>)) (mk_ext s' h)) ->
  fails s Q h -> wp (add_key key keylen typemask e) Q (mk_ext s h).
Proof.
  intros Hok Hbad. destruct Hargs as [_ _ _ Hk _]. unfold add_key.
  destruct (has typemask LIBSSH2_KNOWNHOST_KEYENC_BASE64).
  - destruct Hk as (c & r & -> & Hk).
    assert (Hcopy : wp (let! ok := kalloc in
        if negb ok then add_failed LIBSSH2_ERROR_ALLOC "Unable to allocate memory for key"
        else let! d := access (bytes_at (k ++ c :: r) 0 (lenZ k + 1)) in
             ret (inr (e <| kh_key := Some (take (Z.to_nat (lenZ k)) d ++ [0]) |>))) Q (mk_ext s h)).
    { apply wp_kalloc_or; [done|done|]. intros s' Hs. x_step.
      eapply wp_access; [rewrite (app_assoc k [c] r : k ++ c :: r = _); apply bytes_at_prefix; by rewrite lenZ_app|].
      x_step. rewrite take_lenZ by done. by apply Hok. }
    x_step. destruct Hk as [[-> Hk]|(-> & -> & Hk)].
    + destruct (Z.eqb_spec (lenZ k) 0); [done|]. x_step. apply Hcopy.
    + cbn [Z.eqb]. eapply wp_access; [by apply strlen_zero|]. apply Hcopy.
  - destruct Hk as (d & r & -> & Hd & Hl & Hn & ->). x_step. eapply wp_encode64; [done..|].
    intros s' b Hs Hb. destruct b; [x_step; by apply Hok|]. eapply wp_add_failed; [done|done| |done].
    intros [Hf _]. by specialize (Hb Hf).
Qed.

Lemma wp_add_key_type e (Q : Z + known_host -> ext knownhosts -> Prop) s h :
  kh_key_type_name e = None -> kh_key_type_len e = 0 ->
  (forall s' n l, kh_session s s' ->
     let e' := e <| kh_key_type_name := n |> <| kh_key_type_len := l |> in
     n = (if key_type_of typemask =? LIBSSH2_KNOWNHOST_KEY_UNKNOWN
          then (fun n => slice 0 key_type_len n ++ [0]) <$> key_type_name else None) ->
     l = (if key_type_of typemask =? LIBSSH2_KNOWNHOST_KEY_UNKNOWN
          then match key_type_name with Some _ => key_type_len | None => 0 end else 0) ->
     Q (inr e') (mk_ext s' h)) ->
  fails s Q h -> wp (add_key_type key_type_name key_type_len typemask e) Q (mk_ext s h).
Proof.
  intros He1 He2 Hok Hbad. destruct Hargs as [_ _ Hn _ _]. unfold add_key_type.
  assert (Hsame : e <| kh_key_type_name := None |> <| kh_key_type_len := 0 |> = e)
    by (destruct e; simpl in *; congruence).
  destruct key_type_name as [n|].
  - specialize (Hn n eq_refl). destruct (_ =? _).
    + apply wp_kalloc_or; [done|done|]. intros s' Hs. x_step. eapply wp_access; [apply bytes_at_in; lia|].
      x_step. by apply Hok.
    + x_step. specialize (Hok s None 0). simpl in Hok. rewrite <- Hsame. by apply Hok.
  - x_step. specialize (Hok s None 0). simpl in Hok. rewrite <- Hsame. apply Hok; [done|by destruct (_ =? _)..].
Qed.

Lemma wp_add_comment e (Q : Z + known_host -> ext knownhosts -> Prop) s h :
  kh_comment_len e = 0 ->
  (forall s' c l, kh_session s s' ->
     let e' := e <| kh_comment := c |> <| kh_comment_len := l |> in
     c = (fun c => slice 0 commentlen c ++ [0]) <$> comment ->
     l = match comment with Some _ => commentlen | None => 0 end -> Q (inr e') (mk_ext s' h)) ->
  fails s Q h -> wp (add_comment comment commentlen e) Q (mk_ext s h).
Proof.
  intros He Hok Hbad. destruct Hargs as [_ _ _ _ Hc]. unfold add_comment. destruct comment as [c|].
  - specialize (Hc c eq_refl). apply wp_kalloc_or; [done|done|]. intros s' Hs. x_step.
    eapply wp_access; [apply bytes_at_in; lia|]. x_step.
    assert (take (Z.to_nat commentlen) (slice 0 (commentlen + 1) c) = slice 0 commentlen c) as ->; [|by apply Hok].
    unfold slice. rewrite take_take. f_equal. lia.
  - x_step. specialize (Hok s None 0). simpl in Hok.
    assert (e <| kh_comment := None |> = e <| kh_comment := None |> <| kh_comment_len := 0 |>) as ->
      by (destruct e; simpl in *; congruence). by apply Hok.
Qed.

Lemma wp_then_entry m k' (Q : Z + known_host -> ext knownhosts -> Prop) x :
  wp m (fun r x => match r with inl rc => Q (inl rc) x | inr e => wp (k' e) Q x end) x -> wp (then_entry m k') Q x.
Proof. intros H. unfold then_entry. x_step. eapply wp_mono; [exact H|]. by intros [rc|e] x' HQ. Qed.

(** The entry, built step by step. *)
Lemma wp_entry (Q : Z + known_host -> ext knownhosts -> Prop) s h :
  (forall s' e, kh_session s s' -> type_known -> entry_for e -> Q (inr e) (mk_ext s' h)) -> fails s Q h ->
  wp (then_entry (then_entry (then_entry (add_name host salt (lenZ t) (known_host_0 <| kh_typemask := typemask |>))
        (add_key key keylen typemask)) (add_key_type key_type_name key_type_len typemask)) (add_comment comment commentlen))
    Q (mk_ext s h).
Proof.
  intros Hok Hbad. do 3 apply wp_then_entry. apply wp_add_name; [done|done|done| |done].
  intros s1 n nl sa sl Hs1 e1 Hty Hn. apply wp_add_key; [|by eapply fails_later]. intros s2 Hs2.
  apply wp_add_key_type; [done|done| |eapply (fails_later s); [by etransitivity|done]]. intros s3 kn kl Hs3 e3 Hkn Hkl.
  assert (Hs03 : kh_session s s3) by (by do 2 (etransitivity; [done|])).
  apply wp_add_comment; [done| |by eapply fails_later]. intros s4 c cl Hs4 e4 Hc Hcl.
  apply Hok; [by etransitivity|done|]. by split.
Qed.

(** The collection with one more entry. *)
Definition push (h : knownhosts) (e : known_host) : knownhosts :=
  h <| knh_nodes ::= <[knh_next h := e]> |> <| knh_head ::= fun l => l ++ [knh_next h] |>
    <| knh_next := Pos.succ (knh_next h) |>.

(** What [knownhost_add] does: it fails and leaves the entries alone, or it appends the
    entry; it does not fail when memory does not run out and the argument is in order. *)
Lemma wp_knownhost_add (store : bool) (Q : Z * option ptr -> ext knownhosts -> Prop) s h :
  hosts_ok h ->
  (forall s' rc h', kh_session s s' -> rc < 0 -> ~ (alloc_fine s /\ addable) ->
     knh_head h' = knh_head h -> knh_nodes h' = knh_nodes h -> (knh_next h <= knh_next h')%positive ->
     Q (rc, None) (mk_ext s' h')) ->
  (forall s' e h', kh_session s s' -> type_known -> key_type_of typemask <> 0 -> entry_for e ->
     (if store then same_entries (push h e) h' else h' = push h e) ->
     Q (0, if store then Some (knh_next h) else None) (mk_ext s' h')) ->
  wp (knownhost_add host salt key_type_name key_type_len key keylen comment commentlen typemask store) Q (mk_ext s h).
Proof.
  intros Hh Hbad Hok. unfold knownhost_add. x_step. eapply wp_access; [apply strlen_arg, Hargs|].
  destruct (Z.eqb_spec (key_type_of typemask) 0) as [Ek|Ek].
  { x_step. apply wp_kerror. intros s' Hs. x_step. apply Hbad; [done|done| |done|done|done].
    intros [_ (_ & Ha & _)]. done. }
  x_step. apply wp_kalloc. intros s1 b Hs1 Hb. destruct b; cbn [negb]; last first.
  { x_step. apply wp_kerror. intros s' Hs. x_step. apply Hbad; [by etransitivity|done| |done|done|done].
    intros [Hf _]. by specialize (Hb Hf). }
  x_step. x_step. x_step. x_step. x_step. set (p := knh_next h) in *.
  set (e0 := known_host_0 <| kh_typemask := typemask |>). set (h1 := h <| knh_nodes ::= _ |> <| knh_next := _ |>).
  assert (Hfail : forall s' rc, kh_session s1 s' -> rc < 0 -> ~ (alloc_fine s1 /\ addable) ->
    wp (free_host p ;; ret (rc, None)) Q (mk_ext s' h1)).
  { intros s' rc Hs Hrc Hno. x_step. unfold free_host. x_step. eapply wp_node; [apply lookup_insert_eq|].
    x_step. x_step. apply Hbad; [by etransitivity|done| |done| |simpl; lia].
    - intros [Hf Ha]. apply Hno. split; [by apply Hs1|done].
    - simpl. rewrite delete_insert_eq, delete_id; [done|]. apply (ho_fresh h Hh). lia. }
  apply wp_entry; [|done]. intros s2 e Hs2 Hty He. x_step. x_step.
  assert (Hp : h1 <| knh_nodes ::= <[p := e]> |> <| knh_head ::= fun l => l ++ [p] |> = push h e)
    by (unfold push; simpl; by rewrite insert_insert_eq). rewrite Hp.
  specialize (Hok s2 e). destruct store.
  - x_step. eapply wp_to_external; [apply lookup_insert_eq|]. intros h' Hs'. x_step.
    by apply Hok; [etransitivity|..].
  - x_step. apply Hok; [by etransitivity|done..].
Qed.
End AddSpec.

(** ** The collection after an entry was added *)

Definition nodes_list (h : knownhosts) : list known_host := (entries h).*2.

Lemma c_string_terminated a : is_Some (c_string (a ++ [0])).
Proof.
  induction a as [|c a [x IH]]; [by eexists|]. simpl. destruct (c =? 0); [by eexists|]. rewrite IH. by eexists.
Qed.

Lemma entry_node_ok host salt ktn ktl key keylen comment cl mask t st k e :
  add_args host salt ktn ktl key keylen comment cl mask t st k -> type_known mask -> key_type_of mask <> 0 ->
  entry_for ktn ktl comment cl mask t st k e -> node_ok e.
Proof.
  intros Ha Hty Hk [Hm Hn Hkey _ _ _ _ _ _]. split; rewrite ?Hm.
  - unfold named in Hn. intros [E|E]; rewrite E in Hn; destruct Hn as (H1 & H2 & _); exists t;
      (split; [|done]); (split; [apply (aa_host _ _ _ _ _ _ _ _ _ _ _ _ Ha)|done]).
  - unfold named in Hn. intros E. rewrite E in Hn. destruct Hn as (d & sd & _ & _ & H1 & H2 & H3 & H4).
    by exists d, sd.
  - done.
  - rewrite Hkey. eexists. split; [done|]. apply c_string_terminated.
  - done.
Qed.

Lemma entries_of_same h h' ps :
  (forall p, p ∈ ps -> knh_nodes h' !! p = knh_nodes h !! p) -> entries_of h' ps = entries_of h ps.
Proof.
  induction ps as [|p ps IH]; intros H; [done|]. rewrite !entries_of_cons, IH by (intros; apply H; by right).
  by rewrite (H p) by (by left).
Qed.

Lemma entries_of_app h a b : entries_of h (a ++ b) = entries_of h a ++ entries_of h b.
Proof. apply omap_app. Qed.

Lemma push_ok h e : hosts_ok h -> node_ok e -> kh_external e = external_0 -> hosts_ok (push h e).
Proof.
  intros [Hnd Hl Hn Hf Hx] He Hex. assert (Hfr : knh_nodes h !! knh_next h = None) by (apply Hf; lia).
  split; simpl.
  - apply NoDup_app. split; [done|]. split; [|apply NoDup_singleton].
    intros p Hp ->%list_elem_of_singleton. apply Hl in Hp as [? Hp]. congruence.
  - intros p. rewrite elem_of_app, list_elem_of_singleton, Hl. destruct (decide (knh_next h = p)) as [<-|Hne].
    + rewrite lookup_insert_eq. split; [by eexists|by right].
    + rewrite lookup_insert_ne by done. split; [by intros [|]|by left].
  - intros p n. destruct (decide (knh_next h = p)) as [<-|Hne].
    + rewrite lookup_insert_eq. by intros [= <-].
    + rewrite lookup_insert_ne by done. apply Hn.
  - intros p Hp. rewrite lookup_insert_ne by lia. apply Hf. lia.
  - intros p n. destruct (decide (knh_next h = p)) as [<-|Hne].
    + rewrite lookup_insert_eq. intros [= <-]. by left.
    + rewrite lookup_insert_ne by done. apply Hx.
Qed.

Lemma nodes_push h e : hosts_ok h -> nodes_list (push h e) = nodes_list h ++ [e].
Proof.
  intros Hh. unfold nodes_list, entries. simpl. rewrite entries_of_app, fmap_app.
  rewrite (entries_of_same h).
  - rewrite entries_of_cons. simpl. by rewrite lookup_insert_eq.
  - intros p Hp. simpl. rewrite lookup_insert_ne; [done|]. intros <-. apply (ho_live h Hh) in Hp as [? Hp].
    rewrite (ho_fresh h Hh) in Hp by lia. done.
Qed.

Lemma unchanged_ok h h' : hosts_ok h -> knh_head h' = knh_head h -> knh_nodes h' = knh_nodes h ->
  (knh_next h <= knh_next h')%positive -> hosts_ok h' /\ nodes_list h' = nodes_list h.
Proof.
  intros [Hnd Hl Hn Hf Hx] E1 E2 Hle. split.
  - split; rewrite ?E1, ?E2; [done..| |done]. intros p Hp. apply Hf. lia.
  - unfold nodes_list, entries. rewrite E1. by rewrite (entries_of_same h) by (by rewrite E2).
Qed.

(** ** A parsed line *)

Definition key_types : list Z :=
  [LIBSSH2_KNOWNHOST_KEY_RSA1; LIBSSH2_KNOWNHOST_KEY_SSHRSA; LIBSSH2_KNOWNHOST_KEY_SSHDSS;
   LIBSSH2_KNOWNHOST_KEY_ECDSA_256; LIBSSH2_KNOWNHOST_KEY_ECDSA_384; LIBSSH2_KNOWNHOST_KEY_ECDSA_521;
   LIBSSH2_KNOWNHOST_KEY_ED25519; LIBSSH2_KNOWNHOST_KEY_UNKNOWN].

(** The mask of an entry that was read. *)
Definition read_mask (key_type type : Z) : Z := Z.lor (Z.lor key_type type) LIBSSH2_KNOWNHOST_KEYENC_BASE64.

Lemma read_mask_parts kt type :
  kt ∈ key_types -> type = LIBSSH2_KNOWNHOST_TYPE_PLAIN \/ type = LIBSSH2_KNOWNHOST_TYPE_SHA1 ->
  host_type (read_mask kt type) = type /\ key_type_of (read_mask kt type) = kt /\ kt <> 0 /\
  has (read_mask kt type) LIBSSH2_KNOWNHOST_KEYENC_BASE64 = true.
Proof.
  intros Hk Ht. unfold key_types in Hk. rewrite !elem_of_cons, elem_of_nil in Hk.
  destruct Ht as [-> | ->]; destruct_or! Hk; subst; done.
Qed.

(** What an operation leaves: the old entries, and new ones. *)
Definition grown (s : session) (h : knownhosts) (es : list known_host) (x : ext knownhosts) : Prop :=
  kh_session s (x_session x) /\ hosts_ok (x_data x) /\ nodes_list (x_data x) = nodes_list h ++ es.

Lemma grown_trans s h es s1 h1 es' x : grown s h es (mk_ext s1 h1) -> grown s1 h1 es' x -> grown s h (es ++ es') x.
Proof.
  intros (H1 & H2 & H3) (K1 & K2 & K3). split; [by etransitivity|]. split; [done|].
  rewrite K3. simpl in H3. by rewrite H3, app_assoc.
Qed.

Section LineSpec.
Context (ktn : option (list Z)) (ktl : Z) (key : list Z) (keylen kt : Z) (comment : option (list Z)) (cl : Z).
Context (k : list Z).

(** What [hostline] hands on: a type of key, and the text [k] of the key. *)
Record line_args : Prop := {
  la_kt : kt ∈ key_types;
  la_name : forall n, ktn = Some n -> 0 <= ktl <= lenZ n;
  la_key : exists c r, key = k ++ c :: r /\ (keylen = lenZ k /\ keylen <> 0 \/ keylen = 0 /\ c = 0 /\ no_nul k);
  la_comment : forall c, comment = Some c -> 0 <= cl < lenZ c
}.
Hypothesis Hla : line_args.

Definition read_entry (type : Z) (t st : list Z) (e : known_host) : Prop :=
  entry_for ktn ktl comment cl (read_mask kt type) t st k e.

Lemma wp_add_line host salt type t st (Q : Z -> ext knownhosts -> Prop) s h :
  hosts_ok h -> c_arg host t ->
  type = LIBSSH2_KNOWNHOST_TYPE_PLAIN \/ type = LIBSSH2_KNOWNHOST_TYPE_SHA1 /\ (exists l, salt = Some l /\ c_arg l st) ->
  (forall x rc, grown s h [] x -> rc < 0 -> ~ (alloc_fine s /\ addable (read_mask kt type) t st) -> Q rc x) ->
  (forall x e, grown s h [e] x -> read_entry type t st e -> Q 0 x) ->
  wp (add_line ktn ktl key keylen kt comment cl host salt type) Q (mk_ext s h).
Proof.
  intros Hh Hc Hty Hbad Hok. destruct Hla as [Hkt Hn Hk Hco].
  destruct (read_mask_parts kt type Hkt) as (M1 & M2 & M3 & M4); [tauto|].
  assert (Ha : add_args host salt ktn ktl key keylen comment cl (read_mask kt type) t st k).
  { split; [done| |done| |done].
    - rewrite M1. intros ->. by destruct Hty as [|[_ ?]].
    - by rewrite M4. }
  unfold add_line. fold (read_mask kt type). x_step. eapply wp_knownhost_add; [done|done| |].
  - intros s' rc h' Hs Hrc Hno E1 E2 E3. x_step. destruct (unchanged_ok h h') as [U1 U2]; [done..|].
    apply Hbad; [|done|done]. split; [done|]. split; [done|]. simpl. by rewrite U2, app_nil_r.
  - intros s' e h' Hs Htk Hke He ->. x_step. apply (Hok _ e); [|done]. split; [done|]. split.
    + apply push_ok; [done|by eapply entry_node_ok|apply He].
    + simpl. by apply nodes_push.
Qed.

(** *** Plain names *)

Definition plain_entry (t : list Z) (e : known_host) : Prop := read_entry LIBSSH2_KNOWNHOST_TYPE_PLAIN t [] e.

Lemma addable_plain t st : addable (read_mask kt LIBSSH2_KNOWNHOST_TYPE_PLAIN) t st.
Proof.
  destruct Hla as [Hkt _ _ _]. destruct (read_mask_parts kt LIBSSH2_KNOWNHOST_TYPE_PLAIN Hkt) as (M1 & M2 & M3 & M4); [tauto|].
  unfold addable, type_known. rewrite M1, M2. split; [tauto|]. split; [done|]. done.
Qed.

Lemma wp_add_plain t (Q : Z -> ext knownhosts -> Prop) s h :
  hosts_ok h -> no_nul t -> bytes_ok t -> lenZ t < 2 ^ 30 ->
  (forall x rc, grown s h [] x -> rc < 0 -> ~ alloc_fine s -> Q rc x) ->
  (forall x e, grown s h [e] x -> plain_entry t e -> Q 0 x) ->
  wp (add_line ktn ktl key keylen kt comment cl (t ++ [0]) None LIBSSH2_KNOWNHOST_TYPE_PLAIN) Q (mk_ext s h).
Proof.
  intros Hh Hn Hb Hl Hbad Hok. apply (wp_add_line _ _ _ t []); [done| |by left| |done].
  - split; [done|]. split; [done|]. split; [done|by exists []].
  - intros x rc Hx Hrc Hno. apply Hbad; [done|done|]. intros Hf. apply Hno. split; [done|apply addable_plain].
Qed.

(** How reading a line ends: entries are added, or the return value tells of a failure. *)
Definition read_done (s : session) (h : knownhosts) (rc : Z) (x : ext knownhosts) : Prop :=
  rc <= 0 /\ exists es, grown s h es x.

Lemma wp_parse_error msg s h s0 h0 es :
  grown s0 h0 es (mk_ext s h) -> wp (parse_error msg) (read_done s0 h0) (mk_ext s h).
Proof.
  intros (H1 & H2 & H3). apply wp_kerror. intros s' Hs. split; [done|]. exists es. split; [by etransitivity|done].
Qed.

(** The names of a line, whatever they are. *)
Lemma wp_oldstyle_loop u rest s0 h0 : no_nul u -> bytes_ok u ->
  forall name namelen s h es, grown s0 h0 es (mk_ext s h) -> 0 <= namelen -> Z.of_nat name + namelen <= lenZ u ->
  wp (oldstyle_loop ktn ktl key keylen kt comment cl (u ++ rest) name namelen) (read_done s0 h0) (mk_ext s h).
Proof.
  intros Hu Hb name. induction (lt_wf name) as [name _ IH]. intros namelen s h es Hg H0 Hl.
  destruct name as [|name']; [split; [done|by exists es]|]. cbn [oldstyle_loop].
  x_step. eapply (wp_mono _ (fun b x => x = mk_ext s h)).
  { destruct name' as [|before]; [by x_step|]. x_step.
    destruct (lookup_lt_is_Some_2 (u ++ rest) before) as [c Hc]; [rewrite length_app; unfold lenZ in Hl; lia|].
    eapply wp_access; [done|]. by x_step. }
  intros first x ->. destruct first; [|eapply IH; [lia|done|lia|lia]].
  destruct (Z.leb_spec 255 (namelen + 1)); [by eapply wp_parse_error|]. x_step.
  pose proof (lenZ_nonneg rest).
  eapply wp_access; [apply bytes_at_in; [lia|lia|rewrite lenZ_app; lia]|].
  set (t := slice (Z.of_nat name') (namelen + 1) (u ++ rest)).
  assert (Ht : t = slice (Z.of_nat name') (namelen + 1) u).
  { unfold t, slice. unfold lenZ in Hl. rewrite drop_app_le, take_app_le; [done|rewrite length_drop; lia|lia]. }
  assert (Htl : lenZ t = namelen + 1) by (rewrite Ht; apply lenZ_slice; lia).
  x_step. apply wp_add_plain; [apply Hg| | |lia| |].
  - rewrite Ht. unfold slice, no_nul. by apply Forall_take, Forall_drop.
  - rewrite Ht. by apply slice_bytes_ok.
  - intros x rc Hx Hrc _. destruct (Z.eqb_spec rc 0); [lia|]. cbn [negb]. x_step. split; [lia|].
    exists (es ++ []). destruct x. by eapply grown_trans.
  - intros [s' h'] e Hx He. cbn [negb Z.eqb]. pose proof (grown_trans _ _ _ _ _ _ _ Hg Hx) as Hg'.
    destruct name' as [|before]; [x_step; split; [done|by eexists]|]. eapply IH; [lia|done|lia|lia].
Qed.
(** *** Hashed names *)

Lemma span_split f l w : span f l = Some w ->
  exists c r, l = w ++ c :: r /\ f c = false /\ Forall (fun b => f b = true) w.
Proof.
  revert w. induction l as [|c l IH]; intros w; simpl; [done|]. destruct (f c) eqn:E.
  - destruct (span f l) as [w'|]; simpl; [|done]. intros [= <-].
    destruct (IH w' eq_refl) as (c' & r & -> & H1 & H2). exists c', r. split; [done|]. split; [done|by constructor].
  - intros [= <-]. by exists c, l.
Qed.

Lemma not_bar_no_nul w : Forall (fun b => not_bar b = true) w -> no_nul w.
Proof. intros H. eapply Forall_impl; [exact H|]. intros b Hb ->. done. Qed.

(** The length of the hash, where the subtractions wrap around when the field ends
    before the hash. *)
Lemma hash_len n m : 0 <= n < 2 ^ 31 -> 0 <= m < 31 ->
  u64 (u64 (n - 3) - (m + 1)) < 255 -> u64 (u64 (n - 3) - (m + 1)) = n - 4 - m /\ 0 <= n - 4 - m.
Proof. intros Hn Hm. unfold u64. dlia. Qed.

Lemma wp_hashed_hostline u rest i s h : no_nul u -> bytes_ok (u ++ rest) -> lenZ u < 2 ^ 31 ->
  (3 <= i)%nat -> (u ++ rest) !! i = Some 0 -> hosts_ok h ->
  wp (hashed_hostline ktn ktl key keylen kt comment cl (u ++ rest) (lenZ u)) (read_done s h) (mk_ext s h).
Proof.
  intros Hu Hb Hul Hi Hz Hh. assert (Hg : grown s h [] (mk_ext s h)) by (split; [done|split; [done|by rewrite app_nil_r]]).
  unfold hashed_hostline. destruct (span_safe not_bar (drop 3 (u ++ rest)) (i - 3)) as (w & Hw & _); [done| |].
  { rewrite lookup_drop. by replace (3 + (i - 3))%nat with i by lia. }
  x_step. eapply wp_access; [done|]. destruct (span_split _ _ _ Hw) as (c & r & Hd & Hc & Hwf).
  rewrite Hd. rewrite drop_app_length. x_step. eapply wp_access; [done|].
  destruct (Z.eqb_spec c 124) as [->|]; [|x_step; split; [done|by eexists]].
  destruct (Z.leb_spec 31 (lenZ w)); [by eapply wp_parse_error|]. cbn [tail].
  destruct (Z.leb_spec 255 (u64 (u64 (lenZ u - 3) - (lenZ w + 1)))); [by eapply wp_parse_error|].
  pose proof (lenZ_nonneg w). pose proof (lenZ_nonneg u). pose proof (lenZ_nonneg rest).
  destruct (hash_len (lenZ u) (lenZ w)) as [E Hn]; [lia|lia|lia|]. rewrite E.
  assert (Hr : r = drop (3 + length w + 1) (u ++ rest)).
  { rewrite <- !drop_drop, Hd, drop_app_length. done. }
  assert (Hlen : lenZ u - 4 - lenZ w <= lenZ r).
  { rewrite Hr. unfold lenZ in *. rewrite length_drop, length_app. lia. }
  x_step. eapply wp_access; [apply bytes_at_in; lia|].
  set (t := slice 0 (lenZ u - 4 - lenZ w) r).
  assert (Ht : t = drop (3 + length w + 1) u).
  { unfold t, slice. rewrite Hr, drop_0, drop_app_le by (unfold lenZ in *; lia). apply take_app_length'.
    rewrite length_drop. unfold lenZ in *. lia. }
  assert (Hbt : bytes_ok t) by (rewrite Ht; apply Forall_drop; by apply bytes_ok_app in Hb as [? _]).
  assert (Hbw : bytes_ok w).
  { assert (bytes_ok (drop 3 (u ++ rest))) as HB by (by apply Forall_drop). rewrite Hd in HB. by apply bytes_ok_app in HB as [? _]. }
  assert (Htl : lenZ t = lenZ u - 4 - lenZ w) by (apply lenZ_slice; lia).
  apply (wp_add_line _ _ _ t w); [done| | | |].
  - split; [rewrite Ht; by apply Forall_drop|]. split; [done|]. split; [lia|by exists []].
  - right. split; [done|]. eexists. split; [done|]. split; [by apply not_bar_no_nul|]. split; [done|].
    split; [lia|by exists []].
  - intros x rc Hx Hrc _. split; [lia|by eexists].
  - intros x e Hx _. split; [done|by eexists].
Qed.
End LineSpec.

(** ** The parser on arbitrary lines *)

Definition stops (f : Z -> bool) (l : list Z) : Prop := match l with [] => True | c :: _ => f c = false end.

Lemma break f (a : list Z) : exists a1 a2, a = a1 ++ a2 /\ Forall (fun c => f c = true) a1 /\ stops f a2.
Proof.
  induction a as [|c a (a1 & a2 & -> & H1 & H2)]; [by exists [], []|]. destruct (f c) eqn:E.
  - exists (c :: a1), a2. split; [done|]. split; [by constructor|done].
  - exists [], (c :: a1 ++ a2). split; [done|]. split; [constructor|done].
Qed.

Lemma scan_words f a1 a2 b : Forall (fun c => f c = true) a1 -> stops f a2 ->
  scan f ((a1 ++ a2) ++ b) (lenZ (a1 ++ a2)) = Some (a2 ++ b, lenZ a2).
Proof.
  intros H1 H2. induction H1 as [|c a1 Hc _ IH]; cbn [app].
  - destruct a2 as [|c a2]; cbn [app]; [by destruct b|]. cbn [scan]. rewrite lenZ_cons.
    pose proof (lenZ_nonneg a2). destruct (Z.eqb_spec (1 + lenZ a2) 0); [lia|]. simpl in H2. by rewrite H2.
  - cbn [scan]. rewrite lenZ_cons. pose proof (lenZ_nonneg (a1 ++ a2)).
    destruct (Z.eqb_spec (1 + lenZ (a1 ++ a2)) 0); [lia|]. rewrite Hc.
    by replace (1 + lenZ (a1 ++ a2) - 1) with (lenZ (a1 ++ a2)) by lia.
Qed.

Lemma scan_unbounded_words f a1 a2 b : Forall (fun c => f c = true) a1 -> stops f (a2 ++ b) -> a2 ++ b <> [] ->
  lenZ (a1 ++ a2) < 2 ^ 64 -> scan_unbounded f ((a1 ++ a2) ++ b) (lenZ (a1 ++ a2)) = Some (a2 ++ b, lenZ a2).
Proof.
  intros H1 H2 Hne. induction H1 as [|c a1 Hc _ IH]; cbn [app]; intros Hl.
  - destruct (a2 ++ b) as [|c l] eqn:E; [done|]. cbn [scan_unbounded]. simpl in H2. by rewrite H2.
  - cbn [scan_unbounded]. rewrite Hc. rewrite lenZ_cons in *. pose proof (lenZ_nonneg (a1 ++ a2)).
    rewrite u64_small by lia. replace (1 + lenZ (a1 ++ a2) - 1) with (lenZ (a1 ++ a2)) by lia. apply IH. lia.
Qed.

(** [strncmp] of a word with a keyword tests whether it is a prefix. *)
Lemma strncmp_prefix w : forall b pa r pb i j, no_nul w -> no_nul b -> i = lenZ pa -> j = lenZ pb ->
  strncmp_eq (length w) (pa ++ w ++ r) i (pb ++ b ++ [0]) j = Some (bool_decide (w `prefix_of` b)).
Proof.
  induction w as [|x w IH]; intros b pa r pb i j Hw Hb Hi Hj; cbn [length strncmp_eq].
  { by rewrite bool_decide_eq_true_2 by apply prefix_nil. }
  apply Forall_cons in Hw as [Hx Hw]. cbn [app]. rewrite byte_at_head by done. cbn [mbind option_bind].
  destruct b as [|y b]; cbn [app]; rewrite byte_at_head by done; cbn [mbind option_bind].
  - destruct (Z.eqb_spec x 0); [done|]. cbn [negb]. rewrite bool_decide_eq_false_2; [done|]. by intros ?%prefix_nil_inv.
  - apply Forall_cons in Hb as [Hy Hb]. destruct (Z.eqb_spec x y) as [<-|Hne]; cbn [negb].
    + destruct (Z.eqb_spec x 0); [done|].
      rewrite (app_assoc pa [x] (w ++ r) : pa ++ x :: w ++ r = _), (app_assoc pb [x] (b ++ [0]) : pb ++ x :: b ++ [0] = _).
      rewrite IH; [|done|done|rewrite lenZ_app; change (lenZ [x]) with 1; lia..]. f_equal. apply bool_decide_ext.
      split; [apply prefix_cons|apply prefix_cons_inv_2].
    + rewrite bool_decide_eq_false_2; [done|]. intros Hp. by apply prefix_cons_inv_1 in Hp.
Qed.

(** The type of key that a word stands for. *)
Fixpoint key_type_named (w : list Z) (kinds : list (string * Z)) : Z :=
  match kinds with
  | [] => LIBSSH2_KNOWNHOST_KEY_UNKNOWN
  | (k, t) :: kinds => if bool_decide (w `prefix_of` str k) then t else key_type_named w kinds
  end.

Lemma find_key_type_ok w r kinds : no_nul w -> Forall (fun kd => no_nul (str kd.1)) kinds ->
  find_key_type (lenZ w) (w ++ r) kinds = Some (key_type_named w kinds).
Proof.
  intros Hw. induction 1 as [|[kd t] kinds Hk _ IH]; [done|]. cbn [find_key_type key_type_named]. unfold key_named.
  replace (Z.to_nat (lenZ w)) with (length w) by (unfold lenZ; lia). pose proof (strncmp_prefix w (str kd) [] r [] 0 0 Hw Hk eq_refl eq_refl) as E. cbn [app] in E. rewrite E. cbn [mbind option_bind].
  by destruct (bool_decide _).
Qed.

Lemma key_kinds_no_nul : Forall (fun kd : string * Z => no_nul (str kd.1)) key_kinds.
Proof. repeat constructor; by unfold no_nul; repeat constructor. Qed.

Lemma key_type_named_in w : key_type_named w key_kinds ∈ key_types.
Proof.
  unfold key_kinds, key_types. cbn [key_type_named].
  repeat (case_match; [rewrite !elem_of_cons; tauto|]). rewrite !elem_of_cons. tauto.
Qed.

Lemma stops_app f a b : stops f a -> stops f b -> stops f (a ++ b).
Proof. by destruct a. Qed.

(** The text behind the type: blanks, the key, blanks and the comment. *)
Lemma split_key_parts bl kx cb cm c r :
  Forall (fun b => is_blank b = true) bl -> stops is_blank (kx ++ cb ++ cm) -> is_blank c = false ->
  Forall (fun b => is_word b = true) kx -> stops is_word (cb ++ cm) ->
  Forall (fun b => is_blank b = true) cb -> stops is_blank cm -> lenZ (bl ++ kx ++ cb ++ cm) < 2 ^ 31 ->
  split_key ((bl ++ kx ++ cb ++ cm) ++ c :: r) (lenZ (bl ++ kx ++ cb ++ cm)) =
  Some ((kx ++ cb ++ cm) ++ c :: r, lenZ kx,
        match cb ++ cm with [] => None | _ => Some (cm ++ c :: r) end, lenZ cm).
Proof.
  intros Hbl Hs Hc Hkx Hcs Hcb Hcm Hl. unfold split_key.
  rewrite scan_unbounded_words; [|done|by apply stops_app|by destruct kx, cb, cm|lia]. cbn [mbind option_bind].
  rewrite scan_words by done. cbn [mbind option_bind].
  rewrite !lenZ_app in *. pose proof (lenZ_nonneg bl). pose proof (lenZ_nonneg kx). pose proof (lenZ_nonneg cb).
  pose proof (lenZ_nonneg cm). rewrite u64_small by lia.
  replace (lenZ kx + (lenZ cb + lenZ cm) - (lenZ cb + lenZ cm)) with (lenZ kx) by lia.
  destruct (Z.eqb_spec (lenZ cb + lenZ cm) 0) as [E|E].
  - assert (cb ++ cm = []) as Hnil by (apply length_zero_iff_nil; rewrite length_app; unfold lenZ in *; lia).
    rewrite Hnil. apply app_eq_nil in Hnil as [-> ->]. done.
  - rewrite <- lenZ_app, scan_words by done. cbn [mbind option_bind]. destruct (cb ++ cm) eqn:E2; [|done].
    apply app_eq_nil in E2 as [-> ->]. done.
Qed.

Lemma word_or_blank c : c <> 0 -> is_word c = negb (is_blank c).
Proof. intros Hc. unfold is_word. by destruct (Z.eqb_spec c 0). Qed.

(** A line's text ends before its terminator or its newline. *)
Definition line_ends (c : Z) (r : list Z) : Prop := c = 0 \/ c = 10 /\ exists r', r = 0 :: r'.

(** What the parser hands on for a key that does not start with a digit. *)
Lemma key_args kk c r : no_nul kk -> line_ends c r -> lenZ kk < 2 ^ 31 ->
  exists w key' keylen' comment cl k, w `prefix_of` kk /\
    scan is_word (kk ++ c :: r) (lenZ kk) = Some (drop (length w) kk ++ c :: r, lenZ kk - lenZ w) /\
    split_key (drop (length w) kk ++ c :: r) (lenZ kk - lenZ w) = Some (key', keylen', comment, cl) /\
    no_nul w /\ line_args (Some (kk ++ c :: r)) (lenZ w) key' keylen' (key_type_named w key_kinds) comment cl k.
Proof.
  intros Hn Hc Hl. assert (Hcb : is_blank c = false) by (destruct Hc as [-> |[-> _]]; done).
  destruct (break is_word kk) as (w & a & -> & Hw & Ha).
  destruct (break is_blank a) as (bl & b & -> & Hbl & Hb).
  destruct (break is_word b) as (kx & d & -> & Hkx & Hd).
  destruct (break is_blank d) as (cb & cm & -> & Hcbl & Hcm).
  assert (Hlast : kx = [] -> cb ++ cm = []).
  { intros ->. cbn [app] in *. destruct (cb ++ cm) as [|x l]; [done|]. simpl in Hb, Hd.
    unfold no_nul in Hn. rewrite !Forall_app, Forall_cons in Hn. destruct Hn as (_ & _ & Hx & _).
    rewrite word_or_blank, Hb in Hd by done. done. }
  exists w. rewrite drop_app_length, scan_words by done.
  replace (lenZ (w ++ bl ++ kx ++ cb ++ cm) - lenZ w) with (lenZ (bl ++ kx ++ cb ++ cm)) by (rewrite !lenZ_app; lia).
  assert (Hl' : lenZ (bl ++ kx ++ cb ++ cm) < 2 ^ 31) by (rewrite lenZ_app in Hl; pose proof (lenZ_nonneg w); lia).
  eexists _, _, _, _, (match kx with [] => if c =? 0 then [] else [c] | _ => kx end).
  split; [by eexists|]. split; [done|]. split; [by apply split_key_parts|].
  unfold no_nul in Hn. rewrite !Forall_app in Hn. destruct Hn as (Hn1 & _ & Hn2 & _). split; [done|].
  split; [apply key_type_named_in| | |].
  - intros n [= <-]. rewrite <- app_assoc, lenZ_app. pose proof (lenZ_nonneg w).
    pose proof (lenZ_nonneg ((bl ++ kx ++ cb ++ cm) ++ c :: r)). lia.
  - destruct kx as [|x kx].
    + rewrite Hlast by done. destruct Hc as [-> |(-> & r' & ->)]; [by eexists _, _; split; [|right]|].
      exists 0, r'. split; [done|]. right. split; [done|]. split; [done|]. by repeat constructor.
    + destruct ((cb ++ cm) ++ c :: r) as [|c' r'] eqn:E; [by destruct (cb ++ cm)|]. exists c', r'.
      split; [by rewrite <- E, <- (app_assoc (x :: kx))|]. left. split; [done|]. rewrite lenZ_cons. pose proof (lenZ_nonneg kx). lia.
  - intros x Hx. assert (x = cm ++ c :: r) as -> by (by destruct (cb ++ cm); simplify_eq). rewrite lenZ_app, lenZ_cons.
    pose proof (lenZ_nonneg cm). pose proof (lenZ_nonneg r). lia.
Qed.

Lemma grown_refl s h : hosts_ok h -> grown s h [] (mk_ext s h).
Proof. intros Hh. split; [done|]. split; [done|]. by rewrite app_nil_r. Qed.

Lemma wp_oldstyle_hostline ktn ktl key keylen kt comment cl k u rest s h :
  line_args ktn ktl key keylen kt comment cl k -> no_nul u -> bytes_ok (u ++ rest) -> hosts_ok h ->
  wp (oldstyle_hostline ktn ktl key keylen kt comment cl (u ++ rest) (lenZ u)) (read_done s h) (mk_ext s h).
Proof.
  intros Hla Hu Hb Hh. unfold oldstyle_hostline. pose proof (grown_refl s h Hh) as Hg.
  x_step; [by eapply wp_parse_error|]. apply bytes_ok_app in Hb as [Hb _].
  eapply wp_oldstyle_loop; [done..|pose proof (lenZ_nonneg u); lia].
Qed.

Lemma wp_host_format ktn ktl key keylen kt comment cl k u rest i s h (plain : bool) :
  line_args ktn ktl key keylen kt comment cl k -> no_nul u -> bytes_ok (u ++ rest) -> lenZ u < 2 ^ 31 ->
  (3 <= i)%nat -> (u ++ rest) !! i = Some 0 -> hosts_ok h ->
  wp (if plain then oldstyle_hostline ktn ktl key keylen kt comment cl (u ++ rest) (lenZ u)
      else hashed_hostline ktn ktl key keylen kt comment cl (u ++ rest) (lenZ u)) (read_done s h) (mk_ext s h).
Proof. intros. destruct plain; [by eapply wp_oldstyle_hostline|by eapply wp_hashed_hostline]. Qed.

Lemma is_plain_host_total u rest : exists b, is_plain_host (u ++ rest) (lenZ u) = Some b.
Proof.
  unfold is_plain_host. destruct (Z.ltb_spec 2 (lenZ u)); [|by eexists]. pose proof (lenZ_nonneg rest).
  rewrite bytes_at_in by (rewrite ?lenZ_app; lia). by eexists.
Qed.

Lemma wp_hostline u rest i kk c r s h :
  no_nul u -> bytes_ok (u ++ rest) -> lenZ u < 2 ^ 31 -> (u ++ rest) !! i = Some 0 -> (length kk <= i)%nat ->
  no_nul kk -> line_ends c r -> lenZ kk < 2 ^ 31 -> hosts_ok h ->
  wp (hostline (u ++ rest) (lenZ u) (kk ++ c :: r) (lenZ kk)) (read_done s h) (mk_ext s h).
Proof.
  intros Hu Hb Hul Hi Hki Hkn Hc Hkl Hh. unfold hostline. x_step; [by eapply wp_parse_error, grown_refl|].
  apply Z.ltb_ge in E. assert (3 <= i)%nat by (unfold lenZ in E; lia).
  destruct kk as [|x kk'] eqn:Ek; [done|]. rewrite <- Ek in *. x_step.
  eapply wp_access; [by rewrite Ek|]. x_step. destruct (is_plain_host_total u rest) as [b Hp].
  eapply wp_access; [done|]. x_step.
  - eapply (wp_host_format _ _ _ _ _ _ _ kk); [|done..]. split; [unfold key_types; rewrite elem_of_cons; tauto|done| |done].
    exists c, r. split; [done|]. left. split; [done|lia].
  - destruct (key_args kk c r) as (w & key' & keylen' & comment & cl & k & Hpre & Hs & Hsp & Hw & Hla); [done..|].
    x_step. eapply wp_access; [done|]. cbn [fst snd]. replace (lenZ kk - (lenZ kk - lenZ w)) with (lenZ w) by lia.
    destruct Hpre as [a Ha]. x_step.
    eapply wp_access; [rewrite Ha, <- app_assoc; apply find_key_type_ok; [done|apply key_kinds_no_nul]|].
    x_step. eapply wp_access; [done|]. by eapply wp_host_format.
Qed.

(** A line as [fgets] gives it: a newline may only end it. *)
Definition one_line (t : list Z) : Prop := forall a b, t = a ++ 10 :: b -> b = [].

Lemma no_nul_app a b : no_nul (a ++ b) <-> no_nul a /\ no_nul b.
Proof. apply Forall_app. Qed.

Lemma one_line_tail a b : one_line (a ++ b) -> one_line b.
Proof. intros H x y ->. apply (H (a ++ x)). by rewrite <- app_assoc. Qed.

Definition in_line (c : Z) : bool := negb (c =? 0) && negb (c =? 10).

(** Any line that is terminated is read inside its memory. *)
Lemma wp_readline t r type s h :
  no_nul t -> one_line t -> bytes_ok (t ++ 0 :: r) -> lenZ t < 2 ^ 31 -> hosts_ok h ->
  wp (libssh2_knownhost_readline (t ++ 0 :: r) (lenZ t) type) (read_done s h) (mk_ext s h).
Proof.
  intros Hn Hol Hb Hl Hh. pose proof (grown_refl s h Hh) as Hg. unfold libssh2_knownhost_readline.
  x_step; [by eapply wp_parse_error|].
  destruct (break is_blank t) as (b1 & t1 & -> & Hb1 & Ht1). x_step.
  eapply wp_access; [by apply scan_words|]. x_step; [x_step; split; [done|by eexists]|].
  destruct t1 as [|c t1]; [done|]. x_step. eapply wp_access; [done|]. x_step; [x_step; split; [done|by eexists]|].
  clear E E0 E1. set (hostp := c :: t1) in *. clearbody hostp. clear c t1.
  apply no_nul_app in Hn as [_ Hn]. apply one_line_tail in Hol. rewrite <- app_assoc in Hb.
  apply bytes_ok_app in Hb as [_ Hb]. rewrite lenZ_app in Hl. pose proof (lenZ_nonneg b1).
  destruct (break is_word hostp) as (u & t2 & -> & Hu & Ht2). x_step. eapply wp_access; [by apply scan_words|].
  cbn [fst snd]. destruct (break is_blank t2) as (b2 & t3 & -> & Hb2 & Ht3). x_step.
  eapply wp_access; [by apply scan_words|]. x_step.
  apply no_nul_app in Hn as [Hun Hn]. apply no_nul_app in Hn as [_ Hn].
  apply one_line_tail in Hol. apply one_line_tail in Hol. rewrite !lenZ_app in Hl.
  pose proof (lenZ_nonneg u). pose proof (lenZ_nonneg b2). pose proof (lenZ_nonneg t3).
  destruct t3 as [|c t3]; cbn [app]; (eapply wp_access; [done|]).
  { cbn [Z.eqb orb]. by eapply wp_parse_error. }
  x_step; [by eapply wp_parse_error|]. clear E. set (kt := c :: t3) in *.
  destruct (break in_line kt) as (kk & t4 & Hk & Hkk & Ht4).
  x_step. fold in_line. change (c :: t3 ++ 0 :: r) with (kt ++ 0 :: r). rewrite Hk in *.
  eapply wp_access; [by apply scan_words|]. cbn [fst snd].
  apply no_nul_app in Hn as [Hkn Hn]. rewrite !lenZ_app in *. pose proof (lenZ_nonneg kk).
  replace (lenZ u + (lenZ b2 + (lenZ kk + lenZ t4)) - (lenZ b2 + (lenZ kk + lenZ t4))) with (lenZ u) by lia.
  assert (Hz : forall l, ((u ++ b2 ++ kk ++ l) ++ 0 :: r) !! length (u ++ b2 ++ kk ++ l) = Some 0)
    by (intros l; by apply list_lookup_middle).
  destruct t4 as [|x t4].
  - x_step. eapply wp_access; [done|]. cbn [Z.eqb]. rewrite app_nil_r in *. rewrite Z.add_0_r.
    change (lenZ (@nil Z)) with 0 in *.
    rewrite <- app_assoc. eapply wp_hostline; [done| |lia| | |done|by left|lia|done].
    + by rewrite app_assoc.
    + rewrite app_assoc. specialize (Hz []). rewrite app_nil_r in Hz. apply Hz.
    + rewrite !length_app. lia.
  - simpl in Ht4. unfold in_line in Ht4. apply Forall_cons in Hn as [Hx _].
    destruct (Z.eqb_spec x 0); [done|]. destruct (Z.eqb_spec x 10) as [->|]; [|done].
    rewrite (Hol kk t4) in * by done. change (lenZ [10]) with 1 in *. x_step. eapply wp_access; [done|]. cbn [Z.eqb].
    replace (lenZ kk + 1 - 1) with (lenZ kk) by lia.
    rewrite <- !app_assoc. cbn [app]. eapply wp_hostline; [done| |lia| | |done| |lia|done].
    + rewrite app_assoc. by rewrite <- !app_assoc in *.
    + specialize (Hz [10]). rewrite <- !app_assoc in Hz. apply Hz.
    + rewrite !length_app. lia.
    + right. split; [done|by eexists].
Qed.

(** ** Files *)

Lemma fgets_cons n c file : fgets (S (S n)) (c :: file) =
  if c =? 10 then ([c], file) else let '(l, rest) := fgets (S n) file in (c :: l, rest).
Proof. done. Qed.

Lemma fgets_line size file : let '(l, rest) := fgets size file in
  file = l ++ rest /\ one_line l /\ lenZ l <= Z.max 0 (Z.of_nat size - 1) /\ ((2 <= size)%nat -> file <> [] -> l <> []).
Proof.
  assert (Hnil : forall n (r : list Z), (n < 2)%nat \/ r = [] -> r = [] ++ r /\ one_line [] /\
    lenZ (@nil Z) <= Z.max 0 (Z.of_nat n - 1) /\ ((2 <= n)%nat -> r <> [] -> @nil Z <> [])).
  { intros n r Hn. split; [done|]. split; [intros a b Hab; by destruct a|].
    split; [change (lenZ (@nil Z)) with 0; lia|]. intros H2 Hr. destruct Hn; [lia|done]. }
  revert file. induction size as [|[|size] IH]; intros file; [by apply Hnil; left; lia|apply Hnil; left; lia|].
  destruct file as [|c file]; [by apply Hnil; right|]. rewrite fgets_cons. destruct (Z.eqb_spec c 10) as [->|Hc].
  - split; [done|]. split; [|split; [change (lenZ [10]) with 1; lia|done]].
    intros [|x a] b; [by intros [= <-]|]. intros [= _ Hx]. by destruct a.
  - specialize (IH file). destruct (fgets (S size) file) as [l rest]. destruct IH as (-> & H2 & H3 & H4).
    split; [done|]. split; [|split; [rewrite lenZ_cons; lia|done]].
    intros [|x a] b; [by intros [= ? _]|]. intros [= _ Hx]. by eapply H2.
Qed.

(** The string in a buffer that holds a line. *)
Lemma c_string_line l r : one_line l -> exists t r', c_string (l ++ 0 :: r) = Some t /\
  l ++ 0 :: r = t ++ 0 :: r' /\ no_nul t /\ one_line t /\ lenZ t <= lenZ l.
Proof.
  intros Hl. destruct (break (fun c => negb (c =? 0)) l) as (t & b & -> & Ht & Hb).
  assert (Hn : no_nul t) by (eapply Forall_impl; [exact Ht|]; intros c Hc ->; done).
  destruct b as [|x b].
  - exists t, r. rewrite app_nil_r in *. by rewrite c_string_app.
  - simpl in Hb. destruct (Z.eqb_spec x 0) as [->|]; [|done]. exists t, (b ++ 0 :: r).
    rewrite <- app_assoc. simpl. rewrite c_string_app by done. split; [done|]. split; [done|]. split; [done|]. split.
    + intros a c ->. exfalso. specialize (Hl a (c ++ 0 :: b)). rewrite <- app_assoc in Hl. by destruct c; specialize (Hl eq_refl).
    + rewrite lenZ_app. pose proof (lenZ_nonneg (0 :: b)). lia.
Qed.

Lemma wp_readfile_loop type s0 h0 : forall rounds file buf num s h es,
  grown s0 h0 es (mk_ext s h) -> (length file < rounds)%nat -> bytes_ok file -> bytes_ok buf ->
  wp (readfile_loop rounds file buf type num) (fun rc x => exists es, grown s0 h0 es x /\ (rc = LIBSSH2_ERROR_KNOWN_HOSTS \/ num <= rc)) (mk_ext s h).
Proof.
  induction rounds as [|rounds IH]; intros file buf num s h es Hg Hr Hf Hb; [lia|]. cbn [readfile_loop].
  pose proof (fgets_line 4092 file) as HF. destruct (fgets 4092 file) as [l rest] eqn:E. clear E.
  destruct HF as (-> & Hol & Hlen & Hne). destruct l as [|c l'] eqn:El.
  { x_step. exists es. split; [done|right; lia]. }
  rewrite <- El in *. apply bytes_ok_app in Hf as [Hfl Hfr].
  set (buf' := l ++ 0 :: drop (S (length l)) buf).
  assert (Hb' : bytes_ok buf') by (apply bytes_ok_app; split; [done|]; constructor; [done|by apply Forall_drop]).
  destruct (c_string_line l (drop (S (length l)) buf) Hol) as (t & r & Ht & Heq & Htn & Hto & Htl). fold buf' in Ht, Heq.
  x_step. eapply wp_access; [rewrite Heq; by apply strlen_zero|]. x_step. rewrite Heq in *.
  eapply wp_mono; [apply wp_readline; [done|done|done|lia|apply Hg]|].
  intros rc [s' h'] [Hrc [es' Hg']]. pose proof (grown_trans _ _ _ _ _ _ _ Hg Hg') as Hg2.
  destruct (Z.eqb_spec rc 0); cbn [negb].
  - eapply wp_mono; [eapply IH; [done| |done|done]|].
    + rewrite length_app in Hr. subst l. simpl in Hr. lia.
    + intros v x (es2 & H1 & H2). exists es2. split; [done|lia].
  - apply wp_kerror. intros s2 Hs2. exists (es ++ es'). split; [|left; done].
    destruct Hg2 as (G1 & G2 & G3). split; [by etransitivity|done].
Qed.

Lemma wp_readfile file type s h : (forall f, file = Some f -> bytes_ok f) -> hosts_ok h ->
  wp (libssh2_knownhost_readfile file type)
    (fun rc x => hosts_ok (x_data x) /\ (exists es, nodes_list (x_data x) = nodes_list h ++ es) /\
       (rc < 0 -> rc ∈ [LIBSSH2_ERROR_METHOD_NOT_SUPPORTED; LIBSSH2_ERROR_FILE; LIBSSH2_ERROR_KNOWN_HOSTS]))
    (mk_ext s h).
Proof.
  intros Hf Hh.  unfold libssh2_knownhost_readfile.
  assert (Herr : forall rc s', rc ∈ [LIBSSH2_ERROR_METHOD_NOT_SUPPORTED; LIBSSH2_ERROR_FILE; LIBSSH2_ERROR_KNOWN_HOSTS] ->
    hosts_ok (x_data (mk_ext s' h)) /\ (exists es, nodes_list h = nodes_list h ++ es) /\
    (rc < 0 -> rc ∈ [LIBSSH2_ERROR_METHOD_NOT_SUPPORTED; LIBSSH2_ERROR_FILE; LIBSSH2_ERROR_KNOWN_HOSTS])).
  { intros rc s' Hrc. split; [done|]. split; [exists []; by rewrite app_nil_r|done]. }
  x_step; [apply wp_kerror; intros s' _; apply Herr; rewrite !elem_of_cons; tauto|].
  destruct file as [f|]; [|apply wp_kerror; intros s' _; apply Herr; rewrite !elem_of_cons; tauto].
  eapply wp_mono; [eapply (wp_readfile_loop type s h); [by apply grown_refl|lia|by apply Hf|]|].
  - apply Forall_replicate. done.
  - intros rc x (es & (_ & H2 & H3) & Hrc). split; [done|]. split; [by exists es|].
    intros Hneg. destruct Hrc as [-> |]; [rewrite !elem_of_cons; tauto|lia].
Qed.

(** C25: Whatever bytes a file holds, [libssh2_knownhost_readfile] ends, stays inside the
    buffers of the parser, and leaves a well-formed collection: the entries that were
    there, in their order, followed by those it read. It returns one of its errors or
    a number of lines. *)
Theorem knownhost_readfile_safe file type s h (Hf : forall f, file = Some f -> bytes_ok f) (Hh : hosts_ok h) :
  wp (libssh2_knownhost_readfile file type)
    (fun rc x => hosts_ok (x_data x) /\ (exists es, nodes_list (x_data x) = nodes_list h ++ es) /\
       (rc < 0 -> rc ∈ [LIBSSH2_ERROR_METHOD_NOT_SUPPORTED; LIBSSH2_ERROR_FILE; LIBSSH2_ERROR_KNOWN_HOSTS]))
    (mk_ext s h).
Proof. by apply wp_readfile. Qed.

Lemma knownhost_readfile_safe_witness :
  wp (libssh2_knownhost_readfile (Some (str "|1|x ssh-rsa |" ++ [0; 10; 255])) LIBSSH2_KNOWNHOST_FILE_OPENSSH)
    (fun rc x => hosts_ok (x_data x) /\ (exists es, nodes_list (x_data x) = nodes_list knownhosts_0 ++ es) /\
       (rc < 0 -> rc ∈ [LIBSSH2_ERROR_METHOD_NOT_SUPPORTED; LIBSSH2_ERROR_FILE; LIBSSH2_ERROR_KNOWN_HOSTS]))
    (mk_ext session_0 knownhosts_0).
Proof.
  apply (knownhost_readfile_safe (Some (str "|1|x ssh-rsa |" ++ [0; 10; 255]))); [|apply hosts_ok_0].
  intros f [= <-]. apply (bool_decide_unpack _). by vm_compute.
Defined.
