(* ===== verification/KnownhostTrip.v ===== *)
(** * Printing and reading known hosts

    Entries of a known type of key, printed by [knownhost_writeline], are read back by
    [libssh2_knownhost_readline], and a whole collection by way of a file. *)

From stdpp Require Import base numbers list gmap strings relations.
From S2P Require Import Prelude Codes CString KexMethods Wire Base64 Session ChannelWindow Packet Conn Comp Numerals Ext Knownhost KnownhostSpec KnownhostRead.

(** ** The parser on a line whose parts are known *)

Definition words (l : list Z) : Prop := Forall (fun c => is_word c = true) l.
Definition blanks (l : list Z) : Prop := Forall (fun c => is_blank c = true) l.

Lemma words_no_nul l : words l -> no_nul l.
Proof. intros H. eapply Forall_impl; [exact H|]. intros c Hc ->. done. Qed.

Lemma words_stop l : words l -> stops is_blank l.
Proof.
  destruct 1 as [|c l Hc _]; [done|]. simpl. unfold is_word in Hc. by destruct (is_blank c); rewrite ?andb_false_r in Hc.
Qed.

Lemma stops_head f a b : a <> [] -> stops f a -> stops f (a ++ b).
Proof. by destruct a. Qed.

(** The text of the key: its type, its data, and the comment. *)
Record key_parts := mk_key_parts { kp_type : list Z; kp_key : list Z; kp_comment : option (list Z) }.

Definition comment_text (c : option (list Z)) : list Z := match c with Some t => 32 :: t | None => [] end.
Definition key_line (p : key_parts) : list Z := kp_type p ++ 32 :: kp_key p ++ comment_text (kp_comment p).

Record parts_ok (p : key_parts) : Prop := {
  po_type : words (kp_type p) /\ exists c r, kp_type p = c :: r /\ is_digit 10 c = false;
  po_key : words (kp_key p) /\ kp_key p <> [];
  po_comment : forall t, kp_comment p = Some t -> stops is_blank t /\ Forall (fun c => in_line c = true) t;
  po_line : Forall (fun c => in_line c = true) (kp_type p ++ kp_key p);
  po_len : 20 <= lenZ (key_line p) < 2 ^ 31
}.

Lemma key_line_shape p : parts_ok p -> exists cb cm,
  key_line p = kp_type p ++ [32] ++ kp_key p ++ cb ++ cm /\ blanks cb /\ stops is_blank cm /\ stops is_word (cb ++ cm) /\
  lenZ cm = match kp_comment p with Some t => lenZ t | None => 0 end /\
  forall c r, match cb ++ cm with [] => None | _ => Some (cm ++ c :: r) end = (fun t => t ++ c :: r) <$> kp_comment p.
Proof.
  intros [_ _ Hc _ _]. unfold key_line. destruct (kp_comment p) as [t|] eqn:E.
  - destruct (Hc t eq_refl) as [H1 H2]. exists [32], t. repeat split; try done. by repeat constructor.
  - exists [], []. repeat split; try done. constructor.
Qed.

Lemma wp_hostline_parts p host hostlen c r plain (Q : Z -> ext knownhosts -> Prop) x :
  parts_ok p -> is_blank c = false -> is_plain_host host hostlen = Some plain ->
  (forall rest, let key := key_line p ++ c :: r in let key' := kp_key p ++ rest in
     rest <> [] -> lenZ key' < lenZ key ->
     let f := fun (g : option (list Z) -> Z -> list Z -> Z -> Z -> option (list Z) -> Z -> list Z -> Z -> KM Z) =>
       g (Some key) (lenZ (kp_type p)) key' (lenZ (kp_key p)) (key_type_named (kp_type p) key_kinds)
         ((fun t => t ++ c :: r) <$> kp_comment p) (match kp_comment p with Some t => lenZ t | None => 0 end) host hostlen in
     wp (if plain then f oldstyle_hostline else f hashed_hostline) Q x) ->
  wp (hostline host hostlen (key_line p ++ c :: r) (lenZ (key_line p))) Q x.
Proof.
  intros Hp Hc Hplain HQ. destruct (key_line_shape p Hp) as (cb & cm & Hl & Hcb & Hcm & Hst & Hcl & Hco).
  destruct Hp as [[Hty (c0 & r0 & Hc0 & Hdig)] [Hk Hkne] _ _ [Hlen Hlen']].
  set (kk := key_line p) in *. unfold hostline. destruct (Z.ltb_spec (lenZ kk) 20); [lia|].
  x_step. eapply wp_access; [rewrite Hl, Hc0; done|]. x_step. eapply wp_access; [done|]. rewrite Hdig. x_step.
  eapply wp_access; [rewrite Hl; apply scan_words; [done|done]|]. cbn [fst snd].
  replace (lenZ kk - lenZ ([32] ++ kp_key p ++ cb ++ cm)) with (lenZ (kp_type p)) by (rewrite Hl, (lenZ_app (kp_type p)); lia).
  x_step. eapply wp_access.
  { rewrite Hl, <- app_assoc. apply find_key_type_ok; [by apply words_no_nul|apply key_kinds_no_nul]. }
  x_step. eapply wp_access.
  { apply split_key_parts; try done; [by repeat constructor| |].
    - apply stops_head; [done|by apply words_stop].
    - rewrite Hl, lenZ_app in Hlen'. pose proof (lenZ_nonneg (kp_type p)). lia. }
  cbn iota beta. rewrite Hco, Hcl. rewrite <- (app_assoc (kp_key p)).
  apply HQ; [by destruct (cb ++ cm)|]. rewrite Hl, !lenZ_app. change (lenZ [32]) with 1.
  pose proof (lenZ_nonneg (kp_type p)). lia.
Qed.

(** A line of a host, its key and a newline. *)
Lemma wp_readline_parts u p r (Q : Z -> ext knownhosts -> Prop) x :
  words u -> (exists c r, u = c :: r /\ c <> 35 /\ c <> 10) -> parts_ok p -> lenZ u < 2 ^ 31 ->
  wp (hostline (u ++ 32 :: key_line p ++ 10 :: 0 :: r) (lenZ u) (key_line p ++ 10 :: 0 :: r) (lenZ (key_line p))) Q x ->
  wp (libssh2_knownhost_readline ((u ++ 32 :: key_line p ++ [10]) ++ 0 :: r) (lenZ (u ++ 32 :: key_line p ++ [10]))
        LIBSSH2_KNOWNHOST_FILE_OPENSSH) Q x.
Proof.
  intros Hu (c & ru & Hc & Hc1 & Hc2) Hp Hul HQ. unfold libssh2_knownhost_readline.
  set (rest := 32 :: key_line p ++ [10]) in *. change (LIBSSH2_KNOWNHOST_FILE_OPENSSH =? LIBSSH2_KNOWNHOST_FILE_OPENSSH) with true. cbn [negb].
  assert (Hus : stops is_blank (u ++ rest)) by (apply stops_head; [by rewrite Hc|by apply words_stop]).
  x_step. eapply wp_access; [apply (scan_words is_blank [] (u ++ rest)); [constructor|done]|]. cbn [app].
  pose proof (lenZ_nonneg u). pose proof (lenZ_nonneg (key_line p)).
  assert (Hrl : lenZ rest = 2 + lenZ (key_line p)) by (unfold rest; rewrite lenZ_cons, lenZ_app; change (lenZ [10]) with 1; lia).
  destruct (Z.eqb_spec (lenZ (u ++ rest)) 0) as [E|_]; [rewrite lenZ_app in E; lia|].
  x_step. eapply wp_access; [by rewrite Hc|].
  assert ((c =? 0) || (c =? 35) || (c =? 10) = false) as ->.
  { rewrite Hc in Hu. apply Forall_cons in Hu as [Hw _]. rewrite !orb_false_iff, !Z.eqb_neq. split; [|done].
    split; [|done]. intros ->. done. }
  x_step. eapply wp_access; [by apply scan_words|]. cbn [fst snd]. x_step. destruct Hp as [Hty Hk Hco Hin Hlen].
  assert (Hkl : exists c r, key_line p = c :: r /\ is_word c = true).
  { destruct Hty as [Hw (c' & r' & E & _)]. unfold key_line. rewrite E in *. apply Forall_cons in Hw as [Hw _]. eexists _, _. done. }
  destruct Hkl as (ck & rk & Hkl & Hckw).
  eapply wp_access; [apply (scan_words is_blank [32] (key_line p ++ [10])); [by repeat constructor|]|].
  { rewrite Hkl. simpl. unfold is_word in Hckw. by destruct (is_blank ck); rewrite ?andb_false_r in Hckw. }
  x_step. eapply wp_access; [by rewrite Hkl|].
  assert ((ck =? 0) || (lenZ (key_line p ++ [10]) =? 0) = false) as ->.
  { apply orb_false_iff. split; [apply Z.eqb_neq; by intros ->|]. apply Z.eqb_neq. rewrite lenZ_app. change (lenZ [10]) with 1. lia. }
  x_step. fold in_line. eapply wp_access; [apply scan_words; [|done]|].
  { unfold key_line. apply Forall_app in Hin as [H1 H2]. apply Forall_app. split; [done|]. constructor; [done|].
    apply Forall_app. split; [done|]. destruct (kp_comment p) as [t|]; simpl; [|constructor].
    constructor; [done|]. by apply (Hco t). }
  cbn [fst snd]. x_step. eapply wp_access; [done|]. change (10 =? 10) with true. cbn iota.
  rewrite lenZ_app, Hrl. change (lenZ (32 :: key_line p ++ [10])) with (lenZ rest). rewrite lenZ_app.
  change (lenZ [10]) with 1. replace (lenZ u + (2 + lenZ (key_line p)) - (2 + lenZ (key_line p))) with (lenZ u) by lia.
  replace (lenZ (key_line p) + 1 - 1) with (lenZ (key_line p)) by lia. unfold rest.
  rewrite <- !app_assoc. simpl. by rewrite <- !app_assoc.
Qed.

Section Exact.
Context (ktn : option (list Z)) (ktl : Z) (key : list Z) (keylen kt : Z) (comment : option (list Z)) (cl : Z).

(** A field with one name adds one entry. *)
Lemma wp_oldstyle_one a : forall b rest (Q : Z -> ext knownhosts -> Prop) x, a <> [] -> no_comma a -> lenZ (a ++ b) < 255 ->
  wp (add_line ktn ktl key keylen kt comment cl ((a ++ b) ++ [0]) None LIBSSH2_KNOWNHOST_TYPE_PLAIN) Q x ->
  wp (oldstyle_loop ktn ktl key keylen kt comment cl ((a ++ b) ++ rest) (length a) (lenZ b)) Q x.
Proof.
  induction a as [|c a IH] using rev_ind; intros b rest Q x Hne Hc Hl HQ; [done|].
  rewrite length_app, Nat.add_1_r. cbn [oldstyle_loop]. rewrite <- (app_assoc a [c] b) in *. cbn [app] in *.
  replace (lenZ b + 1) with (lenZ (c :: b)) by (rewrite lenZ_cons; lia).
  apply Forall_app in Hc as [Hca _]. destruct a as [|y a] using rev_ind.
  - x_step. cbn [length]. x_step. cbn [app] in *. destruct (Z.leb_spec 255 (lenZ (c :: b))); [lia|].
    x_step. eapply wp_access; [by apply (bytes_at_prefix (c :: b))|]. x_step. eapply wp_mono; [exact HQ|].
    intros rc x' Hx. by x_step; x_step.
  - clear IHa. rewrite length_app, Nat.add_1_r in *. x_step. x_step.
    eapply wp_access; [rewrite <- !app_assoc; by apply (list_lookup_middle a _ y)|]. x_step.
    apply Forall_app in Hca as [? Hy]. apply Forall_cons in Hy as [Hy _]. destruct (Z.eqb_spec y comma); [done|].
    apply IH; [by destruct a|by apply Forall_app; repeat constructor|done|done].
Qed.

Lemma wp_hashed_parts sa t rest (Q : Z -> ext knownhosts -> Prop) x :
  Forall (fun c => not_bar c = true) sa -> lenZ sa < 31 -> lenZ t < 255 ->
  wp (add_line ktn ktl key keylen kt comment cl (t ++ [0]) (Some (sa ++ [0])) LIBSSH2_KNOWNHOST_TYPE_SHA1) Q x ->
  wp (hashed_hostline ktn ktl key keylen kt comment cl ((str "|1|" ++ sa ++ str "|" ++ t) ++ rest)
        (lenZ (str "|1|" ++ sa ++ str "|" ++ t))) Q x.
Proof.
  intros Hsa Hsl Htl HQ. unfold hashed_hostline. pose proof (lenZ_nonneg sa). pose proof (lenZ_nonneg t).
  assert (Hd : drop 3 ((str "|1|" ++ sa ++ str "|" ++ t) ++ rest) = sa ++ 124 :: t ++ rest)
    by (rewrite <- !app_assoc; done).
  rewrite Hd. x_step. eapply wp_access; [by apply span_app|]. rewrite drop_app_length. x_step.
  eapply wp_access; [done|]. change (124 =? 124) with true. cbn iota. cbn [tail].
  destruct (Z.leb_spec 31 (lenZ sa)); [lia|].
  rewrite !lenZ_app. change (lenZ (str "|1|")) with 3. change (lenZ (str "|")) with 1.
  rewrite (u64_small (3 + _ - 3)), u64_small by lia.
  replace (3 + (lenZ sa + (1 + lenZ t)) - 3 - (lenZ sa + 1)) with (lenZ t) by lia.
  destruct (Z.leb_spec 255 (lenZ t)); [lia|]. x_step. eapply wp_access; [by apply bytes_at_prefix|]. done.
Qed.
End Exact.

(** ** Entries that can be printed *)

(** The field of the host. *)
Inductive host_field (n : known_host) : list Z -> Prop :=
| PlainField u :
    kh_typemask n = read_mask (key_type_of (kh_typemask n)) LIBSSH2_KNOWNHOST_TYPE_PLAIN ->
    kh_name n = Some (u ++ [0]) -> kh_name_len n = lenZ u -> kh_salt n = None -> kh_salt_len n = 0 ->
    words u -> no_comma u -> bytes_ok u -> 3 <= lenZ u < 255 -> take 3 u <> str "|1|" -> head u <> Some 35 -> Forall (fun c => in_line c = true) u ->
    host_field n u
| HashedField d sd :
    kh_typemask n = read_mask (key_type_of (kh_typemask n)) LIBSSH2_KNOWNHOST_TYPE_SHA1 ->
    kh_name n = Some d -> kh_name_len n = lenZ d -> kh_salt n = Some sd -> kh_salt_len n = lenZ sd ->
    bytes_ok d -> bytes_ok sd -> 0 < lenZ d <= 189 -> 0 < lenZ sd <= 21 ->
    host_field n (str "|1|" ++ enc sd ++ str "|" ++ enc d).

(** The rest of the line. *)
Record key_field (n : known_host) (p : key_parts) : Prop := {
  kf_parts : parts_ok p;
  kf_type : key_type_text n = Some (kp_type p ++ [0], lenZ (kp_type p));
  kf_named : key_type_named (kp_type p) key_kinds = key_type_of (kh_typemask n);
  kf_type_name : kh_key_type_name n = if key_type_of (kh_typemask n) =? LIBSSH2_KNOWNHOST_KEY_UNKNOWN
                                      then Some (kp_type p ++ [0]) else None;
  kf_type_len : kh_key_type_len n = if key_type_of (kh_typemask n) =? LIBSSH2_KNOWNHOST_KEY_UNKNOWN
                                    then lenZ (kp_type p) else 0;
  kf_key : kh_key n = Some (kp_key p ++ [0]);
  kf_comment : kh_comment n = (fun t => t ++ [0]) <$> kp_comment p;
  kf_comment_len : kh_comment_len n = match kp_comment p with Some t => lenZ t | None => 0 end;
  kf_port : kh_port n = 0
}.

Definition line_of (u : list Z) (p : key_parts) : list Z := u ++ 32 :: key_line p ++ [10].

Lemma in_line_no_nul l : Forall (fun c => in_line c = true) l -> no_nul l.
Proof. intros H. eapply Forall_impl; [exact H|]. intros c Hc ->. done. Qed.

Lemma line_end_of n p : key_field n p ->
  line_end n (kp_type p ++ [0]) (lenZ (kp_type p)) = Some (32 :: key_line p ++ [10]).
Proof.
  intros [[[Hw (c & r & Hc & _)] [Hk _] Hco _ _] _ _ _ _ Hkey Hcom _ _]. unfold line_end. rewrite Hkey, Hcom.
  cbn [mbind option_bind]. rewrite c_string_app by (by apply words_no_nul). cbn [mbind option_bind].
  destruct (Z.eqb_spec (lenZ (kp_type p)) 0) as [E|_]; [rewrite Hc, lenZ_cons in E; pose proof (lenZ_nonneg r); lia|].
  rewrite c_string_app by (by apply words_no_nul). cbn [mbind option_bind].
  assert ((match (fun t => t ++ [0]) <$> kp_comment p with
          | Some c0 => c_string c0 ≫= (fun t => Some (32 :: t)) | None => Some [] end) = Some (comment_text (kp_comment p))) as ->.
  { destruct (kp_comment p) as [t|]; [|done]. cbn [fmap option_fmap option_map]. destruct (Hco t eq_refl) as [_ Ht].
    by rewrite c_string_app by (by apply in_line_no_nul). }
  cbn [mbind option_bind]. unfold key_line. by rewrite <- !app_assoc; cbn [app]; rewrite <- ?app_assoc.
Qed.

(** The size that is computed is that of the line with its terminator. *)
Lemma key_size n p : key_field n p ->
  lenZ (kp_key p) + (if lenZ (kp_type p) =? 0 then 0 else lenZ (kp_type p) + 1) +
    (match kh_comment n with Some _ => kh_comment_len n + 1 | None => 0 end) = lenZ (key_line p).
Proof.
  intros [[[Hw (c & r & Hc & _)] _ _ _ _] _ _ _ _ _ Hcom Hcl _].
  destruct (Z.eqb_spec (lenZ (kp_type p)) 0) as [E|_]; [rewrite Hc, lenZ_cons in E; pose proof (lenZ_nonneg r); lia|].
  rewrite Hcom, Hcl. unfold key_line, comment_text. rewrite lenZ_app, lenZ_cons, lenZ_app.
  destruct (kp_comment p); cbn [fmap option_fmap option_map]; rewrite ?lenZ_cons; change (lenZ (@nil Z)) with 0; lia.
Qed.

Lemma wp_print_line buf buflen text (Q : list Z -> ext knownhosts -> Prop) x :
  lenZ text + 1 <= buflen <= lenZ buf ->
  (forall r, lenZ (text ++ 0 :: r) = lenZ buf -> Q (text ++ 0 :: r) x) -> wp (print_line buf buflen (lenZ text + 1) (Some text)) Q x.
Proof.
  intros Hl HQ. unfold print_line. destruct (Z.leb_spec (lenZ text + 1) buflen); [|lia]. x_step.
  eapply wp_access; [done|]. x_step. pose proof (lenZ_nonneg text). eapply wp_access.
  - unfold snprintf. rewrite take_ge by (unfold lenZ in *; lia). rewrite lenZ_app. change (lenZ [0]) with 1.
    destruct (Z.ltb_spec 0 buflen); [|lia]. destruct (Z.leb_spec (lenZ text + 1) (lenZ buf)); [|lia]. done.
  - x_step. rewrite <- app_assoc. apply HQ. unfold lenZ in *. cbn [app].
    rewrite ?length_app, ?length_cons, ?length_drop, ?length_app. cbn [length]. lia.
Qed.

(** [knownhost_writeline] prints the line. *)
Lemma wp_writeline n u p buf buflen s h (Q : Z * option Z * list Z -> ext knownhosts -> Prop) :
  host_field n u -> key_field n p -> lenZ (line_of u p) + 1 <= buflen <= lenZ buf -> alloc_fine s ->
  (forall s' r, kh_session s s' -> lenZ (line_of u p ++ 0 :: r) = lenZ buf ->
     Q (0, Some (lenZ (line_of u p)), line_of u p ++ 0 :: r) (mk_ext s' h)) ->
  wp (knownhost_writeline n buf buflen LIBSSH2_KNOWNHOST_FILE_OPENSSH) Q (mk_ext s h).
Proof.
  intros Hu Hp Hl Hal HQ. unfold knownhost_writeline.
  change (LIBSSH2_KNOWNHOST_FILE_OPENSSH =? LIBSSH2_KNOWNHOST_FILE_OPENSSH) with true. cbn [negb].
  rewrite (kf_type n p Hp). x_step. eapply wp_access; [apply (kf_key n p Hp)|]. x_step.
  eapply wp_access; [apply strlen_zero, words_no_nul, (kf_parts n p Hp)|].
  rewrite (key_size n p Hp), (line_end_of n p Hp). cbn [mbind option_bind].
  assert (Hkt : key_type_of (kh_typemask n) ∈ key_types) by (rewrite <- (kf_named n p Hp); apply key_type_named_in).
  unfold line_of in *. x_step. destruct Hu as [u Hm Hn Hnl _ _ Hw _ _ _ _ _ _|d sd Hm Hn Hnl Hs Hsl Hd Hsd Hdl Hsdl].
  - destruct (read_mask_parts _ LIBSSH2_KNOWNHOST_TYPE_PLAIN Hkt) as [Ht _]; [tauto|]. rewrite <- Hm in Ht. rewrite Ht.
    eapply wp_access; [done|]. change (_ =? LIBSSH2_KNOWNHOST_TYPE_SHA1) with false. cbn iota.
    rewrite c_string_app by (by apply words_no_nul). cbn [mbind option_bind]. rewrite Hnl.
    assert (Hsz : lenZ (key_line p) + lenZ u + 3 = lenZ (u ++ 32 :: key_line p ++ [10]) + 1)
      by (rewrite lenZ_app, lenZ_cons, lenZ_app; change (lenZ [10]) with 1; lia).
    rewrite Hsz. x_step. apply wp_print_line; [done|]. intros r Hr.
    destruct (Z.leb_spec (lenZ (u ++ 32 :: key_line p ++ [10]) + 1) buflen); [|lia]. x_step.
    rewrite Z.add_simpl_r. by apply HQ.
  - destruct (read_mask_parts _ LIBSSH2_KNOWNHOST_TYPE_SHA1 Hkt) as [Ht _]; [tauto|]. rewrite <- Hm in Ht. rewrite Ht.
    eapply wp_access; [done|]. change (_ =? LIBSSH2_KNOWNHOST_TYPE_SHA1) with true. cbn iota. rewrite Hnl, Hsl.
    x_step. rewrite <- (app_nil_r d) at 1. apply wp_encode64; [done|done|lia|]. intros s1 b Hs1 Hb. rewrite (Hb Hal).
    x_step. eapply wp_access; [done|]. x_step. rewrite <- (app_nil_r sd) at 1. apply wp_encode64; [done|done|lia|].
    intros s2 b2 Hs2 Hb2. rewrite (Hb2 (proj2 Hs1 Hal)).
    set (t := str "|1|" ++ enc sd ++ str "|" ++ enc d ++ 32 :: key_line p ++ [10]) in *.
    assert (Ht' : (str "|1|" ++ enc sd ++ str "|" ++ enc d) ++ 32 :: key_line p ++ [10] = t) by (unfold t; by rewrite <- !app_assoc).
    rewrite Ht' in *.
    assert (Hsz : lenZ (key_line p) + lenZ (enc sd) + lenZ (enc d) + 7 = lenZ t + 1).
    { unfold t. rewrite !lenZ_app, lenZ_cons, lenZ_app. change (lenZ (str "|1|")) with 3. change (lenZ (str "|")) with 1.
      change (lenZ [10]) with 1. lia. }
    rewrite Hsz. x_step. apply wp_print_line; [done|]. intros r Hr.
    destruct (Z.leb_spec (lenZ t + 1) buflen); [|lia]. x_step.
    rewrite Z.add_simpl_r. apply HQ; [by etransitivity|done].
Qed.

(** ** Reading back *)

Definition reset (n : known_host) : known_host := n <| kh_external := external_0 |>.

(** The entry that is read from the line of [n] is [n]. *)
Lemma entry_back n p r rest type t st e :
  key_field n p -> kh_typemask n = read_mask (key_type_of (kh_typemask n)) type ->
  read_entry (Some (key_line p ++ r)) (lenZ (kp_type p)) (key_type_of (kh_typemask n))
    ((fun t => t ++ rest) <$> kp_comment p) (match kp_comment p with Some t => lenZ t | None => 0 end) (kp_key p) type t st e ->
  (named (read_mask (key_type_of (kh_typemask n)) type) t st e ->
   kh_name e = kh_name n /\ kh_name_len e = kh_name_len n /\ kh_salt e = kh_salt n /\ kh_salt_len e = kh_salt_len n) ->
  e = reset n.
Proof.
  intros [_ _ _ Htn Htl Hk Hc Hcl Hpo] Hm [E1 E2 E3 E4 E5 E6 E7 E8 E9] Hname. destruct (Hname E2) as (N1 & N2 & N3 & N4).
  rewrite <- Hm in *. assert (Hs : slice 0 (lenZ (kp_type p)) (key_line p ++ r) = kp_type p).
  { unfold key_line. rewrite <- app_assoc. apply (slice_app_mid [] (kp_type p)). }
  assert (C1 : kh_comment e = kh_comment n).
  { rewrite E6, Hc. destruct (kp_comment p) as [c|]; [|done]. simpl. do 2 f_equal. apply (slice_app_mid [] c). }
  assert (C2 : kh_comment_len e = kh_comment_len n) by (rewrite E7, Hcl; by destruct (kp_comment p)).
  assert (T1 : kh_key_type_name e = kh_key_type_name n) by (rewrite E4, Htn; destruct (_ =? _); simpl; by rewrite ?Hs).
  assert (T2 : kh_key_type_len e = kh_key_type_len n) by (by rewrite E5, Htl).
  destruct e, n. unfold reset. simpl in *. congruence.
Qed.

Lemma fresh_block_all n : is_Some (fresh_block true n).
Proof. by eexists. Qed.

Lemma decodes_enc d d' : bytes_ok d -> lenZ d < 2 ^ 30 -> decodes (enc d) d' -> d' = d.
Proof.
  intros Hd Hl H. unfold decodes in H. rewrite base64_decode_enc in H; [|apply _|apply fresh_block_all|done|done]. congruence.
Qed.

Lemma back_args n p rest c r :
  key_field n p -> rest <> [] -> lenZ (kp_key p ++ rest) < lenZ (key_line p ++ c :: r) ->
  line_args (Some (key_line p ++ c :: r)) (lenZ (kp_type p)) (kp_key p ++ rest) (lenZ (kp_key p))
    (key_type_of (kh_typemask n)) ((fun t => t ++ c :: r) <$> kp_comment p)
    (match kp_comment p with Some t => lenZ t | None => 0 end) (kp_key p).
Proof.
  intros Hf Hr _. pose proof Hf as [[_ [_ Hne] _ _ _] _ Hn _ _ _ _ _ _]. split.
  - rewrite <- Hn. apply key_type_named_in.
  - intros m [= <-]. unfold key_line. rewrite <- app_assoc, lenZ_app. pose proof (lenZ_nonneg (kp_type p)).
    match goal with |- _ <= _ <= _ + ?z => assert (0 <= z) by apply lenZ_nonneg end. lia.
  - destruct rest as [|y rest]; [done|]. exists y, rest. split; [done|]. left. split; [done|].
    destruct (kp_key p) as [|z k]; [done|]. rewrite lenZ_cons. pose proof (lenZ_nonneg k). lia.
  - intros m Hm. destruct (kp_comment p) as [t|]; [|done]. injection Hm as <-. rewrite lenZ_app, lenZ_cons.
    pose proof (lenZ_nonneg t). pose proof (lenZ_nonneg r). lia.
Qed.

Lemma enc_bytes d : bytes_ok d -> bytes_ok (enc d).
Proof. intros H. eapply Forall_impl; [by apply enc_chars|]. by intros c [_ ?]. Qed.

(** The characters of base64 are part of words. *)
Lemma enc_text d : bytes_ok d ->
  Forall (fun c => not_bar c = true) (enc d) /\ words (enc d) /\ Forall (fun c => in_line c = true) (enc d).
Proof.
  intros Hd.
  assert (H : Forall (fun c => not_bar c = true /\ is_word c = true /\ in_line c = true) (enc d)).
  { apply enc_all; [|done|done]. intros v Hv.
    pose proof (range_all (fun v => not_bar (char64 v) && is_word (char64 v) && in_line (char64 v)) 64 ltac:(by vm_compute) v Hv) as H.
    cbv beta in H. rewrite !andb_true_iff in H. tauto. }
  split; [|split]; (eapply Forall_impl; [exact H|]; by intros c (? & ? & ?)).
Qed.

(** The words of the host field. *)
Lemma host_field_words n u : host_field n u ->
  words u /\ Forall (fun c => in_line c = true) u /\ lenZ u < 2 ^ 31 /\ (exists c r, u = c :: r /\ c <> 35 /\ c <> 10).
Proof.
  intros [u' _ _ _ _ _ Hw _ _ Hl _ H35 Hin|d sd _ _ _ _ _ Hd Hsd Hdl Hsl].
  - split; [done|]. split; [done|]. split; [lia|]. destruct u' as [|c r]; [unfold lenZ in Hl; simpl in Hl; lia|]. exists c, r.
    split; [done|]. apply Forall_cons in Hin as [Hin _]. split; [intros ->; by apply H35|]. intros ->. done.
  - destruct (enc_text d Hd) as (_ & W1 & L1), (enc_text sd Hsd) as (_ & W2 & L2).
    split; [|split; [|split]].
    + repeat (apply Forall_app; split); [by repeat constructor|done|by repeat constructor|done].
    + repeat (apply Forall_app; split); [by repeat constructor|done|by repeat constructor|done].
    + rewrite !lenZ_app, !lenZ_enc. change (lenZ (str "|1|")) with 3. change (lenZ (str "|")) with 1. dlia.
    + by eexists _, _.
Qed.

Lemma wp_read_back n u p r s h (Q : Z -> ext knownhosts -> Prop) :
  host_field n u -> key_field n p -> alloc_fine s -> hosts_ok h ->
  (forall x, grown s h [reset n] x -> Q 0 x) ->
  wp (libssh2_knownhost_readline (line_of u p ++ 0 :: r) (lenZ (line_of u p)) LIBSSH2_KNOWNHOST_FILE_OPENSSH) Q (mk_ext s h).
Proof.
  intros Hu Hp Hal Hh HQ. destruct (host_field_words n u Hu) as (Hw & _ & Hul & Hc).
  apply wp_readline_parts; [done|done|apply Hp|done|].
  assert (Hkt : key_type_of (kh_typemask n) ∈ key_types) by (rewrite <- (kf_named n p Hp); apply key_type_named_in).
  destruct Hu as [u Hm Hn Hnl Hsa Hsl _ Hcom Hub Hlen Hbar _ _|d sd Hm Hn Hnl Hs Hsl Hd Hsd Hdl Hsdl].
  - apply (wp_hostline_parts p _ _ _ _ true); [apply Hp|done| |].
    { unfold is_plain_host. destruct (Z.ltb_spec 2 (lenZ u)); [|lia].
      assert (Hu3 : bytes_at (u ++ 32 :: key_line p ++ 10 :: 0 :: r) 0 3 = Some (take 3 u)).
      { rewrite <- (take_drop 3 u) at 1. rewrite <- app_assoc. apply bytes_at_prefix. unfold lenZ in *.
        rewrite length_take. lia. }
      rewrite Hu3. cbn [mbind option_bind]. by rewrite bool_decide_eq_false_2. }
    intros rest key key' Hrest Hlt. cbv zeta. rewrite (kf_named n p Hp). unfold oldstyle_hostline.
    destruct (Z.ltb_spec (lenZ u) 1); [lia|]. replace (Z.to_nat (lenZ u)) with (length u) by (unfold lenZ; lia).
    pose proof (wp_oldstyle_one (Some key) (lenZ (kp_type p)) key' (lenZ (kp_key p)) (key_type_of (kh_typemask n))
      ((fun t => t ++ 10 :: 0 :: r) <$> kp_comment p) (match kp_comment p with Some t => lenZ t | None => 0 end)
      u [] (32 :: key_line p ++ 10 :: 0 :: r) Q (mk_ext s h)) as Hone. rewrite app_nil_r in Hone.
    apply Hone; [by destruct u|done|lia|]. eapply wp_add_plain; [by apply back_args|done| |done|lia| |].
    + by apply words_no_nul.
    + intros x rc _ _ Hno. done.
    + intros x e Hg He. apply HQ. replace (reset n) with e; [done|]. eapply entry_back; [done|done|exact He|].
      unfold named. destruct (read_mask_parts _ LIBSSH2_KNOWNHOST_TYPE_PLAIN Hkt) as [Ht _]; [tauto|]. rewrite Ht.
      change (_ =? LIBSSH2_KNOWNHOST_TYPE_SHA1) with false. cbn iota. rewrite Hn, Hnl, Hsa, Hsl. done.
  - destruct (enc_text d Hd) as (_ & W1 & _), (enc_text sd Hsd) as (B2 & W2 & _).
    set (u := str "|1|" ++ enc sd ++ str "|" ++ enc d) in *.
    apply (wp_hostline_parts p _ _ _ _ false); [apply Hp|done| |].
    { unfold is_plain_host. destruct (Z.ltb_spec 2 (lenZ u)); [|done]. unfold u. rewrite <- app_assoc.
      rewrite (bytes_at_prefix (str "|1|")) by done. done. }
    intros rest key key' Hrest Hlt. cbv zeta. rewrite (kf_named n p Hp).
    apply wp_hashed_parts; [done|rewrite lenZ_enc; dlia|rewrite lenZ_enc; dlia|].
    eapply (wp_add_line _ _ _ _ _ _ _ _ ltac:(by apply back_args) _ _ _ (enc d) (enc sd)); [done| | | |].
    + split; [by apply words_no_nul|]. split; [by apply enc_bytes|]. split; [rewrite lenZ_enc; dlia|by exists []].
    + right. split; [done|]. eexists. split; [done|]. split; [by apply words_no_nul|]. split; [by apply enc_bytes|].
      split; [rewrite lenZ_enc; dlia|by exists []].
    + intros x rc _ _ Hno. exfalso. apply Hno. split; [done|].
      destruct (read_mask_parts _ LIBSSH2_KNOWNHOST_TYPE_SHA1 Hkt) as (Ht & Hk2 & Hk0 & _); [tauto|].
      unfold addable, type_known. rewrite Ht, Hk2. split; [tauto|]. split; [done|]. intros _.
      split; eexists; apply base64_decode_enc; try apply _; try apply fresh_block_all; done || lia.
    + intros x e Hg He. apply HQ. replace (reset n) with e; [done|]. eapply entry_back; [done|done|exact He|].
      unfold named. destruct (read_mask_parts _ LIBSSH2_KNOWNHOST_TYPE_SHA1 Hkt) as [Ht _]; [tauto|]. rewrite Ht.
      change (_ =? LIBSSH2_KNOWNHOST_TYPE_SHA1) with true. cbn iota. intros (d' & sd' & D1 & D2 & -> & -> & -> & ->).
      apply decodes_enc in D1 as ->; [|done|lia]. apply decodes_enc in D2 as ->; [|done|lia]. by rewrite Hn, Hnl, Hs, Hsl.
Qed.

(** ** A file *)

(** The line of an entry, which fits the buffers. *)
Definition printed (n : known_host) (l : list Z) : Prop :=
  exists u p, host_field n u /\ key_field n p /\ l = line_of u p /\ lenZ l < 4092.

Lemma wp_writefile_loop s0 ps : forall ns ls buf room out s h (Q : Z * list Z -> ext knownhosts -> Prop),
  Forall2 (fun p n => knh_nodes h !! p = Some n) ps ns -> Forall2 printed ns ls ->
  lenZ (concat ls) <= room -> lenZ buf = 4092 -> kh_session s0 s -> alloc_fine s0 ->
  (forall s', kh_session s0 s' -> Q (0, out ++ concat ls) (mk_ext s' h)) ->
  wp (writefile_loop ps buf LIBSSH2_KNOWNHOST_FILE_OPENSSH room out) Q (mk_ext s h).
Proof.
  induction ps as [|p ps IH]; intros ns ls buf room out s h Q Hp Hl Hroom Hbuf Hs Hal HQ.
  { inversion Hp; subst. inversion Hl; subst. cbn [writefile_loop]. x_step. rewrite <- (app_nil_r out). by apply HQ. }
  inversion Hp as [|? n ? ns' Hn Hp' E1 E2]; subst. inversion Hl as [|? l ? ls' (u & kp & Hu & Hk & Hle & Hlen) Hl' E1 E2]; subst ls.
  cbn [writefile_loop]. x_step. eapply wp_node; [done|]. x_step. subst l.
  pose proof (lenZ_nonneg (line_of u kp)). pose proof (lenZ_nonneg (concat ls')). cbn [concat] in *. rewrite lenZ_app in Hroom.
  eapply wp_writeline; [done|done|lia|by apply Hs|]. intros s1 r Hs1 Hr. cbn [negb Z.eqb default fst snd]. cbn iota beta.
  x_step. eapply wp_access; [by apply bytes_at_prefix|]. cbv zeta. cbn [from_option id].
  rewrite Z.min_l by lia. rewrite Z.eqb_refl. cbn [negb].
  replace (Z.to_nat (lenZ (line_of u kp))) with (length (line_of u kp)) by (unfold lenZ; lia). rewrite firstn_all.
  eapply IH; [done|done|lia|congruence|by etransitivity|done|]. intros s' Hs'. rewrite <- app_assoc. by apply HQ.
Qed.

Lemma fgets_own b rest size : Forall (fun c => in_line c = true) b -> (length b + 2 <= size)%nat ->
  fgets size (b ++ 10 :: rest) = (b ++ [10], rest).
Proof.
  intros Hb. revert size. induction Hb as [|c b Hc _ IH]; intros size Hs; (destruct size as [|[|size]]; simpl in Hs; [lia..|]).
  - done.
  - cbn [app]. rewrite fgets_cons. unfold in_line in Hc. destruct (Z.eqb_spec c 10) as [->|]; [done|].
    rewrite IH by lia. done.
Qed.

Lemma line_body u n p : host_field n u -> key_field n p ->
  line_of u p = (u ++ 32 :: key_line p) ++ [10] /\ Forall (fun c => in_line c = true) (u ++ 32 :: key_line p).
Proof.
  intros Hu Hk. split; [unfold line_of; by rewrite <- app_assoc|].
  destruct (host_field_words n u Hu) as (_ & Hin & _). destruct (kf_parts n p Hk) as [_ _ Hco Hin2 _].
  apply Forall_app in Hin2 as [H1 H2]. apply Forall_app. split; [done|]. constructor; [done|]. unfold key_line.
  apply Forall_app. split; [done|]. constructor; [done|]. apply Forall_app. split; [done|].
  destruct (kp_comment p) as [t|]; simpl; [|constructor]. constructor; [done|]. by apply (Hco t).
Qed.

Lemma wp_read_lines ns : forall ls rounds buf num s h s0 h0 es,
  Forall2 printed ns ls -> (length ls < rounds)%nat -> grown s0 h0 es (mk_ext s h) -> alloc_fine s ->
  wp (readfile_loop rounds (concat ls) buf LIBSSH2_KNOWNHOST_FILE_OPENSSH num)
    (fun rc x => rc = num + lenZ ns /\ grown s0 h0 (es ++ (reset <$> ns)) x) (mk_ext s h).
Proof.
  induction ns as [|n ns IH]; intros ls rounds buf num s h s0 h0 es Hl Hr Hg Hal; (destruct rounds as [|rounds]; [lia|]).
  { inversion Hl; subst. cbn [readfile_loop concat fgets]. x_step. rewrite app_nil_r. split; [|done].
    change (lenZ (@nil known_host)) with 0. lia. }
  inversion Hl as [|? l ? ls' (u & kp & Hu & Hk & -> & Hlen) Hl' E1 E2]; subst. cbn [readfile_loop concat length] in *.
  destruct (line_body u n kp Hu Hk) as [Hbody Hin].
  assert (Hf : fgets 4092 (line_of u kp ++ concat ls') = (line_of u kp, concat ls')).
  { rewrite Hbody at 1. rewrite <- app_assoc. cbn [app]. rewrite fgets_own, <- Hbody; [done|done|].
    rewrite Hbody, lenZ_app in Hlen. change (lenZ [10]) with 1 in Hlen. unfold lenZ in Hlen. lia. }
  rewrite Hf. destruct (line_of u kp) as [|c lr] eqn:El; [by destruct u|]. rewrite <- El in *.
  assert (Hnn : no_nul (line_of u kp)).
  { rewrite Hbody. apply no_nul_app. split; [by apply in_line_no_nul|by repeat constructor]. }
  x_step. eapply wp_access; [apply strlen_zero; exact Hnn|]. x_step.
  eapply wp_read_back; [done|done|done|apply Hg|]. intros [s1 h1] Hx. change (negb (0 =? 0)) with false. cbn iota.
  eapply wp_mono; [eapply IH; [done|lia|exact (grown_trans _ _ _ _ _ _ _ Hg Hx)|by apply Hx]|].
  intros rc x [-> Hgx]. split; [rewrite lenZ_cons; lia|]. cbn [fmap list_fmap]. by rewrite <- app_assoc in Hgx.
Qed.

(** C18: Printing a collection to a file and reading the file into a collection appends
    the same entries in the same order: names or salted hashes, keys, types and comments,
    for entries that are [printed] and while memory and the disk do not run out: plain names
    of 3 to 254 bytes that are one word without commas and look neither like a hash nor like a
    comment, or hashes of 1 to 189 bytes with salts of 1 to 21, keys of a type
    other than RSA1, and lines that fit the buffer. Other entries are lost ([short_name_ignored]), or
    cannot be printed ([empty_salt_faults]). *)
Theorem knownhost_file_roundtrip s h h2 room ls
    (Hh : hosts_ok h) (Hh2 : hosts_ok h2) (Hl : Forall2 printed (nodes_list h) ls)
    (Hroom : lenZ (concat ls) <= room) (Hal : alloc_fine s) :
  wp (libssh2_knownhost_writefile (Some room) LIBSSH2_KNOWNHOST_FILE_OPENSSH)
    (fun w x => w = (0, concat ls) /\ x_data x = h /\
       wp (libssh2_knownhost_readfile (Some w.2) LIBSSH2_KNOWNHOST_FILE_OPENSSH)
         (fun num y => num = lenZ (nodes_list h) /\
            nodes_list (x_data y) = nodes_list h2 ++ (reset <$> nodes_list h) /\ hosts_ok (x_data y))
         (mk_ext (x_session x) h2))
    (mk_ext s h).
Proof.
  unfold libssh2_knownhost_writefile, libssh2_knownhost_readfile.
  change (LIBSSH2_KNOWNHOST_FILE_OPENSSH =? LIBSSH2_KNOWNHOST_FILE_OPENSSH) with true. cbn [negb].
  x_step. x_step. eapply (wp_writefile_loop s (knh_head h) (nodes_list h)); [|done|done|done|done|done|].
  - unfold nodes_list, entries. assert (Hsub : knh_head h ⊆ knh_head h) by done. revert Hsub. generalize (knh_head h) at 1 3 4 as ps.
    induction ps as [|p ps IH]; intros Hsub; [constructor|]. rewrite entries_of_cons.
    destruct (proj1 (ho_live h Hh p)) as [n Hn]; [apply Hsub; by left|]. rewrite Hn. constructor; [done|].
    apply IH. intros q Hq. apply Hsub. by right.
  - intros s' Hs'. cbn [app snd x_session x_data]. split; [done|]. split; [done|].
    eapply wp_mono; [apply (wp_read_lines (nodes_list h) ls _ _ _ s' h2 s' h2 []); [done| |by apply grown_refl|by apply Hs']|].
    + clear -Hl. revert ls Hl. generalize (nodes_list h) as ns. induction ns as [|n ns IH]; intros ls Hl; inversion Hl; subst; simpl; [lia|].
      destruct H1 as (u & p & _ & _ & -> & _). rewrite length_app. specialize (IH _ H3).
      assert (0 < length (line_of u p))%nat by (unfold line_of; rewrite length_app; simpl; lia). lia.
    + intros rc x (-> & G1 & G2 & G3). split; [lia|]. done.
Qed.

(** ** Concrete collections *)

Definition plain_host : known_host :=
  mk_known_host (Some (str "host.example" ++ [0])) 12 0 (read_mask LIBSSH2_KNOWNHOST_KEY_SSHRSA LIBSSH2_KNOWNHOST_TYPE_PLAIN)
    None 0 (Some (str "AAAAB3NzaC1yc2E=" ++ [0])) None 0 (Some (str "a comment" ++ [0])) 9 external_0.
Definition hashed_host : known_host :=
  mk_known_host (Some (replicate 20 7)) 20 0 (read_mask LIBSSH2_KNOWNHOST_KEY_UNKNOWN LIBSSH2_KNOWNHOST_TYPE_SHA1)
    (Some (replicate 20 200)) 20 (Some (str "AAAAC3NzaC1lZDI1" ++ [0])) (Some (str "sk-ssh-x" ++ [0])) 8 None 0 external_0.
Definition two_hosts : knownhosts :=
  mk_knownhosts [1; 2]%positive (<[1%positive := plain_host]> (<[2%positive := hashed_host]> ∅)) 3.

Lemma two_hosts_ok : hosts_ok two_hosts.
Proof.
  split; simpl.
  - apply (bool_decide_unpack _). by vm_compute.
  - intros p. rewrite !elem_of_cons, elem_of_nil. destruct (decide (p = 1%positive)) as [-> |H1]; [split; [by eexists|tauto]|].
    destruct (decide (p = 2%positive)) as [-> |H2]; [split; [by eexists|tauto]|].
    rewrite !lookup_insert_ne, lookup_empty by done. split; [by intros [?|[?|?]]|by intros []].
  - intros p n. destruct (decide (p = 1%positive)) as [-> |H1].
    { intros [= <-]. split; simpl; try done; [intros _; exists (str "host.example"); repeat split; by repeat constructor|by left|].
      by eexists. }
    destruct (decide (p = 2%positive)) as [-> |H2].
    { intros [= <-]. split; simpl; try done; [by intros []|intros _; by eexists _, _|by right; right|]. by eexists. }
    by rewrite !lookup_insert_ne, lookup_empty by done.
  - intros p Hp. by rewrite !lookup_insert_ne, lookup_empty by lia.
  - intros p n. destruct (decide (p = 1%positive)) as [-> |H1]; [intros [= <-]; by left|].
    destruct (decide (p = 2%positive)) as [-> |H2]; [intros [= <-]; by left|].
    by rewrite !lookup_insert_ne, lookup_empty by done.
Qed.

Definition plain_parts : key_parts := mk_key_parts (str "ssh-rsa") (str "AAAAB3NzaC1yc2E=") (Some (str "a comment")).
Definition hashed_parts : key_parts := mk_key_parts (str "sk-ssh-x") (str "AAAAC3NzaC1lZDI1") None.

Ltac by_eval := apply (bool_decide_unpack _); by vm_compute.

Lemma two_hosts_printed : Forall2 printed (nodes_list two_hosts)
  [line_of (str "host.example") plain_parts; line_of (str "|1|" ++ enc (replicate 20 200) ++ str "|" ++ enc (replicate 20 7)) hashed_parts].
Proof.
  change (nodes_list two_hosts) with [plain_host; hashed_host].
  constructor; [|constructor; [|constructor]]; eexists _, _; (split; [|split; [|split; [reflexivity|by vm_compute]]]).
  - apply PlainField; try done; by_eval.
  - split; try done. split; [split; [by_eval|by eexists _, _]|split; [by_eval|done]| |by_eval|by_eval].
    intros t [= <-]. split; [done|by_eval].
  - apply HashedField; try done; by_eval.
  - split; try done. split; [split; [by_eval|by eexists _, _]|split; [by_eval|done]|done|by_eval|by_eval].
Qed.

Lemma knownhost_file_roundtrip_witness :
  exists ls, wp (libssh2_knownhost_writefile (Some 1000) LIBSSH2_KNOWNHOST_FILE_OPENSSH)
    (fun w x => w = (0, concat ls) /\ x_data x = two_hosts /\
       wp (libssh2_knownhost_readfile (Some w.2) LIBSSH2_KNOWNHOST_FILE_OPENSSH)
         (fun num y => num = lenZ (nodes_list two_hosts) /\
            nodes_list (x_data y) = nodes_list knownhosts_0 ++ (reset <$> nodes_list two_hosts) /\ hosts_ok (x_data y))
         (mk_ext (x_session x) knownhosts_0))
    (mk_ext session_0 two_hosts).
Proof.
  eexists. apply (knownhost_file_roundtrip session_0 two_hosts knownhosts_0 1000).
  - apply two_hosts_ok.
  - apply hosts_ok_0.
  - apply two_hosts_printed.
  - by vm_compute.
  - constructor.
Defined.

Lemma knownhost_check_lookup_witness :
  wp (knownhost_check (fun _ _ => replicate 20 7) (str "host.example" ++ [0]) 22 (str "AAAAB3NzaC1yc2E=" ++ [0]) 0
        (read_mask LIBSSH2_KNOWNHOST_KEY_SSHRSA LIBSSH2_KNOWNHOST_TYPE_PLAIN) true)
    (fun res e => res = (LIBSSH2_KNOWNHOST_CHECK_MATCH, Some 1%positive)) (mk_ext session_0 two_hosts).
Proof.
  eapply wp_mono.
  - apply (knownhost_check_lookup (fun _ _ => replicate 20 7) ltac:(done) session_0 two_hosts (str "host.example") []
             22 _ 0 (str "AAAAB3NzaC1yc2E=")).
    + apply two_hosts_ok.
    + unfold no_nul. by_eval.
    + done.
    + done.
    + split; [unfold no_nul; by_eval|by eexists].
  - intros [rc x] e [(_ & _ & [Hx|[? _]])|(H1 & H2 & _)]; [|done|].
    + exfalso. apply Exists_exists in Hx as (y & Hy & Hlen). revert Hlen. simpl in Hy.
      repeat (apply elem_of_cons in Hy as [-> |Hy]; [by vm_compute|]). by apply elem_of_nil in Hy.
    + specialize (H2 eq_refl). vm_compute in H1, H2. by subst.
Defined.

(** ** Lines that are not read as they are meant *)

Definition read_from (line : list Z) (len : Z) : outcome (ext knownhosts) Z :=
  libssh2_knownhost_readline line len LIBSSH2_KNOWNHOST_FILE_OPENSSH (mk_ext session_0 knownhosts_0).
Definition entries_after {A} (r : outcome (ext knownhosts) A) : option (A * list known_host) :=
  match r with Ret a e => Some (a, nodes_list (x_data e)) | _ => None end.

(** A newline in the middle makes the unbounded skip of blanks pass the end of the key:
    [keylen] wraps around, and the comment is written at index [SIZE_MAX]. *)
Theorem newline_inside_faults :
  let line := str "host.example " ++ replicate 19 97 ++ [10; 32] in
  read_from (line ++ [0]) (lenZ line) = Fault.
Proof. by vm_compute. Qed.

(** A name of one or two characters is taken for a hash: the line is ignored. *)
Theorem short_name_ignored :
  let line := str "db ssh-rsa AAAAB3NzaC1yc2E=" in
  entries_after (read_from (line ++ [0]) (lenZ line)) = Some (0, []).
Proof. by vm_compute. Qed.

(** A prefix of a type of key is that type. *)
Theorem prefix_is_key_type :
  let line := str "host.example ssh- AAAAB3NzaC1yc2E=" in
  option_map (fun r => (fun n => key_type_of (kh_typemask n)) <$> r.2) (entries_after (read_from (line ++ [0]) (lenZ line)))
    = Some [LIBSSH2_KNOWNHOST_KEY_SSHDSS].
Proof. by vm_compute. Qed.

(** When the length leaves out the newline that follows, the last character of the key
    is lost. *)
Theorem length_without_newline :
  let line := str "host.example ssh-rsa AAAAB3NzaC1yc2E" in
  option_map (fun r => kh_key <$> r.2) (entries_after (read_from (line ++ [10; 0]) (lenZ line)))
    = Some [Some (str "AAAAB3NzaC1yc2" ++ [0])].
Proof. by vm_compute. Qed.

(** A hashed name without salt is accepted; printing the entry reads memory that was
    never set. *)
Theorem empty_salt_faults :
  let line := str "|1||AAAA ssh-rsa AAAAB3NzaC1yc2E=" in
  match read_from (line ++ [0]) (lenZ line) with
  | Ret rc e => rc = 0 /\ libssh2_knownhost_writefile (Some 1000) LIBSSH2_KNOWNHOST_FILE_OPENSSH e = Fault
  | _ => False
  end.
Proof. by vm_compute. Qed.

(** ** Calls on a collection of known hosts

    Any sequence of calls whose arguments are in order ([call_ok]) leaves the collection
    well formed, and the next call does not fault. The calls are those that add, look up,
    remove, traverse and read; printing has its own theorems, since it is not safe for every
    entry that can be read ([empty_salt_faults]). *)

Inductive knownhost_call :=
| CallAdd (host : list Z) (salt : option (list Z)) (key : list Z) (keylen : Z) (comment : option (list Z))
    (commentlen typemask : Z) (store : bool)
| CallAddOld (host : list Z) (salt : option (list Z)) (key : list Z) (keylen typemask : Z) (store : bool)
| CallCheckOld (hostp key : list Z) (keylen typemask : Z) (want : bool)
| CallCheck (hostp : list Z) (port : Z) (key : list Z) (keylen typemask : Z) (want : bool)
| CallDel (entry : option ptr)
| CallGet (oprev : option ptr)
| CallReadline (line : list Z) (len type : Z)
| CallReadfile (file : option (list Z)) (type : Z).

Section Calls.
Context (hmac_sha1 : list Z -> list Z -> list Z).

Definition run_call (c : knownhost_call) : KM (Z * option ptr) :=
  match c with
  | CallAdd host salt key keylen comment cl mask store => libssh2_knownhost_addc host salt key keylen comment cl mask store
  | CallAddOld host salt key keylen mask store => libssh2_knownhost_add host salt key keylen mask store
  | CallCheckOld hostp key keylen mask want => libssh2_knownhost_check hmac_sha1 hostp key keylen mask want
  | CallCheck hostp port key keylen mask want => libssh2_knownhost_checkp hmac_sha1 hostp port key keylen mask want
  | CallDel entry => let! rc := libssh2_knownhost_del entry in ret (rc, None)
  | CallGet oprev => libssh2_knownhost_get oprev
  | CallReadline line len type => let! rc := libssh2_knownhost_readline line len type in ret (rc, None)
  | CallReadfile file type => let! rc := libssh2_knownhost_readfile file type in ret (rc, None)
  end.

(** The pointer, if any, is to an entry of the collection. *)
Definition entry_live (h : knownhosts) (p : option ptr) : Prop := forall q, p = Some q -> q ∈ knh_head h.

(** The host is a string, and the key a string or a block, as the mask says. *)
Definition check_args (hostp : list Z) (port : Z) (key : list Z) (keylen mask : Z) : Prop :=
  exists t k r, hostp = t ++ 0 :: r /\ no_nul t /\ port < 2 ^ 31 /\ key_text mask key keylen k.

(** A terminated line without a newline in the middle ([newline_inside_faults]). *)
Definition line_arg (line : list Z) (len : Z) : Prop :=
  exists t r, line = t ++ 0 :: r /\ len = lenZ t /\ no_nul t /\ one_line t /\ bytes_ok line /\ lenZ t < 2 ^ 31.

Definition call_ok (h : knownhosts) (c : knownhost_call) : Prop :=
  match c with
  | CallAdd host salt key keylen comment cl mask _ => exists t st k, add_args host salt None 0 key keylen comment cl mask t st k
  | CallAddOld host salt key keylen mask _ => exists t st k, add_args host salt None 0 key keylen None 0 mask t st k
  | CallCheckOld hostp key keylen mask _ => check_args hostp (-1) key keylen mask
  | CallCheck hostp port key keylen mask _ => check_args hostp port key keylen mask
  | CallDel entry => entry_live h entry
  | CallGet oprev => entry_live h oprev
  | CallReadline line len _ => line_arg line len
  | CallReadfile file _ => forall f, file = Some f -> bytes_ok f
  end.

Hypothesis hmac_len : forall s m, lenZ (hmac_sha1 s m) = SHA_DIGEST_LENGTH.

Lemma live_node h p : hosts_ok h -> p ∈ knh_head h -> exists n, knh_nodes h !! p = Some n.
Proof. intros Hh Hp. by apply (ho_live h Hh). Qed.

Lemma del_ok h p : hosts_ok h ->
  hosts_ok (h <| knh_head ::= filter (fun q => q <> p) |> <| knh_nodes ::= delete p |>).
Proof.
  intros [Hnd Hl Hn Hf Hx]. split; simpl.
  - by apply NoDup_filter.
  - intros q. rewrite list_elem_of_filter, Hl. destruct (decide (q = p)) as [->|Hne].
    + rewrite lookup_delete_eq. split; [by intros [? _]|by intros []].
    + rewrite lookup_delete_ne by done. tauto.
  - intros q n [_ Hq]%lookup_delete_Some. by apply Hn in Hq.
  - intros q Hq. apply lookup_delete_None. right. by apply Hf.
  - intros q n [_ Hq]%lookup_delete_Some. by apply Hx.
Qed.

Lemma wp_del entry s h : hosts_ok h -> entry_live h entry ->
  wp (libssh2_knownhost_del entry) (fun _ x => hosts_ok (x_data x)) (mk_ext s h).
Proof.
  intros Hh He. unfold libssh2_knownhost_del. destruct entry as [p|]; [|by apply wp_kerror].
  destruct (live_node h p Hh (He p eq_refl)) as [n Hn]. x_step. eapply wp_node; [done|].
  destruct (Z.eqb_spec (magic (kh_external n)) KNOWNHOST_MAGIC) as [E|E]; cbn [negb]; [|by apply wp_kerror].
  x_step. eapply wp_access; [destruct (ho_ext h Hh p n Hn) as [Hx|Hx]; [by rewrite Hx in E|done]|].
  do 3 x_step. unfold free_host. x_step. eapply wp_node; [done|]. x_step. x_step. by apply del_ok.
Qed.

Lemma list_next_some p ps : p ∈ ps -> exists o, list_next p ps = Some o /\ forall q, o = Some q -> q ∈ ps.
Proof.
  induction ps as [|q ps IH]; [by intros ?%elem_of_nil|]. simpl. intros Hp. destruct (decide (p = q)) as [->|Hne].
  - eexists. split; [done|]. intros x. destruct ps; [done|]. intros [= ->]. right. by left.
  - destruct IH as (o & H1 & H2); [by apply elem_of_cons in Hp as [?|?]|]. exists o. split; [done|]. intros x Hx. right. by apply H2.
Qed.

Lemma wp_get oprev s h : hosts_ok h -> entry_live h oprev ->
  wp (libssh2_knownhost_get oprev) (fun _ x => hosts_ok (x_data x)) (mk_ext s h).
Proof.
  intros Hh He. unfold libssh2_knownhost_get.
  assert (Hfin : forall o : option ptr, (forall q, o = Some q -> q ∈ knh_head h) ->
    wp match o with Some p => let! x := knownhost_to_external p in ret (0, Some x) | None => ret (1, None) end
       (fun _ x => hosts_ok (x_data x)) (mk_ext s h)).
  { intros [p|] Ho; [|by x_step]. destruct (live_node h p Hh (Ho p eq_refl)) as [n Hn]. x_step.
    eapply wp_to_external; [done|]. intros h' Hs. x_step. by eapply same_entries_ok. }
  assert (Hhead : forall q, head (knh_head h) = Some q -> q ∈ knh_head h).
  { intros q Hq. destruct (knh_head h); [done|]. injection Hq as ->. by left. }
  x_step. x_step. x_step. destruct oprev as [p|]; [|x_step; by apply Hfin].
  pose proof (He p eq_refl) as Hp. destruct (live_node h p Hh Hp) as [n Hn]. x_step. eapply wp_node; [done|].
  destruct (ho_ext h Hh p n Hn) as [Hx|Hx]; rewrite Hx; cbn [ext_node external_0]; [x_step; by apply Hfin|].
  x_step. eapply wp_node; [done|]. destruct (list_next_some p (knh_head h) Hp) as (o & Ho & Hin).
  eapply wp_access; [done|]. by apply Hfin.
Qed.

Lemma wp_add host salt key keylen comment cl mask store t st k s h :
  hosts_ok h -> add_args host salt None 0 key keylen comment cl mask t st k ->
  wp (knownhost_add host salt None 0 key keylen comment cl mask store) (fun _ x => hosts_ok (x_data x)) (mk_ext s h).
Proof.
  intros Hh Ha. eapply wp_knownhost_add; [done|done| |].
  - intros s' rc h' _ _ _ E1 E2 E3. by apply (unchanged_ok h).
  - intros s' e h' _ Hty Hk He Hs. assert (hosts_ok (push h e)) by (apply push_ok; [done|by eapply entry_node_ok|apply He]).
    destruct store; [by eapply same_entries_ok|by subst].
Qed.

Lemma wp_check hostp port key keylen mask want s h : hosts_ok h -> check_args hostp port key keylen mask ->
  wp (knownhost_check hmac_sha1 hostp port key keylen mask want) (fun _ x => hosts_ok (x_data x)) (mk_ext s h).
Proof.
  intros Hh (t & k & r & -> & Ht & Hp & Hk). destruct (decide (host_type mask = LIBSSH2_KNOWNHOST_TYPE_SHA1)) as [E|E].
  - unfold knownhost_check. rewrite E. by x_step.
  - eapply wp_mono; [by apply wp_knownhost_check|].
    intros res x [(_ & -> & _)|(_ & _ & Hs)]; [done|by eapply same_entries_ok].
Qed.

Lemma wp_call c s h : hosts_ok h -> call_ok h c -> wp (run_call c) (fun _ x => hosts_ok (x_data x)) (mk_ext s h).
Proof.
  intros Hh Hc. destruct c; cbn [run_call call_ok] in *.
  - destruct Hc as (t & st & k & Ha). by eapply wp_add.
  - destruct Hc as (t & st & k & Ha). by eapply wp_add.
  - by apply wp_check.
  - by apply wp_check.
  - x_step. eapply wp_mono; [by apply wp_del|]. by intros.
  - by apply wp_get.
  - destruct Hc as (t & r & -> & -> & Hn & Hl & Hb & Hlen). x_step. eapply wp_mono; [by apply wp_readline|].
    intros rc x (_ & es & Hg). x_step. apply Hg.
  - x_step. eapply wp_mono; [by apply wp_readfile|]. intros rc x (? & _). by x_step.
Qed.

(** A call of the application. *)
Inductive kh_step : ext knownhosts -> ext knownhosts -> Prop :=
| Kh_step x c r x' : call_ok (x_data x) c -> run_call c x = Ret r x' -> kh_step x x'.

(** C34: After any sequence of calls of [libssh2_knownhost_add], [_addc], [_check],
    [_checkp], [_del], [_get], [_readline] and [_readfile] whose arguments are in order
    (strings that are terminated, entries that are in the collection, and for [_readline] a
    single terminated line whose length is given), every node that is listed is live and
    complete, no node is listed twice, none is lost, and the next such call returns: no use of
    a freed node, no read outside a block. *)
Theorem knownhost_calls_invariant s x
    (Hx : rtc kh_step (mk_ext s knownhosts_0) x) :
  hosts_ok (x_data x) /\ forall c, call_ok (x_data x) c -> exists r x', run_call c x = Ret r x'.
Proof.
  assert (Hh : hosts_ok (x_data x)).
  { remember (mk_ext s knownhosts_0) as x0 eqn:E. assert (hosts_ok (x_data x0)) as H0 by (subst; apply hosts_ok_0). clear E.
    induction Hx as [y|y z w [a c r x' Hc Hr] _ IH]; [done|]. apply IH. destruct a as [s1 h1].
    pose proof (wp_call c s1 h1 H0 Hc) as Hw. unfold wp in Hw. by rewrite Hr in Hw. }
  split; [done|]. intros c Hc. destruct x as [s1 h1]. destruct (wp_Ret _ _ _ (wp_call c s1 h1 Hh Hc)) as (r & x' & H & _).
  by exists r, x'.
Qed.
End Calls.

Definition add_example : knownhost_call :=
  CallAdd (str "host.example" ++ [0]) None (str "AAAAB3NzaC1yc2E=" ++ [0]) 0 None 0
    (read_mask LIBSSH2_KNOWNHOST_KEY_SSHRSA LIBSSH2_KNOWNHOST_TYPE_PLAIN) true.

Lemma knownhost_calls_invariant_witness :
  exists x, knh_head (x_data x) = [1%positive] /\ hosts_ok (x_data x) /\
    exists r x', run_call (fun _ _ => replicate 20 0) (CallDel (Some 1%positive)) x = Ret r x'.
Proof.
  pose (hmac := fun _ _ : list Z => replicate 20 0).
  exists (match run_call hmac add_example (mk_ext session_0 knownhosts_0) with Ret _ x => x | _ => mk_ext session_0 knownhosts_0 end).
  split; [by vm_compute|].
  destruct (knownhost_calls_invariant hmac ltac:(done) session_0
    (match run_call hmac add_example (mk_ext session_0 knownhosts_0) with Ret _ x => x | _ => mk_ext session_0 knownhosts_0 end))
    as [H1 H2].
  - apply rtc_once. apply (Kh_step hmac _ add_example (0, Some 1%positive)).
    + exists (str "host.example"), [], (str "AAAAB3NzaC1yc2E="). split; try done.
      * split; [unfold no_nul; by_eval|]. split; [by_eval|]. split; [done|by exists []].
      * exists 0, []. split; [done|]. right. split; [done|]. split; [done|]. unfold no_nul. by_eval.
    + by vm_compute.
  - split; [exact H1|]. apply H2. intros q [= <-]. by vm_compute; left.
Defined.
