(* ===== verification/Userauth.v ===== *)
(** * User authentication: methods and passwords (userauth.c)

    [userauth_list], [userauth_password] and what the other methods share with them. The
    progress of a method is in fields of the session that only it uses; a block such a
    field points to belongs to the field and is given by its bytes: the payload that
    [_libssh2_packet_requirev] hands over, and the request that is sent. An access
    through a null field is a fault. *)

From stdpp Require Import base numbers list gmap strings.
From S2P Require Import Prelude Codes CString KexMethods Wire Session ChannelWindow Packet Conn Comp PacketSafety PacketSpec PacketWait Ext Blocking.

(** A reply that was handed over: the return value, the payload, and the [start] of the
    waiting state. *)
Definition reply : Type := Z * option (list Z) * Z.

Definition SSH_CONNECTION : list Z := str "ssh-connection".

(** The packet [byte SSH_MSG_USERAUTH_REQUEST, string user, string service, string
    method]. *)
Definition request_head (username method : list Z) : list Z :=
  store_str (store_str (store_str [SSH_MSG_USERAUTH_REQUEST] username) SSH_CONNECTION) method.

Section Common.
Context (transport_read : CM Z) (fuel : nat).
Context {X : Type}.

(** [_libssh2_packet_requirev]; the payload becomes the caller's. *)
Definition require_reply (codes : list Z) (start : Z) : XM X reply :=
  let! r := xlift (packet_requirev transport_read fuel codes 0 None start) in
  match r.1.2 with
  | Some (p, len) =>
      let! d := xlift (block p) in
      let! d := access (bytes_at d 0 len) in
      xlift (free_block p) ;; ret (r.1.1, Some d, r.2)
  | None => ret (r.1.1, None, r.2)
  end.

(** [LIBSSH2_ALLOC] of [size] bytes that are then filled with [bytes]. *)
Definition build_packet (size : Z) (bytes : list Z) : XM X (option (list Z)) :=
  let! ok := xlift alloc_outcome in
  if negb ok then ret None
  else if lenZ bytes <=? size then ret (Some bytes) else fault.

Definition set_authenticated : XM X unit :=
  xlift (modify (fun s => s <| s_state ::= Z.lor LIBSSH2_STATE_AUTHENTICATED |>)).

Definition first_byte (d : option (list Z)) : XM X Z := let! d := access d in access (byte_at d 0).
End Common.

(** ** The methods a server offers *)

Record list_data := mk_list_data {
  userauth_list_state : libssh2_nonblocking_states;
  userauth_list_data : option (list Z);
  userauth_list_data_len : Z;
  userauth_banner : option (list Z);
  userauth_list_start : Z
}.
#[global] Instance eta_list_data : Eta list_data := fun d =>
  mk_list_data (userauth_list_state d) (userauth_list_data d) (userauth_list_data_len d) (userauth_banner d)
    (userauth_list_start d).
Definition list_data_0 : list_data := mk_list_data libssh2_NB_state_idle None 0 None 0.

Section List.
Context (transport_send : list Z -> list Z -> CM Z) (transport_read : CM Z) (fuel : nat).

Abbreviation LM := (XM list_data).

(** A return of NULL with an error. *)
Definition list_fail (code : Z) (msg : string) : LM (option (list Z)) := xerror code msg ;; ret None.
Definition list_idle : LM unit := xset (fun d => d <| userauth_list_state := libssh2_NB_state_idle |>).
Definition list_free : LM unit := xset (fun d => d <| userauth_list_data := None |>).

Definition list_request (username : list Z) : LM (option unit) :=
  let size := u32 (lenZ username + 27) in
  xset (fun d => d <| userauth_list_start := 0 |> <| userauth_list_data_len := size |>) ;;
  let! p := build_packet size (store_u32 (store_str (store_str [SSH_MSG_USERAUTH_REQUEST] username) SSH_CONNECTION) 4) in
  xset (fun d => d <| userauth_list_data := p |>) ;;
  match p with
  | None => xerror LIBSSH2_ERROR_ALLOC "Unable to allocate memory for userauth_list" ;; ret None
  | Some _ => xset (fun d => d <| userauth_list_state := libssh2_NB_state_created |>) ;; ret (Some tt)
  end.

Definition list_send : LM (option unit) :=
  let! p := xget userauth_list_data in
  let! p := access p in
  let! len := xget userauth_list_data_len in
  let! p := access (bytes_at p 0 len) in
  let! rc := xlift (transport_send p (str "none")) in
  if rc =? LIBSSH2_ERROR_EAGAIN then
    xerror LIBSSH2_ERROR_EAGAIN "Would block requesting userauth list" ;; ret None
  else
    list_free ;;
    if negb (rc =? 0) then
      xerror LIBSSH2_ERROR_SOCKET_SEND "Unable to send userauth-none request" ;; list_idle ;; ret None
    else xset (fun d => d <| userauth_list_state := libssh2_NB_state_sent |>) ;; ret (Some tt).

(** The reply, stored; [None] returns. *)
Definition list_reply (codes : list Z) : LM (option unit) :=
  let! start := xget userauth_list_start in
  let! r := require_reply transport_read fuel codes start in
  let '(rc, data, start) := r in
  xset (fun d => d <| userauth_list_start := start |>) ;;
  (match data with
   | Some p => xset (fun d => d <| userauth_list_data := Some p |> <| userauth_list_data_len := lenZ p |>)
   | None => ret tt
   end) ;;
  if rc =? LIBSSH2_ERROR_EAGAIN then
    xerror LIBSSH2_ERROR_EAGAIN "Would block requesting userauth list" ;; ret None
  else
    let! len := xget userauth_list_data_len in
    if negb (rc =? 0) || (len <? 1) then
      xerror rc "Failed getting response" ;; list_idle ;; ret None
    else ret (Some tt).

(** The banner is kept, and the next reply is waited for. *)
Definition list_banner : LM (option unit) :=
  let! p := xget userauth_list_data in
  let! p := access p in
  let! len := xget userauth_list_data_len in
  if len <? 5 then
    list_free ;; xerror LIBSSH2_ERROR_PROTO "Unexpected packet size" ;; ret None
  else
    let! banner_len := access (ntohu32 p 1) in
    if u64 (len - 5) <? banner_len then
      list_free ;; xerror LIBSSH2_ERROR_OUT_OF_BOUNDARY "Unexpected userauth banner size" ;; ret None
    else
      let! text := access (bytes_at p 5 banner_len) in
      let! b := build_packet (u32 (banner_len + 1)) (text ++ [0]) in
      xset (fun d => d <| userauth_banner := b |>) ;;
      match b with
      | None =>
          list_free ;; xerror LIBSSH2_ERROR_ALLOC "Unable to allocate memory for userauth_banner" ;; ret None
      | Some _ => list_free ;; list_reply [SSH_MSG_USERAUTH_SUCCESS; SSH_MSG_USERAUTH_FAILURE]
      end.

(** The methods that can continue: moved to the front of the block and terminated. *)
Definition list_methods : LM (option (list Z)) :=
  let! p := xget userauth_list_data in
  let! c := first_byte p in
  if c =? SSH_MSG_USERAUTH_SUCCESS then
    xerror LIBSSH2_ERROR_NONE "No error" ;;
    list_free ;; set_authenticated ;; list_idle ;; ret None
  else
    let! p := access p in
    let! len := xget userauth_list_data_len in
    if len <? 5 then
      list_free ;; list_fail LIBSSH2_ERROR_PROTO "Unexpected packet size"
    else
      let! methods_len := access (ntohu32 p 1) in
      if len - 5 <=? methods_len then list_fail LIBSSH2_ERROR_OUT_OF_BOUNDARY "Unexpected userauth list size"
      else
        let! text := access (bytes_at p 5 methods_len) in
        let p := text ++ [0] ++ drop (Z.to_nat (methods_len + 1)) p in
        xset (fun d => d <| userauth_list_data := Some p |>) ;;
        list_idle ;; ret (Some p).

Definition then_list (m : LM (option unit)) (k : LM (option (list Z))) : LM (option (list Z)) :=
  let! r := m in match r with Some _ => k | None => ret None end.

Definition userauth_list (username : list Z) : LM (option (list Z)) :=
  let! st := xget userauth_list_state in
  then_list (if nb_is st libssh2_NB_state_idle then list_request username else ret (Some tt)) (
  let! st := xget userauth_list_state in
  then_list (if nb_is st libssh2_NB_state_created then list_send else ret (Some tt)) (
  let! st := xget userauth_list_state in
  if nb_is st libssh2_NB_state_sent then
    then_list (list_reply [SSH_MSG_USERAUTH_SUCCESS; SSH_MSG_USERAUTH_FAILURE; SSH_MSG_USERAUTH_BANNER]) (
    let! p := xget userauth_list_data in
    let! c := first_byte p in
    then_list (if c =? SSH_MSG_USERAUTH_BANNER then list_banner else ret (Some tt)) list_methods)
  else list_idle ;; xget userauth_list_data)).

Definition libssh2_userauth_list (username : list Z) : LM (option (list Z)) :=
  block_adjust_errno (fun _ => xlift) transport_send (userauth_list username) fuel.

(** The return value and [*banner]. *)
Definition libssh2_userauth_banner : LM (Z * option (list Z)) :=
  let! b := xget userauth_banner in
  match b with
  | None => let! rc := xerror LIBSSH2_ERROR_MISSING_USERAUTH_BANNER "Missing userauth banner" in ret (rc, None)
  | Some b => ret (0, Some b)
  end.
End List.

Definition libssh2_userauth_authenticated : CM Z :=
  let! st := gets s_state in ret (if Z.land st LIBSSH2_STATE_AUTHENTICATED =? 0 then 0 else 1).

(** ** Passwords *)

Record pswd_data := mk_pswd_data {
  userauth_pswd_state : libssh2_nonblocking_states;
  userauth_pswd_data : option (list Z);
  userauth_pswd_data0 : Z;
  userauth_pswd_data_len : Z;
  userauth_pswd_newpw : option (list Z);
  userauth_pswd_newpw_len : Z;
  userauth_pswd_start : Z
}.
#[global] Instance eta_pswd_data : Eta pswd_data := fun d =>
  mk_pswd_data (userauth_pswd_state d) (userauth_pswd_data d) (userauth_pswd_data0 d) (userauth_pswd_data_len d)
    (userauth_pswd_newpw d) (userauth_pswd_newpw_len d) (userauth_pswd_start d).
Definition pswd_data_0 : pswd_data := mk_pswd_data libssh2_NB_state_idle None 0 0 None 0 0.

Section Password.
Context (transport_send : list Z -> list Z -> CM Z) (transport_read : CM Z) (fuel : nat).
(** The callback that asks for a new password, if there is one, and what it answers. *)
Context (passwd_change_cb : option (option (list Z))).
Context (username password : list Z).

Abbreviation PM := (XM pswd_data).

(** [Some rc] returns from [userauth_password]. *)
Definition pswd_return (code : Z) (msg : string) : PM (option Z) := let! rc := xerror code msg in ret (Some rc).
Definition set_pswd_state (st : libssh2_nonblocking_states) : PM unit := xset (fun d => d <| userauth_pswd_state := st |>).
Definition pswd_free : PM unit := xset (fun d => d <| userauth_pswd_data := None |>).

(** The password follows in a part of its own. *)
Definition pswd_packet : list Z :=
  store_u32 (request_head username (str "password") ++ [0]) (lenZ password).
(** The request to change it ends with the length of the new one. *)
Definition change_packet (newpw_len : Z) : list Z :=
  store_u32 (store_str (request_head username (str "password") ++ [1]) password) newpw_len.

Definition pswd_request : PM (option Z) :=
  let size := u32 (lenZ username + 40) in
  xset (fun d => d <| userauth_pswd_start := 0 |> <| userauth_pswd_data_len := size |>
                   <| userauth_pswd_data0 := u8 (- SSH_MSG_USERAUTH_PASSWD_CHANGEREQ - 1) |>) ;;
  let! p := build_packet size pswd_packet in
  xset (fun d => d <| userauth_pswd_data := p |>) ;;
  match p with
  | None => pswd_return LIBSSH2_ERROR_ALLOC "Unable to allocate memory for userauth-password request"
  | Some _ => set_pswd_state libssh2_NB_state_created ;; ret None
  end.

Definition pswd_sent_packet : PM (list Z) :=
  let! p := xget userauth_pswd_data in
  let! p := access p in
  let! len := xget userauth_pswd_data_len in access (bytes_at p 0 len).

Definition pswd_send : PM (option Z) :=
  let! p := pswd_sent_packet in
  let! rc := xlift (transport_send p password) in
  if rc =? LIBSSH2_ERROR_EAGAIN then pswd_return LIBSSH2_ERROR_EAGAIN "Would block writing password request"
  else
    pswd_free ;;
    if negb (rc =? 0) then
      set_pswd_state libssh2_NB_state_idle ;;
      pswd_return LIBSSH2_ERROR_SOCKET_SEND "Unable to send userauth-password request"
    else set_pswd_state libssh2_NB_state_sent ;; ret None.

Definition pswd_codes : list Z :=
  [SSH_MSG_USERAUTH_SUCCESS; SSH_MSG_USERAUTH_FAILURE; SSH_MSG_USERAUTH_PASSWD_CHANGEREQ].

Definition pswd_reply : PM (option Z) :=
  let! start := xget userauth_pswd_start in
  let! r := require_reply transport_read fuel pswd_codes start in
  let '(rc, data, start) := r in
  xset (fun d => d <| userauth_pswd_start := start |>) ;;
  (match data with
   | Some p => xset (fun d => d <| userauth_pswd_data := Some p |> <| userauth_pswd_data_len := lenZ p |>)
   | None => ret tt
   end) ;;
  if negb (rc =? 0) then
    (if negb (rc =? LIBSSH2_ERROR_EAGAIN) then set_pswd_state libssh2_NB_state_idle else ret tt) ;;
    pswd_return rc "Waiting for password response"
  else
    let! len := xget userauth_pswd_data_len in
    if len <? 1 then
      set_pswd_state libssh2_NB_state_idle ;; pswd_return LIBSSH2_ERROR_PROTO "Unexpected packet size"
    else
      let! p := xget userauth_pswd_data in
      let! c := first_byte p in
      if c =? SSH_MSG_USERAUTH_SUCCESS then
        pswd_free ;; set_authenticated ;; set_pswd_state libssh2_NB_state_idle ;; ret (Some 0)
      else if c =? SSH_MSG_USERAUTH_FAILURE then
        pswd_free ;; set_pswd_state libssh2_NB_state_idle ;;
        pswd_return LIBSSH2_ERROR_AUTHENTICATION_FAILED "Authentication failed (username/password)"
      else
        xset (fun d => d <| userauth_pswd_newpw := None |> <| userauth_pswd_newpw_len := 0 |>) ;;
        set_pswd_state libssh2_NB_state_sent1 ;; ret None.

(** The new password is asked for and the request is built. The sum of the lengths is
    an [unsigned int] and never exceeds [UINT_MAX]. *)
Definition pswd_ask_new (answer : option (list Z)) : PM (option Z) :=
  xset (fun d => d <| userauth_pswd_newpw := answer |> <| userauth_pswd_newpw_len := lenZ (default [] answer) |>) ;;
  match answer with
  | None => pswd_return LIBSSH2_ERROR_PASSWORD_EXPIRED "Password expired, and callback failed"
  | Some newpw =>
      let size := u32 (lenZ username + lenZ password + 44) in
      xset (fun d => d <| userauth_pswd_data_len := size |>) ;;
      let! p := build_packet size (change_packet (lenZ newpw)) in
      xset (fun d => d <| userauth_pswd_data := p |>) ;;
      match p with
      | None =>
          xset (fun d => d <| userauth_pswd_newpw := None |>) ;;
          pswd_return LIBSSH2_ERROR_ALLOC "Unable to allocate memory for userauth password change request"
      | Some _ => set_pswd_state libssh2_NB_state_sent2 ;; ret None
      end
  end.

Definition pswd_send_new : PM (option Z) :=
  let! p := pswd_sent_packet in
  let! newpw := xget userauth_pswd_newpw in
  let! newpw := access newpw in
  let! rc := xlift (transport_send p newpw) in
  if rc =? LIBSSH2_ERROR_EAGAIN then pswd_return LIBSSH2_ERROR_EAGAIN "Would block waiting"
  else
    pswd_free ;; xset (fun d => d <| userauth_pswd_newpw := None |>) ;;
    if negb (rc =? 0) then pswd_return LIBSSH2_ERROR_SOCKET_SEND "Unable to send userauth password-change request"
    else set_pswd_state libssh2_NB_state_sent ;; ret None.

Definition then_pswd (m k : PM (option Z)) : PM (option Z) :=
  let! r := m in match r with Some rc => ret (Some rc) | None => k end.

Definition pswd_failure : PM Z :=
  pswd_free ;; set_pswd_state libssh2_NB_state_idle ;;
  xerror LIBSSH2_ERROR_AUTHENTICATION_FAILED "Authentication failed".

(** From the label [password_response] on; the [goto] is a round. *)
Fixpoint password_response (rounds : nat) : PM Z :=
  match rounds with
  | O => fun _ => OutOfFuel
  | S rounds =>
      let! st := xget userauth_pswd_state in
      if nb_is st libssh2_NB_state_sent || nb_is st libssh2_NB_state_sent1 || nb_is st libssh2_NB_state_sent2 then
        let! r := (if nb_is st libssh2_NB_state_sent then pswd_reply else ret None) in
        match r with
        | Some rc => ret rc
        | None =>
            let! len := xget userauth_pswd_data_len in
            if len <? 1 then
              set_pswd_state libssh2_NB_state_idle ;; xerror LIBSSH2_ERROR_PROTO "Unexpected packet size"
            else
              let! p := xget userauth_pswd_data in
              let! c := first_byte p in
              let! d0 := xget userauth_pswd_data0 in
              if (c =? SSH_MSG_USERAUTH_PASSWD_CHANGEREQ) || (d0 =? SSH_MSG_USERAUTH_PASSWD_CHANGEREQ) then
                xset (fun d => d <| userauth_pswd_data0 := SSH_MSG_USERAUTH_PASSWD_CHANGEREQ |>) ;;
                let! st := xget userauth_pswd_state in
                if nb_is st libssh2_NB_state_sent1 || nb_is st libssh2_NB_state_sent2 then
                  (if nb_is st libssh2_NB_state_sent1 then pswd_free else ret tt) ;;
                  match passwd_change_cb with
                  | Some answer =>
                      let! r := then_pswd (if nb_is st libssh2_NB_state_sent1 then pswd_ask_new answer else ret None)
                                  pswd_send_new in
                      match r with Some rc => ret rc | None => password_response rounds end
                  | None => pswd_failure
                  end
                else
                  set_pswd_state libssh2_NB_state_idle ;;
                  xerror LIBSSH2_ERROR_PASSWORD_EXPIRED "Password Expired, and no callback specified"
              else pswd_failure
        end
      else pswd_failure
  end.

Definition userauth_password : PM Z :=
  let! st := xget userauth_pswd_state in
  let! r := (if nb_is st libssh2_NB_state_idle then pswd_request else ret None) in
  match r with
  | Some rc => ret rc
  | None =>
      let! st := xget userauth_pswd_state in
      let! r := (if nb_is st libssh2_NB_state_created then pswd_send else ret None) in
      match r with Some rc => ret rc | None => password_response fuel end
  end.

Definition libssh2_userauth_password_ex : PM Z :=
  block_adjust (fun _ => xlift) transport_send userauth_password fuel.
End Password.
