(* ===== verification/UserauthKbd.v ===== *)
(** * Keyboard-interactive authentication (userauth.c, userauth_kbd_packet.c)

    [userauth_keyboard_interactive] and the parser of the server's questions. *)

From stdpp Require Import base numbers list gmap strings.
From S2P Require Import Prelude Codes CString KexMethods Wire Session ChannelWindow Packet Conn Comp PacketSafety PacketSpec PacketWait Ext Blocking Userauth.

Definition SIZE_MAX : Z := 2 ^ 64 - 1.

(** [LIBSSH2_USERAUTH_KBDINT_PROMPT] and [LIBSSH2_USERAUTH_KBDINT_RESPONSE]. *)
Record kbdint_prompt := mk_prompt { prompt_text : cbuf; prompt_echo : Z }.
Record kbdint_response := mk_response { response_text : option (list Z); response_length : Z }.
Definition prompt_0 : kbdint_prompt := mk_prompt None 0.
Definition response_0 : kbdint_response := mk_response None 0.

Record kybd_data := mk_kybd_data {
  userauth_kybd_state : libssh2_nonblocking_states;
  userauth_kybd_data : option (list Z);
  userauth_kybd_data_len : Z;
  userauth_kybd_packet_len : Z;
  userauth_kybd_auth_name : cbuf;
  userauth_kybd_auth_instruction : cbuf;
  userauth_kybd_num_prompts : Z;
  userauth_kybd_auth_failure : bool;
  userauth_kybd_prompts : option (list kbdint_prompt);
  userauth_kybd_responses : option (list kbdint_response);
  userauth_kybd_start : Z
}.
#[global] Instance eta_kybd_data : Eta kybd_data := fun d =>
  mk_kybd_data (userauth_kybd_state d) (userauth_kybd_data d) (userauth_kybd_data_len d) (userauth_kybd_packet_len d)
    (userauth_kybd_auth_name d) (userauth_kybd_auth_instruction d) (userauth_kybd_num_prompts d)
    (userauth_kybd_auth_failure d) (userauth_kybd_prompts d) (userauth_kybd_responses d) (userauth_kybd_start d).
Definition kybd_data_0 : kybd_data :=
  mk_kybd_data libssh2_NB_state_idle None 0 0 None None 0 false None None 0.

Abbreviation KBM := (XM kybd_data).

(** ** The questions (userauth_kbd_packet.c) *)

(** A string that is copied to the heap; [None] when it cannot be. *)
Definition kbd_copy (buf : string_buf) : KBM (option cbuf * string_buf) :=
  let! ok := xlift (fun s => match get_string buf None with
                             | Some (0, Some (_ :: _), _) => alloc_outcome s
                             | _ => Ret true s
                             end) in
  let! r := access (copy_string ok buf None) in
  let '(rc, out, buf) := r in
  ret (if rc =? -1 then None else Some out, buf).

Definition decode_failed (code : Z) (msg : string) : KBM Z := xerror code msg ;; ret (-1).

(** The loop over the prompts, from [i] on. *)
Fixpoint decode_prompts (n : nat) (i : nat) (buf : string_buf) : KBM Z :=
  match n with
  | O => ret 0
  | S n =>
      let! r := kbd_copy buf in
      let '(text, buf) := r in
      match text with
      | None => decode_failed LIBSSH2_ERROR_ALLOC "Unable to decode keyboard-interactive prompt message"
      | Some text =>
          xset (fun d => d <| userauth_kybd_prompts ::= fmap (alter (fun p => mk_prompt text (prompt_echo p)) i) |>) ;;
          let! r := access (get_boolean buf 0) in
          let '(rc, echo, buf) := r in
          if rc =? -1 then decode_failed LIBSSH2_ERROR_BUFFER_TOO_SMALL "Unable to decode user auth keyboard prompt echo"
          else
            xset (fun d => d <| userauth_kybd_prompts ::= fmap (alter (fun p => mk_prompt (prompt_text p) echo) i) |>) ;;
            decode_prompts n (S i) buf
      end
  end.

Definition decode_num_prompts (buf : string_buf) : KBM Z :=
  let! n := xget userauth_kybd_num_prompts in
  let! r := access (get_u32 buf n) in
  let '(rc, n, buf) := r in
  xset (fun d => d <| userauth_kybd_num_prompts := n |>) ;;
  if rc =? -1 then
    decode_failed LIBSSH2_ERROR_BUFFER_TOO_SMALL "Unable to decode keyboard-interactive number of keyboard prompts"
  else if 100 <? n then
    decode_failed LIBSSH2_ERROR_OUT_OF_BOUNDARY "Too many replies for keyboard-interactive prompts"
  else if n =? 0 then ret 0
  else
    let! ok := xlift alloc_outcome in
    if negb ok then
      decode_failed LIBSSH2_ERROR_ALLOC "Unable to allocate memory for keyboard-interactive prompts array"
    else
      xset (fun d => d <| userauth_kybd_prompts := Some (replicate (Z.to_nat n) prompt_0) |>) ;;
      let! ok := xlift alloc_outcome in
      if negb ok then
        decode_failed LIBSSH2_ERROR_ALLOC "Unable to allocate memory for keyboard-interactive responses array"
      else
        xset (fun d => d <| userauth_kybd_responses := Some (replicate (Z.to_nat n) response_0) |>) ;;
        decode_prompts (Z.to_nat n) 0 buf.

Definition decode_info_request : KBM Z :=
  let! data := xget userauth_kybd_data in
  let! len := xget userauth_kybd_data_len in
  if len <? 17 then
    decode_failed LIBSSH2_ERROR_BUFFER_TOO_SMALL "userauth keyboard data buffer too small to get length"
  else
    let! data := access data in
    let! r := access (get_byte (mk_string_buf data 0 len) 0) in
    let! r := kbd_copy r.2 in
    match r.1 with
    | None => decode_failed LIBSSH2_ERROR_ALLOC "Unable to decode keyboard-interactive 'name' request field"
    | Some name =>
        xset (fun d => d <| userauth_kybd_auth_name := name |>) ;;
        let! r := kbd_copy r.2 in
        match r.1 with
        | None => decode_failed LIBSSH2_ERROR_ALLOC "Unable to decode keyboard-interactive 'instruction' request field"
        | Some instruction =>
            xset (fun d => d <| userauth_kybd_auth_instruction := instruction |>) ;;
            let! r := access (get_string r.2 None) in
            if r.1.1 =? -1 then
              decode_failed LIBSSH2_ERROR_ALLOC "Unable to decode keyboard-interactive 'language tag' request field"
            else decode_num_prompts r.2
        end
    end.

(** ** The dialogue *)

Section Kbd.
Context (transport_send : list Z -> list Z -> CM Z) (transport_read : CM Z) (fuel : nat).
(** The application's answers, from the name, the instruction and the prompts. *)
Context (response_callback : cbuf -> cbuf -> list kbdint_prompt -> list kbdint_response).
Context (username : list Z).

Definition set_kybd_state (st : libssh2_nonblocking_states) : KBM unit := xset (fun d => d <| userauth_kybd_state := st |>).
Definition kybd_free : KBM unit := xset (fun d => d <| userauth_kybd_data := None |>).
Definition kybd_return (code : Z) (msg : string) : KBM (option Z) := let! rc := xerror code msg in ret (Some rc).

(** The language tag and the submethods are empty. *)
Definition kybd_packet : list Z :=
  store_u32 (store_u32 (request_head username (str "keyboard-interactive")) 0) 0.

Definition kybd_request : KBM (option Z) :=
  let size := u32 (lenZ username + 55) in
  xset (fun d => d <| userauth_kybd_auth_name := None |> <| userauth_kybd_auth_instruction := None |>
                   <| userauth_kybd_num_prompts := 0 |> <| userauth_kybd_auth_failure := true |>
                   <| userauth_kybd_prompts := None |> <| userauth_kybd_responses := None |>
                   <| userauth_kybd_start := 0 |> <| userauth_kybd_packet_len := size |>) ;;
  let! p := build_packet size kybd_packet in
  xset (fun d => d <| userauth_kybd_data := p |>) ;;
  match p with
  | None => kybd_return LIBSSH2_ERROR_ALLOC "Unable to allocate memory for keyboard-interactive authentication"
  | Some _ => set_kybd_state libssh2_NB_state_created ;; ret None
  end.

Definition kybd_sent_packet : KBM (list Z) :=
  let! p := xget userauth_kybd_data in
  let! p := access p in
  let! len := xget userauth_kybd_packet_len in access (bytes_at p 0 len).

Definition kybd_send : KBM (option Z) :=
  let! p := kybd_sent_packet in
  let! rc := xlift (transport_send p []) in
  if rc =? LIBSSH2_ERROR_EAGAIN then kybd_return LIBSSH2_ERROR_EAGAIN "Would block"
  else if negb (rc =? 0) then
    kybd_free ;; set_kybd_state libssh2_NB_state_idle ;;
    kybd_return LIBSSH2_ERROR_SOCKET_SEND "Unable to send keyboard-interactive request"
  else kybd_free ;; set_kybd_state libssh2_NB_state_sent ;; ret None.

(** How a part of the loop ends: the next part, the label [cleanup], or a return. *)
Inductive kybd_next := KGo | KCleanup | KReturn (rc : Z).

Definition kybd_cleanup (code : Z) (msg : string) : KBM kybd_next := xerror code msg ;; ret KCleanup.
Definition kybd_out (code : Z) (msg : string) : KBM kybd_next := let! rc := xerror code msg in ret (KReturn rc).

(** The length of the answer, with the check against overflow. *)
Fixpoint response_size (len : Z) (rs : list kbdint_response) : option Z :=
  match rs with
  | [] => Some len
  | r :: rs => if response_length r <=? SIZE_MAX - 4 - len then response_size (len + 4 + response_length r) rs else None
  end.

Fixpoint store_responses (out : list Z) (rs : list kbdint_response) : option (list Z) :=
  match rs with
  | [] => Some out
  | r :: rs =>
      t ← (if response_length r =? 0 then Some [] else t ← response_text r; bytes_at t 0 (response_length r));
      store_responses (store_str out t) rs
  end.

(** The array has room for one response per prompt; what the callback leaves is null. *)
Definition fill_responses (n : nat) (rs : list kbdint_response) : list kbdint_response :=
  take n (rs ++ replicate n response_0).

Definition kybd_answer : KBM kybd_next :=
  let! name := xget userauth_kybd_auth_name in
  let! instruction := xget userauth_kybd_auth_instruction in
  let! n := xget userauth_kybd_num_prompts in
  let! prompts := xget userauth_kybd_prompts in
  let rs := fill_responses (Z.to_nat n) (response_callback name instruction (default [] prompts)) in
  xset (fun d => d <| userauth_kybd_responses ::= fmap (fun _ => rs) |> <| userauth_kybd_packet_len := 5 |>) ;;
  match response_size 5 rs with
  | None =>
      kybd_cleanup LIBSSH2_ERROR_ALLOC "Unable to allocate memory for keyboard-interactive response packet"
  | Some size =>
      xset (fun d => d <| userauth_kybd_packet_len := size |>) ;;
      let! bytes := access (store_responses (store_u32 [SSH_MSG_USERAUTH_INFO_RESPONSE] n) rs) in
      let! p := build_packet size bytes in
      xset (fun d => d <| userauth_kybd_data := p |>) ;;
      match p with
      | None =>
          kybd_cleanup LIBSSH2_ERROR_ALLOC "Unable to allocate memory for keyboard-interactive response packet"
      | Some _ => set_kybd_state libssh2_NB_state_sent1 ;; ret KGo
      end
  end.

Definition kybd_codes : list Z :=
  [SSH_MSG_USERAUTH_SUCCESS; SSH_MSG_USERAUTH_FAILURE; SSH_MSG_USERAUTH_INFO_REQUEST].

Definition kybd_reply : KBM kybd_next :=
  let! start := xget userauth_kybd_start in
  let! r := require_reply transport_read fuel kybd_codes start in
  let '(rc, data, start) := r in
  xset (fun d => d <| userauth_kybd_start := start |>) ;;
  (match data with
   | Some p => xset (fun d => d <| userauth_kybd_data := Some p |> <| userauth_kybd_data_len := lenZ p |>)
   | None => ret tt
   end) ;;
  if rc =? LIBSSH2_ERROR_EAGAIN then kybd_out LIBSSH2_ERROR_EAGAIN "Would block"
  else
    let! len := xget userauth_kybd_data_len in
    if negb (rc =? 0) || (len <? 1) then
      set_kybd_state libssh2_NB_state_idle ;;
      kybd_out LIBSSH2_ERROR_AUTHENTICATION_FAILED "Waiting for keyboard USERAUTH response"
    else
      let! p := xget userauth_kybd_data in
      let! c := first_byte p in
      if c =? SSH_MSG_USERAUTH_SUCCESS then
        kybd_free ;; set_authenticated ;; set_kybd_state libssh2_NB_state_idle ;; ret (KReturn 0)
      else if c =? SSH_MSG_USERAUTH_FAILURE then
        kybd_free ;; set_kybd_state libssh2_NB_state_idle ;;
        kybd_out LIBSSH2_ERROR_AUTHENTICATION_FAILED "Authentication failed (keyboard-interactive)"
      else
        let! rc := decode_info_request in
        if rc <? 0 then ret KCleanup else kybd_answer.

Definition kybd_send_answer : KBM kybd_next :=
  let! p := kybd_sent_packet in
  let! rc := xlift (transport_send p []) in
  if rc =? LIBSSH2_ERROR_EAGAIN then kybd_out LIBSSH2_ERROR_EAGAIN "Would block"
  else if negb (rc =? 0) then
    kybd_cleanup LIBSSH2_ERROR_SOCKET_SEND "Unable to send userauth-keyboard-interactive request"
  else xset (fun d => d <| userauth_kybd_auth_failure := false |>) ;; ret KGo.

(** The code at [cleanup]: the blocks of the dialogue are released. *)
Definition kybd_release : KBM unit :=
  xset (fun d => d <| userauth_kybd_data := None |> <| userauth_kybd_prompts := None |>
                   <| userauth_kybd_responses := None |> <| userauth_kybd_auth_name := None |>
                   <| userauth_kybd_auth_instruction := None |>).

(** [for(;;)]. *)
Fixpoint kybd_loop (rounds : nat) : KBM Z :=
  match rounds with
  | O => fun _ => OutOfFuel
  | S rounds =>
      let! st := xget userauth_kybd_state in
      let! r := (if nb_is st libssh2_NB_state_sent then kybd_reply else ret KGo) in
      let! r := (match r with
                 | KGo =>
                     let! st := xget userauth_kybd_state in
                     if nb_is st libssh2_NB_state_sent1 then kybd_send_answer else ret KGo
                 | _ => ret r
                 end) in
      match r with
      | KReturn rc => ret rc
      | _ =>
          kybd_release ;;
          let! failure := xget userauth_kybd_auth_failure in
          if failure then set_kybd_state libssh2_NB_state_idle ;; ret (-1)
          else set_kybd_state libssh2_NB_state_sent ;; kybd_loop rounds
      end
  end.

Definition userauth_keyboard_interactive : KBM Z :=
  let! st := xget userauth_kybd_state in
  let! r := (if nb_is st libssh2_NB_state_idle then kybd_request else ret None) in
  match r with
  | Some rc => ret rc
  | None =>
      let! st := xget userauth_kybd_state in
      let! r := (if nb_is st libssh2_NB_state_created then kybd_send else ret None) in
      match r with Some rc => ret rc | None => kybd_loop fuel end
  end.

Definition libssh2_userauth_keyboard_interactive_ex : KBM Z :=
  block_adjust (fun _ => xlift) transport_send userauth_keyboard_interactive fuel.
End Kbd.
