(* ===== verification/UserauthPk.v ===== *)
(** * Public key authentication (userauth.c)

    Reading public keys, choosing the signature algorithm (RFC 8332),
    [_libssh2_userauth_publickey] and host based authentication. Private keys and
    signatures are the crypto backend's: the functions that read a key and sign with it
    are parameters. *)

From stdpp Require Import base numbers list gmap strings.
From S2P Require Import Prelude Codes CString KexMethods Wire Base64 Session ChannelWindow Packet Conn Comp PacketSafety PacketSpec PacketWait Numerals Ext Blocking KexDh Userauth.

(** ** Public keys in files *)

(** [while(n && isspace(pubkey\[n - 1\])) n--;] *)
Fixpoint trim_space (l : list Z) (n : nat) : option nat :=
  match n with
  | O => Some O
  | S m => c ← l !! m; if is_space c then trim_space l m else Some (S m)
  end.

Section ReadKey.
Context {X : Type}.

(** The return value, or the block of the method with its length, and the key. *)
Definition key_result : Type := Z + (list Z * Z * list Z).

Definition key_failed (code : Z) (msg : string) : XM X key_result := let! rc := xerror code msg in ret (inl rc).

(** The parts of a line [method base64 comment]; [pubkey] is the copy of it. *)
Definition parse_publickey (pubkey : list Z) : XM X key_result :=
  let! n := access (trim_space pubkey (length pubkey)) in
  if (n =? 0)%nat then key_failed LIBSSH2_ERROR_FILE "Missing public key data"
  else
    let! sp := access (memchr n pubkey 0 32) in
    match sp with
    | None => key_failed LIBSSH2_ERROR_FILE "Invalid public key data"
    | Some sp =>
        let sp1 := sp + 1 in
        let! sp := access (memchr (n - Z.to_nat sp1) pubkey sp1 32) in
        let sp2 := default (Z.of_nat n) sp in
        let! src := access (bytes_at pubkey sp1 (sp2 - sp1)) in
        let! ok := xlift alloc_outcome in
        let! r := access (base64_decode (fun size => if (ok : bool) then Some (replicate (Z.to_nat size) 0) else None) src) in
        match r.2 with
        | None =>
            xerror r.1 (if r.1 =? LIBSSH2_ERROR_ALLOC then "Unable to allocate memory for base64 decoding" else "Invalid base64") ;;
            key_failed LIBSSH2_ERROR_FILE "Invalid key data, not base64 encoded"
        | Some tmp => ret (inr (pubkey, sp1 - 1, tmp))
        end
    end.

Definition memory_read_publickey (pubkeyfiledata : list Z) : XM X key_result :=
  if lenZ pubkeyfiledata <=? 1 then key_failed LIBSSH2_ERROR_FILE "Invalid data in public key file"
  else
    let! ok := xlift alloc_outcome in
    if negb ok then key_failed LIBSSH2_ERROR_ALLOC "Unable to allocate memory for public key data"
    else parse_publickey pubkeyfiledata.

(** The first line of the file, which is read a second time after it was measured. *)
Fixpoint first_line (file : list Z) : list Z :=
  match file with
  | [] => []
  | c :: file => if (c =? 13) || (c =? 10) then [] else c :: first_line file
  end.

Definition file_read_publickey (file : option (list Z)) : XM X key_result :=
  match file with
  | None => key_failed LIBSSH2_ERROR_FILE "Unable to open public key file"
  | Some file =>
      let pubkey := first_line file in
      if lenZ pubkey <=? 1 then key_failed LIBSSH2_ERROR_FILE "Invalid data in public key file"
      else
        let! ok := xlift alloc_outcome in
        if negb ok then key_failed LIBSSH2_ERROR_ALLOC "Unable to allocate memory for public key data"
        else parse_publickey pubkey
  end.
End ReadKey.

(** ** The signature algorithm *)

(** The names that a loop [while(s && *s)] over a comma-separated list visits: it ends
    at an empty name at the end. *)
Definition alg_names (s : list Z) : list (list Z) :=
  let ts := split_comma s in
  match last ts with Some [] => removelast ts | _ => ts end.

(** A name is appended to the filtered list, in a block of [size] bytes. *)
Definition append_alg (size : Z) (filtered name : list Z) : option (list Z) :=
  let out := (if lenZ filtered =? 0 then [] else filtered ++ [comma]) ++ name in
  if lenZ out <=? size then Some out else None.

(** The inner loop: one append per supported name that is the server's. *)
Fixpoint filter_alg (size : Z) (filtered name : list Z) (supported : list (list Z)) : option (list Z) :=
  match supported with
  | [] => Some filtered
  | a :: supported =>
      if bool_decide (a = name)
      then f ← append_alg size filtered name; filter_alg size f name supported
      else filter_alg size filtered name supported
  end.

Fixpoint filter_algs (size : Z) (filtered : list Z) (server supported : list (list Z)) : option (list Z) :=
  match server with
  | [] => Some filtered
  | s :: server => f ← filter_alg size filtered s supported; filter_algs size f server supported
  end.

(** [filtered_algs], which is terminated at the end. *)
Definition filtered_algs (server supported : list Z) : option (list Z) :=
  let size := lenZ supported + 1 in
  f ← filter_algs size [] (alg_names server) (alg_names supported);
  if lenZ f <? size then Some f else None.

(** The first preference that is in the list. *)
Definition match_alg (prefs filtered : list (list Z)) : option (list Z) :=
  List.find (fun s => existsb (fun a => bool_decide (a = s)) filtered) prefs.

Section Algorithm.
(** [_libssh2_supported_key_sign_algorithms]. *)
Context (supported_key_sign_algorithms : list Z -> option (list Z)).
Context {X : Type}.

(** The return value, and [*key_method] with its length. *)
Definition key_sign_algorithm (method : list Z) (method_len : Z) : XM X (Z * list Z * Z) :=
  let! name := access (bytes_at method 0 method_len) in
  let! server := xlift (gets server_sign_algorithms) in
  match supported_key_sign_algorithms name, server with
  | Some supported, Some server =>
      let! ok := xlift alloc_outcome in
      if negb ok then
        let! rc := xerror LIBSSH2_ERROR_ALLOC "Unable to allocate filtered algs" in ret (rc, method, method_len)
      else
        let! server := access (c_string (server ++ [0])) in
        let! filtered := access (filtered_algs server supported) in
        let! k := xlift (gets s_kex) in
        let! prefs := (match sign_algo_prefs k with
                       | Some p => let! d := xlift (block p) in access (c_string d)
                       | None => ret supported
                       end) in
        match match_alg (alg_names prefs) (alg_names filtered) with
        | Some m =>
            let! ok := xlift alloc_outcome in
            if negb ok then fault else ret (0, m, lenZ m)
        | None =>
            let! rc := xerror LIBSSH2_ERROR_METHOD_NONE "No signing signature matched" in ret (rc, method, method_len)
        end
  | _, _ => ret (0, method, method_len)
  end.
End Algorithm.

(** [!strncmp(keyword, method, method_len)]. *)
Definition starts (keyword : string) (method : list Z) (method_len : Z) : option bool :=
  strncmp_eq (Z.to_nat method_len) (str keyword ++ [0]) 0 method 0.

Definition plain_method_len (method : list Z) (method_len : Z) : option Z :=
  rsa ← starts "ssh-rsa-cert-v01@openssh.com" method method_len;
  if (rsa : bool) then Some 7
  else
    p256 ← starts "ecdsa-sha2-nistp256-cert-v01@openssh.com" method method_len;
    p384 ← starts "ecdsa-sha2-nistp384-cert-v01@openssh.com" method method_len;
    p521 ← starts "ecdsa-sha2-nistp521-cert-v01@openssh.com" method method_len;
    Some (if (p256 : bool) || (p384 : bool) || (p521 : bool) then 19 else method_len).

(** The signature of a security key has no length of its own. *)
Definition is_sk_method (method : list Z) (method_len : Z) : option bool :=
  a ← starts "sk-ecdsa-sha2-nistp256@openssh.com" method method_len;
  b ← starts "sk-ssh-ed25519@openssh.com" method method_len;
  Some ((a : bool) || (b : bool)).

(** ** Signing with a private key *)

Section PrivateKey.
Context (methods : list LIBSSH2_HOSTKEY_METHOD).
(** [initPEM] or [initPEMFromMemory] of the methods that have it, and [signv]. *)
Context (init_pem : LIBSSH2_HOSTKEY_METHOD -> option (option (list Z))).
Context (signv : LIBSSH2_HOSTKEY_METHOD -> list Z -> list Z -> option (list Z)).
Context {X : Type}.

(** The first method that can read keys and whose name starts with [method]. *)
Fixpoint find_key_method (ms : list LIBSSH2_HOSTKEY_METHOD) (method : list Z) (method_len : Z) :
    option (option (LIBSSH2_HOSTKEY_METHOD * option (list Z))) :=
  match ms with
  | [] => Some None
  | m :: ms =>
      match init_pem m with
      | Some key =>
          b ← strncmp_eq (Z.to_nat method_len) (hkm_name m ++ [0]) 0 method 0;
          if (b : bool) then Some (Some (m, key)) else find_key_method ms method method_len
      | None => find_key_method ms method method_len
      end
  end.

(** [memory_read_privatekey] and [file_read_privatekey], which differ in the last
    message. *)
Definition read_privatekey (unable : string) (method : list Z) (method_len : Z) :
    XM X (Z + LIBSSH2_HOSTKEY_METHOD * list Z) :=
  let! m := access (find_key_method methods method method_len) in
  match m with
  | None => let! rc := xerror LIBSSH2_ERROR_METHOD_NONE "No handler for specified private key" in ret (inl rc)
  | Some (m, None) => let! rc := xerror LIBSSH2_ERROR_FILE unable in ret (inl rc)
  | Some (m, Some key) => ret (inr (m, key))
  end.

(** [sign_frommemory] and [sign_fromfile]. *)
Definition sign_privatekey (unable : string) (method : list Z) (method_len : Z) (data : list Z) : XM X (Z * list Z) :=
  let! k := read_privatekey unable method method_len in
  match k with
  | inl rc => ret (rc, [])
  | inr (m, key) => match signv m key data with None => ret (-1, []) | Some sig => ret (0, sig) end
  end.
End PrivateKey.

(** *** Security keys *)

(** [LIBSSH2_SK_SIG_INFO]. *)
Record sk_sig_info := mk_sk_sig_info {
  sk_flags : Z;
  sk_counter : Z;
  sig_r : option (list Z);
  sig_s : option (list Z)
}.

Section SignSk.
(** The application's callback, with the data: its return value and the signature. *)
Context (handle_len : Z) (sign_callback : list Z -> Z * sk_sig_info).
Context {X : Type}.

Definition some_bytes (o : option (list Z)) : bool := match o with Some (_ :: _) => true | _ => false end.

(** The text before the flags and the counter, and the size of its block. *)
Definition sk_signature (r : list Z) (s : option (list Z)) : list Z * Z :=
  if some_bytes s then
    let s := default [] s in
    let body := store_bignum2_bytes (store_bignum2_bytes [] r) s in
    (store_u32 [] (lenZ body) ++ body, 4 + 5 + lenZ r + 5 + lenZ s + 5)
  else (store_str [] r, 4 + lenZ r + 1 + 4).

Definition libssh2_sign_sk (data : list Z) : XM X (Z * list Z) :=
  if handle_len <=? 0 then ret (LIBSSH2_ERROR_DECRYPT, [])
  else
    let '(rc, info) := sign_callback data in
    if (rc =? 0) && some_bytes (sig_r info) then
      let '(text, size) := sk_signature (default [] (sig_r info)) (sig_s info) in
      let! ok := xlift alloc_outcome in
      if negb ok then ret (LIBSSH2_ERROR_ALLOC, [])
      else
        let sig := store_u32 (text ++ [u8 (sk_flags info)]) (sk_counter info) in
        if lenZ sig <=? size then ret (rc, sig) else fault
    else ret (rc, []).
End SignSk.

(** ** Host based authentication *)

(** A request that is filled in pieces: its bytes, and the size of its block. *)
Definition packet_block : Type := list Z * Z.

(** [s = packet + at], and the text stored from there on. *)
Definition store_at (b : packet_block) (at_ : Z) (text : list Z) : option packet_block :=
  d ← bytes_at b.1 0 at_;
  let d := d ++ text in
  if lenZ d <=? b.2 then Some (d, b.2) else None.

Section Request.
Context {X : Type}.

Definition session_id_bytes : XM X (list Z) :=
  let! i := xlift (gets (fun s => kx_server (s_kex s))) in
  xlift (opt_bytes (session_id i) (session_id_len i)).

(** The allocation of a request, and the text that starts it. *)
Definition alloc_packet (size : Z) (text : list Z) : XM X (option packet_block) :=
  let! p := build_packet size text in ret (match p with Some d => Some (d, size) | None => None end).

(** The reallocation, when the signature is longer than the key. *)
Definition grow_packet (b : packet_block) (size sig_len pubkeydata_len : Z) : XM X (option packet_block) :=
  if pubkeydata_len <? sig_len then
    let! ok := xlift alloc_outcome in
    ret (if (ok : bool) then Some (take (Z.to_nat size) b.1, size) else None)
  else ret (Some b).
End Request.

Record host_data := mk_host_data {
  userauth_host_state : libssh2_nonblocking_states;
  userauth_host_data : option (list Z);
  userauth_host_packet : option packet_block;
  userauth_host_packet_len : Z;
  userauth_host_method : option (list Z);
  userauth_host_method_len : Z;
  (** [userauth_host_s - userauth_host_packet]. *)
  userauth_host_s : Z;
  userauth_host_start : Z
}.
#[global] Instance eta_host_data : Eta host_data := fun d =>
  mk_host_data (userauth_host_state d) (userauth_host_data d) (userauth_host_packet d) (userauth_host_packet_len d)
    (userauth_host_method d) (userauth_host_method_len d) (userauth_host_s d) (userauth_host_start d).
Definition host_data_0 : host_data := mk_host_data libssh2_NB_state_idle None None 0 None 0 0 0.

Section Hostbased.
Context (transport_send : list Z -> list Z -> CM Z) (transport_read : CM Z) (fuel : nat).
Context (methods : list LIBSSH2_HOSTKEY_METHOD).
Context (init_pem : LIBSSH2_HOSTKEY_METHOD -> option (option (list Z))).
Context (signv : LIBSSH2_HOSTKEY_METHOD -> list Z -> list Z -> option (list Z)).

Abbreviation HM := (XM host_data).

(** [_libssh2_pub_priv_keyfile]. *)
Context (pub_priv_keyfile : HM key_result).
(** The file of the public key: a null name, or what it holds if it can be opened. *)
Context (publickey : option (option (list Z))).
Context (username hostname local_username : list Z).

Definition host_return (code : Z) (msg : string) : HM (option Z) := let! rc := xerror code msg in ret (Some rc).
Definition set_host_state (st : libssh2_nonblocking_states) : HM unit :=
  xset (fun d => d <| userauth_host_state := st |>).
Definition host_free_method : HM unit := xset (fun d => d <| userauth_host_method := None |>).
Definition host_free_packet : HM unit := xset (fun d => d <| userauth_host_packet := None |>).
Definition host_free_data : HM unit := xset (fun d => d <| userauth_host_data := None |>).

Definition host_read_key : HM key_result :=
  match publickey with Some file => file_read_publickey file | None => pub_priv_keyfile end.

Definition host_text (method pubkeydata : list Z) : list Z :=
  store_str (store_str (store_str (store_str (request_head username (str "hostbased")) method) pubkeydata)
    hostname) local_username.

Definition host_request_len (method_len : Z) (pubkeydata : list Z) : Z :=
  u64 (lenZ username + method_len + lenZ hostname + lenZ local_username + lenZ pubkeydata + 52).

(** The request without the signature. *)
Definition host_request (method : list Z) (method_len : Z) (pubkeydata : list Z) : HM (option Z) :=
  let len := host_request_len method_len pubkeydata in
  xset (fun d => d <| userauth_host_method := Some method |> <| userauth_host_method_len := method_len |>
                   <| userauth_host_packet_len := len |>) ;;
  let! name := access (bytes_at method 0 method_len) in
  let! p := alloc_packet (u64 (len + 4 + (4 + method_len) + (4 + lenZ pubkeydata))) (host_text name pubkeydata) in
  xset (fun d => d <| userauth_host_packet := p |>) ;;
  match p with
  | None => host_free_method ;; host_return LIBSSH2_ERROR_ALLOC "Out of memory"
  | Some _ => ret None
  end.

(** The signature over the session identifier and the request. *)
Definition host_sign : HM (Z + list Z) :=
  let! x := xget id in
  let! name := access (userauth_host_method x) in
  let! k := read_privatekey methods init_pem "Unable to initialize private key from file" name (userauth_host_method_len x) in
  match k with
  | inl rc => host_free_method ;; host_free_packet ;; ret (inl rc)
  | inr (m, key) =>
      let! id := session_id_bytes in
      let! p := access (userauth_host_packet x) in
      let! p := access (bytes_at p.1 0 (userauth_host_packet_len x)) in
      match signv m key (store_str [] id ++ p) with
      | None => host_free_method ;; host_free_packet ;; ret (inl (-1))
      | Some sig => ret (inr sig)
      end
  end.

Definition host_append (pubkeydata_len : Z) (sig : list Z) : HM (option Z) :=
  let! x := xget id in
  let! b := access (userauth_host_packet x) in
  let len := userauth_host_packet_len x in
  let method_len := userauth_host_method_len x in
  let! b := grow_packet b (u64 (len + 4 + (4 + method_len) + (4 + lenZ sig))) (lenZ sig) pubkeydata_len in
  match b with
  | None =>
      host_free_packet ;; host_free_method ;;
      host_return LIBSSH2_ERROR_ALLOC "Failed allocating additional space for userauth-hostbased packet"
  | Some b =>
      let! name := access (userauth_host_method x) in
      let! name := access (bytes_at name 0 method_len) in
      let! b := access (store_at b len (store_str (store_str (store_u32 [] (4 + method_len + 4 + lenZ sig)) name) sig)) in
      host_free_method ;;
      xset (fun d => d <| userauth_host_packet := Some b |> <| userauth_host_s := lenZ b.1 |>) ;;
      set_host_state libssh2_NB_state_created ;; ret None
  end.

Definition then_host (m k : HM (option Z)) : HM (option Z) :=
  let! r := m in match r with Some rc => ret (Some rc) | None => k end.

Definition host_start : HM (option Z) :=
  xset (fun d => d <| userauth_host_start := 0 |>) ;;
  let! k := host_read_key in
  match k with
  | inl rc => ret (Some rc)
  | inr (method, method_len, pubkeydata) =>
      then_host (host_request method method_len pubkeydata) (
      let! r := host_sign in
      match r with
      | inl rc => ret (Some rc)
      | inr sig => host_append (lenZ pubkeydata) sig
      end)
  end.

Definition host_send : HM (option Z) :=
  let! x := xget id in
  let! b := access (userauth_host_packet x) in
  let! p := access (bytes_at b.1 0 (userauth_host_s x)) in
  let! rc := xlift (transport_send p []) in
  if rc =? LIBSSH2_ERROR_EAGAIN then host_return LIBSSH2_ERROR_EAGAIN "Would block"
  else if negb (rc =? 0) then
    host_free_packet ;; set_host_state libssh2_NB_state_idle ;;
    host_return LIBSSH2_ERROR_SOCKET_SEND "Unable to send userauth-hostbased request"
  else host_free_packet ;; set_host_state libssh2_NB_state_sent ;; ret None.

Definition host_reply : HM (option Z) :=
  let! start := xget userauth_host_start in
  let! r := require_reply transport_read fuel [SSH_MSG_USERAUTH_SUCCESS; SSH_MSG_USERAUTH_FAILURE] start in
  let '(rc, data, start) := r in
  xset (fun d => d <| userauth_host_start := start |>) ;;
  (match data with Some p => xset (fun d => d <| userauth_host_data := Some p |>) | None => ret tt end) ;;
  if rc =? LIBSSH2_ERROR_EAGAIN then host_return LIBSSH2_ERROR_EAGAIN "Would block"
  else
    set_host_state libssh2_NB_state_idle ;;
    if negb (rc =? 0) then host_return LIBSSH2_ERROR_PUBLICKEY_UNVERIFIED "Auth failed"
    else
      let! d := access data in
      if lenZ d <? 1 then host_return LIBSSH2_ERROR_PUBLICKEY_UNVERIFIED "Auth failed"
      else
        let! d := xget userauth_host_data in
        let! c := first_byte d in
        if c =? SSH_MSG_USERAUTH_SUCCESS then host_free_data ;; set_authenticated ;; ret (Some 0) else ret None.

Definition userauth_hostbased_fromfile : HM Z :=
  let! st := xget userauth_host_state in
  let! r := then_host (if nb_is st libssh2_NB_state_idle then host_start else ret None) (
    let! st := xget userauth_host_state in
    then_host (if nb_is st libssh2_NB_state_created then host_send else ret None) (
    let! st := xget userauth_host_state in
    if nb_is st libssh2_NB_state_sent then host_reply else ret None)) in
  match r with
  | Some rc => ret rc
  | None =>
      host_free_data ;;
      xerror LIBSSH2_ERROR_PUBLICKEY_UNVERIFIED
        "Invalid signature for supplied public key, or bad username/public key combination"
  end.

Definition libssh2_userauth_hostbased_fromfile_ex : HM Z :=
  block_adjust (fun _ => xlift) transport_send userauth_hostbased_fromfile fuel.
End Hostbased.

(** ** Authentication with a public key *)

Record pblc_data := mk_pblc_data {
  userauth_pblc_state : libssh2_nonblocking_states;
  userauth_pblc_data : option (list Z);
  userauth_pblc_data_len : Z;
  userauth_pblc_packet : option packet_block;
  userauth_pblc_packet_len : Z;
  userauth_pblc_method : option (list Z);
  userauth_pblc_method_len : Z;
  (** [userauth_pblc_s - userauth_pblc_packet], and [userauth_pblc_b] likewise. *)
  userauth_pblc_s : Z;
  userauth_pblc_b : option Z;
  userauth_pblc_start : Z
}.
#[global] Instance eta_pblc_data : Eta pblc_data := fun d =>
  mk_pblc_data (userauth_pblc_state d) (userauth_pblc_data d) (userauth_pblc_data_len d) (userauth_pblc_packet d)
    (userauth_pblc_packet_len d) (userauth_pblc_method d) (userauth_pblc_method_len d) (userauth_pblc_s d)
    (userauth_pblc_b d) (userauth_pblc_start d).
Definition pblc_data_0 : pblc_data := mk_pblc_data libssh2_NB_state_idle None 0 None 0 None 0 0 None 0.

Section Publickey.
Context (transport_send : list Z -> list Z -> CM Z) (transport_read : CM Z) (fuel : nat).
Context (supported_key_sign_algorithms : list Z -> option (list Z)).

Abbreviation PKM := (XM pblc_data).

Definition pblc_return (code : Z) (msg : string) : PKM (option Z) := let! rc := xerror code msg in ret (Some rc).
Definition set_pblc_state (st : libssh2_nonblocking_states) : PKM unit :=
  xset (fun d => d <| userauth_pblc_state := st |>).
Definition pblc_free_method : PKM unit := xset (fun d => d <| userauth_pblc_method := None |>).
Definition pblc_free_packet : PKM unit := xset (fun d => d <| userauth_pblc_packet := None |>).
Definition pblc_free_data : PKM unit := xset (fun d => d <| userauth_pblc_data := None |>).
(** The attempt ends. *)
Definition pblc_reset : PKM unit :=
  pblc_free_packet ;; pblc_free_method ;; set_pblc_state libssh2_NB_state_idle.
Definition set_pblc_method (method : option (list Z)) (len : Z) : PKM unit :=
  xset (fun d => d <| userauth_pblc_method := method |> <| userauth_pblc_method_len := len |>).

Definition then_pblc (m k : PKM (option Z)) : PKM (option Z) :=
  let! r := m in match r with Some rc => ret (Some rc) | None => k end.

Section Attempt.
Context (username pubkeydata : list Z).
Context (sign_callback : list Z -> PKM (Z * list Z)).

(** The name of the method is the first string of the key, if no caller has set it. *)
Definition pblc_method_name : PKM (option Z) :=
  let! m := xget userauth_pblc_method in
  match m with
  | Some _ => ret None
  | None =>
      let! len := access (ntohu32 pubkeydata 0) in
      xset (fun d => d <| userauth_pblc_method_len := len |>) ;;
      if lenZ pubkeydata - 4 <? len then pblc_return LIBSSH2_ERROR_PUBLICKEY_UNVERIFIED "Invalid public key"
      else
        let! name := access (bytes_at pubkeydata 4 len) in
        let! m := build_packet len name in
        xset (fun d => d <| userauth_pblc_method := m |>) ;;
        match m with
        | None => pblc_return LIBSSH2_ERROR_ALLOC "Unable to allocate memory for public key data"
        | Some _ => ret None
        end
  end.

(** The first attempt signs with the algorithm the server prefers. *)
Definition pblc_algorithm : PKM (option Z) :=
  let! x := xget id in
  let! m := access (userauth_pblc_method x) in
  let! r := key_sign_algorithm supported_key_sign_algorithms m (userauth_pblc_method_len x) in
  let '(rc, m, len) := r in
  set_pblc_method (Some m) len ;; ret (if rc =? 0 then None else Some rc).

Definition pblc_head : list Z := request_head username (str "publickey").
Definition pblc_text (method : list Z) : list Z := store_str (store_str (pblc_head ++ [0]) method) pubkeydata.
Definition pblc_request_len (method_len : Z) : Z := u64 (lenZ username + method_len + lenZ pubkeydata + 45).

Definition pblc_request : PKM (option Z) :=
  let! x := xget id in
  let method_len := userauth_pblc_method_len x in
  let len := pblc_request_len method_len in
  xset (fun d => d <| userauth_pblc_packet_len := len |>) ;;
  let! m := access (userauth_pblc_method x) in
  let! m := access (bytes_at m 0 method_len) in
  let! p := alloc_packet (u64 (len + 4 + (4 + method_len) + (4 + lenZ pubkeydata))) (pblc_text m) in
  xset (fun d => d <| userauth_pblc_packet := p |>) ;;
  match p with
  | None => pblc_free_method ;; pblc_return LIBSSH2_ERROR_ALLOC "Out of memory"
  | Some _ =>
      xset (fun d => d <| userauth_pblc_b := Some (lenZ pblc_head) |>) ;;
      set_pblc_state libssh2_NB_state_created ;; ret None
  end.

Definition pblc_start (first : bool) : PKM (option Z) :=
  if lenZ pubkeydata <? 4 then pblc_return LIBSSH2_ERROR_PUBLICKEY_UNVERIFIED "Invalid public key, too short"
  else
    xset (fun d => d <| userauth_pblc_start := 0 |>) ;;
    then_pblc pblc_method_name (then_pblc (if first then pblc_algorithm else ret None) pblc_request).

Definition pblc_send : PKM (option Z) :=
  let! x := xget id in
  let! b := access (userauth_pblc_packet x) in
  let! p := access (bytes_at b.1 0 (userauth_pblc_packet_len x)) in
  let! rc := xlift (transport_send p []) in
  if rc =? LIBSSH2_ERROR_EAGAIN then pblc_return LIBSSH2_ERROR_EAGAIN "Would block"
  else if negb (rc =? 0) then
    pblc_reset ;; pblc_return LIBSSH2_ERROR_SOCKET_SEND "Unable to send userauth-publickey request"
  else set_pblc_state libssh2_NB_state_sent ;; ret None.

(** The packet that was waited for is stored; the return value of the wait. *)
Definition pblc_wait (codes : list Z) : PKM Z :=
  let! start := xget userauth_pblc_start in
  let! r := require_reply transport_read fuel codes start in
  let '(rc, data, start) := r in
  xset (fun d => d <| userauth_pblc_start := start |>) ;;
  (match data with
   | Some p => xset (fun d => d <| userauth_pblc_data := Some p |> <| userauth_pblc_data_len := lenZ p |>)
   | None => ret tt
   end) ;;
  ret rc.

(** The server's answer to the key. *)
Definition pblc_reply : PKM (option Z) :=
  let! rc := pblc_wait [SSH_MSG_USERAUTH_SUCCESS; SSH_MSG_USERAUTH_FAILURE; SSH_MSG_USERAUTH_PK_OK] in
  if rc =? LIBSSH2_ERROR_EAGAIN then pblc_return LIBSSH2_ERROR_EAGAIN "Would block"
  else
    let! len := xget userauth_pblc_data_len in
    if negb (rc =? 0) || (len <? 1) then
      pblc_reset ;; pblc_return LIBSSH2_ERROR_PUBLICKEY_UNVERIFIED "Waiting for USERAUTH response"
    else
      let! d := xget userauth_pblc_data in
      let! c := first_byte d in
      if c =? SSH_MSG_USERAUTH_SUCCESS then
        pblc_free_data ;; pblc_reset ;; set_authenticated ;; ret (Some 0)
      else if c =? SSH_MSG_USERAUTH_FAILURE then
        pblc_free_data ;; pblc_reset ;;
        pblc_return LIBSSH2_ERROR_AUTHENTICATION_FAILED "Username/PublicKey combination invalid"
      else
        pblc_free_data ;;
        let! x := xget id in
        let! b := access (userauth_pblc_b x) in
        let! p := access (userauth_pblc_packet x) in
        let! _ := access (byte_at p.1 b) in
        xset (fun d => d <| userauth_pblc_packet := Some (<[Z.to_nat b := 1]> p.1, p.2) |>) ;;
        set_pblc_state libssh2_NB_state_sent1 ;; ret None.

(** The name and the signature that end the second request. *)
Definition signature_text (method : list Z) (sig : list Z) (sk : bool) : list Z :=
  let len := lenZ method in
  if sk then store_str (store_u32 [] (4 + len + lenZ sig)) method ++ sig
  else store_str (store_str (store_u32 [] (4 + len + 4 + lenZ sig)) method) sig.

Definition pblc_append (sig : list Z) : PKM (option Z) :=
  let! x := xget id in
  let! b := access (userauth_pblc_packet x) in
  let len := userauth_pblc_packet_len x in
  let method_len := userauth_pblc_method_len x in
  let! b := grow_packet b (u64 (len + 4 + (4 + method_len) + (4 + lenZ sig))) (lenZ sig) (lenZ pubkeydata) in
  match b with
  | None =>
      pblc_reset ;;
      pblc_return LIBSSH2_ERROR_ALLOC "Failed allocating additional space for userauth-publickey packet"
  | Some b =>
      let! m := access (userauth_pblc_method x) in
      let! method_len := access (plain_method_len m method_len) in
      let! sk := access (is_sk_method m method_len) in
      let! name := access (bytes_at m 0 method_len) in
      let! b := access (store_at b len (signature_text name sig sk)) in
      xset (fun d => d <| userauth_pblc_b := None |> <| userauth_pblc_method := None |>
                       <| userauth_pblc_method_len := method_len |> <| userauth_pblc_packet := Some b |>
                       <| userauth_pblc_s := lenZ b.1 |>) ;;
      set_pblc_state libssh2_NB_state_sent2 ;; ret None
  end.

(** The signature; [retry] is what follows the label [retry_auth]. *)
Definition pblc_sign (first : bool) (retry : PKM (option Z)) : PKM (option Z) :=
  let! x := xget id in
  let! ok := xlift alloc_outcome in
  if negb ok then pblc_return LIBSSH2_ERROR_ALLOC "Unable to allocate memory for userauth-publickey signed data"
  else
    let! id := session_id_bytes in
    let! p := access (userauth_pblc_packet x) in
    let! p := access (bytes_at p.1 0 (userauth_pblc_packet_len x)) in
    let! r := sign_callback (store_str [] id ++ p) in
    let '(rc, sig) := r in
    if rc =? LIBSSH2_ERROR_EAGAIN then pblc_return LIBSSH2_ERROR_EAGAIN "Would block"
    else if (rc =? LIBSSH2_ERROR_ALGO_UNSUPPORTED) && first then pblc_reset ;; retry
    else if negb (rc =? 0) then
      pblc_reset ;; pblc_return LIBSSH2_ERROR_PUBLICKEY_UNVERIFIED "Callback returned error"
    else pblc_append sig.

Definition pblc_send_signed : PKM (option Z) :=
  let! x := xget id in
  let! b := access (userauth_pblc_packet x) in
  let! p := access (bytes_at b.1 0 (userauth_pblc_s x)) in
  let! rc := xlift (transport_send p []) in
  if rc =? LIBSSH2_ERROR_EAGAIN then pblc_return LIBSSH2_ERROR_EAGAIN "Would block"
  else
    pblc_free_packet ;;
    if negb (rc =? 0) then
      set_pblc_state libssh2_NB_state_idle ;;
      pblc_return LIBSSH2_ERROR_SOCKET_SEND "Unable to send userauth-publickey request"
    else set_pblc_state libssh2_NB_state_sent3 ;; ret None.

Definition pblc_result : PKM (option Z) :=
  let! rc := pblc_wait [SSH_MSG_USERAUTH_SUCCESS; SSH_MSG_USERAUTH_FAILURE] in
  if rc =? LIBSSH2_ERROR_EAGAIN then pblc_return LIBSSH2_ERROR_EAGAIN "Would block requesting userauth list"
  else
    let! len := xget userauth_pblc_data_len in
    if negb (rc =? 0) || (len <? 1) then
      set_pblc_state libssh2_NB_state_idle ;;
      pblc_return LIBSSH2_ERROR_PUBLICKEY_UNVERIFIED "Waiting for publickey USERAUTH response"
    else
      let! d := xget userauth_pblc_data in
      let! c := first_byte d in
      pblc_free_data ;;
      if c =? SSH_MSG_USERAUTH_SUCCESS then
        set_authenticated ;; set_pblc_state libssh2_NB_state_idle ;; ret (Some 0)
      else
        set_pblc_state libssh2_NB_state_idle ;;
        pblc_return LIBSSH2_ERROR_PUBLICKEY_UNVERIFIED
          "Invalid signature for supplied public key, or bad username/public key combination".

(** One attempt, from [retry_auth] on. *)
Definition pblc_attempt (first : bool) (retry : PKM (option Z)) : PKM (option Z) :=
  let in_state st m : PKM (option Z) :=
    let! x := xget userauth_pblc_state in if nb_is x st then m else ret None in
  then_pblc (in_state libssh2_NB_state_idle (pblc_start first)) (
  then_pblc (in_state libssh2_NB_state_created pblc_send) (
  then_pblc (in_state libssh2_NB_state_sent pblc_reply) (
  then_pblc (in_state libssh2_NB_state_sent1 (pblc_sign first retry)) (
  then_pblc (in_state libssh2_NB_state_sent2 pblc_send_signed) pblc_result)))).

(** The second attempt does not try again. *)
Definition userauth_publickey : PKM Z :=
  let! r := pblc_attempt true (pblc_attempt false (ret None)) in
  match r with Some rc => ret rc | None => fault end.
End Attempt.

(** *** Key pairs in files and in memory *)

Context (methods : list LIBSSH2_HOSTKEY_METHOD).
Context (init_pem : LIBSSH2_HOSTKEY_METHOD -> option (option (list Z))).
Context (signv : LIBSSH2_HOSTKEY_METHOD -> list Z -> list Z -> option (list Z)).

(** [sign_frommemory] and [sign_fromfile] as callbacks. *)
Definition sign_with (unable : string) (data : list Z) : PKM (Z * list Z) :=
  let! x := xget id in
  let! m := access (userauth_pblc_method x) in
  sign_privatekey methods init_pem signv unable m (userauth_pblc_method_len x) data.

(** The key is read in the first call only. *)
Definition with_key (read : PKM key_result) (k : list Z -> PKM Z) : PKM Z :=
  let! st := xget userauth_pblc_state in
  if nb_is st libssh2_NB_state_idle then
    let! r := read in
    match r with
    | inl rc => ret rc
    | inr (method, len, pubkeydata) => set_pblc_method (Some method) len ;; k pubkeydata
    end
  else k [].

Definition userauth_publickey_frommemory (pub_priv_keyfilememory : PKM key_result)
    (username publickeydata privatekeydata : list Z) : PKM Z :=
  with_key (if 0 <? lenZ publickeydata then memory_read_publickey publickeydata
            else if 0 <? lenZ privatekeydata then pub_priv_keyfilememory
            else key_failed LIBSSH2_ERROR_FILE "Invalid data in public and private key.")
    (fun pubkeydata =>
       userauth_publickey username pubkeydata (sign_with "Unable to initialize private key from memory")).

Definition userauth_publickey_fromfile (pub_priv_keyfile : PKM key_result)
    (username : list Z) (publickey : option (option (list Z))) : PKM Z :=
  with_key (match publickey with Some file => file_read_publickey file | None => pub_priv_keyfile end)
    (fun pubkeydata =>
       userauth_publickey username pubkeydata (sign_with "Unable to initialize private key from file")).

Definition libssh2_userauth_publickey_frommemory pub_priv_keyfilememory username publickeydata privatekeydata : PKM Z :=
  block_adjust (fun _ => xlift) transport_send
    (userauth_publickey_frommemory pub_priv_keyfilememory username publickeydata privatekeydata) fuel.

Definition libssh2_userauth_publickey_fromfile_ex pub_priv_keyfile username publickey : PKM Z :=
  block_adjust (fun _ => xlift) transport_send (userauth_publickey_fromfile pub_priv_keyfile username publickey) fuel.

Definition libssh2_userauth_publickey username pubkeydata sign_callback : PKM Z :=
  block_adjust (fun _ => xlift) transport_send (userauth_publickey username pubkeydata sign_callback) fuel.

(** The loop [while(rc == LIBSSH2_ERROR_EAGAIN)]. *)
Fixpoint until_done (rounds : nat) (m : PKM Z) : PKM Z :=
  match rounds with
  | O => fun _ => OutOfFuel
  | S rounds => let! rc := m in if rc =? LIBSSH2_ERROR_EAGAIN then until_done rounds m else ret rc
  end.

(** [_libssh2_sk_pub_keyfilememory] gives the method, the key and the length of the
    handle, or fails. *)
Definition libssh2_userauth_publickey_sk (sk_pub_keyfilememory : option (list Z * Z * list Z * Z))
    (username privatekeydata : list Z) (sign_callback : list Z -> Z * sk_sig_info) : PKM Z :=
  if 0 <? lenZ privatekeydata then
    match sk_pub_keyfilememory with
    | None => xerror LIBSSH2_ERROR_FILE "Unable to extract public key from private key."
    | Some (method, len, pubkeydata, handle_len) =>
        set_pblc_method (Some method) len ;;
        until_done fuel (userauth_publickey username pubkeydata (libssh2_sign_sk handle_len sign_callback))
    end
  else xerror LIBSSH2_ERROR_FILE "Invalid data in public and private key.".
End Publickey.
