(* ===== verification/Yields.v ===== *)
(** * What operations preserve and yield

    A calculus for statements of the form: whenever an operation returns from a state with
    an invariant, it leaves one, and its value has a property. It is used for invariants
    that say that a message has not arrived: no packet of the queue has it, and so nothing
    that is taken from the queue is it. *)

From stdpp Require Import base numbers list gmap strings.
From S2P Require Import Prelude Codes Wire Session ChannelWindow Packet Conn Comp PacketSafety PacketSpec PacketWait Blocking.

(** ** What an operation preserves and yields *)

(** Whenever [m] returns from a state with [I], it leaves one, and its value has [Q]. *)
Definition yields {S A} (I : S -> Prop) (Q : A -> Prop) (m : M S A) : Prop :=
  forall s a s', m s = Ret a s' -> I s -> I s' /\ Q a.

Definition anything {A} (_ : A) : Prop := True.

Section Yields.
Context {S : Type} (I : S -> Prop).

Lemma yields_bind {A C} (P : A -> Prop) (Q : C -> Prop) (m : M S A) (k : A -> M S C) :
  yields I P m -> (forall a, P a -> yields I Q (k a)) -> yields I Q (bind m k).
Proof.
  intros Hm Hk s b s' (a & s1 & E1 & E2)%bind_Ret_inv Hs. destruct (Hm _ _ _ E1 Hs) as [H1 Pa].
  by eapply Hk.
Qed.
Lemma yields_imp {A} (P Q : A -> Prop) (m : M S A) : yields I P m -> (forall a, P a -> Q a) -> yields I Q m.
Proof. intros Hm H s a s' E Hs. destruct (Hm _ _ _ E Hs). auto. Qed.
Lemma yields_ret {A} (Q : A -> Prop) a : Q a -> yields I Q (ret a).
Proof. by intros H s b s' [= <- <-]. Qed.
Lemma yields_fault {A} (Q : A -> Prop) : yields I Q fault.
Proof. done. Qed.
Lemma yields_gets {A} (f : S -> A) (Q : A -> Prop) : (forall s, I s -> Q (f s)) -> yields I Q (gets f).
Proof. intros H s b s' [= <- <-] Hs. auto. Qed.
Lemma yields_access {A} (o : option A) (Q : A -> Prop) : (forall a, o = Some a -> Q a) -> yields I Q (access o).
Proof. destruct o; intros H; [apply yields_ret; auto|apply yields_fault]. Qed.
Lemma yields_modify f (Q : unit -> Prop) : (forall s, I s -> I (f s)) -> Q tt -> yields I Q (modify f).
Proof. intros H HQ s a s' [= <- <-]. auto. Qed.
Lemma yields_run {A} (m : M S A) s a s' : m s = Ret a s' -> I s -> yields I anything m -> I s'.
Proof. intros E Hs H. apply (H _ _ _ E Hs). Qed.
End Yields.

Create HintDb yields discriminated.

(** A first computation has a known postcondition, or none is needed. *)
Ltac yields_step :=
  cbn beta iota zeta;
  lazymatch goal with
  | |- yields _ _ (bind _ _) =>
      first [ eapply yields_bind; [solve [eauto 2 with yields nocore]|cbn beta; intros ? ?]
            | apply (yields_bind _ anything); [|intros ? _] ]
  | |- yields _ _ (ret _) => apply yields_ret
  | |- yields _ _ fault => apply yields_fault
  | |- yields _ _ (gets _) => apply yields_gets
  | |- yields _ _ (access _) => apply yields_access
  | |- yields _ _ (modify _) => apply yields_modify
  | |- yields _ _ (if ?b then _ else _) => let E := fresh "E" in destruct b eqn:E
  | |- yields _ _ (match ?x with _ => _ end) => let E := fresh "E" in destruct x eqn:E
  | |- yields _ _ _ => first [ solve [eauto 2 with yields nocore]
                             | eapply yields_imp; [solve [eauto 2 with yields nocore]|cbn beta; intros ? ?] ]
  end.
Ltac yields_all := repeat yields_step; try done.

(** ** A message that has not arrived *)

Section Without.
(** The first byte of the message, and what else holds of the session's state flags. *)
Context (code : Z) (K : Z -> Prop).

Definition is_not (d : list Z) : Prop := byte_at d 0 <> Some code.

Definition without (s : session) : Prop :=
  K (s_state s) /\ forall p d, p ∈ packets s -> s_heap s !! pk_data p = Some d -> is_not d.

Lemma yields_error code' msg : yields without (fun rc => rc = code') (error code' msg).
Proof. unfold error, error_flags. simpl. yields_all. Qed.
Lemma yields_alloc_outcome : yields without anything alloc_outcome.
Proof. intros s a s'. unfold alloc_outcome. destruct (s_alloc s); intros [= <- <-] H; (split; [exact H|done]). Qed.
Lemma yields_time : yields without anything time.
Proof. intros s a s'. unfold time. destruct (s_clock s); intros [= <- <-] H; (split; [exact H|done]). Qed.
Lemma yields_poll e t : yields without anything (poll e t).
Proof. intros s a s'. unfold poll. destruct (wd_poll _); intros [= <- <-] H; (split; [exact H|done]). Qed.
Lemma yields_free_block p : yields without anything (free_block p).
Proof.
  unfold free_block. yields_all. intros s [H1 H2]. split; [done|]. intros q d Hq. simpl.
  intros [_ Hd]%lookup_delete_Some. by eapply H2.
Qed.
Lemma yields_any {A} (f : session -> A) : yields without anything (gets f).
Proof. by apply yields_gets. Qed.
Lemma yields_block p : yields without anything (block p).
Proof. unfold block. yields_all. Qed.

(** What is handed over is not the message. *)
Definition handed_over (s : session) (r : option (ptr * Z)) : Prop :=
  forall p len d, r = Some (p, len) -> s_heap s !! p = Some d -> is_not d.

Lemma packet_matches_same p ty ofs buf s m s' : packet_matches p ty ofs buf s = Ret m s' -> s' = s.
Proof.
  assert (H : keeps id (packet_matches p ty ofs buf)); [|intros E; apply (H _ _ _ E)].
  unfold packet_matches, block. keeps_all.
Qed.

Lemma ask_loop_without ty ofs buf : forall rest seen s r s',
  packets s = seen ++ rest -> packet_ask_loop seen rest ty ofs buf s = Ret r s' ->
  without s -> without s' /\ handed_over s' r.
Proof.
  induction rest as [|p rest IH]; intros seen s r s' Hp; cbn [packet_ask_loop].
  - intros [= <- <-] Hs. done.
  - intros (m & s1 & ->%packet_matches_same & E2)%bind_Ret_inv. destruct m.
    + injection E2 as <- <-. intros [H1 H2]. split; [split; [done|]|].
      * intros q d Hq. apply H2. rewrite Hp. simpl in Hq. rewrite elem_of_app, elem_of_cons. apply elem_of_app in Hq. tauto.
      * intros q len d [= <- <-] Hd. eapply H2; [|exact Hd]. rewrite Hp, elem_of_app, elem_of_cons. tauto.
    + eapply IH; [|exact E2]. by rewrite <- app_assoc.
Qed.

Lemma askv_without ofs buf tys : forall s r s', packet_askv tys ofs buf s = Ret r s' ->
  without s -> without s' /\ handed_over s' r.
Proof.
  induction tys as [|ty tys IH]; intros s r s'; cbn [packet_askv].
  - intros [= <- <-] Hs. done.
  - intros (r1 & s1 & E1 & E2)%bind_Ret_inv Hs. unfold packet_ask in E1. apply bind_Ret_inv in E1 as (ps & s2 & [= <- <-] & E1).
    eapply (ask_loop_without _ _ _ _ []) in E1 as [H1 H2]; [|done..]. destruct r1; [|by eapply IH].
    by injection E2 as <- <-.
Qed.

Lemma is_not_prefix l n d : bytes_at l 0 n = Some d -> is_not l -> is_not d.
Proof.
  intros H Hl E. apply Hl. rewrite <- E. unfold bytes_at, slice in H. case_decide; [|done]. injection H as <-.
  unfold byte_at in E |- *. simpl in *. destruct l; [by destruct (Z.to_nat n)|]. by destruct (Z.to_nat n).
Qed.

Lemma requirev_without transport_read fuel tys ofs buf start :
  yields without anything transport_read -> forall s r s',
  packet_requirev transport_read fuel tys ofs buf start s = Ret r s' ->
  without s -> without s' /\ handed_over s' r.1.2.
Proof.
  intros Hread s r s'. unfold packet_requirev. intros (x & s1 & E1 & E2)%bind_Ret_inv Hs.
  destruct (askv_without _ _ _ _ _ _ E1 Hs) as [H1 H2]. destruct x as [x|]; [by injection E2 as <- <-|].
  apply bind_Ret_inv in E2 as (t & s2 & E2 & E3).
  assert (Hs2 : without s2).
  { destruct (start =? 0); [by apply (yields_time _ _ _ E2)|by injection E2 as <- <-]. }
  clear s s1 Hs E1 H1 H2 E2. revert s2 r s' E3 Hs2.
  induction fuel as [|n IH]; intros s r s'; cbn [packet_requirev_loop]; [done|].
  intros (st & s1 & [= <- <-] & E2)%bind_Ret_inv Hs. destruct (negb _); [|by injection E2 as <- <-].
  apply bind_Ret_inv in E2 as (rc & s1 & E1 & E2). destruct (Hread _ _ _ E1 Hs) as [H1 _].
  destruct (_ && _); [by injection E2 as <- <-|]. apply bind_Ret_inv in E2 as (early & s2 & E2 & E3).
  assert (H2 : without s2).
  { eapply (yields_run without); [exact E2|exact H1|]. yields_all; first [apply yields_time|done]. }
  destruct early as [[rc1 st]|]; [by injection E3 as <- <-|].
  destruct (types_mem _ _); [|by eapply IH].
  apply bind_Ret_inv in E3 as (x & s3 & E3 & [= <- <-]). by eapply askv_without.
Qed.
End Without.
#[export] Hint Resolve yields_any yields_error yields_alloc_outcome yields_time yields_poll yields_free_block yields_block : yields.
