(* ===== verification/TransportWait.v ===== *)
(** * Waiting for packets over the transport

    [_libssh2_transport_read] keeps what the loops of [_libssh2_packet_require] and
    [_libssh2_packet_requirev] rely on (PacketWait's [TransportRead]) while the first key
    exchange runs: every packet it delivers uses up bytes of the peer, and it leaves itself
    ready for the next one, whatever the peer, the socket and the allocator do. *)

From stdpp Require Import base numbers list gmap strings.
From S2P Require Import Prelude Codes Wire Session ChannelWindow Packet PacketAdd Conn Comp PacketSafety PacketSpec PacketWait Transport TransportSpec TransportReceive TransportSafety Blocking Yields.

(** ** What receiving a packet leaves alone *)

(** The bytes that have arrived, the progress of the reader, and the side that decides how
    they are read. *)
Definition reader (s : session) :=
  (s_recv s, tp_buf (s_packet s), readPack_state s, fullpacket_state s, s_state s, ep_comp_abstract (s_remote s)).

Definition reader_is (v : list recv_outcome * list Z * libssh2_nonblocking_states * libssh2_nonblocking_states * Z * option (list Z))
    (s : session) : Prop := reader s = v /\ can_send s.

Section Frame.
Context (local_crypt : list Z -> list Z -> option (list Z * list Z)).
Context (local_mac : Z -> list Z -> list Z).
Context (deflate : list Z -> list Z -> Z -> Z * list Z * list Z).
Context (random : session -> Z -> option (list Z)) (kex_exchange : CM Z) (addr_of : list Z -> list Z -> Z).
Context `{!SendSuite local_crypt random}.
Abbreviation send := (send_at local_crypt local_mac deflate random kex_exchange addr_of).
Context (v : list recv_outcome * list Z * libssh2_nonblocking_states * libssh2_nonblocking_states * Z * option (list Z)).

(** A change elsewhere. *)
Lemma yields_elsewhere f : (forall s, reader (f s) = reader s) -> (forall s, can_send (f s) = can_send s) ->
  yields (reader_is v) anything (modify f).
Proof. intros H1 H2. apply yields_modify; [|done]. intros s [E Hs]. split; [by rewrite H1|by rewrite H2]. Qed.

Lemma frame_send data data2 : yields (reader_is v) anything (send data data2).
Proof.
  intros s rc s' E [Hv Hs]. split; [|done]. split.
  - pose proof (send_keeps_receiver _ _ _ _ _ _ _ _ _ _ _ (proj1 Hs) E) as H. rewrite <- Hv. unfold reader.
    unfold receiver in H. by injection H as -> -> -> -> _ -> _ _ _ -> _ _.
  - pose proof (transport_send_frame (transport_send:=send) data data2 s Hs) as H. unfold wp in H. rewrite E in H. by apply (same_send s s' (proj1 H)).
Qed.
Lemma frame_error code msg : yields (reader_is v) anything (error code msg).
Proof. by intros s a s' [= <- <-] H. Qed.
Lemma frame_event e : yields (reader_is v) anything (event_log e).
Proof. by apply yields_elsewhere. Qed.
Lemma frame_packAdd st : yields (reader_is v) anything (set_packAdd st).
Proof. by apply yields_elsewhere. Qed.
Lemma frame_ql f : yields (reader_is v) anything (set_ql f).
Proof. by apply yields_elsewhere. Qed.
Lemma frame_x11 f : yields (reader_is v) anything (set_x11 f).
Proof. by apply yields_elsewhere. Qed.
Lemma frame_alloc_outcome : yields (reader_is v) anything alloc_outcome.
Proof. intros s a s'. unfold alloc_outcome. destruct (s_alloc s); intros [= <- <-] H; (split; [exact H|done]). Qed.
Lemma frame_any {A} (f : session -> A) : yields (reader_is v) anything (gets f).
Proof. by apply yields_gets. Qed.
Lemma frame_access {A} (o : option A) : yields (reader_is v) anything (access o).
Proof. by apply yields_access. Qed.
Lemma frame_block p : yields (reader_is v) anything (block p).
Proof. unfold block. yields_all. Qed.
Lemma frame_free_block p : yields (reader_is v) anything (free_block p).
Proof. unfold free_block. yields_all. Qed.
Lemma frame_chan p : yields (reader_is v) anything (chan p).
Proof. unfold chan. yields_all. Qed.
Lemma frame_set_chan p f : yields (reader_is v) anything (set_chan p f).
Proof. unfold set_chan, chan. yields_all. Qed.
#[local] Hint Resolve frame_send frame_error frame_event frame_packAdd frame_ql frame_x11 frame_alloc_outcome frame_any
  frame_access frame_block frame_free_block frame_chan frame_set_chan : yields.

Lemma frame_alloc_channel : yields (reader_is v) anything alloc_channel.
Proof. unfold alloc_channel. yields_all. Qed.
Lemma frame_free_channel p : yields (reader_is v) anything (free_channel p).
Proof. unfold free_channel. yields_all. Qed.
Lemma frame_max_id : forall cs n, yields (reader_is v) anything (max_local_id cs n).
Proof. induction cs as [|p cs IH]; intros n; cbn [max_local_id]; yields_all. Qed.
#[local] Hint Resolve frame_max_id : yields.
Lemma frame_nextid : yields (reader_is v) anything channel_nextid.
Proof. unfold channel_nextid. yields_all. Qed.
Lemma frame_find_channel id : forall cs, yields (reader_is v) anything (find_channel cs id).
Proof. induction cs as [|p cs IH]; cbn [find_channel]; yields_all. Qed.
#[local] Hint Resolve frame_find_channel : yields.
Lemma frame_find_pending id : forall ls, yields (reader_is v) anything (find_pending ls id).
Proof. induction ls as [|l ls IH]; cbn [find_pending]; yields_all. Qed.
#[local] Hint Resolve frame_find_pending : yields.
Lemma frame_locate id : yields (reader_is v) anything (channel_locate id).
Proof. unfold channel_locate. yields_all. Qed.
#[local] Hint Resolve frame_alloc_channel frame_free_channel frame_nextid frame_locate : yields.

(** *** The cases of the switch *)

Lemma frame_string buf : yields (reader_is v) anything (get_string_ignore buf).
Proof. unfold get_string_ignore. yields_all. Qed.
#[local] Hint Resolve frame_string : yields.
Lemma frame_ext_info n : forall buf, yields (reader_is v) anything (ext_info_loop n buf).
Proof. induction n as [|n IH]; intros buf; cbn [ext_info_loop]; yields_all. Qed.
#[local] Hint Resolve frame_ext_info : yields.

Lemma frame_listener_loop : forall ls n, yields (reader_is v) anything (queue_listener_loop send ls n).
Proof.
  induction ls as [|l ls IH]; intros n; cbn [queue_listener_loop]; [yields_all|].
  unfold queue_listener_accept, queue_listener_confirm. yields_all.
Qed.
Lemma frame_listener_refuse code : yields (reader_is v) anything (queue_listener_refuse send code).
Proof. unfold queue_listener_refuse. yields_all. Qed.
#[local] Hint Resolve frame_listener_loop frame_listener_refuse : yields.
Lemma frame_queue_listener d n : yields (reader_is v) anything (packet_queue_listener send d n).
Proof. unfold packet_queue_listener, queue_listener_parse, ql_u32, ql_string. yields_all. Qed.

Lemma frame_x11_exit code : yields (reader_is v) anything (x11_exit send code).
Proof. unfold x11_exit. yields_all. Qed.
#[local] Hint Resolve frame_x11_exit : yields.
Lemma frame_x11_after ch : yields (reader_is v) anything (x11_after_parse send ch).
Proof. unfold x11_after_parse, x11_confirm. yields_all. Qed.
#[local] Hint Resolve frame_x11_after : yields.
Lemma frame_x11_open d n : yields (reader_is v) anything (packet_x11_open send d n).
Proof. unfold packet_x11_open, x11_parse, x11_u32, x11_string. yields_all. Qed.
#[local] Hint Resolve frame_queue_listener frame_x11_open : yields.

Lemma frame_switch data msg n : yields (reader_is v) anything (packet_switch send data msg n).
Proof.
  unfold packet_switch, add_disconnect, add_ignore, add_debug, add_ext_info, add_global_request, add_channel_data, add_channel_eof,
    add_channel_request, add_channel_close, add_channel_open, add_window_adjust, ignore_extended_data, jump_point1, jump_point2,
    jump_point3, jump_point4, jump_point5, open_done, locate_header, open_is, request_is, request_exit_status, request_exit_signal,
    channel_receive_window_adjust, window_adjust_send, drop_packet.
  yields_all.
Qed.

(** ** What is left of a packet that was received *)

(** Unless it is to be continued, a case of the switch that returns is over. *)
Definition case_over (r : switch_result) (s : session) : Prop :=
  match r with SReturn rc => rc = LIBSSH2_ERROR_EAGAIN \/ packAdd_state s = libssh2_NB_state_idle | SQueue _ _ => True end.

Definition leaves {A} (Q : A -> session -> Prop) (m : CM A) : Prop := forall s a s', m s = Ret a s' -> Q a s'.

Lemma leaves_bind {A B} (Q : B -> session -> Prop) (m : CM A) (k : A -> CM B) :
  (forall a, leaves Q (k a)) -> leaves Q (bind m k).
Proof. intros H s b s' (a & s1 & _ & E)%bind_Ret_inv. by eapply H. Qed.
Lemma leaves_fault {A} (Q : A -> session -> Prop) : leaves Q fault.
Proof. done. Qed.
Lemma leaves_drop data rc : leaves case_over (drop_packet data rc).
Proof.
  intros s r s'. unfold drop_packet. intros (u & s1 & _ & E)%bind_Ret_inv. apply bind_Ret_inv in E as (? & s2 & [= <- <-] & [= <- <-]). by right.
Qed.
Lemma leaves_idle rc : leaves case_over (set_packAdd libssh2_NB_state_idle ;; ret (SReturn rc)).
Proof. intros s r s' (? & s2 & [= <- <-] & [= <- <-])%bind_Ret_inv. by right. Qed.
Lemma leaves_idle_error code msg :
  leaves case_over (set_packAdd libssh2_NB_state_idle ;; let! rc := error code msg in ret (SReturn rc)).
Proof.
  intros s r s' (? & s2 & [= <- <-] & E)%bind_Ret_inv. apply bind_Ret_inv in E as (rc & s3 & [= <- <-] & [= <- <-]). by right.
Qed.
Lemma leaves_again rc (m : CM switch_result) : leaves case_over m ->
  leaves case_over (if rc =? LIBSSH2_ERROR_EAGAIN then ret (SReturn rc) else m).
Proof. intros Hm. destruct (Z.eqb_spec rc LIBSSH2_ERROR_EAGAIN); [|done]. intros s r s' [= <- <-]. by left. Qed.
Lemma leaves_queue n h : leaves case_over (ret (SQueue n h)).
Proof. by intros s r s' [= <- <-]. Qed.

Ltac leaves_step :=
  cbn beta iota zeta;
  lazymatch goal with
  | |- leaves _ (drop_packet _ _) => apply leaves_drop
  | |- leaves _ (ret (SQueue _ _)) => apply leaves_queue
  | |- leaves _ (if _ =? LIBSSH2_ERROR_EAGAIN then _ else _) => apply leaves_again
  | |- leaves _ (bind (set_packAdd libssh2_NB_state_idle) (fun _ => ret _)) => apply leaves_idle
  | |- leaves _ (bind (set_packAdd libssh2_NB_state_idle) (fun _ => bind (error _ _) _)) => apply leaves_idle_error
  | |- leaves _ (bind _ _) => apply leaves_bind; intros ?
  | |- leaves _ (if ?b then _ else _) => destruct b
  | |- leaves _ (match ?x with _ => _ end) => destruct x
  end.

Lemma switch_over data msg n : leaves case_over (packet_switch send data msg n).
Proof.
  unfold packet_switch, add_disconnect, add_ignore, add_debug, add_ext_info, add_global_request, add_channel_data, add_channel_eof,
    add_channel_request, add_channel_close, add_channel_open, add_window_adjust, ignore_extended_data, jump_point1, jump_point2,
    jump_point3, jump_point4, jump_point5, open_done.
  repeat leaves_step.
Qed.

(** ** [_libssh2_packet_add] while keys are exchanged *)

Definition exchanging (s : session) : Prop :=
  Z.land (s_state s) LIBSSH2_STATE_EXCHANGING_KEYS <> 0 /\ Z.land (s_state s) LIBSSH2_STATE_KEX_ACTIVE <> 0.

(** A packet that is queued does not start another exchange. *)
Lemma packet_rekey_none msg s : exchanging s -> packAdd_state s = libssh2_NB_state_sent1 ->
  packet_rekey kex_exchange msg s = Ret 0 (s <| packAdd_state := libssh2_NB_state_idle |>).
Proof.
  intros [Hx%Z.eqb_neq _] Hst. unfold packet_rekey, bind, gets. rewrite Hst, Hx, andb_false_r. done.
Qed.

Lemma packet_add_end_over data msg r s rc s' : exchanging s -> case_over r s ->
  packet_add_end kex_exchange data msg r s = Ret rc s' -> reader_is v s ->
  reader_is v s' /\ (rc = LIBSSH2_ERROR_EAGAIN \/ packAdd_state s' = libssh2_NB_state_idle).
Proof.
  intros Hx Hr. destruct r as [rc'|n h]; cbn [packet_add_end]; [by intros [= <- <-]|].
  intros (? & s1 & [= <- <-] & E)%bind_Ret_inv Hv. apply bind_Ret_inv in E as (early & s2 & E1 & E2).
  unfold packet_enqueue in E1. apply bind_Ret_inv in E1 as (ok & s3 & E0 & E1).
  pose proof (frame_alloc_outcome _ _ _ E0 Hv) as [Hv3 _].
  assert (Hx3 : exchanging s3) by (unfold alloc_outcome in E0; destruct (s_alloc _); by injection E0 as <- <-).
  destruct ok.
  - injection E1 as <- <-. rewrite packet_rekey_none in E2 by done. injection E2 as <- <-. split; [exact Hv3|by right].
  - apply bind_Ret_inv in E1 as (? & s4 & E4 & E1). injection E1 as <- <-. injection E2 as <- <-.
    pose proof (frame_free_block data _ _ _ E4 Hv3) as [H4 _]. split; [exact H4|by right].
Qed.

(** The function as a whole. *)
Lemma packet_add_over data n s rc s' : exchanging s -> packAdd_state s = libssh2_NB_state_idle ->
  packet_add send kex_exchange data n LIBSSH2_MAC_CONFIRMED s = Ret rc s' -> reader_is v s ->
  reader_is v s' /\ (rc = LIBSSH2_ERROR_EAGAIN \/ packAdd_state s' = libssh2_NB_state_idle).
Proof.
  intros Hx Hst. unfold packet_add. intros (d & s1 & E1 & E)%bind_Ret_inv Hv.
  assert (s1 = s) as -> by (unfold block, bind, gets in E1; by destruct (s_heap s !! data); [injection E1 as <- <-|]).
  apply bind_Ret_inv in E as (msg & s2 & E2 & E).
  assert (s2 = s) as -> by (by destruct (byte_at d 0); [injection E2 as <- <-|]).
  apply bind_Ret_inv in E as (st & s3 & [= <- <-] & E). rewrite Hst in E. apply bind_Ret_inv in E as (cb & s3 & [= <- <-] & E).
  apply bind_Ret_inv in E as (bad & s3 & [= <- <-] & E). cbn iota in E.
  apply bind_Ret_inv in E as (? & s3 & [= <- <-] & E). apply bind_Ret_inv in E as (r & s3 & E3 & E).
  assert (Hv1 : reader_is v (s <| packAdd_state := libssh2_NB_state_allocated |>)) by exact Hv.
  pose proof (frame_switch data msg n _ _ _ E3 Hv1) as [Hv3 _].
  eapply packet_add_end_over; [|by eapply switch_over|exact E|exact Hv3].
  destruct Hv as [Hv _], Hv3 as [Hv3 _]. unfold exchanging. rewrite <- Hv in Hv3. by injection Hv3 as _ _ _ _ -> _.
Qed.

Lemma packet_add_exchanging data d n s : add_pre data d n s -> exchanging s -> packAdd_state s = libssh2_NB_state_idle ->
  wp (packet_add send kex_exchange data n LIBSSH2_MAC_CONFIRMED) (fun _ s' => conn_ok s') s.
Proof.
  intros Hpre Hx Hst. destruct (decide (byte_at d 0 = Some SSH_MSG_KEXINIT)) as [Em|Em].
  - unfold packet_add. wp_step. eapply wp_block; [apply Hpre|]. wp_step. eapply wp_access; [exact Em|]. do 2 wp_step. rewrite Hst. cbn iota.
    wps; [done|]. change (packet_switch send data SSH_MSG_KEXINIT n) with (@ret session _ (SQueue n 0)). wp_step. cbn [packet_add_end].
    unfold packet_enqueue. wps. apply wp_alloc_outcome. intros [] al; wps.
    + unfold wp. rewrite packet_rekey_none by done.
      eapply same_conn_ok; [|apply (enqueue_conn_ok data d n s n 0 Hpre); pose proof (pre_len _ _ _ _ Hpre); lia]. by split.
    + eapply wp_free_block; [apply Hpre|]. wps.
      eapply same_conn_ok; [|apply free_conn_ok; apply Hpre]. by split.
  - eapply wp_mono; [exact (packet_add_ok send kex_exchange data d n _ s Hpre Hst Em)|]. intros rc s'. unfold add_post.
    destruct (rc =? _); [intros [Hq|[_ []]]|intros [[]|(_ & ? & ? & _ & _ & [])]]; try done. apply Hq, Hpre.
Qed.
End Frame.

(** ** [_libssh2_transport_read] while the first keys are exchanged *)

(** A first key exchange runs, and no earlier call waits to be continued. The loop that
    collects a packet has [rounds] rounds, enough for what has arrived. *)
Record first_exchange (rounds : nat) (s : session) : Prop := {
  fe_reading : reading s;
  fe_send : can_send s;
  fe_exchanging : exchanging s;
  fe_rounds : (rx_measure s < rounds)%nat;
  fe_packAdd : packAdd_state s = libssh2_NB_state_idle;
  fe_fullpacket : fullpacket_state s = libssh2_NB_state_idle;
  fe_readPack : readPack_state s = libssh2_NB_state_idle;
  fe_comp : ep_comp_abstract (s_remote s) = None
}.

(** What has arrived, and the packet that is being collected. *)
Definition to_come (s : session) : nat := rx_measure s + if tp_total_num (s_packet s) =? 0 then 0 else 1.

(** What collecting leaves alone. *)
Definition outside (s : session) :=
  (packAdd_state s, fullpacket_state s, readPack_state s, s_state s, ep_comp_abstract (s_remote s), s_local s,
   (tp_outbuf (s_packet s), tp_olen (s_packet s), tp_osent (s_packet s), tp_ototal_num (s_packet s))).

Lemma keeps_outside_recv n : keeps outside (socket_recv n).
Proof. intros s a s'. unfold socket_recv. destruct (s_recv s) as [|[bs|rc] l]; [|destruct (_ <=? _)|]; by intros [= <- <-]. Qed.
Lemma keeps_outside_alloc d : keeps outside (alloc_block d).
Proof. intros s a s'. unfold alloc_block, alloc_outcome, bind, gets, modify, ret. destruct (s_alloc s) as [|[] l]; by intros [= <- <-]. Qed.
#[local] Hint Resolve keeps_outside_recv keeps_outside_alloc : keeps.

Section Read.
Context (remote_crypt local_crypt : list Z -> list Z -> option (list Z * list Z)).
Context (remote_mac local_mac : Z -> list Z -> list Z).
Context (deflate : list Z -> list Z -> Z -> Z * list Z * list Z).
Context (inflate : list Z -> list Z -> Z -> inflated).
Context (random : session -> Z -> option (list Z)) (kex_exchange : CM Z) (addr_of : list Z -> list Z -> Z).
Context `{!SendSuite local_crypt random}.

Lemma keeps_outside_decrypt n bs : forall source, keeps outside (decrypt_loop remote_crypt n bs source).
Proof. induction n as [|n IH]; intros source; cbn [decrypt_loop]; keeps_all. Qed.
#[local] Hint Resolve keeps_outside_decrypt : keeps.

Lemma keeps_outside_assemble fuel : keeps outside (assemble remote_crypt fuel).
Proof.
  induction fuel as [|fuel IH]; cbn [assemble]; [keeps_all|].
  unfold read_fill, read_start, read_lengths, read_alloc, read_body, read_decrypt, read_copy, read_append, decrypt, block_inbound,
    write_block, free_block, block, set_packet.
  keeps_all.
Qed.

(** The packet has been delivered: the reader is where it was, and between two packets unless
    the call is to be continued. *)
Definition delivered (s : session) (rc : Z) (s' : session) : Prop :=
  conn_ok s' /\ can_send s' /\ s_recv s' = s_recv s /\ tp_buf (s_packet s') = tp_buf (s_packet s) /\
  readPack_state s' = readPack_state s /\ s_state s' = s_state s /\ ep_comp_abstract (s_remote s') = None /\
  (rc = LIBSSH2_ERROR_EAGAIN \/ packAdd_state s' = libssh2_NB_state_idle /\ fullpacket_state s' = libssh2_NB_state_idle).

(** Outside of encryption and compression nothing of the packet is checked or changed. *)
Definition full_plain (s : session) (ty : Z) : session :=
  s <| fullpacket_macstate := LIBSSH2_MAC_CONFIRMED |> <| s_remote ::= fun e => e <| ep_seqno := u32 (ep_seqno e + 1) |> |>
    <| fullpacket_payload_len := tp_packet_length (s_packet s) - 1 - tp_padding_length (s_packet s) |>
    <| fullpacket_packet_type := ty |> <| fullpacket_state := libssh2_NB_state_created |>.

Lemma fullpacket_start_plain s q d ty :
  tp_payload (s_packet s) = Some q -> s_heap s !! q = Some d -> byte_at d 0 = Some ty -> ep_comp_abstract (s_remote s) = None ->
  wp (fullpacket_start remote_mac inflate false) (fun r s' => r = None /\ s' = full_plain s ty) s.
Proof.
  intros Hq Hd Hty Hco. unfold fullpacket_start, check_mac. do 4 wp_step. wp_step. eapply wp_access; [exact Hq|]. wp_step.
  eapply wp_block; [exact Hd|]. do 4 wp_step. do 2 wp_step. rewrite Hco.
  wp_step. apply (wp_mono _ (fun r s' => r = None /\ s' = s <| fullpacket_macstate := LIBSSH2_MAC_CONFIRMED |>
    <| s_remote ::= fun e => e <| ep_seqno := u32 (ep_seqno e + 1) |> |>
    <| fullpacket_payload_len := tp_packet_length (s_packet s) - 1 - tp_padding_length (s_packet s) |>)).
  { destruct (compressing _); by wp_step. }
  intros r s' [-> ->]. do 2 wp_step. wp_step. eapply wp_access; [exact Hq|]. wp_step. eapply wp_block; [exact Hd|]. wp_step.
  eapply wp_access; [exact Hty|]. do 3 wp_step. by split.
Qed.

Lemma fullpacket_delivers s :
  conn_ok s -> partial s -> can_send s -> exchanging s -> packAdd_state s = libssh2_NB_state_idle ->
  fullpacket_state s = libssh2_NB_state_idle -> ep_comp_abstract (s_remote s) = None ->
  wp (fullpacket local_crypt remote_mac local_mac deflate inflate random kex_exchange addr_of false) (delivered s) s.
Proof.
  intros Hc [(q & d & Hq & Hd & Hl & Hown) Ht Hpl Hpad Hdn] Hs Hx Hpa Hfp Hco.
  destruct (byte_at_in d 0) as [ty Hty]; [lia|].
  unfold fullpacket. do 2 wp_step. rewrite Hfp. change (nb_is libssh2_NB_state_idle libssh2_NB_state_idle) with true. wp_step.
  eapply wp_mono; [by apply (fullpacket_start_plain s q d ty)|]. intros r s1' [-> ->]. set (s1 := full_plain s ty).
  do 2 wp_step. change (fullpacket_state s1) with libssh2_NB_state_created.
  change (nb_is libssh2_NB_state_created libssh2_NB_state_created) with true. do 3 wp_step. eapply wp_access; [exact Hq|]. do 5 wp_step.
  assert (Hpre : add_pre q d (fullpacket_payload_len s1) s1).
  { split; [by eapply same_conn_ok; [|exact Hc]|exact Hs|exact Hd|simpl; lia|unfold LIBSSH2_PACKET_MAXPAYLOAD in *; lia|exact Hown]. }
  pose proof (packet_add_exchanging _ local_mac deflate _ kex_exchange addr_of q d _ s1 Hpre Hx Hpa) as Hadd.
  change (fullpacket_macstate s1) with LIBSSH2_MAC_CONFIRMED. unfold wp in Hadd |- * at 1.
  destruct (packet_add _ _ _ _ _ s1) as [rc s2| |] eqn:E; [|done..].
  destruct (packet_add_over _ _ _ _ _ _ (reader s1) _ _ s1 _ _ Hx Hpa E) as [[Hv Hs2] Hrc]; [done|].
  injection Hv as R1 R2 R3 R4 R5 R6. rewrite Hco in R6.
  wps; breflect; (split; [by eapply same_conn_ok; [|exact Hadd]|]); (split_and!; try done); [by left|right..]; (split; [|done]); by destruct Hrc.
Qed.

Abbreviation read := (transport_read remote_crypt local_crypt remote_mac local_mac deflate inflate random kex_exchange addr_of).

(** Between two packets of a first exchange. *)
Lemma first_exchange_next rounds s1 s2 :
  reading s1 -> exchanging s1 -> (rx_measure s1 < rounds)%nat -> readPack_state s1 = libssh2_NB_state_idle ->
  delivered s1 0 s2 -> packAdd_state s2 = libssh2_NB_state_idle -> fullpacket_state s2 = libssh2_NB_state_idle ->
  let s' := s2 <| s_packet ::= fun p => p <| tp_total_num := 0 |> |> in
  first_exchange rounds s' /\ to_come s' = rx_measure s1.
Proof.
  intros Hr Hx Hm Hrp (Hc & Hs & E1 & E2 & E3 & E4 & E5 & _) Hpa Hfp s'.
  assert (Em : rx_measure s' = rx_measure s1) by (unfold rx_measure; simpl; by rewrite E1, E2).
  split; [|unfold to_come; simpl; rewrite Em; lia]. split; simpl; try done.
  - split; [by eapply same_conn_ok; [|exact Hc]| | |by left].
    + unfold state_has in *. simpl. rewrite E4. apply (rd_plain _ Hr).
    + unfold incoming. simpl. rewrite E1, E2. apply (rd_bytes _ Hr).
  - unfold exchanging in *. simpl. by rewrite E4.
  - by rewrite Em.
  - congruence.
Qed.

Lemma transport_read_first rounds s : first_exchange rounds s ->
  wp (read rounds) (fun rc s' => conn_ok s' /\ (0 < rc -> first_exchange rounds s' /\ (to_come s' < to_come s)%nat)) s.
Proof.
  intros Hf. pose proof Hf as [Hr Hs Hx Hm Hpa Hfp Hrp Hco]. unfold transport_read. do 2 wp_step. set (s0 := s <| socket_block_directions ::= _ |>).
  wp_step. apply wp_redirect_kex; [apply Hs|]. change (negb (0 =? 0)) with false. do 2 wp_step.
  change (readPack_state s0) with (readPack_state s). rewrite Hrp. change (nb_is libssh2_NB_state_idle libssh2_NB_state_jump1) with false. wp_step.
  assert (Hr0 : reading s0) by (by eapply (reading_keep s); try apply Hr).
  destruct (wp_Ret _ _ _ (assemble_any remote_crypt rounds s0 Hr0 Hm)) as (r & s1 & E & Hr1 & Hres). unfold wp at 1. rewrite E.
  pose proof (keeps_outside_assemble rounds _ _ _ E) as Hout. injection Hout as O1 O2 O3 O4 O5 O6 O7 O8 O9 O10.
  destruct r as [rc|encrypted]; [wp_step; split; [apply Hr1|lia]|].
  destruct Hres as (-> & Hp & _ & Hle & Hlt).
  assert (Hx1 : exchanging s1) by (unfold exchanging; by rewrite O4).
  assert (Hs1 : can_send s1).
  { unfold can_send, out_ok in *. rewrite O4, O6, O7, O8, O9, O10. exact Hs. }
  unfold read_point1. wp_step. eapply wp_mono; [apply fullpacket_delivers; [apply Hr1|done..|congruence|congruence|congruence]|].
  intros rc s2 Hd. wp_step; breflect.
  - wps; subst; (split; [by eapply same_conn_ok; [|apply Hd]|done]).
  - unfold set_packet. do 3 wp_step. split; [by eapply same_conn_ok; [|apply Hd]|]. intros _.
    destruct Hd as (D1 & D2 & D3 & D4 & D5 & D6 & D7 & [?|[D8 D9]]); [done|].
    destruct (first_exchange_next rounds s1 s2) as [H1 H2]; [done|done|change (rx_measure s0) with (rx_measure s) in *; lia|congruence| |done|done|].
    { split_and!; try done. by right. }
    split; [exact H1|]. rewrite H2. unfold to_come. change (rx_measure s0) with (rx_measure s) in *.
    change (tp_total_num (s_packet s0)) with (tp_total_num (s_packet s)) in *. destruct (Z.eqb_spec (tp_total_num (s_packet s)) 0) as [Hz|Hz]; [specialize (Hlt Hz)|]; lia.
Qed.

#[global] Instance transport_read_waits rounds : TransportRead (read rounds) (first_exchange rounds) to_come.
Proof.
  split.
  - intros s Hf. apply Hf.
  - intros s c [Hr Hs Hx Hm Hpa Hfp Hrp Hco]. split; [|done]. split; try done. by eapply (reading_keep s); try apply Hr.
  - apply transport_read_first.
Qed.
End Read.

(** C37: [_libssh2_packet_require] and [_libssh2_packet_requirev] keep their contract over
    the real [_libssh2_transport_read] while the first key exchange runs, whatever bytes the
    peer sends, cut in whatever pieces, and whatever the socket and the allocator return. With
    one round more than bytes are on the way (counted by [to_come]) they return. They return 0
    exactly when they hand over a payload, which then is live, is no longer in the queue, has
    a type asked for, and carries the bytes asked for at the given offset; every other outcome
    is a negative code. And they do return 0 when such a packet is in the queue, or arrives
    behind packets of other types. *)
Theorem packet_require_hands_over remote_crypt local_crypt remote_mac local_mac deflate inflate random kex_exchange addr_of
    `{!SendSuite local_crypt random} rounds fuel ty tys ofs buf start s
    (Hfirst : first_exchange rounds s) (Hofs : 0 <= ofs) (Hfuel : (to_come s < fuel)%nat) :
  let read := transport_read remote_crypt local_crypt remote_mac local_mac deflate inflate random kex_exchange addr_of rounds in
  (exists r s', packet_require read fuel ty ofs buf start s = Ret r s' /\ waited [ty] ofs buf r s' /\
     (start = 0 /\ found [ty] ofs buf s \/ arrives read (Z.eqb ty) [ty] ofs buf (waiting_from start s) -> r.1.1 = 0)) /\
  (exists r s', packet_requirev read fuel tys ofs buf start s = Ret r s' /\ waited tys ofs buf r s' /\
     (found tys ofs buf s \/ arrives read (types_mem tys) tys ofs buf (waiting_from start s) -> r.1.1 = 0)).
Proof.
  intros read. pose proof (transport_read_waits remote_crypt local_crypt remote_mac local_mac deflate inflate random kex_exchange addr_of rounds) as Ht.
  fold read in Ht. split.
  - destruct (wp_Ret _ _ _ (packet_require_ok read (first_exchange rounds) to_come fuel ty ofs buf start s Hfirst Hofs Hfuel)) as (r & s' & E & Hw).
    exists r, s'. split_and!; [done|done|]. intros Ha. by eapply (require_arrives read (first_exchange rounds) to_come).
  - destruct (wp_Ret _ _ _ (packet_requirev_ok read (first_exchange rounds) to_come fuel tys ofs buf start s Hfirst Hofs Hfuel)) as (r & s' & E & Hw).
    exists r, s'. split_and!; [done|done|]. intros Ha. by eapply (requirev_arrives read (first_exchange rounds) to_come).
Qed.

(** A session in its first exchange. The peer sends [SSH_MSG_IGNORE] and then
    [SSH_MSG_NEWKEYS], the first cut in two. *)
Definition exchange_session : session :=
  session_0 <| s_state := LIBSSH2_STATE_EXCHANGING_KEYS + LIBSSH2_STATE_KEX_ACTIVE |>
    <| s_recv := [RecvBytes [0; 0; 0; 12; 6; 2; 0; 0; 0]; RecvBytes ([0; 0; 0; 0; 0; 0; 0] ++ [0; 0; 0; 12; 10; 21] ++ replicate 10 0)] |>.

Lemma exchange_session_first : first_exchange 100 exchange_session.
Proof.
  split; try done; [split; [|done| |by left]|split; [by right|by repeat split]|vm_compute; lia].
  - split; try done; try (by constructor); intros p _; apply lookup_empty.
  - apply (bool_decide_unpack _). by vm_compute.
Qed.

Definition sample_read : CM Z := transport_read xor_crypt xor_crypt sum_mac sum_mac no_deflate zeros_inflate zero_random (ret 0) (fun _ _ => 0) 100.

Definition next_state (s : session) : session := match sample_read s with Ret _ s' => s' | _ => s end.

Lemma exchange_session_arrives :
  arrives sample_read (Z.eqb SSH_MSG_NEWKEYS) [SSH_MSG_NEWKEYS] 0 None (waiting_from 0 exchange_session).
Proof.
  apply (Arrives_later _ _ _ _ _ _ SSH_MSG_IGNORE (next_state exchange_session)); [done|by vm_compute|done|done|].
  apply (Arrives_now _ _ _ _ _ _ SSH_MSG_NEWKEYS (next_state (next_state exchange_session))); [by vm_compute..|].
  exists SSH_MSG_NEWKEYS, (mk_packet 2%positive 1 0). split_and!; [by left|by vm_compute; left|by vm_compute].
Qed.

Lemma packet_require_hands_over_witness :
  (exists r s', packet_require sample_read 80 SSH_MSG_NEWKEYS 0 None 0 exchange_session = Ret r s' /\
     waited [SSH_MSG_NEWKEYS] 0 None r s' /\ r.1.1 = 0) /\
  exists r s', packet_requirev sample_read 80 [SSH_MSG_NEWKEYS; SSH_MSG_DISCONNECT] 0 None 0 exchange_session = Ret r s' /\
     waited [SSH_MSG_NEWKEYS; SSH_MSG_DISCONNECT] 0 None r s'.
Proof.
  destruct (packet_require_hands_over xor_crypt xor_crypt sum_mac sum_mac no_deflate zeros_inflate zero_random (ret 0) (fun _ _ => 0)
    100 80 SSH_MSG_NEWKEYS [SSH_MSG_NEWKEYS; SSH_MSG_DISCONNECT] 0 None 0 exchange_session) as [(r & s' & E & Hw & Ha) (rv & sv & Ev & Hv & _)].
  - exact exchange_session_first.
  - lia.
  - vm_compute. lia.
  - split; [exists r, s'; split; [exact E|split; [exact Hw|apply Ha; right; exact exchange_session_arrives]]|].
    exists rv, sv. split; [exact Ev|exact Hv].
Defined.
