(* ===== verification/UserauthAuth.v ===== *)
(** * Who is authenticated (userauth.c)

    A client is authenticated only by a message [SSH_MSG_USERAUTH_SUCCESS]: as long as
    the server has sent none, no call of the user authentication interface, in whatever
    order the calls come and wherever they are interrupted, reports success or marks the
    session as authenticated. *)

From stdpp Require Import base numbers list gmap strings.
From S2P Require Import Prelude Codes CString KexMethods Wire Base64 Session ChannelWindow Packet Conn Comp PacketSafety PacketSpec PacketWait Numerals Ext Blocking Yields KexDh Userauth UserauthKbd UserauthPk.

(** ** No success so far *)

(** The session is not authenticated and no message of success waits in its queue. *)
Definition unauthenticated (st : Z) : Prop := Z.land st LIBSSH2_STATE_AUTHENTICATED = 0.
Abbreviation not_success := (is_not SSH_MSG_USERAUTH_SUCCESS).
Abbreviation no_success := (without SSH_MSG_USERAUTH_SUCCESS unauthenticated).

(** The transport layer of a server that sends no success. *)
Class NoSuccess (transport_send : list Z -> list Z -> CM Z) (transport_read : CM Z) : Prop := {
  ns_send : forall d d2, yields no_success anything (transport_send d d2);
  ns_read : yields no_success anything transport_read
}.
#[export] Hint Resolve ns_send ns_read : yields.

Section Auth.
Context (transport_send : list Z -> list Z -> CM Z) (transport_read : CM Z) (fuel : nat).
Context `{!NoSuccess transport_send transport_read}.

(** ** The session with a client's state *)

(** A reply that was handed over does not start with the code of success. *)
Definition reply_ok (r : reply) : Prop := forall d, r.1.2 = Some d -> not_success d.

Definition holds {X} (J : X -> Prop) (e : ext X) : Prop := no_success (x_session e) /\ J (x_data e).

Section Client.
Context {X : Type} (J : X -> Prop).

Lemma yields_xlift {A} (Q : A -> Prop) (m : CM A) : yields no_success Q m -> yields (holds J) Q (xlift m).
Proof.
  intros H [s x] a e. unfold xlift. simpl. destruct (m s) as [b s1| |] eqn:E; [|done..]. intros [= <- <-] [H1 H2].
  by destruct (H _ _ _ E H1).
Qed.
Lemma yields_xget {A} (f : X -> A) (Q : A -> Prop) : (forall x, J x -> Q (f x)) -> yields (holds J) Q (xget f).
Proof. intros H. apply yields_gets. intros s [_ Hs]. auto. Qed.
Lemma yields_xset f (Q : unit -> Prop) : (forall x, J x -> J (f x)) -> Q tt -> yields (holds J) Q (xset f).
Proof. intros H. apply yields_modify. intros s [? Hs]. split; simpl; auto. Qed.
Lemma yields_xerror code msg : yields (holds J) (fun rc => rc = code) (xerror code msg).
Proof. apply yields_xlift, yields_error. Qed.


Lemma yields_require_reply codes start : yields (holds J) reply_ok (require_reply transport_read fuel codes start).
Proof.
  intros [s x] r e (q & e1 & E1 & E2)%bind_Ret_inv [Hs Hx]. unfold xlift in E1. simpl in E1, Hs, Hx.
  destruct (packet_requirev _ _ _ _ _ _ s) as [q1 s1| |] eqn:E; [|done..]. injection E1 as -> <-.
  destruct (requirev_without _ _ _ _ _ _ _ _ ns_read _ _ _ E Hs) as [H1 H2]. destruct q as [[rc [[p len]|]] t]; simpl in *;
    [|injection E2 as <- <-; by split].
  apply bind_Ret_inv in E2 as (d & e2 & E2 & E3). unfold xlift, block, bind, gets in E2. simpl in E2.
  destruct (s_heap s1 !! p) as [d1|] eqn:Hd; [|done]. injection E2 as -> <-.
  apply bind_Ret_inv in E3 as (d2 & e2 & E2 & E3). destruct (bytes_at d 0 len) as [d3|] eqn:Hb; [|done].
  injection E2 as -> <-. apply bind_Ret_inv in E3 as ([] & e2 & E2 & [= <- <-]).
  destruct (yields_xlift anything _ (yields_free_block _ _ p) _ _ _ E2 (conj H1 Hx)) as [H3 _].
  split; [done|]. intros d3 [= <-]. eapply is_not_prefix; [exact Hb|]. by eapply H2.
Qed.

Lemma yields_build_packet size bytes :
  yields (holds J) (fun r => forall d, r = Some d -> d = bytes) (build_packet size bytes).
Proof. unfold build_packet. yields_step; [apply yields_xlift, yields_alloc_outcome|]. yields_all. naive_solver. Qed.

Lemma yields_first_byte d : (forall b, d = Some b -> not_success b) ->
  yields (holds J) (fun c => c <> SSH_MSG_USERAUTH_SUCCESS) (first_byte d).
Proof.
  intros H. unfold first_byte. eapply (yields_bind _ not_success); [by apply yields_access|].
  intros b Hb. apply yields_access. intros c Hc ->. by apply Hb.
Qed.
End Client.
#[local] Hint Resolve yields_xerror yields_require_reply yields_build_packet yields_first_byte : yields.
#[local] Hint Extern 1 (yields _ _ (xlift _)) => eapply yields_xlift; solve [eauto 2 with yields nocore] : yields.

(** *** Blocking *)

Lemma yields_wait_socket t : yields no_success anything (wait_socket transport_send t).
Proof. unfold wait_socket, keepalive_send, wait_limit, set_waiting. yields_all. Qed.

Section Block.
Context {X : Type} (J : X -> Prop).

Lemma yields_block_adjust x : yields (holds J) (fun rc => rc <> 0) x ->
  yields (holds J) (fun rc => rc <> 0) (block_adjust (fun _ => xlift) transport_send x fuel).
Proof.
  intros Hx. unfold block_adjust. yields_step. generalize fuel. intros n. induction n as [|n IH]; [done|].
  cbn [block_loop]. eapply yields_bind; [exact Hx|]. intros rc Hrc.
  eapply (yields_bind _ anything); [by apply yields_xlift, yields_gets|]. intros b _. yields_step; [by apply yields_ret|].
  eapply (yields_bind _ anything); [apply yields_xlift, yields_wait_socket|]. intros rc2 _.
  yields_step; [done|]. apply yields_ret. by apply Z.eqb_neq.
Qed.

Lemma yields_block_adjust_errno {A} (x : XM X (option A)) : yields (holds J) anything x ->
  yields (holds J) anything (block_adjust_errno (fun _ => xlift) transport_send x fuel).
Proof.
  intros Hx. unfold block_adjust_errno. yields_step. generalize fuel. intros n. induction n as [|n IH]; [done|].
  cbn [block_errno_loop]. eapply yields_bind; [exact Hx|]. intros rc Hrc.
  do 2 (eapply (yields_bind _ anything); [by apply yields_xlift, yields_gets|intros ? _]).
  yields_step; [by apply yields_ret|].
  eapply (yields_bind _ anything); [apply yields_xlift, yields_wait_socket|]. intros rc2 _.
  yields_step; [done|]. by apply yields_ret.
Qed.
End Block.

(** What is read from the state, and what is put there. *)
Definition data_ok (o : option (list Z)) : Prop := forall d, o = Some d -> not_success d.

Ltac ua_step :=
  cbn beta iota zeta;
  lazymatch goal with
  | |- yields _ _ (bind (xget ?f) _) =>
      first [ apply (yields_bind _ data_ok); [apply yields_xget; done|intros ? ?]
            | apply (yields_bind _ anything); [by apply yields_xget|intros ? _] ]
  | |- yields _ _ (bind (access ?o) _) => apply (yields_bind _ (fun a => o = Some a)); [by apply yields_access|intros ? ?]
  | |- yields _ _ (bind (A := option Z) _ _) => apply (yields_bind _ (fun r => r <> Some 0)); [|intros ? ?]
  | |- yields _ _ (bind (A := kybd_next) _ _) => apply (yields_bind _ (fun r => r <> KReturn 0)); [|intros ? ?]
  | |- yields _ _ (xset _) => apply yields_xset; [try done|done]
  | |- yields _ _ (bind (first_byte _) _) => eapply yields_bind; [by apply yields_first_byte|cbn beta; intros ? ?]
  | |- _ => yields_step
  end.
(** What remains: a value that is returned, and data that was built or received. *)
Ltac ua_close :=
  try done;
  lazymatch goal with
  | H : ?c <> ?k, E : (?c =? ?k) = true |- _ => by apply Z.eqb_eq in E
  | |- forall x, _ -> _ => intros x Hx d Hd; simpl in Hd; subst; try done; naive_solver
  | |- _ => naive_solver
  end.
Ltac ua_all := repeat ua_step; try ua_close.

Lemma not_success_head c d : c <> SSH_MSG_USERAUTH_SUCCESS -> not_success (c :: d).
Proof. by intros H [= E]. Qed.

(** ** Passwords *)

Definition pswd_ok (x : pswd_data) : Prop := data_ok (userauth_pswd_data x).
Abbreviation pswd_yields := (yields (holds pswd_ok)).
Abbreviation no_zero := (fun r : option Z => r <> Some 0).

Lemma yields_pswd_return code msg : code <> 0 -> pswd_yields no_zero (pswd_return code msg).
Proof. intros H. unfold pswd_return. ua_all. Qed.
#[local] Hint Extern 1 (yields _ _ (pswd_return _ _)) => apply yields_pswd_return; solve [done | breflect; done] : yields.

Lemma yields_pswd_request u pw : pswd_yields no_zero (pswd_request u pw).
Proof.
  unfold pswd_request, set_pswd_state. ua_all. intros x _ d ->%H. by apply (not_success_head SSH_MSG_USERAUTH_REQUEST).
Qed.

Lemma yields_pswd_sent_packet : pswd_yields anything pswd_sent_packet.
Proof. unfold pswd_sent_packet. ua_all. Qed.
#[local] Hint Resolve yields_pswd_request yields_pswd_sent_packet : yields.

Lemma yields_pswd_send pw : pswd_yields no_zero (pswd_send transport_send pw).
Proof. unfold pswd_send, set_pswd_state, pswd_free. ua_all. Qed.

Lemma yields_pswd_reply : pswd_yields no_zero (pswd_reply transport_read fuel).
Proof.
  unfold pswd_reply, set_pswd_state, pswd_free. ua_all.
Qed.

#[local] Hint Resolve yields_pswd_send yields_pswd_reply : yields.

Lemma yields_pswd_ask_new u pw answer : pswd_yields no_zero (pswd_ask_new u pw answer).
Proof.
  unfold pswd_ask_new, set_pswd_state. ua_all. intros x _ d ->%H. by apply (not_success_head SSH_MSG_USERAUTH_REQUEST).
Qed.

Lemma yields_pswd_send_new : pswd_yields no_zero (pswd_send_new transport_send).
Proof. unfold pswd_send_new, set_pswd_state, pswd_free. ua_all. Qed.

Lemma yields_pswd_failure : pswd_yields (fun rc => rc <> 0) pswd_failure.
Proof. unfold pswd_failure, set_pswd_state, pswd_free. ua_all. Qed.
#[local] Hint Resolve yields_pswd_ask_new yields_pswd_send_new yields_pswd_failure : yields.

Lemma yields_password_response cb u pw n :
  pswd_yields (fun rc => rc <> 0) (password_response transport_send transport_read fuel cb u pw n).
Proof.
  induction n as [|n IH]; cbn [password_response]; [done|]. unfold set_pswd_state, pswd_free, then_pswd.
  ua_all.
Qed.

Lemma yields_password cb u pw :
  pswd_yields (fun rc => rc <> 0) (userauth_password transport_send transport_read fuel cb u pw).
Proof. unfold userauth_password. pose proof yields_password_response. ua_all. Qed.

(** ** Keyboard-interactive *)

Definition kybd_ok (x : kybd_data) : Prop := data_ok (userauth_kybd_data x).
Abbreviation kybd_yields := (yields (holds kybd_ok)).
Abbreviation no_return_zero := (fun r : kybd_next => r <> KReturn 0).

Lemma store_responses_head c rs : forall out b, store_responses (c :: out) rs = Some b -> exists b', b = c :: b'.
Proof.
  induction rs as [|r rs IH]; intros out b; cbn [store_responses]; [intros [= <-]; eauto|].
  intros (t & _ & E)%bind_Some. change (store_str (c :: out) t) with (c :: store_str out t) in E. by eapply IH.
Qed.

Lemma yields_kbd_copy (buf : string_buf) : kybd_yields anything (kbd_copy buf).
Proof.
  unfold kbd_copy. ua_all. apply yields_xlift. intros st a s'.
  assert (Hr : Ret true st = Ret a s' -> no_success st -> no_success s' /\ anything a) by (by intros [= <- <-]).
  destruct (get_string buf None) as [[[[] [[]|]] ?]|]; try exact Hr. apply yields_alloc_outcome.
Qed.
Lemma yields_decode_failed code msg : kybd_yields anything (decode_failed code msg).
Proof. unfold decode_failed. ua_all. Qed.
#[local] Hint Resolve yields_kbd_copy yields_decode_failed : yields.

Lemma yields_decode_prompts n : forall i buf, kybd_yields anything (decode_prompts n i buf).
Proof. induction n as [|n IH]; intros i buf; cbn [decode_prompts]; ua_all. Qed.
#[local] Hint Resolve yields_decode_prompts : yields.

Lemma yields_decode_info_request : kybd_yields anything decode_info_request.
Proof. unfold decode_info_request, decode_num_prompts. ua_all. Qed.
#[local] Hint Resolve yields_decode_info_request : yields.

Lemma yields_kybd_return code msg : code <> 0 -> kybd_yields no_zero (kybd_return code msg).
Proof. intros H. unfold kybd_return. ua_all. Qed.
#[local] Hint Extern 1 (yields _ _ (kybd_return _ _)) => apply yields_kybd_return; solve [done | breflect; done] : yields.

Lemma yields_kybd_request u : kybd_yields no_zero (kybd_request u).
Proof.
  unfold kybd_request, set_kybd_state. ua_all. intros x _ d ->%H. by apply (not_success_head SSH_MSG_USERAUTH_REQUEST).
Qed.
Lemma yields_kybd_sent_packet : kybd_yields anything kybd_sent_packet.
Proof. unfold kybd_sent_packet. ua_all. Qed.
#[local] Hint Resolve yields_kybd_request yields_kybd_sent_packet : yields.

Lemma yields_kybd_send : kybd_yields no_zero (kybd_send transport_send).
Proof. unfold kybd_send, kybd_free, set_kybd_state. ua_all. Qed.

Lemma yields_kybd_answer cb : kybd_yields no_return_zero (kybd_answer cb).
Proof.
  unfold kybd_answer, kybd_cleanup, set_kybd_state. ua_all. intros x _ d ->%H0.
  apply store_responses_head in H as [b ->]. by apply not_success_head.
Qed.

Lemma yields_kybd_out code msg : code <> 0 -> kybd_yields no_return_zero (kybd_out code msg).
Proof. intros H. unfold kybd_out. ua_all. Qed.
#[local] Hint Extern 1 (yields _ _ (kybd_out _ _)) => apply yields_kybd_out; done : yields.
#[local] Hint Resolve yields_kybd_send yields_kybd_answer : yields.

Lemma yields_kybd_reply cb : kybd_yields no_return_zero (kybd_reply transport_read fuel cb).
Proof. unfold kybd_reply, kybd_free, set_kybd_state. ua_all. Qed.
Lemma yields_kybd_send_answer : kybd_yields no_return_zero (kybd_send_answer transport_send).
Proof. unfold kybd_send_answer, kybd_cleanup. ua_all. Qed.
#[local] Hint Resolve yields_kybd_reply yields_kybd_send_answer : yields.

Lemma yields_kybd_loop cb n : kybd_yields (fun rc => rc <> 0) (kybd_loop transport_send transport_read fuel cb n).
Proof. induction n as [|n IH]; cbn [kybd_loop]; [done|]. unfold kybd_release, set_kybd_state. ua_all. Qed.
#[local] Hint Resolve yields_kybd_loop : yields.

Lemma yields_keyboard_interactive cb u :
  kybd_yields (fun rc => rc <> 0) (userauth_keyboard_interactive transport_send transport_read fuel cb u).
Proof. unfold userauth_keyboard_interactive. ua_all. Qed.

(** ** Host based *)

Definition host_ok (x : host_data) : Prop := data_ok (userauth_host_data x).
Abbreviation host_yields := (yields (holds host_ok)).

(** A key that cannot be read gives a return value other than 0. *)
Definition fails_ok {B} (r : Z + B) : Prop := match r with inl rc => rc <> 0 | inr _ => True end.

Section ReadKey.
Context {X : Type} (J : X -> Prop).
Lemma yields_key_failed code msg : code <> 0 -> yields (holds J) fails_ok (key_failed code msg).
Proof. intros H. unfold key_failed. ua_all. Qed.
#[local] Hint Extern 1 (yields _ _ (key_failed _ _)) => apply yields_key_failed; done : yields.
Lemma yields_parse_publickey k : yields (holds J) fails_ok (parse_publickey k).
Proof. unfold parse_publickey. ua_all. Qed.
#[local] Hint Resolve yields_parse_publickey : yields.
Lemma yields_memory_read_publickey k : yields (holds J) fails_ok (memory_read_publickey k).
Proof. unfold memory_read_publickey. ua_all. Qed.
Lemma yields_file_read_publickey k : yields (holds J) fails_ok (file_read_publickey k).
Proof. unfold file_read_publickey. ua_all. Qed.
Lemma yields_session_id_bytes : yields (holds J) anything session_id_bytes.
Proof. unfold session_id_bytes, opt_bytes. ua_all; apply yields_xlift; ua_all. Qed.
Lemma yields_alloc_packet size text : yields (holds J) anything (alloc_packet size text).
Proof. unfold alloc_packet. ua_all. Qed.
Lemma yields_grow_packet b size n m : yields (holds J) anything (grow_packet b size n m).
Proof. unfold grow_packet. ua_all. Qed.
Lemma yields_read_privatekey ms init un m len :
  yields (holds J) fails_ok (read_privatekey ms init un m len).
Proof. unfold read_privatekey. ua_all. Qed.
End ReadKey.
#[local] Hint Resolve yields_memory_read_publickey yields_file_read_publickey yields_session_id_bytes
  yields_alloc_packet yields_grow_packet yields_read_privatekey : yields.

Section Host.
Context (methods : list LIBSSH2_HOSTKEY_METHOD) (init_pem : LIBSSH2_HOSTKEY_METHOD -> option (option (list Z))).
Context (signv : LIBSSH2_HOSTKEY_METHOD -> list Z -> list Z -> option (list Z)).
Context (pub_priv : XM host_data key_result) (Hpub : host_yields fails_ok pub_priv).
Context (publickey : option (option (list Z))) (username hostname local_username : list Z).

Lemma yields_host_return code msg : code <> 0 -> host_yields no_zero (host_return code msg).
Proof. intros H. unfold host_return. ua_all. Qed.
#[local] Hint Extern 1 (yields _ _ (host_return _ _)) => apply yields_host_return; solve [done | breflect; done] : yields.

Lemma yields_host_read_key : host_yields fails_ok (host_read_key pub_priv publickey).
Proof. unfold host_read_key. ua_all. Qed.
Lemma yields_host_request m len k : host_yields no_zero (host_request username hostname local_username m len k).
Proof. unfold host_request, host_free_method. ua_all. Qed.
Lemma yields_host_sign :
  host_yields fails_ok (host_sign methods init_pem signv).
Proof. unfold host_sign, host_free_method, host_free_packet. ua_all. Qed.
Lemma yields_host_append n sig : host_yields no_zero (host_append n sig).
Proof. unfold host_append, host_free_method, host_free_packet, set_host_state. ua_all. Qed.
#[local] Hint Resolve yields_host_read_key yields_host_request yields_host_sign yields_host_append : yields.

Lemma yields_host_start :
  host_yields no_zero (host_start methods init_pem signv pub_priv publickey username hostname local_username).
Proof. unfold host_start, then_host. ua_all. Qed.
Lemma yields_host_send : host_yields no_zero (host_send transport_send).
Proof. unfold host_send, host_free_packet, set_host_state. ua_all. Qed.
Lemma yields_host_reply : host_yields no_zero (host_reply transport_read fuel).
Proof. unfold host_reply, host_free_data, set_host_state. ua_all. Qed.
#[local] Hint Resolve yields_host_start yields_host_send yields_host_reply : yields.

Lemma yields_hostbased : host_yields (fun rc => rc <> 0)
  (userauth_hostbased_fromfile transport_send transport_read fuel methods init_pem signv pub_priv publickey
     username hostname local_username).
Proof. unfold userauth_hostbased_fromfile, then_host, host_free_data. ua_all. Qed.
End Host.

(** ** Public keys *)

Definition pblc_ok (x : pblc_data) : Prop := data_ok (userauth_pblc_data x).
Abbreviation pblc_yields := (yields (holds pblc_ok)).

Section Pblc.
Context (supported : list Z -> option (list Z)).

Lemma yields_pblc_return code msg : code <> 0 -> pblc_yields no_zero (pblc_return code msg).
Proof. intros H. unfold pblc_return. ua_all. Qed.
#[local] Hint Extern 1 (yields _ _ (pblc_return _ _)) => apply yields_pblc_return; solve [done | breflect; done] : yields.

Lemma yields_pblc_reset : pblc_yields anything pblc_reset.
Proof. unfold pblc_reset, pblc_free_packet, pblc_free_method, set_pblc_state. ua_all. Qed.
Lemma yields_set_pblc_method m len : pblc_yields anything (set_pblc_method m len).
Proof. unfold set_pblc_method. ua_all. Qed.
Lemma yields_pblc_free_data : pblc_yields anything pblc_free_data.
Proof. unfold pblc_free_data. ua_all. Qed.
Lemma yields_set_pblc_state st : pblc_yields anything (set_pblc_state st).
Proof. unfold set_pblc_state. ua_all. Qed.
Lemma yields_pblc_free_packet : pblc_yields anything pblc_free_packet.
Proof. unfold pblc_free_packet. ua_all. Qed.
#[local] Hint Resolve yields_pblc_reset yields_set_pblc_method yields_pblc_free_data yields_set_pblc_state
  yields_pblc_free_packet : yields.

Lemma yields_pblc_method_name k : pblc_yields no_zero (pblc_method_name k).
Proof. unfold pblc_method_name. ua_all. Qed.
Lemma yields_pblc_algorithm : pblc_yields no_zero (pblc_algorithm supported).
Proof. unfold pblc_algorithm, key_sign_algorithm. ua_all. intros Hz. destruct (Z.eqb_spec z0 0); naive_solver. Qed.
Lemma yields_pblc_request u k : pblc_yields no_zero (pblc_request u k).
Proof. unfold pblc_request, pblc_free_method. ua_all. Qed.
#[local] Hint Resolve yields_pblc_method_name yields_pblc_algorithm yields_pblc_request : yields.
Lemma yields_pblc_start u k first : pblc_yields no_zero (pblc_start supported u k first).
Proof. unfold pblc_start, then_pblc. ua_all. Qed.
Lemma yields_pblc_send : pblc_yields no_zero (pblc_send transport_send).
Proof. unfold pblc_send. ua_all. Qed.
Lemma yields_pblc_wait codes : pblc_yields anything (pblc_wait transport_read fuel codes).
Proof. unfold pblc_wait. ua_all. Qed.
#[local] Hint Resolve yields_pblc_wait yields_pblc_start yields_pblc_send : yields.
Lemma yields_pblc_reply : pblc_yields no_zero (pblc_reply transport_read fuel).
Proof. unfold pblc_reply. ua_all. Qed.
Lemma yields_pblc_append k sig : pblc_yields no_zero (pblc_append k sig).
Proof. unfold pblc_append. ua_all. Qed.
Lemma yields_pblc_send_signed : pblc_yields no_zero (pblc_send_signed transport_send).
Proof. unfold pblc_send_signed. ua_all. Qed.
Lemma yields_pblc_result : pblc_yields no_zero (pblc_result transport_read fuel).
Proof. unfold pblc_result. ua_all. Qed.
#[local] Hint Resolve yields_pblc_reply yields_pblc_append yields_pblc_send_signed yields_pblc_result : yields.

Section Sign.
Context (sign : list Z -> XM pblc_data (Z * list Z)) (Hsign : forall d, pblc_yields anything (sign d)).

Lemma yields_pblc_sign k first retry : pblc_yields no_zero retry -> pblc_yields no_zero (pblc_sign k sign first retry).
Proof. intros H. unfold pblc_sign. ua_all. Qed.
#[local] Hint Resolve yields_pblc_sign : yields.

Lemma yields_pblc_attempt u k first retry : pblc_yields no_zero retry ->
  pblc_yields no_zero (pblc_attempt transport_send transport_read fuel supported u k sign first retry).
Proof. intros H. unfold pblc_attempt, then_pblc. ua_all. Qed.

Lemma yields_publickey u k :
  pblc_yields (fun rc => rc <> 0) (userauth_publickey transport_send transport_read fuel supported u k sign).
Proof.
  unfold userauth_publickey. ua_step; [|ua_all]. do 2 apply yields_pblc_attempt. by apply yields_ret.
Qed.
End Sign.

Section Keys.
Context (methods : list LIBSSH2_HOSTKEY_METHOD) (init_pem : LIBSSH2_HOSTKEY_METHOD -> option (option (list Z))).
Context (signv : LIBSSH2_HOSTKEY_METHOD -> list Z -> list Z -> option (list Z)).

Lemma yields_sign_with un d : pblc_yields anything (sign_with methods init_pem signv un d).
Proof. unfold sign_with, sign_privatekey. ua_all. Qed.
Lemma yields_with_key read k : pblc_yields fails_ok read -> (forall d, pblc_yields (fun rc => rc <> 0) (k d)) ->
  pblc_yields (fun rc => rc <> 0) (with_key read k).
Proof. intros Hr Hk. unfold with_key. ua_all. Qed.
#[local] Hint Resolve yields_sign_with yields_publickey yields_key_failed : yields.

Lemma yields_publickey_frommemory pub_priv u pub priv : pblc_yields fails_ok pub_priv ->
  pblc_yields (fun rc => rc <> 0)
    (userauth_publickey_frommemory transport_send transport_read fuel supported methods init_pem signv pub_priv u pub priv).
Proof.
  intros H. apply yields_with_key; [|intros d; apply yields_publickey; intros d'; apply yields_sign_with]. ua_all. by apply yields_key_failed.
Qed.
Lemma yields_publickey_fromfile pub_priv u file : pblc_yields fails_ok pub_priv ->
  pblc_yields (fun rc => rc <> 0)
    (userauth_publickey_fromfile transport_send transport_read fuel supported methods init_pem signv pub_priv u file).
Proof. intros H. apply yields_with_key; [|intros d; apply yields_publickey; intros d'; apply yields_sign_with]. ua_all. Qed.

Lemma yields_sign_sk n cb d : pblc_yields anything (libssh2_sign_sk n cb d).
Proof. unfold libssh2_sign_sk. ua_all. Qed.

Lemma yields_until_done n m : pblc_yields (fun rc => rc <> 0) m -> pblc_yields (fun rc => rc <> 0) (until_done n m).
Proof. intros H. induction n as [|n IH]; cbn [until_done]; [done|]. eapply yields_bind; [exact H|]. intros rc Hrc. ua_all. Qed.

Lemma yields_publickey_sk key u priv cb : pblc_yields (fun rc => rc <> 0)
  (libssh2_userauth_publickey_sk transport_send transport_read fuel supported key u priv cb).
Proof.
  unfold libssh2_userauth_publickey_sk. ua_all. apply yields_until_done, yields_publickey. intros d. apply yields_sign_sk.
Qed.
End Keys.
End Pblc.

(** ** The methods that can continue *)

(** The block with the names starts with a name: while it is not asked again, what it
    holds is the caller's. *)
Definition list_open (x : list_data) : Prop := data_ok (userauth_list_data x).
Definition list_ok (x : list_data) : Prop := userauth_list_state x = libssh2_NB_state_idle \/ list_open x.

Definition leads {S A} (I I' : S -> Prop) (m : M S A) : Prop := forall s a s', m s = Ret a s' -> I s -> I' s'.

Lemma leads_bind {S A C} (I I' : S -> Prop) P (m : M S A) (k : A -> M S C) :
  yields I P m -> (forall a, P a -> leads I I' (k a)) -> leads I I' (bind m k).
Proof.
  intros Hm Hk s b s' (a & s1 & E1 & E2)%bind_Ret_inv Hs. destruct (Hm _ _ _ E1 Hs) as [H1 Pa]. by eapply Hk.
Qed.
Lemma leads_yields {S A} (I I' : S -> Prop) (m : M S A) : yields I anything m -> (forall s, I s -> I' s) -> leads I I' m.
Proof. intros Hm H s a s' E Hs. apply H. by apply (Hm _ _ _ E). Qed.

Abbreviation list_yields := (yields (holds list_open) anything).
Abbreviation list_leads := (leads (holds list_open) (holds list_ok)).

Lemma holds_list_ok e : holds list_open e -> holds list_ok e.
Proof. intros [H1 H2]. split; [done|by right]. Qed.

Lemma yields_list_request u : list_yields (list_request u).
Proof.
  unfold list_request. ua_all. intros x _ d ->%H. by apply (not_success_head SSH_MSG_USERAUTH_REQUEST).
Qed.
Lemma yields_list_send : list_yields (list_send transport_send).
Proof. unfold list_send, list_free, list_idle. ua_all. Qed.
Lemma yields_list_reply codes : list_yields (list_reply transport_read fuel codes).
Proof. unfold list_reply, list_idle. ua_all. Qed.
#[local] Hint Resolve yields_list_request yields_list_send yields_list_reply : yields.
Lemma yields_list_banner : list_yields (list_banner transport_read fuel).
Proof. unfold list_banner, list_free. ua_all. Qed.
#[local] Hint Resolve yields_list_banner : yields.

Lemma leads_list_methods : list_leads list_methods.
Proof.
  unfold list_methods. eapply (leads_bind _ _ data_ok); [by apply yields_xget|]. intros p Hp.
  eapply leads_bind; [by apply yields_first_byte|]. cbn beta. intros c Hc. rewrite (proj2 (Z.eqb_neq _ _) Hc).
  eapply leads_bind; [by apply (yields_access _ _ anything)|]. intros d _.
  eapply leads_bind; [by apply (yields_xget _ _ anything)|]. intros len _. unfold list_fail, list_free, list_idle.
  destruct (len <? 5); [apply leads_yields; [ua_all|apply holds_list_ok]|].
  eapply leads_bind; [by apply (yields_access _ _ anything)|]. intros n _.
  destruct (_ <=? _); [apply leads_yields; [ua_all|apply holds_list_ok]|].
  eapply leads_bind; [by apply (yields_access _ _ anything)|]. intros text _.
  intros [st x] a e [= <- <-] [H1 H2]. split; [done|by left].
Qed.

Lemma leads_then_list m k : list_yields m -> list_leads k -> list_leads (then_list m k).
Proof.
  intros Hm Hk. eapply leads_bind; [exact Hm|]. intros [|] _; [done|].
  apply leads_yields; [by apply yields_ret|apply holds_list_ok].
Qed.

(** After the request is built. *)
Lemma leads_list_rest :
  list_leads (let! st := xget userauth_list_state in
    then_list (if nb_is st libssh2_NB_state_created then list_send transport_send else ret (Some tt)) (
    let! st := xget userauth_list_state in
    if nb_is st libssh2_NB_state_sent then
      then_list (list_reply transport_read fuel
                   [SSH_MSG_USERAUTH_SUCCESS; SSH_MSG_USERAUTH_FAILURE; SSH_MSG_USERAUTH_BANNER]) (
      let! p := xget userauth_list_data in
      let! c := first_byte p in
      then_list (if c =? SSH_MSG_USERAUTH_BANNER then list_banner transport_read fuel else ret (Some tt)) list_methods)
    else list_idle ;; xget userauth_list_data)).
Proof.
  eapply leads_bind; [by apply (yields_xget _ _ anything)|]. intros st _. apply leads_then_list; [ua_all|].
  eapply leads_bind; [by apply (yields_xget _ _ anything)|]. intros st' _. destruct (nb_is _ _).
  - apply leads_then_list; [ua_all|]. eapply (leads_bind _ _ data_ok); [by apply yields_xget|]. intros p Hp.
    eapply leads_bind; [by apply yields_first_byte|]. intros c _. apply leads_then_list; [ua_all|apply leads_list_methods].
  - unfold list_idle. apply leads_yields; [ua_all|apply holds_list_ok]. by apply yields_xget.
Qed.

Lemma yields_list u : yields (holds list_ok) anything (userauth_list transport_send transport_read fuel u).
Proof.
  intros [st x] a e (q & e1 & [= <- <-] & E)%bind_Ret_inv [H1 H2]. split; [|done]. simpl in *.
  destruct (nb_is _ _) eqn:Ei.
  - apply bind_Ret_inv in E as (r & e1 & E1 & E2).
    assert (Hd : list_request u (mk_ext st (x <| userauth_list_data := None |>)) = Ret r e1).
    { rewrite <- E1. unfold list_request, build_packet, bind, xlift, alloc_outcome. simpl. by destruct (s_alloc st) as [|[] ?]; simpl; repeat split_if. }
    destruct (yields_list_request u _ _ _ Hd) as [He _]; [by split|].
    destruct r; [by eapply leads_list_rest|]. injection E2 as <- <-. by apply holds_list_ok.
  - destruct H2 as [H2|H2]; [by rewrite H2 in Ei|].
    apply bind_Ret_inv in E as (r & e1 & [= <- <-] & E2). by eapply leads_list_rest.
Qed.
End Auth.

(** ** The interface *)

(** The fields of the session that the methods use, one record each. *)
Record userauth_data := mk_userauth_data {
  ua_list : list_data;
  ua_pswd : pswd_data;
  ua_kybd : kybd_data;
  ua_host : host_data;
  ua_pblc : pblc_data
}.
#[global] Instance eta_userauth_data : Eta userauth_data := fun d =>
  mk_userauth_data (ua_list d) (ua_pswd d) (ua_kybd d) (ua_host d) (ua_pblc d).
Definition userauth_data_0 : userauth_data :=
  mk_userauth_data list_data_0 pswd_data_0 kybd_data_0 host_data_0 pblc_data_0.

(** A call that uses one part of a client's state. *)
Definition on_part {X Y A} (get : X -> Y) (put : Y -> X -> X) (m : XM Y A) : XM X A := fun e =>
  match m (mk_ext (x_session e) (get (x_data e))) with
  | Ret a e' => Ret a (mk_ext (x_session e') (put (x_data e') (x_data e)))
  | Fault => Fault
  | OutOfFuel => OutOfFuel
  end.

Lemma yields_on_part {X Y A} (J : X -> Prop) (K : Y -> Prop) get put (Q : A -> Prop) (m : XM Y A) :
  (forall x, J x -> K (get x)) -> (forall x y, J x -> K y -> J (put y x)) ->
  yields (holds K) Q m -> yields (holds J) Q (on_part get put m).
Proof.
  intros Hg Hp Hm [s x] a e. unfold on_part. simpl. destruct (m _) as [b [s1 y]| |] eqn:E; [|done..].
  intros [= <- <-] [H1 H2]. destruct (Hm _ _ _ E) as [[H3 H4] HQ]; [split; simpl; auto|].
  split; [split; simpl in *; auto|done].
Qed.

(** What a key file's backend gives: the key, or an error it has reported. *)
Definition backend_key : Type := Z * string + list Z * Z * list Z.
Definition run_backend {X} (k : backend_key) : XM X key_result :=
  match k with
  | inl (code, msg) => let! rc := xerror code msg in ret (inl rc)
  | inr r => ret (inr r)
  end.

(** The calls, with the answers of the application and of the crypto backend. *)
Inductive userauth_call :=
  | UaList (username : list Z)
  | UaPassword (username password : list Z) (passwd_change_cb : option (option (list Z)))
  | UaKeyboard (username : list Z) (response_callback : cbuf -> cbuf -> list kbdint_prompt -> list kbdint_response)
  | UaHostbased (methods : list LIBSSH2_HOSTKEY_METHOD) (init_pem : LIBSSH2_HOSTKEY_METHOD -> option (option (list Z)))
      (signv : LIBSSH2_HOSTKEY_METHOD -> list Z -> list Z -> option (list Z)) (pub_priv : backend_key)
      (publickey : option (option (list Z))) (username hostname local_username : list Z)
  | UaMemory (supported : list Z -> option (list Z)) (methods : list LIBSSH2_HOSTKEY_METHOD)
      (init_pem : LIBSSH2_HOSTKEY_METHOD -> option (option (list Z)))
      (signv : LIBSSH2_HOSTKEY_METHOD -> list Z -> list Z -> option (list Z)) (pub_priv : backend_key)
      (username publickeydata privatekeydata : list Z)
  | UaFile (supported : list Z -> option (list Z)) (methods : list LIBSSH2_HOSTKEY_METHOD)
      (init_pem : LIBSSH2_HOSTKEY_METHOD -> option (option (list Z)))
      (signv : LIBSSH2_HOSTKEY_METHOD -> list Z -> list Z -> option (list Z)) (pub_priv : backend_key)
      (username : list Z) (publickey : option (option (list Z)))
  | UaCallback (supported : list Z -> option (list Z)) (username pubkeydata : list Z)
      (sign_callback : list Z -> Z * list Z)
  | UaSk (supported : list Z -> option (list Z)) (key : option (list Z * Z * list Z * Z))
      (username privatekeydata : list Z) (sign_callback : list Z -> Z * sk_sig_info).

(** A backend that fails says so. *)
Definition call_ok (c : userauth_call) : Prop :=
  match c with
  | UaHostbased _ _ _ k _ _ _ _ | UaMemory _ _ _ _ k _ _ _ | UaFile _ _ _ _ k _ _ =>
      match k with inl (code, _) => code <> 0 | inr _ => True end
  | _ => True
  end.

(** What a call returns: a code, or the list of methods. *)
Inductive userauth_result := Code (rc : Z) | Methods (l : option (list Z)).

Section Calls.
Context (transport_send : list Z -> list Z -> CM Z) (transport_read : CM Z) (fuel : nat).

Definition userauth_run (c : userauth_call) : XM userauth_data userauth_result :=
  let code {Y} get put (m : XM Y Z) : XM userauth_data userauth_result :=
    let! rc := on_part get put m in ret (Code rc) in
  let on_pblc := code (Y := pblc_data) ua_pblc (fun y x => x <| ua_pblc := y |>) in
  match c with
  | UaList u =>
      let! l := on_part ua_list (fun y x => x <| ua_list := y |>)
                  (libssh2_userauth_list transport_send transport_read fuel u) in ret (Methods l)
  | UaPassword u p cb =>
      code ua_pswd (fun y x => x <| ua_pswd := y |>) (libssh2_userauth_password_ex transport_send transport_read fuel cb u p)
  | UaKeyboard u cb =>
      code ua_kybd (fun y x => x <| ua_kybd := y |>)
        (libssh2_userauth_keyboard_interactive_ex transport_send transport_read fuel cb u)
  | UaHostbased ms init signv k pub u h l =>
      code ua_host (fun y x => x <| ua_host := y |>)
        (libssh2_userauth_hostbased_fromfile_ex transport_send transport_read fuel ms init signv (run_backend k) pub u h l)
  | UaMemory sup ms init signv k u pub priv =>
      on_pblc (libssh2_userauth_publickey_frommemory transport_send transport_read fuel sup ms init signv (run_backend k) u pub priv)
  | UaFile sup ms init signv k u pub =>
      on_pblc (libssh2_userauth_publickey_fromfile_ex transport_send transport_read fuel sup ms init signv (run_backend k) u pub)
  | UaCallback sup u k cb =>
      on_pblc (libssh2_userauth_publickey transport_send transport_read fuel sup u k (fun d => ret (cb d)))
  | UaSk sup key u priv cb =>
      on_pblc (libssh2_userauth_publickey_sk transport_send transport_read fuel sup key u priv cb)
  end.

Fixpoint userauth_calls (cs : list userauth_call) : XM userauth_data (list userauth_result) :=
  match cs with
  | [] => ret []
  | c :: cs => let! r := userauth_run c in let! rs := userauth_calls cs in ret (r :: rs)
  end.

Context `{!NoSuccess transport_send transport_read}.

Definition userauth_ok (x : userauth_data) : Prop :=
  list_ok (ua_list x) /\ pswd_ok (ua_pswd x) /\ kybd_ok (ua_kybd x) /\ host_ok (ua_host x) /\ pblc_ok (ua_pblc x).

Lemma yields_run_backend {X} (J : X -> Prop) k : match k with inl (code, _) => code <> 0 | inr _ => True end ->
  yields (holds J) fails_ok (run_backend k).
Proof.
  destruct k as [[code msg]|r]; intros H; [|by apply yields_ret].
  eapply yields_bind; [apply yields_xerror|]. cbn beta. intros rc ->. by apply yields_ret.
Qed.

Lemma yields_userauth_run c : call_ok c -> yields (holds userauth_ok) (fun r => r <> Code 0) (userauth_run c).
Proof.
  intros Hc.
  assert (Hcode : forall Y (K : Y -> Prop) get put (m : XM Y Z),
    (forall x, userauth_ok x -> K (get x)) -> (forall x y, userauth_ok x -> K y -> userauth_ok (put y x)) ->
    yields (holds K) (fun rc => rc <> 0) m ->
    yields (holds userauth_ok) (fun r => r <> Code 0) (let! rc := on_part get put m in ret (Code rc))).
  { intros Y K get put m Hg Hp Hm. eapply yields_bind; [by eapply yields_on_part|]. cbn beta. intros rc Hrc.
    apply yields_ret. naive_solver. }
  destruct c; cbn [userauth_run];
    [|eapply (Hcode _ pswd_ok)|eapply (Hcode _ kybd_ok)|eapply (Hcode _ host_ok)|eapply (Hcode _ pblc_ok)..];
    try solve [unfold userauth_ok; simpl; intuition].
  - eapply (yields_bind _ anything); [|intros; by apply yields_ret].
    eapply (yields_on_part _ list_ok); [unfold userauth_ok; simpl; intuition..|].
    eapply (yields_block_adjust_errno transport_send transport_read); [done|]. by apply yields_list.
  - eapply (yields_block_adjust transport_send transport_read); [done|]. by apply yields_password.
  - eapply (yields_block_adjust transport_send transport_read); [done|]. by apply yields_keyboard_interactive.
  - eapply (yields_block_adjust transport_send transport_read); [done|]. apply yields_hostbased; [done|]. by apply yields_run_backend.
  - eapply (yields_block_adjust transport_send transport_read); [done|]. apply yields_publickey_frommemory; [done|]. by apply yields_run_backend.
  - eapply (yields_block_adjust transport_send transport_read); [done|]. apply yields_publickey_fromfile; [done|]. by apply yields_run_backend.
  - eapply (yields_block_adjust transport_send transport_read); [done|]. apply yields_publickey; [done|]. intros d. by apply yields_ret.
  - by apply yields_publickey_sk.
Qed.

(** C4: no authentication without the server's word. As long as the transport layer
    delivers no [SSH_MSG_USERAUTH_SUCCESS], no sequence of calls of the user
    authentication interface, with whatever callbacks, keys, allocation failures and
    interruptions, gets the return value 0 or leaves the session marked as
    authenticated. *)
Theorem userauth_needs_success cs e rs e'
    (Hcalls : Forall call_ok cs)
    (Hsession : no_success (x_session e))
    (Hdata : userauth_ok (x_data e))
    (Hrun : userauth_calls cs e = Ret rs e') :
  Forall (fun r => r <> Code 0) rs /\
  libssh2_userauth_authenticated (x_session e') = Ret 0 (x_session e').
Proof.
  assert (Hy : yields (holds userauth_ok) (Forall (fun r => r <> Code 0)) (userauth_calls cs)).
  { clear Hrun. induction Hcalls as [|c cs Hc Hcs IH]; cbn [userauth_calls]; [by apply yields_ret|].
    eapply yields_bind; [by apply yields_userauth_run|]. intros r Hr. eapply yields_bind; [exact IH|]. intros l Hl.
    apply yields_ret. by constructor. }
  destruct (Hy _ _ _ Hrun (conj Hsession Hdata)) as [[[Ha _] _] Hr]. split; [done|].
  unfold libssh2_userauth_authenticated, bind, gets. by rewrite Ha.
Qed.
End Calls.

(** A server that refuses whatever it is asked. *)
Definition refusal : CM Z :=
  let! p := gets s_next_ptr in
  modify (fun s => s <| s_heap ::= <[p := [SSH_MSG_USERAUTH_FAILURE; 0; 0; 0; 4; 110; 111; 110; 101; 0]]> |>
                     <| s_next_ptr := Pos.succ p |>
                     <| packets ::= fun ps => ps ++ [mk_packet p 10 0] |>) ;;
  ret SSH_MSG_USERAUTH_FAILURE.

#[global] Instance refusing : NoSuccess (fun _ _ => ret 0) refusal.
Proof.
  split; [intros d d2; by apply yields_ret|]. unfold refusal. yields_all. intros s [H1 H2]. split; [done|]. intros p d. simpl. intros Hp Hd.
  destruct (decide (a = pk_data p)) as [->|Hne].
  - rewrite lookup_insert_eq in Hd. by injection Hd as <-.
  - rewrite lookup_insert_ne in Hd by done. apply elem_of_app in Hp as [Hp|Hp%list_elem_of_singleton]; [by eapply H2|].
    by subst p.
Qed.

Definition refused_calls : list userauth_call :=
  [UaList (str "u"); UaPassword (str "u") (str "secret") None; UaKeyboard (str "u") (fun _ _ _ => []);
   UaCallback (fun _ => None) (str "u") (store_str (store_str [] (str "ssh-rsa")) (str "key")) (fun _ => (0, str "sig"))].

Lemma userauth_needs_success_witness :
  let e := mk_ext session_0 userauth_data_0 in
  exists rs e', userauth_calls (fun _ _ => ret 0) refusal 3 refused_calls e = Ret rs e' /\ length rs = 4%nat /\
    Forall (fun r => r <> Code 0) rs /\
    libssh2_userauth_authenticated (x_session e') = Ret 0 (x_session e').
Proof.
  intros e. eexists _, _. split; [vm_compute; reflexivity|]. split; [done|].
  eapply (userauth_needs_success (fun _ _ => ret 0) refusal 3 refused_calls e); [by repeat constructor|split; [done|]| |].
  - intros p d Hp. by apply elem_of_nil in Hp.
  - split_and!; [by left|done..].
  - vm_compute. reflexivity.
Defined.
