(* ===== verification/UserauthAlg.v ===== *)
(** * The signature algorithm of a key (userauth.c, RFC 8332)

    [_libssh2_key_sign_algorithm] writes the algorithms that the server's
    server-sig-algs extension and the crypto backend share into a block sized for the
    backend's list, and looks the preferences up in it. For a server that names each
    algorithm once the block is large enough and the choice is the first preference that
    both sides support; a server that repeats a name overflows the block. *)

From stdpp Require Import base numbers list gmap strings.
From S2P Require Import Prelude Codes CString KexMethods Wire Base64 Session ChannelWindow Packet Conn Comp PacketSafety PacketSpec PacketWait Numerals Ext Blocking KexDh Userauth UserauthKbd UserauthPk.

(** The first preference that both sides support. *)
Definition best_algorithm (prefs server supported : list (list Z)) : option (list Z) :=
  List.find (fun a => bool_decide (a ∈ server) && bool_decide (a ∈ supported)) prefs.

(** ** The room that names take *)

(** Every name with its separator. *)
Definition room (names : list (list Z)) : nat := sum_list_with (fun t => S (length t)) names.

Lemma room_app a b : room (a ++ b) = (room a + room b)%nat.
Proof. apply sum_list_with_app. Qed.

Lemma room_perm a b : a ≡ₚ b -> room a = room b.
Proof. induction 1; unfold room in *; simpl in *; lia. Qed.

Lemma room_submseteq a b : a ⊆+ b -> (room a <= room b)%nat.
Proof. intros (k & ->%room_perm)%submseteq_Permutation. rewrite room_app. lia. Qed.

Lemma room_split l : room (split_comma l) = S (length l).
Proof.
  induction l as [|b l IH]; [done|]. simpl. destruct (b =? comma); [unfold room in *; simpl; lia|].
  pose proof (split_comma_nonempty l). destruct (split_comma l) as [|t ts]; [done|]. unfold room in *. simpl in *. lia.
Qed.

Lemma alg_names_split l : exists r, split_comma l = alg_names l ++ r.
Proof.
  unfold alg_names. destruct (last (split_comma l)) as [[|]|] eqn:E; [|exists []; by rewrite app_nil_r..].
  exists [[]]. apply last_Some in E as [l' E]. by rewrite E, removelast_last.
Qed.

Lemma room_alg_names l : (room (alg_names l) <= S (length l))%nat.
Proof. destruct (alg_names_split l) as [r Hr]. rewrite <- room_split, Hr, room_app. lia. Qed.

Lemma split_no_comma l : Forall no_comma (split_comma l).
Proof.
  induction l as [|b l IH]; simpl; [by repeat constructor|].
  destruct (Z.eqb_spec b comma); [by constructor; [constructor|]|].
  destruct IH as [|t ts Ht Hts]; repeat (constructor; try done).
Qed.

Lemma alg_names_no_comma l : Forall no_comma (alg_names l).
Proof. pose proof (split_no_comma l) as H. destruct (alg_names_split l) as [r Hr]. rewrite Hr in H. by apply Forall_app in H as []. Qed.

Lemma join_snoc ts t : ts <> [] -> join_comma (ts ++ [t]) = join_comma ts ++ [comma] ++ t.
Proof.
  induction ts as [|u ts IH]; [done|]. intros _. destruct ts as [|v ts]; [done|].
  change (join_comma ((u :: v :: ts) ++ [t])) with (u ++ comma :: join_comma ((v :: ts) ++ [t])).
  rewrite IH by done. change (join_comma (u :: v :: ts)) with (u ++ comma :: join_comma (v :: ts)).
  by rewrite <- app_assoc.
Qed.

Lemma join_length t ts : S (length (join_comma (t :: ts))) = room (t :: ts).
Proof.
  revert t. induction ts as [|u ts IH]; intros t; [unfold room; simpl; lia|].
  change (join_comma (t :: u :: ts)) with (t ++ comma :: join_comma (u :: ts)). rewrite length_app. simpl length.
  specialize (IH u). unfold room in *. simpl in *. lia.
Qed.

(** A list that is joined is read back. *)
Lemma alg_names_join ts : Forall no_comma ts -> [] ∉ ts -> alg_names (join_comma ts) = ts.
Proof.
  intros H1 H2. destruct ts as [|t ts]; [done|]. unfold alg_names. rewrite split_join by done.
  destruct (last (t :: ts)) as [[|]|] eqn:E; [|done..]. destruct H2. apply last_Some in E as [l ->]. set_solver.
Qed.

(** ** The filtered list *)

Lemma filter_alg_once size f name sup : NoDup sup ->
  filter_alg size f name sup = if bool_decide (name ∈ sup) then append_alg size f name else Some f.
Proof.
  intros Hd. revert f. induction Hd as [|a sup Ha Hd IH]; intros f; cbn [filter_alg]; [done|].
  destruct (decide (a = name)) as [->|Hne].
  - rewrite bool_decide_true by done. rewrite bool_decide_true by by left.
    destruct (append_alg size f name) as [g|]; simpl; [|done]. by rewrite IH, bool_decide_false.
  - rewrite bool_decide_false by done. rewrite IH.
    replace (bool_decide (name ∈ a :: sup)) with (bool_decide (name ∈ sup)); [done|]. apply bool_decide_ext.
    rewrite elem_of_cons. naive_solver.
Qed.

(** A name fits behind those that are there. *)
Lemma append_alg_fits size names name : [] ∉ names -> Z.of_nat (room (names ++ [name])) <= size + 1 ->
  append_alg size (join_comma names) name = Some (join_comma (names ++ [name])).
Proof.
  intros Hn Hr. unfold append_alg.
  assert (E : (if lenZ (join_comma names) =? 0 then [] else join_comma names ++ [comma]) ++ name
              = join_comma (names ++ [name])).
  { destruct names as [|t ts]; [done|]. rewrite join_snoc by done. destruct (Z.eqb_spec (lenZ (join_comma (t :: ts))) 0).
    - pose proof (join_length t ts). unfold lenZ, room in *. simpl in *. destruct t; [|simpl in *; lia]. destruct Hn. by left.
    - by rewrite <- app_assoc. }
  rewrite E. destruct (names ++ [name]) as [|t ts] eqn:En; [by destruct names|].
  pose proof (join_length t ts). rewrite (proj2 (Z.leb_le _ _)); [done|]. unfold lenZ. lia.
Qed.

Lemma filter_algs_spec size sup server : forall names, NoDup sup -> [] ∉ sup -> [] ∉ names ->
  Z.of_nat (room (names ++ filter (.∈ sup) server)) <= size + 1 ->
  filter_algs size (join_comma names) server sup = Some (join_comma (names ++ filter (.∈ sup) server)).
Proof.
  induction server as [|a server IH]; intros names Hd He Hn Hr; cbn [filter_algs]; [by rewrite app_nil_r|].
  rewrite filter_alg_once by done. rewrite filter_cons in Hr |- *. case_decide as Ha.
  - rewrite bool_decide_true by done. rewrite cons_middle, app_assoc in Hr |- *.
    rewrite append_alg_fits; [|done|rewrite room_app in Hr; lia]. simpl. apply IH; [done..| |done].
    set_solver.
  - rewrite bool_decide_false by done. by apply IH.
Qed.

(** What both sides support, in the server's order. *)
Definition shared (server supported : list (list Z)) : list (list Z) := filter (.∈ supported) server.

Lemma filtered_algs_spec server supported :
  NoDup (alg_names server) -> NoDup (alg_names supported) -> [] ∉ alg_names supported ->
  filtered_algs server supported = Some (join_comma (shared (alg_names server) (alg_names supported))).
Proof.
  intros Hs Hp He. unfold filtered_algs. set (names := shared _ _).
  assert (Hroom : (room names <= S (length supported))%nat).
  { etrans; [|apply room_alg_names]. apply room_submseteq, NoDup_submseteq; [by apply NoDup_filter|].
    intros a Ha. by apply list_elem_of_filter in Ha as []. }
  change (@nil Z) with (join_comma []) at 1. rewrite filter_algs_spec; [|done|done|apply not_elem_of_nil|].
  - simpl. fold (shared (alg_names server) (alg_names supported)). fold names.
    rewrite (proj2 (Z.ltb_lt _ _)); [done|]. unfold lenZ.
    destruct names as [|t ts]; [simpl; lia|]. pose proof (join_length t ts). lia.
  - simpl. fold (shared (alg_names server) (alg_names supported)). fold names. unfold lenZ. lia.
Qed.

Lemma match_alg_best prefs server supported : NoDup (alg_names server) -> [] ∉ alg_names supported ->
  match_alg prefs (alg_names (join_comma (shared (alg_names server) (alg_names supported))))
  = best_algorithm prefs (alg_names server) (alg_names supported).
Proof.
  intros Hs He. rewrite alg_names_join.
  - unfold match_alg, best_algorithm, shared. induction prefs as [|a prefs IH]; simpl; [done|]. rewrite IH.
    replace (existsb _ _) with (bool_decide (a ∈ alg_names server) && bool_decide (a ∈ alg_names supported)); [done|].
    apply eq_true_iff_eq. rewrite existsb_exists, andb_true_iff, !bool_decide_eq_true.
    setoid_rewrite <- list_elem_of_In. setoid_rewrite list_elem_of_filter. setoid_rewrite bool_decide_eq_true. naive_solver.
  - apply Forall_forall. intros a [_ Ha]%list_elem_of_filter.
    by apply (proj1 (Forall_forall _ _) (alg_names_no_comma server)).
  - unfold shared. rewrite list_elem_of_filter. naive_solver.
Qed.

(** ** The choice *)

(** The list of preferences: the application's, or what the backend supports. *)
Definition sign_prefs (s : session) (supported : list Z) : option (list Z) :=
  match sign_algo_prefs (s_kex s) with
  | Some p => s_heap s !! p ≫= c_string
  | None => Some supported
  end.

(** C33: the algorithm a key is used with. Where the server announced algorithms and the
    backend can sign with several for this kind of key, the method becomes the first
    preference that both sides support, and there is an error, with the method left as
    it is, when there is none. The filtered list stays within its block for every server
    that names no algorithm twice. *)
Theorem key_sign_algorithm_best {X} supported_algs (method name server supported prefs : list Z) method_len s (x : X)
    (Hname : bytes_at method 0 method_len = Some name)
    (Hsupported : supported_algs name = Some supported)
    (Hserver : server_sign_algorithms s = Some server) (Hnul : no_nul server)
    (Honce : NoDup (alg_names server)) (Htable : NoDup (alg_names supported) /\ [] ∉ alg_names supported)
    (Hprefs : sign_prefs s supported = Some prefs)
    (Halloc : s_alloc s = []) :
  exists r s', key_sign_algorithm supported_algs method method_len (mk_ext s x) = Ret r (mk_ext s' x) /\ err_only s s' /\
    r = match best_algorithm (alg_names prefs) (alg_names server) (alg_names supported) with
        | Some m => (0, m, lenZ m)
        | None => (LIBSSH2_ERROR_METHOD_NONE, method, method_len)
        end.
Proof.
  assert (Ha : forall Q : bool -> session -> Prop, Q true s -> wp alloc_outcome Q s).
  { intros Q HQ. unfold wp, alloc_outcome. by rewrite Halloc. }
  match goal with |- exists r s', _ /\ _ /\ r = ?v => enough (Hw : wp (key_sign_algorithm supported_algs method method_len)
    (fun r e => x_data e = x /\ err_only s (x_session e) /\ r = v) (mk_ext s x)) end.
  { apply wp_Ret in Hw as (r & [s' x'] & E & Hx & He & Hr). simpl in Hx, He. subst x'. by exists r, s'. }
  unfold key_sign_algorithm. eapply wp_bind, wp_access; [done|]. do 3 x_step. simpl. rewrite Hsupported, Hserver.
  do 2 x_step. apply Ha. simpl negb. cbn iota. eapply wp_bind, wp_access; [by apply c_string_app|].
  destruct Htable as [Ht1 Ht2]. eapply wp_bind, wp_access; [by apply filtered_algs_spec|]. do 3 x_step. apply wp_bind.
  apply (wp_mono _ (fun r e => r = prefs /\ e = mk_ext s x)).
  { unfold sign_prefs in Hprefs. destruct (sign_algo_prefs (s_kex s)) as [p|]; [|x_step; by simplify_eq].
    destruct (s_heap s !! p) as [d|] eqn:Hd; simpl in Hprefs; [|done]. do 2 x_step. eapply wp_block; [done|]. by rewrite Hprefs. }
  intros r e [-> ->]. rewrite match_alg_best by done. destruct (best_algorithm _ _ _) as [m|].
  - do 2 x_step. apply Ha. simpl negb. cbn iota. by x_step.
  - do 2 x_step. by x_step.
Qed.

(** What the OpenSSL backend supports for RSA keys. *)
Definition rsa_algorithms : list Z := str "rsa-sha2-512,rsa-sha2-256,ssh-rsa".

Lemma key_sign_algorithm_best_witness :
  let s := session_0 <| server_sign_algorithms := Some (str "ssh-ed25519,rsa-sha2-256,rsa-sha2-512") |> in
  exists r s', key_sign_algorithm (fun _ => Some rsa_algorithms) (str "ssh-rsa AAAA") 7 (mk_ext s tt) = Ret r (mk_ext s' tt) /\
    err_only s s' /\ r = (0, str "rsa-sha2-512", 12).
Proof.
  eapply (key_sign_algorithm_best (fun _ => Some rsa_algorithms) (str "ssh-rsa AAAA") (str "ssh-rsa")
    (str "ssh-ed25519,rsa-sha2-256,rsa-sha2-512") rsa_algorithms rsa_algorithms 7); try reflexivity.
  - apply Forall_forall. intros b Hb. vm_compute in Hb. repeat (apply elem_of_cons in Hb as [->|Hb]; [done|]).
    by apply elem_of_nil in Hb.
  - apply (bool_decide_unpack _). vm_compute. exact I.
  - split; apply (bool_decide_unpack _); vm_compute; exact I.
Defined.

(** A server that repeats a name makes the client write past the block that was sized
    for the backend's own list. *)
Theorem repeated_algorithm_overflows :
  let s := session_0 <| server_sign_algorithms := Some (str "rsa-sha2-256,rsa-sha2-256,rsa-sha2-256") |> in
  key_sign_algorithm (fun _ => Some rsa_algorithms) (str "ssh-rsa AAAA") 7 (mk_ext s tt) = Fault.
Proof. reflexivity. Qed.
