(* ===== verification/UserauthKbdSpec.v ===== *)
(** * The questions of a keyboard-interactive dialogue (userauth_kbd_packet.c)

    [userauth_keyboard_interactive_decode_info_request] on whatever a server sends, and
    on a well-formed request. *)

From stdpp Require Import base numbers list gmap strings.
From S2P Require Import Prelude Codes CString KexMethods Wire Session ChannelWindow Packet Conn Comp PacketSafety PacketSpec PacketWait Ext Blocking Userauth UserauthKbd.

(** ** Arbitrary bytes *)

(** Nothing but the error fields and the allocator's outcomes changes. *)
Definition untouched (s s' : session) : Prop := exists al, err_only (s <| s_alloc := al |>) s'.

Lemma untouched_refl s : untouched s s.
Proof. exists (s_alloc s). rewrite set_alloc_id. done. Qed.
Lemma untouched_err s s1 s2 : untouched s s1 -> err_only s1 s2 -> untouched s s2.
Proof. intros [al H1] H2. exists al. by etrans. Qed.
Lemma untouched_alloc s s1 al : untouched s s1 -> untouched s (s1 <| s_alloc := al |>).
Proof. intros [al1 ->]. exists al. done. Qed.
#[local] Hint Resolve untouched_refl untouched_err untouched_alloc : core.

(** The arrays have one entry per prompt, and there are at most 100. *)
Definition prompts_ok (x : kybd_data) : Prop :=
  let n := userauth_kybd_num_prompts x in
  0 <= n <= 100 /\
  (n = 0 \/ exists ps rs, userauth_kybd_prompts x = Some ps /\ userauth_kybd_responses x = Some rs /\
     lenZ ps = n /\ lenZ rs = n).

(** How the parser may end. *)
Definition decoded (s : session) (rc : Z) (e : ext kybd_data) : Prop :=
  untouched s (x_session e) /\ (rc = -1 \/ (rc = 0 /\ prompts_ok (x_data e))).

Lemma wp_kbd_copy buf (Q : option cbuf * string_buf -> ext kybd_data -> Prop) s x :
  sb_ok buf -> bytes_ok (sb_data buf) ->
  (forall r buf' al, sb_ok buf' -> sb_data buf' = sb_data buf -> Q (r, buf') (mk_ext (s <| s_alloc := al |>) x)) ->
  wp (kbd_copy buf) Q (mk_ext s x).
Proof.
  intros Hok Hb HQ. unfold kbd_copy. do 2 x_step. set (m := fun s0 : session => _).
  apply (wp_mono m (fun _ s' => exists al, s' = s <| s_alloc := al |>)).
  { unfold m. assert (Hn : exists al, s = s <| s_alloc := al |>) by (exists (s_alloc s); by rewrite set_alloc_id).
    unfold wp. destruct (get_string buf None) as [[[[] [[]|]] ?]|]; try exact Hn. unfold alloc_outcome.
    destruct (s_alloc s); [done|]. by eexists. }
  intros b s' [al ->]. destruct (copy_string_ok b buf None) as (rc & out & buf' & E & _ & Hok' & Hd & _); [done..|].
  eapply wp_bind, wp_access; [exact E|]. cbn beta iota. x_step. by apply HQ.
Qed.

Lemma wp_decode_failed code msg s0 s x : untouched s0 s -> wp (decode_failed code msg) (decoded s0) (mk_ext s x).
Proof. intros H. unfold decode_failed. x_step. x_step. x_step. split; [eauto|by left]. Qed.

Lemma decode_prompts_safe s0 n : forall i buf s x, sb_ok buf -> bytes_ok (sb_data buf) -> untouched s0 s -> prompts_ok x ->
  wp (decode_prompts n i buf) (decoded s0) (mk_ext s x).
Proof.
  induction n as [|n IH]; intros i buf s x Hok Hb Hs Hx; cbn [decode_prompts].
  { x_step. split; [done|by right]. }
  x_step. apply wp_kbd_copy; [done..|]. intros [t|] buf1 al Hok1 Hd1; cbn beta iota; [|by apply wp_decode_failed, untouched_alloc].
  assert (Halter : forall f x, prompts_ok x -> prompts_ok (x <| userauth_kybd_prompts ::= fmap (alter f i) |>)).
  { clear. intros f x [H0 H]. split; [done|]. destruct H as [H|(ps & rs & H1 & H2 & H3 & H4)]; [by left|right].
    exists (alter f i ps), rs. simpl. rewrite H1. split_and!; try done. unfold lenZ in *. by rewrite length_alter. }
  x_step. x_step. destruct (get_boolean_ok buf1 0) as (rc & echo & buf2 & E & _ & Hok2 & Hd2 & _); [done|].
  eapply wp_bind, wp_access; [exact E|]. cbn beta iota. x_step; [by apply wp_decode_failed, untouched_alloc|].
  x_step. x_step. apply IH; [done|congruence|by apply untouched_alloc|]. by apply Halter, Halter.
Qed.

Lemma decode_num_prompts_safe s0 buf s x : sb_ok buf -> bytes_ok (sb_data buf) -> untouched s0 s ->
  0 <= userauth_kybd_num_prompts x -> wp (decode_num_prompts buf) (decoded s0) (mk_ext s x).
Proof.
  intros Hok Hb Hs Hx. unfold decode_num_prompts. x_step. x_step.
  destruct (get_u32_ok buf (userauth_kybd_num_prompts x)) as (rc & n & buf1 & E & Hrc & Hok1 & Hd1 & _); [done|].
  eapply wp_bind, wp_access; [exact E|]. cbn beta iota. x_step. x_step.
  x_step; [by apply wp_decode_failed|]. x_step; [by apply wp_decode_failed|]. breflect.
  assert (rc = 0) as -> by (by destruct Hrc). apply get_u32_value in E; [|done].
  x_step; [x_step; breflect; split; [done|right; split; [done|split; [simpl; lia|by left]]]|]. breflect.
  do 2 x_step. apply wp_alloc_outcome. intros b al. x_step; [by apply wp_decode_failed, untouched_alloc|]. do 2 x_step.
  do 2 x_step. apply wp_alloc_outcome. intros b2 al2. x_step; [by apply wp_decode_failed, untouched_alloc, untouched_alloc|]. do 2 x_step.
  apply decode_prompts_safe; [done|congruence|by apply untouched_alloc, untouched_alloc|]. split; [simpl; lia|right].
  eexists _, _. simpl. split_and!; [done..| |]; unfold lenZ; rewrite length_replicate; lia.
Qed.

(** C31: the parser of the server's questions is memory safe and checks what it is given.
    For every payload and every outcome of the allocations it returns, reads nothing
    outside the payload, changes only the error fields of the session, and when it
    reports success there are at most 100 prompts and both arrays have an entry for each
    of them. *)
Theorem decode_info_request_safe data s x
    (Hdata : userauth_kybd_data x = Some data /\ userauth_kybd_data_len x = lenZ data)
    (Hbytes : bytes_ok data) (Hsize : lenZ data < 2 ^ 64)
    (Hnum : 0 <= userauth_kybd_num_prompts x) :
  exists rc e, decode_info_request (mk_ext s x) = Ret rc e /\ decoded s rc e.
Proof.
  apply wp_Ret. destruct Hdata as [Hd Hl]. unfold decode_info_request. do 4 x_step. rewrite Hd, Hl.
  x_step; [by apply wp_decode_failed|]. eapply wp_bind, wp_access; [done|].
  assert (Hok : sb_ok (mk_string_buf data 0 (lenZ data))) by (split; simpl; pose proof (lenZ_nonneg data); lia).
  destruct (get_byte_ok _ 0 Hok) as (rc & c & b1 & E1 & _ & Hok1 & Hd1 & _). simpl in Hd1.
  eapply wp_bind, wp_access; [exact E1|]. cbn beta iota. simpl snd.
  x_step. apply wp_kbd_copy; [done|congruence|]. intros [name|] b2 al2 Hok2 Hd2; simpl fst; simpl snd; cbn iota;
    [|by apply wp_decode_failed, untouched_alloc]. do 2 x_step.
  x_step. apply wp_kbd_copy; [done|congruence|]. intros [ins|] b3 al3 Hok3 Hd3; simpl fst; simpl snd; cbn iota;
    [|by apply wp_decode_failed, untouched_alloc, untouched_alloc]. do 2 x_step.
  destruct (get_string_ok b3 None) as (rc4 & tag & b4 & E4 & _ & Hok4 & Hd4 & _); [done|congruence|].
  eapply wp_bind, wp_access; [exact E4|]. cbn beta iota. simpl fst. simpl snd.
  x_step; [by apply wp_decode_failed, untouched_alloc, untouched_alloc|].
  apply decode_num_prompts_safe; [done|congruence|by apply untouched_alloc, untouched_alloc|done].
Qed.

(** ** A well-formed request *)

(** RFC 4256, section 3.2. *)
Record info_request := mk_info_request {
  ir_name : list Z;
  ir_instruction : list Z;
  ir_language : list Z;
  ir_prompts : list (list Z * bool)
}.

Definition encode_prompt (p : list Z * bool) : list Z := store_str [] p.1 ++ [if p.2 then 1 else 0].
Definition encode_prompts (ps : list (list Z * bool)) : list Z := concat (map encode_prompt ps).
Definition encode_info_request (r : info_request) : list Z :=
  SSH_MSG_USERAUTH_INFO_REQUEST :: store_str [] (ir_name r) ++ store_str [] (ir_instruction r)
    ++ store_str [] (ir_language r) ++ store_u32 [] (lenZ (ir_prompts r)) ++ encode_prompts (ir_prompts r).

(** An empty string is copied as a null pointer. *)
Definition copied (l : list Z) : cbuf := match l with [] => None | _ => Some l end.
Definition asked (p : list Z * bool) : kbdint_prompt := mk_prompt (copied p.1) (if p.2 then 1 else 0).

(** The reader behind [a], before [c]. *)
Definition cursor (a c : list Z) : string_buf := reader_at a [] c.

Lemma get_string_cursor a t c out : lenZ (a ++ store_str [] t ++ c) < 2 ^ 32 ->
  get_string (cursor a (store_str [] t ++ c)) out = Some (0, Some t, cursor (a ++ store_str [] t) c).
Proof.
  intros H. pose proof (lenZ_nonneg a). pose proof (lenZ_nonneg c). pose proof (lenZ_nonneg t).
  assert (E : store_str [] t = htonu32 (lenZ t) ++ t).
  { unfold store_str, store_u32. simpl. rewrite u32_small; [done|]. rewrite !lenZ_app in H. unfold store_str in H. rewrite lenZ_app in H.
    pose proof (lenZ_nonneg (store_u32 [] (lenZ t))). lia. }
  rewrite E in *. apply (get_string_at a t c out); rewrite ?lenZ_app in *; pose proof (lenZ_nonneg (htonu32 (lenZ t))); lia.
Qed.

Lemma advance_cursor a b c : advance (cursor a (b ++ c)) (lenZ b) = cursor (a ++ b) c.
Proof. unfold cursor, reader_at, advance. simpl. rewrite (app_assoc a b c), (lenZ_app a b). f_equal. lia. Qed.

Lemma cursor_room a b c : lenZ (a ++ b ++ c) < 2 ^ 32 -> check_length (cursor a (b ++ c)) (lenZ b) = true.
Proof.
  intros H. unfold cursor, reader_at. apply check_length_at; simpl; rewrite ?lenZ_app in *; [|lia].
  change (lenZ []) with 0. pose proof (lenZ_nonneg c). lia.
Qed.

Lemma get_u32_cursor a v c out : 0 <= v < 2 ^ 32 -> lenZ (a ++ store_u32 [] v ++ c) < 2 ^ 32 ->
  get_u32 (cursor a (store_u32 [] v ++ c)) out = Some (0, v, cursor (a ++ store_u32 [] v) c).
Proof.
  intros Hv H. unfold store_u32 in *. simpl in *. rewrite u32_small in * by done.
  apply (get_u32_at a v c out); [done|]. simpl in *. lia.
Qed.

Lemma get_boolean_cursor a (b : bool) c out : lenZ (a ++ [if b then 1 else 0] ++ c) < 2 ^ 32 ->
  get_boolean (cursor a ([if b then 1 else 0] ++ c)) out = Some (0, if b then 1 else 0, cursor (a ++ [if b then 1 else 0]) c).
Proof.
  intros H. unfold get_boolean. rewrite (cursor_room a [if b then 1 else 0] c H : check_length _ 1 = true). simpl negb. cbn iota.
  assert (E : byte_at (sb_data (cursor a ([if b then 1 else 0] ++ c))) (sb_ptr (cursor a ([if b then 1 else 0] ++ c)))
              = Some (if b then 1 else 0)).
  { unfold byte_at, cursor, reader_at. simpl. pose proof (lenZ_nonneg a). rewrite decide_True by done. unfold lenZ.
    rewrite Nat2Z.id, lookup_app_r by lia. by rewrite Nat.sub_diag. }
  rewrite E. simpl. do 2 f_equal; [by destruct b|]. apply (advance_cursor a [if b then 1 else 0] c).
Qed.

Lemma get_byte_first b c out : lenZ (b :: c) < 2 ^ 32 ->
  get_byte (cursor [] (b :: c)) out = Some (0, b, cursor [b] c).
Proof. intros H. unfold get_byte. by rewrite (cursor_room [] [b] c H : check_length (cursor [] (b :: c)) 1 = true). Qed.

Section Decode.
Context (s : session) (Halloc : s_alloc s = []).

Lemma kbd_copy_cursor a t c x : lenZ (a ++ store_str [] t ++ c) < 2 ^ 32 ->
  kbd_copy (cursor a (store_str [] t ++ c)) (mk_ext s x) = Ret (Some (copied t), cursor (a ++ store_str [] t) c) (mk_ext s x).
Proof.
  intros H. unfold kbd_copy, bind, xlift. simpl x_session. rewrite get_string_cursor by done. unfold copy_string.
  rewrite get_string_cursor by done. unfold alloc_outcome. rewrite Halloc. by destruct t.
Qed.

Lemma decode_prompts_cursor ps : forall a done x, lenZ (a ++ encode_prompts ps) < 2 ^ 32 ->
  userauth_kybd_prompts x = Some (done ++ replicate (length ps) prompt_0) ->
  decode_prompts (length ps) (length done) (cursor a (encode_prompts ps)) (mk_ext s x)
  = Ret 0 (mk_ext s (x <| userauth_kybd_prompts := Some (done ++ map asked ps) |>)).
Proof.
  induction ps as [|[t b] ps IH]; intros a done x H Hx; cbn [decode_prompts length].
  { unfold ret. do 2 f_equal. destruct x. simpl in *. by subst. }
  unfold encode_prompts in H |- *. cbn [map concat] in H |- *. unfold encode_prompt in H at 1. unfold encode_prompt at 1.
  fold (encode_prompts ps) in H |- *. cbn [fst snd] in H |- *. rewrite <- app_assoc in H |- *.
  erewrite bind_Ret by (by apply kbd_copy_cursor). cbn beta iota. unfold bind at 1, xset at 1, modify at 1. simpl x_session. simpl x_data.
  rewrite get_boolean_cursor by (by rewrite <- app_assoc). cbn [access]. rewrite bind_ret. cbn beta iota.
  change (0 =? -1) with false. cbn iota. unfold bind at 1, xset at 1, modify at 1. simpl x_session. simpl x_data.
  replace (S (length done)) with (length (done ++ [asked (t, b)])) by (rewrite length_app; simpl; lia).
  rewrite IH; [|by rewrite <- !app_assoc|].
  - simpl. rewrite <- app_assoc. by destruct x.
  - simpl. rewrite Hx. simpl. rewrite <- app_assoc. f_equal.
    change (prompt_0 :: replicate (length ps) prompt_0) with ([prompt_0] ++ replicate (length ps) prompt_0).
    rewrite !alter_app_r_alt by lia. rewrite Nat.sub_diag. simpl. done.
Qed.
End Decode.

(** What the parser leaves in the session's fields. *)
Definition asked_of (r : info_request) (x : kybd_data) : kybd_data :=
  let x := x <| userauth_kybd_auth_name := copied (ir_name r) |>
             <| userauth_kybd_auth_instruction := copied (ir_instruction r) |>
             <| userauth_kybd_num_prompts := lenZ (ir_prompts r) |> in
  match ir_prompts r with
  | [] => x
  | ps => x <| userauth_kybd_prompts := Some (map asked ps) |>
            <| userauth_kybd_responses := Some (replicate (length ps) response_0) |>
  end.

(** C32: a server's questions arrive as they were asked: the parser gives back the name,
    the instruction and every prompt with its echo flag of a request that was encoded as
    RFC 4256 says and has at most 100 prompts, with an empty response for each. *)
Theorem info_request_roundtrip r s x
    (Hdata : userauth_kybd_data x = Some (encode_info_request r))
    (Hlen : userauth_kybd_data_len x = lenZ (encode_info_request r))
    (Hsize : lenZ (encode_info_request r) < 2 ^ 32)
    (Hprompts : (length (ir_prompts r) <= 100)%nat)
    (Halloc : s_alloc s = []) :
  decode_info_request (mk_ext s x) = Ret 0 (mk_ext s (asked_of r x)).
Proof.
  enough (Hw : wp decode_info_request (fun rc e => rc = 0 /\ e = mk_ext s (asked_of r x)) (mk_ext s x)).
  { apply wp_Ret in Hw as (? & ? & E & -> & ->). exact E. }
  destruct r as [name ins lang ps]. cbn [ir_prompts] in Hprompts. unfold decode_info_request. do 4 x_step.
  rewrite Hdata, Hlen. set (d := encode_info_request _) in *.
  assert (Hd : d = [SSH_MSG_USERAUTH_INFO_REQUEST] ++ store_str [] name ++ store_str [] ins ++ store_str [] lang
    ++ store_u32 [] (lenZ ps) ++ encode_prompts ps) by done. clearbody d.
  rewrite (proj2 (Z.ltb_ge _ _)).
  2:{ rewrite Hd, !lenZ_app. unfold store_str, store_u32. rewrite !lenZ_app. simpl. rewrite !lenZ_htonu32.
      pose proof (lenZ_nonneg name). pose proof (lenZ_nonneg ins). pose proof (lenZ_nonneg lang).
      pose proof (lenZ_nonneg (encode_prompts ps)). change (lenZ [SSH_MSG_USERAUTH_INFO_REQUEST]) with 1. change (lenZ []) with 0. lia. }
  eapply wp_bind, wp_access; [done|]. subst d.
  eapply wp_bind, wp_access; [by apply get_byte_first|]. cbn beta iota. cbn [snd].
  eapply wp_bind, wp_run; [by apply kbd_copy_cursor|]. cbn [fst snd]. cbn iota. do 2 x_step.
  eapply wp_bind, wp_run; [apply kbd_copy_cursor; by rewrite <- ?app_assoc|]. cbn [fst snd]. cbn iota. do 2 x_step.
  eapply wp_bind, wp_access; [apply get_string_cursor; by rewrite <- ?app_assoc|]. cbn beta iota. cbn [fst snd].
  change (0 =? -1) with false. cbn iota. unfold decode_num_prompts. do 2 x_step.
  pose proof (lenZ_nonneg ps) as H0. assert (Hn : lenZ ps <= 100) by (unfold lenZ; lia).
  eapply wp_bind, wp_access; [apply get_u32_cursor; [lia|by rewrite <- ?app_assoc]|]. cbn beta iota. do 2 x_step.
  change (0 =? -1) with false. cbn iota. rewrite (proj2 (Z.ltb_ge _ _)) by lia. unfold asked_of. cbn [ir_name ir_instruction ir_prompts].
  destruct ps as [|p0 ps]; [by x_step|]. rewrite (proj2 (Z.eqb_neq _ _)) by (rewrite lenZ_cons; pose proof (lenZ_nonneg ps); lia).
  assert (Ha : forall Q : bool -> session -> Prop, Q true s -> wp alloc_outcome Q s).
  { intros Q HQ. unfold wp, alloc_outcome. by rewrite Halloc. }
  do 2 x_step. apply Ha. simpl negb. cbn iota. do 4 x_step. apply Ha. simpl negb. cbn iota. do 2 x_step.
  unfold lenZ. rewrite Nat2Z.id. eapply wp_run; [apply (decode_prompts_cursor s Halloc _ _ []); [by rewrite <- ?app_assoc|done]|].
  by split.
Qed.

Definition two_questions : info_request := mk_info_request (str "login") [] [] [(str "Password: ", false); ([], true)].

Lemma info_request_roundtrip_witness :
  let x := kybd_data_0 <| userauth_kybd_data := Some (encode_info_request two_questions) |>
                       <| userauth_kybd_data_len := lenZ (encode_info_request two_questions) |> in
  decode_info_request (mk_ext session_0 x) = Ret 0 (mk_ext session_0 (asked_of two_questions x)).
Proof. apply (info_request_roundtrip two_questions); try reflexivity. simpl. lia. Defined.

Lemma decode_info_request_safe_witness :
  let data := encode_info_request two_questions ++ [255] in
  let x := kybd_data_0 <| userauth_kybd_data := Some (removelast data) |> <| userauth_kybd_data_len := lenZ (removelast data) |> in
  exists rc e, decode_info_request (mk_ext session_0 x) = Ret rc e /\ decoded session_0 rc e.
Proof.
  intros data x. apply (decode_info_request_safe (removelast data)); [done| |done|done].
  apply (bool_decide_unpack _). vm_compute. exact I.
Defined.
