(* ===== verification/UserauthTrip.v ===== *)
(** * A public key authentication (userauth.c)

    The messages of [_libssh2_userauth_publickey] with a server that accepts the key:
    the key is offered without a signature, the server agrees, and the request is sent
    again with the signature of the session identifier and of the request itself
    (RFC 4252, section 7). *)

From stdpp Require Import base numbers list gmap strings.
From S2P Require Import Prelude Codes CString KexMethods Wire Base64 Session ChannelWindow Packet Conn Comp PacketSafety PacketSpec PacketWait Numerals Ext Blocking KexDh Userauth UserauthPk UserauthKbd.

(** ** What a transport layer with a cooperative server promises *)

(** [ready out replies s]: the messages [out] were sent, and [replies] come next, each
    when it is waited for. *)
Class Server (transport_send : list Z -> list Z -> CM Z) (transport_read : CM Z) (fuel : nat) (id : list Z)
    (ready : list (list Z) -> list (list Z) -> session -> Prop) : Prop := {
  server_send : forall out replies s d d2, ready out replies s ->
    wp (transport_send d d2) (fun rc s' => rc = 0 /\ ready (out ++ [d ++ d2]) replies s') s;
  server_reply : forall X (x : X) out c r replies codes start s, ready out ((c :: r) :: replies) s -> c ∈ codes ->
    wp (require_reply transport_read fuel codes start)
       (fun q e => exists s', q = (0, Some (c :: r), 0) /\ e = mk_ext s' x /\ ready out replies s') (mk_ext s x);
  server_alloc : forall out replies s, ready out replies s ->
    wp alloc_outcome (fun ok s' => ok = true /\ ready out replies s') s;
  server_id : forall out replies s X (x : X), ready out replies s ->
    session_id_bytes (mk_ext s x) = Ret id (mk_ext s x);
  server_state : forall out replies s st, ready out replies s -> ready out replies (s <| s_state := st |>)
}.

(** ** The messages *)

(** RFC 4252: string service, string method, boolean, string algorithm, string key. *)
Definition publickey_request (username alg key : list Z) (signed : bool) : list Z :=
  [SSH_MSG_USERAUTH_REQUEST] ++ store_str [] username ++ store_str [] (str "ssh-connection")
    ++ store_str [] (str "publickey") ++ [if signed then 1 else 0] ++ store_str [] alg ++ store_str [] key.

Lemma store_str_app out t : store_str out t = out ++ store_str [] t.
Proof. unfold store_str, store_u32. by rewrite <- app_assoc. Qed.

Lemma request_head_bytes username method : request_head username method
  = [SSH_MSG_USERAUTH_REQUEST] ++ store_str [] username ++ store_str [] (str "ssh-connection") ++ store_str [] method.
Proof.
  unfold request_head. rewrite (store_str_app (store_str _ _) method), (store_str_app (store_str _ _) SSH_CONNECTION).
  rewrite (store_str_app [_] username). by rewrite <- !app_assoc.
Qed.

Lemma pblc_text_request username key alg : pblc_text username key alg = publickey_request username alg key false.
Proof.
  unfold pblc_text. rewrite (store_str_app (store_str _ _) key), (store_str_app (_ ++ _) alg).
  unfold pblc_head. rewrite request_head_bytes. by rewrite <- !app_assoc.
Qed.

Lemma lenZ_store_str t : lenZ (store_str [] t) = 4 + lenZ t.
Proof. unfold store_str, store_u32. rewrite lenZ_app. simpl. by rewrite lenZ_htonu32. Qed.

Lemma lenZ_request username alg key b :
  lenZ (publickey_request username alg key b) = 45 + lenZ username + lenZ alg + lenZ key.
Proof.
  unfold publickey_request. rewrite !lenZ_app, !lenZ_store_str. rewrite (lenZ_cons SSH_MSG_USERAUTH_REQUEST), lenZ_cons.
  change (lenZ []) with 0. change (lenZ (str "ssh-connection")) with 14. change (lenZ (str "publickey")) with 9. lia.
Qed.

(** The flag is at the end of the head. *)
Lemma mark_signed username alg key :
  <[Z.to_nat (lenZ (pblc_head username)) := 1]> (publickey_request username alg key false)
  = publickey_request username alg key true /\
  byte_at (publickey_request username alg key false) (lenZ (pblc_head username)) = Some 0.
Proof.
  assert (E : forall b, publickey_request username alg key b
    = pblc_head username ++ [if b then 1 else 0] ++ store_str [] alg ++ store_str [] key).
  { intros b. unfold pblc_head. rewrite request_head_bytes. by rewrite <- !app_assoc. }
  rewrite !E. unfold byte_at, lenZ. rewrite decide_True by lia. rewrite Nat2Z.id. split.
  - rewrite insert_app_r_alt by lia. by rewrite Nat.sub_diag.
  - rewrite lookup_app_r by lia. by rewrite Nat.sub_diag.
Qed.

Section Trip.
Context (transport_send : list Z -> list Z -> CM Z) (transport_read : CM Z) (fuel : nat) (id : list Z).
Context (ready : list (list Z) -> list (list Z) -> session -> Prop).
Context `{HS : !Server transport_send transport_read fuel id ready}.
Context (username alg key sig : list Z) (sign : list Z -> Z * list Z).
Context (Hsize : lenZ username + lenZ alg + lenZ key + lenZ sig < 2 ^ 31).

Abbreviation request := (publickey_request username alg key).

(** The progress of the method with a request [p] in its block. *)
Record asking (st : libssh2_nonblocking_states) (p : list Z) (x : pblc_data) : Prop := {
  as_state : userauth_pblc_state x = st;
  as_packet : exists size, userauth_pblc_packet x = Some (p, size) /\ lenZ p + 4 + (4 + lenZ alg) + (4 + lenZ key) <= size;
  as_len : userauth_pblc_packet_len x = lenZ p;
  as_method : userauth_pblc_method x = Some alg /\ userauth_pblc_method_len x = lenZ alg;
  as_flag : userauth_pblc_b x = Some (lenZ (pblc_head username))
}.

Lemma request_size b : 45 <= lenZ (request b) < 2 ^ 31 + 45.
Proof. rewrite lenZ_request. pose proof (lenZ_nonneg username). pose proof (lenZ_nonneg alg). pose proof (lenZ_nonneg key).
  pose proof (lenZ_nonneg sig). lia. Qed.

Lemma pblc_request_ok out replies s x : ready out replies s ->
  userauth_pblc_method x = Some alg -> userauth_pblc_method_len x = lenZ alg ->
  wp (pblc_request username key)
     (fun r e => r = None /\ ready out replies (x_session e) /\ asking libssh2_NB_state_created (request false) (x_data e)) (mk_ext s x).
Proof.
  intros Hr Hm Hl. pose proof (lenZ_nonneg username). pose proof (lenZ_nonneg alg). pose proof (lenZ_nonneg key).
  pose proof (lenZ_nonneg sig). unfold pblc_request. do 2 x_step. unfold Datatypes.id. rewrite Hl.
  assert (El : pblc_request_len username key (lenZ alg) = lenZ (request false)).
  { unfold pblc_request_len. rewrite lenZ_request, u64_small by lia. lia. }
  rewrite El. pose proof (request_size false). x_step. x_step. rewrite Hm. eapply wp_bind, wp_access; [done|].
  eapply wp_bind, wp_access; [by apply bytes_at_all|]. unfold alloc_packet, build_packet.
  rewrite u64_small by lia. rewrite pblc_text_request. repeat x_step.
  eapply wp_mono; [by apply server_alloc|]. intros b s1 [-> Hs1]. simpl negb. cbn iota.
  rewrite (proj2 (Z.leb_le _ _)) by lia. unfold set_pblc_state. repeat x_step. split_and!; [done..|].
  split; simpl; try done. eexists. split; [done|]. lia.
Qed.

Lemma pblc_send_ok out replies s x : ready out replies s -> asking libssh2_NB_state_created (request false) x ->
  wp (pblc_send transport_send)
     (fun r e => r = None /\ ready (out ++ [request false]) replies (x_session e) /\
                 asking libssh2_NB_state_sent (request false) (x_data e)) (mk_ext s x).
Proof.
  intros Hr [H1 (size & H2 & H2') H3 [H4 H4'] H5]. unfold pblc_send. do 2 x_step. unfold Datatypes.id. rewrite H2, H3.
  eapply wp_bind, wp_access; [done|]. eapply wp_bind, wp_access; [by apply bytes_at_all|]. do 2 x_step.
  eapply wp_mono; [by apply server_send|]. intros rc s1 [-> Hs1]. rewrite app_nil_r in Hs1.
  change (0 =? LIBSSH2_ERROR_EAGAIN) with false. change (negb (0 =? 0)) with false. cbn iota. unfold set_pblc_state. repeat x_step. split_and!; [done..|].
  split; simpl; eauto.
Qed.

(** A wait for a reply that comes. *)
Lemma pblc_wait_ok c r codes out replies s x : ready out ((c :: r) :: replies) s -> c ∈ codes ->
  wp (pblc_wait transport_read fuel codes)
     (fun rc e => rc = 0 /\ ready out replies (x_session e) /\
        x_data e = x <| userauth_pblc_start := 0 |> <| userauth_pblc_data := Some (c :: r) |>
                     <| userauth_pblc_data_len := lenZ (c :: r) |>) (mk_ext s x).
Proof.
  intros Hr Hc. unfold pblc_wait. do 3 x_step. eapply wp_mono; [by apply server_reply|].
  intros q e (s' & -> & -> & Hs'). cbn beta iota. repeat x_step. split_and!; done.
Qed.

Lemma pblc_reply_ok r out replies s x : ready out ((SSH_MSG_USERAUTH_PK_OK :: r) :: replies) s ->
  asking libssh2_NB_state_sent (request false) x ->
  wp (pblc_reply transport_read fuel)
     (fun r e => r = None /\ ready out replies (x_session e) /\
                 asking libssh2_NB_state_sent1 (request true) (x_data e)) (mk_ext s x).
Proof.
  intros Hr [H1 (size & H2 & H2') H3 [H4 H4'] H5]. destruct (mark_signed username alg key) as [Hmark Hflag].
  unfold pblc_reply. x_step. eapply wp_mono; [apply pblc_wait_ok; [exact Hr|set_solver]|].
  intros rc [s1 x1] (-> & Hs1 & Hx1). cbn [x_session x_data] in Hs1, Hx1. subst x1. change (0 =? LIBSSH2_ERROR_EAGAIN) with false. cbn iota.
  do 2 x_step. simpl userauth_pblc_data_len.
  rewrite (proj2 (Z.ltb_ge _ _)) by (rewrite lenZ_cons; pose proof (lenZ_nonneg r); lia). change (negb (0 =? 0) || false) with false. cbn iota.
  do 2 x_step. unfold first_byte. simpl userauth_pblc_data. x_step.
  eapply wp_bind, wp_access; [done|]. eapply wp_access; [done|]. change (SSH_MSG_USERAUTH_PK_OK =? SSH_MSG_USERAUTH_SUCCESS) with false.
  change (SSH_MSG_USERAUTH_PK_OK =? SSH_MSG_USERAUTH_FAILURE) with false. cbn iota. unfold pblc_free_data. do 4 x_step.
  unfold Datatypes.id. simpl. rewrite H5, H2. eapply wp_bind, wp_access; [done|]. eapply wp_bind, wp_access; [done|]. simpl fst.
  eapply wp_bind, wp_access; [exact Hflag|]. unfold set_pblc_state. repeat x_step. split_and!; [done..|].
  rewrite Hmark. split; simpl; try done; [|by rewrite H3, !lenZ_request]. exists size. by rewrite !lenZ_request in *.
Qed.

(** The name the signature carries: a certificate's is shortened to the key's. *)
Context (n : Z) (Hplain : plain_method_len alg (lenZ alg) = Some n) (Hn : 0 <= n <= lenZ alg).
Context (Hsk : is_sk_method alg n = Some false).

(** The request with the signature behind it. *)
Definition signed_request : list Z :=
  request true ++ store_str [] (store_str [] (slice 0 n alg) ++ store_str [] sig).

Lemma lenZ_name : lenZ (slice 0 n alg) = n.
Proof. unfold slice, lenZ. rewrite length_take, length_drop. unfold lenZ in Hn. lia. Qed.

Lemma signature_text_string : signature_text (slice 0 n alg) sig false
  = store_str [] (store_str [] (slice 0 n alg) ++ store_str [] sig).
Proof.
  unfold signature_text. rewrite (store_str_app (store_str _ _) sig), (store_str_app (store_u32 _ _)).
  unfold store_str at 3. rewrite lenZ_app, !lenZ_store_str, <- app_assoc.
  by replace (4 + lenZ (slice 0 n alg) + 4 + lenZ sig) with (4 + lenZ (slice 0 n alg) + (4 + lenZ sig)) by lia.
Qed.

Lemma lenZ_signed : lenZ signed_request = lenZ (request true) + 4 + (4 + n) + (4 + lenZ sig).
Proof. unfold signed_request. rewrite lenZ_app, lenZ_store_str, lenZ_app, !lenZ_store_str, lenZ_name. lia. Qed.

(** The request is complete. *)
Record complete (st : libssh2_nonblocking_states) (x : pblc_data) : Prop := {
  co_state : userauth_pblc_state x = st;
  co_packet : exists size, userauth_pblc_packet x = Some (signed_request, size);
  co_len : userauth_pblc_s x = lenZ signed_request;
  co_method : userauth_pblc_method x = None
}.

Lemma store_signature size : lenZ (request true) + 4 + (4 + lenZ alg) + (4 + lenZ sig) <= size ->
  store_at (request true, size) (lenZ (request true)) (signature_text (slice 0 n alg) sig false) = Some (signed_request, size).
Proof.
  intros Hs. rewrite signature_text_string. unfold store_at. cbn [fst snd]. rewrite bytes_at_all by done.
  cbn [mbind option_bind]. fold signed_request. rewrite (proj2 (Z.leb_le _ _)); [done|]. rewrite lenZ_signed. lia.
Qed.

Lemma pblc_append_ok out replies s x : ready out replies s -> asking libssh2_NB_state_sent1 (request true) x ->
  wp (pblc_append key sig)
     (fun r e => r = None /\ ready out replies (x_session e) /\ complete libssh2_NB_state_sent2 (x_data e)) (mk_ext s x).
Proof.
  intros Hr [H1 (size & H2 & H2') H3 [H4 H4'] H5]. pose proof (lenZ_nonneg username). pose proof (lenZ_nonneg alg).
  pose proof (lenZ_nonneg key). pose proof (lenZ_nonneg sig). pose proof (request_size true) as Hreq.
  unfold pblc_append. do 2 x_step. unfold Datatypes.id. rewrite H2, H3, H4, H4'. eapply wp_bind, wp_access; [done|].
  rewrite u64_small by lia. x_step.
  apply (wp_mono _ (fun b e => exists size, b = Some (request true, size) /\
    lenZ (request true) + 4 + (4 + lenZ alg) + (4 + lenZ sig) <= size /\ ready out replies (x_session e) /\ x_data e = x)).
  { unfold grow_packet. x_step; breflect; [|x_step; exists size; split_and!; [done|lia|done..]].
    do 2 x_step. eapply wp_mono; [by apply server_alloc|]. intros b s1 [-> Hs1]. x_step. eexists. simpl fst.
    rewrite take_ge; [split_and!; [done|lia|done..]|]. unfold lenZ in *. lia. }
  intros b [s1 x1] (size1 & -> & Hsz & Hs1 & Hx). cbn [x_session x_data] in Hs1, Hx. subst x1. cbn iota.
  eapply wp_bind, wp_access; [done|]. eapply wp_bind, wp_access; [done|]. eapply wp_bind, wp_access; [done|].
  eapply wp_bind, wp_access; [by apply bytes_at_in; lia|]. eapply wp_bind, wp_access; [by apply store_signature|].
  unfold set_pblc_state. repeat x_step. split_and!; [done..|]. split; simpl; eauto.
Qed.

Abbreviation callback := (fun d => ret (sign d)).
Context (Hsign : sign (store_str [] id ++ request true) = (0, sig)).

Lemma pblc_sign_ok first retry out replies s x : ready out replies s -> asking libssh2_NB_state_sent1 (request true) x ->
  wp (pblc_sign key callback first retry)
     (fun r e => r = None /\ ready out replies (x_session e) /\ complete libssh2_NB_state_sent2 (x_data e)) (mk_ext s x).
Proof.
  intros Hr Hx. pose proof Hx as [H1 (size & H2 & H2') H3 [H4 H4'] H5]. unfold pblc_sign. do 4 x_step.
  eapply wp_mono; [by apply server_alloc|]. intros b s1 [-> Hs1]. simpl negb. cbn iota. unfold Datatypes.id. rewrite H2, H3.
  x_step. unfold wp at 1. rewrite (server_id out replies s1) by done. eapply wp_bind, wp_access; [done|].
  eapply wp_bind, wp_access; [by apply bytes_at_all|]. do 2 x_step. cbn [fst]. rewrite Hsign. cbn iota beta.
  change (0 =? LIBSSH2_ERROR_EAGAIN) with false. change (0 =? LIBSSH2_ERROR_ALGO_UNSUPPORTED) with false.
  change (negb (0 =? 0)) with false. simpl andb. cbn iota. by apply pblc_append_ok.
Qed.

Lemma pblc_send_signed_ok out replies s x : ready out replies s -> complete libssh2_NB_state_sent2 x ->
  wp (pblc_send_signed transport_send)
     (fun r e => r = None /\ ready (out ++ [signed_request]) replies (x_session e) /\
                 userauth_pblc_state (x_data e) = libssh2_NB_state_sent3 /\ userauth_pblc_method (x_data e) = None /\
                 userauth_pblc_packet (x_data e) = None) (mk_ext s x).
Proof.
  intros Hr [H1 (size & H2) H3 H4]. unfold pblc_send_signed. do 2 x_step. unfold Datatypes.id. rewrite H2, H3.
  eapply wp_bind, wp_access; [done|]. eapply wp_bind, wp_access; [by apply bytes_at_all|]. do 2 x_step.
  eapply wp_mono; [by apply server_send|]. intros rc s1 [-> Hs1]. rewrite app_nil_r in Hs1.
  change (0 =? LIBSSH2_ERROR_EAGAIN) with false. change (negb (0 =? 0)) with false. cbn iota.
  unfold set_pblc_state, pblc_free_packet. repeat x_step. by split_and!.
Qed.

Lemma pblc_result_ok r out replies s x : ready out ((SSH_MSG_USERAUTH_SUCCESS :: r) :: replies) s ->
  wp (pblc_result transport_read fuel)
     (fun rc e => rc = Some 0 /\ ready out replies (x_session e) /\
        Z.land (s_state (x_session e)) LIBSSH2_STATE_AUTHENTICATED <> 0 /\
        userauth_pblc_state (x_data e) = libssh2_NB_state_idle /\ userauth_pblc_data (x_data e) = None /\
        userauth_pblc_packet (x_data e) = userauth_pblc_packet x /\
        userauth_pblc_method (x_data e) = userauth_pblc_method x) (mk_ext s x).
Proof.
  intros Hr. unfold pblc_result. x_step. eapply wp_mono; [apply pblc_wait_ok; [exact Hr|set_solver]|].
  intros rc [s1 x1] (-> & Hs1 & Hx1). cbn [x_session x_data] in Hs1, Hx1. subst x1.
  change (0 =? LIBSSH2_ERROR_EAGAIN) with false. cbn iota. do 2 x_step. simpl userauth_pblc_data_len.
  rewrite (proj2 (Z.ltb_ge _ _)) by (rewrite lenZ_cons; pose proof (lenZ_nonneg r); lia). change (negb (0 =? 0) || false) with false. cbn iota.
  do 2 x_step. unfold first_byte. simpl userauth_pblc_data. x_step.
  eapply wp_bind, wp_access; [done|]. eapply wp_access; [done|]. change (SSH_MSG_USERAUTH_SUCCESS =? SSH_MSG_USERAUTH_SUCCESS) with true.
  cbn iota. unfold pblc_free_data, set_authenticated, set_pblc_state. repeat x_step. split_and!; try done.
  - by apply (server_state out replies s1 (Z.lor LIBSSH2_STATE_AUTHENTICATED (s_state s1))).
  - simpl. rewrite Z.land_lor_distr_l. intros [H _]%Z.lor_eq_0_iff. done.
Qed.

(** How the algorithm is chosen: from the name that starts the key. *)
Context (supported : list Z -> option (list Z)) (name rest : list Z).
Context (Hkey : key = store_str [] name ++ rest).
Context (Halg : forall out replies s (x : pblc_data), ready out replies s ->
  key_sign_algorithm supported name (lenZ name) (mk_ext s x) = Ret (0, alg, lenZ alg) (mk_ext s x)).

Lemma pblc_start_ok out replies s x : ready out replies s -> userauth_pblc_method x = None ->
  wp (pblc_start supported username key true)
     (fun r e => r = None /\ ready out replies (x_session e) /\ asking libssh2_NB_state_created (request false) (x_data e)) (mk_ext s x).
Proof.
  intros Hr Hm. pose proof (lenZ_nonneg name) as H0. pose proof (lenZ_nonneg rest). pose proof (lenZ_nonneg username).
  pose proof (lenZ_nonneg alg). pose proof (lenZ_nonneg sig).
  assert (Hk : lenZ key = 4 + lenZ name + lenZ rest) by (rewrite Hkey, lenZ_app, lenZ_store_str; lia).
  unfold pblc_start. rewrite (proj2 (Z.ltb_ge _ _)) by lia. do 2 x_step. unfold then_pblc, pblc_method_name. do 3 x_step.
  simpl userauth_pblc_method. rewrite Hm.
  assert (E1 : ntohu32 key 0 = Some (lenZ name)).
  { rewrite Hkey. unfold store_str, store_u32. rewrite u32_small by lia. rewrite <- (app_assoc (_ ++ _)).
    apply (ntohu32_htonu32 []). lia. }
  assert (E2 : bytes_at key 4 (lenZ name) = Some name).
  { rewrite bytes_at_in by lia. f_equal. rewrite Hkey. unfold store_str. rewrite <- app_assoc.
    change 4 with (lenZ (store_u32 [] (lenZ name))). apply slice_app_mid. }
  eapply wp_bind, wp_access; [exact E1|]. do 2 x_step. rewrite (proj2 (Z.ltb_ge _ _)) by lia.
  eapply wp_bind, wp_access; [exact E2|]. unfold build_packet. do 3 x_step.
  eapply wp_mono; [by apply server_alloc|]. intros b s1 [-> Hs1]. simpl negb. cbn iota. rewrite Z.leb_refl.
  do 4 x_step. unfold pblc_algorithm. do 4 x_step. unfold Datatypes.id.
  eapply wp_access; [done|]. x_step. simpl userauth_pblc_method_len. unfold wp at 1. rewrite (Halg out replies s1) by done.
  cbn iota beta. unfold set_pblc_method. do 3 x_step. cbn iota. by apply (pblc_request_ok out replies).
Qed.

(** A phase of the attempt, and the test of the state that follows it. *)
Ltac phase lem state :=
  eapply wp_mono; [by eapply lem|];
  let s := fresh "s" in let x := fresh "x" in let Hs := fresh "Hs" in let Hx := fresh "Hx" in
  intros ? [s x] (-> & Hs & Hx); cbn [x_session x_data] in Hs, Hx; cbn iota beta; do 3 x_step;
  rewrite (state _ _ Hx) || rewrite (state _ _ _ Hx); simpl nb_is; cbn iota.

(** C6: what a client proves with its key. With a server that agrees to the key and
    accepts the signature, [_libssh2_userauth_publickey] returns 0 with the session
    authenticated, after exactly two messages: the request that offers the key, and the
    same request marked as signed followed by the signature string, where what was signed
    is the session identifier as a string and that marked request. Nothing of the attempt
    is kept. *)
Theorem publickey_signs_request ok done_ s x
    (Hready : ready [] [SSH_MSG_USERAUTH_PK_OK :: ok; SSH_MSG_USERAUTH_SUCCESS :: done_] s)
    (Hidle : userauth_pblc_state x = libssh2_NB_state_idle /\ userauth_pblc_method x = None) :
  exists e, userauth_publickey transport_send transport_read fuel supported username key callback (mk_ext s x) = Ret 0 e /\
    ready [request false; signed_request] [] (x_session e) /\
    Z.land (s_state (x_session e)) LIBSSH2_STATE_AUTHENTICATED <> 0 /\
    userauth_pblc_state (x_data e) = libssh2_NB_state_idle /\ userauth_pblc_data (x_data e) = None /\
    userauth_pblc_packet (x_data e) = None /\ userauth_pblc_method (x_data e) = None.
Proof.
  match goal with |- exists e, ?m ?s = _ /\ @?P e => enough (Hw : wp m (fun rc e => rc = 0 /\ P e) s) by
    (apply wp_Ret in Hw as (rc & e & E & -> & HP); by exists e) end.
  destruct Hidle as [Hst Hm]. unfold userauth_publickey. x_step. unfold pblc_attempt, then_pblc.
  do 3 x_step. rewrite Hst. simpl nb_is. cbn iota.
  phase pblc_start_ok as_state. phase pblc_send_ok as_state. phase pblc_reply_ok as_state. phase pblc_sign_ok co_state.
  eapply wp_mono; [by eapply pblc_send_signed_ok|].
  intros r [s8 x8] (-> & Hs8 & _ & Hx8 & Hx9). cbn iota beta. cbn [x_session x_data] in Hs8, Hx8, Hx9.
  eapply wp_mono; [by eapply pblc_result_ok|].
  intros r [s9 x9] (-> & Hs9 & Ha & H1 & H2 & H3 & H4). x_step. split_and!; try done; simpl in *; congruence.
Qed.
End Trip.

(** ** A server that answers from a script *)

(** The next reply of the script is queued. *)
Definition scripted_read : CM Z :=
  let! script := gets s_send in
  match script with
  | [] => ret LIBSSH2_ERROR_EAGAIN
  | n :: script =>
      let d := take (Z.to_nat n) script in
      let! p := gets s_next_ptr in
      modify (fun s => s <| s_heap ::= <[p := d]> |> <| s_next_ptr := Pos.succ p |>
                         <| packets ::= fun ps => ps ++ [mk_packet p n 0] |>
                         <| s_send := drop (Z.to_nat n) script |>) ;;
      ret (default 0 (head d))
  end.

Definition recorded_send (d d2 : list Z) : CM Z :=
  modify (fun s => s <| s_wire ::= fun w => w ++ d ++ d2 |>) ;; ret 0.

Record scripted (id : list Z) (out replies : list (list Z)) (s : session) : Prop := {
  sc_alloc : s_alloc s = [];
  sc_queue : packets s = [];
  sc_socket : socket_state s = LIBSSH2_SOCKET_CONNECTED;
  sc_wire : s_wire s = concat out;
  sc_script : s_send s = concat (map (fun r => lenZ r :: r) replies);
  sc_types : Forall (fun r => exists c r', r = c :: r' /\ 0 < c < 256) replies;
  sc_id : s_heap s !! 1%positive = Some id /\ (1 < s_next_ptr s)%positive;
  sc_session : session_id (kx_server (s_kex s)) = Some 1%positive /\ session_id_len (kx_server (s_kex s)) = lenZ id
}.

(** Asking an empty queue, and one with one packet. *)
Lemma askv_empty codes ofs buf s : packets s = [] -> packet_askv codes ofs buf s = Ret None s.
Proof.
  intros H. induction codes as [|t codes IH]; cbn [packet_askv]; [done|]. unfold packet_ask, bind, gets. by rewrite H.
Qed.

Lemma askv_single codes c r p s : packets s = [mk_packet p (lenZ (c :: r)) 0] -> s_heap s !! p = Some (c :: r) -> c ∈ codes ->
  packet_askv codes 0 None s = Ret (Some (p, lenZ (c :: r))) (s <| packets := [] |>).
Proof.
  intros Hq Hp. induction codes as [|t codes IH]; [by intros ?%elem_of_nil|]. intros Hc. cbn [packet_askv].
  assert (E : packet_ask t 0 None s = if c =? t then Ret (Some (p, lenZ (c :: r))) (s <| packets := [] |>) else Ret None s).
  { unfold packet_ask, bind at 1, gets at 1. rewrite Hq. cbn [packet_ask_loop]. unfold packet_matches, block, bind, gets. simpl.
    rewrite Hp, (proj2 (Z.leb_le (0 + 0) (lenZ (c :: r)))) by apply lenZ_nonneg. cbn [access ret].
    change (byte_at (c :: r) 0) with (Some c). cbn [access ret]. rewrite andb_true_r. by destruct (c =? t). }
  unfold bind. rewrite E. destruct (Z.eqb_spec c t) as [->|Hne]; [done|]. apply IH. by apply elem_of_cons in Hc as [|].
Qed.

Lemma scripted_reply fuel id X (x : X) out c r replies codes start s :
  scripted id out ((c :: r) :: replies) s -> c ∈ codes ->
  wp (require_reply scripted_read (S fuel) codes start)
     (fun q e => exists s', q = (0, Some (c :: r), 0) /\ e = mk_ext s' x /\ scripted id out replies s') (mk_ext s x).
Proof.
  intros [H1 H2 H3 H4 H5 H6 [H7 H7'] H8] Hc. apply Forall_cons in H6 as [(c' & r' & [= <- <-] & Hr) H6].
  unfold require_reply. do 2 x_step. unfold packet_requirev. apply wp_bind. unfold wp at 1. rewrite askv_empty by done.
  cbn iota. apply wp_bind. apply (wp_mono _ (fun _ s' => exists cl, s' = s <| s_clock := cl |>)).
  { destruct (start =? 0); [|apply wp_ret; exists (s_clock s); by destruct s]. unfold wp, time.
    destruct (s_clock s) eqn:E; [exists []; rewrite <- E; by destruct s|by eexists]. }
  intros t s1 [cl ->]. cbn [packet_requirev_loop]. do 2 wp_pure. simpl socket_state. rewrite H3.
  change (negb (LIBSSH2_SOCKET_CONNECTED =? LIBSSH2_SOCKET_DISCONNECTED)) with true. cbn iota. wp_pure.
  unfold scripted_read. do 2 wp_pure. simpl s_send. rewrite H5. cbn [map concat app].
  set (script := concat _). replace (Z.to_nat (lenZ (c :: r))) with (length (c :: r)) by (unfold lenZ; lia).
  change (c :: r ++ script) with ((c :: r) ++ script).
  rewrite (take_app_length (c :: r) script), (drop_app_length (c :: r) script). do 5 wp_pure. simpl default.
  replace (c <? 0) with false by (symmetry; apply Z.ltb_ge; lia). simpl andb. cbn iota. wp_pure.
  replace (c <=? 0) with false by (symmetry; apply Z.leb_gt; lia). wp_pure.
  assert (Ht : types_mem codes c = true).
  { unfold types_mem. apply bool_decide_eq_true. unfold u8. rewrite Z.mod_small by lia. apply elem_of_app. by left. }
  rewrite Ht. wp_pure. unfold wp at 1. erewrite askv_single; [|simpl; by rewrite H2|simpl; apply lookup_insert_eq|done].
  wp_pure. cbn [fst snd ask_rc]. do 2 x_step. eapply wp_block; [simpl; apply lookup_insert_eq|].
  eapply wp_bind, wp_access; [by apply bytes_at_all|]. do 2 x_step. eapply wp_free_block; [simpl; apply lookup_insert_eq|].
  x_step. eexists. split_and!; [done..|]. split; simpl; try done. split; [|lia].
  rewrite lookup_delete_ne by lia. by rewrite lookup_insert_ne by lia.
Qed.

#[global] Instance scripted_server fuel id : Server recorded_send scripted_read (S fuel) id (scripted id).
Proof.
  split.
  - intros out replies s d d2 [H1 H2 H3 H4 H5 H6 H7 H8]. unfold recorded_send. do 3 wp_pure. split; [done|]. split; simpl; try done.
    rewrite H4, concat_app. simpl. by rewrite app_nil_r.
  - intros. by apply scripted_reply.
  - intros out replies s H. unfold wp, alloc_outcome. by rewrite (sc_alloc _ _ _ _ H).
  - intros out replies s X x H. destruct (sc_session _ _ _ _ H) as [E1 E2]. destruct (sc_id _ _ _ _ H) as [E3 _].
    unfold session_id_bytes, bind, xlift, gets, opt_bytes, block. simpl. rewrite E1. unfold bind, gets. rewrite E3, E2. simpl.
    by rewrite bytes_at_all.
  - intros out replies s st [H1 H2 H3 H4 H5 H6 H7 H8]. split; done.
Qed.

Definition session_20 : list Z := replicate 20 7.
Definition script_session (replies : list (list Z)) : session :=
  session_0 <| s_heap := {[1%positive := session_20]} |> <| s_next_ptr := 2%positive |>
            <| s_send := concat (map (fun r => lenZ r :: r) replies) |>
            <| s_kex ::= fun k => k <| kx_server ::= fun i => i <| session_id := Some 1%positive |> <| session_id_len := 20 |> |> |>.

Definition ed25519_key : list Z := store_str [] (str "ssh-ed25519") ++ store_str [] (replicate 32 9).
(** A signature that shows what was signed. *)
Definition shown (d : list Z) : Z * list Z := (0, take 64 d).
Definition shown_sig : list Z := (shown (store_str [] session_20 ++ publickey_request (str "u") (str "ssh-ed25519") ed25519_key true)).2.

Lemma publickey_signs_request_witness :
  let s := script_session [[SSH_MSG_USERAUTH_PK_OK]; [SSH_MSG_USERAUTH_SUCCESS]] in
  exists e, userauth_publickey recorded_send scripted_read 1 (fun _ => None) (str "u") ed25519_key
      (fun d => ret (shown d)) (mk_ext s pblc_data_0) = Ret 0 e /\
    scripted session_20 [publickey_request (str "u") (str "ssh-ed25519") ed25519_key false;
                 signed_request (str "u") (str "ssh-ed25519") ed25519_key shown_sig 11] [] (x_session e) /\
    Z.land (s_state (x_session e)) LIBSSH2_STATE_AUTHENTICATED <> 0 /\
    userauth_pblc_state (x_data e) = libssh2_NB_state_idle /\ userauth_pblc_data (x_data e) = None /\
    userauth_pblc_packet (x_data e) = None /\ userauth_pblc_method (x_data e) = None.
Proof.
  intros s. eapply (publickey_signs_request recorded_send scripted_read 1 session_20 (scripted session_20) (str "u")
    (str "ssh-ed25519") ed25519_key shown_sig shown _ 11 _ _ _ _ (fun _ => None) (str "ssh-ed25519")
    (store_str [] (replicate 32 9)) _ _ [] []).
  - split; try done. repeat constructor; by do 2 eexists.
  - done.
  Unshelve.
  all: try done.
Defined.

(** ** Particular cases: a callback that fails, a malformed reply, a short name *)

Section Expired.
Context (transport_send : list Z -> list Z -> CM Z) (transport_read : CM Z) (fuel : nat) (username password : list Z).

(** The server has asked for a new password. *)
Record expired (x : pswd_data) : Prop := {
  ex_state : userauth_pswd_state x = libssh2_NB_state_sent1;
  ex_data : exists d, userauth_pswd_data x = Some (SSH_MSG_USERAUTH_PASSWD_CHANGEREQ :: d);
  ex_len : 1 <= userauth_pswd_data_len x
}.

Abbreviation run cb := (userauth_password transport_send transport_read (S fuel) cb username password).

(** A callback that gives no new password ends the call with an error, but the state and
    the released message stay: the next call reads the message through a null pointer. *)
Theorem declined_password_faults cb s x (Hx : expired x) :
  exists e, run (Some None) (mk_ext s x) = Ret LIBSSH2_ERROR_PASSWORD_EXPIRED e /\ run cb e = Fault.
Proof.
  destruct Hx as [H1 [d H2] H3%Z.ltb_ge]. destruct x. simpl in *. subst. eexists. split.
  - unfold userauth_password, bind, xget, gets. simpl. unfold bind, xget, gets. simpl. rewrite H3. reflexivity.
  - unfold userauth_password, bind, xget, gets. simpl. unfold bind, xget, gets. simpl. by rewrite H3.
Qed.

(** Without a callback the return value is that of a refusal. *)
Theorem expired_without_callback s x (Hx : expired x) :
  exists e, run None (mk_ext s x) = Ret LIBSSH2_ERROR_AUTHENTICATION_FAILED e.
Proof.
  destruct Hx as [H1 [d H2] H3%Z.ltb_ge]. destruct x. simpl in *. subst. eexists.
  unfold userauth_password, bind, xget, gets. simpl. unfold bind, xget, gets. simpl. rewrite H3. reflexivity.
Qed.
End Expired.

(** Once a question was answered, a malformed one is dropped and the next message
    decides. *)
Example malformed_question_dropped :
  let x := kybd_data_0 <| userauth_kybd_state := libssh2_NB_state_sent |> in
  let s := script_session [SSH_MSG_USERAUTH_INFO_REQUEST :: replicate 16 255; [SSH_MSG_USERAUTH_SUCCESS]] in
  exists e, userauth_keyboard_interactive recorded_send scripted_read 3 (fun _ _ _ => []) (str "u") (mk_ext s x) = Ret 0 e /\
    s_wire (x_session e) = [].
Proof. eexists. split; [vm_compute; reflexivity|reflexivity]. Qed.

(** A failure message without its list leaves the call in the state of one that has
    sent its request: the next call sends none and waits for an answer. *)
Example short_failure_not_asked_again :
  let s := script_session [[SSH_MSG_USERAUTH_FAILURE]; SSH_MSG_USERAUTH_FAILURE :: 0 :: 0 :: 0 :: 4 :: str "none" ++ [0]] in
  let m := userauth_list recorded_send scripted_read 3 (str "u") in
  exists e e', m (mk_ext s list_data_0) = Ret None e /\ userauth_list_state (x_data e) = libssh2_NB_state_sent /\
    m e = Ret (Some (str "none" ++ [0] ++ str "none" ++ [0])) e' /\ s_wire (x_session e') = s_wire (x_session e).
Proof. eexists _, _. split_and!; [vm_compute; reflexivity|reflexivity|vm_compute; reflexivity|reflexivity]. Qed.

(** The name of a method that only starts like a certificate's is lengthened: what is
    copied behind the request ends after the block. *)
Example short_method_lengthened :
  plain_method_len (str "ssh") 3 = Some 7 /\ bytes_at (str "ssh") 0 7 = None.
Proof. by split. Qed.
