(* ===== verification/ChannelReq.v ===== *)
(** * Requests of a channel (channel.c): terminal, window size, agent, X11, exit signal

    Each request is a state machine in the channel's fields: the message is built, sent,
    and, where a reply is wanted, the server's answer for the channel awaited. *)

From stdpp Require Import base numbers list gmap strings.
From S2P Require Import Prelude Codes CString KexMethods Wire Session ChannelWindow Packet PacketWait ChannelIO ChannelCtl Conn Comp PacketSafety Transport TransportSpec TransportTrip Blocking.

Definition LIBSSH2_X11_RANDOM_COOKIE_LEN : Z := 32.

Definition set_req (p : ptr) (f : channel_requests -> channel_requests) : CM unit :=
  set_chan p (fun c => c <| c_requests ::= f |>).

Definition hex_digit (n : Z) : Z := if n <? 10 then 48 + n else 55 + n.

(** [%02X] of every byte. *)
Definition hex_bytes (l : list Z) : list Z := flat_map (fun b => [hex_digit (b / 16); hex_digit (b mod 16)]) l.

Section Requests.
Context (transport_send : list Z -> list Z -> CM Z) (transport_read : CM Z).
(** [_libssh2_random]. *)
Context (random : session -> Z -> option (list Z)).

(** The answer's first byte; the packet is released. *)
Definition answer_code (data : ptr) : CM Z :=
  let! d := block data in
  let! code := access (byte_at d 0) in
  free_block data ;; ret code.

(** ** Terminals *)

Definition pty_message (c : channel) (term modes : list Z) (width height width_px height_px : Z) : list Z :=
  store_str (store_u32 (store_u32 (store_u32 (store_u32
    (store_str (request_message c (str "pty-req") 1) term) width) height) width_px) height_px) modes.

Definition pty_idle (p : ptr) : CM unit := set_req p (fun r => r <| reqPTY_state := libssh2_NB_state_idle |>).

Definition pty_denied : CM Z :=
  error LIBSSH2_ERROR_CHANNEL_REQUEST_DENIED "Unable to complete request for channel request-pty".

Definition pty_reply (fuel : nat) (p : ptr) : CM Z :=
  let! c := chan p in
  let q := c_requests c in
  let! r := packet_requirev transport_read fuel reply_codes 1 (Some (reqPTY_local_channel q)) (reqPTY_start q) in
  let '(rc, out, start) := r in
  set_req p (fun r => r <| reqPTY_start := start |>) ;;
  let refused := pty_idle p ;; error LIBSSH2_ERROR_PROTO "Failed to require the PTY package" in
  if rc =? LIBSSH2_ERROR_EAGAIN then ret rc
  else if negb (rc =? 0) then refused
  else
    let! x := access out in
    if x.2 <? 1 then refused
    else
      let! code := answer_code x.1 in
      pty_idle p ;;
      if code =? SSH_MSG_CHANNEL_SUCCESS then ret 0 else pty_denied.

(** Sending what the array holds; [next] runs when it is sent. *)
Definition pty_send (p : ptr) (blocks fails : string) (next : CM Z) : CM Z :=
  let! c := chan p in
  let q := c_requests c in
  let! msg := access (bytes_at (reqPTY_packet q) 0 (reqPTY_packet_len q)) in
  let! rc := transport_send msg [] in
  if rc =? LIBSSH2_ERROR_EAGAIN then error rc blocks ;; ret rc
  else if negb (rc =? 0) then pty_idle p ;; error rc fails
  else set_req p (fun r => r <| reqPTY_local_channel := htonu32 (cd_id (local c)) |>) ;; next.

Definition pty_store (p : ptr) (msg : list Z) (len : Z) : CM unit :=
  let! c := chan p in
  let! packet := access (overwrite msg (reqPTY_packet (c_requests c))) in
  set_req p (fun r => r <| reqPTY_packet_len := len |> <| reqPTY_start := 0 |> <| reqPTY_packet := packet |>
                        <| reqPTY_state := libssh2_NB_state_created |>).

(** [channel_request_pty]; the lengths are [unsigned int]. *)
Definition channel_request_pty (fuel : nat) (p : ptr) (term modes : list Z)
    (width height width_px height_px : Z) : CM Z :=
  let! c := chan p in
  let sent := set_req p (fun r => r <| reqPTY_state := libssh2_NB_state_sent |>) ;; pty_reply fuel p in
  let send := pty_send p "Would block sending pty request" "Unable to send pty-request packet" sent in
  match reqPTY_state (c_requests c) with
  | libssh2_NB_state_idle =>
      if 256 <? u32 (lenZ term + lenZ modes) then error LIBSSH2_ERROR_INVAL "term + mode lengths too large"
      else
        pty_store p (pty_message c term modes width height width_px height_px) (u32 (lenZ term + lenZ modes + 41)) ;;
        send
  | libssh2_NB_state_created => send
  | libssh2_NB_state_sent => pty_reply fuel p
  | _ => pty_denied
  end.

Definition pty_size_message (c : channel) (width height width_px height_px : Z) : list Z :=
  store_u32 (store_u32 (store_u32 (store_u32 (request_message c (str "window-change") 0) width) height) width_px) height_px.

(** [channel_request_pty_size]: it uses the same fields. *)
Definition channel_request_pty_size (p : ptr) (width height width_px height_px : Z) : CM Z :=
  let! c := chan p in
  let send := pty_send p "Would block sending window-change request" "Unable to send window-change packet"
                (pty_idle p ;; ret LIBSSH2_ERROR_NONE) in
  match reqPTY_state (c_requests c) with
  | libssh2_NB_state_idle => pty_store p (pty_size_message c width height width_px height_px) 39 ;; send
  | libssh2_NB_state_created => send
  | _ => pty_idle p ;; ret LIBSSH2_ERROR_PROTO
  end.

(** ** Forwarding of the agent *)

Definition agent_idle (p : ptr) : CM unit := set_req p (fun r => r <| req_auth_agent_state := libssh2_NB_state_idle |>).

Definition agent_denied : CM Z :=
  error LIBSSH2_ERROR_CHANNEL_REQUEST_DENIED "Unable to complete request for auth-agent".

Definition agent_reply (fuel : nat) (p : ptr) : CM Z :=
  let! c := chan p in
  let q := c_requests c in
  let! r := packet_requirev transport_read fuel reply_codes 1 (Some (req_auth_agent_local_channel q))
              (req_auth_agent_start q) in
  let '(rc, out, start) := r in
  set_req p (fun r => r <| req_auth_agent_start := start |>) ;;
  if rc =? LIBSSH2_ERROR_EAGAIN then ret rc
  else if negb (rc =? 0) then agent_idle p ;; error LIBSSH2_ERROR_PROTO "Failed to request auth-agent"
  else
    let! x := access out in
    let! code := answer_code x.1 in
    agent_idle p ;;
    if code =? SSH_MSG_CHANNEL_SUCCESS then ret 0 else agent_denied.

(** A send that would block is recorded as an error, and the reply is awaited. *)
Definition agent_send (fuel : nat) (p : ptr) : CM Z :=
  let! c := chan p in
  let q := c_requests c in
  let! msg := access (bytes_at (req_auth_agent_packet q) 0 (req_auth_agent_packet_len q)) in
  let! rc := transport_send msg [] in
  let sent :=
    set_req p (fun r => r <| req_auth_agent_local_channel := htonu32 (cd_id (local c)) |>
                          <| req_auth_agent_state := libssh2_NB_state_sent |>) ;;
    agent_reply fuel p in
  if rc =? LIBSSH2_ERROR_EAGAIN then error rc "Would block sending auth-agent request" ;; sent
  else if negb (rc =? 0) then agent_idle p ;; error rc "Unable to send auth-agent request"
  else sent.

Definition channel_request_auth_agent (fuel : nat) (p : ptr) (request_str : list Z) : CM Z :=
  let! c := chan p in
  match req_auth_agent_state (c_requests c) with
  | libssh2_NB_state_idle =>
      if 26 <? lenZ request_str then error LIBSSH2_ERROR_INVAL "request_str length too large"
      else
        let! packet := access (overwrite (request_message c request_str 1) (req_auth_agent_packet (c_requests c))) in
        set_req p (fun r => r <| req_auth_agent_packet_len := 10 + lenZ request_str |> <| req_auth_agent_start := 0 |>
                              <| req_auth_agent_packet := packet |>
                              <| req_auth_agent_state := libssh2_NB_state_created |>) ;;
        agent_send fuel p
  | libssh2_NB_state_created => agent_send fuel p
  | libssh2_NB_state_sent => agent_reply fuel p
  | _ => agent_denied
  end.

(** One of the two attempts of [libssh2_channel_request_auth_agent]: another one follows
    a failure. *)
Definition agent_try (rounds fuel : nat) (p : ptr) (at_state next : libssh2_nonblocking_states) (request_str : list Z)
    (rc : Z) : CM Z :=
  let! c := chan p in
  if nb_is (req_auth_agent_try_state (c_requests c)) at_state then
    let! rc := block_adjust (fun _ m => m) transport_send (channel_request_auth_agent fuel p request_str) rounds in
    (if negb (rc =? LIBSSH2_ERROR_NONE) && negb (rc =? LIBSSH2_ERROR_EAGAIN)
     then set_req p (fun r => r <| req_auth_agent_try_state := next |>) else ret tt) ;;
    ret rc
  else ret rc.

Definition libssh2_channel_request_auth_agent (rounds fuel : nat) (channel : option ptr) : CM Z :=
  match channel with
  | None => ret LIBSSH2_ERROR_BAD_USE
  | Some p =>
      let! rc := agent_try rounds fuel p libssh2_NB_state_idle libssh2_NB_state_sent (str "auth-agent-req@openssh.com")
                   LIBSSH2_ERROR_CHANNEL_UNKNOWN in
      let! rc := agent_try rounds fuel p libssh2_NB_state_sent libssh2_NB_state_sent1 (str "auth-agent-req") rc in
      (if rc =? LIBSSH2_ERROR_NONE then set_req p (fun r => r <| req_auth_agent_try_state := libssh2_NB_state_idle |>)
       else ret tt) ;;
      ret rc
  end.

(** ** Forwarding of X11 *)

Definition x11_idle (p : ptr) : CM unit := set_req p (fun r => r <| reqX11_state := libssh2_NB_state_idle |>).

Definition x11_denied : CM Z :=
  error LIBSSH2_ERROR_CHANNEL_REQUEST_DENIED "Unable to complete request for channel x11-req".

Definition x11_message (c : channel) (single_connection : bool) (proto cookie : list Z) (screen_number : Z) : list Z :=
  store_u32 (store_str (store_str (request_message c (str "x11-req") 1 ++ [if single_connection then 1 else 0])
    proto) cookie) screen_number.

(** An answer without data is reported with the code 0. *)
Definition x11_reply (fuel : nat) (p : ptr) : CM Z :=
  let! c := chan p in
  let q := c_requests c in
  let! r := packet_requirev transport_read fuel reply_codes 1 (Some (reqX11_local_channel q)) (reqX11_start q) in
  let '(rc, out, start) := r in
  set_req p (fun r => r <| reqX11_start := start |>) ;;
  let refused := x11_idle p ;; error rc "waiting for x11-req response packet" in
  if rc =? LIBSSH2_ERROR_EAGAIN then ret rc
  else if negb (rc =? 0) then refused
  else
    let! x := access out in
    if x.2 <? 1 then refused
    else
      let! code := answer_code x.1 in
      x11_idle p ;;
      if code =? SSH_MSG_CHANNEL_SUCCESS then ret 0 else x11_denied.

Definition x11_send (fuel : nat) (p : ptr) : CM Z :=
  let! c := chan p in
  let! msg := access (reqX11_packet (c_requests c)) in
  let! rc := transport_send msg [] in
  if rc =? LIBSSH2_ERROR_EAGAIN then error rc "Would block sending X11-req packet" ;; ret rc
  else
    set_req p (fun r => r <| reqX11_packet := None |>) ;;
    if negb (rc =? 0) then x11_idle p ;; error rc "Unable to send x11-req packet"
    else
      set_req p (fun r => r <| reqX11_local_channel := htonu32 (cd_id (local c)) |>
                            <| reqX11_state := libssh2_NB_state_sent |>) ;;
      x11_reply fuel p.

(** The cookie: the caller's, or random bytes in hexadecimal. *)
Definition x11_cookie (auth_cookie : option (list Z)) : CM (option (list Z)) :=
  match auth_cookie with
  | Some k => ret (Some k)
  | None => let! b := gets (fun s => random s (LIBSSH2_X11_RANDOM_COOKIE_LEN / 2)) in ret (hex_bytes <$> b)
  end.

(** [channel_x11_req]; without random bytes the block stays in the channel. *)
Definition channel_x11_req (fuel : nat) (p : ptr) (single_connection : bool) (auth_proto auth_cookie : option (list Z))
    (screen_number : Z) : CM Z :=
  let! c := chan p in
  match reqX11_state (c_requests c) with
  | libssh2_NB_state_idle =>
      let! ok := alloc_outcome in
      if negb ok then
        set_req p (fun r => r <| reqX11_start := 0 |> <| reqX11_packet := None |>) ;;
        error LIBSSH2_ERROR_ALLOC "Unable to allocate memory for pty-request"
      else
        set_req p (fun r => r <| reqX11_start := 0 |> <| reqX11_packet := Some [] |>) ;;
        let! cookie := x11_cookie auth_cookie in
        match cookie with
        | None => error LIBSSH2_ERROR_RANDGEN "Unable to get random bytes for x11-req cookie"
        | Some cookie =>
            set_req p (fun r =>
              r <| reqX11_packet := Some (x11_message c single_connection
                     (default (str "MIT-MAGIC-COOKIE-1") auth_proto) cookie screen_number) |>
                <| reqX11_state := libssh2_NB_state_created |>) ;;
            x11_send fuel p
        end
  | libssh2_NB_state_created => x11_send fuel p
  | libssh2_NB_state_sent => x11_reply fuel p
  | _ => x11_denied
  end.
End Requests.

(** ** The exit of the remote program *)

Definition libssh2_channel_get_exit_status (channel : option ptr) : CM Z :=
  match channel with None => ret 0 | Some p => let! c := chan p in ret (exit_status c) end.

(** [libssh2_channel_get_exit_signal]: the code, [*exitsignal] and [*exitsignal_len];
    the other outputs are always empty. [strlen] reads the name. *)
Definition libssh2_channel_get_exit_signal (channel : option ptr) (want : bool) : CM (Z * option (list Z) * Z) :=
  match channel with
  | None => ret (LIBSSH2_ERROR_NONE, None, 0)
  | Some p =>
      let! c := chan p in
      match exit_signal c with
      | None => ret (LIBSSH2_ERROR_NONE, None, 0)
      | Some (NameUninit _) => fault
      | Some (NameSet name) =>
          let! t := access (c_string (name ++ [0])) in
          if want then
            let! ok := alloc_outcome in
            if negb ok then
              let! rc := error LIBSSH2_ERROR_ALLOC "Unable to allocate memory for signal name" in ret (rc, None, 0)
            else ret (LIBSSH2_ERROR_NONE, Some t, lenZ t)
          else ret (LIBSSH2_ERROR_NONE, None, lenZ t)
      end
  end.
