(* ===== verification/ChannelReqSpec.v ===== *)
(** * Channel requests and their answers

    A request of a channel that wants a reply succeeds only when the server has sent
    [SSH_MSG_CHANNEL_SUCCESS]: as long as no such message is in the queue or arrives, the
    calls, in whatever order and wherever they are interrupted, do not return 0. *)

From stdpp Require Import base numbers list gmap strings.
From S2P Require Import Prelude Codes CString KexMethods Wire Session ChannelWindow Packet PacketWait ChannelIO ChannelCtl Conn Comp PacketSafety PacketSpec Transport TransportSpec TransportTrip Blocking Yields ChannelReq.

Definition any_state (_ : Z) : Prop := True.
Abbreviation no_answer := (without SSH_MSG_CHANNEL_SUCCESS any_state).
Abbreviation nonzero := (fun rc : Z => rc <> 0).

(** A server that accepts nothing. *)
Class NoAnswer (transport_send : list Z -> list Z -> CM Z) (transport_read : CM Z) : Prop := {
  na_send : forall d d2, yields no_answer anything (transport_send d d2);
  na_read : yields no_answer anything transport_read
}.
#[export] Hint Resolve na_send na_read : yields.

(** The packet that was taken is not an acceptance either. *)
Definition taken_answer (out : option (ptr * Z)) (s : session) : Prop :=
  no_answer s /\ handed_over SSH_MSG_CHANNEL_SUCCESS s out.

Lemma yields_after {S A B} (I : S -> Prop) (I2 : A -> S -> Prop) (Q : B -> Prop) (m : M S A) (k : A -> M S B) :
  (forall s a s', m s = Ret a s' -> I s -> I2 a s') -> (forall a s, I2 a s -> I s) ->
  (forall a, yields (I2 a) Q (k a)) -> yields I Q (bind m k).
Proof.
  intros Hm HI Hk s b s' (a & s1 & E1 & E2)%bind_Ret_inv Hs.
  destruct (Hk a _ _ _ E2 (Hm _ _ _ E1 Hs)) as [H1 H2]. by split; [eapply HI|].
Qed.

Lemma yields_set_chan p f : yields no_answer anything (set_chan p f).
Proof. unfold set_chan, chan. yields_all. Qed.
Lemma yields_chan p : yields no_answer anything (chan p).
Proof. unfold chan. yields_all. Qed.
#[export] Hint Resolve yields_set_chan yields_chan : yields.

Lemma yields_nonzero_error code msg : code <> 0 -> yields no_answer nonzero (error code msg).
Proof. intros H. eapply yields_imp; [apply yields_error|]. by intros a ->. Qed.

Section Taken.
Context (out : option (ptr * Z)).

Lemma taken_error code msg : yields (taken_answer out) (fun rc => rc = code) (error code msg).
Proof. intros s a s' [= <- <-] H. by split. Qed.
Lemma taken_chan p : yields (taken_answer out) anything (chan p).
Proof. unfold chan. yields_all. Qed.
Lemma taken_set_chan p f : yields (taken_answer out) anything (set_chan p f).
Proof.
  unfold set_chan. eapply yields_bind; [apply taken_chan|]. intros c _. by apply yields_modify.
Qed.
Lemma taken_free_block p : yields (taken_answer out) anything (free_block p).
Proof.
  intros s a s' E [H1 H2]. split; [|done]. destruct (yields_free_block _ _ _ _ _ _ E H1) as [H _]. split; [done|].
  unfold free_block, bind, gets in E. destruct (s_heap s !! p); [|done]. injection E as <- <-.
  intros q len d Hq. simpl. intros [_ Hd]%lookup_delete_Some. by eapply H2.
Qed.
#[local] Hint Resolve taken_error taken_chan taken_set_chan taken_free_block : yields.

Lemma taken_block x : out = Some x -> yields (taken_answer out) (is_not SSH_MSG_CHANNEL_SUCCESS) (block x.1).
Proof.
  intros Ho s d s' E H. split.
  - unfold block, bind, gets, access in E. destruct (s_heap s !! x.1); [|done]. by injection E as _ <-.
  - unfold block, bind, gets, access in E. destruct (s_heap s !! x.1) eqn:Hd; [|done]. injection E as <- _.
    destruct x as [p len]. by eapply H.
Qed.

(** What the answer's first byte is not. *)
Lemma taken_code x : out = Some x -> yields (taken_answer out) (fun code => code <> SSH_MSG_CHANNEL_SUCCESS) (answer_code x.1).
Proof.
  intros Ho. unfold answer_code. eapply yields_bind; [by apply taken_block|]. intros d Hd.
  eapply (yields_bind _ (fun code => code <> SSH_MSG_CHANNEL_SUCCESS)).
  { apply yields_access. intros c Hc ->. by apply Hd. }
  intros c Hc. eapply yields_bind; [apply taken_free_block|]. intros _ _. by apply yields_ret.
Qed.
End Taken.
#[export] Hint Resolve taken_error taken_chan taken_set_chan taken_free_block : yields.

(** ** The length of an answer *)

Definition always {S} (_ : S) : Prop := True.
Definition long_enough (r : option (ptr * Z)) : Prop := forall x, r = Some x -> 1 <= x.2.

Lemma yields_always {A} (m : CM A) : yields always anything m.
Proof. done. Qed.

(** A packet that carries something from its second byte on has a first one. *)
Lemma ask_loop_long ty m : forall rest seen, yields always long_enough (packet_ask_loop seen rest ty 1 (Some m)).
Proof.
  induction rest as [|k rest IH]; intros seen; cbn [packet_ask_loop]; [by apply yields_ret|].
  apply (yields_bind _ (fun b : bool => b = true -> 1 <= pk_data_len k)).
  - unfold packet_matches. do 2 (apply (yields_bind _ anything); [apply yields_always|intros ? _]).
    destruct (_ && _) eqn:E; [|by apply yields_ret]. apply (yields_bind _ anything); [apply yields_always|]. intros b _.
    apply yields_ret. intros _. breflect. pose proof (lenZ_nonneg m). lia.
  - intros [] Hk; [|apply IH]. apply (yields_bind _ anything); [apply yields_always|]. intros _ _.
    apply yields_ret. intros x [= <-]. by apply Hk.
Qed.

Lemma askv_long tys m : yields always long_enough (packet_askv tys 1 (Some m)).
Proof.
  induction tys as [|ty tys IH]; cbn [packet_askv]; [by apply yields_ret|]. apply (yields_bind _ long_enough).
  - apply (yields_bind _ anything); [apply yields_always|]. intros ps _. apply ask_loop_long.
  - intros [x|] Hx; [by apply yields_ret|done].
Qed.

Lemma requirev_long transport_read fuel tys m start :
  yields always (fun r => long_enough r.1.2) (packet_requirev transport_read fuel tys 1 (Some m) start).
Proof.
  unfold packet_requirev. eapply yields_bind; [apply askv_long|]. intros [x|] Hx; [by apply yields_ret|].
  apply (yields_bind _ anything); [apply yields_always|]. clear start. intros start _. revert start.
  induction fuel as [|fuel IH]; intros start; cbn [packet_requirev_loop]; [done|].
  apply (yields_bind _ anything); [apply yields_always|]. intros st _. destruct (negb _); [|by apply yields_ret].
  apply (yields_bind _ anything); [apply yields_always|]. intros rc _. destruct (_ && _); [by apply yields_ret|].
  apply (yields_bind _ anything); [apply yields_always|]. intros [[c s]|] _; [by apply yields_ret|].
  destruct (types_mem _ _); [|apply IH]. eapply yields_bind; [apply askv_long|]. intros r Hr. by apply yields_ret.
Qed.

Section Requests.
Context (transport_send : list Z -> list Z -> CM Z) (transport_read : CM Z).
Context (random : session -> Z -> option (list Z)).
Context `{!NoAnswer transport_send transport_read}.

(** After the wait for an answer. *)
Lemma require_answer fuel tys m start (k : require_result -> CM Z) :
  (forall r, long_enough r.1.2 -> yields (taken_answer r.1.2) nonzero (k r)) ->
  yields no_answer nonzero (let! r := packet_requirev transport_read fuel tys 1 (Some m) start in k r).
Proof.
  intros Hk. apply (yields_after _ (fun r s => long_enough r.1.2 /\ taken_answer r.1.2 s)).
  - intros s r s' E Hs. split; [by eapply requirev_long|]. by eapply requirev_without; [apply na_read|..].
  - by intros a s (_ & [] & _).
  - intros r s a s' E [Hl Hs]. destruct (Hk r Hl _ _ _ E Hs). done.
Qed.

(** The common end: a code other than success is an error. *)
Lemma taken_end out x (m : CM unit) (e : CM Z) :
  out = Some x -> yields (taken_answer out) anything m -> yields (taken_answer out) nonzero e ->
  yields (taken_answer out) nonzero
    (let! code := answer_code x.1 in m ;; if code =? SSH_MSG_CHANNEL_SUCCESS then ret 0 else e).
Proof.
  intros Ho Hm He. eapply yields_bind; [by apply taken_code|]. intros c Hc. eapply yields_bind; [exact Hm|]. intros _ _.
  apply Z.eqb_neq in Hc. by rewrite Hc.
Qed.

Ltac taken_errors :=
  repeat first [ eapply yields_bind; [solve [eauto 2 with yields nocore]|cbn beta; intros ? ?]
               | eapply yields_imp; [apply taken_error|by intros ? ->] ].

(** The wait of a request up to its common end. *)
Ltac answer_start :=
  yields_step; apply require_answer; intros [[rc out] st] Hlong; simpl in Hlong |- *;
  eapply yields_bind; [apply taken_set_chan|]; intros _ _;
  destruct (Z.eqb_spec rc LIBSSH2_ERROR_EAGAIN) as [->|]; [by apply yields_ret|];
  destruct (Z.eqb_spec rc 0) as [->|Hrc]; cbn [negb]; [|taken_errors].

Lemma yields_pty_reply fuel p : yields no_answer nonzero (pty_reply transport_read fuel p).
Proof.
  unfold pty_reply, pty_idle, pty_denied, set_req. answer_start.
  eapply (yields_bind _ (fun x => out = Some x)); [by apply yields_access|]. intros x Hx.
  destruct (Z.ltb_spec x.2 1) as [?%Z.lt_nge|]; [by specialize (Hlong x Hx)|].
  apply taken_end; [done|apply taken_set_chan|taken_errors].
Qed.

Lemma yields_x11_reply fuel p : yields no_answer nonzero (x11_reply transport_read fuel p).
Proof.
  unfold x11_reply, x11_idle, x11_denied, set_req. answer_start.
  eapply (yields_bind _ (fun x => out = Some x)); [by apply yields_access|]. intros x Hx.
  destruct (Z.ltb_spec x.2 1) as [?%Z.lt_nge|]; [by specialize (Hlong x Hx)|].
  apply taken_end; [done|apply taken_set_chan|taken_errors].
Qed.

Lemma yields_agent_reply fuel p : yields no_answer nonzero (agent_reply transport_read fuel p).
Proof.
  unfold agent_reply, agent_idle, agent_denied, set_req. answer_start.
  eapply (yields_bind _ (fun x => out = Some x)); [by apply yields_access|]. intros x Hx.
  apply taken_end; [done|apply taken_set_chan|taken_errors].
Qed.

(** The same where the code looks at the packet in line. *)
Lemma taken_end_inline out x (m : CM unit) (e : CM Z) :
  out = Some x -> yields (taken_answer out) anything m -> yields (taken_answer out) nonzero e ->
  yields (taken_answer out) nonzero
    (let! d := block x.1 in let! ty := access (byte_at d 0) in free_block x.1 ;; m ;;
     if ty =? SSH_MSG_CHANNEL_SUCCESS then ret 0 else e).
Proof.
  intros Ho Hm He. eapply yields_bind; [by apply taken_block|]. intros d Hd.
  eapply (yields_bind _ (fun code => code <> SSH_MSG_CHANNEL_SUCCESS)).
  { apply yields_access. intros c Hc ->. by apply Hd. }
  intros c Hc. eapply yields_bind; [apply taken_free_block|]. intros _ _. eapply yields_bind; [exact Hm|]. intros _ _.
  apply Z.eqb_neq in Hc. by rewrite Hc.
Qed.

Lemma yields_setenv_reply fuel p : yields no_answer nonzero (setenv_reply transport_read fuel p).
Proof.
  unfold setenv_reply. answer_start.
  eapply (yields_bind _ (fun x => out = Some x)); [by apply yields_access|]. intros [data len] Hx. simpl.
  destruct (Z.ltb_spec len 1); [taken_errors|]. apply (taken_end_inline out (data, len)); [done|apply taken_set_chan|taken_errors].
Qed.

Lemma yields_process_reply fuel p : yields no_answer nonzero (process_reply transport_read fuel p).
Proof.
  unfold process_reply. answer_start.
  eapply (yields_bind _ (fun x => out = Some x)); [by apply yields_access|]. intros [data len] Hx. simpl.
  destruct (Z.ltb_spec len 1) as [?%Z.lt_nge|]; [by specialize (Hlong _ Hx)|].
  apply (taken_end_inline out (data, len)); [done|apply taken_set_chan|taken_errors].
Qed.

#[local] Hint Resolve yields_pty_reply yields_x11_reply yields_agent_reply yields_setenv_reply yields_process_reply : yields.

(** ** The requests *)

Inductive reply_request :=
| ReqPty (term modes : list Z) (width height width_px height_px : Z)
| ReqAgent (request_str : list Z)
| ReqX11 (single_connection : bool) (auth_proto auth_cookie : option (list Z)) (screen_number : Z)
| ReqSetenv (varname value : list Z)
| ReqStartup (request : list Z) (message : option (list Z)).

Definition run_request (fuel : nat) (p : ptr) (r : reply_request) : CM Z :=
  match r with
  | ReqPty term modes w h wp hp => channel_request_pty transport_send transport_read fuel p term modes w h wp hp
  | ReqAgent request_str => channel_request_auth_agent transport_send transport_read fuel p request_str
  | ReqX11 single proto cookie screen => channel_x11_req transport_send transport_read random fuel p single proto cookie screen
  | ReqSetenv varname value => channel_setenv transport_send transport_read fuel p varname value
  | ReqStartup request message => channel_process_startup transport_send transport_read fuel p request message
  end.

(** Calls of requests one after the other, on any channels. *)
Fixpoint run_requests (fuel : nat) (calls : list (ptr * reply_request)) : CM (list Z) :=
  match calls with
  | [] => ret []
  | (p, r) :: calls => let! rc := run_request fuel p r in let! rcs := run_requests fuel calls in ret (rc :: rcs)
  end.

Ltac request_codes := repeat match goal with H : (_ =? _) = true |- _ => apply Z.eqb_eq in H
  | H : negb (_ =? _) = true |- _ => apply negb_true_iff, Z.eqb_neq in H end; subst; done.

Lemma yields_run_request fuel p r : yields no_answer nonzero (run_request fuel p r).
Proof.
  destruct r; cbn [run_request];
    unfold channel_request_pty, channel_request_auth_agent, channel_x11_req, channel_setenv, channel_process_startup,
      pty_send, pty_store, pty_idle, pty_denied, agent_send, agent_idle, agent_denied, x11_send, x11_cookie, x11_idle,
      x11_denied, setenv_send, process_send, set_req;
    yields_all; request_codes.
Qed.
End Requests.

(** C19: no request of a channel that wants a reply succeeds without the server's
    acceptance: in any sequence of calls of the terminal, agent, X11, environment and
    process requests, on any channels and wherever they are interrupted, every call returns
    a code other than 0 as long as no [SSH_MSG_CHANNEL_SUCCESS] is queued or arrives. *)
Theorem request_needs_success transport_send transport_read random `{!NoAnswer transport_send transport_read}
    fuel calls s rcs s'
    (Hcalls : run_requests transport_send transport_read random fuel calls s = Ret rcs s')
    (Hnone : no_answer s) :
  no_answer s' /\ Forall (fun rc => rc <> 0) rcs.
Proof.
  revert s rcs s' Hcalls Hnone. change (yields no_answer (Forall nonzero) (run_requests transport_send transport_read random fuel calls)).
  induction calls as [|[p r] calls IH]; cbn [run_requests]; [by apply yields_ret|].
  eapply yields_bind; [by apply yields_run_request|]. intros rc Hrc. eapply yields_bind; [exact IH|].
  intros rcs Hrcs. apply yields_ret. by constructor.
Qed.

#[global] Instance no_answer_idle rc : NoAnswer (fun _ _ => ret rc) (ret rc).
Proof. split; intros; by apply yields_ret. Qed.

(** A server that refuses the first request, and a silent one after that. *)
Definition refusing_session : session :=
  session_0 <| s_heap := {[ 1%positive := SSH_MSG_CHANNEL_FAILURE :: htonu32 0 ]} |> <| s_next_ptr := 3%positive |>
    <| packets := [mk_packet 1%positive 5 0] |> <| s_chans := {[ 2%positive := channel_0 ]} |>.

Definition pty_and_shell : list (ptr * reply_request) :=
  [(2%positive, ReqPty (str "vt100") [] 80 24 0 0); (2%positive, ReqStartup (str "shell") None)].

Lemma request_needs_success_witness :
  exists rcs s', run_requests (fun _ _ => ret 0) (ret 0) (fun _ _ => None) 3 pty_and_shell refusing_session = Ret rcs s' /\
    no_answer s' /\ Forall (fun rc => rc <> 0) rcs.
Proof.
  destruct (run_requests (fun _ _ => ret 0) (ret 0) (fun _ _ => None) 3 pty_and_shell refusing_session) as [rcs s'| |] eqn:E;
    [|vm_compute in E; discriminate E..].
  exists rcs, s'. split; [reflexivity|].
  apply (request_needs_success (fun _ _ => ret 0) (ret 0) (fun _ _ => None) 3 pty_and_shell refusing_session rcs s' E).
  split; [done|]. intros q d Hq Hd. apply list_elem_of_singleton in Hq as ->. simpl in Hd.
  rewrite lookup_singleton_eq in Hd. injection Hd as <-. by vm_compute.
Defined.

(** ** Defects *)

(** the agent request goes on to wait for the answer when its message could not be sent:
    a second call no longer sends it. *)
Theorem agent_request_not_resent :
  exists s1, channel_request_auth_agent (fun _ _ => ret LIBSSH2_ERROR_EAGAIN) (ret LIBSSH2_ERROR_EAGAIN) 3 2%positive
      (str "auth-agent-req") (refusing_session <| packets := [] |> <| s_clock := [5; 6] |>) = Ret LIBSSH2_ERROR_EAGAIN s1 /\
    forall send, exists s2, channel_request_auth_agent send (ret LIBSSH2_ERROR_EAGAIN) 3 2%positive (str "auth-agent-req") s1 =
      Ret LIBSSH2_ERROR_EAGAIN s2.
Proof. eexists. split; [vm_compute; reflexivity|]. intros send. eexists. vm_compute. reflexivity. Qed.

(** the sum of the lengths of a terminal request is computed in 32 bits: lengths that add
    up to [2 ^ 32] pass the test, and the message is written behind the array. *)
Theorem pty_lengths_wrap transport_send transport_read fuel p c term modes w h wpx hpx s
    (Hc : s_chans s !! p = Some c) (Hidle : reqPTY_state (c_requests c) = libssh2_NB_state_idle)
    (Hsize : length (reqPTY_packet (c_requests c)) = 297%nat) (Hsum : lenZ term + lenZ modes = 2 ^ 32) :
  channel_request_pty transport_send transport_read fuel p term modes w h wpx hpx s = Fault.
Proof.
  unfold channel_request_pty. rewrite (bind_Ret _ _ _ c s) by (unfold chan, bind, gets; by rewrite Hc).
  rewrite Hidle, Hsum. change (256 <? u32 (2 ^ 32)) with false. cbn iota.
  assert (E : overwrite (pty_message c term modes w h wpx hpx) (reqPTY_packet (c_requests c)) = None).
  { unfold overwrite. rewrite decide_False; [done|]. rewrite Hsize. unfold pty_message, store_str, store_u32.
    rewrite !length_app. unfold lenZ in Hsum. lia. }
  assert (F : forall n, pty_store p (pty_message c term modes w h wpx hpx) n s = Fault).
  { intros n. unfold pty_store. rewrite (bind_Ret _ _ _ c s) by (unfold chan, bind, gets; by rewrite Hc). by rewrite E. }
  unfold bind at 1. by rewrite F.
Qed.
