(* ===== verification/ChannelApi.v ===== *)
(** * The public channel calls (channel.c)

    The functions an application calls: a channel has to be given, and the operation is
    repeated while it would block, when the session is in blocking mode. Lengths are those
    of the lists. *)

From stdpp Require Import base numbers list gmap strings.
From S2P Require Import Prelude Codes CString KexMethods Wire Session ChannelWindow Packet PacketAdd PacketWait ChannelIO ChannelCtl Blocking ChannelReq.

Section Api.
Context (transport_send : list Z -> list Z -> CM Z) (transport_read : CM Z) (rounds fuel : nat).
(** [_libssh2_random]. *)
Context (random : session -> Z -> option (list Z)).

(** [BLOCK_ADJUST] around an operation of the channel. *)
Definition on_channel (channel : option ptr) (x : ptr -> CM Z) : CM Z :=
  match channel with
  | None => ret LIBSSH2_ERROR_BAD_USE
  | Some p => block_adjust (fun _ m => m) transport_send (x p) rounds
  end.

Definition libssh2_channel_open_ex (type : list Z) (window_size packet_size : Z) (msg : list Z) : CM (option ptr) :=
  block_adjust_errno (fun _ m => m) transport_send
    (channel_open transport_send transport_read fuel type window_size packet_size msg) rounds.

Definition libssh2_channel_setenv_ex (channel : option ptr) (varname value : list Z) : CM Z :=
  on_channel channel (fun p => channel_setenv transport_send transport_read fuel p varname value).

Definition libssh2_channel_process_startup (channel : option ptr) (req : list Z) (msg : option (list Z)) : CM Z :=
  on_channel channel (fun p => channel_process_startup transport_send transport_read fuel p req msg).

Definition libssh2_channel_set_blocking (channel : option ptr) (blocking : bool) : CM unit :=
  match channel with
  | None => ret tt
  | Some _ => modify (fun s => s <| api_block_mode := blocking |>)
  end.

Definition libssh2_channel_request_pty_ex (channel : option ptr) (term modes : list Z)
    (width height width_px height_px : Z) : CM Z :=
  on_channel channel (fun p =>
    channel_request_pty transport_send transport_read fuel p term modes width height width_px height_px).

Definition libssh2_channel_request_pty_size_ex (channel : option ptr) (width height width_px height_px : Z) : CM Z :=
  on_channel channel (fun p => channel_request_pty_size transport_send p width height width_px height_px).

Definition libssh2_channel_x11_req_ex (channel : option ptr) (single_connection : bool)
    (auth_proto auth_cookie : option (list Z)) (screen_number : Z) : CM Z :=
  on_channel channel (fun p =>
    channel_x11_req transport_send transport_read random fuel p single_connection auth_proto auth_cookie screen_number).

Definition libssh2_channel_flush_ex (channel : option ptr) (stream : Z) : CM Z :=
  on_channel channel (fun p => channel_flush transport_send p stream).

(** [_libssh2_channel_receive_window_adjust] with a place for the window, which is
    stored before anything else. *)
Definition window_adjust_store (p : ptr) (adj : Z) (force : bool) : CM (Z * Z) :=
  let! c := chan p in
  let! rc := channel_receive_window_adjust transport_send p adj force in
  ret (rc, cd_window_size (remote c)).

(** The return value and [*window]; [none] is what is stored there when no attempt was
    the last step. *)
Definition libssh2_channel_receive_window_adjust2 (channel : option ptr) (adj : Z) (force : bool) (none : Z) : CM (Z * Z) :=
  match channel with
  | None => ret (LIBSSH2_ERROR_BAD_USE, none)
  | Some p => block_adjust_out (fun _ m => m) transport_send (window_adjust_store p adj force) none rounds
  end.

(** The deprecated variant returns the window; errors are converted to [unsigned long]. *)
Definition libssh2_channel_receive_window_adjust (channel : option ptr) (adj : Z) (force : bool) : CM Z :=
  let! r := libssh2_channel_receive_window_adjust2 channel adj force 0 in
  ret (if r.1 =? 0 then r.2 else u64 r.1).

Definition libssh2_channel_handle_extended_data2 (channel : option ptr) (mode : Z) : CM Z :=
  on_channel channel (fun p => channel_extended_data transport_send p mode).

Definition libssh2_channel_handle_extended_data (channel : option ptr) (ignore_mode : Z) : CM unit :=
  let! _ := libssh2_channel_handle_extended_data2 channel ignore_mode in ret tt.

(** The window is enlarged to the size of the buffer first, whatever comes of it. The
    number of bytes is kept in an [int]. *)
Definition libssh2_channel_read_ex (channel : option ptr) (stream_id buflen : Z) : CM (Z * list Z) :=
  match channel with
  | None => ret (LIBSSH2_ERROR_BAD_USE, [])
  | Some p =>
      let! c := chan p in
      (if cd_window_size (remote c) <? buflen
       then let! _ := on_channel channel (fun p => channel_receive_window_adjust transport_send p buflen true) in ret tt
       else ret tt) ;;
      block_adjust_out (fun _ m => m) transport_send
        (let! r := channel_read transport_send transport_read fuel p stream_id buflen in ret (s32 r.1, r.2)) [] rounds
  end.

Definition libssh2_channel_write_ex (channel : option ptr) (stream_id : Z) (buf : list Z) : CM Z :=
  on_channel channel (fun p => channel_write transport_send transport_read fuel p stream_id buf).

Definition libssh2_channel_send_eof (channel : option ptr) : CM Z :=
  on_channel channel (channel_send_eof transport_send).

Definition libssh2_channel_eof (channel : option ptr) : CM Z :=
  match channel with None => ret LIBSSH2_ERROR_BAD_USE | Some p => channel_eof p end.

Definition libssh2_channel_wait_eof (channel : option ptr) : CM Z :=
  on_channel channel (channel_wait_eof transport_read fuel).

Definition libssh2_channel_close (channel : option ptr) : CM Z :=
  on_channel channel (channel_close transport_send transport_read fuel).

Definition libssh2_channel_wait_closed (channel : option ptr) : CM Z :=
  on_channel channel (channel_wait_closed transport_read fuel).

Definition libssh2_channel_free (channel : option ptr) : CM Z :=
  on_channel channel (channel_free transport_send transport_read fuel).

Definition libssh2_channel_signal_ex (channel : option ptr) (signame : list Z) : CM Z :=
  on_channel channel (fun p => channel_signal transport_send p signame).

Definition libssh2_channel_window_read_ex (channel : option ptr) : CM (Z * Z * Z) :=
  match channel with None => ret (0, 0, 0) | Some p => channel_window_read_ex p end.

Definition libssh2_channel_window_write_ex (channel : option ptr) : CM (Z * Z) :=
  match channel with None => ret (0, 0) | Some p => channel_window_write_ex p end.
End Api.

(** [*window] is described as the new size of the receive window; it is the size before
    the adjustment. *)
Theorem window_adjust2_stores_old_size :
  exists s', libssh2_channel_receive_window_adjust2 (fun _ _ => ret 0) 1 (Some 1%positive) 5000 true 0
      (session_0 <| s_chans := {[ 1%positive := channel_0 <| remote := channel_data_0 <| cd_window_size := 100 |> |> ]} |>) =
    Ret (0, 100) s' /\
    (cd_window_size ∘ remote <$> s_chans s' !! 1%positive) = Some 5100.
Proof. eexists. split; vm_compute; reflexivity. Qed.
