(* ===== verification/ChannelFwd.v ===== *)
(** * Forwarded connections (channel.c)

    Connections through the server to another host, ports of the server that are listened
    on, and the connections that arrive there. A listener is named by its place in the
    session's list; [direct_*] and [fwdLstn_*] are fields of the session. *)

From stdpp Require Import base numbers list gmap strings.
From S2P Require Import Prelude Codes CString KexMethods Wire Session ChannelWindow Packet PacketAdd PacketWait ChannelIO ChannelCtl Conn Comp PacketSafety Transport TransportSpec TransportTrip Blocking Ext.

Record forward_data := mk_forward_data {
  direct_state : libssh2_nonblocking_states;
  direct_message : option (list Z);
  fwdLstn_state : libssh2_nonblocking_states;
  fwdLstn_packet : option (list Z);
  fwdLstn_host_len : Z;
  fwdLstn_start : Z
}.
#[global] Instance eta_forward_data : Eta forward_data := fun d =>
  mk_forward_data (direct_state d) (direct_message d) (fwdLstn_state d) (fwdLstn_packet d) (fwdLstn_host_len d)
    (fwdLstn_start d).

Definition forward_data_0 : forward_data :=
  mk_forward_data libssh2_NB_state_idle None libssh2_NB_state_idle None 0 0.

Abbreviation FM := (XM forward_data).

Section Forward.
Context (transport_send : list Z -> list Z -> CM Z) (transport_read : CM Z) (fuel : nat).

(** ** Connections to a host *)

Definition direct_tcpip_message (host : list Z) (port : Z) (shost : list Z) (sport : Z) : list Z :=
  store_u32 (store_str (store_u32 (store_str [] host) port) shost) sport.

Definition direct_open : FM (option ptr) :=
  let! m := xget direct_message in
  let! m := access m in
  let! ch := xlift (channel_open transport_send transport_read fuel (str "direct-tcpip")
                      LIBSSH2_CHANNEL_WINDOW_DEFAULT LIBSSH2_CHANNEL_PACKET_DEFAULT m) in
  let! e := xlift (gets err_code) in
  if match ch with None => true | Some _ => false end && (e =? LIBSSH2_ERROR_EAGAIN) then
    xset (fun d => d <| direct_state := libssh2_NB_state_created |>) ;; ret None
  else
    xset (fun d => d <| direct_state := libssh2_NB_state_idle |> <| direct_message := None |>) ;; ret ch.

(** [channel_direct_tcpip]. *)
Definition channel_direct_tcpip (host : list Z) (port : Z) (shost : list Z) (sport : Z) : FM (option ptr) :=
  let! st := xget direct_state in
  if nb_is st libssh2_NB_state_idle then
    let! ok := xlift alloc_outcome in
    if negb ok then
      xset (fun d => d <| direct_message := None |>) ;;
      xerror LIBSSH2_ERROR_ALLOC "Unable to allocate memory for direct-tcpip connection" ;; ret None
    else xset (fun d => d <| direct_message := Some (direct_tcpip_message host port shost sport) |>) ;; direct_open
  else direct_open.

Definition libssh2_channel_direct_tcpip_ex (rounds : nat) (host : list Z) (port : Z) (shost : list Z) (sport : Z) :
    FM (option ptr) :=
  block_adjust_errno (fun _ m => xlift m) transport_send (channel_direct_tcpip host port shost sport) rounds.

(** ** Listening *)

Definition forward_reply_codes : list Z := [SSH_MSG_REQUEST_SUCCESS; SSH_MSG_REQUEST_FAILURE].

Definition forward_message (host : list Z) (port : Z) : list Z :=
  store_u32 (store_str (store_str [SSH_MSG_GLOBAL_REQUEST] (str "tcpip-forward") ++ [1]) host) port.

Definition listen_idle : FM unit := xset (fun d => d <| fwdLstn_state := libssh2_NB_state_idle |>).

(** The listener is added when the structure and the copy of the name are allocated: its
    place and the port that is bound. *)
Definition listen_add (host : list Z) (port queue_maxsize data_len : Z) (d : list Z) : FM (option (nat * Z)) :=
  let! ok := xlift alloc_outcome in
  let! ok2 := (if (ok : bool) then xlift alloc_outcome else ret false) in
  if negb ok2 then
    xerror LIBSSH2_ERROR_ALLOC "Unable to allocate memory for listener queue" ;; ret None
  else
    let! host_len := xget fwdLstn_host_len in
    let! name := access (bytes_at (host ++ [0]) 0 host_len) in
    let! bound := (if (5 <=? data_len) && (port =? 0) then let! b := access (ntohu32 d 1) in ret (s32 b) else ret port) in
    let! n := xlift (gets (fun s => length (listeners s))) in
    xlift (modify (fun s => s <| listeners ::= fun ls =>
      ls ++ [mk_listener name bound [] 0 queue_maxsize libssh2_NB_state_idle None] |>)) ;;
    ret (Some (n, bound)).

Definition listen_reply (host : list Z) (port queue_maxsize : Z) : FM (option (nat * Z)) :=
  let! start := xget fwdLstn_start in
  let! r := xlift (packet_requirev transport_read fuel forward_reply_codes 0 None start) in
  let '(rc, out, start) := r in
  xset (fun d => d <| fwdLstn_start := start |>) ;;
  let unknown := xerror LIBSSH2_ERROR_PROTO "Unknown" ;; listen_idle ;; ret None in
  if rc =? LIBSSH2_ERROR_EAGAIN then xerror LIBSSH2_ERROR_EAGAIN "Would block" ;; ret None
  else if negb (rc =? 0) then unknown
  else
    let! x := access out in
    if x.2 <? 1 then unknown
    else
      let! d := xlift (block x.1) in
      let! ty := access (byte_at d 0) in
      if ty =? SSH_MSG_REQUEST_SUCCESS then
        let! l := listen_add host port queue_maxsize x.2 d in
        xlift (free_block x.1) ;; listen_idle ;; ret l
      else if ty =? SSH_MSG_REQUEST_FAILURE then
        xlift (free_block x.1) ;;
        xerror LIBSSH2_ERROR_REQUEST_DENIED "Unable to complete request for forward-listen" ;;
        listen_idle ;; ret None
      else listen_idle ;; ret None.

Definition listen_send (host : list Z) (port queue_maxsize : Z) : FM (option (nat * Z)) :=
  let! m := xget fwdLstn_packet in
  let! m := access m in
  let! rc := xlift (transport_send m []) in
  if rc =? LIBSSH2_ERROR_EAGAIN then
    xerror LIBSSH2_ERROR_EAGAIN "Would block sending global-request packet for forward listen request" ;; ret None
  else if negb (rc =? 0) then
    xerror LIBSSH2_ERROR_SOCKET_SEND "Unable to send global-request packet for forward listen request" ;;
    xset (fun d => d <| fwdLstn_packet := None |>) ;; listen_idle ;; ret None
  else
    xset (fun d => d <| fwdLstn_packet := None |> <| fwdLstn_state := libssh2_NB_state_sent |>) ;;
    listen_reply host port queue_maxsize.

(** [channel_forward_listen]. *)
Definition channel_forward_listen (host : option (list Z)) (port queue_maxsize : Z) : FM (option (nat * Z)) :=
  let host := default (str "0.0.0.0") host in
  let! st := xget fwdLstn_state in
  match st with
  | libssh2_NB_state_idle =>
      let! ok := xlift alloc_outcome in
      if negb ok then
        xset (fun d => d <| fwdLstn_host_len := lenZ host |> <| fwdLstn_start := 0 |> <| fwdLstn_packet := None |>) ;;
        xerror LIBSSH2_ERROR_ALLOC "Unable to allocate memory for setenv packet" ;; ret None
      else
        xset (fun d => d <| fwdLstn_host_len := lenZ host |> <| fwdLstn_start := 0 |>
                         <| fwdLstn_packet := Some (forward_message host port) |>
                         <| fwdLstn_state := libssh2_NB_state_created |>) ;;
        listen_send host port queue_maxsize
  | libssh2_NB_state_created => listen_send host port queue_maxsize
  | libssh2_NB_state_sent => listen_reply host port queue_maxsize
  | _ => listen_idle ;; ret None
  end.

Definition libssh2_channel_forward_listen_ex (rounds : nat) (host : option (list Z)) (port queue_maxsize : Z) :
    FM (option (nat * Z)) :=
  block_adjust_errno (fun _ m => xlift m) transport_send (channel_forward_listen host port queue_maxsize) rounds.

(** ** The end of listening *)

Definition listener_at (n : nat) : CM listener := let! ls := gets listeners in access (ls !! n).
Definition set_listener (n : nat) (f : listener -> listener) : CM unit :=
  modify (fun s => s <| listeners ::= alter f n |>).

Definition cancel_message (l : listener) : list Z :=
  store_u32 (store_str (store_str [SSH_MSG_GLOBAL_REQUEST] (str "cancel-tcpip-forward") ++ [0]) (host l)) (port l).

(** What follows [p] in the queue. *)
Fixpoint list_next (p : ptr) (q : list ptr) : option ptr :=
  match q with
  | [] => None
  | x :: q => if bool_decide (x = p) then head q else list_next p q
  end.

(** The connections that wait are freed; the next one is looked up before. [Some] is a
    return value. *)
Fixpoint cancel_queue (rounds n : nat) (queued : option ptr) : CM (option Z) :=
  match queued with
  | None => ret None
  | Some p =>
      match rounds with
      | O => fun _ => OutOfFuel
      | S rounds =>
          let! l := listener_at n in
          let next := list_next p (queue l) in
          let! rc := channel_free transport_send transport_read fuel p in
          if rc =? LIBSSH2_ERROR_EAGAIN then ret (Some rc) else cancel_queue rounds n next
      end
  end.

Definition cancel_finish (n : nat) (retcode : Z) : CM Z :=
  let! l := listener_at n in
  let! r := cancel_queue (S (length (queue l))) n (head (queue l)) in
  match r with
  | Some rc => ret rc
  | None => modify (fun s => s <| listeners ::= delete n |>) ;; ret retcode
  end.

Definition cancel_send (n : nat) (packet : list Z) : CM Z :=
  let! rc := transport_send packet [] in
  if rc =? LIBSSH2_ERROR_EAGAIN then
    error rc "Would block sending forward request" ;;
    set_listener n (fun l => l <| chanFwdCncl_data := Some packet |>) ;; ret rc
  else
    (if negb (rc =? 0) then
       error LIBSSH2_ERROR_SOCKET_SEND "Unable to send global-request packet for forward listen request" ;; ret tt
     else ret tt) ;;
    set_listener n (fun l => l <| chanFwdCncl_state := libssh2_NB_state_sent |>) ;;
    cancel_finish n (if rc =? 0 then 0 else LIBSSH2_ERROR_SOCKET_SEND).

(** [_libssh2_channel_forward_cancel]. *)
Definition channel_forward_cancel (n : nat) : CM Z :=
  let! l := listener_at n in
  match chanFwdCncl_state l with
  | libssh2_NB_state_idle =>
      let! ok := alloc_outcome in
      if negb ok then
        error LIBSSH2_ERROR_ALLOC "Unable to allocate memory for setenv packet" ;; ret LIBSSH2_ERROR_ALLOC
      else
        set_listener n (fun l => l <| chanFwdCncl_state := libssh2_NB_state_created |>) ;;
        cancel_send n (cancel_message l)
  | libssh2_NB_state_created => let! m := access (chanFwdCncl_data l) in cancel_send n m
  | _ => cancel_finish n 0
  end.

Definition libssh2_channel_forward_cancel (rounds : nat) (listener : option nat) : CM Z :=
  match listener with
  | None => ret LIBSSH2_ERROR_BAD_USE
  | Some n => block_adjust (fun _ m => m) transport_send (channel_forward_cancel n) rounds
  end.

(** ** Accepting *)

(** [channel_forward_accept]. *)
Definition channel_forward_accept (n : nat) : CM (option ptr) :=
  let! rc := transport_drain transport_read fuel in
  let! l := listener_at n in
  match queue l with
  | p :: q =>
      set_listener n (fun l => l <| queue := q |> <| queue_size ::= fun k => s32 (k - 1) |>) ;;
      modify (fun s => s <| channels ::= fun cs => cs ++ [p] |>) ;;
      ret (Some p)
  | [] =>
      (if rc =? LIBSSH2_ERROR_EAGAIN then error LIBSSH2_ERROR_EAGAIN "Would block waiting for packet"
       else error LIBSSH2_ERROR_CHANNEL_UNKNOWN "Channel not found") ;;
      ret None
  end.

Definition libssh2_channel_forward_accept (rounds : nat) (listener : option nat) : CM (option ptr) :=
  match listener with
  | None => ret None
  | Some n => block_adjust_errno (fun _ m => m) transport_send (channel_forward_accept n) rounds
  end.
End Forward.
