(* ===== verification/SessionStart.v ===== *)
(** * Setting up and ending a session (session.c)

    The exchange of identification lines, [session_startup] with its stages, and the
    message that ends a session. The progress is in the fields [banner_TxRx_*],
    [startup_*] and [disconnect_*] of the session; the flags of the socket's descriptor
    are the operating system's. The platform has [O_NONBLOCK]. *)

From stdpp Require Import base numbers list gmap strings.
From S2P Require Import Prelude Codes CString KexMethods Wire Session ChannelWindow Packet Conn Comp PacketWait Transport Kex KexDh Ext Blocking.

Record startup := mk_startup {
  banner_TxRx_state : libssh2_nonblocking_states;
  banner_TxRx_banner : list Z;
  banner_TxRx_total_send : Z;
  startup_state : libssh2_nonblocking_states;
  startup_data : option ptr;
  startup_data_len : Z;
  startup_service : list Z;
  startup_service_length : Z;
  startup_req_start : Z;
  disconnect_state : libssh2_nonblocking_states;
  disconnect_data : list Z;
  disconnect_data_len : Z;
  session_free_state : libssh2_nonblocking_states;
  socket_fd : Z;
  socket_prev_blockstate : bool;
  fd_flags : option Z;
  fd_setfl : list Z
}.
#[global] Instance eta_startup : Eta startup := fun d =>
  mk_startup (banner_TxRx_state d) (banner_TxRx_banner d) (banner_TxRx_total_send d) (startup_state d)
    (startup_data d) (startup_data_len d) (startup_service d) (startup_service_length d) (startup_req_start d)
    (disconnect_state d) (disconnect_data d) (disconnect_data_len d) (session_free_state d) (socket_fd d) (socket_prev_blockstate d)
    (fd_flags d) (fd_setfl d).

Definition startup_0 : startup :=
  mk_startup libssh2_NB_state_idle (replicate 256 0) 0 libssh2_NB_state_idle None 0 (replicate 17 0) 0 0
    libssh2_NB_state_idle (replicate 269 0) 0 libssh2_NB_state_idle 0 false (Some 0) [].

Abbreviation SM := (XM startup).

(** ** Identification lines *)

Definition CR : Z := 13.
Definition LF : Z := 10.
Definition end_of_line (c : Z) : bool := (c =? LF) || (c =? CR).

Definition banner_idle : SM unit :=
  xset (fun d => d <| banner_TxRx_state := libssh2_NB_state_idle |> <| banner_TxRx_total_send := 0 |>).

(** The condition of the reading loop. *)
Definition banner_more (banner : list Z) (banner_len : Z) : option bool :=
  if banner_len <? 256 then
    if banner_len =? 0 then Some true
    else c ← byte_at banner (banner_len - 1); Some (negb (c =? LF))
  else Some false.

Definition banner_store (banner_len c : Z) : SM unit :=
  let! b := xget banner_TxRx_banner in
  if (0 <=? banner_len) && (banner_len <? lenZ b) then
    xset (fun d => d <| banner_TxRx_banner ::= <[Z.to_nat banner_len := c]> |>)
  else fault.

Definition banner_disconnected : SM (Z + Z) :=
  xlift (modify (fun s => s <| socket_state := LIBSSH2_SOCKET_DISCONNECTED |>)) ;;
  ret (inl LIBSSH2_ERROR_SOCKET_DISCONNECT).

(** The reading loop: [inl] is a return value, [inr] the number of bytes read. *)
Fixpoint banner_loop (fuel : nat) (banner_len : Z) : SM (Z + Z) :=
  match fuel with
  | O => fun _ => OutOfFuel
  | S fuel =>
      let! b := xget banner_TxRx_banner in
      let! more := access (banner_more b banner_len) in
      if negb more then ret (inr banner_len)
      else
        xlift (modify (fun s => s <| socket_block_directions ::= fun d => Z.ldiff d LIBSSH2_SESSION_BLOCK_INBOUND |>)) ;;
        let! r := xlift (socket_recv 1) in
        match r with
        | inl rc =>
            if rc =? - EAGAIN then
              xlift (modify (fun s => s <| socket_block_directions := LIBSSH2_SESSION_BLOCK_INBOUND |>)) ;;
              xset (fun d => d <| banner_TxRx_total_send := banner_len |>) ;;
              ret (inl LIBSSH2_ERROR_EAGAIN)
            else if rc <? 0 then banner_idle ;; ret (inl LIBSSH2_ERROR_SOCKET_RECV)
            else banner_disconnected
        | inr [] => banner_disconnected
        | inr (c :: _) =>
            if end_of_line c && (banner_len =? 0) then banner_loop fuel banner_len
            else if c =? 0 then banner_idle ;; ret (inl LIBSSH2_ERROR_BANNER_RECV)
            else banner_store banner_len c ;; banner_loop fuel (banner_len + 1)
        end
  end.

(** Every round of the loop takes a byte or an outcome from the socket. *)
Definition recv_rounds (l : list recv_outcome) : nat :=
  sum_list ((fun r => match r with RecvBytes bs => S (length bs) | RecvFail _ => 1%nat end) <$> l).

(** The line without its end. *)
Fixpoint banner_strip (banner : list Z) (n : nat) : option nat :=
  match n with
  | O => Some O
  | S m => c ← byte_at banner (Z.of_nat m); if end_of_line c then banner_strip banner m else Some n
  end.

Definition banner_keep (banner_len : Z) : SM Z :=
  let! d := gets x_data in
  let! n := access (banner_strip (banner_TxRx_banner d) (Z.to_nat banner_len)) in
  banner_idle ;;
  if Nat.eqb n 0 then ret LIBSSH2_ERROR_BANNER_RECV
  else
    let! old := xlift (gets (fun s => ke_banner (kx_remote (s_kex s)))) in
    xlift (free_opt old) ;;
    let! text := access (bytes_at (banner_TxRx_banner d) 0 (Z.of_nat n)) in
    let! p := xlift (alloc_block (text ++ [0])) in
    xlift (set_kex_ep Remote (fun e => e <| ke_banner := p |>)) ;;
    match p with
    | None => xerror LIBSSH2_ERROR_ALLOC "Error allocating space for remote banner"
    | Some _ => ret LIBSSH2_ERROR_NONE
    end.

Definition banner_receive : SM Z :=
  let! d := gets x_data in
  let idle := nb_is (banner_TxRx_state d) libssh2_NB_state_idle in
  (if idle then xset (fun d => d <| banner_TxRx_state := libssh2_NB_state_created |>) else ret tt) ;;
  let! fuel := xlift (gets (fun s => S (recv_rounds (s_recv s)))) in
  let! r := banner_loop fuel (if idle then 0 else banner_TxRx_total_send d) in
  match r with inl rc => ret rc | inr banner_len => banner_keep banner_len end.

Definition LIBSSH2_SSH_DEFAULT_BANNER_WITH_CRLF : list Z := LIBSSH2_SSH_DEFAULT_BANNER ++ [CR; LF].

(** The line to send: a call that is resumed has the default one. *)
Definition banner_text (idle : bool) : SM (list Z) :=
  let! own := xlift (gets (fun s => ke_banner (kx_local (s_kex s)))) in
  match own with
  | Some p => if idle then let! b := xlift (block p) in access (c_string b)
              else ret LIBSSH2_SSH_DEFAULT_BANNER_WITH_CRLF
  | None => ret LIBSSH2_SSH_DEFAULT_BANNER_WITH_CRLF
  end.

(** The number of bytes left is converted to [size_t]. *)
Definition banner_send : SM Z :=
  let! d := gets x_data in
  let idle := nb_is (banner_TxRx_state d) libssh2_NB_state_idle in
  let! banner := banner_text idle in
  (if idle then xset (fun d => d <| banner_TxRx_state := libssh2_NB_state_created |>) else ret tt) ;;
  xlift (modify (fun s => s <| socket_block_directions ::= fun d => Z.ldiff d LIBSSH2_SESSION_BLOCK_OUTBOUND |>)) ;;
  let left := lenZ banner - banner_TxRx_total_send d in
  let! bytes := access (bytes_at banner (banner_TxRx_total_send d) (u64 left)) in
  let! r := xlift (socket_send bytes) in
  if negb (r =? left) then
    if (0 <=? r) || (r =? - EAGAIN) then
      xlift (modify (fun s => s <| socket_block_directions := LIBSSH2_SESSION_BLOCK_OUTBOUND |>)) ;;
      (if 0 <? r then xset (fun d => d <| banner_TxRx_total_send ::= fun t => t + r |>) else ret tt) ;;
      ret LIBSSH2_ERROR_EAGAIN
    else banner_idle ;; ret LIBSSH2_ERROR_SOCKET_RECV
  else banner_idle ;; ret 0.

(** [libssh2_session_banner_set]; [banner] is a string without terminator. *)
Definition libssh2_session_banner_set (banner : option (list Z)) : CM Z :=
  let! old := gets (fun s => ke_banner (kx_local (s_kex s))) in
  free_opt old ;;
  set_kex_ep Local (fun e => e <| ke_banner := None |>) ;;
  match default [] banner with
  | [] => ret 0
  | text =>
      let! p := alloc_block (text ++ [CR; LF; 0]) in
      set_kex_ep Local (fun e => e <| ke_banner := p |>) ;;
      match p with
      | None => error LIBSSH2_ERROR_ALLOC "Unable to allocate memory for local banner"
      | Some _ => ret 0
      end
  end.

(** [libssh2_session_banner_get]: the string. *)
Definition libssh2_session_banner_get : CM (option (list Z)) :=
  let! p := gets (fun s => ke_banner (kx_remote (s_kex s))) in
  match p with
  | None => ret None
  | Some p => let! b := block p in let! t := access (c_string b) in ret (Some t)
  end.

(** ** The descriptor *)

Definition O_NONBLOCK : Z := 2048.

(** [fcntl(fd, F_GETFL)] and [fcntl(fd, F_SETFL, flags)]. *)
Definition fcntl_getfl : SM Z := let! f := xget fd_flags in ret (default (-1) f).
Definition fcntl_setfl (flags : Z) : SM Z :=
  let! f := xget fd_flags in
  let! outcomes := xget fd_setfl in
  xset (fun d => d <| fd_setfl := tail outcomes |>) ;;
  match f, default 0 (head outcomes) with
  | Some _, 0 => xset (fun d => d <| fd_flags := Some flags |>) ;; ret 0
  | _, _ => ret (-1)
  end.

Definition session_nonblock (nonblock : bool) : SM Z :=
  let! flags := fcntl_getfl in
  fcntl_setfl (if nonblock then Z.lor flags O_NONBLOCK else Z.ldiff flags O_NONBLOCK).

Definition get_socket_nonblocking : SM Z :=
  let! flags := fcntl_getfl in
  ret (if flags =? -1 then 1 else Z.land flags O_NONBLOCK).

(** ** The stages of a session's start *)

Section Start.
Context (transport_send : list Z -> list Z -> CM Z) (transport_read : CM Z) (fuel : nat).
(** [_libssh2_kex_exchange(session, 0, &session->startup_key_state)]. *)
Context (kex_exchange : CM Z).

(** [Some] is a return value, [None] goes on. *)
Definition start_stage (st : libssh2_nonblocking_states) (body : SM (option Z)) : SM (option Z) :=
  let! cur := xget startup_state in if nb_is cur st then body else ret None.

Definition start_then (m k : SM (option Z)) : SM (option Z) :=
  let! r := m in match r with Some rc => ret (Some rc) | None => k end.

Definition start_next (st : libssh2_nonblocking_states) : SM (option Z) :=
  xset (fun d => d <| startup_state := st |>) ;; ret None.

Definition start_fail (code : Z) (msg : string) : SM (option Z) := let! rc := xerror code msg in ret (Some rc).

Definition startup_socket (sock : Z) : SM (option Z) :=
  if sock =? -1 then start_fail LIBSSH2_ERROR_BAD_SOCKET "Bad socket provided"
  else
    xset (fun d => d <| socket_fd := sock |>) ;;
    let! nb := get_socket_nonblocking in
    xset (fun d => d <| socket_prev_blockstate := nb =? 0 |>) ;;
    let! rc := (if nb =? 0 then session_nonblock true else ret 0) in
    if negb (rc =? 0) then start_fail rc "Failed changing socket's blocking state to non-blocking"
    else start_next libssh2_NB_state_created.

Definition startup_banner_send : SM (option Z) :=
  let! rc := banner_send in
  if rc =? LIBSSH2_ERROR_EAGAIN then ret (Some rc)
  else if negb (rc =? 0) then start_fail rc "Failed sending banner"
  else
    xset (fun d => d <| startup_state := libssh2_NB_state_sent |> <| banner_TxRx_state := libssh2_NB_state_idle |>) ;;
    ret None.

(** Lines are read until one starts with [SSH-]; a round takes bytes from the socket. *)
Fixpoint startup_lines (rounds : nat) : SM (option Z) :=
  match rounds with
  | O => fun _ => OutOfFuel
  | S rounds =>
      let! rc := banner_receive in
      if rc =? LIBSSH2_ERROR_EAGAIN then ret (Some rc)
      else if negb (rc =? 0) then start_fail rc "Failed getting banner"
      else
        let! p := xlift (gets (fun s => ke_banner (kx_remote (s_kex s)))) in
        let! p := access p in
        let! b := xlift (block p) in
        let! eq := access (strncmp_eq 4 (str "SSH-" ++ [0]) 0 b 0) in
        if (eq : bool) then start_next libssh2_NB_state_sent1 else startup_lines rounds
  end.

Definition startup_banner_receive : SM (option Z) :=
  let! rounds := xlift (gets (fun s => S (recv_rounds (s_recv s)))) in startup_lines rounds.

Definition startup_kex : SM (option Z) :=
  let! rc := xlift kex_exchange in
  if rc =? LIBSSH2_ERROR_EAGAIN then ret (Some rc)
  else if negb (rc =? 0) then start_fail rc "Unable to exchange encryption keys"
  else start_next libssh2_NB_state_sent2.

Definition USERAUTH_SERVICE : list Z := str "ssh-userauth".

Definition startup_request : SM (option Z) :=
  xset (fun d => d <| startup_service := [SSH_MSG_SERVICE_REQUEST] ++ htonu32 (lenZ USERAUTH_SERVICE) ++ USERAUTH_SERVICE |>) ;;
  start_next libssh2_NB_state_sent3.

Definition startup_request_send : SM (option Z) :=
  let! msg := xget startup_service in
  let! rc := xlift (transport_send msg []) in
  if rc =? LIBSSH2_ERROR_EAGAIN then ret (Some rc)
  else if negb (rc =? 0) then start_fail rc "Unable to ask for ssh-userauth service"
  else start_next libssh2_NB_state_sent4.

Definition startup_free_data (p : ptr) : SM unit :=
  xlift (free_block p) ;; xset (fun d => d <| startup_data := None |>).

(** The service the server accepted; the name is compared with [strncmp]. *)
Definition startup_accept : SM (option Z) :=
  let! len := xget startup_data_len in
  if len <? 5 then start_fail LIBSSH2_ERROR_PROTO "Unexpected packet length"
  else
    let! p := xget startup_data in
    let! p := access p in
    let! d := xlift (block p) in
    let! n := access (ntohu32 d 1) in
    xset (fun d => d <| startup_service_length := n |>) ;;
    let! eq := (if n =? lenZ USERAUTH_SERVICE
                then access (strncmp_eq (Z.to_nat n) (USERAUTH_SERVICE ++ [0]) 0 d 5)
                else ret false) in
    startup_free_data p ;;
    if (eq : bool) then
      xset (fun d => d <| startup_state := libssh2_NB_state_idle |>) ;; ret (Some 0)
    else start_fail LIBSSH2_ERROR_PROTO "Invalid response received from server".

(** [startup_data] is assigned only when a packet is found. *)
Definition startup_reply : SM (option Z) :=
  let! start := xget startup_req_start in
  let! r := xlift (packet_require transport_read fuel SSH_MSG_SERVICE_ACCEPT 0 None start) in
  xset (fun d => d <| startup_req_start := r.2 |>) ;;
  (match r.1.2 with
   | Some (p, len) => xset (fun d => d <| startup_data := Some p |> <| startup_data_len := len |>)
   | None => ret tt
   end) ;;
  if negb (r.1.1 =? 0) then start_fail r.1.1 "Failed to get response to ssh-userauth request"
  else startup_accept.

Definition startup_stages (sock : Z) : SM (option Z) :=
  start_then (start_stage libssh2_NB_state_idle (startup_socket sock))
  (start_then (start_stage libssh2_NB_state_created startup_banner_send)
  (start_then (start_stage libssh2_NB_state_sent startup_banner_receive)
  (start_then (start_stage libssh2_NB_state_sent1 startup_kex)
  (start_then (start_stage libssh2_NB_state_sent2 startup_request)
  (start_then (start_stage libssh2_NB_state_sent3 startup_request_send)
  (start_stage libssh2_NB_state_sent4 startup_reply)))))).

Definition session_startup (sock : Z) : SM Z :=
  let! r := startup_stages sock in ret (default LIBSSH2_ERROR_INVAL r).

Definition libssh2_session_handshake (rounds : nat) (sock : Z) : SM Z :=
  block_adjust (fun _ m => xlift m) transport_send (session_startup sock) rounds.

(** ** The end of a session *)

(** [lang_len] is 0 in a call that is resumed. *)
Definition session_disconnect (reason : Z) (description lang : option (list Z)) : SM Z :=
  let send lang_len :=
    let! d := gets x_data in
    let! msg := access (bytes_at (disconnect_data d) 0 (disconnect_data_len d)) in
    let! rc := xlift (transport_send msg (take (Z.to_nat lang_len) (default [] lang))) in
    if rc =? LIBSSH2_ERROR_EAGAIN then ret rc
    else xset (fun d => d <| disconnect_state := libssh2_NB_state_idle |>) ;; ret 0 in
  let! st := xget disconnect_state in
  if nb_is st libssh2_NB_state_idle then
    let descr_len := lenZ (default [] description) in
    let lang_len := lenZ (default [] lang) in
    if 256 <? descr_len then xerror LIBSSH2_ERROR_INVAL "too long description"
    else
      let! old := xget disconnect_data in
      let! new := access (overwrite (store_u32 (store_str (store_u32 [SSH_MSG_DISCONNECT] reason)
                            (default [] description)) lang_len) old) in
      xset (fun d => d <| disconnect_data_len := descr_len + lang_len + 13 |>
                       <| disconnect_data := new |>
                       <| disconnect_state := libssh2_NB_state_created |>) ;;
      send lang_len
  else send 0.

Definition libssh2_session_disconnect_ex (rounds : nat) (reason : Z) (desc lang : option (list Z)) : SM Z :=
  xlift (state_clear LIBSSH2_STATE_EXCHANGING_KEYS) ;;
  block_adjust (fun _ m => xlift m) transport_send (session_disconnect reason desc lang) rounds.
End Start.
