(* ===== verification/SessionSpec.v ===== *)
(** * The identification lines of a session

    However the socket delivers and takes the bytes, and however often a call has to be
    repeated, the client reads exactly the lines of the server up to the one that
    identifies it, sends its own line once, and leaves what follows to the key exchange. *)

From stdpp Require Import base numbers list gmap strings.
From S2P Require Import Prelude Codes CString KexMethods Wire Session ChannelWindow Packet PacketAdd Conn Comp PacketSafety PacketSpec PacketWait Transport TransportSpec TransportReceive Kex KexDh Ext Blocking SessionStart KexSpec KexAgree KexInit KexCases KexDhSpec KexSigned.

(** A call that is repeated while it would block, at most [n] times. *)
Fixpoint again {S} (n : nat) (m : M S Z) : M S Z :=
  match n with
  | O => m
  | Datatypes.S n => let! rc := m in if rc =? LIBSSH2_ERROR_EAGAIN then again n m else ret rc
  end.

(** ** Bytes from the socket *)

(** How often the socket would block. *)
Definition blocks (l : list recv_outcome) : nat :=
  sum_list ((fun r => match r with RecvFail _ => 1%nat | RecvBytes _ => 0%nat end) <$> l).

(** Sessions that differ in what the socket delivers and in which direction is blocked. *)
Definition polled (s s' : session) : Prop :=
  s' = s <| s_recv := s_recv s' |> <| socket_block_directions := socket_block_directions s' |>.

#[global] Instance polled_refl : Reflexive polled.
Proof. by intros []. Qed.
#[global] Instance polled_trans : Transitive polled.
Proof. unfold polled. intros s1 s2 s3 H12 H23. rewrite H23, H12. done. Qed.

Lemma recv_bytes_cons r l : recv_bytes (r :: l) = match r with RecvBytes bs => bs | RecvFail _ => [] end ++ recv_bytes l.
Proof. done. Qed.

Lemma recv_rounds_cons r l :
  recv_rounds (r :: l) = (match r with RecvBytes bs => S (length bs) | RecvFail _ => 1 end + recv_rounds l)%nat.
Proof. done. Qed.

Lemma wp_recv_byte c rem (Q : Z + list Z -> session -> Prop) s :
  Forall recv_ok (s_recv s) -> recv_bytes (s_recv s) = c :: rem ->
  (forall l, Forall recv_ok l -> recv_bytes l = c :: rem -> (S (blocks l) = blocks (s_recv s))%nat ->
     Q (inl (- EAGAIN)) (s <| s_recv := l |>)) ->
  (forall l, Forall recv_ok l -> recv_bytes l = rem -> blocks l = blocks (s_recv s) ->
     (recv_rounds l < recv_rounds (s_recv s))%nat -> Q (inr [c]) (s <| s_recv := l |>)) ->
  wp (socket_recv 1) Q s.
Proof.
  intros Hok Hc Hb Hr. unfold wp, socket_recv. destruct (s_recv s) as [|r l] eqn:El; [done|].
  inversion Hok as [|? ? Hr0 Hl]; subst. rewrite recv_bytes_cons in Hc. destruct r as [bs|rc]; simpl in Hr0.
  - destruct bs as [|b bs]; [done|]. simpl in Hc. injection Hc as -> Hc. destruct (lenZ (c :: bs) <=? 1) eqn:E.
    + apply Z.leb_le in E. rewrite lenZ_cons in E. destruct bs; [|rewrite lenZ_cons in E; pose proof (lenZ_nonneg bs); lia].
      by apply Hr; [..|rewrite recv_rounds_cons; cbn [length]; lia].
    + apply Z.leb_gt in E. rewrite lenZ_cons in E. destruct bs as [|b' bs]; [unfold lenZ in E; simpl in E; lia|].
      apply Hr; [by constructor|done|done|rewrite !recv_rounds_cons; simpl; lia].
  - subst rc. by apply Hb.
Qed.

(** ** One line *)

(** Client states that differ in the fields of the line that is being read or sent. *)
Definition banner_only (d d' : startup) : Prop :=
  d' = d <| banner_TxRx_state := banner_TxRx_state d' |> <| banner_TxRx_banner := banner_TxRx_banner d' |>
         <| banner_TxRx_total_send := banner_TxRx_total_send d' |>.

#[global] Instance banner_only_refl : Reflexive banner_only.
Proof. by intros []. Qed.
#[global] Instance banner_only_trans : Transitive banner_only.
Proof. unfold banner_only. intros d1 d2 d3 H12 H23. rewrite H23, H12. done. Qed.

(** What a line may be: it fits the buffer with its end, starts with a byte that is no
    line end, and has neither line feeds nor NULs. *)
Record line_ok (line : list Z) : Prop := {
  line_head : exists c l, line = c :: l /\ end_of_line c = false;
  line_bytes : Forall (fun c => c <> LF /\ c <> 0) line;
  line_len : lenZ line < 256
}.

(** The first [acc] of the line is in the buffer, the rest is still to come. *)
Record reading (line rest acc : list Z) (e : ext startup) : Prop := {
  rd_size : length (banner_TxRx_banner (x_data e)) = 256%nat;
  rd_prefix : take (length acc) (banner_TxRx_banner (x_data e)) = acc;
  rd_recv : Forall recv_ok (s_recv (x_session e));
  rd_stream : exists skip todo, line = acc ++ todo /\ (acc = [] \/ skip = []) /\
    Forall (fun c => end_of_line c = true) skip /\ recv_bytes (s_recv (x_session e)) = skip ++ todo ++ LF :: rest
}.

(** The whole line with its line feed is in the buffer. *)
Definition line_read (line rest : list Z) (e : ext startup) : Prop :=
  take (S (length line)) (banner_TxRx_banner (x_data e)) = line ++ [LF] /\
  length (banner_TxRx_banner (x_data e)) = 256%nat /\
  Forall recv_ok (s_recv (x_session e)) /\ recv_bytes (s_recv (x_session e)) = rest.

Definition loop_post (line rest : list Z) (e : ext startup) (r : Z + Z) (e' : ext startup) : Prop :=
  polled (x_session e) (x_session e') /\ banner_only (x_data e) (x_data e') /\
  banner_TxRx_state (x_data e') = banner_TxRx_state (x_data e) /\
  ((exists acc, r = inl LIBSSH2_ERROR_EAGAIN /\ reading line rest acc e' /\
      banner_TxRx_total_send (x_data e') = lenZ acc /\
      (blocks (s_recv (x_session e')) < blocks (s_recv (x_session e)))%nat) \/
   (r = inr (lenZ line + 1) /\ line_read line rest e' /\
      (blocks (s_recv (x_session e')) <= blocks (s_recv (x_session e)))%nat)).

Lemma take_snoc_insert (l acc : list Z) c :
  (length acc < length l)%nat -> take (length acc) l = acc ->
  take (S (length acc)) (<[length acc := c]> l) = acc ++ [c].
Proof.
  intros Hl Ht. erewrite take_S_r by (by apply list_lookup_insert_eq). by rewrite take_insert_ge, Ht by done.
Qed.

Lemma banner_more_acc b acc :
  length b = 256%nat -> take (length acc) b = acc ->
  banner_more b (lenZ acc) = Some ((lenZ acc <? 256) && match last acc with Some c => negb (c =? LF) | None => true end).
Proof.
  intros Hb Ht. unfold banner_more. destruct (Z.ltb_spec (lenZ acc) 256) as [Hlt|]; [|done].
  destruct acc as [|a acc] using rev_ind; [done|]. rewrite last_snoc.
  rewrite lenZ_app, lenZ_cons. change (lenZ (@nil Z)) with 0. destruct (Z.eqb_spec (lenZ acc + (1 + 0)) 0).
  { pose proof (lenZ_nonneg acc). lia. }
  unfold byte_at. rewrite decide_True by (pose proof (lenZ_nonneg acc); lia).
  replace (Z.to_nat _) with (length acc) by (unfold lenZ; lia).
  rewrite <- (lookup_take_lt b (length (acc ++ [a])) (length acc)) by (rewrite length_app; simpl; lia).
  rewrite Ht, lookup_app_r, Nat.sub_diag by lia. done.
Qed.

Section Line.
Context (line rest : list Z) (Hline : line_ok line).

Lemma line_last acc todo c : line = acc ++ todo -> last acc = Some c -> c <> LF.
Proof.
  intros E Hl. pose proof (line_bytes _ Hline) as H. rewrite E in H. apply Forall_app in H as [H _].
  apply last_Some in Hl as [l ->]. apply Forall_app in H as [_ H]. by inversion H as [|? ? [? _]].
Qed.

Lemma banner_more_true b acc todo :
  length b = 256%nat -> take (length acc) b = acc -> line = acc ++ todo -> banner_more b (lenZ acc) = Some true.
Proof.
  intros Hb Ht E. rewrite banner_more_acc by done. f_equal. apply andb_true_iff. split.
  - pose proof (line_len _ Hline) as H. rewrite E, lenZ_app in H. pose proof (lenZ_nonneg todo). apply Z.ltb_lt. lia.
  - destruct (last acc) eqn:El; [|done]. by apply negb_true_iff, Z.eqb_neq, (line_last acc todo).
Qed.

Lemma wp_banner_store n c (Q : unit -> ext startup -> Prop) s d :
  length (banner_TxRx_banner d) = 256%nat -> 0 <= n < 256 ->
  Q tt (mk_ext s (d <| banner_TxRx_banner ::= <[Z.to_nat n := c]> |>)) -> wp (banner_store n c) Q (mk_ext s d).
Proof.
  intros Hd Hn HQ. unfold banner_store. do 2 x_step. unfold lenZ. rewrite Hd.
  destruct (Z.leb_spec 0 n), (Z.ltb_spec n (Z.of_nat 256)); try lia. by apply wp_xset.
Qed.

(** One byte that the loop keeps. *)
Lemma reading_store acc c todo l s d :
  length (banner_TxRx_banner d) = 256%nat -> take (length acc) (banner_TxRx_banner d) = acc ->
  line = acc ++ c :: todo -> Forall recv_ok l -> recv_bytes l = todo ++ LF :: rest ->
  reading line rest (acc ++ [c]) (mk_ext (s <| s_recv := l |>) (d <| banner_TxRx_banner ::= <[length acc := c]> |>)).
Proof.
  intros Hb Ht E Hok Hs. split; simpl.
  - by rewrite length_insert.
  - rewrite length_app, Nat.add_comm. apply take_snoc_insert; [|done]. pose proof (line_len _ Hline) as H. rewrite E in H.
    unfold lenZ in H. rewrite length_app in H. simpl in H. lia.
  - done.
  - exists [], todo. rewrite <- app_assoc. auto.
Qed.

Lemma loop_post_step e e1 r e2 :
  polled (x_session e) (x_session e1) -> banner_only (x_data e) (x_data e1) ->
  banner_TxRx_state (x_data e1) = banner_TxRx_state (x_data e) ->
  (blocks (s_recv (x_session e1)) <= blocks (s_recv (x_session e)))%nat ->
  loop_post line rest e1 r e2 -> loop_post line rest e r e2.
Proof.
  intros Hp Hb Hs Hl (Hp' & Hb' & Hs' & H). split; [by etrans|]. split; [by etrans|]. split; [congruence|].
  destruct H as [(acc & ? & ? & ? & ?)|(? & ? & ?)]; [left; exists acc|right]; split_and!; try done; lia.
Qed.

(** The line feed ends the loop. *)
Lemma loop_ends fuel e :
  line_read line rest e -> (0 < fuel)%nat -> wp (banner_loop fuel (lenZ line + 1)) (loop_post line rest e) e.
Proof.
  destruct e as [s d]. intros Hr Hf. pose proof Hr as (Ht & Hb & _ & _). simpl in *. destruct fuel as [|fuel]; [lia|].
  cbn [banner_loop]. do 3 x_step.
  replace (lenZ line + 1) with (lenZ (line ++ [LF])) by (by rewrite lenZ_app).
  eapply wp_access; [apply banner_more_acc; [done|by rewrite length_app, Nat.add_comm]|].
  rewrite last_snoc, andb_false_r. cbn [negb]. apply wp_ret. split; [done|]. split; [done|]. split; [done|].
  right. by rewrite lenZ_app.
Qed.

Lemma read_store l s d :
  length (banner_TxRx_banner d) = 256%nat -> take (length line) (banner_TxRx_banner d) = line ->
  Forall recv_ok l -> recv_bytes l = rest ->
  line_read line rest (mk_ext (s <| s_recv := l |>) (d <| banner_TxRx_banner ::= <[length line := LF]> |>)).
Proof.
  intros Hb Ht Hok Hs. pose proof (line_len _ Hline) as H. unfold lenZ in H.
  split; [apply take_snoc_insert; [lia|done]|]. simpl. by rewrite length_insert.
Qed.

Lemma line_byte acc c todo : line = acc ++ c :: todo -> c <> LF /\ c <> 0.
Proof.
  intros E. pose proof (line_bytes _ Hline) as H. rewrite E in H. apply Forall_app in H as [_ H]. by inversion H.
Qed.

(** The first byte of a line is no line end, and later ones are kept. *)
Lemma head_kept acc c todo : line = acc ++ c :: todo -> end_of_line c && (lenZ acc =? 0) = false.
Proof.
  intros E. destruct acc as [|a acc].
  - destruct (line_head _ Hline) as (c1 & l1 & E1 & H1). rewrite E in E1. injection E1 as -> _. by rewrite H1.
  - rewrite lenZ_cons. pose proof (lenZ_nonneg acc). destruct (Z.eqb_spec (1 + lenZ acc) 0); [lia|apply andb_false_r].
Qed.

Lemma banner_loop_line fuel : forall acc e,
  reading line rest acc e -> (recv_rounds (s_recv (x_session e)) < fuel)%nat ->
  wp (banner_loop fuel (lenZ acc)) (loop_post line rest e) e.
Proof.
  induction fuel as [|fuel IH]; intros acc [s d] [Hb Ht Hok (skip & todo & E & Hor & Hskip & Hs)] Hf; [lia|].
  simpl in *. cbn [banner_loop]. do 2 x_step. x_step. eapply wp_access; [by eapply banner_more_true|]. cbn [negb].
  do 5 x_step.
  assert (Hc : exists c rem, recv_bytes (s_recv s) = c :: rem).
  { rewrite Hs. destruct skip; [destruct todo|]; by do 2 eexists. }
  destruct Hc as (c & rem & Hc). eapply wp_recv_byte; [exact Hok|exact Hc|..].
  - intros l Hl Hlb Hbl. simpl in Hbl. cbn [upd]. rewrite Z.eqb_refl. do 5 x_step. apply wp_ret.
    split; [done|]. split; [done|]. split; [done|]. left. exists acc. split; [done|].
    split; [|split; [done|simpl; lia]]. split; simpl; [done..|]. exists skip, todo. rewrite Hlb, <- Hc. auto.
  - intros l Hl Hlb Hbl Hr. simpl in Hbl, Hr. destruct skip as [|c0 skip].
    + destruct todo as [|c0 todo].
      * rewrite app_nil_r in E. subst acc. rewrite Hc in Hs. injection Hs as -> Hrem. rewrite Hrem in Hlb.
        destruct (line_head _ Hline) as (c1 & l1 & E1 & _). rewrite (proj2 (Z.eqb_neq (lenZ line) 0)) by (rewrite E1, lenZ_cons; pose proof (lenZ_nonneg l1); lia).
        rewrite andb_false_r. cbn [Z.eqb LF]. x_step. pose proof (line_len _ Hline). pose proof (lenZ_nonneg line).
        apply wp_banner_store; [done|lia|]. replace (Z.to_nat (lenZ line)) with (length line) by (unfold lenZ; lia).
        eapply wp_mono; [apply loop_ends; [by apply read_store|lia]|].
        intros r e. apply loop_post_step; simpl; [done..|lia].
      * rewrite Hc in Hs. injection Hs as -> Hrem. rewrite Hrem in Hlb.
        rewrite (head_kept acc c0 todo E). destruct (line_byte acc c0 todo E) as [_ Hc0]. apply Z.eqb_neq in Hc0. rewrite Hc0.
        x_step. pose proof (line_len _ Hline) as Hlen. rewrite E, lenZ_app, lenZ_cons in Hlen. pose proof (lenZ_nonneg acc).
        pose proof (lenZ_nonneg todo). apply wp_banner_store; [done|lia|].
        replace (Z.to_nat (lenZ acc)) with (length acc) by (unfold lenZ; lia).
        replace (lenZ acc + 1) with (lenZ (acc ++ [c0])) by (by rewrite lenZ_app).
        eapply wp_mono; [apply IH; [by eapply reading_store|simpl; lia]|].
        intros r e. apply loop_post_step; simpl; [done..|lia].
    + destruct Hor as [->|]; [|done]. rewrite Hc in Hs. injection Hs as -> Hrem.
      pose proof (Forall_inv Hskip) as Heol. apply Forall_inv_tail in Hskip. simpl in Heol. rewrite Heol. cbn [andb lenZ length Z.of_nat Z.eqb].
      eapply wp_mono; [apply (IH []); [|simpl; lia]|].
      * split; simpl; [done..|]. exists skip, todo. rewrite Hlb. auto.
      * intros r e. apply loop_post_step; simpl; [done..|lia].
Qed.
End Line.

(** ** The session while lines are exchanged *)

(** What the exchange of lines leaves alone, with the other fields cleared. *)
Definition id_core (s : session) : session :=
  s <| s_recv := [] |> <| socket_block_directions := 0 |> <| s_send := [] |> <| s_wire := [] |>
    <| s_heap := ∅ |> <| s_next_ptr := 1%positive |> <| s_kex := kex_data_0 |>.

(** [s] is [s0] apart from the socket, and holds the line [t] of the server. *)
Record identified (s0 : session) (t : option (list Z)) (s : session) : Prop := {
  id_same : id_core s = id_core s0;
  id_kex : s_kex s = (s_kex s0) <| kx_remote := (kx_remote (s_kex s0)) <| ke_banner := ke_banner (kx_remote (s_kex s)) |> |>;
  id_next : (s_next_ptr s0 <= s_next_ptr s)%positive;
  id_heap : match t with
            | None => ke_banner (kx_remote (s_kex s)) = None /\ s_heap s = s_heap s0
            | Some t => exists q, ke_banner (kx_remote (s_kex s)) = Some q /\
                (s_next_ptr s0 <= q < s_next_ptr s)%positive /\ s_heap s = <[q := t ++ [0]]> (s_heap s0)
            end
}.

Lemma polled_same s s' :
  polled s s' -> id_core s' = id_core s /\ s_kex s' = s_kex s /\ s_next_ptr s' = s_next_ptr s /\ s_heap s' = s_heap s.
Proof. intros Hp. rewrite Hp. done. Qed.

Lemma identified_same s0 t s s' :
  identified s0 t s -> id_core s' = id_core s -> s_kex s' = s_kex s -> s_next_ptr s' = s_next_ptr s ->
  s_heap s' = s_heap s -> identified s0 t s'.
Proof. intros [] Hc Hk Hn Hh. split; rewrite ?Hk, ?Hn, ?Hh; congruence. Qed.

Lemma identified_polled s0 t s s' : identified s0 t s -> polled s s' -> identified s0 t s'.
Proof. intros H (? & ? & ? & ?)%polled_same. by eapply identified_same. Qed.

Lemma identified_alloc s0 t s : identified s0 t s -> s_alloc s = s_alloc s0.
Proof. intros [H _ _ _]. by apply (f_equal s_alloc) in H. Qed.

(** The old line is released. *)
Lemma wp_free_old s0 t (Q : unit -> session -> Prop) s :
  heap_ok s0 -> identified s0 t s ->
  Q tt (s <| s_heap := s_heap s0 |>) -> wp (free_opt (ke_banner (kx_remote (s_kex s)))) Q s.
Proof.
  intros Hh [H1 H2 H3 H4] HQ. unfold free_opt. destruct t as [t|].
  - destruct H4 as (q & -> & Hq & Hs). eapply wp_free_block; [rewrite Hs; apply lookup_insert_eq|].
    change (Q tt (s <| s_heap := delete q (s_heap s) |>)). rewrite Hs, delete_insert_id; [done|]. apply (heap_ok_fresh _ Hh). lia.
  - destruct H4 as [-> Hs]. apply wp_ret. rewrite <- Hs in HQ. by destruct s.
Qed.

(** The new one takes its place. *)
Lemma identified_keep s0 t s text :
  heap_ok s0 -> identified s0 t s -> s_alloc s0 = [] ->
  identified s0 (Some text)
    (s <| s_heap := <[s_next_ptr s := text ++ [0]]> (s_heap s0) |> <| s_next_ptr := Pos.succ (s_next_ptr s) |>
       <| s_kex ::= fun k => k <| kx_remote ::= fun e => e <| ke_banner := Some (s_next_ptr s) |> |> |>).
Proof.
  intros Hh [H1 H2 H3 H4] Ha. split; simpl.
  - done.
  - by rewrite H2.
  - lia.
  - exists (s_next_ptr s). split; [done|]. split; [lia|done].
Qed.

(** ** Receiving a line *)

(** A line of the server: line ends that are skipped, the text, and carriage returns
    before the line feed. *)
Record server_line := mk_line {
  sl_skip : list Z;
  sl_text : list Z;
  sl_ends : list Z
}.

Definition sl_line (l : server_line) : list Z := sl_text l ++ sl_ends l.

Record server_line_ok (l : server_line) : Prop := {
  sl_skip_ok : Forall (fun c => end_of_line c = true) (sl_skip l);
  sl_ends_ok : Forall (eq CR) (sl_ends l);
  sl_last : exists t c, sl_text l = t ++ [c] /\ end_of_line c = false;
  sl_line_ok : line_ok (sl_line l)
}.

Definition sl_wire (l : server_line) : list Z := sl_skip l ++ sl_line l ++ [LF].

Lemma banner_strip_ends b t c ends :
  take (length (t ++ [c] ++ ends)) b = t ++ [c] ++ ends -> end_of_line c = false ->
  Forall (fun x => end_of_line x = true) ends ->
  banner_strip b (length (t ++ [c] ++ ends)) = Some (length (t ++ [c])).
Proof.
  intros Ht Hc. induction ends as [|x ends IH] using rev_ind; intros He.
  - rewrite app_nil_r in *. rewrite length_app in *. simpl in *. rewrite Nat.add_1_r in *. cbn [banner_strip].
    unfold byte_at. rewrite decide_True by lia. rewrite Nat2Z.id.
    rewrite <- (lookup_take_lt b (S (length t))), Ht by lia. rewrite lookup_app_r, Nat.sub_diag by lia. simpl.
    by rewrite Hc.
  - apply Forall_app in He as [He Hx]. apply Forall_inv in Hx. simpl in Hx.
    rewrite !(app_assoc t), (app_assoc (t ++ [c])) in Ht |- *. rewrite length_app in Ht |- *. simpl in Ht |- *.
    rewrite Nat.add_1_r in *. cbn [banner_strip]. unfold byte_at. rewrite decide_True by lia. rewrite Nat2Z.id.
    rewrite <- (lookup_take_lt b (S (length ((t ++ [c]) ++ ends)))), Ht by lia. rewrite lookup_app_r, Nat.sub_diag by lia.
    simpl. rewrite Hx, <- app_assoc. apply IH; [|done].
    apply (f_equal (take (length (t ++ [c] ++ ends)))) in Ht. rewrite take_take in Ht.
    rewrite <- app_assoc in Ht. rewrite Nat.min_l in Ht by lia. rewrite Ht. by rewrite take_app_length.
Qed.

Lemma alloc_block_Ret b s :
  s_alloc s = [] ->
  alloc_block b s = Ret (Some (s_next_ptr s)) (s <| s_heap ::= <[s_next_ptr s := b]> |> <| s_next_ptr := Pos.succ (s_next_ptr s) |>).
Proof. intros Ha. unfold alloc_block, alloc_outcome, bind. by rewrite Ha. Qed.

Section Receive.
Context (l : server_line) (Hl : server_line_ok l) (rest : list Z).
Context (s0 : session) (Hheap : heap_ok s0) (Halloc : s_alloc s0 = []).

Lemma line_stripped e :
  line_read (sl_line l) rest e ->
  banner_strip (banner_TxRx_banner (x_data e)) (Z.to_nat (lenZ (sl_line l) + 1)) = Some (length (sl_text l)) /\
  bytes_at (banner_TxRx_banner (x_data e)) 0 (Z.of_nat (length (sl_text l))) = Some (sl_text l).
Proof.
  intros (Ht & Hb & _). destruct (sl_last l Hl) as (t & c & E & Hc). split.
  - replace (Z.to_nat _) with (length (t ++ [c] ++ (sl_ends l ++ [LF])))
      by (unfold sl_line, lenZ; rewrite E, !length_app; simpl; lia).
    rewrite E. apply banner_strip_ends; [|done|].
    + etrans; [|etrans; [exact Ht|]].
      * f_equal. unfold sl_line. rewrite E, !length_app. simpl. lia.
      * unfold sl_line. rewrite E, <- !app_assoc. done.
    + apply Forall_app. split; [|by repeat constructor].
      eapply Forall_impl; [apply (sl_ends_ok l Hl)|]. by intros ? <-.
  - unfold bytes_at. rewrite decide_True.
    + f_equal. unfold slice. rewrite Nat2Z.id. simpl.
      apply (f_equal (take (length (sl_text l)))) in Ht. rewrite take_take, Nat.min_l in Ht
        by (unfold sl_line; rewrite length_app; lia).
      change (drop (Z.to_nat 0) ?x) with x. rewrite Ht. unfold sl_line. rewrite <- app_assoc. apply take_app_length.
    + pose proof (line_len _ (sl_line_ok l Hl)) as H. unfold sl_line, lenZ in *. rewrite length_app in H. lia.
Qed.

(** The line is complete and stored. *)
Record received (e : ext startup) : Prop := {
  rc_state : banner_TxRx_state (x_data e) = libssh2_NB_state_idle;
  rc_size : length (banner_TxRx_banner (x_data e)) = 256%nat;
  rc_recv : Forall recv_ok (s_recv (x_session e)) /\ recv_bytes (s_recv (x_session e)) = rest;
  rc_id : identified s0 (Some (sl_text l)) (x_session e)
}.

Lemma banner_keep_line t e :
  line_read (sl_line l) rest e -> identified s0 t (x_session e) ->
  wp (banner_keep (lenZ (sl_line l) + 1))
    (fun r e' => r = 0 /\ received e' /\ banner_only (x_data e) (x_data e') /\
       s_recv (x_session e') = s_recv (x_session e) /\ s_send (x_session e') = s_send (x_session e) /\
       s_wire (x_session e') = s_wire (x_session e)) e.
Proof.
  intros Hr Hid. destruct (line_stripped e Hr) as [Hs Hb]. destruct e as [s d]. unfold banner_keep. simpl in *.
  do 2 x_step. x_step. eapply wp_access; [exact Hs|]. unfold banner_idle. do 2 x_step. cbn [Nat.eqb].
  destruct (Nat.eqb_spec (length (sl_text l)) 0) as [E0|_].
  { destruct (sl_last l Hl) as (t' & c & E & _). rewrite E, length_app in E0. simpl in E0. lia. }
  do 5 x_step. eapply wp_free_old; [done|done|]. x_step. eapply wp_access; [exact Hb|].
  do 2 x_step. eapply wp_run; [apply alloc_block_Ret; exact (eq_trans (identified_alloc s0 t s Hid) Halloc)|].
  destruct Hr as (_ & Hsz & Hok & Hrec).
  split; [done|]. split; [|done]. split; [done..|].
  exact (identified_keep s0 t s (sl_text l) Hheap Hid Halloc).
Qed.

(** The line is the next to come, or in part in the buffer. *)
Definition awaiting (t : option (list Z)) (e : ext startup) : Prop :=
  identified s0 t (x_session e) /\
  exists acc, reading (sl_line l) rest acc e /\
    (banner_TxRx_state (x_data e) = libssh2_NB_state_idle /\ acc = [] \/
     banner_TxRx_state (x_data e) = libssh2_NB_state_created /\ banner_TxRx_total_send (x_data e) = lenZ acc).

(** What one call does to the socket: nothing is sent. *)
Definition only_receives (e e' : ext startup) : Prop :=
  banner_only (x_data e) (x_data e') /\ s_send (x_session e') = s_send (x_session e) /\
  s_wire (x_session e') = s_wire (x_session e) /\
  (blocks (s_recv (x_session e')) <= blocks (s_recv (x_session e)))%nat.

Lemma banner_receive_call t e :
  awaiting t e ->
  wp banner_receive (fun r e' => only_receives e e' /\
    (r = LIBSSH2_ERROR_EAGAIN /\ awaiting t e' /\
       (blocks (s_recv (x_session e')) < blocks (s_recv (x_session e)))%nat \/
     r = 0 /\ received e')) e.
Proof.
  intros (Hid & acc & Hrd & Hst). destruct e as [s d]. unfold banner_receive. do 2 x_step.
  assert (Hd : exists d1, reading (sl_line l) rest acc (mk_ext s d1) /\ banner_only d d1 /\
      banner_TxRx_state d1 = libssh2_NB_state_created /\
      (if nb_is (banner_TxRx_state d) libssh2_NB_state_idle then 0 else banner_TxRx_total_send d) = lenZ acc /\
      (if nb_is (banner_TxRx_state d) libssh2_NB_state_idle then d <| banner_TxRx_state := libssh2_NB_state_created |> else d) = d1).
  { destruct Hst as [[Hst ->]|[Hst Ht]]; simpl in *; rewrite Hst.
    - exists (d <| banner_TxRx_state := libssh2_NB_state_created |>). split; [by destruct Hrd|done].
    - by exists d. }
  destruct Hd as (d1 & Hrd1 & Hb1 & Hs1 & El & Ed). cbn zeta. cbn [x_data]. rewrite El. x_step.
  eapply (wp_run _ _ _ tt (mk_ext s d1)); [by subst d1; destruct (nb_is _ _)|].
  do 4 x_step. eapply wp_mono; [apply (banner_loop_line _ rest (sl_line_ok l Hl) _ acc); [done|simpl; lia]|].
  intros r e1 (Hp & Hbo & Hst1 & H). simpl in *. pose proof (identified_polled _ _ _ _ Hid Hp) as Hid1.
  assert (Hsw : s_send (x_session e1) = s_send s /\ s_wire (x_session e1) = s_wire s) by (rewrite Hp; done).
  destruct H as [(acc' & -> & Hrd' & Htot & Hbl)|(-> & Hlr & Hbl)].
  - apply wp_ret. split; [|left; split; [done|]; split; [|done]].
    + split; [by etrans|]. destruct Hsw. simpl. split_and!; [done..|lia].
    + split; [done|]. exists acc'. split; [done|]. right. split; [congruence|done].
  - eapply wp_mono; [by eapply banner_keep_line|]. intros r e2 (-> & Hrc & Hbo2 & Hr2 & Hs2 & Hw2).
    split; [|by right]. destruct Hsw. split; [by do 2 (etrans; [done|])|]. rewrite Hr2. simpl. split_and!; [congruence..|lia].
Qed.
End Receive.

(** ** The lines up to the identification *)

Definition IDENT : list Z := str "SSH-".
Definition is_ident (l : server_line) : Prop := take 4 (sl_text l) = IDENT.
#[global] Instance is_ident_dec l : Decision (is_ident l).
Proof. unfold is_ident. apply _. Defined.

Lemma strncmp_text w : forall a b t, no_nul w -> no_nul t ->
  strncmp_eq (length w) (a ++ w ++ [0]) (lenZ a) (b ++ t ++ [0]) (lenZ b) = Some (bool_decide (take (length w) t = w)).
Proof.
  induction w as [|x w IH]; intros a b t Hw Ht; [by destruct t|].
  apply Forall_cons in Hw as [Hx Hw]. cbn [length strncmp_eq]. rewrite <- app_comm_cons, byte_at_head by done. simpl.
  destruct t as [|y t].
  - cbn [app]. rewrite byte_at_head by done. simpl. by rewrite (proj2 (Z.eqb_neq x 0)) by done.
  - apply Forall_cons in Ht as [Hy Ht]. rewrite <- app_comm_cons, byte_at_head by done. simpl.
    destruct (Z.eqb_spec x y) as [->|Hxy]; simpl.
    + rewrite (proj2 (Z.eqb_neq y 0)) by done.
      specialize (IH (a ++ [y]) (b ++ [y]) t Hw Ht). rewrite !lenZ_app, <- !app_assoc in IH. etrans; [exact IH|].
      f_equal. apply bool_decide_ext. split; congruence.
    + f_equal. symmetry. apply bool_decide_eq_false_2. congruence.
Qed.

(** The client's state apart from the line and the stage. *)
Definition start_core (d : startup) : startup :=
  d <| banner_TxRx_state := libssh2_NB_state_idle |> <| banner_TxRx_banner := [] |> <| banner_TxRx_total_send := 0 |>
    <| startup_state := libssh2_NB_state_idle |>.

Lemma banner_only_core d d' : banner_only d d' -> start_core d' = start_core d /\ startup_state d' = startup_state d.
Proof. intros H. rewrite H. done. Qed.

Section Lines.
Context (last : server_line) (Hlast : server_line_ok last) (Hident : is_ident last) (rest : list Z).
Context (s0 : session) (Hheap : heap_ok s0) (Halloc : s_alloc s0 = []).

Definition lines_wire (ls : list server_line) : list Z := foldr (fun l acc => sl_wire l ++ acc) rest ls.

(** The lines [pre] and then [last] are still to come. *)
Definition upcoming (pre : list server_line) (e : ext startup) : Prop :=
  Forall (fun l => server_line_ok l /\ ~ is_ident l) pre /\
  match pre with
  | [] => exists t, awaiting last rest s0 t e
  | l :: pre => exists t, awaiting l (lines_wire (pre ++ [last])) s0 t e
  end.

(** What the reading of lines leaves alone. *)
Record lines_frame (e e' : ext startup) : Prop := {
  lf_core : start_core (x_data e') = start_core (x_data e);
  lf_send : s_send (x_session e') = s_send (x_session e);
  lf_wire : s_wire (x_session e') = s_wire (x_session e);
  lf_blocks : (blocks (s_recv (x_session e')) <= blocks (s_recv (x_session e)))%nat
}.

Lemma only_receives_frame e e' : only_receives e e' -> lines_frame e e' /\ startup_state (x_data e') = startup_state (x_data e).
Proof. intros (H%banner_only_core & H1 & H2 & H3). destruct H. done. Qed.

#[local] Instance lines_frame_trans : Transitive lines_frame.
Proof. intros e1 e2 e3 [] []. split; [congruence..|lia]. Qed.

Definition lines_post (e : ext startup) (r : option Z) (e' : ext startup) : Prop :=
  lines_frame e e' /\
  ((exists pre, r = Some LIBSSH2_ERROR_EAGAIN /\ upcoming pre e' /\ startup_state (x_data e') = startup_state (x_data e) /\
      (blocks (s_recv (x_session e')) < blocks (s_recv (x_session e)))%nat) \/
   (r = None /\ received last rest s0 e' /\ startup_state (x_data e') = libssh2_NB_state_sent1)).

Lemma received_next l l' rest' e : server_line_ok l' -> received l (sl_wire l' ++ rest') s0 e -> awaiting l' rest' s0 (Some (sl_text l)) e.
Proof.
  intros Hl' [Hs Hz [Hok Hr] Hid]. split; [done|]. exists []. split; [|by left]. split; [done..|].
  exists (sl_skip l'), (sl_line l'). split; [done|]. split; [by left|]. split; [apply (sl_skip_ok _ Hl')|].
  rewrite Hr. unfold sl_wire. by rewrite <- !app_assoc.
Qed.

Lemma text_no_nul l : server_line_ok l -> no_nul (sl_text l).
Proof.
  intros H. pose proof (line_bytes _ (sl_line_ok _ H)) as Hb. apply Forall_app in Hb as [Hb _].
  eapply Forall_impl; [exact Hb|]. by intros x [].
Qed.

(** The stored line is compared with the identification. *)
Lemma wp_stored_line l rest' (k : bool -> SM (option Z)) (Q : option Z -> ext startup -> Prop) e :
  server_line_ok l -> received l rest' s0 e ->
  wp (k (bool_decide (is_ident l))) Q e ->
  wp (let! p := xlift (gets (fun s => ke_banner (kx_remote (s_kex s)))) in
      let! p := access p in
      let! b := xlift (block p) in
      let! eq := access (strncmp_eq 4 (str "SSH-" ++ [0]) 0 b 0) in k eq) Q e.
Proof.
  intros Hl [Hs Hz Hr [_ _ _ (q & Hq & _ & Hh)]] HQ. destruct e as [s d]. simpl in *. do 3 x_step. rewrite Hq.
  x_step. eapply wp_access; [done|]. do 2 x_step. eapply wp_block; [rewrite Hh; apply lookup_insert_eq|]. x_step.
  eapply wp_access; [|exact HQ].
  etrans; [apply (strncmp_text IDENT [] [])|]; [by repeat constructor|by apply text_no_nul|done].
Qed.

Lemma startup_lines_ok rounds : forall pre e,
  upcoming pre e -> (length pre < rounds)%nat -> wp (startup_lines rounds) (lines_post e) e.
Proof.
  induction rounds as [|rounds IH]; intros pre e [Hpre Hup] Hr; [lia|]. cbn [startup_lines].
  assert (Hc : exists l rest' t, awaiting l rest' s0 t e /\ server_line_ok l /\
    (pre = [] /\ l = last /\ rest' = rest \/
     exists pre', pre = l :: pre' /\ ~ is_ident l /\ rest' = lines_wire (pre' ++ [last]))).
  { destruct pre as [|l pre']; destruct Hup as [t Hup]; [by eauto 10|].
    apply Forall_cons in Hpre as [[? ?] _]. eauto 10. }
  destruct Hc as (l & rest' & t & Haw & Hl & Hcase). apply wp_bind.
  eapply wp_mono; [by eapply banner_receive_call|]. intros rc e1 (Hor & Hrc). cbn beta.
  destruct (only_receives_frame _ _ Hor) as [Hfr Hst]. destruct Hrc as [(-> & Haw1 & Hbl)|(-> & Hrec)].
  - cbn [Z.eqb LIBSSH2_ERROR_EAGAIN Pos.eqb]. apply wp_ret. split; [done|]. left. exists pre. split; [done|].
    split; [|done]. split; [done|]. destruct Hcase as [(-> & -> & ->)|(pre' & -> & _ & ->)]; by exists t.
  - cbn [Z.eqb LIBSSH2_ERROR_EAGAIN negb]. eapply wp_stored_line; [done..|].
    destruct Hcase as [(-> & -> & ->)|(pre' & -> & Hn & ->)].
    + rewrite bool_decide_eq_true_2 by done. unfold start_next. destruct e1 as [s1 d1]. do 2 x_step. apply wp_ret.
      split; [by destruct Hfr; split|]. right. split; [done|]. split; [by destruct Hrec; split|done].
    + rewrite bool_decide_eq_false_2 by done. apply Forall_cons in Hpre as [_ Hpre].
      eapply wp_mono; [apply (IH pre'); [|simpl in Hr; lia]|].
      * split; [done|]. destruct pre' as [|l' pre'].
        -- eexists. by apply received_next.
        -- apply Forall_cons in Hpre as [[? ?] _]. eexists. by apply received_next.
      * intros r e2 (Hfr2 & H). split; [by etrans|]. destruct Hfr.
        destruct H as [(p & ? & ? & ? & ?)|H]; [left; exists p; split_and!; [done..|congruence|lia]|by right].
Qed.
End Lines.

(** ** Sending the client's line *)

(** A socket that takes some of the bytes, or would block. *)
Definition send_ok (r : Z) : Prop := 0 <= r \/ r = - EAGAIN.

(** The first [k] bytes of the default line are sent. *)
Record sending (s0 : session) (k : Z) (e : ext startup) : Prop := {
  sd_id : identified s0 None (x_session e);
  sd_recv : s_recv (x_session e) = s_recv s0;
  sd_send : Forall send_ok (s_send (x_session e));
  sd_size : length (banner_TxRx_banner (x_data e)) = 256%nat;
  sd_k : 0 <= k <= lenZ LIBSSH2_SSH_DEFAULT_BANNER_WITH_CRLF;
  sd_total : banner_TxRx_total_send (x_data e) = k;
  sd_wire : s_wire (x_session e) = s_wire s0 ++ take (Z.to_nat k) LIBSSH2_SSH_DEFAULT_BANNER_WITH_CRLF
}.

Lemma wp_socket_takes bytes (Q : Z -> session -> Prop) s :
  Forall send_ok (s_send s) ->
  (forall r l, r < lenZ bytes -> send_ok r -> Forall send_ok l -> (length l < length (s_send s))%nat ->
     Q r (s <| s_send := l |> <| s_wire ::= fun w => w ++ take (Z.to_nat r) bytes |>)) ->
  (forall l, Forall send_ok l -> (length l <= length (s_send s))%nat ->
     Q (lenZ bytes) (s <| s_send := l |> <| s_wire ::= fun w => w ++ bytes |>)) ->
  wp (socket_send bytes) Q s.
Proof.
  intros Hok Hpart Hall. unfold wp, socket_send. destruct (s_send s) as [|r l] eqn:El.
  - specialize (Hall [] ltac:(done) ltac:(done)). destruct s; simpl in *. by subst.
  - apply Forall_cons in Hok as [Hr Hl]. destruct (Z.ltb_spec r 0) as [Hneg|Hpos].
    + pose proof (lenZ_nonneg bytes). specialize (Hpart r l ltac:(lia) Hr Hl ltac:(simpl; lia)).
      replace (Z.to_nat r) with 0%nat in Hpart by lia. destruct s; simpl in *. by rewrite app_nil_r in Hpart.
    + destruct (Z.lt_ge_cases r (lenZ bytes)).
      * rewrite Z.min_l by lia. apply Hpart; [done..|simpl; lia].
      * rewrite Z.min_r, take_ge by (unfold lenZ in *; lia). apply Hall; [done|simpl; lia].
Qed.

Lemma lenZ_drop (l : list Z) k : 0 <= k <= lenZ l -> lenZ (drop (Z.to_nat k) l) = lenZ l - k.
Proof. unfold lenZ. rewrite length_drop. lia. Qed.

Lemma bytes_at_rest (l : list Z) k : 0 <= k <= lenZ l -> bytes_at l k (lenZ l - k) = Some (drop (Z.to_nat k) l).
Proof.
  intros Hk. rewrite bytes_at_in by lia. f_equal. unfold slice. apply take_ge. rewrite length_drop. unfold lenZ in *. lia.
Qed.

Lemma wp_total_sent r (Q : unit -> ext startup -> Prop) s d :
  Q tt (mk_ext s (d <| banner_TxRx_total_send := banner_TxRx_total_send d + Z.max r 0 |>)) ->
  wp (if 0 <? r then xset (fun d => d <| banner_TxRx_total_send ::= fun t => t + r |>) else ret tt) Q (mk_ext s d).
Proof.
  destruct (Z.ltb_spec 0 r).
  - by rewrite Z.max_l by lia.
  - rewrite Z.max_r, Z.add_0_r by lia. by destruct d.
Qed.

(** Keeps the session of the goal as a variable, and the facts that are needed of it. *)
Ltac freeze name :=
  match goal with |- wp _ _ (mk_ext ?x _) => remember x as name eqn:Es1 end.
Ltac sent_facts F1 F3 s2 Gid Gr Gs Gw :=
  match goal with E : s2 = ?s1 <| s_send := ?l |> <| s_wire ::= ?f |> |- _ =>
    assert (Gid : identified _ None s2) by (rewrite E; by eapply identified_same);
    assert (Gr : s_recv s2 = s_recv s1 /\ s_send s2 = l /\ s_wire s2 = f (s_wire s1)) by (by rewrite E);
    rewrite F1, F3 in Gr; clear E; destruct Gr as (Gr & Gs & Gw)
  end.

Section Send.
Context (s0 : session) (Hlocal : ke_banner (kx_local (s_kex s0)) = None).

Definition send_post (e : ext startup) (r : option Z) (e' : ext startup) : Prop :=
  start_core (x_data e') = start_core (x_data e) /\
  ((exists k, r = Some LIBSSH2_ERROR_EAGAIN /\ sending s0 k e' /\ startup_state (x_data e') = startup_state (x_data e) /\
      (length (s_send (x_session e')) < length (s_send (x_session e)))%nat) \/
   (r = None /\ sending s0 (lenZ LIBSSH2_SSH_DEFAULT_BANNER_WITH_CRLF) (mk_ext (x_session e') ((x_data e')
      <| banner_TxRx_total_send := lenZ LIBSSH2_SSH_DEFAULT_BANNER_WITH_CRLF |>)) /\
      startup_state (x_data e') = libssh2_NB_state_sent /\
      banner_TxRx_state (x_data e') = libssh2_NB_state_idle /\
      (length (s_send (x_session e')) <= length (s_send (x_session e)))%nat)).

Lemma default_text idle k e (Q : list Z -> ext startup -> Prop) :
  sending s0 k e -> Q LIBSSH2_SSH_DEFAULT_BANNER_WITH_CRLF e -> wp (banner_text idle) Q e.
Proof.
  intros [[_ Hk _ _] _ _ _ _ _ _] HQ. destruct e as [s d]. unfold banner_text. do 3 x_step. simpl in Hk.
  rewrite Hk. cbn. by rewrite Hlocal.
Qed.

Lemma startup_banner_send_ok k e :
  sending s0 k e -> wp startup_banner_send (send_post e) e.
Proof.
  intros Hs. pose proof Hs as [Hid Hrecv Hsend Hsize Hk Htot Hw]. destruct e as [s d]. simpl in *.
  unfold startup_banner_send, banner_send. do 4 x_step. cbn [x_data]. rewrite Htot.
  eapply default_text; [done|].
  set (D := LIBSSH2_SSH_DEFAULT_BANNER_WITH_CRLF) in *. x_step.
  eapply (wp_run _ _ _ tt (mk_ext s (if nb_is (banner_TxRx_state d) libssh2_NB_state_idle
                             then d <| banner_TxRx_state := libssh2_NB_state_created |> else d))); [by destruct (nb_is _ _)|].
  set (d1 := if _ : bool then _ else d).
  assert (Hd1 : start_core d1 = start_core d /\ startup_state d1 = startup_state d /\
    length (banner_TxRx_banner d1) = 256%nat /\ banner_TxRx_total_send d1 = k) by (subst d1; by destruct (nb_is _ _)).
  clearbody d1. destruct Hd1 as (Hcore & Hst & Hsize1 & Htot1). do 3 x_step.
  freeze s1. assert (H1 : identified s0 None s1) by (subst s1; by eapply identified_same).
  assert (F1 : s_recv s1 = s_recv s0 /\ s_send s1 = s_send s /\ s_wire s1 = s_wire s) by (by subst s1).
  clear Es1. destruct F1 as (F1 & F2 & F3). rewrite <- F2 in Hsend. x_step.
  rewrite u64_small by (change (lenZ D) with 28 in *; lia).
  eapply wp_access; [apply bytes_at_rest; lia|]. do 2 x_step. apply wp_socket_takes; [done|..].
  - intros r l Hr Hok Hl Hlen. rewrite lenZ_drop in Hr by lia. rewrite F2 in Hlen. freeze s2. sent_facts F1 F3 s2 Gid Gr Gs Gw.
    rewrite (proj2 (Z.eqb_neq r (lenZ D - k))) by lia. cbn [negb].
    assert (Hc : (0 <=? r) || (r =? - EAGAIN) = true).
    { destruct Hok as [Hr0| ->]; [|done]. by rewrite (proj2 (Z.leb_le _ _)). }
    rewrite Hc. do 4 x_step.
    apply wp_total_sent. rewrite Htot1.
    x_step. apply wp_ret. cbn. apply wp_ret. split; [done|]. left. exists (k + Z.max r 0). split; [done|].
    split; [|split; [done|simpl; rewrite Gs; lia]]. split; simpl; rewrite ?Gs; try done; [by eapply identified_same|fold D; lia|].
    rewrite Gw, Hw, <- app_assoc, take_take_drop. do 2 f_equal. lia.
  - intros l Hl Hlen. rewrite F2 in Hlen. freeze s2. sent_facts F1 F3 s2 Gid Gr Gs Gw. rewrite lenZ_drop by lia. rewrite Z.eqb_refl. cbn [negb]. unfold banner_idle.
    do 2 x_step. apply wp_ret. cbn [Z.eqb LIBSSH2_ERROR_EAGAIN negb]. do 2 x_step. apply wp_ret. split; [done|]. right. split; [done|].
    split; [|split; [done|split; [done|simpl; rewrite Gs; lia]]]. split; simpl; rewrite ?Gs; try done.
    by rewrite Gw, Hw, <- app_assoc, take_drop.
Qed.
End Send.

(** ** The whole exchange *)

Lemma again_same {S} n (m : M S Z) s s' : m s = m s' -> again n m s = again n m s'.
Proof. intros E. destruct n; simpl; [done|]. unfold bind. by rewrite E. Qed.

Lemma again_eagain {S} n (m : M S Z) s s' : m s = Ret LIBSSH2_ERROR_EAGAIN s' -> again (Datatypes.S n) m s = again n m s'.
Proof. intros E. simpl. unfold bind. by rewrite E. Qed.

(** How the client and the server start: lines are still to be exchanged. *)
Record fresh_start (s0 : session) (sock flags : Z) (d : startup) : Prop := {
  fs_heap : heap_ok s0;
  fs_alloc : s_alloc s0 = [];
  fs_local : ke_banner (kx_local (s_kex s0)) = None;
  fs_remote : ke_banner (kx_remote (s_kex s0)) = None;
  fs_recv : Forall recv_ok (s_recv s0);
  fs_send : Forall send_ok (s_send s0);
  fs_sock : sock <> -1;
  fs_flags : fd_flags d = Some flags /\ 0 <= flags;
  fs_setfl : fd_setfl d = [];
  fs_state : startup_state d = libssh2_NB_state_idle;
  fs_banner : banner_TxRx_state d = libssh2_NB_state_idle /\ banner_TxRx_total_send d = 0;
  fs_size : length (banner_TxRx_banner d) = 256%nat
}.

Section Start.
Context (transport_send : list Z -> list Z -> CM Z) (transport_read : CM Z) (fuel : nat) (kex_exchange : CM Z) (sock : Z).
Abbreviation run := (session_startup transport_send transport_read fuel kex_exchange sock).

Abbreviation stages := (startup_stages transport_send transport_read fuel kex_exchange sock).

Lemma stage_skip st body k e : startup_state (x_data e) <> st -> start_then (start_stage st body) k e = k e.
Proof.
  intros H. unfold start_then, start_stage, bind, xget, gets. unfold nb_is. by rewrite bool_decide_eq_false_2.
Qed.

Lemma stage_go st body k e e' :
  startup_state (x_data e) = st -> body e = Ret None e' -> start_then (start_stage st body) k e = k e'.
Proof.
  intros H E. unfold start_then, start_stage, bind, xget, gets. unfold nb_is. by rewrite bool_decide_eq_true_2, E.
Qed.

Lemma stage_return st body k e e' rc :
  startup_state (x_data e) = st -> body e = Ret (Some rc) e' -> start_then (start_stage st body) k e = Ret (Some rc) e'.
Proof.
  intros H E. unfold start_then, start_stage, bind, xget, gets. unfold nb_is. by rewrite bool_decide_eq_true_2, E.
Qed.

(** A stage that goes on is the same as a call that starts behind it. *)
Lemma run_same e e' : stages e = stages e' -> run e = run e'.
Proof. intros E. unfold session_startup, bind. by rewrite E. Qed.

Lemma run_return e e' rc : stages e = Ret (Some rc) e' -> run e = Ret rc e'.
Proof. intros E. unfold session_startup, bind. by rewrite E. Qed.

Lemma run_socket e e' :
  startup_state (x_data e) = libssh2_NB_state_idle -> startup_socket sock e = Ret None e' ->
  startup_state (x_data e') = libssh2_NB_state_created -> run e = run e'.
Proof. intros Hs E Hs'. apply run_same. unfold startup_stages. by rewrite (stage_go _ _ _ e e'), (stage_skip libssh2_NB_state_idle _ _ e') by congruence. Qed.

Lemma run_banner_send e e' :
  startup_state (x_data e) = libssh2_NB_state_created -> startup_banner_send e = Ret None e' ->
  startup_state (x_data e') = libssh2_NB_state_sent -> run e = run e'.
Proof.
  intros Hs E Hs'. apply run_same. unfold startup_stages.
  by rewrite (stage_skip _ _ _ e), (stage_go _ _ _ e e'), (stage_skip libssh2_NB_state_idle _ _ e'), (stage_skip libssh2_NB_state_created _ _ e') by congruence.
Qed.

Lemma run_lines e e' :
  startup_state (x_data e) = libssh2_NB_state_sent -> startup_banner_receive e = Ret None e' ->
  startup_state (x_data e') = libssh2_NB_state_sent1 -> run e = run e'.
Proof.
  intros Hs E Hs'. apply run_same. unfold startup_stages.
  by rewrite 2!(stage_skip _ _ _ e), (stage_go _ _ _ e e'),
    (stage_skip libssh2_NB_state_idle _ _ e'), (stage_skip libssh2_NB_state_created _ _ e'), (stage_skip libssh2_NB_state_sent _ _ e') by congruence.
Qed.

Lemma run_send_blocks e e' rc :
  startup_state (x_data e) = libssh2_NB_state_created -> startup_banner_send e = Ret (Some rc) e' -> run e = Ret rc e'.
Proof.
  intros Hs E. apply run_return. unfold startup_stages.
  by rewrite (stage_skip _ _ _ e), (stage_return _ _ _ e e' rc) by congruence.
Qed.

Lemma run_lines_blocks e e' rc :
  startup_state (x_data e) = libssh2_NB_state_sent -> startup_banner_receive e = Ret (Some rc) e' -> run e = Ret rc e'.
Proof.
  intros Hs E. apply run_return. unfold startup_stages.
  by rewrite 2!(stage_skip _ _ _ e), (stage_return _ _ _ e e' rc) by congruence.
Qed.
End Start.

(** The calls from [e] on are, whatever comes after the lines, the calls from [e'] on. *)
Definition leads (sock : Z) (n : nat) (e : ext startup) (m : nat) (e' : ext startup) : Prop :=
  forall transport_send transport_read fuel kex_exchange,
    let run := session_startup transport_send transport_read fuel kex_exchange sock in again n run e = again m run e'.

Lemma startup_socket_ok s0 sock flags d :
  fresh_start s0 sock flags d ->
  exists d', startup_socket sock (mk_ext s0 d) = Ret None (mk_ext s0 d') /\
    startup_state d' = libssh2_NB_state_created /\ banner_TxRx_banner d' = banner_TxRx_banner d /\
    banner_TxRx_state d' = libssh2_NB_state_idle /\ banner_TxRx_total_send d' = 0 /\
    socket_fd d' = sock /\ socket_prev_blockstate d' = (Z.land flags O_NONBLOCK =? 0) /\
    fd_flags d' = Some (Z.lor flags O_NONBLOCK).
Proof.
  intros [_ _ _ _ _ _ Hsock [Hf Hpos] Hset Hst [Hb Ht] _].
  unfold startup_socket. rewrite (proj2 (Z.eqb_neq sock (-1))) by done.
  unfold get_socket_nonblocking, session_nonblock, fcntl_setfl, fcntl_getfl, xset, xget, bind, gets, modify, ret.
  cbn [x_data x_session fd_flags fd_setfl upd]. rewrite Hf, Hset. cbn [default from_option id].
  rewrite (proj2 (Z.eqb_neq flags (-1))) by lia. cbn [tail head default].
  destruct (Z.eqb_spec (Z.land flags O_NONBLOCK) 0) as [E|E]; eexists; (split; [reflexivity|]); simpl;
    rewrite ?(proj2 (Z.eqb_neq _ _) E); split_and!; try done.
  f_equal. symmetry. unfold O_NONBLOCK in *. change 2048 with (2 ^ 11) in *.
  apply Z.bits_inj'. intros i Hi. rewrite Z.lor_spec, Z.pow2_bits_eqb by lia. destruct (Z.eqb_spec 11 i) as [<-|]; [|by rewrite orb_false_r].
  rewrite orb_true_r. destruct (Z.testbit flags 11) eqn:Eb; [done|]. destruct E.
  apply Z.bits_inj'. intros j Hj. rewrite Z.land_spec, Z.pow2_bits_eqb, Z.bits_0 by lia.
  destruct (Z.eqb_spec 11 j) as [<-|]; [by rewrite Eb|apply andb_false_r].
Qed.

Lemma sends_line s0 sock : ke_banner (kx_local (s_kex s0)) = None -> forall n k e,
  sending s0 k e -> startup_state (x_data e) = libssh2_NB_state_created -> (length (s_send (x_session e)) <= n)%nat ->
  exists m e', leads sock n e m e' /\ (n <= m + length (s_send (x_session e)))%nat /\
    send_post s0 e None e' /\ (m <= n)%nat.
Proof.
  intros Hloc n. induction n as [n IH] using (well_founded_induction lt_wf). intros k e Hs Hst Hn.
  pose proof (startup_banner_send_ok s0 Hloc k e Hs) as H. apply wp_Ret in H as (r & e1 & E & Hcore & Hpost).
  destruct Hpost as [(k1 & -> & Hs1 & Hst1 & Hlt)|Hdone].
  - destruct n as [|n]; [lia|]. destruct (IH n ltac:(lia) k1 e1) as (m & e2 & Hl & Hm & [Hc2 H2] & Hle); [done|congruence|lia|].
    exists m, e2. split; [|split; [lia|split; [|lia]]].
    + intros ts tr fu kx run. etrans; [|apply (Hl ts tr fu kx)]. apply again_eagain. by apply run_send_blocks.
    + split; [congruence|]. right. destruct H2 as [(? & ? & _)|(? & ? & ? & ? & ?)]; [done|]. split_and!; [done..|lia].
  - exists n, e1. destruct Hdone as (-> & Hrest). split; [|split; [lia|split; [split; [done|by right]|lia]]].
    intros ts tr fu kx run. apply again_same. apply run_banner_send; [done..|]. apply Hrest.
Qed.

Lemma lines_wire_len rest ls : (length ls <= length (lines_wire rest ls))%nat.
Proof.
  induction ls as [|l ls IH]; simpl; [lia|]. unfold sl_wire. rewrite !length_app. simpl. lia.
Qed.

Lemma recv_bytes_rounds l : (length (recv_bytes l) <= recv_rounds l)%nat.
Proof.
  induction l as [|r l IH]; [done|]. rewrite recv_bytes_cons, recv_rounds_cons, length_app. destruct r; simpl; lia.
Qed.

Lemma upcoming_rounds last rest s0 pre e :
  upcoming last rest s0 pre e -> (length pre <= recv_rounds (s_recv (x_session e)))%nat.
Proof.
  intros [_ H]. etrans; [|apply recv_bytes_rounds]. destruct pre as [|l pre]; [simpl; lia|].
  destruct H as (t & _ & acc & [_ _ _ (skip & todo & _ & _ & _ & ->)] & _).
  pose proof (lines_wire_len rest (pre ++ [last])) as H. rewrite length_app in H. rewrite !length_app. simpl in *. lia.
Qed.

Section Exchange.
Context (last : server_line) (Hlast : server_line_ok last) (Hident : is_ident last) (rest : list Z).
Context (s0 : session) (Hheap : heap_ok s0) (Halloc : s_alloc s0 = []) (sock : Z).

Lemma reads_lines : forall n pre e,
  upcoming last rest s0 pre e -> startup_state (x_data e) = libssh2_NB_state_sent ->
  (blocks (s_recv (x_session e)) <= n)%nat ->
  exists m e', leads sock n e m e' /\ (m <= n <= m + blocks (s_recv (x_session e)))%nat /\
    lines_frame e e' /\ received last rest s0 e' /\ startup_state (x_data e') = libssh2_NB_state_sent1.
Proof.
  induction n as [n IH] using (well_founded_induction lt_wf). intros pre e Hup Hst Hn.
  assert (Hw : wp startup_banner_receive (lines_post last rest s0 e) e).
  { destruct e as [s d]. unfold startup_banner_receive. do 3 x_step.
    eapply startup_lines_ok; [done..|]. apply upcoming_rounds in Hup. simpl in Hup. lia. }
  apply wp_Ret in Hw as (r & e1 & E & Hf & [(pre1 & -> & Hup1 & Hst1 & Hlt)|(-> & Hrec & Hst1)]).
  - destruct n as [|n]; [lia|]. destruct (IH n ltac:(lia) pre1 e1) as (m & e2 & Hl & Hm & Hf2 & H2); [done|congruence|lia|].
    exists m, e2. split; [|split; [lia|split; [|done]]].
    + intros ts tr fu kx run. etrans; [|apply (Hl ts tr fu kx)]. apply again_eagain. by apply run_lines_blocks.
    + destruct Hf, Hf2. split; [congruence..|lia].
  - exists n, e1. split; [|split; [lia|done]]. intros ts tr fu kx run. apply again_same. by apply run_lines.
Qed.
End Exchange.

(** C5: the identification. A client that starts with the default identification line, on
    whatever pieces the socket takes and delivers and however often it would block, as long as
    the socket and the allocator do not fail and the server sends well-formed lines, sends its
    line once, reads the lines of the server up to the first that starts with [SSH-],
    keeps that one without its line end, has made the socket non-blocking, and then is in
    the state where the keys are exchanged: the calls so far had no other effect, and
    exactly the bytes behind the line are still to be read. A line that the application has
    set is not sent right in pieces ([own_line_mixed], [own_line_overread]). *)
Theorem startup_identifies s0 d sock flags pre last rest n
    (Hstart : fresh_start s0 sock flags d)
    (Hpre : Forall (fun l => server_line_ok l /\ ~ is_ident l) pre)
    (Hlast : server_line_ok last) (Hident : is_ident last)
    (Hstream : recv_bytes (s_recv s0) = lines_wire rest (pre ++ [last]))
    (Hn : (length (s_send s0) + blocks (s_recv s0) <= n)%nat) :
  exists m e, leads sock n (mk_ext s0 d) m e /\ (n <= m + length (s_send s0) + blocks (s_recv s0))%nat /\
    startup_state (x_data e) = libssh2_NB_state_sent1 /\
    identified s0 (Some (sl_text last)) (x_session e) /\
    s_wire (x_session e) = s_wire s0 ++ LIBSSH2_SSH_DEFAULT_BANNER_WITH_CRLF /\
    recv_bytes (s_recv (x_session e)) = rest /\
    socket_fd (x_data e) = sock /\ fd_flags (x_data e) = Some (Z.lor flags O_NONBLOCK) /\
    socket_prev_blockstate (x_data e) = (Z.land flags O_NONBLOCK =? 0).
Proof.
  destruct (startup_socket_ok s0 sock flags d Hstart) as (d1 & E1 & Hst1 & Hbuf & Hb1 & Ht1 & Hfd & Hprev & Hflags).
  destruct Hstart as [Hh Ha Hloc Hrem Hrecv Hsend Hsock Hfl Hset Hst Hbs Hsize].
  assert (Hs : sending s0 0 (mk_ext s0 d1)).
  { split; simpl; try done; [|by rewrite Hbuf|by rewrite app_nil_r]. split; [done| |done|done].
    destruct (s_kex s0) as []; simpl in *. destruct kx_remote; simpl in *. done. }
  destruct (sends_line s0 sock Hloc n 0 (mk_ext s0 d1) Hs Hst1) as (m1 & e2 & L2 & Hm1 & [Hc2 H2] & Hle1); [simpl; lia|].
  destruct H2 as [(? & ? & _)|(_ & Hs2 & Hst2 & Hb2 & Hlen2)]; [done|]. simpl in Hm1, Hlen2.
  destruct Hs2 as [Hid2 Hrecv2 Hsend2 Hsize2 _ _ Hw2]. simpl in *.
  assert (Hup : upcoming last rest s0 pre e2).
  { assert (Haw : forall l rest', server_line_ok l -> recv_bytes (s_recv s0) = sl_wire l ++ rest' -> awaiting l rest' s0 None e2).
    { intros l rest' Hl Hr. split; [done|]. exists []. split; [|by left]. split; [done|done|by rewrite Hrecv2|].
      exists (sl_skip l), (sl_line l). rewrite Hrecv2, Hr. unfold sl_wire. rewrite <- !app_assoc.
      pose proof (sl_skip_ok _ Hl). auto. }
    split; [done|]. destruct pre as [|l pre]; exists None; apply Haw; try done. by apply Forall_cons in Hpre as [[? _] _]. }
  destruct (reads_lines last Hlast Hident rest s0 Hh Ha sock m1 pre e2 Hup Hst2) as (m & e & L3 & Hm & Hf & Hrc & Hst3); [rewrite Hrecv2; lia|].
  rewrite Hrecv2 in Hm. destruct Hf as [Hcore Hfs Hfw _]. rewrite Hc2 in Hcore. destruct Hrc as [_ _ [_ Hr] Hid].
  exists m, e. split.
  { intros ts tr fu kx run. etrans; [apply again_same; by apply (run_socket ts tr fu kx sock (mk_ext s0 d) (mk_ext s0 d1))|].
    etrans; [apply (L2 ts tr fu kx)|apply (L3 ts tr fu kx)]. }
  split; [lia|]. split; [done|]. split; [done|]. split; [rewrite Hfw, Hw2; f_equal|]. split; [done|].
  pose proof (f_equal socket_fd Hcore). pose proof (f_equal fd_flags Hcore). pose proof (f_equal socket_prev_blockstate Hcore).
  simpl in *. split_and!; congruence.
Qed.

Definition greeting : server_line := mk_line [LF] (str "hello") [CR].
Definition identity : server_line := mk_line [] (str "SSH-2.0-x") [CR].

Definition lines_session : session :=
  session_0 <| s_send := [4; - EAGAIN] |>
    <| s_recv := [RecvBytes ([LF] ++ str "hello"); RecvFail (- EAGAIN); RecvBytes ([CR; LF] ++ str "SSH-2.0-x" ++ [CR; LF; 1; 2])] |>.

Lemma greeting_ok : server_line_ok greeting /\ ~ is_ident greeting.
Proof.
  split; [|done]. split; [by repeat constructor..| |].
  - by exists (str "hell"), 111.
  - split; [by do 2 eexists|by repeat constructor|done].
Qed.

Lemma identity_ok : server_line_ok identity.
Proof.
  split; [by repeat constructor..| |].
  - by exists (str "SSH-2.0-"), 120.
  - split; [by do 2 eexists|by repeat constructor|done].
Qed.

Lemma startup_identifies_witness :
  exists m e, leads 3 3 (mk_ext lines_session startup_0) m e /\ (3 <= m + 2 + 1)%nat /\
    startup_state (x_data e) = libssh2_NB_state_sent1 /\
    identified lines_session (Some (str "SSH-2.0-x")) (x_session e) /\
    s_wire (x_session e) = [] ++ LIBSSH2_SSH_DEFAULT_BANNER_WITH_CRLF /\
    recv_bytes (s_recv (x_session e)) = [1; 2] /\
    socket_fd (x_data e) = 3 /\ fd_flags (x_data e) = Some (Z.lor 0 O_NONBLOCK) /\
    socket_prev_blockstate (x_data e) = (Z.land 0 O_NONBLOCK =? 0).
Proof.
  apply (startup_identifies lines_session startup_0 3 0 [greeting] identity [1; 2] 3).
  - split; try done.
    + by repeat constructor.
    + apply Forall_cons. split; [by left|]. apply Forall_cons. split; [by right|done].
  - constructor; [apply greeting_ok|done].
  - apply identity_ok.
  - reflexivity.
  - reflexivity.
  - apply Nat.le_refl.
Defined.

(** ** Runs of a start and an end that go wrong *)

(** *** The client's own line *)

(** A session whose application has set a line, and a socket that takes [k] bytes first. *)
Definition own_line_session (line : list Z) (k : Z) : session :=
  session_0 <| s_send := [k] |> <| s_heap := {[ 1%positive := line ++ [CR; LF; 0] ]} |> <| s_next_ptr := 2%positive |>
    <| s_kex ::= fun x => x <| kx_local ::= fun e => e <| ke_banner := Some 1%positive |> |> |>.

(** a line set with [libssh2_session_banner_set] that the socket takes in two pieces is
    finished with the bytes of the default line. *)
Theorem own_line_mixed :
  exists e, again 1 banner_send (mk_ext (own_line_session (str "SSH-2.0-my_own_client") 12) startup_0) = Ret 0 e /\
    s_wire (x_session e) = str "SSH-2.0-my_osh2_1.10.1_DEV" ++ [CR; LF].
Proof. eexists. split; vm_compute; reflexivity. Qed.

(** a longer one, when more than the length of the default line has been taken, makes
    the length of the rest negative: memory behind the default line is sent. *)
Theorem own_line_overread :
  again 1 banner_send (mk_ext (own_line_session (str "SSH-2.0-" ++ replicate 40 120) 35) startup_0) = Fault.
Proof. vm_compute. reflexivity. Qed.

(** *** The accepted service *)

(** A session that has asked for the service and received [reply]. *)
Definition accept_session (reply : list Z) : ext startup :=
  mk_ext (session_0 <| s_heap := {[ 1%positive := reply ]} |> <| s_next_ptr := 2%positive |>
            <| packets := [mk_packet 1%positive (lenZ reply) 0] |>)
         (startup_0 <| startup_state := libssh2_NB_state_sent4 |>).

Abbreviation start_run := (session_startup send_all read_nothing 2 (ret 0) 3).

(** an answer that announces twelve bytes and ends there is compared beyond its end. *)
Theorem service_accept_overread :
  start_run (accept_session (SSH_MSG_SERVICE_ACCEPT :: htonu32 12)) = Fault.
Proof. vm_compute. reflexivity. Qed.

(** an answer of less than five bytes is not released: the next one takes its place. *)
Theorem short_accept_leaks :
  exists e, start_run (accept_session [SSH_MSG_SERVICE_ACCEPT; 0]) = Ret LIBSSH2_ERROR_PROTO e /\
    startup_data (x_data e) = Some 1%positive /\ is_Some (s_heap (x_session e) !! 1%positive) /\
    startup_state (x_data e) = libssh2_NB_state_sent4.
Proof. eexists. split; [vm_compute; reflexivity|]. split; [done|]. split; [vm_compute; by eexists|done]. Qed.

(** *** The last message *)

(** A transport that keeps what it is given. *)
Definition record_send (d d2 : list Z) : CM Z := fun s => Ret 0 (s <| s_wire ::= fun w => w ++ d ++ d2 |>).

(** the language of a disconnect message is counted twice: as many stale bytes of the
    array are sent before it. *)
Theorem disconnect_language_misplaced :
  exists e, session_disconnect record_send 11 (Some (str "bye")) (Some (str "en")) (mk_ext session_0 startup_0) = Ret 0 e /\
    s_wire (x_session e) =
      [SSH_MSG_DISCONNECT] ++ htonu32 11 ++ htonu32 3 ++ str "bye" ++ htonu32 2 ++ [0; 0] ++ str "en".
Proof. eexists. split; vm_compute; reflexivity. Qed.

(** with a long description the count reaches beyond the array. *)
Theorem disconnect_overread :
  session_disconnect record_send 11 (Some (replicate 256 120)) (Some (str "en")) (mk_ext session_0 startup_0) = Fault.
Proof. vm_compute. reflexivity. Qed.

(** *** A session without keys *)

(** Whoever answers in the server's place: an identification, an offer, and the service. *)
Definition keyless_session : ext startup :=
  let offer := offered_message (str "diffie-hellman-group14-sha256") 0 in
  let accept := SSH_MSG_SERVICE_ACCEPT :: htonu32 12 ++ USERAUTH_SERVICE in
  mk_ext (session_0 <| s_recv := [RecvBytes (str "SSH-2.0-x" ++ [CR; LF])] |>
            <| s_heap := {[ 1%positive := offer; 2%positive := accept ]} |> <| s_next_ptr := 3%positive |>
            <| packets := [mk_packet 1%positive (lenZ offer) 0; mk_packet 2%positive (lenZ accept) 0] |>)
         startup_0.

(** when [libssh2_dh_key_pair] fails, the exchange reports success, the handshake goes on
    and returns 0: the session is used without encryption, and no host key was seen. *)
Theorem handshake_without_keys :
  let kex := kex_exchange full_build random_sevens send_all read_nothing (toy_exchange None 5) 5 false in
  exists e, libssh2_session_handshake send_all read_nothing 5 kex 1 3 keyless_session = Ret 0 e /\
    Z.land (s_state (x_session e)) LIBSSH2_STATE_NEWKEYS = 0 /\
    server_hostkey (kx_server (s_kex (x_session e))) = None.
Proof. eexists. split; [vm_compute; reflexivity|]. split; vm_compute; reflexivity. Qed.
