(* ===== verification/SessionApi.v ===== *)
(** * Public calls on a session (session.c)

    Creation, settings, the last error, the methods in use, and polling of channels and
    listeners. The fields that only these calls use, and what the system's [poll] and
    clock return, are the client's state. The platform has [poll], [alloca] and
    [gettimeofday]. *)

From stdpp Require Import base numbers list gmap strings.
From S2P Require Import Prelude Codes CString KexMethods Wire Session ChannelWindow Packet Conn Comp ChannelIO PacketSpec Transport Kex Ext Blocking.

Definition LIBSSH2_FLAG_SIGPIPE : Z := 1.
Definition LIBSSH2_FLAG_COMPRESS : Z := 2.
Definition LIBSSH2_POLLFD_POLLIN : Z := 1.
Definition LIBSSH2_POLLFD_POLLEXT : Z := 2.
Definition LIBSSH2_POLLFD_POLLOUT : Z := 4.
Definition LIBSSH2_POLLFD_SESSION_CLOSED : Z := 16.
Definition LIBSSH2_POLLFD_CHANNEL_CLOSED : Z := 128.
Definition LIBSSH2_POLLFD_LISTENER_CLOSED : Z := 128.
Definition POLLHUP : Z := 16.

(** A return of the system's [poll]: its value, the events of every descriptor, and the
    milliseconds that have passed. *)
Record poll_return := mk_poll_return {
  pr_sysret : Z;
  pr_revents : list Z;
  pr_elapsed : Z
}.

Record api_data := mk_api_data {
  flag_sigpipe : Z;
  api_polls : list poll_return
}.
#[global] Instance eta_api_data : Eta api_data := fun d => mk_api_data (flag_sigpipe d) (api_polls d).

Abbreviation AM := (XM api_data).

(** ** Creation and settings *)

(** [libssh2_session_init_ex]: the zeroed structure with its defaults. *)
Definition libssh2_session_init_ex (alloc_ok : bool) : option session :=
  if alloc_ok then Some (session_0 <| api_block_mode := true |>
                                   <| s_waiting ::= fun w => w <| api_timeout := 0 |> |>)
  else None.

Definition libssh2_session_flag (flag value : Z) : AM Z :=
  if flag =? LIBSSH2_FLAG_SIGPIPE then xset (fun d => d <| flag_sigpipe := value |>) ;; ret LIBSSH2_ERROR_NONE
  else if flag =? LIBSSH2_FLAG_COMPRESS then
    xlift (set_kex (fun k => k <| flag_compress := negb (value =? 0) |>)) ;; ret LIBSSH2_ERROR_NONE
  else ret LIBSSH2_ERROR_INVAL.

(** [_libssh2_session_set_blocking] returns the previous mode. *)
Definition session_set_blocking (blocking : bool) : CM bool :=
  let! bl := gets api_block_mode in modify (fun s => s <| api_block_mode := blocking |>) ;; ret bl.
Definition libssh2_session_get_blocking : CM bool := gets api_block_mode.

Definition libssh2_session_set_timeout (timeout : Z) : CM unit := set_waiting (fun w => w <| api_timeout := timeout |>).
Definition libssh2_session_get_timeout : CM Z := gets (fun s => api_timeout (s_waiting s)).
Definition libssh2_session_block_directions : CM Z := gets socket_block_directions.

(** ** The last error *)

(** What [*errmsg] is set to: nothing, a copy for the caller, or the session's text. *)
Inductive error_text := NotAsked | Copied (p : option ptr) | Borrowed (msg : string).

(** The return value, [*errmsg] and [*errmsg_len]; the latter when [errmsg] is given. *)
Definition libssh2_session_last_error (errmsg want_buf : bool) : CM (Z * error_text * Z) :=
  let! code := gets err_code in
  let! msg := gets (fun s => if err_code s =? 0 then EmptyString else err_msg s) in
  if negb errmsg then ret (code, NotAsked, 0)
  else if want_buf then
    let! p := alloc_block (str msg ++ [0]) in ret (code, Copied p, lenZ (str msg))
  else ret (code, Borrowed msg, lenZ (str msg)).

Definition libssh2_session_last_errno : CM Z := gets err_code.

Definition libssh2_session_set_last_error (errcode : Z) (errmsg : string) : CM Z :=
  error_flags errcode errmsg LIBSSH2_ERR_FLAG_DUP.

(** ** The methods in use *)

Definition in_use {A} `{CommonMethod A} (m : option A) : CM (option (list Z)) :=
  match m with
  | Some m => ret (Some (method_name m))
  | None => error LIBSSH2_ERROR_METHOD_NONE "No method negotiated" ;; ret None
  end.

Definition libssh2_session_methods (method_type : Z) : CM (option (list Z)) :=
  let! k := gets s_kex in
  if method_type =? LIBSSH2_METHOD_KEX then in_use (kx_kex k)
  else if method_type =? LIBSSH2_METHOD_HOSTKEY then in_use (kx_hostkey k)
  else if method_type =? LIBSSH2_METHOD_CRYPT_CS then in_use (ke_crypt (kx_local k))
  else if method_type =? LIBSSH2_METHOD_CRYPT_SC then in_use (ke_crypt (kx_remote k))
  else if method_type =? LIBSSH2_METHOD_MAC_CS then in_use (ke_mac (kx_local k))
  else if method_type =? LIBSSH2_METHOD_MAC_SC then in_use (ke_mac (kx_remote k))
  else if method_type =? LIBSSH2_METHOD_COMP_CS then in_use (ke_comp (kx_local k))
  else if method_type =? LIBSSH2_METHOD_COMP_SC then in_use (ke_comp (kx_remote k))
  else if (method_type =? LIBSSH2_METHOD_LANG_CS) || (method_type =? LIBSSH2_METHOD_LANG_SC) then ret (Some [])
  else error LIBSSH2_ERROR_INVAL "Invalid parameter specified for method_type" ;; ret None.

(** ** Polling *)

Fixpoint poll_read_loop (id extended : Z) (ps : list packet) : CM Z :=
  match ps with
  | [] => ret 0
  | k :: ps =>
      if pk_data_len k <? 5 then error LIBSSH2_ERROR_BUFFER_TOO_SMALL "Packet too small"
      else
        let! d := block (pk_data k) in
        let! i := access (ntohu32 d 1) in
        let! ty := access (byte_at d 0) in
        if (id =? i) &&
           ((extended =? 1) && ((ty =? SSH_MSG_CHANNEL_EXTENDED_DATA) || (ty =? SSH_MSG_CHANNEL_DATA))
            || (extended =? 0) && (ty =? SSH_MSG_CHANNEL_DATA))
        then ret 1
        else poll_read_loop id extended ps
  end.

Definition libssh2_poll_channel_read (channel : option ptr) (extended : Z) : CM Z :=
  match channel with
  | None => ret LIBSSH2_ERROR_BAD_USE
  | Some p =>
      let! c := chan p in
      let! ps := gets packets in poll_read_loop (cd_id (local c)) extended ps
  end.

Definition poll_channel_write (p : ptr) : CM Z :=
  let! c := chan p in ret (if cd_window_size (local c) =? 0 then 0 else 1).

(** Listeners are named by their place in the session's list. *)
Definition poll_listener_queued (l : nat) : CM Z :=
  let! ls := gets listeners in
  let! l := access (ls !! l) in ret (match queue l with [] => 0 | _ => 1 end).

Inductive poll_target := PollSocket (fd : Z) | PollChannel (p : ptr) | PollListener (l : nat) | PollOther (type : Z).

Record pollfd := mk_pollfd {
  pf_target : poll_target;
  pf_events : Z;
  pf_revents : Z
}.
#[global] Instance eta_pollfd : Eta pollfd := fun f => mk_pollfd (pf_target f) (pf_events f) (pf_revents f).

Definition set_bits (f : pollfd) (bits : Z) : pollfd := f <| pf_revents ::= fun r => Z.lor r bits |>.
Definition wants (f : pollfd) (bit : Z) : bool :=
  negb (Z.land (pf_events f) bit =? 0) && (Z.land (pf_revents f) bit =? 0).

(** An event that is asked for and not known yet is looked up. *)
Definition look_for (f : pollfd) (bit : Z) (look : CM Z) : CM pollfd :=
  if wants f bit then let! r := look in ret (set_bits f (if r =? 0 then 0 else bit)) else ret f.

(** One descriptor of the checking loop. *)
Definition poll_check (f : pollfd) : CM pollfd :=
  if pf_events f =? pf_revents f then ret f
  else
    let! gone := gets (fun s => socket_state s =? LIBSSH2_SOCKET_DISCONNECTED) in
    match pf_target f with
    | PollChannel p =>
        let! f := look_for f LIBSSH2_POLLFD_POLLIN (libssh2_poll_channel_read (Some p) 0) in
        let! f := look_for f LIBSSH2_POLLFD_POLLEXT (libssh2_poll_channel_read (Some p) 1) in
        let! f := look_for f LIBSSH2_POLLFD_POLLOUT (poll_channel_write p) in
        let! c := chan p in
        let f := if cd_close (remote c) || cd_close (local c) then set_bits f LIBSSH2_POLLFD_CHANNEL_CLOSED else f in
        ret (if gone then set_bits f (Z.lor LIBSSH2_POLLFD_CHANNEL_CLOSED LIBSSH2_POLLFD_SESSION_CLOSED) else f)
    | PollListener l =>
        let! f := look_for f LIBSSH2_POLLFD_POLLIN (poll_listener_queued l) in
        ret (if gone then set_bits f (Z.lor LIBSSH2_POLLFD_LISTENER_CLOSED LIBSSH2_POLLFD_SESSION_CLOSED) else f)
    | _ => ret f
    end.

Fixpoint each {S A B} (f : A -> M S B) (l : list A) : M S (list B) :=
  match l with
  | [] => ret []
  | x :: l => let! y := f x in let! ys := each f l in ret (y :: ys)
  end.

Definition active (fds : list pollfd) : Z := lenZ (filter (fun f => pf_revents f <> 0) fds).

Section Poll.
Context (transport_read : CM Z) (fuel : nat).

(** One descriptor after the system's [poll] has returned [revents] for it. *)
Definition poll_socket (x : pollfd * Z) : CM pollfd :=
  let '(f, revents) := x in
  let hangup := negb (Z.land revents POLLHUP =? 0) in
  match pf_target f with
  | PollSocket _ => ret (f <| pf_revents := revents |>)
  | PollChannel _ =>
      transport_drain transport_read fuel ;;
      ret (if hangup then set_bits f (Z.lor LIBSSH2_POLLFD_CHANNEL_CLOSED LIBSSH2_POLLFD_SESSION_CLOSED) else f)
  | PollListener _ =>
      transport_drain transport_read fuel ;;
      ret (if hangup then set_bits f (Z.lor LIBSSH2_POLLFD_LISTENER_CLOSED LIBSSH2_POLLFD_SESSION_CLOSED) else f)
  | PollOther _ => ret f
  end.

(** Only sockets are counted again. *)
Definition active_sockets (fds : list pollfd) : Z :=
  active (filter (fun f => match pf_target f with PollSocket _ => true | _ => false end = true) fds).

(** The next return of [poll]; when none is left it times out. *)
Definition system_poll (nfds : nat) (timeout : Z) : AM poll_return :=
  let! l := xget api_polls in
  match l with
  | [] => ret (mk_poll_return 0 (replicate nfds 0) (Z.max 0 timeout))
  | r :: rest => xset (fun d => d <| api_polls := rest |>) ;; ret r
  end.

Fixpoint poll_rounds (rounds : nat) (fds : list pollfd) (timeout : Z) : AM (Z * list pollfd) :=
  match rounds with
  | O => fun _ => OutOfFuel
  | S rounds =>
      let! fds := xlift (each poll_check fds) in
      let n := active fds in
      let! r := system_poll (length fds) (if 0 <? n then 0 else timeout) in
      let timeout := (if 0 <? n then 0 else timeout) - pr_elapsed r in
      let! fds' := (if 0 <? pr_sysret r then xlift (each poll_socket (zip fds (resize (length fds) 0 (pr_revents r)))) else ret fds) in
      let n := if 0 <? pr_sysret r then n + active_sockets fds' else n in
      if (0 <? timeout) && (n =? 0) then poll_rounds rounds fds' timeout else ret (n, fds')
  end.

(** The setup: the events are cleared up to a descriptor of an unknown type. *)
Fixpoint poll_setup (known : bool) (fds : list pollfd) : CM (bool * list pollfd) :=
  match fds with
  | [] => ret (true, [])
  | f :: fds =>
      let f := f <| pf_revents := 0 |> in
      match pf_target f with
      | PollOther _ =>
          (if known then error LIBSSH2_ERROR_INVALID_POLL_TYPE "Invalid descriptor passed to libssh2_poll()" ;; ret tt
           else ret tt) ;;
          ret (false, f :: fds)
      | t =>
          let! r := poll_setup (known || match t with PollSocket _ => false | _ => true end) fds in
          ret (r.1, f :: r.2)
      end
  end.

(** [libssh2_poll]: its value and the descriptors. *)
Definition libssh2_poll (rounds : nat) (fds : list pollfd) (timeout : Z) : AM (Z * list pollfd) :=
  let! r := xlift (poll_setup false fds) in
  if negb r.1 then ret (-1, r.2) else poll_rounds rounds r.2 timeout.
End Poll.

(** ** Theorems *)

(** The packet carries data for the channel [id]: of its first stream, or with
    [extended = 1] of any. *)
Definition carries (id extended : Z) (h : gmap ptr (list Z)) (k : packet) : bool :=
  match h !! pk_data k with
  | Some d =>
      bool_decide (ntohu32 d 1 = Some id) &&
      (bool_decide (byte_at d 0 = Some SSH_MSG_CHANNEL_DATA) && ((extended =? 0) || (extended =? 1))
       || bool_decide (byte_at d 0 = Some SSH_MSG_CHANNEL_EXTENDED_DATA) && (extended =? 1))
  | None => false
  end.

Lemma poll_read_loop_ok id extended s ps :
  Forall (packet_ok (s_heap s)) ps -> Forall (fun k => 5 <= pk_data_len k) ps ->
  poll_read_loop id extended ps s = Ret (if existsb (carries id extended (s_heap s)) ps then 1 else 0) s.
Proof.
  induction ps as [|k ps IH]; intros Hok Hlen; [done|].
  apply Forall_cons in Hok as [Hk Hok]. apply Forall_cons in Hlen as [Hk5 Hlen]. cbn [poll_read_loop existsb].
  destruct (Z.ltb_spec (pk_data_len k) 5); [lia|]. destruct Hk as (d & Hd & _ & _ & Hdl).
  rewrite (bind_Ret _ _ _ d s) by (unfold block, bind, gets; by rewrite Hd).
  destruct (ntohu32_in d 1) as [i Hi]; [lia..|]. destruct (byte_at_in d 0) as [ty Hty]; [lia|].
  unfold carries at 1. rewrite Hd, Hi, Hty. cbn [access]. rewrite !bind_ret.
  replace (bool_decide (Some i = Some id)) with (id =? i) by (destruct (Z.eqb_spec id i); symmetry; [apply bool_decide_eq_true_2|apply bool_decide_eq_false_2]; congruence).
  assert (Hb : forall c, bool_decide (Some ty = Some c) = (ty =? c)).
  { intros c. destruct (Z.eqb_spec ty c); [apply bool_decide_eq_true_2|apply bool_decide_eq_false_2]; congruence. }
  rewrite !Hb.
  replace ((ty =? SSH_MSG_CHANNEL_DATA) && ((extended =? 0) || (extended =? 1)) || (ty =? SSH_MSG_CHANNEL_EXTENDED_DATA) && (extended =? 1))
    with ((extended =? 1) && ((ty =? SSH_MSG_CHANNEL_EXTENDED_DATA) || (ty =? SSH_MSG_CHANNEL_DATA)) || (extended =? 0) && (ty =? SSH_MSG_CHANNEL_DATA))
    by (destruct (extended =? 0), (extended =? 1), (ty =? SSH_MSG_CHANNEL_DATA), (ty =? SSH_MSG_CHANNEL_EXTENDED_DATA); done).
  destruct ((id =? i) && _); [done|]. by apply IH.
Qed.

(** [libssh2_poll_channel_read] tells whether data for the channel is queued, and
    changes nothing, when no packet in the queue is shorter than five bytes. *)
Theorem poll_channel_read_finds s p c extended
    (Hok : conn_ok s) (Hc : s_chans s !! p = Some c) (Hlen : Forall (fun k => 5 <= pk_data_len k) (packets s)) :
  libssh2_poll_channel_read (Some p) extended s =
    Ret (if existsb (carries (cd_id (local c)) extended (s_heap s)) (packets s) then 1 else 0) s.
Proof.
  unfold libssh2_poll_channel_read. rewrite (bind_Ret _ _ _ c s) by (unfold chan, bind, gets; by rewrite Hc).
  rewrite (bind_Ret _ _ _ (packets s) s) by done. apply poll_read_loop_ok; [|done]. apply (ok_packets _ Hok).
Qed.

(** A queue whose first packet is the one-byte answer to a global request. *)
Definition short_packet_session : session :=
  session_0 <| s_heap := {[ 1%positive := [SSH_MSG_REQUEST_SUCCESS] ]} |> <| s_next_ptr := 3%positive |>
    <| packets := [mk_packet 1%positive 1 0] |> <| s_chans := {[ 2%positive := channel_0 ]} |>.

(** such a packet makes [libssh2_poll] report every channel as readable: the error
    value counts as true. *)
Theorem poll_short_packet_readable :
  exists s d, libssh2_poll (ret 0) 1 1 [mk_pollfd (PollChannel 2%positive) LIBSSH2_POLLFD_POLLIN 0] 0
      (mk_ext short_packet_session (mk_api_data 0 [])) =
    Ret (1, [mk_pollfd (PollChannel 2%positive) LIBSSH2_POLLFD_POLLIN LIBSSH2_POLLFD_POLLIN]) (mk_ext s d).
Proof. do 2 eexists. vm_compute. reflexivity. Qed.

(** a poll without limit that is woken by the channel's data returns 0: the queue is
    not looked at again. [poll_wakes] is a transport that queues a data packet. *)
Definition poll_wakes : CM Z := fun s =>
  match packets s with
  | [] => Ret SSH_MSG_CHANNEL_DATA
            (s <| s_heap := {[ 1%positive := SSH_MSG_CHANNEL_DATA :: htonu32 0 ++ htonu32 1 ++ [7] ]} |>
               <| packets := [mk_packet 1%positive 10 9] |>)
  | _ => Ret LIBSSH2_ERROR_EAGAIN s
  end.

Theorem poll_unlimited_misses_data :
  exists s d, libssh2_poll poll_wakes 3 3 [mk_pollfd (PollChannel 2%positive) LIBSSH2_POLLFD_POLLIN 0] (-1)
      (mk_ext (session_0 <| s_chans := {[ 2%positive := channel_0 ]} |>) (mk_api_data 0 [mk_poll_return 1 [1] 5])) =
    Ret (0, [mk_pollfd (PollChannel 2%positive) LIBSSH2_POLLFD_POLLIN 0]) (mk_ext s d) /\
    libssh2_poll_channel_read (Some 2%positive) 0 s = Ret 1 s.
Proof. do 2 eexists. split; vm_compute; reflexivity. Qed.
