(* ===== verification/SessionFree.v ===== *)
(** * Freeing a session (session.c)

    [session_free] closes the channels and listeners and releases what the fields of the
    session point to. What the other clients of the session hold in their fields is the
    list [clients]; contexts of the crypto backend and of zlib are released by it. *)

From stdpp Require Import base numbers list gmap strings.
From S2P Require Import Prelude Codes CString KexMethods Wire Session ChannelWindow Packet PacketAdd PacketWait ChannelIO ChannelCtl Conn Comp PacketSafety PacketSpec ChannelLife Transport TransportSpec TransportTrip Kex KexDh Ext Blocking ChannelFwd SessionStart.

Section Free.
Context (transport_send : list Z -> list Z -> CM Z) (transport_read : CM Z) (fuel : nat).

(** The channels of the session, the first of the list until there is none. *)
Fixpoint free_channels (rounds : nat) : CM (option Z) :=
  let! cs := gets channels in
  match cs with
  | [] => ret None
  | p :: _ =>
      match rounds with
      | O => fun _ => OutOfFuel
      | S rounds =>
          let! rc := channel_free transport_send transport_read fuel p in
          if rc =? LIBSSH2_ERROR_EAGAIN then ret (Some rc) else free_channels rounds
      end
  end.

Fixpoint free_listeners (rounds : nat) : CM (option Z) :=
  let! ls := gets listeners in
  match ls with
  | [] => ret None
  | _ :: _ =>
      match rounds with
      | O => fun _ => OutOfFuel
      | S rounds =>
          let! rc := channel_forward_cancel transport_send transport_read fuel 0 in
          if rc =? LIBSSH2_ERROR_EAGAIN then ret (Some rc) else free_listeners rounds
      end
  end.

(** The blocks of one direction. *)
Definition endpoint_blocks (e : kex_endpoint) : list (option ptr) :=
  [ke_kexinit e; crypt_prefs e; mac_prefs e; comp_prefs e; lang_prefs e].

(** The blocks of the keys in use: the keys of the MACs and the session identifier. *)
Definition key_blocks (s : session) : list (option ptr) :=
  let k := s_kex s in
  if state_has s LIBSSH2_STATE_NEWKEYS then
    [(match ke_mac (kx_local k) with Some _ => ke_mac_abstract (kx_local k) | None => None end);
     (match ke_mac (kx_remote k) with Some _ => ke_mac_abstract (kx_remote k) | None => None end);
     session_id (kx_server k)]
  else [].

(** In the order of the code, up to the queue. *)
Definition session_blocks (clients : list (option ptr)) (e : ext startup) : list (option ptr) :=
  let s := x_session e in
  let k := s_kex s in
  key_blocks s ++ [ke_banner (kx_remote k); ke_banner (kx_local k); kex_prefs k; hostkey_prefs k] ++
  endpoint_blocks (kx_local k) ++ endpoint_blocks (kx_remote k) ++
  [sign_algo_prefs k; kexinit_data k; startup_data (x_data e)] ++ clients ++ [open_data s] ++
  [if tp_total_num (s_packet s) =? 0 then None else tp_payload (s_packet s)].

Fixpoint free_all (l : list (option ptr)) : CM unit :=
  match l with [] => ret tt | p :: l => free_opt p ;; free_all l end.

(** "Cleanup all remaining packets". *)
Fixpoint free_packets (ps : list packet) : CM unit :=
  match ps with
  | [] => ret tt
  | k :: ps => modify (fun s => s <| packets := ps |>) ;; free_block (pk_data k) ;; free_packets ps
  end.

Definition free_stage (st : libssh2_nonblocking_states) (body : CM (option Z)) (next : libssh2_nonblocking_states) :
    SM (option Z) :=
  let! cur := xget session_free_state in
  if nb_is cur st then
    let! r := xlift body in
    match r with
    | Some rc => ret (Some rc)
    | None => xset (fun d => d <| session_free_state := next |>) ;; ret None
    end
  else ret None.

(** What is released when no channel and no listener is left. *)
Definition free_rest (clients : list (option ptr)) : SM Z :=
  let! blocks := gets (session_blocks clients) in
  xlift (free_all blocks) ;;
  let! ps := xlift (gets packets) in
  xlift (free_packets ps) ;;
  let! blocking := xget socket_prev_blockstate in
  (if (blocking : bool) then let! _ := session_nonblock false in ret tt else ret tt) ;;
  let! hostkey := xlift (gets (fun s => server_hostkey (kx_server (s_kex s)))) in
  xlift (free_opt hostkey) ;;
  ret 0.

Definition session_free (rounds : nat) (clients : list (option ptr)) : SM Z :=
  let! st := xget session_free_state in
  (if nb_is st libssh2_NB_state_idle then xset (fun d => d <| session_free_state := libssh2_NB_state_created |>)
   else ret tt) ;;
  let! r := free_stage libssh2_NB_state_created (free_channels rounds) libssh2_NB_state_sent in
  match r with
  | Some rc => ret rc
  | None =>
      let! r := free_stage libssh2_NB_state_sent (free_listeners rounds) libssh2_NB_state_sent1 in
      match r with Some rc => ret rc | None => free_rest clients end
  end.

Definition libssh2_session_free (waits rounds : nat) (clients : list (option ptr)) : SM Z :=
  block_adjust (fun _ m => xlift m) transport_send (session_free rounds clients) waits.
End Free.

(** ** What freeing a session leaves

    When the connection is gone, no key exchange is under way and no allocation fails,
    [session_free] ends in one call: no channel, listener or packet is left, and every block
    that the session owned is released once. *)

(** What the fields outside the channels own, and whether allocations succeed. *)
Definition owners (s : session) :=
  (s_kex s, s_state s, open_data s, tp_total_num (s_packet s), tp_payload (s_packet s), socket_state s,
   forallb id (s_alloc s)).

Lemma roots_owners s s' : roots s' = roots s -> owners s' = owners s /\ sender s' = sender s.
Proof. unfold roots, owners, sender. intros [= E1 E2 E3 E4 E5 E6 E7 E8]. by rewrite E1, E2, E3, E4, E5, E6, E7, E8. Qed.

(** States [I], of the sending side, from which no send reports that it would block: the
    connection is gone. *)
Class SendEnds (transport_send : list Z -> list Z -> CM Z) (I : session -> Prop) : Prop := {
  send_ends : forall d d2 s, I s -> exists rc s', transport_send d d2 s = Ret rc s' /\
    rc <> LIBSSH2_ERROR_EAGAIN /\ same_conn s s' /\ owners s' = owners s /\ I s';
  ends_stable : forall s s', sender s' = sender s -> I s -> I s'
}.

(** The connections of a listener are different channels; a cancellation that is under
    way has its message. *)
Definition listener_ok (l : listener) : Prop :=
  NoDup (queue l) /\ (chanFwdCncl_state l = libssh2_NB_state_created -> is_Some (chanFwdCncl_data l)).

(** A session without connection that owns the blocks [F] and its channels; [I] says how
    its sends end. *)
Record held (I : session -> Prop) (F : list ptr) (s : session) : Prop := {
  hd_ok : conn_ok s;
  hd_live : live_exactly F s;
  hd_linked : forall p, is_Some (s_chans s !! p) -> p ∈ channels s \/ exists l, l ∈ listeners s /\ p ∈ queue l;
  hd_listeners : Forall listener_ok (listeners s);
  hd_closed : socket_state s <> LIBSSH2_SOCKET_CONNECTED;
  hd_alloc : forallb id (s_alloc s) = true;
  hd_gone : I s
}.

Lemma owners_closed s s' : owners s' = owners s -> socket_state s' = socket_state s /\ forallb id (s_alloc s') = forallb id (s_alloc s).
Proof. unfold owners. intros [=]. done. Qed.

Definition without_channel (p : ptr) (l : listener) : listener := l <| queue ::= filter (fun q => q <> p) |>.

Lemma without_channel_ok p l : listener_ok l -> listener_ok (without_channel p l).
Proof. intros [H1 H2]. split; [|done]. simpl. by apply NoDup_filter. Qed.

Section Free.
Context (transport_send : list Z -> list Z -> CM Z) (I : session -> Prop) `{!SendEnds transport_send I} (transport_read : CM Z) (fuel : nat).
Context (F : list ptr).
Abbreviation held := (held I F).

Lemma wp_free_held p s :
  held s -> is_Some (s_chans s !! p) ->
  wp (channel_free transport_send transport_read fuel p) (fun rc s' => rc = 0 /\ held s' /\ owners s' = owners s /\
    channels s' = filter (fun q => q <> p) (channels s) /\ listeners s' = without_channel p <$> listeners s) s.
Proof.
  intros [H1 H2 H3 H4 H5 H6 H7] [c Hc].
  eapply wp_mono; [by eapply channel_free_ok; [exact H1|exact Hc|right]|].
  intros rc s' [-> (R1 & R2 & R3 & R4 & R5 & R6 & R7)]. apply roots_owners in R7 as [R7 R8]. destruct (owners_closed _ _ R7) as [Hst Hal].
  split_and!; try done. split; [done|by apply R6| | | | |by eapply ends_stable].
  - intros q. rewrite R2, R3, R5. intros [Hne Hq]%lookup_delete_is_Some.
    destruct (H3 q Hq) as [Hin|(l & Hl & Hin)].
    + left. by apply list_elem_of_filter.
    + right. exists (without_channel p l). split; [by apply list_elem_of_fmap_2|]. by apply list_elem_of_filter.
  - rewrite R5. apply Forall_fmap. eapply Forall_impl; [exact H4|]. intros l. apply without_channel_ok.
  - by rewrite Hst.
  - by rewrite Hal.
Qed.

Lemma wp_free_channels rounds s :
  held s -> (length (channels s) <= rounds)%nat ->
  wp (free_channels transport_send transport_read fuel rounds) (fun r s' => r = None /\ held s' /\
    owners s' = owners s /\ channels s' = [] /\ length (listeners s') = length (listeners s)) s.
Proof.
  revert s. induction rounds as [|rounds IH]; intros s Hs Hr; cbn [free_channels]; wp_step; wp_step;
    destruct (channels s) as [|p cs] eqn:Ec; try (by wp_step; rewrite Ec).
  - simpl in Hr. lia.
  - wp_step. eapply wp_mono; [apply wp_free_held; [done|]|].
    { pose proof (ok_channels s (hd_ok _ _ _ Hs)) as H. rewrite Ec in H. by apply Forall_cons in H as [H _]. }
    intros rc s1 (-> & Hs1 & Hr1 & Hc1 & Hl1). simpl.
    eapply wp_mono; [apply IH; [done|]|].
    + rewrite Hc1, Ec, filter_cons, decide_False by (by intros []). etrans; [apply length_filter|]. simpl in Hr. lia.
    + intros r s2 (-> & ? & Hr2 & ? & Hl2). split_and!; try done; [congruence|]. by rewrite Hl2, Hl1, length_fmap.
Qed.

(** What the steps on the first listener keep. *)
Definition cancelling (s s' : session) : Prop :=
  held s' /\ owners s' = owners s /\ channels s' = [] /\ length (listeners s') = length (listeners s).

Lemma listener_at_0 l ls s (Q : listener -> session -> Prop) :
  listeners s = l :: ls -> Q l s -> wp (listener_at 0) Q s.
Proof. intros E H. unfold listener_at. do 2 wp_step. rewrite E. by apply wp_access with l. Qed.

Lemma queue_next (p : ptr) q : NoDup (p :: q) -> list_next p (p :: q) = head q /\ filter (fun x => x <> p) (p :: q) = q.
Proof.
  intros [Hp _]%NoDup_cons. split; [simpl; by rewrite bool_decide_true|].
  rewrite filter_cons, decide_False by (by intros []). apply filter_all. by intros x Hx ->.
Qed.

Lemma wp_cancel_queue q : forall rounds s l ls,
  held s -> channels s = [] -> listeners s = l :: ls -> queue l = q -> (length q < rounds)%nat ->
  wp (cancel_queue transport_send transport_read fuel rounds 0 (head q)) (fun r s' => r = None /\ cancelling s s' /\
    exists l' ls', listeners s' = l' :: ls' /\ queue l' = []) s.
Proof.
  induction q as [|p q IH]; intros rounds s l ls Hs Hc El Eq Hr; destruct rounds as [|rounds]; try (simpl in Hr; lia);
    cbn [head cancel_queue].
  { wp_step. split; [done|]. split; [|eauto]. by split_and!. }
  pose proof (hd_listeners _ _ _ Hs) as Hls. rewrite El in Hls. apply Forall_cons in Hls as [[Hn _] _]. rewrite Eq in Hn.
  destruct (queue_next p q Hn) as [Hnext Hf].
  wp_step. eapply listener_at_0; [exact El|]. rewrite Eq, Hnext. wp_step.
  eapply wp_mono; [apply wp_free_held; [done|]|].
  { pose proof (ok_pending s (hd_ok _ _ _ Hs)) as H. rewrite El in H. apply Forall_cons in H as [H _].
    rewrite Eq in H. by apply Forall_cons in H as [H _]. }
  intros rc s1 (-> & Hs1 & Hr1 & Hc1 & Hl1). simpl. rewrite El, fmap_cons in Hl1. rewrite Hc in Hc1.
  eapply wp_mono; [eapply (IH rounds s1); [done|done|exact Hl1| |simpl in Hr; lia]|].
  - simpl. by rewrite Eq.
  - intros r s2 (-> & (? & Hr2 & ? & Hl2) & ?). split; [done|]. split; [|done]. split_and!; try done; [congruence|].
    by rewrite Hl2, Hl1, El, !length_cons, length_fmap.
Qed.

(** Dropping the first listener, whose queue is empty. *)
Lemma dropped_held s l ls : held s -> channels s = [] -> listeners s = l :: ls -> queue l = [] ->
  held (s <| listeners ::= delete 0%nat |>).
Proof.
  intros [H1 H2 H3 H4 H5 H6 H7] Hc El Eq. destruct H1. split; try done.
  - split; try done. simpl. rewrite El. simpl. rewrite El in *. by apply Forall_cons in ok_pending as [_ ?].
  - intros p Hp. destruct (H3 p Hp) as [Hin|(l' & Hl' & Hin)]; [by left|]. right. exists l'. split; [|done].
    simpl. rewrite El in Hl' |- *. simpl. apply elem_of_cons in Hl' as [->|?]; [|done]. rewrite Eq in Hin. by apply elem_of_nil in Hin.
  - simpl. rewrite El in *. by apply Forall_cons in H4 as [_ ?].
  - by eapply ends_stable; [|exact H7].
Qed.

Lemma wp_cancel_finish retcode s l ls :
  held s -> channels s = [] -> listeners s = l :: ls ->
  wp (cancel_finish transport_send transport_read fuel 0 retcode) (fun rc s' => rc = retcode /\ held s' /\
    owners s' = owners s /\ channels s' = [] /\ S (length (listeners s')) = length (listeners s)) s.
Proof.
  intros Hs Hc El. unfold cancel_finish. wp_step. eapply listener_at_0; [exact El|]. wp_step.
  eapply wp_mono; [eapply wp_cancel_queue; [done|done|exact El|done|lia]|].
  intros r s1 (-> & (Hs1 & Hr1 & Hc1 & Hl1) & l' & ls' & El' & Eq'). do 3 wp_step. split_and!; try done.
  - by eapply dropped_held.
  - simpl. by rewrite <- Hl1, El'.
Qed.

(** A step that changes the progress of the first listener. *)
Lemma set_listener_held s l ls f :
  held s -> listeners s = l :: ls -> queue (f l) = queue l -> listener_ok (f l) ->
  held (s <| listeners ::= alter f 0%nat |>).
Proof.
  intros [H1 H2 H3 H4 H5 H6 H7] El Eq Hf. destruct H1. split; try done.
  - split; try done. simpl. rewrite El in *. simpl. apply Forall_cons in ok_pending as [? ?]. constructor; [by rewrite Eq|done].
  - intros p Hp. destruct (H3 p Hp) as [Hin|(l' & Hl' & Hin)]; [by left|]. right.
    simpl. rewrite El in Hl' |- *. simpl. apply elem_of_cons in Hl' as [->|?].
    + exists (f l). split; [by left|]. by rewrite Eq.
    + exists l'. split; [by right|done].
  - simpl. rewrite El in *. simpl. apply Forall_cons in H4 as [? ?]. by constructor.
  - by eapply ends_stable; [|exact H7].
Qed.

Lemma held_same s s' : same_conn s s' -> owners s' = owners s -> I s' -> held s -> held s'.
Proof.
  intros Hsame Hr HI [H1 H2 H3 H4 H5 H6 _]. destruct (owners_closed _ _ Hr) as [Hst Hal].
  pose proof (same_conn_ok _ _ Hsame H1). destruct Hsame as [E1 E2 E3 E4 E5 _ _ _ _ _].
  split; unfold live_exactly; rewrite ?E1, ?E2, ?E3, ?E4, ?E5, ?Hst, ?Hal; done.
Qed.

Definition cancelled (s : session) (rc : Z) (s' : session) : Prop :=
  rc <> LIBSSH2_ERROR_EAGAIN /\ held s' /\ owners s' = owners s /\ channels s' = [] /\
  S (length (listeners s')) = length (listeners s).

Definition marked (s : session) : session :=
  s <| listeners ::= alter (fun l => l <| chanFwdCncl_state := libssh2_NB_state_sent |>) 0%nat |>.

Lemma marked_same s s' : same_conn s s' -> same_conn (marked s) (marked s').
Proof. intros []. split; simpl; congruence || done. Qed.

Lemma marked_held s l ls : held s -> listeners s = l :: ls -> held (marked s).
Proof.
  intros Hs El. pose proof (hd_listeners _ _ _ Hs) as Hls. rewrite El in Hls. apply Forall_cons in Hls as [[Hn _] _].
  eapply set_listener_held; [exact Hs|exact El|done|]. by split.
Qed.

Lemma wp_cancel_send packet s l ls :
  held (marked s) -> channels s = [] -> listeners s = l :: ls ->
  wp (cancel_send transport_send transport_read fuel 0 packet) (cancelled s) s.
Proof.
  intros Hs Hc El. unfold cancel_send. wp_step.
  destruct (send_ends packet [] s) as (rc & s1 & E & Hne & Hsame & Hr & HI).
  { eapply ends_stable; [|exact (hd_gone _ _ _ Hs)]. done. }
  apply (wp_run _ _ _ rc s1 E).
  rewrite (proj2 (Z.eqb_neq _ _) Hne). simpl.
  assert (Hgo : forall s2, same_conn s s2 -> owners s2 = owners s -> I s2 ->
    wp (set_listener 0 (fun l => l <| chanFwdCncl_state := libssh2_NB_state_sent |>) ;;
        cancel_finish transport_send transport_read fuel 0 (if rc =? 0 then 0 else LIBSSH2_ERROR_SOCKET_SEND))
       (cancelled s) s2).
  { intros s2 Hsame2 Hr2 HI2.
    assert (Hs2 : held (marked s2)) by (eapply held_same; [by apply marked_same|exact Hr2|by eapply ends_stable; [|exact HI2]|exact Hs]).
    rewrite <- (same_channels _ _ Hsame2) in Hc. rewrite <- (same_listeners _ _ Hsame2) in El.
    unfold set_listener. do 2 wp_step. eapply wp_mono; [eapply wp_cancel_finish; [exact Hs2|done|]|].
    - simpl. rewrite El. reflexivity.
    - intros rc' s' (-> & ? & Hr' & ? & Hl'). unfold cancelled. split_and!; try done.
      + by destruct (rc =? 0).
      + etrans; [exact Hr'|]. exact Hr2.
      + rewrite Hl'. simpl. by rewrite length_alter, (same_listeners _ _ Hsame2). }
  wp_step. destruct (negb (rc =? 0)).
  - wp_step. eapply wp_run; [reflexivity|]. wp_step. apply Hgo; [|exact Hr|by eapply ends_stable; [|exact HI]]. by destruct Hsame; split.
  - wp_step. by apply Hgo.
Qed.

Lemma alloc_succeeds s : forallb id (s_alloc s) = true ->
  exists s', alloc_outcome s = Ret true s' /\ same_conn s s' /\ owners s' = owners s /\ sender s' = sender s.
Proof.
  intros Hal. unfold alloc_outcome. destruct (s_alloc s) as [|b al] eqn:E; [by exists s|]. simpl in Hal.
  apply andb_true_iff in Hal as [Hb Hal]. simpl in Hb. subst b. eexists. split_and!; [done|done| |done].
  unfold owners. rewrite E. simpl. by rewrite Hal.
Qed.

Lemma wp_forward_cancel s l ls :
  held s -> channels s = [] -> listeners s = l :: ls ->
  wp (channel_forward_cancel transport_send transport_read fuel 0) (cancelled s) s.
Proof.
  intros Hs Hc El. unfold channel_forward_cancel. wp_step. eapply listener_at_0; [exact El|].
  pose proof (hd_listeners _ _ _ Hs) as Hls. rewrite El in Hls. apply Forall_cons in Hls as [[Hn Hd] _].
  assert (Hfin : wp (cancel_finish transport_send transport_read fuel 0 0) (cancelled s) s).
  { eapply wp_mono; [by eapply wp_cancel_finish|]. intros rc s' (-> & ?). by split. }
  destruct (chanFwdCncl_state l) eqn:Est; try exact Hfin.
  - destruct (alloc_succeeds s (hd_alloc _ _ _ Hs)) as (s1 & E & Hsame & Hr & Hsend). wp_step. apply (wp_run _ _ _ true s1 E). simpl.
    pose proof (held_same _ _ Hsame Hr (ends_stable _ _ Hsend (hd_gone _ _ _ Hs)) Hs) as Hs1. rewrite <- (same_listeners _ _ Hsame) in El.
    unfold set_listener. do 2 wp_step.
    eapply wp_mono; [eapply wp_cancel_send; [|simpl; by rewrite (same_channels _ _ Hsame)|simpl; rewrite El; reflexivity]|].
    + pose proof (marked_held _ _ _ Hs1 El) as Hm. eapply held_same; [| | |exact Hm]; [|done|by eapply ends_stable; [|exact (hd_gone _ _ _ Hm)]].
      split; simpl; try done. by rewrite El.
    + intros rc s' (? & ? & Hr' & ? & Hl'). split_and!; try done; [by etrans; [exact Hr'|]|]. rewrite Hl'. simpl.
      by rewrite length_alter, (same_listeners _ _ Hsame).
  - destruct (Hd eq_refl) as [m Em]. rewrite Em. wp_step. eapply wp_access; [done|]. eapply wp_cancel_send; [|done|exact El].
    by eapply marked_held.
Qed.

Lemma wp_free_listeners rounds s :
  held s -> channels s = [] -> (length (listeners s) <= rounds)%nat ->
  wp (free_listeners transport_send transport_read fuel rounds) (fun r s' => r = None /\ held s' /\
    owners s' = owners s /\ channels s' = [] /\ listeners s' = []) s.
Proof.
  revert s. induction rounds as [|rounds IH]; intros s Hs Hc Hr; cbn [free_listeners]; wp_step; wp_step;
    destruct (listeners s) as [|l ls] eqn:El; try (by wp_step).
  - simpl in Hr. lia.
  - wp_step. eapply wp_mono; [by eapply wp_forward_cancel|].
    intros rc s1 (Hne & Hs1 & Hr1 & Hc1 & Hl1). rewrite (proj2 (Z.eqb_neq _ _) Hne). rewrite El in Hl1. simpl in Hr, Hl1.
    eapply wp_mono; [apply IH; [done|done|lia]|]. intros r s2 (-> & ? & Hr2 & ? & ?). split_and!; try done. congruence.
Qed.
End Free.

(** *** The transport layer *)

(** No send is told to wait: what is left of the outcomes of the socket are errors. *)
Definition connection_gone (s : session) : Prop :=
  can_send s /\ Forall (fun r => r < 0 /\ r <> - EAGAIN) (s_send s).

#[global] Instance send_at_ends local_crypt local_mac deflate random kex_exchange addr_of `{!SendSuite local_crypt random} :
  SendEnds (send_at local_crypt local_mac deflate random kex_exchange addr_of) connection_gone.
Proof.
  split.
  - intros d d2 s [Hs Hgone]. pose proof (proj1 Hs) as Hn.
    destruct (wp_Ret _ _ _ (transport_send_ok local_crypt local_mac deflate random kex_exchange (addr_of d d2) d d2 s Hs))
      as (rc & s' & E & [Hc _ _ _ _ _] & _).
    pose proof (send_keeps_receiver _ _ _ _ _ _ _ _ _ _ _ Hn E) as Hr. unfold receiver in Hr. injection Hr as _ _ _ _ E1 E2 E3 E4 E5 _ E6 E7.
    exists rc, s'. split; [exact E|]. apply send_outcome in E as [[E Hrc]|(r & E & Hrc)]; [| |done].
    + split_and!; [done|done|unfold owners; congruence|]. split; [by apply Hc|by rewrite E].
    + rewrite E in Hgone. apply Forall_cons in Hgone as [[Hneg Hne] Hgone].
      split_and!; [intros Hx; destruct (Hrc Hx); [done|lia]|done|unfold owners; congruence|]. split; [by apply Hc|done].
  - intros s s' [= E1 E2 E3 E4]. unfold connection_gone, can_send. by rewrite E1, E2, E3, E4.
Qed.

(** *** The blocks *)

Lemma live_free p F s : live_exactly (p :: F) s ->
  exists d, s_heap s !! p = Some d /\ live_exactly F (s <| s_heap ::= delete p |>).
Proof.
  intros [Hd [Hp Hn]%NoDup_cons].
  assert (Hin : p ∈ dom (s_heap s)) by (rewrite Hd; apply elem_of_list_to_set; left).
  apply elem_of_dom in Hin as [d Hd']. exists d. split; [done|]. split; [|done]. simpl.
  rewrite dom_delete_L, Hd. cbn [app]. rewrite list_to_set_cons.
  assert (Hp' : p ∉@{gset ptr} list_to_set (F ++ (pk_data <$> packets s))) by by rewrite elem_of_list_to_set.
  clear -Hp'. set_solver.
Qed.

Definition heap_only (s s' : session) : Prop := s' = s <| s_heap := s_heap s' |>.

Lemma wp_free_live_opt o F s : live_exactly (option_list o ++ F) s ->
  wp (free_opt o) (fun _ s' => live_exactly F s' /\ heap_only s s') s.
Proof.
  destruct o as [p|]; cbn [free_opt option_list app]; intros H.
  - destruct (live_free p F s H) as (d & Hd & HF). eapply wp_free_block; [exact Hd|]. by split.
  - wp_step. split; [done|]. by destruct s.
Qed.

Lemma wp_free_all l : forall F s, live_exactly ((l ≫= option_list) ++ F) s ->
  wp (free_all l) (fun _ s' => live_exactly F s' /\ heap_only s s') s.
Proof.
  induction l as [|o l IH]; intros F s H; cbn [free_all].
  - wp_step. split; [done|]. by destruct s.
  - cbn [mbind list_bind] in H. rewrite <- app_assoc in H. wp_step.
    eapply wp_mono; [by apply wp_free_live_opt|]. intros [] s1 [H1 E1].
    eapply wp_mono; [by apply IH|]. intros [] s2 [H2 E2]. split; [done|]. unfold heap_only in *. by rewrite E2, E1.
Qed.

Lemma wp_free_packets ps : forall F s, packets s = ps -> live_exactly F s ->
  wp (free_packets ps) (fun _ s' => live_exactly F s' /\ packets s' = [] /\
    s' = s <| s_heap := s_heap s' |> <| packets := [] |>) s.
Proof.
  induction ps as [|k ps IH]; intros F s Ep H; cbn [free_packets].
  - wp_step. split_and!; [done|done|]. by destruct s; simpl in *; subst.
  - destruct H as [Hd Hn]. rewrite Ep, fmap_cons in Hd, Hn. wp_step. wp_step. wp_step.
    destruct (live_free (pk_data k) F (s <| packets := ps |>)) as (d & Hd' & HF).
    { split; simpl.
      - rewrite Hd, !list_to_set_app_L, ?list_to_set_cons. set_solver.
      - by rewrite <- Permutation_middle in Hn. }
    eapply wp_free_block; [exact Hd'|]. eapply wp_mono; [apply (IH F); [done|exact HF]|].
    intros [] s1 (H1 & H2 & E). split_and!; [done..|]. rewrite E. done.
Qed.

(** A descriptor that was blocking before the session is so again, when the system does
    not refuse to change it. *)
Definition descriptor_restored (d d' : startup) : Prop :=
  forall f, socket_prev_blockstate d = true -> fd_flags d = Some f -> fd_setfl d = [] ->
    fd_flags d' = Some (Z.ldiff f O_NONBLOCK).

Lemma wp_session_nonblock s d (Q : Z -> ext startup -> Prop) :
  (forall rc d', descriptor_restored d d' -> Q rc (mk_ext s d')) -> wp (session_nonblock false) Q (mk_ext s d).
Proof.
  intros H. unfold session_nonblock, fcntl_getfl, fcntl_setfl. repeat x_step;
    try (destruct (default 0 _) eqn:Eo; repeat x_step); apply H; intros f' _ Hf Hs;
    repeat match goal with E : default 0 _ = _ |- _ => rewrite Hs in E end; by simplify_eq/=.
Qed.

(** What is left of a session. *)
Record gone (d : startup) (e : ext startup) : Prop := {
  gone_channels : channels (x_session e) = [];
  gone_listeners : listeners (x_session e) = [];
  gone_packets : packets (x_session e) = [];
  gone_chans : s_chans (x_session e) = ∅;
  gone_heap : s_heap (x_session e) = ∅;
  gone_fd : descriptor_restored d (x_data e)
}.

(** The blocks of [session_free], in its order. *)
Definition freed (clients : list (option ptr)) (e : ext startup) : list ptr :=
  (session_blocks clients e ≫= option_list) ++ option_list (server_hostkey (kx_server (s_kex (x_session e)))).

Lemma freed_owners clients s s' d d' : owners s' = owners s -> startup_data d' = startup_data d ->
  session_blocks clients (mk_ext s' d') = session_blocks clients (mk_ext s d) /\ s_kex s' = s_kex s.
Proof.
  unfold owners. intros [= E1 E2 E3 E4 E5 _ _] Ed. split; [|done].
  unfold session_blocks, key_blocks, state_has. simpl. by rewrite E1, E2, E3, E4, E5, Ed.
Qed.

Lemma wp_free_rest I clients s d :
  held I (freed clients (mk_ext s d)) s -> channels s = [] -> listeners s = [] ->
  wp (free_rest clients) (fun rc e => rc = 0 /\ gone d e) (mk_ext s d).
Proof.
  intros [_ Hlive Hlink _ _ _ _] Hc Hl. unfold free_rest, freed in *. simpl in Hlive. do 4 x_step.
  eapply wp_mono; [by apply wp_free_all|]. intros [] s1 [H1 E1]. do 5 x_step.
  eapply wp_mono; [by apply (wp_free_packets (packets s1))|]. intros [] s2 (H2 & Hp2 & E2). do 3 x_step.
  assert (Hkey : forall d', descriptor_restored d d' ->
    wp (let! hostkey := xlift (gets (fun s => server_hostkey (kx_server (s_kex s)))) in
        xlift (free_opt hostkey) ;; ret 0) (fun rc e => rc = 0 /\ gone d e) (mk_ext s2 d')).
  { intros d' Hd. do 5 x_step. rewrite <- (app_nil_r (option_list _)) in H2.
    eapply wp_mono; [apply (wp_free_live_opt _ []); rewrite E2, E1 in H2 |- *; exact H2|].
    intros [] s3 [[H3 _] E3]. x_step. split; [done|]. rewrite E3, E2, E1 in *. simpl in *.
    split; simpl; try done.
    - apply map_empty. intros p. destruct (s_chans s !! p) eqn:Ep; [|done].
      destruct (Hlink p ltac:(eauto)) as [Hin|(l & Hin & _)]; [rewrite Hc in Hin|rewrite Hl in Hin]; by apply elem_of_nil in Hin.
    - by apply dom_empty_inv_L. }
  destruct (socket_prev_blockstate d) eqn:Eb.
  - x_step. apply wp_session_nonblock. intros rc d' Hd. x_step. by apply Hkey.
  - x_step. apply Hkey. intros f. by rewrite Eb.
Qed.

(** The blocks the fields of a session own, apart from the payloads in the queue: every
    pointer of the struct, the payload of the packet that is being read while there is one,
    and what the other clients hold. *)
Definition endpoint_fields (e : kex_endpoint) : list (option ptr) :=
  [crypt_prefs e; mac_prefs e; comp_prefs e; lang_prefs e; ke_kexinit e; ke_banner e; ke_mac_abstract e].

Definition owned (clients : list (option ptr)) (e : ext startup) : list ptr :=
  let s := x_session e in
  let k := s_kex s in
  ([kex_prefs k; hostkey_prefs k; sign_algo_prefs k; kexinit_data k] ++
   endpoint_fields (kx_local k) ++ endpoint_fields (kx_remote k) ++
   [server_hostkey (kx_server k); session_id (kx_server k); open_data s; startup_data (x_data e);
    if tp_total_num (s_packet s) =? 0 then None else tp_payload (s_packet s)] ++ clients) ≫= option_list.

(** The session identifier and the keys of the MACs come with the first keys. *)
Definition mac_installed (s : session) (e : kex_endpoint) : Prop :=
  is_Some (ke_mac_abstract e) -> is_Some (ke_mac e) /\ state_has s LIBSSH2_STATE_NEWKEYS = true.

Record keys_installed (s : session) : Prop := {
  ki_id : is_Some (session_id (kx_server (s_kex s))) -> state_has s LIBSSH2_STATE_NEWKEYS = true;
  ki_local : mac_installed s (kx_local (s_kex s));
  ki_remote : mac_installed s (kx_remote (s_kex s))
}.

Lemma mac_block s e : mac_installed s e -> state_has s LIBSSH2_STATE_NEWKEYS = true ->
  (match ke_mac e with Some _ => ke_mac_abstract e | None => None end) = ke_mac_abstract e.
Proof.
  intros H Hn. destruct (ke_mac e) eqn:Em; [done|]. destruct (ke_mac_abstract e) eqn:Ea; [|done].
  destruct H as [[m Hm] _]; [by rewrite Ea|congruence].
Qed.

Lemma key_blocks_fields s : keys_installed s ->
  key_blocks s ≫= option_list ≡ₚ
    [ke_mac_abstract (kx_local (s_kex s)); ke_mac_abstract (kx_remote (s_kex s)); session_id (kx_server (s_kex s))] ≫= option_list.
Proof.
  intros [Hi Hl Hr]. unfold key_blocks. destruct (state_has s LIBSSH2_STATE_NEWKEYS) eqn:En.
  - by rewrite !(mac_block s) by done.
  - assert (N : forall o : option ptr, (is_Some o -> false = true) -> o = None).
    { intros [|] H; [|done]. by discriminate H. }
    unfold mac_installed in Hl, Hr. rewrite En in Hl, Hr.
    by rewrite (N (ke_mac_abstract (kx_local _))), (N (ke_mac_abstract (kx_remote _))), (N (session_id _)) by tauto.
Qed.

(** Every block is freed, and none twice. *)
Lemma freed_owned clients e : keys_installed (x_session e) -> freed clients e ≡ₚ owned clients e.
Proof.
  intros Hk. unfold freed, owned, session_blocks, endpoint_blocks, endpoint_fields.
  rewrite !bind_app, (key_blocks_fields _ Hk). cbn [mbind list_bind app]. rewrite !app_nil_r. solve_Permutation.
Qed.

Lemma held_perm I F F' s : F ≡ₚ F' -> held I F s -> held I F' s.
Proof.
  intros HF [H1 [H2 H3] H4 H5 H6 H7 H8]. split; try done. split; [rewrite H2; by rewrite HF|by rewrite <- HF].
Qed.

(** C12: freeing a session whose connection is gone. When the socket is closed or refuses
    what is sent ([I], for the transport layer [connection_gone]), no key exchange is under way,
    no allocation fails, the live blocks are those that the fields of the session own and the
    payloads in its queue, and every channel is on its list or waits at a listener, then
    [session_free] ends in one call: it returns 0 with no channel, listener or packet left
    and every block freed exactly once, and a descriptor that was blocking before the session
    is blocking again. What happens otherwise show [free_listeners_spins] and
    [unfinished_exchange_leaks]. *)
Theorem session_free_releases transport_send I `{!SendEnds transport_send I} transport_read fuel rounds clients s d
    (Hstate : session_free_state d = libssh2_NB_state_idle \/ session_free_state d = libssh2_NB_state_created)
    (Hkeys : keys_installed s) (Hheld : held I (owned clients (mk_ext s d)) s)
    (Hchannels : (length (channels s) <= rounds)%nat) (Hlisteners : (length (listeners s) <= rounds)%nat) :
  exists e, session_free transport_send transport_read fuel rounds clients (mk_ext s d) = Ret 0 e /\ gone d e.
Proof.
  apply (held_perm _ _ (freed clients (mk_ext s d))) in Hheld; [|symmetry; by apply freed_owned].
  set (F := freed clients (mk_ext s d)) in *.
  assert (H : forall d1, session_free_state d1 = libssh2_NB_state_created ->
    startup_data d1 = startup_data d -> (forall d', descriptor_restored d1 d' -> descriptor_restored d d') ->
    wp (let! r := free_stage libssh2_NB_state_created (free_channels transport_send transport_read fuel rounds) libssh2_NB_state_sent in
        match r with
        | Some rc => ret rc
        | None =>
            let! r := free_stage libssh2_NB_state_sent (free_listeners transport_send transport_read fuel rounds) libssh2_NB_state_sent1 in
            match r with Some rc => ret rc | None => free_rest clients end
        end) (fun rc e => rc = 0 /\ gone d e) (mk_ext s d1)).
  { intros d1 Est Ed Hfd. unfold free_stage. do 3 x_step. rewrite Est. simpl. do 2 x_step.
    eapply wp_mono; [by apply wp_free_channels|]. intros r s1 (-> & Hs1 & Hr1 & Hc1 & Hl1). do 6 x_step. simpl. do 2 x_step.
    eapply wp_mono; [by apply wp_free_listeners; [..|lia]|]. intros r s2 (-> & Hs2 & Hr2 & Hc2 & Hl2). do 3 x_step.
    match goal with |- wp _ _ (mk_ext s2 ?d2) => assert (HF : freed clients (mk_ext s2 d2) = F) end.
    { unfold F, freed. edestruct (freed_owners clients s s2 d) as [-> E]; [congruence|exact Ed|]. simpl. by rewrite E. }
    eapply wp_mono; [apply (wp_free_rest I); [by rewrite HF|done|done]|]. intros rc e [-> []]. split; [done|]. split; try done.
    by apply Hfd. }
  destruct (wp_Ret (session_free transport_send transport_read fuel rounds clients) (fun rc e => rc = 0 /\ gone d e) (mk_ext s d))
    as (rc & e & E & -> & Hg); [|by exists e].
  unfold session_free. do 3 x_step. destruct Hstate as [Est|Est]; rewrite Est; simpl; x_step; by apply H.
Qed.

(** A lost session with an open channel, packets, a name of the server, and a listener
    with a connection; the socket is broken. *)
Definition leaving_session : session :=
  lost_session <| s_next_ptr := 8%positive |> <| s_send := [-32; -32] |>
    <| s_heap ::= <[6%positive := str "SSH-2.0-x" ++ [0]]> |>
    <| s_kex ::= fun k => k <| kx_remote ::= fun e => e <| ke_banner := Some 6%positive |> |> |>
    <| s_chans ::= <[7%positive := sample_channel]> |>
    <| listeners := [mk_listener (str "h") 22 [7%positive] 1 4 libssh2_NB_state_idle None] |>.

Lemma leaving_held : held connection_gone (owned [] (mk_ext leaving_session startup_0)) leaving_session.
Proof.
  assert (Ho : owned [] (mk_ext leaving_session startup_0) = [6%positive]) by done. rewrite Ho. split.
  - split; simpl; try done.
    + by repeat constructor.
    + repeat constructor. simpl. eauto.
    + repeat apply map_Forall_insert_2; try apply map_Forall_singleton; by repeat split.
    + repeat apply map_Forall_insert_2; try apply map_Forall_singleton; by apply (bool_decide_unpack _).
    + repeat constructor; eexists; (split; [reflexivity|]); unfold lenZ; simpl; lia.
    + by apply (bool_decide_unpack _).
    + intros p Hp. rewrite lookup_insert_ne by lia. apply lookup_singleton_ne. lia.
    + intros p Hp. rewrite !lookup_insert_ne by lia. apply lookup_singleton_ne. lia.
  - split; [by apply (bool_decide_unpack _); vm_compute|by apply (bool_decide_unpack _)].
  - intros p [c Hc]. simpl in *. apply lookup_insert_Some in Hc as [[<- _]|[_ Hc]].
    + right. eexists. split; [by left|]. simpl. by left.
    + apply lookup_singleton_Some in Hc as [<- _]. left. by left.
  - repeat constructor; simpl; [|done..]. by apply not_elem_of_nil.
  - done.
  - done.
  - split; [split; [by left|by repeat split]|by repeat constructor].
Qed.

Lemma session_free_releases_witness :
  exists e, session_free (send_at xor_crypt sum_mac no_deflate zero_random (ret 0) (fun _ _ => 1)) (ret 0) 1 2 []
    (mk_ext leaving_session startup_0) = Ret 0 e /\ gone startup_0 e.
Proof.
  apply (session_free_releases (send_at xor_crypt sum_mac no_deflate zero_random (ret 0) (fun _ _ => 1)) connection_gone
    (ret 0) 1 2 [] leaving_session startup_0).
  - by left.
  - split; by intros [].
  - apply leaving_held.
  - simpl. lia.
  - simpl. lia.
Defined.

(** *** What goes wrong *)

Definition spinning (n : nat) (s : session) : session := s <| s_alloc := replicate n false |>.

(** as long as its message cannot be allocated, a listener is not removed, and
    [session_free] tries it again. *)
Theorem free_listeners_spins transport_send transport_read fuel n l ls s
    (Hidle : chanFwdCncl_state l = libssh2_NB_state_idle) (Hl : listeners s = l :: ls) (Ha : s_alloc s = replicate n false) :
  free_listeners transport_send transport_read fuel n s = OutOfFuel.
Proof.
  revert s Hl Ha. induction n as [|n IH]; intros s Hl Ha; cbn [free_listeners]; unfold bind at 1, gets at 1; rewrite Hl; [done|].
  unfold bind at 1, channel_forward_cancel, listener_at, bind, gets, access, alloc_outcome. rewrite Hl. simpl.
  rewrite Hidle, Ha. simpl. by apply IH.
Qed.

(** the client's previous KEXINIT message, which a key exchange that is under way keeps
    in its own state, is not released. *)
Theorem unfinished_exchange_leaks :
  exists e, session_free send_ok (ret 0) 1 1 []
      (mk_ext (session_0 <| socket_state := LIBSSH2_SOCKET_DISCONNECTED |> <| s_heap := {[ 1%positive := [20] ]} |>
                 <| s_next_ptr := 2%positive |> <| s_kex ::= fun k => k <| ks_oldlocal := Some 1%positive |> |>) startup_0) = Ret 0 e /\
    s_heap (x_session e) !! 1%positive = Some [20].
Proof. eexists. split; vm_compute; reflexivity. Qed.
