(* ===== verification/Publickey.v ===== *)
(** * The publickey subsystem (publickey.c)

    Management of the keys an account accepts, over a channel of its own: messages are
    framed by their length, and an answer begins with its name. The objects live in a
    store of their own, the packets in the session's heap; [pkeyInit_*] are fields of the
    session. *)

From stdpp Require Import base numbers list gmap strings.
From S2P Require Import Prelude Codes CString KexMethods Wire Session ChannelWindow Packet PacketAdd PacketWait ChannelIO ChannelCtl Comp Kex Ext Blocking.

Definition LIBSSH2_PUBLICKEY_VERSION : Z := 2.
Definition LIBSSH2_PUBLICKEY_RESPONSE_STATUS : Z := 0.
Definition LIBSSH2_PUBLICKEY_RESPONSE_VERSION : Z := 1.
Definition LIBSSH2_PUBLICKEY_RESPONSE_PUBLICKEY : Z := 2.
Definition LIBSSH2_PUBLICKEY_SUCCESS : Z := 0.
Definition LIBSSH2_PUBLICKEY_STATUS_CODE_MAX : Z := 8.

Definition publickey_response_codes : list (Z * list Z) :=
  [(LIBSSH2_PUBLICKEY_RESPONSE_STATUS, str "status"); (LIBSSH2_PUBLICKEY_RESPONSE_VERSION, str "version");
   (LIBSSH2_PUBLICKEY_RESPONSE_PUBLICKEY, str "publickey")].

Definition publickey_status_codes : list string :=
  ["success"; "access denied"; "storage exceeded"; "version not supported"; "key not found"; "key not supported";
   "key already present"; "general failure"; "request not supported"]%string.

(** [LIBSSH2_PUBLICKEY]; the messages that are being sent are blocks. *)
Record publickey := mk_publickey {
  pub_channel : ptr;
  pub_version : Z;
  receive_state : libssh2_nonblocking_states;
  receive_packet : option ptr;
  receive_packet_len : Z;
  add_state : libssh2_nonblocking_states;
  add_packet : option ptr;
  remove_state : libssh2_nonblocking_states;
  remove_packet : option ptr;
  listFetch_state : libssh2_nonblocking_states;
  listFetch_data : option ptr;
  listFetch_data_len : Z
}.
#[global] Instance eta_publickey : Eta publickey := fun d =>
  mk_publickey (pub_channel d) (pub_version d) (receive_state d) (receive_packet d) (receive_packet_len d) (add_state d)
    (add_packet d) (remove_state d) (remove_packet d) (listFetch_state d) (listFetch_data d) (listFetch_data_len d).

Definition publickey_0 (channel : ptr) : publickey :=
  mk_publickey channel 0 libssh2_NB_state_idle None 0 libssh2_NB_state_idle None libssh2_NB_state_idle None
    libssh2_NB_state_idle None 0.

Record pkey_data := mk_pkey_data {
  pkeys : gmap ptr publickey;
  pkeyInit_state : libssh2_nonblocking_states;
  pkeyInit_data : option ptr;
  pkeyInit_data_len : Z;
  pkeyInit_pkey : option ptr;
  pkeyInit_channel : option ptr;
  pkeyInit_buffer : list Z;
  pkeyInit_buffer_sent : Z
}.
#[global] Instance eta_pkey_data : Eta pkey_data := fun d =>
  mk_pkey_data (pkeys d) (pkeyInit_state d) (pkeyInit_data d) (pkeyInit_data_len d) (pkeyInit_pkey d)
    (pkeyInit_channel d) (pkeyInit_buffer d) (pkeyInit_buffer_sent d).

Definition pkey_data_0 : pkey_data :=
  mk_pkey_data ∅ libssh2_NB_state_idle None 0 None None (replicate 19 0) 0.

Abbreviation PM := (XM pkey_data).

Definition pkey (k : ptr) : PM publickey := let! m := xget pkeys in access (m !! k).
Definition set_pkey (k : ptr) (f : publickey -> publickey) : PM unit :=
  let! _ := pkey k in xset (fun d => d <| pkeys ::= alter f k |>).

(** [LIBSSH2_FREE] of a block if there is one. *)
Definition release (p : option ptr) : PM unit := xlift (free_opt p).

(** ** Answers *)

(** The name an answer begins with: its code and the place behind it, or -1. *)
Fixpoint find_response (codes : list (Z * list Z)) (d : list Z) (response_len : Z) : option (Z * Z) :=
  match codes with
  | [] => Some (-1, 0)
  | (code, name) :: codes =>
      eq ← (if lenZ name =? response_len then strncmp_eq (Z.to_nat response_len) (name ++ [0]) 0 d 4 else Some false);
      if (eq : bool) then Some (code, 4 + response_len) else find_response codes d response_len
  end.

Definition publickey_response_id (d : list Z) (data_len : Z) : option (Z * Z) :=
  if data_len <? 4 then Some (-1, 0)
  else
    response_len ← ntohu32 d 0;
    if data_len - 4 <? response_len then Some (-1, 0)
    else find_response publickey_response_codes d response_len.

(** [publickey_status_error]; [status] is converted to [int]. *)
Definition publickey_status_error (version : option Z) (status : Z) : PM unit :=
  let status := s32 status in
  let status := if (status =? 6) && bool_decide (version = Some 1) then 7 else status in
  let msg := if (status <? 0) || (LIBSSH2_PUBLICKEY_STATUS_CODE_MAX <? status) then "unknown"%string
             else default "unknown"%string (publickey_status_codes !! Z.to_nat status) in
  xerror LIBSSH2_ERROR_PUBLICKEY_PROTOCOL msg ;; ret tt.

Section Subsystem.
Context (transport_send : list Z -> list Z -> CM Z) (transport_read : CM Z) (fuel : nat).

Definition read (ch : ptr) (n : Z) : PM (Z * list Z) := xlift (channel_read transport_send transport_read fuel ch 0 n).
Definition write (ch : ptr) (buf : list Z) : PM Z := xlift (channel_write transport_send transport_read fuel ch 0 buf).

(** The packet itself; [receive_packet] keeps its address. *)
Definition receive_body (k : ptr) : PM (Z * option (ptr * Z)) :=
  let! o := pkey k in
  let! p := access (receive_packet o) in
  let! r := read (pub_channel o) (receive_packet_len o) in
  xlift (write_block p 0 r.2) ;;
  let rc := s32 r.1 in
  if rc =? LIBSSH2_ERROR_EAGAIN then ret (rc, None)
  else if negb (rc =? s32 (receive_packet_len o)) then
    xlift (free_block p) ;;
    set_pkey k (fun o => o <| receive_packet := None |> <| receive_state := libssh2_NB_state_idle |>) ;;
    let! e := xerror LIBSSH2_ERROR_SOCKET_TIMEOUT "Timeout waiting for publickey subsystem response packet" in
    ret (e, None)
  else
    set_pkey k (fun o => o <| receive_state := libssh2_NB_state_idle |>) ;;
    ret (0, Some (p, receive_packet_len o)).

(** [publickey_packet_receive]: the return value, [*data] and [*data_len]. *)
Definition publickey_packet_receive (k : ptr) : PM (Z * option (ptr * Z)) :=
  let! o := pkey k in
  match receive_state o with
  | libssh2_NB_state_idle =>
      let! r := read (pub_channel o) 4 in
      if r.1 =? LIBSSH2_ERROR_EAGAIN then ret (r.1, None)
      else if negb (r.1 =? 4) then
        let! e := xerror LIBSSH2_ERROR_PUBLICKEY_PROTOCOL "Invalid response from publickey subsystem" in ret (e, None)
      else
        let! len := access (ntohu32 r.2 0) in
        let! p := xlift (alloc_block (replicate (Z.to_nat len) 0)) in
        set_pkey k (fun o => o <| receive_packet_len := len |> <| receive_packet := p |>) ;;
        match p with
        | None =>
            let! e := xerror LIBSSH2_ERROR_ALLOC "Unable to allocate publickey response buffer" in ret (e, None)
        | Some _ => set_pkey k (fun o => o <| receive_state := libssh2_NB_state_sent |>) ;; receive_body k
        end
  | libssh2_NB_state_sent => receive_body k
  | _ => set_pkey k (fun o => o <| receive_state := libssh2_NB_state_idle |>) ;; ret (0, None)
  end.

(** [publickey_response_success]; [rounds] bounds the answers of other kinds. *)
Fixpoint publickey_response_success (rounds : nat) (k : ptr) : PM Z :=
  match rounds with
  | O => fun _ => OutOfFuel
  | S rounds =>
      let! r := publickey_packet_receive k in
      if r.1 =? LIBSSH2_ERROR_EAGAIN then ret r.1
      else if negb (r.1 =? 0) then
        xerror LIBSSH2_ERROR_SOCKET_TIMEOUT "Timeout waiting for response from publickey subsystem"
      else
        let len := default 0 (snd <$> r.2) in
        if len <? 4 then xerror LIBSSH2_ERROR_BUFFER_TOO_SMALL "Publickey response too small"
        else
          let! x := access r.2 in
          let! d := xlift (block x.1) in
          let! id := access (publickey_response_id d len) in
          if id.1 =? LIBSSH2_PUBLICKEY_RESPONSE_STATUS then
            if len <? 8 then xerror LIBSSH2_ERROR_BUFFER_TOO_SMALL "Publickey response too small"
            else
              let! status := access (ntohu32 d id.2) in
              xlift (free_block x.1) ;;
              if status =? LIBSSH2_PUBLICKEY_SUCCESS then ret 0
              else let! o := pkey k in publickey_status_error (Some (pub_version o)) status ;; ret (-1)
          else
            xlift (free_block x.1) ;;
            if id.1 <? 0 then xerror LIBSSH2_ERROR_PUBLICKEY_PROTOCOL "Invalid publickey subsystem response"
            else
              xerror LIBSSH2_ERROR_PUBLICKEY_PROTOCOL "Unexpected publickey subsystem response" ;;
              publickey_response_success rounds k
  end.

(** ** Starting *)

(** What a stage does: go on, return nothing, or leave through [err_exit]. *)
Inductive init_next := InitGo | InitNull | InitErr | InitDone (k : ptr).

Definition init_then (m n : PM init_next) : PM init_next :=
  let! r := m in match r with InitGo => n | _ => ret r end.

Definition init_stage (st : libssh2_nonblocking_states) (body : PM init_next) : PM init_next :=
  let! cur := xget pkeyInit_state in if nb_is cur st then body else ret InitGo.

Definition init_state (st : libssh2_nonblocking_states) : PM init_next :=
  xset (fun d => d <| pkeyInit_state := st |>) ;; ret InitGo.

Definition init_error (next : init_next) (code : Z) (msg : string) : PM init_next := xerror code msg ;; ret next.

Definition init_start : PM init_next :=
  xset (fun d => d <| pkeyInit_data := None |> <| pkeyInit_pkey := None |> <| pkeyInit_channel := None |>) ;;
  init_state libssh2_NB_state_allocated.

Definition init_open : PM init_next :=
  let! ch := xlift (channel_open transport_send transport_read fuel (str "session") LIBSSH2_CHANNEL_WINDOW_DEFAULT
                      LIBSSH2_CHANNEL_PACKET_DEFAULT []) in
  xset (fun d => d <| pkeyInit_channel := ch |>) ;;
  match ch with
  | Some _ => init_state libssh2_NB_state_sent
  | None =>
      let! e := xlift (gets err_code) in
      if e =? LIBSSH2_ERROR_EAGAIN then ret InitNull
      else init_error InitErr LIBSSH2_ERROR_CHANNEL_FAILURE "Unable to startup channel"
  end.

Definition init_channel : PM ptr := let! ch := xget pkeyInit_channel in access ch.

Definition init_subsystem : PM init_next :=
  let! ch := init_channel in
  let! rc := xlift (channel_process_startup transport_send transport_read fuel ch (str "subsystem") (Some (str "publickey"))) in
  if rc =? LIBSSH2_ERROR_EAGAIN then init_error InitNull LIBSSH2_ERROR_EAGAIN "Would block starting publickey subsystem"
  else if negb (rc =? 0) then init_error InitErr LIBSSH2_ERROR_CHANNEL_FAILURE "Unable to request publickey subsystem"
  else init_state libssh2_NB_state_sent1.

(** The message with the client's version. *)
Definition version_message : list Z :=
  htonu32 (4 + 7 + 4) ++ htonu32 7 ++ str "version" ++ htonu32 LIBSSH2_PUBLICKEY_VERSION.

(** [LIBSSH2_CALLOC] of the object. *)
Definition alloc_pkey (ch : ptr) : PM (option ptr) :=
  let! ok := xlift alloc_outcome in
  if negb ok then ret None
  else
    let! k := xlift (gets s_next_ptr) in
    xlift (modify (fun s => s <| s_next_ptr := Pos.succ k |>)) ;;
    xset (fun d => d <| pkeys ::= <[k := publickey_0 ch]> |>) ;;
    ret (Some k).

Definition init_object : PM init_next :=
  let! ch := init_channel in
  let! rc := xlift (channel_extended_data transport_send ch LIBSSH2_CHANNEL_EXTENDED_DATA_IGNORE) in
  if rc =? LIBSSH2_ERROR_EAGAIN then init_error InitNull LIBSSH2_ERROR_EAGAIN "Would block starting publickey subsystem"
  else
    let! k := alloc_pkey ch in
    xset (fun d => d <| pkeyInit_pkey := k |>) ;;
    match k with
    | None => init_error InitErr LIBSSH2_ERROR_ALLOC "Unable to allocate a new publickey structure"
    | Some _ =>
        xset (fun d => d <| pkeyInit_buffer := version_message |> <| pkeyInit_buffer_sent := 0 |>) ;;
        init_state libssh2_NB_state_sent2
    end.

(** The number of bytes is that of the rest, the bytes are those of the front. *)
Definition init_send_version : PM init_next :=
  let! ch := init_channel in
  let! d := gets x_data in
  let! msg := access (bytes_at (pkeyInit_buffer d) 0 (19 - pkeyInit_buffer_sent d)) in
  let! rc := write ch msg in
  if rc =? LIBSSH2_ERROR_EAGAIN then
    init_error InitNull LIBSSH2_ERROR_EAGAIN "Would block sending publickey version packet"
  else if rc <? 0 then init_error InitErr rc "Unable to send publickey version packet"
  else
    let sent := pkeyInit_buffer_sent d + rc in
    xset (fun d => d <| pkeyInit_buffer_sent := sent |>) ;;
    if sent <? 19 then init_error InitNull LIBSSH2_ERROR_EAGAIN "Need to be called again to complete this"
    else init_state libssh2_NB_state_sent3.

Definition init_too_small : PM init_next := init_error InitErr LIBSSH2_ERROR_BUFFER_TOO_SMALL "Public key init data too small".

(** The status, its description and language, at [s]. *)
Definition init_status (d : list Z) (len s : Z) : PM init_next :=
  if len <? 8 then init_too_small
  else
    let! status := access (ntohu32 d s) in
    let! descr_len := access (ntohu32 d (s + 4)) in
    let s := s + 8 in
    if len <? s + descr_len + 4 then init_too_small
    else
      let! lang_len := access (ntohu32 d (s + descr_len)) in
      let s := s + descr_len + 4 in
      if len <? s + lang_len then init_too_small
      else publickey_status_error None status ;; ret InitErr.

Definition init_release_data : PM unit :=
  let! p := xget pkeyInit_data in
  release p ;; xset (fun d => d <| pkeyInit_data := None |>).

Fixpoint init_reply (rounds : nat) : PM init_next :=
  match rounds with
  | O => fun _ => OutOfFuel
  | S rounds =>
      let! k := xget pkeyInit_pkey in
      let! k := access k in
      let! r := publickey_packet_receive k in
      let len := default 0 (snd <$> r.2) in
      xset (fun d => d <| pkeyInit_data := fst <$> r.2 |> <| pkeyInit_data_len := len |>) ;;
      if r.1 =? LIBSSH2_ERROR_EAGAIN then
        init_error InitNull LIBSSH2_ERROR_EAGAIN "Would block waiting for response from publickey subsystem"
      else if negb (r.1 =? 0) then
        init_error InitErr LIBSSH2_ERROR_SOCKET_TIMEOUT "Timeout waiting for response from publickey subsystem"
      else
        let! d := (match r.2 with Some x => xlift (block x.1) | None => ret [] end) in
        let! id := access (publickey_response_id d len) in
        if id.1 <? 0 then
          init_error InitErr LIBSSH2_ERROR_PUBLICKEY_PROTOCOL "Invalid publickey subsystem response code"
        else if len <? 4 then init_too_small
        else if id.1 =? LIBSSH2_PUBLICKEY_RESPONSE_STATUS then init_status d len id.2
        else if id.1 =? LIBSSH2_PUBLICKEY_RESPONSE_VERSION then
          let! v := access (ntohu32 d id.2) in
          set_pkey k (fun o => o <| pub_version := Z.min v LIBSSH2_PUBLICKEY_VERSION |>) ;;
          init_release_data ;;
          init_state libssh2_NB_state_idle ;;
          ret (InitDone k)
        else
          xerror LIBSSH2_ERROR_PUBLICKEY_PROTOCOL "Unexpected publickey subsystem response, ignoring" ;;
          init_release_data ;;
          init_reply rounds
  end.

(** [err_exit]; the channel is closed and not freed. *)
Definition init_exit : PM (option ptr) :=
  init_state libssh2_NB_state_sent4 ;;
  let! ch := xget pkeyInit_channel in
  let! rc := (match ch with
              | Some ch => xlift (channel_close transport_send transport_read fuel ch)
              | None => ret 0
              end) in
  if rc =? LIBSSH2_ERROR_EAGAIN then xerror LIBSSH2_ERROR_EAGAIN "Would block closing channel" ;; ret None
  else
    let! k := xget pkeyInit_pkey in
    (match k with
     | Some k => let! _ := pkey k in xset (fun d => d <| pkeys ::= delete k |> <| pkeyInit_pkey := None |>)
     | None => ret tt
     end) ;;
    init_release_data ;;
    init_state libssh2_NB_state_idle ;;
    ret None.

Definition init_stages (rounds : nat) : PM init_next :=
  init_then (init_stage libssh2_NB_state_idle init_start)
  (init_then (init_stage libssh2_NB_state_allocated init_open)
  (init_then (init_stage libssh2_NB_state_sent init_subsystem)
  (init_then (init_stage libssh2_NB_state_sent1 init_object)
  (init_then (init_stage libssh2_NB_state_sent2 init_send_version)
  (init_stage libssh2_NB_state_sent3 (init_reply rounds)))))).

Definition publickey_init (rounds : nat) : PM (option ptr) :=
  let! r := init_stages rounds in
  match r with
  | InitDone k => ret (Some k)
  | InitNull => ret None
  | InitErr | InitGo => init_exit
  end.

Definition libssh2_publickey_init (waits rounds : nat) : PM (option ptr) :=
  block_adjust_errno (fun _ m => xlift m) transport_send (publickey_init rounds) waits.

(** ** Adding and removing *)

Record publickey_attribute := mk_attribute {
  at_name : list Z;
  at_value : list Z;
  at_mandatory : bool
}.

Definition is_comment (a : publickey_attribute) : bool := bool_decide (at_name a = str "comment").

Definition flag_byte (b : bool) : Z := if b then 1 else 0.

Definition attribute_text (a : publickey_attribute) : list Z :=
  htonu32 (lenZ (at_name a)) ++ at_name a ++ htonu32 (lenZ (at_value a)) ++ at_value a ++ [flag_byte (at_mandatory a)].

(** The message behind its length: in version 1 with the comment only. *)
Definition add_text (version : Z) (name blob : list Z) (overwrite : bool) (attrs : list publickey_attribute) : list Z :=
  htonu32 3 ++ str "add" ++
  if version =? 1 then
    let comment := default [] (at_value <$> head (filter (fun a => is_comment a = true) attrs)) in
    htonu32 (lenZ comment) ++ comment ++ htonu32 (lenZ name) ++ name ++ htonu32 (lenZ blob) ++ blob
  else
    htonu32 (lenZ name) ++ name ++ htonu32 (lenZ blob) ++ blob ++ [flag_byte overwrite] ++
    htonu32 (lenZ attrs) ++ (attrs ≫= attribute_text).

Definition remove_text (name blob : list Z) : list Z :=
  htonu32 6 ++ str "remove" ++ htonu32 (lenZ name) ++ name ++ htonu32 (lenZ blob) ++ blob.

Definition framed (text : list Z) : list Z := htonu32 (lenZ text) ++ text.

(** The message is written whole and released, or the call fails. *)
Definition add_finish (rounds : nat) (k : ptr) : PM Z :=
  let! rc := publickey_response_success rounds k in
  if rc =? LIBSSH2_ERROR_EAGAIN then ret rc
  else set_pkey k (fun o => o <| add_state := libssh2_NB_state_idle |>) ;; ret rc.

Definition add_send (rounds : nat) (k : ptr) : PM Z :=
  let! o := pkey k in
  let! p := access (add_packet o) in
  let! msg := xlift (block p) in
  let! rc := write (pub_channel o) msg in
  let rc := s32 rc in
  if rc =? LIBSSH2_ERROR_EAGAIN then ret rc
  else
    xlift (free_block p) ;;
    set_pkey k (fun o => o <| add_packet := None |>) ;;
    if negb (lenZ msg =? rc) then xerror LIBSSH2_ERROR_SOCKET_SEND "Unable to send publickey add packet"
    else set_pkey k (fun o => o <| add_state := libssh2_NB_state_sent |>) ;; add_finish rounds k.

Definition libssh2_publickey_add_ex (rounds : nat) (pk : option ptr) (name blob : list Z) (overwrite : bool)
    (attrs : list publickey_attribute) : PM Z :=
  match pk with
  | None => ret LIBSSH2_ERROR_BAD_USE
  | Some k =>
      let! o := pkey k in
      match add_state o with
      | libssh2_NB_state_idle =>
          let! p := xlift (alloc_block (framed (add_text (pub_version o) name blob overwrite attrs))) in
          set_pkey k (fun o => o <| add_packet := p |>) ;;
          match p with
          | None => xerror LIBSSH2_ERROR_ALLOC "Unable to allocate memory for publickey add packet"
          | Some _ => set_pkey k (fun o => o <| add_state := libssh2_NB_state_created |>) ;; add_send rounds k
          end
      | libssh2_NB_state_created => add_send rounds k
      | _ => add_finish rounds k
      end
  end.

Definition remove_finish (rounds : nat) (k : ptr) : PM Z :=
  let! rc := publickey_response_success rounds k in
  if rc =? LIBSSH2_ERROR_EAGAIN then ret rc
  else set_pkey k (fun o => o <| remove_state := libssh2_NB_state_idle |>) ;; ret rc.

Definition remove_send (rounds : nat) (k : ptr) : PM Z :=
  let! o := pkey k in
  let! p := access (remove_packet o) in
  let! msg := xlift (block p) in
  let! rc := write (pub_channel o) msg in
  let rc := s32 rc in
  if rc =? LIBSSH2_ERROR_EAGAIN then ret rc
  else
    xlift (free_block p) ;;
    set_pkey k (fun o => o <| remove_packet := None |>) ;;
    if negb (lenZ msg =? rc) then
      set_pkey k (fun o => o <| remove_state := libssh2_NB_state_idle |>) ;;
      xerror LIBSSH2_ERROR_SOCKET_SEND "Unable to send publickey remove packet"
    else set_pkey k (fun o => o <| remove_state := libssh2_NB_state_sent |>) ;; remove_finish rounds k.

Definition libssh2_publickey_remove_ex (rounds : nat) (pk : option ptr) (name blob : list Z) : PM Z :=
  match pk with
  | None => ret LIBSSH2_ERROR_BAD_USE
  | Some k =>
      let! o := pkey k in
      match remove_state o with
      | libssh2_NB_state_idle =>
          let! p := xlift (alloc_block (framed (remove_text name blob))) in
          set_pkey k (fun o => o <| remove_packet := p |>) ;;
          match p with
          | None => xerror LIBSSH2_ERROR_ALLOC "Unable to allocate memory for publickey remove packet"
          | Some _ => set_pkey k (fun o => o <| remove_state := libssh2_NB_state_created |>) ;; remove_send rounds k
          end
      | libssh2_NB_state_created => remove_send rounds k
      | _ => remove_finish rounds k
      end
  end.

(** ** Listing *)

(** A part of a packet: where it begins and its length. *)
Definition span : Type := Z * Z.

(** An attribute of a listed key; [None] is the literal ["comment"]. *)
Record listed_attribute := mk_listed_attribute {
  la_name : option span;
  la_value : span
}.

(** An element of [libssh2_publickey_list]: [le_attrs] is the block of the array. *)
Record listed_key := mk_listed_key {
  le_packet : ptr;
  le_name : span;
  le_blob : span;
  le_attrs : option ptr;
  le_attributes : list listed_attribute
}.

(** The array: its block and the elements before the terminator, which is the cleared
    [packet] of the next one once there is a key. *)
Definition key_list : Type := option (ptr * list listed_key).

Definition too_short {A} : PM (option A) := xerror LIBSSH2_ERROR_BUFFER_TOO_SMALL "ListFetch data too short" ;; ret None.

(** A failure inside a message ends the parse. *)
Definition parse_bind {A B} (m : PM (option A)) (f : A -> PM (option B)) : PM (option B) :=
  let! r := m in match r with Some a => f a | None => ret None end.

Definition fetch_u32 (d : list Z) (len s : Z) : PM (option (Z * Z)) :=
  if s + 4 <=? len then let! n := access (ntohu32 d s) in ret (Some (n, s + 4)) else too_short.

(** A string: its place and what follows it. *)
Definition fetch_string (d : list Z) (len s : Z) : PM (option (span * Z)) :=
  parse_bind (fetch_u32 d len s) (fun '(n, s) =>
    if s + n <=? len then ret (Some ((s, n), s + n)) else too_short).

(** The attributes of a key of version 2; every one takes at least eight bytes. *)
Fixpoint fetch_attributes (room : nat) (d : list Z) (len s num : Z) : PM (option (list listed_attribute)) :=
  if num <=? 0 then ret (Some [])
  else
    match room with
    | O => fun _ => OutOfFuel
    | S room =>
        parse_bind (fetch_string d len s) (fun '(name, s) =>
        parse_bind (fetch_string d len s) (fun '(value, s) =>
        parse_bind (fetch_attributes room d len s (num - 1)) (fun l =>
          ret (Some (mk_listed_attribute (Some name) value :: l)))))
    end.

(** [LIBSSH2_ALLOC] of the array of attributes. *)
Definition alloc_attrs : PM (option (option ptr)) :=
  let! a := xlift (alloc_block []) in
  match a with
  | None => xerror LIBSSH2_ERROR_ALLOC "Unable to allocate memory for publickey attributes" ;; ret None
  | Some a => ret (Some (Some a))
  end.

(** Version 1: the comment is skipped without a test, which the next one makes up for. *)
Definition fetch_key_v1 (p : ptr) (d : list Z) (len s : Z) : PM (option listed_key) :=
  parse_bind (fetch_u32 d len s) (fun '(comment_len, s) =>
  parse_bind (if comment_len =? 0 then ret (Some None) else alloc_attrs) (fun attrs =>
  let l := if comment_len =? 0 then [] else [mk_listed_attribute None (s, comment_len)] in
  parse_bind (fetch_string d len (s + comment_len)) (fun '(name, s) =>
  parse_bind (fetch_string d len s) (fun '(blob, _) =>
    ret (Some (mk_listed_key p name blob attrs l)))))).

Definition fetch_key_v2 (p : ptr) (d : list Z) (len s : Z) : PM (option listed_key) :=
  parse_bind (fetch_string d len s) (fun '(name, s) =>
  parse_bind (fetch_string d len s) (fun '(blob, s) =>
  parse_bind (fetch_u32 d len s) (fun '(num, s) =>
  parse_bind (if num =? 0 then ret (Some None) else alloc_attrs) (fun attrs =>
  parse_bind (fetch_attributes (S (length d)) d len s num) (fun l =>
    ret (Some (mk_listed_key p name blob attrs l))))))).

Definition fetch_key (version : Z) (p : ptr) (d : list Z) (len s : Z) : PM (option listed_key) :=
  if version =? 1 then fetch_key_v1 p d len s else fetch_key_v2 p d len s.

(** The end of the list: [Some] is the status. *)
Definition fetch_status (d : list Z) (len s : Z) : PM (option Z) :=
  if s + 8 <=? len then
    let! status := access (ntohu32 d s) in
    let! descr_len := access (ntohu32 d (s + 4)) in
    let s := s + 8 in
    if s + descr_len + 4 <=? len then
      let! lang_len := access (ntohu32 d (s + descr_len)) in
      if s + descr_len + 4 + lang_len <=? len then ret (Some status) else too_short
    else too_short
  else too_short.

Fixpoint free_keys (l : list listed_key) : PM unit :=
  match l with
  | [] => ret tt
  | e :: l => release (le_attrs e) ;; xlift (free_block (le_packet e)) ;; free_keys l
  end.

(** [libssh2_publickey_list_free]: without a key there is no terminator, and the first
    [packet] was never set. *)
Definition libssh2_publickey_list_free (pk : option ptr) (l : key_list) : PM unit :=
  match pk, l with
  | Some _, Some (_, []) => fault
  | Some _, Some (p, es) => free_keys es ;; xlift (free_block p)
  | _, _ => ret tt
  end.

Definition release_data (k : ptr) : PM unit :=
  let! o := pkey k in
  release (listFetch_data o) ;; set_pkey k (fun o => o <| listFetch_data := None |>).

Definition fetch_exit (k : ptr) (l : key_list) : PM (Z * option (Z * key_list)) :=
  release_data k ;;
  libssh2_publickey_list_free (Some k) l ;;
  set_pkey k (fun o => o <| listFetch_state := libssh2_NB_state_idle |>) ;;
  ret (-1, None).

(** [LIBSSH2_REALLOC] of the array when it is full. *)
Definition grow_keys (l : key_list) (max_keys : Z) : PM (option (ptr * list listed_key * Z)) :=
  let es := default [] (snd <$> l) in
  if max_keys <=? lenZ es then
    let! p := xlift (alloc_block []) in
    match p with
    | None => ret None
    | Some p => release (fst <$> l) ;; ret (Some (p, es, max_keys + 8))
    end
  else match l with Some (p, es) => ret (Some (p, es, max_keys)) | None => fault end.

(** The loop over the answers; the list is lost when the call would block. *)
Fixpoint fetch_loop (rounds : nat) (k : ptr) (l : key_list) (max_keys : Z) : PM (Z * option (Z * key_list)) :=
  match rounds with
  | O => fun _ => OutOfFuel
  | S rounds =>
      let! r := publickey_packet_receive k in
      let len := default 0 (snd <$> r.2) in
      set_pkey k (fun o => o <| listFetch_data := fst <$> r.2 |> <| listFetch_data_len := len |>) ;;
      if r.1 =? LIBSSH2_ERROR_EAGAIN then ret (r.1, None)
      else if negb (r.1 =? 0) then
        xerror LIBSSH2_ERROR_SOCKET_TIMEOUT "Timeout waiting for response from publickey subsystem" ;; fetch_exit k l
      else
        let! d := (match r.2 with Some x => xlift (block x.1) | None => ret [] end) in
        let! id := access (publickey_response_id d len) in
        if id.1 <? 0 then
          xerror LIBSSH2_ERROR_PUBLICKEY_PROTOCOL "Invalid publickey subsystem response code" ;; fetch_exit k l
        else
          let! x := access r.2 in
          if id.1 =? LIBSSH2_PUBLICKEY_RESPONSE_STATUS then
            let! st := fetch_status d len id.2 in
            match st with
            | None => fetch_exit k l
            | Some status =>
                if status =? LIBSSH2_PUBLICKEY_SUCCESS then
                  release_data k ;;
                  set_pkey k (fun o => o <| listFetch_state := libssh2_NB_state_idle |>) ;;
                  ret (0, Some (lenZ (default [] (snd <$> l)), l))
                else
                  let! o := pkey k in
                  publickey_status_error (Some (pub_version o)) status ;; fetch_exit k l
            end
          else if id.1 =? LIBSSH2_PUBLICKEY_RESPONSE_PUBLICKEY then
            let! g := grow_keys l max_keys in
            match g with
            | None =>
                xerror LIBSSH2_ERROR_ALLOC "Unable to allocate memory for publickey list" ;; fetch_exit k l
            | Some (p, es, max_keys) =>
                let! o := pkey k in
                let! e := fetch_key (pub_version o) x.1 d len id.2 in
                match e with
                | None => fetch_exit k (Some (p, es))
                | Some e =>
                    set_pkey k (fun o => o <| listFetch_data := None |>) ;;
                    fetch_loop rounds k (Some (p, es ++ [e])) max_keys
                end
            end
          else
            xerror LIBSSH2_ERROR_PUBLICKEY_PROTOCOL "Unexpected publickey subsystem response" ;;
            release_data k ;;
            fetch_loop rounds k l max_keys
  end.

Definition list_text : list Z := htonu32 4 ++ str "list".

Definition fetch_send (rounds : nat) (k : ptr) : PM (Z * option (Z * key_list)) :=
  let! o := pkey k in
  let! rc := write (pub_channel o) (framed list_text) in
  if rc =? LIBSSH2_ERROR_EAGAIN then ret (rc, None)
  else if negb (lenZ (framed list_text) =? rc) then
    set_pkey k (fun o => o <| listFetch_state := libssh2_NB_state_idle |>) ;;
    let! e := xerror LIBSSH2_ERROR_SOCKET_SEND "Unable to send publickey list packet" in ret (e, None)
  else set_pkey k (fun o => o <| listFetch_state := libssh2_NB_state_sent |>) ;; fetch_loop rounds k None 0.

(** [libssh2_publickey_list_fetch]: the return value, [*num_keys] and [*pkey_list]. *)
Definition libssh2_publickey_list_fetch (rounds : nat) (pk : option ptr) : PM (Z * option (Z * key_list)) :=
  match pk with
  | None => ret (LIBSSH2_ERROR_BAD_USE, None)
  | Some k =>
      let! o := pkey k in
      match listFetch_state o with
      | libssh2_NB_state_idle =>
          set_pkey k (fun o => o <| listFetch_data := None |> <| listFetch_state := libssh2_NB_state_created |>) ;;
          fetch_send rounds k
      | libssh2_NB_state_created => fetch_send rounds k
      | _ => fetch_loop rounds k None 0
      end
  end.

(** ** The end *)

(** [libssh2_publickey_shutdown]. *)
Definition libssh2_publickey_shutdown (pk : option ptr) : PM Z :=
  match pk with
  | None => ret LIBSSH2_ERROR_BAD_USE
  | Some k =>
      let! o := pkey k in
      release (receive_packet o) ;;
      release (add_packet o) ;;
      release (remove_packet o) ;;
      release (listFetch_data o) ;;
      set_pkey k (fun o => o <| receive_packet := None |> <| add_packet := None |> <| remove_packet := None |>
                             <| listFetch_data := None |>) ;;
      let! rc := xlift (channel_free transport_send transport_read fuel (pub_channel o)) in
      if rc =? LIBSSH2_ERROR_EAGAIN then ret rc
      else xset (fun d => d <| pkeys ::= delete k |>) ;; ret 0
  end.
End Subsystem.
