(* ===== verification/PublickeySpec.v ===== *)
(** * Theorems about the publickey subsystem

    The parser of listed keys, whatever the server sends and for what a server means to
    send; the whole list, from a channel that has the answers. *)

From stdpp Require Import base numbers list gmap strings.
From S2P Require Import Prelude Codes CString KexMethods Wire Session ChannelWindow Packet PacketAdd PacketWait Conn PacketSafety PacketSpec ChannelIO ChannelCtl Comp Kex Ext Blocking Sftp SftpSpec OwnBlock Publickey.

(** ** A key as the server describes it *)

Record key := mk_key {
  k_name : list Z;
  k_blob : list Z;
  k_attrs : list (list Z * list Z)
}.

Definition string_text (x : list Z) : list Z := htonu32 (lenZ x) ++ x.
Definition attr_text (a : list Z * list Z) : list Z := string_text a.1 ++ string_text a.2.

(** What follows the name of the answer. *)
Definition key_text (version : Z) (k : key) : list Z :=
  if version =? 1 then
    string_text (default [] (snd <$> head (k_attrs k))) ++ string_text (k_name k) ++ string_text (k_blob k)
  else string_text (k_name k) ++ string_text (k_blob k) ++ htonu32 (lenZ (k_attrs k)) ++ (k_attrs k ≫= attr_text).

Definition key_answer (version : Z) (k : key) : list Z := string_text (str "publickey") ++ key_text version k.

(** Strings have a length of 32 bits; version 1 knows one attribute only. *)
Definition key_ok (version : Z) (k : key) : Prop :=
  lenZ (key_answer version k) < 2 ^ 32 /\
  (version = 1 -> k_attrs k = [] \/ exists c, c <> [] /\ k_attrs k = [(str "comment", c)]).

(** The spans of an element, in the packet [d]. *)
Definition span_is (d : list Z) (sp : span) (x : list Z) : Prop := bytes_at d sp.1 sp.2 = Some x.

Definition attr_is (d : list Z) (a : listed_attribute) (nv : list Z * list Z) : Prop :=
  match la_name a with Some sp => span_is d sp nv.1 | None => nv.1 = str "comment" end /\ span_is d (la_value a) nv.2.

Definition key_is (d : list Z) (e : listed_key) (k : key) : Prop :=
  span_is d (le_name e) (k_name k) /\ span_is d (le_blob e) (k_blob k) /\ Forall2 (attr_is d) (le_attributes e) (k_attrs k).

(** ** Every packet is parsed inside its bounds *)

Definition span_in (d : list Z) (sp : span) : Prop := 0 <= sp.1 /\ 0 <= sp.2 /\ sp.1 + sp.2 <= lenZ d.

Definition attr_in (d : list Z) (a : listed_attribute) : Prop :=
  match la_name a with Some sp => span_in d sp | None => True end /\ span_in d (la_value a).

Definition key_in (d : list Z) (e : listed_key) : Prop :=
  span_in d (le_name e) /\ span_in d (le_blob e) /\ Forall (attr_in d) (le_attributes e).

(** A parser of the packet [d] from [s] on: it returns, and what it finds satisfies [P]. *)
Definition parses {A} (P : A -> Prop) (m : PM (option A)) : Prop :=
  forall e, wp m (fun r _ => match r with Some a => P a | None => True end) e.

Lemma parses_ret {A} (P : A -> Prop) a : P a -> parses P (ret (Some a)).
Proof. intros H e. by apply wp_ret. Qed.
Lemma parses_short {A} (P : A -> Prop) : parses P (@too_short A).
Proof. intros [s d]. unfold too_short. by repeat x_step. Qed.
Lemma parses_bind {A B} (P : A -> Prop) (Q : B -> Prop) m (f : A -> PM (option B)) :
  parses P m -> (forall a, P a -> parses Q (f a)) -> parses Q (parse_bind m f).
Proof.
  intros Hm Hf e. unfold parse_bind. apply wp_bind. eapply wp_mono; [apply Hm|]. intros [a|] e' H; [by apply Hf|].
  by apply wp_ret.
Qed.

Section Safe.
Context (d : list Z) (Hd : bytes_ok d).

Lemma parses_u32 s : 0 <= s -> parses (fun r => 0 <= r.1 < 2 ^ 32 /\ r.2 = s + 4 /\ s + 4 <= lenZ d) (fetch_u32 d (lenZ d) s).
Proof.
  intros Hs [se x]. unfold fetch_u32. x_step; [|by apply parses_short]. breflect.
  destruct (ntohu32_in d s) as [n Hn]; [lia..|]. x_step. eapply wp_access; [exact Hn|]. x_step. simpl.
  split; [by eapply (ntohu32_range d)|lia].
Qed.

Lemma parses_string s : 0 <= s ->
  parses (fun r => span_in d r.1 /\ r.1.1 = s + 4 /\ r.2 = s + 4 + r.1.2 /\ 0 <= r.1.2) (fetch_string d (lenZ d) s).
Proof.
  intros Hs. unfold fetch_string. eapply parses_bind; [by apply parses_u32|]. intros [n s'] (Hn & Es & Hl) [se x]. simpl in *. subst s'.
  x_step; [|by apply parses_short]. breflect. x_step. unfold span_in. simpl. lia.
Qed.

Lemma parses_attributes room : forall s num, 0 <= s <= lenZ d -> lenZ d - s < 8 * Z.of_nat room ->
  parses (Forall (attr_in d)) (fetch_attributes room d (lenZ d) s num).
Proof.
  induction room as [|room IH]; intros s num Hs Hr; cbn [fetch_attributes].
  - lia.
  - destruct (num <=? 0); [by apply parses_ret|].
    eapply parses_bind; [apply parses_string; lia|]. intros [[a n] s1] (Hin & ? & ? & ?). simpl in *.
    eapply parses_bind; [apply parses_string; lia|]. intros [[a' n'] s2] (Hin' & ? & ? & ?). unfold span_in in *. simpl in *.
    eapply parses_bind; [apply IH; lia|]. intros l Hl. apply parses_ret. constructor; [|done]. done.
Qed.

Lemma parses_alloc : parses (fun _ => True) alloc_attrs.
Proof. intros [s x]. unfold alloc_attrs. do 2 x_step. apply wp_alloc_block; intros al; by repeat x_step. Qed.

Lemma fetch_key_in version p s : 0 <= s -> parses (key_in d) (fetch_key version p d (lenZ d) s).
Proof.
  intros Hs. unfold fetch_key. destruct (version =? 1).
  - unfold fetch_key_v1. eapply parses_bind; [by apply parses_u32|]. intros [n s1] (Hn & ? & ?). simpl in *.
    apply (parses_bind (fun _ => True)); [destruct (n =? 0); [by apply parses_ret|apply parses_alloc]|]. intros attrs _.
    eapply parses_bind; [apply parses_string; lia|]. intros [[a m] s2] (Hin & ? & ? & ?). simpl in *.
    eapply parses_bind; [apply parses_string; lia|]. intros [[a' m'] s3] (Hin' & ? & ? & ?). unfold span_in in *. simpl in *.
    apply parses_ret. split_and!; [done..|]. destruct (n =? 0); [constructor|]. constructor; [|done].
    split; [done|]. unfold span_in. simpl. lia.
  - unfold fetch_key_v2. eapply parses_bind; [by apply parses_string|]. intros [[a m] s1] (Hin & ? & ? & ?). cbn [fst snd] in *.
    eapply parses_bind; [apply parses_string; lia|]. intros [[a' m'] s2] (Hin' & ? & ? & ?). unfold span_in in Hin, Hin'. cbn [fst snd] in *.
    eapply parses_bind; [apply parses_u32; lia|]. intros [n s3] (Hn & ? & ?). cbn [fst snd] in *.
    apply (parses_bind (fun _ => True)); [destruct (n =? 0); [by apply parses_ret|apply parses_alloc]|]. intros attrs _.
    eapply parses_bind; [apply parses_attributes; unfold lenZ in *; lia|]. intros l Hl. apply parses_ret. by split_and!.
Qed.
End Safe.

(** ** What a server describes is read back *)

(** Memory is only added, and allocations succeed as before. *)
Record grown (s s' : session) : Prop := {
  gr_own : own_step s s';
  gr_heap : s_heap s ⊆ s_heap s';
  gr_alloc : forallb id (s_alloc s') = true
}.

Lemma grown_same s : heap_ok s -> forallb id (s_alloc s) = true -> grown s s.
Proof. intros Hh Ha. split; [|done|done]. apply own_step_same; [done|]. by destruct s. Qed.

Lemma wp_alloc_all contents (Q : option ptr -> session -> Prop) s :
  heap_ok s -> queue_live s -> bytes_ok contents -> forallb id (s_alloc s) = true ->
  (forall s' p, grown s s' -> s_heap s !! p = None -> owned s' p contents -> Q (Some p) s') ->
  wp (alloc_block contents) Q s.
Proof.
  intros Hh Hl Hc Ha HQ. unfold alloc_block, alloc_outcome, bind, wp.
  assert (Hal : exists al, match s_alloc s with [] => Ret true s | b :: rest => Ret b (s <| s_alloc := rest |>) end =
    Ret true (s <| s_alloc := al |>) /\ forallb id al = true).
  { destruct (s_alloc s) as [|b al] eqn:E; [exists []; split; [rewrite <- E; by destruct s|done]|].
    simpl in Ha. apply andb_true_iff in Ha as [Hb Ha]. simpl in Hb. subst b. by exists al. }
  destruct Hal as (al & -> & Ha'). simpl. apply HQ.
  - split; [| |done].
    + apply (own_step_trans _ (s <| s_alloc := al |>)); [by apply own_step_alloc|].
      pose proof (own_step_fresh (s <| s_alloc := al |>) contents) as H. simpl in H. apply H; [by destruct Hh|done|].
      intros Hin. destruct (Hl (s_next_ptr s)) as [x Hx]; [by intros H'; apply H'|].
      by rewrite (heap_ok_fresh s Hh) in Hx by lia.
    + simpl. apply insert_subseteq. apply (heap_ok_fresh s Hh). lia.
  - apply (heap_ok_fresh s Hh). lia.
  - split; [apply lookup_insert_eq|]. intros Hin. destruct (Hl (s_next_ptr s)) as [x Hx]; [by intros H'; apply H'|].
    by rewrite (heap_ok_fresh s Hh) in Hx by lia.
Qed.

Section Trip.
Context (d : list Z) (Hlen : lenZ d < 2 ^ 32).

Lemma fetch_u32_at pre v post s e :
  d = pre ++ htonu32 v ++ post -> s = lenZ pre -> 0 <= v < 2 ^ 32 ->
  fetch_u32 d (lenZ d) s e = Ret (Some (v, s + 4)) e.
Proof.
  intros Ed -> Hv. unfold fetch_u32.
  assert (Hle : lenZ pre + 4 <= lenZ d) by (rewrite Ed, !lenZ_app, lenZ_htonu32; pose proof (lenZ_nonneg post); lia).
  apply Z.leb_le in Hle. rewrite Hle, Ed, ntohu32_at by done. done.
Qed.

Lemma span_at pre x post : d = pre ++ x ++ post -> span_is d (lenZ pre, lenZ x) x.
Proof.
  intros Ed. unfold span_is, bytes_at. cbn [fst snd]. pose proof (lenZ_nonneg pre). pose proof (lenZ_nonneg x).
  pose proof (lenZ_nonneg post). rewrite decide_True by (rewrite Ed, !lenZ_app; lia). f_equal. unfold slice. rewrite Ed.
  unfold lenZ. rewrite !Nat2Z.id, drop_app_length, take_app_length. done.
Qed.

Lemma fetch_string_at pre x post s e :
  d = pre ++ string_text x ++ post -> s = lenZ pre ->
  fetch_string d (lenZ d) s e = Ret (Some ((s + 4, lenZ x), s + 4 + lenZ x)) e /\ span_is d (s + 4, lenZ x) x /\
  s + 4 + lenZ x = lenZ (pre ++ string_text x).
Proof.
  intros Ed ->. unfold string_text in *. pose proof (lenZ_nonneg x). pose proof (lenZ_nonneg pre). pose proof (lenZ_nonneg post).
  assert (Hl : lenZ d = lenZ pre + 4 + lenZ x + lenZ post) by (rewrite Ed, !lenZ_app, lenZ_htonu32; lia). split_and!.
  - unfold fetch_string, parse_bind. rewrite (bind_Ret _ _ _ _ _ (fetch_u32_at pre (lenZ x) (x ++ post) (lenZ pre) e ltac:(by rewrite Ed, <- app_assoc) eq_refl ltac:(lia))).
    assert (Hle : (lenZ pre + 4 + lenZ x <=? lenZ d) = true) by (apply Z.leb_le; lia). cbn beta iota. by rewrite Hle.
  - replace (lenZ pre + 4) with (lenZ (pre ++ htonu32 (lenZ x))) by (by rewrite lenZ_app, lenZ_htonu32).
    apply (span_at _ _ post). rewrite Ed. by rewrite <- !app_assoc.
  - rewrite !lenZ_app, lenZ_htonu32. lia.
Qed.

Lemma fetch_attributes_at l : forall room pre post s e,
  d = pre ++ (l ≫= attr_text) ++ post -> s = lenZ pre -> (length l < room)%nat ->
  exists las, fetch_attributes room d (lenZ d) s (lenZ l) e = Ret (Some las) e /\ Forall2 (attr_is d) las l.
Proof.
  induction l as [|[n v] l IH]; intros room pre post s e Ed Es Hr; destruct room as [|room]; try (simpl in Hr; lia);
    cbn [fetch_attributes].
  - exists []. done.
  - rewrite lenZ_cons. destruct (Z.leb_spec (1 + lenZ l) 0); [pose proof (lenZ_nonneg l); lia|].
    cbn [mbind list_bind] in Ed. unfold attr_text at 1 in Ed. cbn [fst snd] in Ed. rewrite <- !app_assoc in Ed.
    destruct (fetch_string_at pre n _ s e Ed Es) as (E1 & S1 & L1).
    rewrite app_assoc in Ed. destruct (fetch_string_at _ v _ _ e Ed L1) as (E2 & S2 & L2). rewrite app_assoc in Ed.
    destruct (IH room _ post _ e Ed L2) as (las & E3 & H3); [simpl in Hr; lia|].
    exists (mk_listed_attribute (Some (s + 4, lenZ n)) (s + 4 + lenZ n + 4, lenZ v) :: las). split; [|by constructor].
    unfold parse_bind. rewrite (bind_Ret _ _ _ _ _ E1). cbn beta iota. rewrite (bind_Ret _ _ _ _ _ E2). cbn beta iota.
    replace (1 + lenZ l - 1) with (lenZ l) by lia. by rewrite (bind_Ret _ _ _ _ _ E3).
Qed.

Lemma wp_alloc_attrs (Q : option (option ptr) -> ext pkey_data -> Prop) s x :
  heap_ok s -> queue_live s -> forallb id (s_alloc s) = true ->
  (forall s' a, grown s s' -> Q (Some a) (mk_ext s' x)) -> wp alloc_attrs Q (mk_ext s x).
Proof.
  intros Hh Hl Ha HQ. unfold alloc_attrs. do 2 x_step. apply wp_alloc_all; [done..|constructor|done|].
  intros s' p Hg _ _. x_step. by apply HQ.
Qed.

Lemma wp_some {A} (m : PM A) (Q : A -> ext pkey_data -> Prop) e a : m e = Ret a e -> Q a e -> wp m Q e.
Proof. intros E H. unfold wp. by rewrite E. Qed.

Lemma attrs_len l : 8 * lenZ l <= lenZ (l ≫= attr_text).
Proof.
  induction l as [|[n v] l IH]; [done|]. rewrite bind_cons, lenZ_cons, lenZ_app.
  unfold attr_text at 1, string_text. cbn [fst snd]. rewrite !lenZ_app, !lenZ_htonu32.
  pose proof (lenZ_nonneg n). pose proof (lenZ_nonneg v). lia.
Qed.

(** A key is found where the server has put it. *)
Lemma wp_fetch_key version p k pre (Q : option listed_key -> ext pkey_data -> Prop) s x :
  d = pre ++ key_text version k -> key_ok version k ->
  heap_ok s -> queue_live s -> forallb id (s_alloc s) = true ->
  (forall s' e, grown s s' -> key_is d e k -> le_packet e = p -> Q (Some e) (mk_ext s' x)) ->
  wp (fetch_key version p d (lenZ d) (lenZ pre)) Q (mk_ext s x).
Proof.
  intros Ed [_ Hv] Hh Hl Ha HQ. unfold fetch_key, key_text in *. destruct (Z.eqb_spec version 1) as [->|Hne].
  - set (c := default [] (snd <$> head (k_attrs k))) in *.
    pose proof Ed as Ed1. unfold string_text at 1 in Ed1. rewrite <- app_assoc in Ed1. rewrite app_assoc in Ed.
    assert (Hc : lenZ c < 2 ^ 32).
    { rewrite Ed1, !lenZ_app, lenZ_htonu32 in Hlen. pose proof (lenZ_nonneg pre). pose proof (lenZ_nonneg (string_text (k_name k))).
      pose proof (lenZ_nonneg (string_text (k_blob k))). lia. }
    assert (L0 : lenZ pre + 4 + lenZ c = lenZ (pre ++ string_text c)) by (unfold string_text; rewrite !lenZ_app, lenZ_htonu32; lia).
    unfold fetch_key_v1, parse_bind. apply wp_bind.
    eapply wp_some; [eapply fetch_u32_at; [exact Ed1|done|split; [apply lenZ_nonneg|done]]|]. cbn beta iota. apply wp_bind.
    assert (Hattr : Forall2 (attr_is d) (if lenZ c =? 0 then [] else [mk_listed_attribute None (lenZ pre + 4, lenZ c)]) (k_attrs k)).
    { destruct (Hv eq_refl) as [E|(c' & Hc' & E)].
      - assert (Ec : c = []) by (unfold c; by rewrite E). rewrite E, Ec. constructor.
      - assert (Ec : c = c') by (unfold c; by rewrite E). rewrite E, <- Ec in *. clearbody c.
        destruct (Z.eqb_spec (lenZ c) 0) as [Hz|_]; [destruct c; [done|rewrite lenZ_cons in Hz; pose proof (lenZ_nonneg c); lia]|].
        constructor; [|constructor]. split; [done|]. cbn [la_value snd].
        replace (lenZ pre + 4) with (lenZ (pre ++ htonu32 (lenZ c))) by (by rewrite lenZ_app, lenZ_htonu32).
        eapply span_at. rewrite Ed1. by rewrite <- app_assoc. }
    apply (wp_mono _ (fun r e => exists a s', r = Some a /\ e = mk_ext s' x /\ grown s s')).
    { destruct (lenZ c =? 0).
      - x_step. eexists _, s. split_and!; [done..|]. by apply grown_same.
      - apply wp_alloc_attrs; [done..|]. intros s' a Hg. by eexists _, s'. }
    intros r e (a & s' & -> & -> & Hg). apply wp_bind.
    destruct (fetch_string_at _ (k_name k) _ _ (mk_ext s' x) Ed L0) as (E1 & S1 & L1). eapply wp_some; [exact E1|].
    cbn beta iota. apply wp_bind. rewrite app_assoc in Ed. rewrite <- (app_nil_r (string_text (k_blob k))) in Ed.
    destruct (fetch_string_at _ (k_blob k) _ _ (mk_ext s' x) Ed L1) as (E2 & S2 & _). eapply wp_some; [exact E2|].
    x_step. apply HQ; [done| |done]. by split_and!.
  - assert (Hn : lenZ (k_attrs k) <= lenZ d).
    { pose proof (attrs_len (k_attrs k)). rewrite Ed, !lenZ_app. pose proof (lenZ_nonneg pre). pose proof (lenZ_nonneg (k_attrs k)).
      pose proof (lenZ_nonneg (string_text (k_name k))). pose proof (lenZ_nonneg (string_text (k_blob k))). rewrite lenZ_htonu32. lia. }
    unfold fetch_key_v2, parse_bind. apply wp_bind.
    destruct (fetch_string_at _ (k_name k) _ _ (mk_ext s x) Ed eq_refl) as (E1 & S1 & L1). eapply wp_some; [exact E1|].
    cbn beta iota. apply wp_bind. rewrite app_assoc in Ed.
    destruct (fetch_string_at _ (k_blob k) _ _ (mk_ext s x) Ed L1) as (E2 & S2 & L2). eapply wp_some; [exact E2|].
    cbn beta iota. apply wp_bind. rewrite app_assoc in Ed.
    eapply wp_some; [eapply fetch_u32_at; [exact Ed|exact L2|]|].
    { split; [apply lenZ_nonneg|]. lia. }
    cbn beta iota. apply wp_bind.
    apply (wp_mono _ (fun r e => exists a s', r = Some a /\ e = mk_ext s' x /\ grown s s')).
    { destruct (lenZ (k_attrs k) =? 0).
      - x_step. eexists _, s. split_and!; [done..|]. by apply grown_same.
      - apply wp_alloc_attrs; [done..|]. intros s' a Hg. by eexists _, s'. }
    intros r e (a & s' & -> & -> & Hg). apply wp_bind. rewrite app_assoc in Ed.
    rewrite <- (app_nil_r (k_attrs k ≫= attr_text)) in Ed.
    destruct (fetch_attributes_at (k_attrs k) (S (length d)) _ [] (lenZ pre + 4 + lenZ (k_name k) + 4 + lenZ (k_blob k) + 4)
      (mk_ext s' x) Ed) as (las & E3 & H3).
    + rewrite L2. by rewrite (lenZ_app _ (htonu32 _)), lenZ_htonu32.
    + unfold lenZ in Hn. lia.
    + eapply wp_some; [exact E3|]. x_step. apply HQ; [done| |done]. by split_and!.
Qed.
End Trip.
