(* ===== verification/PublickeyList.v ===== *)
(** * The list of an account's keys

    [libssh2_publickey_list_fetch] on a channel whose answers have arrived hands over
    exactly the keys the server describes, in their order, in memory that the caller
    owns. *)

From stdpp Require Import base numbers list gmap strings.
From S2P Require Import Prelude Codes CString KexMethods Wire Session ChannelWindow Packet PacketAdd PacketWait Conn PacketSafety PacketSpec ChannelIO ChannelCtl Comp Kex Ext Blocking Sftp SftpSpec OwnBlock Publickey PublickeySpec ChannelStream SftpFrames Yields.

(** What the subsystem relies on of its channel: reads of what has arrived yield all of
    it, and the client's own use of memory does not concern it. *)
Class AnswerChannel (transport_send : list Z -> list Z -> CM Z) (transport_read : CM Z) (fuel : nat) (ch : ptr)
    (ok : session -> Prop) (unread : session -> list Z) : Prop := {
  ac_own : forall s s', ok s -> own_step s s' -> ok s' /\ unread s' = unread s;
  ac_heap : forall s, ok s -> heap_ok s;
  ac_live : forall s, ok s -> queue_live s;
  ac_bytes : forall s, ok s -> bytes_ok (unread s);
  ac_read : forall n s, ok s -> 0 < n <= lenZ (unread s) ->
    wp (channel_read transport_send transport_read fuel ch 0 n)
      (fun r s' => r = (n, take (Z.to_nat n) (unread s)) /\ ok s' /\ unread s' = drop (Z.to_nat n) (unread s) /\
         others_kept s s' /\ s_alloc s' = s_alloc s) s
}.

(** The client's blocks stay, except those of [gone]. *)
Definition kept (gone : ptr -> Prop) (s s' : session) : Prop := forall q d, ~ gone q -> owned s q d -> owned s' q d.

Lemma kept_trans g s1 s2 s3 : kept g s1 s2 -> kept g s2 s3 -> kept g s1 s3.
Proof. intros H1 H2 q d Hq H. by apply H2, H1. Qed.

Lemma grown_kept s s' : grown s s' -> kept (fun _ => False) s s'.
Proof.
  intros [Hst Hh _] q d _ [Hd Hq]. split; [by eapply lookup_weaken|]. unfold not_queued in *.
  pose proof (own_fields _ _ Hst) as ->. done.
Qed.

Lemma wp_free_kept p (Q : unit -> session -> Prop) s d :
  heap_ok s -> owned s p d ->
  (forall s', own_step s s' -> s_alloc s' = s_alloc s -> kept (fun q => q = p) s s' -> Q tt s') -> wp (free_block p) Q s.
Proof.
  intros Hh [Hp Hq] HQ. eapply wp_free_block; [done|]. apply HQ; [by apply own_step_free|done|].
  intros q d' Hne [Hd Hn]. split; [|done]. simpl. rewrite lookup_delete_ne; [done|]. intros ->. by apply Hne.
Qed.

Lemma wp_write_kept p bytes (Q : unit -> session -> Prop) s d :
  heap_ok s -> owned s p d -> bytes_ok bytes -> lenZ bytes = lenZ d ->
  (forall s', own_step s s' -> s_alloc s' = s_alloc s -> owned s' p bytes -> kept (fun q => q = p) s s' -> Q tt s') ->
  wp (write_block p 0 bytes) Q s.
Proof.
  intros Hh [Hp Hq] Hb Hl HQ. eapply wp_write_block; [done|lia|lia|].
  assert (E : take (Z.to_nat 0) d ++ bytes ++ drop (Z.to_nat (0 + lenZ bytes)) d = bytes).
  { rewrite Hl, drop_ge by (unfold lenZ; lia). simpl. apply app_nil_r. }
  rewrite E. apply HQ; [apply own_step_insert; [done|done|by eapply owned_lt|done]|done|split; [apply lookup_insert_eq|done]|].
  intros q d' Hne [Hd Hn]. split; [|done]. simpl. rewrite lookup_insert_ne; [done|]. intros ->. by apply Hne.
Qed.

Section Fetch.
Context (transport_send : list Z -> list Z -> CM Z) (transport_read : CM Z) (fuel : nat) (ch : ptr).
Context (ok : session -> Prop) (unread : session -> list Z).
Context `{!AnswerChannel transport_send transport_read fuel ch ok unread}.

(** The object between two answers. *)
Definition object_at (k : ptr) (version : Z) (x : pkey_data) : Prop :=
  exists o, pkeys x !! k = Some o /\ pub_channel o = ch /\ pub_version o = version /\
    receive_state o = libssh2_NB_state_idle.

Lemma wp_pkey k o (Q : publickey -> ext pkey_data -> Prop) s x :
  pkeys x !! k = Some o -> Q o (mk_ext s x) -> wp (pkey k) Q (mk_ext s x).
Proof. intros E H. unfold pkey. do 2 x_step. eapply wp_access; done. Qed.

Lemma wp_set_pkey k o f (Q : unit -> ext pkey_data -> Prop) s x :
  pkeys x !! k = Some o ->
  (forall x', pkeys x' !! k = Some (f o) -> Q tt (mk_ext s x')) -> wp (set_pkey k f) Q (mk_ext s x).
Proof.
  intros E H. unfold set_pkey. x_step. eapply wp_pkey; [exact E|]. x_step. apply H. simpl. by rewrite lookup_alter_eq, E.
Qed.

(** A step that leaves what the client owns and moves the channel to [rest]. *)
Record advanced (rest : list Z) (s s' : session) : Prop := {
  ad_ok : ok s';
  ad_unread : unread s' = rest;
  ad_kept : kept (fun _ => False) s s';
  ad_alloc : forallb id (s_alloc s') = true
}.

Lemma advanced_own rest s0 s s' : advanced rest s0 s -> own_step s s' -> forallb id (s_alloc s') = true ->
  kept (fun _ => False) s0 s' -> advanced rest s0 s'.
Proof. intros [H1 H2 H3 H4] Hst Ha Hk. destruct (ac_own _ _ H1 Hst) as [? Hu]. split; [done|congruence|done|done]. Qed.

Lemma wp_read n (Q : Z * list Z -> ext pkey_data -> Prop) s x :
  ok s -> 0 < n <= lenZ (unread s) -> forallb id (s_alloc s) = true ->
  (forall s', advanced (drop (Z.to_nat n) (unread s)) s s' -> Q (n, take (Z.to_nat n) (unread s)) (mk_ext s' x)) ->
  wp (Publickey.read transport_send transport_read fuel ch n) Q (mk_ext s x).
Proof.
  intros Hok Hn Ha HQ. unfold Publickey.read. x_step. eapply wp_mono; [by apply ac_read|].
  intros r s' (-> & Hok' & Hu & Ho & Hal). apply HQ. split; [done|done| |by rewrite Hal].
  intros q d _ H. by eapply owned_others.
Qed.

(** One answer: it ends up in a block of its own. *)
Lemma wp_receive k version m rest (Q : Z * option (ptr * Z) -> ext pkey_data -> Prop) s x :
  ok s -> forallb id (s_alloc s) = true -> object_at k version x -> 0 < lenZ m < 2 ^ 31 ->
  unread s = framed m ++ rest ->
  (forall s' x' p, advanced rest s s' -> object_at k version x' -> owned s' p m ->
     (forall q d, owned s q d -> q <> p) -> Q (0, Some (p, lenZ m)) (mk_ext s' x')) ->
  wp (publickey_packet_receive transport_send transport_read fuel k) Q (mk_ext s x).
Proof.
  intros Hok Ha (o & Ho & Hch & Hv & Hst) Hm Hu HQ. pose proof (lenZ_nonneg rest) as Hr0.
  assert (Hlen : lenZ (unread s) = 4 + lenZ m + lenZ rest) by (rewrite Hu; unfold framed; rewrite !lenZ_app, lenZ_htonu32; lia).
  unfold publickey_packet_receive. x_step. eapply wp_pkey; [exact Ho|]. rewrite Hst, Hch. x_step.
  apply wp_read; [done|lia|done|]. intros s1 A1. cbn [fst snd].
  change (4 =? LIBSSH2_ERROR_EAGAIN) with false. change (negb (4 =? 4)) with false. cbn iota.
  assert (E4 : take (Z.to_nat 4) (unread s) = htonu32 (lenZ m)) by (rewrite Hu; reflexivity).
  assert (D4 : drop (Z.to_nat 4) (unread s) = m ++ rest) by (rewrite Hu; reflexivity). rewrite E4, D4 in *.
  assert (En : ntohu32 (htonu32 (lenZ m)) 0 = Some (lenZ m)).
  { apply (ntohu32_htonu32 [] (lenZ m) []). lia. }
  x_step. eapply wp_access; [exact En|]. do 2 x_step.
  destruct A1 as [Hok1 Hu1 Hk1 Ha1].
  apply wp_alloc_all; [by apply ac_heap|by apply ac_live|apply Forall_replicate; by split|done|].
  intros s2 p Hg Hfresh Hp2. x_step. eapply wp_set_pkey; [exact Ho|]. intros x1 Ho1. cbn beta iota. x_step.
  eapply wp_set_pkey; [exact Ho1|]. intros x2 Ho2. unfold receive_body. x_step. eapply wp_pkey; [exact Ho2|]. x_step.
  eapply wp_access; [done|].
  match type of Ho2 with _ = Some ?o2 => assert (Hc2 : pub_channel o2 = ch) by exact Hch;
    assert (Hn2 : receive_packet_len o2 = lenZ m) by done; rewrite Hc2, Hn2 end. x_step.
  destruct (ac_own _ _ Hok1 (gr_own _ _ Hg)) as [Hok2 Hu2].
  apply wp_read; [done|rewrite Hu2, Hu1, lenZ_app; lia|by apply gr_alloc in Hg|]. intros s3 [Hok3 Hu3 Hk3 Ha3].
  rewrite Hu2, Hu1 in *.
  assert (Em : take (Z.to_nat (lenZ m)) (m ++ rest) = m) by (unfold lenZ; by rewrite Nat2Z.id, take_app_length).
  assert (Er : drop (Z.to_nat (lenZ m)) (m ++ rest) = rest) by (unfold lenZ; by rewrite Nat2Z.id, drop_app_length).
  rewrite Em, Er in *. do 2 x_step. cbn [snd].
  assert (Hb : bytes_ok m).
  { pose proof (ac_bytes _ Hok1) as H. rewrite Hu1 in H. by apply Forall_app in H as [? _]. }
  eapply wp_write_kept; [by apply ac_heap|apply Hk3; [tauto|done]|done|unfold lenZ; by rewrite length_replicate, Nat2Z.id|].
  intros s4 Hst4 Hal4 Hp4 Hk4. cbn [fst].
  assert (Hs : s32 (lenZ m) = lenZ m) by (apply s32_nonneg; lia). rewrite Hs.
  replace (lenZ m =? LIBSSH2_ERROR_EAGAIN) with false by (symmetry; apply Z.eqb_neq; unfold LIBSSH2_ERROR_EAGAIN; lia).
  rewrite Z.eqb_refl. change (negb true) with false. cbn beta iota. x_step. eapply wp_set_pkey; [exact Ho2|]. intros x3 Ho3. x_step.
  destruct (ac_own _ _ Hok3 Hst4) as [Hok4 Hu4].
  assert (Hne : forall q d, owned s q d -> q <> p).
  { intros q d Hq ->. apply (Hk1 _ _ ltac:(tauto)) in Hq as [Hq _]. congruence. }
  apply HQ; [|by eexists|done|done]. split; [done|congruence| |by rewrite Hal4].
  intros q d _ Hq. apply Hk4; [by eapply Hne|]. apply Hk3; [tauto|]. apply (grown_kept _ _ Hg); [tauto|]. by apply Hk1; [tauto|].
Qed.

(** ** The answers *)

Definition status_answer (descr lang : list Z) : list Z :=
  string_text (str "status") ++ htonu32 LIBSSH2_PUBLICKEY_SUCCESS ++ string_text descr ++ string_text lang.

Lemma response_key rest : publickey_response_id (string_text (str "publickey") ++ rest) (lenZ (string_text (str "publickey") ++ rest)) =
  Some (LIBSSH2_PUBLICKEY_RESPONSE_PUBLICKEY, 13).
Proof.
  unfold publickey_response_id. rewrite lenZ_app. change (lenZ (string_text (str "publickey"))) with 13.
  pose proof (lenZ_nonneg rest). destruct (Z.ltb_spec (13 + lenZ rest) 4); [lia|].
  change (ntohu32 (string_text (str "publickey") ++ rest) 0) with (Some 9). cbn [mbind option_bind].
  destruct (Z.ltb_spec (13 + lenZ rest - 4) 9); [lia|]. reflexivity.
Qed.

Lemma response_status rest : publickey_response_id (string_text (str "status") ++ rest) (lenZ (string_text (str "status") ++ rest)) =
  Some (LIBSSH2_PUBLICKEY_RESPONSE_STATUS, 10).
Proof.
  unfold publickey_response_id. rewrite lenZ_app. change (lenZ (string_text (str "status"))) with 10.
  pose proof (lenZ_nonneg rest). destruct (Z.ltb_spec (10 + lenZ rest) 4); [lia|].
  change (ntohu32 (string_text (str "status") ++ rest) 0) with (Some 6). cbn [mbind option_bind].
  destruct (Z.ltb_spec (10 + lenZ rest - 4) 6); [lia|]. reflexivity.
Qed.

Lemma wp_fetch_status descr lang (Q : option Z -> ext pkey_data -> Prop) e :
  lenZ (status_answer descr lang) < 2 ^ 31 -> Q (Some LIBSSH2_PUBLICKEY_SUCCESS) e ->
  wp (fetch_status (status_answer descr lang) (lenZ (status_answer descr lang)) 10) Q e.
Proof.
  intros Hl HQ. unfold fetch_status. set (d := status_answer descr lang) in *.
  assert (Ed : d = string_text (str "status") ++ htonu32 0 ++ string_text descr ++ string_text lang) by done.
  assert (Hlen : lenZ d = 22 + lenZ descr + lenZ lang).
  { rewrite Ed. unfold string_text. rewrite !lenZ_app, !lenZ_htonu32. change (lenZ (str "status")) with 6. lia. }
  pose proof (lenZ_nonneg descr). pose proof (lenZ_nonneg lang).
  destruct (Z.leb_spec (10 + 8) (lenZ d)); [|lia]. apply wp_bind.
  eapply wp_access; [rewrite Ed; apply ntohu32_at; [by split|done]|]. apply wp_bind.
  eapply wp_access.
  { rewrite Ed, app_assoc. unfold string_text at 2. rewrite <- (app_assoc (htonu32 _)).
    apply (ntohu32_at (string_text (str "status") ++ htonu32 0)); [lia|done]. }
  destruct (Z.leb_spec (10 + 8 + lenZ descr + 4) (lenZ d)); [|lia]. apply wp_bind.
  eapply wp_access.
  { rewrite Ed, !app_assoc. unfold string_text at 3.
    apply (ntohu32_at ((string_text (str "status") ++ htonu32 0) ++ string_text descr)); [lia|].
    rewrite lenZ_app. unfold string_text at 2. rewrite (lenZ_app (htonu32 _)), lenZ_htonu32.
    change (lenZ (string_text (str "status") ++ htonu32 0)) with 14. lia. }
  destruct (Z.leb_spec (10 + 8 + lenZ descr + 4 + lenZ lang) (lenZ d)); [|lia]. by apply wp_ret.
Qed.
(** ** The list *)

Definition elements (l : key_list) : list listed_key := default [] (snd <$> l).

(** An element stands for a key of the server, and its packet is the caller's. *)
Definition entry_holds (s : session) (e : listed_key) (k : key) : Prop :=
  exists d, owned s (le_packet e) d /\ key_is d e k.

Definition array_ok (s : session) (l : key_list) (max : Z) : Prop :=
  match l with
  | None => max = 0
  | Some (p, es) => owned s p [] /\ (p ∉ le_packet <$> es) /\ lenZ es <= max /\ 0 < max
  end.

Lemma entries_kept g s s' es ks :
  kept g s s' -> Forall (fun e => ~ g (le_packet e)) es -> Forall2 (entry_holds s) es ks -> Forall2 (entry_holds s') es ks.
Proof.
  intros Hk Hg H. induction H as [|e k es ks (d & Hd & Hkey) _ IH]; [constructor|]. apply Forall_cons in Hg as [Hg1 Hg].
  constructor; [|by apply IH]. exists d. split; [by apply Hk|done].
Qed.

Lemma entries_fresh s es ks p :
  Forall2 (entry_holds s) es ks -> (forall q d, owned s q d -> q <> p) -> p ∉ (le_packet <$> es).
Proof.
  intros H Hp Hin. apply list_elem_of_fmap in Hin as (e & -> & He). induction H as [|e' k es ks (d & Hd & _) _ IH].
  - by apply elem_of_nil in He.
  - apply elem_of_cons in He as [->|He]; [by apply (Hp _ _ Hd)|by apply IH].
Qed.

Lemma not_elem_Forall (es : list listed_key) p : p ∉ (le_packet <$> es) -> Forall (fun e => ~ le_packet e = p) es.
Proof. intros H. apply Forall_forall. intros e He <-. apply H. by apply list_elem_of_fmap_2. Qed.

Lemma wp_grow_keys l max ks q m (Q : option (ptr * list listed_key * Z) -> ext pkey_data -> Prop) s x :
  heap_ok s -> queue_live s -> forallb id (s_alloc s) = true -> array_ok s l max ->
  Forall2 (entry_holds s) (elements l) ks -> owned s q m -> (forall p es, l = Some (p, es) -> p <> q) ->
  (forall p max' s', own_step s s' -> forallb id (s_alloc s') = true -> owned s' p [] -> p ∉ (le_packet <$> elements l) ->
     p <> q -> lenZ (elements l) < max' -> Forall2 (entry_holds s') (elements l) ks -> owned s' q m ->
     Q (Some (p, elements l, max')) (mk_ext s' x)) ->
  wp (grow_keys l max) Q (mk_ext s x).
Proof.
  intros Hh Hl Ha Harr Hks Hq Hpq HQ. unfold grow_keys. fold (elements l). destruct (Z.leb_spec max (lenZ (elements l))) as [Hle|Hlt].
  - x_step. x_step. apply wp_alloc_all; [done..|constructor|done|]. intros s1 p Hg Hf Hp. cbn beta iota.
    pose proof (grown_kept _ _ Hg) as Hk. pose proof (gr_own _ _ Hg) as Hst.
    assert (Hnew : forall q d, owned s q d -> q <> p) by (intros q' d [Hd _] ->; congruence).
    assert (Hks1 : Forall2 (entry_holds s1) (elements l) ks) by (eapply entries_kept; [exact Hk| |done]; apply Forall_forall; tauto).
    x_step. destruct l as [[p0 es]|]; cbn [fmap option_fmap option_map fst].
    + destruct Harr as (Hp0 & Hn0 & Hle0 & Hm). unfold release, Kex.free_opt. x_step.
      eapply wp_free_kept; [by apply own_heap in Hst|apply Hk; [tauto|exact Hp0]|]. intros s2 Hst2 Hal2 Hk2. x_step.
      apply HQ; [by eapply own_step_trans|rewrite Hal2; apply Hg| | | | | |].
      * apply Hk2; [|done]. intros ->. by apply (Hnew _ _ Hp0).
      * eapply entries_fresh; [exact Hks|done].
      * intros ->. by apply (Hnew _ _ Hq).
      * unfold elements in *. simpl in *. lia.
      * eapply entries_kept; [exact Hk2| |done]. by apply not_elem_Forall.
      * apply Hk2; [by intros ->; eapply Hpq|]. apply Hk; [tauto|done].
    + unfold release, Kex.free_opt. x_step. x_step. x_step. apply HQ; [done|apply Hg|done| | | |done|].
      * by apply not_elem_of_nil.
      * intros ->. by apply (Hnew _ _ Hq).
      * simpl in *. subst max. unfold elements, lenZ. simpl. lia.
      * apply Hk; [tauto|done].
  - destruct l as [[p0 es]|]; cbn in Harr, Hlt |- *; [|subst; unfold lenZ in Hlt; simpl in Hlt; lia].
    destruct Harr as (Hp0 & Hn0 & _ & Hm).
    apply (HQ p0 max s); [|done..| |done|done|done]; [by apply own_step_same; [|destruct s]|by eapply Hpq].
Qed.
(** The stream of answers to a request. *)
Definition answers (version : Z) (ks : list key) (descr lang : list Z) : list Z :=
  concat (framed ∘ key_answer version <$> ks) ++ framed (status_answer descr lang).

(** What the caller is given. *)
Definition fetched (rest : list Z) (ks : list key) (r : Z * option (Z * key_list)) (e : ext pkey_data) : Prop :=
  exists l, r = (0, Some (lenZ ks, l)) /\ ok (x_session e) /\ unread (x_session e) = rest /\
    Forall2 (entry_holds (x_session e)) (elements l) ks.

Definition small_key (version : Z) (k : key) : Prop := key_ok version k /\ lenZ (key_answer version k) < 2 ^ 31.

Lemma wp_set_object k version f (Q : unit -> ext pkey_data -> Prop) s x :
  object_at k version x ->
  (forall o, pub_channel (f o) = pub_channel o /\ pub_version (f o) = pub_version o /\ receive_state (f o) = receive_state o) ->
  (forall x' o, object_at k version x' -> pkeys x' !! k = Some (f o) -> Q tt (mk_ext s x')) ->
  wp (set_pkey k f) Q (mk_ext s x).
Proof.
  intros (o & Ho & Hc & Hv & Hr) Hf HQ. eapply wp_set_pkey; [exact Ho|]. intros x' Hx'. apply (HQ x' o); [|done].
  destruct (Hf o) as (H1 & H2 & H3). exists (f o). split_and!; congruence.
Qed.

Section Loop.
Context (k : ptr) (version : Z) (descr lang rest : list Z) (Hend : lenZ (status_answer descr lang) < 2 ^ 31).

Lemma wp_last_answer rounds l max ks s x :
  ok s -> forallb id (s_alloc s) = true -> object_at k version x ->
  unread s = framed (status_answer descr lang) ++ rest -> Forall2 (entry_holds s) (elements l) ks ->
  wp (fetch_loop transport_send transport_read fuel (S rounds) k l max) (fetched rest ks) (mk_ext s x).
Proof.
  intros Hok Ha Ho Hu Hks. cbn [fetch_loop]. x_step. eapply wp_receive; [done..| |exact Hu|].
  { split; [|done]. unfold status_answer, string_text. rewrite !lenZ_app, !lenZ_htonu32. change (lenZ (str "status")) with 6.
    pose proof (lenZ_nonneg descr). pose proof (lenZ_nonneg lang). lia. }
  intros s1 x1 p [Hok1 Hu1 Hk1 Ha1] Ho1 Hp Hnew. cbn [fst snd fmap option_fmap option_map default]. x_step.
  eapply wp_set_object; [exact Ho1|done|]. intros x2 o2 Ho2 E2.
  change (0 =? LIBSSH2_ERROR_EAGAIN) with false. change (negb (0 =? 0)) with false. cbn iota. do 2 x_step.
  eapply wp_block; [apply Hp|]. x_step. unfold status_answer at 1 2. eapply wp_access; [apply response_status|].
  cbn [fst snd]. change (LIBSSH2_PUBLICKEY_RESPONSE_STATUS <? 0) with false.
  change (LIBSSH2_PUBLICKEY_RESPONSE_STATUS =? LIBSSH2_PUBLICKEY_RESPONSE_STATUS) with true. cbn iota. x_step.
  eapply wp_access; [done|]. x_step. apply wp_fetch_status; [done|].
  change (LIBSSH2_PUBLICKEY_SUCCESS =? LIBSSH2_PUBLICKEY_SUCCESS) with true. cbn iota. x_step. unfold release_data. x_step.
  eapply wp_pkey; [exact E2|]. x_step. change (listFetch_data _) with (Some p) at 1. unfold release, Kex.free_opt. x_step.
  eapply wp_free_kept; [by apply ac_heap|exact Hp|]. intros s2 Hst2 Hal2 Hk2.
  eapply wp_set_object; [exact Ho2|done|]. intros x3 o3 Ho3 _. x_step.
  eapply wp_set_object; [exact Ho3|done|]. intros x4 o4 Ho4 _. x_step.
  destruct (ac_own _ _ Hok1 Hst2) as [Hok2 Hu2]. exists l.
  assert (Hl : lenZ (elements l) = lenZ ks) by (unfold lenZ; f_equal; by eapply Forall2_length).
  split_and!; [by rewrite <- Hl|done|simpl; congruence|]. simpl.
  eapply entries_kept; [exact Hk2| |eapply entries_kept; [exact Hk1|apply Forall_forall; tauto|exact Hks]].
  apply not_elem_Forall. by eapply entries_fresh.
Qed.

Lemma wp_fetch_loop ks : forall rounds l max dks s x,
  ok s -> forallb id (s_alloc s) = true -> object_at k version x -> Forall (small_key version) ks ->
  unread s = answers version ks descr lang ++ rest -> array_ok s l max -> Forall2 (entry_holds s) (elements l) dks ->
  (length ks < rounds)%nat ->
  wp (fetch_loop transport_send transport_read fuel rounds k l max) (fetched rest (dks ++ ks)) (mk_ext s x).
Proof.
  induction ks as [|key ks IH]; intros rounds l max dks s x Hok Ha Ho Hsm Hu Harr Hdks Hr;
    destruct rounds as [|rounds]; try (simpl in Hr; lia).
  { rewrite app_nil_r. by apply wp_last_answer. }
  apply Forall_cons in Hsm as [[Hkey Hlen] Hsm]. pose proof (lenZ_nonneg (key_text version key)) as H0.
  assert (Hlk : lenZ (key_answer version key) = 13 + lenZ (key_text version key)) by (unfold key_answer; by rewrite lenZ_app).
  unfold answers in Hu. rewrite fmap_cons, concat_cons, <- !app_assoc in Hu.
  cbn [fetch_loop]. x_step. eapply (wp_receive k version (key_answer version key)); [done..|lia|exact Hu|].
  intros s1 x1 p [Hok1 Hu1 Hk1 Ha1] Ho1 Hp Hnew. cbn [fst snd fmap option_fmap option_map default]. x_step.
  eapply wp_set_object; [exact Ho1|done|]. intros x2 o2 Ho2 E2.
  change (0 =? LIBSSH2_ERROR_EAGAIN) with false. change (negb (0 =? 0)) with false. cbn iota. do 2 x_step.
  eapply wp_block; [apply Hp|]. x_step. eapply wp_access; [apply response_key|].
  cbn [fst snd]. change (LIBSSH2_PUBLICKEY_RESPONSE_PUBLICKEY <? 0) with false.
  change (LIBSSH2_PUBLICKEY_RESPONSE_PUBLICKEY =? LIBSSH2_PUBLICKEY_RESPONSE_STATUS) with false.
  change (LIBSSH2_PUBLICKEY_RESPONSE_PUBLICKEY =? LIBSSH2_PUBLICKEY_RESPONSE_PUBLICKEY) with true. cbn iota. x_step.
  eapply wp_access; [done|]. x_step.
  assert (Hdks1 : Forall2 (entry_holds s1) (elements l) dks) by (eapply entries_kept; [exact Hk1|apply Forall_forall; tauto|exact Hdks]).
  eapply wp_grow_keys; [by apply ac_heap|by apply ac_live|done| |exact Hdks1|exact Hp| |].
  { destruct l as [[p0 es]|]; [|done]. destruct Harr as (Hp0 & ?). split; [by apply Hk1; [tauto|]|done]. }
  { intros p0 es ->. destruct Harr as (Hp0 & _). by eapply Hnew. }
  intros pa max' s2 Hst2 Ha2 Hpa Hpan Hpq Hmax Hdks2 Hp2. cbn beta iota. x_step.
  destruct (ac_own _ _ Hok1 Hst2) as [Hok2 Hu2]. pose proof Ho2 as (o & Eo & _ & Hv & _). eapply wp_pkey; [exact Eo|].
  rewrite Hv. x_step. cbn [fst].
  eapply (wp_fetch_key (key_answer version key) ltac:(lia) version p key (string_text (str "publickey")));
    [done|done|by apply ac_heap|by apply ac_live|done|].
  intros s3 e Hg3 Hkis Hpk. cbn beta iota. x_step. eapply wp_set_object; [exact Ho2|done|]. intros x3 o3 Ho3 _.
  pose proof (grown_kept _ _ Hg3) as Hk3. destruct (ac_own _ _ Hok2 (gr_own _ _ Hg3)) as [Hok3 Hu3].
  rewrite (cons_middle key dks ks), (app_assoc dks). apply IH; [done|by destruct Hg3|done|done| | | |simpl in Hr; lia].
  - unfold answers. rewrite <- app_assoc. congruence.
  - split_and!; [by apply Hk3; [tauto|]| |rewrite lenZ_app; unfold lenZ in *; simpl; lia|pose proof (lenZ_nonneg (elements l)); lia].
    rewrite fmap_app. intros [Hin|Hin]%elem_of_app; [done|]. apply list_elem_of_singleton in Hin. congruence.
  - apply Forall2_app; [eapply entries_kept; [exact Hk3|apply Forall_forall; tauto|exact Hdks2]|].
    constructor; [|constructor]. exists (key_answer version key). split; [rewrite Hpk; by apply Hk3; [tauto|]|done].
Qed.
End Loop.
End Fetch.

(** C13: the list of an account's keys is complete and right: when the request is out and
    the server's answers, one for every key and a status of success, have all arrived on the
    channel, and no allocation fails, [libssh2_publickey_list_fetch] returns 0 and as many elements as there are
    keys; the spans of each element lie in a packet of the caller's and hold the name, the
    blob and the attributes of the key, in the order of the server; the channel is left
    behind the status. While answers are still to come keys get lost
    ([blocked_list_loses_keys], [split_answer_fails]). *)
Theorem list_fetch_complete transport_send transport_read fuel ch ok unread
    `{!AnswerChannel transport_send transport_read fuel ch ok unread} rounds k o x s version keys descr lang rest
    (Hok : ok s) (Halloc : forallb id (s_alloc s) = true)
    (Hobject : pkeys x !! k = Some o) (Hchannel : pub_channel o = ch) (Hversion : pub_version o = version)
    (Hidle : receive_state o = libssh2_NB_state_idle) (Hsent : listFetch_state o = libssh2_NB_state_sent)
    (Hkeys : Forall (small_key version) keys) (Hend : lenZ (status_answer descr lang) < 2 ^ 31)
    (Hstream : unread s = answers version keys descr lang ++ rest) (Hrounds : (length keys < rounds)%nat) :
  exists l s' x', libssh2_publickey_list_fetch transport_send transport_read fuel rounds (Some k) (mk_ext s x) =
      Ret (0, Some (lenZ keys, l)) (mk_ext s' x') /\
    ok s' /\ unread s' = rest /\ Forall2 (entry_holds s') (elements l) keys.
Proof.
  destruct (wp_Ret (libssh2_publickey_list_fetch transport_send transport_read fuel rounds (Some k))
    (fetched ok unread rest keys) (mk_ext s x)) as (r & [s' x'] & E & l & -> & H); [|by exists l, s', x'].
  unfold libssh2_publickey_list_fetch. x_step. eapply wp_pkey; [exact Hobject|]. rewrite Hsent.
  change keys with ([] ++ keys) at 1. eapply wp_fetch_loop; try done. by exists o.
Qed.

(** ** The list on the channel of [ChannelIO], and runs that go wrong *)

(** *** The channel *)

Definition same_alloc (al : list bool) (s : session) : Prop := s_alloc s = al.

Lemma yields_set_chan_alloc al p f : yields (same_alloc al) anything (set_chan p f).
Proof. unfold set_chan, chan. yields_all; done. Qed.
Lemma yields_send_alloc al d d2 : yields (same_alloc al) (fun rc => rc = 0) (send_ok d d2).
Proof. by apply yields_ret. Qed.
Lemma yields_error_alloc al code msg : yields (same_alloc al) (fun rc => rc = code) (error code msg).
Proof. intros s a s' [= <- <-] H. by split. Qed.
#[local] Hint Resolve yields_set_chan_alloc yields_send_alloc yields_error_alloc : yields.

Lemma yields_adjust al ch n force : yields (same_alloc al) (fun rc => rc = 0) (channel_receive_window_adjust send_ok ch n force).
Proof. unfold channel_receive_window_adjust, window_adjust_send, chan. yields_all; by subst. Qed.
#[local] Hint Resolve yields_adjust : yields.

Lemma yields_widen al ch n : yields (same_alloc al) (fun rc => rc = 0) (read_widen send_ok ch n).
Proof. unfold read_widen, chan. yields_all; by subst. Qed.

Lemma yields_free_alloc al p : yields (same_alloc al) anything (free_block p).
Proof. unfold free_block. yields_all. Qed.
#[local] Hint Resolve yields_free_alloc : yields.

Lemma yields_read_loop al ch n : forall rest seen acc, yields (same_alloc al) anything (read_loop ch 0 n seen rest acc).
Proof.
  induction rest as [|k rest IH]; intros seen acc; cbn [read_loop]; [by apply yields_ret|].
  unfold block, stream_packet, chan. yields_all; apply IH.
Qed.
#[local] Hint Resolve yields_read_loop : yields.

Lemma yields_collect al ch n rc : yields (same_alloc al) anything (read_collect ch 0 n rc).
Proof. unfold read_collect, chan. yields_all. Qed.

Abbreviation normal_ident := (open_ident 0 LIBSSH2_CHANNEL_EXTENDED_DATA_NORMAL).
Abbreviation normal_unread := (channel_unread 0 LIBSSH2_CHANNEL_EXTENDED_DATA_NORMAL).

(** A channel with all its data in the queue is what the subsystem relies on. *)
#[global] Instance answer_channel ch :
  AnswerChannel send_ok (ret LIBSSH2_ERROR_EAGAIN) 1 ch (channel_open ch normal_ident) normal_unread.
Proof.
  assert (Hin : ChannelInput send_ok (ret LIBSSH2_ERROR_EAGAIN) ch 1 (channel_open ch normal_ident) normal_unread)
    by (by apply channel_input; [apply _|]).
  split.
  - apply in_own.
  - apply in_heap.
  - intros s Hs q. by apply in_live.
  - intros s (Hok & _). by apply stream_bytes_ok.
  - intros n s Hs [Hn0 Hn].
    destruct (wp_Ret _ _ _ (in_read (rounds:=1%nat) 1 n s Hs (Nat.le_refl 1) (Z.lt_le_incl _ _ Hn0))) as (r & s' & E & Hs' & Ho & _).
    eapply wp_run; [exact E|]. apply bind_Ret_inv in E as (w & s1 & Ew & E).
    destruct (yields_widen (s_alloc s) ch n _ _ _ Ew eq_refl) as [Ha1 ->].
    change (read_collect ch 0 n LIBSSH2_ERROR_EAGAIN s1 = Ret r s') in E.
    destruct (yields_collect (s_alloc s) ch n _ _ _ _ E Ha1) as [Ha2 _]. pose proof Hs as (Hok & Hcs & c & Hc & Hi).
    destruct (wp_Ret _ _ _ (read_widen_kept send_ok ch n s c Hcs Hc)) as (w' & s1' & Ew' & _ & Hk).
    rewrite Ew in Ew'. injection Ew' as <- <-.
    destruct (counters_open ch 0 LIBSSH2_CHANNEL_EXTENDED_DATA_NORMAL normal_ident s s1 Hs Hk) as ((Hok1 & Hcs1 & c1 & Hc1 & Hi1) & _ & Hu).
    destruct (wp_Ret _ _ _ (read_collect_ok ch 0 n LIBSSH2_ERROR_EAGAIN s1 c1 Hok1 Hc1 ltac:(lia))) as (r' & s2 & E' & Hr).
    rewrite E in E'. injection E' as <- <-. destruct Hi1 as (Hid & Hmode & _). simpl in Hid, Hmode.
    destruct Hr as (_ & Hb & Hst & _ & Hrc). rewrite Hid, Hmode in Hb, Hst.
    fold (normal_unread s1) in Hb, Hst. fold (normal_unread s') in Hst. rewrite Hu in Hb, Hst.
    assert (Hl : lenZ r.2 = n) by (rewrite Hb; unfold lenZ in *; rewrite length_take; lia).
    rewrite decide_False in Hrc by (intros Hz; rewrite Hz in Hl; unfold lenZ in Hl; simpl in Hl; lia). destruct Hrc as [Hrc _].
    split_and!; [destruct r; simpl in *; congruence|done..].
Qed.

(** A session whose channel has received [stream] in one packet, and an object. *)
Definition data_packet (stream : list Z) : list Z :=
  [SSH_MSG_CHANNEL_DATA; 0; 0; 0; 0] ++ htonu32 (lenZ stream) ++ stream.

Definition answered_session (stream : list Z) : session :=
  session_0 <| s_heap := {[ 2%positive := data_packet stream ]} |>
            <| s_chans := {[ 1%positive := sample_channel <| read_avail := lenZ stream |> ]} |>
            <| channels := [1%positive] |> <| s_next_ptr := 4%positive |>
            <| packets := [mk_packet 2%positive (9 + lenZ stream) 9] |>.

Definition one_object (f : publickey -> publickey) : pkey_data :=
  pkey_data_0 <| pkeys := {[ 3%positive := f ((publickey_0 1%positive) <| pub_version := 2 |>) ]} |>.

Definition listing : pkey_data := one_object (fun o => o <| listFetch_state := libssh2_NB_state_sent |>).

Definition sample_keys : list key :=
  [mk_key (str "ssh-rsa") [1; 2; 3] [(str "comment", str "me")]; mk_key (str "ssh-dss") [9] []].

Lemma answered_open stream : bytes_ok stream -> 0 < lenZ stream < 2 ^ 31 ->
  channel_open 1%positive normal_ident (answered_session stream).
Proof.
  intros Hb Hl. split_and!; [|split; [by left|done]|by eexists]. split; simpl; try done.
  - constructor; [|done]. rewrite lookup_singleton_eq. eauto.
  - apply map_Forall_singleton. repeat split; simpl; try done; lia.
  - apply map_Forall_singleton. apply Forall_app. split; [by apply (bool_decide_unpack _)|].
    apply Forall_app. split; [apply htonu32_bytes_ok|done].
  - constructor; [|done]. exists (data_packet stream). rewrite lookup_singleton_eq.
    assert (El : lenZ (data_packet stream) = 9 + lenZ stream) by (unfold data_packet; rewrite !lenZ_app, lenZ_htonu32; change (lenZ [SSH_MSG_CHANNEL_DATA; 0; 0; 0; 0]) with 5; lia).
    cbn [pk_data pk_data_len pk_data_head]. rewrite El. split; [done|lia].
  - by apply NoDup_singleton.
  - intros p Hp. apply lookup_singleton_ne. lia.
  - intros p Hp. apply lookup_singleton_ne. lia.
Qed.

Lemma list_fetch_complete_witness :
  exists l s' x', libssh2_publickey_list_fetch send_ok (ret LIBSSH2_ERROR_EAGAIN) 1 3 (Some 3%positive)
      (mk_ext (answered_session (answers 2 sample_keys [] [])) listing) = Ret (0, Some (2, l)) (mk_ext s' x') /\
    channel_open 1%positive normal_ident s' /\ normal_unread s' = [] /\ Forall2 (entry_holds s') (elements l) sample_keys.
Proof.
  apply (list_fetch_complete send_ok (ret LIBSSH2_ERROR_EAGAIN) 1 1%positive (channel_open 1%positive normal_ident) normal_unread
    3 3%positive ((publickey_0 1%positive) <| pub_version := 2 |> <| listFetch_state := libssh2_NB_state_sent |>)
    listing (answered_session (answers 2 sample_keys [] [])) 2 sample_keys [] [] []); try reflexivity.
  - apply answered_open; [by apply (bool_decide_unpack _); vm_compute|split; reflexivity].
  - repeat constructor; discriminate.
  - simpl. lia.
Defined.

(** *** Answers that are too short *)

Abbreviation quiet_read := (ret LIBSSH2_ERROR_EAGAIN).

(** eight bytes are asked of a status although its name alone takes ten: the status is
    read behind the packet. *)
Theorem status_overread :
  publickey_response_success send_ok quiet_read 1 2 3%positive
    (mk_ext (answered_session (framed (string_text (str "status")))) (one_object id)) = Fault.
Proof. vm_compute. reflexivity. Qed.

(** The last step of [publickey_init], with the object 3. *)
Definition starting : pkey_data :=
  (one_object id) <| pkeyInit_state := libssh2_NB_state_sent3 |> <| pkeyInit_pkey := Some 3%positive |>
                <| pkeyInit_channel := Some 1%positive |>.

(** the version is read without a test of the length. *)
Theorem version_overread :
  publickey_init send_ok quiet_read 1 2
    (mk_ext (answered_session (framed (string_text (str "version")))) starting) = Fault.
Proof. vm_compute. reflexivity. Qed.

(** *** Memory *)

(** the packet of the last answer is released by whoever asked for it and once more by
    [libssh2_publickey_shutdown]: a session that is started and ended is enough. *)
Theorem shutdown_frees_twice :
  (let! k := publickey_init send_ok quiet_read 1 2 in libssh2_publickey_shutdown send_ok quiet_read 1 k)
    (mk_ext (answered_session (framed (string_text (str "version") ++ htonu32 2))) starting) = Fault.
Proof. vm_compute. reflexivity. Qed.

(** when the first key is malformed, the array is freed up to a terminator that was never
    written. *)
Theorem first_key_malformed :
  libssh2_publickey_list_fetch send_ok quiet_read 1 2 (Some 3%positive)
    (mk_ext (answered_session (framed (string_text (str "publickey")))) listing) = Fault.
Proof. vm_compute. reflexivity. Qed.

(** *** Calls that would block *)

(** More data for the channel. *)
Definition arrive (stream : list Z) : PM unit := xlift (modify (fun s =>
  s <| s_heap ::= <[s_next_ptr s := data_packet stream]> |> <| s_next_ptr ::= Pos.succ |>
    <| packets ::= fun ps => ps ++ [mk_packet (s_next_ptr s) (9 + lenZ stream) 9] |>)).

(** the keys that were read before a call would block are lost, and their memory with
    them: the call that is repeated reports an empty list with success. *)
Theorem blocked_list_loses_keys :
  exists e, (let! r := libssh2_publickey_list_fetch send_ok quiet_read 1 3 (Some 3%positive) in
     arrive (framed (status_answer [] [])) ;;
     let! r2 := libssh2_publickey_list_fetch send_ok quiet_read 1 3 (Some 3%positive) in ret (r.1, r2))
    (mk_ext (answered_session (framed (key_answer 2 (mk_key (str "ssh-rsa") [1] [])))) listing) =
      Ret (LIBSSH2_ERROR_EAGAIN, (0, Some (0, None))) e /\
    s_heap (x_session e) !! 4%positive = Some (key_answer 2 (mk_key (str "ssh-rsa") [1] [])).
Proof. eexists. split; vm_compute; reflexivity. Qed.

(** an answer that arrives in two pieces ends the call with an error, and what follows is
    taken for the length of the next answer. *)
Theorem split_answer_fails :
  exists e, publickey_response_success send_ok quiet_read 1 2 3%positive
    (mk_ext (answered_session (htonu32 22 ++ string_text (str "status"))) (one_object id)) =
      Ret LIBSSH2_ERROR_SOCKET_TIMEOUT e /\ normal_unread (x_session e) = [].
Proof. eexists. split; vm_compute; reflexivity. Qed.

(** The channel with a window of [n] bytes for the client's data. *)
Definition narrow_session (n : Z) : session :=
  (answered_session []) <| packets := [] |> <| s_heap := ∅ |>
    <| s_chans := {[ 1%positive := sample_channel <| local ::= fun l => l <| cd_window_size := n |> |> ]} |>.

(** when the window takes a part of the message only, [libssh2_publickey_add_ex] fails
    with its state kept and the message released; the next call sends it. *)
Theorem add_short_write_faults :
  let add := libssh2_publickey_add_ex send_ok quiet_read 1 2 (Some 3%positive) (str "ssh-rsa") [1] false [] in
  match add (mk_ext (narrow_session 5) (one_object id)) with
  | Ret rc e => rc = LIBSSH2_ERROR_SOCKET_SEND /\ add e = Fault
  | _ => False
  end.
Proof. vm_compute. by split. Qed.

(** A transport that keeps what it is given. *)
Definition keep_send (d d2 : list Z) : CM Z := fun s => Ret 0 (s <| s_wire ::= fun w => w ++ d ++ d2 |>).

(** the rest of the version message is sent from its beginning again. *)
Theorem version_message_restarts :
  exists e, (let! r := init_send_version keep_send quiet_read 1 in
     xlift (modify (fun s => s <| s_chans ::= alter (fun c => c <| local ::= fun l => l <| cd_window_size := 100 |> |>) 1%positive |>)) ;;
     let! r2 := init_send_version keep_send quiet_read 1 in ret (r, r2))
    (mk_ext (narrow_session 12) (starting <| pkeyInit_buffer := version_message |>)) = Ret (InitNull, InitGo) e /\
    s_wire (x_session e) =
      [SSH_MSG_CHANNEL_DATA; 0; 0; 0; 7; 0; 0; 0; 12] ++ take 12 version_message ++
      [SSH_MSG_CHANNEL_DATA; 0; 0; 0; 7; 0; 0; 0; 7] ++ take 7 version_message.
Proof. eexists. split; vm_compute; reflexivity. Qed.
