(* ===== verification/Agent.v ===== *)
(** * The client of the key agent (agent.c)

    Requests to the agent and its answers go over a local socket of its own, framed by
    their length. The agents and their list nodes live in stores of the session's state
    ([agent_system]), requests, answers, blobs and comments in its heap. Modelled is the
    backend for Unix domain sockets; those for Windows are not. *)

From stdpp Require Import base numbers list gmap strings.
From S2P Require Import Prelude Codes CString KexMethods Wire Session ChannelWindow Packet Conn Comp Transport Kex Ext Blocking UserauthPk.

Definition SSH2_AGENTC_REQUEST_IDENTITIES : Z := 11.
Definition SSH2_AGENTC_SIGN_REQUEST : Z := 13.
Definition SSH2_AGENT_IDENTITIES_ANSWER : Z := 12.
Definition SSH2_AGENT_SIGN_RESPONSE : Z := 14.
Definition SSH_AGENT_RSA_SHA2_256 : Z := 2.
Definition SSH_AGENT_RSA_SHA2_512 : Z := 4.
Definition AGENT_PUBLICKEY_MAGIC : Z := 0x3bdefed2.
Definition LIBSSH2_INVALID_SOCKET : Z := -1.

(** ** The objects *)

Definition set_system (f : agent_system -> agent_system) : CM unit := modify (fun s => s <| s_agents ::= f |>).

Definition agent_at (a : ptr) : CM agent := let! y := gets s_agents in access (agents y !! a).

Definition set_agent (a : ptr) (f : agent -> agent) : CM unit :=
  let! g := agent_at a in set_system (fun y => y <| agents ::= <[a := f g]> |>).

Definition set_transctx (a : ptr) (f : agent_transaction_ctx -> agent_transaction_ctx) : CM unit :=
  set_agent a (fun g => g <| ag_transctx ::= f |>).

Definition set_tx_state (a : ptr) (st : agent_nonblocking_states) : CM unit :=
  set_transctx a (fun t => t <| tx_state := st |>).

(** An element of the list. *)
Definition node_at (a n : ptr) : CM agent_publickey := let! g := agent_at a in access (ag_nodes g !! n).

(** ** The socket *)

(** [session->send] on the agent's descriptor. *)
Definition agent_send (a : ptr) (bytes : list Z) : CM Z :=
  let! g := agent_at a in
  match ag_send g with
  | [] => set_agent a (fun g => g <| ag_wire ::= fun w => w ++ bytes |>) ;; ret (lenZ bytes)
  | r :: rest =>
      if r <? 0 then set_agent a (fun g => g <| ag_send := rest |>) ;; ret r
      else
        set_agent a (fun g => g <| ag_send := rest |> <| ag_wire ::= fun w => w ++ take (Z.to_nat r) bytes |>) ;;
        ret (Z.min r (lenZ bytes))
  end.

(** [session->recv]: 0 from the time on when the agent has closed the connection. *)
Definition agent_recv (a : ptr) (n : Z) : CM (Z + list Z) :=
  let! g := agent_at a in
  match ag_recv g with
  | [] => ret (inl (if ag_closed g then 0 else - EAGAIN))
  | RecvFail rc :: rest => set_agent a (fun g => g <| ag_recv := rest |>) ;; ret (inl rc)
  | RecvBytes bs :: rest =>
      let rest := if lenZ bs <=? n then rest else RecvBytes (drop (Z.to_nat n) bs) :: rest in
      set_agent a (fun g => g <| ag_recv := rest |>) ;; ret (inr (take (Z.to_nat n) bs))
  end.

(** [RECV_SEND_ALL]: [bytes] are those behind [finished]. Results are [int]s. Every round
    uses up an outcome of the socket, or ends the loop, unless the agent has closed the
    connection: then the loop that receives goes on for ever, and is out of fuel. *)
Fixpoint send_rounds (rounds : nat) (a : ptr) (bytes : list Z) (finished : Z) : CM Z :=
  match bytes with
  | [] => ret (s32 finished)
  | _ =>
      match rounds with
      | O => fun _ => OutOfFuel
      | S rounds =>
          let! rc := agent_send a bytes in
          let rc := s32 rc in
          if rc <? 0 then ret rc else send_rounds rounds a (drop (Z.to_nat rc) bytes) (finished + rc)
      end
  end.

Definition agent_send_all (a : ptr) (bytes : list Z) : CM Z :=
  let! g := agent_at a in send_rounds (S (length (ag_send g))) a bytes 0.

(** The bytes received, which are in the buffer also when the call fails. *)
Fixpoint agent_recv_rounds (rounds : nat) (a : ptr) (buffer : list Z) (length : Z) : CM (Z * list Z) :=
  if lenZ buffer <? length then
    match rounds with
    | O => fun _ => OutOfFuel
    | S rounds =>
        let! r := agent_recv a (length - lenZ buffer) in
        match r with
        | inl rc => if rc <? 0 then ret (rc, buffer) else agent_recv_rounds rounds a buffer length
        | inr bytes =>
            if s32 (lenZ bytes) <? 0 then ret (s32 (lenZ bytes), buffer ++ bytes)
            else agent_recv_rounds rounds a (buffer ++ bytes) length
        end
    end
  else ret (s32 (lenZ buffer), buffer).

Definition agent_recv_all (a : ptr) (length : Z) : CM (Z * list Z) :=
  let! g := agent_at a in agent_recv_rounds (S (List.length (ag_recv g))) a [] length.

(** ** One transaction *)

(** The bytes of the request: [live] says whether the local variable of the caller that
    made it is still there. *)
Definition request_bytes (live : bool) (t : agent_transaction_ctx) : CM (list Z) :=
  let! r := access (tx_request t) in
  match r with
  | RequestBlock p => block p
  | RequestLocal => if live then ret [SSH2_AGENTC_REQUEST_IDENTITIES] else fault
  end.

(** A stage of the transaction: [None] goes on. *)
Definition tx_stage (a : ptr) (st : agent_nonblocking_states) (m : agent_transaction_ctx -> CM (option Z)) : CM (option Z) :=
  let! g := agent_at a in
  if bool_decide (tx_state (ag_transctx g) = st) then m (ag_transctx g) else ret None.

Definition tx_then (m k : CM (option Z)) : CM (option Z) :=
  let! r := m in match r with Some rc => ret (Some rc) | None => k end.

Definition tx_fail (code : Z) (msg : string) : CM (option Z) := let! rc := error code msg in ret (Some rc).

Definition tx_send (a : ptr) (bytes : list Z) (next : agent_nonblocking_states) : CM (option Z) :=
  let! rc := agent_send_all a bytes in
  if rc =? - EAGAIN then ret (Some LIBSSH2_ERROR_EAGAIN)
  else if rc <? 0 then tx_fail LIBSSH2_ERROR_SOCKET_SEND "agent send failed"
  else set_tx_state a next ;; ret None.

Definition tx_request_length (a : ptr) (t : agent_transaction_ctx) : CM (option Z) :=
  tx_send a (htonu32 (u32 (tx_request_len t))) agent_NB_state_request_length_sent.

Definition tx_request_body (live : bool) (a : ptr) (t : agent_transaction_ctx) : CM (option Z) :=
  let! b := request_bytes live t in
  let! b := access (bytes_at b 0 (tx_request_len t)) in
  tx_send a b agent_NB_state_request_sent.

Definition tx_response_length (a : ptr) (t : agent_transaction_ctx) : CM (option Z) :=
  let! r := agent_recv_all a 4 in
  if r.1 <? 0 then
    if r.1 =? - EAGAIN then ret (Some LIBSSH2_ERROR_EAGAIN) else tx_fail LIBSSH2_ERROR_SOCKET_RECV "agent recv failed"
  else
    let! len := access (ntohu32 r.2 0) in
    let! p := alloc_block (replicate (Z.to_nat len) 0) in
    set_transctx a (fun t => t <| tx_response_len := len |> <| tx_response := p |>) ;;
    match p with
    | None => ret (Some LIBSSH2_ERROR_ALLOC)
    | Some _ => set_tx_state a agent_NB_state_response_length_received ;; ret None
    end.

Definition tx_response_body (a : ptr) (t : agent_transaction_ctx) : CM (option Z) :=
  let! p := access (tx_response t) in
  let! r := agent_recv_all a (tx_response_len t) in
  write_block p 0 r.2 ;;
  if r.1 <? 0 then
    if r.1 =? - EAGAIN then ret (Some LIBSSH2_ERROR_EAGAIN) else tx_fail LIBSSH2_ERROR_SOCKET_SEND "agent recv failed"
  else set_tx_state a agent_NB_state_response_received ;; ret None.

Definition agent_transact_unix (live : bool) (a : ptr) : CM Z :=
  let! r := tx_then (tx_stage a agent_NB_state_request_created (tx_request_length a)) (
            tx_then (tx_stage a agent_NB_state_request_length_sent (tx_request_body live a)) (
            tx_then (tx_stage a agent_NB_state_request_sent (tx_response_length a))
                    (tx_stage a agent_NB_state_response_length_received (tx_response_body a)))) in
  ret (default 0 r).

(** ** Connecting *)

(** The next answer of the system, 0 when there are no more. *)
Definition next_answer (get : agent_system -> list Z) (put : list Z -> agent_system -> agent_system) : CM Z :=
  let! y := gets s_agents in
  match get y with [] => ret 0 | r :: rest => set_system (put rest) ;; ret r end.

Definition system_call (c : agent_call) : CM unit := set_system (fun y => y <| sys_calls ::= fun cs => cs ++ [c] |>).

Definition system_close (fd : Z) : CM Z :=
  system_call (AgentClose fd) ;; next_answer sys_close (fun l y => y <| sys_close := l |>).

(** [strncpy] into [sun_path], which has 108 bytes, and its end. *)
Definition sun_path_of (path : list Z) : list Z := take 107 path.

Definition agent_connect_unix (a : ptr) : CM Z :=
  let! g := agent_at a in
  let! y := gets s_agents in
  let! path := (match ag_identity_path g with
                | Some p => let! b := block p in let! t := access (c_string b) in ret (Some t)
                | None => ret (env_auth_sock y)
                end) in
  match path with
  | None => error LIBSSH2_ERROR_BAD_USE "no auth sock variable"
  | Some path =>
      let! fd := next_answer sys_socket (fun l y => y <| sys_socket := l |>) in
      set_agent a (fun g => g <| ag_fd := fd |>) ;;
      if fd <? 0 then error LIBSSH2_ERROR_BAD_SOCKET "failed creating socket"
      else
        system_call (AgentConnect fd (sun_path_of path)) ;;
        let! rc := next_answer sys_connect (fun l y => y <| sys_connect := l |>) in
        if negb (rc =? 0) then
          let! _ := system_close fd in error LIBSSH2_ERROR_AGENT_PROTOCOL "failed connecting with agent"
        else ret LIBSSH2_ERROR_NONE
  end.

Definition agent_disconnect_unix (a : ptr) : CM Z :=
  let! g := agent_at a in
  let! r := system_close (ag_fd g) in
  if negb (r =? -1) then set_agent a (fun g => g <| ag_fd := LIBSSH2_INVALID_SOCKET |>) ;; ret LIBSSH2_ERROR_NONE
  else error LIBSSH2_ERROR_SOCKET_DISCONNECT "failed closing the agent socket".

(** ** Signing *)

(** The flags for the signature method of the session. *)
Definition sign_flags (method : option (list Z)) (method_len : Z) : option Z :=
  match method with
  | Some m =>
      if 0 <? method_len then
        if method_len =? 12 then
          name ← bytes_at m 0 12;
          Some (if bool_decide (name = str "rsa-sha2-512") then SSH_AGENT_RSA_SHA2_512
                else if bool_decide (name = str "rsa-sha2-256") then SSH_AGENT_RSA_SHA2_256 else 0)
        else Some 0
      else Some 0
  | None => Some 0
  end.

Definition sign_request (blob data : list Z) (flags : Z) : list Z :=
  store_u32 (store_str (store_str [SSH2_AGENTC_SIGN_REQUEST] blob) data) flags.

Definition sign_create (a : ptr) (method : option (list Z)) (method_len : Z) (k : agent_publickey) (data : list Z) :
    CM (option Z) :=
  let! b := block (ap_blob k) in
  let! blob := access (bytes_at b 0 (ap_blob_len k)) in
  let! flags := access (sign_flags method method_len) in
  let text := sign_request blob data flags in
  let! p := alloc_block text in
  set_transctx a (fun t => t <| tx_request := RequestBlock <$> p |>) ;;
  match p with
  | None => tx_fail LIBSSH2_ERROR_ALLOC "out of memory"
  | Some _ =>
      set_transctx a (fun t => t <| tx_request_len := lenZ text |> <| tx_state := agent_NB_state_request_created |>) ;;
      ret None
  end.

(** The signature of the answer, when it was made with the method of the session. *)
Definition sign_matches (method : option (list Z)) (method_len : Z) (name : list Z) : option bool :=
  if lenZ name =? method_len then m ← method; b ← bytes_at m 0 method_len; Some (bool_decide (name = b)) else Some false.

Definition sign_signature (d : list Z) (s len : Z) : CM (Z * list Z) :=
  let malformed := ret (LIBSSH2_ERROR_AGENT_PROTOCOL, []) in
  if len - 4 <? 0 then malformed
  else
    let! n := access (ntohu32 d s) in
    if len - 4 - n <? 0 then malformed
    else
      let! ok := alloc_outcome in
      if negb ok then ret (LIBSSH2_ERROR_ALLOC, [])
      else let! sig := access (bytes_at d (s + 4) n) in ret (0, sig).

Definition sign_parse (method : option (list Z)) (method_len : Z) (d : list Z) (len : Z) : CM (Z * list Z) :=
  let malformed := ret (LIBSSH2_ERROR_AGENT_PROTOCOL, []) in
  if len - 1 <? 0 then malformed
  else
    let! c := access (byte_at d 0) in
    if negb (c =? SSH2_AGENT_SIGN_RESPONSE) then malformed
    else if len - 5 <? 0 then malformed
    else if len - 9 <? 0 then malformed
    else
      let! n := access (ntohu32 d 5) in
      if len - 9 - n <? 0 then malformed
      else
        let! name := access (bytes_at d 9 n) in
        let! p := alloc_block name in
        match p with
        | None => ret (LIBSSH2_ERROR_ALLOC, [])
        | Some p =>
            let! same := access (sign_matches method method_len name) in
            let! r := (if (same : bool) then sign_signature d (9 + n) (len - 9 - n)
                       else ret (LIBSSH2_ERROR_ALGO_UNSUPPORTED, [])) in
            free_block p ;; ret r
        end.

(** The label [error]. *)
Definition free_request (a : ptr) : CM unit :=
  let! g := agent_at a in
  (match tx_request (ag_transctx g) with Some (RequestBlock p) => free_block p | Some RequestLocal => fault | None => ret tt end) ;;
  set_transctx a (fun t => t <| tx_request := None |>).

Definition free_response (a : ptr) : CM unit :=
  let! g := agent_at a in
  free_opt (tx_response (ag_transctx g)) ;; set_transctx a (fun t => t <| tx_response := None |>).

Definition sign_exit (a : ptr) (r : Z * list Z) : CM (Z * list Z) :=
  free_request a ;; free_response a ;; set_tx_state a agent_NB_state_init ;;
  let! rc := error r.1 "agent sign failure" in ret (rc, r.2).

Definition sign_transact (a : ptr) (method : option (list Z)) (method_len : Z) : CM (Z * list Z) :=
  let! g := agent_at a in
  let! b := request_bytes false (ag_transctx g) in
  let! c := access (byte_at b 0) in
  if negb (c =? SSH2_AGENTC_SIGN_REQUEST) then let! rc := error LIBSSH2_ERROR_BAD_USE "illegal request" in ret (rc, [])
  else if negb (ag_ops g) then let! rc := error LIBSSH2_ERROR_BAD_USE "agent not connected" in ret (rc, [])
  else
    let! rc := agent_transact_unix false a in
    if negb (rc =? 0) then sign_exit a (rc, [])
    else
      free_request a ;;
      let! g := agent_at a in
      let! p := access (tx_response (ag_transctx g)) in
      let! d := block p in
      let! r := sign_parse method method_len d (tx_response_len (ag_transctx g)) in
      sign_exit a r.

(** [method] and [method_len] are [session->userauth_pblc_method] and its length. *)
Definition agent_sign (a : ptr) (method : option (list Z)) (method_len : Z) (data : list Z) : CM (Z * list Z) :=
  let! g := agent_at a in
  let! n := access (ag_identity g) in
  let! k := node_at a n in
  let! r := tx_stage a agent_NB_state_init (fun _ => sign_create a method method_len k data) in
  match r with
  | Some rc => ret (rc, [])
  | None => sign_transact a method method_len
  end.

(** ** The identities *)

(** [_libssh2_list_add] of a new element. *)
Definition add_node (a : ptr) (k : agent_publickey) : CM unit :=
  let! n := gets s_next_ptr in
  modify (fun s => s <| s_next_ptr := Pos.succ n |>) ;;
  set_agent a (fun g => g <| ag_nodes ::= <[n := k]> |> <| ag_head ::= fun l => l ++ [n] |>).

(** One identity at [s] with [len] bytes left: an error, or the place behind it. The
    element is linked when it is complete; until then only the outcome of its allocation
    matters. *)
Definition list_comment (a : ptr) (d : list Z) (s len : Z) (blob : ptr) (blob_len : Z) : CM (Z + Z * Z) :=
  let malformed := free_block blob ;; ret (inl LIBSSH2_ERROR_AGENT_PROTOCOL) in
  if len - 4 <? 0 then malformed
  else
    let! n := access (ntohu32 d s) in
    if len - 4 <? n then malformed
    else
      let! text := access (bytes_at d (s + 4) n) in
      let! p := alloc_block (text ++ [0]) in
      match p with
      | None => free_block blob ;; ret (inl LIBSSH2_ERROR_ALLOC)
      | Some comment =>
          add_node a (mk_agent_publickey 0 None blob blob_len comment) ;;
          ret (inr (s + 4 + n, len - 4 - n))
      end.

Definition list_identity (a : ptr) (d : list Z) (s len : Z) : CM (Z + Z * Z) :=
  if len - 4 <? 0 then ret (inl LIBSSH2_ERROR_AGENT_PROTOCOL)
  else
    let! ok := alloc_outcome in
    if negb ok then ret (inl LIBSSH2_ERROR_ALLOC)
    else
      let! n := access (ntohu32 d s) in
      if len - 4 - n <? 0 then ret (inl LIBSSH2_ERROR_AGENT_PROTOCOL)
      else
        let! text := access (bytes_at d (s + 4) n) in
        let! p := alloc_block text in
        match p with
        | None => ret (inl LIBSSH2_ERROR_ALLOC)
        | Some blob => list_comment a d (s + 4 + n) (len - 4 - n) blob n
        end.

(** [while(num_identities--)]; every round takes bytes of the answer. *)
Fixpoint list_loop (rounds : nat) (a : ptr) (d : list Z) (num s len : Z) : CM Z :=
  if num =? 0 then ret 0
  else
    match rounds with
    | O => fun _ => OutOfFuel
    | S rounds =>
        let! r := list_identity a d s len in
        match r with
        | inl rc => ret rc
        | inr (s, len) => list_loop rounds a d (num - 1) s len
        end
    end.

Definition list_parse (a : ptr) (d : list Z) (len : Z) : CM Z :=
  if len - 1 <? 0 then ret LIBSSH2_ERROR_AGENT_PROTOCOL
  else
    let! c := access (byte_at d 0) in
    if negb (c =? SSH2_AGENT_IDENTITIES_ANSWER) then ret LIBSSH2_ERROR_AGENT_PROTOCOL
    else if len - 5 <? 0 then ret LIBSSH2_ERROR_AGENT_PROTOCOL
    else let! num := access (ntohu32 d 1) in list_loop (S (length d)) a d num 5 (len - 5).

Definition list_create (a : ptr) : CM (option Z) :=
  set_transctx a (fun t => t <| tx_request := Some RequestLocal |> <| tx_request_len := 1 |>
                             <| tx_state := agent_NB_state_request_created |>) ;;
  ret None.

(** The local variable is that of this call when it creates the request. *)
Definition agent_list_identities (a : ptr) : CM Z :=
  let! g := agent_at a in
  let live := bool_decide (tx_state (ag_transctx g) = agent_NB_state_init) in
  let! _ := tx_stage a agent_NB_state_init (fun _ => list_create a) in
  let! g := agent_at a in
  let! b := request_bytes live (ag_transctx g) in
  let! c := access (byte_at b 0) in
  if negb (c =? SSH2_AGENTC_REQUEST_IDENTITIES) then error LIBSSH2_ERROR_BAD_USE "illegal agent request"
  else if negb (ag_ops g) then error LIBSSH2_ERROR_BAD_USE "agent not connected"
  else
    let! rc := agent_transact_unix live a in
    if negb (rc =? 0) then free_response a ;; ret rc
    else
      set_transctx a (fun t => t <| tx_request := None |>) ;;
      let! g := agent_at a in
      let! p := access (tx_response (ag_transctx g)) in
      let! d := block p in
      let! rc := list_parse a d (tx_response_len (ag_transctx g)) in
      free_response a ;; error rc "agent list id failed".

Fixpoint free_nodes (a : ptr) (l : list ptr) : CM unit :=
  match l with
  | [] => ret tt
  | n :: l =>
      let! k := node_at a n in
      free_block (ap_blob k) ;; free_block (ap_comment k) ;;
      set_agent a (fun g => g <| ag_nodes ::= delete n |>) ;; free_nodes a l
  end.

Definition agent_free_identities (a : ptr) : CM unit :=
  let! g := agent_at a in free_nodes a (ag_head g) ;; set_agent a (fun g => g <| ag_head := [] |>).

(** ** The public functions *)

Definition agent_0 : agent :=
  mk_agent LIBSSH2_INVALID_SOCKET false transctx_0 None [] None ∅ [] [] false [].

Definition libssh2_agent_init : CM (option ptr) :=
  let! ok := alloc_outcome in
  if negb ok then let! _ := error LIBSSH2_ERROR_ALLOC "Unable to allocate space for agent connection" in ret None
  else
    let! a := gets s_next_ptr in
    modify (fun s => s <| s_next_ptr := Pos.succ a |>) ;;
    set_system (fun y => y <| agents ::= <[a := agent_0]> |>) ;; ret (Some a).

(** [supported_backends] has one element on Unix. *)
Definition libssh2_agent_connect (a : ptr) : CM Z :=
  set_agent a (fun g => g <| ag_ops := true |>) ;; agent_connect_unix a.

Definition libssh2_agent_list_identities (a : ptr) : CM Z :=
  set_transctx a (fun _ => transctx_0) ;; agent_free_identities a ;; agent_list_identities a.

Definition agent_publickey_to_external (a n : ptr) : CM ptr :=
  let! k := node_at a n in
  set_agent a (fun g => g <| ag_nodes ::= <[n := k <| ap_magic := AGENT_PUBLICKEY_MAGIC |> <| ap_node := Some n |>]> |>) ;;
  ret n.

(** [_libssh2_list_next]. *)
Fixpoint next_node (n : ptr) (l : list ptr) : option ptr :=
  match l with
  | [] => None
  | m :: l => if Pos.eqb m n then head l else next_node n l
  end.

(** An identity that the application holds is the address of its element. *)
Definition libssh2_agent_get_identity (a : ptr) (oprev : option ptr) : CM (Z * option ptr) :=
  let! g := agent_at a in
  let! prev := (match oprev with Some e => let! k := node_at a e in ret (ap_node k) | None => ret None end) in
  let! node := (match prev with
                | Some p => let! _ := node_at a p in ret (next_node p (ag_head g))
                | None => ret (head (ag_head g))
                end) in
  match node with
  | None => ret (1, None)
  | Some n => let! e := agent_publickey_to_external a n in ret (0, Some e)
  end.

Section Userauth.
Context (transport_send : list Z -> list Z -> CM Z) (transport_read : CM Z) (fuel : nat).
Context (supported_key_sign_algorithms : list Z -> option (list Z)).

Definition agent_sign_callback (a : ptr) (data : list Z) : XM pblc_data (Z * list Z) :=
  let! x := xget id in xlift (agent_sign a (userauth_pblc_method x) (userauth_pblc_method_len x) data).

Definition libssh2_agent_userauth (a : ptr) (username : list Z) (identity : ptr) : XM pblc_data Z :=
  let! st := xget userauth_pblc_state in
  (if nb_is st libssh2_NB_state_idle then
     let! k := xlift (node_at a identity) in
     xlift (set_agent a (fun g => g <| ag_transctx := transctx_0 |> <| ag_identity := ap_node k |>))
   else ret tt) ;;
  let! k := xlift (node_at a identity) in
  let! b := xlift (block (ap_blob k)) in
  let! blob := access (bytes_at b 0 (ap_blob_len k)) in
  block_adjust (fun _ => xlift) transport_send
    (userauth_publickey transport_send transport_read fuel supported_key_sign_algorithms username blob (agent_sign_callback a)) fuel.
End Userauth.

Definition libssh2_agent_disconnect (a : ptr) : CM Z :=
  let! g := agent_at a in
  if ag_ops g && negb (ag_fd g =? LIBSSH2_INVALID_SOCKET) then agent_disconnect_unix a else ret 0.

Definition libssh2_agent_free (a : ptr) : CM unit :=
  let! g := agent_at a in
  (if negb (ag_fd g =? LIBSSH2_INVALID_SOCKET) then let! _ := libssh2_agent_disconnect a in ret tt else ret tt) ;;
  free_opt (ag_identity_path g) ;;
  agent_free_identities a ;;
  set_system (fun y => y <| agents ::= delete a |>).

(** A failed allocation is not noticed. *)
Definition libssh2_agent_set_identity_path (a : ptr) (path : option (list Z)) : CM unit :=
  let! g := agent_at a in
  (match ag_identity_path g with
   | Some p => free_block p ;; set_agent a (fun g => g <| ag_identity_path := None |>)
   | None => ret tt
   end) ;;
  match path with
  | None => ret tt
  | Some path =>
      if lenZ path <? 2 ^ 64 - 2 then
        let! p := alloc_block (path ++ [0]) in
        let! p := access p in
        set_agent a (fun g => g <| ag_identity_path := Some p |>)
      else ret tt
  end.

Definition libssh2_agent_get_identity_path (a : ptr) : CM (option ptr) := let! g := agent_at a in ret (ag_identity_path g).
