(* ===== verification/AgentSpec.v ===== *)
(** * Memory and answers of the agent client

    [agent_mem] says what an agent and the heap hold, block by block: the elements of the
    list with their blobs and comments, and the other blocks [F]. Every operation of
    agent.c is followed through it, for whatever the agent's socket delivers. *)

From stdpp Require Import base numbers list gmap strings.
From S2P Require Import Prelude Codes CString KexMethods Wire Session ChannelWindow Packet Conn Comp PacketSafety Transport TransportReceive Kex Ext Blocking UserauthPk Agent.

(** ** Finite maps as lists of their entries *)

Definition assoc_is {A} (B : list (ptr * A)) (h : gmap ptr A) : Prop := NoDup B.*1 /\ h = list_to_map B.

Section Assoc.
Context {A : Type}.
Implicit Types (B : list (ptr * A)) (h : gmap ptr A).

#[global] Instance assoc_is_perm : Proper (Permutation ==> eq ==> iff) (@assoc_is A).
Proof.
  assert (H : forall B B' h, B ≡ₚ B' -> assoc_is B h -> assoc_is B' h).
  { intros B B' h Hp [Hn ->]. split; [by rewrite <- Hp|]. by apply list_to_map_proper. }
  intros B B' Hp h _ <-. split; by apply H.
Qed.

Lemma assoc_head p c B h : assoc_is ((p, c) :: B) h -> h !! p = Some c.
Proof. intros [_ ->]. apply lookup_insert_eq. Qed.

Lemma assoc_elem p c B h : assoc_is B h -> (p, c) ∈ B -> h !! p = Some c.
Proof. intros [Hn ->]. by apply elem_of_list_to_map_1. Qed.

Lemma assoc_lookup p c B h : assoc_is B h -> h !! p = Some c -> (p, c) ∈ B.
Proof. intros [Hn ->]. apply elem_of_list_to_map_2. Qed.

Lemma assoc_alloc p c B h : h !! p = None -> assoc_is B h -> assoc_is ((p, c) :: B) (<[p := c]> h).
Proof. intros Hp [Hn ->]. split; [|done]. cbn. apply NoDup_cons. split; [by apply not_elem_of_list_to_map|done]. Qed.

Lemma assoc_free p c B h : assoc_is ((p, c) :: B) h -> assoc_is B (delete p h).
Proof.
  intros [[Hp Hn]%NoDup_cons ->]. split; [done|]. cbn. apply delete_insert_id. by apply not_elem_of_list_to_map.
Qed.

Lemma assoc_write p c c' B h : assoc_is ((p, c) :: B) h -> assoc_is ((p, c') :: B) (<[p := c']> h).
Proof. intros [Hn ->]. split; [done|]. cbn. by rewrite insert_insert_eq. Qed.
End Assoc.

(** ** What an agent holds *)

(** An element of the list with the contents of its blocks. *)
Record entry := mk_entry { en_key : agent_publickey; en_blob : list Z; en_comment : list Z }.

Definition entry_blocks (x : ptr * entry) : list (ptr * list Z) :=
  [(ap_blob (en_key x.2), en_blob x.2); (ap_comment (en_key x.2), en_comment x.2 ++ [0])].

Definition outcome_ok (r : recv_outcome) : Prop := match r with RecvBytes bs => bytes_ok bs | RecvFail _ => True end.
#[global] Instance outcome_ok_dec r : Decision (outcome_ok r).
Proof. destruct r; apply _. Defined.

(** What the agent still sends are bytes. Without [sure] it keeps the connection open; with
    [sure], when its answers are known to be there, it may close it behind them. *)
Definition stream_ok (sure : bool) (g : agent) : Prop :=
  Forall outcome_ok (ag_recv g) /\ (sure = false -> ag_closed g = false).

(** The elements [l] are those of the agent and the heap is made of their blocks and [F];
    with [sure] no allocation fails. *)
Record agent_mem (sure : bool) (l : list (ptr * entry)) (F : list (ptr * list Z)) (a : ptr) (g : agent) (s : session) : Prop := {
  am_agent : agents (s_agents s) !! a = Some g;
  am_nodes : assoc_is ((fun x => (x.1, en_key x.2)) <$> l) (ag_nodes g);
  am_lens : Forall (fun x => ap_blob_len (en_key x.2) = lenZ (en_blob x.2) /\ lenZ (en_blob x.2) < 2 ^ 31) l;
  am_heap : assoc_is ((l ≫= entry_blocks) ++ F) (s_heap s);
  am_fresh : forall p, (s_next_ptr s <= p)%positive -> s_heap s !! p = None /\ ag_nodes g !! p = None;
  am_recv : stream_ok sure g;
  am_alloc : sure = true -> forallb id (s_alloc s) = true
}.

(** Agents that differ in their requests and their socket. *)
Definition io_only (g g' : agent) : Prop :=
  g' = g <| ag_fd := ag_fd g' |> <| ag_ops := ag_ops g' |> <| ag_transctx := ag_transctx g' |>
         <| ag_identity := ag_identity g' |> <| ag_send := ag_send g' |> <| ag_recv := ag_recv g' |> <| ag_wire := ag_wire g' |>.

Definition put_agent (a : ptr) (g : agent) (s : session) : session :=
  s <| s_agents ::= fun y => y <| agents ::= <[a := g]> |> |>.

Section Rules.
Context (sure : bool) (a : ptr).

Lemma mem_perm l l' F F' g s : l ≡ₚ l' -> F ≡ₚ F' -> agent_mem sure l F a g s -> agent_mem sure l' F' a g s.
Proof. intros Hl HF [H1 H2 H3 H4 H5 H6 H7]. split; try done; by rewrite <- ?Hl, <- ?HF. Qed.

Lemma mem_same l F g s s' :
  s_agents s' = s_agents s -> s_heap s' = s_heap s -> s_next_ptr s' = s_next_ptr s -> s_alloc s' = s_alloc s ->
  agent_mem sure l F a g s -> agent_mem sure l F a g s'.
Proof. intros E1 E2 E3 E4 [H1 H2 H3 H4 H5 H6 H7]. split; by rewrite ?E1, ?E2, ?E3, ?E4. Qed.

Lemma mem_put l F g g' s : ag_nodes g' = ag_nodes g -> stream_ok sure g' ->
  agent_mem sure l F a g s -> agent_mem sure l F a g' (put_agent a g' s).
Proof. intros E1 E2 [H1 H2 H3 H4 H5 H6 H7]. split; try done; [apply lookup_insert_eq|by rewrite E1..]. Qed.

Lemma wp_agent_at (Q : agent -> session -> Prop) l F g s : agent_mem sure l F a g s -> Q g s -> wp (agent_at a) Q s.
Proof. intros H HQ. unfold agent_at. wp_step. wp_step. eapply wp_access; [apply (am_agent _ _ _ _ _ _ H)|done]. Qed.

Lemma wp_set_agent f (Q : unit -> session -> Prop) l F g s :
  agent_mem sure l F a g s -> Q tt (put_agent a (f g) s) -> wp (set_agent a f) Q s.
Proof. intros H HQ. unfold set_agent, set_system. wp_step. eapply wp_agent_at; [exact H|]. by wp_step. Qed.

(** The usual case: fields that do not own blocks. *)
Lemma wp_set_io f (Q : unit -> session -> Prop) l F g s :
  agent_mem sure l F a g s -> ag_nodes (f g) = ag_nodes g -> stream_ok sure (f g) ->
  (forall s', agent_mem sure l F a (f g) s' -> Q tt s') -> wp (set_agent a f) Q s.
Proof. intros H E1 E2 HQ. eapply wp_set_agent; [exact H|]. apply HQ. by eapply mem_put. Qed.

Lemma wp_set_transctx f (Q : unit -> session -> Prop) l F g s :
  agent_mem sure l F a g s ->
  (forall s', agent_mem sure l F a (g <| ag_transctx ::= f |>) s' -> Q tt s') -> wp (set_transctx a f) Q s.
Proof. intros H HQ. eapply wp_set_io; [exact H|done|apply (am_recv _ _ _ _ _ _ H)|exact HQ]. Qed.

Lemma mem_alloc_any l F g s al : (sure = true -> forallb id al = true) ->
  agent_mem sure l F a g s -> agent_mem sure l F a g (s <| s_alloc := al |>).
Proof. intros E [H1 H2 H3 H4 H5 H6 H7]. by split. Qed.

Lemma wp_outcome_mem (Q : bool -> session -> Prop) l F g s : agent_mem sure l F a g s ->
  (forall b s', agent_mem sure l F a g s' -> (sure = true -> b = true) -> Q b s') -> wp alloc_outcome Q s.
Proof.
  intros H HQ. unfold wp, alloc_outcome. pose proof (am_alloc _ _ _ _ _ _ H) as Ha. destruct (s_alloc s) as [|b al] eqn:E; [by apply HQ|].
  apply HQ; [|intros Hs; specialize (Ha Hs); simpl in Ha; by destruct b].
  apply mem_alloc_any; [|done]. intros Hs. specialize (Ha Hs). simpl in Ha. by destruct b.
Qed.

Lemma wp_alloc_mem c (Q : option ptr -> session -> Prop) l F g s : agent_mem sure l F a g s ->
  (forall s', agent_mem sure l F a g s' -> sure = false -> Q None s') ->
  (forall p s', agent_mem sure l ((p, c) :: F) a g s' -> Q (Some p) s') -> wp (alloc_block c) Q s.
Proof.
  intros H Hn Hs. unfold alloc_block. wp_step. eapply wp_outcome_mem; [exact H|]. intros [] s1 H1 Hb.
  - do 4 wp_step. apply Hs. destruct H1 as [I1 I2 I3 I4 I5 I6 I7]. split; try done.
    + simpl. rewrite <- Permutation_middle. apply assoc_alloc; [by apply I5|done].
    + simpl. intros q Hq. rewrite lookup_insert_ne by lia. apply I5. lia.
  - wp_step. apply Hn; [done|]. by destruct sure; [specialize (Hb eq_refl)|].
Qed.

Lemma wp_free_mem p c (Q : unit -> session -> Prop) l F g s : agent_mem sure l ((p, c) :: F) a g s ->
  (forall s', agent_mem sure l F a g s' -> Q tt s') -> wp (free_block p) Q s.
Proof.
  intros [I1 I2 I3 I4 I5 I6 I7] HQ. rewrite <- Permutation_middle in I4. eapply wp_free_block; [by eapply assoc_head|].
  apply HQ. split; try done.
  - by eapply assoc_free.
  - simpl. intros q Hq. destruct (I5 q Hq) as [E ?]. split; [|done]. by rewrite lookup_delete_None; right.
Qed.

Lemma wp_write_mem p off bytes c (Q : unit -> session -> Prop) l F g s : agent_mem sure l ((p, c) :: F) a g s ->
  0 <= off -> off + lenZ bytes <= lenZ c ->
  (forall s', agent_mem sure l ((p, take (Z.to_nat off) c ++ bytes ++ drop (Z.to_nat (off + lenZ bytes)) c) :: F) a g s' -> Q tt s') ->
  wp (write_block p off bytes) Q s.
Proof.
  intros [I1 I2 I3 I4 I5 I6 I7] H0 Hl HQ. rewrite <- Permutation_middle in I4. pose proof (assoc_head _ _ _ _ I4) as Hp.
  eapply wp_write_block; [done..|]. apply HQ. split; try done.
  - rewrite <- Permutation_middle. by eapply assoc_write.
  - simpl. intros q Hq. destruct (I5 q Hq) as [E ?]. split; [|done].
    rewrite lookup_insert_ne; [done|]. intros <-. by rewrite Hp in E.
Qed.

Lemma wp_block_mem p c (Q : list Z -> session -> Prop) l F g s : agent_mem sure l F a g s -> (p, c) ∈ F -> Q c s -> wp (block p) Q s.
Proof.
  intros H Hp HQ. eapply wp_block; [|done]. eapply assoc_elem; [apply (am_heap _ _ _ _ _ _ H)|]. apply elem_of_app. by right.
Qed.

Lemma wp_error_agent code msg (Q : Z -> session -> Prop) l F g s : agent_mem sure l F a g s ->
  (forall s', agent_mem sure l F a g s' -> Q code s') -> wp (error code msg) Q s.
Proof. intros H HQ. unfold wp, error, error_flags. simpl. apply HQ. by eapply mem_same; [..|exact H]. Qed.
End Rules.

(** ** The socket *)

Lemma s32_neg v : 2 ^ 31 <= v < 2 ^ 32 -> s32 v < 0.
Proof. intros H. unfold s32. rewrite u32_small by lia. destruct (Z.leb_spec (2 ^ 31) v); lia. Qed.

(** A socket on which everything goes through, in whatever pieces. *)
Definition takes (r : Z) : Prop := 0 <= r.
Definition flows (r : recv_outcome) : Prop := match r with RecvBytes _ => True | RecvFail rc => rc = 0 end.

Definition sent (g g' : agent) : Prop :=
  g' = g <| ag_send := ag_send g' |> <| ag_wire := ag_wire g' |>.

Definition received (g g' : agent) : Prop := g' = g <| ag_recv := ag_recv g' |>.

(** What [agent_recv_all] returns: the buffer is not overrun, and full after success; and
    when everything goes through, it has the next bytes of the stream. *)
Definition got (buffer : list Z) (len : Z) (g g' : agent) (r : Z * list Z) : Prop :=
  received g g' /\ bytes_ok r.2 /\ lenZ r.2 <= len /\ (0 <= r.1 -> lenZ r.2 = len /\ len < 2 ^ 31) /\
  (Forall flows (ag_recv g) -> len < 2 ^ 31 -> len <= lenZ (buffer ++ recv_bytes (ag_recv g)) ->
   r.1 = len /\ r.2 ++ recv_bytes (ag_recv g') = buffer ++ recv_bytes (ag_recv g) /\ Forall flows (ag_recv g')).

Section Socket.
Context (sure : bool) (a : ptr).

Lemma wp_send_rounds l F rounds : forall bytes finished g s, agent_mem sure l F a g s ->
  (length (ag_send g) < rounds)%nat \/ bytes = [] -> lenZ bytes < 2 ^ 32 ->
  wp (send_rounds rounds a bytes finished) (fun rc s' => exists g', agent_mem sure l F a g' s' /\ sent g g' /\
    (Forall takes (ag_send g) -> 0 <= finished -> finished + lenZ bytes < 2 ^ 31 ->
     rc = finished + lenZ bytes /\ ag_wire g' = ag_wire g ++ bytes /\ Forall takes (ag_send g'))) s.
Proof.
  assert (Hnil : forall rounds finished g s, agent_mem sure l F a g s ->
    wp (send_rounds rounds a [] finished) (fun rc s' => exists g', agent_mem sure l F a g' s' /\ sent g g' /\
      (Forall takes (ag_send g) -> 0 <= finished -> finished + lenZ (A := Z) [] < 2 ^ 31 ->
       rc = finished + lenZ (A := Z) [] /\ ag_wire g' = ag_wire g ++ [] /\ Forall takes (ag_send g'))) s).
  { intros [] finished g s Hm; simpl; wp_step; exists g; (split_and!; [done|by destruct g|]); change (lenZ []) with 0;
      intros Ht ? ?; rewrite app_nil_r, s32_nonneg by lia; (split_and!; [lia|done|done]). }
  induction rounds as [|rounds IH]; intros bytes finished g s Hm Hr Hb.
  { destruct Hr as [?| ->]; [lia|by apply Hnil]. }
  destruct bytes as [|b bs]; [by apply Hnil|]. destruct Hr as [Hr|]; [|done].
  remember (b :: bs) as bytes eqn:Eb. cbn [send_rounds]. rewrite Eb, <- Eb. clear Eb. unfold agent_send. do 2 wp_step.
  eapply wp_agent_at; [exact Hm|]. pose proof (lenZ_nonneg bytes). pose proof (am_recv _ _ _ _ _ _ Hm) as Hrecv.
  destruct (ag_send g) as [|r rest] eqn:Es.
  - wp_step. eapply wp_set_io; [exact Hm|done..|]. intros s1 H1. wp_step.
    destruct (Z_lt_dec (lenZ bytes) (2 ^ 31)) as [Hsmall|Hbig].
    2: { pose proof (s32_neg (lenZ bytes)). wp_step; breflect; [|lia]. wp_step. eexists. split_and!; [exact H1|done|lia]. }
    rewrite s32_nonneg by lia. wp_step; breflect; [lia|].
    assert (Ed : drop (Z.to_nat (lenZ bytes)) bytes = []) by (unfold lenZ; by rewrite Nat2Z.id, drop_all). rewrite Ed.
    eapply wp_mono; [apply (Hnil _ _ _ _ H1)|]. intros rc s2 (g2 & H2 & E2 & H3). exists g2. split_and!; [done|by rewrite E2|].
    cbn in H3. change (lenZ []) with 0 in H3. intros _ ? ?. destruct H3 as (-> & -> & H3); [by rewrite Es|lia..|].
    split_and!; [lia|by rewrite app_nil_r|done].
  - assert (Hrest : forall g1 rc s1, agent_mem sure l F a g1 s1 -> g1 = g <| ag_send := rest |> <| ag_wire := ag_wire g1 |> ->
      wp (if s32 rc <? 0 then ret (s32 rc) else send_rounds rounds a (drop (Z.to_nat (s32 rc)) bytes) (finished + s32 rc))
        (fun rc' s' => exists g', agent_mem sure l F a g' s' /\ sent g g' /\
          (Forall takes rest -> 0 <= rc <= lenZ bytes -> 0 <= finished -> finished + lenZ bytes < 2 ^ 31 ->
           rc' = finished + lenZ bytes /\ ag_wire g' = ag_wire g1 ++ drop (Z.to_nat rc) bytes /\ Forall takes (ag_send g'))) s1).
    { intros g1 rc s1 H1 E1. wp_step; breflect.
      - wp_step. exists g1. split_and!; [done|by rewrite E1|]. intros _ ? ? ?. rewrite s32_nonneg in E by lia. lia.
      - eapply wp_mono; [apply (IH _ _ _ _ H1)|].
        + left. rewrite E1. simpl. simpl in Hr. lia.
        + unfold lenZ. rewrite length_drop. unfold lenZ in Hb. lia.
        + intros rc' s' (g' & H2 & E2 & H3). exists g'. split_and!; [done|by rewrite E2, E1|].
          intros Ht ? ? ?. rewrite s32_nonneg in * by lia.
          assert (El : lenZ (drop (Z.to_nat rc) bytes) = lenZ bytes - rc) by (unfold lenZ in *; rewrite length_drop; lia).
          rewrite El in H3. destruct H3 as (-> & Hw & Hs); [by rewrite E1|lia|lia|]. split_and!; [lia|done|done]. }
    wp_step.
    + wp_step. eapply wp_set_io; [exact Hm|done..|]. intros s1 H1. wp_step.
      eapply wp_mono; [by apply (Hrest _ r s1 H1)|]. intros rc s' (g' & H2 & H3 & _). exists g'. split_and!; [done..|].
      intros Ht. breflect. inversion_clear Ht. unfold takes in *. lia.
    + wp_step. eapply wp_set_io; [exact Hm|done..|]. intros s1 H1. wp_step. breflect.
      eapply wp_mono; [by apply (Hrest _ (Z.min r (lenZ bytes)) s1 H1)|]. intros rc s' (g' & H2 & H3 & H4). exists g'. split_and!; [done..|].
      intros Ht ? ?. inversion_clear Ht. destruct H4 as (-> & -> & Hs); [done|lia..|]. split_and!; [done| |done]. simpl.
      rewrite <- app_assoc. f_equal. destruct (Z.le_ge_cases r (lenZ bytes)).
      * rewrite Z.min_l by done. apply take_drop.
      * rewrite Z.min_r by lia. unfold lenZ in *. rewrite Nat2Z.id, drop_all, take_ge by lia. apply app_nil_r.
Qed.

Lemma wp_send_all l F bytes g s : agent_mem sure l F a g s -> lenZ bytes < 2 ^ 32 ->
  wp (agent_send_all a bytes) (fun rc s' => exists g', agent_mem sure l F a g' s' /\ sent g g' /\
    (Forall takes (ag_send g) -> lenZ bytes < 2 ^ 31 -> rc = lenZ bytes /\ ag_wire g' = ag_wire g ++ bytes /\ Forall takes (ag_send g'))) s.
Proof.
  intros Hm Hb. unfold agent_send_all. wp_step. eapply wp_agent_at; [exact Hm|].
  eapply wp_mono; [apply wp_send_rounds; [exact Hm|left; lia|done]|]. intros rc s' (g' & H1 & H2 & H3). exists g'. split_and!; [done..|].
  intros Ht Hl. by apply H3.
Qed.

(** One call of the socket: bytes of the stream that fit, or a code. *)
Lemma wp_recv l F n g s : agent_mem sure l F a g s -> 0 <= n -> (sure = true -> ag_recv g <> []) ->
  wp (agent_recv a n) (fun r s' => exists g', agent_mem sure l F a g' s' /\ received g g' /\
    match r with
    | inl rc => (ag_recv g = [] /\ rc = - EAGAIN \/ (length (ag_recv g') < length (ag_recv g))%nat) /\
        (Forall flows (ag_recv g) -> ag_recv g <> [] -> rc = 0 /\ recv_bytes (ag_recv g') = recv_bytes (ag_recv g) /\ Forall flows (ag_recv g'))
    | inr bytes => bytes_ok bytes /\ lenZ bytes <= n /\ ((length (ag_recv g') < length (ag_recv g))%nat \/ lenZ bytes = n) /\
        bytes ++ recv_bytes (ag_recv g') = recv_bytes (ag_recv g) /\ (Forall flows (ag_recv g) -> Forall flows (ag_recv g'))
    end) s.
Proof.
  intros Hm Hn Hmore. unfold agent_recv. wp_step. eapply wp_agent_at; [exact Hm|]. pose proof (am_recv _ _ _ _ _ _ Hm) as [Hr Hopen].
  destruct (ag_recv g) as [|[bs|rc] rest] eqn:Er.
  - rewrite Hopen by (by destruct sure; [destruct (Hmore eq_refl)|]). wp_step. exists g. rewrite Er. split_and!; [done|by destruct g|by left|done].
  - inversion_clear Hr as [|? ? Hbs Hrest]. simpl in Hbs. wp_step.
    eapply wp_set_io; [exact Hm|done| |]. { split; [|done]. simpl. destruct (_ <=? _); [done|]. constructor; [by apply Forall_drop|done]. }
    intros s1 H1. wp_step. eexists. split; [exact H1|]. cbn. pose proof (lenZ_nonneg bs). split_and!; [done|by apply Forall_take|unfold lenZ; rewrite length_take; lia| | |].
    + destruct (Z.leb_spec (lenZ bs) n); [left; simpl; lia|right]. unfold lenZ in *. rewrite length_take. lia.
    + unfold recv_bytes. destruct (Z.leb_spec (lenZ bs) n); simpl.
      * rewrite take_ge; [done|]. unfold lenZ in *. lia.
      * by rewrite app_assoc, take_drop.
    + intros Hfl. inversion_clear Hfl. destruct (_ <=? _); [done|by constructor].
  - inversion_clear Hr. wp_step. eapply wp_set_io; [exact Hm|done..|]. intros s1 H1. wp_step. eexists. split; [exact H1|]. cbn.
    split_and!; [done|right; simpl; lia|]. intros Hfl _. inversion_clear Hfl. by split_and!.
Qed.

Lemma wp_recv_rounds l F rounds : forall buffer len g s, agent_mem sure l F a g s -> 0 <= len < 2 ^ 32 -> bytes_ok buffer ->
  lenZ buffer <= len -> (length (ag_recv g) < rounds)%nat \/ len = lenZ buffer ->
  (sure = true -> Forall flows (ag_recv g) /\ len <= lenZ (buffer ++ recv_bytes (ag_recv g))) ->
  wp (agent_recv_rounds rounds a buffer len) (fun r s' => exists g', agent_mem sure l F a g' s' /\ got buffer len g g' r) s.
Proof.
  assert (Hfull : forall rounds buffer g s, agent_mem sure l F a g s -> bytes_ok buffer -> lenZ buffer < 2 ^ 32 ->
    wp (agent_recv_rounds rounds a buffer (lenZ buffer)) (fun r s' => exists g', agent_mem sure l F a g' s' /\ got buffer (lenZ buffer) g g' r) s).
  { intros n buffer g s Hm Hb Hl. pose proof (lenZ_nonneg buffer).
    assert (E : agent_recv_rounds n a buffer (lenZ buffer) = ret (s32 (lenZ buffer), buffer)) by (destruct n; simpl; by rewrite Z.ltb_irrefl).
    rewrite E. wp_step. exists g. split; [done|]. split_and!; [by destruct g|done|simpl; lia| |].
    { simpl. intros Hrc. split; [done|]. destruct (Z_lt_dec (lenZ buffer) (2 ^ 31)); [done|]. pose proof (s32_neg (lenZ buffer)). lia. }
    intros Hfl ? ?. split_and!; [by rewrite s32_nonneg by lia|done|done]. }
  induction rounds as [|rounds IH]; intros buffer len g s Hm Hlen Hb Hle Hr Hsure.
  { destruct Hr as [?| ->]; [lia|apply Hfull; [done..|lia]]. }
  destruct (Z.eq_dec len (lenZ buffer)) as [-> | Hne]; [apply Hfull; [done..|lia]|]. destruct Hr as [Hr|]; [|done].
  cbn [agent_recv_rounds]. wp_step; breflect; [|lia]. wp_step. eapply wp_mono; [apply wp_recv; [exact Hm|lia|]|].
  { intros Hs Eg. destruct (Hsure Hs) as [_ Hn]. rewrite Eg in Hn. cbn in Hn. rewrite app_nil_r in Hn. lia. }
  intros [rc|bytes] s1 (g1 & H1 & E1 & H2).
  - destruct H2 as [Hrc Hfl]. wp_step; breflect.
    + wp_step. exists g1. split; [done|]. split_and!; [done|done|done|simpl; lia|]. intros Hall ? Henough.
      destruct (ag_recv g) eqn:Eg; [|destruct Hfl as [? _]; [done|done|lia]]. cbn in Henough. rewrite app_nil_r in Henough. lia.
    + eapply wp_mono; [apply (IH _ _ _ _ H1); [done|done|done| |]|].
      * left. destruct Hrc as [[? ->]|]; [unfold EAGAIN in *; lia|lia].
      * intros Hs. destruct (Hsure Hs) as [Hall Hn].
        destruct Hfl as (_ & Hb1 & Hf1); [done| |by rewrite Hb1].
        intros Eg. rewrite Eg in Hn. cbn in Hn. rewrite app_nil_r in Hn. lia.
      * intros r s2 (g2 & H2 & G1 & G2 & G3 & G4 & G5). exists g2. split; [done|]. split_and!; [by unfold received in *; rewrite G1, E1|done..|].
        intros Hall ? Henough. destruct (decide (ag_recv g = [])) as [Eg|Eg].
        { rewrite Eg in Henough. cbn in Henough. rewrite app_nil_r in Henough. lia. }
        destruct Hfl as (-> & Hb1 & Hf1); [done..|]. rewrite <- Hb1. apply G5; [done..|by rewrite Hb1].
  - destruct H2 as (Hbs & Hbl & Hlt & Hcat & Hfl). pose proof (lenZ_nonneg bytes). clear E. wp_step; breflect.
    + wp_step. exists g1. split; [done|]. split_and!; [done|by apply Forall_app|cbn [fst snd]; rewrite lenZ_app; lia|simpl; lia|].
      intros Hall ? ?. pose proof (lenZ_nonneg buffer). rewrite s32_nonneg in E by lia. lia.
    + eapply wp_mono; [apply (IH _ _ _ _ H1); [done|by apply Forall_app|rewrite lenZ_app; lia| |]|].
      * rewrite lenZ_app. lia.
      * intros Hs. destruct (Hsure Hs) as [Hall Hn]. split; [by apply Hfl|]. by rewrite <- app_assoc, Hcat.
      * intros r s2 (g2 & H2 & G1 & G2 & G3 & G4 & G5). exists g2. split; [done|]. split_and!; [by unfold received in *; rewrite G1, E1|done..|].
        intros Hall ? Henough. rewrite <- Hcat in Henough |- *. rewrite app_assoc in *. apply G5; auto.
Qed.

Lemma wp_recv_all l F len g s : agent_mem sure l F a g s -> 0 <= len < 2 ^ 32 ->
  (sure = true -> Forall flows (ag_recv g) /\ len <= lenZ (recv_bytes (ag_recv g))) ->
  wp (agent_recv_all a len) (fun r s' => exists g', agent_mem sure l F a g' s' /\ got [] len g g' r) s.
Proof.
  intros Hm Hlen Hsure. unfold agent_recv_all. wp_step. eapply wp_agent_at; [exact Hm|].
  apply wp_recv_rounds; [done..|by constructor|change (lenZ []) with 0; lia|left; lia|done].
Qed.
End Socket.

(** ** A transaction *)

(** The bytes a request points to. *)
Definition request_is (live : bool) (t : agent_transaction_ctx) (F : list (ptr * list Z)) (req : list Z) : Prop :=
  match tx_request t with
  | Some (RequestBlock p) => (p, req) ∈ F
  | Some RequestLocal => live = true /\ req = [SSH2_AGENTC_REQUEST_IDENTITIES]
  | None => False
  end.

(** The part of an agent that a transaction leaves alone. *)
Definition under_way (g0 g : agent) : Prop :=
  g = g0 <| ag_transctx := (ag_transctx g0) <| tx_response := tx_response (ag_transctx g) |>
              <| tx_response_len := tx_response_len (ag_transctx g) |> <| tx_state := tx_state (ag_transctx g) |> |>
         <| ag_send := ag_send g |> <| ag_recv := ag_recv g |> <| ag_wire := ag_wire g |>.

Lemma sent_way g g' : sent g g' -> under_way g g'.
Proof. unfold under_way. intros ->. by destruct g as [? ? [] ? ? ? ? ? ? ? ?]. Qed.

Lemma received_way g g' : received g g' -> under_way g g'.
Proof. unfold under_way. intros ->. by destruct g as [? ? [] ? ? ? ? ? ? ? ?]. Qed.

(** The blocks with the answer's. *)
Definition with_response (g : agent) (F F' : list (ptr * list Z)) : Prop :=
  match tx_response (ag_transctx g) with None => F' = F | Some p => exists d, F' = (p, d) :: F end.

Section Transact.
Context (sure : bool) (a : ptr) (l : list (ptr * entry)) (F : list (ptr * list Z)) (g0 : agent).
Context (live : bool) (req ans rest : list Z).
Hypothesis Hreq : request_is live (ag_transctx g0) F req.
Hypothesis Hreq_len : tx_request_len (ag_transctx g0) = lenZ req /\ lenZ req < 2 ^ 32.

(** The agent takes the request and its answer [ans] is on the way. *)
Definition line : Prop :=
  sure = true /\ Forall takes (ag_send g0) /\ Forall flows (ag_recv g0) /\
  recv_bytes (ag_recv g0) = htonu32 (lenZ ans) ++ ans ++ rest /\ lenZ ans < 2 ^ 31 /\ lenZ req < 2 ^ 31.

(** The connection may be closed behind the answer only when the answer is known to be there. *)
Hypothesis Hsure : sure = true -> line.

Record at_stage (st : agent_nonblocking_states) (wire left : list Z) (F' : list (ptr * list Z)) (g : agent) (s : session) : Prop := {
  st_mem : agent_mem sure l F' a g s;
  st_state : tx_state (ag_transctx g) = st;
  st_way : under_way g0 g;
  st_resp : with_response g F F';
  st_line : line -> ag_wire g = ag_wire g0 ++ wire /\ Forall takes (ag_send g) /\ Forall flows (ag_recv g) /\ recv_bytes (ag_recv g) = left
}.

(** The call ends, or the next stage is reached. *)
Definition failed (rc : Z) (s : session) : Prop :=
  rc <> 0 /\ ~ line /\ exists F' g, agent_mem sure l F' a g s /\ under_way g0 g /\ with_response g F F'.

Definition staged (P : agent -> session -> Prop) (r : option Z) (s : session) : Prop :=
  match r with Some rc => failed rc s | None => exists g, P g s end.

Lemma under_way_trans g g' : under_way g0 g -> under_way g g' -> under_way g0 g'.
Proof. unfold under_way. intros H1 H2. rewrite H2, H1. done. Qed.

Lemma wp_then P R m k s : wp m (staged P) s -> (forall g s', P g s' -> wp k (staged R) s') -> wp (tx_then m k) (staged R) s.
Proof.
  intros Hm Hk. unfold tx_then. wp_step. eapply wp_mono; [exact Hm|]. intros [rc|] s' H; [by wp_step|]. destruct H as [g H]. by eapply Hk.
Qed.

Lemma wp_stage Q st w left F' g s m : at_stage st w left F' g s -> wp (m (ag_transctx g)) Q s -> wp (tx_stage a st m) Q s.
Proof.
  intros H Hm. unfold tx_stage. wp_step. eapply wp_agent_at; [apply (st_mem _ _ _ _ _ _ H)|].
  rewrite bool_decide_true; [done|]. apply (st_state _ _ _ _ _ _ H).
Qed.

Lemma wp_set_state P st st' w left F' g s : at_stage st w left F' g s ->
  (forall s', at_stage st' w left F' (g <| ag_transctx ::= fun t => t <| tx_state := st' |> |>) s' ->
     P (g <| ag_transctx ::= fun t => t <| tx_state := st' |> |>) s') ->
  wp (set_tx_state a st' ;; ret None) (staged P) s.
Proof.
  intros [H1 H2 H3 H4 H5] HP. wp_step. eapply wp_set_transctx; [exact H1|]. intros s1 Hs1. wp_step. eexists. apply HP.
  split; [exact Hs1|done| |done|done]. eapply under_way_trans; [exact H3|done].
Qed.

Lemma wp_tx_fail P code msg st w left F' g s : code <> 0 -> ~ line -> at_stage st w left F' g s -> wp (tx_fail code msg) (staged P) s.
Proof.
  intros Hc Hn [H1 H2 H3 H4 H5]. unfold tx_fail. wp_step. eapply wp_error_agent; [exact H1|]. intros s' H. wp_step. by split_and!; [..|exists F', g].
Qed.

Lemma wp_tx_send bytes next st w left F' g s : at_stage st w left F' g s -> lenZ bytes < 2 ^ 32 -> (line -> lenZ bytes < 2 ^ 31) ->
  wp (tx_send a bytes next) (staged (at_stage next (w ++ bytes) left F')) s.
Proof.
  intros [H1 H2 H3 H4 H5] Hb Hsmall. unfold tx_send. wp_step. eapply wp_mono; [by eapply wp_send_all|].
  intros rc s1 (g1 & M1 & S1 & Hok).
  assert (Hs : at_stage st (w ++ bytes) left F' g1 s1).
  { split; [done|by rewrite S1|eapply under_way_trans; [exact H3|by apply sent_way]|by unfold with_response; rewrite S1|].
    intros Hl. destruct (H5 Hl) as (W & T & R & E). destruct (Hok T (Hsmall Hl)) as (_ & -> & T1).
    rewrite S1. cbn. by rewrite W, app_assoc. }
  assert (Hrc : line -> rc = lenZ bytes) by (intros Hl; destruct (H5 Hl) as (_ & T & _); by destruct (Hok T (Hsmall Hl))).
  pose proof (lenZ_nonneg bytes). wp_step; breflect.
  - wp_step. split_and!; [done|intros Hl; specialize (Hrc Hl); unfold EAGAIN in *; lia|]. destruct Hs. by exists F', g1.
  - wp_step; breflect; [|by eapply wp_set_state; [exact Hs|]]. eapply wp_tx_fail; [done| |exact Hs]. intros Hl. specialize (Hrc Hl). lia.
Qed.

Lemma wp_request_bytes st w left F' g s (Q : list Z -> session -> Prop) : at_stage st w left F' g s -> Q req s ->
  wp (request_bytes live (ag_transctx g)) Q s.
Proof.
  intros [H1 H2 H3 H4 H5] HQ. unfold request_bytes, request_is in *. rewrite H3. simpl. destruct (tx_request (ag_transctx g0)) as [[p|]|]; [|..|done].
  - wp_step. eapply wp_access; [done|]. eapply wp_block_mem; [exact H1| |exact HQ]. unfold with_response in H4.
    destruct (tx_response _); [destruct H4 as [d ->]; by right|by subst].
  - destruct Hreq as [-> ->]. wp_step. eapply wp_access; [done|]. by wp_step.
Qed.

Lemma wp_tx_request_length left g s : at_stage agent_NB_state_request_created [] left F g s ->
  wp (tx_request_length a (ag_transctx g)) (staged (at_stage agent_NB_state_request_length_sent (htonu32 (lenZ req)) left F)) s.
Proof.
  intros H. unfold tx_request_length. assert (E : tx_request_len (ag_transctx g) = lenZ req) by (rewrite (st_way _ _ _ _ _ _ H); apply Hreq_len).
  pose proof (lenZ_nonneg req). rewrite E, u32_small by lia. by apply (wp_tx_send _ _ _ _ _ _ _ _ H).
Qed.

Lemma wp_tx_request_body left g s : at_stage agent_NB_state_request_length_sent (htonu32 (lenZ req)) left F g s ->
  wp (tx_request_body live a (ag_transctx g)) (staged (at_stage agent_NB_state_request_sent (htonu32 (lenZ req) ++ req) left F)) s.
Proof.
  intros H. unfold tx_request_body. wp_step. eapply wp_request_bytes; [exact H|]. wp_step.
  assert (E : tx_request_len (ag_transctx g) = lenZ req) by (rewrite (st_way _ _ _ _ _ _ H); apply Hreq_len).
  eapply wp_access; [by apply bytes_at_all|]. apply (wp_tx_send _ _ _ _ _ _ _ _ H); [apply Hreq_len|]. by intros (_ & _ & _ & _ & _ & Hl).
Qed.

(** The answer's length has arrived, and a block for it is there. *)
Definition expecting (wire : list Z) (g : agent) (s : session) : Prop :=
  exists p d, tx_response (ag_transctx g) = Some p /\ lenZ d = tx_response_len (ag_transctx g) /\ bytes_ok d /\ lenZ d < 2 ^ 32 /\
    at_stage agent_NB_state_response_length_received wire (ans ++ rest) ((p, d) :: F) g s /\ (line -> lenZ d = lenZ ans).

Lemma wp_tx_response_length w g s : tx_response (ag_transctx g) = None ->
  at_stage agent_NB_state_request_sent w (htonu32 (lenZ ans) ++ ans ++ rest) F g s ->
  wp (tx_response_length a (ag_transctx g)) (staged (expecting w)) s.
Proof.
  intros Hnone [H1 H2 H3 H4 H5]. unfold tx_response_length. wp_step. eapply wp_mono; [apply (wp_recv_all _ _ _ _ 4 _ _ H1); [lia|]|].
  { intros Hs. destruct (H5 (Hsure Hs)) as (_ & _ & R & ->). split; [done|]. rewrite lenZ_app, lenZ_htonu32.
    pose proof (lenZ_nonneg (ans ++ rest)). lia. }
  intros [rc b] s1 (g1 & M1 & S1 & Hb & Hle & Hfull & Hok). cbn [fst snd] in *.
  assert (Hl4 : lenZ (htonu32 (lenZ ans)) = 4) by done.
  assert (Hline : line -> rc = 4 /\ b = htonu32 (lenZ ans) /\ recv_bytes (ag_recv g1) = ans ++ rest /\ Forall flows (ag_recv g1)).
  { intros Hl. destruct (H5 Hl) as (_ & _ & R & E). destruct (Hok R) as (-> & Hc & R1); [lia|rewrite E; cbn; rewrite lenZ_app; pose proof (lenZ_nonneg (ans ++ rest)); lia|].
    cbn in Hc. rewrite E in Hc. apply app_inj_1 in Hc as [-> ->]; [done|]. pose proof (Hfull ltac:(lia)). unfold lenZ in *. lia. }
  assert (Hs : at_stage agent_NB_state_request_sent w (ans ++ rest) F g1 s1).
  { split; [done|by rewrite S1|eapply under_way_trans; [exact H3|by apply received_way]|by unfold with_response; rewrite S1|].
    intros Hl. destruct (H5 Hl) as (W & T & _). destruct (Hline Hl) as (_ & _ & R & Fl). rewrite S1. cbn. by split_and!. }
  wp_step; breflect.
  - assert (Hn : ~ line) by (intros Hl; destruct (Hline Hl); lia). wp_step; breflect; [|by eapply wp_tx_fail].
    wp_step. split_and!; [done|done|]. destruct Hs. by exists F, g1.
  - destruct (ntohu32_in b 0) as [n Hn]; [lia..|]. pose proof (ntohu32_range _ _ _ Hb Hn) as Hr. wp_step. eapply wp_access; [exact Hn|].
    assert (Hna : line -> n = lenZ ans).
    { intros Hl. destruct (Hline Hl) as (_ & -> & _). destruct Hl as (_ & _ & _ & _ & Hl & _). pose proof (lenZ_nonneg ans).
      pose proof (ntohu32_at [] (lenZ ans) [] 0 ltac:(lia) eq_refl) as Hx. rewrite app_nil_r in Hx. cbn [app] in Hx. congruence. }
    wp_step. eapply wp_alloc_mem; [exact M1|..].
    + intros s2 M2 Hnot. wp_step. eapply wp_set_transctx; [exact M2|]. intros s3 M3. wp_step.
      split_and!; [done|intros [? _]; congruence|]. eexists F, _. split_and!; [exact M3|eapply under_way_trans; [apply (st_way _ _ _ _ _ _ Hs)|done]|done].
    + intros p s2 M2. wp_step. eapply wp_set_transctx; [exact M2|]. intros s3 M3.
      assert (Hl : lenZ (replicate (Z.to_nat n) 0) = n) by (unfold lenZ; rewrite length_replicate; lia).
      eapply (wp_set_state _ agent_NB_state_request_sent _ w (ans ++ rest)).
      * split; [exact M3|apply (st_state _ _ _ _ _ _ Hs)|eapply under_way_trans; [apply (st_way _ _ _ _ _ _ Hs)|done]|by eexists|apply (st_line _ _ _ _ _ _ Hs)].
      * intros s' Hg. eexists p, _. split_and!; [done|by rewrite Hl|by apply Forall_replicate|lia|exact Hg|by rewrite Hl].
Qed.

(** The answer is there. *)
Definition answered (wire : list Z) (g : agent) (s : session) : Prop :=
  exists p d, tx_response (ag_transctx g) = Some p /\ lenZ d = tx_response_len (ag_transctx g) /\ bytes_ok d /\ lenZ d < 2 ^ 31 /\
    at_stage agent_NB_state_response_received wire rest ((p, d) :: F) g s /\ (line -> d = ans).

Lemma wp_tx_response_body w g s : expecting w g s -> wp (tx_response_body a (ag_transctx g)) (staged (answered w)) s.
Proof.
  intros (p & d & Hp & Hd & Hbytes & Hlt & [H1 H2 H3 H4 H5] & Hans). unfold tx_response_body. wp_step. eapply wp_access; [exact Hp|]. wp_step.
  rewrite <- Hd. pose proof (lenZ_nonneg d). eapply wp_mono; [apply (wp_recv_all _ _ _ _ (lenZ d) _ _ H1); [lia|]|].
  { intros Hs. destruct (H5 (Hsure Hs)) as (_ & _ & R & ->). split; [done|]. rewrite (Hans (Hsure Hs)), lenZ_app.
    pose proof (lenZ_nonneg rest). lia. }
  intros [rc b] s1 (g1 & M1 & S1 & Hb & Hle & Hfull & Hok). cbn [fst snd] in *.
  assert (Hline : line -> rc = lenZ d /\ b = ans /\ recv_bytes (ag_recv g1) = rest /\ Forall flows (ag_recv g1)).
  { intros Hl. destruct (H5 Hl) as (_ & _ & R & E). rewrite (Hans Hl) in *. pose proof Hl as (_ & _ & _ & _ & Hla & _).
    destruct (Hok R) as (-> & Hc & R1); [lia|rewrite E; cbn; rewrite lenZ_app; pose proof (lenZ_nonneg rest); lia|].
    cbn in Hc. rewrite E in Hc. apply app_inj_1 in Hc as [-> ->]; [done|]. pose proof (Hfull ltac:(lia)). unfold lenZ in *. lia. }
  wp_step. eapply wp_write_mem; [exact M1|lia|lia|]. intros s2 M2. rewrite Z.add_0_l in M2. cbn [take app] in M2.
  set (d' := b ++ drop (Z.to_nat (lenZ b)) d) in *.
  assert (Hd' : lenZ d' = lenZ d) by (unfold d', lenZ in *; rewrite length_app, length_drop; lia).
  assert (Hs : at_stage agent_NB_state_response_length_received w rest ((p, d') :: F) g1 s2).
  { split; [done|by rewrite S1|eapply under_way_trans; [exact H3|by apply received_way]|unfold with_response; rewrite S1; cbn; rewrite Hp; by eexists|].
    intros Hl. destruct (H5 Hl) as (W & T & _). destruct (Hline Hl) as (_ & _ & R & Fl). rewrite S1. cbn. by split_and!. }
  wp_step; breflect.
  - assert (Hn : ~ line) by (intros Hl; destruct (Hline Hl); lia). wp_step; breflect; [|by eapply wp_tx_fail].
    wp_step. split_and!; [done|done|]. destruct Hs. by exists ((p, d') :: F), g1.
  - eapply wp_set_state; [exact Hs|]. intros s3 H3'. exists p, d'. split_and!; [by rewrite S1|rewrite S1; cbn; by rewrite Hd'| |rewrite Hd'; by apply Hfull|done|].
    + apply Forall_app. split; [done|by apply Forall_drop].
    + intros Hl. destruct (Hline Hl) as (-> & -> & _). unfold d'. rewrite drop_ge; [apply app_nil_r|]. pose proof (Hans Hl). unfold lenZ in *. lia.
Qed.

(** A request that has been made: every outcome, and the successful one. *)
Lemma wp_transact s : agent_mem sure l F a g0 s -> tx_state (ag_transctx g0) = agent_NB_state_request_created ->
  tx_response (ag_transctx g0) = None ->
  wp (agent_transact_unix live a) (fun rc s' => failed rc s' \/ rc = 0 /\ exists g, answered (htonu32 (lenZ req) ++ req) g s') s.
Proof.
  intros Hm Hst Hnone. unfold agent_transact_unix. wp_step.
  eapply (wp_mono _ (staged (answered (htonu32 (lenZ req) ++ req)))).
  - assert (H0 : at_stage agent_NB_state_request_created [] (recv_bytes (ag_recv g0)) F g0 s).
    { split; [done|done| |by unfold with_response; rewrite Hnone|].
      - unfold under_way. by destruct g0 as [? ? [] ? ? ? ? ? ? ? ?].
      - intros (_ & T & R & _). by rewrite app_nil_r. }
    eapply wp_then; [eapply wp_stage; [exact H0|by apply wp_tx_request_length]|]. intros g1 s1 H1.
    eapply wp_then; [eapply wp_stage; [exact H1|by apply wp_tx_request_body]|]. intros g2 s2 H2.
    assert (H2' : at_stage agent_NB_state_request_sent (htonu32 (lenZ req) ++ req) (htonu32 (lenZ ans) ++ ans ++ rest) F g2 s2).
    { destruct H2 as [I1 I2 I3 I4 I5]. split; try done. intros Hl. pose proof Hl as (_ & _ & _ & E & _). rewrite <- E. by apply I5. }
    assert (Hn2 : tx_response (ag_transctx g2) = None).
    { pose proof (st_resp _ _ _ _ _ _ H2) as H. unfold with_response in H. destruct (tx_response (ag_transctx g2)); [|done]. destruct H as [d Hd].
      apply (f_equal length) in Hd. simpl in Hd. lia. }
    eapply wp_then; [eapply wp_stage; [exact H2'|by apply wp_tx_response_length]|]. intros g3 s3 H3.
    pose proof H3 as (p & d & _ & _ & _ & _ & H3' & _). eapply wp_stage; [exact H3'|by apply wp_tx_response_body].
  - intros [rc|] s' H; wp_step; [by left|]. by right.
Qed.
End Transact.
