(* ===== verification/AgentList.v ===== *)
(** * What the agent client returns

    The identities of the agent are read back as the agent wrote them, a signature is the
    one the agent made, and no answer makes the client use memory that is not live or keep
    memory it has no use for. *)

From stdpp Require Import base numbers list gmap strings.
From S2P Require Import Prelude Codes CString KexMethods Wire Session ChannelWindow Packet Conn Comp PacketSafety Transport TransportReceive Kex Ext Blocking UserauthPk Agent AgentSpec.

(** ** Strings of an answer *)

Definition at_pos (d : list Z) (pos : Z) : list Z := drop (Z.to_nat pos) d.

Definition text (t : list Z) : list Z := htonu32 (lenZ t) ++ t.

Lemma lenZ_text t : lenZ (text t) = 4 + lenZ t.
Proof. unfold text. by rewrite lenZ_app. Qed.

Lemma at_pos_split d pos : 0 <= pos <= lenZ d -> d = take (Z.to_nat pos) d ++ at_pos d pos /\ lenZ (take (Z.to_nat pos) d) = pos.
Proof. intros H. unfold at_pos. rewrite take_drop. split; [done|]. unfold lenZ in *. rewrite length_take. lia. Qed.

(** A string that is there is what is read; in any case the length is in range. *)
Lemma read_text d pos : bytes_ok d -> 0 <= pos -> pos + 4 <= lenZ d ->
  exists n, ntohu32 d pos = Some n /\ 0 <= n < 2 ^ 32 /\
    forall t post, at_pos d pos = text t ++ post -> lenZ t < 2 ^ 32 ->
      n = lenZ t /\ pos + 4 + n <= lenZ d /\ slice (pos + 4) n d = t /\ at_pos d (pos + 4 + n) = post.
Proof.
  intros Hb H0 Hl. destruct (ntohu32_in d pos) as [n Hn]; [lia..|]. exists n. pose proof (ntohu32_range _ _ _ Hb Hn).
  split_and!; [done|lia|lia|]. intros t post E Ht. destruct (at_pos_split d pos) as [Ed El]; [lia|]. pose proof (lenZ_nonneg t).
  rewrite E in Ed. unfold text in Ed. set (pre := take (Z.to_nat pos) d) in *.
  assert (n = lenZ t) as ->.
  { rewrite Ed in Hn. rewrite <- !app_assoc in Hn. rewrite ntohu32_at in Hn; [by injection Hn|lia|done]. }
  assert (E4 : pos + 4 = lenZ (pre ++ htonu32 (lenZ t))) by (rewrite lenZ_app, lenZ_htonu32; lia).
  rewrite <- !app_assoc in Ed. split_and!; [done| | |].
  - rewrite Ed, !lenZ_app, lenZ_htonu32. pose proof (lenZ_nonneg post). lia.
  - rewrite Ed, app_assoc. by apply slice_at.
  - unfold at_pos. rewrite Ed, 2!app_assoc.
    replace (Z.to_nat (pos + 4 + lenZ t)) with (length ((pre ++ htonu32 (lenZ t)) ++ t)); [apply drop_app_length|].
    rewrite length_app. unfold lenZ in *. lia.
Qed.

(** When there is a string, there is room for it. *)
Lemma text_room d pos t post : 0 <= pos <= lenZ d -> at_pos d pos = text t ++ post -> pos + 4 + lenZ t <= lenZ d.
Proof.
  intros H E. apply (f_equal lenZ) in E. rewrite lenZ_app, lenZ_text in E. unfold at_pos, lenZ in *. rewrite length_drop in E.
  pose proof (lenZ_nonneg post). unfold lenZ in *. lia.
Qed.

(** ** The identities *)

Definition linked (n : ptr) (k : agent_publickey) (g : agent) : agent :=
  g <| ag_nodes ::= <[n := k]> |> <| ag_head ::= fun l => l ++ [n] |>.

(** Agents that differ in their elements. *)
Definition list_only (g g' : agent) : Prop := g' = g <| ag_nodes := ag_nodes g' |> <| ag_head := ag_head g' |>.

(** A key as an agent describes it, and the answer that lists keys. *)
Definition key_text (key : list Z * list Z) : list Z := text key.1 ++ text key.2.
Definition small (key : list Z * list Z) : Prop := lenZ key.1 < 2 ^ 32 /\ lenZ key.2 < 2 ^ 32.
Definition identities (l : list (ptr * entry)) : list (list Z * list Z) := (fun x => (en_blob x.2, en_comment x.2)) <$> l.
Definition identities_answer (keys : list (list Z * list Z)) : list Z :=
  SSH2_AGENT_IDENTITIES_ANSWER :: htonu32 (lenZ keys) ++ concat (key_text <$> keys).

Section Identities.
Context (sure : bool) (a : ptr).

Lemma wp_add_node k b c (Q : unit -> session -> Prop) l F g s :
  agent_mem sure l ((ap_comment k, c ++ [0]) :: (ap_blob k, b) :: F) a g s -> ap_blob_len k = lenZ b /\ lenZ b < 2 ^ 31 ->
  (forall n s', agent_mem sure (l ++ [(n, mk_entry k b c)]) F a (linked n k g) s' -> Q tt s') ->
  wp (add_node a k) Q s.
Proof.
  intros Hm Hk HQ. unfold add_node. do 4 wp_step. set (n := s_next_ptr s).
  assert (Hm1 : agent_mem sure l ((ap_comment k, c ++ [0]) :: (ap_blob k, b) :: F) a g (s <| s_next_ptr := Pos.succ n |>)).
  { destruct Hm as [H1 H2 H3 H4 H5 H6 H7]. split; try done. simpl. intros p Hp. apply H5. unfold n in *. lia. }
  eapply wp_set_agent; [exact Hm1|]. apply (HQ n). destruct Hm as [H1 H2 H3 H4 H5 H6 H7]. destruct (H5 n) as [_ Hn]; [unfold n; lia|].
  split; simpl; [apply lookup_insert_eq|..|done|done].
  - rewrite fmap_app. cbn [fmap list_fmap]. rewrite <- Permutation_cons_append. by apply assoc_alloc.
  - apply Forall_app. by split; [|constructor].
  - rewrite bind_app. cbn [mbind list_bind app entry_blocks]. cbn. rewrite <- app_assoc. cbn.
    eapply assoc_is_perm; [|done|exact H4]. apply Permutation_app_head. constructor.
  - intros p Hp. destruct (H5 p) as [? E]; [unfold n in *; lia|]. split; [done|]. rewrite lookup_insert_ne; [done|unfold n in *; lia].
Qed.

Section Answer.
Context (F : list (ptr * list Z)) (d : list Z) (Hb : bytes_ok d) (Hdlen : lenZ d < 2 ^ 31).

(** The outcome of reading something that is described by [P]: what is read is what is
    there, and with enough memory the reading fails only when it is not there. *)
Definition reads (l : list (ptr * entry)) (g : agent) (pos : Z) (b : option (list Z)) (r : Z + Z * Z) (s : session) : Prop :=
  let at_hand (b' c' : list Z) post :=
    at_pos d pos = match b with Some _ => text c' | None => text b' ++ text c' end ++ post /\
    lenZ b' < 2 ^ 32 /\ lenZ c' < 2 ^ 32 /\ default b' b = b' in
  match r with
  | inl rc => rc <> 0 /\ agent_mem sure l F a g s /\ (sure = true -> forall b' c' post, ~ at_hand b' c' post)
  | inr (pos', len) => exists n k b1 c1, agent_mem sure (l ++ [(n, mk_entry k b1 c1)]) F a (linked n k g) s /\
      len = lenZ d - pos' /\ pos + 4 <= pos' <= lenZ d /\
      forall b' c' post, at_hand b' c' post -> b1 = b' /\ c1 = c' /\ at_pos d pos' = post
  end.

Lemma wp_list_comment l g s pos bp b : agent_mem sure l ((bp, b) :: F) a g s -> lenZ b < 2 ^ 31 -> 0 <= pos <= lenZ d ->
  wp (list_comment a d pos (lenZ d - pos) bp (lenZ b)) (reads l g pos (Some b)) s.
Proof.
  intros Hm Hblen Hpos. unfold list_comment. wp_step; breflect.
  - wp_step. eapply wp_free_mem; [exact Hm|]. intros s1 H1. wp_step. split_and!; [done|done|].
    intros _ b' c' post (E1 & _). apply text_room in E1; [|done]. pose proof (lenZ_nonneg c'). lia.
  - destruct (read_text d pos) as (n & Hn & Hr & Ht); [done|lia..|]. wp_step. eapply wp_access; [exact Hn|]. wp_step; breflect.
    + wp_step. eapply wp_free_mem; [exact Hm|]. intros s1 H1. wp_step. split_and!; [done|done|].
      intros _ b' c' post (E1 & _ & ? & _). destruct (Ht _ _ E1) as (-> & ? & _); [done|lia].
    + wp_step. eapply wp_access; [apply bytes_at_in; lia|]. wp_step. eapply wp_alloc_mem; [exact Hm|..].
      * intros s1 H1 Hsure. wp_step. eapply wp_free_mem; [exact H1|]. intros s2 H2. wp_step. split_and!; [done|done|congruence].
      * intros cp s1 H1. wp_step.
        eapply (wp_add_node (mk_agent_publickey 0 None bp (lenZ b) cp) b); [exact H1|done|]. intros m s2 H2. wp_step.
        eexists m, _, _, _. split_and!; [exact H2|lia..|]. intros b' c' post (E1 & ? & ? & E2). simpl in E2.
        by destruct (Ht _ _ E1) as (-> & _ & -> & ->).
Qed.

Lemma wp_list_identity l g s pos : agent_mem sure l F a g s -> 0 <= pos <= lenZ d ->
  wp (list_identity a d pos (lenZ d - pos)) (reads l g pos None) s.
Proof.
  intros Hm Hpos. unfold list_identity. wp_step; breflect.
  - wp_step. split_and!; [done|done|]. intros _ b' c' post (E1 & _). rewrite <- app_assoc in E1. apply text_room in E1; [|done].
    pose proof (lenZ_nonneg b'). lia.
  - wp_step. eapply wp_outcome_mem; [exact Hm|]. intros ok s1 H1 Hok. wp_step; breflect.
    { wp_step. split_and!; [done|done|]. intros Hs. destruct ok; [done|]. by specialize (Hok Hs). }
    destruct (read_text d pos) as (n & Hn & Hr & Ht); [done|lia..|]. wp_step. eapply wp_access; [exact Hn|]. wp_step; breflect.
    + wp_step. split_and!; [done|done|]. intros _ b' c' post (E1' & ? & _). rewrite <- app_assoc in E1'.
      destruct (Ht _ _ E1') as (-> & ? & _); [done|lia].
    + wp_step. eapply wp_access; [apply bytes_at_in; lia|]. wp_step. eapply wp_alloc_mem; [exact H1|..].
      * intros s2 H2 Hsure. wp_step. split_and!; [done|done|congruence].
      * intros bp s2 H2. cbn beta iota.
        assert (Hlen : lenZ (slice (pos + 4) n d) = n) by (apply lenZ_slice; lia).
        replace (lenZ d - pos - 4 - n) with (lenZ d - (pos + 4 + n)) by lia. rewrite <- Hlen at 3.
        eapply wp_mono; [apply wp_list_comment; [exact H2|rewrite Hlen; lia|lia]|].
        assert (Hat : forall b' c' post, at_pos d pos = (text b' ++ text c') ++ post -> lenZ b' < 2 ^ 32 ->
          slice (pos + 4) n d = b' /\ at_pos d (pos + 4 + n) = text c' ++ post).
        { intros b' c' post Ep Hb'. rewrite <- app_assoc in Ep. by destruct (Ht _ _ Ep Hb') as (_ & _ & -> & ->). }
        intros [rc|[pos' len]] s3; unfold reads.
        -- intros (Hrc & H3 & Hno). split_and!; [done|done|]. intros Hs b' c' post (Ep & Hb' & Hc' & _).
           destruct (Hat _ _ _ Ep Hb') as [Eb Ec]. by apply (Hno Hs b' c' post).
        -- intros (m & k & b1 & c1 & H3 & Hl & Hp' & Hread). exists m, k, b1, c1. split_and!; [done|done|lia|lia|].
           intros b' c' post (Ep & Hb' & Hc' & _). destruct (Hat _ _ _ Ep Hb') as [Eb Ec]. by apply Hread.
Qed.

(** The loop: [l'] are the elements it adds. *)
Definition adds (l : list (ptr * entry)) (g : agent) (want : list (list Z * list Z) -> Prop) (rc : Z) (s : session) : Prop :=
  exists l' g', agent_mem sure (l ++ l') F a g' s /\ list_only g g' /\ ag_head g' = (l ++ l').*1 /\
    (sure = true -> forall keys, want keys -> Forall small keys -> rc = 0 /\ identities l' = keys).

Lemma adds_none l g (want : list (list Z * list Z) -> Prop) rc s : agent_mem sure l F a g s -> ag_head g = l.*1 ->
  (sure = true -> forall keys, want keys -> Forall small keys -> rc = 0 /\ keys = []) -> adds l g want rc s.
Proof.
  intros Hm Hh Hw. exists [], g. rewrite app_nil_r. split_and!; [done|by destruct g|done|].
  intros Hs keys Hk Hsm. by destruct (Hw Hs keys Hk Hsm) as [-> ->].
Qed.

Lemma wp_list_loop rounds : forall l g s num pos, agent_mem sure l F a g s -> ag_head g = l.*1 -> 0 <= pos <= lenZ d -> 0 <= num ->
  lenZ d - pos < 4 * Z.of_nat rounds ->
  wp (list_loop rounds a d num pos (lenZ d - pos))
    (adds l g (fun keys => num = lenZ keys /\ exists post, at_pos d pos = concat (key_text <$> keys) ++ post)) s.
Proof.
  induction rounds as [|rounds IH]; intros l g s num pos Hm Hh Hpos Hnum Hr; [lia|].
  cbn [list_loop]. wp_step; breflect.
  { wp_step. apply adds_none; [done..|]. intros _ keys [Hk _] _. split; [done|]. destruct keys; [done|]. rewrite lenZ_cons in Hk.
    pose proof (lenZ_nonneg keys). lia. }
  assert (Hcons : forall keys : list (list Z * list Z), num = lenZ keys -> exists b c keys', keys = (b, c) :: keys' /\ num - 1 = lenZ keys').
  { intros [|[b c] keys'] Hk; [done|]. exists b, c, keys'. rewrite lenZ_cons in Hk. split; [done|lia]. }
  wp_step. eapply wp_mono; [by apply wp_list_identity|]. intros [rc|[pos' len]] s1.
  - intros (Hrc & H1 & Hno). wp_step. apply adds_none; [done..|]. intros Hs keys [Hk [post Ep]] Hsm.
    destruct (Hcons keys Hk) as (b & c & keys' & -> & _). inversion_clear Hsm as [|? ? [? ?] _]. exfalso.
    apply (Hno Hs b c (concat (key_text <$> keys') ++ post)). cbn in Ep. by rewrite <- app_assoc in Ep.
  - intros (n & k & b1 & c1 & H1 & -> & Hp' & Hread). cbn beta iota.
    eapply wp_mono; [apply (IH (l ++ [(n, mk_entry k b1 c1)]) (linked n k g)); [done| |lia..]|].
    { simpl. by rewrite Hh, fmap_app. }
    intros rc s2 (l' & g' & H2 & E2 & Hh2 & Hw). exists ((n, mk_entry k b1 c1) :: l'), g'. rewrite <- app_assoc in H2, Hh2. split_and!; [done| |done|].
    + unfold list_only in *. rewrite E2. done.
    + intros Hs keys [Hk [post Ep]] Hsm. destruct (Hcons keys Hk) as (b & c & keys' & -> & Hk'). inversion_clear Hsm as [|? ? [? ?] Hsm'].
      cbn in Ep. rewrite <- app_assoc in Ep. destruct (Hread b c _ (conj Ep (conj H (conj H0 eq_refl)))) as (-> & -> & E').
      destruct (Hw Hs keys') as [-> <-]; [|done|done]. by split; [|exists post].
Qed.

Lemma wp_list_parse l g s : agent_mem sure l F a g s -> ag_head g = l.*1 ->
  wp (list_parse a d (lenZ d)) (adds l g (fun keys => d = identities_answer keys /\ lenZ keys < 2 ^ 32)) s.
Proof.
  intros Hm Hh. unfold list_parse.
  assert (Hlen : forall keys, d = identities_answer keys -> 5 <= lenZ d /\ byte_at d 0 = Some SSH2_AGENT_IDENTITIES_ANSWER).
  { intros keys ->. unfold identities_answer. rewrite lenZ_cons, lenZ_app, lenZ_htonu32. pose proof (lenZ_nonneg (concat (key_text <$> keys))).
    split; [lia|done]. }
  wp_step; breflect.
  { wp_step. apply adds_none; [done..|]. intros _ keys [Hk _] _. destruct (Hlen keys Hk). lia. }
  destruct (byte_at_in d 0) as [c Hc]; [lia|]. wp_step. eapply wp_access; [exact Hc|]. wp_step; breflect.
  { wp_step. apply adds_none; [done..|]. intros _ keys [Hk _] _. destruct (Hlen keys Hk). congruence. }
  wp_step; breflect.
  { wp_step. apply adds_none; [done..|]. intros _ keys [Hk _] _. destruct (Hlen keys Hk). lia. }
  destruct (ntohu32_in d 1) as [n Hn]; [lia..|]. pose proof (ntohu32_range _ _ _ Hb Hn). wp_step. eapply wp_access; [exact Hn|].
  eapply wp_mono; [apply wp_list_loop; [done..|lia|lia|unfold lenZ; lia]|]. intros rc s1 (l' & g' & H1 & H2 & H3 & Hw). exists l', g'. split_and!; [done..|].
  intros Hs keys [Hk Hk32] Hsm. apply (Hw Hs keys); [|done]. pose proof (lenZ_nonneg keys). split; [|exists []; rewrite Hk; cbn; by rewrite app_nil_r].
  pose proof (ntohu32_at [SSH2_AGENT_IDENTITIES_ANSWER] (lenZ keys) (concat (key_text <$> keys)) 1 ltac:(lia) eq_refl) as Hx.
  rewrite Hk in Hn. unfold identities_answer in Hn. change (_ :: _) with ([SSH2_AGENT_IDENTITIES_ANSWER] ++ htonu32 (lenZ keys) ++ concat (key_text <$> keys)) in Hn.
  congruence.
Qed.
End Answer.

Lemma wp_free_node n e l F g s (Q : unit -> session -> Prop) : agent_mem sure ((n, e) :: l) F a g s ->
  (forall s', agent_mem sure l F a (g <| ag_nodes ::= delete n |>) s' -> Q tt s') ->
  wp (free_block (ap_blob (en_key e)) ;; free_block (ap_comment (en_key e)) ;; set_agent a (fun g => g <| ag_nodes ::= delete n |>)) Q s.
Proof.
  intros [H1 H2 H3 H4 H5 H6 H7] HQ. cbn in H2, H4. inversion_clear H3.
  wp_step. eapply wp_free_block; [by eapply assoc_head|]. apply assoc_free in H4.
  wp_step. eapply wp_free_block; [by eapply assoc_head|]. apply assoc_free in H4.
  unfold set_agent, agent_at, set_system. do 3 wp_step. eapply wp_access; [exact H1|]. wp_step. apply HQ. split; try done.
  - apply lookup_insert_eq.
  - by eapply assoc_free.
  - simpl. intros q Hq. destruct (H5 q Hq) as [E1 E2]. by rewrite !lookup_delete_None; eauto.
Qed.

Lemma wp_node_at n e l F g s (Q : agent_publickey -> session -> Prop) : agent_mem sure l F a g s -> (n, e) ∈ l -> Q (en_key e) s -> wp (node_at a n) Q s.
Proof.
  intros Hm Hn HQ. unfold node_at. wp_step. eapply wp_agent_at; [exact Hm|]. eapply wp_access; [|exact HQ].
  eapply assoc_elem; [apply (am_nodes _ _ _ _ _ _ Hm)|]. apply list_elem_of_fmap. by exists (n, e).
Qed.

Lemma wp_free_nodes l : forall F g s, agent_mem sure l F a g s ->
  wp (free_nodes a l.*1) (fun _ s' => exists g', agent_mem sure [] F a g' s' /\ g' = g <| ag_nodes := ag_nodes g' |>) s.
Proof.
  induction l as [|[n e] l IH]; intros F g s Hm; cbn [fmap list_fmap free_nodes].
  - wp_step. exists g. split; [done|by destruct g].
  - wp_step. eapply wp_node_at; [exact Hm|by left|]. cbn [fst].
    assert (H : wp (free_block (ap_blob (en_key e)) ;; free_block (ap_comment (en_key e)) ;; set_agent a (fun g => g <| ag_nodes ::= delete n |>))
      (fun _ s' => wp (free_nodes a l.*1) (fun _ s' => exists g', agent_mem sure [] F a g' s' /\ g' = g <| ag_nodes := ag_nodes g' |>) s') s).
    { eapply wp_free_node; [exact Hm|]. intros s1 H1. eapply wp_mono; [by apply IH|]. intros [] s2 (g2 & H2 & E2). exists g2. split; [done|by rewrite E2]. }
    unfold wp, bind in *. destruct (free_block _ s) as [[] s1| |]; [|done..]. destruct (free_block _ s1) as [[] s2| |]; [|done..].
    by destruct (set_agent a _ s2) as [[] s3| |].
Qed.

Lemma wp_free_identities l F g s : agent_mem sure l F a g s -> ag_head g = l.*1 ->
  wp (agent_free_identities a) (fun _ s' => exists g', agent_mem sure [] F a g' s' /\ list_only g g' /\ ag_head g' = []) s.
Proof.
  intros Hm Hh. unfold agent_free_identities. wp_step. eapply wp_agent_at; [exact Hm|]. rewrite Hh. wp_step.
  eapply wp_mono; [by apply wp_free_nodes|]. intros [] s1 (g1 & H1 & E1).
  eapply wp_set_io; [exact H1|done|apply (am_recv _ _ _ _ _ _ H1)|]. intros s2 H2. eexists. split; [exact H2|]. split; [|done].
  unfold list_only. rewrite E1. done.
Qed.

Lemma wp_free_response F F' l g s : agent_mem sure l F' a g s -> with_response g F F' ->
  wp (free_response a) (fun _ s' => agent_mem sure l F a (g <| ag_transctx ::= fun t => t <| tx_response := None |> |>) s') s.
Proof.
  intros Hm Hr. unfold free_response. wp_step. eapply wp_agent_at; [exact Hm|]. unfold with_response in Hr. wp_step.
  destruct (tx_response (ag_transctx g)) as [p|] eqn:Ep; cbn [free_opt].
  - destruct Hr as [d ->]. eapply wp_free_mem; [exact Hm|]. intros s1 H1. by eapply wp_set_transctx.
  - subst F'. wp_step. by eapply wp_set_transctx.
Qed.
End Identities.

(** ** Listing *)

(** No block belongs to the transaction. *)
Definition tx_idle (g : agent) : Prop :=
  tx_response (ag_transctx g) = None /\ forall p, tx_request (ag_transctx g) <> Some (RequestBlock p).

(** The parts of an agent that the calls of this interface leave alone. *)
Definition agent_kept (g g' : agent) : Prop :=
  ag_fd g' = ag_fd g /\ ag_ops g' = ag_ops g /\ ag_identity g' = ag_identity g /\ ag_identity_path g' = ag_identity_path g.

(** Between two calls: the list, its elements and their blocks belong together. *)
Record agent_idle (sure : bool) (l : list (ptr * entry)) (F : list (ptr * list Z)) (a : ptr) (g : agent) (s : session) : Prop := {
  ai_mem : agent_mem sure l F a g s;
  ai_head : ag_head g = l.*1;
  ai_tx : tx_idle g
}.

Section List.
Context (sure : bool) (a : ptr) (F : list (ptr * list Z)).

(** The connection is good, and the agent answers with [ans]. *)
Definition answers_with (g : agent) (ans rest : list Z) : Prop :=
  sure = true /\ Forall takes (ag_send g) /\ Forall flows (ag_recv g) /\
  recv_bytes (ag_recv g) = htonu32 (lenZ ans) ++ ans ++ rest /\ lenZ ans < 2 ^ 31.

Lemma wp_list_identities g s keys rest : agent_mem sure [] F a g s -> ag_head g = [] -> ag_transctx g = transctx_0 -> ag_ops g = true ->
  (sure = true -> answers_with g (identities_answer keys) rest) ->
  wp (agent_list_identities a) (fun rc s' => exists l g', agent_idle sure l F a g' s' /\ agent_kept g g' /\
    (answers_with g (identities_answer keys) rest -> lenZ keys < 2 ^ 32 -> Forall small keys ->
     rc = 0 /\ identities l = keys /\ ag_wire g' = ag_wire g ++ htonu32 1 ++ [SSH2_AGENTC_REQUEST_IDENTITIES] /\
     Forall takes (ag_send g') /\ Forall flows (ag_recv g') /\ recv_bytes (ag_recv g') = rest)) s.
Proof.
  intros Hm Hh Ht Hops Hsure. unfold agent_list_identities. wp_step. eapply wp_agent_at; [exact Hm|]. rewrite Ht. cbn [transctx_0 tx_state].
  rewrite bool_decide_true by done. unfold tx_stage. do 2 wp_step. eapply wp_agent_at; [exact Hm|]. rewrite Ht. cbn [transctx_0 tx_state].
  rewrite bool_decide_true by done. unfold list_create. wp_step. eapply wp_set_transctx; [exact Hm|]. intros s1 H1. do 2 wp_step.
  eapply wp_agent_at; [exact H1|]. set (g1 := g <| ag_transctx ::= _ |>) in *.
  assert (Hr : wp (request_bytes true (ag_transctx g1)) (fun b s' => b = [SSH2_AGENTC_REQUEST_IDENTITIES] /\ s' = s1) s1) by done.
  wp_step. eapply wp_mono; [exact Hr|]. intros b s' [-> ->]. wp_step. eapply wp_access; [done|].
  change (SSH2_AGENTC_REQUEST_IDENTITIES =? SSH2_AGENTC_REQUEST_IDENTITIES) with true. cbn [negb]. cbn iota.
  replace (ag_ops g1) with true by done. cbn [negb]. cbn iota. wp_step.
  assert (Hq : answers_with g (identities_answer keys) rest ->
    line sure g1 [SSH2_AGENTC_REQUEST_IDENTITIES] (identities_answer keys) rest) by (by intros (? & ? & ? & ? & ?)).
  eapply wp_mono; [apply (wp_transact sure a [] F g1 true [SSH2_AGENTC_REQUEST_IDENTITIES] (identities_answer keys) rest); try done;
    [by intros Hs; apply Hq, Hsure|simpl; by rewrite Ht..]|].
  intros rc s2 [(Hrc & Hline & F' & g2 & H2 & W2 & R2)|(-> & g2 & p & d & Hp & Hd & Hbytes & Hd31 & [H2 _ W2 R2 L2] & Hans)].
  - replace (rc =? 0) with false by (symmetry; by apply Z.eqb_neq). cbn [negb]. cbn iota. wp_step.
    eapply wp_mono; [by eapply wp_free_response|]. intros [] s3 H3. wp_step. eexists [], _. split_and!.
    + split; [exact H3|by rewrite W2|split; [done|by rewrite W2]].
    + by rewrite W2.
    + intros Hl. exfalso. by apply Hline, Hq.
  - cbn [negb Z.eqb]. cbn iota. wp_step. eapply wp_set_transctx; [exact H2|]. intros s3 H3. wp_step. eapply wp_agent_at; [exact H3|].
    wp_step. eapply wp_access; [exact Hp|]. wp_step. eapply wp_block_mem; [exact H3|by left|]. cbn [ag_transctx tx_response_len]. cbn.
    rewrite <- Hd. wp_step. eapply wp_mono; [apply wp_list_parse; [exact Hbytes|exact Hd31|exact H3|by rewrite W2]|].
    intros rc s4 (l' & g4 & H4 & E4 & Hh4 & Hw). cbn [app] in *. wp_step.
    eapply wp_mono; [eapply wp_free_response; [exact H4|]|].
    { unfold with_response. rewrite E4. cbn. rewrite Hp. by eexists. }
    intros [] s5 H5. eapply wp_error_agent; [exact H5|]. intros s6 H6. eexists l', _. split_and!.
    + split; [exact H6|done|]. split; [done|]. rewrite E4. done.
    + rewrite E4, W2. done.
    + intros Hl Hk Hsm. destruct (L2 (Hq Hl)) as (Hwire & T & R & Hrest). destruct (Hw ltac:(apply Hl) keys) as [-> <-]; [by rewrite (Hans (Hq Hl))|done|].
      rewrite E4. cbn. rewrite Hwire. by split_and!.
Qed.
End List.

(** The whole call, which releases the elements of an earlier list first. *)
Lemma wp_libssh2_list sure a F l g s keys rest : agent_idle sure l F a g s -> ag_ops g = true ->
  (sure = true -> answers_with sure g (identities_answer keys) rest) ->
  wp (libssh2_agent_list_identities a) (fun rc s' => exists l' g', agent_idle sure l' F a g' s' /\ agent_kept g g' /\
    (answers_with sure g (identities_answer keys) rest -> lenZ keys < 2 ^ 32 -> Forall small keys ->
     rc = 0 /\ identities l' = keys /\ ag_wire g' = ag_wire g ++ htonu32 1 ++ [SSH2_AGENTC_REQUEST_IDENTITIES] /\
     recv_bytes (ag_recv g') = rest)) s.
Proof.
  intros [Hm Hh Ht] Hops Hsure. unfold libssh2_agent_list_identities. wp_step. eapply wp_set_transctx; [exact Hm|]. intros s1 H1. wp_step.
  eapply wp_mono; [by eapply wp_free_identities|]. intros [] s2 (g2 & H2 & E2 & Hh2).
  eapply wp_mono; [apply (wp_list_identities sure a F g2 s2 keys rest); [done..|by rewrite E2|by rewrite E2|intros Hs; specialize (Hsure Hs); unfold answers_with in *; by rewrite E2]|].
  intros rc s3 (l3 & g3 & H3 & K3 & Hok). exists l3, g3. split_and!; [done| |].
  - unfold agent_kept in *. rewrite E2 in K3. done.
  - intros Hans Hk Hsm. destruct Hok as (-> & Hi & Hw & _ & _ & Hr); [|done..|].
    + unfold answers_with in *. rewrite E2. done.
    + split_and!; try done. by rewrite Hw, E2.
Qed.

(** C15: listing is complete: over a connection on which everything goes through, in
    whatever pieces, [libssh2_agent_list_identities] sends the request once, returns 0, and
    the agent's list holds exactly the keys of the answer, with their comments, in its order;
    the next bytes of the connection are those behind the answer. The elements of an earlier
    list are released. *)
Theorem agent_lists_keys a F l g s keys rest
    (Hidle : agent_idle true l F a g s) (Hops : ag_ops g = true)
    (Hanswer : answers_with true g (identities_answer keys) rest) (Hkeys : lenZ keys < 2 ^ 32) (Hsmall : Forall small keys) :
  exists l' g' s', libssh2_agent_list_identities a s = Ret 0 s' /\ agent_idle true l' F a g' s' /\ identities l' = keys /\
    ag_wire g' = ag_wire g ++ htonu32 1 ++ [SSH2_AGENTC_REQUEST_IDENTITIES] /\ recv_bytes (ag_recv g') = rest.
Proof.
  destruct (wp_Ret _ _ _ (wp_libssh2_list true a F l g s keys rest Hidle Hops (fun _ => Hanswer))) as (rc & s' & E & l' & g' & Hi & _ & Hok).
  destruct Hok as (-> & H); [done..|]. by exists l', g', s'.
Qed.

(** ** Signing *)

(** The flags of the agent protocol that ask for a signature method of RSA keys. *)
Definition flags_for (name : list Z) : Z :=
  if bool_decide (name = str "rsa-sha2-512") then 4 else if bool_decide (name = str "rsa-sha2-256") then 2 else 0.

Lemma sign_flags_for m method_len name : bytes_at m 0 method_len = Some name -> sign_flags (Some m) method_len = Some (flags_for name).
Proof.
  intros Hn. unfold sign_flags, flags_for. destruct (Z.eqb_spec method_len 12) as [->|Hne].
  - cbn. by rewrite Hn.
  - unfold bytes_at in Hn. case_decide; [|done]. injection Hn as <-.
    assert (El : lenZ (slice 0 method_len m) = method_len) by (apply lenZ_slice; lia).
    rewrite !bool_decide_false; [by destruct (0 <? method_len)| |]; intros E; rewrite E in El; apply Hne; by rewrite <- El.
Qed.

(** The request of the agent protocol to sign [data] with the key [blob]. *)
Definition signing_request (blob data : list Z) (flags : Z) : list Z := [13] ++ text blob ++ text data ++ htonu32 flags.

Lemma lenZ_signing_request blob data flags : lenZ (signing_request blob data flags) = 13 + lenZ blob + lenZ data.
Proof. unfold signing_request. rewrite !lenZ_app, !lenZ_text, lenZ_htonu32. change (lenZ [13]) with 1. lia. Qed.

Lemma sign_request_text blob data name : lenZ (signing_request blob data (flags_for name)) < 2 ^ 32 ->
  sign_request blob data (flags_for name) = signing_request blob data (flags_for name).
Proof.
  rewrite lenZ_signing_request. intros H. pose proof (lenZ_nonneg blob). pose proof (lenZ_nonneg data).
  unfold sign_request, signing_request, store_u32, store_str, store_u32, text. rewrite !u32_small by (try lia; unfold flags_for; repeat case_bool_decide; lia).
  by rewrite <- !app_assoc.
Qed.

(** The answer with a signature made with the method [name]. *)
Definition sign_answer (name sig : list Z) : list Z := SSH2_AGENT_SIGN_RESPONSE :: text (text name ++ text sig).

Section Sign.
Context (sure : bool) (a : ptr).
(** The method of the session, a block that holds the name. *)
Context (m : list Z) (method_len : Z) (name : list Z) (Hname : bytes_at m 0 method_len = Some name).

Lemma wp_sign_signature l F d g s pos : agent_mem sure l F a g s -> bytes_ok d -> 0 <= pos <= lenZ d ->
  wp (sign_signature d pos (lenZ d - pos)) (fun r s' => agent_mem sure l F a g s' /\
    (sure = true -> forall sig, at_pos d pos = text sig -> lenZ sig < 2 ^ 32 -> r = (0, sig))) s.
Proof.
  intros Hm Hb Hpos. unfold sign_signature.
  assert (Hroom : forall sig, at_pos d pos = text sig -> pos + 4 + lenZ sig <= lenZ d).
  { intros sig E. rewrite <- (app_nil_r (text sig)) in E. by eapply text_room. }
  wp_step; breflect.
  { wp_step. split; [done|]. intros _ sig Hs. apply Hroom in Hs. pose proof (lenZ_nonneg sig). lia. }
  destruct (read_text d pos) as (n & Hn & Hr & Ht); [done|lia..|]. wp_step. eapply wp_access; [exact Hn|].
  assert (Hat : forall sig, at_pos d pos = text sig -> lenZ sig < 2 ^ 32 -> n = lenZ sig /\ slice (pos + 4) n d = sig).
  { intros sig E1 Hl. rewrite <- (app_nil_r (text sig)) in E1. by destruct (Ht _ _ E1 Hl) as (-> & _ & -> & _). }
  wp_step; breflect.
  { wp_step. split; [done|]. intros _ sig Hs Hl. destruct (Hat sig Hs Hl) as [-> _]. apply Hroom in Hs. lia. }
  wp_step. eapply wp_outcome_mem; [exact Hm|]. intros ok s1 H1 Hok. wp_step; breflect.
  { wp_step. split; [done|]. intros Hs. by destruct ok; [|specialize (Hok Hs)]. }
  wp_step. eapply wp_access; [apply bytes_at_in; lia|]. wp_step. split; [done|]. intros _ sig Hs Hl. by destruct (Hat sig Hs Hl) as [_ ->].
Qed.

Lemma wp_sign_parse l F d g s : agent_mem sure l F a g s -> bytes_ok d ->
  wp (sign_parse (Some m) method_len d (lenZ d)) (fun r s' => agent_mem sure l F a g s' /\
    (sure = true -> forall sig, d = sign_answer name sig -> lenZ name < 2 ^ 32 -> lenZ sig < 2 ^ 32 -> r = (0, sig))) s.
Proof.
  intros Hm Hb. unfold sign_parse. pose proof (lenZ_nonneg name) as Hn0.
  assert (Hlen : forall sig, d = sign_answer name sig -> lenZ d = 13 + lenZ name + lenZ sig /\ byte_at d 0 = Some SSH2_AGENT_SIGN_RESPONSE).
  { intros sig ->. unfold sign_answer. rewrite lenZ_cons, lenZ_text, lenZ_app, !lenZ_text. split; [lia|done]. }
  wp_step; breflect. { wp_step. split; [done|]. intros _ sig Hs. destruct (Hlen sig Hs). pose proof (lenZ_nonneg sig). lia. }
  destruct (byte_at_in d 0) as [c Hc]; [lia|]. wp_step. eapply wp_access; [exact Hc|].
  wp_step; breflect. { wp_step. split; [done|]. intros _ sig Hs. destruct (Hlen sig Hs). congruence. }
  wp_step; breflect. { wp_step. split; [done|]. intros _ sig Hs. destruct (Hlen sig Hs). pose proof (lenZ_nonneg sig). lia. }
  wp_step; breflect. { wp_step. split; [done|]. intros _ sig Hs. destruct (Hlen sig Hs). pose proof (lenZ_nonneg sig). lia. }
  destruct (read_text d 5) as (n & Hn & Hr & Ht); [done|lia..|]. wp_step. eapply wp_access; [exact Hn|].
  assert (Hat : forall sig, d = sign_answer name sig -> lenZ name < 2 ^ 32 -> n = lenZ name /\ slice 9 n d = name /\ at_pos d (9 + n) = text sig).
  { intros sig Hs Hl. destruct (Ht name (text sig)) as (-> & _ & ? & ?); [|done..]. rewrite Hs. done. }
  wp_step; breflect.
  { wp_step. split; [done|]. intros _ sig Hs Hl _. destruct (Hat sig Hs Hl) as (-> & _). destruct (Hlen sig Hs). pose proof (lenZ_nonneg sig). lia. }
  wp_step. eapply wp_access; [apply bytes_at_in; lia|]. wp_step. eapply wp_alloc_mem; [exact Hm|..].
  { intros s1 H1 Hs. wp_step. split; [done|congruence]. }
  intros p s1 H1. cbn beta iota. wp_step.
  assert (Hmatch : sign_matches (Some m) method_len (slice 9 n d) = Some (bool_decide (slice 9 n d = name))).
  { unfold sign_matches. pose proof (bytes_at_in m 0 method_len) as Hx. unfold bytes_at in Hname. case_decide as Hd; [|done]. injection Hname as <-.
    assert (El : lenZ (slice 0 method_len m) = method_len) by (apply lenZ_slice; lia).
    destruct (Z.eqb_spec (lenZ (slice 9 n d)) method_len) as [E4|E4].
    - cbn. rewrite Hx by lia. done.
    - f_equal. symmetry. apply bool_decide_eq_false. intros Heq. apply E4. by rewrite Heq. }
  eapply wp_access; [exact Hmatch|]. wp_step.
  assert (Hend : forall r s2, agent_mem sure l ((p, slice 9 n d) :: F) a g s2 ->
    (sure = true -> forall sig, d = sign_answer name sig -> lenZ name < 2 ^ 32 -> lenZ sig < 2 ^ 32 -> r = (0, sig)) ->
    wp (free_block p ;; ret r) (fun r s' => agent_mem sure l F a g s' /\
      (sure = true -> forall sig, d = sign_answer name sig -> lenZ name < 2 ^ 32 -> lenZ sig < 2 ^ 32 -> r = (0, sig))) s2).
  { intros r s2 H2 Hr2. wp_step. eapply wp_free_mem; [exact H2|]. intros s3 H3. by wp_step. }
  case_bool_decide as Hsame.
  - replace (lenZ d - 9 - n) with (lenZ d - (9 + n)) by lia. eapply wp_mono; [apply wp_sign_signature; [exact H1|done|lia]|].
    intros r s2 [H2 Hr2]. apply Hend; [done|]. intros Hs sig Hd Hl Hl'. apply Hr2; [done| |done]. by destruct (Hat sig Hd Hl) as (_ & _ & ?).
  - wp_step. apply Hend; [done|]. intros _ sig Hd Hl _. by destruct (Hat sig Hd Hl) as (_ & ? & _).
Qed.

Lemma wp_blob n e l F g s (Q : list Z -> session -> Prop) : agent_mem sure l F a g s -> (n, e) ∈ l -> Q (en_blob e) s ->
  wp (block (ap_blob (en_key e))) Q s.
Proof.
  intros Hm Hn HQ. eapply wp_block; [|exact HQ]. eapply assoc_elem; [apply (am_heap _ _ _ _ _ _ Hm)|]. apply elem_of_app. left.
  apply list_elem_of_bind. exists (n, e). split; [by left|done].
Qed.

(** The block of the request. *)
Definition with_request (g : agent) (F F' : list (ptr * list Z)) : Prop :=
  match tx_request (ag_transctx g) with
  | None => F' = F
  | Some (RequestBlock p) => exists req, F' = (p, req) :: F
  | Some RequestLocal => False
  end.

Lemma response_split g F F' : with_response g F F' -> exists R, F' = R ++ F /\ forall F2, with_response g F2 (R ++ F2).
Proof.
  unfold with_response. destruct (tx_response (ag_transctx g)) as [p|]; [intros [d ->]; exists [(p, d)]|intros ->; exists []]; split; try done.
  intros F2. by exists d.
Qed.

Lemma wp_free_request l F F1 R g s (Q : unit -> session -> Prop) : agent_mem sure l (R ++ F1) a g s -> with_request g F F1 ->
  (forall s', agent_mem sure l (R ++ F) a (g <| ag_transctx ::= fun t => t <| tx_request := None |> |>) s' -> Q tt s') ->
  wp (free_request a) Q s.
Proof.
  intros Hm Hq HQ. unfold free_request. wp_step. eapply wp_agent_at; [exact Hm|]. unfold with_request in *. wp_step.
  destruct (tx_request (ag_transctx g)) as [[p|]|]; [|done|].
  - destruct Hq as [req ->]. eapply (wp_free_mem _ _ p req).
    { eapply mem_perm; [done| |exact Hm]. symmetry. apply Permutation_middle. }
    intros s1 H1. by eapply wp_set_transctx.
  - subst F1. wp_step. by eapply wp_set_transctx.
Qed.

(** The transaction is over. *)
Definition signed (g g' : agent) : Prop := agent_kept g g' /\ ag_head g' = ag_head g /\ tx_state (ag_transctx g') = agent_NB_state_init.

Lemma wp_sign_exit l F F1 F2 g s r : agent_mem sure l F2 a g s -> ag_head g = l.*1 -> with_request g F F1 -> with_response g F1 F2 ->
  wp (sign_exit a r) (fun r' s' => r' = r /\ exists g', agent_idle sure l F a g' s' /\ signed g g' /\
    ag_send g' = ag_send g /\ ag_recv g' = ag_recv g /\ ag_wire g' = ag_wire g) s.
Proof.
  intros Hm Hh Hq Hr. unfold sign_exit. apply response_split in Hr as (R & -> & Hr). wp_step. eapply wp_free_request; [done..|]. intros s1 H1. wp_step.
  eapply wp_mono; [eapply wp_free_response; [exact H1|apply Hr]|]. intros [] s2 H2. wp_step. eapply wp_set_transctx; [exact H2|]. intros s3 H3. wp_step.
  eapply wp_error_agent; [exact H3|]. intros s4 H4. wp_step. split; [by destruct r|]. eexists. split_and!; [split; [exact H4|done|done]|done..].
Qed.

Lemma wp_sign_transact l F F1 g s req sig rest : agent_mem sure l F1 a g s -> ag_head g = l.*1 -> ag_ops g = true ->
  tx_state (ag_transctx g) = agent_NB_state_request_created -> tx_response (ag_transctx g) = None ->
  with_request g F F1 -> request_is false (ag_transctx g) F1 req -> tx_request_len (ag_transctx g) = lenZ req /\ lenZ req < 2 ^ 32 ->
  byte_at req 0 = Some SSH2_AGENTC_SIGN_REQUEST ->
  (sure = true -> answers_with sure g (sign_answer name sig) rest /\ lenZ req < 2 ^ 31) ->
  wp (sign_transact a (Some m) method_len) (fun r s' => exists g', agent_idle sure l F a g' s' /\ signed g g' /\
    (answers_with sure g (sign_answer name sig) rest -> lenZ req < 2 ^ 31 -> r = (0, sig) /\ ag_wire g' = ag_wire g ++ htonu32 (lenZ req) ++ req /\
       recv_bytes (ag_recv g') = rest)) s.
Proof.
  intros Hm Hh Hops Hst Hnone Hq Hreq Hlen Hb Hsure. unfold sign_transact. wp_step. eapply wp_agent_at; [exact Hm|].
  assert (Hr : wp (request_bytes false (ag_transctx g)) (fun b s' => b = req /\ s' = s) s).
  { unfold request_bytes, request_is in *. destruct (tx_request (ag_transctx g)) as [[p|]|]; [|by destruct Hreq|done]. wp_step. eapply wp_access; [done|].
    by eapply wp_block_mem. }
  wp_step. eapply wp_mono; [exact Hr|]. intros b s' [-> ->]. wp_step. eapply wp_access; [exact Hb|].
  change (SSH2_AGENTC_SIGN_REQUEST =? SSH2_AGENTC_SIGN_REQUEST) with true. rewrite Hops. cbn [negb]. cbn iota. wp_step.
  eapply wp_mono; [apply (wp_transact sure a l F1 g false req (sign_answer name sig) rest); try done|].
  { intros Hs. destruct (Hsure Hs) as [(? & ? & ? & ? & ?) ?]. by split_and!. }
  intros rc s2 [(Hrc & Hline & F' & g2 & H2 & W2 & R2)|(-> & g2 & p & d & Hp & Hd & Hbytes & Hd31 & [H2 _ W2 R2 L2] & Hans)].
  - replace (rc =? 0) with false by (symmetry; by apply Z.eqb_neq). cbn [negb]. cbn iota.
    eapply wp_mono; [eapply (wp_sign_exit l F F1 F'); [done|by rewrite W2|unfold with_request; by rewrite W2|done]|].
    intros r s3 (_ & g3 & H3 & (S1 & S2 & S3) & _). exists g3. split_and!; [done| |by intros (? & ? & ? & ? & ?) ?; exfalso; apply Hline].
    unfold signed, agent_kept in *. rewrite W2 in S1, S2. done.
  - cbn [negb Z.eqb]. cbn iota. wp_step.
    eapply (wp_free_request l F F1 [(p, d)]); [exact H2|unfold with_request; by rewrite W2|]. intros s3 H3. wp_step. eapply wp_agent_at; [exact H3|].
    wp_step. eapply wp_access; [exact Hp|]. wp_step. eapply wp_block_mem; [exact H3|by left|]. cbn. rewrite <- Hd. wp_step.
    eapply wp_mono; [by apply wp_sign_parse|]. intros r s4 [H4 Hr4].
    eapply wp_mono; [eapply (wp_sign_exit l F F ([(p, d)] ++ F)); [exact H4|by rewrite W2|done|unfold with_response; cbn; rewrite Hp; by exists d]|].
    intros r' s5 (-> & g5 & H5 & (S1 & S2 & S3) & E1 & E2 & E3). exists g5. split_and!; [done| |].
    + unfold signed, agent_kept in *. cbn in S1, S2. rewrite W2 in S1, S2. done.
    + intros (Hs & ? & ? & ? & Hl31) Hreq31. assert (Hl : line sure g req (sign_answer name sig) rest) by by split_and!.
      destruct (L2 Hl) as (Hw & _ & _ & Hrest). cbn in E2, E3. rewrite E2, E3. split_and!; [|done|done].
      unfold sign_answer in Hl31. rewrite lenZ_cons, lenZ_text, lenZ_app, !lenZ_text in Hl31.
      pose proof (lenZ_nonneg name). pose proof (lenZ_nonneg sig). apply Hr4; [done|by apply Hans|lia|lia].
Qed.

(** From the request to the signature. *)
Lemma wp_agent_sign l F g s n e data flags sig rest : agent_idle sure l F a g s -> tx_state (ag_transctx g) = agent_NB_state_init ->
  ag_ops g = true -> ag_identity g = Some n -> (n, e) ∈ l -> sign_flags (Some m) method_len = Some flags ->
  let req := sign_request (en_blob e) data flags in lenZ req < 2 ^ 32 ->
  (sure = true -> answers_with sure g (sign_answer name sig) rest /\ lenZ req < 2 ^ 31) ->
  wp (agent_sign a (Some m) method_len data) (fun r s' => exists g', agent_idle sure l F a g' s' /\ signed g g' /\
    (answers_with sure g (sign_answer name sig) rest -> lenZ req < 2 ^ 31 -> r = (0, sig) /\ ag_wire g' = ag_wire g ++ htonu32 (lenZ req) ++ req /\
       recv_bytes (ag_recv g') = rest)) s.
Proof.
  intros [Hm Hh [Ht1 Ht2]] Hst Hops Hid Hn Hflags req Hlen Hsure. unfold agent_sign. wp_step. eapply wp_agent_at; [exact Hm|]. rewrite Hid.
  wp_step. eapply wp_access; [done|]. wp_step. eapply wp_node_at; [exact Hm|exact Hn|]. wp_step. unfold tx_stage. wp_step.
  eapply wp_agent_at; [exact Hm|]. rewrite Hst, bool_decide_true by done. unfold sign_create. wp_step. eapply wp_blob; [exact Hm|exact Hn|].
  assert (Hbl : ap_blob_len (en_key e) = lenZ (en_blob e)).
  { pose proof (am_lens _ _ _ _ _ _ Hm) as H. rewrite Forall_forall in H. by apply (H _ Hn). }
  wp_step. eapply wp_access; [by apply bytes_at_all|]. wp_step. eapply wp_access; [exact Hflags|]. wp_step. fold req.
  eapply wp_alloc_mem; [exact Hm|..].
  - intros s1 H1 Hs. wp_step. eapply wp_set_transctx; [exact H1|]. intros s2 H2. unfold tx_fail. wp_step. eapply wp_error_agent; [exact H2|].
    intros s3 H3. do 2 wp_step. eexists. split_and!; [split; [exact H3|done|by split]|done|]. intros [? _] _. congruence.
  - intros p s1 H1. wp_step. eapply wp_set_transctx; [exact H1|]. intros s2 H2. wp_step. eapply wp_set_transctx; [exact H2|]. intros s3 H3. wp_step.
    eapply wp_mono; [eapply (wp_sign_transact l F _ _ _ req sig rest H3); try done|].
    + by exists req.
    + by left.
    + intros r s4 (g4 & H4 & S4 & Hok). exists g4. split_and!; [done|exact S4|]. intros Hl. by apply Hok.
Qed.
End Sign.


(** ** Uses of the agent client, good and bad *)

(** *** Sequences of calls *)

(** [UseSign i] is what [libssh2_agent_userauth] has [_libssh2_userauth_publickey] do with
    the [i]-th identity of the list. *)
Inductive agent_use :=
| UseConnect
| UseList
| UseSign (i : nat) (m : list Z) (method_len : Z) (data : list Z)
| UseDisconnect.

Definition use_run (a : ptr) (u : agent_use) : CM Z :=
  match u with
  | UseConnect => libssh2_agent_connect a
  | UseList => libssh2_agent_list_identities a
  | UseSign i m method_len data =>
      let! g := agent_at a in
      match ag_head g !! i with
      | None => ret LIBSSH2_ERROR_BAD_USE
      | Some n =>
          set_agent a (fun g => g <| ag_transctx := transctx_0 |> <| ag_identity := Some n |>) ;;
          let! r := agent_sign a (Some m) method_len data in ret r.1
      end
  | UseDisconnect => libssh2_agent_disconnect a
  end.

Fixpoint uses_run (a : ptr) (us : list agent_use) : CM (list Z) :=
  match us with
  | [] => ret []
  | u :: us => let! rc := use_run a u in let! rcs := uses_run a us in ret (rc :: rcs)
  end.

(** The session's method is a block of at least its length, and a request has less than
    4 GB. *)
Definition use_ok (u : agent_use) : Prop :=
  match u with
  | UseSign _ m method_len data => is_Some (bytes_at m 0 method_len) /\ lenZ data < 2 ^ 31 - 13
  | _ => True
  end.

(** A path that the application has set is a string in a block of its own. *)
Definition path_ok (F : list (ptr * list Z)) (g : agent) : Prop :=
  match ag_identity_path g with Some p => exists b, (p, b) ∈ F /\ is_Some (c_string b) | None => True end.

(** The object is connected, and the agent does not close its end of the connection. *)
Definition in_use (F : list (ptr * list Z)) (a : ptr) (s : session) : Prop :=
  exists l g, agent_idle false l F a g s /\ ag_ops g = true /\ ag_closed g = false /\ path_ok F g.

Section Uses.
Context (F : list (ptr * list Z)) (a : ptr).

Lemma stays_open l g s : agent_mem false l F a g s -> ag_closed g = false.
Proof. intros Hm. by apply (am_recv _ _ _ _ _ _ Hm). Qed.

Lemma in_use_io l g g' s' : agent_mem false l F a g' s' -> io_only g g' -> ag_transctx g' = ag_transctx g -> ag_ops g' = true ->
  ag_head g = l.*1 -> tx_idle g -> path_ok F g -> in_use F a s'.
Proof.
  intros Hm E Et Hops Hh Ht Hp. exists l, g'. split_and!; [|done|by eapply stays_open|unfold path_ok; by rewrite E]. split; [done|by rewrite E|unfold tx_idle; by rewrite Et].
Qed.

Lemma mem_system sure l g s f : (forall y, agents (f y) = agents y) -> agent_mem sure l F a g s ->
  agent_mem sure l F a g (s <| s_agents ::= f |>).
Proof. intros E [H1 H2 H3 H4 H5 H6 H7]. split; try done. simpl. by rewrite E. Qed.

Lemma wp_next_answer sure get put (Q : Z -> session -> Prop) l g s : (forall r y, agents (put r y) = agents y) -> agent_mem sure l F a g s ->
  (forall r s', agent_mem sure l F a g s' -> Q r s') -> wp (next_answer get put) Q s.
Proof.
  intros E Hm HQ. unfold next_answer, set_system. do 2 wp_step. destruct (get (s_agents s)); [wp_step; by apply HQ|]. do 2 wp_step. wp_step. by apply HQ, mem_system.
Qed.

Lemma wp_system_close sure fd (Q : Z -> session -> Prop) l g s : agent_mem sure l F a g s ->
  (forall r s', agent_mem sure l F a g s' -> Q r s') -> wp (system_close fd) Q s.
Proof.
  intros Hm HQ. unfold system_close, system_call, set_system. do 2 wp_step. by eapply wp_next_answer; [done|apply mem_system|].
Qed.

Lemma wp_use_connect s : in_use F a s -> wp (libssh2_agent_connect a) (fun _ s' => in_use F a s') s.
Proof.
  intros (l & g & [Hm Hh Ht] & Hops & Hcl & Hp). unfold libssh2_agent_connect. wp_step. pose proof (am_recv _ _ _ _ _ _ Hm) as Hr.
  eapply wp_set_io; [exact Hm|done|done|]. intros s1 H1. unfold agent_connect_unix. wp_step. eapply wp_agent_at; [exact H1|]. do 2 wp_step.
  assert (Hend : forall g' s', agent_mem false l F a g' s' -> g' = g <| ag_ops := true |> <| ag_fd := ag_fd g' |> -> in_use F a s').
  { intros g' s' H' E. eapply (in_use_io l g g' s'); [done|rewrite E; by destruct g|by rewrite E|by rewrite E|done..]. }
  wp_step. eapply (wp_mono _ (fun _ s' => s' = s1)).
  { unfold path_ok in Hp. cbn. destruct (ag_identity_path g) as [p|]; [|by wp_step]. destruct Hp as (b & Hb & t & Hc).
    wp_step. eapply wp_block_mem; [exact H1|exact Hb|]. wp_step. eapply wp_access; [exact Hc|]. by wp_step. }
  intros [path|] s2 ->; [|eapply wp_error_agent; [exact H1|]; intros s3 H3; by eapply Hend].
  wp_step. eapply wp_next_answer; [done|exact H1|]. intros fd s3 H3. wp_step. eapply wp_set_io; [exact H3|done|done|]. intros s4 H4.
  wp_step; [eapply wp_error_agent; [exact H4|]; intros s5 H5; by eapply Hend|]. unfold system_call, set_system. do 2 wp_step.
  assert (H5 := H4). wp_step. eapply wp_next_answer; [done|eapply mem_system; [|exact H5]; done|]. intros rc s6 H6.
  wp_step; [|wp_step; by eapply Hend]. wp_step. eapply wp_system_close; [exact H6|]. intros r s7 H7. eapply wp_error_agent; [exact H7|].
  intros s8 H8. by eapply Hend.
Qed.

Lemma wp_use_disconnect s : in_use F a s -> wp (libssh2_agent_disconnect a) (fun _ s' => in_use F a s') s.
Proof.
  intros (l & g & [Hm Hh Ht] & Hops & Hcl & Hp). pose proof (am_recv _ _ _ _ _ _ Hm) as Hr.
  assert (Hend : forall g' s', agent_mem false l F a g' s' -> g' = g <| ag_fd := ag_fd g' |> -> in_use F a s').
  { intros g' s' H' E. eapply (in_use_io l g g' s'); [done|rewrite E; by destruct g|by rewrite E|by rewrite E|done..]. }
  assert (Hsame : forall s', agent_mem false l F a g s' -> in_use F a s') by (intros s' H'; apply (Hend g); [done|by destruct g]).
  unfold libssh2_agent_disconnect. wp_step. eapply wp_agent_at; [exact Hm|]. wp_step; [|wp_step; by apply Hsame].
  unfold agent_disconnect_unix. wp_step. eapply wp_agent_at; [exact Hm|]. wp_step. eapply wp_system_close; [exact Hm|]. intros r s1 H1.
  wp_step; [|eapply wp_error_agent; [exact H1|]; intros s2 H2; by apply Hsame].
  wp_step. eapply wp_set_io; [exact H1|done..|]. intros s2 H2. wp_step. by eapply Hend.
Qed.

Lemma kept_path g g' : agent_kept g g' -> path_ok F g -> path_ok F g'.
Proof. unfold path_ok. by intros (_ & _ & _ & ->). Qed.

Lemma wp_use_list s : in_use F a s -> wp (libssh2_agent_list_identities a) (fun _ s' => in_use F a s') s.
Proof.
  intros (l & g & Hi & Hops & Hcl & Hp). eapply wp_mono; [by apply (wp_libssh2_list false a F l g s [] [])|].
  intros rc s' (l' & g' & Hi' & Hk & _). exists l', g'. split_and!; [done|by destruct Hk as (_ & -> & _)| |by eapply kept_path].
  eapply stays_open, (ai_mem _ _ _ _ _ _ Hi').
Qed.

Lemma wp_use_sign i m method_len data s : use_ok (UseSign i m method_len data) -> in_use F a s ->
  wp (use_run a (UseSign i m method_len data)) (fun _ s' => in_use F a s') s.
Proof.
  intros [[name Hname] Hdata] (l & g & [Hm Hh Ht] & Hops & Hcl & Hp). pose proof (am_recv _ _ _ _ _ _ Hm) as Hr. cbn [use_run].
  wp_step. eapply wp_agent_at; [exact Hm|]. destruct (ag_head g !! i) as [n|] eqn:En; [|wp_step; by exists l, g].
  rewrite Hh in En. apply list_lookup_fmap_Some in En as ([n' e] & -> & Hn). apply list_elem_of_lookup_2 in Hn. cbn [fst].
  wp_step. eapply wp_set_io; [exact Hm|done|done|]. intros s1 H1. wp_step.
  pose proof (sign_flags_for _ _ _ Hname) as Hflags. pose proof (am_lens _ _ _ _ _ _ Hm) as Hlen. rewrite Forall_forall in Hlen. destruct (Hlen _ Hn) as [_ Hb].
  eapply wp_mono; [eapply (wp_agent_sign false a m method_len name Hname l F _ s1 n' e data (flags_for name) [] []); try done|].
  - unfold sign_request, store_u32, store_str, store_u32. rewrite !lenZ_app, !lenZ_htonu32. simpl in Hb. change (lenZ [SSH2_AGENTC_SIGN_REQUEST]) with 1. lia.
  - intros r s2 (g2 & H2 & (K2 & _) & _). wp_step. exists l, g2.
    split_and!; [done|by destruct K2 as (_ & -> & _)|eapply stays_open, (ai_mem _ _ _ _ _ _ H2)|by eapply kept_path; [exact K2|]].
Qed.
End Uses.

(** C14: as long as the agent keeps the connection open, whatever it answers and however
    its socket (with errors, or by blocking) and the allocator fail, a sequence of calls that
    connect, list, sign and disconnect returns, uses live memory only, and leaves exactly the
    memory of the current list: no block of a request, an answer, or an earlier list stays
    behind. On a connection that the agent closes the calls do not return
    ([closed_agent_spins], [closed_agent_hangs]). *)
Theorem agent_uses_safe F a us s (Huse : in_use F a s) (Hargs : Forall use_ok us) :
  exists rcs s', uses_run a us s = Ret rcs s' /\ in_use F a s'.
Proof.
  enough (Hw : wp (uses_run a us) (fun _ s' => in_use F a s') s) by (apply wp_Ret in Hw as (rcs & s' & E & H); by exists rcs, s').
  revert s Huse. induction Hargs as [|u us Hu _ IH]; intros s Huse; cbn [uses_run]; [by wp_step|]. wp_step.
  eapply (wp_mono _ (fun _ s' => in_use F a s')).
  - destruct u; [by apply wp_use_connect|by apply wp_use_list|by apply wp_use_sign|by apply wp_use_disconnect].
  - intros rc s1 H1. wp_step. eapply wp_mono; [by apply IH|]. intros rcs s2 H2. by wp_step.
Qed.

(** *** Concrete agents *)

(** A connected agent, the object 1, whose socket delivers [recv] and takes [send]. *)
Definition agent_with (send : list Z) (recv : list recv_outcome) : agent :=
  agent_0 <| ag_fd := 5 |> <| ag_ops := true |> <| ag_send := send |> <| ag_recv := recv |>.

Definition agent_session (g : agent) (heap : gmap ptr (list Z)) : session :=
  session_0 <| s_agents := agent_system_0 <| agents := {[ 1%positive := g ]} |> |> <| s_heap := heap |> <| s_next_ptr := 9%positive |>.

Lemma agent_session_idle send recv sure : Forall outcome_ok recv ->
  agent_idle sure [] [] 1%positive (agent_with send recv) (agent_session (agent_with send recv) ∅).
Proof. intros H. split; [split|..]; try done; split; constructor || done. Qed.

(** Two keys, sent in three pieces. *)
Definition two_keys : list (list Z * list Z) := [([1; 2; 3], str "work"); ([4], [])].

Definition key_pieces : list recv_outcome :=
  let w := text (identities_answer two_keys) in [RecvBytes (take 3 w); RecvFail 0; RecvBytes (drop 3 w ++ [7])].

Lemma agent_lists_keys_witness :
  exists l' g' s', libssh2_agent_list_identities 1%positive (agent_session (agent_with [2] key_pieces) ∅) = Ret 0 s' /\
    agent_idle true l' [] 1%positive g' s' /\ identities l' = two_keys /\
    ag_wire g' = [] ++ htonu32 1 ++ [SSH2_AGENTC_REQUEST_IDENTITIES] /\ recv_bytes (ag_recv g') = [7].
Proof.
  apply (agent_lists_keys 1%positive [] [] (agent_with [2] key_pieces)).
  - apply agent_session_idle. by apply (bool_decide_unpack _); vm_compute.
  - done.
  - split_and!; [done|by repeat constructor|by repeat constructor|done|done].
  - done.
  - by repeat constructor.
Defined.

(** An agent whose list has one key, and which is about to sign with it. *)
Definition one_key : agent_publickey := mk_agent_publickey AGENT_PUBLICKEY_MAGIC (Some 2%positive) 3%positive 3 4%positive.

Definition signing_agent (send : list Z) (recv : list recv_outcome) : agent :=
  (agent_with send recv) <| ag_nodes := {[ 2%positive := one_key ]} |> <| ag_head := [2%positive] |> <| ag_identity := Some 2%positive |>.

Definition signing_session (g : agent) : session := agent_session g (<[3%positive := [1; 2; 3]]> {[ 4%positive := [120; 0] ]}).

Definition one_entry : list (ptr * entry) := [(2%positive, mk_entry one_key [1; 2; 3] [120])].

Lemma signing_idle send recv sure : Forall outcome_ok recv ->
  agent_idle sure one_entry [] 1%positive (signing_agent send recv) (signing_session (signing_agent send recv)).
Proof.
  intros H. split; [split|..]; try done.
  - split; [repeat constructor; by apply not_elem_of_nil|done].
  - by repeat constructor.
  - split; [|done]. apply (bool_decide_unpack _). by vm_compute.
  - simpl. intros p Hp. rewrite lookup_insert_ne, !lookup_singleton_ne by lia. done.
Qed.

Definition rsa_name : list Z := str "rsa-sha2-512".

Definition signature_pieces : list recv_outcome := [RecvBytes (text (sign_answer rsa_name [9; 9]))].


(** An agent that answers with a malformed list, then breaks the connection. *)
Lemma agent_uses_safe_witness :
  let recv := [RecvBytes (text (SSH2_AGENT_IDENTITIES_ANSWER :: htonu32 9 ++ htonu32 200)); RecvFail (-104)] in
  let us := [UseList; UseSign 0 rsa_name 12 [42]; UseList; UseDisconnect; UseConnect] in
  exists rcs s', uses_run 1%positive us (signing_session (signing_agent [3; -32] recv)) = Ret rcs s' /\ in_use [] 1%positive s'.
Proof.
  intros recv us. apply (agent_uses_safe [] 1%positive us).
  - exists one_entry, (signing_agent [3; -32] recv). split_and!; [|done..]. apply signing_idle. by apply (bool_decide_unpack _); vm_compute.
  - repeat (constructor; [by (split; [by eexists|])|]). repeat constructor; by eexists.
Defined.

(** *** What goes wrong *)

(** when the connection fails, the descriptor is closed but stays in the object: freeing
    the agent closes it, or whatever has the number by then, a second time. *)
Theorem failed_connect_closes_twice :
  match (libssh2_agent_connect 1%positive ;; libssh2_agent_free 1%positive)
    (session_0 <| s_agents := mk_agent_system {[ 1%positive := agent_0 ]} (Some (str "/tmp/a")) [7] [-1] [] [] |>) with
  | Ret _ s' => sys_calls (s_agents s') = [AgentConnect 7 (str "/tmp/a"); AgentClose 7; AgentClose 7]
  | _ => False
  end.
Proof. vm_compute. reflexivity. Qed.

(** the block for the path is written without a test of the allocation. *)
Theorem identity_path_unchecked :
  libssh2_agent_set_identity_path 1%positive (Some (str "/tmp/a"))
    ((agent_session (agent_with [] []) ∅) <| s_alloc := [false] |>) = Fault.
Proof. vm_compute. reflexivity. Qed.

(** a connection that the agent has closed, on which [recv] returns 0, is read again
    without end: any number of rounds is too few. *)
Theorem closed_agent_spins rounds : forall a buffer len g s,
  lenZ buffer < len -> agents (s_agents s) !! a = Some g -> ag_recv g = [] -> ag_closed g = true ->
  agent_recv_rounds rounds a buffer len s = OutOfFuel.
Proof.
  intros a buffer len g s Hlen Hg Hr Hc.
  assert (E : agent_recv a (len - lenZ buffer) s = Ret (inl 0) s).
  { unfold agent_recv, agent_at, bind, gets. rewrite Hg. simpl. by rewrite Hr, Hc. }
  apply Z.ltb_lt in Hlen. induction rounds as [|rounds IH]; cbn [agent_recv_rounds]; rewrite Hlen; [done|].
  by rewrite (bind_Ret _ _ _ _ _ E).
Qed.

(** so that the list cannot be asked for. *)
Theorem closed_agent_hangs :
  let g := (agent_with [] [RecvBytes [0; 0]]) <| ag_closed := true |> in
  libssh2_agent_list_identities 1%positive (agent_session g ∅) = OutOfFuel.
Proof. vm_compute. reflexivity. Qed.

(** a call that would block while it waits for the answer is to be made again, and then
    sends the request again: the agent answers twice. *)
Theorem blocked_sign_resends :
  match (let! r1 := agent_sign 1%positive (Some rsa_name) 12 [42] in let! r2 := agent_sign 1%positive (Some rsa_name) 12 [42] in ret (r1, r2))
    (signing_session (signing_agent [] [])) with
  | Ret r s' =>
      r = ((LIBSSH2_ERROR_EAGAIN, []), (LIBSSH2_ERROR_EAGAIN, [])) /\
      let req := text (sign_request [1; 2; 3] [42] SSH_AGENT_RSA_SHA2_512) in
      (ag_wire <$> agents (s_agents s') !! 1%positive) = Some (req ++ req)
  | _ => False
  end.
Proof. vm_compute. split; reflexivity. Qed.
